(* ===== verification/_CoqProject ===== *)
-Q . S2P
Prelude.v
Text.v
Conv.v
Convert.v
PElement.v
PStream.v
StrPs.v
Pe2Ps.v
Ps2Pe.v
Fast.v
Prims.v
Bits.v
Qbuf.v
Oid.v
Time.v
Tpkt.v
Tpkt2fd.v
StrTpkt.v
Tcp.v
Tp0.v
Transfer.v
Tp0Conn.v
Tp0Reply.v
Spkt.v
Spkt2tsdu.v
Tsdu2spkt.v
Spdu.v
Ssap.v
Sreq.v
Sread.v
Swrite.v
Ssdu.v
Session.v
Message.v
Peers.v
Avl.v
StrSpkt.v
Sconn.v
SconnAgree.v
SconnMeet.v
SconnRefuse.v
Dn.v
Acl.v
Sacl.v
Substr.v
Filter.v
Search.v
