(* ===== verification/Prelude.v ===== *)
(** * Verification of the ISODE protocol stack

    ISODE is an implementation of the upper layers of OSI in C. This
    development verifies the layers the rest of the stack is built on:
    libpsap, which turns the values of a protocol into presentation elements
    (the nodes of a tree of ASN.1 values), writes the elements to a
    presentation stream in the Basic Encoding Rules and reads them back; the
    transport layer of libtsap over TCP (RFC 1006), which cuts user data into
    TPDUs, queues what the network does not take and puts the data of the
    peer together; the session layer of libssap, the codec of its protocol
    data units and the protocol machine of a session, from the connection
    that two users agree on to its end; the helpers of h/conv.h, through
    which every length and every octet of the stack passes; and, of the
    directory, the balanced trees and the names of dsap and the access control
    and the search filters of the directory agent quipu.

    ** The program and the files that model it

    The files are listed from the bottom of the library to its top; each one
    states at its head the source files it translates.

    - Prelude: C values and their failures, octets, machine integers, reads
      and writes inside arrays, and the tactics the other files share.
    - Text: what the program uses of sprintf, sscanf and isdigit.
    - Conv, Convert (h/conv.h): the range-checked conversions and the
      size-checked wrappers of the C library. Conv holds those the codec
      calls, at their width; Convert the others, over the types that POSIX
      leaves open.
    - PElement (psap.h, pe_*.c, seq_*.c, set_*.c, prim2set.c): the tree, its
      invariant [pe_ok], its value [pe_value], and the operations on it.
    - PStream (ps_io.c, ps_prime.c, ps_flush.c): a stream is a vector of
      function pointers, the class [PSOps]; the classes [PSReader] and
      [PSWriter] state what the codec relies on. StrPs (str2ps.c) and Qbuf
      (qbuf2ps.c) are instances.
    - Pe2Ps (ps_get_abs.c, pe2ps.c) and Ps2Pe (ps2pe.c): the BER encoder and
      decoder, over any stream of these classes. Fast (pe2qb_f.c, pe2ssdu.c,
      ssdu2pe.c): the encoder into one block and the session data unit.
    - Prims, Bits, Oid, Time: INTEGER, BOOLEAN, OCTET STRING, BIT STRING,
      OBJECT IDENTIFIER, UTCTime and GeneralizedTime between C values,
      elements and text. Qbuf: the queue of buffers in which the session
      layer hands data up, its conversions and its stream.
    - Tpkt, Tpkt2fd (fd2tpkt.c, tpkt.h): the reader and the writer of TPDUs.
      A network is a pair of functions given to them, the classes [TsIn] and
      [TsOut]; [TsReader] and [TsWriter] state what the codec relies on.
      StrTpkt (str2tpkt.c, implode.c, explode.c), Tcp (ts2tcp.c) and Tp0 are
      instances: a block of hexadecimal digits, a TCP connection that
      delivers its octets in pieces of any size, and the writer below.
    - Tp0 (tp0ts.c): the data phase of transport class 0. Its state is
      [tsapblk]: the queue of writes, the TSDU being received, and the two
      directions of the connection. Transfer: what the peer reads of it.
      Tp0Conn: the connection phase, and that two users that connect agree.
      Tp0Reply: what the initiator makes of any answer.
    - Spkt (spkt.h): the structure of an SPDU, whose union is a function from
      the names of its fields, the codes and tables of the session protocol,
      and the octets of a list of parameters. Spkt2tsdu: the writer, which
      fills a block it has sized beforehand. Tsdu2spkt: the reader, which
      pulls octets off a queue of buffers (both tsdu2spkt.c). Spdu: what was
      written, read back.
    - Ssap (ssaprovider.c, ssapwrite.c, ssaplose.c): the session block, the
      monad [sess] of its operations over a session (the block, whether it
      was freed, the indication, the transport service), and the writer and
      the reader of TSDUs. Sreq (ssaptoken.c, ssapminor1.c, ... ): the
      requests and the responses. Sread (ssaprovider.c): the loop of a read,
      its filters and what is made of each SPDU, with [TDATAser] and
      [TDISCser], which the transport service calls. Swrite, Ssdu: an SPDU or
      an SSDU from one session to the other. Session: all requests together.
    - Message, Peers: what two sessions say to each other. Message has the
      SPDUs of the data phase as messages and an abstract specification of
      the requests ([asks]) and of the reads ([hears]); Peers joins two
      sessions by their transport connections ([pair_run]) and proves that
      they implement the exchange of these messages ([run]).
    - StrSpkt (str2spkt.c): the SPDU that a listener hands on as a string.
      Sconn (ssapinitiate.c, ssaprespond.c): the connection phase, what a user
      proposes, what the other answers and what each then keeps ([terms]).
      SconnAgree, SconnMeet: the CN and the AC SPDU as the other end takes
      them, and the sessions they leave, of which Peers speaks. SconnRefuse:
      the RF SPDU.
    - Avl (turbo_avl.c): balanced trees, over a comparison of the caller. Dn
      (dn_cmp.c, dn_seq.c, attrv.c): distinguished names, over the comparisons
      of the attribute syntaxes.
    - Acl (acl_info.c, checkacl.c): entry, attribute and search ACLs. The
      directory that a search reads is the class [Directory]; the results
      counted so far, [sacls], are in a tree of Avl. Sacl: the counts.
    - Substr, Filter (ds_search.c): the search for substrings, and filters:
      [check_filter_presrch] prepares one, [check_filter] tests an entry. The
      functions of the syntaxes are the class [Syntaxes]. Search:
      [filterentry], which an entry passes if the filter and the ACLs let it.

    ** How C is modelled

    A C function is a function to [cres]: [Val] of its result and of the
    objects it changes, or [UB] where the C standard gives the execution no
    meaning or the code calls [abort]. An [int] is an integer with its bounds
    written where the code can leave them ([i32], [u32], ... wrap). A pointer
    into an array is an offset, a read or write outside the array is [UB], and
    a null pointer is [None]. The library may be undefined as well: [sscanf] on
    octets that are no string, [atoi] on a number that is no [int], a list of
    arguments ([va_list]) that is used after another function took from it.
    An element given to a function that changes it is returned with its new
    fields; the source keeps its elements in trees
    that share no node, so that no alias is lost. The allocator is the class
    [Allocator] of Conv: a request may be granted or not. A theorem either
    covers the refusal ([out_of_memory]) or names the hypothesis
    ([memory_ok], [pool_ok]) that excludes it. Static buffers and globals
    are arguments and results.

    Recursion is structural on the tree, on a list of octets or on a list of
    segments, except in the decoder, whose two functions take [fuel]. Each of
    their calls reads an octet, so that the length of the input and one more
    suffices ([ps2pe_total] proves that no input then ends in lack of fuel),
    and in TWrite and TRead: each packet written takes an octet or a vector,
    and each packet read has octets, so that their number and one more
    suffices ([TWrite_TRead]). Each round of the reader of SPDUs takes a
    parameter of two octets or more off the length that is its fuel. A read
    of a session goes round once for each packet there is, two for each TSDU
    that waits, and once more ([unread]).
    The search for a substring may go back once for each character of the
    value, and takes their product ([substr_decides] proves it enough).
    The loops over the bits or the groups of a machine integer run for as
    many steps as its width allows; the lemmas prove that the guard of the
    source ends them before.

    ** What the theorems show

    - The codec. [ps_get_abs_exact]: the lengths computed beforehand are those
      of the octets written. [pe2ps_appends_ber], [pe2ps_string],
      [pe2ssdu_ssdu2pe]: both encoders write the reference encoding [ber] of
      the element's value, definite or not. [ps2pe_decides_grammar]: the
      decoder accepts the encodings of the grammar [enc] and no others, on
      any reader. [ps2pe_pe2ps]: what was written is read back.
      [ps2pe_total]: no input makes the decoder diverge or lack fuel.
      [qbuf2pe_decides]: the same for a queue, however it is cut.
    - Elements. [pe_cmp_decides], [pe_cpy_copies], [pe_pullup_concat]: equality,
      copies and the gathering of segments. [seq_add_insert],
      [seq_del_remove], [set_refines_map]: sequences and
      sets as abstract finite maps.
    - Values. The round trips and the functional behaviour of each type:
      [prim2num_num2prim], [num2prim_prim2num], [prim2flag_flag2prim],
      [prim2str_gathers], [bit_ops_map], [bitstr_roundtrip],
      [prim2oid_obj2prim],
      [prim2oid_decodes], [oid_cmp_total_order], [str2oid_sprintoid] (for
      elements that fit an int),
      [prim2time_time2prim] (of text, and of constructed elements),
      [ut2tm_gtime], [qb2prim_prim2qb].
    - Transport. [fd2tpkt_decides]: the reader of TPDUs accepts one well-formed
      TPDU and nothing else, on any network. [tpkt2fd_fd2tpkt],
      [tpkt2str_str2tpkt]: what is written, or saved as text, is read back.
      [tp0_queue_order]: however writes and drains follow one another, the
      octets sent and queued are the packets written, in order.
      [tp0_drains]: the queue empties. [TWrite_TRead]: a TSDU arrives as it
      was given, from one user to the other. [connection_agrees]: two users
      that connect have the same size, references and options.
      [TRetry_reply]: what the initiator makes of any answer, and the answers
      on which the code is undefined.
    - Two sessions. [peers_refine]: whatever two users do with tokens, minor
      synchronization points and SSDUs, in any order, their sessions do what
      the exchange of messages says. [peers_agree]: no token has two owners, none is lost, and
      serial numbers agree. [peers_deliver]: SSDUs arrive as they were given.
    - Connecting. [session_connects]: two users that connect get the same
      functional units and serial numbers, each token has one owner, and the
      sessions are ones that [peers_refine] speaks of. [session_refuses]: a
      refusal reaches the user that asked. [spkt2str_str2spkt]: an SPDU
      handed on as a string is the same SPDU.
    - One session. [session_typed]: any requests and reads keep the session
      well formed and its terms. [SWriteRequestAux_sb2spkt],
      [ssdu_transfer]: an SPDU, or an SSDU in segments of the agreed size, is
      sent and found by the peer.
    - The codec of SPDUs. [spkt2tsdu_encodes]: an SPDU is written as the reference
      encoding of its parameters. [tsdu2spkt_reads]: any list of parameters
      the tables allow is read, however the queue is cut.
      [tsdu2spkt_spkt2tsdu]: every field that is written is read back.
    - conv.h. [conversions_exact]: on every platform a conversion returns the
      value given or fails, and fails only where the value does not fit.
      Beside it the words of flags and the intervals of time.
    - The directory. [avl_refines], [avl_find_bound], [avl_traversals]: a tree
      is the sorted list of its data, a search is logarithmic in it, the walks
      visit it in order. [base_sacl_decides], [check_acl_decides]: which ACL
      decides, and what it allows. [search_limits]: no search returns more
      entries than the most specific ACL for the type of its filter allows. [filter_kleene]: a filter is
      evaluated in three-valued logic. [filter_blind]: what a user may not
      compare has no influence on what the user finds. [substr_decides]:
      which values, telephone numbers apart, a substring item matches, and on
      which the code reads too far.

    Beside them each file proves, as lemmas, the inputs at which the code
    does not do what it means to (reads past the end, lost bits, aborts).

    ** What is not modelled

    Freeing and closing only release memory and are not modelled, but a
    second release is a result [UB] where the code has one. REAL is left out:
    it needs the arithmetic of double. Of the transport layer, management
    reports, logs, signals and the networks other than TCP are left out; the
    answers of the network and of the functions of the user are part of the
    state. The services above (psap2, acsap,
    rosap, rtsap), the other applications (FTAM, VT, SNMP) and the ASN.1
    compilers are not modelled: they drive descriptors and processes, or are
    generated, or generate. Of psap the vectors of buffers, the in-line
    decoders and the presentation lists are left out, of compat the address
    conversions. Of the directory the attribute syntaxes, which are functions
    of the tables of the program, and the database, the indices, the aliases,
    the referrals and the scheduling of operations of quipu are left out; a
    directory is read, not changed. The functions of the user
    that a session calls are events of [TDATAser]; they may not use the
    session. *)

From Stdlib Require Export ZArith List Lia Bool.
Export ListNotations.
Open Scope Z_scope.

(** ** C values

    A run of a C function either returns ([Val]) or does not ([UB]): it
    performs an operation that the C standard leaves undefined (a read or a
    write outside the object it addresses, the use of an uninitialised
    variable, a second [free]), or it calls [abort]. *)

Inductive cres (A : Type) : Type :=
| Val (a : A)
| UB.
Arguments Val {A} a.
Arguments UB {A}.

Definition cbind {A B} (m : cres A) (k : A -> cres B) : cres B :=
  match m with Val a => k a | UB => UB end.

Definition cmap {A B} (f : A -> B) (m : cres A) : cres B :=
  cbind m (fun a => Val (f a)).

Declare Scope c_scope.
Delimit Scope c_scope with c.
Notation "x <- m ;; k" := (cbind m (fun x => k))
  (at level 61, m at next level, right associativity) : c_scope.
Notation "' p <- m ;; k" := (cbind m (fun x => match x with p => k end))
  (at level 61, p pattern, m at next level, right associativity) : c_scope.

Definition OK : Z := 0.
Definition NOTOK : Z := -1.

(** ** Machine integers

    An object of a C integer type is a [Z] in the range of the type; these
    functions are the conversions to the type (two's complement). The
    target is LP64: [int] and [integer] are 32 bits, [long], [size_t] and
    [ptrdiff_t] 64 bits. *)

Definition INT_MAX : Z := 2147483647.
Definition INT_MIN : Z := -2147483648.
Definition SIZE_MAX : Z := 18446744073709551615.

Definition i32 (z : Z) : Z := (z + 2147483648) mod 4294967296 - 2147483648.
Definition u32 (z : Z) : Z := z mod 4294967296.
Definition u16 (z : Z) : Z := z mod 65536.
Definition u8 (z : Z) : Z := z mod 256.

Definition is_int (z : Z) : Prop := INT_MIN <= z <= INT_MAX.
Definition is_byte (z : Z) : Prop := 0 <= z < 256.
Definition bytes (l : list Z) : Prop := Forall is_byte l.

Definition byteb (z : Z) : bool := (0 <=? z) && (z <? 256).

(** The length of a list as a [Z]. *)
Definition zlen {A} (l : list A) : Z := Z.of_nat (length l).

(** Prefix and suffix at a [Z] offset. *)
Definition ztake {A} (n : Z) (l : list A) : list A := firstn (Z.to_nat n) l.
Definition zdrop {A} (n : Z) (l : list A) : list A := skipn (Z.to_nat n) l.

(** ** Objects in memory

    A buffer is the list of its octets. [rd] reads one octet, [rdn] a run
    of [n], [wr] overwrites a run; each is undefined outside the buffer. *)

Definition rd (b : list Z) (i : Z) : cres Z :=
  if (0 <=? i) && (i <? zlen b) then Val (nth (Z.to_nat i) b 0) else UB.

Definition rdn (b : list Z) (i n : Z) : cres (list Z) :=
  if (0 <=? i) && (0 <=? n) && (i + n <=? zlen b)
  then Val (ztake n (zdrop i b)) else UB.

Definition wr (b : list Z) (i : Z) (d : list Z) : cres (list Z) :=
  if (0 <=? i) && (i + zlen d <=? zlen b)
  then Val (ztake i b ++ d ++ zdrop (i + zlen d) b) else UB.

(** A write into a block of [cap] octets of which only [b] are initialised. *)
Definition wrc (cap : Z) (b : list Z) (i : Z) (d : list Z) : cres (list Z) :=
  if (0 <=? i) && (i <=? zlen b) && (i + zlen d <=? cap)
  then Val (ztake i b ++ d ++ zdrop (i + zlen d) b) else UB.

(** A pointer to a buffer: [None] is the null pointer. A run of length 0
    may be taken from a null pointer. *)
Definition rdn_ptr (p : option (list Z)) (n : Z) : cres (list Z) :=
  match p with
  | Some b => rdn b 0 n
  | None => if n =? 0 then Val [] else UB
  end.

Definition rd_ptr (p : option (list Z)) (i : Z) : cres Z :=
  match p with Some b => rd b i | None => UB end.

(** [memcmp]: lexicographic comparison of two runs of one length. *)
Fixpoint memcmp (x y : list Z) : Z :=
  match x, y with
  | a :: x', b :: y' => if a <? b then -1 else if b <? a then 1 else memcmp x' y'
  | _, _ => 0
  end.

(** * Lemmas the components share *)

Lemma cbind_Val {A B} (m : cres A) (k : A -> cres B) b :
  cbind m k = Val b -> exists a, m = Val a /\ k a = Val b.
Proof. destruct m; simpl; [eauto | discriminate]. Qed.

Section Zlists.
Context {A : Type}.
Implicit Types l m : list A.

Lemma zlen_nonneg l : 0 <= zlen l.
Proof. unfold zlen; lia. Qed.

Lemma zlen_nil : zlen (@nil A) = 0.
Proof. reflexivity. Qed.

Lemma zlen_cons a l : zlen (a :: l) = 1 + zlen l.
Proof. unfold zlen; simpl length; lia. Qed.

Lemma zlen_one (a : A) : zlen [a] = 1.
Proof. reflexivity. Qed.

Lemma zlen_app l m : zlen (l ++ m) = zlen l + zlen m.
Proof. unfold zlen; rewrite length_app; lia. Qed.

Lemma zlen_0 l : zlen l = 0 -> l = [].
Proof. destruct l; [easy | unfold zlen; simpl; lia]. Qed.

Lemma zlen_ztake n l : 0 <= n <= zlen l -> zlen (ztake n l) = n.
Proof. unfold zlen, ztake; intros; rewrite length_firstn; lia. Qed.

Lemma zlen_zdrop n l : 0 <= n <= zlen l -> zlen (zdrop n l) = zlen l - n.
Proof. unfold zlen, zdrop; intros; rewrite length_skipn; lia. Qed.

Lemma ztake_zdrop n l : ztake n l ++ zdrop n l = l.
Proof. apply firstn_skipn. Qed.

Lemma ztake_all n l : zlen l <= n -> ztake n l = l.
Proof. unfold zlen, ztake; intros; apply firstn_all2; lia. Qed.

Lemma zdrop_all n l : zlen l <= n -> zdrop n l = [].
Proof. unfold zlen, zdrop; intros; apply skipn_all2; lia. Qed.

Lemma ztake_0 n l : n <= 0 -> ztake n l = [].
Proof. intros; unfold ztake; replace (Z.to_nat n) with 0%nat by lia; reflexivity. Qed.

Lemma zdrop_0 n l : n <= 0 -> zdrop n l = l.
Proof. intros; unfold zdrop; replace (Z.to_nat n) with 0%nat by lia; reflexivity. Qed.

Lemma ztake_app_l n l m : n <= zlen l -> ztake n (l ++ m) = ztake n l.
Proof.
  unfold zlen, ztake; intros; rewrite firstn_app.
  replace (Z.to_nat n - length l)%nat with 0%nat by lia.
  simpl; apply app_nil_r.
Qed.

Lemma zdrop_app_l n l m : n <= zlen l -> zdrop n (l ++ m) = zdrop n l ++ m.
Proof.
  unfold zlen, zdrop; intros; rewrite skipn_app.
  replace (Z.to_nat n - length l)%nat with 0%nat by lia; reflexivity.
Qed.

Lemma ztake_app_exact n l m : n = zlen l -> ztake n (l ++ m) = l.
Proof. intros ->; rewrite ztake_app_l by lia; apply ztake_all; lia. Qed.

Lemma zdrop_app_exact n l m : n = zlen l -> zdrop n (l ++ m) = m.
Proof. intros ->; rewrite zdrop_app_l by lia; rewrite zdrop_all by lia; reflexivity. Qed.

Lemma zdrop_app_r n l m : zlen l <= n -> zdrop n (l ++ m) = zdrop (n - zlen l) m.
Proof.
  unfold zlen, zdrop; intros; rewrite skipn_app.
  rewrite skipn_all2 by lia; simpl; f_equal; lia.
Qed.

Lemma zdrop_zdrop a b l : 0 <= a -> 0 <= b -> zdrop a (zdrop b l) = zdrop (a + b) l.
Proof. intros; unfold zdrop; rewrite skipn_skipn; f_equal; lia. Qed.

Lemma Forall_ztake (P : A -> Prop) n l : Forall P l -> Forall P (ztake n l).
Proof.
  intros H; rewrite <- (ztake_zdrop n l) in H; apply Forall_app in H; tauto.
Qed.

Lemma Forall_zdrop (P : A -> Prop) n l : Forall P l -> Forall P (zdrop n l).
Proof.
  intros H; rewrite <- (ztake_zdrop n l) in H; apply Forall_app in H; tauto.
Qed.

Lemma app_same_length a b l m : zlen a = zlen b -> a ++ l = b ++ m -> a = b /\ l = m.
Proof.
  intros L E; split.
  - rewrite <- (ztake_app_exact (zlen a) a l), E, L by reflexivity; apply ztake_app_exact; reflexivity.
  - rewrite <- (zdrop_app_exact (zlen a) a l), E, L by reflexivity; apply zdrop_app_exact; reflexivity.
Qed.
End Zlists.

Create HintDb zlists.
Create Rewrite HintDb zlists.
#[export] Hint Rewrite @zlen_nil @zlen_cons @zlen_app : zlists.
#[export] Hint Resolve zlen_nonneg Forall_ztake Forall_zdrop : zlists.

(** Solves arithmetic goals about lengths. *)
Ltac zlen :=
  autorewrite with zlists in *;
  repeat match goal with
  | |- context [zlen ?l] =>
      lazymatch goal with H : 0 <= zlen l |- _ => fail | _ => pose proof (zlen_nonneg l) end
  | H' : context [zlen ?l] |- _ =>
      lazymatch goal with H : 0 <= zlen l |- _ => fail | _ => pose proof (zlen_nonneg l) end
  end; try lia.

(** Turns boolean comparisons of hypotheses and goal into propositions. *)
Ltac bool_to_prop :=
  repeat match goal with
  | H : (_ && _)%bool = true |- _ => apply andb_true_iff in H; destruct H
  | H : (_ || _)%bool = false |- _ => apply orb_false_iff in H; destruct H
  | H : (_ || _)%bool = true |- _ => apply orb_true_iff in H
  | H : (_ && _)%bool = false |- _ => apply andb_false_iff in H
  | H : negb _ = true |- _ => apply negb_true_iff in H
  | H : negb _ = false |- _ => apply negb_false_iff in H
  | H : (_ =? _) = true |- _ => apply Z.eqb_eq in H
  | H : (_ =? _) = false |- _ => apply Z.eqb_neq in H
  | H : (_ <? _) = true |- _ => apply Z.ltb_lt in H
  | H : (_ <? _) = false |- _ => apply Z.ltb_ge in H
  | H : (_ <=? _) = true |- _ => apply Z.leb_le in H
  | H : (_ <=? _) = false |- _ => apply Z.leb_gt in H
  | H : (_ >? _) = _ |- _ => rewrite Z.gtb_ltb in H
  | H : (_ >=? _) = _ |- _ => rewrite Z.geb_leb in H
  end.

(** Case analysis on the innermost test or match of the goal. *)
Ltac case_goal :=
  match goal with
  | |- context [match ?x with _ => _ end] =>
      lazymatch x with
      | context [match _ with _ => _ end] => fail
      | _ => destruct x eqn:?
      end
  end.

Ltac case_hyp H :=
  match type of H with
  | context [match ?x with _ => _ end] =>
      lazymatch x with
      | context [match _ with _ => _ end] => fail
      | _ => destruct x eqn:?
      end
  end.

(** Proves a boolean side condition of a guard by arithmetic. *)
Ltac btrue :=
  repeat rewrite ?andb_true_iff, ?orb_true_iff, ?Z.leb_le, ?Z.ltb_lt, ?Z.eqb_eq,
    ?andb_false_iff, ?orb_false_iff, ?Z.leb_gt, ?Z.ltb_ge, ?Z.eqb_neq, ?negb_true_iff, ?negb_false_iff;
  zlen.

(** ** Machine integers *)

Lemma i32_id z : is_int z -> i32 z = z.
Proof. unfold is_int, INT_MIN, INT_MAX, i32; intros; rewrite Z.mod_small; lia. Qed.

Lemma i32_range z : is_int (i32 z).
Proof.
  unfold is_int, INT_MIN, INT_MAX, i32.
  pose proof (Z.mod_pos_bound (z + 2147483648) 4294967296); lia.
Qed.

Lemma u16_id z : 0 <= z < 65536 -> u16 z = z.
Proof. apply Z.mod_small. Qed.

Lemma u8_id z : is_byte z -> u8 z = z.
Proof. apply Z.mod_small. Qed.

Lemma u8_byte z : is_byte (u8 z).
Proof. apply Z.mod_pos_bound; lia. Qed.

Lemma u32_id z : 0 <= z < 4294967296 -> u32 z = z.
Proof. apply Z.mod_small. Qed.

Lemma land_mask z k : 0 <= k -> Z.land z (2 ^ k - 1) = z mod 2 ^ k.
Proof.
  intros; rewrite <- Z.land_ones by lia; f_equal.
  rewrite Z.ones_equiv; lia.
Qed.

Lemma land_7f z : Z.land z 127 = z mod 128.
Proof. apply (land_mask z 7); lia. Qed.

Lemma land_ff z : Z.land z 255 = z mod 256.
Proof. apply (land_mask z 8); lia. Qed.

Lemma land_1f z : Z.land z 31 = z mod 32.
Proof. apply (land_mask z 5); lia. Qed.

Lemma land_3 z : Z.land z 3 = z mod 4.
Proof. apply (land_mask z 2); lia. Qed.

Lemma land_3fff z : Z.land z 16383 = z mod 16384.
Proof. apply (land_mask z 14); lia. Qed.

(** A disjoint bitwise or is an addition. *)
Lemma lor_add a b k : 0 <= k -> 0 <= b < 2 ^ k -> Z.lor (a * 2 ^ k) b = a * 2 ^ k + b.
Proof.
  intros Hk Hb.
  rewrite <- Z.shiftl_mul_pow2 by lia.
  assert (H0 : Z.land (Z.shiftl a k) b = 0).
  { apply Z.bits_inj'; intros i Hi; rewrite Z.bits_0, Z.land_spec.
    destruct (Z.ltb_spec i k).
    - rewrite Z.shiftl_spec_low by lia; reflexivity.
    - rewrite <- (Z.mod_small b (2 ^ k)) by lia.
      rewrite Z.mod_pow2_bits_high by lia; apply andb_false_r. }
  rewrite <- Z.lxor_lor by exact H0.
  rewrite Z.add_nocarry_lxor by exact H0; reflexivity.
Qed.

Lemma shl_or a b k : 0 <= k -> 0 <= b < 2 ^ k -> Z.lor (Z.shiftl a k) b = a * 2 ^ k + b.
Proof. intros; rewrite Z.shiftl_mul_pow2 by lia; apply lor_add; lia. Qed.

Lemma or_shl8 a b : is_byte b -> Z.lor (Z.shiftl a 8) b = a * 256 + b.
Proof. intros; apply (shl_or a b 8); unfold is_byte in *; lia. Qed.

Lemma shr8 a : Z.shiftr a 8 = a / 256.
Proof. apply (Z.shiftr_div_pow2 a 8); lia. Qed.

Lemma shr7 a : Z.shiftr a 7 = a / 128.
Proof. apply (Z.shiftr_div_pow2 a 7); lia. Qed.

(** Masking with the high bits. *)
Lemma land_high x k : 0 <= k -> Z.land x (- 2 ^ k) = x / 2 ^ k * 2 ^ k.
Proof.
  intros K; rewrite <- Z.shiftr_div_pow2, <- Z.shiftl_mul_pow2, <- Z.ldiff_ones_r, Z.ldiff_land by lia.
  f_equal; rewrite Z.ones_equiv; unfold Z.lnot; lia.
Qed.

Lemma land_high_0 x k : 0 <= k -> 0 <= x -> (Z.land x (- 2 ^ k) =? 0) = (x <? 2 ^ k).
Proof.
  intros K X; rewrite land_high by lia; pose proof (Z.pow_pos_nonneg 2 k ltac:(lia) K).
  pose proof (Z.div_mod x (2 ^ k) ltac:(lia)); pose proof (Z.mod_pos_bound x (2 ^ k) ltac:(lia)).
  destruct (Z.ltb_spec x (2 ^ k)).
  - rewrite Z.div_small by lia; reflexivity.
  - apply Z.eqb_neq; assert (1 <= x / 2 ^ k) by (apply Z.div_le_lower_bound; lia); nia.
Qed.

(** Shifting an octet into an [int]. *)
Lemma len_step a c : is_byte c -> Z.lor (i32 (Z.shiftl (i32 a) 8)) (Z.land c 255) = i32 (a * 256 + c).
Proof.
  intros B; unfold is_byte in B; rewrite land_ff, Z.mod_small, Z.shiftl_mul_pow2 by lia; change (2 ^ 8) with 256.
  assert (E : exists q, i32 (i32 a * 256) = q * 256 /\ -8388608 <= q < 8388608 /\ exists k, q = a + k * 16777216).
  { unfold i32; set (r := (a + 2147483648) mod 4294967296); set (y := (r - 2147483648) * 256 + 2147483648).
    assert (D1 := Z.div_mod (a + 2147483648) 4294967296 ltac:(lia)); fold r in D1.
    assert (D2 := Z.div_mod y 4294967296 ltac:(lia)); assert (M2 := Z.mod_pos_bound y 4294967296 ltac:(lia)).
    set (t := y / 4294967296) in *; set (k := (a + 2147483648) / 4294967296) in *.
    exists (a - k * 4294967296 - t * 16777216); unfold y in *; clearbody r t k; split; [lia|]; split; [lia|].
    exists (- k * 256 - t); lia. }
  destruct E as (q & -> & Q & k & K); change (q * 256) with (q * 2 ^ 8); rewrite (lor_add q c 8) by lia; change (2 ^ 8) with 256.
  rewrite <- (i32_id (q * 256 + c)) by (unfold is_int, INT_MIN, INT_MAX; lia).
  unfold i32; f_equal; rewrite K.
  replace ((a + k * 16777216) * 256 + c + 2147483648) with (a * 256 + c + 2147483648 + k * 4294967296) by lia.
  apply Z_mod_plus_full.
Qed.

(** The 256 octets, for properties decided by enumeration. *)
Definition octets : list Z := map Z.of_nat (seq 0 256).

Lemma byte_forall (f : Z -> bool) :
  forallb f octets = true -> forall b, is_byte b -> f b = true.
Proof.
  intros H b Hb; rewrite forallb_forall in H; apply H.
  apply in_map_iff; exists (Z.to_nat b); unfold is_byte in Hb.
  split; [lia | apply in_seq; lia].
Qed.

Lemma byteb_spec z : byteb z = true <-> is_byte z.
Proof. unfold byteb, is_byte; rewrite andb_true_iff, Z.leb_le, Z.ltb_lt; lia. Qed.

(** ** Buffers *)

Lemma rd_cons0 a l : rd (a :: l) 0 = Val a.
Proof. unfold rd; replace _ with true by (symmetry; btrue); reflexivity. Qed.

Lemma rd_consS a l i : 0 < i -> rd (a :: l) i = rd l (i - 1).
Proof.
  intros; unfold rd; rewrite zlen_cons.
  replace ((0 <=? i - 1) && (i - 1 <? zlen l))%bool
    with ((0 <=? i) && (i <? 1 + zlen l))%bool.
  - destruct (_ && _)%bool eqn:E; [|reflexivity].
    replace (Z.to_nat i) with (S (Z.to_nat (i - 1))) by lia; reflexivity.
  - pose proof (zlen_nonneg l).
    destruct (Z.leb_spec 0 i), (Z.ltb_spec i (1 + zlen l)), (Z.leb_spec 0 (i - 1)),
      (Z.ltb_spec (i - 1) (zlen l)); try reflexivity; lia.
Qed.

Lemma rd_in b i : 0 <= i < zlen b -> rd b i = Val (nth (Z.to_nat i) b 0).
Proof. intros; unfold rd; replace _ with true by (symmetry; btrue); reflexivity. Qed.

Lemma rd_out b i : i < 0 \/ zlen b <= i -> rd b i = UB.
Proof. intros; unfold rd; replace _ with false by (symmetry; btrue); reflexivity. Qed.

Lemma rd_Val b i z : rd b i = Val z -> 0 <= i < zlen b /\ z = nth (Z.to_nat i) b 0.
Proof.
  unfold rd; destruct (_ && _)%bool eqn:E; [|discriminate].
  intros [= <-]; bool_to_prop; lia.
Qed.

Lemma rd_byte b i z : bytes b -> rd b i = Val z -> is_byte z.
Proof.
  intros Hb H; apply rd_Val in H as [Hi ->].
  unfold bytes in Hb; rewrite Forall_forall in Hb; apply Hb, nth_In.
  unfold zlen in Hi; lia.
Qed.

Lemma rd_app_l b c i : i < zlen b -> rd (b ++ c) i = rd b i.
Proof.
  intros H; destruct (Z.ltb_spec i 0).
  - rewrite !rd_out by lia; reflexivity.
  - rewrite !rd_in by zlen; f_equal; apply app_nth1; unfold zlen in *; lia.
Qed.

Lemma rd_app_r b c i : zlen b <= i -> rd (b ++ c) i = rd c (i - zlen b).
Proof.
  intros H; pose proof (zlen_nonneg b); destruct (Z.ltb_spec (i - zlen b) (zlen c)).
  - rewrite !rd_in by zlen; f_equal; rewrite app_nth2 by (unfold zlen in *; lia).
    f_equal; unfold zlen; lia.
  - rewrite !rd_out by zlen; reflexivity.
Qed.

Lemma rdn_in b i n : 0 <= i -> 0 <= n -> i + n <= zlen b -> rdn b i n = Val (ztake n (zdrop i b)).
Proof. intros; unfold rdn; replace _ with true by (symmetry; btrue); reflexivity. Qed.

Lemma rdn_all b : rdn b 0 (zlen b) = Val b.
Proof. rewrite rdn_in by zlen. rewrite zdrop_0, ztake_all by lia; reflexivity. Qed.

Lemma rdn_Val b i n d :
  rdn b i n = Val d -> 0 <= i /\ 0 <= n /\ i + n <= zlen b /\ d = ztake n (zdrop i b) /\ zlen d = n.
Proof.
  unfold rdn; destruct (_ && _)%bool eqn:E; [|discriminate].
  intros [= <-]; bool_to_prop; repeat split; try lia.
  rewrite zlen_ztake; [reflexivity|]; rewrite zlen_zdrop; lia.
Qed.

Lemma rdn_app_l b c i n : i + n <= zlen b -> rdn (b ++ c) i n = rdn b i n.
Proof.
  intros H; unfold rdn.
  destruct ((0 <=? i) && (0 <=? n))%bool eqn:E; [|reflexivity]; bool_to_prop.
  rewrite (proj2 (Z.leb_le (i + n) (zlen b))), (proj2 (Z.leb_le (i + n) (zlen (b ++ c)))) by zlen.
  simpl; f_equal; rewrite zdrop_app_l by lia; apply ztake_app_l.
  rewrite zlen_zdrop; lia.
Qed.

Lemma rdn_bytes b i n d : bytes b -> rdn b i n = Val d -> bytes d.
Proof.
  intros Hb H; apply rdn_Val in H as (_ & _ & _ & -> & _).
  apply Forall_ztake, Forall_zdrop, Hb.
Qed.

Lemma rdn_bind_all {B} b (k : list Z -> cres B) n :
  n = zlen b -> cbind (rdn b 0 n) k = k b.
Proof. intros ->; rewrite rdn_all; reflexivity. Qed.

Lemma wr_in b i d : 0 <= i -> i + zlen d <= zlen b ->
  wr b i d = Val (ztake i b ++ d ++ zdrop (i + zlen d) b).
Proof. intros; unfold wr; replace _ with true by (symmetry; btrue); reflexivity. Qed.

Lemma wr_Val b i d b' : wr b i d = Val b' ->
  0 <= i /\ i + zlen d <= zlen b /\ b' = ztake i b ++ d ++ zdrop (i + zlen d) b /\ zlen b' = zlen b.
Proof.
  unfold wr; destruct (_ && _)%bool eqn:E; [|discriminate].
  intros [= <-]; bool_to_prop; repeat split; try lia.
  rewrite !zlen_app, zlen_ztake, zlen_zdrop by zlen; zlen.
Qed.

Lemma wrc_in cap b i d : 0 <= i <= zlen b -> i + zlen d <= cap ->
  wrc cap b i d = Val (ztake i b ++ d ++ zdrop (i + zlen d) b).
Proof. intros; unfold wrc; replace _ with true by (symmetry; btrue); reflexivity. Qed.

Lemma wrc_end cap b d : zlen b + zlen d <= cap -> wrc cap b (zlen b) d = Val (b ++ d).
Proof.
  intros; rewrite wrc_in by zlen.
  rewrite ztake_all, zdrop_all, app_nil_r by zlen; reflexivity.
Qed.

Lemma bytes_app x y : bytes (x ++ y) <-> bytes x /\ bytes y.
Proof. apply Forall_app. Qed.

Lemma bytes_cons a x : bytes (a :: x) <-> is_byte a /\ bytes x.
Proof. apply Forall_cons_iff. Qed.

Lemma bytes_nil : bytes [].
Proof. constructor. Qed.

#[export] Hint Resolve bytes_nil rd_byte rdn_bytes u8_byte : zlists.

Lemma memcmp_eq x y : length x = length y -> memcmp x y = 0 <-> x = y.
Proof.
  revert y; induction x as [|a x IH]; intros [|b y]; simpl; try easy; intros [= E].
  destruct (Z.ltb_spec a b), (Z.ltb_spec b a); try lia;
    (split; [try discriminate | intros [= ? ?]; lia || (subst; now apply IH)]).
  intros ->%IH; [f_equal; lia | exact E].
Qed.

(** Sequential composition runs on a value. *)
Lemma cbind_assoc {A B D} (m : cres A) (f : A -> cres B) (g : B -> cres D) :
  cbind (cbind m f) g = cbind m (fun a => cbind (f a) g).
Proof. destruct m; reflexivity. Qed.

(** One octet overwritten. *)
Lemma wr1 b i c : 0 <= i < zlen b ->
  exists b', wr b i [c] = Val b' /\ zlen b' = zlen b /\
    forall k, nth k b' 0 = if Nat.eqb k (Z.to_nat i) then c else nth k b 0.
Proof.
  intros R; rewrite wr_in by (zlen; lia); eexists; split; [reflexivity|]; split.
  { rewrite !zlen_app, zlen_ztake, zlen_zdrop by (zlen; lia); zlen. }
  intros k; unfold ztake, zdrop, zlen in *; change (Z.of_nat (length [c])) with 1.
  destruct (Nat.ltb_spec k (Z.to_nat i)) as [L|L].
  - rewrite (proj2 (Nat.eqb_neq _ _)), app_nth1 by (rewrite ?length_firstn; lia).
    rewrite nth_firstn; replace (k <? Z.to_nat i)%nat with true by (symmetry; apply Nat.ltb_lt; lia); reflexivity.
  - rewrite app_nth2, length_firstn by (rewrite length_firstn; lia).
    replace (k - Nat.min (Z.to_nat i) (length b))%nat with (k - Z.to_nat i)%nat by lia.
    destruct (Nat.eqb_spec k (Z.to_nat i)) as [->|N]; [rewrite Nat.sub_diag; reflexivity|].
    rewrite app_nth2 by (simpl; lia); rewrite nth_skipn; f_equal; simpl; lia.
Qed.

Lemma bytes_nth b k : bytes b -> is_byte (nth k b 0).
Proof.
  intros B; destruct (Nat.lt_ge_cases k (length b)).
  - unfold bytes in B; rewrite Forall_forall in B; apply B, nth_In; assumption.
  - rewrite nth_overflow by assumption; unfold is_byte; lia.
Qed.

Lemma bytes_of_nth b : (forall k, is_byte (nth k b 0)) -> bytes b.
Proof.
  intros H; apply Forall_forall; intros x I; destruct (In_nth b x 0 I) as (k & _ & <-); apply H.
Qed.
