(* ===== verification/Text.v ===== *)
(** * Decimal text: what the program uses of sprintf, sscanf and isdigit

    A C string is the list of its characters. The functions of the C library
    that print and read decimal numbers, with the lemmas that take what one
    prints to what the other reads. The argument of [sscanf] has to be a
    string, with its terminator: on octets that no null terminates it is
    undefined (C11 7.21.6.7, 7.1.1), whatever of them it would need. *)

From S2P Require Import Prelude.
Open Scope Z_scope.
Open Scope c_scope.

(** ** Printing *)

(** The characters of [%u]. *)
Fixpoint utoa (fuel : nat) (n : Z) : list Z :=
  match fuel with
  | O => []
  | S fuel' => (if n <? 10 then [] else utoa fuel' (n / 10)) ++ [48 + n mod 10]
  end.

Definition print_u (n : Z) : list Z := utoa 10 n.

(** The characters of [%0wd]. *)
Definition print_0d (w n : Z) : list Z :=
  let sign := if n <? 0 then [45] else [] in
  let ds := utoa 10 (Z.abs n) in
  sign ++ repeat 48 (Z.to_nat (w - zlen sign - zlen ds)) ++ ds.

(** ** Reading *)

Definition is_digit (c : Z) : bool := (48 <=? c) && (c <=? 57).

Fixpoint span_digits (s : list Z) : list Z * list Z :=
  match s with
  | c :: s' => if is_digit c then let '(ds, r) := span_digits s' in (c :: ds, r) else ([], s)
  | [] => ([], [])
  end.

(** The number a run of digits denotes. *)
Definition digits_value (ds : list Z) : Z := fold_left (fun a c => a * 10 + (c - 48)) ds 0.

Definition is_space (c : Z) : bool := (c =? 32) || ((9 <=? c) && (c <=? 13)).

Fixpoint skip_space (s : list Z) : cres (list Z) :=
  match s with
  | [] => UB
  | c :: s' => if is_space c then skip_space s' else Val s
  end.

(** At most [w] digits, and the rest of the string. *)
Fixpoint scan_digits (w : nat) (s : list Z) : cres (list Z * list Z) :=
  match w, s with
  | O, _ => Val ([], s)
  | S _, [] => UB
  | S w', c :: s' =>
      if is_digit c then ' (ds, r) <- scan_digits w' s';; Val (c :: ds, r) else Val ([], s)
  end.

(** The conversion [%wd]; [None] is a matching or an input failure. *)
Definition scan_d (w : nat) (s : list Z) : cres (option (Z * list Z)) :=
  s <- skip_space s;;
  match s with
  | [] => UB
  | c :: s' =>
      let '(sign, w, s) :=
        if c =? 45 then (-1, pred w, s') else if c =? 43 then (1, pred w, s') else (1, w, s) in
      ' (ds, r) <- scan_digits w s;;
      Val (match ds with [] => None | _ :: _ => Some (sign * digits_value ds, r) end)
  end.

(** A format of such conversions: their values, when all of them succeed. *)
Fixpoint scan_fields (ws : list nat) (s : list Z) : cres (option (list Z)) :=
  match ws with
  | [] => Val (Some [])
  | w :: ws' =>
      r <- scan_d w s;;
      match r with
      | None => Val None
      | Some (n, s') => cmap (option_map (cons n)) (scan_fields ws' s')
      end
  end.

(** There is a null in the array. *)
Definition terminated (s : list Z) : bool := existsb (Z.eqb 0) s.

Definition sscanf (ws : list nat) (s : list Z) : cres (option (list Z)) :=
  if terminated s then scan_fields ws s else UB.

(** * Lemmas *)

Lemma span_digits_app ds r : Forall (fun c => is_digit c = true) ds ->
  match r with [] => True | c :: _ => is_digit c = false end -> span_digits (ds ++ r) = (ds, r).
Proof.
  induction 1 as [|c ds C _ IH]; intros R; cbn [app span_digits].
  - destruct r as [|c r]; [reflexivity|]; simpl; rewrite R; reflexivity.
  - rewrite C, IH by exact R; reflexivity.
Qed.

Lemma utoa_spec fuel : forall n, 0 <= n < 10 ^ Z.of_nat fuel -> (0 < fuel)%nat ->
  Forall (fun c => is_digit c = true) (utoa fuel n) /\ utoa fuel n <> [] /\ (length (utoa fuel n) <= fuel)%nat /\
  fold_left (fun a c => a * 10 + (c - 48)) (utoa fuel n) 0 = n.
Proof.
  induction fuel as [|fuel IH]; intros n R F; [lia|]; cbn [utoa].
  pose proof (Z.mod_pos_bound n 10 ltac:(lia)) as M; pose proof (Z.div_mod n 10 ltac:(lia)) as D.
  assert (Dg : is_digit (48 + n mod 10) = true).
  { unfold is_digit; apply andb_true_iff; split; [apply Z.leb_le | apply Z.leb_le]; lia. }
  destruct (Z.ltb_spec n 10).
  - cbn [app fold_left length]; split; [repeat constructor; exact Dg|]; split; [discriminate|]; split; [lia|].
    rewrite Z.mod_small by lia; lia.
  - rewrite Nat2Z.inj_succ, Z.pow_succ_r in R by lia.
    destruct (IH (n / 10)) as (A & B & C & E).
    + split; [apply Z.div_pos; lia | apply Z.div_lt_upper_bound; lia].
    + destruct fuel; [cbn in R; lia | lia].
    + split; [apply Forall_app; split; [exact A | repeat constructor; exact Dg]|].
      split; [intros Q; apply app_eq_nil in Q; destruct Q; discriminate|].
      split; [rewrite length_app; simpl; lia|].
      rewrite fold_left_app, E; cbn [fold_left]; lia.
Qed.

Lemma digits_value_app a b : digits_value (a ++ b) = digits_value a * 10 ^ zlen b + digits_value b.
Proof.
  unfold digits_value; rewrite fold_left_app; generalize (fold_left (fun a c => a * 10 + (c - 48)) a 0) as x.
  induction b as [|c b IH] using rev_ind; intros x; [cbn; lia|].
  rewrite !fold_left_app, IH; cbn [fold_left]; rewrite zlen_app, zlen_one, Z.pow_add_r by (try lia; apply zlen_nonneg); lia.
Qed.

Lemma digits_value_zeros k ds : digits_value (repeat 48 k ++ ds) = digits_value ds.
Proof. unfold digits_value; induction k; cbn [repeat app fold_left]; [reflexivity | exact IHk]. Qed.

Lemma utoa_fuel w : forall fuel n, 0 <= n < 10 ^ Z.of_nat w -> (0 < w <= fuel)%nat -> utoa fuel n = utoa w n.
Proof.
  induction w as [|w IH]; intros [|fuel] n R F; try lia; cbn [utoa].
  destruct (Z.ltb_spec n 10); [reflexivity|]; f_equal.
  rewrite Nat2Z.inj_succ, Z.pow_succ_r in R by lia; destruct w; [cbn in R; lia|].
  apply IH; [|lia]; split; [apply Z.div_pos; lia | apply Z.div_lt_upper_bound; lia].
Qed.

(** A number of at most [w] digits is printed in exactly [w]. *)
Lemma print_0d_spec w n : (0 < w <= 10)%nat -> 0 <= n < 10 ^ Z.of_nat w ->
  Forall (fun c => is_digit c = true) (print_0d (Z.of_nat w) n) /\ length (print_0d (Z.of_nat w) n) = w /\
  digits_value (print_0d (Z.of_nat w) n) = n.
Proof.
  intros W N; unfold print_0d; destruct (Z.ltb_spec n 0); [lia|]; rewrite Z.abs_eq by lia; cbn [app].
  rewrite (utoa_fuel w) by lia; destruct (utoa_spec w n N) as (D & _ & L & V); [lia|].
  change (zlen (@nil Z)) with 0; split; [|split].
  - apply Forall_app; split; [|exact D]; apply Forall_forall; intros c C; apply repeat_spec in C; subst; reflexivity.
  - rewrite length_app, repeat_length; unfold zlen; lia.
  - rewrite digits_value_zeros; exact V.
Qed.

Lemma digit_not_space c : is_digit c = true -> is_space c = false /\ (c =? 45) = false /\ (c =? 43) = false.
Proof.
  unfold is_digit, is_space; intros D; apply andb_true_iff in D as [D1 D2]; apply Z.leb_le in D1, D2.
  rewrite !(proj2 (Z.eqb_neq c _)) by lia; rewrite (proj2 (Z.leb_gt c 13)) by lia; rewrite andb_false_r; auto.
Qed.

Lemma scan_digits_app ds r : Forall (fun c => is_digit c = true) ds -> scan_digits (length ds) (ds ++ r) = Val (ds, r).
Proof.
  induction 1 as [|c ds C _ IH]; cbn [length app scan_digits]; [reflexivity|]; rewrite C, IH; reflexivity.
Qed.

(** [%wd] reads back what [%0wd] printed, and no further. *)
Lemma scan_print w n r : (0 < w <= 10)%nat -> 0 <= n < 10 ^ Z.of_nat w ->
  scan_d w (print_0d (Z.of_nat w) n ++ r) = Val (Some (n, r)).
Proof.
  intros W N; destruct (print_0d_spec w n W N) as (D & L & V); revert D L V.
  generalize (print_0d (Z.of_nat w) n) as ds; intros ds D L V; unfold scan_d; subst w.
  destruct ds as [|c ds]; [simpl in W; lia|]; inversion D as [|? ? C D']; subst.
  destruct (digit_not_space c C) as (S1 & S2 & S3); cbn [app skip_space]; rewrite S1; cbn [cbind].
  rewrite S2, S3; change (c :: ds ++ r) with ((c :: ds) ++ r); rewrite scan_digits_app by exact D; cbn [cbind].
  rewrite Z.mul_1_l; reflexivity.
Qed.

Lemma terminated_app a b : terminated b = true -> terminated (a ++ b) = true.
Proof. unfold terminated; rewrite existsb_app; intros ->; apply orb_true_r. Qed.

Lemma terminated_none s : Forall (fun c => c <> 0) s -> terminated s = false.
Proof.
  induction 1 as [|c s C _ IH]; cbn [terminated existsb]; [reflexivity|].
  rewrite (proj2 (Z.eqb_neq 0 c)) by congruence; exact IH.
Qed.

(** One conversion after another, on what precedes a terminated string. *)
Lemma sscanf_print w n ws r : (0 < w <= 10)%nat -> 0 <= n < 10 ^ Z.of_nat w -> terminated r = true ->
  sscanf (w :: ws) (print_0d (Z.of_nat w) n ++ r) = cmap (option_map (cons n)) (sscanf ws r).
Proof.
  intros W N T; unfold sscanf; rewrite (terminated_app _ _ T), T; cbn [scan_fields]; rewrite scan_print by assumption; reflexivity.
Qed.

Lemma sscanf_nil r : terminated r = true -> sscanf [] r = Val (Some []).
Proof. intros T; unfold sscanf; rewrite T; reflexivity. Qed.
