(* ===== verification/Conv.v ===== *)
(** * h/conv.h: range-checked conversions and size-checked libc wrappers

    Each [X2Y] helper returns 0 and stores its result, or returns -1; it is
    modelled as an [option]. The allocator of the C library is the class
    [Allocator]: which requests it grants is not known to the program. *)

From S2P Require Import Prelude.
Open Scope Z_scope.

Definition sizet2int (n : Z) : option Z := if n >? INT_MAX then None else Some n.

Definition int2sizet (n : Z) : option Z := if n <? 0 then None else Some n.

Definition ptrdiff2int (n : Z) : option Z :=
  if (n <? INT_MIN) || (n >? INT_MAX) then None else Some n.

Definition long2int (n : Z) : option Z :=
  if (n <? INT_MIN) || (n >? INT_MAX) then None else Some n.

Definition uint2int (n : Z) : option Z := if n >? INT_MAX then None else Some n.

Definition int2u8 (n : Z) : option Z :=
  if (n <? 0) || (n >? 255) then None else Some n.

Definition int2u16 (n : Z) : option Z :=
  if (n <? 0) || (n >? 65535) then None else Some n.

(** [*acc += n], refused when an operand is negative or the sum overflows. *)
Definition add_int_to_int (acc n : Z) : option Z :=
  if (n <? 0) || (acc <? 0) || (acc >? INT_MAX - n) then None else Some (acc + n).

Definition u8_bis (v bits : Z) : Z := u8 (Z.lor v bits).

Definition u8_bic (v bits : Z) : Z := u8 (Z.land v (Z.lnot bits)).

(** The unsigned octet of a [char]: a buffer holds octets already. *)
Definition as_octet (c : Z) : Z := u8 c.

(** Stores an octet in a [char]. *)
Definition octet2char (n : Z) : option Z := Some (u8 n).

Definition int2octet (n : Z) : option Z :=
  match int2u8 n with Some u => octet2char u | None => None end.

(** [char_bis (&p, bits)]: the new value of the byte. *)
Definition char_bis (p bits : Z) : option Z :=
  if bits >? 255 then None else octet2char (u8_bis (as_octet p) bits).

(** [BUFSIZ] of stdio.h, the size of many buffers. *)
Definition BUFSIZ : Z := 8192.

(** ** Allocation *)

Class Allocator := {
  (** whether [malloc], [calloc] or [realloc] of so many bytes succeeds *)
  malloc_ok : Z -> bool;
  (** whether [pe_alloc] finds a free element, or memory for a new block *)
  pe_pool_ok : Z -> Z -> Z -> bool
}.

(** Memory that never runs out. *)
Definition plenty : Allocator := {| malloc_ok _ := true; pe_pool_ok _ _ _ := true |}.

Section Alloc.
Context `{Allocator}.

(** Whether the call returns a block; its contents are the caller's. *)
Definition malloc_int (n : Z) : bool :=
  match int2sizet n with Some len => malloc_ok len | None => false end.

(** [realloc (p, 0)] frees [p] and returns NULL. *)
Definition realloc_int (n : Z) : bool :=
  match int2sizet n with Some len => negb (len =? 0) && malloc_ok len | None => false end.

Definition malloc_nmemb (n size : Z) : bool :=
  match int2sizet n with
  | Some count =>
      if negb (size =? 0) && (count >? SIZE_MAX / size) then false
      else malloc_ok (count * size)
  | None => false
  end.

Definition malloc_plus_int (base extra : Z) : bool :=
  match int2sizet extra with
  | Some n => if n >? SIZE_MAX - base then false else malloc_ok (n + base)
  | None => false
  end.
End Alloc.

(** Every request for memory, and for an element, is granted. *)
Definition memory_ok `{Allocator} : Prop := forall n, malloc_ok n = true.

Definition pool_ok `{Allocator} : Prop := forall class form id, pe_pool_ok class form id = true.

(** ** Copies *)

(** [bcopy_int (src, dst, n)] to the start of a fresh block: what it holds. *)
Definition bcopy_int (src : option (list Z)) (n : Z) : cres (option (list Z)) :=
  match int2sizet n with
  | Some len => cmap Some (rdn_ptr src len)
  | None => Val None
  end.

Definition bcmp_int (a b : option (list Z)) (n : Z) : cres Z :=
  match int2sizet n with
  | Some len => (x <- rdn_ptr a len;; y <- rdn_ptr b len;; Val (memcmp x y))%c
  | None => Val (-1)
  end.

Definition bzero_int (n : Z) : option (list Z) :=
  match int2sizet n with Some len => Some (repeat 0 (Z.to_nat len)) | None => None end.

(** * Laws *)

Lemma int2u8_Some n : is_byte n -> int2u8 n = Some n.
Proof. unfold int2u8, is_byte; intros; replace _ with false by (symmetry; rewrite Z.gtb_ltb; btrue); reflexivity. Qed.

Lemma int2u8_inv n m : int2u8 n = Some m -> m = n /\ is_byte m.
Proof.
  unfold int2u8, is_byte; destruct (_ || _)%bool eqn:E; [discriminate|].
  intros [= <-]; bool_to_prop; bool_to_prop; lia.
Qed.

Lemma int2u16_Some n : 0 <= n < 65536 -> int2u16 n = Some n.
Proof. unfold int2u16; intros; replace _ with false by (symmetry; rewrite Z.gtb_ltb; btrue); reflexivity. Qed.

Lemma int2sizet_Some n : 0 <= n -> int2sizet n = Some n.
Proof. unfold int2sizet; intros; rewrite (proj2 (Z.ltb_ge n 0)) by lia; reflexivity. Qed.

Lemma int2sizet_inv n m : int2sizet n = Some m -> m = n /\ 0 <= n.
Proof.
  unfold int2sizet; destruct (Z.ltb_spec n 0); [discriminate | intros [= <-]; lia].
Qed.

Lemma int2octet_Some n : is_byte n -> int2octet n = Some n.
Proof. intros H; unfold int2octet, octet2char; rewrite int2u8_Some, u8_id by exact H; reflexivity. Qed.

Lemma ptrdiff2int_Some n : is_int n -> ptrdiff2int n = Some n.
Proof.
  unfold ptrdiff2int, is_int; intros.
  replace _ with false by (symmetry; rewrite Z.gtb_ltb; btrue); reflexivity.
Qed.

Lemma add_int_to_int_Some acc n :
  0 <= acc -> 0 <= n -> acc + n <= INT_MAX -> add_int_to_int acc n = Some (acc + n).
Proof.
  unfold add_int_to_int; intros.
  replace _ with false by (symmetry; rewrite Z.gtb_ltb; btrue); reflexivity.
Qed.

(** The accumulator only ever holds an exact non-negative sum. *)
Lemma add_int_to_int_inv acc n s :
  add_int_to_int acc n = Some s -> s = acc + n /\ 0 <= acc /\ 0 <= n /\ s <= INT_MAX.
Proof.
  unfold add_int_to_int; destruct (_ || _)%bool eqn:E; [discriminate|].
  intros [= <-]; bool_to_prop; bool_to_prop; lia.
Qed.

Lemma as_octet_id c : is_byte c -> as_octet c = c.
Proof. apply u8_id. Qed.

Lemma malloc_int_plenty n : 0 <= n -> @malloc_int plenty n = true.
Proof. intros; unfold malloc_int; rewrite int2sizet_Some by lia; reflexivity. Qed.

Lemma malloc_int_nonneg `{Allocator} n : malloc_int n = true -> 0 <= n.
Proof.
  unfold malloc_int; destruct (int2sizet n) eqn:E; [|discriminate].
  apply int2sizet_inv in E; lia.
Qed.

Lemma bcopy_int_all b : bcopy_int (Some b) (zlen b) = Val (Some b).
Proof.
  unfold bcopy_int, rdn_ptr; rewrite int2sizet_Some by zlen; rewrite rdn_all; reflexivity.
Qed.

#[export] Hint Resolve int2u8_Some int2u16_Some int2octet_Some int2sizet_Some : zlists.
