(* ===== verification/Convert.v ===== *)
(** * h/conv.h: the conversions between the integer types of C and POSIX

    The helpers of conv.h that [Conv] does not hold. The types POSIX leaves
    open ([uid_t], [time_t], [socklen_t], [char], ...) are those of a
    [Platform], signed or not and of any width up to that of [intmax_t]; the
    types of the language are those of LP64. A helper [X2Y] is the function
    from the value given to the value stored in [*out], or [None] when it
    returns -1; [out] is the address of a variable in every call.
    [conversions_exact] is the contract conv.h states for all of them at
    once, whatever the platform. The conversions to [float] and [double] are
    not modelled. *)

From S2P Require Import Prelude Conv.
Open Scope Z_scope.
Open Scope c_scope.

(** ** Integer types *)

Record ctype := CT { ct_signed : bool; ct_width : Z }.

Definition ct_min (t : ctype) : Z := if ct_signed t then - 2 ^ (ct_width t - 1) else 0.
Definition ct_max (t : ctype) : Z := if ct_signed t then 2 ^ (ct_width t - 1) - 1 else 2 ^ ct_width t - 1.

Definition in_type (t : ctype) (n : Z) : Prop := ct_min t <= n <= ct_max t.
Definition fits (t : ctype) (n : Z) : bool := (ct_min t <=? n) && (n <=? ct_max t).

(** The conversion [(t) n] of C, which wraps. *)
Definition cast (t : ctype) (n : Z) : Z :=
  if ct_signed t then (n + 2 ^ (ct_width t - 1)) mod 2 ^ ct_width t - 2 ^ (ct_width t - 1)
  else n mod 2 ^ ct_width t.

Definition CHAR8 := CT true 8.
Definition UINT8 := CT false 8.
Definition SHORT := CT true 16.
Definition USHORT := CT false 16.
Definition INT := CT true 32.
Definition UINT := CT false 32.
Definition LONG := CT true 64.
Definition ULONG := CT false 64.
Definition SIZE := CT false 64.
Definition SSIZE := CT true 64.
Definition PTRDIFF := CT true 64.
Definition INTMAX := CT true 64.
Definition UINTMAX := CT false 64.

(** The integer promotions. *)
Definition promote (t : ctype) : ctype := if ct_width t <? 32 then INT else t.

(** [a - b] in the promoted type: a signed overflow is undefined. *)
Definition ct_sub (t : ctype) (a b : Z) : cres Z :=
  let p := promote t in
  if ct_signed p then if fits p (a - b) then Val (a - b) else UB
  else Val (cast p (a - b)).

(** [(t) -1 > (t) 0], conv.h's test of an unsigned type. *)
Definition is_unsigned (t : ctype) : bool := cast t (-1) >? cast t 0.

(** The types the platform chooses. *)
Class Platform := {
  t_char : ctype; t_uid : ctype; t_gid : ctype; t_mode : ctype; t_socklen : ctype;
  t_tcflag : ctype; t_cc : ctype; t_time : ctype; t_off : ctype;
  t_safamily : ctype; t_inport : ctype
}.

(** A type no wider than [intmax_t]. *)
Definition type_ok (t : ctype) : Prop := 8 <= ct_width t <= 64.

Definition platform_ok `{Platform} : Prop :=
  Forall type_ok [t_uid; t_gid; t_mode; t_socklen; t_tcflag; t_time; t_off; t_safamily; t_inport] /\
  ct_width t_char = 8 /\ ct_signed t_cc = false /\ type_ok t_cc /\ ct_signed t_off = true.

(** The types of Linux on x86-64. *)
Definition linux : Platform := {|
  t_char := CHAR8; t_uid := UINT; t_gid := UINT; t_mode := UINT; t_socklen := UINT;
  t_tcflag := UINT; t_cc := UINT8; t_time := LONG; t_off := LONG;
  t_safamily := USHORT; t_inport := USHORT |}.

(** ** Conversions *)

Definition ssize2int (n : Z) : option Z :=
  if (n <? INT_MIN) || (n >? INT_MAX) then None else Some (cast INT n).

Definition ssize2sizet (n : Z) : option Z :=
  if (n <? 0) || (cast UINTMAX n >? SIZE_MAX) then None else Some (cast SIZE n).

Definition long2uint (n : Z) : option Z :=
  if (n <? 0) || (cast ULONG n >? ct_max UINT) then None else Some (cast UINT n).

Definition long2sizet (n : Z) : option Z :=
  if (n <? 0) || (cast UINTMAX n >? SIZE_MAX) then None else Some (cast SIZE n).

Definition ulong2int (n : Z) : option Z := if n >? INT_MAX then None else Some (cast INT n).

Definition ulong2uint (n : Z) : option Z := if n >? ct_max UINT then None else Some (cast UINT n).

Definition int2uint (n : Z) : option Z := if n <? 0 then None else Some (cast UINT n).

Definition int2ulong (n : Z) : option Z := if n <? 0 then None else Some (cast ULONG n).

Definition long2ulong (n : Z) : option Z := if n <? 0 then None else Some (cast ULONG n).

Definition ulong2long (n : Z) : option Z := if n >? ct_max LONG then None else Some (cast LONG n).

Definition ptrdiff2sizet (n : Z) : option Z :=
  if (n <? 0) || (cast UINTMAX n >? SIZE_MAX) then None else Some (cast SIZE n).

Definition u8toint (n : Z) : option Z := Some (cast INT n).

Definition int2u32 (n : Z) : option Z :=
  if (n <? 0) || (cast UINTMAX n >? ct_max UINT) then None else Some (cast UINT n).

Definition u32toint (n : Z) : option Z := if n >? INT_MAX then None else Some (cast INT n).

Definition sizet2ushort (n : Z) : option Z := if n >? ct_max USHORT then None else Some (cast USHORT n).

Definition uint2ushort (n : Z) : option Z := if n >? ct_max USHORT then None else Some (cast USHORT n).

Definition int2short (n : Z) : option Z :=
  if (n <? ct_min SHORT) || (n >? ct_max SHORT) then None else Some (cast SHORT n).

Definition u16to8 (n : Z) : option Z := if n >? 255 then None else Some (cast UINT8 n).

Definition u16tooctet (n : Z) : option Z :=
  match u16to8 n with Some u => octet2char u | None => None end.

Definition u32to16 (n : Z) : option Z := if n >? 65535 then None else Some (cast USHORT n).

Definition long2u32 (n : Z) : option Z :=
  if (n <? 0) || (cast UINTMAX n >? ct_max UINT) then None else Some (cast UINT n).

Definition long2octet (n : Z) : option Z :=
  match long2int n with Some i => int2octet i | None => None end.

Definition sizet2u8 (n : Z) : option Z := if n >? 255 then None else Some (cast UINT8 n).

Definition sizet2octet (n : Z) : option Z :=
  match sizet2u8 n with Some u => octet2char u | None => None end.

Definition ptrdiff2octet (n : Z) : option Z :=
  match ptrdiff2int n with Some i => int2octet i | None => None end.

Definition int32_to_int (n : Z) : option Z :=
  if (n <? INT_MIN) || (n >? INT_MAX) then None else Some (cast INT n).

Definition long2int32 (n : Z) : option Z :=
  if (n <? ct_min INT) || (n >? ct_max INT) then None else Some (cast INT n).

Definition llong2int32 (n : Z) : option Z :=
  if (n <? ct_min INT) || (n >? ct_max INT) then None else Some (cast INT n).

Definition uintmax2int (n : Z) : option Z := if n >? INT_MAX then None else Some (cast INT n).

Definition intmax2int (n : Z) : option Z :=
  if (n <? INT_MIN) || (n >? INT_MAX) then None else Some (cast INT n).

Definition uint2octet (n : Z) : option Z := if n >? 255 then None else octet2char (cast UINT8 n).

Definition u32tooctet (n : Z) : option Z := if n >? 255 then None else octet2char (cast UINT8 n).

(** [p] is the pointer as an unsigned integer. *)
Definition caddr2int (p : Z) : option Z := ssize2int (cast SSIZE p).

Definition ptrdiff_plus1_to_int (n : Z) : option Z :=
  match ptrdiff2int n with
  | Some i => if i =? INT_MAX then None else Some (i + 1)
  | None => None
  end.

Definition u8_minus_sizet (a b : Z) : option Z :=
  if cast SIZE a <? b then None else sizet2int (cast SIZE (cast SIZE a - b)).

Definition add_sizet_to_int (acc n : Z) : option Z :=
  match sizet2int n with
  | Some i => if (acc <? 0) || (acc >? INT_MAX - i) then None else Some (acc + i)
  | None => None
  end.

Section Platform.
Context `{Platform}.

(** The common text of [uid2int], [gid2int], [mode2int], [time_t2int] and
    [off2int]. *)
Definition posix2int (t : ctype) (n : Z) : option Z :=
  if is_unsigned t then
    if cast UINTMAX n >? cast UINTMAX INT_MAX then None else Some (cast INT n)
  else if (cast INTMAX n <? INT_MIN) || (cast INTMAX n >? INT_MAX) then None
  else Some (cast INT n).

(** The common text of [int2uid], [int2gid], [int2mode], [int2socklen],
    [int2tflag], [int2safamily] and [int2inport]. *)
Definition int2posix (t : ctype) (n : Z) : option Z :=
  if is_unsigned t then
    if (n <? 0) || (cast UINTMAX n >? cast UINTMAX (cast t (-1))) then None else Some (cast t n)
  else
    let v := cast t n in
    if negb (cast INT v =? n) then None else Some v.

Definition uid2int (n : Z) : option Z := posix2int t_uid n.

Definition gid2int (n : Z) : option Z := posix2int t_gid n.

Definition mode2int (n : Z) : option Z := posix2int t_mode n.

Definition time_t2int (n : Z) : option Z := posix2int t_time n.

Definition off2int (n : Z) : option Z := posix2int t_off n.

Definition int2uid (n : Z) : option Z := int2posix t_uid n.

Definition int2gid (n : Z) : option Z := int2posix t_gid n.

Definition int2mode (n : Z) : option Z := int2posix t_mode n.

Definition int2socklen (n : Z) : option Z := int2posix t_socklen n.

Definition int2tflag (n : Z) : option Z := int2posix t_tcflag n.

Definition int2safamily (n : Z) : option Z := int2posix t_safamily n.

Definition int2inport (n : Z) : option Z := int2posix t_inport n.

Definition off2sizet (n : Z) : option Z :=
  if (n <? 0) || (cast UINTMAX n >? SIZE_MAX) then None else Some (cast SIZE n).

Definition sizet2socklen (n : Z) : option Z :=
  if is_unsigned t_socklen then
    if cast UINTMAX n >? cast UINTMAX (cast t_socklen (-1)) then None else Some (cast t_socklen n)
  else
    let sl := cast t_socklen n in
    if (sl <? 0) || negb (cast SIZE sl =? n) then None else Some sl.

Definition socklen2int (n : Z) : option Z :=
  if is_unsigned t_socklen then
    if cast UINTMAX n >? cast UINTMAX INT_MAX then None else Some (cast INT n)
  else
    let i := cast INT n in
    if negb (cast t_socklen i =? n) then None else Some i.

Definition cct2char (c : Z) : option Z :=
  if cast UINTMAX c >? cast UINTMAX (ct_max t_char) then None else Some (cast t_char c).

Definition u8tochar (n : Z) : option Z :=
  if n >? cast UINT8 (ct_max t_char) then None else Some (cast t_char n).

Definition int2char (n : Z) : option Z :=
  if (n <? ct_min t_char) || (n >? ct_max t_char) then None else Some (cast t_char n).

Definition char2sizet (n : Z) : option Z := int2sizet (cast INT n).

Definition long2char (n : Z) : option Z :=
  match long2int n with Some i => int2char i | None => None end.

Definition sizet2char (n : Z) : option Z :=
  match sizet2int n with Some i => int2char i | None => None end.

Definition ptrdiff2char (n : Z) : option Z :=
  match ptrdiff2int n with Some i => int2char i | None => None end.

(** The value stored in the [outsz] octets at [out]. *)
Definition long2sint_n (n outsz : Z) : option Z :=
  if outsz =? 4 then long2int32 n
  else if outsz =? 8 then Some n
  else if outsz =? 4 then long2int n
  else if outsz =? 2 then match long2int n with Some v => int2short v | None => None end
  else if outsz =? 1 then match long2int n with Some v => int2char v | None => None end
  else None.

(** ** Flag words *)

Definition tflag_bic (v bits : Z) : option Z :=
  match int2tflag bits with
  | Some m => Some (cast t_tcflag (Z.land v (Z.lnot m)))
  | None => None
  end.

Definition tflag_bis (v bits : Z) : option Z :=
  match int2tflag bits with Some m => Some (cast t_tcflag (Z.lor v m)) | None => None end.

Definition uid_nochg : Z := cast t_uid (Z.lnot (cast t_uid 0)).

Definition gid_nochg : Z := cast t_gid (Z.lnot (cast t_gid 0)).

Definition mode_retype (mode old_fmt new_fmt : Z) : option Z :=
  match int2mode old_fmt, int2mode new_fmt with
  | Some oldm, Some newm => Some (cast t_mode (Z.lor (Z.land mode (Z.lnot oldm)) newm))
  | _, _ => None
  end.
End Platform.

Definition u16_bis (v bits : Z) : Z := cast USHORT (Z.lor v bits).

Definition u16_bic (v bits : Z) : Z := cast USHORT (Z.land v (cast UINT (Z.lnot bits))).

Definition as_ushort (n : Z) : Z := cast USHORT n.

Definition ushort2short (n : Z) : option Z := Some (cast SHORT n).

(** The new value of [*p], as for [char_bis]. *)
Definition short_bis (p bits : Z) : option Z :=
  if bits >? 65535 then None else ushort2short (u16_bis (as_ushort p) bits).

Definition short_bic (p bits : Z) : option Z :=
  if bits >? 65535 then None else ushort2short (u16_bic (as_ushort p) bits).

Definition ushort_bis (p bits : Z) : option Z :=
  if bits >? 65535 then None else Some (u16_bis p bits).

Definition ushort_bic (p bits : Z) : option Z :=
  if bits >? 65535 then None else Some (u16_bic p bits).

Definition ushort_add (p n : Z) : option Z := uint2ushort (cast UINT (p + n)).

Definition char_bic (p bits : Z) : option Z :=
  if bits >? 255 then None else octet2char (u8_bic (as_octet p) bits).

Definition char_bxor (p bits : Z) : option Z :=
  if bits >? 255 then None else octet2char (cast UINT8 (Z.lxor (as_octet p) bits)).

(** ** Intervals of time *)

(** struct timeval; [tv_usec] is a [long]. *)
Record timeval := TV { tv_sec : Z; tv_usec : Z }.

Section Times.
Context `{Platform}.

Definition time_delta2int (later now : Z) : cres (option Z) :=
  if later <=? now then Val (Some 0)
  else cmap (fun d => time_t2int (cast t_time d)) (ct_sub t_time later now).

Definition timeval_centisecs (later earlier : timeval) : cres (option Z) :=
  secs <- time_delta2int (tv_sec later) (tv_sec earlier);;
  match secs with
  | None => Val None
  | Some secs =>
      usec <- ct_sub LONG (tv_usec later) (tv_usec earlier);;
      let '(secs, usec) :=
        if usec <? 0 then if secs =? 0 then (secs, 0) else (secs - 1, usec + 1000000)
        else (secs, usec) in
      if secs >? Z.quot INT_MAX 100 then Val None
      else
        let ticks := secs * 100 in
        match long2int (Z.quot usec 10000) with
        | None => Val None
        | Some usec_part =>
            if ticks >? INT_MAX - usec_part then Val None else Val (Some (ticks + usec_part))
        end
  end.

Definition timeval_millis (tv : timeval) : option Z :=
  match time_t2int (tv_sec tv) with
  | None => None
  | Some secs =>
      if secs <? 0 then None
      else
        match long2int (Z.quot (tv_usec tv) 1000) with
        | None => None
        | Some msec =>
            if msec <? 0 then None
            else if secs >? Z.quot (INT_MAX - msec) 1000 then None
            else int2u32 (secs * 1000 + msec)
        end
  end.
End Times.

(** ** Strings and copies *)

Fixpoint strlen (s : list Z) : cres Z :=
  match s with
  | [] => UB
  | c :: s' => if c =? 0 then Val 0 else cmap (fun n => n + 1) (strlen s')
  end.

Definition strlen2int (s : option (list Z)) : cres (option Z) :=
  match s with None => Val None | Some s => cmap sizet2int (strlen s) end.

Definition strlen1_to_int (s : option (list Z)) : cres (option Z) :=
  cmap (fun n => match n with Some n => add_int_to_int n 1 | None => None end) (strlen2int s).

Fixpoint strncmp (a b : list Z) (n : nat) : cres Z :=
  match n with
  | O => Val 0
  | S n' =>
      match a, b with
      | x :: a', y :: b' =>
          if x =? y then if x =? 0 then Val 0 else strncmp a' b' n' else Val (if x <? y then -1 else 1)
      | _, _ => UB
      end
  end.

Definition strncmp_int (a b : list Z) (n : Z) : cres Z :=
  match int2sizet n with Some len => strncmp a b (Z.to_nat len) | None => Val (-1) end.

Definition min_len_cap (len cap : Z) : option Z :=
  match ptrdiff2sizet len with
  | Some n => sizet2int (if n >? cap then cap else n)
  | None => None
  end.

(** The result, [*out_cc] and what [dst] holds. *)
Definition copy_capped (src dst : option (list Z)) (len cap : Z) : cres (Z * Z * option (list Z)) :=
  match ptrdiff2sizet len with
  | None => Val (-1, 0, dst)
  | Some n =>
      let n := if n >? cap then cap else n in
      match sizet2int n with
      | None => Val (-1, 0, dst)
      | Some out_cc =>
          if out_cc >? 0 then
            match src, dst with
            | Some s, Some d =>
                data <- rdn s 0 n;;
                d' <- wr d 0 data;;
                Val (0, out_cc, Some d')
            | _, _ => Val (-1, 0, dst)
            end
          else Val (0, out_cc, dst)
      end
  end.

(** The buffer and the cursor after the call. *)
Definition put_octet (buf : list Z) (pp n : Z) : cres (option (list Z * Z)) :=
  match int2octet n with
  | Some u => buf' <- wr buf pp [u];; Val (Some (buf', pp + 1))
  | None => Val None
  end.

(** ** Memory *)

Definition nmemb_bytes (n size : Z) : option Z :=
  match int2sizet n with
  | Some count =>
      if negb (size =? 0) && (count >? Z.quot SIZE_MAX size) then None else Some (cast SIZE (count * size))
  | None => None
  end.

Definition calloc_int `{Allocator} (n size : Z) : bool :=
  match int2sizet n with
  | Some count =>
      if negb (size =? 0) && (count >? Z.quot SIZE_MAX size) then false else malloc_ok (count * size)
  | None => false
  end.

Definition realloc_nmemb `{Allocator} (n size : Z) : bool :=
  match int2sizet n with
  | Some count =>
      if negb (size =? 0) && (count >? Z.quot SIZE_MAX size) then false
      else negb (cast SIZE (count * size) =? 0) && malloc_ok (cast SIZE (count * size))
  | None => false
  end.

(** ** Calls of the C library

    The result of the call and [errno] where the helper sets it. *)

Definition EINVAL : Z := 22.
Definition EOVERFLOW : Z := 75.

Section Calls.
(** [chmod] of a mode, [read], [write], [fread] and [fwrite] of a count and
    [fgets] of a size, as they answer now. *)
Context `{Platform} (chmod read write fread fwrite : Z -> Z) (fgets : Z -> option (list Z)).

Definition chmod_int (mode : Z) : Z * option Z :=
  match int2mode mode with Some m => (chmod m, None) | None => (-1, Some EINVAL) end.

Definition read_int (n : Z) : Z * option Z :=
  match int2sizet n with Some len => (read len, None) | None => (-1, Some EINVAL) end.

Definition write_int (n : Z) : Z * option Z :=
  match int2sizet n with Some len => (write len, None) | None => (-1, Some EINVAL) end.

Definition fread_int (nmemb : Z) : Z * option Z :=
  match int2sizet nmemb with
  | None => (-1, Some EINVAL)
  | Some n => match sizet2int (fread n) with Some out => (out, None) | None => (-1, Some EOVERFLOW) end
  end.

Definition fwrite_int (nmemb : Z) : Z * option Z :=
  match int2sizet nmemb with
  | None => (-1, Some EINVAL)
  | Some n => match sizet2int (fwrite n) with Some out => (out, None) | None => (-1, Some EOVERFLOW) end
  end.

(** [room] is [ep - s]. *)
Definition fgets_room (room : Z) : option (list Z) :=
  match min_len_cap room (INT_MAX - 1) with
  | None => None
  | Some n => match add_int_to_int n 1 with Some n => fgets n | None => None end
  end.
End Calls.

Section Sorting.
Context {A : Type} (qsort : list A -> list A).

(** The result and the array. *)
Definition qsort_int (base : list A) (n : Z) : Z * list A :=
  match int2sizet n with
  | Some count => (0, qsort (ztake count base) ++ zdrop count base)
  | None => (-1, base)
  end.

Definition qsort_ptrdiff (base : list A) (n : Z) : Z * list A :=
  match ptrdiff2sizet n with
  | Some count => (0, qsort (ztake count base) ++ zdrop count base)
  | None => (-1, base)
  end.
End Sorting.

(** * What the conversions promise *)

(** [f] takes the values of [s] to [d]: the value itself if [d] has it, a
    failure otherwise. *)
Definition exact (s d : ctype) (f : Z -> option Z) : Prop :=
  forall n, in_type s n -> f n = if fits d n then Some n else None.

(** The conversions of conv.h with their types. [UINT8] is also the type of
    an octet stored in a [char]. *)
Definition conversions `{Platform} : list (ctype * ctype * (Z -> option Z)) :=
  [(SIZE, INT, sizet2int); (INT, SIZE, int2sizet); (SSIZE, INT, ssize2int); (SSIZE, SIZE, ssize2sizet);
   (LONG, INT, long2int); (LONG, UINT, long2uint); (LONG, SIZE, long2sizet); (ULONG, INT, ulong2int);
   (ULONG, UINT, ulong2uint); (UINT, INT, uint2int); (INT, UINT, int2uint); (INT, ULONG, int2ulong);
   (LONG, ULONG, long2ulong); (ULONG, LONG, ulong2long); (PTRDIFF, INT, ptrdiff2int);
   (PTRDIFF, SIZE, ptrdiff2sizet); (INT, UINT8, int2u8); (UINT8, INT, u8toint); (INT, USHORT, int2u16);
   (INT, UINT, int2u32); (UINT, INT, u32toint); (SIZE, USHORT, sizet2ushort); (UINT, USHORT, uint2ushort);
   (INT, SHORT, int2short); (USHORT, UINT8, u16to8); (USHORT, UINT8, u16tooctet); (UINT, USHORT, u32to16);
   (LONG, UINT, long2u32); (INT, UINT8, int2octet); (LONG, UINT8, long2octet); (SIZE, UINT8, sizet2u8);
   (SIZE, UINT8, sizet2octet); (PTRDIFF, UINT8, ptrdiff2octet); (INT, INT, int32_to_int);
   (LONG, INT, long2int32); (LONG, INT, llong2int32); (UINTMAX, INT, uintmax2int);
   (INTMAX, INT, intmax2int); (UINT, UINT8, uint2octet); (UINT, UINT8, u32tooctet);
   (t_uid, INT, uid2int); (t_gid, INT, gid2int); (t_mode, INT, mode2int); (t_time, INT, time_t2int);
   (t_off, INT, off2int); (INT, t_uid, int2uid); (INT, t_gid, int2gid); (INT, t_mode, int2mode);
   (INT, t_socklen, int2socklen); (INT, t_tcflag, int2tflag); (INT, t_safamily, int2safamily);
   (INT, t_inport, int2inport); (t_off, SIZE, off2sizet); (SIZE, t_socklen, sizet2socklen);
   (t_socklen, INT, socklen2int); (t_cc, t_char, cct2char); (UINT8, t_char, u8tochar);
   (INT, t_char, int2char); (t_char, SIZE, char2sizet); (LONG, t_char, long2char);
   (SIZE, t_char, sizet2char); (PTRDIFF, t_char, ptrdiff2char); (LONG, LONG, fun n => long2sint_n n 8);
   (LONG, INT, fun n => long2sint_n n 4); (LONG, SHORT, fun n => long2sint_n n 2);
   (LONG, t_char, fun n => long2sint_n n 1)].

Lemma fits_spec t n : Bool.reflect (in_type t n) (fits t n).
Proof. apply iff_reflect; unfold in_type, fits; rewrite andb_true_iff, !Z.leb_le; tauto. Qed.

Lemma exact_intro s d f :
  (forall n, in_type s n -> in_type d n -> f n = Some n) ->
  (forall n, in_type s n -> ~ in_type d n -> f n = None) -> exact s d f.
Proof. intros Y N n S; destruct (fits_spec d n); [apply Y | apply N]; assumption. Qed.

Lemma exact_compose s m d f g : exact s m f -> exact m d g ->
  (forall n, in_type s n -> in_type d n -> in_type m n) ->
  exact s d (fun n => match f n with Some i => g i | None => None end).
Proof.
  intros F G Sub n Hs; rewrite F by exact Hs; destruct (fits_spec m n) as [M|M].
  - rewrite G by exact M; reflexivity.
  - destruct (fits_spec d n); [destruct M; auto | reflexivity].
Qed.

Lemma pow_succ w : 1 <= w -> 2 ^ w = 2 * 2 ^ (w - 1) /\ 0 < 2 ^ (w - 1).
Proof.
  intros W; split; [|apply Z.pow_pos_nonneg; lia].
  rewrite <- Z.pow_succ_r by lia; f_equal; lia.
Qed.

Lemma cast_id t n : 1 <= ct_width t -> in_type t n -> cast t n = n.
Proof.
  intros W; destruct (pow_succ _ W) as [E P]; unfold in_type, cast, ct_min, ct_max.
  destruct (ct_signed t); intros R; [|apply Z.mod_small; lia].
  rewrite Z.mod_small by lia; lia.
Qed.

Lemma cast_in t n : 1 <= ct_width t -> in_type t (cast t n).
Proof.
  intros W; destruct (pow_succ _ W) as [E P]; unfold in_type, cast, ct_min, ct_max.
  destruct (ct_signed t).
  - pose proof (Z.mod_pos_bound (n + 2 ^ (ct_width t - 1)) (2 ^ ct_width t)); lia.
  - pose proof (Z.mod_pos_bound n (2 ^ ct_width t)); lia.
Qed.

Lemma cast_congr t n m : 1 <= ct_width t -> n mod 2 ^ ct_width t = m mod 2 ^ ct_width t -> cast t n = cast t m.
Proof.
  intros W E; unfold cast; destruct (ct_signed t); [|exact E].
  rewrite Z.add_mod, E, <- Z.add_mod by (pose proof (pow_succ _ W); lia); reflexivity.
Qed.

Lemma cast_minus1 t : 1 <= ct_width t -> cast t (-1) = if ct_signed t then -1 else ct_max t.
Proof.
  intros W; destruct (pow_succ _ W) as [E P]; unfold ct_max.
  destruct (ct_signed t) eqn:S; [apply cast_id; [exact W | unfold in_type, ct_min, ct_max; rewrite S; lia]|].
  unfold cast; rewrite S; symmetry; apply (Z.mod_unique_pos _ _ (-1)); lia.
Qed.

Lemma is_unsigned_spec t : 1 <= ct_width t -> is_unsigned t = negb (ct_signed t).
Proof.
  intros W; destruct (pow_succ _ W) as [E P]; unfold is_unsigned; rewrite cast_minus1 by exact W.
  rewrite (cast_id t 0) by (try exact W; unfold in_type, ct_min, ct_max; destruct (ct_signed t); lia).
  rewrite Z.gtb_ltb; unfold ct_max; destruct (ct_signed t); [reflexivity|]; apply Z.ltb_lt; lia.
Qed.

(** Replaces the bounds of the types of C by their values. *)
Ltac bound b :=
  let v := eval vm_compute in b in
  match v with
  | Z0 => progress change b with v in *
  | Zpos _ => progress change b with v in *
  | Zneg _ => progress change b with v in *
  end.
Ltac bounds :=
  unfold in_type, INT_MIN, INT_MAX, SIZE_MAX in *;
  repeat match goal with
  | |- context [ct_max ?t] => bound (ct_max t)
  | |- context [ct_min ?t] => bound (ct_min t)
  | _ : context [ct_max ?t] |- _ => bound (ct_max t)
  | _ : context [ct_min ?t] |- _ => bound (ct_min t)
  end.

(** A cast that keeps its argument. *)
Ltac cast_ids :=
  repeat match goal with
  | |- context [cast ?t ?n] =>
      rewrite (cast_id t n) in * by (solve [cbn; lia | assumption | bounds; lia])
  | _ : context [cast ?t ?n] |- _ =>
      rewrite (cast_id t n) in * by (solve [cbn; lia | assumption | bounds; lia])
  end.

Ltac ifs :=
  repeat match goal with
  | |- context [if ?b then _ else _] =>
      let E := fresh "E" in destruct b eqn:E; bool_to_prop
  end.

Ltac exact_guard :=
  apply exact_intro; intros n Hs Hd;
  [cast_ids | idtac]; bounds; ifs; cast_ids; try reflexivity; try lia.

Lemma octet2char_exact : exact UINT8 UINT8 octet2char.
Proof. apply exact_intro; intros n Hs Hd; [|easy]; unfold octet2char; f_equal; apply u8_id; exact (conj (proj1 Hs) (Zle_lt_succ _ _ (proj2 Hs))). Qed.

Lemma int2u8_exact : exact INT UINT8 int2u8.
Proof. unfold int2u8; exact_guard. Qed.

Lemma u16to8_exact : exact USHORT UINT8 u16to8.
Proof. unfold u16to8; exact_guard. Qed.

Lemma sizet2u8_exact : exact SIZE UINT8 sizet2u8.
Proof. unfold sizet2u8; exact_guard. Qed.

Lemma sizet2int_exact : exact SIZE INT sizet2int.
Proof. unfold sizet2int; exact_guard. Qed.

Lemma long2int_exact : exact LONG INT long2int.
Proof. unfold long2int; exact_guard. Qed.

Create HintDb exacts.
#[local] Hint Resolve octet2char_exact int2u8_exact u16to8_exact sizet2u8_exact sizet2int_exact long2int_exact : exacts.

(** A conversion through a type between the two. *)
Ltac exact_via m :=
  apply (exact_compose _ m); [eauto with exacts | eauto with exacts | intros; bounds; lia].

Lemma int2octet_exact : exact INT UINT8 int2octet.
Proof. unfold int2octet; exact_via UINT8. Qed.

Lemma ptrdiff2int_exact : exact PTRDIFF INT ptrdiff2int.
Proof. unfold ptrdiff2int; exact_guard. Qed.

Lemma uint2octet_exact : exact UINT UINT8 uint2octet.
Proof.
  unfold uint2octet; exact_guard; bounds; unfold octet2char; f_equal; apply u8_id; unfold is_byte; lia.
Qed.

Lemma int2short_exact : exact INT SHORT int2short.
Proof. unfold int2short; exact_guard. Qed.

#[local] Hint Resolve int2octet_exact int2short_exact ptrdiff2int_exact : exacts.

Section PosixTypes.
Context `{Platform} (t : ctype) (T : type_ok t).

(** A type of POSIX is signed and has the bounds of its width, or is not. *)
Lemma posix_bounds :
  (is_unsigned t = false /\ ct_min t = - 2 ^ (ct_width t - 1) /\ ct_max t = 2 ^ (ct_width t - 1) - 1) \/
  (is_unsigned t = true /\ ct_min t = 0 /\ ct_max t = 2 ^ ct_width t - 1 /\ cast t (-1) = ct_max t).
Proof.
  unfold type_ok in T; rewrite is_unsigned_spec, cast_minus1 by lia; unfold ct_min, ct_max.
  destruct (ct_signed t); [left | right]; auto.
Qed.

Lemma width_split : 1 <= ct_width t /\ 2 ^ ct_width t <= 2 ^ 64 /\ 2 ^ (ct_width t - 1) <= 2 ^ 63 /\ 0 < 2 ^ (ct_width t - 1).
Proof.
  unfold type_ok in T; repeat split; [lia | apply Z.pow_le_mono_r; lia | apply Z.pow_le_mono_r; lia|].
  apply Z.pow_pos_nonneg; lia.
Qed.

Lemma posix2int_exact : exact t INT (posix2int t).
Proof.
  destruct width_split as (W & P1 & P2 & P3).
  unfold posix2int; destruct posix_bounds as [(-> & Mi & Ma)|(-> & Mi & Ma & _)];
    apply exact_intro; intros n Hs Hd; unfold in_type in Hs; rewrite Mi, Ma in Hs; cast_ids;
    bounds; ifs; cast_ids; try reflexivity; try lia.
Qed.

(** Either the type holds every [int] or it lies within [int]. *)
Lemma wide_or_narrow :
  (is_unsigned t = false -> (forall n, in_type INT n -> in_type t n) \/ (forall n, in_type t n -> in_type INT n)).
Proof.
  destruct posix_bounds as [(-> & Mi & Ma)|(-> & _)]; [intros _ | discriminate].
  unfold in_type; rewrite Mi, Ma; bounds.
  destruct (Z.le_gt_cases 32 (ct_width t)); [left | right]; intros n R.
  - pose proof (Z.pow_le_mono_r 2 31 (ct_width t - 1)); lia.
  - pose proof (Z.pow_le_mono_r 2 (ct_width t - 1) 31); lia.
Qed.

Lemma int2posix_exact : exact INT t (int2posix t).
Proof.
  destruct width_split as (W & P1 & P2 & P3).
  unfold int2posix; destruct posix_bounds as [(U & Mi & Ma)|(U & Mi & Ma & C)]; rewrite U.
  - pose proof (wide_or_narrow U) as WN.
    apply exact_intro; intros n Hs Hd; cbv zeta.
    + rewrite (cast_id t n), (cast_id INT n), Z.eqb_refl by first [assumption | cbn; lia]; reflexivity.
    + destruct WN as [WN|WN]; [destruct Hd; auto|].
      pose proof (cast_in t n W) as V; rewrite (cast_id INT (cast t n)) by first [cbn; lia | apply WN, V].
      destruct (Z.eqb_spec (cast t n) n) as [E|]; [rewrite E in V; contradiction | reflexivity].
  - rewrite C; apply exact_intro; intros n Hs Hd; rewrite Ma in *;
      rewrite (cast_id UINTMAX (2 ^ ct_width t - 1)) by (first [cbn; lia | bounds; lia]).
    + unfold in_type in Hd; rewrite Mi, Ma in Hd; rewrite (cast_id t n) by (try lia; unfold in_type; lia).
      cast_ids; ifs; try reflexivity; lia.
    + unfold in_type in Hd; rewrite Mi, Ma in Hd; bounds; ifs; cast_ids; try reflexivity; lia.
Qed.
End PosixTypes.

Section Platforms.
Context `{Platform} (Ok : platform_ok).

Lemma socklen_ok : type_ok t_socklen.
Proof. destruct Ok as (T & _); repeat apply Forall_cons_iff in T as [? T]; assumption. Qed.

Lemma socklen2int_exact : exact t_socklen INT socklen2int.
Proof.
  pose proof socklen_ok as T; destruct (width_split _ T) as (W & P1 & P2 & P3).
  unfold socklen2int; destruct (posix_bounds _ T) as [(U & Mi & Ma)|(U & Mi & Ma & C)]; rewrite U.
  - pose proof (wide_or_narrow _ T U) as WN; apply exact_intro; intros n Hs Hd; cbv zeta.
    + rewrite (cast_id INT n), (cast_id t_socklen n), Z.eqb_refl by first [assumption | cbn; lia]; reflexivity.
    + destruct WN as [WN|WN]; [|destruct Hd; auto].
      pose proof (cast_in INT n) as V; rewrite (cast_id t_socklen) by first [assumption | apply WN, V; cbn; lia].
      destruct (Z.eqb_spec (cast INT n) n) as [E|]; [|reflexivity].
      rewrite E in V; destruct Hd; apply V; cbn; lia.
  - apply exact_intro; intros n Hs Hd; unfold in_type in Hs; rewrite Mi, Ma in Hs;
      cast_ids; bounds; ifs; cast_ids; try reflexivity; lia.
Qed.

Lemma sizet2socklen_exact : exact SIZE t_socklen sizet2socklen.
Proof.
  pose proof socklen_ok as T; destruct (width_split _ T) as (W & P1 & P2 & P3).
  unfold sizet2socklen; destruct (posix_bounds _ T) as [(U & Mi & Ma)|(U & Mi & Ma & C)]; rewrite U.
  - apply exact_intro; intros n Hs Hd; cbv zeta.
    + rewrite (cast_id t_socklen n) by assumption; cast_ids.
      rewrite Z.eqb_refl; bounds; ifs; [lia | reflexivity].
    + pose proof (cast_in t_socklen n W) as V; destruct (Z.ltb_spec (cast t_socklen n) 0); [reflexivity|]; cbn [orb].
      unfold in_type in V; rewrite Mi, Ma in V; rewrite (cast_id SIZE) by first [cbn; lia | bounds; lia].
      destruct (Z.eqb_spec (cast t_socklen n) n) as [E|]; [|reflexivity].
      destruct Hd; unfold in_type; rewrite Mi, Ma, <- E; lia.
  - rewrite C; apply exact_intro; intros n Hs Hd; unfold in_type in Hd; rewrite Mi, Ma in *;
      rewrite (cast_id UINTMAX (2 ^ ct_width t_socklen - 1)) by (first [cbn; lia | bounds; lia]); cast_ids.
    + ifs; [lia | reflexivity].
    + bounds; ifs; [reflexivity | lia].
Qed.

(** The bounds of [char], signed or not. *)
Lemma char_cases : (ct_min t_char = -128 /\ ct_max t_char = 127) \/ (ct_min t_char = 0 /\ ct_max t_char = 255).
Proof.
  destruct Ok as (_ & W & _); unfold ct_min, ct_max; rewrite W; destruct (ct_signed t_char); auto.
Qed.

Lemma char_width : 1 <= ct_width t_char.
Proof. destruct Ok as (_ & -> & _); lia. Qed.

Lemma cast_char n : ct_min t_char <= n <= ct_max t_char -> cast t_char n = n.
Proof. apply cast_id, char_width. Qed.

Lemma int2char_exact : exact INT t_char int2char.
Proof.
  unfold int2char; apply exact_intro; intros n Hs Hd; unfold in_type in Hd;
    [rewrite (cast_char n) by exact Hd|]; ifs; try reflexivity; lia.
Qed.

Lemma u8tochar_exact : exact UINT8 t_char u8tochar.
Proof.
  unfold u8tochar; apply exact_intro; intros n Hs Hd; unfold in_type in Hd;
    [rewrite (cast_char n) by exact Hd|]; destruct char_cases as [(Mi & Ma)|(Mi & Ma)]; rewrite ?Mi, ?Ma in *;
    cast_ids; bounds; ifs; try reflexivity; lia.
Qed.

Lemma char2sizet_exact : exact t_char SIZE char2sizet.
Proof.
  unfold char2sizet, int2sizet; apply exact_intro; intros n Hs Hd; unfold in_type in Hs;
    destruct char_cases as [(Mi & Ma)|(Mi & Ma)]; rewrite ?Mi, ?Ma in *;
    cast_ids; bounds; ifs; try reflexivity; lia.
Qed.

Lemma cct2char_exact : exact t_cc t_char cct2char.
Proof.
  destruct Ok as (_ & _ & S & T & _); destruct (width_split _ T) as (W & P1 & P2 & P3).
  unfold cct2char; apply exact_intro; intros n Hs Hd; unfold in_type in *;
    unfold ct_min, ct_max in Hs; rewrite S in Hs;
    [rewrite (cast_char n) by exact Hd|]; destruct char_cases as [(Mi & Ma)|(Mi & Ma)]; rewrite ?Mi, ?Ma in *;
    cast_ids; bounds; ifs; try reflexivity; lia.
Qed.

Lemma off2sizet_exact : exact t_off SIZE off2sizet.
Proof.
  destruct Ok as (T & _ & _ & _ & S); repeat apply Forall_cons_iff in T as [? T].
  destruct (width_split t_off) as (W & P1 & P2 & P3); [assumption|].
  unfold off2sizet; apply exact_intro; intros n Hs Hd; unfold in_type, ct_min, ct_max in Hs; rewrite S in Hs;
    [cast_ids|]; bounds; ifs; cast_ids; try reflexivity; lia.
Qed.

Lemma char_via m f : exact m INT f -> exact m t_char (fun n => match f n with Some i => int2char i | None => None end).
Proof.
  intros F; apply (exact_compose _ INT); [exact F | apply int2char_exact|].
  intros n _ Hd; unfold in_type in *; destruct char_cases as [(Mi & Ma)|(Mi & Ma)]; rewrite Mi, Ma in Hd; bounds; lia.
Qed.
End Platforms.

(** C30. Each conversion stores the value it is given when the destination has
    it, and refuses it otherwise: nothing is truncated, wrapped or refused
    that fits, whatever the signs and widths of the types POSIX leaves to
    the platform. *)
Theorem conversions_exact : forall (P : Platform), platform_ok ->
  Forall (fun '(source, destination, convert) => exact source destination convert) conversions.
Proof.
  intros P Ok; pose proof (proj1 Ok) as T.
  repeat apply Forall_cons_iff in T as [? T].
  unfold conversions; repeat apply Forall_cons; try apply Forall_nil.
  all: try solve [apply posix2int_exact; assumption | apply int2posix_exact; assumption].
  all: try solve [auto using socklen2int_exact, sizet2socklen_exact, cct2char_exact, u8tochar_exact, int2char_exact,
         char2sizet_exact, off2sizet_exact, int2octet_exact, uint2octet_exact].
  all: try solve [unfold long2sint_n; cbn [Z.eqb Pos.eqb];
         first [exact_via INT | unfold long2int32; exact_guard | apply (char_via Ok LONG long2int), long2int_exact]].
  all: try solve [apply char_via; [assumption | auto using long2int_exact, sizet2int_exact]].
  all: match goal with |- exact _ _ ?f => try unfold f end.
  all: solve [exact_guard | exact_via UINT8 | exact_via INT].
Qed.

(** ** Flag words *)

(** [f p bits] is the word [p], a value of [t] read as [w] bits by [read],
    with [op] applied bit by bit; a mask wider than the word is refused. *)
Definition word_op (w : Z) (op : bool -> bool -> bool) (t : ctype) (read : Z -> Z) (f : Z -> Z -> option Z) : Prop :=
  forall p bits, in_type t p -> in_type UINT bits ->
  match f p bits with
  | Some p' => bits < 2 ^ w /\ in_type t p' /\
      forall k, 0 <= k -> Z.testbit (read p') k = op (Z.testbit (read p) k) (Z.testbit bits k)
  | None => 2 ^ w <= bits
  end.

Definition clear (a b : bool) : bool := a && negb b.

Lemma bits_high a w k : 0 <= w <= k -> 0 <= a < 2 ^ w -> Z.testbit a k = false.
Proof. intros K R; rewrite <- (Z.mod_small a (2 ^ w)) by lia; apply Z.mod_pow2_bits_high; lia. Qed.

(** A bitwise operation on two words of [w] bits, cut to [w] bits. *)
Lemma word_bits op x a b w : op false false = false -> 0 <= w -> 0 <= a < 2 ^ w -> 0 <= b < 2 ^ w ->
  (forall k, 0 <= k < w -> Z.testbit x k = op (Z.testbit a k) (Z.testbit b k)) ->
  forall k, 0 <= k -> Z.testbit (x mod 2 ^ w) k = op (Z.testbit a k) (Z.testbit b k).
Proof.
  intros F W A B X k K; destruct (Z.lt_ge_cases k w).
  - rewrite Z.mod_pow2_bits_low by lia; apply X; lia.
  - rewrite Z.mod_pow2_bits_high, !(bits_high _ w k) by lia; auto.
Qed.

Lemma short_word x : in_type USHORT x -> as_ushort (cast SHORT x) = x.
Proof.
  intros R; unfold as_ushort; rewrite <- (cast_id USHORT x) at 2 by (try exact R; cbn; lia).
  apply cast_congr; [cbn; lia|]; unfold cast; cbn [ct_signed ct_width SHORT USHORT].
  rewrite Zminus_mod, Zmod_mod, <- Zminus_mod; f_equal; lia.
Qed.

Lemma in_word w t p : ct_signed t = false -> ct_width t = w -> in_type t p <-> 0 <= p < 2 ^ w.
Proof. intros S W; unfold in_type, ct_min, ct_max; rewrite S, W; lia. Qed.

Lemma short_op op (g : Z -> Z -> Z) : op false false = false ->
  (forall v bits, exists x, g v bits = cast USHORT x /\
     forall k, 0 <= k < 16 -> Z.testbit x k = op (Z.testbit v k) (Z.testbit bits k)) ->
  word_op 16 op USHORT (fun p => p) (fun p bits => if bits >? 65535 then None else Some (g p bits)) /\
  word_op 16 op SHORT as_ushort (fun p bits => if bits >? 65535 then None else ushort2short (g (as_ushort p) bits)).
Proof.
  intros F G.
  assert (Core : forall v bits, in_type USHORT v -> 0 <= bits < 2 ^ 16 -> in_type USHORT (g v bits) /\
            forall k, 0 <= k -> Z.testbit (g v bits) k = op (Z.testbit v k) (Z.testbit bits k)).
  { intros v bits V B; destruct (G v bits) as (x & -> & X); split; [apply cast_in; cbn; lia|].
    apply (in_word 16) in V; [|reflexivity..]; apply (word_bits op x v bits 16); auto; lia. }
  split; intros p bits R B; unfold in_type, UINT, ct_min, ct_max in B; cbn [ct_signed ct_width] in B;
    destruct (Z.gtb_spec bits 65535); try (change (2 ^ 16) with 65536; lia).
  - destruct (Core p bits R) as [I T]; [lia|]; split; [lia|]; split; assumption.
  - destruct (Core (as_ushort p) bits) as [I T]; [apply cast_in; cbn; lia | lia|].
    cbn [ushort2short]; unfold ushort2short; split; [lia|]; split; [apply cast_in; cbn; lia|].
    rewrite short_word by exact I; exact T.
Qed.

Lemma octet_op op x p bits : op false false = false -> is_byte p -> 0 <= bits < 2 ^ 8 ->
  (forall k, 0 <= k < 8 -> Z.testbit x k = op (Z.testbit p k) (Z.testbit bits k)) ->
  in_type UINT8 (u8 (u8 x)) /\ forall k, 0 <= k -> Z.testbit (u8 (u8 x)) k = op (Z.testbit p k) (Z.testbit bits k).
Proof.
  intros F P B X; rewrite (u8_id (u8 x)) by apply u8_byte; split.
  - pose proof (u8_byte x) as U; unfold is_byte in U; bounds; lia.
  - unfold u8; change 256 with (2 ^ 8); apply word_bits; auto; lia.
Qed.

Lemma char_op op (g : Z -> Z -> Z) : op false false = false ->
  (forall v bits, exists x, g v bits = u8 x /\
     forall k, 0 <= k < 8 -> Z.testbit x k = op (Z.testbit v k) (Z.testbit bits k)) ->
  word_op 8 op UINT8 as_octet (fun p bits => if bits >? 255 then None else octet2char (g (as_octet p) bits)).
Proof.
  intros F G p bits R B; unfold in_type, UINT, UINT8, ct_min, ct_max in R, B; cbn [ct_signed ct_width] in R, B.
  rewrite as_octet_id by (unfold is_byte; lia).
  destruct (Z.gtb_spec bits 255); [change (2 ^ 8) with 256; lia|]; unfold octet2char.
  destruct (G p bits) as (x & -> & X); destruct (octet_op op x p bits) as [I T];
    [exact F | unfold is_byte; lia | lia | exact X|].
  split; [lia|]; split; [exact I|]; intros k K; unfold as_octet; rewrite (u8_id (u8 (u8 x))) by apply u8_byte; auto.
Qed.

(** A flag word is a set of bits, whichever type it is kept in: the helpers
    that set, clear and exchange bits in place change the bits of the mask
    and no other, keep the word in its type, the sign bit of a [short]
    included, and refuse a mask with a bit outside the word. *)
Theorem flag_words :
  Forall (fun '(w, op, t, read, f) => word_op w op t read f)
    [(16, orb, SHORT, as_ushort, short_bis); (16, clear, SHORT, as_ushort, short_bic);
     (16, orb, USHORT, fun p => p, ushort_bis); (16, clear, USHORT, fun p => p, ushort_bic);
     (8, orb, UINT8, as_octet, char_bis); (8, clear, UINT8, as_octet, char_bic);
     (8, xorb, UINT8, as_octet, char_bxor)].
Proof.
  assert (Or : forall v bits k : Z, Z.testbit (Z.lor v bits) k = orb (Z.testbit v k) (Z.testbit bits k))
    by (intros; apply Z.lor_spec).
  destruct (short_op orb u16_bis) as [U1 S1]; [reflexivity | intros v b; eexists; split; [reflexivity | auto]|].
  destruct (short_op clear u16_bic) as [U2 S2]; [reflexivity | |].
  { intros v b; eexists; split; [reflexivity|]; intros k K; unfold cast; cbn [ct_signed ct_width UINT].
    rewrite Z.land_spec, Z.mod_pow2_bits_low, Z.lnot_spec by lia; reflexivity. }
  repeat apply Forall_cons; try apply Forall_nil; try assumption.
  - apply (char_op orb u8_bis); [reflexivity | intros v b; eexists; split; [reflexivity | auto]].
  - apply (char_op clear u8_bic); [reflexivity|]; intros v b; eexists; split; [reflexivity|].
    intros k K; rewrite Z.land_spec, Z.lnot_spec by lia; reflexivity.
  - apply (char_op xorb (fun v b => cast UINT8 (Z.lxor v b))); [reflexivity|]; intros v b; eexists; split; [reflexivity|].
    intros k K; apply Z.lxor_spec.
Qed.

(** ** Intervals *)

Definition tv_ok `{Platform} (tv : timeval) : Prop :=
  in_type t_time (tv_sec tv) /\ 0 <= tv_sec tv /\ 0 <= tv_usec tv < 1000000.

Definition tv_us (tv : timeval) : Z := tv_sec tv * 1000000 + tv_usec tv.

Section Intervals.
Context `{Platform} (Ok : platform_ok).

Lemma time_ok : type_ok t_time.
Proof. destruct Ok as (T & _); repeat apply Forall_cons_iff in T as [? T]; assumption. Qed.

Lemma time_t2int_spec n : in_type t_time n -> 0 <= n -> time_t2int n = if n <=? INT_MAX then Some n else None.
Proof.
  intros R N; unfold time_t2int; rewrite (posix2int_exact t_time time_ok n R).
  unfold fits; bounds; destruct (Z.leb_spec (-2147483648) n); [reflexivity | lia].
Qed.

Lemma ct_sub_nonneg t a b : type_ok t -> in_type t a -> 0 <= b <= a -> ct_sub t a b = Val (a - b) /\ in_type t (a - b).
Proof.
  intros T A B; assert (In : in_type t (a - b)).
  { unfold in_type in *; destruct (width_split t T) as (_ & _ & _ & P).
    assert (ct_min t <= 0) by (unfold ct_min; destruct (ct_signed t); lia); lia. }
  split; [|exact In].
  assert (Inp : in_type (promote t) (a - b)).
  { unfold promote; destruct (Z.ltb_spec (ct_width t) 32); [|exact In].
    unfold in_type in *; assert (ct_max t <= 2 ^ 31 - 1); [|bounds; lia].
    unfold ct_max; destruct (ct_signed t); [pose proof (Z.pow_le_mono_r 2 (ct_width t - 1) 31) | pose proof (Z.pow_le_mono_r 2 (ct_width t) 31)]; lia. }
  unfold ct_sub; destruct (fits_spec (promote t) (a - b)); [|contradiction].
  rewrite cast_id; [destruct (ct_signed (promote t)); reflexivity | | exact Inp].
  unfold promote; destruct (_ <? _); [cbn; lia | unfold type_ok in T; lia].
Qed.

Lemma time_delta2int_spec later now : in_type t_time later -> 0 <= now <= later ->
  time_delta2int later now = Val (if later - now <=? INT_MAX then Some (later - now) else None).
Proof.
  intros R N; unfold time_delta2int; destruct (Z.leb_spec later now).
  - replace (later - now) with 0 by lia; reflexivity.
  - destruct (ct_sub_nonneg t_time later now time_ok R) as [-> I]; [lia|]; cbn [cmap cbind].
    destruct (width_split _ time_ok) as (W & _); unfold cmap; cbn [cbind].
    rewrite (cast_id t_time) by assumption; rewrite time_t2int_spec by (auto; lia); reflexivity.
Qed.
End Intervals.

(** The time between two instants in centiseconds, rounded down: 0 when
    [later] is earlier by less than a second boundary, refused exactly when
    it exceeds an [int]. *)
Theorem timeval_centisecs_elapsed : forall (P : Platform) later earlier,
  platform_ok -> tv_ok later -> tv_ok earlier -> tv_sec earlier <= tv_sec later ->
  let elapsed := Z.max 0 (tv_us later - tv_us earlier) / 10000 in
  timeval_centisecs later earlier = Val (if elapsed <=? INT_MAX then Some elapsed else None).
Proof.
  intros P [s1 u1] [s0 u0] Ok (T1 & N1 & U1) (T0 & N0 & U0) Le; cbn [tv_sec tv_usec] in *; cbv zeta.
  unfold timeval_centisecs, tv_us; cbn [tv_sec tv_usec].
  rewrite time_delta2int_spec by (auto; lia); cbn [cbind].
  assert (Q1 : Z.quot INT_MAX 100 = 21474836) by reflexivity.
  destruct (Z.leb_spec (s1 - s0) INT_MAX) as [L|L].
  - unfold ct_sub; change (promote LONG) with LONG; cbn [ct_signed LONG].
    destruct (fits_spec LONG (u1 - u0)) as [_|F]; [|destruct F; bounds; lia]; cbn [cbind]; rewrite Q1.
    assert (Step : forall secs usec, 0 <= secs -> 0 <= usec < 1000000 ->
              secs * 1000000 + usec = Z.max 0 (s1 * 1000000 + u1 - (s0 * 1000000 + u0)) ->
              (if secs >? 21474836 then Val None
               else match long2int (Z.quot usec 10000) with
                    | None => Val None
                    | Some p => if secs * 100 >? INT_MAX - p then Val None else Val (Some (secs * 100 + p))
                    end) =
              Val (if Z.max 0 (s1 * 1000000 + u1 - (s0 * 1000000 + u0)) / 10000 <=? INT_MAX
                   then Some (Z.max 0 (s1 * 1000000 + u1 - (s0 * 1000000 + u0)) / 10000) else None)).
    { intros secs usec S U E; rewrite <- E, Z.quot_div_nonneg by lia.
      replace (secs * 1000000 + usec) with (secs * 100 * 10000 + usec) by lia.
      rewrite Z.div_add_l by lia.
      assert (D : 0 <= usec / 10000 <= 99) by (split; [apply Z.div_pos; lia | apply Z.lt_succ_r, Z.div_lt_upper_bound; lia]).
      rewrite long2int_exact by (bounds; lia); destruct (fits_spec INT (usec / 10000)) as [_|F]; [|destruct F; bounds; lia].
      unfold INT_MAX; ifs; try reflexivity; lia. }
    destruct (Z.ltb_spec (u1 - u0) 0) as [B|B]; [destruct (Z.eqb_spec (s1 - s0) 0) as [Z0|Z0]|];
      apply Step; lia.
  - destruct (Z.leb_spec (Z.max 0 (s1 * 1000000 + u1 - (s0 * 1000000 + u0)) / 10000) INT_MAX) as [X|X]; [|reflexivity].
    pose proof (Z.mod_pos_bound (Z.max 0 (s1 * 1000000 + u1 - (s0 * 1000000 + u0))) 10000).
    pose proof (Z.div_mod (Z.max 0 (s1 * 1000000 + u1 - (s0 * 1000000 + u0))) 10000).
    unfold INT_MAX in *; lia.
Qed.

(** An instant in milliseconds: refused when it exceeds an [int], although
    the result is a [uint32_t]. *)
Lemma timeval_millis_spec : forall (P : Platform) tv, platform_ok -> tv_ok tv ->
  timeval_millis tv = if tv_us tv / 1000 <=? INT_MAX then Some (tv_us tv / 1000) else None.
Proof.
  intros P [s u] Ok (T & N & U); unfold timeval_millis, tv_us; cbn [tv_sec tv_usec] in *.
  replace (s * 1000000 + u) with (s * 1000 * 1000 + u) by lia; rewrite Z.div_add_l by lia.
  assert (D : 0 <= u / 1000 <= 999) by (split; [apply Z.div_pos; lia | apply Z.lt_succ_r, Z.div_lt_upper_bound; lia]).
  rewrite time_t2int_spec, Z.quot_div_nonneg by (auto; lia).
  rewrite long2int_exact by (bounds; lia); destruct (fits_spec INT (u / 1000)) as [_|F]; [|destruct F; bounds; lia].
  destruct (Z.leb_spec s INT_MAX) as [L|L]; [|unfold INT_MAX in *; ifs; [lia | reflexivity]].
  destruct (Z.ltb_spec s 0); [lia|]; destruct (Z.ltb_spec (u / 1000) 0); [lia|].
  rewrite Z.quot_div_nonneg by (unfold INT_MAX; lia).
  pose proof (Z.div_mod (INT_MAX - u / 1000) 1000); pose proof (Z.mod_pos_bound (INT_MAX - u / 1000) 1000).
  unfold INT_MAX in *; destruct (Z.gtb_spec s ((2147483647 - u / 1000) / 1000)); ifs; try reflexivity; try lia.
  unfold int2u32; cast_ids; bounds; ifs; cast_ids; try reflexivity; lia.
Qed.

(** A clock set back by whole seconds can still give a positive interval. *)
Lemma timeval_centisecs_set_back :
  @timeval_centisecs linux (TV 100 900000) (TV 105 0) = Val (Some 90).
Proof. reflexivity. Qed.

(** [ushort_add] adds in [unsigned]: an amount near its limit wraps the sum
    to a small one, which is stored. *)
Lemma ushort_add_wraps : ushort_add 1 4294967295 = Some 0.
Proof. reflexivity. Qed.

Lemma ushort_add_exact p n : in_type USHORT p -> in_type UINT n -> p + n <= ct_max UINT ->
  ushort_add p n = if p + n <=? ct_max USHORT then Some (p + n) else None.
Proof.
  intros P N S; unfold ushort_add, uint2ushort; bounds; cast_ids; ifs; cast_ids; try reflexivity; lia.
Qed.

(** ** Strings, copies and memory *)

Lemma ptrdiff2sizet_exact : exact PTRDIFF SIZE ptrdiff2sizet.
Proof. unfold ptrdiff2sizet; exact_guard. Qed.

Lemma strlen_app s rest : Forall (fun c => c <> 0) s -> strlen (s ++ 0 :: rest) = Val (zlen s).
Proof.
  induction s as [|c s IH]; intros N; [reflexivity|]; inversion_clear N as [|? ? N0 N']; cbn [app strlen].
  rewrite (proj2 (Z.eqb_neq c 0)), IH by assumption; unfold cmap; cbn [cbind]; f_equal; rewrite zlen_cons; lia.
Qed.

(** A product that [size_t] cannot hold is refused before it wraps. *)
Lemma nmemb_bytes_exact n size : in_type INT n -> in_type SIZE size ->
  nmemb_bytes n size = if (0 <=? n) && (n * size <=? SIZE_MAX) then Some (n * size) else None.
Proof.
  intros N S; unfold nmemb_bytes, int2sizet; rewrite Z.ltb_antisym; destruct (Z.leb_spec 0 n); [cbn [negb andb] | reflexivity].
  bounds; assert (0 <= n * size) by (apply Z.mul_nonneg_nonneg; lia).
  destruct (Z.eqb_spec size 0) as [->|Nz]; cbn [negb andb].
  { rewrite Z.mul_0_r; reflexivity. }
  rewrite Z.quot_div_nonneg, Z.gtb_ltb by lia.
  destruct (Z.ltb_spec (18446744073709551615 / size) n) as [G|G].
  - destruct (Z.leb_spec (n * size) 18446744073709551615) as [L|]; [|reflexivity].
    pose proof (Z.div_le_lower_bound 18446744073709551615 size n); lia.
  - pose proof (Z.mul_div_le 18446744073709551615 size).
    assert (n * size <= 18446744073709551615) by nia.
    destruct (Z.leb_spec (n * size) 18446744073709551615); [|lia]; cast_ids; reflexivity.
Qed.

(** [copy_capped] copies the first [min len cap] octets and no other. *)
Lemma copy_capped_copies src dst len cap : 0 <= len <= INT_MAX -> in_type SIZE cap ->
  len <= zlen src -> Z.min len cap <= zlen dst ->
  copy_capped (Some src) (Some dst) len cap =
    Val (0, Z.min len cap, Some (ztake (Z.min len cap) src ++ zdrop (Z.min len cap) dst)).
Proof.
  intros L C S D; unfold copy_capped; rewrite ptrdiff2sizet_exact by (bounds; lia).
  destruct (fits_spec SIZE len) as [_|F]; [|destruct F; bounds; lia]; cbv zeta.
  assert (M : 0 <= Z.min len cap) by (bounds; lia).
  replace (if len >? cap then cap else len) with (Z.min len cap) by (destruct (Z.gtb_spec len cap); lia).
  unfold sizet2int, INT_MAX; destruct (Z.gtb_spec (Z.min len cap) 2147483647); [bounds; lia|].
  destruct (Z.gtb_spec (Z.min len cap) 0).
  - rewrite rdn_in, zdrop_0 by lia; cbn [cbind].
    unfold wr; rewrite zlen_ztake by lia; replace ((0 <=? 0) && (0 + Z.min len cap <=? zlen dst))%bool with true by (symmetry; btrue; lia).
    cbn [cbind]; rewrite ztake_0 by lia; reflexivity.
  - replace (Z.min len cap) with 0 by lia; rewrite ztake_0, zdrop_0 by lia; reflexivity.
Qed.

(** * Witnesses *)

Lemma linux_ok : @platform_ok linux.
Proof.
  split; [|repeat split; cbn; lia].
  repeat apply Forall_cons; try apply Forall_nil; unfold type_ok; cbn; lia.
Qed.

Lemma conversions_exact_witness : exact LONG INT long2int /\
  Forall (fun '(source, destination, convert) => exact source destination convert) (@conversions linux).
Proof.
  pose proof (conversions_exact linux linux_ok) as F; split; [|exact F].
  apply (proj1 (Forall_forall _ _) F (LONG, INT, long2int)); cbn; tauto.
Defined.

Lemma timeval_centisecs_elapsed_witness :
  @timeval_centisecs linux (TV 1700000002 250000) (TV 1700000000 750000) = Val (Some 150).
Proof.
  apply (timeval_centisecs_elapsed linux (TV 1700000002 250000) (TV 1700000000 750000) linux_ok);
    try (split; [|cbn; lia]; split; vm_compute; discriminate); cbn; lia.
Defined.
