(* ===== verification/PElement.v ===== *)
(** * psap: presentation elements (pe_alloc.c, pe_cmp.c, pe_cpy.c, pe_pullup.c,
    pe_extract.c, prim2set.c, seq_*.c, set_*.c)

    A presentation element is a node of a tree. The singly linked list of
    the members of a constructor ([pe_cons], [pe_next]) is the list
    [pe_cons]; a null [pe_prim] is [None]. The two members of the union
    [pe_un1] are two fields of which [pe_form] selects the live one, the
    invariant [pe_ok] keeping the other one null; [pe_cardinal] and
    [pe_nbits] share the storage [pe_un2], as in the source. *)

From S2P Require Import Prelude Conv.
Open Scope Z_scope.
Open Scope c_scope.

#[local] Unset Elimination Schemes.
Inductive PElement : Type := mkPE {
  pe_errno : Z;
  pe_context : Z;
  pe_class : Z;
  pe_form : Z;
  pe_id : Z;
  pe_len : Z;
  pe_ilen : Z;
  pe_prim : option (list Z);
  pe_cons : list PElement;
  pe_un2 : Z;
  pe_inline : Z;
  pe_realbase : option (list Z);
  pe_offset : Z;
  pe_refcnt : Z
}.
#[local] Set Elimination Schemes.

(** The members of the union [pe_un2]. *)
Abbreviation pe_cardinal := pe_un2.
Abbreviation pe_nbits := pe_un2.

(** Assignment to one field. *)
Definition set_errno (p : PElement) (v : Z) : PElement :=
  mkPE v (pe_context p) (pe_class p) (pe_form p) (pe_id p) (pe_len p) (pe_ilen p) (pe_prim p) (pe_cons p) (pe_un2 p) (pe_inline p) (pe_realbase p) (pe_offset p) (pe_refcnt p).
Definition set_context (p : PElement) (v : Z) : PElement :=
  mkPE (pe_errno p) v (pe_class p) (pe_form p) (pe_id p) (pe_len p) (pe_ilen p) (pe_prim p) (pe_cons p) (pe_un2 p) (pe_inline p) (pe_realbase p) (pe_offset p) (pe_refcnt p).
Definition set_class (p : PElement) (v : Z) : PElement :=
  mkPE (pe_errno p) (pe_context p) v (pe_form p) (pe_id p) (pe_len p) (pe_ilen p) (pe_prim p) (pe_cons p) (pe_un2 p) (pe_inline p) (pe_realbase p) (pe_offset p) (pe_refcnt p).
Definition set_form (p : PElement) (v : Z) : PElement :=
  mkPE (pe_errno p) (pe_context p) (pe_class p) v (pe_id p) (pe_len p) (pe_ilen p) (pe_prim p) (pe_cons p) (pe_un2 p) (pe_inline p) (pe_realbase p) (pe_offset p) (pe_refcnt p).
Definition set_id (p : PElement) (v : Z) : PElement :=
  mkPE (pe_errno p) (pe_context p) (pe_class p) (pe_form p) v (pe_len p) (pe_ilen p) (pe_prim p) (pe_cons p) (pe_un2 p) (pe_inline p) (pe_realbase p) (pe_offset p) (pe_refcnt p).
Definition set_len (p : PElement) (v : Z) : PElement :=
  mkPE (pe_errno p) (pe_context p) (pe_class p) (pe_form p) (pe_id p) v (pe_ilen p) (pe_prim p) (pe_cons p) (pe_un2 p) (pe_inline p) (pe_realbase p) (pe_offset p) (pe_refcnt p).
Definition set_ilen (p : PElement) (v : Z) : PElement :=
  mkPE (pe_errno p) (pe_context p) (pe_class p) (pe_form p) (pe_id p) (pe_len p) v (pe_prim p) (pe_cons p) (pe_un2 p) (pe_inline p) (pe_realbase p) (pe_offset p) (pe_refcnt p).
Definition set_prim (p : PElement) (v : option (list Z)) : PElement :=
  mkPE (pe_errno p) (pe_context p) (pe_class p) (pe_form p) (pe_id p) (pe_len p) (pe_ilen p) v (pe_cons p) (pe_un2 p) (pe_inline p) (pe_realbase p) (pe_offset p) (pe_refcnt p).
Definition set_cons (p : PElement) (v : list PElement) : PElement :=
  mkPE (pe_errno p) (pe_context p) (pe_class p) (pe_form p) (pe_id p) (pe_len p) (pe_ilen p) (pe_prim p) v (pe_un2 p) (pe_inline p) (pe_realbase p) (pe_offset p) (pe_refcnt p).
Definition set_un2 (p : PElement) (v : Z) : PElement :=
  mkPE (pe_errno p) (pe_context p) (pe_class p) (pe_form p) (pe_id p) (pe_len p) (pe_ilen p) (pe_prim p) (pe_cons p) v (pe_inline p) (pe_realbase p) (pe_offset p) (pe_refcnt p).
Definition set_inline (p : PElement) (v : Z) : PElement :=
  mkPE (pe_errno p) (pe_context p) (pe_class p) (pe_form p) (pe_id p) (pe_len p) (pe_ilen p) (pe_prim p) (pe_cons p) (pe_un2 p) v (pe_realbase p) (pe_offset p) (pe_refcnt p).
Definition set_realbase (p : PElement) (v : option (list Z)) : PElement :=
  mkPE (pe_errno p) (pe_context p) (pe_class p) (pe_form p) (pe_id p) (pe_len p) (pe_ilen p) (pe_prim p) (pe_cons p) (pe_un2 p) (pe_inline p) v (pe_offset p) (pe_refcnt p).
Definition set_offset (p : PElement) (v : Z) : PElement :=
  mkPE (pe_errno p) (pe_context p) (pe_class p) (pe_form p) (pe_id p) (pe_len p) (pe_ilen p) (pe_prim p) (pe_cons p) (pe_un2 p) (pe_inline p) (pe_realbase p) v (pe_refcnt p).
Definition set_refcnt (p : PElement) (v : Z) : PElement :=
  mkPE (pe_errno p) (pe_context p) (pe_class p) (pe_form p) (pe_id p) (pe_len p) (pe_ilen p) (pe_prim p) (pe_cons p) (pe_un2 p) (pe_inline p) (pe_realbase p) (pe_offset p) v.

Abbreviation set_cardinal := set_un2.
Abbreviation set_nbits := set_un2.

(** ** Constants of psap.h *)

Definition PE_ERR_NONE := 0.
Definition PE_ERR_OVER := 1.
Definition PE_ERR_NMEM := 2.
Definition PE_ERR_BIT := 3.
Definition PE_ERR_UTCT := 4.
Definition PE_ERR_GENT := 5.
Definition PE_ERR_MBER := 6.
Definition PE_ERR_PRIM := 7.
Definition PE_ERR_CONS := 8.
Definition PE_ERR_TYPE := 9.
Definition PE_ERR_OID := 10.
Definition PE_ERR_BITS := 11.
Definition PE_ERR_NOSUPP := 12.
Definition PE_ERR_SIGNED := 13.
Definition PE_ERR_DUPLICATE := 14.
Definition PE_ERR_SYNTAX := 15.
Definition PE_ID_XTND := 31.
Definition PE_ID_MORE := 128.
Definition PE_ID_MASK := 127.
Definition PE_ID_SHIFT := 7.
Definition PE_ID_BITS := 14.
Definition PE_CLASS_MASK := 192.
Definition PE_CLASS_SHIFT := 6.
Definition PE_FORM_MASK := 32.
Definition PE_FORM_SHIFT := 5.
Definition PE_CODE_MASK := 31.
Definition PE_CLASS_UNIV := 0.
Definition PE_CLASS_APPL := 1.
Definition PE_CLASS_CONT := 2.
Definition PE_CLASS_PRIV := 3.
Definition PE_FORM_PRIM := 0.
Definition PE_FORM_CONS := 1.
Definition PE_FORM_ICONS := 2.
Definition PE_UNIV_EOC := 0.
Definition PE_PRIM_BOOL := 1.
Definition PE_PRIM_INT := 2.
Definition PE_PRIM_BITS := 3.
Definition PE_PRIM_OCTS := 4.
Definition PE_PRIM_NULL := 5.
Definition PE_PRIM_OID := 6.
Definition PE_CONS_SEQ := 16.
Definition PE_CONS_SET := 17.
Definition PE_DEFN_UTCT := 23.
Definition PE_DEFN_GENT := 24.
Definition PE_DFLT_CTX := 0.
Definition PE_LEN_XTND := 128.
Definition PE_LEN_SMAX := 127.
Definition PE_LEN_MASK := 127.
Definition PE_LEN_INDF := -1.

(** [PE_ID (class, code)]: the tag as one number. *)
Definition PE_ID (class code : Z) : Z :=
  i32 (Z.lor (Z.shiftl (Z.land code 16383) 2) (Z.land class 3)).

(** [pe_seterr (pe, e, v)]: records the error and yields [v]. *)
Definition pe_seterr {A} (pe : PElement) (e : Z) (v : A) : A * PElement := (v, set_errno pe e).

(** ** Induction on the tree *)

Section PElement_induction.
Variable P : PElement -> Prop.
Hypothesis Pnode : forall p, Forall P (pe_cons p) -> P p.

Fixpoint PElement_tree_ind (p : PElement) : P p :=
  Pnode p
    (match p return Forall P (pe_cons p) with
     | mkPE _ _ _ _ _ _ _ _ l _ _ _ _ _ =>
         (fix go (l : list PElement) : Forall P l :=
            match l with
            | [] => Forall_nil P
            | q :: l' => Forall_cons q (PElement_tree_ind q) (go l')
            end) l
     end).
End PElement_induction.

(** ** pe_alloc.c *)

Section Operations.
Context `{Allocator}.

(** The element taken from the pool is cleared, then given its tag. *)
Definition pe_alloc (class form id : Z) : option PElement :=
  if pe_pool_ok class form id
  then Some (mkPE 0 0 class form id 0 0 None [] 0 0 None 0 0)
  else None.

(** ** pe_cmp.c: 0 when the elements are equal, 1 when they are not *)

Fixpoint pe_cmp_pe (p q : PElement) {struct p} : cres Z :=
  if negb (pe_class p =? pe_class q) || negb (pe_form p =? pe_form q)
     || negb (pe_id p =? pe_id q)
  then Val 1
  else
    let cmp_prim :=
      if negb (pe_len p =? 0) then
        if negb (pe_len p =? pe_len q) then Val 1
        else (r <- bcmp_int (pe_prim p) (pe_prim q) (pe_len p);;
              Val (if r =? 0 then 0 else 1))
      else if negb (pe_len q =? 0) then Val 1
      else Val 0 in
    if pe_form p =? PE_FORM_ICONS then
      if negb (pe_ilen p =? pe_ilen q) then Val 1 else cmp_prim
    else if pe_form p =? PE_FORM_PRIM then cmp_prim
    else if pe_form p =? PE_FORM_CONS then
      (fix go (ps qs : list PElement) {struct ps} : cres Z :=
         match ps, qs with
         | [], [] => Val 0
         | [], _ :: _ => Val 1
         | _ :: _, [] => Val 1
         | p' :: ps', q' :: qs' =>
             (r <- pe_cmp_pe p' q';;
              if r =? 0 then go ps' qs' else Val 1)
         end) (pe_cons p) (pe_cons q)
    else Val 1.

Definition pe_cmp (p q : option PElement) : cres Z :=
  match p, q with
  | None, None => Val 0
  | None, Some _ => Val 1
  | Some _, None => Val 1
  | Some p, Some q => pe_cmp_pe p q
  end.

(** ** pe_cpy.c

    [PEDalloc] of the copy and [PEDcpy]; [None] is the label [you_lose]. *)
Definition cpy_prim (pe p : PElement) : cres (option PElement) :=
  match pe_prim pe with
  | None => Val (Some p)
  | Some _ =>
      if malloc_int (pe_len p) then
        (d <- rdn_ptr (pe_prim pe) (pe_len p);; Val (Some (set_prim p (Some d))))
      else Val None
  end.

Fixpoint pe_cpy (pe : PElement) : cres (option PElement) :=
  match pe_alloc (pe_class pe) (pe_form pe) (pe_id pe) with
  | None => Val None
  | Some p =>
      let p := set_len (set_context p (pe_context pe)) (pe_len pe) in
      r <-
        (if pe_form p =? PE_FORM_ICONS then cpy_prim pe (set_ilen p (pe_ilen pe))
         else if pe_form p =? PE_FORM_PRIM then cpy_prim pe p
         else if pe_form p =? PE_FORM_CONS then
           l <- (fix go (rs : list PElement) : cres (option (list PElement)) :=
                   match rs with
                   | [] => Val (Some [])
                   | r :: rs' =>
                       q <- pe_cpy r;;
                       match q with
                       | None => Val None
                       | Some q =>
                           qs <- go rs';;
                           Val (match qs with Some qs => Some (q :: qs) | None => None end)
                       end
                   end) (pe_cons pe);;
           Val (match l with Some l => Some (set_cons p l) | None => None end)
         else Val (Some p));;
      Val (match r with Some p => Some (set_nbits p (pe_nbits pe)) | None => None end)
  end.

(** ** pe_pullup.c

    The octets of the element, gathered from its members; [None] is the
    null pointer. [realloc (dp, 0)] has freed [dp] when it returns NULL, and
    the code then frees it again: undefined. *)
Fixpoint pe_pullup_aux (pe : PElement) : cres (option (list Z)) :=
  if pe_form pe =? PE_FORM_PRIM then
    if malloc_int (pe_len pe) then cmap Some (rdn_ptr (pe_prim pe) (pe_len pe))
    else Val None
  else if pe_form pe =? PE_FORM_CONS then
    (fix go (ps : list PElement) (dp : option (list Z)) : cres (option (list Z)) :=
       match ps with
       | [] => Val dp
       | p :: ps' =>
           if negb (pe_class p =? pe_class pe) || negb (pe_id p =? pe_id pe) then Val None
           else
             ep <- pe_pullup_aux p;;
             match ep with
             | None => Val None
             | Some ep =>
                 match dp with
                 | None => go ps' (Some ep)
                 | Some d =>
                     let k := i32 (zlen d + zlen ep) in
                     if k =? 0 then UB
                     else if realloc_int k then go ps' (Some (d ++ ep))
                     else Val None
                 end
             end
       end) (pe_cons pe) None
  else Val None.

Definition pe_pullup (pe : PElement) : cres (Z * PElement) :=
  if negb (pe_form pe =? PE_FORM_CONS) then Val (OK, pe)
  else
    dp <- pe_pullup_aux pe;;
    Val (match dp with
         | None => (NOTOK, pe)
         | Some d =>
             (OK, set_cons (set_prim (set_len (set_form pe PE_FORM_PRIM) (zlen d)) (Some d)) [])
         end).
End Operations.

(** ** prim2set.c: numbers the members of a constructor *)

Fixpoint number_offsets (i : Z) (l : list PElement) : list PElement :=
  match l with
  | [] => []
  | p :: l' => set_offset p i :: number_offsets (i + 1) l'
  end.

Definition prim2set (pe : PElement) : option PElement * PElement :=
  if negb (pe_form pe =? PE_FORM_CONS) then pe_seterr pe PE_ERR_CONS None
  else
    let pe' := set_cardinal (set_cons pe (number_offsets 0 (pe_cons pe))) (zlen (pe_cons pe)) in
    (Some pe', pe').

(** ** seq_add.c, seq_addon.c, seq_del.c, seq_find.c

    [r] is a single element ([pe_next] null), not yet a member. *)

(** The walk of [seq_add] down to where [r] goes at offset [i]. *)
Fixpoint seq_insert (l : list PElement) (r : PElement) (i : Z) : list PElement :=
  match l with
  | [] => [r]
  | q :: l' =>
      if pe_offset q =? i then r :: l'
      else if pe_offset q >? i then r :: q :: l'
      else q :: seq_insert l' r i
  end.

Definition seq_add (pe : PElement) (r : option PElement) (i : Z) : Z * PElement :=
  match r with
  | None => pe_seterr pe PE_ERR_NMEM NOTOK
  | Some r =>
      let i := if i <? 0 then pe_cardinal pe else i in
      let pe' := set_cons pe (seq_insert (pe_cons pe) (set_offset r i) i) in
      (OK, if i >=? pe_cardinal pe then set_cardinal pe' (i32 (i + 1)) else pe')
  end.

(** Appends a member after [last], the final member of [pe] or null. *)
Definition seq_addon (pe : option PElement) (last : option PElement) (new : PElement)
  : Z * option PElement :=
  match pe with
  | None => (NOTOK, None)
  | Some pe =>
      match last with
      | None => let '(r, pe') := seq_add pe (Some new) (-1) in (r, Some pe')
      | Some _ =>
          (OK, Some (set_cardinal
                       (set_cons pe (pe_cons pe ++ [set_offset new (pe_cardinal pe)]))
                       (i32 (pe_cardinal pe + 1))))
      end
  end.

(** The walk of [seq_del]: the remaining members, and the offset of the
    member before the deleted one when that was the last. *)
Fixpoint seq_remove (l : list PElement) (i offset : Z) : option (list PElement * option Z) :=
  match l with
  | [] => None
  | q :: l' =>
      if pe_offset q =? i then
        Some (l', match l' with [] => Some offset | _ :: _ => None end)
      else if pe_offset q >? i then None
      else
        match seq_remove l' i (pe_offset q) with
        | Some (l'', o) => Some (q :: l'', o)
        | None => None
        end
  end.

Definition seq_del (pe : PElement) (i : Z) : Z * PElement :=
  match seq_remove (pe_cons pe) i 0 with
  | Some (l, Some offset) => (OK, set_cardinal (set_cons pe l) (i32 (offset + 1)))
  | Some (l, None) => (OK, set_cons pe l)
  | None => pe_seterr pe PE_ERR_MBER NOTOK
  end.

Definition seq_find (pe : PElement) (i : Z) : option PElement * PElement :=
  if i >=? pe_cardinal pe then pe_seterr pe PE_ERR_MBER None
  else (find (fun p => pe_offset p =? i) (pe_cons pe), pe).

(** ** set_add.c, set_addon.c, set_del.c, set_find.c *)

Definition pe_tag (p : PElement) : Z := PE_ID (pe_class p) (pe_id p).

Definition set_add (pe : PElement) (r : option PElement) : Z * PElement :=
  match r with
  | None => pe_seterr pe PE_ERR_NMEM NOTOK
  | Some r =>
      if existsb (fun q => pe_tag q =? pe_tag r) (pe_cons pe)
      then pe_seterr pe PE_ERR_DUPLICATE NOTOK
      else (OK, set_cons pe (pe_cons pe ++ [r]))
  end.

Definition set_addon (pe : option PElement) (last : option PElement) (new : PElement)
  : Z * option PElement :=
  match pe with
  | None => (NOTOK, None)
  | Some pe =>
      match last with
      | None => let '(r, pe') := set_add pe (Some new) in (r, Some pe')
      | Some _ =>
          (OK, Some (set_cardinal
                       (set_cons pe (pe_cons pe ++ [set_offset new (pe_cardinal pe)]))
                       (i32 (pe_cardinal pe + 1))))
      end
  end.

Fixpoint set_remove (l : list PElement) (tag : Z) : option (list PElement) :=
  match l with
  | [] => None
  | q :: l' =>
      if pe_tag q =? tag then Some l'
      else match set_remove l' tag with Some l'' => Some (q :: l'') | None => None end
  end.

Definition set_del (pe : PElement) (class id : Z) : Z * PElement :=
  match set_remove (pe_cons pe) (PE_ID class id) with
  | Some l => (OK, set_cons pe l)
  | None => pe_seterr pe PE_ERR_MBER NOTOK
  end.

(** The loop of [set_find]: [inl found], or [inr tt] on a second match. *)
Fixpoint set_search (l : list PElement) (tag : Z) (pfound : option PElement)
  : option PElement + unit :=
  match l with
  | [] => inl pfound
  | p :: l' =>
      if pe_tag p =? tag then
        match pfound with
        | None => set_search l' tag (Some p)
        | Some _ => inr tt
        end
      else set_search l' tag pfound
  end.

Definition set_find (pe : PElement) (class id : Z) : option PElement * PElement :=
  match set_search (pe_cons pe) (PE_ID class id) None with
  | inl p => (p, pe)
  | inr _ => pe_seterr pe PE_ERR_DUPLICATE None
  end.

(** * Well-formed elements and their abstract value *)

(** The octets of a primitive; a null pointer holds none. *)
Definition pe_data (p : PElement) : list Z :=
  match pe_prim p with Some b => b | None => [] end.

Definition tag_ok (p : PElement) : Prop := 0 <= pe_class p < 4 /\ 0 <= pe_id p < 65536.

(** The buffer holds [pe_len] octets. *)
Definition data_ok (p : PElement) : Prop :=
  pe_len p = zlen (pe_data p) /\ pe_len p <= INT_MAX /\ bytes (pe_data p).

#[local] Unset Elimination Schemes.
Inductive pe_ok (p : PElement) : Prop :=
| ok_prim : pe_form p = PE_FORM_PRIM \/ pe_form p = PE_FORM_ICONS ->
    tag_ok p -> data_ok p -> pe_cons p = [] -> pe_ok p
| ok_cons : pe_form p = PE_FORM_CONS ->
    tag_ok p -> pe_prim p = None -> Forall pe_ok (pe_cons p) -> pe_ok p.
#[local] Set Elimination Schemes.

(** What an element denotes: tag and contents, without the book-keeping. *)
#[local] Unset Elimination Schemes.
Inductive pvalue : Type :=
| VPrim (class id : Z) (d : list Z)
| VInline (class id ilen : Z) (d : list Z)
| VCons (class id : Z) (l : list pvalue).
#[local] Set Elimination Schemes.

Fixpoint pe_value (p : PElement) : pvalue :=
  if pe_form p =? PE_FORM_PRIM then VPrim (pe_class p) (pe_id p) (pe_data p)
  else if pe_form p =? PE_FORM_ICONS then VInline (pe_class p) (pe_id p) (pe_ilen p) (pe_data p)
  else VCons (pe_class p) (pe_id p) (map pe_value (pe_cons p)).

Lemma pe_value_prim p : pe_form p = PE_FORM_PRIM ->
  pe_value p = VPrim (pe_class p) (pe_id p) (pe_data p).
Proof. destruct p; simpl; intros ->; reflexivity. Qed.

Lemma pe_value_icons p : pe_form p = PE_FORM_ICONS ->
  pe_value p = VInline (pe_class p) (pe_id p) (pe_ilen p) (pe_data p).
Proof. destruct p; simpl; intros ->; reflexivity. Qed.

Lemma pe_value_cons p : pe_form p = PE_FORM_CONS ->
  pe_value p = VCons (pe_class p) (pe_id p) (map pe_value (pe_cons p)).
Proof. destruct p; simpl; intros ->; reflexivity. Qed.

Lemma rdn_ptr_data p : data_ok p -> rdn_ptr (pe_prim p) (pe_len p) = Val (pe_data p).
Proof.
  unfold data_ok, rdn_ptr, pe_data; destruct (pe_prim p) as [b|]; intros (E & _ & _).
  - rewrite E, rdn_all; reflexivity.
  - rewrite E; reflexivity.
Qed.

Lemma data_ok_len p : data_ok p -> 0 <= pe_len p <= INT_MAX.
Proof. intros (E & H & _); rewrite E in *; zlen. Qed.

(** ** pe_cmp decides equality of abstract values *)

Lemma zlen_length_eq {A} (x y : list A) : zlen x = zlen y <-> length x = length y.
Proof. unfold zlen; lia. Qed.

Lemma bcmp_int_data p q : data_ok p -> data_ok q -> pe_len p = pe_len q ->
  exists r, bcmp_int (pe_prim p) (pe_prim q) (pe_len p) = Val r /\
    (r = 0 <-> pe_data p = pe_data q).
Proof.
  intros Hp Hq E; unfold bcmp_int.
  rewrite int2sizet_Some by (apply data_ok_len in Hp; lia).
  rewrite (rdn_ptr_data p Hp), E, (rdn_ptr_data q Hq); simpl.
  eexists; split; [reflexivity|]; apply memcmp_eq.
  apply zlen_length_eq; destruct Hp as [? _], Hq as [? _]; lia.
Qed.

(** The comparison of two leaves. *)
Definition cmp_data (p q : PElement) : cres Z :=
  if negb (pe_len p =? 0) then
    if negb (pe_len p =? pe_len q) then Val 1
    else (r <- bcmp_int (pe_prim p) (pe_prim q) (pe_len p);; Val (if r =? 0 then 0 else 1))
  else if negb (pe_len q =? 0) then Val 1
  else Val 0.

Lemma cmp_data_spec p q : data_ok p -> data_ok q ->
  exists r, cmp_data p q = Val r /\ (r = 0 <-> pe_data p = pe_data q).
Proof.
  intros Hp Hq; unfold cmp_data.
  pose proof Hp as [Lp _]; pose proof Hq as [Lq _].
  assert (Hne : pe_len p <> pe_len q -> pe_data p <> pe_data q) by congruence.
  destruct (Z.eqb_spec (pe_len p) 0) as [E0|E0]; simpl.
  - destruct (Z.eqb_spec (pe_len q) 0) as [E1|E1]; simpl; eexists; (split; [reflexivity|]).
    + rewrite (zlen_0 (pe_data p)), (zlen_0 (pe_data q)) by lia; tauto.
    + split; [discriminate | intros E; destruct Hne; [lia | exact E]].
  - destruct (Z.eqb_spec (pe_len p) (pe_len q)) as [E1|E1]; simpl.
    + destruct (bcmp_int_data p q Hp Hq E1) as (r & -> & Hr); simpl.
      eexists; split; [reflexivity|].
      destruct (Z.eqb_spec r 0); rewrite <- Hr; split; (lia || discriminate).
    + eexists; split; [reflexivity|]; split; [discriminate | intros E; now destruct Hne].
Qed.

(** The walk over two member lists. *)
Fixpoint cmp_list (ps qs : list PElement) : cres Z :=
  match ps, qs with
  | [], [] => Val 0
  | [], _ :: _ => Val 1
  | _ :: _, [] => Val 1
  | p :: ps', q :: qs' => r <- pe_cmp_pe p q;; if r =? 0 then cmp_list ps' qs' else Val 1
  end.

Lemma pe_cmp_pe_eq p q :
  pe_cmp_pe p q =
  if negb (pe_class p =? pe_class q) || negb (pe_form p =? pe_form q) || negb (pe_id p =? pe_id q)
  then Val 1
  else if pe_form p =? PE_FORM_ICONS then
    if negb (pe_ilen p =? pe_ilen q) then Val 1 else cmp_data p q
  else if pe_form p =? PE_FORM_PRIM then cmp_data p q
  else if pe_form p =? PE_FORM_CONS then cmp_list (pe_cons p) (pe_cons q)
  else Val 1.
Proof.
  destruct p; unfold cmp_data; simpl.
  repeat (case_goal; try reflexivity).
Qed.

(** Inversion of well-formedness by form. *)
Lemma pe_ok_leaf p : pe_ok p -> pe_form p <> PE_FORM_CONS ->
  (pe_form p = PE_FORM_PRIM \/ pe_form p = PE_FORM_ICONS) /\ tag_ok p /\ data_ok p /\ pe_cons p = [].
Proof. intros [H|H]; [tauto | congruence]. Qed.

Lemma pe_ok_node p : pe_ok p -> pe_form p = PE_FORM_CONS ->
  tag_ok p /\ pe_prim p = None /\ Forall pe_ok (pe_cons p).
Proof. intros [[H|H]|H]; [rewrite H; discriminate | rewrite H; discriminate | tauto]. Qed.

Lemma pe_form_cases p : pe_ok p ->
  pe_form p = PE_FORM_PRIM \/ pe_form p = PE_FORM_ICONS \/ pe_form p = PE_FORM_CONS.
Proof. intros [[|]|]; tauto. Qed.

Definition cmp_correct (r : cres Z) (P : Prop) : Prop :=
  exists z, r = Val z /\ (z = 0 \/ z = 1) /\ (z = 0 <-> P).

Lemma cmp_correct_no P : ~ P -> cmp_correct (Val 1) P.
Proof. exists 1; repeat split; [lia | discriminate | tauto]. Qed.

Lemma cmp_correct_iff r P Q : (P <-> Q) -> cmp_correct r P -> cmp_correct r Q.
Proof. intros E (z & ? & ? & H); exists z; rewrite <- E; auto. Qed.

Lemma cmp_list_correct ps :
  Forall (fun p => forall q, pe_ok p -> pe_ok q ->
            cmp_correct (pe_cmp_pe p q) (pe_value p = pe_value q)) ps ->
  forall qs, Forall pe_ok ps -> Forall pe_ok qs ->
    cmp_correct (cmp_list ps qs) (map pe_value ps = map pe_value qs).
Proof.
  induction 1 as [|p ps Hp _ IH]; intros [|q qs] Ops Oqs; simpl;
    try (apply cmp_correct_no; discriminate).
  - exists 0; repeat split; auto.
  - inversion_clear Ops; inversion_clear Oqs.
    destruct (Hp q) as (z & -> & Hz & E); [assumption..|]; simpl.
    destruct (Z.eqb_spec z 0).
    + eapply cmp_correct_iff; [|apply IH; assumption].
      rewrite E in *; split; [intros ->; congruence | intros [= _ ->]; reflexivity].
    + apply cmp_correct_no; intros [= Ev _]; tauto.
Qed.

Lemma cmp_data_correct p q : data_ok p -> data_ok q -> cmp_correct (cmp_data p q) (pe_data p = pe_data q).
Proof.
  intros Hp Hq; destruct (cmp_data_spec p q Hp Hq) as (r & E & H).
  exists r; split; [exact E | split; [|exact H]].
  unfold cmp_data in E; repeat case_hyp E; try (injection E as <-; auto).
  unfold cbind in E; repeat case_hyp E; try discriminate; injection E as <-; auto.
Qed.

Ltac tag_mismatch :=
  apply cmp_correct_no; intros E; apply (f_equal (fun v => match v with
    | VPrim c i _ => (c, i, 0) | VInline c i _ _ => (c, i, 1) | VCons c i _ => (c, i, 2) end)) in E;
  repeat match goal with H : pe_form ?p = _ |- _ =>
    rewrite (pe_value_prim p H) in E || rewrite (pe_value_icons p H) in E
    || rewrite (pe_value_cons p H) in E; clear H end;
  simpl in E; congruence.

Lemma pe_cmp_pe_correct p : forall q, pe_ok p -> pe_ok q ->
  cmp_correct (pe_cmp_pe p q) (pe_value p = pe_value q).
Proof.
  induction p as [p IH] using PElement_tree_ind; intros q Op Oq.
  rewrite pe_cmp_pe_eq.
  destruct (_ || _)%bool eqn:E.
  { rewrite !orb_true_iff, !negb_true_iff, !Z.eqb_neq in E.
    destruct (pe_form_cases p Op) as [F|[F|F]], (pe_form_cases q Oq) as [G|[G|G]];
      destruct E as [[E'|E']|E']; try (rewrite F, G in E'); tag_mismatch. }
  bool_to_prop.
  destruct (pe_form_cases p Op) as [F|[F|F]]; assert (G := F); rewrite H1 in G; rewrite F; simpl.
  - destruct (pe_ok_leaf p Op) as (_ & _ & Dp & _); [rewrite F; discriminate|].
    destruct (pe_ok_leaf q Oq) as (_ & _ & Dq & _); [rewrite G; discriminate|].
    eapply cmp_correct_iff; [|apply (cmp_data_correct p q Dp Dq)].
    rewrite pe_value_prim, pe_value_prim by assumption; split; congruence.
  - destruct (pe_ok_leaf p Op) as (_ & _ & Dp & _); [rewrite F; discriminate|].
    destruct (pe_ok_leaf q Oq) as (_ & _ & Dq & _); [rewrite G; discriminate|].
    rewrite (pe_value_icons p F), (pe_value_icons q G).
    destruct (Z.eqb_spec (pe_ilen p) (pe_ilen q)); simpl.
    + eapply cmp_correct_iff; [|apply (cmp_data_correct p q Dp Dq)]; split; congruence.
    + apply cmp_correct_no; congruence.
  - destruct (pe_ok_node p Op F) as (_ & _ & Mp), (pe_ok_node q Oq G) as (_ & _ & Mq).
    rewrite (pe_value_cons p F), (pe_value_cons q G).
    eapply cmp_correct_iff; [|apply (cmp_list_correct (pe_cons p) IH (pe_cons q) Mp Mq)].
    split; congruence.
Qed.

(** ** pe_cpy copies the abstract value *)

(** Some request for memory is refused. *)
Definition out_of_memory `{Allocator} : Prop :=
  (exists n, 0 <= n <= INT_MAX /\ malloc_ok n = false) \/
  (exists class form id, pe_pool_ok class form id = false).

Definition copy_of (p q : PElement) : Prop :=
  pe_ok q /\ pe_value q = pe_value p /\
  pe_context q = pe_context p /\ pe_nbits q = pe_nbits p /\
  pe_offset q = 0 /\ pe_errno q = PE_ERR_NONE /\ pe_refcnt q = 0 /\ pe_inline q = 0.

(** The result [r] of an allocating function: a value satisfying [P], or
    null when memory ran out. *)
Definition alloc_result `{Allocator} {T} (r : cres (option T)) (P : T -> Prop) : Prop :=
  exists o, r = Val o /\ match o with Some q => P q | None => out_of_memory end.

Section Copy.
Context `{Allocator}.

Lemma malloc_int_false n : 0 <= n <= INT_MAX -> malloc_int n = false -> out_of_memory.
Proof.
  unfold malloc_int; intros Hn; rewrite int2sizet_Some by lia; left; eauto.
Qed.

Lemma cpy_prim_result pe p : data_ok pe -> pe_len p = pe_len pe -> pe_prim p = None ->
  alloc_result (cpy_prim pe p)
    (fun q => q = match pe_prim pe with Some d => set_prim p (Some d) | None => p end).
Proof.
  intros D L N; unfold cpy_prim, alloc_result; rewrite L.
  pose proof (rdn_ptr_data pe D) as R; pose proof (data_ok_len pe D) as LN.
  unfold pe_data in R; destruct (pe_prim pe) as [b|]; [|exists (Some p); auto].
  destruct (malloc_int (pe_len pe)) eqn:M; [|exists None; eauto using malloc_int_false].
  rewrite R; eexists (Some _); split; reflexivity.
Qed.

(** The walk over the members. *)
Fixpoint cpy_list (rs : list PElement) : cres (option (list PElement)) :=
  match rs with
  | [] => Val (Some [])
  | r :: rs' =>
      q <- pe_cpy r;;
      match q with
      | None => Val None
      | Some q =>
          qs <- cpy_list rs';;
          Val (match qs with Some qs => Some (q :: qs) | None => None end)
      end
  end.

Lemma cpy_list_result rs :
  Forall (fun r => pe_ok r -> alloc_result (pe_cpy r) (copy_of r)) rs ->
  Forall pe_ok rs -> alloc_result (cpy_list rs) (fun qs => Forall2 copy_of rs qs).
Proof.
  induction 1 as [|r rs Hr _ IH]; intros O; simpl; [exists (Some []); auto|].
  inversion_clear O; destruct Hr as ([q|] & -> & C); [assumption|..]; simpl.
  - destruct IH as ([qs|] & -> & C'); [assumption|..]; simpl.
    + exists (Some (q :: qs)); auto.
    + exists None; auto.
  - exists None; auto.
Qed.

Lemma copies_values rs qs : Forall2 copy_of rs qs ->
  Forall pe_ok qs /\ map pe_value qs = map pe_value rs.
Proof.
  induction 1 as [|r q rs qs C _ [O E]]; simpl; [auto|].
  destruct C as (? & -> & _); rewrite E; auto.
Qed.

Lemma pe_cpy_result p : pe_ok p -> alloc_result (pe_cpy p) (copy_of p).
Proof.
  induction p as [p IH] using PElement_tree_ind; intros O.
  destruct p as [er cx cl fo id ln il pr co u2 inl rb ofs rc].
  unfold alloc_result; simpl in *; unfold pe_alloc.
  destruct (pe_pool_ok cl fo id) eqn:A; simpl; [|exists None; split; [reflexivity | right; eauto]].
  destruct (pe_form_cases _ O) as [F|[F|F]]; simpl in F; subst fo; simpl.
  - destruct (pe_ok_leaf _ O) as (_ & T & D & _); [discriminate|].
    edestruct (cpy_prim_result (mkPE er cx cl PE_FORM_PRIM id ln il pr co u2 inl rb ofs rc))
      as ([q|] & -> & C); [exact D | reflexivity | reflexivity |..]; simpl.
    + exists (Some (set_un2 q u2)); split; [reflexivity|]; subst q; unfold copy_of; simpl.
      destruct pr as [b|]; simpl; repeat split; auto; apply ok_prim; auto; destruct D as (D1 & D2 & D3);
        split; auto.
    + exists None; auto.
  - destruct (pe_ok_leaf _ O) as (_ & T & D & _); [discriminate|].
    edestruct (cpy_prim_result (mkPE er cx cl PE_FORM_ICONS id ln il pr co u2 inl rb ofs rc))
      as ([q|] & -> & C); [exact D | reflexivity | reflexivity |..]; simpl.
    + exists (Some (set_un2 q u2)); split; [reflexivity|]; subst q; unfold copy_of; simpl.
      destruct pr as [b|]; simpl; repeat split; auto; apply ok_prim; auto; destruct D as (D1 & D2 & D3);
        split; auto.
    + exists None; auto.
  - destruct (pe_ok_node _ O) as (T & N & M); [reflexivity|]; simpl in M.
    fold cpy_list.
    destruct (cpy_list_result co IH M) as ([qs|] & -> & C); simpl.
    + apply copies_values in C as [O' E].
      eexists (Some _); split; [reflexivity|]; unfold copy_of; simpl; repeat split; auto.
      * apply ok_cons; auto.
      * rewrite E; reflexivity.
    + exists None; auto.
Qed.
End Copy.

(** ** Sequences: the list as a map from offsets *)

(** The invariant of a sequence built by [seq_add]: offsets strictly
    increase, and [pe_cardinal] is one more than the last, 0 if empty. *)
Fixpoint seq_sorted (lo : Z) (l : list PElement) : Prop :=
  match l with
  | [] => True
  | p :: l' => lo <= pe_offset p /\ seq_sorted (pe_offset p + 1) l'
  end.

(** One more than the last offset. *)
Fixpoint seq_bound (l : list PElement) : Z :=
  match l with
  | [] => 0
  | [p] => pe_offset p + 1
  | _ :: l' => seq_bound l'
  end.

Definition seq_ok (pe : PElement) : Prop :=
  seq_sorted 0 (pe_cons pe) /\ pe_cardinal pe = seq_bound (pe_cons pe) /\
  pe_cardinal pe <= INT_MAX.

(** The member at offset [i]. *)
Definition seq_at (l : list PElement) (i : Z) : option PElement :=
  find (fun p => pe_offset p =? i) l.

Lemma seq_at_cons p l i : seq_at (p :: l) i = if pe_offset p =? i then Some p else seq_at l i.
Proof. reflexivity. Qed.

Lemma seq_sorted_weaken lo lo' l : lo' <= lo -> seq_sorted lo l -> seq_sorted lo' l.
Proof. destruct l; simpl; intuition lia. Qed.

(** No member lies below the first offset. *)
Lemma seq_at_low lo l i : seq_sorted lo l -> i < lo -> seq_at l i = None.
Proof.
  revert lo; induction l as [|p l IH]; intros lo; [reflexivity|].
  rewrite seq_at_cons; simpl; intros [L S] Hi.
  destruct (Z.eqb_spec (pe_offset p) i); [lia | eapply IH; [exact S | lia]].
Qed.

Lemma seq_bound_cons p l : seq_bound (p :: l) =
  match l with [] => pe_offset p + 1 | _ :: _ => seq_bound l end.
Proof. reflexivity. Qed.

(** No member lies at or above the bound. *)
Lemma seq_bound_lo lo l : seq_sorted lo l -> l <> [] -> lo < seq_bound l.
Proof.
  revert lo; induction l as [|p [|q l] IH]; intros lo; [easy| |]; rewrite seq_bound_cons.
  - simpl; lia.
  - intros [L S] _; specialize (IH _ S ltac:(discriminate)); lia.
Qed.

Lemma seq_at_high lo l i : seq_sorted lo l -> seq_bound l <= i -> seq_at l i = None.
Proof.
  revert lo; induction l as [|p l IH]; intros lo; [reflexivity|].
  rewrite seq_at_cons, seq_bound_cons; intros [L S] Hi.
  destruct l as [|q l].
  - destruct (Z.eqb_spec (pe_offset p) i); [lia | reflexivity].
  - pose proof (seq_bound_lo _ _ S ltac:(discriminate)).
    destruct (Z.eqb_spec (pe_offset p) i); [lia | eapply IH; eauto].
Qed.

Lemma seq_insert_sorted lo l r i : seq_sorted lo l -> lo <= i -> pe_offset r = i ->
  seq_sorted lo (seq_insert l r i).
Proof.
  revert lo; induction l as [|p l IH]; intros lo S L E; simpl; [lia|].
  destruct S as [Lp S].
  destruct (Z.eqb_spec (pe_offset p) i); [subst; simpl; rewrite <- e; auto|].
  rewrite Z.gtb_ltb; destruct (Z.ltb_spec i (pe_offset p)); simpl.
  - repeat split; try lia; exact S.
  - split; [lia | apply IH; auto; lia].
Qed.

Lemma seq_insert_bound lo l r i : 0 <= lo -> seq_sorted lo l -> lo <= i -> pe_offset r = i ->
  seq_bound (seq_insert l r i) = Z.max (seq_bound l) (i + 1).
Proof.
  revert lo; induction l as [|p l IH]; intros lo N S L E; simpl seq_insert.
  - simpl; lia.
  - destruct S as [Lp S].
    destruct (Z.eqb_spec (pe_offset p) i).
    + rewrite !seq_bound_cons; destruct l as [|q l]; [lia|].
      pose proof (seq_bound_lo _ _ S ltac:(discriminate)); lia.
    + rewrite Z.gtb_ltb; destruct (Z.ltb_spec i (pe_offset p)).
      * rewrite (seq_bound_cons r).
        pose proof (seq_bound_lo lo (p :: l) (conj Lp S) ltac:(discriminate)).
        assert (pe_offset p < seq_bound (p :: l)); [|lia].
        apply seq_bound_lo; [split; [lia | exact S] | discriminate].
      * rewrite seq_bound_cons.
        assert (E' : seq_insert l r i <> []).
        { destruct l as [|q l]; simpl; repeat case_goal; discriminate. }
        specialize (IH (pe_offset p + 1) ltac:(lia) S ltac:(lia) E).
        destruct (seq_insert l r i) as [|a m]; [easy|].
        rewrite IH, seq_bound_cons.
        destruct l as [|q l]; [simpl; lia | reflexivity].
Qed.

Lemma seq_insert_at lo l r i j : seq_sorted lo l -> pe_offset r = i ->
  seq_at (seq_insert l r i) j = if j =? i then Some r else seq_at l j.
Proof.
  revert lo; induction l as [|p l IH]; intros lo S E; simpl seq_insert.
  - rewrite seq_at_cons, E, Z.eqb_sym; reflexivity.
  - destruct S as [Lp S].
    destruct (Z.eqb_spec (pe_offset p) i) as [Ei|Ei].
    + rewrite !seq_at_cons, E, Ei, (Z.eqb_sym i j).
      destruct (Z.eqb_spec j i); reflexivity.
    + rewrite Z.gtb_ltb; destruct (Z.ltb_spec i (pe_offset p)).
      * rewrite seq_at_cons, E, (Z.eqb_sym i j); reflexivity.
      * rewrite !seq_at_cons, (IH _ S E).
        destruct (Z.eqb_spec (pe_offset p) j), (Z.eqb_spec j i); try reflexivity; lia.
Qed.

Lemma seq_bound_nonneg l : seq_sorted 0 l -> 0 <= seq_bound l.
Proof.
  intros S; destruct l as [|p l]; [reflexivity|].
  pose proof (seq_bound_lo 0 (p :: l) S ltac:(discriminate)); lia.
Qed.

(** The offset [seq_add] uses: a negative one means "after the last". *)
Definition seq_target (pe : PElement) (i : Z) : Z := if i <? 0 then pe_cardinal pe else i.

Lemma seq_add_result pe r i : seq_ok pe -> seq_target pe i < INT_MAX ->
  exists pe', seq_add pe (Some r) i = (OK, pe') /\ seq_ok pe' /\
    pe_cons pe' = seq_insert (pe_cons pe) (set_offset r (seq_target pe i)) (seq_target pe i) /\
    pe_cardinal pe' = Z.max (pe_cardinal pe) (seq_target pe i + 1).
Proof.
  intros (S & B & M) T; unfold seq_add; fold (seq_target pe i).
  assert (N : 0 <= seq_target pe i).
  { unfold seq_target in *; pose proof (seq_bound_nonneg _ S).
    destruct (Z.ltb_spec i 0); lia. }
  set (k := seq_target pe i) in *.
  pose proof (seq_insert_sorted 0 (pe_cons pe) (set_offset r k) k S N eq_refl) as S'.
  pose proof (seq_insert_bound 0 (pe_cons pe) (set_offset r k) k ltac:(lia) S N eq_refl) as B'.
  rewrite Z.geb_leb.
  assert (I : i32 (k + 1) = k + 1) by (apply i32_id; unfold is_int, INT_MIN; lia).
  destruct (Z.leb_spec (pe_un2 pe) k); rewrite ?I; eexists; (split; [reflexivity|]);
    unfold seq_ok; simpl; rewrite B'; repeat split; auto; lia.
Qed.

(** The walk of [seq_del] finds the member at [i] and removes it. *)
Lemma seq_remove_spec lo l i o : seq_sorted lo l ->
  match seq_remove l i o with
  | None => seq_at l i = None
  | Some (l', c) =>
      seq_at l i <> None /\ seq_sorted lo l' /\
      (forall j, seq_at l' j = if j =? i then None else seq_at l j) /\
      match c with
      | None => l' <> [] /\ seq_bound l' = seq_bound l
      | Some o' => seq_bound l = i + 1 /\ (l' = [] /\ o' = o \/ l' <> [] /\ seq_bound l' = o' + 1 /\ o' < i)
      end
  end.
Proof.
  revert lo o; induction l as [|p l IH]; intros lo o S; [reflexivity|].
  destruct S as [Lp S]; simpl seq_remove; rewrite seq_at_cons.
  destruct (Z.eqb_spec (pe_offset p) i) as [E|E].
  - split; [discriminate|]; split; [eapply seq_sorted_weaken; [|exact S]; lia|]; split.
    + intros j; rewrite seq_at_cons.
      destruct (Z.eqb_spec j i), (Z.eqb_spec (pe_offset p) j); try lia; try reflexivity.
      subst; eapply seq_at_low; [exact S | lia].
    + rewrite seq_bound_cons; destruct l; [split; [lia | auto] | split; [discriminate | reflexivity]].
  - rewrite Z.gtb_ltb; destruct (Z.ltb_spec i (pe_offset p)).
    + eapply seq_at_low; [exact S | lia].
    + specialize (IH (pe_offset p + 1) (pe_offset p) S).
      destruct (seq_remove l i (pe_offset p)) as [[l' c]|]; [|exact IH].
      destruct IH as (F & S' & A & C); split; [exact F|]; split; [split; [lia | exact S']|]; split.
      * intros j; rewrite !seq_at_cons, A.
        destruct (Z.eqb_spec (pe_offset p) j), (Z.eqb_spec j i); try reflexivity; lia.
      * rewrite !seq_bound_cons.
        destruct l as [|q l]; [easy|].
        destruct c as [o'|].
        -- destruct C as [C1 C2]; split; [exact C1|]; right; split; [discriminate|].
           destruct C2 as [[-> ->]|(N & C2 & C3)]; [|destruct l'; easy].
           pose proof (seq_bound_lo _ _ S ltac:(discriminate)); simpl; lia.
        -- split; [discriminate|]; destruct C; destruct l'; easy.
Qed.

Lemma seq_find_at pe i : seq_ok pe -> fst (seq_find pe i) = seq_at (pe_cons pe) i.
Proof.
  intros (S & B & _); unfold seq_find; rewrite Z.geb_leb.
  destruct (Z.leb_spec (pe_un2 pe) i); [|reflexivity].
  simpl; symmetry; eapply seq_at_high; [exact S | lia].
Qed.

(** With any cardinality that covers its members, the list decides. *)
Lemma seq_find_covered pe i : seq_sorted 0 (pe_cons pe) -> seq_bound (pe_cons pe) <= pe_cardinal pe ->
  fst (seq_find pe i) = seq_at (pe_cons pe) i.
Proof.
  intros S B; unfold seq_find; rewrite Z.geb_leb.
  destruct (Z.leb_spec (pe_un2 pe) i); [|reflexivity].
  simpl; symmetry; eapply seq_at_high; [exact S | lia].
Qed.

Lemma number_offsets_sorted i l : seq_sorted i (number_offsets i l).
Proof. revert i; induction l as [|p l IH]; intros i; simpl; [exact I | split; [lia | apply IH]]. Qed.

Lemma number_offsets_bound i l : l <> [] -> seq_bound (number_offsets i l) = i + zlen l.
Proof.
  revert i; induction l as [|p [|q l] IH]; intros i; [easy|reflexivity|intros _].
  change (number_offsets i (p :: q :: l)) with (set_offset p i :: number_offsets (i + 1) (q :: l)).
  rewrite seq_bound_cons; change (number_offsets (i + 1) (q :: l)) with
    (set_offset q (i + 1) :: number_offsets (i + 1 + 1) l) at 1.
  cbv match; rewrite IH by discriminate; zlen.
Qed.

Lemma number_offsets_at i l j : 0 <= j ->
  seq_at (number_offsets i l) (i + j) =
  option_map (fun p => set_offset p (i + j)) (nth_error l (Z.to_nat j)).
Proof.
  revert i j; induction l as [|p l IH]; intros i j Hj; [now destruct (Z.to_nat j)|].
  simpl number_offsets; rewrite seq_at_cons; simpl pe_offset.
  destruct (Z.eqb_spec i (i + j)).
  - assert (j = 0) as -> by lia; simpl; f_equal; f_equal; lia.
  - replace (i + j) with (i + 1 + (j - 1)) by lia; rewrite IH by lia.
    replace (Z.to_nat j) with (S (Z.to_nat (j - 1))) by lia; reflexivity.
Qed.

Lemma number_offsets_values i l : map pe_value (number_offsets i l) = map pe_value l.
Proof.
  revert i; induction l as [|p l IH]; intros i; simpl; [reflexivity|]; rewrite IH.
  destruct p; reflexivity.
Qed.

(** ** Sets: the list as a map from tags *)

Definition set_ok (pe : PElement) : Prop := NoDup (map pe_tag (pe_cons pe)).

Definition set_at (l : list PElement) (tag : Z) : option PElement :=
  find (fun p => pe_tag p =? tag) l.

Lemma set_at_cons p l t : set_at (p :: l) t = if pe_tag p =? t then Some p else set_at l t.
Proof. reflexivity. Qed.

Lemma set_at_None l t : set_at l t = None <-> ~ In t (map pe_tag l).
Proof.
  induction l as [|p l IH]; [simpl; tauto|].
  rewrite set_at_cons; simpl; destruct (Z.eqb_spec (pe_tag p) t); [intuition discriminate|].
  rewrite IH; tauto.
Qed.

Lemma existsb_set_at l t : existsb (fun q => pe_tag q =? t) l = false <-> set_at l t = None.
Proof.
  induction l as [|p l IH]; simpl; [tauto|].
  destruct (pe_tag p =? t); simpl; [split; discriminate | exact IH].
Qed.

Lemma set_search_found l t q : ~ In t (map pe_tag l) -> set_search l t (Some q) = inl (Some q).
Proof.
  induction l as [|p l IH]; simpl; [reflexivity|]; intros N.
  destruct (Z.eqb_spec (pe_tag p) t); [tauto | apply IH; tauto].
Qed.

Lemma set_search_at l t : NoDup (map pe_tag l) -> set_search l t None = inl (set_at l t).
Proof.
  induction l as [|p l IH]; [reflexivity|]; intros D; inversion_clear D.
  rewrite set_at_cons; simpl; destruct (Z.eqb_spec (pe_tag p) t); [|now apply IH].
  apply set_search_found; now subst.
Qed.

Lemma set_remove_spec l t : NoDup (map pe_tag l) ->
  match set_remove l t with
  | None => set_at l t = None
  | Some l' => set_at l t <> None /\ NoDup (map pe_tag l') /\ incl (map pe_tag l') (map pe_tag l) /\
      forall u, set_at l' u = if u =? t then None else set_at l u
  end.
Proof.
  induction l as [|p l IH]; [reflexivity|]; intros D; inversion_clear D.
  rewrite set_at_cons; simpl set_remove; destruct (Z.eqb_spec (pe_tag p) t) as [E|E].
  - repeat split; auto; [discriminate | now apply incl_tl |].
    intros u; rewrite set_at_cons; destruct (Z.eqb_spec u t), (Z.eqb_spec (pe_tag p) u); try lia; auto.
    apply set_at_None; congruence.
  - specialize (IH H0); destruct (set_remove l t) as [l'|]; [|exact IH].
    destruct IH as (F & N & I & A); repeat split; auto.
    + simpl; constructor; auto.
    + apply incl_cons; [now left | now apply incl_tl].
    + intros u; rewrite !set_at_cons, A.
      destruct (Z.eqb_spec (pe_tag p) u), (Z.eqb_spec u t); try reflexivity; lia.
Qed.

Lemma set_at_app l r t : set_at (l ++ [r]) t =
  match set_at l t with Some p => Some p | None => if pe_tag r =? t then Some r else None end.
Proof.
  induction l as [|p l IH]; [reflexivity|].
  change ((p :: l) ++ [r]) with (p :: (l ++ [r])); rewrite !set_at_cons.
  destruct (pe_tag p =? t); [reflexivity | exact IH].
Qed.

Lemma seq_del_result pe i : seq_ok pe ->
  match seq_at (pe_cons pe) i with
  | None => seq_del pe i = (NOTOK, set_errno pe PE_ERR_MBER)
  | Some _ => exists pe', seq_del pe i = (OK, pe') /\
      seq_sorted 0 (pe_cons pe') /\
      (forall j, seq_at (pe_cons pe') j = if j =? i then None else seq_at (pe_cons pe) j) /\
      seq_bound (pe_cons pe') <= pe_cardinal pe' /\
      (pe_cons pe' <> [] -> seq_ok pe') /\ pe_cardinal pe' <= Z.max 1 (pe_cardinal pe)
  end.
Proof.
  intros (S & B & M); pose proof (seq_remove_spec 0 (pe_cons pe) i 0 S) as R.
  unfold seq_del; destruct (seq_remove (pe_cons pe) i 0) as [[l c]|]; [|rewrite R; reflexivity].
  destruct R as (F & S' & A & C); destruct (seq_at (pe_cons pe) i); [|easy].
  destruct c as [o|]; [|eexists; split; [reflexivity|]; unfold seq_ok; simpl; intuition lia].
  destruct C as (C1 & [[-> ->]|(N & C2 & C3)]).
  - eexists; split; [reflexivity|]; cbn [pe_cons pe_un2 set_un2 set_cons].
    change (i32 (0 + 1)) with 1; change (seq_bound []) with 0.
    repeat split; auto; try easy; lia.
  - pose proof (seq_bound_nonneg l S').
    assert (I : i32 (o + 1) = o + 1) by (apply i32_id; unfold is_int, INT_MIN; lia).
    rewrite I; eexists; split; [reflexivity|]; unfold seq_ok; simpl; intuition lia.
Qed.

Lemma set_add_result pe r : set_ok pe ->
  let '(rc, pe') := set_add pe (Some r) in
  set_ok pe' /\
  match set_at (pe_cons pe) (pe_tag r) with
  | Some _ => rc = NOTOK /\ pe' = set_errno pe PE_ERR_DUPLICATE
  | None => rc = OK /\ forall t, set_at (pe_cons pe') t =
              if t =? pe_tag r then Some r else set_at (pe_cons pe) t
  end.
Proof.
  intros O; unfold set_add.
  destruct (existsb _ _) eqn:E; simpl.
  - split; [exact O|]; destruct (set_at _ _) eqn:F; [auto|].
    apply existsb_set_at in F; congruence.
  - apply existsb_set_at in E; rewrite E; split; [|split; [reflexivity|]].
    + unfold set_ok; simpl; rewrite map_app; apply NoDup_app; try assumption.
      * simpl; constructor; [easy | constructor].
      * intros t I [<-|[]]; apply set_at_None in E; auto.
    + intros t; rewrite set_at_app, (Z.eqb_sym (pe_tag r) t).
      destruct (Z.eqb_spec t (pe_tag r)); [subst; rewrite E; reflexivity|].
      now destruct (set_at (pe_cons pe) t).
Qed.

Lemma set_del_result pe class id : set_ok pe ->
  let '(rc, pe') := set_del pe class id in
  set_ok pe' /\
  match set_at (pe_cons pe) (PE_ID class id) with
  | None => rc = NOTOK /\ pe' = set_errno pe PE_ERR_MBER
  | Some _ => rc = OK /\ forall t, set_at (pe_cons pe') t =
              if t =? PE_ID class id then None else set_at (pe_cons pe) t
  end.
Proof.
  intros O; pose proof (set_remove_spec (pe_cons pe) (PE_ID class id) O) as R; unfold set_del.
  destruct (set_remove (pe_cons pe) (PE_ID class id)) as [l|]; [|simpl; rewrite R; auto].
  destruct R as (F & N & _ & A); destruct (set_at (pe_cons pe) (PE_ID class id)); [|easy]; auto.
Qed.

(** ** pe_pullup gathers the segments of a string *)

(** The contents of the leaves, in order. *)
Fixpoint leaves (p : PElement) : list Z :=
  if pe_form p =? PE_FORM_CONS then concat (map leaves (pe_cons p)) else pe_data p.

(** A string of tag [c], [i] in non-empty segments of the same tag. *)
#[local] Unset Elimination Schemes.
Inductive segmented (c i : Z) (p : PElement) : Prop :=
| seg_prim : pe_class p = c -> pe_id p = i -> pe_form p = PE_FORM_PRIM ->
    pe_data p <> [] -> segmented c i p
| seg_cons : pe_class p = c -> pe_id p = i -> pe_form p = PE_FORM_CONS ->
    pe_cons p <> [] -> Forall (segmented c i) (pe_cons p) -> segmented c i p.
#[local] Set Elimination Schemes.

Lemma leaves_eq p :
  leaves p = if pe_form p =? PE_FORM_CONS then concat (map leaves (pe_cons p)) else pe_data p.
Proof. destruct p; reflexivity. Qed.

Section Pullup.
Context `{Allocator}.

Definition pull_list (c i : Z) :=
  fix go (ps : list PElement) (dp : option (list Z)) : cres (option (list Z)) :=
  match ps with
  | [] => Val dp
  | p :: ps' =>
      if negb (pe_class p =? c) || negb (pe_id p =? i) then Val None
      else
        ep <- pe_pullup_aux p;;
        match ep with
        | None => Val None
        | Some ep =>
            match dp with
            | None => go ps' (Some ep)
            | Some d =>
                let k := i32 (zlen d + zlen ep) in
                if k =? 0 then UB
                else if realloc_int k then go ps' (Some (d ++ ep))
                else Val None
            end
        end
  end.

Lemma pe_pullup_aux_eq p : pe_pullup_aux p =
  if pe_form p =? PE_FORM_PRIM then
    if malloc_int (pe_len p) then cmap Some (rdn_ptr (pe_prim p) (pe_len p)) else Val None
  else if pe_form p =? PE_FORM_CONS then pull_list (pe_class p) (pe_id p) (pe_cons p) None
  else Val None.
Proof. destruct p; reflexivity. Qed.

Definition pulled (p : PElement) (r : cres (option (list Z))) : Prop :=
  alloc_result r (fun d => d = leaves p).

Lemma realloc_false k : 0 < k <= INT_MAX -> realloc_int k = false -> out_of_memory.
Proof.
  unfold realloc_int; intros Hk; rewrite int2sizet_Some by lia.
  destruct (Z.eqb_spec k 0); [lia|]; simpl; left; exists k; split; [lia | assumption].
Qed.

Lemma pull_list_result c i ps d :
  Forall (fun p => pe_ok p -> segmented c i p -> zlen (leaves p) <= INT_MAX ->
            leaves p <> [] /\ pulled p (pe_pullup_aux p)) ps ->
  Forall pe_ok ps -> Forall (segmented c i) ps ->
  (d = None -> ps <> []) -> d <> Some [] ->
  let all := (match d with Some b => b | None => [] end) ++ concat (map leaves ps) in
  zlen all <= INT_MAX ->
  all <> [] /\ alloc_result (pull_list c i ps d) (fun b => b = all).
Proof.
  intros F; revert d; induction F as [|p ps Hp _ IH]; intros d O G N1 N2 all Z; subst all.
  - destruct d as [b|]; [|now destruct N1]; simpl in *; rewrite app_nil_r in *.
    split; [congruence | eexists (Some _); eauto].
  - inversion_clear O; inversion_clear G; simpl in Z; rewrite !zlen_app in Z.
    destruct Hp as (L & [ep|] & E & C); try assumption; [zlen | |].
    + simpl pull_list; subst ep.
      assert (T : (negb (pe_class p =? c) || negb (pe_id p =? i))%bool = false).
      { destruct H2 as [<- <-|<- <-]; rewrite !Z.eqb_refl; reflexivity. }
      rewrite T, E; simpl; destruct d as [b|].
      * assert (K : i32 (zlen b + zlen (leaves p)) = zlen b + zlen (leaves p)).
        { apply i32_id; unfold is_int, INT_MIN; zlen. }
        rewrite K; assert (0 < zlen (leaves p)) by (destruct (leaves p); [easy | zlen]).
        destruct (Z.eqb_spec (zlen b + zlen (leaves p)) 0); [zlen|].
        destruct (realloc_int _) eqn:R.
        -- rewrite app_assoc; apply (IH (Some (b ++ leaves p))); try assumption; try discriminate.
           ++ intros [= Q]; destruct b; [easy | discriminate].
           ++ rewrite !zlen_app; lia.
        -- split; [destruct b; [easy | discriminate] | exists None; split; auto].
           eapply realloc_false; [|exact R]; zlen.
      * apply (IH (Some (leaves p))); try assumption; try discriminate; [congruence|].
        rewrite !zlen_app; zlen.
    + split; [destruct d as [[]|]; simpl; [easy.. | destruct (leaves p); easy]|].
      exists None; split; [|exact C]; simpl pull_list.
      destruct (_ || _)%bool; [reflexivity | rewrite E; reflexivity].
Qed.

Lemma pe_pullup_aux_result c i p : pe_ok p -> segmented c i p -> zlen (leaves p) <= INT_MAX ->
  leaves p <> [] /\ pulled p (pe_pullup_aux p).
Proof.
  induction p as [p IH] using PElement_tree_ind; intros O G Z.
  unfold pulled; rewrite pe_pullup_aux_eq; rewrite leaves_eq in *.
  destruct G as [C I F D|C I F N M]; rewrite F in *; simpl in *.
  - split; [exact D|].
    destruct (pe_ok_leaf p O) as (_ & _ & K & _); [rewrite F; discriminate|].
    pose proof (data_ok_len p K).
    destruct (malloc_int (pe_len p)) eqn:A; [|exists None; eauto using malloc_int_false].
    rewrite (rdn_ptr_data p K); simpl; eexists (Some _); auto.
  - destruct (pe_ok_node p O F) as (_ & _ & K); rewrite C, I.
    apply (pull_list_result c i (pe_cons p) None IH K M); easy.
Qed.
End Pullup.

(** * The properties of presentation elements *)

(** C23. [pe_cmp] decides equality of abstract values: on well-formed elements it
    reads only inside their buffers, and returns 0 exactly when tags and
    contents agree all the way down, 1 otherwise. *)
Theorem pe_cmp_decides : forall p q, pe_ok p -> pe_ok q ->
  exists r, pe_cmp (Some p) (Some q) = Val r /\ (r = 0 \/ r = 1) /\
    (r = 0 <-> pe_value p = pe_value q).
Proof. intros p q Op Oq; exact (pe_cmp_pe_correct p q Op Oq). Qed.

(** [pe_cpy] either returns a well-formed element that [pe_cmp] cannot tell
    from the original, or null because a request for memory was refused. *)
Theorem pe_cpy_copies : forall (A : Allocator) p, pe_ok p ->
  exists o, pe_cpy p = Val o /\
    match o with
    | Some q => pe_ok q /\ pe_cmp (Some q) (Some p) = Val 0 /\ pe_nbits q = pe_nbits p
    | None => out_of_memory
    end.
Proof.
  intros A p O; destruct (pe_cpy_result p O) as ([q|] & E & C); eexists; (split; [exact E|]); [|exact C].
  destruct C as (Oq & V & _ & N & _); repeat split; auto.
  destruct (pe_cmp_pe_correct q p Oq O) as (r & Er & _ & R); simpl; rewrite Er; f_equal; tauto.
Qed.

(** C24. A sequence is a finite map from offsets: after [seq_add] the new member
    is found at its offset (the next one for a negative argument), every
    other offset is as before, and the invariant of the sequence holds. *)
Theorem seq_add_insert : forall pe r i, seq_ok pe -> seq_target pe i < INT_MAX ->
  exists pe', seq_add pe (Some r) i = (OK, pe') /\ seq_ok pe' /\
    forall j, fst (seq_find pe' j) =
      if j =? seq_target pe i then Some (set_offset r (seq_target pe i)) else fst (seq_find pe j).
Proof.
  intros pe r i O T; destruct (seq_add_result pe r i O T) as (pe' & E & O' & L & _).
  exists pe'; repeat split; try assumption; try apply O'.
  intros j; rewrite !seq_find_at, L by assumption.
  eapply seq_insert_at; [apply O | reflexivity].
Qed.

(** [seq_del] removes exactly the member at its offset, fails with
    PE_ERR_MBER when there is none, and keeps the invariant as long as a
    member is left. *)
Theorem seq_del_remove : forall pe i, seq_ok pe ->
  match seq_find pe i with
  | (None, _) => seq_del pe i = (NOTOK, set_errno pe PE_ERR_MBER)
  | (Some _, _) => exists pe', seq_del pe i = (OK, pe') /\
      (pe_cons pe' <> [] -> seq_ok pe') /\
      forall j, fst (seq_find pe' j) = if j =? i then None else fst (seq_find pe j)
  end.
Proof.
  intros pe i O; pose proof (seq_find_at pe i O) as F.
  pose proof (seq_del_result pe i O) as R.
  destruct (seq_find pe i) as [o e]; simpl in F; subst o.
  destruct (seq_at (pe_cons pe) i); [|exact R].
  destruct R as (pe' & E & S' & A & B' & N & _); exists pe'; split; [exact E|]; split; [exact N|].
  intros j; rewrite seq_find_covered, A, (seq_find_at pe) by assumption; reflexivity.
Qed.

(** Deleting the only member of a sequence leaves [pe_cardinal] at 1, so that
    the next member appended goes to offset 1 instead of 0. *)
Theorem seq_del_sole_member : forall pe m r, pe_cons pe = [m] ->
  let pe' := snd (seq_del pe (pe_offset m)) in
  pe_cons pe' = [] /\ pe_cardinal pe' = 1 /\
  map pe_offset (pe_cons (snd (seq_add pe' (Some r) (-1)))) = [1].
Proof.
  intros pe m r E; unfold seq_del; rewrite E; simpl; rewrite Z.eqb_refl; simpl; auto.
Qed.

(** [prim2set] numbers the members of a constructor from 0: the result is a
    well-formed sequence whose member [i] is the [i]th of the list, its
    abstract value unchanged; another form is refused with PE_ERR_CONS. *)
Theorem prim2set_numbers : forall pe, zlen (pe_cons pe) <= INT_MAX ->
  (pe_form pe <> PE_FORM_CONS -> prim2set pe = (None, set_errno pe PE_ERR_CONS)) /\
  (pe_form pe = PE_FORM_CONS -> exists pe', prim2set pe = (Some pe', pe') /\
     seq_ok pe' /\ pe_value pe' = pe_value pe /\
     forall i, 0 <= i -> fst (seq_find pe' i) =
       option_map (fun p => set_offset p i) (nth_error (pe_cons pe) (Z.to_nat i))).
Proof.
  intros pe L; unfold prim2set; split; intros F; rewrite <- Z.eqb_neq in * || rewrite F; simpl.
  { rewrite F; reflexivity. }
  eexists; split; [reflexivity|].
  assert (O : seq_ok (set_un2 (set_cons pe (number_offsets 0 (pe_cons pe))) (zlen (pe_cons pe)))).
  { unfold seq_ok; simpl; split; [apply number_offsets_sorted|]; split; [|exact L].
    destruct (pe_cons pe) as [|p l] eqn:E; [reflexivity|].
    rewrite number_offsets_bound by discriminate; reflexivity. }
  split; [exact O|]; split.
  - rewrite (pe_value_cons pe F), pe_value_cons by exact F; simpl.
    rewrite number_offsets_values; reflexivity.
  - intros i Hi; rewrite seq_find_at by exact O; simpl.
    exact (number_offsets_at 0 (pe_cons pe) i Hi).
Qed.

(** C25. A set is a finite map from tags: [set_add] refuses a tag that is present
    and otherwise adds the member; [set_find] finds the unique member with a
    tag; [set_del] removes it. All keep tags distinct. *)
Theorem set_refines_map : forall pe, set_ok pe ->
  (forall class id, set_find pe class id = (set_at (pe_cons pe) (PE_ID class id), pe)) /\
  (forall r, let '(rc, pe') := set_add pe (Some r) in
     set_ok pe' /\
     match set_at (pe_cons pe) (pe_tag r) with
     | Some _ => rc = NOTOK /\ pe' = set_errno pe PE_ERR_DUPLICATE
     | None => rc = OK /\ forall t, set_at (pe_cons pe') t =
                 if t =? pe_tag r then Some r else set_at (pe_cons pe) t
     end) /\
  (forall class id, let '(rc, pe') := set_del pe class id in
     set_ok pe' /\
     match set_at (pe_cons pe) (PE_ID class id) with
     | None => rc = NOTOK /\ pe' = set_errno pe PE_ERR_MBER
     | Some _ => rc = OK /\ forall t, set_at (pe_cons pe') t =
                 if t =? PE_ID class id then None else set_at (pe_cons pe) t
     end).
Proof.
  intros pe O; split; [|split].
  - intros class id; unfold set_find; rewrite set_search_at by exact O; reflexivity.
  - intros r; exact (set_add_result pe r O).
  - intros class id; exact (set_del_result pe class id O).
Qed.

(** [pe_pullup] turns a string sent in non-empty segments into the primitive
    that holds their concatenation, with the same tag, or reports NOTOK and
    leaves the element alone when memory ran out. *)
Theorem pe_pullup_concat : forall (A : Allocator) pe, pe_ok pe -> pe_form pe = PE_FORM_CONS ->
  segmented (pe_class pe) (pe_id pe) pe -> zlen (leaves pe) <= INT_MAX ->
  exists rc pe', pe_pullup pe = Val (rc, pe') /\
    ((rc = OK /\ pe_ok pe' /\ pe_value pe' = VPrim (pe_class pe) (pe_id pe) (leaves pe)) \/
     (rc = NOTOK /\ pe' = pe /\ out_of_memory)).
Proof.
  intros A pe O F G Z; unfold pe_pullup; rewrite F; simpl.
  destruct (pe_pullup_aux_result _ _ pe O G Z) as (_ & [d|] & E & C); rewrite E; simpl.
  - subst d; do 2 eexists; split; [reflexivity|]; left; split; [reflexivity|]; split; [|reflexivity].
    apply ok_prim; simpl; auto; [apply (pe_ok_node pe O F)|].
    unfold data_ok; simpl; repeat split; [exact Z|]; clear -O.
    induction pe as [p IH] using PElement_tree_ind; rewrite leaves_eq.
    destruct (Z.eqb_spec (pe_form p) PE_FORM_CONS) as [F|F].
    + destruct (pe_ok_node p O F) as (_ & _ & K).
      induction IH as [|q l Q _ IHl]; simpl; [constructor|].
      inversion_clear K; apply bytes_app; auto.
    + destruct (pe_ok_leaf p O F) as (_ & _ & (_ & _ & B) & _); exact B.
  - do 2 eexists; split; [reflexivity|]; auto.
Qed.

(** Pulling up a string of two empty segments frees its buffer twice:
    [realloc (dp, 0)] frees it and returns NULL, whereupon [dp] is freed. *)
Theorem pe_pullup_empty_segments : forall c i,
  let seg := mkPE 0 0 c PE_FORM_PRIM i 0 0 (Some []) [] 0 0 None 0 0 in
  @pe_pullup plenty (mkPE 0 0 c PE_FORM_CONS i 0 0 None [seg; seg] 0 0 None 0 0) = UB.
Proof. intros; unfold pe_pullup; simpl; rewrite !Z.eqb_refl; reflexivity. Qed.

(** * Witnesses *)

(** The invariant, decided. *)
Fixpoint pe_okb (p : PElement) : bool :=
  (0 <=? pe_class p) && (pe_class p <? 4) && (0 <=? pe_id p) && (pe_id p <? 65536) &&
  if pe_form p =? PE_FORM_CONS then
    match pe_prim p with None => true | Some _ => false end && forallb pe_okb (pe_cons p)
  else
    ((pe_form p =? PE_FORM_PRIM) || (pe_form p =? PE_FORM_ICONS)) &&
    (pe_len p =? zlen (pe_data p)) && (pe_len p <=? INT_MAX) && forallb byteb (pe_data p) &&
    match pe_cons p with [] => true | _ :: _ => false end.

Lemma forallb_bytes l : forallb byteb l = true -> bytes l.
Proof.
  intros H; apply Forall_forall; intros x I; apply byteb_spec; rewrite forallb_forall in H; auto.
Qed.

Lemma pe_okb_eq p : pe_okb p =
  (0 <=? pe_class p) && (pe_class p <? 4) && (0 <=? pe_id p) && (pe_id p <? 65536) &&
  if pe_form p =? PE_FORM_CONS then
    match pe_prim p with None => true | Some _ => false end && forallb pe_okb (pe_cons p)
  else
    ((pe_form p =? PE_FORM_PRIM) || (pe_form p =? PE_FORM_ICONS)) &&
    (pe_len p =? zlen (pe_data p)) && (pe_len p <=? INT_MAX) && forallb byteb (pe_data p) &&
    match pe_cons p with [] => true | _ :: _ => false end.
Proof. destruct p; reflexivity. Qed.

Lemma pe_okb_ok p : pe_okb p = true -> pe_ok p.
Proof.
  induction p as [p IH] using PElement_tree_ind; rewrite pe_okb_eq; intros H.
  apply andb_true_iff in H as [T H]; assert (tag_ok p) by (unfold tag_ok; bool_to_prop; lia); clear T.
  destruct (Z.eqb_spec (pe_form p) PE_FORM_CONS) as [F|F].
  - apply andb_true_iff in H as [N M]; apply ok_cons; [exact F | assumption | destruct (pe_prim p); [discriminate | reflexivity] |].
    rewrite forallb_forall in M; rewrite Forall_forall in IH |- *; intros q Q; apply IH; auto.
  - apply andb_true_iff in H as [H C]; apply andb_true_iff in H as [H B]; apply ok_prim; [|assumption| |].
    + bool_to_prop; destruct H as [H|H]; bool_to_prop; auto.
    + unfold data_ok; bool_to_prop; auto using forallb_bytes.
    + destruct (pe_cons p); [reflexivity | discriminate].
Qed.

(** An integer, an octet string of two segments, and a sequence of them. *)
Definition ex_int : PElement := mkPE 0 0 0 PE_FORM_PRIM 2 1 0 (Some [5]) [] 0 0 None 0 0.
Definition ex_octs : PElement := mkPE 0 0 0 PE_FORM_PRIM 4 2 0 (Some [104; 105]) [] 0 0 None 1 0.
Definition ex_string : PElement := mkPE 0 0 0 PE_FORM_CONS 4 0 0 None [ex_octs; ex_octs] 0 0 None 2 0.
Definition ex_seq : PElement := mkPE 0 0 0 PE_FORM_CONS 16 0 0 None [ex_int; ex_octs; ex_string] 3 0 None 0 0.

Lemma pe_cmp_decides_witness : exists r, pe_cmp (Some ex_seq) (Some ex_string) = Val r /\ (r = 0 \/ r = 1) /\
  (r = 0 <-> pe_value ex_seq = pe_value ex_string).
Proof. apply (pe_cmp_decides ex_seq ex_string); apply pe_okb_ok; reflexivity. Defined.

Lemma pe_cpy_copies_witness : exists o, @pe_cpy plenty ex_seq = Val o /\
  match o with
  | Some q => pe_ok q /\ pe_cmp (Some q) (Some ex_seq) = Val 0 /\ pe_nbits q = pe_nbits ex_seq
  | None => @out_of_memory plenty
  end.
Proof. apply (pe_cpy_copies plenty ex_seq), pe_okb_ok; reflexivity. Defined.

Lemma ex_seq_ok : seq_ok ex_seq.
Proof. unfold seq_ok, INT_MAX; simpl; lia. Qed.

Lemma seq_add_insert_witness : exists pe', seq_add ex_seq (Some ex_int) (-1) = (OK, pe') /\ seq_ok pe' /\
  fst (seq_find pe' 3) = Some (set_offset ex_int 3).
Proof.
  destruct (seq_add_insert ex_seq ex_int (-1) ex_seq_ok ltac:(reflexivity)) as (pe' & E & O & F).
  exists pe'; split; [exact E|]; split; [exact O|]; rewrite F; reflexivity.
Defined.

Lemma seq_del_remove_witness : exists pe', seq_del ex_seq 1 = (OK, pe') /\
  (pe_cons pe' <> [] -> seq_ok pe') /\
  forall j, fst (seq_find pe' j) = if j =? 1 then None else fst (seq_find ex_seq j).
Proof. exact (seq_del_remove ex_seq 1 ex_seq_ok). Defined.

Lemma prim2set_numbers_witness : exists pe', prim2set ex_string = (Some pe', pe') /\ seq_ok pe' /\
  fst (seq_find pe' 1) = Some (set_offset ex_octs 1).
Proof.
  destruct (prim2set_numbers ex_string ltac:(vm_compute; discriminate)) as [_ H].
  destruct (H eq_refl) as (pe' & E & O & _ & F); exists pe'; split; [exact E|]; split; [exact O|].
  rewrite F by lia; reflexivity.
Defined.

Definition ex_set : PElement := mkPE 0 0 0 PE_FORM_CONS 17 0 0 None [ex_int; ex_octs] 2 0 None 0 0.

Lemma set_refines_map_witness : set_find ex_set 0 4 = (Some ex_octs, ex_set).
Proof.
  assert (O : set_ok ex_set) by (unfold set_ok; simpl; repeat constructor; simpl; intuition discriminate).
  destruct (set_refines_map ex_set O) as [F _]; rewrite F; reflexivity.
Defined.

Lemma pe_pullup_concat_witness : exists rc pe', @pe_pullup plenty ex_string = Val (rc, pe') /\
  ((rc = OK /\ pe_ok pe' /\ pe_value pe' = VPrim 0 4 [104; 105; 104; 105]) \/
   (rc = NOTOK /\ pe' = ex_string /\ @out_of_memory plenty)).
Proof.
  apply (pe_pullup_concat plenty ex_string); [apply pe_okb_ok; reflexivity | reflexivity | | vm_compute; discriminate].
  apply seg_cons; try reflexivity; [discriminate|].
  repeat constructor; discriminate.
Defined.
