(* ===== verification/PStream.v ===== *)
(** * psap: presentation streams (ps_io.c, ps_prime.c, ps_flush.c, ps_alloc.c, str2ps.c)

    A stream dispatches to the routines of its implementation. The vector of
    function pointers is the class [PSOps]; what the codec relies on are the
    classes [PSReader] and [PSWriter], whose laws the string stream of
    str2ps.c satisfies here and the stream of Qbuf.v there. *)

From S2P Require Import Prelude Conv.
Open Scope Z_scope.
Open Scope c_scope.

Definition PS_ERR_NONE := 0.
Definition PS_ERR_OVERID := 1.
Definition PS_ERR_OVERLEN := 2.
Definition PS_ERR_NMEM := 3.
Definition PS_ERR_EOF := 4.
Definition PS_ERR_EOFID := 5.
Definition PS_ERR_EOFLEN := 6.
Definition PS_ERR_LEN := 7.
Definition PS_ERR_INDF := 9.

(** ** The stream

    [ps_un] is the member of the union [ps_un] the implementation uses. *)
Record PStream (U : Type) : Type := mkPS {
  ps_errno : Z;
  ps_inline : Z;
  ps_byteno : Z;
  ps_un : U
}.
Arguments mkPS {U}.
Arguments ps_errno {U}.
Arguments ps_inline {U}.
Arguments ps_byteno {U}.
Arguments ps_un {U}.

Definition set_ps_errno {U} (ps : PStream U) (e : Z) : PStream U :=
  mkPS e (ps_inline ps) (ps_byteno ps) (ps_un ps).
Definition set_ps_inline {U} (ps : PStream U) (i : Z) : PStream U :=
  mkPS (ps_errno ps) i (ps_byteno ps) (ps_un ps).
Definition set_ps_byteno {U} (ps : PStream U) (n : Z) : PStream U :=
  mkPS (ps_errno ps) (ps_inline ps) n (ps_un ps).
Definition set_ps_un {U} (ps : PStream U) (u : U) : PStream U :=
  mkPS (ps_errno ps) (ps_inline ps) (ps_byteno ps) u.

(** [ps_seterr (ps, e, v)] *)
Definition ps_seterr {U A} (ps : PStream U) (e : Z) (v : A) : A * PStream U :=
  (v, set_ps_errno ps e).

(** A read delivers the number of octets, the octets, and the new stream; a
    write takes the octets and the [in_line] flag. *)
Definition read_fn (U : Type) : Type := PStream U -> Z -> cres (Z * list Z * PStream U).
Definition write_fn (U : Type) : Type := PStream U -> list Z -> Z -> cres (Z * PStream U).

Class PSOps (U : Type) := {
  ps_primeP : option (PStream U -> Z -> Z * PStream U);
  ps_readP : option (read_fn U);
  ps_writeP : option (write_fn U);
  ps_flushP : option (PStream U -> cres (Z * PStream U));
  (** the octets [ps_ptr .. ps_ptr + len - 1] of the base buffer, when
      [ps_base] is set and holds so many more, with the pointer advanced:
      what the decoder does in place on an in-line stream *)
  ps_advance : PStream U -> Z -> cres (option (list Z * PStream U))
}.

Section Io.
Context {U : Type} `{PSOps U}.

Definition ps_prime (ps : PStream U) (waiting : Z) : Z * PStream U :=
  match ps_primeP with Some f => f ps waiting | None => (OK, ps) end.

Definition ps_flush (ps : PStream U) : cres (Z * PStream U) :=
  match ps_flushP with Some f => f ps | None => Val (OK, ps) end.

(** The loop of [ps_io] for a read. [acc] holds the octets stored at [data]
    so far; the number [n] of octets wanted bounds the iterations. *)
Fixpoint ps_read_loop (io : read_fn U) (fuel : nat) (ps : PStream U) (n : Z) (acc : list Z)
  : cres (option (list Z) * PStream U) :=
  if n >? 0 then
    match fuel with
    | O => UB
    | S fuel' =>
        ' (cc, d, ps) <- io ps n;;
        if cc =? NOTOK then Val (None, ps)
        else if cc =? OK then Val (ps_seterr ps PS_ERR_EOF None)
        else ps_read_loop io fuel' (set_ps_byteno ps (i32 (ps_byteno ps + cc))) (n - cc) (acc ++ d)
    end
  else Val (Some acc, ps).

(** [ps_read (ps, data, cc)]: [Some] of the octets read for OK, [None] for NOTOK. *)
Definition ps_read (ps : PStream U) (n : Z) : cres (option (list Z) * PStream U) :=
  match ps_readP with
  | None => Val (ps_seterr ps PS_ERR_EOF None)
  | Some io => ps_read_loop io (Z.to_nat n) ps n []
  end.

Fixpoint ps_write_loop (io : write_fn U) (fuel : nat) (ps : PStream U) (d : list Z) (in_line : Z)
  : cres (Z * PStream U) :=
  match d with
  | [] => Val (OK, ps)
  | _ :: _ =>
      match fuel with
      | O => UB
      | S fuel' =>
          ' (cc, ps) <- io ps d in_line;;
          if cc =? NOTOK then Val (NOTOK, ps)
          else if cc =? OK then Val (ps_seterr ps PS_ERR_EOF NOTOK)
          else ps_write_loop io fuel' (set_ps_byteno ps (i32 (ps_byteno ps + cc))) (zdrop cc d) in_line
      end
  end.

(** [ps_write_aux (ps, data, cc, in_line)] *)
Definition ps_write_aux (ps : PStream U) (d : list Z) (in_line : Z) : cres (Z * PStream U) :=
  match ps_writeP with
  | None => Val (ps_seterr ps PS_ERR_EOF NOTOK)
  | Some io => ps_write_loop io (length d) ps d in_line
  end.

Definition ps_write (ps : PStream U) (d : list Z) : cres (Z * PStream U) := ps_write_aux ps d 0.
End Io.

(** ** What a reader promises

    [ps_input_of] is what is left to read, [ps_rok] the invariant and
    [ps_inlines] whether [ps_inline] may be set on such a stream. A read
    delivers a prefix of the input, empty only at the end, and touches nothing
    else of the stream. *)
Class PSReader (U : Type) `{PSOps U} := {
  ps_rok : U -> Prop;
  ps_input_of : U -> list Z;
  ps_inlines : Prop;
  ps_readable : exists io, ps_readP = Some io /\ forall ps n, 0 < n -> ps_rok (ps_un ps) ->
    exists cc u, io ps n = Val (cc, ztake cc (ps_input_of (ps_un ps)), set_ps_un ps u) /\ ps_rok u /\
      0 <= cc <= n /\ cc <= zlen (ps_input_of (ps_un ps)) /\
      (cc = 0 -> ps_input_of (ps_un ps) = []) /\
      ps_input_of u = zdrop cc (ps_input_of (ps_un ps));
  ps_prime_none : ps_primeP = None;
  ps_advance_law : forall ps n, 0 < n -> ps_rok (ps_un ps) -> ps_inline ps <> 0 -> ps_inlines ->
    if n <=? zlen (ps_input_of (ps_un ps))
    then exists u, ps_advance ps n = Val (Some (ztake n (ps_input_of (ps_un ps)), set_ps_un ps u)) /\
           ps_rok u /\ ps_input_of u = zdrop n (ps_input_of (ps_un ps))
    else ps_advance ps n = Val None
}.

(** The octets left to read, and the state of a stream the reader handles. *)
Definition ps_input {U} `{PSReader U} (ps : PStream U) : list Z := ps_input_of (ps_un ps).

Definition ps_good {U} `{PSReader U} (ps : PStream U) : Prop :=
  (ps_rok (ps_un ps) /\ (ps_inline ps <> 0 -> ps_inlines)) /\ is_int (ps_byteno ps).

(** ** What a writer promises

    [ps_output] is what has been written and [ps_wok] the invariant. A write
    appends a prefix of its data, all of it when the writer accepts it; a
    flush keeps what was written. *)
Class PSWriter (U : Type) `{PSOps U} := {
  ps_wok : U -> Prop;
  ps_output : U -> list Z;
  ps_accepts : PStream U -> list Z -> Z -> Prop;
  ps_writable : exists io, ps_writeP = Some io /\ forall ps d in_line, d <> [] -> ps_wok (ps_un ps) ->
    exists cc u e, io ps d in_line = Val (cc, mkPS e (ps_inline ps) (ps_byteno ps) u) /\ ps_wok u /\
      (ps_accepts ps d in_line -> cc = zlen d /\ e = ps_errno ps) /\
      ((cc = NOTOK /\ ps_output u = ps_output (ps_un ps)) \/
       (0 <= cc <= zlen d /\ ps_output u = ps_output (ps_un ps) ++ ztake cc d));
  ps_flush_law : forall ps, ps_wok (ps_un ps) -> exists rc ps', ps_flush ps = Val (rc, ps') /\
    ps_wok (ps_un ps') /\ ps_output (ps_un ps') = ps_output (ps_un ps)
}.

(** A sequence of writes, stopped by the first that fails. *)
Fixpoint ps_write_all {U} `{PSOps U} (ps : PStream U) (ws : list (list Z * Z)) : cres (Z * PStream U) :=
  match ws with
  | [] => Val (OK, ps)
  | (d, in_line) :: ws' =>
      ' (rc, ps) <- ps_write_aux ps d in_line;;
      if rc =? NOTOK then Val (NOTOK, ps) else ps_write_all ps ws'
  end.

(** * Lemmas *)

Lemma ztake_ztake {A} a b (l : list A) : 0 <= a <= b -> ztake a (ztake b l) = ztake a l.
Proof. intros; unfold ztake; rewrite firstn_firstn; f_equal; lia. Qed.

Lemma ztake_ztake_app {A} a b (l : list A) : 0 <= a -> 0 <= b ->
  ztake a l ++ ztake b (zdrop a l) = ztake (a + b) l.
Proof.
  intros; unfold ztake, zdrop; rewrite firstn_skipn_comm.
  replace (Z.to_nat (a + b)) with (Z.to_nat a + Z.to_nat b)%nat by lia.
  transitivity (firstn (Z.to_nat a) (firstn (Z.to_nat a + Z.to_nat b) l) ++
                skipn (Z.to_nat a) (firstn (Z.to_nat a + Z.to_nat b) l)).
  - f_equal; rewrite firstn_firstn; f_equal; lia.
  - apply firstn_skipn.
Qed.

Lemma i32_add_i32 a b : i32 (i32 a + b) = i32 (a + b).
Proof.
  unfold i32.
  replace ((a + 2147483648) mod 4294967296 - 2147483648 + b + 2147483648)
    with ((a + 2147483648) mod 4294967296 + b) by lia.
  rewrite Zplus_mod_idemp_l; f_equal; f_equal; lia.
Qed.

Section Reader.
Context {U : Type} `{PSReader U}.

(** What is the same in two streams of which one was read further. *)
Definition same_frame (ps ps' : PStream U) : Prop :=
  ps_errno ps' = ps_errno ps /\ ps_inline ps' = ps_inline ps.

(** The outcome of reading [n] octets. *)
Definition read_outcome (ps : PStream U) (n : Z) (r : cres (option (list Z) * PStream U)) : Prop :=
  exists ps', ps_good ps' /\
  if n <=? zlen (ps_input ps) then
    r = Val (Some (ztake n (ps_input ps)), ps') /\ same_frame ps ps' /\
    ps_byteno ps' = i32 (ps_byteno ps + n) /\ ps_input ps' = zdrop n (ps_input ps)
  else
    r = Val (None, ps') /\ ps_errno ps' = PS_ERR_EOF /\ ps_inline ps' = ps_inline ps /\ ps_input ps' = [].

Lemma ps_read_loop_spec io fuel ps n acc :
  (forall ps n, 0 < n -> ps_rok (ps_un ps) ->
    exists cc u, io ps n = Val (cc, ztake cc (ps_input ps), set_ps_un ps u) /\ ps_rok u /\
      0 <= cc <= n /\ cc <= zlen (ps_input ps) /\ (cc = 0 -> ps_input ps = []) /\
      ps_input_of u = zdrop cc (ps_input ps)) ->
  0 <= n -> (Z.to_nat n <= fuel)%nat -> ps_good ps ->
  exists ps', ps_good ps' /\
  if n <=? zlen (ps_input ps) then
    ps_read_loop io fuel ps n acc = Val (Some (acc ++ ztake n (ps_input ps)), ps') /\
    same_frame ps ps' /\ ps_byteno ps' = i32 (ps_byteno ps + n) /\ ps_input ps' = zdrop n (ps_input ps)
  else
    ps_read_loop io fuel ps n acc = Val (None, ps') /\
    ps_errno ps' = PS_ERR_EOF /\ ps_inline ps' = ps_inline ps /\ ps_input ps' = [].
Proof.
  intros L; revert ps n acc; induction fuel as [|fuel IH]; intros ps n acc Hn F B; simpl;
    rewrite Z.gtb_ltb.
  - assert (n = 0) as -> by lia; simpl.
    exists ps; rewrite (proj2 (Z.leb_le 0 _)) by zlen.
    rewrite ztake_0, zdrop_0, app_nil_r, Z.add_0_r, i32_id by (lia || apply B).
    unfold same_frame; auto.
  - destruct (Z.ltb_spec 0 n) as [P|P].
    + destruct (L ps n P (proj1 (proj1 B))) as (cc & u & E & C0 & C1 & C2 & C3 & C4); rewrite E; simpl.
      destruct (Z.eqb_spec cc NOTOK); [unfold NOTOK in *; lia|].
      destruct (Z.eqb_spec cc OK) as [->|N].
      * specialize (C3 eq_refl); rewrite C3 in *.
        rewrite (proj2 (Z.leb_gt n (zlen []))) by (rewrite zlen_nil; lia).
        exists (set_ps_errno (set_ps_un ps u) PS_ERR_EOF).
        split; [split; [split; [exact C0 | apply B] | exact (proj2 B)]|]; split; [reflexivity|]; simpl.
        unfold ps_input; simpl; rewrite C4; auto.
      * unfold OK in N.
        set (ps1 := set_ps_byteno (set_ps_un ps u) (i32 (ps_byteno ps + cc))).
        assert (I1 : ps_input ps1 = zdrop cc (ps_input ps)).
        { exact C4. }
        destruct (IH ps1 (n - cc) (acc ++ ztake cc (ps_input ps))) as (ps' & R);
          [lia | lia | split; [split; [exact C0 | apply B] | apply i32_range]|].
        exists ps'; rewrite I1, zlen_zdrop in R by zlen.
        replace (n - cc <=? zlen (ps_input ps) - cc) with (n <=? zlen (ps_input ps)) in R
          by (destruct (Z.leb_spec n (zlen (ps_input ps))), (Z.leb_spec (n - cc) (zlen (ps_input ps) - cc)); lia).
        destruct R as (R0 & R); split; [exact R0|].
        destruct (Z.leb_spec n (zlen (ps_input ps))); destruct R as (R1 & R2 & R3 & R4).
        -- rewrite R1, <- app_assoc, ztake_ztake_app by lia.
           replace (cc + (n - cc)) with n by lia; split; [reflexivity|]; split; [exact R2|]; split.
           ++ rewrite R3; simpl; rewrite i32_add_i32; f_equal; lia.
           ++ rewrite R4, zdrop_zdrop by lia; f_equal; lia.
        -- rewrite R1; auto.
    + assert (n = 0) as -> by lia; simpl.
      exists ps; rewrite (proj2 (Z.leb_le 0 _)) by zlen.
      rewrite ztake_0, zdrop_0, app_nil_r, Z.add_0_r, i32_id by (lia || apply B).
      unfold same_frame; repeat split; auto; apply B.
Qed.

(** [ps_read] delivers the next [n] octets, or fails with PS_ERR_EOF when
    the input is shorter. *)
Lemma ps_read_spec ps n : 0 <= n -> ps_good ps -> read_outcome ps n (ps_read ps n).
Proof.
  intros Hn B; destruct ps_readable as (io & E & L); unfold ps_read; rewrite E.
  exact (ps_read_loop_spec io (Z.to_nat n) ps n [] L Hn ltac:(lia) B).
Qed.

(** Reading one octet. *)
Lemma ps_read1_cons ps c rest : ps_input ps = c :: rest -> ps_good ps ->
  exists ps', ps_good ps' /\ ps_read ps 1 = Val (Some [c], ps') /\ same_frame ps ps' /\
    ps_byteno ps' = i32 (ps_byteno ps + 1) /\ ps_input ps' = rest.
Proof.
  intros E B; destruct (ps_read_spec ps 1 ltac:(lia) B) as (ps' & R); rewrite E in R.
  rewrite (proj2 (Z.leb_le 1 _)) in R by zlen; exists ps'; exact R.
Qed.

Lemma ps_read1_nil ps : ps_input ps = [] -> ps_good ps ->
  exists ps', ps_good ps' /\ ps_read ps 1 = Val (None, ps') /\ ps_errno ps' = PS_ERR_EOF /\
    ps_inline ps' = ps_inline ps /\ ps_input ps' = [].
Proof.
  intros E B; destruct (ps_read_spec ps 1 ltac:(lia) B) as (ps' & R); rewrite E in R.
  rewrite (proj2 (Z.leb_gt 1 _)) in R by zlen; exists ps'; exact R.
Qed.
End Reader.

Section Writer.
Context {U : Type} `{PSWriter U}.

Lemma ps_write_loop_spec io fuel ps d in_line :
  (forall ps d in_line, d <> [] -> ps_wok (ps_un ps) ->
    exists cc u e, io ps d in_line = Val (cc, mkPS e (ps_inline ps) (ps_byteno ps) u) /\ ps_wok u /\
      (ps_accepts ps d in_line -> cc = zlen d /\ e = ps_errno ps) /\
      ((cc = NOTOK /\ ps_output u = ps_output (ps_un ps)) \/
       (0 <= cc <= zlen d /\ ps_output u = ps_output (ps_un ps) ++ ztake cc d))) ->
  (length d <= fuel)%nat -> ps_wok (ps_un ps) ->
  exists rc ps', ps_write_loop io fuel ps d in_line = Val (rc, ps') /\ ps_wok (ps_un ps') /\
    ps_inline ps' = ps_inline ps /\
    ((rc = OK /\ ps_output (ps_un ps') = ps_output (ps_un ps) ++ d) \/ rc = NOTOK).
Proof.
  intros L; revert ps d; induction fuel as [|fuel IH]; intros ps d F W; destruct d as [|x d].
  - exists OK, ps; rewrite app_nil_r; repeat split; auto.
  - simpl in F; lia.
  - exists OK, ps; rewrite app_nil_r; repeat split; auto.
  - set (D := x :: d) in *.
    destruct (L ps D in_line) as (cc & u & e & E & W' & _ & C); [discriminate | exact W|].
    unfold D at 1; simpl; fold D; rewrite E; simpl.
    destruct (Z.eqb_spec cc NOTOK); [do 2 eexists; split; [reflexivity|]; auto|].
    destruct C as [[]|[C1 C2]]; [easy|].
    destruct (Z.eqb_spec cc OK); [do 2 eexists; split; [reflexivity|]; auto|].
    unfold OK in *.
    assert (ZD : length (zdrop cc D) = (length D - Z.to_nat cc)%nat) by apply length_skipn.
    destruct (IH (set_ps_byteno (mkPS e (ps_inline ps) (ps_byteno ps) u) (i32 (ps_byteno ps + cc)))
                 (zdrop cc D)) as (rc & ps' & E' & W'' & I' & C'); [lia | exact W' |].
    simpl ps_byteno in E'; exists rc, ps'; split; [exact E'|]; split; [exact W''|].
    split; [exact I'|]; destruct C' as [[-> C']|]; [left; split; [reflexivity|]|auto].
    rewrite C'; simpl; rewrite C2, <- app_assoc, ztake_zdrop; reflexivity.
Qed.

(** A successful [ps_write_aux] appends all of its data. *)
Lemma ps_write_aux_spec ps d in_line : ps_wok (ps_un ps) ->
  exists rc ps', ps_write_aux ps d in_line = Val (rc, ps') /\ ps_wok (ps_un ps') /\
    ps_inline ps' = ps_inline ps /\
    ((rc = OK /\ ps_output (ps_un ps') = ps_output (ps_un ps) ++ d) \/ rc = NOTOK).
Proof.
  intros W; destruct ps_writable as (io & E & L); unfold ps_write_aux; rewrite E.
  apply (ps_write_loop_spec io (length d) ps d in_line L); auto.
Qed.

(** Data that the writer accepts is written at once. *)
Lemma ps_write_accepted ps d in_line : ps_wok (ps_un ps) -> d <> [] -> ps_accepts ps d in_line ->
  exists u, ps_write_aux ps d in_line =
    Val (OK, mkPS (ps_errno ps) (ps_inline ps) (i32 (ps_byteno ps + zlen d)) u) /\ ps_wok u /\
    ps_output u = ps_output (ps_un ps) ++ d /\
    exists io, ps_writeP = Some io /\
      io ps d in_line = Val (zlen d, mkPS (ps_errno ps) (ps_inline ps) (ps_byteno ps) u).
Proof.
  intros W N A; destruct ps_writable as (io & E & L); unfold ps_write_aux; rewrite E.
  destruct (L ps d in_line N W) as (cc & u & e & E' & W' & C & D).
  destruct (C A) as [-> ->].
  assert (0 < zlen d) by (destruct d; [easy | zlen]).
  destruct D as [[D _]|[_ D]]; [unfold NOTOK in D; lia|].
  exists u; split; [|split; [exact W'|split; [|eauto]]].
  - destruct d as [|x d]; [easy|]; simpl; rewrite E'; simpl.
    destruct (Z.eqb_spec (zlen (x :: d)) NOTOK); [unfold NOTOK in *; lia|].
    destruct (Z.eqb_spec (zlen (x :: d)) OK); [unfold OK in *; lia|].
    rewrite zdrop_all by lia; destruct (length d); reflexivity.
  - rewrite D, ztake_all by lia; reflexivity.
Qed.

Lemma ps_write_all_spec ws : forall ps, ps_wok (ps_un ps) ->
  exists rc ps', ps_write_all ps ws = Val (rc, ps') /\ ps_wok (ps_un ps') /\
    ps_inline ps' = ps_inline ps /\
    ((rc = OK /\ ps_output (ps_un ps') = ps_output (ps_un ps) ++ concat (map fst ws)) \/ rc = NOTOK).
Proof.
  induction ws as [|[d i] ws IH]; intros ps W; simpl.
  - exists OK, ps; rewrite app_nil_r; repeat split; auto.
  - destruct (ps_write_aux_spec ps d i W) as (rc & ps1 & E & W1 & I1 & C); rewrite E; simpl.
    destruct C as [[-> C]| ->]; [|do 2 eexists; split; [reflexivity|]; auto].
    destruct (IH ps1 W1) as (rc & ps' & E' & W' & I' & C'); rewrite E'.
    exists rc, ps'; split; [reflexivity|]; split; [exact W'|]; split; [congruence|].
    destruct C' as [[-> C']|]; [left; split; [reflexivity|]|auto].
    rewrite C', C, app_assoc; reflexivity.
Qed.
End Writer.

Section Writes.
Context {U : Type} `{PSOps U}.

(** A write returns OK or NOTOK. *)
Lemma ps_write_loop_rc (io : write_fn U) fuel ps d in_line rc ps' :
  ps_write_loop io fuel ps d in_line = Val (rc, ps') -> rc = OK \/ rc = NOTOK.
Proof.
  revert ps d; induction fuel as [|fuel IH]; intros ps [|x d]; simpl;
    try (intros [= <- <-]; auto); try discriminate.
  destruct (io ps (x :: d) in_line) as [[cc ps1]|]; simpl; [|discriminate].
  destruct (cc =? NOTOK); [intros [= <- <-]; auto|].
  destruct (cc =? OK); [intros [= <- <-]; auto | apply IH].
Qed.

Lemma ps_write_aux_rc ps d in_line rc ps' :
  ps_write_aux ps d in_line = Val (rc, ps') -> rc = OK \/ rc = NOTOK.
Proof.
  unfold ps_write_aux; destruct ps_writeP; [apply ps_write_loop_rc | intros [= <- <-]; auto].
Qed.

Lemma ps_write_all_one ps d in_line : ps_write_all ps [(d, in_line)] = ps_write_aux ps d in_line.
Proof.
  simpl; destruct (ps_write_aux ps d in_line) as [[rc ps1]|] eqn:E; simpl; [|reflexivity].
  apply ps_write_aux_rc in E as [-> | ->]; reflexivity.
Qed.

Lemma ps_write_all_cons ps d in_line ws :
  ps_write_all ps ((d, in_line) :: ws) =
  (' (rc, ps1) <- ps_write_aux ps d in_line;;
   if rc =? NOTOK then Val (NOTOK, ps1) else ps_write_all ps1 ws).
Proof. reflexivity. Qed.

Lemma ps_write_all_app ws ws' : forall ps,
  ps_write_all ps (ws ++ ws') =
  (' (rc, ps1) <- ps_write_all ps ws;;
   if rc =? NOTOK then Val (NOTOK, ps1) else ps_write_all ps1 ws').
Proof.
  induction ws as [|[d i] ws IH]; intros ps; simpl; [reflexivity|].
  destruct (ps_write_aux ps d i) as [[rc ps1]|]; simpl; [|reflexivity].
  destruct (rc =? NOTOK); simpl; [reflexivity | apply IH].
Qed.

Lemma ps_write_all_rc ws : forall ps rc ps', ps_write_all ps ws = Val (rc, ps') -> rc = OK \/ rc = NOTOK.
Proof.
  induction ws as [|[d i] ws IH]; intros ps rc ps'; simpl; [intros [= <- <-]; auto|].
  destruct (ps_write_aux ps d i) as [[r ps1]|]; simpl; [|discriminate].
  destruct (r =? NOTOK); [intros [= <- <-]; auto | apply IH].
Qed.
End Writes.
