(* ===== verification/StrPs.v ===== *)
(** * psap/str2ps.c: string-backed presentation streams

    The base buffer is the list of its initialised octets; [ps_bufsiz] is
    the size allocated and [ps_ptr] an offset into it. *)

From S2P Require Import Prelude Conv PStream.
Open Scope Z_scope.
Open Scope c_scope.

(** The member [un_ps_st] of the union of a stream. *)
Record str_un : Type := mkStr {
  ps_base : option (list Z);
  ps_cnt : Z;
  ps_ptr : Z;
  ps_bufsiz : Z
}.

Section Str.
Context `{Allocator}.

Definition str_read (ps : PStream str_un) (n : Z) : cres (Z * list Z * PStream str_un) :=
  let u := ps_un ps in
  match ps_base u with
  | None => Val (0, [], ps)
  | Some b =>
      if ps_cnt u <=? 0 then Val (0, [], ps)
      else
        let cc := if ps_cnt u >? n then n else ps_cnt u in
        match int2sizet cc with
        | None => Val (0, [], ps)
        | Some len =>
            d <- rdn b (ps_ptr u) len;;
            Val (cc, d, set_ps_un ps (mkStr (Some b) (ps_cnt u - cc) (ps_ptr u + cc) (ps_bufsiz u)))
        end
  end.

(** The label [partial]: the copy of the [n] octets to [ps_ptr]. *)
Definition str_partial (ps : PStream str_un) (b : list Z) (cnt ptr bufsiz : Z) (d : list Z) (n : Z)
  : cres (Z * PStream str_un) :=
  match int2sizet n with
  | None => Val (ps_seterr ps PS_ERR_NMEM NOTOK)
  | Some len =>
      b' <- wrc bufsiz b ptr (ztake len d);;
      Val (n, set_ps_un ps (mkStr (Some b') (cnt - n) (ptr + n) bufsiz))
  end.

Definition str_write (ps : PStream str_un) (d : list Z) (in_line : Z) : cres (Z * PStream str_un) :=
  let u := ps_un ps in
  let n := zlen d in
  match ps_base u with
  | None =>
      match add_int_to_int n BUFSIZ with
      | None => Val (ps_seterr ps PS_ERR_NMEM NOTOK)
      | Some cc =>
          if malloc_int cc then str_partial ps [] cc 0 cc d n
          else Val (ps_seterr ps PS_ERR_NMEM NOTOK)
      end
  | Some b =>
      if ps_cnt u <? n then
        match ptrdiff2int (ps_ptr u) with
        | None => Val (ps_seterr ps PS_ERR_NMEM NOTOK)
        | Some curlen =>
            if negb (ps_inline ps =? 0) then
              str_partial ps b (ps_cnt u) (ps_ptr u) (ps_bufsiz u) d (ps_cnt u)
            else
              match add_int_to_int n BUFSIZ with
              | None => Val (ps_seterr ps PS_ERR_NMEM NOTOK)
              | Some cc =>
                  match add_int_to_int (ps_bufsiz u) cc, add_int_to_int (ps_cnt u) cc with
                  | Some newsize, Some newcnt =>
                      if realloc_int newsize then str_partial ps b newcnt curlen newsize d n
                      else Val (ps_seterr ps PS_ERR_NMEM NOTOK)
                  | _, _ => Val (ps_seterr ps PS_ERR_NMEM NOTOK)
                  end
              end
        end
      else str_partial ps b (ps_cnt u) (ps_ptr u) (ps_bufsiz u) d n
  end.

(** The in-line read of the decoder. *)
Definition str_advance (ps : PStream str_un) (len : Z) : cres (option (list Z * PStream str_un)) :=
  let u := ps_un ps in
  match ps_base u with
  | None => Val None
  | Some b =>
      if ps_cnt u <? len then Val None
      else
        d <- rdn b (ps_ptr u) len;;
        Val (Some (d, set_ps_un ps (mkStr (Some b) (ps_cnt u - len) (ps_ptr u + len) (ps_bufsiz u))))
  end.

#[global] Instance str_open : PSOps str_un := {|
  ps_primeP := None;
  ps_readP := Some str_read;
  ps_writeP := Some str_write;
  ps_flushP := None;
  ps_advance := str_advance
|}.

(** The stream [ps_alloc (str_open)] returns. *)
Definition str_stream : PStream str_un := mkPS 0 0 0 (mkStr None 0 0 0).

(** [str_setup (ps, cp, cc, in_line)]: an in-line stream works on [cp]
    itself, another on a copy; a null [cp] leaves the block uninitialised. *)
Definition str_setup (ps : PStream str_un) (cp : option (list Z)) (cc in_line : Z)
  : cres (Z * PStream str_un) :=
  if negb (in_line =? 0) then
    Val (OK, set_ps_un (set_ps_inline ps 1) (mkStr cp cc 0 cc))
  else if cc >? 0 then
    if malloc_int cc then
      match cp with
      | None => Val (OK, set_ps_un ps (mkStr (Some []) cc 0 cc))
      | Some s =>
          d <- rdn s 0 cc;;
          Val (OK, set_ps_un ps (mkStr (Some d) cc 0 cc))
      end
    else Val (ps_seterr ps PS_ERR_NMEM NOTOK)
  else Val (OK, ps).
End Str.

(** * The string stream is a reader and a writer *)

(** The part of the base buffer still to be read. *)
Definition str_input (u : str_un) : list Z :=
  match ps_base u with
  | None => []
  | Some b => if ps_cnt u <=? 0 then [] else zdrop (ps_ptr u) b
  end.

(** A stream set up on [ps_cnt] octets to read. *)
Definition str_rok (u : str_un) : Prop :=
  match ps_base u with
  | None => True
  | Some b => 0 <= ps_ptr u /\ 0 <= ps_cnt u /\ ps_ptr u + ps_cnt u = zlen b
  end.

(** A stream written so far up to [ps_ptr]. *)
Definition str_wok (u : str_un) : Prop :=
  match ps_base u with
  | None => True
  | Some b => ps_ptr u = zlen b /\ 0 <= ps_cnt u /\ ps_bufsiz u = ps_ptr u + ps_cnt u /\
      ps_bufsiz u <= INT_MAX
  end.

Definition str_output (u : str_un) : list Z :=
  match ps_base u with None => [] | Some b => b end.

(** Memory and the [int] counters allow the growth that a write needs. *)
Definition str_fits (u : str_un) (n : Z) : Prop :=
  match ps_base u with
  | None => n + BUFSIZ <= INT_MAX
  | Some _ => n <= ps_cnt u \/ ps_bufsiz u + (n + BUFSIZ) <= INT_MAX
  end.

Lemma str_input_len u b : ps_base u = Some b -> str_rok u -> zlen (str_input u) = ps_cnt u.
Proof.
  unfold str_input, str_rok; intros ->; intros (P & C & L).
  destruct (Z.leb_spec (ps_cnt u) 0); [rewrite zlen_nil; lia | rewrite zlen_zdrop; lia].
Qed.

Lemma rdn_input b ptr n : 0 <= ptr -> 0 <= n -> ptr + n <= zlen b ->
  rdn b ptr n = Val (ztake n (zdrop ptr b)).
Proof. apply rdn_in. Qed.

Section StrReader.
Context `{Allocator}.

Lemma str_take_step u b cc : ps_base u = Some b -> str_rok u -> 0 < cc <= ps_cnt u ->
  rdn b (ps_ptr u) cc = Val (ztake cc (str_input u)) /\
  str_rok (mkStr (Some b) (ps_cnt u - cc) (ps_ptr u + cc) (ps_bufsiz u)) /\
  str_input (mkStr (Some b) (ps_cnt u - cc) (ps_ptr u + cc) (ps_bufsiz u)) = zdrop cc (str_input u).
Proof.
  unfold str_rok, str_input; intros E; rewrite E; simpl; intros (P & C & L) R.
  rewrite (proj2 (Z.leb_gt (ps_cnt u) 0)) by lia.
  split; [apply rdn_in; lia|]; split; [lia|].
  rewrite zdrop_zdrop by lia.
  destruct (Z.leb_spec (ps_cnt u - cc) 0); [rewrite zdrop_all by lia | f_equal; lia].
  reflexivity.
Qed.

#[global] Program Instance str_reader : PSReader str_un := {|
  ps_rok := str_rok; ps_input_of := str_input; ps_inlines := True
|}.
Next Obligation.
  exists str_read; split; [reflexivity|]; intros ps n Hn R; unfold str_read.
  destruct (ps_un ps) as [base cnt ptr bs] eqn:Eu; destruct base as [b|]; simpl.
  2: { exists 0, (ps_un ps); rewrite Eu; destruct ps; simpl in *; subst.
       repeat split; try lia; reflexivity. }
  pose proof (str_input_len (mkStr (Some b) cnt ptr bs) b eq_refl R) as L; simpl in L.
  destruct (Z.leb_spec cnt 0).
  { exists 0, (ps_un ps); rewrite Eu; pose proof R as (P & C & Lb); simpl in P, C, Lb.
    rewrite (zlen_0 (str_input _)) by lia.
    destruct ps; simpl in *; subst; split; [reflexivity|]; split; [exact R|].
    repeat split; try reflexivity; zlen. }
  set (cc := if cnt >? n then n else cnt).
  assert (Cc : 0 < cc <= cnt /\ cc <= n).
  { unfold cc; rewrite Z.gtb_ltb; destruct (Z.ltb_spec n cnt); lia. }
  rewrite int2sizet_Some by lia.
  destruct (str_take_step (mkStr (Some b) cnt ptr bs) b cc eq_refl R ltac:(simpl; lia)) as (E & R' & I).
  simpl in E; rewrite E; simpl; exists cc; eexists; split; [reflexivity|]; simpl in R'.
  split; [exact R'|]; split; [lia|]; split; [lia|]; split; [lia|]; exact I.
Qed.
Next Obligation.
  unfold str_advance; pose proof H1 as R; destruct (ps_un ps) as [base cnt ptr bs] eqn:Eu; simpl in *.
  destruct base as [b|]; simpl.
  2: { rewrite (proj2 (Z.leb_gt n _)) by (unfold str_input; simpl; rewrite zlen_nil; lia); reflexivity. }
  pose proof (str_input_len (mkStr (Some b) cnt ptr bs) b eq_refl R) as L; simpl in L; rewrite L.
  destruct (Z.ltb_spec cnt n).
  { rewrite (proj2 (Z.leb_gt n cnt)) by lia; reflexivity. }
  rewrite (proj2 (Z.leb_le n cnt)) by lia.
  destruct (str_take_step (mkStr (Some b) cnt ptr bs) b n eq_refl R ltac:(simpl; lia)) as (E & R' & I).
  simpl in E; rewrite E; simpl; eexists; split; [reflexivity|]; auto.
Qed.
End StrReader.

Section StrWriter.
Context `{Allocator}.

(** The shape of a write that copies all of [d] at the end of [b]. *)
Lemma str_partial_end ps b cnt bufsiz d : zlen b + zlen d <= bufsiz ->
  str_partial ps b cnt (zlen b) bufsiz d (zlen d) =
  Val (zlen d, set_ps_un ps (mkStr (Some (b ++ d)) (cnt - zlen d) (zlen b + zlen d) bufsiz)).
Proof.
  intros L; unfold str_partial; rewrite int2sizet_Some by zlen.
  rewrite ztake_all by lia; rewrite wrc_end by lia; reflexivity.
Qed.

Lemma str_partial_new ps cnt bufsiz d : zlen d <= bufsiz ->
  str_partial ps [] cnt 0 bufsiz d (zlen d) =
  Val (zlen d, set_ps_un ps (mkStr (Some ([] ++ d)) (cnt - zlen d) (zlen (@nil Z) + zlen d) bufsiz)).
Proof. exact (str_partial_end ps [] cnt bufsiz d). Qed.

(** What a single call of [str_write] does. *)
Definition write_result (ps : PStream str_un) (d : list Z) (r : cres (Z * PStream str_un)) : Prop :=
  exists cc u e, r = Val (cc, mkPS e (ps_inline ps) (ps_byteno ps) u) /\ str_wok u /\
    ((cc = NOTOK /\ str_output u = str_output (ps_un ps)) \/
     (0 <= cc <= zlen d /\ str_output u = str_output (ps_un ps) ++ ztake cc d)).

Lemma write_result_err ps d e : str_wok (ps_un ps) ->
  write_result ps d (Val (ps_seterr ps e NOTOK)).
Proof. intros W; exists NOTOK, (ps_un ps), e; auto. Qed.

Lemma write_result_all ps d b cnt bufsiz : zlen b + cnt = bufsiz -> zlen d <= cnt -> bufsiz <= INT_MAX ->
  b = str_output (ps_un ps) ->
  write_result ps d (Val (zlen d, set_ps_un ps (mkStr (Some (b ++ d)) (cnt - zlen d) (zlen b + zlen d) bufsiz))).
Proof.
  intros E L M O; exists (zlen d); do 2 eexists; split; [reflexivity|].
  unfold str_wok; simpl; split; [zlen|]; right; split; [zlen|].
  rewrite ztake_all by lia; rewrite O; reflexivity.
Qed.

Lemma str_write_result ps d in_line : str_wok (ps_un ps) -> write_result ps d (str_write ps d in_line).
Proof.
  intros W; unfold str_write; pose proof (zlen_nonneg d) as Hd; pose proof W as W'.
  unfold str_wok in W'; destruct (ps_base (ps_un ps)) as [b|] eqn:B.
  2: { destruct (add_int_to_int (zlen d) BUFSIZ) as [cc|] eqn:A; [|now apply write_result_err].
       apply add_int_to_int_inv in A; destruct (malloc_int cc); [|now apply write_result_err].
       rewrite str_partial_new by (unfold BUFSIZ in A; lia).
       apply write_result_all; unfold BUFSIZ in A; try rewrite zlen_nil; try lia.
       unfold str_output; rewrite B; reflexivity. }
  destruct W' as (P & C & E & M).
  assert (O : b = str_output (ps_un ps)) by (unfold str_output; rewrite B; reflexivity).
  destruct (Z.ltb_spec (ps_cnt (ps_un ps)) (zlen d)).
  2: { rewrite P, str_partial_end by lia; apply write_result_all; lia || assumption. }
  destruct (ptrdiff2int _) as [cur|] eqn:D; [|now apply write_result_err].
  unfold ptrdiff2int in D; destruct (_ || _)%bool; [discriminate|]; injection D as <-.
  destruct (negb _).
  - unfold str_partial; rewrite int2sizet_Some by lia; rewrite P, wrc_end by (rewrite zlen_ztake; lia).
    simpl; do 3 eexists; split; [reflexivity|]; unfold str_wok; simpl.
    rewrite zlen_app, zlen_ztake by lia; split; [lia|]; right; split; [lia|].
    rewrite O; reflexivity.
  - destruct (add_int_to_int (zlen d) BUFSIZ) as [cc|] eqn:A; [|now apply write_result_err].
    destruct (add_int_to_int _ cc) as [ns|] eqn:A1; [|now apply write_result_err].
    destruct (add_int_to_int (ps_cnt (ps_un ps)) cc) as [nc|] eqn:A2; [|now apply write_result_err].
    apply add_int_to_int_inv in A, A1, A2; unfold BUFSIZ in A.
    destruct (realloc_int ns); [|now apply write_result_err].
    rewrite P, str_partial_end by lia; apply write_result_all; lia || assumption.
Qed.

(** A write of which memory allows the growth succeeds. *)
Lemma str_write_fits ps d in_line : memory_ok -> ps_inline ps = 0 -> str_wok (ps_un ps) ->
  str_fits (ps_un ps) (zlen d) ->
  exists u, str_write ps d in_line = Val (zlen d, set_ps_un ps u) /\
    (ps_cnt (ps_un ps) <= ps_ptr (ps_un ps) + BUFSIZ ->
       ps_cnt u <= ps_ptr u + BUFSIZ) /\
    ps_ptr u = (match ps_base (ps_un ps) with None => 0 | Some _ => ps_ptr (ps_un ps) end) + zlen d.
Proof.
  intros Mem I W F; unfold str_write, str_fits, str_wok in *; pose proof (zlen_nonneg d).
  destruct (ps_base (ps_un ps)) as [b|] eqn:B.
  2: { rewrite add_int_to_int_Some by (unfold BUFSIZ in *; lia).
       unfold malloc_int; rewrite int2sizet_Some, Mem by (unfold BUFSIZ in *; lia).
       rewrite str_partial_new by (unfold BUFSIZ in *; lia).
       eexists; split; [reflexivity|]; cbn [ps_cnt ps_ptr ps_bufsiz set_ps_un ps_un]; rewrite zlen_nil; split; lia. }
  destruct W as (P & C & E & M).
  destruct (Z.ltb_spec (ps_cnt (ps_un ps)) (zlen d)).
  2: { rewrite P, str_partial_end by lia; eexists; split; [reflexivity|]; simpl; lia. }
  destruct F as [F|F]; [lia|]; pose proof (zlen_nonneg b).
  rewrite ptrdiff2int_Some by (unfold is_int, INT_MIN; lia); rewrite I; simpl.
  rewrite add_int_to_int_Some by (unfold BUFSIZ in *; lia).
  rewrite !add_int_to_int_Some by (unfold BUFSIZ in *; lia).
  unfold realloc_int; rewrite int2sizet_Some, Mem by (unfold BUFSIZ in *; lia).
  destruct (Z.eqb_spec (ps_bufsiz (ps_un ps) + (zlen d + BUFSIZ)) 0); [unfold BUFSIZ in *; lia|].
  simpl; rewrite P, str_partial_end by (unfold BUFSIZ in *; lia).
  eexists; split; [reflexivity|]; simpl; unfold BUFSIZ in *; lia.
Qed.

#[global] Program Instance str_writer : PSWriter str_un := {|
  ps_wok := str_wok; ps_output := str_output;
  ps_accepts ps d _ := memory_ok /\ ps_inline ps = 0 /\ str_fits (ps_un ps) (zlen d)
|}.
Next Obligation.
  exists str_write; split; [reflexivity|]; intros ps d i N W.
  destruct (str_write_result ps d i W) as (cc & u & e & E & W' & C).
  exists cc, u, e; split; [exact E|]; split; [exact W'|]; split; [|exact C].
  intros (M & I & F); destruct (str_write_fits ps d i M I W F) as (u' & E' & _).
  rewrite E in E'; injection E' as -> -> _; auto.
Qed.
Next Obligation. exists OK, ps; auto. Qed.

(** A new string stream takes any sequence of writes whose size the [int]
    counters allow for. *)
Lemma str_write_all ws : forall ps, memory_ok -> ps_inline ps = 0 -> str_wok (ps_un ps) ->
  ps_cnt (ps_un ps) <= ps_ptr (ps_un ps) + BUFSIZ -> ps_ptr (ps_un ps) = zlen (str_output (ps_un ps)) ->
  2 * (ps_ptr (ps_un ps) + zlen (concat (map fst ws))) + 3 * BUFSIZ <= INT_MAX ->
  exists ps', ps_write_all ps ws = Val (OK, ps') /\ ps_inline ps' = 0 /\ ps_errno ps' = ps_errno ps /\
    ps_ptr (ps_un ps') = ps_ptr (ps_un ps) + zlen (concat (map fst ws)) /\
    str_output (ps_un ps') = str_output (ps_un ps) ++ concat (map fst ws).
Proof.
  induction ws as [|[d i] ws IH]; intros ps Mem I W C P T; cbn [ps_write_all map fst concat] in *.
  - exists ps; rewrite app_nil_r; change (zlen (@nil Z)) with 0; repeat split; auto; lia.
  - rewrite zlen_app in *.
    destruct d as [|x d]; [rewrite zlen_nil in T; apply IH; auto; lia|].
    set (D := x :: d) in *.
    pose proof (zlen_nonneg D); pose proof (zlen_nonneg (concat (map fst ws))); pose proof (zlen_nonneg (str_output (ps_un ps))).
    assert (F : str_fits (ps_un ps) (zlen D)).
    { unfold str_fits; unfold str_wok in W; unfold BUFSIZ in *; destruct (ps_base (ps_un ps)); lia. }
    destruct (@ps_write_accepted str_un _ str_writer ps D i W) as (u & E & W' & O & io & Eio & Eu);
      [discriminate | exact (conj Mem (conj I F))|].
    injection Eio as <-.
    destruct (str_write_fits ps D i Mem I W F) as (u' & E' & C' & P').
    rewrite E' in Eu; injection Eu as Eu; subst u'.
    rewrite E; cbn [cbind]; change (OK =? NOTOK) with false; cbn match.
    assert (P1 : ps_ptr u = ps_ptr (ps_un ps) + zlen D).
    { rewrite P'; destruct (ps_base (ps_un ps)) eqn:B; [reflexivity|].
      rewrite P; unfold str_output; rewrite B; reflexivity. }
    destruct (IH (mkPS (ps_errno ps) (ps_inline ps) (i32 (ps_byteno ps + zlen D)) u))
      as (ps' & E2 & I2 & Er2 & P2 & O2); cbn [ps_un ps_inline]; auto.
    + simpl in O; rewrite O, zlen_app; lia.
    + lia.
    + exists ps'; split; [exact E2|]; split; [exact I2|]; split; [exact Er2|].
      split; [rewrite P2; cbn [ps_un]; lia|].
      rewrite O2; simpl; simpl in O; rewrite O, <- app_assoc; reflexivity.
Qed.
End StrWriter.

(** Opening a stream on [b]. *)
Lemma str_setup_input `{Allocator} b in_line : in_line <> 0 \/ memory_ok -> zlen b <= INT_MAX ->
  exists ps, str_setup str_stream (Some b) (zlen b) in_line = Val (OK, ps) /\
    str_rok (ps_un ps) /\ ps_byteno ps = 0 /\ ps_errno ps = 0 /\
    ps_inline ps = (if in_line =? 0 then 0 else 1) /\ str_input (ps_un ps) = b.
Proof.
  intros M L; unfold str_setup; pose proof (zlen_nonneg b).
  destruct (Z.eqb_spec in_line 0) as [->|N]; simpl.
  - destruct M as [M|M]; [easy|]; rewrite Z.gtb_ltb; destruct (Z.ltb_spec 0 (zlen b)).
    + unfold malloc_int; rewrite int2sizet_Some, M, rdn_all by lia; simpl.
      eexists; split; [reflexivity|]; unfold str_rok, str_input; simpl.
      rewrite (proj2 (Z.leb_gt _ 0)), zdrop_0 by lia; repeat split; lia.
    + rewrite (zlen_0 b) by lia; exists str_stream; repeat split.
  - eexists; split; [reflexivity|]; unfold str_rok, str_input; simpl.
    repeat split; try lia; destruct (Z.leb_spec (zlen b) 0); [symmetry; apply zlen_0; lia|].
    apply zdrop_0; lia.
Qed.
