(* ===== verification/Pe2Ps.v ===== *)
(** * psap: the BER encoder (ps_get_abs.c, pe2ps.c)

    [ps_get_abs] computes the lengths of constructors under the global
    [ps_len_strategy], an argument here; [pe2ps] then writes the element to
    a stream. The reference encoding [ber] is that of ISO 8825. *)

From S2P Require Import Prelude Conv PElement PStream StrPs.
Open Scope Z_scope.
Open Scope c_scope.

Definition PS_LEN_SPAG := 0.
Definition PS_LEN_INDF := 1.
Definition PS_LEN_LONG := 2.

(** ** ps_get_abs.c *)

(** [for (i = 1; id != 0; id >>= PE_ID_SHIFT) i++;] an identifier has 16
    bits, so that three rounds are enough. *)
Fixpoint get_id_loop (fuel : nat) (i id : Z) : Z :=
  match fuel with
  | O => i
  | S fuel' => if id =? 0 then i else get_id_loop fuel' (i + 1) (Z.shiftr id PE_ID_SHIFT)
  end.

Definition ps_get_id (pe : PElement) : Z :=
  if pe_id pe <? PE_ID_XTND then 1 else get_id_loop 3 1 (pe_id pe).

(** [for (i = 1; len > 0; len >>= 8) i++;] over the 31 bits of a length. *)
Fixpoint get_len_loop (fuel : nat) (i len : Z) : Z :=
  match fuel with
  | O => i
  | S fuel' => if len >? 0 then get_len_loop fuel' (i + 1) (Z.shiftr len 8) else i
  end.

Definition ps_get_len (pe : PElement) : Z :=
  if (pe_len pe =? PE_LEN_INDF) || (pe_len pe <=? PE_LEN_SMAX) then 1
  else get_len_loop 4 1 (pe_len pe).

(** The switch on [ps_len_strategy]: [pe_len] and the adjusted length. *)
Definition len_strategy (ps_len_strategy len : Z) : Z * Z :=
  if ps_len_strategy =? PS_LEN_INDF then (PE_LEN_INDF, i32 (len + 2))
  else if ps_len_strategy =? PS_LEN_LONG then (len, len)
  else if len <=? PE_LEN_SMAX then (len, len)
  else (PE_LEN_INDF, i32 (len + 2)).

(** The octets the element takes on the stream, and the element with the
    lengths of its constructors set. The length of an element of another
    form is uninitialised. *)
Fixpoint ps_get_abs (ps_len_strategy : Z) (pe : PElement) : cres (Z * PElement) :=
  if pe_form pe =? PE_FORM_PRIM then
    Val (i32 (ps_get_id pe + ps_get_len pe + pe_len pe), pe)
  else if pe_form pe =? PE_FORM_CONS then
    ' (len, l) <-
      (fix go (ps : list PElement) (len : Z) : cres (Z * list PElement) :=
         match ps with
         | [] => Val (len, [])
         | p :: ps' =>
             ' (n, p') <- ps_get_abs ps_len_strategy p;;
             ' (len', l) <- go ps' (i32 (len + n));;
             Val (len', p' :: l)
         end) (pe_cons pe) 0;;
    let '(plen, len) := len_strategy ps_len_strategy len in
    let pe' := set_len (set_cons pe l) plen in
    Val (i32 (ps_get_id pe' + ps_get_len pe' + len), pe')
  else if pe_form pe =? PE_FORM_ICONS then Val (pe_len pe, pe)
  else UB.

(** ** pe2ps.c *)

(** [for (jd = id; jd != 0; jd >>= PE_ID_SHIFT) ep++;] *)
Fixpoint id_count (fuel : nat) (ep jd : Z) : Z :=
  match fuel with
  | O => ep
  | S fuel' => if jd =? 0 then ep else id_count fuel' (ep + 1) (Z.shiftr jd PE_ID_SHIFT)
  end.

(** [for (bp = ep; id != 0; id >>= PE_ID_SHIFT) *bp-- = id & PE_ID_MASK;] *)
Fixpoint id_store (fuel : nat) (buffer : list Z) (bp id : Z) : cres (option (list Z)) :=
  match fuel with
  | O => Val (Some buffer)
  | S fuel' =>
      if id =? 0 then Val (Some buffer)
      else
        match int2u8 (Z.land id PE_ID_MASK) with
        | None => Val None
        | Some b =>
            buffer' <- wr buffer bp [b];;
            id_store fuel' buffer' (bp - 1) (Z.shiftr id PE_ID_SHIFT)
        end
  end.

(** [for (bp = buffer + 1; bp < ep; bp++) *bp |= PE_ID_MORE;] *)
Fixpoint id_more (fuel : nat) (buffer : list Z) (bp ep : Z) : cres (option (list Z)) :=
  match fuel with
  | O => Val (Some buffer)
  | S fuel' =>
      if bp <? ep then
        c <- rd buffer bp;;
        match int2u8 (Z.lor c PE_ID_MORE) with
        | None => Val None
        | Some b => buffer' <- wr buffer bp [b];; id_more fuel' buffer' (bp + 1) ep
        end
      else Val (Some buffer)
  end.

(** The identifier octets; [None] where the code returns NOTOK. The buffer
    has [1 + sizeof (PElementID)] = 3 octets. *)
Definition id_octets (class form id : Z) : cres (option (list Z)) :=
  match int2u8 (Z.lor (Z.land (Z.shiftl class PE_CLASS_SHIFT) PE_CLASS_MASK)
                      (Z.land (Z.shiftl form PE_FORM_SHIFT) PE_FORM_MASK)) with
  | None => Val None
  | Some c =>
      if id <? PE_ID_XTND then
        match int2u8 (Z.lor c id) with None => Val None | Some b => Val (Some [b]) end
      else
        match int2u8 (Z.lor c PE_ID_XTND) with
        | None => Val None
        | Some b =>
            let ep := id_count 3 0 id in
            r <- id_store 3 [b; 0; 0] ep id;;
            match r with
            | None => Val None
            | Some buffer =>
                r <- id_more 3 buffer 1 ep;;
                match r with
                | None => Val None
                | Some buffer => out <- rdn buffer 0 (ep + 1);; Val (Some out)
                end
            end
        end
  end.

(** [for (bp = ep; len != 0 && buffer < bp; len >>= 8) *bp-- = len & 0xff;] *)
Fixpoint len_store (fuel : nat) (buffer : list Z) (bp len : Z) : cres (option (list Z * Z)) :=
  match fuel with
  | O => Val (Some (buffer, bp))
  | S fuel' =>
      if negb (len =? 0) && (0 <? bp) then
        match int2u8 (Z.land len 255) with
        | None => Val None
        | Some b =>
            buffer' <- wr buffer bp [b];;
            len_store fuel' buffer' (bp - 1) (Z.shiftr len 8)
        end
      else Val (Some (buffer, bp))
  end.

(** The length octets, out of a buffer of [1 + sizeof (PElementLen)] = 5. *)
Definition len_octets (len : Z) : cres (option (list Z)) :=
  if len =? PE_LEN_INDF then
    match int2u8 PE_LEN_XTND with None => Val None | Some b => Val (Some [b]) end
  else if len <=? PE_LEN_SMAX then
    match int2u8 (Z.land len 255) with None => Val None | Some b => Val (Some [b]) end
  else
    r <- len_store 4 [0; 0; 0; 0; 0] 4 len;;
    match r with
    | None => Val None
    | Some (buffer, bp) =>
        match int2u8 (Z.lor PE_LEN_XTND (Z.land (4 - bp) 255)) with
        | None => Val None
        | Some b =>
            buffer' <- wr buffer bp [b];;
            out <- rdn buffer' bp (4 - bp + 1);;
            Val (Some out)
        end
    end.

Section Encoder.
Context {U : Type} `{PSOps U}.

Definition ps_write_id (ps : PStream U) (pe : PElement) : cres (Z * PStream U) :=
  let form := if pe_form pe =? PE_FORM_ICONS then PE_FORM_CONS else pe_form pe in
  o <- id_octets (pe_class pe) form (pe_id pe);;
  match o with
  | None => Val (NOTOK, ps)
  | Some b => ps_write ps b
  end.

Definition ps_write_len (ps : PStream U) (pe : PElement) : cres (Z * PStream U) :=
  o <- len_octets (pe_len pe);;
  match o with
  | None => Val (NOTOK, ps)
  | Some b => ps_write ps b
  end.

(** [ps_write_aux (ps, pe -> pe_prim, pe -> pe_len, 1)]: a length that is
    not positive writes nothing. *)
Definition ps_write_data (ps : PStream U) (pe : PElement) : cres (Z * PStream U) :=
  if pe_len pe <=? 0 then ps_write_aux ps [] 1
  else d <- rdn_ptr (pe_prim pe) (pe_len pe);; ps_write_aux ps d 1.

(** The static element [pe_eoc]: its initialiser is all zeroes. *)
Definition pe_eoc : PElement := mkPE 0 0 PE_CLASS_UNIV PE_FORM_PRIM PE_UNIV_EOC 0 0 None [] 0 0 None 0 0.

(** Header and contents of a primitive. *)
Definition write_prim (ps : PStream U) (pe : PElement) : cres (Z * PStream U) :=
  ' (rc, ps) <- ps_write_id ps pe;;
  if rc =? NOTOK then Val (NOTOK, ps)
  else
    ' (rc, ps) <- ps_write_len ps pe;;
    if rc =? NOTOK then Val (NOTOK, ps)
    else ps_write_data ps pe.

Fixpoint pe2ps_aux2 (ps : PStream U) (pe : PElement) (eval : Z) {struct pe} : cres (Z * PStream U) :=
  if pe_form pe =? PE_FORM_ICONS then ps_write_data ps pe
  else if pe_form pe =? PE_FORM_PRIM then write_prim ps pe
  else
    ' (rc, ps) <- ps_write_id ps pe;;
    if rc =? NOTOK then Val (NOTOK, ps)
    else
      ' (rc, ps) <- ps_write_len ps pe;;
      if rc =? NOTOK then Val (NOTOK, ps)
      else if pe_form pe =? PE_FORM_CONS then
        if eval <? 0 then Val (OK, ps)
        else if negb (pe_len pe =? 0) then
          ' (rc, ps) <-
            (fix go (ps : PStream U) (l : list PElement) {struct l} : cres (Z * PStream U) :=
               match l with
               | [] => Val (OK, ps)
               | p :: l' =>
                   ' (rc, ps) <- pe2ps_aux2 ps p 0;;
                   if rc =? NOTOK then Val (NOTOK, ps) else go ps l'
               end) ps (pe_cons pe);;
          if rc =? NOTOK then Val (NOTOK, ps)
          else if pe_len pe =? PE_LEN_INDF then write_prim ps pe_eoc
          else Val (OK, ps)
        else Val (OK, ps)
      else Val (OK, ps).

(** [pe2ps_aux (ps, pe, eval)]; the element is returned with the lengths
    that [ps_get_abs] stored in it. *)
Definition pe2ps_aux (ps_len_strategy : Z) (ps : PStream U) (pe : PElement) (eval : Z)
  : cres (Z * PStream U * PElement) :=
  pe <- (if (eval >? 0) && (pe_form pe =? PE_FORM_CONS)
         then cmap snd (ps_get_abs ps_len_strategy pe) else Val pe);;
  ' (result, ps) <- pe2ps_aux2 ps pe eval;;
  if result =? NOTOK then Val (NOTOK, ps, pe)
  else ' (result, ps) <- ps_flush ps;; Val (result, ps, pe).

Definition pe2ps (ps_len_strategy : Z) (ps : PStream U) (pe : PElement) :=
  pe2ps_aux ps_len_strategy ps pe 1.
End Encoder.

(** * The reference encoding *)

(** Identifier octets (8.1.2): low-tag form, or the tag number in groups of
    seven bits, for the 14 bits psap.h admits. *)
Definition ident (class form id : Z) : list Z :=
  if id <? 31 then [class * 64 + form * 32 + id]
  else if id <? 128 then [class * 64 + form * 32 + 31; id]
  else [class * 64 + form * 32 + 31; 128 + id / 128; id mod 128].

(** Length octets (8.1.3), definite form. *)
Definition lenoct (n : Z) : list Z :=
  if n <? 128 then [n]
  else if n <? 256 then [129; n]
  else if n <? 65536 then [130; n / 256; n mod 256]
  else if n <? 16777216 then [131; n / 65536; n / 256 mod 256; n mod 256]
  else [132; n / 16777216; n / 65536 mod 256; n / 256 mod 256; n mod 256].

(** Whether the strategy gives a constructor of [n] octets the definite form. *)
Definition definite (ps_len_strategy n : Z) : bool :=
  if ps_len_strategy =? PS_LEN_INDF then false
  else if ps_len_strategy =? PS_LEN_LONG then true
  else n <=? 127.

(** The contents octets of a constructor with its length octets around. *)
Definition wrap (ps_len_strategy : Z) (body : list Z) : list Z :=
  if definite ps_len_strategy (zlen body) then lenoct (zlen body) ++ body
  else [128] ++ body ++ [0; 0].

Fixpoint ber (ps_len_strategy : Z) (v : pvalue) : list Z :=
  match v with
  | VPrim class id d => ident class 0 id ++ lenoct (zlen d) ++ d
  | VInline _ _ _ d => d
  | VCons class id l => ident class 1 id ++ wrap ps_len_strategy (concat (map (ber ps_len_strategy) l))
  end.

(** * Lemmas *)

Lemma shr_lt n k m : 0 <= n < m * 2 ^ k -> 0 <= k -> 0 <= Z.shiftr n k < m.
Proof.
  intros H Hk; rewrite Z.shiftr_div_pow2 by lia.
  split; [apply Z.div_pos; lia | apply Z.div_lt_upper_bound; lia].
Qed.

Lemma byte_mod z : is_byte (z mod 256).
Proof. apply Z.mod_pos_bound; lia. Qed.

Lemma septet_mod z : is_byte (z mod 128).
Proof. unfold is_byte; pose proof (Z.mod_pos_bound z 128); lia. Qed.

(** Every division by a power of 256 or 128 of a bounded number, as a fact. *)
Ltac div_facts n m :=
  let H := fresh in
  pose proof (Z.div_mod n m ltac:(lia)) as H; pose proof (Z.mod_pos_bound n m ltac:(lia)).

Lemma first_octet class form : 0 <= class < 4 -> 0 <= form < 2 ->
  Z.lor (Z.land (Z.shiftl class PE_CLASS_SHIFT) PE_CLASS_MASK)
        (Z.land (Z.shiftl form PE_FORM_SHIFT) PE_FORM_MASK) = class * 64 + form * 32.
Proof.
  intros; assert (class = 0 \/ class = 1 \/ class = 2 \/ class = 3) as [-> | [-> | [-> | ->]]] by lia;
    assert (form = 0 \/ form = 1) as [-> | ->] by lia; reflexivity.
Qed.

Lemma first_lor class form x : 0 <= x < 32 ->
  Z.lor (class * 64 + form * 32) x = class * 64 + form * 32 + x.
Proof.
  intros; replace (class * 64 + form * 32) with ((class * 2 + form) * 2 ^ 5) by lia.
  apply lor_add; lia.
Qed.

Lemma lor_more x : 0 <= x < 128 -> Z.lor x PE_ID_MORE = 128 + x.
Proof. intros; rewrite Z.lor_comm; apply (lor_add 1 x 7); lia. Qed.

Ltac u8_ok := rewrite int2u8_Some by (unfold is_byte in *; lia).

Lemma id_octets_ident class form id : 0 <= class < 4 -> 0 <= form < 2 -> 0 <= id < 16384 ->
  id_octets class form id = Val (Some (ident class form id)).
Proof.
  intros C F I; unfold id_octets, ident, PE_ID_XTND; rewrite first_octet by assumption.
  u8_ok; destruct (Z.ltb_spec id 31).
  { rewrite first_lor by lia; u8_ok; reflexivity. }
  rewrite first_lor by lia; u8_ok.
  assert (N : (id =? 0) = false) by (apply Z.eqb_neq; lia).
  unfold PE_ID_SHIFT; destruct (Z.ltb_spec id 128).
  - assert (S : Z.shiftr id 7 = 0) by (rewrite shr7; apply Z.div_small; lia).
    simpl id_count; unfold PE_ID_SHIFT; rewrite N, S; simpl Z.eqb; cbn [Z.add].
    simpl id_store; unfold PE_ID_SHIFT, PE_ID_MASK; rewrite N, S, land_7f, Z.mod_small by lia.
    u8_ok; reflexivity.
  - assert (S : Z.shiftr id 7 = id / 128) by apply shr7.
    div_facts id 128.
    assert (D : 1 <= id / 128 < 128) by lia.
    assert (N' : (id / 128 =? 0) = false) by (apply Z.eqb_neq; lia).
    assert (S' : Z.shiftr (id / 128) 7 = 0) by (rewrite shr7; apply Z.div_small; lia).
    simpl id_count; unfold PE_ID_SHIFT; rewrite N, S, N', S'; simpl Z.eqb; cbn [Z.add].
    simpl id_store; unfold PE_ID_SHIFT, PE_ID_MASK; rewrite N, S, land_7f; u8_ok.
    simpl; unfold PE_ID_SHIFT, PE_ID_MASK; rewrite N', S', land_7f, (Z.mod_small (id / 128)) by lia.
    u8_ok; simpl; rewrite lor_more by lia; u8_ok; reflexivity.
Qed.

(** An identifier of 15 or 16 bits needs three groups and a fourth octet,
    written beyond the buffer. *)
Lemma id_octets_overflow class form id : 0 <= class < 4 -> 0 <= form < 2 -> 16384 <= id < 65536 ->
  id_octets class form id = UB.
Proof.
  intros C F I; unfold id_octets, PE_ID_XTND; rewrite first_octet by assumption.
  u8_ok; rewrite (proj2 (Z.ltb_ge id 31)) by lia; rewrite first_lor by lia; u8_ok.
  div_facts id 128; div_facts (id / 128) 128.
  simpl id_count; unfold PE_ID_SHIFT; rewrite !shr7.
  rewrite (proj2 (Z.eqb_neq id 0)), (proj2 (Z.eqb_neq (id / 128) 0)),
    (proj2 (Z.eqb_neq (id / 128 / 128) 0)) by lia.
  cbn [Z.add]; simpl; unfold PE_ID_MASK; rewrite (proj2 (Z.eqb_neq id 0)), land_7f by lia.
  rewrite int2u8_Some by apply septet_mod; reflexivity.
Qed.

Lemma len_store_pos fuel buffer bp x : 0 < x -> 0 < bp ->
  len_store (S fuel) buffer bp x =
  (buffer' <- wr buffer bp [x mod 256];; len_store fuel buffer' (bp - 1) (x / 256)).
Proof.
  intros Hx Hb; simpl; rewrite (proj2 (Z.eqb_neq x 0)), (proj2 (Z.ltb_lt 0 bp)) by lia; simpl.
  rewrite land_ff, int2u8_Some, shr8 by apply byte_mod; reflexivity.
Qed.

Lemma len_store_0 fuel buffer bp : len_store fuel buffer bp 0 = Val (Some (buffer, bp)).
Proof. destruct fuel; reflexivity. Qed.

Lemma len_octets_lenoct n : 0 <= n <= INT_MAX -> len_octets n = Val (Some (lenoct n)).
Proof.
  intros R; unfold len_octets, lenoct, PE_LEN_INDF, PE_LEN_SMAX.
  rewrite (proj2 (Z.eqb_neq n (-1))) by lia.
  destruct (Z.ltb_spec n 128).
  { rewrite (proj2 (Z.leb_le n 127)), land_ff, Z.mod_small by lia; u8_ok; reflexivity. }
  rewrite (proj2 (Z.leb_gt n 127)) by lia.
  assert (D1 : n / 256 / 256 = n / 65536) by (rewrite Z.div_div by lia; reflexivity).
  assert (D2 : n / 65536 / 256 = n / 16777216) by (rewrite Z.div_div by lia; reflexivity).
  assert (S : forall k, 0 < k -> n < k * 256 -> 0 <= n / k < 256).
  { intros k Hk Hn; split; [apply Z.div_pos; lia | apply Z.div_lt_upper_bound; lia]. }
  unfold INT_MAX in R; rewrite len_store_pos by lia.
  change (wr [0; 0; 0; 0; 0] 4 [n mod 256]) with (Val [0; 0; 0; 0; n mod 256]); cbn [cbind].
  change (4 - 1) with 3; destruct (Z.ltb_spec n 256).
  { rewrite (Z.div_small n 256), len_store_0, (Z.mod_small n 256) by lia; reflexivity. }
  rewrite len_store_pos, D1 by (lia || (apply Z.div_str_pos; lia)).
  change (wr [0; 0; 0; 0; n mod 256] 3 [n / 256 mod 256]) with (Val [0; 0; 0; n / 256 mod 256; n mod 256]).
  cbn [cbind]; change (3 - 1) with 2; destruct (Z.ltb_spec n 65536).
  { rewrite (Z.div_small n 65536), len_store_0, (Z.mod_small (n / 256)) by (lia || (apply S; lia)).
    reflexivity. }
  rewrite len_store_pos, D2 by (lia || (apply Z.div_str_pos; lia)).
  change (wr [0; 0; 0; n / 256 mod 256; n mod 256] 2 [n / 65536 mod 256])
    with (Val [0; 0; n / 65536 mod 256; n / 256 mod 256; n mod 256]).
  cbn [cbind]; change (2 - 1) with 1; destruct (Z.ltb_spec n 16777216).
  { rewrite (Z.div_small n 16777216), len_store_0, (Z.mod_small (n / 65536)) by (lia || (apply S; lia)).
    reflexivity. }
  rewrite len_store_pos by (lia || (apply Z.div_str_pos; lia)).
  rewrite (Z.mod_small (n / 16777216)) by (apply S; lia); reflexivity.
Qed.

Lemma lenoct_length n : 0 <= n <= INT_MAX -> 1 <= zlen (lenoct n) <= 5.
Proof. intros; unfold lenoct; repeat case_goal; zlen. Qed.

Lemma ident_length class form id : 1 <= zlen (ident class form id) <= 3.
Proof. unfold ident; repeat case_goal; zlen. Qed.

Lemma ps_get_id_ident pe form : 0 <= pe_id pe < 16384 ->
  ps_get_id pe = zlen (ident (pe_class pe) form (pe_id pe)).
Proof.
  intros I; unfold ps_get_id, ident, PE_ID_XTND; destruct (Z.ltb_spec (pe_id pe) 31); [reflexivity|].
  simpl; unfold PE_ID_SHIFT; rewrite !shr7; div_facts (pe_id pe) 128.
  rewrite (proj2 (Z.eqb_neq (pe_id pe) 0)) by lia.
  destruct (Z.ltb_spec (pe_id pe) 128).
  - rewrite (Z.div_small (pe_id pe)) by lia; reflexivity.
  - rewrite (proj2 (Z.eqb_neq (pe_id pe / 128) 0)), (Z.div_small (pe_id pe / 128)) by lia; reflexivity.
Qed.

Lemma get_len_loop_pos fuel i x : 0 < x -> get_len_loop (S fuel) i x = get_len_loop fuel (i + 1) (x / 256).
Proof. intros; simpl; rewrite Z.gtb_ltb, (proj2 (Z.ltb_lt 0 x)), shr8 by lia; reflexivity. Qed.

Lemma get_len_loop_0 fuel i : get_len_loop fuel i 0 = i.
Proof. destruct fuel; reflexivity. Qed.

Lemma ps_get_len_lenoct pe : 0 <= pe_len pe <= INT_MAX -> ps_get_len pe = zlen (lenoct (pe_len pe)).
Proof.
  intros R; unfold ps_get_len, lenoct, PE_LEN_INDF, PE_LEN_SMAX; set (n := pe_len pe) in *.
  clearbody n; rewrite (proj2 (Z.eqb_neq n (-1))) by lia.
  destruct (Z.ltb_spec n 128); [rewrite (proj2 (Z.leb_le n 127)) by lia; reflexivity|].
  rewrite (proj2 (Z.leb_gt n 127)) by lia; cbn [orb].
  assert (D1 : n / 256 / 256 = n / 65536) by (rewrite Z.div_div by lia; reflexivity).
  assert (D2 : n / 65536 / 256 = n / 16777216) by (rewrite Z.div_div by lia; reflexivity).
  unfold INT_MAX in R; rewrite get_len_loop_pos by lia; cbn [Z.add].
  destruct (Z.ltb_spec n 256).
  { rewrite (Z.div_small n 256), get_len_loop_0 by lia; reflexivity. }
  rewrite get_len_loop_pos, D1 by (apply Z.div_str_pos; lia).
  destruct (Z.ltb_spec n 65536).
  { rewrite (Z.div_small n 65536), get_len_loop_0 by lia; reflexivity. }
  rewrite get_len_loop_pos, D2 by (apply Z.div_str_pos; lia).
  destruct (Z.ltb_spec n 16777216).
  { rewrite (Z.div_small n 16777216), get_len_loop_0 by lia; reflexivity. }
  rewrite get_len_loop_pos by (apply Z.div_str_pos; lia); reflexivity.
Qed.

(** ** Well-formed tags *)

Section Pvalue_induction.
Variable P : pvalue -> Prop.
Hypothesis Pprim : forall c i d, P (VPrim c i d).
Hypothesis Pinline : forall c i n d, P (VInline c i n d).
Hypothesis Pcons : forall c i l, Forall P l -> P (VCons c i l).

Fixpoint pvalue_tree_ind (v : pvalue) : P v :=
  match v with
  | VPrim c i d => Pprim c i d
  | VInline c i n d => Pinline c i n d
  | VCons c i l => Pcons c i l
      ((fix go (l : list pvalue) : Forall P l :=
          match l with
          | [] => Forall_nil P
          | w :: l' => Forall_cons w (pvalue_tree_ind w) (go l')
          end) l)
  end.
End Pvalue_induction.

(** Every tag fits the encoding: a class of two bits, a code of 14. *)
Fixpoint tags14 (v : pvalue) : Prop :=
  match v with
  | VPrim c i _ => 0 <= c < 4 /\ 0 <= i < 16384
  | VInline _ _ _ _ => True
  | VCons c i l => (0 <= c < 4 /\ 0 <= i < 16384) /\ fold_right and True (map tags14 l)
  end.

Lemma fold_and {A} (P : A -> Prop) l : fold_right and True (map P l) <-> Forall P l.
Proof.
  induction l as [|a l IH]; simpl; [split; auto|].
  rewrite IH, Forall_cons_iff; reflexivity.
Qed.

(** The length field [ps_get_abs] gives a constructor. *)
Definition plen (s : Z) (body : list Z) : Z := if definite s (zlen body) then zlen body else PE_LEN_INDF.

Lemma len_strategy_spec s body : zlen body + 2 <= INT_MAX ->
  len_strategy s (zlen body) =
  (plen s body, zlen (wrap s body) -
     (if definite s (zlen body) then zlen (lenoct (zlen body)) else 1)).
Proof.
  intros L; pose proof (zlen_nonneg body).
  assert (I : i32 (zlen body + 2) = zlen body + 2) by (apply i32_id; unfold is_int, INT_MIN; lia).
  unfold len_strategy, plen, wrap, definite, PE_LEN_SMAX.
  repeat (case_goal; try congruence; try lia); rewrite ?I, !zlen_app, ?zlen_cons, ?zlen_nil;
    f_equal; lia.
Qed.

Lemma get_len_plen s body pe : zlen body <= INT_MAX -> pe_len pe = plen s body ->
  ps_get_len pe = (if definite s (zlen body) then zlen (lenoct (zlen body)) else 1).
Proof.
  unfold plen; intros L E; destruct (definite s (zlen body)).
  - rewrite ps_get_len_lenoct; rewrite E; [reflexivity | zlen].
  - unfold ps_get_len; rewrite E; reflexivity.
Qed.

(** An element of which [ps_get_abs] has set the lengths. *)
#[local] Unset Elimination Schemes.
Inductive sized (s : Z) (p : PElement) : Prop :=
| sized_leaf : pe_form p <> PE_FORM_CONS -> sized s p
| sized_node : pe_form p = PE_FORM_CONS ->
    pe_len p = plen s (concat (map (ber s) (map pe_value (pe_cons p)))) ->
    Forall (sized s) (pe_cons p) -> sized s p.
#[local] Set Elimination Schemes.

Definition ber_list (s : Z) (ps : list PElement) : list Z := concat (map (ber s) (map pe_value ps)).

(** What [ps_get_abs] promises for [p]. *)
Definition get_abs_ok (s : Z) (p : PElement) : Prop :=
  pe_ok p -> tags14 (pe_value p) -> zlen (ber s (pe_value p)) <= INT_MAX ->
  exists p', ps_get_abs s p = Val (zlen (ber s (pe_value p)), p') /\
    pe_ok p' /\ pe_value p' = pe_value p /\ sized s p'.

Definition get_abs_list (s : Z) :=
  fix go (ps : list PElement) (len : Z) : cres (Z * list PElement) :=
  match ps with
  | [] => Val (len, [])
  | p :: ps' =>
      ' (n, p') <- ps_get_abs s p;;
      ' (len', l) <- go ps' (i32 (len + n));;
      Val (len', p' :: l)
  end.

Lemma get_abs_list_spec s ps len : Forall (get_abs_ok s) ps -> Forall pe_ok ps ->
  Forall tags14 (map pe_value ps) -> 0 <= len -> len + zlen (ber_list s ps) <= INT_MAX ->
  exists l, get_abs_list s ps len = Val (len + zlen (ber_list s ps), l) /\
    Forall pe_ok l /\ map pe_value l = map pe_value ps /\ Forall (sized s) l.
Proof.
  intros F; revert len; induction F as [|p ps Hp _ IH]; intros len O T N L.
  - exists []; change (zlen (ber_list s [])) with 0; rewrite Z.add_0_r; auto.
  - inversion_clear O; simpl in T; apply Forall_cons_iff in T as [T1 T2].
    unfold ber_list in *; simpl in L |- *; rewrite zlen_app in *.
    pose proof (zlen_nonneg (ber s (pe_value p))).
    pose proof (zlen_nonneg (concat (map (ber s) (map pe_value ps)))).
    destruct Hp as (p' & E & O' & V & S); try assumption; [lia|]; rewrite E; simpl.
    rewrite i32_id by (unfold is_int, INT_MIN; lia).
    destruct (IH (len + zlen (ber s (pe_value p)))) as (l & E' & Ol & Vl & Sl); try assumption; try lia.
    fold (get_abs_list s); rewrite E'; simpl; exists (p' :: l); simpl.
    rewrite V, Vl, Z.add_assoc; repeat split; auto.
Qed.

Lemma ps_get_abs_eq s p : ps_get_abs s p =
  if pe_form p =? PE_FORM_PRIM then
    Val (i32 (ps_get_id p + ps_get_len p + pe_len p), p)
  else if pe_form p =? PE_FORM_CONS then
    ' (len, l) <- get_abs_list s (pe_cons p) 0;;
    let '(plen, len) := len_strategy s len in
    let pe' := set_len (set_cons p l) plen in
    Val (i32 (ps_get_id pe' + ps_get_len pe' + len), pe')
  else if pe_form p =? PE_FORM_ICONS then Val (pe_len p, p)
  else UB.
Proof. destruct p; reflexivity. Qed.

Lemma wrap_body s body : zlen body < zlen (wrap s body) /\ zlen body + 2 <= zlen (wrap s body) + 1.
Proof.
  unfold wrap; destruct (definite s (zlen body)); rewrite ?zlen_app, ?zlen_cons, ?zlen_nil; [|lia].
  assert (1 <= zlen (lenoct (zlen body))); [|lia].
  unfold lenoct; repeat case_goal; zlen.
Qed.

Lemma ps_get_abs_spec s p : get_abs_ok s p.
Proof.
  induction p as [p IH] using PElement_tree_ind; intros O T L; rewrite ps_get_abs_eq.
  destruct (pe_form_cases p O) as [F|[F|F]]; rewrite F; simpl Z.eqb; cbn match.
  - destruct (pe_ok_leaf p O) as (_ & _ & D & _); [rewrite F; discriminate|].
    pose proof (data_ok_len p D) as DL; destruct D as (E & _).
    rewrite (pe_value_prim p F) in *; destruct T as [_ T]; cbn [ber] in *.
    rewrite (ps_get_id_ident p 0 T), ps_get_len_lenoct, E by exact DL.
    rewrite !zlen_app in *; rewrite Z.add_assoc in L.
    pose proof (zlen_nonneg (ident (pe_class p) 0 (pe_id p))); pose proof (zlen_nonneg (lenoct (zlen (pe_data p)))).
    rewrite i32_id by (unfold is_int, INT_MIN; zlen).
    exists p; rewrite Z.add_assoc; repeat split; auto; [apply pe_value_prim, F | left; rewrite F; discriminate].
  - destruct (pe_ok_leaf p O) as (_ & _ & (E & _) & _); [rewrite F; discriminate|].
    rewrite (pe_value_icons p F) in *; cbn [ber] in *.
    exists p; rewrite E; repeat split; auto; [apply pe_value_icons, F | left; rewrite F; discriminate].
  - destruct (pe_ok_node p O F) as (T' & N & M); rewrite (pe_value_cons p F) in *.
    destruct T as [[_ T] Ts]; apply fold_and in Ts; cbn [ber] in *; rewrite zlen_app in *.
    fold (ber_list s (pe_cons p)) in *; set (body := ber_list s (pe_cons p)) in *.
    pose proof (wrap_body s body); pose proof (zlen_nonneg body); pose proof (ident_length (pe_class p) 1 (pe_id p)).
    destruct (get_abs_list_spec s (pe_cons p) 0 IH M Ts) as (l & E & Ol & Vl & Sl); [lia | fold body; lia|].
    rewrite E; fold body; cbn [cbind]; rewrite Z.add_0_l, len_strategy_spec by lia.
    set (pe' := set_len (set_cons p l) (plen s body)).
    rewrite (ps_get_id_ident pe' 1 T), (get_len_plen s body pe') by (lia || reflexivity).
    change (pe_class pe') with (pe_class p); change (pe_id pe') with (pe_id p).
    exists pe'; split; [f_equal; f_equal; rewrite i32_id; [lia|]; unfold is_int, INT_MIN; lia|].
    split; [apply ok_cons; auto|]; split; [rewrite (pe_value_cons pe' F); simpl; congruence|].
    right; [exact F | simpl; rewrite Vl; reflexivity | exact Sl].
Qed.

(** ** The writes of the encoder *)

Definition prim_writes (p : PElement) : list (list Z * Z) :=
  [(ident (pe_class p) 0 (pe_id p), 0); (lenoct (pe_len p), 0); (pe_data p, 1)].

Fixpoint pe_writes (p : PElement) : list (list Z * Z) :=
  if pe_form p =? PE_FORM_ICONS then [(pe_data p, 1)]
  else if pe_form p =? PE_FORM_PRIM then prim_writes p
  else
    (ident (pe_class p) 1 (pe_id p), 0) ::
    (if pe_len p =? PE_LEN_INDF then [128] else lenoct (pe_len p), 0) ::
    (if pe_len p =? 0 then []
     else concat (map pe_writes (pe_cons p)) ++
          (if pe_len p =? PE_LEN_INDF then prim_writes pe_eoc else [])).

Lemma pe_writes_eq p : pe_writes p =
  if pe_form p =? PE_FORM_ICONS then [(pe_data p, 1)]
  else if pe_form p =? PE_FORM_PRIM then prim_writes p
  else
    (ident (pe_class p) 1 (pe_id p), 0) ::
    (if pe_len p =? PE_LEN_INDF then [128] else lenoct (pe_len p), 0) ::
    (if pe_len p =? 0 then []
     else concat (map pe_writes (pe_cons p)) ++
          (if pe_len p =? PE_LEN_INDF then prim_writes pe_eoc else [])).
Proof. destruct p; reflexivity. Qed.

(** The octets written are the reference encoding. *)
Lemma pe_writes_ber s p : pe_ok p -> sized s p -> concat (map fst (pe_writes p)) = ber s (pe_value p).
Proof.
  induction p as [p IH] using PElement_tree_ind; intros O S; rewrite pe_writes_eq.
  destruct (pe_form_cases p O) as [F|[F|F]]; rewrite F; simpl Z.eqb; cbn match.
  - destruct (pe_ok_leaf p O) as (_ & _ & (E & _) & _); [rewrite F; discriminate|].
    rewrite (pe_value_prim p F); cbn; rewrite app_nil_r, E; reflexivity.
  - rewrite (pe_value_icons p F); cbn; apply app_nil_r.
  - destruct (pe_ok_node p O F) as (_ & _ & M); rewrite (pe_value_cons p F); cbn [ber].
    inversion_clear S as [N|_ L Sl]; [easy|]; fold (ber_list s (pe_cons p)) in *.
    assert (B : concat (map fst (concat (map pe_writes (pe_cons p)))) = ber_list s (pe_cons p)).
    { clear -IH M Sl; unfold ber_list; induction (pe_cons p) as [|q l IHl]; [reflexivity|].
      inversion_clear IH; inversion_clear M; inversion_clear Sl; simpl.
      rewrite map_app, concat_app; f_equal; auto. }
    set (body := ber_list s (pe_cons p)) in *; pose proof (zlen_nonneg body).
    cbn [map fst concat]; f_equal; unfold wrap; rewrite L; unfold plen, PE_LEN_INDF.
    destruct (definite s (zlen body)).
    + rewrite (proj2 (Z.eqb_neq (zlen body) (-1))) by lia; f_equal.
      destruct (Z.eqb_spec (zlen body) 0) as [Z|_].
      * apply zlen_0 in Z; rewrite Z; reflexivity.
      * rewrite app_nil_r; exact B.
    + cbn match; simpl Z.eqb; cbn match; rewrite map_app, concat_app, B; reflexivity.
Qed.

(** Lengths that the encoder can write: non-negative, or indefinite. *)
Lemma len_octets_plen s body : zlen body <= INT_MAX ->
  len_octets (plen s body) =
  Val (Some (if plen s body =? PE_LEN_INDF then [128] else lenoct (plen s body))).
Proof.
  intros L; unfold plen; pose proof (zlen_nonneg body); destruct (definite s (zlen body)); [|reflexivity].
  rewrite len_octets_lenoct by lia; unfold PE_LEN_INDF.
  rewrite (proj2 (Z.eqb_neq _ (-1))) by lia; reflexivity.
Qed.

Section EncoderLemmas.
Context {U : Type} `{PSOps U}.

Lemma ps_write_data_ok (ps : PStream U) p : data_ok p -> ps_write_data ps p = ps_write_aux ps (pe_data p) 1.
Proof.
  intros D; unfold ps_write_data; rewrite (rdn_ptr_data p D); destruct D as (E & _ & _).
  destruct (Z.leb_spec (pe_len p) 0); [|reflexivity].
  rewrite (zlen_0 (pe_data p)) by (pose proof (zlen_nonneg (pe_data p)); lia); reflexivity.
Qed.

Lemma ps_write_id_ok (ps : PStream U) p form : pe_form p = form \/ (pe_form p = PE_FORM_ICONS /\ form = PE_FORM_CONS) ->
  0 <= form < 2 -> 0 <= pe_class p < 4 -> 0 <= pe_id p < 16384 ->
  ps_write_id ps p = ps_write_aux ps (ident (pe_class p) form (pe_id p)) 0.
Proof.
  intros F R C I; unfold ps_write_id.
  replace (if pe_form p =? PE_FORM_ICONS then PE_FORM_CONS else pe_form p) with form.
  - rewrite id_octets_ident by assumption; reflexivity.
  - unfold PE_FORM_ICONS in *; destruct F as [-> | [-> ->]]; [|reflexivity].
    rewrite (proj2 (Z.eqb_neq form 2)) by lia; reflexivity.
Qed.

Lemma write_prim_ok (ps : PStream U) p : pe_form p = PE_FORM_PRIM -> data_ok p ->
  0 <= pe_class p < 4 -> 0 <= pe_id p < 16384 ->
  write_prim ps p = ps_write_all ps (prim_writes p).
Proof.
  intros F D C I; unfold write_prim, prim_writes.
  rewrite (ps_write_id_ok ps p 0) by (auto; lia); rewrite ps_write_all_cons.
  destruct (ps_write_aux ps _ 0) as [[rc ps1]|]; cbn [cbind]; [|reflexivity].
  destruct (rc =? NOTOK); [reflexivity|]; unfold ps_write_len.
  rewrite len_octets_lenoct by (apply data_ok_len, D); cbn [cbind]; rewrite ps_write_all_cons.
  unfold ps_write; destruct (ps_write_aux ps1 _ 0) as [[rc2 ps2]|]; cbn [cbind]; [|reflexivity].
  rewrite ps_write_data_ok, ps_write_all_one by exact D; reflexivity.
Qed.

(** The members, written one after the other. *)
Definition pe2ps_members :=
  fix go (ps : PStream U) (l : list PElement) {struct l} : cres (Z * PStream U) :=
  match l with
  | [] => Val (OK, ps)
  | p :: l' =>
      ' (rc, ps) <- pe2ps_aux2 ps p 0;;
      if rc =? NOTOK then Val (NOTOK, ps) else go ps l'
  end.

Definition writes_ok (s : Z) (p : PElement) : Prop :=
  pe_ok p -> tags14 (pe_value p) -> sized s p -> zlen (ber s (pe_value p)) <= INT_MAX ->
  forall (ps : PStream U) eval, 0 <= eval -> pe2ps_aux2 ps p eval = ps_write_all ps (pe_writes p).

Lemma pe2ps_members_ok s l : Forall (writes_ok s) l -> Forall pe_ok l -> Forall (sized s) l ->
  Forall tags14 (map pe_value l) -> zlen (ber_list s l) <= INT_MAX ->
  forall ps, pe2ps_members ps l = ps_write_all ps (concat (map pe_writes l)).
Proof.
  induction 1 as [|p l Hp _ IH]; intros O S T L ps; [reflexivity|].
  inversion_clear O; inversion_clear S; inversion_clear T; unfold ber_list in L; simpl in L.
  rewrite zlen_app in L; pose proof (zlen_nonneg (ber s (pe_value p))).
  fold (ber_list s l) in L; pose proof (zlen_nonneg (ber_list s l)).
  simpl; rewrite Hp, ps_write_all_app by (auto; lia).
  destruct (ps_write_all ps (pe_writes p)) as [[rc ps1]|]; simpl; [|reflexivity].
  destruct (rc =? NOTOK); [reflexivity | apply IH; auto; lia].
Qed.

Lemma pe2ps_aux2_eq (ps : PStream U) pe eval : pe2ps_aux2 ps pe eval =
  if pe_form pe =? PE_FORM_ICONS then ps_write_data ps pe
  else if pe_form pe =? PE_FORM_PRIM then write_prim ps pe
  else
    ' (rc, ps) <- ps_write_id ps pe;;
    if rc =? NOTOK then Val (NOTOK, ps)
    else
      ' (rc, ps) <- ps_write_len ps pe;;
      if rc =? NOTOK then Val (NOTOK, ps)
      else if pe_form pe =? PE_FORM_CONS then
        if eval <? 0 then Val (OK, ps)
        else if negb (pe_len pe =? 0) then
          ' (rc, ps) <- pe2ps_members ps (pe_cons pe);;
          if rc =? NOTOK then Val (NOTOK, ps)
          else if pe_len pe =? PE_LEN_INDF then write_prim ps pe_eoc
          else Val (OK, ps)
        else Val (OK, ps)
      else Val (OK, ps).
Proof. destruct pe; reflexivity. Qed.

Lemma pe_eoc_ok : data_ok pe_eoc.
Proof. unfold data_ok, INT_MAX; simpl; repeat split; [discriminate | constructor]. Qed.

Lemma pe2ps_node_ok s p : pe_ok p -> pe_form p = PE_FORM_CONS -> tags14 (pe_value p) -> sized s p ->
  zlen (ber s (pe_value p)) <= INT_MAX -> Forall (writes_ok s) (pe_cons p) ->
  forall (ps : PStream U) eval, 0 <= eval -> pe2ps_aux2 ps p eval = ps_write_all ps (pe_writes p).
Proof.
  intros O F T S L IH ps eval V; rewrite pe2ps_aux2_eq, pe_writes_eq, F; simpl Z.eqb; cbn match.
  destruct (pe_ok_node p O F) as (_ & _ & M); rewrite (pe_value_cons p F) in *.
  destruct T as [[C I] T]; apply fold_and in T; cbn [ber] in L; fold (ber_list s (pe_cons p)) in L.
  inversion_clear S as [N|_ E Sl]; [easy|]; fold (ber_list s (pe_cons p)) in E.
  rewrite zlen_app in L; pose proof (zlen_nonneg (ident (pe_class p) 1 (pe_id p))).
  pose proof (wrap_body s (ber_list s (pe_cons p))).
  rewrite (ps_write_id_ok ps p 1), ps_write_all_cons by (auto; lia).
  destruct (ps_write_aux ps _ 0) as [[rc ps1]|]; cbn [cbind]; [|reflexivity].
  destruct (rc =? NOTOK); [reflexivity|]; unfold ps_write_len.
  rewrite E, len_octets_plen, ps_write_all_cons by lia; cbn [cbind]; unfold ps_write.
  destruct (ps_write_aux ps1 _ 0) as [[rc2 ps2]|]; cbn [cbind]; [|reflexivity].
  destruct (rc2 =? NOTOK); [reflexivity|].
  rewrite (proj2 (Z.ltb_ge eval 0) V); destruct (plen s _ =? 0); [reflexivity|]; cbn [negb].
  rewrite (pe2ps_members_ok s) by (auto; lia); rewrite ps_write_all_app.
  destruct (ps_write_all ps2 _) as [[rc3 ps3]|]; cbn [cbind]; [|reflexivity].
  destruct (rc3 =? NOTOK); [reflexivity|]; destruct (plen s _ =? PE_LEN_INDF); [|reflexivity].
  apply write_prim_ok; [reflexivity | apply pe_eoc_ok | cbv; easy | cbv; easy].
Qed.

Lemma pe2ps_aux2_ok s p : writes_ok s p.
Proof.
  induction p as [p IH] using PElement_tree_ind; intros O T S L ps eval V.
  destruct (pe_form_cases p O) as [F|[F|F]]; [| |apply (pe2ps_node_ok s); auto].
  - destruct (pe_ok_leaf p O) as (_ & _ & D & _); [rewrite F; discriminate|].
    rewrite (pe_value_prim p F) in T; destruct T.
    rewrite pe2ps_aux2_eq, pe_writes_eq, F; apply write_prim_ok; auto.
  - destruct (pe_ok_leaf p O) as (_ & _ & D & _); [rewrite F; discriminate|].
    rewrite pe2ps_aux2_eq, pe_writes_eq, F; simpl Z.eqb; cbn match.
    rewrite ps_write_all_one; apply ps_write_data_ok, D.
Qed.

(** [pe2ps] is a sequence of writes of the reference encoding, then a flush. *)
Lemma pe2ps_result s ps p : pe_ok p -> tags14 (pe_value p) -> zlen (ber s (pe_value p)) <= INT_MAX ->
  exists ws p', concat (map fst ws) = ber s (pe_value p) /\ pe_value p' = pe_value p /\ pe_ok p' /\
    pe2ps s ps p =
      (' (rc, ps) <- ps_write_all ps ws;;
       if rc =? NOTOK then Val (NOTOK, ps, p')
       else ' (rc, ps) <- ps_flush ps;; Val (rc, ps, p')).
Proof.
  intros O T L; unfold pe2ps, pe2ps_aux; change (1 >? 0) with true; cbn [andb].
  destruct (Z.eqb_spec (pe_form p) PE_FORM_CONS) as [F|F].
  - destruct (ps_get_abs_spec s p O T L) as (p' & E & O' & V & S').
    rewrite E; cbn [cmap cbind snd]; exists (pe_writes p'), p'.
    rewrite (pe_writes_ber s), V by auto; split; [reflexivity|]; split; [reflexivity|]; split; [exact O'|].
    rewrite (pe2ps_aux2_ok s) by (rewrite ?V; auto; lia); reflexivity.
  - assert (S : sized s p) by (left; exact F); cbn [cbind]; exists (pe_writes p), p.
    rewrite (pe_writes_ber s) by auto; split; [reflexivity|]; split; [reflexivity|]; split; [exact O|].
    rewrite (pe2ps_aux2_ok s) by (auto; lia); reflexivity.
Qed.
End EncoderLemmas.

(** * The properties of the encoder *)

(** [ps_get_abs] computes exactly the number of octets the reference
    encoding has under each length strategy, and stores in every constructor
    the length its header is written with, changing nothing else. *)
Theorem ps_get_abs_exact : forall s p, pe_ok p -> tags14 (pe_value p) ->
  zlen (ber s (pe_value p)) <= INT_MAX ->
  exists p', ps_get_abs s p = Val (zlen (ber s (pe_value p)), p') /\
    pe_ok p' /\ pe_value p' = pe_value p /\ sized s p'.
Proof. intros s p; exact (ps_get_abs_spec s p). Qed.

(** C22. On any stream that keeps the promise of a writer, [pe2ps] touches no
    memory outside its buffers and, unless it reports NOTOK, has appended
    exactly the reference encoding of the element. *)
Theorem pe2ps_appends_ber : forall (U : Type) (O : PSOps U) (W : PSWriter U) s ps p,
  pe_ok p -> tags14 (pe_value p) -> zlen (ber s (pe_value p)) <= INT_MAX -> ps_wok (ps_un ps) ->
  exists rc ps' p', pe2ps s ps p = Val (rc, ps', p') /\ ps_wok (ps_un ps') /\
    pe_value p' = pe_value p /\
    (rc = NOTOK \/ ps_output (ps_un ps') = ps_output (ps_un ps) ++ ber s (pe_value p)).
Proof.
  intros U O W s ps p Op T L Wk; destruct (pe2ps_result s ps p Op T L) as (ws & p' & E & V & _ & ->).
  destruct (ps_write_all_spec ws ps Wk) as (rc & ps1 & -> & W1 & _ & C); cbn [cbind].
  destruct C as [[-> C]| ->]; [change (OK =? NOTOK) with false | exists NOTOK, ps1, p'; auto].
  destruct (ps_flush_law ps1 W1) as (rc & ps2 & F & W2 & O2); cbn match; rewrite F; cbn [cbind].
  exists rc, ps2, p'; rewrite O2, C, E; auto.
Qed.

(** On a new string stream, with memory granted and an encoding of less
    than about half of INT_MAX, [pe2ps] succeeds and the buffer holds the
    reference encoding. *)
Theorem pe2ps_string : forall (A : Allocator) s p, memory_ok ->
  pe_ok p -> tags14 (pe_value p) -> 2 * zlen (ber s (pe_value p)) + 3 * BUFSIZ <= INT_MAX ->
  exists ps' p', pe2ps s str_stream p = Val (OK, ps', p') /\ pe_value p' = pe_value p /\
    str_output (ps_un ps') = ber s (pe_value p) /\ ps_ptr (ps_un ps') = zlen (ber s (pe_value p)).
Proof.
  intros A s p M Op T L; pose proof (zlen_nonneg (ber s (pe_value p))).
  destruct (pe2ps_result s str_stream p Op T) as (ws & p' & E & V & _ & ->); [unfold BUFSIZ in L; lia|].
  destruct (str_write_all ws str_stream M eq_refl I) as (ps' & -> & _ & _ & P & O);
    [discriminate | reflexivity | rewrite E; cbn [str_stream ps_un ps_ptr]; lia |].
  exists ps', p'; rewrite O, P, E; repeat split; exact V.
Qed.

(** The identifier buffer has room for two groups of seven bits: for a code
    of 15 or 16 bits, which PElementID can hold, [ps_write_id] writes beyond it. *)
Theorem ps_write_id_overflow : forall (U : Type) (O : PSOps U) (ps : PStream U) p,
  tag_ok p -> 16384 <= pe_id p -> pe_form p = PE_FORM_PRIM \/ pe_form p = PE_FORM_CONS ->
  ps_write_id ps p = UB.
Proof.
  intros U O ps p [C I] R F; unfold ps_write_id.
  replace (if pe_form p =? PE_FORM_ICONS then PE_FORM_CONS else pe_form p) with (pe_form p)
    by (destruct F as [-> | ->]; reflexivity).
  rewrite id_octets_overflow; [reflexivity | exact C | destruct F as [-> | ->]; cbv; easy | lia].
Qed.

(** * Witnesses *)

Lemma ex_seq_tags : tags14 (pe_value ex_seq).
Proof. simpl; repeat split; lia. Qed.

Lemma ps_get_abs_exact_witness : exists p', ps_get_abs PS_LEN_SPAG ex_seq = Val (19, p') /\ pe_value p' = pe_value ex_seq.
Proof.
  destruct (ps_get_abs_exact PS_LEN_SPAG ex_seq) as (p' & E & _ & V & _);
    [apply pe_okb_ok; reflexivity | apply ex_seq_tags | vm_compute; discriminate|].
  exists p'; split; [exact E | exact V].
Defined.

Lemma pe2ps_appends_ber_witness : exists rc ps' p',
  @pe2ps _ (@str_open plenty) PS_LEN_INDF str_stream ex_seq = Val (rc, ps', p') /\ @ps_wok _ _ (@str_writer plenty) (ps_un ps') /\
  pe_value p' = pe_value ex_seq /\
  (rc = NOTOK \/ @ps_output _ _ (@str_writer plenty) (ps_un ps') = ber PS_LEN_INDF (pe_value ex_seq)).
Proof.
  apply (pe2ps_appends_ber str_un (@str_open plenty) (@str_writer plenty) PS_LEN_INDF str_stream ex_seq);
    [apply pe_okb_ok; reflexivity | apply ex_seq_tags | vm_compute; discriminate | exact I].
Defined.

Lemma plenty_ok : @memory_ok plenty.
Proof. intros n; reflexivity. Qed.

Lemma pe2ps_string_witness : exists ps' p', @pe2ps _ (@str_open plenty) PS_LEN_LONG str_stream ex_seq = Val (OK, ps', p') /\
  str_output (ps_un ps') = [48; 17; 2; 1; 5; 4; 2; 104; 105; 36; 8; 4; 2; 104; 105; 4; 2; 104; 105].
Proof.
  destruct (pe2ps_string plenty PS_LEN_LONG ex_seq) as (ps' & p' & E & _ & O & _);
    [apply plenty_ok | apply pe_okb_ok; reflexivity | apply ex_seq_tags | vm_compute; discriminate|].
  exists ps', p'; split; [exact E | exact O].
Defined.
