(* ===== verification/Ps2Pe.v ===== *)
(** * psap: the BER decoder (ps2pe.c)

    [ps2pe_aux] and [ps_read_cons] call each other; the recursion is on
    [fuel], which the length of the input bounds: each call reads an octet.
    The grammar [enc] lists the encodings the decoder takes. *)

From S2P Require Import Prelude Conv PElement PStream StrPs Pe2Ps.
Open Scope Z_scope.
Open Scope c_scope.

(** [PE_ID_MASK << (PE_ID_BITS - PE_ID_SHIFT)] *)
Definition pe_id_overshift : Z := Z.shiftl PE_ID_MASK (PE_ID_BITS - PE_ID_SHIFT).

(** The outcome of a decoding step: [None] for NOTOK or a null element. *)
Definition dec (U A : Type) : Type := cres (option A * PStream U).

Section Decoder.
Context `{Allocator} {U : Type} `{PSOps U}.

(** The loop [for (j = 0;; j <<= PE_ID_SHIFT)] of [ps_read_id]. *)
Fixpoint read_id_loop (fuel : nat) (ps : PStream U) (j : Z) : dec U Z :=
  match fuel with
  | O => UB
  | S fuel' =>
      ' (o, ps) <- ps_read ps 1;;
      match o with
      | None =>
          Val (None, if ps_errno ps =? PS_ERR_EOF then set_ps_errno ps PS_ERR_EOFID else ps)
      | Some b =>
          d <- rd b 0;;
          let j := Z.lor j (Z.land d PE_ID_MASK) in
          if Z.land d PE_ID_MORE =? 0 then Val (Some j, ps)
          else if negb (Z.land j pe_id_overshift =? 0) then Val (ps_seterr ps PS_ERR_OVERID None)
          else read_id_loop fuel' ps (u16 (Z.shiftl j PE_ID_SHIFT))
      end
  end.

(** Class, form and code of the identifier octets. *)
Definition ps_read_id (fuel : nat) (ps : PStream U) (top : Z) : dec U (Z * Z * Z) :=
  ' (o, ps) <- ps_read ps 1;;
  match o with
  | None =>
      Val (None, if negb (top =? 0) && (ps_errno ps =? PS_ERR_EOF)
                 then set_ps_errno ps PS_ERR_NONE else ps)
  | Some b =>
      c <- rd b 0;;
      let class := Z.shiftr (Z.land c PE_CLASS_MASK) PE_CLASS_SHIFT in
      let form := Z.shiftr (Z.land c PE_FORM_MASK) PE_FORM_SHIFT in
      let j := Z.land c PE_CODE_MASK in
      if j =? PE_ID_XTND then
        ' (o, ps) <- read_id_loop fuel ps 0;;
        Val (match o with Some j => Some (class, form, j) | None => None end, ps)
      else Val (Some (class, form, j), ps)
  end.

(** The loop [for (j = 0; i-- > 0;)] of [ps_read_len]. *)
Fixpoint read_len_loop (i : nat) (ps : PStream U) (j : Z) : dec U Z :=
  match i with
  | O => Val (Some j, ps)
  | S i' =>
      ' (o, ps) <- ps_read ps 1;;
      match o with
      | None =>
          Val (None, if ps_errno ps =? PS_ERR_EOF then set_ps_errno ps PS_ERR_EOFLEN else ps)
      | Some b =>
          c <- rd b 0;;
          read_len_loop i' ps (Z.lor (i32 (Z.shiftl j 8)) (Z.land c 255))
      end
  end.

Definition ps_read_len (ps : PStream U) : dec U Z :=
  ' (o, ps) <- ps_read ps 1;;
  match o with
  | None => Val (None, ps)
  | Some b =>
      i <- rd b 0;;
      if negb (Z.land i PE_LEN_XTND =? 0) then
        let i := Z.land i PE_LEN_MASK in
        if i >? 4 then Val (ps_seterr ps PS_ERR_OVERLEN None)
        else if negb (i =? 0) then read_len_loop (Z.to_nat i) ps 0
        else Val (Some PE_LEN_INDF, ps)
      else Val (Some i, ps)
  end.

(** [p -> pe_class == PE_CLASS_UNIV && p -> pe_id == PE_UNIV_EOC] *)
Definition is_eoc (p : PElement) : bool :=
  (pe_class p =? PE_CLASS_UNIV) && (pe_id p =? PE_UNIV_EOC).

(** The loops of [ps_read_cons], which get the members by [next]. *)
Section Members.
Variable next : PStream U -> dec U PElement.

(** Up to the end-of-contents; the members read before are in [acc]. *)
Fixpoint read_indf (fuel : nat) (ps : PStream U) (acc : list PElement) : dec U (list PElement) :=
  match fuel with
  | O => UB
  | S fuel' =>
      ' (o, ps) <- next ps;;
      match o with
      | None => Val (None, ps)
      | Some p => if is_eoc p then Val (Some acc, ps) else read_indf fuel' ps (acc ++ [p])
      end
  end.

(** Until the stream is at octet [cc]. *)
Fixpoint read_defn (fuel : nat) (ps : PStream U) (cc : Z) (acc : list PElement) : dec U (list PElement) :=
  match fuel with
  | O => UB
  | S fuel' =>
      if cc <? ps_byteno ps then Val (ps_seterr ps PS_ERR_LEN None)
      else if cc =? ps_byteno ps then Val (Some acc, ps)
      else
        ' (o, ps) <- next ps;;
        match o with
        | None => Val (None, ps)
        | Some p => read_defn fuel' ps cc (acc ++ [p])
        end
  end.

Definition ps_read_cons (fuel : nat) (ps : PStream U) (len : Z) : dec U (list PElement) :=
  let cc := i32 (ps_byteno ps + len) in
  ' (o, ps) <- next ps;;
  match o with
  | None => Val (None, ps)
  | Some p =>
      if len =? PE_LEN_INDF then
        if is_eoc p then Val (Some [], ps) else read_indf fuel ps [p]
      else read_defn fuel ps cc [p]
  end.
End Members.

(** The contents of a primitive of [len > 0] octets: taken in place from an
    in-line stream, else copied. When there is no memory for the copy the
    code sets [pe] to NULLPE and hands it to [pe_free], which aborts. *)
Definition read_prim (ps : PStream U) (pe : PElement) (len : Z) : dec U PElement :=
  if negb (ps_inline ps =? 0) then
    r <- ps_advance ps len;;
    match r with
    | None => Val (ps_seterr ps PS_ERR_EOF None)
    | Some (d, ps) =>
        Val (Some (set_prim (set_inline pe 1) (Some d)),
             set_ps_byteno ps (i32 (ps_byteno ps + len)))
    end
  else if malloc_int len then
    ' (o, ps) <- ps_read ps len;;
    Val (match o with Some d => Some (set_prim pe (Some d)) | None => None end, ps)
  else UB.

Fixpoint ps2pe_aux (fuel : nat) (ps : PStream U) (top all : Z) {struct fuel} : dec U PElement :=
  match fuel with
  | O => UB
  | S fuel' =>
      let '(rc, ps) := if negb (top =? 0) then ps_prime ps 0 else (OK, ps) in
      if rc =? NOTOK then Val (None, ps)
      else
        ' (o, ps) <- ps_read_id fuel ps top;;
        match o with
        | None => Val (None, ps)
        | Some (class, form, id) =>
            match pe_alloc class form id with
            | None => Val (ps_seterr ps PS_ERR_NMEM None)
            | Some pe =>
                ' (o, ps) <- ps_read_len ps;;
                match o with
                | None => Val (None, ps)
                | Some len =>
                    let pe := set_len pe len in
                    if all =? 0 then Val (Some pe, ps)
                    else
                      ' (o, ps) <-
                        (if pe_form pe =? PE_FORM_PRIM then
                           if len =? PE_LEN_INDF then Val (ps_seterr ps PS_ERR_INDF None)
                           else if len >? 0 then read_prim ps pe len
                           else Val (Some pe, ps)
                         else if pe_form pe =? PE_FORM_CONS then
                           if negb (len =? 0) then
                             ' (o, ps) <- ps_read_cons (fun ps => ps2pe_aux fuel' ps 0 1) fuel' ps len;;
                             Val (match o with Some l => Some (set_cons pe l) | None => None end, ps)
                           else Val (Some pe, ps)
                         else Val (Some pe, ps));;
                      match o with
                      | None => Val (None, ps)
                      | Some pe =>
                          let '(rc, ps) := if negb (top =? 0) then ps_prime ps (-1) else (OK, ps) in
                          Val (if rc =? NOTOK then None else Some pe, ps)
                      end
                end
            end
        end
  end.

(** [ps2pe (ps)] is [ps2pe_aux (ps, 1, 1)]. *)
Definition ps2pe (fuel : nat) (ps : PStream U) : dec U PElement := ps2pe_aux fuel ps 1 1.
End Decoder.

(** * The encodings the decoder takes *)

(** Groups of seven bits, most significant first; the number so far must
    leave the bits above the seventh clear. *)
Inductive tag_groups : Z -> Z -> list Z -> Prop :=
| groups_last acc g : 0 <= g < 128 -> tag_groups acc (acc * 128 + g) [g]
| groups_more acc g id gs : 0 <= g < 128 -> acc * 128 + g < 128 ->
    tag_groups (acc * 128 + g) id gs -> tag_groups acc id ((128 + g) :: gs).

Inductive id_octs (class form : Z) : Z -> list Z -> Prop :=
| id_low id : 0 <= id < 31 -> id_octs class form id [class * 64 + form * 32 + id]
| id_high id gs : tag_groups 0 id gs -> id_octs class form id ((class * 64 + form * 32 + 31) :: gs).

(** An unsigned number, most significant octet first. *)
Definition be (os : list Z) : Z := fold_left (fun a b => a * 256 + b) os 0.

(** Definite lengths of up to four octets, read as an [int]; -1 is indefinite. *)
Inductive len_octs : Z -> list Z -> Prop :=
| len_short n : 0 <= n < 128 -> len_octs n [n]
| len_indf : len_octs PE_LEN_INDF [128]
| len_long os : 1 <= zlen os <= 4 -> bytes os -> len_octs (i32 (be os)) ((128 + zlen os) :: os).

Definition eoc_value (v : pvalue) : Prop :=
  match v with VPrim c i _ | VInline c i _ _ | VCons c i _ => c = PE_CLASS_UNIV /\ i = PE_UNIV_EOC end.

#[local] Unset Elimination Schemes.
Inductive enc : pvalue -> list Z -> Prop :=
| enc_prim c i d io lo : 0 <= c < 4 -> id_octs c 0 i io -> len_octs (zlen d) lo ->
    enc (VPrim c i d) (io ++ lo ++ d)
| enc_negative c i n io lo : 0 <= c < 4 -> id_octs c 0 i io -> len_octs n lo -> n < PE_LEN_INDF ->
    enc (VPrim c i []) (io ++ lo)
| enc_definite c i vs oss io lo : 0 <= c < 4 -> id_octs c 1 i io -> len_octs (zlen (concat oss)) lo ->
    Forall2 enc vs oss -> enc (VCons c i vs) (io ++ lo ++ concat oss)
| enc_indefinite c i vs oss e eo io lo : 0 <= c < 4 -> id_octs c 1 i io -> len_octs PE_LEN_INDF lo ->
    Forall2 enc vs oss -> Forall (fun v => ~ eoc_value v) vs -> eoc_value e -> enc e eo ->
    enc (VCons c i vs) (io ++ lo ++ concat oss ++ eo).
#[local] Set Elimination Schemes.

(** * Lemmas *)

Lemma land_80_0 d : is_byte d -> (Z.land d PE_ID_MORE =? 0) = (d <? 128).
Proof.
  intros H; apply Bool.eqb_prop.
  apply (byte_forall (fun d => Bool.eqb (Z.land d PE_ID_MORE =? 0) (d <? 128))); [reflexivity | exact H].
Qed.

Lemma overshift_0 x : 0 <= x < 16384 -> (Z.land x pe_id_overshift =? 0) = (x <? 128).
Proof.
  intros H; destruct (Z.ltb_spec x 128).
  - apply Z.eqb_eq; change pe_id_overshift with (Z.shiftl 127 7).
    apply Z.bits_inj'; intros i Hi; rewrite Z.land_spec, Z.bits_0.
    destruct (Z.ltb_spec i 7); [rewrite Z.shiftl_spec_low by lia; apply andb_false_r|].
    rewrite <- (Z.mod_small x (2 ^ 7)), Z.mod_pow2_bits_high by lia; reflexivity.
  - apply Z.eqb_neq; intros E; change pe_id_overshift with (Z.shiftl 127 7) in E.
    assert (L : Z.land (Z.shiftr x 7) 127 = 0).
    { apply Z.bits_inj'; intros i Hi; rewrite Z.bits_0, Z.land_spec, Z.shiftr_spec by lia.
      apply (f_equal (fun z => Z.testbit z (i + 7))) in E.
      rewrite Z.land_spec, Z.bits_0, Z.shiftl_spec in E by lia.
      replace (i + 7 - 7) with i in E by lia; exact E. }
    rewrite shr7, land_7f in L; div_facts x 128; rewrite Z.mod_small in L by lia; lia.
Qed.

Lemma lor_groups acc d : 0 <= acc -> is_byte d ->
  Z.lor (acc * 128) (Z.land d PE_ID_MASK) = acc * 128 + d mod 128.
Proof. intros; unfold PE_ID_MASK; rewrite land_7f; apply (lor_add acc _ 7); pose proof (Z.mod_pos_bound d 128 ltac:(lia)); lia. Qed.

Lemma first_octet_parts c : is_byte c ->
  0 <= Z.shiftr (Z.land c PE_CLASS_MASK) PE_CLASS_SHIFT < 4 /\
  0 <= Z.shiftr (Z.land c PE_FORM_MASK) PE_FORM_SHIFT < 2 /\
  0 <= Z.land c PE_CODE_MASK < 32 /\
  c = Z.shiftr (Z.land c PE_CLASS_MASK) PE_CLASS_SHIFT * 64 +
      Z.shiftr (Z.land c PE_FORM_MASK) PE_FORM_SHIFT * 32 + Z.land c PE_CODE_MASK.
Proof.
  intros H; set (cl := Z.shiftr (Z.land c PE_CLASS_MASK) PE_CLASS_SHIFT).
  set (fo := Z.shiftr (Z.land c PE_FORM_MASK) PE_FORM_SHIFT); set (id := Z.land c PE_CODE_MASK).
  assert (E : (0 <=? cl) && (cl <? 4) && (0 <=? fo) && (fo <? 2) && (0 <=? id) && (id <? 32) &&
              (c =? cl * 64 + fo * 32 + id) = true).
  { revert c H cl fo id; apply byte_forall; vm_compute; reflexivity. }
  bool_to_prop; lia.
Qed.

Lemma first_octet_join class form j : 0 <= class < 4 -> 0 <= form < 2 -> 0 <= j < 32 ->
  let c := class * 64 + form * 32 + j in
  is_byte c /\ Z.shiftr (Z.land c PE_CLASS_MASK) PE_CLASS_SHIFT = class /\
  Z.shiftr (Z.land c PE_FORM_MASK) PE_FORM_SHIFT = form /\ Z.land c PE_CODE_MASK = j.
Proof.
  intros C F J c; assert (B : is_byte c) by (unfold is_byte, c; lia).
  destruct (first_octet_parts c B) as (A1 & A2 & A3 & A4); unfold c in A4 at 1.
  split; [exact B|]; lia.
Qed.

Section Readers.
Context `{Allocator} {U : Type} `{PSReader U}.

(** A stream of octets whose position stays an [int]. *)
Definition dec_pre (ps : PStream U) : Prop :=
  ps_good ps /\ bytes (ps_input ps) /\ 0 <= ps_byteno ps /\
  ps_byteno ps + zlen (ps_input ps) <= INT_MAX.

(** [ps'] is [ps] read on by the octets [os]. *)
Definition moved (ps ps' : PStream U) (os : list Z) : Prop :=
  ps_input ps = os ++ ps_input ps' /\ ps_byteno ps' = ps_byteno ps + zlen os /\
  same_frame ps ps' /\ dec_pre ps'.

Lemma moved_refl ps : dec_pre ps -> moved ps ps [].
Proof. intros D; repeat split; try apply D; zlen. Qed.

Lemma moved_trans ps ps1 ps2 os1 os2 : moved ps ps1 os1 -> moved ps1 ps2 os2 -> moved ps ps2 (os1 ++ os2).
Proof.
  intros (I1 & B1 & (F1 & G1) & D1) (I2 & B2 & (F2 & G2) & D2).
  split; [rewrite I1, I2; apply app_assoc|]; split; [zlen|]; split; [split; congruence | exact D2].
Qed.

Lemma moved_length ps ps' os : moved ps ps' os ->
  length (ps_input ps) = (length os + length (ps_input ps'))%nat.
Proof. intros (I & _); rewrite I; apply length_app. Qed.

Lemma moved_to ps ps' os : dec_pre ps -> ps_input ps = os ++ ps_input ps' -> ps_good ps' ->
  ps_byteno ps' = i32 (ps_byteno ps + zlen os) -> same_frame ps ps' -> moved ps ps' os.
Proof.
  intros (G & B & N & L) I G' E F; rewrite I in B, L; rewrite zlen_app in L.
  apply bytes_app in B; pose proof (zlen_nonneg os); pose proof (zlen_nonneg (ps_input ps')).
  rewrite i32_id in E by (unfold is_int, INT_MIN; lia).
  repeat split; try tauto; try apply G'; try apply F; lia.
Qed.

(** Reading [n] octets moves the stream on by them, or ends in PS_ERR_EOF. *)
Lemma read_moved ps n : dec_pre ps -> 0 <= n ->
  exists o ps', ps_read ps n = Val (o, ps') /\
  match o with
  | Some os => zlen os = n /\ moved ps ps' os
  | None => ps_errno ps' = PS_ERR_EOF /\ zlen (ps_input ps) < n
  end.
Proof.
  intros D N; destruct (ps_read_spec ps n N (proj1 D)) as (ps' & G & R).
  destruct (Z.leb_spec n (zlen (ps_input ps))); destruct R as (E & F & B & I); rewrite E.
  - exists (Some (ztake n (ps_input ps))), ps'; split; [reflexivity|].
    assert (L : zlen (ztake n (ps_input ps)) = n) by (apply zlen_ztake; lia).
    split; [exact L|]; apply moved_to; auto; [|congruence].
    rewrite I; symmetry; apply ztake_zdrop.
  - exists None, ps'; auto.
Qed.

(** The same when the octets to come are known. *)
Lemma read_known ps os rest : dec_pre ps -> ps_input ps = os ++ rest ->
  exists ps', ps_read ps (zlen os) = Val (Some os, ps') /\ moved ps ps' os /\ ps_input ps' = rest.
Proof.
  intros D E; pose proof (zlen_nonneg os) as Z; pose proof (zlen_nonneg rest).
  destruct (read_moved ps (zlen os) D Z) as (o & ps' & R & S).
  destruct o as [os'|]; [|rewrite E, zlen_app in S; lia].
  destruct S as [L M]; pose proof (proj1 M) as I; rewrite E in I.
  apply app_same_length in I as [<- ->]; [|lia]; exists ps'; auto.
Qed.

(** The outcome of a decoding step on [ps]: octets were taken for which [P]
    holds of the result, or there is an error. *)
Definition dec_result {A} (ps : PStream U) (r : dec U A) (P : A -> list Z -> Prop) : Prop :=
  exists o ps', r = Val (o, ps') /\
  match o with
  | Some a => exists os, moved ps ps' os /\ P a os
  | None => ps_errno ps' <> PS_ERR_NONE
  end.

(** A step that succeeds, on octets that are known. *)
Definition dec_known {A} (ps : PStream U) (r : dec U A) (os : list Z) (a : A) : Prop :=
  exists ps', r = Val (Some a, ps') /\ moved ps ps' os.

Lemma dec_known_input {A} ps (r : dec U A) os a rest : ps_input ps = os ++ rest -> dec_known ps r os a ->
  exists ps', r = Val (Some a, ps') /\ moved ps ps' os /\ ps_input ps' = rest.
Proof.
  intros E (ps' & R & M); exists ps'; split; [exact R|]; split; [exact M|].
  destruct M as (I & _); rewrite E in I; apply app_inv_head in I; auto.
Qed.

Lemma dec_result_app {A} ps ps1 os1 (r : dec U A) P : moved ps ps1 os1 ->
  dec_result ps1 r (fun a os => P a (os1 ++ os)) -> dec_result ps r P.
Proof.
  intros M (o & ps' & E & R); exists o, ps'; split; [exact E|]; destruct o; [|exact R].
  destruct R as (os & M' & Q); exists (os1 ++ os); split; [eapply moved_trans; eauto | exact Q].
Qed.

Lemma dec_known_app {A} ps ps1 os1 os (r : dec U A) a : moved ps ps1 os1 ->
  dec_known ps1 r os a -> dec_known ps r (os1 ++ os) a.
Proof. intros M (ps' & E & M'); exists ps'; split; [exact E | eapply moved_trans; eauto]. Qed.

(** Reading one octet. *)
Lemma read1 ps : dec_pre ps -> exists o ps', ps_read ps 1 = Val (o, ps') /\
  match o with
  | Some os => exists c, os = [c] /\ is_byte c /\ moved ps ps' [c]
  | None => ps_errno ps' = PS_ERR_EOF /\ ps_input ps = []
  end.
Proof.
  intros D; destruct (read_moved ps 1 D ltac:(lia)) as (o & ps' & E & R); exists o, ps'.
  split; [exact E|]; destruct o as [os|].
  - destruct R as [L M]; destruct os as [|c [|? os]]; [discriminate | | unfold zlen in L; simpl in L; lia].
    exists c; repeat split; try apply M; destruct D as (_ & B & _); rewrite (proj1 M) in B.
    all: apply bytes_cons in B; apply B.
  - destruct R as [R L]; split; [exact R|]; apply zlen_0; pose proof (zlen_nonneg (ps_input ps)); lia.
Qed.

Lemma read1_known ps c rest : dec_pre ps -> ps_input ps = c :: rest ->
  exists ps', ps_read ps 1 = Val (Some [c], ps') /\ is_byte c /\ moved ps ps' [c] /\ ps_input ps' = rest.
Proof.
  intros D E; destruct (read_known ps [c] rest D E) as (ps' & R & M & I).
  exists ps'; repeat split; try apply M; try assumption; destruct D as (_ & B & _); rewrite E in B.
  all: apply bytes_cons in B; apply B.
Qed.

(** ** Identifier octets *)

Lemma group_step acc d : 0 <= acc < 128 -> is_byte d ->
  (Z.land (Z.lor (acc * 128) (Z.land d PE_ID_MASK)) pe_id_overshift =? 0) = (acc * 128 + d mod 128 <? 128).
Proof.
  intros A D; rewrite lor_groups by (assumption || lia); apply overshift_0.
  pose proof (Z.mod_pos_bound d 128 ltac:(lia)); lia.
Qed.

Lemma read_id_loop_sound fuel : forall ps acc, dec_pre ps -> (length (ps_input ps) < fuel)%nat ->
  0 <= acc < 128 ->
  dec_result ps (read_id_loop fuel ps (acc * 128)) (fun id gs => tag_groups acc id gs).
Proof.
  induction fuel as [|fuel IH]; intros ps acc D F A; [lia|]; cbn [read_id_loop].
  destruct (read1 ps D) as (o & ps1 & E & R); rewrite E; cbn [cbind]; destruct o as [os|].
  2: { destruct R as [-> _]; simpl; exists None; eexists; split; [reflexivity | discriminate]. }
  destruct R as (d & -> & B & M); rewrite rd_cons0; cbn [cbind].
  rewrite land_80_0, group_step, lor_groups by (assumption || lia).
  pose proof (Z.mod_pos_bound d 128 ltac:(lia)) as R.
  destruct (Z.ltb_spec d 128).
  { rewrite Z.mod_small by (unfold is_byte in B; lia); exists (Some (acc * 128 + d)), ps1.
    split; [reflexivity|]; exists [d]; split; [exact M|]; constructor; unfold is_byte in B; lia. }
  assert (Ed : d = 128 + d mod 128) by (unfold is_byte in B; div_facts d 128; lia).
  destruct (Z.ltb_spec (acc * 128 + d mod 128) 128) as [L|L]; cbn [negb].
  2: { exists None; eexists; split; [reflexivity | discriminate]. }
  unfold PE_ID_SHIFT; rewrite Z.shiftl_mul_pow2, u16_id by lia.
  apply (dec_result_app ps ps1 [d] _ _ M); pose proof (moved_length _ _ _ M) as Len; simpl in Len.
  destruct (IH ps1 (acc * 128 + d mod 128)) as (o & ps' & E' & R'); [apply M | lia | lia|].
  exists o, ps'; split; [exact E'|]; destruct o as [id|]; [|exact R'].
  destruct R' as (gs & M' & G); exists gs; split; [exact M'|].
  simpl; rewrite Ed; apply groups_more; auto; lia.
Qed.

Lemma read_id_loop_complete acc id gs : tag_groups acc id gs ->
  forall fuel ps rest, dec_pre ps -> ps_input ps = gs ++ rest -> (length gs <= fuel)%nat -> 0 <= acc < 128 ->
  dec_known ps (read_id_loop fuel ps (acc * 128)) gs id.
Proof.
  induction 1 as [acc g G|acc g id gs G L T IH]; intros [|fuel] ps rest D I F A; simpl in F; try lia; cbn [read_id_loop].
  - destruct (read1_known ps g rest D I) as (ps1 & E & B & M & _); rewrite E; cbn [cbind]; rewrite rd_cons0; cbn [cbind].
    rewrite land_80_0, lor_groups, (proj2 (Z.ltb_lt g 128)), Z.mod_small by (assumption || lia).
    exists ps1; auto.
  - destruct (read1_known ps (128 + g) (gs ++ rest) D I) as (ps1 & E & B & M & I1).
    rewrite E; cbn [cbind]; rewrite rd_cons0; cbn [cbind].
    assert (Em : (128 + g) mod 128 = g).
    { rewrite <- Z.add_mod_idemp_l by lia; change (128 mod 128) with 0; apply Z.mod_small; lia. }
    rewrite land_80_0, group_step, lor_groups, Em by (assumption || lia).
    rewrite (proj2 (Z.ltb_ge (128 + g) 128)), (proj2 (Z.ltb_lt (acc * 128 + g) 128)) by lia; cbn [negb].
    unfold PE_ID_SHIFT; rewrite Z.shiftl_mul_pow2, u16_id by lia.
    apply (dec_known_app ps ps1 [128 + g] gs _ id M), (IH fuel ps1 rest); auto; [apply M | lia | lia].
Qed.

Lemma ps_read_id_sound fuel ps : dec_pre ps -> (length (ps_input ps) < fuel)%nat ->
  dec_result ps (ps_read_id fuel ps 0)
    (fun '(class, form, id) os => 0 <= class < 4 /\ 0 <= form < 2 /\ id_octs class form id os).
Proof.
  intros D F; unfold ps_read_id; destruct (read1 ps D) as (o & ps1 & E & R); rewrite E; simpl.
  destruct o as [os|].
  2: { destruct R as [R _]; exists None, ps1; split; [reflexivity | rewrite R; discriminate]. }
  destruct R as (c & -> & B & M); rewrite rd_cons0; cbn [cbind].
  destruct (first_octet_parts c B) as (C & Fo & J & Ec); unfold PE_ID_XTND.
  set (class := Z.shiftr (Z.land c PE_CLASS_MASK) PE_CLASS_SHIFT) in *.
  set (form := Z.shiftr (Z.land c PE_FORM_MASK) PE_FORM_SHIFT) in *; set (j := Z.land c PE_CODE_MASK) in *.
  pose proof (moved_length _ _ _ M) as Len; simpl in Len.
  destruct (Z.eqb_spec j 31) as [Ej|Ej].
  2: { exists (Some (class, form, j)), ps1; split; [reflexivity|]; exists [c]; split; [exact M|].
       split; [exact C|]; split; [exact Fo|]; rewrite Ec; constructor; lia. }
  destruct (read_id_loop_sound fuel ps1 0) as (o & ps' & E' & R'); [apply M | lia | lia|].
  change (0 * 128) with 0 in E'; rewrite E'; cbn [cbind]; destruct o as [id|].
  - destruct R' as (gs & M' & G); exists (Some (class, form, id)), ps'; split; [reflexivity|].
    exists ([c] ++ gs); split; [eapply moved_trans; eauto|]; split; [exact C|]; split; [exact Fo|].
    rewrite Ec, Ej; constructor; exact G.
  - exists None, ps'; auto.
Qed.

(** At the top an empty stream is not an error. *)
Lemma ps_read_id_top fuel ps : dec_pre ps ->
  match ps_input ps with
  | [] => exists ps', ps_read_id fuel ps 1 = Val (None, ps') /\ ps_errno ps' = PS_ERR_NONE
  | _ :: _ => ps_read_id fuel ps 1 = ps_read_id fuel ps 0
  end.
Proof.
  intros D; unfold ps_read_id; destruct (read1 ps D) as (o & ps1 & E & R); rewrite E; simpl.
  destruct o as [os|].
  - destruct R as (c & -> & _ & M); rewrite (proj1 M); reflexivity.
  - destruct R as [R I]; rewrite I, R; simpl; eexists; split; reflexivity.
Qed.

Lemma ps_read_id_complete fuel ps top class form id os rest : dec_pre ps -> ps_input ps = os ++ rest ->
  (length os <= fuel)%nat -> 0 <= class < 4 -> 0 <= form < 2 -> id_octs class form id os ->
  dec_known ps (ps_read_id fuel ps top) os (class, form, id).
Proof.
  intros D I F C Fo Os; unfold ps_read_id, PE_ID_XTND; destruct Os as [id R|id gs G].
  - destruct (read1_known ps _ rest D I) as (ps1 & E & B & M & _); rewrite E; cbn [cbind]; rewrite rd_cons0; cbn [cbind].
    destruct (first_octet_join class form id C Fo ltac:(lia)) as (_ & -> & -> & ->).
    rewrite (proj2 (Z.eqb_neq id 31)) by lia; exists ps1; auto.
  - destruct (read1_known ps _ (gs ++ rest) D I) as (ps1 & E & B & M & I1).
    rewrite E; cbn [cbind]; rewrite rd_cons0; cbn [cbind].
    destruct (first_octet_join class form 31 C Fo ltac:(lia)) as (_ & -> & -> & ->); simpl Z.eqb; cbn match.
    destruct (read_id_loop_complete 0 id gs G fuel ps1 rest) as (ps' & E' & M');
      [apply M | exact I1 | simpl in F; lia | lia|].
    change (0 * 128) with 0 in E'; rewrite E'; simpl; exists ps'; split; [reflexivity|].
    exact (moved_trans _ _ _ _ _ M M').
Qed.

(** ** Length octets *)

Lemma read_len_loop_sound i : forall ps a, dec_pre ps ->
  dec_result ps (read_len_loop i ps (i32 a))
    (fun n os => length os = i /\ bytes os /\ n = i32 (fold_left (fun a b => a * 256 + b) os a)).
Proof.
  induction i as [|i IH]; intros ps a D; cbn [read_len_loop].
  - exists (Some (i32 a)), ps; split; [reflexivity|]; exists []; split; [apply moved_refl, D | repeat constructor].
  - destruct (read1 ps D) as (o & ps1 & E & R); rewrite E; cbn [cbind]; destruct o as [os|].
    2: { destruct R as [-> _]; exists None; eexists; split; [reflexivity | discriminate]. }
    destruct R as (c & -> & B & M); rewrite rd_cons0; cbn [cbind]; rewrite len_step by exact B.
    apply (dec_result_app ps ps1 [c] _ _ M).
    destruct (IH ps1 (a * 256 + c)) as (o & ps' & E' & R'); [apply M|]; exists o, ps'; split; [exact E'|].
    destruct o as [n|]; [|exact R']; destruct R' as (os & M' & L & Bs & N).
    exists os; split; [exact M'|]; simpl; split; [congruence|]; split; [constructor; assumption | exact N].
Qed.

Lemma read_len_loop_complete os : forall ps a rest, dec_pre ps -> ps_input ps = os ++ rest -> bytes os ->
  dec_known ps (read_len_loop (length os) ps (i32 a)) os (i32 (fold_left (fun a b => a * 256 + b) os a)).
Proof.
  induction os as [|c os IH]; intros ps a rest D I B; cbn [length read_len_loop].
  - exists ps; split; [reflexivity | apply moved_refl, D].
  - apply bytes_cons in B as [Bc B].
    destruct (read1_known ps c (os ++ rest) D I) as (ps1 & E & _ & M & I1); rewrite E; cbn [cbind].
    rewrite rd_cons0; cbn [cbind]; rewrite len_step by exact Bc.
    apply (dec_known_app ps ps1 [c] os _ _ M), (IH ps1 _ rest); [apply M | exact I1 | exact B].
Qed.

(** The first length octet: its flag and its number. *)
Lemma len_first c : is_byte c ->
  (negb (Z.land c PE_LEN_XTND =? 0) = (128 <=? c)) /\ Z.land c PE_LEN_MASK = c mod 128.
Proof.
  intros B; split; [|apply land_7f]; apply Bool.eqb_prop.
  apply (byte_forall (fun c => Bool.eqb (negb (Z.land c PE_LEN_XTND =? 0)) (128 <=? c))); [reflexivity | exact B].
Qed.

Lemma ps_read_len_sound ps : dec_pre ps -> dec_result ps (ps_read_len ps) len_octs.
Proof.
  intros D; unfold ps_read_len; destruct (read1 ps D) as (o & ps1 & E & R); rewrite E; cbn [cbind].
  destruct o as [os|].
  2: { destruct R as [R _]; exists None, ps1; split; [reflexivity | rewrite R; discriminate]. }
  destruct R as (c & -> & B & M); rewrite rd_cons0; cbn [cbind]; destruct (len_first c B) as [-> ->].
  pose proof B as B'; unfold is_byte in B'; destruct (Z.leb_spec 128 c).
  2: { exists (Some c), ps1; split; [reflexivity|]; exists [c]; split; [exact M | constructor; lia]. }
  assert (Em : c mod 128 = c - 128) by (div_facts c 128; lia); rewrite Em, Z.gtb_ltb.
  destruct (Z.ltb_spec 4 (c - 128)); [exists None; eexists; split; [reflexivity | discriminate]|].
  destruct (Z.eqb_spec (c - 128) 0) as [E0|E0]; cbn [negb].
  { exists (Some PE_LEN_INDF), ps1; split; [reflexivity|]; exists [c]; split; [exact M|].
    replace c with 128 by lia; constructor. }
  apply (dec_result_app ps ps1 [c] _ _ M).
  destruct (read_len_loop_sound (Z.to_nat (c - 128)) ps1 0) as (o & ps' & E' & R'); [apply M|].
  change (i32 0) with 0 in E'; exists o, ps'; split; [exact E'|]; destruct o as [n|]; [|exact R'].
  destruct R' as (os & M' & L & Bs & ->); exists os; split; [exact M'|].
  assert (Lz : zlen os = c - 128) by (unfold zlen; lia).
  simpl; replace c with (128 + zlen os) at 1 by lia; constructor; [lia | exact Bs].
Qed.

Lemma ps_read_len_complete ps n os rest : dec_pre ps -> ps_input ps = os ++ rest -> len_octs n os ->
  dec_known ps (ps_read_len ps) os n.
Proof.
  intros D I L; unfold ps_read_len; destruct L as [n R| |os R B].
  - destruct (read1_known ps n rest D I) as (ps1 & E & Bn & M & _); rewrite E; cbn [cbind]; rewrite rd_cons0; cbn [cbind].
    destruct (len_first n Bn) as [-> _]; rewrite (proj2 (Z.leb_gt 128 n)) by lia; exists ps1; auto.
  - destruct (read1_known ps 128 rest D I) as (ps1 & E & _ & M & _); rewrite E; exists ps1; auto.
  - destruct (read1_known ps _ (os ++ rest) D I) as (ps1 & E & Bn & M & I1); rewrite E; cbn [cbind].
    rewrite rd_cons0; cbn [cbind]; destruct (len_first _ Bn) as [-> ->].
    assert (Em : (128 + zlen os) mod 128 = zlen os).
    { rewrite <- Z.add_mod_idemp_l by lia; change (128 mod 128) with 0; apply Z.mod_small; lia. }
    rewrite Em, Z.gtb_ltb, (proj2 (Z.leb_le 128 _)), (proj2 (Z.ltb_ge 4 _)), (proj2 (Z.eqb_neq _ 0)) by lia.
    cbn [negb]; unfold zlen at 1; rewrite Nat2Z.id.
    exact (dec_known_app ps ps1 _ os _ _ M (read_len_loop_complete os ps1 0 rest (proj2 (proj2 (proj2 M))) I1 B)).
Qed.
End Readers.

(** ** The grammar *)

Lemma tag_groups_range acc id gs : tag_groups acc id gs -> 0 <= acc < 128 -> 0 <= id < 16384 /\ (1 <= length gs)%nat.
Proof. induction 1; intros; simpl; [lia|]; destruct IHtag_groups; lia. Qed.

Lemma id_octs_range class form id os : id_octs class form id os -> 0 <= id < 16384 /\ (1 <= length os)%nat.
Proof.
  destruct 1 as [|id gs G]; simpl; [lia|]; destruct (tag_groups_range _ _ _ G); lia.
Qed.

Lemma len_octs_range n os : len_octs n os -> is_int n /\ (1 <= length os)%nat.
Proof.
  destruct 1; simpl; (split; [|lia]); [| |apply i32_range]; unfold is_int, INT_MIN, INT_MAX, PE_LEN_INDF; lia.
Qed.

Lemma enc_nonempty v os : enc v os -> (2 <= length os)%nat.
Proof.
  destruct 1 as [c i d io lo C I L|c i n io lo C I L|c i vs oss io lo C I L|c i vs oss e eo io lo C I L];
    apply id_octs_range in I as [_ I]; apply len_octs_range in L as [_ L];
    rewrite !length_app; lia.
Qed.

Lemma eoc_value_spec p : eoc_value (pe_value p) <-> is_eoc p = true.
Proof.
  unfold is_eoc; rewrite andb_true_iff, !Z.eqb_eq.
  destruct p; simpl; repeat case_goal; simpl; tauto.
Qed.

(** What the decoder builds: a primitive holds its octets, unless its length
    was read as a negative number. *)
#[local] Unset Elimination Schemes.
Inductive decoded (p : PElement) : Prop :=
| decoded_leaf : pe_form p = PE_FORM_PRIM -> 0 <= pe_class p < 4 -> 0 <= pe_id p < 16384 ->
    pe_cons p = [] -> data_ok p \/ (pe_len p < PE_LEN_INDF /\ pe_prim p = None) -> decoded p
| decoded_node : pe_form p = PE_FORM_CONS -> 0 <= pe_class p < 4 -> 0 <= pe_id p < 16384 ->
    pe_prim p = None -> Forall decoded (pe_cons p) -> decoded p.
#[local] Set Elimination Schemes.

Section Elements.
Context `{Allocator} {U : Type} `{PSReader U}.

(** Decoding gives an element and its encoding, or an error; it aborts only
    for want of memory. *)
Definition pe_result {A} (ps : PStream U) (r : dec U A) (P : A -> list Z -> Prop) : Prop :=
  (out_of_memory /\ r = UB) \/ dec_result ps r P.

Definition element_of (p : PElement) (os : list Z) : Prop := enc (pe_value p) os /\ decoded p.

Lemma pe_result_app {A} ps ps1 os1 (r : dec U A) P : moved ps ps1 os1 ->
  pe_result ps1 r (fun a os => P a (os1 ++ os)) -> pe_result ps r P.
Proof. intros M [R|R]; [left; exact R | right; eapply dec_result_app; eauto]. Qed.

Lemma pe_result_impl {A} ps (r : dec U A) (P Q : A -> list Z -> Prop) :
  (forall a os, P a os -> Q a os) -> pe_result ps r P -> pe_result ps r Q.
Proof.
  intros I [R|(o & ps' & E & R)]; [left; exact R|]; right; exists o, ps'; split; [exact E|].
  destruct o; [destruct R as (os & M & R); exists os; auto | exact R].
Qed.

(** ** The members *)

Section Loops.
Variable next : PStream U -> dec U PElement.
Variable n : nat.
Hypothesis next_sound : forall ps, dec_pre ps -> (length (ps_input ps) <= n)%nat ->
  pe_result ps (next ps) element_of.

(** [l] continues [acc] by members with the encodings [oss]. *)
Definition members (acc l : list PElement) (oss : list (list Z)) : Prop :=
  exists l', l = acc ++ l' /\ Forall2 enc (map pe_value l') oss /\ Forall decoded l'.

Lemma members_cons acc p l os oss : element_of p os -> members (acc ++ [p]) l oss -> members acc l (os :: oss).
Proof.
  intros [E D] (l' & -> & F & G); exists (p :: l'); rewrite <- app_assoc; simpl; auto.
Qed.

Lemma members_nil acc : members acc acc [].
Proof. exists []; rewrite app_nil_r; auto. Qed.

Definition indf_contents (acc l : list PElement) (os : list Z) : Prop :=
  exists oss e eo, os = concat oss ++ eo /\ members acc l oss /\ eoc_value e /\ enc e eo /\
    (Forall (fun p => is_eoc p = false) acc -> Forall (fun p => is_eoc p = false) l).

Lemma read_indf_sound fuel : forall ps acc, dec_pre ps -> (length (ps_input ps) <= n)%nat ->
  (length (ps_input ps) < fuel)%nat -> pe_result ps (read_indf next fuel ps acc) (indf_contents acc).
Proof.
  induction fuel as [|fuel IH]; intros ps acc D N F; [lia|]; cbn [read_indf].
  destruct (next_sound ps D N) as [[O E]|(o & ps1 & E & R)]; rewrite E; cbn [cbind]; [left; auto|].
  destruct o as [p|]; [|right; exists None, ps1; auto].
  destruct R as (os & M & P); pose proof (moved_length _ _ _ M) as L.
  pose proof (enc_nonempty _ _ (proj1 P)); destruct (is_eoc p) eqn:Ep.
  - right; exists (Some acc), ps1; split; [reflexivity|]; exists os; split; [exact M|].
    exists [], (pe_value p), os; split; [reflexivity|]; split; [apply members_nil|].
    split; [apply eoc_value_spec, Ep|]; split; [apply P | auto].
  - apply (pe_result_app ps ps1 os _ _ M).
    eapply pe_result_impl; [|apply (IH ps1 (acc ++ [p])); [apply M | lia | lia]].
    intros l os' (oss & e & eo & -> & Ms & Ee & Eo & NE); exists (os :: oss), e, eo.
    split; [simpl; apply app_assoc|]; split; [eapply members_cons; eauto|]; split; [exact Ee|]; split; [exact Eo|].
    intros FA; apply NE, Forall_app; auto.
Qed.

Definition defn_contents (acc l : list PElement) (size : Z) (os : list Z) : Prop :=
  exists oss, os = concat oss /\ members acc l oss /\ size = zlen os.

Lemma read_defn_sound fuel cc : forall ps acc, dec_pre ps -> (length (ps_input ps) <= n)%nat ->
  (length (ps_input ps) < fuel)%nat ->
  pe_result ps (read_defn next fuel ps cc acc) (fun l => defn_contents acc l (cc - ps_byteno ps)).
Proof.
  induction fuel as [|fuel IH]; intros ps acc D N F; [lia|]; cbn [read_defn].
  destruct (Z.ltb_spec cc (ps_byteno ps)).
  { right; exists None; eexists; split; [reflexivity | discriminate]. }
  destruct (Z.eqb_spec cc (ps_byteno ps)) as [Ec|Ec].
  { right; exists (Some acc), ps; split; [reflexivity|]; exists []; split; [apply moved_refl, D|].
    exists []; split; [reflexivity|]; split; [apply members_nil | rewrite Ec, Z.sub_diag; reflexivity]. }
  destruct (next_sound ps D N) as [[O E]|(o & ps1 & E & R)]; rewrite E; cbn [cbind]; [left; auto|].
  destruct o as [p|]; [|right; exists None, ps1; auto].
  destruct R as (os & M & P); pose proof (moved_length _ _ _ M) as L.
  pose proof (enc_nonempty _ _ (proj1 P)); apply (pe_result_app ps ps1 os _ _ M).
  eapply pe_result_impl; [|apply (IH ps1 (acc ++ [p])); [apply M | lia | lia]].
  intros l os' (oss & -> & Ms & S); exists (os :: oss); split; [reflexivity|].
  split; [eapply members_cons; eauto|]; rewrite (proj1 (proj2 M)) in S; rewrite zlen_app; lia.
Qed.

(** The contents octets of a constructor of length [len]. *)
Definition cons_contents (len : Z) (l : list PElement) (os : list Z) : Prop :=
  Forall decoded l /\
  ((len = PE_LEN_INDF /\ exists oss e eo, os = concat oss ++ eo /\ Forall2 enc (map pe_value l) oss /\
      Forall (fun v => ~ eoc_value v) (map pe_value l) /\ eoc_value e /\ enc e eo) \/
   (exists oss, os = concat oss /\ len = zlen os /\ Forall2 enc (map pe_value l) oss)).

Lemma not_eoc_values l : Forall (fun p => is_eoc p = false) l -> Forall (fun v => ~ eoc_value v) (map pe_value l).
Proof.
  induction 1 as [|p l E _ IH]; simpl; constructor; [|exact IH].
  rewrite eoc_value_spec, E; discriminate.
Qed.

Lemma members_values l oss : members [] l oss -> Forall2 enc (map pe_value l) oss /\ Forall decoded l.
Proof. intros (l' & -> & R); exact R. Qed.

Lemma ps_read_cons_sound fuel ps len : dec_pre ps -> (length (ps_input ps) <= n)%nat ->
  (length (ps_input ps) < fuel)%nat -> is_int len ->
  pe_result ps (ps_read_cons next fuel ps len) (cons_contents len).
Proof.
  intros D N F Il; unfold ps_read_cons.
  destruct (next_sound ps D N) as [[O E]|(o & ps1 & E & R)]; rewrite E; cbn [cbind]; [left; auto|].
  destruct o as [p|]; [|right; exists None, ps1; auto].
  destruct R as (os & M & P); pose proof (moved_length _ _ _ M) as L; pose proof (enc_nonempty _ _ (proj1 P)).
  assert (Mp : forall l oss, members [p] l oss -> members [] l (os :: oss)).
  { intros l oss Ms; eapply members_cons; [exact P | exact Ms]. }
  destruct (Z.eqb_spec len PE_LEN_INDF) as [El|El].
  - destruct (is_eoc p) eqn:Ep.
    + right; exists (Some []), ps1; split; [reflexivity|]; exists os; split; [exact M|]; split; [constructor|].
      left; split; [exact El|]; exists [], (pe_value p), os; repeat split; try constructor; [|apply P].
      apply eoc_value_spec, Ep.
    + apply (pe_result_app ps ps1 os _ _ M).
      eapply pe_result_impl; [|apply (read_indf_sound fuel ps1 [p]); [apply M | lia | lia]].
      intros l os' (oss & e & eo & -> & Ms & Ee & Eo & NE); apply Mp, members_values in Ms as [Ms Dl].
      split; [exact Dl|]; left; split; [exact El|]; exists (os :: oss), e, eo; split; [simpl; apply app_assoc|].
      repeat split; auto; apply not_eoc_values, NE; constructor; [exact Ep | constructor].
  - apply (pe_result_app ps ps1 os _ _ M).
    eapply pe_result_impl; [|apply (read_defn_sound fuel _ ps1 [p]); [apply M | lia | lia]].
    intros l os' (oss & -> & Ms & S); apply Mp, members_values in Ms as [Ms Dl]; split; [exact Dl|].
    right; exists (os :: oss); split; [reflexivity|]; split; [|exact Ms].
    rewrite (proj1 (proj2 M)) in S; change (concat (os :: oss)) with (os ++ concat oss) in *.
    rewrite zlen_app; destruct D as (_ & _ & B0 & B1).
    pose proof (zlen_nonneg os); pose proof (zlen_nonneg (concat oss)); pose proof (zlen_nonneg (ps_input ps)).
    revert S; unfold i32; unfold is_int, INT_MIN, INT_MAX in *.
    pose proof (Z.div_mod (ps_byteno ps + len + 2147483648) 4294967296 ltac:(lia)).
    pose proof (Z.mod_pos_bound (ps_byteno ps + len + 2147483648) 4294967296 ltac:(lia)); lia.
Qed.
End Loops.
End Elements.

Section Soundness.
Context `{Allocator} {U : Type} `{PSReader U}.

(** The contents of an element whose header is read. *)
Definition read_contents (fuel : nat) (ps : PStream U) (pe : PElement) (len : Z) : dec U PElement :=
  if pe_form pe =? PE_FORM_PRIM then
    if len =? PE_LEN_INDF then Val (ps_seterr ps PS_ERR_INDF None)
    else if len >? 0 then read_prim ps pe len
    else Val (Some pe, ps)
  else if pe_form pe =? PE_FORM_CONS then
    if negb (len =? 0) then
      ' (o, ps) <- ps_read_cons (fun ps => ps2pe_aux fuel ps 0 1) fuel ps len;;
      Val (match o with Some l => Some (set_cons pe l) | None => None end, ps)
    else Val (Some pe, ps)
  else Val (Some pe, ps).

Lemma ps2pe_aux_eq fuel (ps : PStream U) : ps2pe_aux (S fuel) ps 0 1 =
  (' (o, ps) <- ps_read_id (S fuel) ps 0;;
   match o with
   | None => Val (None, ps)
   | Some (class, form, id) =>
       match pe_alloc class form id with
       | None => Val (ps_seterr ps PS_ERR_NMEM None)
       | Some pe =>
           ' (o, ps) <- ps_read_len ps;;
           match o with
           | None => Val (None, ps)
           | Some len =>
               ' (o, ps) <- read_contents fuel ps (set_len pe len) len;;
               match o with None => Val (None, ps) | Some pe => Val (Some pe, ps) end
           end
       end
   end).
Proof. reflexivity. Qed.

(** A call at the top differs only at the end of the stream. *)
Lemma ps2pe_aux_top fuel ps : dec_pre ps ->
  match ps_input ps with
  | [] => exists ps', ps2pe_aux (S fuel) ps 1 1 = Val (None, ps') /\ ps_errno ps' = PS_ERR_NONE
  | _ :: _ => ps2pe_aux (S fuel) ps 1 1 = ps2pe_aux (S fuel) ps 0 1
  end.
Proof.
  intros D; pose proof (ps_read_id_top (S fuel) ps D) as T; rewrite ps2pe_aux_eq.
  assert (E : ps2pe_aux (S fuel) ps 1 1 =
    (' (o, ps) <- ps_read_id (S fuel) ps 1;;
     match o with
     | None => Val (None, ps)
     | Some (class, form, id) =>
         match pe_alloc class form id with
         | None => Val (ps_seterr ps PS_ERR_NMEM None)
         | Some pe =>
             ' (o, ps) <- ps_read_len ps;;
             match o with
             | None => Val (None, ps)
             | Some len =>
                 ' (o, ps) <- read_contents fuel ps (set_len pe len) len;;
                 match o with None => Val (None, ps) | Some pe => Val (Some pe, ps) end
             end
         end
     end)).
  { cbn [ps2pe_aux]; unfold ps_prime; rewrite ps_prime_none; reflexivity. }
  destruct (ps_input ps) as [|c l]; [|rewrite E, T; reflexivity].
  destruct T as (ps' & R & N); exists ps'; rewrite E, R; auto.
Qed.

Lemma read_prim_sound ps pe len : dec_pre ps -> 0 < len <= INT_MAX ->
  pe_result ps (read_prim ps pe len)
    (fun q d => zlen d = len /\
       (q = set_prim pe (Some d) \/ q = set_prim (set_inline pe 1) (Some d))).
Proof.
  intros D L; unfold read_prim; destruct (Z.eqb_spec (ps_inline ps) 0) as [Ei|Ei]; cbn [negb].
  - destruct (malloc_int len) eqn:Em; [|left; split; [apply (malloc_int_false len); [lia | exact Em] | reflexivity]].
    right; destruct (read_moved ps len D ltac:(lia)) as (o & ps' & E & R); rewrite E; cbn [cbind].
    destruct o as [d|].
    + exists (Some (set_prim pe (Some d))), ps'; split; [reflexivity|]; exists d; tauto.
    + exists None, ps'; split; [reflexivity|]; destruct R as [-> _]; discriminate.
  - right; pose proof (ps_advance_law ps len ltac:(lia) (proj1 (proj1 (proj1 D))) Ei (proj2 (proj1 (proj1 D)) Ei)) as A.
    destruct (Z.leb_spec len (zlen (ps_input_of (ps_un ps)))).
    + destruct A as (u & -> & R & I); cbn [cbind]; set (d := ztake len (ps_input_of (ps_un ps))) in *.
      assert (Ld : zlen d = len) by (apply zlen_ztake; lia).
      eexists _, _; split; [reflexivity|]; exists d; split; [|auto].
      apply moved_to; [exact D | | split; [split; [exact R | apply D] | apply i32_range] | rewrite Ld; reflexivity | split; reflexivity].
      unfold ps_input; simpl; rewrite I; symmetry; apply ztake_zdrop.
    + rewrite A; cbn [cbind]; exists None; eexists; split; [reflexivity | discriminate].
Qed.

Lemma read_contents_sound fuel ps pe len class form id io lo :
  (forall ps, dec_pre ps -> (length (ps_input ps) < fuel)%nat -> pe_result ps (ps2pe_aux fuel ps 0 1) element_of) ->
  dec_pre ps -> (length (ps_input ps) < fuel)%nat -> 0 <= class < 4 -> 0 <= form < 2 ->
  id_octs class form id io -> len_octs len lo ->
  pe = mkPE 0 0 class form id len 0 None [] 0 0 None 0 0 ->
  pe_result ps (read_contents fuel ps pe len) (fun p os => element_of p (io ++ lo ++ os)).
Proof.
  intros IH D F C Fo Oi Ol ->; unfold read_contents, element_of; cbn [pe_form].
  pose proof (id_octs_range _ _ _ _ Oi) as [Ri _]; pose proof (len_octs_range _ _ Ol) as [Rl _].
  assert (form = 0 \/ form = 1) as [-> | ->] by lia; simpl Z.eqb; cbn match.
  - destruct (Z.eqb_spec len PE_LEN_INDF) as [El|El].
    { right; exists None; eexists; split; [reflexivity | discriminate]. }
    rewrite Z.gtb_ltb; destruct (Z.ltb_spec 0 len).
    + destruct (read_prim_sound ps (mkPE 0 0 class 0 id len 0 None [] 0 0 None 0 0) len D) as [R|(o & ps' & E & R)];
        [unfold is_int in Rl; lia | left; exact R|].
      rewrite E; right; exists o, ps'; split; [reflexivity|]; destruct o as [q|]; [|exact R].
      destruct R as (d & M & Ld & Q); exists d; split; [exact M|].
      assert (Bd : bytes d).
      { destruct D as (_ & B & _); rewrite (proj1 M) in B; apply bytes_app in B; tauto. }
      unfold is_int in Rl.
      destruct Q as [-> | ->]; (split; [apply (enc_prim class id d io lo); [exact C | exact Oi | rewrite Ld; exact Ol]|]);
        apply decoded_leaf; try reflexivity; try assumption; left; unfold data_ok; simpl;
        (split; [symmetry; exact Ld|]); (split; [lia | exact Bd]).
    + right; eexists _, ps; split; [reflexivity|]; exists []; split; [apply moved_refl, D|]; simpl.
      destruct (Z.eqb_spec len 0) as [->|].
      * split; [apply enc_prim; assumption|]; apply decoded_leaf; try reflexivity; try assumption.
        left; unfold data_ok, INT_MAX; simpl; repeat split; try constructor; discriminate.
      * rewrite app_nil_r; unfold PE_LEN_INDF in *; split; [apply (enc_negative class id len); try assumption; unfold PE_LEN_INDF; lia|].
        apply decoded_leaf; try reflexivity; try assumption; right; unfold PE_LEN_INDF; simpl; split; [lia | reflexivity].
  - destruct (Z.eqb_spec len 0) as [->|El]; cbn [negb].
    { right; eexists _, ps; split; [reflexivity|]; exists []; split; [apply moved_refl, D|]; simpl.
      split; [apply (enc_definite class id [] [] io lo); auto | apply decoded_node; auto]. }
    destruct (ps_read_cons_sound (fun ps => ps2pe_aux fuel ps 0 1) (pred fuel)) with (ps := ps) (fuel := fuel) (len := len)
      as [[O E]|(o & ps' & E & R)]; try assumption; try lia.
    { intros ps0 D0 L0; apply IH; [exact D0 | lia]. }
    { rewrite E; left; auto. }
    rewrite E; right; cbn [cbind]; eexists _, ps'; split; [reflexivity|]; destruct o as [l|]; [|exact R].
    destruct R as (os & M & Dl & [(-> & oss & e & eo & -> & Fs & Ne & Ee & Eo)|(oss & -> & -> & Fs)]);
      exists os || idtac.
    + eexists; split; [exact M|]; split; [|apply decoded_node; auto]; simpl.
      apply (enc_indefinite class id (map pe_value l) oss e eo io lo); assumption.
    + eexists; split; [exact M|]; split; [|apply decoded_node; auto]; simpl.
      apply (enc_definite class id (map pe_value l) oss io lo); assumption.
Qed.

(** Soundness: what [ps2pe_aux] returns is what the octets it took encode. *)
Lemma ps2pe_aux_sound fuel : forall ps, dec_pre ps -> (length (ps_input ps) < fuel)%nat ->
  pe_result ps (ps2pe_aux fuel ps 0 1) element_of.
Proof.
  induction fuel as [|fuel IH]; intros ps D F; [lia|]; rewrite ps2pe_aux_eq.
  destruct (ps_read_id_sound (S fuel) ps D F) as (o & ps1 & E & R); rewrite E; cbn [cbind].
  destruct o as [[[class form] id]|]; [|right; exists None, ps1; auto].
  destruct R as (io & M & C & Fo & Oi); pose proof (moved_length _ _ _ M) as L1.
  pose proof (proj2 (id_octs_range _ _ _ _ Oi)); unfold pe_alloc.
  destruct (pe_pool_ok class form id); [|right; exists None; eexists; split; [reflexivity | discriminate]].
  destruct (ps_read_len_sound ps1 (proj2 (proj2 (proj2 M)))) as (o & ps2 & E2 & R2); rewrite E2; cbn [cbind].
  destruct o as [len|]; [|right; exists None, ps2; auto]; destruct R2 as (lo & M2 & Ol).
  pose proof (moved_length _ _ _ M2) as L2.
  apply (pe_result_app ps ps1 io _ _ M), (pe_result_app ps1 ps2 lo _ _ M2).
  destruct (read_contents_sound fuel ps2 (set_len (mkPE 0 0 class form id 0 0 None [] 0 0 None 0 0) len)
    len class form id io lo IH) as [[O E3]|(o & ps3 & E3 & R3)]; try assumption; try reflexivity; try lia.
  { apply M2. }
  { rewrite E3; left; auto. }
  rewrite E3; right; cbn [cbind]; exists o, ps3; split; [destruct o; reflexivity | exact R3].
Qed.
End Soundness.

Section Completeness.
Context `{Allocator} {U : Type} `{PSReader U}.
Hypothesis memory : memory_ok.
Hypothesis pool : pool_ok.

(** [r] decodes the octets [os] to the value [v]. *)
Definition decodes (ps : PStream U) (r : dec U PElement) (v : pvalue) (os : list Z) : Prop :=
  exists p, pe_value p = v /\ dec_known ps r os p.

Section Loops.
Variable next : PStream U -> dec U PElement.
Variable n : nat.
Hypothesis next_complete : forall v os ps rest, enc v os -> (length os <= n)%nat -> dec_pre ps ->
  ps_input ps = os ++ rest -> decodes ps (next ps) v os.

Lemma next_known v os ps rest : enc v os -> (length os <= n)%nat -> dec_pre ps -> ps_input ps = os ++ rest ->
  exists p ps', pe_value p = v /\ next ps = Val (Some p, ps') /\ moved ps ps' os /\ ps_input ps' = rest.
Proof.
  intros E L D I; destruct (next_complete v os ps rest E L D I) as (p & V & K).
  destruct (dec_known_input ps _ os p rest I K) as (ps' & R); exists p, ps'; auto.
Qed.

Lemma read_defn_complete vs oss : Forall2 enc vs oss -> forall fuel ps cc acc rest, dec_pre ps ->
  ps_input ps = concat oss ++ rest -> (length (concat oss) <= n)%nat -> (length (concat oss) < fuel)%nat ->
  cc = ps_byteno ps + zlen (concat oss) ->
  exists l, map pe_value l = vs /\ dec_known ps (read_defn next fuel ps cc acc) (concat oss) (acc ++ l).
Proof.
  induction 1 as [|v os vs oss E _ IH]; intros [|fuel] ps cc acc rest D I L F Ecc; try (simpl in F; lia);
    cbn [read_defn concat] in *.
  - change (zlen (@nil Z)) with 0 in Ecc; rewrite (proj2 (Z.ltb_ge cc _)), (proj2 (Z.eqb_eq cc _)) by lia.
    exists []; split; [reflexivity|]; exists ps; rewrite app_nil_r; split; [reflexivity | apply moved_refl, D].
  - rewrite length_app in *; rewrite zlen_app in Ecc; rewrite <- app_assoc in I.
    pose proof (enc_nonempty v os E); assert (0 < zlen os) by (unfold zlen; lia).
    pose proof (zlen_nonneg (concat oss)).
    rewrite (proj2 (Z.ltb_ge cc _)), (proj2 (Z.eqb_neq cc _)) by lia.
    destruct (next_known v os ps _ E ltac:(lia) D I) as (p & ps1 & V & R & M & I1); rewrite R; cbn [cbind].
    destruct (IH fuel ps1 cc (acc ++ [p]) rest) as (l & Vl & K); try (apply M || lia || exact I1).
    { rewrite (proj1 (proj2 M)); lia. }
    exists (p :: l); split; [simpl; congruence|]; rewrite <- app_assoc in K.
    exact (dec_known_app ps ps1 os _ _ _ M K).
Qed.

Lemma read_indf_complete vs oss e eo : Forall2 enc vs oss -> Forall (fun v => ~ eoc_value v) vs ->
  eoc_value e -> enc e eo -> forall fuel ps acc rest, dec_pre ps ->
  ps_input ps = concat oss ++ eo ++ rest -> (length (concat oss ++ eo) <= n)%nat ->
  (length (concat oss ++ eo) <= fuel)%nat ->
  exists l, map pe_value l = vs /\ dec_known ps (read_indf next fuel ps acc) (concat oss ++ eo) (acc ++ l).
Proof.
  intros F2 NE Ee Eo; induction F2 as [|v os vs oss E _ IH]; intros fuel ps acc rest D I L F;
    cbn [concat] in *.
  - pose proof (enc_nonempty e eo Eo); simpl in I, L, F; destruct fuel as [|fuel]; [lia|]; cbn [read_indf].
    destruct (next_known e eo ps rest Eo L D I) as (p & ps1 & V & R & M & _); rewrite R; cbn [cbind].
    rewrite <- V in Ee; apply eoc_value_spec in Ee; rewrite Ee; exists []; split; [reflexivity|].
    exists ps1; rewrite app_nil_r; split; [reflexivity | exact M].
  - inversion_clear NE as [|? ? Nv NE']; rewrite <- !app_assoc, ?length_app in *.
    pose proof (enc_nonempty v os E); destruct fuel as [|fuel]; [lia|]; cbn [read_indf].
    destruct (next_known v os ps _ E ltac:(lia) D I) as (p & ps1 & V & R & M & I1); rewrite R; cbn [cbind].
    destruct (is_eoc p) eqn:Ep; [apply eoc_value_spec in Ep; rewrite V in Ep; contradiction|].
    destruct (IH NE' fuel ps1 (acc ++ [p]) rest) as (l & Vl & K); rewrite ?length_app;
      try (apply M || lia || exact I1).
    exists (p :: l); split; [simpl; congruence|]; rewrite <- app_assoc in K.
    exact (dec_known_app ps ps1 os _ _ _ M K).
Qed.
End Loops.

Lemma read_prim_complete ps pe d rest : dec_pre ps -> ps_input ps = d ++ rest -> 0 < zlen d <= INT_MAX ->
  exists q, (q = set_prim pe (Some d) \/ q = set_prim (set_inline pe 1) (Some d)) /\
    dec_known ps (read_prim ps pe (zlen d)) d q.
Proof.
  intros D I L; destruct (read_prim_sound ps pe (zlen d) D L) as [[O _]|(o & ps' & E & R)].
  { exfalso; destruct O as [(m & _ & O)|(c & f & i & O)]; [rewrite memory in O | rewrite pool in O]; discriminate. }
  destruct o as [q|].
  - destruct R as (d' & M & Ld & Q); pose proof (proj1 M) as I'; rewrite I in I'.
    apply app_same_length in I' as [<- _]; [|lia]; exists q; split; [exact Q|]; exists ps'; auto.
  - exfalso; revert E; unfold read_prim; destruct (Z.eqb_spec (ps_inline ps) 0) as [Ei|Ei]; cbn [negb].
    + unfold malloc_int; rewrite int2sizet_Some, memory by lia.
      destruct (read_known ps d rest D I) as (ps1 & -> & _); discriminate.
    + pose proof (ps_advance_law ps (zlen d) ltac:(lia) (proj1 (proj1 (proj1 D))) Ei (proj2 (proj1 (proj1 D)) Ei)) as A.
      unfold ps_input in I; rewrite I, (proj2 (Z.leb_le _ _)) in A by (rewrite zlen_app; pose proof (zlen_nonneg rest); lia).
      destruct A as (u & -> & _); discriminate.
Qed.

(** The header of an element, decoded. *)
Lemma header_complete fuel ps class form id len io lo os rest : dec_pre ps ->
  ps_input ps = io ++ lo ++ os ++ rest -> (length io <= S fuel)%nat ->
  0 <= class < 4 -> 0 <= form < 2 -> id_octs class form id io -> len_octs len lo ->
  exists ps', moved ps ps' (io ++ lo) /\ ps_input ps' = os ++ rest /\
    forall p, dec_known ps' (read_contents fuel ps' (mkPE 0 0 class form id len 0 None [] 0 0 None 0 0) len) os p ->
      dec_known ps (ps2pe_aux (S fuel) ps 0 1) (io ++ lo ++ os) p.
Proof.
  intros D I F C Fo Oi Ol; rewrite ps2pe_aux_eq.
  destruct (dec_known_input ps _ io _ _ I (ps_read_id_complete (S fuel) ps 0 class form id io _ D I F C Fo Oi))
    as (ps1 & -> & M1 & I1); cbn [cbind].
  unfold pe_alloc; rewrite pool.
  destruct (dec_known_input ps1 _ lo _ _ I1 (ps_read_len_complete ps1 len lo _ (proj2 (proj2 (proj2 M1))) I1 Ol))
    as (ps2 & -> & M2 & I2); cbn [cbind].
  exists ps2; split; [eapply moved_trans; eauto|]; split; [exact I2|].
  intros p (ps3 & E & M3); unfold set_len; cbn [pe_errno pe_context pe_class pe_form pe_id pe_ilen pe_prim pe_cons pe_un2 pe_inline pe_realbase pe_offset pe_refcnt].
  rewrite E; cbn [cbind]; exists ps3; split; [reflexivity|].
  eapply moved_trans; [exact M1|]; eapply moved_trans; eauto.
Qed.

Definition complete_at (fuel : nat) : Prop :=
  forall v os ps rest, enc v os -> (length os <= fuel)%nat -> dec_pre ps ->
  ps_input ps = os ++ rest -> decodes ps (ps2pe_aux fuel ps 0 1) v os.

Lemma definite_complete fuel c i vs oss io lo ps rest : complete_at fuel -> 0 <= c < 4 ->
  id_octs c 1 i io -> len_octs (zlen (concat oss)) lo -> Forall2 enc vs oss ->
  (length (io ++ lo ++ concat oss) <= S fuel)%nat -> dec_pre ps ->
  ps_input ps = (io ++ lo ++ concat oss) ++ rest ->
  decodes ps (ps2pe_aux (S fuel) ps 0 1) (VCons c i vs) (io ++ lo ++ concat oss).
Proof.
  intros IH C Oi Ol Fs F D I.
  rewrite <- !app_assoc in I; rewrite !length_app in F.
  pose proof (id_octs_range _ _ _ _ Oi) as [_ Li]; pose proof (len_octs_range _ _ Ol) as [[_ Rl] Ll].
  destruct (header_complete fuel ps c 1 i (zlen (concat oss)) io lo (concat oss) rest) as (ps' & M & I' & K); auto; try lia.
  unfold read_contents in K; cbn [pe_form] in K; simpl Z.eqb in K; cbn match in K.
  inversion Fs as [E1 E2|v os vs' oss' Ev Fs' E1 E2]; subst vs oss; cbn [concat] in *.
  { change (zlen (@nil Z) =? 0) with true in K; cbn [negb] in K.
    eexists; split; [|apply K; eexists; split; [reflexivity | apply moved_refl, M]]; reflexivity. }
  pose proof (enc_nonempty v os Ev); rewrite length_app in F; rewrite <- app_assoc in I'.
  destruct (next_known (fun ps => ps2pe_aux fuel ps 0 1) fuel IH v os ps' _ Ev ltac:(lia) (proj2 (proj2 (proj2 M))) I')
    as (p & ps1 & V & R & M1 & I1).
  assert (Zo : 0 < zlen os) by (unfold zlen; lia); pose proof (zlen_nonneg (concat oss')) as Zo'.
  rewrite zlen_app in K, Rl; rewrite (proj2 (Z.eqb_neq _ 0)) in K by lia; cbn [negb] in K.
  unfold ps_read_cons in K; rewrite R in K; cbn [cbind] in K; unfold PE_LEN_INDF in K.
  rewrite (proj2 (Z.eqb_neq _ (-1))) in K by lia.
  assert (Cc : i32 (ps_byteno ps' + (zlen os + zlen (concat oss'))) = ps_byteno ps1 + zlen (concat oss')).
  { destruct M as (_ & _ & _ & (_ & _ & B0 & B1)); rewrite I', !zlen_app in B1; pose proof (zlen_nonneg rest).
    rewrite (proj1 (proj2 M1)), i32_id; [lia | unfold is_int, INT_MIN; lia]. }
  rewrite Cc in K.
  destruct (read_defn_complete (fun ps => ps2pe_aux fuel ps 0 1) fuel IH vs' oss' Fs' fuel ps1 _ [p] rest
    (proj2 (proj2 (proj2 M1))) I1 ltac:(lia) ltac:(lia) eq_refl) as (l & Vl & (ps2 & R2 & M2)).
  rewrite R2 in K; cbn [cbind] in K.
  eexists; split; [|apply K; eexists; split; [reflexivity | eapply moved_trans; eauto]].
  simpl; rewrite V, Vl; reflexivity.
Qed.

Lemma indefinite_complete fuel c i vs oss e eo io lo ps rest : complete_at fuel -> 0 <= c < 4 ->
  id_octs c 1 i io -> len_octs PE_LEN_INDF lo -> Forall2 enc vs oss ->
  Forall (fun v => ~ eoc_value v) vs -> eoc_value e -> enc e eo ->
  (length (io ++ lo ++ concat oss ++ eo) <= S fuel)%nat -> dec_pre ps ->
  ps_input ps = (io ++ lo ++ concat oss ++ eo) ++ rest ->
  decodes ps (ps2pe_aux (S fuel) ps 0 1) (VCons c i vs) (io ++ lo ++ concat oss ++ eo).
Proof.
  intros IH C Oi Ol Fs Ne Ee Eo F D I.
  rewrite <- !app_assoc in I; rewrite !length_app in F.
  pose proof (id_octs_range _ _ _ _ Oi) as [_ Li]; pose proof (len_octs_range _ _ Ol) as [_ Ll].
  destruct (header_complete fuel ps c 1 i PE_LEN_INDF io lo (concat oss ++ eo) rest) as (ps' & M & I' & K); auto; try lia.
  { rewrite <- app_assoc; exact I. }
  unfold read_contents, ps_read_cons in K; cbn [pe_form] in K; simpl Z.eqb in K; cbn match in K; cbn [negb] in K.
  rewrite <- app_assoc in I'.
  inversion Fs as [E1 E2|v os vs' oss' Ev Fs' E1 E2]; subst vs oss; cbn [concat] in *.
  + destruct (next_known (fun ps => ps2pe_aux fuel ps 0 1) fuel IH e eo ps' _ Eo ltac:(simpl in *; lia) (proj2 (proj2 (proj2 M))) I')
      as (p & ps1 & V & R & M1 & I1).
    rewrite R in K; cbn [cbind] in K; rewrite <- V in Ee; apply eoc_value_spec in Ee; rewrite Ee in K; cbn [cbind] in K.
    eexists; split; [|apply K; eexists; split; [reflexivity | exact M1]]; reflexivity.
  + inversion_clear Ne as [|? ? Nv Ne']; rewrite length_app in F; rewrite <- app_assoc in I'.
    destruct (next_known (fun ps => ps2pe_aux fuel ps 0 1) fuel IH v os ps' _ Ev ltac:(lia) (proj2 (proj2 (proj2 M))) I')
      as (p & ps1 & V & R & M1 & I1).
    rewrite R in K; cbn [cbind] in K.
    destruct (is_eoc p) eqn:Ep; [apply eoc_value_spec in Ep; rewrite V in Ep; contradiction|].
    destruct (read_indf_complete (fun ps => ps2pe_aux fuel ps 0 1) fuel IH vs' oss' e eo Fs' Ne' Ee Eo fuel ps1 [p] rest
      (proj2 (proj2 (proj2 M1))) I1 ltac:(rewrite length_app; lia) ltac:(rewrite length_app; lia)) as (l & Vl & (ps2 & R2 & M2)).
    rewrite R2 in K; cbn [cbind] in K; rewrite <- app_assoc in K |- *.
    eexists; split; [|apply K; eexists; split; [reflexivity | eapply moved_trans; eauto]].
    simpl; rewrite V, Vl; reflexivity.
Qed.

(** Completeness: every encoding is decoded. *)
Lemma ps2pe_aux_complete fuel : complete_at fuel.
Proof.
  induction fuel as [|fuel IH]; intros v os ps rest E F D I; [apply enc_nonempty in E; lia|].
  destruct E as [c i d io lo C Oi Ol|c i len io lo C Oi Ol N|c i vs oss io lo C Oi Ol Fs|c i vs oss e eo io lo C Oi Ol Fs Ne Ee Eo].
  - rewrite <- !app_assoc in I; rewrite !length_app in F; pose proof (len_octs_range _ _ Ol) as [[_ Rl] _].
    destruct (header_complete fuel ps c 0 i (zlen d) io lo d rest) as (ps' & M & I' & K); auto; try lia.
    unfold read_contents in K; cbn [pe_form] in K; simpl Z.eqb in K; cbn match in K.
    pose proof (zlen_nonneg d) as Zd; unfold PE_LEN_INDF in K; rewrite (proj2 (Z.eqb_neq _ (-1))), Z.gtb_ltb in K by lia.
    destruct (Z.ltb_spec 0 (zlen d)).
    + destruct (read_prim_complete ps' (mkPE 0 0 c 0 i (zlen d) 0 None [] 0 0 None 0 0) d rest) as (q & Q & Kq);
        [apply M | exact I' | lia|].
      exists q; split; [destruct Q as [-> | ->]; reflexivity | apply K, Kq].
    + assert (d = []) as -> by (apply zlen_0; lia).
      eexists; split; [|apply K; eexists; split; [reflexivity | apply moved_refl, M]]; reflexivity.
  - rewrite <- !app_assoc in I; rewrite !length_app in F.
    destruct (header_complete fuel ps c 0 i len io lo [] rest) as (ps' & M & I' & K); auto; try lia.
    unfold read_contents, PE_LEN_INDF in *; cbn [pe_form] in K; simpl Z.eqb in K; cbn match in K.
    rewrite (proj2 (Z.eqb_neq _ (-1))), Z.gtb_ltb, (proj2 (Z.ltb_ge 0 _)), app_nil_r in K by lia.
    eexists; split; [|apply K; eexists; split; [reflexivity | apply moved_refl, M]]; reflexivity.
  - apply definite_complete with rest; assumption.
  - apply (indefinite_complete fuel c i vs oss e eo io lo ps rest); assumption.
Qed.
End Completeness.

(** ** The reference encoding is one of them *)

(** No member of a constructor looks like end-of-contents, and nothing is
    encoded already. *)
Fixpoint plain (v : pvalue) : Prop :=
  match v with
  | VPrim _ _ _ => True
  | VInline _ _ _ _ => False
  | VCons _ _ l => Forall (fun w => ~ eoc_value w) l /\ fold_right and True (map plain l)
  end.

Lemma ident_id_octs class form id : 0 <= id < 16384 -> id_octs class form id (ident class form id).
Proof.
  intros I; unfold ident; destruct (Z.ltb_spec id 31); [constructor; lia|].
  destruct (Z.ltb_spec id 128).
  - apply id_high; change id with (0 * 128 + id) at 1; constructor; lia.
  - div_facts id 128; apply id_high, groups_more; [lia | lia|].
    replace id with ((0 * 128 + id / 128) * 128 + id mod 128) at 2 by lia; constructor; lia.
Qed.

Lemma lenoct_len_octs n : 0 <= n <= INT_MAX -> len_octs n (lenoct n).
Proof.
  intros R; unfold lenoct; destruct (Z.ltb_spec n 128); [constructor; lia|].
  assert (E : forall os, 1 <= zlen os <= 4 -> bytes os -> be os = n -> len_octs n ((128 + zlen os) :: os)).
  { intros os Z B <-; rewrite <- (i32_id (be os)) at 1 by (unfold is_int, INT_MIN; lia); constructor; assumption. }
  assert (D1 : n / 256 / 256 = n / 65536) by (rewrite Z.div_div by lia; reflexivity).
  assert (D2 : n / 65536 / 256 = n / 16777216) by (rewrite Z.div_div by lia; reflexivity).
  pose proof (Z.div_mod n 256 ltac:(lia)); pose proof (Z.div_mod (n / 256) 256 ltac:(lia)).
  pose proof (Z.div_mod (n / 65536) 256 ltac:(lia)).
  assert (Q : forall k, 0 < k -> n < k * 256 -> is_byte (n / k)).
  { intros k Hk Hn; split; [apply Z.div_pos; lia | apply Z.div_lt_upper_bound; lia]. }
  unfold INT_MAX in R.
  destruct (Z.ltb_spec n 256); [|destruct (Z.ltb_spec n 65536); [|destruct (Z.ltb_spec n 16777216)]].
  - apply (E [n]); [zlen | repeat constructor; lia | reflexivity].
  - apply (E [n / 256; n mod 256]); [zlen | | unfold be; simpl fold_left; lia].
    repeat constructor; (apply (Q 256) || apply byte_mod); lia.
  - apply (E [n / 65536; n / 256 mod 256; n mod 256]); [zlen | | unfold be; simpl fold_left; lia].
    repeat constructor; (apply (Q 65536) || apply byte_mod); lia.
  - apply (E [n / 16777216; n / 65536 mod 256; n / 256 mod 256; n mod 256]); [zlen | | unfold be; simpl fold_left; lia].
    repeat constructor; (apply (Q 16777216) || apply byte_mod); lia.
Qed.

Lemma ber_enc s v : tags14 v -> plain v -> zlen (ber s v) <= INT_MAX -> enc v (ber s v).
Proof.
  induction v as [c i d|c i n d|c i l IH] using pvalue_tree_ind; intros T P L; cbn [ber] in *; [|easy|].
  - destruct T as [C I]; rewrite !zlen_app in L.
    pose proof (zlen_nonneg (ident c 0 i)); pose proof (zlen_nonneg (lenoct (zlen d))).
    apply enc_prim; [exact C | apply ident_id_octs, I | apply lenoct_len_octs; pose proof (zlen_nonneg d); lia].
  - destruct T as [[C I] T], P as [NE P]; apply fold_and in T; apply fold_and in P; rewrite zlen_app in L.
    pose proof (zlen_nonneg (ident c 1 i)); pose proof (wrap_body s (concat (map (ber s) l))) as W.
    assert (F : Forall2 enc l (map (ber s) l)).
    { assert (Lb : zlen (concat (map (ber s) l)) <= INT_MAX) by lia; clear - IH T P Lb.
      induction IH as [|v l Hv _ IHl]; simpl in *; constructor; inversion_clear T; inversion_clear P;
        rewrite zlen_app in Lb; pose proof (zlen_nonneg (ber s v)); pose proof (zlen_nonneg (concat (map (ber s) l)));
        [apply Hv | apply IHl]; auto; lia. }
    pose proof (zlen_nonneg (concat (map (ber s) l))); unfold wrap in *.
    destruct (definite s (zlen (concat (map (ber s) l)))).
    + apply enc_definite; auto using ident_id_octs; apply lenoct_len_octs; lia.
    + apply (enc_indefinite c i l (map (ber s) l) (VPrim 0 0 []) [0; 0] (ident c 1 i) [128]); auto using ident_id_octs.
      * constructor.
      * split; reflexivity.
      * apply (enc_prim 0 0 [] [0] [0]); [lia | apply (id_low 0 0 0); lia | constructor; cbn; lia].
Qed.

(** The encoding consists of octets. *)
Lemma ident_bytes class form id : 0 <= class < 4 -> 0 <= form < 2 -> 0 <= id < 16384 -> bytes (ident class form id).
Proof.
  intros C F I.
  assert (H : forall c, 0 <= c < 32 -> is_byte (class * 64 + form * 32 + c)) by (unfold is_byte; lia).
  assert (D : is_byte (128 + id / 128)) by (unfold is_byte; div_facts id 128; lia).
  unfold ident; destruct (Z.ltb_spec id 31); [|destruct (Z.ltb_spec id 128)]; rewrite !bytes_cons.
  - split; [apply H; lia | constructor].
  - split; [apply H; lia|]; split; [unfold is_byte; lia | constructor].
  - split; [apply H; lia|]; split; [exact D|]; split; [apply septet_mod | constructor].
Qed.

Lemma lenoct_bytes n : 0 <= n <= INT_MAX -> bytes (lenoct n).
Proof.
  intros R; destruct (lenoct_len_octs n R) as [n' B| |os Z B].
  - repeat constructor; unfold is_byte; lia.
  - repeat constructor; unfold is_byte; lia.
  - constructor; [unfold is_byte; lia | exact B].
Qed.

Lemma wrap_bytes s body : bytes body -> zlen body <= INT_MAX -> bytes (wrap s body).
Proof.
  intros B L; unfold wrap; pose proof (zlen_nonneg body).
  destruct (definite s (zlen body)); rewrite !bytes_app.
  - split; [apply lenoct_bytes; lia | exact B].
  - split; [|split; [exact B|]]; repeat constructor; unfold is_byte; lia.
Qed.

Lemma ber_bytes s p : pe_ok p -> tags14 (pe_value p) -> zlen (ber s (pe_value p)) <= INT_MAX ->
  bytes (ber s (pe_value p)).
Proof.
  induction p as [p IH] using PElement_tree_ind; intros O T L.
  destruct (pe_form_cases p O) as [F|[F|F]].
  - destruct (pe_ok_leaf p O) as (_ & _ & (E & M & B) & _); [rewrite F; discriminate|].
    rewrite (pe_value_prim p F) in *; destruct T as [C I]; cbn [ber] in *; pose proof (zlen_nonneg (pe_data p)).
    apply bytes_app; split; [apply ident_bytes; lia|]; apply bytes_app; split; [apply lenoct_bytes; lia | exact B].
  - destruct (pe_ok_leaf p O) as (_ & _ & (_ & _ & B) & _); [rewrite F; discriminate|].
    rewrite (pe_value_icons p F) in *; exact B.
  - destruct (pe_ok_node p O F) as (_ & _ & M); rewrite (pe_value_cons p F) in *.
    destruct T as [[C I] T]; apply fold_and in T; cbn [ber] in *; fold (ber_list s (pe_cons p)) in *; rewrite zlen_app in L.
    pose proof (wrap_body s (ber_list s (pe_cons p))); pose proof (zlen_nonneg (ident (pe_class p) 1 (pe_id p))).
    apply bytes_app; split; [apply ident_bytes; lia|]; apply wrap_bytes; [|lia].
    assert (Lb : zlen (ber_list s (pe_cons p)) <= INT_MAX) by lia; clear - IH T M Lb; unfold ber_list in *.
    induction IH as [|q l Q _ IHl]; simpl in *; [constructor|].
    inversion_clear T; inversion_clear M; rewrite zlen_app in Lb.
    pose proof (zlen_nonneg (ber s (pe_value q))); pose proof (zlen_nonneg (concat (map (ber s) (map pe_value l)))).
    apply bytes_app; split; [apply Q | apply IHl]; auto; lia.
Qed.

(** * The properties of the decoder *)

(** The outcome of [ps2pe] on the octets [input]. *)
Definition decoder_outcome `{Allocator} {U} `{PSReader U} (ps : PStream U) (r : dec U PElement) : Prop :=
  exists o ps', r = Val (o, ps') /\
  match o with
  | Some p => exists os, moved ps ps' os /\ enc (pe_value p) os /\ decoded p
  | None => ps_errno ps' <> PS_ERR_NONE \/ ps_input ps = []
  end.

Lemma ps2pe_sound `{Allocator} {U} `{PSReader U} (ps : PStream U) fuel : dec_pre ps ->
  (length (ps_input ps) < fuel)%nat ->
  (out_of_memory /\ ps2pe fuel ps = UB) \/ decoder_outcome ps (ps2pe fuel ps).
Proof.
  intros D F; destruct fuel as [|fuel]; [lia|]; unfold ps2pe, decoder_outcome.
  pose proof (ps2pe_aux_top fuel ps D) as T; destruct (ps2pe_aux_sound (S fuel) ps D F) as [[O E]|(o & ps' & E & R)];
    destruct (ps_input ps) as [|c l] eqn:I.
  - right; destruct T as (ps' & -> & _); exists None, ps'; auto.
  - left; rewrite T; auto.
  - right; destruct T as (ps1 & -> & _); exists None, ps1; auto.
  - right; rewrite T; exists o, ps'; split; [exact E|]; destruct o; [exact R | auto].
Qed.

Lemma ps2pe_complete `{Allocator} {U} `{PSReader U} (ps : PStream U) fuel v os rest :
  memory_ok -> pool_ok -> enc v os -> (length os <= fuel)%nat -> dec_pre ps -> ps_input ps = os ++ rest ->
  exists p ps', ps2pe fuel ps = Val (Some p, ps') /\ pe_value p = v /\ moved ps ps' os /\ ps_input ps' = rest.
Proof.
  intros M P E L D I; pose proof (enc_nonempty v os E) as N; destruct fuel as [|fuel]; [lia|].
  destruct (ps2pe_aux_complete M P (S fuel) v os ps rest E L D I) as (p & V & K).
  destruct (dec_known_input ps _ os p rest I K) as (ps' & R & M' & I').
  exists p, ps'; split; [|auto]; unfold ps2pe; pose proof (ps2pe_aux_top fuel ps D) as T.
  rewrite I in T; destruct os as [|o os]; [simpl in N; lia|]; cbn [app] in T; rewrite T; exact R.
Qed.

(** C21. The decoder is total and safe: on any octets whatever, with fuel for the
    length of the input, it either returns an element, having read exactly an
    encoding of it, or reports an error (the clean end of the stream apart);
    it never reads outside its buffers, and aborts only for want of memory. *)
Theorem ps2pe_total : forall (A : Allocator) (U : Type) (O : PSOps U) (R : PSReader U) (ps : PStream U) fuel,
  dec_pre ps -> (length (ps_input ps) < fuel)%nat ->
  (out_of_memory /\ ps2pe fuel ps = UB) \/
  exists o ps', ps2pe fuel ps = Val (o, ps') /\
    match o with
    | Some p => exists os, ps_input ps = os ++ ps_input ps' /\ ps_byteno ps' = ps_byteno ps + zlen os /\
        enc (pe_value p) os /\ decoded p
    | None => ps_errno ps' <> PS_ERR_NONE \/ ps_input ps = []
    end.
Proof.
  intros A U O R ps fuel D F; destruct (ps2pe_sound ps fuel D F) as [E|(o & ps' & E & C)]; [auto|].
  right; exists o, ps'; split; [exact E|]; destruct o as [p|]; [|exact C].
  destruct C as (os & (I & B & _) & C); exists os; auto.
Qed.

(** C17. The decoder recognises exactly its grammar: with memory granted it
    succeeds if and only if some prefix of the input is an encoding, and then
    the value and the octets taken are those of that encoding. *)
Theorem ps2pe_decides_grammar : forall (A : Allocator) (U : Type) (O : PSOps U) (R : PSReader U) (ps : PStream U) fuel,
  memory_ok -> pool_ok -> dec_pre ps -> (length (ps_input ps) < fuel)%nat ->
  exists o ps', ps2pe fuel ps = Val (o, ps') /\
    forall v rest, (exists os, ps_input ps = os ++ rest /\ enc v os) <->
                   (option_map pe_value o = Some v /\ ps_input ps' = rest).
Proof.
  intros A U O R ps fuel M P D F; destruct (ps2pe_sound ps fuel D F) as [[E _]|(o & ps' & E & C)].
  { exfalso; destruct E as [(n & _ & E)|(c & f & i & E)]; [rewrite M in E | rewrite P in E]; discriminate. }
  exists o, ps'; split; [exact E|]; intros v rest; split.
  - intros (os & I & En); destruct (ps2pe_complete ps fuel v os rest M P En) as (p & ps1 & E1 & V & _ & I1); auto.
    { rewrite I, length_app in F; lia. }
    rewrite E in E1; injection E1 as -> ->; simpl; split; congruence.
  - destruct o as [p|]; intros [Ev Ir]; [|discriminate]; injection Ev as <-.
    destruct C as (os & (I & _) & En & _); exists os; rewrite <- Ir; auto.
Qed.

(** C18. Round trip: what [pe2ps] writes on a string stream, followed by anything,
    [ps2pe] reads back from a string stream, copied or in line: the element
    has the same abstract value and the octets that follow are left unread. *)
Theorem ps2pe_pe2ps : forall (A : Allocator) s p rest in_line, memory_ok -> pool_ok ->
  pe_ok p -> tags14 (pe_value p) -> plain (pe_value p) -> bytes rest ->
  2 * zlen (ber s (pe_value p) ++ rest) + 3 * BUFSIZ <= INT_MAX ->
  exists ps1 p1 ps2 q ps3,
    pe2ps s str_stream p = Val (OK, ps1, p1) /\
    str_setup str_stream (Some (str_output (ps_un ps1) ++ rest)) (zlen (str_output (ps_un ps1) ++ rest)) in_line
      = Val (OK, ps2) /\
    ps2pe (S (length (str_output (ps_un ps1) ++ rest))) ps2 = Val (Some q, ps3) /\
    pe_value q = pe_value p /\ ps_input ps3 = rest.
Proof.
  intros A s p rest i M P Op T Pl Br L; pose proof (zlen_nonneg (ber s (pe_value p) ++ rest)) as N.
  assert (Lb : zlen (ber s (pe_value p)) <= zlen (ber s (pe_value p) ++ rest)) by (rewrite zlen_app; pose proof (zlen_nonneg rest); lia).
  destruct (pe2ps_result s str_stream p Op T) as (ws & p1 & E & V & _ & E1); [unfold BUFSIZ in L; lia|].
  destruct (str_write_all ws str_stream M eq_refl I) as (ps1 & W & _ & _ & _ & O1);
    [discriminate | reflexivity | rewrite E; cbn [str_stream ps_un ps_ptr]; lia |].
  rewrite W in E1; rewrite E in O1; exists ps1, p1; rewrite O1; change (str_output (ps_un str_stream) ++ ber s (pe_value p)) with (ber s (pe_value p)).
  destruct (str_setup_input (ber s (pe_value p) ++ rest) i (or_intror M)) as (ps2 & S2 & R2 & B2 & _ & _ & I2);
    [unfold BUFSIZ in L; lia|].
  destruct (ps2pe_complete ps2 (S (length (ber s (pe_value p) ++ rest))) (pe_value p) (ber s (pe_value p)) rest M P)
    as (q & ps3 & E3 & V3 & _ & I3).
  - apply ber_enc; auto; unfold BUFSIZ in L; lia.
  - rewrite length_app; lia.
  - assert (I2' : ps_input ps2 = ber s (pe_value p) ++ rest) by exact I2.
    split; [split; [split; [exact R2 | easy] | rewrite B2; cbv; easy]|]; rewrite B2, I2'; split; [|unfold BUFSIZ in L; lia].
    apply bytes_app; split; [apply ber_bytes; auto; unfold BUFSIZ in L; lia | exact Br].
  - exact I2.
  - exists ps2, q, ps3; split; [exact E1 | auto].
Qed.

(** A length of four octets with the top bit set is read as a negative
    number: a primitive of length -2 without contents is accepted. *)
Theorem ps2pe_negative_length : forall (A : Allocator), pool_ok ->
  forall b ps, str_setup str_stream (Some (4 :: 132 :: 255 :: 255 :: 255 :: 254 :: b)) (6 + zlen b) 1 = Val (OK, ps) ->
  bytes b -> zlen b <= INT_MAX - 6 ->
  exists p ps', ps2pe 7 ps = Val (Some p, ps') /\ pe_len p = -2 /\ pe_prim p = None /\ ps_input ps' = b.
Proof.
  intros A P b ps S B L; unfold str_setup in S; cbn [negb Z.eqb] in S.
  assert (E : ps = mkPS 0 1 0 (mkStr (Some (4 :: 132 :: 255 :: 255 :: 255 :: 254 :: b)) (6 + zlen b) 0 (6 + zlen b)))
    by (injection S as <-; reflexivity); clear S.
  pose proof (zlen_nonneg b).
  assert (I : ps_input ps = [4] ++ [132; 255; 255; 255; 254] ++ [] ++ b).
  { rewrite E; change (ps_input ?q) with (str_input (ps_un q)); unfold str_input; cbn [ps_un ps_base ps_cnt ps_ptr].
    rewrite (proj2 (Z.leb_gt _ 0)) by lia; reflexivity. }
  assert (D : dec_pre ps).
  { unfold dec_pre; rewrite I, E; split; [split|]; cbn [ps_byteno]; [|cbv; easy|].
    - split; [|easy]; change (str_rok (mkStr (Some (4 :: 132 :: 255 :: 255 :: 255 :: 254 :: b)) (6 + zlen b) 0 (6 + zlen b))).
      unfold str_rok; cbn [ps_base ps_cnt ps_ptr]; rewrite !zlen_cons; lia.
    - cbn [app]; split; [repeat constructor; try (unfold is_byte; lia); exact B|]; rewrite !zlen_cons; lia. }
  destruct (header_complete P 6 ps 0 0 4 (-2) [4] [132; 255; 255; 255; 254] [] b D I) as (ps' & M & I' & K);
    try (simpl; lia).
  - apply (id_low 0 0 4); lia.
  - change (-2) with (i32 (be [255; 255; 255; 254])); change 132 with (128 + zlen [255; 255; 255; 254]).
    apply len_long; [cbn; lia | repeat constructor; unfold is_byte; lia].
  - pose proof (ps2pe_aux_top 6 ps D) as T; rewrite I in T; cbn [app] in T.
    destruct (K (mkPE 0 0 0 0 4 (-2) 0 None [] 0 0 None 0 0)) as (ps2 & E2 & M2).
    { exists ps'; split; [reflexivity | apply moved_refl, M]. }
    exists (mkPE 0 0 0 0 4 (-2) 0 None [] 0 0 None 0 0), ps2; unfold ps2pe; rewrite T.
    repeat split; try exact E2; destruct M2 as (I2 & _); rewrite I in I2.
    apply (app_inv_head ([4] ++ [132; 255; 255; 255; 254] ++ [])); symmetry; exact I2.
Qed.

(** When the copy of a primitive's contents cannot be allocated, the decoder
    does not report PS_ERR_NMEM: it frees a null element, which aborts. *)
Theorem ps2pe_nomem_aborts : forall (A : Allocator), pool_ok -> malloc_ok 1 = false ->
  ps2pe 2 (mkPS 0 0 0 (mkStr (Some [4; 1; 65]) 3 0 3)) = UB.
Proof.
  intros A P M; unfold ps2pe; cbn [ps2pe_aux negb Z.eqb ps_prime ps_primeP str_open].
  change (ps_prime ?p 0) with (OK, p); cbn match; change (OK =? NOTOK) with false; cbn match.
  change (ps_read_id 2 _ 1) with (Val (Some (0, 0, 4), mkPS 0 0 1 (mkStr (Some [4; 1; 65]) 2 1 3))); cbn [cbind].
  unfold pe_alloc; rewrite P.
  change (ps_read_len (mkPS 0 0 1 (mkStr (Some [4; 1; 65]) 2 1 3))) with (Val (Some 1, mkPS 0 0 2 (mkStr (Some [4; 1; 65]) 1 2 3))); cbn [cbind].
  assert (N : malloc_int 1 = false) by exact M.
  cbn -[malloc_int]; unfold read_prim; cbn -[malloc_int]; rewrite N; reflexivity.
Qed.

(** * Witnesses *)

Lemma pool_plenty : @pool_ok plenty.
Proof. intros c f i; reflexivity. Qed.

(** A sequence of a boolean in the indefinite form, then an octet. *)
Definition ex_input : list Z := [48; 128; 1; 1; 255; 0; 0; 7].
Definition ex_stream : PStream str_un := mkPS 0 0 0 (mkStr (Some ex_input) 8 0 8).

Lemma ex_stream_pre : @dec_pre _ _ (@str_reader plenty) ex_stream.
Proof.
  unfold dec_pre, ps_good; repeat split; try (cbv; easy); try lia.
  apply forallb_bytes; reflexivity.
Qed.

Lemma ps2pe_total_witness : @out_of_memory plenty /\ @ps2pe plenty _ (@str_open plenty) 9 ex_stream = UB \/
  exists o ps', @ps2pe plenty _ (@str_open plenty) 9 ex_stream = Val (o, ps') /\
    match o with
    | Some p => exists os, ex_input = os ++ @ps_input _ _ (@str_reader plenty) ps' /\ ps_byteno ps' = 0 + zlen os /\
        enc (pe_value p) os /\ decoded p
    | None => ps_errno ps' <> PS_ERR_NONE \/ ex_input = []
    end.
Proof.
  apply (ps2pe_total plenty str_un (@str_open plenty) (@str_reader plenty) ex_stream 9); [apply ex_stream_pre | cbn; lia].
Defined.

Lemma ps2pe_decides_grammar_witness : exists o ps', @ps2pe plenty _ (@str_open plenty) 9 ex_stream = Val (o, ps') /\
  forall v rest, (exists os, ex_input = os ++ rest /\ enc v os) <->
                 (option_map pe_value o = Some v /\ @ps_input _ _ (@str_reader plenty) ps' = rest).
Proof.
  apply (ps2pe_decides_grammar plenty str_un (@str_open plenty) (@str_reader plenty) ex_stream 9);
    [apply plenty_ok | apply pool_plenty | apply ex_stream_pre | cbn; lia].
Defined.

Lemma ps2pe_pe2ps_witness : exists ps1 p1 ps2 q ps3,
  @pe2ps _ (@str_open plenty) PS_LEN_SPAG str_stream ex_seq = Val (OK, ps1, p1) /\
  @str_setup plenty str_stream (Some (str_output (ps_un ps1) ++ [1; 2])) (zlen (str_output (ps_un ps1) ++ [1; 2])) 1 = Val (OK, ps2) /\
  @ps2pe plenty _ (@str_open plenty) (S (length (str_output (ps_un ps1) ++ [1; 2]))) ps2 = Val (Some q, ps3) /\
  pe_value q = pe_value ex_seq /\ @ps_input _ _ (@str_reader plenty) ps3 = [1; 2].
Proof.
  apply (ps2pe_pe2ps plenty PS_LEN_SPAG ex_seq [1; 2] 1);
    [apply plenty_ok | apply pool_plenty | apply pe_okb_ok; reflexivity | apply ex_seq_tags | |
     apply forallb_bytes; reflexivity | vm_compute; discriminate].
  simpl; repeat constructor; intros [? ?]; discriminate.
Defined.
