(* ===== verification/Fast.v ===== *)
(** * psap: elements to and from a session data unit (pe2qb_f.c, pe2ssdu.c,
    ssdu2pe.c)

    [pe2qb_f] is the encoder that writes into one block through the global
    [Qcp], without a stream. The block is the octets written so far and its
    capacity [Ecp]; a store beyond it that the code does not check is
    undefined. *)

From S2P Require Import Prelude Conv Convert PElement PStream StrPs Pe2Ps Ps2Pe.
Open Scope Z_scope.
Open Scope c_scope.

(** The globals [Qcp] (the octets before it), [Ecp] and [Len]. *)
Record qstate : Type := QS { Qcp : list Z; Ecp : Z; Len : Z }.

(** A store at [*Qcp]. *)
Definition store_octet (q : qstate) (c : Z) : cres unit :=
  cmap (fun _ => tt) (wrc (Ecp q) (Qcp q) (zlen (Qcp q)) [c]).

(** The store with [Qcp++, Len++]. *)
Definition put1 (q : qstate) (c : Z) : cres qstate :=
  out <- wrc (Ecp q) (Qcp q) (zlen (Qcp q)) [c];; Val (QS out (Ecp q) (i32 (Len q + 1))).

(** [moveit (c, l)]: [None] where the macro returns NOTOK. *)
Definition moveit (q : qstate) (c : option (list Z)) (l : Z) : cres (option qstate) :=
  match int2sizet l with
  | None => Val None
  | Some ml =>
      if zlen (Qcp q) + ml >? Ecp q then Val None
      else d <- rdn_ptr c ml;; Val (Some (QS (Qcp q ++ d) (Ecp q) (i32 (Len q + l))))
  end.

(** "Put the id into the qbuf" *)
Definition fast_id (q : qstate) (class form id : Z) : cres (option qstate) :=
  match int2octet (Z.lor (Z.land (Z.shiftl class PE_CLASS_SHIFT) PE_CLASS_MASK)
                         (Z.land (Z.shiftl form PE_FORM_SHIFT) PE_FORM_MASK)) with
  | None => Val None
  | Some c =>
      _ <- store_octet q c;;
      if id <? PE_ID_XTND then
        match int2octet (Z.lor (as_octet c) id) with
        | None => Val None
        | Some c => cmap Some (put1 q c)
        end
      else
        match int2u8 (Z.lor (as_octet c) PE_ID_XTND) with
        | None => Val None
        | Some b =>
            let ep := id_count 3 0 id in
            r <- id_store 3 [b; 0; 0] ep id;;
            match r with
            | None => Val None
            | Some idbuffer =>
                r <- id_more 3 idbuffer 1 ep;;
                match r with
                | None => Val None
                | Some idbuffer =>
                    match ptrdiff2int (ep + 1) with
                    | None => Val None
                    | Some elm_len => moveit q (Some idbuffer) elm_len
                    end
                end
            end
        end
  end.

(** "Put the length into the qbuf" *)
Definition fast_len (q : qstate) (len : Z) : cres (option qstate) :=
  if len =? PE_LEN_INDF then
    match int2octet PE_LEN_XTND with None => Val None | Some c => cmap Some (put1 q c) end
  else if len <=? PE_LEN_SMAX then
    match int2u8 len with None => Val None | Some b => cmap Some (put1 q b) end
  else
    r <- len_store 4 [0; 0; 0; 0; 0] 4 len;;
    match r with
    | None => Val None
    | Some (elmbuffer, bp) =>
        match int2u8 (Z.lor PE_LEN_XTND (Z.land (4 - bp) 255)) with
        | None => Val None
        | Some b =>
            elmbuffer <- wr elmbuffer bp [b];;
            match ptrdiff2int (4 - bp + 1) with
            | None => Val None
            | Some elm_len => moveit q (Some (zdrop bp elmbuffer)) elm_len
            end
        end
    end.

(** The identifier and the length. *)
Definition fast_header (q : qstate) (pe : PElement) : cres (option qstate) :=
  r <- fast_id q (pe_class pe) (pe_form pe) (pe_id pe);;
  match r with None => Val None | Some q => fast_len q (pe_len pe) end.

(** A primitive, as [pe_eoc] is. *)
Definition pe2qb_prim (q : qstate) (pe : PElement) : cres (option qstate) :=
  r <- fast_header q pe;;
  match r with None => Val None | Some q => moveit q (pe_prim pe) (pe_len pe) end.

(** The body of [pe2qb_f]: [None] for NOTOK, and otherwise the globals, of
    which [Len] is the value returned. *)
Fixpoint pe2qb_aux (q : qstate) (pe : PElement) {struct pe} : cres (option qstate) :=
  if pe_form pe =? PE_FORM_ICONS then moveit q (pe_prim pe) (pe_len pe)
  else
    r <- fast_header q pe;;
    match r with
    | None => Val None
    | Some q =>
        if pe_form pe =? PE_FORM_PRIM then moveit q (pe_prim pe) (pe_len pe)
        else if pe_form pe =? PE_FORM_CONS then
          if negb (pe_len pe =? 0) then
            r <-
              (fix go (q : qstate) (l : list PElement) {struct l} : cres (option qstate) :=
                 match l with
                 | [] => Val (Some q)
                 | p :: l' =>
                     r <- pe2qb_aux q p;;
                     match r with
                     | None => Val None
                     | Some q => if Len q =? NOTOK then Val None else go q l'
                     end
                 end) q (pe_cons pe);;
            match r with
            | None => Val None
            | Some q =>
                if pe_len pe =? PE_LEN_INDF then
                  r <- pe2qb_prim q pe_eoc;;
                  Val (match r with None => None | Some q => if Len q =? NOTOK then None else Some q end)
                else Val (Some q)
            end
          else Val (Some q)
        else UB
    end.

Definition pe2qb_f (q : qstate) (pe : PElement) : cres (Z * option qstate) :=
  cmap (fun r => match r with None => (NOTOK, None) | Some q => (Len q, Some q) end) (pe2qb_aux q pe).

Section Ssdu.
Context `{Allocator}.

(** The result, [*base], [*len] and the element, whose lengths are set. The
    octets of a block that is returned with NOTOK are followed only where
    the whole element was written. *)
Definition pe2ssdu (ps_len_strategy : Z) (pe : PElement) : cres (Z * option (list Z) * Z * PElement) :=
  ' (plen, pe) <- ps_get_abs ps_len_strategy pe;;
  if malloc_ok (u32 plen) then
    ' (ret, q) <- pe2qb_f (QS [] plen 0) pe;;
    let base := match q with Some q => Qcp q | None => [] end in
    if negb (ret =? plen) then Val (NOTOK, Some base, 0, pe)
    else Val (OK, Some base, plen, pe)
  else Val (NOTOK, None, 0, pe).

(** The element and [*result]; [sizeof_ps] octets are allocated for the
    stream. Were [str_setup] to fail, the uninitialised [pe] would be
    returned. *)
Definition ssdu2pe (sizeof_ps : Z) (fuel : nat) (base : list Z) (len : Z) (realbase : option (list Z)) : cres (option PElement * Z) :=
  if malloc_ok sizeof_ps then
    ' (rc, ps) <- str_setup str_stream (Some base) len 1;;
    if rc =? OK then
      let ps := match realbase with None => set_ps_inline ps 0 | Some _ => ps end in
      ' (pe, ps) <- ps2pe fuel ps;;
      match pe with
      | Some pe => Val (Some (match realbase with Some _ => set_realbase pe realbase | None => pe end), PS_ERR_NONE)
      | None => Val (None, if ps_errno ps =? PS_ERR_NONE then PS_ERR_EOF else ps_errno ps)
      end
    else UB
  else Val (None, PS_ERR_NMEM).
End Ssdu.

(** * The block *)

(** [q] with the octets [d] written. *)
Definition qadd (q : qstate) (d : list Z) : qstate := QS (Qcp q ++ d) (Ecp q) (Len q + zlen d).

(** The octets fit in the block, which an [int] can measure. *)
Definition room (q : qstate) (n : Z) : Prop :=
  0 <= Len q /\ Len q = zlen (Qcp q) /\ zlen (Qcp q) + n <= Ecp q /\ Ecp q <= INT_MAX.

Lemma qadd_qadd q a b : qadd (qadd q a) b = qadd q (a ++ b).
Proof. unfold qadd; cbn; rewrite app_assoc, zlen_app; f_equal; lia. Qed.

Lemma qadd_nil q : qadd q [] = q.
Proof. destruct q; unfold qadd; cbn [Qcp Ecp Len]; rewrite app_nil_r; change (zlen (@nil Z)) with 0; rewrite Z.add_0_r; reflexivity. Qed.

Lemma room_qadd q d n : room q (zlen d + n) -> 0 <= n -> room (qadd q d) n.
Proof. unfold room, qadd; cbn [Qcp Ecp Len]; rewrite zlen_app; pose proof (zlen_nonneg d); lia. Qed.

Lemma put1_room q c : room q 1 -> put1 q c = Val (qadd q [c]).
Proof.
  intros (N & L & F & M); unfold put1, qadd; rewrite wrc_end by (rewrite zlen_one; lia); cbn [cbind].
  rewrite i32_id by (unfold is_int, INT_MIN; lia); reflexivity.
Qed.

Lemma store_room q c : room q 1 -> store_octet q c = Val tt.
Proof. intros (N & L & F & M); unfold store_octet; rewrite wrc_end by (rewrite zlen_one; lia); reflexivity. Qed.

Lemma moveit_room q c d : room q (zlen d) -> rdn_ptr c (zlen d) = Val d -> moveit q c (zlen d) = Val (Some (qadd q d)).
Proof.
  intros (N & L & F & M) R; unfold moveit; rewrite int2sizet_Some by apply zlen_nonneg.
  rewrite Z.gtb_ltb; destruct (Z.ltb_spec (Ecp q) (zlen (Qcp q) + zlen d)); [lia|]; rewrite R; cbn [cbind].
  pose proof (zlen_nonneg d); rewrite i32_id by (unfold is_int, INT_MIN; lia); reflexivity.
Qed.

Lemma room_less q m n : n <= m -> room q m -> room q n.
Proof. unfold room; lia. Qed.

Lemma id_count_ge n : forall ep jd, ep <= id_count n ep jd.
Proof. induction n as [|n IH]; intros ep jd; cbn [id_count]; [lia|]; destruct (jd =? 0); [lia|]; specialize (IH (ep + 1) (Z.shiftr jd PE_ID_SHIFT)); lia. Qed.

Lemma rdn_zlen b i n d : rdn b i n = Val d -> zlen d = n /\ d = ztake n (zdrop i b).
Proof.
  unfold rdn; destruct (_ && _)%bool eqn:B; [|discriminate]; intros [= <-]; bool_to_prop; bool_to_prop.
  split; [|reflexivity]; apply zlen_ztake; rewrite zlen_zdrop; lia.
Qed.

Lemma rdn_drop b i n d : rdn b i n = Val d -> rdn_ptr (Some (zdrop i b)) n = Val d.
Proof.
  intros E; destruct (rdn_zlen _ _ _ _ E) as [_ ->]; unfold rdn in E; destruct (_ && _)%bool eqn:B; [|discriminate].
  bool_to_prop; bool_to_prop; unfold rdn_ptr; rewrite rdn_in by (rewrite ?zlen_zdrop by lia; lia).
  rewrite (zdrop_0 0) by lia; reflexivity.
Qed.

(** The identifier and length octets are those of [pe2ps]. *)
Lemma fast_id_octets q class form id d : id_octets class form id = Val (Some d) -> room q (zlen d) ->
  fast_id q class form id = Val (Some (qadd q d)).
Proof.
  unfold id_octets, fast_id, int2octet, octet2char.
  destruct (int2u8 (Z.lor (Z.land _ _) _)) as [c|] eqn:Ec; [|discriminate].
  apply int2u8_inv in Ec as [_ Bc]; rewrite u8_id by exact Bc; rewrite as_octet_id by exact Bc.
  destruct (id <? PE_ID_XTND).
  - destruct (int2u8 (Z.lor c id)) as [b|] eqn:Eb; [|discriminate]; intros [= <-] R.
    apply int2u8_inv in Eb as [_ Bb]; rewrite zlen_one in R; rewrite store_room by exact R; cbn [cbind].
    rewrite u8_id by exact Bb; rewrite put1_room by exact R; reflexivity.
  - destruct (int2u8 (Z.lor c PE_ID_XTND)) as [b|]; [|discriminate]; cbv zeta.
    destruct (id_store 3 [b; 0; 0] (id_count 3 0 id) id) as [[buf|]|]; try discriminate; cbn [cbind].
    destruct (id_more 3 buf 1 (id_count 3 0 id)) as [[buf'|]|]; try discriminate; cbn [cbind].
    intros E R; apply cbind_Val in E as (out & E & [= <-]).
    destruct (rdn_zlen _ _ _ _ E) as [Lo _]; pose proof (id_count_ge 3 0 id).
    rewrite store_room by (eapply room_less; [|exact R]; lia); cbn [cbind].
    rewrite ptrdiff2int_Some; [rewrite <- Lo in *; apply moveit_room; assumption|].
    rewrite <- Lo; destruct R as (_ & ? & ? & ?); pose proof (zlen_nonneg (Qcp q)); unfold is_int, INT_MIN; lia.
Qed.

Lemma fast_len_octets q len d : len_octets len = Val (Some d) -> len <= INT_MAX -> -1 <= len -> room q (zlen d) ->
  fast_len q len = Val (Some (qadd q d)).
Proof.
  intros E M N R; unfold len_octets, fast_len in *; destruct (Z.eqb_spec len PE_LEN_INDF) as [I|I].
  - injection E as <-; change (int2octet PE_LEN_XTND) with (Some 128); cbn match.
    rewrite put1_room by exact R; reflexivity.
  - assert (0 <= len) by (unfold PE_LEN_INDF in I; lia).
    destruct (Z.leb_spec len PE_LEN_SMAX) as [S|S].
    + unfold PE_LEN_SMAX in S; rewrite land_ff, Z.mod_small in E by lia; rewrite !int2u8_Some in * by (unfold is_byte; lia).
      injection E as <-; rewrite put1_room by exact R; reflexivity.
    + destruct (len_store 4 [0; 0; 0; 0; 0] 4 len) as [[[buf bp]|]|]; try discriminate; cbn [cbind] in *.
      destruct (int2u8 (Z.lor PE_LEN_XTND (Z.land (4 - bp) 255))) as [b|]; [|discriminate].
      destruct (wr buf bp [b]) as [buf'|]; [|discriminate]; cbn [cbind] in *.
      apply cbind_Val in E as (out & E & [= <-]); destruct (rdn_zlen _ _ _ _ E) as [Lo Eo].
      pose proof (zlen_nonneg out); rewrite ptrdiff2int_Some; [rewrite <- Lo in *; apply moveit_room; [exact R|]|].
      * apply rdn_drop; exact E.
      * rewrite <- Lo; destruct R as (_ & ? & ? & ?); pose proof (zlen_nonneg (Qcp q)); unfold is_int, INT_MIN; lia.
Qed.

Lemma fast_header_octets q class form id len io lo : id_octets class form id = Val (Some io) ->
  len_octets len = Val (Some lo) -> -1 <= len <= INT_MAX -> room q (zlen (io ++ lo)) ->
  (r <- fast_id q class form id;; match r with None => Val None | Some q => fast_len q len end) =
  Val (Some (qadd q (io ++ lo))).
Proof.
  intros I L N R; rewrite zlen_app in R; pose proof (zlen_nonneg io); pose proof (zlen_nonneg lo).
  rewrite (fast_id_octets _ _ _ _ _ I) by (eapply room_less; [|exact R]; lia); cbn [cbind].
  rewrite (fast_len_octets _ _ _ L) by first [lia | apply room_qadd; [exact R | lia]].
  rewrite qadd_qadd; reflexivity.
Qed.

(** ** The element *)

Definition qb_members :=
  fix go (q : qstate) (l : list PElement) {struct l} : cres (option qstate) :=
  match l with
  | [] => Val (Some q)
  | p :: l' =>
      r <- pe2qb_aux q p;;
      match r with
      | None => Val None
      | Some q => if Len q =? NOTOK then Val None else go q l'
      end
  end.

Lemma pe2qb_aux_eq q pe : pe2qb_aux q pe =
  if pe_form pe =? PE_FORM_ICONS then moveit q (pe_prim pe) (pe_len pe)
  else
    r <- fast_header q pe;;
    match r with
    | None => Val None
    | Some q =>
        if pe_form pe =? PE_FORM_PRIM then moveit q (pe_prim pe) (pe_len pe)
        else if pe_form pe =? PE_FORM_CONS then
          if negb (pe_len pe =? 0) then
            r <- qb_members q (pe_cons pe);;
            match r with
            | None => Val None
            | Some q =>
                if pe_len pe =? PE_LEN_INDF then
                  r <- pe2qb_prim q pe_eoc;;
                  Val (match r with None => None | Some q => if Len q =? NOTOK then None else Some q end)
                else Val (Some q)
            end
          else Val (Some q)
        else UB
    end.
Proof. destruct pe; reflexivity. Qed.

Definition octs (p : PElement) : list Z := concat (map fst (pe_writes p)).

Definition fast_ok (s : Z) (p : PElement) : Prop := forall q,
  pe_ok p -> tags14 (pe_value p) -> sized s p -> zlen (octs p) <= INT_MAX -> room q (zlen (octs p)) ->
  pe2qb_aux q p = Val (Some (qadd q (octs p))).

Lemma moveit_data q p : data_ok p -> room q (zlen (pe_data p)) ->
  moveit q (pe_prim p) (pe_len p) = Val (Some (qadd q (pe_data p))).
Proof. intros D R; pose proof (rdn_ptr_data p D) as E; destruct D as (L & _); rewrite L in *; apply moveit_room; assumption. Qed.

Lemma room_Len q n : room q n -> Len q <> NOTOK.
Proof. unfold room, NOTOK; lia. Qed.

Lemma qb_members_ok s l : Forall (fast_ok s) l -> Forall pe_ok l -> Forall tags14 (map pe_value l) -> Forall (sized s) l ->
  forall q, zlen (concat (map octs l)) <= INT_MAX -> room q (zlen (concat (map octs l))) ->
  qb_members q l = Val (Some (qadd q (concat (map octs l)))).
Proof.
  induction 1 as [|p l Hp _ IH]; intros O T S q L R; [cbn; rewrite qadd_nil; reflexivity|].
  inversion_clear O; inversion_clear T; inversion_clear S; cbn [map concat] in *; rewrite zlen_app in *.
  pose proof (zlen_nonneg (octs p)); pose proof (zlen_nonneg (concat (map octs l))).
  cbn [qb_members]; rewrite Hp by first [assumption | lia | eapply room_less; [|exact R]; lia]; cbn [cbind].
  assert (R' : room (qadd q (octs p)) (zlen (concat (map octs l)))) by (apply room_qadd; [exact R | lia]).
  rewrite (proj2 (Z.eqb_neq _ _) (room_Len _ _ R')), IH, qadd_qadd by (try assumption; lia); reflexivity.
Qed.

Lemma pe2qb_prim_ok q p : pe_form p = PE_FORM_PRIM -> data_ok p -> 0 <= pe_class p < 4 -> 0 <= pe_id p < 16384 ->
  zlen (concat (map fst (prim_writes p))) <= INT_MAX -> room q (zlen (concat (map fst (prim_writes p)))) ->
  pe2qb_prim q p = Val (Some (qadd q (concat (map fst (prim_writes p))))).
Proof.
  intros F D C I L R; pose proof (data_ok_len p D) as Dl; cbn [prim_writes map fst concat] in *; rewrite app_nil_r, app_assoc in *.
  rewrite !zlen_app in *; pose proof (zlen_nonneg (pe_data p)).
  unfold pe2qb_prim, fast_header; rewrite F.
  rewrite (fast_header_octets _ _ _ _ _ _ _ (id_octets_ident _ _ _ C (conj (Z.le_refl 0) Z.lt_0_2) I) (len_octets_lenoct _ Dl));
    [|lia | rewrite zlen_app; eapply room_less; [|exact R]; lia].
  cbn [cbind]; rewrite moveit_data, qadd_qadd; [reflexivity | exact D|].
  apply room_qadd; [rewrite zlen_app; exact R | lia].
Qed.

Lemma concat_writes l : concat (map fst (concat (map pe_writes l))) = concat (map octs l).
Proof.
  induction l as [|p l IH]; [reflexivity|]; cbn [map concat]; rewrite map_app, concat_app, IH; reflexivity.
Qed.

(** The octets of a constructor. *)
Definition node_octs (p : PElement) : list Z :=
  if pe_len p =? 0 then []
  else concat (map octs (pe_cons p)) ++ (if pe_len p =? PE_LEN_INDF then [0; 0] else []).

Lemma octs_node p : pe_form p = PE_FORM_CONS ->
  octs p = ident (pe_class p) 1 (pe_id p) ++ (if pe_len p =? PE_LEN_INDF then [128] else lenoct (pe_len p)) ++ node_octs p.
Proof.
  intros F; unfold octs, node_octs; rewrite pe_writes_eq, F; simpl Z.eqb; cbn match.
  cbn [map fst concat]; do 2 f_equal; destruct (pe_len p =? 0); [reflexivity|].
  rewrite map_app, concat_app, concat_writes; f_equal; destruct (pe_len p =? PE_LEN_INDF); reflexivity.
Qed.

(** The members and the end-of-contents octets. *)
Lemma qb_node_ok s p q : Forall (fast_ok s) (pe_cons p) -> Forall pe_ok (pe_cons p) ->
  Forall tags14 (map pe_value (pe_cons p)) -> Forall (sized s) (pe_cons p) ->
  zlen (node_octs p) <= INT_MAX -> room q (zlen (node_octs p)) ->
  (if negb (pe_len p =? 0) then
     r <- qb_members q (pe_cons p);;
     match r with
     | None => Val None
     | Some q =>
         if pe_len p =? PE_LEN_INDF then
           r <- pe2qb_prim q pe_eoc;;
           Val (match r with None => None | Some q => if Len q =? NOTOK then None else Some q end)
         else Val (Some q)
     end
   else Val (Some q)) = Val (Some (qadd q (node_octs p))).
Proof.
  intros IH O T S L R; unfold node_octs in *; destruct (pe_len p =? 0); cbn [negb]; [rewrite qadd_nil; reflexivity|].
  rewrite zlen_app in *; pose proof (zlen_nonneg (concat (map octs (pe_cons p)))).
  set (eoc := if pe_len p =? PE_LEN_INDF then [0; 0] else []) in *; pose proof (zlen_nonneg eoc).
  rewrite (qb_members_ok s) by first [assumption | lia | eapply room_less; [|exact R]; lia]; cbn [cbind].
  assert (R' : room (qadd q (concat (map octs (pe_cons p)))) (zlen eoc)) by (apply room_qadd; [exact R | lia]).
  subst eoc; destruct (pe_len p =? PE_LEN_INDF); [|rewrite app_nil_r; reflexivity].
  rewrite (pe2qb_prim_ok _ pe_eoc eq_refl pe_eoc_ok); [|cbv; easy | cbv; easy | cbv; easy | exact R'].
  change (concat (map fst (prim_writes pe_eoc))) with [0; 0]; cbn [cbind]; rewrite qadd_qadd.
  destruct (Z.eqb_spec (Len (qadd q (concat (map octs (pe_cons p)) ++ [0; 0]))) NOTOK) as [E|]; [|reflexivity].
  unfold qadd in E; cbn [Len] in E; destruct R as (R & _); pose proof (zlen_nonneg (concat (map octs (pe_cons p)) ++ [0; 0])).
  unfold NOTOK in E; lia.
Qed.

Lemma pe2qb_aux_ok s p : fast_ok s p.
Proof.
  induction p as [p IH] using PElement_tree_ind; intros q O T S L R; rewrite pe2qb_aux_eq.
  destruct (pe_form_cases p O) as [F|[F|F]].
  - unfold octs in *; rewrite pe_writes_eq in *; rewrite F in *; simpl Z.eqb in *; cbn match in *.
    destruct (pe_ok_leaf p O) as (_ & _ & D & _); [rewrite F; discriminate|].
    rewrite (pe_value_prim p F) in T; destruct T as [C I]; apply (pe2qb_prim_ok q p F D C I L R).
  - unfold octs in *; rewrite pe_writes_eq in *; rewrite F in *; simpl Z.eqb in *; cbn match in *.
    destruct (pe_ok_leaf p O) as (_ & _ & D & _); [rewrite F; discriminate|].
    cbn [map fst concat] in *; rewrite app_nil_r in *; apply moveit_data; assumption.
  - pose proof (pe_writes_ber s p O S) as B; fold (octs p) in B; rewrite B in L; pose proof (octs_node p F) as E.
    destruct (pe_ok_node p O F) as (_ & _ & M); rewrite (pe_value_cons p F) in *; destruct T as [[C I] Ts]; apply fold_and in Ts.
    inversion_clear S as [N|_ Ln Sl]; [easy|]; fold (ber_list s (pe_cons p)) in Ln; cbn [ber] in L; rewrite zlen_app in L.
    fold (ber_list s (pe_cons p)) in L; pose proof (wrap_body s (ber_list s (pe_cons p))) as W.
    pose proof (zlen_nonneg (ident (pe_class p) 1 (pe_id p))).
    rewrite F; simpl Z.eqb; cbn match; unfold fast_header; rewrite F, E, app_assoc in *.
    set (hd := ident (pe_class p) 1 (pe_id p) ++ _) in *; rewrite zlen_app in R; pose proof (zlen_nonneg (node_octs p)).
    assert (Hn : zlen hd + zlen (node_octs p) <= INT_MAX) by (rewrite <- zlen_app, B; cbn [ber]; rewrite zlen_app; fold (ber_list s (pe_cons p)); lia).
    rewrite (fast_header_octets _ _ _ _ _ _ _ (id_octets_ident (pe_class p) PE_FORM_CONS (pe_id p) C (conj Z.le_0_1 (Z.lt_succ_diag_r 1)) I)
               (eq_trans (f_equal len_octets Ln) (len_octets_plen s (ber_list s (pe_cons p)) ltac:(lia)))).
    + rewrite <- Ln; change PE_FORM_CONS with 1; fold hd; cbn [cbind].
      rewrite (qb_node_ok s p (qadd q hd)) by first [assumption | pose proof (zlen_nonneg hd); lia | apply room_qadd; assumption].
      rewrite qadd_qadd; reflexivity.
    + rewrite Ln; unfold plen, PE_LEN_INDF; pose proof (zlen_nonneg (ber_list s (pe_cons p))); destruct (definite _ _); lia.
    + rewrite <- Ln; change PE_FORM_CONS with 1; fold hd; eapply room_less; [|exact R]; lia.
Qed.

(** ** The session data unit *)

Lemma pe2ssdu_result `{Allocator} s p : pe_ok p -> tags14 (pe_value p) -> zlen (ber s (pe_value p)) <= INT_MAX ->
  exists p', pe_value p' = pe_value p /\ pe2ssdu s p =
    Val (if malloc_ok (zlen (ber s (pe_value p))) then (OK, Some (ber s (pe_value p)), zlen (ber s (pe_value p)), p')
         else (NOTOK, None, 0, p')).
Proof.
  intros O T L; destruct (ps_get_abs_spec s p O T L) as (p' & E & O' & V & S); exists p'; split; [exact V|].
  unfold pe2ssdu; rewrite E; cbn [cbind].
  set (b := ber s (pe_value p)) in *; pose proof (zlen_nonneg b).
  rewrite u32_id by (unfold INT_MAX in L; lia); destruct (malloc_ok (zlen b)); [|reflexivity].
  assert (B : octs p' = b) by (unfold octs; rewrite (pe_writes_ber s p' O' S), V; reflexivity).
  unfold pe2qb_f; rewrite (pe2qb_aux_ok s p' (QS [] (zlen b) 0) O'); rewrite ?V, ?B; try assumption.
  - cbn [cmap cbind qadd Len Qcp]; rewrite Z.add_0_l, app_nil_l; cbn [cbind].
    unfold cmap; cbn [cbind Len Qcp]; rewrite Z.eqb_refl; reflexivity.
  - unfold room; cbn [Len Qcp Ecp]; change (zlen (@nil Z)) with 0; lia.
Qed.

(** C32. The fast encoder agrees with the reference, and the data unit it makes is
    read back: [pe2ssdu] yields the encoding [pe2ps] writes, in a block of
    exactly its size, and fails only when the block is refused; [ssdu2pe]
    then returns an element of the same value, whether it copies the octets
    or points into them. *)
Theorem pe2ssdu_ssdu2pe : forall (A : Allocator) s p sizeof_ps realbase,
  pe_ok p -> tags14 (pe_value p) -> zlen (ber s (pe_value p)) <= INT_MAX ->
  let b := ber s (pe_value p) in
  (exists p', pe_value p' = pe_value p /\
     pe2ssdu s p = Val (if malloc_ok (zlen b) then (OK, Some b, zlen b, p') else (NOTOK, None, 0, p'))) /\
  (memory_ok -> pool_ok -> plain (pe_value p) ->
   exists q, ssdu2pe sizeof_ps (S (length b)) b (zlen b) realbase = Val (Some q, PS_ERR_NONE) /\
     pe_value q = pe_value p).
Proof.
  intros A s p sz realbase O T L b; split; [apply pe2ssdu_result; assumption|]; intros M P Pl.
  unfold ssdu2pe; rewrite M.
  destruct (str_setup_input b 1) as (ps0 & -> & Rk & B0 & _ & _ & I0); [left; discriminate | exact L|]; cbn [cbind].
  change (OK =? OK) with true; cbn match.
  set (ps := match realbase with Some _ => _ | None => _ end).
  assert (Pre : dec_pre ps /\ ps_input ps = b).
  { assert (Eu : ps_un ps = ps_un ps0) by (subst ps; destruct realbase; reflexivity).
    assert (Eb : ps_byteno ps = 0) by (subst ps; destruct realbase; exact B0).
    assert (I : ps_input ps = b) by (unfold ps_input; rewrite Eu; exact I0).
    split; [|exact I]; unfold dec_pre, ps_good; rewrite Eu, I, Eb; pose proof (zlen_nonneg b).
    split; [split; [split; [exact Rk | easy] | cbv; easy]|]; split; [apply ber_bytes; assumption | fold b in L; lia]. }
  destruct Pre as (D & I).
  destruct (ps2pe_complete ps (S (length b)) (pe_value p) b [] M P) as (q & ps' & E & V & _); auto.
  - apply ber_enc; assumption.
  - rewrite app_nil_r; exact I.
  - rewrite E; cbn [cbind]; eexists; split; [reflexivity|]; destruct realbase; [destruct q|]; exact V.
Qed.

(** A block too small for the element overflows without a message when the
    last octet that fits is followed by one of the octets stored singly. *)
Lemma pe2qb_f_overflow : pe2qb_f (QS [] 1 0) (mkPE 0 0 0 PE_FORM_PRIM 5 0 0 None [] 0 0 None 0 0) = UB.
Proof. reflexivity. Qed.

(** * Witnesses *)

Lemma pe2ssdu_ssdu2pe_witness : exists b p' q, @pe2ssdu plenty PS_LEN_SPAG ex_seq = Val (OK, Some b, zlen b, p') /\
  @ssdu2pe plenty 64 (S (length b)) b (zlen b) (Some b) = Val (Some q, PS_ERR_NONE) /\ pe_value q = pe_value ex_seq.
Proof.
  destruct (pe2ssdu_ssdu2pe plenty PS_LEN_SPAG ex_seq 64 (Some (ber PS_LEN_SPAG (pe_value ex_seq)))) as ((p' & _ & E) & R);
    [apply pe_okb_ok; reflexivity | exact ex_seq_tags | vm_compute; discriminate|].
  destruct R as (q & D & V); [apply plenty_ok | apply pool_plenty | simpl; repeat constructor; intros [? ?]; discriminate|].
  exists (ber PS_LEN_SPAG (pe_value ex_seq)), p', q; split; [exact E | split; assumption].
Defined.
