(* ===== verification/Prims.v ===== *)
(** * psap: integers, booleans and octet strings as primitives
    (num2prim.c, prim2num.c, flag2prim.c, prim2flag.c, str2prim.c, prim2str.c) *)

From S2P Require Import Prelude Conv PElement.
Open Scope Z_scope.
Open Scope c_scope.

Section Prims.
Context `{Allocator}.

(** ** num2prim.c *)

(** [while (n > 1 && (sign & mask) == 0) mask >>= 8, n--;] *)
Fixpoint num_width (fuel : nat) (n sign mask : Z) : Z :=
  match fuel with
  | O => n
  | S fuel' =>
      if (n >? 1) && (Z.land sign mask =? 0) then num_width fuel' (n - 1) sign (Z.shiftr mask 8) else n
  end.

(** [for (dp = pe_prim + pe_len; n-- > 0; i >>= 8) *--dp = i & 0xff;] the
    octets stored so far, from [dp] on, are [acc]. *)
Fixpoint num_store (n : nat) (i : Z) (acc : list Z) : option (list Z) :=
  match n with
  | O => Some acc
  | S n' =>
      match int2u8 (Z.land i 255) with
      | Some octet => num_store n' (Z.shiftr i 8) (octet :: acc)
      | None => None
      end
  end.

Definition num2prim (i class id : Z) : option PElement :=
  match int2u8 class, int2u16 id with
  | Some cl, Some pid =>
      match pe_alloc cl PE_FORM_PRIM pid with
      | None => None
      | Some pe =>
          let sign := if i >=? 0 then i else Z.lxor i (-1) in
          let mask := i32 (Z.shiftl 511 ((4 - 1) * 8 - 1)) in
          let n := num_width 3 4 sign mask in
          if malloc_int n then
            match num_store (Z.to_nat n) i [] with
            | Some d => Some (set_prim (set_len pe n) (Some d))
            | None => None
            end
          else None
      end
  | _, _ => None
  end.

(** ** prim2num.c *)

(** The comparison with [sizeof (i)] is unsigned. *)
Definition prim2num (pe : PElement) : cres (Z * PElement) :=
  match pe_prim pe with
  | Some dp =>
      if negb (pe_form pe =? PE_FORM_PRIM) then Val (pe_seterr pe PE_ERR_PRIM NOTOK)
      else if (pe_len pe <? 0) || (pe_len pe >? 4) then Val (pe_seterr pe PE_ERR_OVER NOTOK)
      else
        let pe := set_errno pe PE_ERR_NONE in
        padded <-
          (if pe_len pe >? 1 then
             c0 <- rd dp 0;; c1 <- rd dp 1;;
             Val (((c0 =? 0) && (Z.land c1 128 =? 0)) || ((c0 =? 255) && (Z.land c1 128 =? 128)))
           else Val false);;
        if (padded : bool) then Val (pe_seterr pe PE_ERR_SYNTAX NOTOK)
        else
          c0 <- rd dp 0;;
          d <- rdn dp 0 (pe_len pe);;
          let i := if negb (Z.land c0 128 =? 0) then -1 else 0 in
          Val (fold_left (fun i c => Z.lor (i32 (Z.shiftl i 8)) (Z.land c 255)) d i, pe)
  | None => Val (pe_seterr pe PE_ERR_PRIM NOTOK)
  end.

(** ** flag2prim.c, prim2flag.c *)

Definition flag2prim (b class id : Z) : option PElement :=
  match int2u8 class, int2u16 id with
  | Some cl, Some pid =>
      match pe_alloc cl PE_FORM_PRIM pid with
      | None => None
      | Some pe =>
          if malloc_int 1 then
            match int2u8 (if negb (b =? 0) then 255 else 0) with
            | Some c => Some (set_prim (set_len pe 1) (Some [c]))
            | None => None
            end
          else None
      end
  | _, _ => None
  end.

Definition prim2flag (pe : PElement) : cres (Z * PElement) :=
  match pe_prim pe with
  | Some dp =>
      if negb (pe_form pe =? PE_FORM_PRIM) || (pe_len pe =? 0) then Val (pe_seterr pe PE_ERR_PRIM NOTOK)
      else c <- rd dp 0;; Val (if negb (c =? 0) then 1 else 0, pe)
  | None => Val (pe_seterr pe PE_ERR_PRIM NOTOK)
  end.

(** ** str2prim.c, prim2str.c *)

(** A null [s] leaves the buffer of [len] octets uninitialised; it is
    modelled with no octets in it. *)
Definition str2prim (s : option (list Z)) (len class id : Z) : cres (option PElement) :=
  match pe_alloc class PE_FORM_PRIM id with
  | None => Val None
  | Some pe =>
      if negb (len =? 0) && negb (malloc_int len) then Val None
      else
        let pe := if len =? 0 then pe else set_prim (set_len pe len) (Some []) in
        match s with
        | Some _ =>
            d <- bcopy_int s len;;
            Val (Some (if len =? 0 then pe else match d with Some d => set_prim pe (Some d) | None => pe end))
        | None => Val (Some pe)
        end
  end.

(** The string, its terminating null included, and [*len]; the element is
    returned with the errors recorded in it and in its members. An empty
    constructor leaves [i] uninitialised, another form [dp]. *)
Fixpoint prim2str (pe : PElement) : cres (option (list Z) * Z * PElement) :=
  if pe_form pe =? PE_FORM_PRIM then
    match add_int_to_int (pe_len pe) 1 with
    | None => Val (None, 0, set_errno pe PE_ERR_NMEM)
    | Some nbytes =>
        if malloc_int nbytes then
          d <- bcopy_int (pe_prim pe) (pe_len pe);;
          match d with
          | Some d => Val (Some (d ++ [0]), pe_len pe, pe)
          | None => Val (None, 0, set_errno pe PE_ERR_NMEM)
          end
        else Val (None, 0, set_errno pe PE_ERR_NMEM)
    end
  else if pe_form pe =? PE_FORM_CONS then
    match pe_cons pe with
    | [] => if malloc_int 1 then UB else Val (None, 0, set_errno pe PE_ERR_NMEM)
    | first :: _ =>
        let class := pe_class first in
        let id := pe_id first in
        ' (r, l) <-
          (fix go (ps : list PElement) (dp : option (list Z)) (i : Z) {struct ps}
             : cres ((Z + list Z * Z) * list PElement) :=
             match ps with
             | [] => Val (match dp with Some d => inr (d, i) | None => inl (pe_errno pe) end, [])
             | p :: ps' =>
                 if (negb (pe_class p =? class) || negb (pe_id p =? id))
                    && (negb (pe_class p =? PE_CLASS_UNIV) || negb (pe_id p =? PE_PRIM_OCTS))
                 then Val (inl PE_ERR_TYPE, p :: ps')
                 else
                   ' (ep, j, p) <- prim2str p;;
                   match ep with
                   | None => Val (inl PE_ERR_NMEM, p :: ps')
                   | Some ep =>
                       match dp with
                       | Some d =>
                           match add_int_to_int i j with
                           | None => Val (inl PE_ERR_NMEM, p :: ps')
                           | Some k =>
                               match add_int_to_int k 1 with
                               | None => Val (inl PE_ERR_NMEM, p :: ps')
                               | Some nbytes =>
                                   if realloc_int nbytes then
                                     e <- rdn ep 0 j;;
                                     ' (r, l) <- go ps' (Some (ztake i d ++ e)) k;;
                                     Val (r, p :: l)
                                   else Val (inl PE_ERR_NMEM, p :: ps')
                               end
                           end
                       | None =>
                           match add_int_to_int i j with
                           | None => Val (inl PE_ERR_NMEM, p :: ps')
                           | Some k => ' (r, l) <- go ps' (Some ep) k;; Val (r, p :: l)
                           end
                       end
                   end
             end) (pe_cons pe) None 0;;
        let pe := set_cons pe l in
        match r with
        | inl e => Val (None, 0, set_errno pe e)
        | inr (d, i) => Val (Some (ztake i d ++ [0]), i, pe)
        end
    end
  else UB.
End Prims.

(** * Lemmas *)

(** ** Two's complement *)

(** The integers of [n] octets. *)
Definition in_octets (n i : Z) : Prop := - 2 ^ (8 * n - 1) <= i < 2 ^ (8 * n - 1).

(** The magnitude [num2prim] computes. *)
Definition num_sign (i : Z) : Z := if i >=? 0 then i else Z.lxor i (-1).

Lemma num_sign_spec i : num_sign i = (if 0 <=? i then i else - i - 1).
Proof.
  unfold num_sign; rewrite Z.geb_leb; destruct (0 <=? i); [reflexivity|].
  rewrite Z.lxor_m1_r; unfold Z.lnot; lia.
Qed.

Lemma num_width_value i : is_int i ->
  num_width 3 4 (num_sign i) (i32 (Z.shiftl 511 ((4 - 1) * 8 - 1))) =
  let s := num_sign i in if s <? 2 ^ 7 then 1 else if s <? 2 ^ 15 then 2 else if s <? 2 ^ 23 then 3 else 4.
Proof.
  intros R; pose proof (num_sign_spec i) as E; set (s := num_sign i) in *.
  assert (P : 0 <= s) by (rewrite E; destruct (Z.leb_spec 0 i); lia); clearbody s; clear E R i.
  change (i32 (Z.shiftl 511 ((4 - 1) * 8 - 1))) with (- 2 ^ 23); cbn [num_width].
  change (Z.shiftr (- 2 ^ 23) 8) with (- 2 ^ 15); change (Z.shiftr (- 2 ^ 15) 8) with (- 2 ^ 7).
  rewrite !land_high_0 by lia; change (4 >? 1) with true; change (4 - 1 >? 1) with true; change (4 - 1 - 1 >? 1) with true.
  cbn [andb]; change (4 - 1 - 1 - 1) with 1; change (4 - 1 - 1) with 2; change (4 - 1) with 3.
  destruct (Z.ltb_spec s (2 ^ 7)), (Z.ltb_spec s (2 ^ 15)), (Z.ltb_spec s (2 ^ 23)); try reflexivity; lia.
Qed.

(** The width is the least number of octets that hold the integer. *)
Lemma num_width_least i : is_int i ->
  exists n, num_width 3 4 (num_sign i) (i32 (Z.shiftl 511 ((4 - 1) * 8 - 1))) = n /\
    1 <= n <= 4 /\ in_octets n i /\ (forall m, 1 <= m -> in_octets m i -> n <= m).
Proof.
  intros R; rewrite num_width_value by exact R; cbv zeta; rewrite num_sign_spec; eexists; split; [reflexivity|].
  unfold is_int, INT_MIN, INT_MAX, in_octets in *.
  assert (M : forall m k, 1 <= m -> m < k -> 2 ^ (8 * m - 1) <= 2 ^ (8 * k - 9)).
  { intros m k Hm Hk; apply Z.pow_le_mono_r; lia. }
  destruct (Z.leb_spec 0 i); repeat case_goal; bool_to_prop;
    (split; [lia|]); (split; [change (8 * 1 - 1) with 7 || change (8 * 2 - 1) with 15 || change (8 * 3 - 1) with 23 || change (8 * 4 - 1) with 31; lia|]);
    intros m Hm Hi; try lia;
    match goal with |- ?k <= m => destruct (Z.le_gt_cases k m) as [|L]; [assumption|exfalso]; specialize (M m k Hm L);
      let e := eval vm_compute in (2 ^ (8 * k - 9)) in change (2 ^ (8 * k - 9)) with e in M end; lia.
Qed.

Lemma num_store_some n : forall i acc, num_store n i acc <> None.
Proof.
  induction n as [|n IH]; intros i acc; cbn [num_store]; [discriminate|].
  rewrite land_ff, int2u8_Some by (apply Z.mod_pos_bound; lia); apply IH.
Qed.

Lemma num_store_fold n : forall i acc d a, num_store n i acc = Some d ->
  fold_left (fun a b => a * 256 + b) d a =
  fold_left (fun a b => a * 256 + b) acc (a * 256 ^ Z.of_nat n + i mod 256 ^ Z.of_nat n).
Proof.
  induction n as [|n IH]; intros i acc d a E; cbn [num_store] in E.
  - injection E as <-; change (256 ^ Z.of_nat 0) with 1; rewrite Z.mod_1_r; f_equal; lia.
  - rewrite land_ff, int2u8_Some in E by (apply Z.mod_pos_bound; lia); rewrite (IH _ _ _ _ E); cbn [fold_left].
    f_equal; rewrite Nat2Z.inj_succ, Z.pow_succ_r, shr8 by lia.
    rewrite (Z.rem_mul_r i 256) by (try apply Z.pow_pos_nonneg; lia); ring.
Qed.

Lemma num_store_length n : forall i acc d, num_store n i acc = Some d -> length d = (n + length acc)%nat.
Proof.
  induction n as [|n IH]; intros i acc d E; cbn [num_store] in E; [injection E as <-; reflexivity|].
  rewrite land_ff, int2u8_Some in E by (apply Z.mod_pos_bound; lia); apply IH in E; simpl in E; lia.
Qed.

Lemma num_store_bytes n : forall i acc d, num_store n i acc = Some d -> bytes acc -> bytes d.
Proof.
  induction n as [|n IH]; intros i acc d E B; cbn [num_store] in E; [injection E as <-; exact B|].
  assert (is_byte (i mod 256)) by (apply Z.mod_pos_bound; lia).
  rewrite land_ff, int2u8_Some in E by assumption; apply (IH _ _ _ E); constructor; assumption.
Qed.

(** Storing what was read gives the octets back. *)
Lemma num_store_be d : bytes d -> forall s acc,
  num_store (length d) (fold_left (fun a b => a * 256 + b) d s) acc = Some (d ++ acc).
Proof.
  induction d as [|c d IH] using rev_ind; intros B s acc; [reflexivity|].
  apply bytes_app in B as [B C]; apply bytes_cons in C as [C _].
  rewrite length_app, Nat.add_comm; cbn [length Nat.add num_store]; rewrite fold_left_app; cbn [fold_left].
  set (x := fold_left (fun a b => a * 256 + b) d s).
  assert (E1 : (x * 256 + c) mod 256 = c) by (rewrite Z.add_comm, Z_mod_plus_full; apply Z.mod_small, C).
  assert (E2 : (x * 256 + c) / 256 = x) by (rewrite Z.div_add_l, (Z.div_small c 256 C) by lia; lia).
  rewrite land_ff, E1, shr8, E2, int2u8_Some by exact C; unfold x; rewrite IH by exact B.
  rewrite <- app_assoc; reflexivity.
Qed.

(** Reading octets into an [int], from the sign. *)
Lemma num_read d : bytes d -> forall s,
  fold_left (fun i c => Z.lor (i32 (Z.shiftl i 8)) (Z.land c 255)) d (i32 s) =
  i32 (fold_left (fun a b => a * 256 + b) d s).
Proof.
  induction d as [|c d IH]; intros B s; [reflexivity|]; apply bytes_cons in B as [C B]; cbn [fold_left].
  rewrite len_step by exact C; apply IH, B.
Qed.

Lemma be_range d : bytes d -> 0 <= fold_left (fun a b => a * 256 + b) d 0 < 256 ^ zlen d.
Proof.
  intros B; induction d as [|c d IH] using rev_ind; [cbn; lia|].
  apply bytes_app in B as [B C]; apply bytes_cons in C as [C _]; specialize (IH B).
  rewrite fold_left_app, zlen_app; cbn [fold_left]; change (zlen [c]) with 1.
  rewrite Z.pow_add_r by (zlen || lia); change (256 ^ 1) with 256; unfold is_byte in C; lia.
Qed.

Lemma be_sign d s : fold_left (fun a b => a * 256 + b) d s =
  s * 256 ^ zlen d + fold_left (fun a b => a * 256 + b) d 0.
Proof.
  revert s; induction d as [|c d IH]; intros s; [cbn; lia|]; cbn [fold_left].
  rewrite IH, (IH (0 * 256 + c)), zlen_cons, Z.pow_add_r by (zlen || lia); ring.
Qed.

(** The integer that octets denote. *)
Definition twos (d : list Z) : Z :=
  fold_left (fun a b => a * 256 + b) d (match d with c :: _ => if 128 <=? c then -1 else 0 | [] => 0 end).

Lemma fold_split q M R lo hi : 0 <= R < M -> (lo * M <= q * M + R < hi * M <-> lo <= q < hi).
Proof. intros; nia. Qed.

Lemma twos_first c d : bytes (c :: d) -> in_octets (zlen (c :: d)) (twos (c :: d)).
Proof.
  intros B; apply bytes_cons in B as [C B]; unfold is_byte in C; unfold twos, in_octets; cbn [fold_left].
  rewrite be_sign, zlen_cons; pose proof (be_range d B) as R; set (M := 256 ^ zlen d) in *.
  replace (2 ^ (8 * (1 + zlen d) - 1)) with (128 * M).
  - rewrite <- Z.mul_opp_l || replace (- (128 * M)) with (-128 * M) by lia; apply fold_split; [exact R|].
    destruct (Z.leb_spec 128 c); lia.
  - unfold M; change 256 with (2 ^ 8); rewrite <- Z.pow_mul_r by zlen.
    change 128 with (2 ^ 7); rewrite <- Z.pow_add_r by zlen; f_equal; lia.
Qed.

Lemma twos_padded c0 c1 d : bytes (c0 :: c1 :: d) ->
  ((c0 =? 0) && (c1 <? 128)) || ((c0 =? 255) && (128 <=? c1)) = true <->
  in_octets (zlen (c0 :: c1 :: d) - 1) (twos (c0 :: c1 :: d)).
Proof.
  intros B; apply bytes_cons in B as [C0 B]; apply bytes_cons in B as [C1 B]; unfold is_byte in *.
  unfold twos, in_octets; cbn [fold_left]; rewrite be_sign, !zlen_cons.
  pose proof (be_range d B) as R; set (M := 256 ^ zlen d) in *.
  replace (2 ^ (8 * (1 + (1 + zlen d) - 1) - 1)) with (128 * M).
  - replace (- (128 * M)) with (-128 * M) by lia; rewrite fold_split by exact R.
    destruct (Z.leb_spec 128 c0), (Z.eqb_spec c0 0), (Z.eqb_spec c0 255), (Z.ltb_spec c1 128), (Z.leb_spec 128 c1);
      cbn [andb orb]; split; intros; try reflexivity; try discriminate; lia.
  - unfold M; change 256 with (2 ^ 8); rewrite <- Z.pow_mul_r by zlen.
    change 128 with (2 ^ 7); rewrite <- Z.pow_add_r by zlen; f_equal; lia.
Qed.

Lemma in_octets_int n i : n <= 4 -> in_octets n i -> is_int i.
Proof.
  unfold in_octets, is_int, INT_MIN, INT_MAX; intros N I.
  assert (2 ^ (8 * n - 1) <= 2 ^ 31); [|lia].
  destruct (Z.le_gt_cases 0 (8 * n - 1)); [apply Z.pow_le_mono_r; lia|].
  rewrite Z.pow_neg_r by lia; lia.
Qed.

Lemma land_80 c : is_byte c -> (Z.land c 128 =? 0) = (c <? 128) /\ (Z.land c 128 =? 128) = (128 <=? c).
Proof.
  intros H; split; apply Bool.eqb_prop.
  - apply (byte_forall (fun c => Bool.eqb (Z.land c 128 =? 0) (c <? 128))); [reflexivity | exact H].
  - apply (byte_forall (fun c => Bool.eqb (Z.land c 128 =? 128) (128 <=? c))); [reflexivity | exact H].
Qed.

(** [prim2num] on a non-empty primitive. *)
Definition padded (d : list Z) : Prop := 1 < zlen d /\ in_octets (zlen d - 1) (twos d).

Lemma prim2num_value p d : pe_form p = PE_FORM_PRIM -> pe_prim p = Some d -> pe_len p = zlen d ->
  bytes d -> d <> [] ->
  (4 < zlen d -> prim2num p = Val (NOTOK, set_errno p PE_ERR_OVER)) /\
  (zlen d <= 4 -> padded d -> prim2num p = Val (NOTOK, set_errno p PE_ERR_SYNTAX)) /\
  (zlen d <= 4 -> ~ padded d -> prim2num p = Val (twos d, set_errno p PE_ERR_NONE)).
Proof.
  intros F E L B N; unfold prim2num; rewrite E, F, L; pose proof (zlen_nonneg d).
  change (negb (PE_FORM_PRIM =? PE_FORM_PRIM)) with false; cbn match.
  rewrite (proj2 (Z.ltb_ge (zlen d) 0)), Z.gtb_ltb by lia; cbn [orb].
  destruct d as [|c0 d]; [easy|]; pose proof (twos_first c0 d B) as T.
  destruct (Z.ltb_spec 4 (zlen (c0 :: d))) as [O|O]; [repeat split; intros; try lia; reflexivity|].
  split; [lia|]; cbn [set_errno pe_len pe_prim]; rewrite L, Z.gtb_ltb, rd_cons0.
  pose proof B as B'; apply bytes_cons in B' as [C0 B'].
  assert (Main : (c <- Val c0;; d0 <- rdn (c0 :: d) 0 (zlen (c0 :: d));;
      Val (fold_left (fun i c => Z.lor (i32 (Z.shiftl i 8)) (Z.land c 255)) d0
             (if negb (Z.land c 128 =? 0) then -1 else 0), set_errno p PE_ERR_NONE))
    = Val (twos (c0 :: d), set_errno p PE_ERR_NONE)).
  { cbn [cbind]; rewrite rdn_all; cbn [cbind]; f_equal; f_equal.
    rewrite (proj1 (land_80 c0 C0)); pose proof (in_octets_int _ _ O T) as I.
    unfold twos in *; replace (if negb (c0 <? 128) then -1 else 0) with (i32 (if 128 <=? c0 then -1 else 0)).
    - rewrite num_read, i32_id by assumption; reflexivity.
    - destruct (Z.ltb_spec c0 128), (Z.leb_spec 128 c0); try lia; reflexivity. }
  destruct d as [|c1 d]; cbn [cbind].
  { change (1 <? zlen [c0]) with false; cbn [cbind]; split; [intros _ [P _]; cbn in P; lia|]; intros _ _; exact Main. }
  replace (1 <? zlen (c0 :: c1 :: d)) with true by (symmetry; apply Z.ltb_lt; zlen); cbn [cbind].
  rewrite rd_consS, rd_cons0 by lia; cbn [cbind].
  apply bytes_cons in B' as [C1 _]; destruct (land_80 c1 C1) as [-> ->].
  pose proof (twos_padded c0 c1 d B) as P; set (b := _ || _) in *.
  assert (Z1 : 1 < zlen (c0 :: c1 :: d)) by zlen; unfold padded.
  destruct b; (split; [intros _ [_ Q] | intros _ Q]).
  - reflexivity.
  - exfalso; apply Q; split; [exact Z1 | apply P; reflexivity].
  - apply P in Q; discriminate.
  - exact Main.
Qed.

Section Num.
Context `{Allocator}.

(** What [num2prim] builds. *)
Definition num_element (i class id : Z) (p : PElement) : Prop :=
  exists d, p = mkPE 0 0 class PE_FORM_PRIM id (zlen d) 0 (Some d) [] 0 0 None 0 0 /\ bytes d /\
    d <> [] /\ zlen d <= 4 /\ twos d = i /\ ~ padded d.

Lemma octets_twos n i d : 1 <= n <= 4 -> in_octets n i -> num_store (Z.to_nat n) i [] = Some d -> twos d = i.
Proof.
  intros N I E; pose proof (num_store_length _ _ _ _ E) as L; pose proof (num_store_bytes _ _ _ _ E bytes_nil) as B.
  simpl in L; assert (Zd : zlen d = n) by (unfold zlen; lia).
  pose proof (num_store_fold _ _ _ _ 0 E) as F; cbn [fold_left] in F; rewrite Z2Nat.id in F by lia.
  destruct d as [|c d]; [cbn in Zd; lia|]; pose proof (twos_first c d B) as T; rewrite Zd in T.
  unfold twos in *; rewrite be_sign, F, Zd in T |- *; unfold in_octets in *.
  assert (P : 256 ^ n = 2 * 2 ^ (8 * n - 1)).
  { change 256 with (2 ^ 8); rewrite <- Z.pow_mul_r, <- Z.pow_succ_r by lia; f_equal; lia. }
  assert (0 < 2 ^ (8 * n - 1)) by (apply Z.pow_pos_nonneg; lia).
  rewrite P in *; set (M := 2 ^ (8 * n - 1)) in *; clearbody M.
  assert (R : i mod (2 * M) = if 0 <=? i then i else i + 2 * M).
  { destruct (Z.leb_spec 0 i); [apply Z.mod_small; lia|].
    rewrite <- (Z_mod_plus_full i 1), Z.mod_small by lia; lia. }
  rewrite R in *; destruct (128 <=? c), (Z.leb_spec 0 i); lia.
Qed.

Lemma num2prim_result i class id : is_int i -> is_byte class -> 0 <= id < 65536 ->
  match num2prim i class id with Some p => num_element i class id p | None => out_of_memory end.
Proof.
  intros I C D; unfold num2prim; rewrite int2u8_Some, int2u16_Some by assumption; unfold pe_alloc.
  destruct (pe_pool_ok class PE_FORM_PRIM id) eqn:P; [|right; eauto].
  change (if i >=? 0 then i else Z.lxor i (-1)) with (num_sign i).
  destruct (num_width_least i I) as (n & -> & N & O & Min).
  destruct (malloc_int n) eqn:M; [|apply (malloc_int_false n); [unfold INT_MAX; lia | exact M]].
  destruct (num_store (Z.to_nat n) i []) as [d|] eqn:E; [|apply num_store_some in E; easy].
  pose proof (num_store_length _ _ _ _ E) as L; simpl in L; assert (Zd : zlen d = n) by (unfold zlen; lia).
  pose proof (octets_twos n i d N O E) as T.
  exists d; rewrite Zd; split; [reflexivity|]; split; [eapply num_store_bytes; eauto using bytes_nil|].
  split; [intros ->; cbn in Zd; lia|]; split; [lia|]; split; [exact T|].
  intros [Q1 Q2]; rewrite T, Zd in *; specialize (Min (n - 1) ltac:(lia) Q2); lia.
Qed.

(** Octets without padding are those [num2prim] stores. *)
Lemma num2prim_canonical d class id : bytes d -> d <> [] -> zlen d <= 4 -> ~ padded d ->
  is_byte class -> 0 <= id < 65536 ->
  match num2prim (twos d) class id with Some p => pe_prim p = Some d | None => out_of_memory end.
Proof.
  intros B N L P C D; destruct d as [|c d]; [easy|]; pose proof (twos_first c d B) as T.
  pose proof (in_octets_int _ _ L T) as I; pose proof (num2prim_result _ class id I C D) as R.
  unfold num2prim in *; rewrite int2u8_Some, int2u16_Some in * by assumption.
  destruct (pe_alloc class PE_FORM_PRIM id) as [pe|]; [|exact R].
  change (if twos (c :: d) >=? 0 then _ else _) with (num_sign (twos (c :: d))) in *.
  destruct (num_width_least _ I) as (n & E & Nn & O & Min); rewrite E in *.
  assert (n = zlen (c :: d)) as ->.
  { specialize (Min (zlen (c :: d)) ltac:(zlen) T); destruct (Z.eq_dec n (zlen (c :: d))) as [|Q]; [assumption|].
    exfalso; apply P; split; [lia|]; unfold in_octets in *.
    assert (2 ^ (8 * n - 1) <= 2 ^ (8 * (zlen (c :: d) - 1) - 1)) by (apply Z.pow_le_mono_r; lia); lia. }
  destruct (malloc_int _); [|exact R].
  unfold zlen in *; rewrite Nat2Z.id in *.
  set (s0 := match c :: d with c :: _ => if 128 <=? c then -1 else 0 | [] => 0 end).
  pose proof (num_store_be (c :: d) B s0 []) as S; rewrite app_nil_r in S.
  change (fold_left (fun a b => a * 256 + b) (c :: d) s0) with (twos (c :: d)) in S.
  destruct (num_store (length (c :: d)) (twos (c :: d)) []) as [d'|]; [|exact R].
  injection S as ->; reflexivity.
Qed.
End Num.

(** ** Strings in segments *)

(** [class] and [id] are those of the first member. *)
Definition seg_tag (class id : Z) (p : PElement) : bool :=
  negb ((negb (pe_class p =? class) || negb (pe_id p =? id))
        && (negb (pe_class p =? PE_CLASS_UNIV) || negb (pe_id p =? PE_PRIM_OCTS))).

#[local] Unset Elimination Schemes.
Inductive str_segments (p : PElement) : Prop :=
| seg_leaf : pe_form p = PE_FORM_PRIM -> str_segments p
| seg_node first l : pe_form p = PE_FORM_CONS -> pe_cons p = first :: l ->
    Forall (fun q => seg_tag (pe_class first) (pe_id first) q = true) (first :: l) ->
    Forall str_segments (first :: l) -> str_segments p.
#[local] Set Elimination Schemes.

Section Strings.
Context `{Allocator}.

Definition str_list (class id e : Z) :=
  fix go (ps : list PElement) (dp : option (list Z)) (i : Z) {struct ps}
    : cres ((Z + list Z * Z) * list PElement) :=
  match ps with
  | [] => Val (match dp with Some d => inr (d, i) | None => inl e end, [])
  | p :: ps' =>
      if (negb (pe_class p =? class) || negb (pe_id p =? id))
         && (negb (pe_class p =? PE_CLASS_UNIV) || negb (pe_id p =? PE_PRIM_OCTS))
      then Val (inl PE_ERR_TYPE, p :: ps')
      else
        ' (ep, j, p) <- prim2str p;;
        match ep with
        | None => Val (inl PE_ERR_NMEM, p :: ps')
        | Some ep =>
            match dp with
            | Some d =>
                match add_int_to_int i j with
                | None => Val (inl PE_ERR_NMEM, p :: ps')
                | Some k =>
                    match add_int_to_int k 1 with
                    | None => Val (inl PE_ERR_NMEM, p :: ps')
                    | Some nbytes =>
                        if realloc_int nbytes then
                          e <- rdn ep 0 j;;
                          ' (r, l) <- go ps' (Some (ztake i d ++ e)) k;;
                          Val (r, p :: l)
                        else Val (inl PE_ERR_NMEM, p :: ps')
                    end
                end
            | None =>
                match add_int_to_int i j with
                | None => Val (inl PE_ERR_NMEM, p :: ps')
                | Some k => ' (r, l) <- go ps' (Some ep) k;; Val (r, p :: l)
                end
            end
        end
  end.

Lemma prim2str_eq pe : prim2str pe =
  if pe_form pe =? PE_FORM_PRIM then
    match add_int_to_int (pe_len pe) 1 with
    | None => Val (None, 0, set_errno pe PE_ERR_NMEM)
    | Some nbytes =>
        if malloc_int nbytes then
          d <- bcopy_int (pe_prim pe) (pe_len pe);;
          match d with
          | Some d => Val (Some (d ++ [0]), pe_len pe, pe)
          | None => Val (None, 0, set_errno pe PE_ERR_NMEM)
          end
        else Val (None, 0, set_errno pe PE_ERR_NMEM)
    end
  else if pe_form pe =? PE_FORM_CONS then
    match pe_cons pe with
    | [] => if malloc_int 1 then UB else Val (None, 0, set_errno pe PE_ERR_NMEM)
    | first :: _ =>
        ' (r, l) <- str_list (pe_class first) (pe_id first) (pe_errno pe) (pe_cons pe) None 0;;
        let pe := set_cons pe l in
        match r with
        | inl e => Val (None, 0, set_errno pe e)
        | inr (d, i) => Val (Some (ztake i d ++ [0]), i, pe)
        end
    end
  else UB.
Proof. destruct pe; reflexivity. Qed.

(** The outcome of [prim2str]: the string, or an error for want of memory. *)
Definition str_result (p : PElement) (r : cres (option (list Z) * Z * PElement)) : Prop :=
  r = Val (Some (leaves p ++ [0]), zlen (leaves p), p) \/
  (out_of_memory /\ exists p', r = Val (None, 0, p') /\ pe_errno p' = PE_ERR_NMEM).

Definition str_ok (p : PElement) : Prop :=
  pe_ok p -> str_segments p -> zlen (leaves p) < INT_MAX -> str_result p (prim2str p).

(** What the block [dp] holds after segments with the octets [d]. *)
Definition dp_holds (dp : option (list Z)) (d : list Z) : Prop :=
  match dp with Some b => ztake (zlen d) b = d | None => d = [] end.

Definition list_result (d : list Z) (ps : list PElement) (dp : option (list Z)) (e : Z)
  (r : cres ((Z + list Z * Z) * list PElement)) : Prop :=
  (exists b, r = Val (match dp, ps with None, [] => inl e | _, _ => inr (b, zlen (d ++ concat (map leaves ps))) end, ps) /\
     ztake (zlen (d ++ concat (map leaves ps))) b = d ++ concat (map leaves ps)) \/
  (out_of_memory /\ exists l, r = Val (inl PE_ERR_NMEM, l)).

Lemma str_list_result class id e ps : Forall str_ok ps -> Forall pe_ok ps -> Forall str_segments ps ->
  Forall (fun q => seg_tag class id q = true) ps ->
  forall dp d, dp_holds dp d -> zlen (d ++ concat (map leaves ps)) < INT_MAX ->
  list_result d ps dp e (str_list class id e ps dp (zlen d)).
Proof.
  induction 1 as [|p ps Hp _ IH]; intros O S T dp d Hd L.
  - left; simpl; rewrite app_nil_r; destruct dp as [b|]; [exists b; auto|].
    exists []; simpl in Hd; subst d; auto.
  - inversion_clear O as [|? ? Op Ops]; inversion_clear S as [|? ? Sp Sps]; inversion_clear T as [|? ? Tp Tps].
    unfold seg_tag in Tp; apply negb_true_iff in Tp; cbn [str_list map concat] in *; rewrite Tp.
    rewrite !zlen_app in L; pose proof (zlen_nonneg d); pose proof (zlen_nonneg (leaves p)).
    pose proof (zlen_nonneg (concat (map leaves ps))).
    destruct (Hp Op Sp ltac:(lia)) as [E|[OM (p' & E & _)]]; rewrite E; cbn [cbind].
    2: { right; split; [exact OM | eauto]. }
    assert (Step : forall b, ztake (zlen (d ++ leaves p)) b = d ++ leaves p ->
      list_result d (p :: ps) dp e
        (' (r, l) <- str_list class id e ps (Some b) (zlen d + zlen (leaves p));; Val (r, p :: l))).
    { intros b Hb; rewrite <- zlen_app.
      destruct (IH Ops Sps Tps (Some b) (d ++ leaves p) Hb) as [(b' & R & C)|[OM (l & R)]];
        [rewrite !zlen_app; lia | |]; rewrite R; cbn [cbind].
      - left; exists b'; cbn [map concat]; rewrite app_assoc; split; [destruct dp; reflexivity | exact C].
      - right; eauto. }
    destruct dp as [b|]; rewrite add_int_to_int_Some by lia.
    + rewrite add_int_to_int_Some by lia.
      destruct (realloc_int _) eqn:A; [|right; split; [eapply realloc_false; [|exact A]; lia | eauto]].
      rewrite rdn_app_l, rdn_all by lia; cbn [cbind]; simpl in Hd; rewrite Hd; apply Step, ztake_all; lia.
    + simpl in Hd; subst d; apply Step; apply ztake_app_exact; reflexivity.
Qed.

Lemma set_cons_same p : set_cons p (pe_cons p) = p.
Proof. destruct p; reflexivity. Qed.

Lemma prim2str_result p : str_ok p.
Proof.
  induction p as [p IH] using PElement_tree_ind; intros O S L; unfold str_result; rewrite prim2str_eq.
  rewrite leaves_eq in *; destruct S as [F|first l F E T S].
  - destruct (pe_ok_leaf p O) as (_ & _ & D & _); [rewrite F; discriminate|].
    pose proof (data_ok_len p D); pose proof (rdn_ptr_data p D) as R; destruct D as (E & _ & _).
    rewrite F in *; simpl Z.eqb in *; cbn match in *.
    rewrite add_int_to_int_Some by lia; destruct (malloc_int _) eqn:A.
    + left; unfold bcopy_int; rewrite int2sizet_Some, R by lia; cbn [cmap cbind]; rewrite E; reflexivity.
    + right; split; [eapply malloc_int_false; [|exact A]; lia | eauto].
  - destruct (pe_ok_node p O F) as (_ & _ & M); rewrite F in *; simpl Z.eqb in *; cbn match in *.
    rewrite E in *; destruct (str_list_result (pe_class first) (pe_id first) (pe_errno p) (first :: l) IH M S T None [])
      as [(b & R & C)|[OM (l' & R)]]; [reflexivity | exact L | |];
      change (zlen (@nil Z)) with 0 in R; rewrite R; cbn [cbind].
    + left; rewrite <- E, set_cons_same; cbn [app] in C |- *; rewrite <- E in C; rewrite C; reflexivity.
    + right; eauto.
Qed.
End Strings.

(** * The properties *)

(** C26. Integers round trip: for every [integer], [num2prim] builds a
    well-formed primitive (or runs out of memory) that [prim2num] reads back
    to the same integer without an error, and no shorter one has that value. *)
Theorem prim2num_num2prim : forall (A : Allocator) i class id, is_int i -> 0 <= class < 4 -> 0 <= id < 65536 ->
  match num2prim i class id with
  | Some p => pe_ok p /\ pe_class p = class /\ pe_id p = id /\
      prim2num p = Val (i, set_errno p PE_ERR_NONE) /\
      forall d, bytes d -> d <> [] -> zlen d <= 4 -> twos d = i -> pe_len p <= zlen d
  | None => out_of_memory
  end.
Proof.
  intros A i class id I C D; pose proof (num2prim_result i class id I ltac:(unfold is_byte; lia) D) as R.
  destruct (num2prim i class id) as [p|]; [|exact R]; destruct R as (d & -> & B & N & L & T & P).
  assert (O : data_ok (mkPE 0 0 class PE_FORM_PRIM id (zlen d) 0 (Some d) [] 0 0 None 0 0)).
  { unfold data_ok, INT_MAX; simpl; repeat split; [lia | exact B]. }
  split; [apply ok_prim; [left; reflexivity | split; assumption | exact O | reflexivity]|].
  split; [reflexivity|]; split; [reflexivity|]; split.
  - rewrite <- T; apply (prim2num_value _ d); auto.
  - intros d' B' N' L' T'; cbn [pe_len]; destruct (Z.le_gt_cases (zlen d) (zlen d')) as [|G]; [assumption|].
    exfalso; apply P; split; [destruct d'; [easy | zlen]|]; rewrite T, <- T'.
    destruct d' as [|c d']; [easy|]; pose proof (twos_first c d' B') as I'; unfold in_octets in *.
    assert (2 ^ (8 * zlen (c :: d') - 1) <= 2 ^ (8 * (zlen d - 1) - 1)) by (apply Z.pow_le_mono_r; lia); lia.
Qed.

(** The encoding of an integer is canonical: when [prim2num] accepts a
    well-formed non-empty primitive, encoding the integer it returns gives
    the same octets back; what it refuses is too long or padded. *)
Theorem num2prim_prim2num : forall (A : Allocator) p, pe_ok p -> pe_form p = PE_FORM_PRIM -> pe_data p <> [] ->
  exists i q, prim2num p = Val (i, q) /\
    ((pe_errno q = PE_ERR_NONE /\ is_int i /\
      match num2prim i (pe_class p) (pe_id p) with
      | Some p' => pe_value p' = pe_value p
      | None => out_of_memory
      end) \/
     (i = NOTOK /\ (pe_errno q = PE_ERR_OVER \/ pe_errno q = PE_ERR_SYNTAX))).
Proof.
  intros A p O F N; destruct (pe_ok_leaf p O) as (_ & [C D] & (L & _ & B) & _); [rewrite F; discriminate|].
  unfold pe_data in *; destruct (pe_prim p) as [d|] eqn:E; [|easy].
  destruct (prim2num_value p d F E L B N) as (V1 & V2 & V3).
  destruct (Z.lt_ge_cases 4 (zlen d)) as [G|G]; [rewrite V1 by exact G; eauto 10|].
  assert (Dec : padded d \/ ~ padded d).
  { unfold padded, in_octets; lia. }
  destruct Dec as [P|P]; [rewrite V2 by assumption; eauto 10|]; rewrite V3 by assumption.
  do 2 eexists; split; [reflexivity|]; left; split; [reflexivity|].
  assert (Cb : is_byte (pe_class p)) by (unfold is_byte; lia).
  assert (I : is_int (twos d)).
  { destruct d as [|c d']; [easy|]; eapply in_octets_int; [|apply twos_first, B]; lia. }
  split; [exact I|]; pose proof (num2prim_canonical d _ _ B N G P Cb D) as K.
  pose proof (num2prim_result _ _ _ I Cb D) as R.
  destruct (num2prim (twos d) (pe_class p) (pe_id p)) as [p'|]; [|exact K].
  destruct R as (d' & -> & _); cbn in K; injection K as ->.
  rewrite (pe_value_prim p F); unfold pe_data; rewrite E; reflexivity.
Qed.

(** [prim2num] reads the first octet of an empty buffer. *)
Theorem prim2num_empty_overread : forall p, pe_form p = PE_FORM_PRIM -> pe_prim p = Some [] -> pe_len p = 0 ->
  prim2num p = UB.
Proof. intros p F E L; unfold prim2num; rewrite E, F, L; cbn [set_errno pe_len]; rewrite L; reflexivity. Qed.

(** Strings: [prim2str] gathers a string, primitive or nested to any depth in
    segments that carry the tag of the first or that of an octet string, into
    one null-terminated block with its length, leaving the element alone; it
    fails only for want of memory. [str2prim] makes the primitive back. *)
Theorem prim2str_gathers : forall (A : Allocator) p, pe_ok p -> str_segments p -> zlen (leaves p) < INT_MAX ->
  (prim2str p = Val (Some (leaves p ++ [0]), zlen (leaves p), p) \/
   (out_of_memory /\ exists p', prim2str p = Val (None, 0, p') /\ pe_errno p' = PE_ERR_NMEM)) /\
  exists o, str2prim (Some (leaves p ++ [0])) (zlen (leaves p)) (pe_class p) (pe_id p) = Val o /\
    match o with
    | Some q => pe_value q = VPrim (pe_class p) (pe_id p) (leaves p)
    | None => out_of_memory
    end.
Proof.
  intros A p O S L; split; [exact (prim2str_result p O S L)|].
  pose proof (zlen_nonneg (leaves p)); unfold str2prim, pe_alloc.
  destruct (pe_pool_ok _ _ _) eqn:P; [|exists None; split; [reflexivity | right; eauto]].
  destruct (Z.eqb_spec (zlen (leaves p)) 0) as [Z0|Z0]; cbn [negb andb].
  - rewrite (zlen_0 _ Z0); eexists; split; reflexivity.
  - destruct (malloc_int (zlen (leaves p))) eqn:M; cbn [negb].
    + unfold bcopy_int, rdn_ptr; rewrite int2sizet_Some, rdn_app_l, rdn_all by lia; cbn [cmap cbind].
      eexists; split; [reflexivity|]; reflexivity.
    + exists None; split; [reflexivity|]; apply (malloc_int_false (zlen (leaves p))); [lia | exact M].
Qed.

(** [prim2str] of a constructor without members terminates the string at an
    uninitialised index. *)
Theorem prim2str_empty_cons : forall p, pe_form p = PE_FORM_CONS -> pe_cons p = [] -> @prim2str plenty p = UB.
Proof. intros p F E; rewrite prim2str_eq, F, E; reflexivity. Qed.

(** Booleans round trip: every non-zero flag reads back as 1. *)
Theorem prim2flag_flag2prim : forall (A : Allocator) b class id, 0 <= class < 4 -> 0 <= id < 65536 ->
  match flag2prim b class id with
  | Some p => pe_ok p /\ prim2flag p = Val (if b =? 0 then 0 else 1, p)
  | None => out_of_memory
  end.
Proof.
  intros A b class id C D; unfold flag2prim, pe_alloc; rewrite int2u8_Some, int2u16_Some by (unfold is_byte; lia).
  destruct (pe_pool_ok class PE_FORM_PRIM id) eqn:P; [|right; eauto].
  destruct (malloc_int 1) eqn:M; [|apply (malloc_int_false 1); [unfold INT_MAX; lia | exact M]].
  rewrite int2u8_Some by (unfold is_byte; destruct (b =? 0); simpl; lia); split.
  - apply ok_prim; [left; reflexivity | split; assumption | | reflexivity].
    unfold data_ok; cbn; split; [reflexivity|]; split; [discriminate|].
    repeat constructor; destruct (b =? 0); cbn; lia.
  - destruct (b =? 0); reflexivity.
Qed.

(** * Witnesses *)

Lemma prim2num_num2prim_witness : exists p, @num2prim plenty (-129) 0 2 = Some p /\
  prim2num p = Val (-129, set_errno p PE_ERR_NONE) /\ pe_prim p = Some [255; 127].
Proof.
  pose proof (prim2num_num2prim plenty (-129) 0 2 ltac:(unfold is_int, INT_MIN, INT_MAX; lia) ltac:(lia) ltac:(lia)) as W.
  eexists; split; [vm_compute; reflexivity|]; split; [|reflexivity]; exact (proj1 (proj2 (proj2 (proj2 W)))).
Defined.

Lemma num2prim_prim2num_witness : exists i q, prim2num ex_int = Val (i, q).
Proof.
  destruct (num2prim_prim2num plenty ex_int) as (i & q & E & _);
    [apply pe_okb_ok; reflexivity | reflexivity | discriminate | exists i, q; exact E].
Defined.

Lemma prim2str_gathers_witness :
  @prim2str plenty ex_string = Val (Some [104; 105; 104; 105; 0], 4, ex_string) \/
  (@out_of_memory plenty /\ exists p', @prim2str plenty ex_string = Val (None, 0, p') /\ pe_errno p' = PE_ERR_NMEM).
Proof.
  apply (prim2str_gathers plenty ex_string); [apply pe_okb_ok; reflexivity | | vm_compute; reflexivity].
  eapply seg_node; [reflexivity | reflexivity | repeat constructor |].
  repeat constructor.
Defined.

Lemma prim2flag_flag2prim_witness : exists p, @flag2prim plenty 3 0 1 = Some p /\ prim2flag p = Val (1, p).
Proof.
  pose proof (prim2flag_flag2prim plenty 3 0 1 ltac:(lia) ltac:(lia)) as W.
  eexists; split; [vm_compute; reflexivity | exact (proj2 W)].
Defined.
