(* ===== verification/Bits.v ===== *)
(** * psap: bit strings (prim2bit.c, bit2prim.c, bit_ops.c, int2strb.c,
    strb2int.c, bitstr2strb.c, strb2bitstr.c)

    The first octet of a primitive bit string counts the unused bits of the
    last; [pe_nbits] is the number of bits. A pointer to an octet of an
    element is the path of the member that holds it and an offset. *)

From S2P Require Import Prelude Conv PElement.
Open Scope Z_scope.
Open Scope c_scope.

(** ** Pointers into an element *)

Definition path : Type := list nat.

Fixpoint pe_at (pe : PElement) (pa : path) {struct pa} : option PElement :=
  match pa with
  | [] => Some pe
  | k :: pa' => match nth_error (pe_cons pe) k with Some p => pe_at p pa' | None => None end
  end.

Fixpoint list_set {A} (l : list A) (k : nat) (a : A) : list A :=
  match l, k with
  | [], _ => []
  | _ :: l', O => a :: l'
  | b :: l', S k' => b :: list_set l' k' a
  end.

(** The element with the member at [pa] replaced. *)
Fixpoint pe_put (pe : PElement) (pa : path) (q : PElement) {struct pa} : PElement :=
  match pa with
  | [] => q
  | k :: pa' =>
      match nth_error (pe_cons pe) k with
      | Some p => set_cons pe (list_set (pe_cons pe) k (pe_put p pa' q))
      | None => pe
      end
  end.

(** [*bp], and [*bp = c], for the pointer [bp] to octet [off] of member [pa]. *)
Definition octet_get (pe : PElement) (pa : path) (off : Z) : cres Z :=
  match pe_at pe pa with Some q => rd_ptr (pe_prim q) off | None => UB end.

Definition octet_put (pe : PElement) (pa : path) (off c : Z) : cres PElement :=
  match pe_at pe pa with
  | Some q =>
      match pe_prim q with
      | Some b => b' <- wr b off [c];; Val (pe_put pe pa (set_prim q (Some b')))
      | None => UB
      end
  | None => UB
  end.

(** ** prim2bit.c *)

Fixpoint prim2bit (pe : PElement) : cres (bool * PElement) :=
  if pe_form pe =? PE_FORM_PRIM then
    match pe_prim pe with
    | Some bp =>
        if negb (pe_len pe =? 0) then
          c <- rd bp 0;;
          let i := Z.land c 255 in
          if i >? 7 then Val (pe_seterr pe PE_ERR_BITS false)
          else Val (true, set_nbits pe (i32 (i32 ((pe_len pe - 1) * 8) - i)))
        else Val (true, set_nbits pe 0)
    | None => Val (true, set_nbits pe 0)
    end
  else if pe_form pe =? PE_FORM_CONS then
    ' (ok, l, n) <-
      (fix go (ps : list PElement) (n : Z) {struct ps} : cres (bool * list PElement * Z) :=
         match ps with
         | [] => Val (true, [], n)
         | p :: ps' =>
             ' (ok, p) <- prim2bit p;;
             if (ok : bool) then
               ' (ok, l, n) <- go ps' (i32 (n + pe_nbits p));;
               Val (ok, p :: l, n)
             else Val (false, p :: ps', n)
         end) (pe_cons pe) 0;;
    Val (ok, set_nbits (set_cons pe l) n)
  else Val (true, pe).

Section Bits.
Context `{Allocator}.

(** ** bit2prim.c: [false] where the code returns NULLPE *)

(** The case PE_FORM_PRIM of [bit2prim_aux]. *)
Definition bit2prim_prim (pe : PElement) : cres (bool * PElement) :=
  match pe_prim pe with
  | Some b =>
      if negb (pe_len pe =? 0) then
        let i := i32 (i32 ((pe_len pe - 1) * 8) - pe_nbits pe) in
        if i >? 7 then Val (pe_seterr pe PE_ERR_BITS false)
        else
          match int2u8 (Z.land i 255) with
          | Some c => b' <- wr b 0 [c];; Val (true, set_prim pe (Some b'))
          | None => Val (pe_seterr pe PE_ERR_OVER false)
          end
      else Val (true, pe)
  | None => Val (true, pe)
  end.

(** The octet of a new primitive is not initialised before
    [bit2prim_aux] stores it. *)
Fixpoint bit2prim (pe : PElement) : cres (bool * PElement) :=
  if pe_form pe =? PE_FORM_PRIM then
    match pe_prim pe with
    | Some _ => bit2prim_prim pe
    | None =>
        if malloc_int 1 then bit2prim_prim (set_nbits (set_len (set_prim pe (Some [0])) 1) 0)
        else Val (false, pe)
    end
  else if pe_form pe =? PE_FORM_CONS then
    ' (ok, l) <-
      (fix go (ps : list PElement) {struct ps} : cres (bool * list PElement) :=
         match ps with
         | [] => Val (true, [])
         | p :: ps' =>
             ' (ok, p) <- bit2prim p;;
             if (ok : bool) then ' (ok, l) <- go ps';; Val (ok, p :: l)
             else Val (false, p :: ps')
         end) (pe_cons pe);;
    Val (ok, set_cons pe l)
  else Val (true, pe).

(** ** bit_ops.c *)

(** [1 << (7 - (i % 8))], and [i / 8]: C division truncates. *)
Definition bit_mask (i : Z) : Z := Z.shiftl 1 (7 - Z.rem i 8).

(** The octet and mask of bit [n], or [n] less the bits passed over. *)
Fixpoint ffb_aux (pe : PElement) (n : Z) : option (path * Z * Z) * Z :=
  if pe_form pe =? PE_FORM_PRIM then
    if pe_nbits pe >? n then (Some ([], Z.quot n 8 + 1, bit_mask n), n)
    else (None, n - pe_nbits pe)
  else if pe_form pe =? PE_FORM_CONS then
    (fix go (ps : list PElement) (k : nat) (n : Z) {struct ps} : option (path * Z * Z) * Z :=
       match ps with
       | [] => (None, n)
       | p :: ps' =>
           match ffb_aux p n with
           | (Some (pa, off, mask), n) => (Some (k :: pa, off, mask), n)
           | (None, n) => go ps' (S k) n
           end
       end) (pe_cons pe) O n
  else (None, n).

(** The path of the last member, through constructors, or of the
    constructor itself when it has none to extend. *)
Fixpoint ffb_pe (pe : PElement) : path :=
  (fix go (ps : list PElement) (k : nat) {struct ps} : path :=
     match ps with
     | [] => []
     | [q] =>
         if pe_form q =? PE_FORM_PRIM then [k]
         else if pe_form q =? PE_FORM_CONS then k :: ffb_pe q
         else []
     | _ :: ps' => go ps' (S k)
     end) (pe_cons pe) O.

(** The primitive [q] with room for octet [i], all of it zero beyond the old one. *)
Definition ffb_grow (q : PElement) (i : Z) : cres (option PElement) :=
  let len := i + 1 in
  if pe_len q <? len then
    if malloc_int len then
      match bzero_int len with
      | None => Val None
      | Some z =>
          match pe_prim q with
          | None => Val (Some (set_len (set_prim q (Some z)) len))
          | Some _ =>
              d <- bcopy_int (pe_prim q) (pe_len q);;
              let b := match d with Some d => d ++ zdrop (zlen d) z | None => z end in
              Val (Some (set_len (set_prim (set_inline q 0) (Some b)) len))
          end
      end
    else Val None
  else Val (Some q).

Definition ffb (pe : PElement) (n xtnd : Z) : cres (option (path * Z * Z) * PElement) :=
  let i := Z.quot n 8 + 1 in
  match ffb_aux pe n with
  | (Some bp, _) => Val (Some bp, pe)
  | (None, j) =>
      if xtnd =? 0 then Val (None, pe)
      else
        let pa := if pe_form pe =? PE_FORM_CONS then ffb_pe pe else [] in
        match pe_at pe pa with
        | None => UB
        | Some q =>
            if pe_form q =? PE_FORM_PRIM then
              r <- ffb_grow q i;;
              match r with
              | None => Val (None, pe)
              | Some q => Val (Some (pa, i, bit_mask n), pe_put pe pa (set_nbits q (n + 1)))
              end
            else if pe_form q =? PE_FORM_CONS then
              match pe_alloc (pe_class q) PE_FORM_PRIM (pe_id q) with
              | None => Val (None, pe)
              | Some r =>
                  let len := Z.quot j 8 + 2 in
                  if malloc_int len then
                    match bzero_int len with
                    | None => Val (None, pe)
                    | Some z =>
                        let r := set_nbits (set_prim (set_len r len) (Some z)) (j + 1) in
                        Val (Some (pa ++ [length (pe_cons q)], len - 1, bit_mask j),
                             pe_put pe pa (set_cons q (pe_cons q ++ [r])))
                    end
                  else Val (None, pe)
              end
            else Val (None, pe)
        end
  end.

Definition bit_on (pe : PElement) (i : Z) : cres (Z * PElement) :=
  ' (r, pe) <- ffb pe i 1;;
  match r with
  | None => Val (pe_seterr pe PE_ERR_NMEM NOTOK)
  | Some (pa, off, mask) =>
      match int2u8 mask with
      | None => Val (pe_seterr pe PE_ERR_NMEM NOTOK)
      | Some m => c <- octet_get pe pa off;; pe <- octet_put pe pa off (u8 (Z.lor c m));; Val (OK, pe)
      end
  end.

Definition bit_off (pe : PElement) (i : Z) : cres (Z * PElement) :=
  ' (r, pe) <- ffb pe i 1;;
  match r with
  | None => Val (pe_seterr pe PE_ERR_NMEM NOTOK)
  | Some (pa, off, mask) =>
      match int2u8 mask with
      | None => Val (pe_seterr pe PE_ERR_NMEM NOTOK)
      | Some m => c <- octet_get pe pa off;; pe <- octet_put pe pa off (u8_bic c m);; Val (OK, pe)
      end
  end.

Definition bit_test (pe : PElement) (i : Z) : cres (Z * PElement) :=
  ' (r, pe) <- ffb pe i 0;;
  match r with
  | None => Val (pe_seterr pe PE_ERR_BIT NOTOK)
  | Some (pa, off, mask) =>
      c <- octet_get pe pa off;; Val (if negb (Z.land c mask =? 0) then 1 else 0, pe)
  end.

(** ** int2strb.c, strb2int.c *)

(** The buffer of [sizeof (int) + 1] octets, from bit [i] on. *)
Fixpoint int2strb_loop (fuel : nat) (buffer : list Z) (n i len : Z) : cres (option (list Z)) :=
  match fuel with
  | O => Val (Some buffer)
  | S fuel' =>
      if i <? len then
        if negb (Z.land n (i32 (Z.shiftl 1 i)) =? 0) then
          c <- rd buffer (Z.quot i 8);;
          match char_bis c (bit_mask i) with
          | None => Val None
          | Some c => buffer <- wr buffer (Z.quot i 8) [c];; int2strb_loop fuel' buffer n (i + 1) len
          end
        else int2strb_loop fuel' buffer n (i + 1) len
      else Val (Some buffer)
  end.

Definition int2strb (n len : Z) : cres (option (list Z)) :=
  int2strb_loop (Z.to_nat len) [0; 0; 0; 0; 0] n 0 len.

(** The loop that [strb2int] and [strb2bitstr] share: [f] is applied to
    every index whose bit is set. The octet after the last is fetched as
    soon as the eighth bit of one is done. *)
Fixpoint strb_loop {A} (f : A -> Z -> cres (A + A)) (fuel : nat) (cp : list Z) (at_ bit j mask i len : Z) (a : A)
  : cres (A + A) :=
  match fuel with
  | O => Val (inl a)
  | S fuel' =>
      if i <? len then
        r <- (if negb (Z.land bit mask =? 0) then f a i else Val (inl a));;
        match r with
        | inr a => Val (inr a)
        | inl a =>
            if j =? 0 then
              c <- rd cp (at_ + 1);;
              strb_loop f fuel' cp (at_ + 1) (Z.land c 255) 7 128 (i + 1) len a
            else strb_loop f fuel' cp at_ bit (j - 1) (Z.shiftr mask 1) (i + 1) len a
        end
      else Val (inl a)
  end.

Definition strb2int (cp : list Z) (len : Z) : cres Z :=
  c <- rd cp 0;;
  r <- strb_loop (fun n i => Val (inl (i32 (Z.lor n (Z.shiftl 1 i))))) (Z.to_nat len) cp 0 (Z.land c 255) 7 128 0 len 0;;
  Val (match r with inl n | inr n => n end).

(** ** strb2bitstr.c, bitstr2strb.c *)

Definition strb2bitstr (cp : list Z) (len class id : Z) : cres (option PElement) :=
  match pe_alloc class PE_FORM_PRIM id with
  | None => Val None
  | Some p =>
      ' (_, p) <- prim2bit p;;
      ' (rc, p) <- (if len >? 0 then bit_off p (len - 1) else Val (OK, p));;
      if rc =? NOTOK then Val None
      else
        c <- rd cp 0;;
        r <- strb_loop (fun p i => ' (rc, p) <- bit_on p i;; Val (if rc =? NOTOK then inr p else inl p))
               (Z.to_nat len) cp 0 (Z.land c 255) 7 128 0 len p;;
        Val (match r with inl p => Some p | inr _ => None end)
  end.

(** The loop of [bitstr2strb]; [cp] holds the octets stored so far. *)
Fixpoint bitstr2strb_loop (fuel : nat) (pe : PElement) (cp : list Z) (bit j mask i len : Z)
  : cres (option (list Z * Z * Z) * PElement) :=
  match fuel with
  | O => Val (Some (cp, bit, j), pe)
  | S fuel' =>
      if i <? len then
        ' (t, pe) <- bit_test pe i;;
        let bit := if negb (t =? 0) then Z.lor bit mask else bit in
        if j =? 0 then
          match int2octet (Z.land bit 255) with
          | None => Val (None, pe)
          | Some c => bitstr2strb_loop fuel' pe (cp ++ [c]) 0 7 128 (i + 1) len
          end
        else bitstr2strb_loop fuel' pe cp bit (j - 1) (Z.shiftr mask 1) (i + 1) len
      else Val (Some (cp, bit, j), pe)
  end.

(** The block of [len / 8 + 2] octets, zero at first, and [*k]. *)
Definition bitstr2strb (pe : PElement) : cres (option (list Z) * Z * PElement) :=
  let len := pe_nbits pe in
  if malloc_ok (u32 (Z.quot len 8 + 2)) then
    ' (r, pe) <- bitstr2strb_loop (Z.to_nat len) pe [] 0 7 128 0 len;;
    match r with
    | None => Val (None, len, pe)
    | Some (cp, bit, j) =>
        let z := repeat 0 (Z.to_nat (Z.quot len 8 + 2)) in
        if negb (j =? 7) then
          match int2octet (Z.land bit 255) with
          | None => Val (None, len, pe)
          | Some c => b <- wr z 0 (cp ++ [c]);; Val (Some b, len, pe)
          end
        else b <- wr z 0 cp;; Val (Some b, len, pe)
    end
  else Val (None, len, pe).
End Bits.

(** Runs on small inputs. *)
Example int2strb_run : int2strb 5 4 = Val (Some [160; 0; 0; 0; 0]).
Proof. vm_compute; reflexivity. Qed.
Example strb2int_run : strb2int [160; 0] 4 = Val 5.
Proof. vm_compute; reflexivity. Qed.
Example bitstr_run : exists p, @strb2bitstr plenty [165; 192; 0] 10 0 3 = Val (Some p) /\
  pe_prim p = Some [0; 165; 192] /\ @bitstr2strb plenty p = Val (Some [165; 192; 0], 10, p).
Proof. eexists; split; [vm_compute; reflexivity|]; split; vm_compute; reflexivity. Qed.

(** * Lemmas *)

(** ** The bits of a primitive *)

(** The bit [k] of the buffer, whatever [pe_nbits] says. *)
Definition raw_bit (p : PElement) (k : Z) : bool :=
  Z.testbit (nth (Z.to_nat (k / 8 + 1)) (pe_data p) 0) (7 - k mod 8).

(** The bit [k] of the string. *)
Definition pe_bit (p : PElement) (k : Z) : bool := (k <? pe_nbits p) && raw_bit p k.

(** A primitive bit string: the buffer has room for its bits, and those it
    has room for beyond them are off. *)
Record bits_ok (p : PElement) : Prop := {
  bits_form : pe_form p = PE_FORM_PRIM;
  bits_tag : tag_ok p;
  bits_data : data_ok p;
  bits_cons : pe_cons p = [];
  bits_count : 0 <= pe_nbits p <= INT_MAX;
  bits_room : pe_nbits p <= (zlen (pe_data p) - 1) * 8 \/ (pe_data p = [] /\ pe_nbits p = 0);
  bits_tail : forall k, pe_nbits p <= k -> raw_bit p k = false
}.

Lemma div8 k : 0 <= k -> Z.quot k 8 = k / 8 /\ Z.rem k 8 = k mod 8.
Proof. intros; split; [apply Z.quot_div_nonneg | apply Z.rem_mod_nonneg]; lia. Qed.

Lemma bit_mask_pow k : 0 <= k -> bit_mask k = 2 ^ (7 - k mod 8) /\ is_byte (bit_mask k).
Proof.
  intros K; unfold bit_mask; rewrite (proj2 (div8 k K)); pose proof (Z.mod_pos_bound k 8 ltac:(lia)).
  rewrite Z.shiftl_mul_pow2, Z.mul_1_l by lia; split; [reflexivity|].
  unfold is_byte; change 256 with (2 ^ 8); split; [apply Z.pow_nonneg; lia | apply Z.pow_lt_mono_r; lia].
Qed.

Lemma land_pow_test c m : 0 <= m -> negb (Z.land c (2 ^ m) =? 0) = Z.testbit c m.
Proof.
  intros M; destruct (Z.testbit c m) eqn:T.
  - apply negb_true_iff, Z.eqb_neq; intros E; apply (f_equal (fun z => Z.testbit z m)) in E.
    rewrite Z.land_spec, T, Z.pow2_bits_true, Z.bits_0 in E by lia; discriminate.
  - apply negb_false_iff, Z.eqb_eq, Z.bits_inj'; intros i Hi; rewrite Z.land_spec, Z.bits_0.
    destruct (Z.eq_dec i m) as [->|N]; [rewrite T; reflexivity|].
    rewrite Z.pow2_bits_false by lia; apply andb_false_r.
Qed.

Lemma u8_testbit z m : 0 <= m < 8 -> Z.testbit (u8 z) m = Z.testbit z m.
Proof. intros; unfold u8; change 256 with (2 ^ 8); apply Z.mod_pow2_bits_low; lia. Qed.

(** Setting or clearing the bit of mask [2 ^ m]. *)
Lemma set_testbit c m k : 0 <= m < 8 -> 0 <= k < 8 ->
  Z.testbit (u8 (Z.lor c (2 ^ m))) k = if k =? m then true else Z.testbit c k.
Proof.
  intros M K; rewrite u8_testbit, Z.lor_spec by lia; destruct (Z.eqb_spec k m) as [->|N].
  - rewrite Z.pow2_bits_true by lia; apply orb_true_r.
  - rewrite Z.pow2_bits_false by lia; apply orb_false_r.
Qed.

Lemma clear_testbit c m k : 0 <= m < 8 -> 0 <= k < 8 ->
  Z.testbit (u8_bic c (2 ^ m)) k = if k =? m then false else Z.testbit c k.
Proof.
  intros M K; unfold u8_bic; rewrite u8_testbit, Z.land_spec, Z.lnot_spec by lia.
  destruct (Z.eqb_spec k m) as [->|N].
  - rewrite Z.pow2_bits_true by lia; apply andb_false_r.
  - rewrite Z.pow2_bits_false by lia; apply andb_true_r.
Qed.

Lemma same_bit k n : 0 <= k -> 0 <= n ->
  (Nat.eqb (Z.to_nat (k / 8 + 1)) (Z.to_nat (n / 8 + 1)) && (7 - k mod 8 =? 7 - n mod 8)) = (k =? n).
Proof.
  intros K N; pose proof (Z.div_pos k 8 K ltac:(lia)); pose proof (Z.div_pos n 8 N ltac:(lia)).
  pose proof (Z.div_mod k 8 ltac:(lia)); pose proof (Z.div_mod n 8 ltac:(lia)).
  destruct (Nat.eqb_spec (Z.to_nat (k / 8 + 1)) (Z.to_nat (n / 8 + 1))) as [E|E],
    (Z.eqb_spec (7 - k mod 8) (7 - n mod 8)) as [E'|E'], (Z.eqb_spec k n) as [->|N']; try reflexivity; try lia.
Qed.

Section BitLemmas.
Context `{Allocator}.

(** Writing the octet of bit [n] of a primitive. *)
Lemma octet_put_bit p n c' v : 0 <= n -> pe_form p = PE_FORM_PRIM -> data_ok p -> n / 8 + 1 < zlen (pe_data p) ->
  is_byte c' ->
  (forall k, 0 <= k < 8 -> Z.testbit c' k =
     if k =? 7 - n mod 8 then v else Z.testbit (nth (Z.to_nat (n / 8 + 1)) (pe_data p) 0) k) ->
  exists b, octet_put p [] (n / 8 + 1) c' = Val (set_prim p (Some b)) /\ data_ok (set_prim p (Some b)) /\
    zlen b = zlen (pe_data p) /\
    forall k, 0 <= k -> raw_bit (set_prim p (Some b)) k = if k =? n then v else raw_bit p k.
Proof.
  intros N F D R C T; pose proof (Z.div_pos n 8 N ltac:(lia)); unfold octet_put; cbn [pe_at pe_put].
  unfold pe_data in R, T; destruct (pe_prim p) as [b|] eqn:E; [|cbn in R; lia].
  destruct (wr1 b (n / 8 + 1) c') as (b' & W & L & Nth); [lia|]; rewrite W; cbn [cbind].
  exists b'; split; [reflexivity|].
  assert (Dp : pe_data p = b) by (unfold pe_data; rewrite E; reflexivity).
  destruct D as (D1 & D2 & D3); rewrite Dp in *; split; [|split; [exact L|]].
  - unfold data_ok; cbn; split; [congruence|]; split; [exact D2|]; apply bytes_of_nth; intros k; rewrite Nth.
    destruct (Nat.eqb _ _); [exact C | apply bytes_nth, D3].
  - intros k K; unfold raw_bit; rewrite Dp; unfold pe_data at 1; cbn [pe_prim set_prim]; rewrite Nth.
    rewrite <- same_bit by lia; pose proof (Z.mod_pos_bound k 8 ltac:(lia)).
    destruct (Nat.eqb_spec (Z.to_nat (k / 8 + 1)) (Z.to_nat (n / 8 + 1))) as [->|]; [|reflexivity].
    cbn [andb]; apply T; lia.
Qed.

Lemma nth_repeat0 k n : nth k (repeat 0 n) 0 = 0.
Proof. revert k; induction n; intros [|k]; simpl; auto. Qed.

(** Growing the buffer keeps the bits. *)
Lemma ffb_grow_spec q i : data_ok q -> 0 <= i < INT_MAX ->
  alloc_result (ffb_grow q i) (fun q' =>
    exists b ln, q' = set_len (set_prim (set_inline q ln) b) (Z.max (pe_len q) (i + 1)) /\
      data_ok q' /\ i < zlen (pe_data q') /\ zlen (pe_data q) <= zlen (pe_data q') /\
      forall k, nth k (pe_data q') 0 = nth k (pe_data q) 0).
Proof.
  intros D R; pose proof (data_ok_len q D) as L; pose proof D as (D1 & D2 & D3); unfold alloc_result, ffb_grow.
  destruct (Z.ltb_spec (pe_len q) (i + 1)) as [Lt|Ge].
  2: { exists (Some q); split; [reflexivity|]; exists (pe_prim q), (pe_inline q).
       rewrite Z.max_l by lia; split; [destruct q; reflexivity|]; split; [exact D|]; split; [lia|]; split; [lia | reflexivity]. }
  destruct (malloc_int (i + 1)) eqn:M; [|exists None; split; [reflexivity|]; apply (malloc_int_false (i + 1)); [lia | exact M]].
  unfold bzero_int; rewrite int2sizet_Some by lia; rewrite Z.max_r by lia.
  set (z := repeat 0 (Z.to_nat (i + 1))); assert (Lz : zlen z = i + 1) by (unfold z, zlen; rewrite repeat_length; lia).
  assert (Bz : bytes z) by (apply bytes_of_nth; intros k; unfold z; rewrite nth_repeat0; unfold is_byte; lia).
  assert (Main : forall b ln, zlen b = i + 1 -> bytes b -> (forall k, nth k b 0 = nth k (pe_data q) 0) ->
     exists b0 ln0, set_len (set_prim (set_inline q ln) (Some b)) (i + 1) = set_len (set_prim (set_inline q ln0) b0) (i + 1) /\
      data_ok (set_len (set_prim (set_inline q ln) (Some b)) (i + 1)) /\ i < zlen b /\ zlen (pe_data q) <= zlen b /\
      forall k, nth k b 0 = nth k (pe_data q) 0).
  { intros b ln Lb Bb Nb; exists (Some b), ln; split; [reflexivity|]; split; [unfold data_ok; cbn; repeat split; (lia || assumption)|].
    split; [lia|]; split; [lia | exact Nb]. }
  destruct (pe_prim q) as [d|] eqn:E.
  - unfold bcopy_int, rdn_ptr; rewrite int2sizet_Some by lia; unfold pe_data in D1; rewrite E in D1; rewrite D1, rdn_all; cbn [cmap cbind].
    eexists; split; [reflexivity|]; apply (Main (d ++ zdrop (zlen d) z) 0).
    + rewrite zlen_app, zlen_zdrop; lia.
    + apply bytes_app; split; [unfold pe_data in D3; rewrite E in D3; exact D3 | apply Forall_zdrop, Bz].
    + intros k; unfold pe_data; rewrite E; destruct (Nat.lt_ge_cases k (length d)).
      * apply app_nth1; assumption.
      * rewrite app_nth2, (nth_overflow d) by assumption; unfold zdrop, z; rewrite nth_skipn; apply nth_repeat0.
  - eexists; split; [reflexivity|]; destruct (Main z (pe_inline q) Lz Bz) as (b0 & ln0 & Q & R0).
    + intros k; unfold pe_data; rewrite E; unfold z; rewrite nth_repeat0; destruct k; reflexivity.
    + exists (Some z), (pe_inline q); split; [destruct q; reflexivity|].
      replace (set_len (set_prim q (Some z)) (i + 1)) with (set_len (set_prim (set_inline q (pe_inline q)) (Some z)) (i + 1))
        by (destruct q; reflexivity); exact R0.
Qed.

Lemma raw_bit_ext p q k : (forall i, nth i (pe_data q) 0 = nth i (pe_data p) 0) -> raw_bit q k = raw_bit p k.
Proof. intros E; unfold raw_bit; rewrite E; reflexivity. Qed.

Lemma ffb_aux_prim p n : pe_form p = PE_FORM_PRIM ->
  ffb_aux p n = if pe_nbits p >? n then (Some ([], Z.quot n 8 + 1, bit_mask n), n) else (None, n - pe_nbits p).
Proof. destruct p; simpl; intros ->; reflexivity. Qed.

(** What [ffb] gives for bit [n] of a primitive. *)
Lemma ffb_prim p n : bits_ok p -> 0 <= n < INT_MAX ->
  exists o p', ffb p n 1 = Val (o, p') /\
  match o with
  | None => out_of_memory
  | Some (pa, off, mask) => pa = [] /\ off = n / 8 + 1 /\ mask = 2 ^ (7 - n mod 8) /\
      bits_ok p' /\ pe_nbits p' = Z.max (pe_nbits p) (n + 1) /\ n / 8 + 1 < zlen (pe_data p') /\
      forall k, raw_bit p' k = raw_bit p k
  end.
Proof.
  intros B Rn; pose proof B as [F T D C N R Tl]; unfold ffb; rewrite (ffb_aux_prim p n F), F; simpl Z.eqb; cbn match.
  cbn [pe_at]; rewrite F; simpl Z.eqb; cbn match; rewrite Z.gtb_ltb.
  destruct (div8 n (proj1 Rn)) as [-> _]; destruct (bit_mask_pow n (proj1 Rn)) as [-> _].
  pose proof (Z.div_mod n 8 ltac:(lia)) as Dn; pose proof (Z.mod_pos_bound n 8 ltac:(lia)).
  destruct (Z.ltb_spec n (pe_nbits p)) as [Lt|Ge].
  - eexists _, p; split; [reflexivity|]; split; [reflexivity|]; split; [reflexivity|]; split; [reflexivity|].
    split; [exact B|]; split; [lia|]; split; [lia | reflexivity].
  - destruct (ffb_grow_spec p (n / 8 + 1) D) as (o & E & S); [unfold INT_MAX in *; lia|].
    rewrite E; cbn [cbind]; destruct o as [q|]; [|exists None, p; split; [reflexivity | exact S]].
    destruct S as (b & ln & -> & Dq & Lq & Mq & Nq); eexists (Some _), _; split; [reflexivity|].
    set (q := set_len _ _) in *; cbn [pe_put].
    assert (Eb : forall k, raw_bit (set_un2 q (n + 1)) k = raw_bit p k) by (intros k; apply raw_bit_ext; exact Nq).
    assert (Bq : bits_ok (set_un2 q (n + 1))).
    { constructor; cbn [pe_un2 set_un2]; try assumption; [lia | left | intros k K; rewrite Eb; apply Tl; lia].
      change (pe_data (set_un2 q (n + 1))) with (pe_data q); lia. }
    split; [reflexivity|]; split; [reflexivity|]; split; [reflexivity|]; split; [exact Bq|].
    split; [cbn [pe_un2 set_un2]; lia|]; split; [exact Lq | exact Eb].
Qed.
End BitLemmas.

Section BitOps.
Context `{Allocator}.

(** Bit [n] of [p'] is [v], the others are those of [p]. *)
Definition bit_update (p : PElement) (n : Z) (v : bool) (p' : PElement) : Prop :=
  bits_ok p' /\ pe_nbits p' = Z.max (pe_nbits p) (n + 1) /\
  forall k, 0 <= k -> pe_bit p' k = if k =? n then v else pe_bit p k.

Definition bit_result (p : PElement) (n : Z) (v : bool) (r : cres (Z * PElement)) : Prop :=
  exists rc p', r = Val (rc, p') /\ ((rc = OK /\ bit_update p n v p') \/ (rc = NOTOK /\ out_of_memory)).

(** An operation that stores [f c] in the octet of bit [n]. *)
Lemma bit_store p n v f : bits_ok p -> 0 <= n < INT_MAX ->
  (forall c m k, 0 <= m < 8 -> 0 <= k < 8 -> is_byte c ->
     is_byte (f c (2 ^ m)) /\ Z.testbit (f c (2 ^ m)) k = if k =? m then v else Z.testbit c k) ->
  bit_result p n v
    (' (r, pe) <- ffb p n 1;;
     match r with
     | None => Val (pe_seterr pe PE_ERR_NMEM NOTOK)
     | Some (pa, off, mask) =>
         match int2u8 mask with
         | None => Val (pe_seterr pe PE_ERR_NMEM NOTOK)
         | Some m => c <- octet_get pe pa off;; pe <- octet_put pe pa off (f c m);; Val (OK, pe)
         end
     end).
Proof.
  intros B Rn Ff; destruct (ffb_prim p n B Rn) as (o & p1 & E & S); rewrite E; cbn [cbind].
  destruct o as [[[pa off] mask]|]; [|do 2 eexists; split; [reflexivity|]; auto].
  destruct S as (-> & -> & -> & B1 & N1 & R1 & K1).
  pose proof (Z.mod_pos_bound n 8 ltac:(lia)) as M; destruct (bit_mask_pow n (proj1 Rn)) as [Em Bm]; rewrite Em in Bm.
  rewrite int2u8_Some by exact Bm; pose proof (Z.div_pos n 8 (proj1 Rn) ltac:(lia)).
  pose proof B1 as [F1 T1 D1 C1 Nb1 Rm1 Tl1].
  set (c := nth (Z.to_nat (n / 8 + 1)) (pe_data p1) 0).
  assert (G : octet_get p1 [] (n / 8 + 1) = Val c).
  { unfold octet_get, rd_ptr; cbn [pe_at]; unfold c, pe_data in *; destruct (pe_prim p1); [|cbn in R1; lia].
    apply rd_in; lia. }
  rewrite G; cbn [cbind]; assert (Bc : is_byte c) by apply bytes_nth, D1.
  destruct (octet_put_bit p1 n (f c (2 ^ (7 - n mod 8))) v) as (b & -> & Db & Lb & Kb); auto; try lia.
  { apply (Ff c (7 - n mod 8) 0); auto; lia. }
  { intros k Hk; apply (Ff c (7 - n mod 8) k); auto; lia. }
  cbn [cbind]; do 2 eexists; split; [reflexivity|]; left; split; [reflexivity|]; split; [|split].
  - constructor; cbn [pe_form pe_class pe_id pe_cons pe_un2 set_prim]; try assumption.
    + left; destruct Rm1 as [Q|[Q _]]; [unfold pe_data at 1; cbn; lia | rewrite Q in R1; cbn in R1; lia].
    + intros k Hk; rewrite Kb by (cbn in Hk; lia).
      destruct (Z.eqb_spec k n) as [->|]; [cbn in Hk; lia | apply Tl1; exact Hk].
  - exact N1.
  - intros k Hk; unfold pe_bit; cbn [pe_un2 set_prim]; rewrite Kb, K1, N1 by lia.
    destruct (Z.eqb_spec k n) as [->|Nk].
    + rewrite (proj2 (Z.ltb_lt n _)) by lia; reflexivity.
    + destruct (Z.ltb_spec k (pe_nbits p)); [rewrite (proj2 (Z.ltb_lt k _)) by lia; reflexivity|].
      rewrite (bits_tail p B) by assumption; rewrite andb_false_r; reflexivity.
Qed.

Lemma bit_on_result p n : bits_ok p -> 0 <= n < INT_MAX -> bit_result p n true (bit_on p n).
Proof.
  intros B R; apply (bit_store p n true (fun c m => u8 (Z.lor c m)) B R).
  intros c m k M K C; split; [apply u8_byte | apply set_testbit; assumption].
Qed.

Lemma bit_off_result p n : bits_ok p -> 0 <= n < INT_MAX -> bit_result p n false (bit_off p n).
Proof.
  intros B R; apply (bit_store p n false u8_bic B R).
  intros c m k M K C; split; [apply u8_byte | apply clear_testbit; assumption].
Qed.

Lemma bit_test_result p n : bits_ok p -> 0 <= n ->
  bit_test p n = if n <? pe_nbits p then Val (if pe_bit p n then 1 else 0, p)
                 else Val (NOTOK, set_errno p PE_ERR_BIT).
Proof.
  intros [F T D C N R Tl] Hn; unfold bit_test, ffb, pe_bit; rewrite (ffb_aux_prim p n F), Z.gtb_ltb.
  destruct (Z.ltb_spec n (pe_nbits p)); [|reflexivity]; cbn [cbind andb].
  destruct (div8 n Hn) as [-> _]; destruct (bit_mask_pow n Hn) as [-> _].
  pose proof (Z.div_mod n 8 ltac:(lia)); pose proof (Z.mod_pos_bound n 8 ltac:(lia)).
  unfold octet_get; cbn [pe_at]; unfold raw_bit, pe_data, rd_ptr in *; destruct (pe_prim p) as [b|].
  - rewrite rd_in by lia; cbn [cbind]; rewrite land_pow_test by lia; reflexivity.
  - exfalso; destruct R as [R|[_ R]]; [cbn in R|]; lia.
Qed.
End BitOps.

(** ** Bits and integers *)

(** The bit of index [k] of a buffer of bits, the first octet at [buffer]. *)
Definition strb_bit (b : list Z) (k : Z) : bool := Z.testbit (nth (Z.to_nat (k / 8)) b 0) (7 - k mod 8).

Lemma same_octet_bit k n : 0 <= k -> 0 <= n ->
  (Nat.eqb (Z.to_nat (k / 8)) (Z.to_nat (n / 8)) && (7 - k mod 8 =? 7 - n mod 8)) = (k =? n).
Proof.
  intros K N; pose proof (same_bit k n K N) as E; rewrite <- E; f_equal.
  pose proof (Z.div_pos k 8 K ltac:(lia)); pose proof (Z.div_pos n 8 N ltac:(lia)).
  destruct (Nat.eqb_spec (Z.to_nat (k / 8)) (Z.to_nat (n / 8))),
    (Nat.eqb_spec (Z.to_nat (k / 8 + 1)) (Z.to_nat (n / 8 + 1))); try reflexivity; lia.
Qed.

Lemma int_testbit n i : is_int n -> 0 <= i < 32 ->
  negb (Z.land n (i32 (Z.shiftl 1 i)) =? 0) = Z.testbit n i.
Proof.
  intros N I; rewrite Z.shiftl_mul_pow2, Z.mul_1_l by lia; destruct (Z.eqb_spec i 31) as [->|Ni].
  - change (i32 (2 ^ 31)) with (- 2 ^ 31); rewrite land_high, Z.testbit_odd, Z.shiftr_div_pow2 by lia.
    unfold is_int, INT_MIN, INT_MAX in N; destruct (Z.ltb_spec n 0).
    + replace (n / 2 ^ 31) with (-1) by (apply Z.div_unique with (n + 2 ^ 31); lia); reflexivity.
    + rewrite Z.div_small by lia; reflexivity.
  - assert (2 ^ i <= 2 ^ 30) by (apply Z.pow_le_mono_r; lia); assert (0 < 2 ^ i) by (apply Z.pow_pos_nonneg; lia).
    rewrite i32_id by (unfold is_int, INT_MIN, INT_MAX; lia); apply land_pow_test; lia.
Qed.

(** [int2strb] stores the bits of [n] below [len], and no other. *)
Lemma int2strb_loop_spec n len fuel : forall b i, is_int n -> 0 <= i -> i + Z.of_nat fuel = Z.max i len -> len <= 32 ->
  zlen b = 5 -> bytes b ->
  (forall k, 0 <= k -> strb_bit b k = (k <? i) && (k <? len) && Z.testbit n k) ->
  exists b', int2strb_loop fuel b n i len = Val (Some b') /\ zlen b' = 5 /\ bytes b' /\
    forall k, 0 <= k -> strb_bit b' k = (k <? len) && Z.testbit n k.
Proof.
  induction fuel as [|fuel IH]; intros b i N I F L Lb Bb S; cbn [int2strb_loop].
  - exists b; split; [reflexivity|]; split; [exact Lb|]; split; [exact Bb|]; intros k K; rewrite S by exact K.
    destruct (Z.ltb_spec k len); [|rewrite andb_false_r; reflexivity].
    rewrite (proj2 (Z.ltb_lt k i)) by lia; reflexivity.
  - assert (Lt : i < len) by lia; rewrite (proj2 (Z.ltb_lt i len)), int_testbit by (assumption || lia).
    assert (Next : forall b', zlen b' = 5 -> bytes b' ->
      (forall k, 0 <= k -> strb_bit b' k = if k =? i then Z.testbit n i else strb_bit b k) ->
      exists b'', int2strb_loop fuel b' n (i + 1) len = Val (Some b'') /\ zlen b'' = 5 /\ bytes b'' /\
        forall k, 0 <= k -> strb_bit b'' k = (k <? len) && Z.testbit n k).
    { intros b' L' B' S'; apply IH; auto; try lia; intros k K; rewrite S' by exact K.
      destruct (Z.eqb_spec k i) as [->|Nk].
      - rewrite (proj2 (Z.ltb_lt i (i + 1))), (proj2 (Z.ltb_lt i len)) by lia; reflexivity.
      - rewrite S by exact K; destruct (Z.ltb_spec k i), (Z.ltb_spec k (i + 1)); try reflexivity; lia. }
    destruct (Z.testbit n i) eqn:T.
    2: { apply Next; auto; intros k K; destruct (Z.eqb_spec k i) as [->|]; [|reflexivity].
         rewrite S, Z.ltb_irrefl by exact K; reflexivity. }
    destruct (div8 i I) as [-> _]; destruct (bit_mask_pow i I) as [-> Bm].
    pose proof (Z.div_pos i 8 I ltac:(lia)); assert (i / 8 < 5) by (apply Z.div_lt_upper_bound; lia).
    pose proof (Z.mod_pos_bound i 8 ltac:(lia)) as M; rewrite rd_in by lia; cbn [cbind].
    set (c := nth (Z.to_nat (i / 8)) b 0); assert (Bc : is_byte c) by apply bytes_nth, Bb.
    assert (Pm : is_byte (2 ^ (7 - i mod 8))) by (destruct (bit_mask_pow i I) as [<- Q]; exact Q).
    unfold char_bis, octet2char; rewrite Z.gtb_ltb, (proj2 (Z.ltb_ge 255 _)) by (unfold is_byte in Pm; lia).
    rewrite (as_octet_id c Bc); unfold u8_bis; rewrite (u8_id (u8 (Z.lor c _))) by apply u8_byte.
    destruct (wr1 b (i / 8) (u8 (Z.lor c (2 ^ (7 - i mod 8))))) as (b' & W & L' & Nth); [lia|].
    rewrite W; cbn [cbind]; apply Next; [lia | |].
    + apply bytes_of_nth; intros k; rewrite Nth; destruct (Nat.eqb _ _); [apply u8_byte | apply bytes_nth, Bb].
    + intros k K; unfold strb_bit; rewrite Nth, <- same_octet_bit by assumption.
      pose proof (Z.mod_pos_bound k 8 ltac:(lia)).
      destruct (Nat.eqb_spec (Z.to_nat (k / 8)) (Z.to_nat (i / 8))) as [->|]; [|reflexivity].
      cbn [andb]; rewrite set_testbit by lia; reflexivity.
Qed.

Lemma int2strb_bits n len : is_int n -> 0 <= len <= 32 ->
  exists b, int2strb n len = Val (Some b) /\ zlen b = 5 /\ bytes b /\
    forall k, 0 <= k -> strb_bit b k = (k <? len) && Z.testbit n k.
Proof.
  intros N L; apply int2strb_loop_spec; auto; try lia.
  - repeat constructor; unfold is_byte; lia.
  - intros k K; rewrite (proj2 (Z.ltb_ge k 0)) by lia; unfold strb_bit.
    destruct (Z.to_nat (k / 8)) as [|[|[|[|[|m]]]]]; try apply Z.testbit_0_l; destruct m; apply Z.testbit_0_l.
Qed.

(** The loop over the bits of a buffer, as a loop over indices. *)
Fixpoint for_bits {A} (f : A -> Z -> cres (A + A)) (g : Z -> bool) (fuel : nat) (i : Z) (a : A) : cres (A + A) :=
  match fuel with
  | O => Val (inl a)
  | S fuel' =>
      r <- (if g i then f a i else Val (inl a));;
      match r with inr a => Val (inr a) | inl a => for_bits f g fuel' (i + 1) a end
  end.

Lemma strb_loop_for {A} (f : A -> Z -> cres (A + A)) cp len : bytes cp -> len / 8 < zlen cp ->
  forall fuel i a, 0 <= i -> i + Z.of_nat fuel = len ->
  strb_loop f fuel cp (i / 8) (nth (Z.to_nat (i / 8)) cp 0) (7 - i mod 8) (2 ^ (7 - i mod 8)) i len a =
  for_bits f (strb_bit cp) fuel i a.
Proof.
  intros B L; induction fuel as [|fuel IH]; intros i a I F; cbn [strb_loop for_bits]; [reflexivity|].
  pose proof (Z.mod_pos_bound i 8 ltac:(lia)) as M; pose proof (Z.div_mod i 8 ltac:(lia)) as D.
  rewrite (proj2 (Z.ltb_lt i len)), land_pow_test by lia; fold (strb_bit cp i).
  destruct (if strb_bit cp i then f a i else Val (inl a)) as [[a'|a']|]; cbn [cbind]; try reflexivity.
  destruct (Z.eqb_spec (7 - i mod 8) 0) as [E|E].
  - assert (D1 : (i + 1) / 8 = i / 8 + 1) by (symmetry; apply Z.div_unique with 0; lia).
    assert (M1 : (i + 1) mod 8 = 0) by (rewrite Z.mod_eq, D1 by lia; lia).
    assert ((i + 1) / 8 <= len / 8) by (apply Z.div_le_mono; lia); pose proof (Z.div_pos i 8 I ltac:(lia)).
    rewrite rd_in by lia; cbn [cbind]; rewrite land_ff, Z.mod_small by apply bytes_nth, B.
    rewrite <- IH, D1, M1 by lia; reflexivity.
  - assert (D1 : (i + 1) / 8 = i / 8) by (symmetry; apply Z.div_unique with (i mod 8 + 1); lia).
    assert (M1 : (i + 1) mod 8 = i mod 8 + 1) by (rewrite Z.mod_eq, D1 by lia; lia).
    rewrite <- IH, D1, M1 by lia; replace (7 - (i mod 8 + 1)) with (7 - i mod 8 - 1) by lia.
    f_equal; rewrite Z.shiftr_div_pow2, (Z.pow_sub_r 2 (7 - i mod 8) 1) by lia; reflexivity.
Qed.

Lemma strb2int_loop n g fuel : forall i, (forall k, 0 <= k -> k < i + Z.of_nat fuel -> g k = Z.testbit n k) ->
  0 <= i -> i + Z.of_nat fuel <= 32 ->
  for_bits (fun n i => Val (inl (i32 (Z.lor n (Z.shiftl 1 i))))) g fuel i (i32 (n mod 2 ^ i)) =
  Val (inl (i32 (n mod 2 ^ (i + Z.of_nat fuel)))).
Proof.
  induction fuel as [|fuel IH]; intros i G I L; cbn [for_bits].
  - rewrite Z.add_0_r; reflexivity.
  - rewrite G by lia; replace (i + Z.of_nat (S fuel)) with (i + 1 + Z.of_nat fuel) in * by lia.
    assert (P : 0 < 2 ^ i) by (apply Z.pow_pos_nonneg; lia); assert (P1 : 2 ^ i <= 2 ^ 31) by (apply Z.pow_le_mono_r; lia).
    pose proof (Z.mod_pos_bound n (2 ^ i) P) as R.
    assert (E : n mod 2 ^ (i + 1) = n mod 2 ^ i + 2 ^ i * Z.b2z (Z.testbit n i)).
    { rewrite Z.pow_add_r, Z.rem_mul_r, Z.testbit_spec' by lia; reflexivity. }
    assert (Q : i32 (Z.lor (i32 (n mod 2 ^ i)) (Z.shiftl 1 i)) = i32 (n mod 2 ^ i + 2 ^ i)).
    { rewrite (i32_id (n mod 2 ^ i)) by (unfold is_int, INT_MIN, INT_MAX; lia).
      rewrite Z.lor_comm, (shl_or 1) by lia; f_equal; lia. }
    rewrite <- (IH (i + 1)), E by (auto; lia); destruct (Z.testbit n i); cbn [cbind Z.b2z].
    + rewrite Q, Z.mul_1_r; reflexivity.
    + rewrite Z.mul_0_r, Z.add_0_r; reflexivity.
Qed.

Lemma strb2int_bits cp n len : bytes cp -> len / 8 < zlen cp -> 0 <= len <= 32 ->
  (forall k, 0 <= k < len -> strb_bit cp k = Z.testbit n k) -> strb2int cp len = Val (i32 (n mod 2 ^ len)).
Proof.
  intros B L R S; unfold strb2int; pose proof (Z.div_pos len 8 ltac:(lia) ltac:(lia)).
  rewrite rd_in by lia; cbn [cbind]; change (Z.to_nat 0) with (Z.to_nat (0 / 8)).
  rewrite land_ff, Z.mod_small by apply bytes_nth, B.
  pose proof (strb_loop_for (fun n i => Val (inl (i32 (Z.lor n (Z.shiftl 1 i))))) cp len B L (Z.to_nat len) 0 0 ltac:(lia) ltac:(lia)) as E.
  change (7 - 0 mod 8) with 7 in E; change (2 ^ 7) with 128 in E; change (0 / 8) with 0 in *; rewrite E.
  assert (Z0' : i32 (n mod 2 ^ 0) = 0) by (change (2 ^ 0) with 1; rewrite Z.mod_1_r; reflexivity).
  rewrite <- Z0' at 2; rewrite strb2int_loop; [|intros k K1 K2; apply S; lia | lia | lia].
  cbn [cbind]; f_equal; f_equal; f_equal; f_equal; lia.
Qed.

(** ** Strings of bits *)

Section Strb.
Context `{Allocator}.

Lemma bit_on_loop cp len fuel : forall i p, bits_ok p -> pe_nbits p = len -> 0 <= i -> i + Z.of_nat fuel = len ->
  len <= INT_MAX -> (forall k, 0 <= k -> pe_bit p k = (k <? i) && strb_bit cp k) ->
  exists r, for_bits (fun p i => ' (rc, p) <- bit_on p i;; Val (if rc =? NOTOK then inr p else inl p))
              (strb_bit cp) fuel i p = Val r /\
  match r with
  | inl p' => bits_ok p' /\ pe_nbits p' = len /\ forall k, 0 <= k -> pe_bit p' k = (k <? len) && strb_bit cp k
  | inr _ => out_of_memory
  end.
Proof.
  induction fuel as [|fuel IH]; intros i p B N I F L S; cbn [for_bits].
  - exists (inl p); split; [reflexivity|]; split; [exact B|]; split; [exact N|]; intros k K.
    rewrite S by exact K; f_equal; f_equal; lia.
  - destruct (strb_bit cp i) eqn:T.
    + destruct (bit_on_result p i B) as (rc & p1 & E & [[-> (B1 & N1 & S1)]|[-> O]]); [lia | |];
        rewrite E; cbn [cbind]; [change (OK =? NOTOK) with false | exists (inr p1); auto]; cbn match.
      apply IH; auto; try lia; intros k K; rewrite S1, S by exact K.
      destruct (Z.eqb_spec k i) as [->|]; [rewrite (proj2 (Z.ltb_lt i _)), T by lia; reflexivity|].
      destruct (Z.ltb_spec k i), (Z.ltb_spec k (i + 1)); try reflexivity; lia.
    + cbn [cbind]; apply IH; auto; try lia; intros k K; rewrite S by exact K.
      destruct (Z.ltb_spec k i), (Z.ltb_spec k (i + 1)); try reflexivity; try lia.
      assert (k = i) as -> by lia; rewrite T; reflexivity.
Qed.

(** The empty bit string that [pe_alloc] and [prim2bit] give. *)
Lemma bits_ok_new class id : 0 <= class < 4 -> 0 <= id < 65536 ->
  bits_ok (mkPE 0 0 class PE_FORM_PRIM id 0 0 None [] 0 0 None 0 0).
Proof.
  intros C I; constructor; try reflexivity; try (split; assumption); cbn.
  - repeat split; [discriminate | constructor].
  - unfold INT_MAX; lia.
  - right; auto.
  - intros k _; unfold raw_bit; cbn [pe_data pe_prim]; destruct (Z.to_nat (k / 8 + 1)); apply Z.testbit_0_l.
Qed.

Lemma strb2bitstr_result cp len class id : bytes cp -> 0 <= len <= INT_MAX -> len / 8 < zlen cp ->
  0 <= class < 4 -> 0 <= id < 65536 ->
  alloc_result (strb2bitstr cp len class id) (fun p =>
    bits_ok p /\ pe_nbits p = len /\ forall k, 0 <= k -> pe_bit p k = (k <? len) && strb_bit cp k).
Proof.
  intros B L R C I; unfold strb2bitstr, pe_alloc, alloc_result.
  destruct (pe_pool_ok class PE_FORM_PRIM id) eqn:P; [|exists None; split; [reflexivity | right; eauto]].
  pose proof (bits_ok_new class id C I) as B0; set (p0 := mkPE _ _ _ _ _ _ _ _ _ _ _ _ _ _) in *.
  change (prim2bit p0) with (Val (true, p0)); cbn [cbind].
  assert (E0 : forall k, 0 <= k -> pe_bit p0 k = false).
  { intros k K; unfold pe_bit; change (pe_nbits p0) with 0; rewrite (proj2 (Z.ltb_ge k 0)) by lia; reflexivity. }
  assert (Main : forall p1, bits_ok p1 -> pe_nbits p1 = len -> (forall k, 0 <= k -> pe_bit p1 k = false) ->
    exists o,
     (c <- rd cp 0;;
      r <- strb_loop (fun p i => ' (rc, p) <- bit_on p i;; Val (if rc =? NOTOK then inr p else inl p))
             (Z.to_nat len) cp 0 (Z.land c 255) 7 128 0 len p1;;
      Val (match r with inl p => Some p | inr _ => None end)) = Val o /\
     match o with
     | Some p => bits_ok p /\ pe_nbits p = len /\ forall k, 0 <= k -> pe_bit p k = (k <? len) && strb_bit cp k
     | None => out_of_memory
     end).
  { intros p1 B1 N1 S1; pose proof (Z.div_pos len 8 ltac:(lia) ltac:(lia)).
    rewrite rd_in by lia; cbn [cbind]; change (Z.to_nat 0) with (Z.to_nat (0 / 8)).
    rewrite land_ff, Z.mod_small by apply bytes_nth, B.
    pose proof (fun f : PElement -> Z -> cres (PElement + PElement) =>
      strb_loop_for f cp len B R (Z.to_nat len) 0 p1 ltac:(lia) ltac:(lia)) as E.
    change (7 - 0 mod 8) with 7 in E; change (2 ^ 7) with 128 in E; change (0 / 8) with 0 in *; rewrite E.
    destruct (bit_on_loop cp len (Z.to_nat len) 0 p1 B1 N1) as (r & -> & S); try lia.
    { intros k K; rewrite S1, (proj2 (Z.ltb_ge k 0)) by lia; reflexivity. }
    cbn [cbind]; eexists; split; [reflexivity|]; destruct r; exact S. }
  rewrite Z.gtb_ltb; destruct (Z.ltb_spec 0 len).
  - destruct (bit_off_result p0 (len - 1) B0) as (rc & p1 & -> & [[-> (B1 & N1 & S1)]|[-> O]]); [lia | |]; cbn [cbind].
    + change (OK =? NOTOK) with false; cbn match; apply Main; auto.
      * change (pe_nbits p0) with 0 in N1; lia.
      * intros k K; rewrite S1, E0 by exact K; destruct (k =? len - 1); reflexivity.
    + exists None; auto.
  - cbn [cbind]; change (OK =? NOTOK) with false; cbn match; apply Main; auto; change (pe_nbits p0) with 0; lia.
Qed.

(** The octets stored so far and the one under construction. *)
Definition strb_prefix (g : Z -> bool) (cp : list Z) (bit i : Z) : Prop :=
  zlen cp = i / 8 /\ bytes cp /\ is_byte bit /\
  forall k, 0 <= k -> strb_bit (cp ++ [bit]) k = (k <? i) && g k.

Lemma strb_bit_app_old cp c k : 0 <= k -> k / 8 < zlen cp -> strb_bit (cp ++ c) k = strb_bit cp k.
Proof.
  intros K L; pose proof (Z.div_pos k 8 K ltac:(lia)); unfold strb_bit; rewrite app_nth1; [reflexivity|].
  unfold zlen in L; lia.
Qed.

Lemma strb_bit_app_new cp b k : 0 <= k -> k / 8 = zlen cp -> strb_bit (cp ++ [b]) k = Z.testbit b (7 - k mod 8).
Proof.
  intros K L; unfold strb_bit; rewrite L; unfold zlen; rewrite Nat2Z.id, app_nth2, Nat.sub_diag by lia; reflexivity.
Qed.

Lemma strb_bit_out cp k : 0 <= k -> zlen cp <= k / 8 -> strb_bit cp k = false.
Proof.
  intros K L; unfold strb_bit; rewrite nth_overflow; [apply Z.testbit_0_l|]; unfold zlen in L; lia.
Qed.

Lemma bitstr2strb_loop_spec p len fuel : bits_ok p -> pe_nbits p = len -> forall cp bit i,
  0 <= i -> i + Z.of_nat fuel = len -> strb_prefix (pe_bit p) cp bit i ->
  exists cp' bit', bitstr2strb_loop fuel p cp bit (7 - i mod 8) (2 ^ (7 - i mod 8)) i len =
    Val (Some (cp', bit', 7 - len mod 8), p) /\ strb_prefix (pe_bit p) cp' bit' len.
Proof.
  intros B N; induction fuel as [|fuel IH]; intros cp bit i I F (Lc & Bc & Bb & S); cbn [bitstr2strb_loop].
  { replace len with i by lia; exists cp, bit; unfold strb_prefix; auto. }
  pose proof (Z.mod_pos_bound i 8 ltac:(lia)) as M; pose proof (Z.div_mod i 8 ltac:(lia)) as D.
  rewrite (proj2 (Z.ltb_lt i len)), bit_test_result, N, (proj2 (Z.ltb_lt i len)) by (assumption || lia); cbn [cbind].
  set (bit' := if negb ((if pe_bit p i then 1 else 0) =? 0) then Z.lor bit (2 ^ (7 - i mod 8)) else bit).
  assert (Pm : is_byte (2 ^ (7 - i mod 8))) by (destruct (bit_mask_pow i I) as [<- Q]; exact Q).
  assert (T : is_byte bit' /\ forall k, 0 <= k < 8 ->
    Z.testbit bit' k = if k =? 7 - i mod 8 then pe_bit p i else Z.testbit bit k).
  { pose proof (S i I) as Si; rewrite strb_bit_app_new, Z.ltb_irrefl in Si by (auto; lia); cbn in Si.
    unfold bit'; destruct (pe_bit p i); cbn [Z.eqb negb].
    - assert (Bl : is_byte (Z.lor bit (2 ^ (7 - i mod 8)))).
      { unfold is_byte; split; [apply Z.lor_nonneg; unfold is_byte in *; lia|].
        destruct (Z.eq_dec (Z.lor bit (2 ^ (7 - i mod 8))) 0) as [->|]; [lia|].
        apply Z.log2_lt_pow2 with (b := 8); [|].
        - assert (0 <= Z.lor bit (2 ^ (7 - i mod 8))) by (apply Z.lor_nonneg; unfold is_byte in *; lia); lia.
        - rewrite Z.log2_lor by (unfold is_byte in *; lia); rewrite Z.log2_pow2 by lia.
          assert (Z.log2 bit < 8); [|lia].
          destruct (Z.eq_dec bit 0) as [->|]; [cbn; lia|].
          apply Z.log2_lt_pow2; unfold is_byte in Bb; lia. }
      split; [exact Bl|]; intros k K; rewrite <- (u8_id (Z.lor _ _) Bl); apply set_testbit; lia.
    - split; [exact Bb|]; intros k K; destruct (Z.eqb_spec k (7 - i mod 8)) as [->|]; [exact Si | reflexivity]. }
  destruct T as [Bb' T].
  assert (S' : forall k, 0 <= k -> strb_bit (cp ++ [bit']) k = (k <? i + 1) && pe_bit p k).
  { intros k K; pose proof (Z.mod_pos_bound k 8 ltac:(lia)); pose proof (Z.div_mod k 8 ltac:(lia)).
    assert (E : strb_bit (cp ++ [bit']) k = if k =? i then pe_bit p i else strb_bit (cp ++ [bit]) k).
    { destruct (Z.lt_trichotomy (k / 8) (zlen cp)) as [L|[L|L]].
      - rewrite !strb_bit_app_old by assumption; destruct (Z.eqb_spec k i); [subst; lia | reflexivity].
      - rewrite !strb_bit_app_new, T by (assumption || lia).
        destruct (Z.eqb_spec (7 - k mod 8) (7 - i mod 8)), (Z.eqb_spec k i); try reflexivity; lia.
      - rewrite !strb_bit_out by (try rewrite zlen_app; unfold zlen in *; simpl in *; lia).
        destruct (Z.eqb_spec k i); [subst; lia | reflexivity]. }
    rewrite E, S by exact K; destruct (Z.eqb_spec k i) as [->|].
    - rewrite (proj2 (Z.ltb_lt i _)) by lia; reflexivity.
    - destruct (Z.ltb_spec k i), (Z.ltb_spec k (i + 1)); try reflexivity; lia. }
  destruct (Z.eqb_spec (7 - i mod 8) 0) as [E|E].
  - assert (D1 : (i + 1) / 8 = i / 8 + 1) by (symmetry; apply Z.div_unique with 0; lia).
    assert (M1 : (i + 1) mod 8 = 0) by (rewrite Z.mod_eq, D1 by lia; lia).
    rewrite land_ff, Z.mod_small, int2octet_Some by exact Bb'.
    specialize (IH (cp ++ [bit']) 0 (i + 1)); rewrite M1 in IH; apply IH; try lia.
    split; [rewrite zlen_app, D1; unfold zlen in *; simpl; lia|]; split; [apply bytes_app; auto using bytes_nil, Forall_cons|].
    { split; [exact Bc | constructor; [exact Bb' | constructor]]. }
    split; [unfold is_byte; lia|]; intros k K; rewrite <- S' by exact K.
    destruct (Z.lt_ge_cases (k / 8) (zlen (cp ++ [bit']))) as [L|L]; [apply strb_bit_app_old; assumption|].
    rewrite (strb_bit_out (cp ++ [bit'])) by assumption; destruct (Z.eq_dec (k / 8) (zlen (cp ++ [bit']))) as [Q|Q].
    + rewrite strb_bit_app_new by assumption; apply Z.testbit_0_l.
    + apply strb_bit_out; [exact K|]; rewrite zlen_app; unfold zlen in *; simpl; lia.
  - assert (D1 : (i + 1) / 8 = i / 8) by (symmetry; apply Z.div_unique with (i mod 8 + 1); lia).
    assert (M1 : (i + 1) mod 8 = i mod 8 + 1) by (rewrite Z.mod_eq, D1 by lia; lia).
    specialize (IH cp bit' (i + 1)); rewrite M1 in IH.
    replace (7 - (i mod 8 + 1)) with (7 - i mod 8 - 1) in IH by lia.
    replace (Z.shiftr (2 ^ (7 - i mod 8)) 1) with (2 ^ (7 - i mod 8 - 1))
      by (rewrite Z.shiftr_div_pow2, (Z.pow_sub_r 2 (7 - i mod 8) 1) by lia; reflexivity).
    apply IH; try lia; split; [lia|]; split; [exact Bc|]; split; [exact Bb' | exact S'].
Qed.

Lemma bitstr2strb_result p : bits_ok p ->
  exists o, bitstr2strb p = Val (o, pe_nbits p, p) /\
  match o with
  | Some b => zlen b = pe_nbits p / 8 + 2 /\ forall k, 0 <= k -> strb_bit b k = pe_bit p k
  | None => out_of_memory
  end.
Proof.
  intros B; unfold bitstr2strb; pose proof (bits_count p B) as R; set (len := pe_nbits p) in *.
  destruct (div8 len (proj1 R)) as [-> _]; pose proof (Z.div_pos len 8 ltac:(lia) ltac:(lia)) as Dp.
  pose proof (Z.div_mod len 8 ltac:(lia)) as D; pose proof (Z.mod_pos_bound len 8 ltac:(lia)) as M.
  assert (Q : u32 (len / 8 + 2) = len / 8 + 2) by (apply u32_id; unfold INT_MAX in R; lia); rewrite Q.
  destruct (malloc_ok (len / 8 + 2)) eqn:A.
  2: { exists None; split; [reflexivity|]; left; exists (len / 8 + 2); split; [unfold INT_MAX in *; lia | exact A]. }
  destruct (bitstr2strb_loop_spec p len (Z.to_nat len) B eq_refl [] 0 0) as (cp & bit & E & (Lc & Bc & Bb & S)); try lia.
  { split; [reflexivity|]; split; [constructor|]; split; [unfold is_byte; lia|]; intros k K.
    rewrite (proj2 (Z.ltb_ge k 0)) by lia; cbn [app andb]; unfold strb_bit.
    destruct (Z.to_nat (k / 8)) as [|[|m]]; apply Z.testbit_0_l. }
  change (7 - 0 mod 8) with 7 in E; change (2 ^ 7) with 128 in E; rewrite E; cbn [cbind].
  set (z := repeat 0 (Z.to_nat (len / 8 + 2))); assert (Lz : zlen z = len / 8 + 2) by (unfold z, zlen; rewrite repeat_length; lia).
  assert (Fin : forall k, 0 <= k -> strb_bit (cp ++ [bit]) k = pe_bit p k).
  { intros k K; rewrite S by exact K; unfold pe_bit; fold len; destruct (k <? len); reflexivity. }
  assert (Out : forall d, zlen d <= zlen z -> exists b, wr z 0 d = Val b /\ zlen b = len / 8 + 2 /\
    forall k, 0 <= k -> strb_bit b k = strb_bit d k).
  { intros d L; rewrite wr_in by lia; eexists; split; [reflexivity|]; rewrite ztake_0 by lia; cbn [app]; split.
    - rewrite zlen_app, zlen_zdrop; pose proof (zlen_nonneg d); lia.
    - intros k K; unfold strb_bit; f_equal; pose proof (Z.div_pos k 8 K ltac:(lia)).
      destruct (Nat.lt_ge_cases (Z.to_nat (k / 8)) (length d)); [apply app_nth1; assumption|].
      rewrite app_nth2, (nth_overflow d) by assumption; unfold zdrop, z; rewrite nth_skipn; apply nth_repeat0. }
  destruct (Z.eqb_spec (7 - len mod 8) 7) as [E7|E7]; cbn [negb].
  - destruct (Out cp) as (b & -> & Lb & Sb); [lia|]; cbn [cbind]; eexists; split; [reflexivity|]; split; [exact Lb|].
    intros k K; rewrite Sb, <- Fin by exact K; destruct (Z.lt_ge_cases (k / 8) (zlen cp)) as [L|L].
    + symmetry; apply strb_bit_app_old; assumption.
    + rewrite strb_bit_out by assumption; rewrite S by exact K.
      assert (len <= k) by (pose proof (Z.div_mod k 8 ltac:(lia)); pose proof (Z.mod_pos_bound k 8 ltac:(lia)); lia).
      rewrite (proj2 (Z.ltb_ge k len)) by lia; reflexivity.
  - rewrite land_ff, Z.mod_small, int2octet_Some by exact Bb.
    destruct (Out (cp ++ [bit])) as (b & -> & Lb & Sb); [rewrite zlen_app; unfold zlen in *; simpl; lia|].
    cbn [cbind]; eexists; split; [reflexivity|]; split; [exact Lb|]; intros k K; rewrite Sb, Fin by exact K; reflexivity.
Qed.
End Strb.

(** * The properties *)

(** C27. A primitive bit string is a map from indices to bits: [bit_on] and
    [bit_off] set one bit, growing the string to hold it, and change no
    other, or report NOTOK for want of memory; [bit_test] reads one and
    refuses an index beyond the string with PE_ERR_BIT. None leaves the buffer. *)
Theorem bit_ops_map : forall (A : Allocator) p n, bits_ok p -> 0 <= n < INT_MAX ->
  bit_test p n = (if n <? pe_nbits p then Val (if pe_bit p n then 1 else 0, p)
                  else Val (NOTOK, set_errno p PE_ERR_BIT)) /\
  (exists rc p', bit_on p n = Val (rc, p') /\
    ((rc = OK /\ bit_update p n true p') \/ (rc = NOTOK /\ out_of_memory))) /\
  (exists rc p', bit_off p n = Val (rc, p') /\
    ((rc = OK /\ bit_update p n false p') \/ (rc = NOTOK /\ out_of_memory))).
Proof.
  intros A p n B R; split; [apply bit_test_result; [exact B | lia]|].
  split; [apply bit_on_result | apply bit_off_result]; assumption.
Qed.

(** Bits round trip: [strb2bitstr] turns [len] bits into a bit string with
    these bits, and [bitstr2strb] gives back a block of them padded with
    zeroes, unless memory runs out. The buffer must hold an octet more than
    [len] bits when [len] is a multiple of eight. *)
Theorem bitstr_roundtrip : forall (A : Allocator) cp len class id, bytes cp -> 0 <= len <= INT_MAX ->
  len / 8 < zlen cp -> 0 <= class < 4 -> 0 <= id < 65536 ->
  exists o, strb2bitstr cp len class id = Val o /\
    match o with
    | None => out_of_memory
    | Some p => bits_ok p /\ pe_nbits p = len /\
        exists o', bitstr2strb p = Val (o', len, p) /\
          match o' with
          | Some b => zlen b = len / 8 + 2 /\ forall k, 0 <= k -> strb_bit b k = (k <? len) && strb_bit cp k
          | None => out_of_memory
          end
    end.
Proof.
  intros A cp len class id B L R C I.
  destruct (strb2bitstr_result cp len class id B L R C I) as (o & E & S); exists o; split; [exact E|].
  destruct o as [p|]; [|exact S]; destruct S as (Bp & N & S); split; [exact Bp|]; split; [exact N|].
  destruct (bitstr2strb_result p Bp) as (o' & E' & S'); rewrite N in *; exists o'; split; [exact E'|].
  destruct o' as [b|]; [|exact S']; destruct S' as [Lb S']; split; [exact Lb|]; intros k K.
  rewrite S', S by exact K; reflexivity.
Qed.

(** [int2strb] writes the low [len] bits of an integer, least significant
    first, inside its static buffer, and [strb2int] reads them back: all of
    the integer when [len] is 32. *)
Theorem int2strb_roundtrip : forall n len, is_int n -> 0 <= len <= 32 ->
  exists b, int2strb n len = Val (Some b) /\ zlen b = 5 /\
    (forall k, 0 <= k -> strb_bit b k = (k <? len) && Z.testbit n k) /\
    strb2int b len = Val (i32 (n mod 2 ^ len)) /\ (len = 32 -> strb2int b len = Val n).
Proof.
  intros n len N L; destruct (int2strb_bits n len N L) as (b & E & Lb & Bb & S); exists b.
  assert (R : strb2int b len = Val (i32 (n mod 2 ^ len))).
  { apply strb2int_bits; auto; [rewrite Lb; apply Z.div_lt_upper_bound; lia|].
    intros k K; rewrite S, (proj2 (Z.ltb_lt k len)) by lia; reflexivity. }
  split; [exact E|]; split; [exact Lb|]; split; [exact S|]; split; [exact R|]; intros ->; rewrite R; f_equal.
  unfold i32, is_int, INT_MIN, INT_MAX in *; change (2 ^ 32) with 4294967296.
  rewrite Zplus_mod_idemp_l, Z.mod_small by lia; lia.
Qed.

(** [bit2prim] stores the number of unused bits in the first octet, from
    which [prim2bit] recovers the number of bits; the bits do not change. *)
Theorem bit2prim_prim2bit : forall (A : Allocator) p, bits_ok p -> pe_data p <> [] ->
  (zlen (pe_data p) - 1) * 8 <= INT_MAX -> (zlen (pe_data p) - 1) * 8 - pe_nbits p <= 7 ->
  exists p', bit2prim p = Val (true, p') /\ prim2bit p' = Val (true, p') /\
    pe_nbits p' = pe_nbits p /\ (forall k, 0 <= k -> pe_bit p' k = pe_bit p k) /\
    rd (pe_data p') 0 = Val ((zlen (pe_data p) - 1) * 8 - pe_nbits p).
Proof.
  intros A p B N X L; pose proof B as [F T D C R Rm Tl]; pose proof D as (D1 & D2 & D3).
  destruct Rm as [Rm|[Rm _]]; [|easy].
  unfold pe_data in D1, D3, N; destruct (pe_prim p) as [b|] eqn:E; [|easy].
  assert (Dp : pe_data p = b) by (unfold pe_data; rewrite E; reflexivity); rewrite Dp in *.
  set (u := (zlen b - 1) * 8 - pe_nbits p) in *.
  assert (Lb : 0 < zlen b) by (destruct b; [easy | zlen]).
  assert (I1 : i32 ((pe_len p - 1) * 8) = (zlen b - 1) * 8) by (rewrite D1; apply i32_id; unfold is_int, INT_MIN, INT_MAX in *; lia).
  assert (I2 : i32 ((zlen b - 1) * 8 - pe_nbits p) = u) by (apply i32_id; unfold is_int, INT_MIN, INT_MAX; lia).
  assert (Bu : is_byte u) by (unfold is_byte; lia).
  destruct (wr1 b 0 u) as (b' & W & L' & Nth); [lia|].
  assert (E1 : bit2prim p = Val (true, set_prim p (Some b'))).
  { transitivity (bit2prim_prim p).
    - destruct p; cbn in F, E |- *; subst; reflexivity.
    - unfold bit2prim_prim; rewrite E, I1, I2, (proj2 (Z.eqb_neq (pe_len p) 0)) by lia; cbn [negb].
      rewrite Z.gtb_ltb, (proj2 (Z.ltb_ge 7 u)), land_ff, Z.mod_small, int2u8_Some by (unfold is_byte; lia).
      rewrite W; reflexivity. }
  assert (R0 : rd b' 0 = Val u) by (rewrite rd_in by lia; rewrite Nth; reflexivity).
  exists (set_prim p (Some b')); split; [exact E1|]; split; [|split; [reflexivity|]; split; [|exact R0]].
  - set (q := set_prim p (Some b')); assert (Eq : prim2bit q = Val (true, set_nbits q (i32 (i32 ((pe_len q - 1) * 8) - u)))).
    { unfold q; destruct p as [e cx cl fo id len il pr co un inl rb ofs rc]; cbn in F, E, D1 |- *; subst fo; simpl Z.eqb; cbn match.
      rewrite (proj2 (Z.eqb_neq len 0)), R0 by lia; cbn [negb cbind].
      rewrite land_ff, Z.mod_small, Z.gtb_ltb, (proj2 (Z.ltb_ge 7 u)) by lia; reflexivity. }
    rewrite Eq; change (pe_len q) with (pe_len p); rewrite I1.
    replace ((zlen b - 1) * 8 - u) with (pe_nbits p) by (unfold u; lia).
    rewrite i32_id by (unfold is_int, INT_MIN, INT_MAX in *; lia); unfold q; destruct p; reflexivity.
  - intros k K; unfold pe_bit; cbn [pe_un2 set_prim]; f_equal; unfold raw_bit; rewrite Dp; cbn [pe_data pe_prim set_prim].
    rewrite Nth; pose proof (Z.div_pos k 8 K ltac:(lia)).
    rewrite (proj2 (Nat.eqb_neq _ _)) by lia; reflexivity.
Qed.

(** Extending a bit string in segments, [ffb] uses the index in the whole
    string as an index in its last segment: with two segments of eight bits,
    [bit_on] of bit 16 succeeds and leaves bit 16 off. *)
Theorem bit_on_segmented_misplaced :
  let seg := mkPE 0 0 0 PE_FORM_PRIM 3 2 0 (Some [0; 255]) [] 8 0 None 0 0 in
  exists p, @bit_on plenty (mkPE 0 0 0 PE_FORM_CONS 3 0 0 None [seg; seg] 16 0 None 0 0) 16 = Val (OK, p) /\
    cmap fst (@bit_test plenty p 16) = Val 0 /\ cmap fst (@bit_test plenty p 24) = Val 1.
Proof. eexists; split; [vm_compute; reflexivity|]; split; vm_compute; reflexivity. Qed.

(** When [len] is a multiple of eight, [strb2int] reads the octet after the
    bits, beyond a buffer that holds just them. *)
Theorem strb2int_overread : forall c, is_byte c -> strb2int [c] 8 = UB.
Proof.
  intros c C; unfold strb2int; rewrite rd_cons0; cbn [cbind]; rewrite land_ff, Z.mod_small by exact C.
  change (Z.to_nat 8) with 8%nat.
  repeat (cbn -[Z.land Z.lor Z.shiftl]; try reflexivity; destruct (negb (Z.land c _ =? 0)); cbn -[Z.land Z.lor Z.shiftl]; try reflexivity).
Qed.

(** * Witnesses *)

(** The bits 1101 and room for one octet. *)
Definition ex_bits : PElement := mkPE 0 0 0 PE_FORM_PRIM 3 2 0 (Some [4; 208]) [] 4 0 None 0 0.

Lemma ex_bits_ok : bits_ok ex_bits.
Proof.
  constructor; try reflexivity.
  - split; cbn; lia.
  - unfold data_ok; cbn; repeat split; [discriminate | repeat constructor; lia].
  - cbn; unfold INT_MAX; lia.
  - left; cbn; lia.
  - intros k K; cbn in K; unfold raw_bit; cbn [pe_data pe_prim ex_bits].
    pose proof (Z.div_mod k 8 ltac:(lia)); pose proof (Z.mod_pos_bound k 8 ltac:(lia)).
    destruct (Z.eq_dec (k / 8) 0) as [E|E].
    + rewrite E; assert (k mod 8 = 4 \/ k mod 8 = 5 \/ k mod 8 = 6 \/ k mod 8 = 7) as [-> | [-> | [-> | ->]]] by lia; reflexivity.
    + rewrite nth_overflow; [apply Z.testbit_0_l | cbn; lia].
Qed.

Lemma bit_ops_map_witness : @bit_test plenty ex_bits 1 = Val (1, ex_bits) /\
  exists rc p', @bit_on plenty ex_bits 9 = Val (rc, p') /\
    ((rc = OK /\ bit_update ex_bits 9 true p') \/ (rc = NOTOK /\ @out_of_memory plenty)).
Proof.
  destruct (bit_ops_map plenty ex_bits 1 ex_bits_ok ltac:(unfold INT_MAX; lia)) as [T _]; split; [exact T|].
  exact (proj1 (proj2 (bit_ops_map plenty ex_bits 9 ex_bits_ok ltac:(unfold INT_MAX; lia)))).
Defined.

Lemma bitstr_roundtrip_witness : exists o, @strb2bitstr plenty [165; 192] 10 0 3 = Val o /\
  match o with
  | None => @out_of_memory plenty
  | Some p => pe_nbits p = 10
  end.
Proof.
  destruct (bitstr_roundtrip plenty [165; 192] 10 0 3) as (o & E & S);
    [repeat constructor; lia | unfold INT_MAX; lia | cbn; lia | lia | lia|].
  exists o; split; [exact E|]; destruct o as [p|]; [exact (proj1 (proj2 S)) | exact S].
Defined.

Lemma int2strb_roundtrip_witness : exists b, int2strb (-2) 32 = Val (Some b) /\ strb2int b 32 = Val (-2).
Proof.
  destruct (int2strb_roundtrip (-2) 32) as (b & E & _ & _ & _ & R); [unfold is_int, INT_MIN, INT_MAX; lia | lia|].
  exists b; split; [exact E | exact (R eq_refl)].
Defined.

Lemma bit2prim_prim2bit_witness : exists p', @bit2prim plenty ex_bits = Val (true, p') /\ prim2bit p' = Val (true, p') /\
  pe_nbits p' = 4.
Proof.
  destruct (bit2prim_prim2bit plenty ex_bits ex_bits_ok) as (p' & E & E' & N & _); [discriminate | vm_compute; discriminate | cbn; lia|].
  exists p'; split; [exact E | split; [exact E' | exact N]].
Defined.
