(* ===== verification/Qbuf.v ===== *)
(** * psap: queues of buffers (str2qb.c, qb2str.c, qb_pullup.c, prim2qb.c,
    qb2prim.c, qbuf2ps.c, qbuf2pe.c)

    A queue is a ring of [struct qbuf]s through a head that holds no data: the
    list of the others from [qb_forw] on. Each has the octets from its
    [qb_data] on, at least [qb_len] of them; they are the same octets
    whichever way they are cut. *)

From S2P Require Import Prelude Conv Convert PElement PStream StrPs Pe2Ps Ps2Pe Prims.
Open Scope Z_scope.
Open Scope c_scope.

(** A [struct qbuf] of the ring, and the ring through its head. *)
Record qseg : Type := QSeg { qb_data : list Z; seg_len : Z }.
Record qbuf : Type := QBuf { qb_len : Z; qb_ring : list qseg }.

(** A ring of one without a head, or a headed one: what [str2qb] returns. *)
Inductive ring : Type := Single (pb : qseg) | Headed (qb : qbuf).

Section Queues.
(** [sizeof_qb] is the size of a [struct qbuf]. *)
Context `{Allocator} (sizeof_qb : Z).

(** ** str2qb.c *)

Definition str2qb (s : option (list Z)) (len head : Z) : cres (option ring) :=
  if malloc_plus_int sizeof_qb len then
    if negb (head =? 0) && negb (malloc_ok sizeof_qb) then Val None
    else
      d <- (if len >? 0 then match s with Some _ => bcopy_int s len | None => Val (Some []) end else Val (Some []));;
      match d with
      | None => Val None
      | Some d =>
          let pb := QSeg d len in
          Val (Some (if negb (head =? 0) then Headed (QBuf len [pb]) else Single pb))
      end
  else Val None.

(** ** qb2str.c, qb_pullup.c *)

(** The sum of the lengths in [len]. *)
Fixpoint qb_total (l : list qseg) (len : Z) : option Z :=
  match l with
  | [] => Some len
  | p :: l' => match add_int_to_int len (seg_len p) with Some len => qb_total l' len | None => None end
  end.

(** The copies one after the other to [d]. *)
Fixpoint qb_copy (l : list qseg) (d : list Z) : cres (option (list Z)) :=
  match l with
  | [] => Val (Some d)
  | p :: l' =>
      c <- bcopy_int (Some (qb_data p)) (seg_len p);;
      match c with Some c => qb_copy l' (d ++ c) | None => Val None end
  end.

(** The string with its null, and the head with its length set. The loops
    are [do ... while]: of an empty ring they visit the head itself. *)
Definition qb2str (q : qbuf) : cres (option (list Z) * qbuf) :=
  let l := match qb_ring q with [] => [QSeg [] (qb_len q)] | l => l end in
  match qb_total l 0 with
  | None => Val (None, q)
  | Some len =>
      let q := QBuf len (qb_ring q) in
      let l := match qb_ring q with [] => [QSeg [] (qb_len q)] | l => l end in
      match add_int_to_int len 1 with
      | None => Val (None, q)
      | Some nbytes =>
          if malloc_int nbytes then
            b <- qb_copy l [];;
            Val (match b with Some b => Some (b ++ [0]) | None => None end, q)
          else Val (None, q)
      end
  end.

Definition qb_pullup (qb : qbuf) : cres (Z * qbuf) :=
  match qb_total (qb_ring qb) 0 with
  | None => Val (NOTOK, qb)
  | Some len =>
      match add_int_to_int len 1 with
      | None => Val (NOTOK, qb)
      | Some extra =>
          if malloc_plus_int sizeof_qb extra then
            d <- qb_copy (qb_ring qb) [];;
            match d with
            | Some d => Val (OK, QBuf (qb_len qb) [QSeg (d ++ [0]) len])
            | None => Val (NOTOK, qb)
            end
          else Val (NOTOK, qb)
      end
  end.

(** ** prim2qb.c *)

Fixpoint prim2qb (pe : PElement) : cres (option qbuf * PElement) :=
  if negb (malloc_ok sizeof_qb) then Val (pe_seterr pe PE_ERR_NMEM None)
  else if pe_form pe =? PE_FORM_PRIM then
    r <- str2qb (pe_prim pe) (pe_len pe) 0;;
    match r with
    | None => Val (None, set_errno pe PE_ERR_NMEM)
    | Some (Single qp) => Val (Some (QBuf (seg_len qp) [qp]), pe)
    | Some (Headed qb) => Val (Some qb, pe)
    end
  else if pe_form pe =? PE_FORM_CONS then
    match pe_cons pe with
    | [] => Val (Some (QBuf 0 []), pe)
    | first :: _ =>
        let class := pe_class first in
        let id := pe_id first in
        ' (r, l) <-
          (fix go (ps : list PElement) (qb : qbuf) {struct ps} : cres ((Z + qbuf) * list PElement) :=
             match ps with
             | [] => Val (inr qb, [])
             | p :: ps' =>
                 if (negb (pe_class p =? class) || negb (pe_id p =? id))
                    && (negb (pe_class p =? PE_CLASS_UNIV) || negb (pe_id p =? PE_PRIM_OCTS))
                 then Val (inl PE_ERR_TYPE, p :: ps')
                 else
                   ' (qp, p) <- prim2qb p;;
                   match qp with
                   | None => Val (inl (pe_errno p), p :: ps')
                   | Some qp =>
                       let len := fold_left (fun len q => i32 (len + seg_len q)) (qb_ring qp) (qb_len qb) in
                       ' (r, ps') <- go ps' (QBuf len (qb_ring qb ++ qb_ring qp));;
                       Val (r, p :: ps')
                   end
             end) (pe_cons pe) (QBuf 0 []);;
        let pe := set_cons pe l in
        match r with
        | inl e => Val (None, set_errno pe e)
        | inr qb => Val (Some qb, pe)
        end
    end
  else Val (Some (QBuf 0 []), pe).

(** ** qb2prim.c *)

(** The contents of a new primitive [pe] for the buffer [qp]; [None] for
    [no_mem]. *)
Definition qb_element (pe : PElement) (qp : qseg) (in_line : Z) : cres (option PElement) :=
  let pe := set_len pe (seg_len qp) in
  if negb (in_line =? 0) then
    Val (Some (set_inline (set_prim pe (Some (ztake (seg_len qp) (qb_data qp)))) 1))
  else if malloc_int (seg_len qp) then
    d <- bcopy_int (Some (qb_data qp)) (seg_len qp);;
    Val (Some (match d with Some d => set_prim pe (Some d) | None => pe end))
  else Val None.

(** The [do] loop: each element is linked into [pe] and then filled. *)
Fixpoint qb_elements (pe : PElement) (l : list qseg) (in_line : Z) : cres (option PElement) :=
  match l with
  | [] => Val (Some pe)
  | qp :: l' =>
      match pe_alloc PE_CLASS_UNIV PE_FORM_PRIM PE_PRIM_OCTS with
      | None => Val None
      | Some p =>
          p <- qb_element p qp in_line;;
          match p with
          | None => Val None
          | Some p =>
              let '(rc, pe) := seq_add pe (Some p) (-1) in
              if rc =? NOTOK then Val None else qb_elements pe l' in_line
          end
      end
  end.

Definition qb2prim_aux (qb : option qbuf) (class id in_line : Z) : cres (option PElement) :=
  match qb with
  | None => Val None
  | Some qb =>
      match qb_ring qb with
      | [] | [_] =>
          let qp := match qb_ring qb with [qp] => qp | _ => QSeg [] (qb_len qb) end in
          match pe_alloc class PE_FORM_PRIM id with
          | None => Val None
          | Some pe =>
              if seg_len qp =? 0 then Val (Some (if negb (in_line =? 0) then set_inline pe 1 else pe))
              else qb_element pe qp in_line
          end
      | l =>
          match pe_alloc class PE_FORM_CONS id with
          | None => Val None
          | Some pe => qb_elements pe l in_line
          end
      end
  end.
End Queues.

(** ** qbuf2ps.c *)

(** The loop of [qbuf_read]: the octets stored, [cc], and the ring left. A
    buffer that is not used up ends the read. *)
Fixpoint qbuf_read_loop (l : list qseg) (n : Z) (data : list Z) (cc : Z) : cres (Z * list Z * list qseg) :=
  if n >? 0 then
    match l with
    | [] => Val (cc, data, [])
    | qp :: l' =>
        let i := if seg_len qp <? n then seg_len qp else n in
        d <- bcopy_int (Some (qb_data qp)) i;;
        match d with
        | None => Val (cc, data, l)
        | Some d =>
            if seg_len qp - i <=? 0 then qbuf_read_loop l' (n - i) (data ++ d) (cc + i)
            else Val (cc + i, data ++ d, QSeg (zdrop i (qb_data qp)) (seg_len qp - i) :: l')
        end
    end
  else Val (cc, data, l).

(** The stream: [ps_addr], the head of the ring or null. *)
Definition qbuf_read (ps : PStream (option qbuf)) (n : Z) : cres (Z * list Z * PStream (option qbuf)) :=
  match ps_un ps with
  | None => Val (0, [], ps)
  | Some qb =>
      ' (cc, d, l) <- qbuf_read_loop (qb_ring qb) n [] 0;;
      Val (cc, d, set_ps_un ps (Some (QBuf (qb_len qb) l)))
  end.

(** The decoder never works in place on such a stream: [ps_inline] is 0. *)
#[global] Instance qbuf_open : PSOps (option qbuf) := {|
  ps_primeP := None;
  ps_readP := Some qbuf_read;
  ps_writeP := None;
  ps_flushP := None;
  ps_advance _ _ := UB
|}.

(** The stream [ps_alloc (qbuf_open)] returns, and [qbuf_setup]. *)
Definition qbuf_stream : PStream (option qbuf) := mkPS 0 0 0 None.

Definition qbuf_setup (ps : PStream (option qbuf)) (qb : qbuf) : Z * PStream (option qbuf) :=
  (OK, set_ps_un ps (Some qb)).

(** ** qbuf2pe.c *)

(** The element and [*result]; [sizeof_ps] as for [ssdu2pe]. *)
Definition qbuf2pe `{Allocator} (sizeof_ps : Z) (fuel : nat) (qb : qbuf) : cres (option PElement * Z) :=
  if malloc_ok sizeof_ps then
    let '(_, ps) := qbuf_setup qbuf_stream qb in
    ' (pe, ps) <- ps2pe fuel ps;;
    match pe with
    | None => Val (None, if ps_errno ps =? PS_ERR_NONE then PS_ERR_EOF else ps_errno ps)
    | Some pe => Val (Some pe, PS_ERR_NONE)
    end
  else Val (None, PS_ERR_NMEM).

(** * The octets of a queue *)

Definition seg_octets (s : qseg) : list Z := ztake (seg_len s) (qb_data s).

Definition seg_ok (s : qseg) : Prop := 0 <= seg_len s <= zlen (qb_data s) /\ bytes (seg_octets s).

Definition ring_octets (l : list qseg) : list Z := concat (map seg_octets l).

Definition qb_octets (q : qbuf) : list Z := ring_octets (qb_ring q).

Lemma ring_octets_app a b : ring_octets (a ++ b) = ring_octets a ++ ring_octets b.
Proof. unfold ring_octets; rewrite map_app; apply concat_app. Qed.

Lemma ring_octets_cons s l : ring_octets (s :: l) = seg_octets s ++ ring_octets l.
Proof. reflexivity. Qed.

Lemma zlen_seg s : seg_ok s -> zlen (seg_octets s) = seg_len s.
Proof. intros (L & _); apply zlen_ztake; lia. Qed.

Lemma ring_bytes l : Forall seg_ok l -> bytes (ring_octets l).
Proof.
  induction 1 as [|s l S _ IH]; [constructor|]; rewrite ring_octets_cons; apply bytes_app; split; [apply S | exact IH].
Qed.

Lemma bcopy_seg s n : 0 <= n <= zlen (qb_data s) -> bcopy_int (Some (qb_data s)) n = Val (Some (ztake n (qb_data s))).
Proof.
  intros L; unfold bcopy_int, rdn_ptr; rewrite int2sizet_Some, rdn_in, zdrop_0 by lia; reflexivity.
Qed.

Lemma qb_total_ok l : Forall seg_ok l -> forall n, 0 <= n -> n + zlen (ring_octets l) <= INT_MAX ->
  qb_total l n = Some (n + zlen (ring_octets l)).
Proof.
  induction 1 as [|s l S _ IH]; intros n N L; cbn [qb_total].
  - change (zlen (ring_octets [])) with 0; rewrite Z.add_0_r; reflexivity.
  - rewrite ring_octets_cons, zlen_app, (zlen_seg s S) in *; pose proof (zlen_nonneg (ring_octets l)); destruct S as (S & _).
    rewrite add_int_to_int_Some by lia; rewrite IH by lia; f_equal; lia.
Qed.

Lemma qb_copy_ok l : Forall seg_ok l -> forall d, qb_copy l d = Val (Some (d ++ ring_octets l)).
Proof.
  induction 1 as [|s l S _ IH]; intros d; cbn [qb_copy]; [unfold ring_octets; cbn; rewrite app_nil_r; reflexivity|].
  rewrite bcopy_seg by (destruct S; lia); cbn [cbind]; rewrite IH, ring_octets_cons, app_assoc; reflexivity.
Qed.

Section Queue.
Context `{Allocator} (sizeof_qb : Z) (Size : 0 <= sizeof_qb <= 65536).

Lemma malloc_plus_false n : 0 <= n -> n + sizeof_qb <= INT_MAX -> malloc_plus_int sizeof_qb n = false -> out_of_memory.
Proof.
  intros N B E; unfold malloc_plus_int in E; rewrite int2sizet_Some in E by lia.
  rewrite Z.gtb_ltb in E; destruct (Z.ltb_spec (SIZE_MAX - sizeof_qb) n); [unfold SIZE_MAX, INT_MAX in *; lia|].
  left; exists (n + sizeof_qb); split; [lia | exact E].
Qed.

(** [qb2str] *)
Lemma qb2str_result q : Forall seg_ok (qb_ring q) -> qb_ring q <> [] -> zlen (qb_octets q) < INT_MAX ->
  qb2str q = Val (Some (qb_octets q ++ [0]), QBuf (zlen (qb_octets q)) (qb_ring q)) \/
  (out_of_memory /\ qb2str q = Val (None, QBuf (zlen (qb_octets q)) (qb_ring q))).
Proof.
  intros S Ne L; unfold qb2str, qb_octets in *; cbv zeta; cbn [qb_ring qb_len].
  destruct (qb_ring q) as [|s l] eqn:E; [easy|].
  pose proof (zlen_nonneg (ring_octets (s :: l))); rewrite (qb_total_ok _ S) by lia; rewrite Z.add_0_l.
  rewrite add_int_to_int_Some by lia; destruct (malloc_int _) eqn:M.
  - left; rewrite (qb_copy_ok _ S); reflexivity.
  - right; split; [apply (malloc_int_false _) in M; [exact M | lia] | reflexivity].
Qed.

Lemma qb_pullup_result q : Forall seg_ok (qb_ring q) -> zlen (qb_octets q) + 1 + sizeof_qb <= INT_MAX ->
  (exists q', qb_pullup sizeof_qb q = Val (OK, q') /\ Forall seg_ok (qb_ring q') /\ length (qb_ring q') = 1%nat /\
     qb_octets q' = qb_octets q /\ qb_len q' = qb_len q) \/
  (out_of_memory /\ qb_pullup sizeof_qb q = Val (NOTOK, q)).
Proof.
  intros S L; unfold qb_pullup, qb_octets in *; pose proof (zlen_nonneg (ring_octets (qb_ring q))).
  rewrite (qb_total_ok _ S) by lia; rewrite Z.add_0_l, add_int_to_int_Some by lia.
  destruct (malloc_plus_int _ _) eqn:M.
  - left; rewrite (qb_copy_ok _ S); cbn [cbind app]; eexists; split; [reflexivity|].
    assert (O : seg_octets (QSeg (ring_octets (qb_ring q) ++ [0]) (zlen (ring_octets (qb_ring q)))) = ring_octets (qb_ring q))
      by (unfold seg_octets; cbn [seg_len qb_data]; apply ztake_app_exact; reflexivity).
    split; [repeat constructor; cbn [seg_len qb_data]; [lia | rewrite zlen_app, zlen_one; lia | rewrite O; apply ring_bytes, S]|].
    split; [reflexivity|]; split; [|reflexivity]; cbn [qb_ring]; rewrite ring_octets_cons, O; apply app_nil_r.
  - right; split; [apply (malloc_plus_false _) in M; [exact M | lia | lia] | reflexivity].
Qed.

(** ** prim2qb *)

Definition qb_list (class id : Z) :=
  fix go (ps : list PElement) (qb : qbuf) {struct ps} : cres ((Z + qbuf) * list PElement) :=
  match ps with
  | [] => Val (inr qb, [])
  | p :: ps' =>
      if (negb (pe_class p =? class) || negb (pe_id p =? id))
         && (negb (pe_class p =? PE_CLASS_UNIV) || negb (pe_id p =? PE_PRIM_OCTS))
      then Val (inl PE_ERR_TYPE, p :: ps')
      else
        ' (qp, p) <- prim2qb sizeof_qb p;;
        match qp with
        | None => Val (inl (pe_errno p), p :: ps')
        | Some qp =>
            let len := fold_left (fun len q => i32 (len + seg_len q)) (qb_ring qp) (qb_len qb) in
            ' (r, ps') <- go ps' (QBuf len (qb_ring qb ++ qb_ring qp));;
            Val (r, p :: ps')
        end
  end.

Lemma prim2qb_eq pe : prim2qb sizeof_qb pe =
  if negb (malloc_ok sizeof_qb) then Val (pe_seterr pe PE_ERR_NMEM None)
  else if pe_form pe =? PE_FORM_PRIM then
    r <- str2qb sizeof_qb (pe_prim pe) (pe_len pe) 0;;
    match r with
    | None => Val (None, set_errno pe PE_ERR_NMEM)
    | Some (Single qp) => Val (Some (QBuf (seg_len qp) [qp]), pe)
    | Some (Headed qb) => Val (Some qb, pe)
    end
  else if pe_form pe =? PE_FORM_CONS then
    match pe_cons pe with
    | [] => Val (Some (QBuf 0 []), pe)
    | first :: _ =>
        ' (r, l) <- qb_list (pe_class first) (pe_id first) (pe_cons pe) (QBuf 0 []);;
        let pe := set_cons pe l in
        match r with
        | inl e => Val (None, set_errno pe e)
        | inr qb => Val (Some qb, pe)
        end
    end
  else Val (Some (QBuf 0 []), pe).
Proof. destruct pe; reflexivity. Qed.

(** A queue that carries [d]. *)
Definition carries (q : qbuf) (d : list Z) : Prop :=
  Forall seg_ok (qb_ring q) /\ qb_octets q = d /\ qb_len q = zlen d /\ qb_ring q <> [].

Definition qb_result (p : PElement) (r : cres (option qbuf * PElement)) : Prop :=
  (exists q, r = Val (Some q, p) /\ carries q (leaves p)) \/
  (out_of_memory /\ exists p', r = Val (None, p') /\ pe_errno p' = PE_ERR_NMEM).

Definition qb_ok (p : PElement) : Prop :=
  pe_ok p -> str_segments p -> zlen (leaves p) + 1 + sizeof_qb <= INT_MAX -> qb_result p (prim2qb sizeof_qb p).

Lemma fold_len l : Forall seg_ok l -> forall n, 0 <= n -> n + zlen (ring_octets l) <= INT_MAX ->
  fold_left (fun len q => i32 (len + seg_len q)) l n = n + zlen (ring_octets l).
Proof.
  induction 1 as [|s l S _ IH]; intros n N L; cbn [fold_left].
  - change (zlen (ring_octets [])) with 0; lia.
  - rewrite ring_octets_cons, zlen_app, (zlen_seg s S) in *; pose proof (zlen_nonneg (ring_octets l)); destruct S as (S & _).
    rewrite i32_id by (unfold is_int, INT_MIN; lia); rewrite IH by lia; lia.
Qed.

Lemma qb_list_result class id ps : Forall qb_ok ps -> Forall pe_ok ps -> Forall str_segments ps ->
  Forall (fun q => seg_tag class id q = true) ps ->
  forall q d, Forall seg_ok (qb_ring q) -> qb_octets q = d -> qb_len q = zlen d ->
  (ps <> [] \/ qb_ring q <> []) -> zlen d + zlen (concat (map leaves ps)) + 1 + sizeof_qb <= INT_MAX ->
  (exists q', qb_list class id ps q = Val (inr q', ps) /\ carries q' (d ++ concat (map leaves ps))) \/
  (out_of_memory /\ exists l, qb_list class id ps q = Val (inl PE_ERR_NMEM, l)).
Proof.
  induction 1 as [|p ps Hp _ IH]; intros O S T q d Sq Dq Lq Ne B.
  - left; exists q; split; [reflexivity|]; cbn [map concat]; rewrite app_nil_r; destruct Ne; [easy|].
    repeat split; assumption.
  - inversion_clear O as [|? ? Op Ops]; inversion_clear S as [|? ? Sp Sps]; inversion_clear T as [|? ? Tp Tps].
    unfold seg_tag in Tp; apply negb_true_iff in Tp; cbn [qb_list map concat] in *; rewrite Tp.
    rewrite zlen_app in B; pose proof (zlen_nonneg d); pose proof (zlen_nonneg (leaves p)).
    pose proof (zlen_nonneg (concat (map leaves ps))).
    destruct (Hp Op Sp ltac:(lia)) as [(qp & E & Sqp & Dqp & Lqp & Nqp)|[OM (p' & E & Er)]]; rewrite E; cbn [cbind].
    2: { right; split; [exact OM|]; rewrite Er; eauto. }
    unfold qb_octets in Dqp; rewrite fold_len by (rewrite ?Lq, ?Dqp; assumption || lia); rewrite Lq, Dqp, <- zlen_app.
    destruct (IH Ops Sps Tps (QBuf (zlen (d ++ leaves p)) (qb_ring q ++ qb_ring qp)) (d ++ leaves p))
      as [(q' & R & C)|[OM (l & R)]]; try (rewrite R; cbn [cbind]).
    + apply Forall_app; auto.
    + unfold qb_octets in *; cbn [qb_ring]; rewrite ring_octets_app, Dq, Dqp; reflexivity.
    + reflexivity.
    + right; cbn [qb_ring]; intros Q; apply app_eq_nil in Q; tauto.
    + rewrite zlen_app; lia.
    + left; exists q'; split; [reflexivity|]; rewrite app_assoc; exact C.
    + right; eauto.
Qed.

Lemma prim2qb_result p : qb_ok p.
Proof.
  induction p as [p IH] using PElement_tree_ind; intros O S L; unfold qb_result; rewrite prim2qb_eq.
  destruct (malloc_ok sizeof_qb) eqn:M0; cbn [negb].
  2: { right; split; [left; exists sizeof_qb; split; [unfold INT_MAX; lia | exact M0] | eexists; split; reflexivity]. }
  pose proof (leaves_eq p) as Lv; destruct S as [F|first l F E T S].
  - destruct (pe_ok_leaf p O) as (_ & _ & D & _); [rewrite F; discriminate|].
    pose proof (data_ok_len p D); pose proof (rdn_ptr_data p D) as R; destruct D as (E & _ & Bd).
    rewrite F in *; simpl Z.eqb in *; cbn match in *; rewrite Lv in *; rewrite E in *.
    unfold str2qb; destruct (malloc_plus_int sizeof_qb (zlen (pe_data p))) eqn:A; cbn [negb andb].
    + left; simpl Z.eqb; cbn [negb andb].
      assert (D0 : (if zlen (pe_data p) >? 0 then match pe_prim p with Some _ => bcopy_int (pe_prim p) (zlen (pe_data p)) | None => Val (Some []) end
                    else Val (Some [])) = Val (Some (pe_data p))).
      { rewrite Z.gtb_ltb; destruct (Z.ltb_spec 0 (zlen (pe_data p))); [|rewrite (zlen_0 (pe_data p)) by lia; reflexivity].
        unfold bcopy_int; rewrite int2sizet_Some by lia; unfold pe_data in *; destruct (pe_prim p); [|change (zlen (@nil Z)) with 0 in *; lia].
        rewrite R; reflexivity. }
      rewrite D0; cbn [cbind]; eexists; split; [reflexivity|].
      assert (So : seg_octets (QSeg (pe_data p) (zlen (pe_data p))) = pe_data p) by (unfold seg_octets; cbn; apply ztake_all; lia).
      unfold carries, qb_octets; cbn [qb_ring qb_len seg_len]; rewrite ring_octets_cons, So; unfold ring_octets; cbn [map concat].
      rewrite app_nil_r; repeat split; try discriminate.
      constructor; [|constructor]; split; [cbn [seg_len qb_data]; lia | rewrite So; exact Bd].
    + right; split; [eapply malloc_plus_false; [| |exact A]; lia | eexists; split; reflexivity].
  - destruct (pe_ok_node p O F) as (_ & _ & M); rewrite F in *; simpl Z.eqb in *; cbn match in *.
    rewrite E in *; rewrite Lv in *.
    destruct (qb_list_result (pe_class first) (pe_id first) (first :: l) IH M S T (QBuf 0 []) [])
      as [(q & R & C)|[OM (l' & R)]]; try reflexivity; try (constructor; fail); try (left; discriminate);
      try (change (zlen (@nil Z)) with 0; lia); rewrite R; cbn [cbind].
    + left; exists q; rewrite <- E, set_cons_same; split; [reflexivity|]; rewrite E; exact C.
    + right; eauto.
Qed.
End Queue.

(** ** qb2prim *)

Lemma seq_insert_end l r i : Forall (fun q => pe_offset q < i) l -> seq_insert l r i = l ++ [r].
Proof.
  induction 1 as [|q l Q _ IH]; cbn [seq_insert app]; [reflexivity|].
  destruct (Z.eqb_spec (pe_offset q) i); [lia|]; rewrite Z.gtb_ltb; destruct (Z.ltb_spec i (pe_offset q)); [lia|].
  rewrite IH; reflexivity.
Qed.

(** A member of a segmented octet string. *)
Definition octs_member (d : list Z) (p : PElement) : Prop :=
  pe_ok p /\ pe_form p = PE_FORM_PRIM /\ pe_class p = PE_CLASS_UNIV /\ pe_id p = PE_PRIM_OCTS /\ pe_data p = d.

Section Primitives.
Context `{Allocator}.

Lemma qb_element_result pe qp in_line : seg_ok qp -> seg_len qp <= INT_MAX -> pe_form pe = PE_FORM_PRIM ->
  tag_ok pe -> pe_cons pe = [] ->
  exists r, qb_element pe qp in_line = Val r /\
    match r with
    | None => out_of_memory
    | Some p => pe_ok p /\ pe_form p = PE_FORM_PRIM /\ pe_class p = pe_class pe /\ pe_id p = pe_id pe /\
        pe_data p = seg_octets qp
    end.
Proof.
  intros S B F T C; pose proof (zlen_seg qp S) as L; destruct S as (S1 & S2); unfold qb_element.
  assert (Ok : forall i, pe_ok (set_inline (set_prim (set_len pe (seg_len qp)) (Some (seg_octets qp))) i)).
  { intros i; apply ok_prim; [left; exact F | exact T | | exact C].
    split; [symmetry; exact L | split; [cbn; lia | exact S2]]. }
  destruct (negb (in_line =? 0)).
  - eexists; split; [reflexivity|]; split; [apply (Ok 1) | repeat split; exact F].
  - destruct (malloc_int (seg_len qp)) eqn:M.
    + rewrite bcopy_seg by lia; cbn [cbind]; eexists; split; [reflexivity|].
      split; [specialize (Ok (pe_inline pe)); destruct pe; exact Ok | repeat split; exact F].
    + eexists; split; [reflexivity|]; apply (malloc_int_false (seg_len qp)); [lia | exact M].
Qed.

(** The members made of the buffers [l]. *)
Lemma qb_elements_result in_line l : Forall seg_ok l -> zlen (ring_octets l) <= INT_MAX -> forall pe,
  Forall (fun q => pe_offset q < pe_cardinal pe) (pe_cons pe) -> 0 <= pe_cardinal pe ->
  pe_cardinal pe + zlen l <= INT_MAX ->
  exists r, qb_elements pe l in_line = Val r /\
    match r with
    | None => out_of_memory
    | Some p => exists ms, pe_form p = pe_form pe /\ pe_class p = pe_class pe /\ pe_id p = pe_id pe /\ pe_prim p = pe_prim pe /\
        pe_cons p = pe_cons pe ++ ms /\ Forall2 octs_member (map seg_octets l) ms
    end.
Proof.
  induction 1 as [|qp l S _ IH]; intros B pe O C N; cbn [qb_elements].
  - eexists; split; [reflexivity|]; exists []; rewrite app_nil_r; repeat split; constructor.
  - rewrite ring_octets_cons, zlen_app, (zlen_seg qp S), zlen_cons in *; pose proof (zlen_nonneg (ring_octets l)).
    pose proof (zlen_nonneg l); pose proof (proj1 S) as S1; unfold pe_alloc.
    destruct (pe_pool_ok _ _ _) eqn:P; [|eexists; split; [reflexivity | right; eauto]].
    set (p0 := mkPE 0 0 PE_CLASS_UNIV PE_FORM_PRIM PE_PRIM_OCTS 0 0 None [] 0 0 None 0 0).
    destruct (qb_element_result p0 qp in_line S ltac:(lia) eq_refl ltac:(split; cbv; easy) eq_refl) as (r & E & R).
    rewrite E; cbn [cbind]; destruct r as [p|]; [|eexists; split; [reflexivity | exact R]].
    destruct R as (Op & F & Cl & I & D); cbn [seq_add]; rewrite (proj2 (Z.ltb_lt (-1) 0)) by lia.
    change (OK =? NOTOK) with false; cbn match; rewrite Z.geb_leb, Z.leb_refl, (seq_insert_end _ _ _ O).
    match goal with |- context [qb_elements ?q l in_line] => destruct (IH ltac:(lia) q) as (r' & E' & R') end.
    + cbn [pe_cons set_cons set_un2 pe_un2]; rewrite i32_id by (unfold is_int, INT_MIN; lia).
      apply Forall_app; split; [eapply Forall_impl; [|exact O]; cbn; intros; lia | repeat constructor; cbn; lia].
    + cbn [pe_un2 set_un2]; rewrite i32_id by (unfold is_int, INT_MIN; lia); lia.
    + cbn [pe_un2 set_un2]; rewrite i32_id by (unfold is_int, INT_MIN; lia); lia.
    + exists r'; split; [exact E'|]; destruct r' as [p'|]; [|exact R'].
      destruct R' as (ms & F' & C' & I' & P' & M' & A'); exists (set_offset p (pe_un2 pe) :: ms).
      repeat split; try assumption; [rewrite M'; cbn; rewrite <- app_assoc; reflexivity|].
      cbn [map]; constructor; [|exact A']; unfold octs_member.
      split; [destruct p; inversion_clear Op as [F0 T0 D0 C0|F0 T0 N0 C0]; [apply ok_prim; assumption | apply ok_cons; assumption]|].
      repeat split; assumption.
Qed.

Lemma octs_members_leaves ds ms : Forall2 octs_member ds ms -> concat (map leaves ms) = concat ds.
Proof.
  induction 1 as [|d m ds ms M _ IH]; [reflexivity|]; cbn [map concat]; rewrite IH; f_equal.
  destruct M as (_ & F & _ & _ & D); rewrite leaves_eq, F; exact D.
Qed.

(** [p] is a string of this tag with the octets [d]. *)
Definition string_of (class id : Z) (d : list Z) (p : PElement) : Prop :=
  pe_ok p /\ pe_class p = class /\ pe_id p = id /\ leaves p = d /\ str_segments p.

Lemma qb2prim_result q d class id in_line : carries q d -> zlen d <= INT_MAX -> zlen (qb_ring q) <= INT_MAX ->
  0 <= class < 4 -> 0 <= id < 65536 ->
  exists r, qb2prim_aux (Some q) class id in_line = Val r /\
    match r with None => out_of_memory | Some p => string_of class id d p end.
Proof.
  intros (S & D & _ & Ne) B Nl C I; unfold qb2prim_aux, pe_alloc, qb_octets in *; destruct (qb_ring q) as [|s l]; [easy|].
  inversion_clear S as [|? ? Ss Sl]; rewrite ring_octets_cons in D; pose proof (zlen_seg s Ss) as Zs.
  destruct l as [|s' l'].
  - unfold ring_octets in D; cbn [map concat] in D; rewrite app_nil_r in D.
    destruct (pe_pool_ok _ _ _) eqn:P; [|eexists; split; [reflexivity | right; eauto]].
    set (p0 := mkPE 0 0 class PE_FORM_PRIM id 0 0 None [] 0 0 None 0 0).
    destruct (Z.eqb_spec (seg_len s) 0) as [Z0|Z0].
    + assert (d = []) as -> by (apply zlen_0; rewrite <- D; lia).
      eexists; split; [reflexivity|]; unfold string_of; destruct (negb (in_line =? 0));
        (split; [apply ok_prim; [left; reflexivity | split; assumption | split; [reflexivity | split; [cbv; easy | constructor]] | reflexivity]|];
         repeat split; apply seg_leaf; reflexivity).
    + destruct (qb_element_result p0 s in_line Ss) as (r & E & R);
        [rewrite <- Zs, D; lia | reflexivity | split; assumption | reflexivity|].
      exists r; split; [exact E|]; destruct r as [p|]; [|exact R]; destruct R as (O & F & Cl & Id & Dp).
      split; [exact O|]; repeat split; try assumption; [rewrite leaves_eq, F, <- D; exact Dp | apply seg_leaf, F].
  - destruct (pe_pool_ok _ _ _) eqn:P; [|eexists; split; [reflexivity | right; eauto]].
    set (p0 := mkPE 0 0 class PE_FORM_CONS id 0 0 None [] 0 0 None 0 0).
    destruct (qb_elements_result in_line (s :: s' :: l') (Forall_cons _ Ss Sl)) with (pe := p0) as (r & E & R).
    + rewrite ring_octets_cons, D; exact B.
    + constructor.
    + cbn; lia.
    + exact Nl.
    + exists r; split; [exact E|]; destruct r as [p|]; [|exact R]; destruct R as (ms & F & Cl & Id & Pr & M & A).
      cbn [p0 pe_cons app] in M; change (pe_form p0) with PE_FORM_CONS in F.
      assert (Om : Forall (fun m => pe_ok m /\ pe_form m = PE_FORM_PRIM /\ pe_class m = PE_CLASS_UNIV /\ pe_id m = PE_PRIM_OCTS) ms)
        by (clear -A; induction A as [|? ? ? ? Hm]; constructor; [destruct Hm; tauto | assumption]).
      assert (Ln : leaves p = d).
      { rewrite leaves_eq, F, M; change (PE_FORM_CONS =? PE_FORM_CONS) with true; cbn match.
        rewrite (octs_members_leaves _ _ A), <- D; reflexivity. }
      split; [apply ok_cons; [exact F | split; cbn in *; congruence | rewrite Pr; reflexivity | rewrite M; eapply Forall_impl; [|exact Om]; tauto]|].
      repeat split; try assumption.
      inversion A as [|? m ? ms' Hm Hms E1 E2]; rewrite <- E2 in M, Om; apply (seg_node p m ms' F M).
      * destruct Hm as (_ & _ & Cm & Im & _); rewrite Cm, Im; eapply Forall_impl; [|exact Om].
        intros m' (_ & _ & C' & I'); unfold seg_tag; rewrite C', I'; reflexivity.
      * eapply Forall_impl; [|exact Om]; intros m' (_ & F' & _); apply seg_leaf, F'.
Qed.
End Primitives.

(** * The queue as a stream *)

Lemma seg_rest s i : seg_ok s -> 0 <= i <= seg_len s ->
  seg_ok (QSeg (zdrop i (qb_data s)) (seg_len s - i)) /\
  seg_octets (QSeg (zdrop i (qb_data s)) (seg_len s - i)) = zdrop i (seg_octets s).
Proof.
  intros (L & B) I; assert (E : seg_octets (QSeg (zdrop i (qb_data s)) (seg_len s - i)) = zdrop i (seg_octets s)).
  { unfold seg_octets; cbn [seg_len qb_data]; unfold ztake, zdrop; rewrite skipn_firstn_comm; f_equal; lia. }
  split; [|exact E]; split; [cbn [seg_len qb_data]; rewrite zlen_zdrop by lia; lia | rewrite E; apply Forall_zdrop, B].
Qed.

(** A read takes the octets off the queue, across its buffers, until it has
    enough or the queue is empty. *)
Lemma qbuf_read_loop_spec l : Forall seg_ok l -> forall n data cc, 0 <= n ->
  exists l', let k := Z.min n (zlen (ring_octets l)) in
    qbuf_read_loop l n data cc = Val (cc + k, data ++ ztake k (ring_octets l), l') /\
    Forall seg_ok l' /\ ring_octets l' = zdrop k (ring_octets l).
Proof.
  induction 1 as [|s l S Sl IH]; intros n data cc N; cbv zeta.
  - exists []; change (zlen (ring_octets [])) with 0; rewrite Z.min_r by lia.
    cbn [qbuf_read_loop]; destruct (n >? 0); rewrite Z.add_0_r, ztake_0, app_nil_r by lia; auto.
  - pose proof (zlen_seg s S) as Zs; pose proof (zlen_nonneg (ring_octets l)); pose proof (proj1 S) as S1.
    cbn [qbuf_read_loop]; rewrite ring_octets_cons, zlen_app, Zs, Z.gtb_ltb; destruct (Z.ltb_spec 0 n) as [P|P].
    + set (i := if seg_len s <? n then seg_len s else n).
      assert (Ei : i = Z.min (seg_len s) n) by (unfold i; destruct (Z.ltb_spec (seg_len s) n); lia).
      rewrite bcopy_seg by lia; cbn [cbind]; destruct (Z.leb_spec (seg_len s - i) 0).
      * destruct (IH (n - i) (data ++ ztake i (qb_data s)) (cc + i)) as (l' & E & Ok & D); [lia|].
        exists l'; rewrite E; replace i with (seg_len s) in * by lia; fold (seg_octets s).
        set (k := Z.min (n - seg_len s) (zlen (ring_octets l))) in *.
        replace (Z.min n (seg_len s + zlen (ring_octets l))) with (seg_len s + k) by lia.
        split; [|split; [exact Ok|]].
        -- assert (T : ztake (seg_len s + k) (seg_octets s ++ ring_octets l) = seg_octets s ++ ztake k (ring_octets l)).
           { rewrite <- Zs at 1; unfold ztake; rewrite Z2Nat.inj_add by (rewrite ?Zs; lia).
             unfold zlen; rewrite Nat2Z.id, firstn_app_2; reflexivity. }
           rewrite T, app_assoc; do 3 f_equal; lia.
        -- rewrite D, Z.add_comm, <- zdrop_zdrop by lia; rewrite (zdrop_app_exact (seg_len s)) by (rewrite Zs; reflexivity); reflexivity.
      * replace i with n in * by lia; destruct (seg_rest s n S) as (Ok & D); [lia|].
        eexists; split; [|split; [constructor; [exact Ok | exact Sl]|]].
        -- rewrite Z.min_l by lia; rewrite ztake_app_l by lia; unfold seg_octets.
           unfold ztake at 2; unfold ztake; rewrite firstn_firstn, Nat.min_l by lia; reflexivity.
        -- rewrite Z.min_l, zdrop_app_l by lia; rewrite ring_octets_cons, D; reflexivity.
    + exists (s :: l); replace n with 0 by lia; rewrite Z.min_l, Z.add_0_r, ztake_0, zdrop_0, app_nil_r by lia.
      split; [reflexivity|]; split; [constructor; assumption | reflexivity].
Qed.

Definition qbuf_input (u : option qbuf) : list Z := match u with Some q => qb_octets q | None => [] end.

Definition qbuf_rok (u : option qbuf) : Prop := match u with Some q => Forall seg_ok (qb_ring q) | None => True end.

#[global] Program Instance qbuf_reader : PSReader (option qbuf) := {|
  ps_rok := qbuf_rok; ps_input_of := qbuf_input; ps_inlines := False
|}.
Next Obligation.
  exists qbuf_read; split; [reflexivity|]; intros ps n N R; unfold qbuf_read.
  destruct (ps_un ps) as [q|] eqn:E; cbn [qbuf_input qbuf_rok] in *.
  - destruct (qbuf_read_loop_spec (qb_ring q) R n [] 0) as (l' & -> & Ok & D); [lia|]; fold (qb_octets q) in *.
    pose proof (zlen_nonneg (qb_octets q)); cbn [cbind app]; rewrite Z.add_0_l; eexists; eexists; split; [reflexivity|].
    repeat split; try lia; [exact Ok | intros Z0; apply zlen_0; lia | exact D].
  - exists 0, None; split; [destruct ps; cbn in *; subst; reflexivity|]; repeat split; cbn; lia.
Qed.
Next Obligation. easy. Qed.

Lemma qbuf_pre q : Forall seg_ok (qb_ring q) -> zlen (qb_octets q) <= INT_MAX -> dec_pre (snd (qbuf_setup qbuf_stream q)).
Proof.
  intros S L; unfold dec_pre, ps_good; change (ps_input (snd (qbuf_setup qbuf_stream q))) with (qb_octets q).
  cbn [snd qbuf_setup set_ps_un qbuf_stream ps_byteno ps_inline ps_un]; pose proof (zlen_nonneg (qb_octets q)).
  split; [split; [split; [exact S | easy] | cbv; easy]|]; split; [apply ring_bytes, S | lia].
Qed.

(** * The properties *)

(** A string through a queue: [prim2qb] cuts any octet string, whole or in
    segments, into a queue of the same octets; [qb2str] copies them out with a
    null, [qb_pullup] brings them into one buffer, and [qb2prim] makes of the
    queue a well-formed string of the same octets. Each fails only for want
    of memory. *)
Theorem qb2prim_prim2qb : forall (A : Allocator) sizeof_qb p class id in_line,
  0 <= sizeof_qb <= 65536 -> pe_ok p -> str_segments p -> zlen (leaves p) + 1 + sizeof_qb <= INT_MAX ->
  0 <= class < 4 -> 0 <= id < 65536 ->
  exists r p', prim2qb sizeof_qb p = Val (r, p') /\
    match r with
    | None => out_of_memory /\ pe_errno p' = PE_ERR_NMEM
    | Some q => p' = p /\ carries q (leaves p) /\
        (out_of_memory \/ exists q', qb2str q = Val (Some (leaves p ++ [0]), q') /\ carries q' (leaves p)) /\
        (out_of_memory \/ exists q', qb_pullup sizeof_qb q = Val (OK, q') /\ carries q' (leaves p) /\
           length (qb_ring q') = 1%nat) /\
        (zlen (qb_ring q) <= INT_MAX -> exists o, qb2prim_aux (Some q) class id in_line = Val o /\
           match o with None => out_of_memory | Some p2 => string_of class id (leaves p) p2 end)
    end.
Proof.
  intros A sz p class id i Sz O S L C I; destruct (prim2qb_result sz Sz p O S L) as [(q & E & Q)|(M & p' & E & Er)].
  2: { exists None, p'; auto. }
  exists (Some q), p; split; [exact E|]; split; [reflexivity|]; split; [exact Q|].
  pose proof Q as (Qs & Qd & Ql & Qn); split; [|split].
  - destruct (qb2str_result q Qs Qn) as [R|(M & _)]; [rewrite Qd; lia | right | left; exact M].
    rewrite R, Qd; eexists; split; [reflexivity|]; repeat split; assumption.
  - destruct (qb_pullup_result sz Sz q Qs) as [(q' & R & Qs' & L1 & D & Ln)|(M & _)]; [rewrite Qd; lia | right | left; exact M].
    exists q'; split; [exact R|]; split; [|exact L1]; split; [exact Qs'|]; do 2 (split; [congruence|]).
    intros Z0; rewrite Z0 in L1; discriminate.
  - intros Nr; apply qb2prim_result; auto; lia.
Qed.

(** C33. The decoder sees the octets of a queue and not its buffers: from any queue
    that holds an encoding and then more, [qbuf2pe] returns an element of the
    value encoded, and of a queue that holds none it returns an error. *)
Theorem qbuf2pe_decides : forall (A : Allocator) sizeof_ps q fuel, memory_ok -> pool_ok ->
  Forall seg_ok (qb_ring q) -> zlen (qb_octets q) <= INT_MAX -> (length (qb_octets q) < fuel)%nat ->
  exists o e, qbuf2pe sizeof_ps fuel q = Val (o, e) /\
    match o with
    | Some p => e = PS_ERR_NONE /\ exists os rest, qb_octets q = os ++ rest /\ enc (pe_value p) os
    | None => e <> PS_ERR_NONE /\ forall v os rest, qb_octets q = os ++ rest -> ~ enc v os
    end.
Proof.
  intros A sz q fuel M P S L F; unfold qbuf2pe; rewrite M; cbn [qbuf_setup].
  pose proof (qbuf_pre q S L) as D; set (ps := snd (qbuf_setup qbuf_stream q)) in *.
  change (set_ps_un qbuf_stream (Some q)) with ps; assert (I : ps_input ps = qb_octets q) by reflexivity.
  destruct (ps2pe_sound ps fuel D) as [(O & _)|(o & ps' & E & C)]; [rewrite I; exact F | |].
  { exfalso; destruct O as [(n & _ & O)|(c & f & i & O)]; [rewrite M in O | rewrite P in O]; discriminate. }
  rewrite E; cbn [cbind]; destruct o as [p|].
  - exists (Some p), PS_ERR_NONE; split; [reflexivity|]; split; [reflexivity|].
    destruct C as (os & (I' & _) & En & _); exists os, (ps_input ps'); rewrite <- I; auto.
  - eexists; eexists; split; [reflexivity|]; split.
    + destruct (Z.eqb_spec (ps_errno ps') PS_ERR_NONE) as [_|]; [discriminate | assumption].
    + intros v os rest Eq En; destruct (ps2pe_complete ps fuel v os rest M P En) as (p & ps1 & E1 & _);
        [rewrite Eq, length_app in F; lia | exact D | rewrite I; exact Eq|].
      rewrite E in E1; discriminate.
Qed.

(** A negative [qb_len] is refused by the sum of [qb2str] and [qb_pullup]. *)
Lemma qb_pullup_negative `{Allocator} sizeof_qb len d n : n < 0 ->
  qb_pullup sizeof_qb (QBuf len [QSeg d n]) = Val (NOTOK, QBuf len [QSeg d n]).
Proof.
  intros N; unfold qb_pullup; cbn [qb_total qb_ring seg_len]; unfold add_int_to_int.
  rewrite (proj2 (Z.ltb_lt n 0)) by lia; reflexivity.
Qed.

(** * Witnesses *)

Lemma qb2prim_prim2qb_witness : exists q, @prim2qb plenty 32 ex_octs = Val (Some q, ex_octs) /\ carries q (leaves ex_octs).
Proof.
  destruct (qb2prim_prim2qb plenty 32 ex_octs 0 4 0) as (r & p' & E & R); try lia.
  - apply pe_okb_ok; reflexivity.
  - apply seg_leaf; reflexivity.
  - vm_compute; discriminate.
  - destruct r as [q|]; [|discriminate E]; destruct R as (-> & C & _); exists q; split; assumption.
Defined.

(** An integer cut into three buffers, and an octet more. *)
Definition ex_qbuf : qbuf := QBuf 5 [QSeg [2] 1; QSeg [] 0; QSeg [2; 1] 2; QSeg [0; 9] 2].

Lemma qbuf2pe_decides_witness : exists p, @qbuf2pe plenty 64 6 ex_qbuf = Val (Some p, PS_ERR_NONE) /\
  exists os rest, qb_octets ex_qbuf = os ++ rest /\ enc (pe_value p) os.
Proof.
  destruct (qbuf2pe_decides plenty 64 ex_qbuf 6) as (o & e & E & R);
    [apply plenty_ok | apply pool_plenty | | vm_compute; discriminate | vm_compute; lia |].
  - repeat apply Forall_cons; try apply Forall_nil; (split; [vm_compute; split; discriminate | apply forallb_bytes; reflexivity]).
  - destruct o as [p|]; [|discriminate E]; destruct R as (-> & R); exists p; split; [exact E | exact R].
Defined.
