(* ===== verification/Oid.v ===== *)
(** * psap: object identifiers (oid_cmp.c, oid_cpy.c, obj2prim.c, prim2oid.c,
    sprintoid.c, str2oid.c, compat/str2elem.c)

    The elements of an identifier are [unsigned int]s; the array may be
    longer than [oid_nelem]. A C string is the list of its characters. *)

From S2P Require Import Prelude Text Conv PElement StrPs.
Open Scope Z_scope.
Open Scope c_scope.

Record OIDentifier : Type := mkOID { oid_nelem : Z; oid_elements : list Z }.

(** ** oid_cmp.c, oid_cpy.c *)

Fixpoint elem_cmp (ip : list Z) (i : Z) (jp : list Z) (j : Z) {struct ip} : cres Z :=
  if i >? 0 then
    if j =? 0 then Val 1
    else
      match ip, jp with
      | a :: ip', b :: jp' =>
          if a >? b then Val 1
          else if a <? b then Val (-1)
          else elem_cmp ip' (i - 1) jp' (j - 1)
      | _, _ => UB
      end
  else Val (if j =? 0 then 0 else -1).

(** A null [q] is dereferenced. *)
Definition oid_cmp (p q : option OIDentifier) : cres Z :=
  match p with
  | None => Val (match q with Some _ => -1 | None => 0 end)
  | Some p =>
      match q with
      | Some q => elem_cmp (oid_elements p) (oid_nelem p) (oid_elements q) (oid_nelem q)
      | None => UB
      end
  end.

Section Oids.
Context `{Allocator}.

Definition oid_cpy (q : option OIDentifier) : cres (option OIDentifier) :=
  match q with
  | None => Val None
  | Some q =>
      if oid_nelem q <? 1 then Val None
      else
        match int2sizet (oid_nelem q) with
        | None => Val None
        | Some n =>
            if n >? SIZE_MAX / 4 - 1 then Val None
            else if negb (malloc_ok 16) then Val None
            else if negb (malloc_ok ((n + 1) * 4)) then Val None
            else d <- rdn (oid_elements q) 0 n;; Val (Some (mkOID n d))
        end
  end.

(** ** obj2prim.c *)

(** The sub-identifiers: the first two elements make one, and the sum wraps. *)
Definition sub_ids (es : list Z) : list Z :=
  match es with
  | a :: b :: es' => u32 (u32 (a * 40) + b) :: es'
  | _ => es
  end.

(** [do { m++; j >>= 7; } while (j);] for the 32 bits of [j]. *)
Fixpoint group_count (fuel : nat) (m j : Z) : Z :=
  match fuel with
  | O => m
  | S fuel' =>
      let m := m + 1 in
      let j := Z.shiftr j 7 in
      if j =? 0 then m else group_count fuel' m j
  end.

(** The sizes of the sub-identifiers, and their sum. *)
Fixpoint obj_sizes (js : list Z) (n : Z) : option (list Z * Z) :=
  match js with
  | [] => Some ([], n)
  | j :: js' =>
      let m := group_count 5 0 j in
      match add_int_to_int n m with
      | None => None
      | Some n =>
          match obj_sizes js' n with
          | Some (np, n) => Some (m :: np, n)
          | None => None
          end
      end
  end.

(** [for (dp = ep; m-- > 0; j >>= 7) *dp-- = (j & 0x7f) | 0x80;] *)
Fixpoint store_groups (m : nat) (j : Z) (acc : list Z) : option (list Z) :=
  match m with
  | O => Some acc
  | S m' =>
      match int2u8 (Z.lor (Z.land j 127) 128) with
      | None => None
      | Some c => store_groups m' (Z.shiftr j 7) (c :: acc)
      end
  end.

(** The octets of the sub-identifiers of sizes [np]. *)
Fixpoint store_subs (js np : list Z) : option (list Z) :=
  match js, np with
  | j :: js', m :: np' =>
      match store_groups (Z.to_nat m) j [] with
      | None => None
      | Some g =>
          let g := removelast g ++ [u8_bic (last g 0) 128] in
          match store_subs js' np' with
          | None => None
          | Some d => Some (g ++ d)
          end
      end
  | _, _ => Some []
  end.

Definition obj2prim (o : option OIDentifier) (class id : Z) : cres (option PElement) :=
  match o with
  | None => Val None
  | Some o =>
      if oid_nelem o <=? 1 then Val None
      else
        es <- rdn (oid_elements o) 0 (oid_nelem o);;
        e0 <- rd es 0;;
        e1 <- rd es 1;;
        if (e0 >? 2) || ((e0 <? 2) && (e1 >? 39)) then Val None
        else
          match pe_alloc class PE_FORM_PRIM id with
          | None => Val None
          | Some pe =>
              if malloc_nmemb (oid_nelem o) 4 then
                match obj_sizes (sub_ids es) 0 with
                | None => Val None
                | Some (np, n) =>
                    if malloc_int n then
                      match store_subs (sub_ids es) np with
                      | None => Val None
                      | Some d => Val (Some (set_prim (set_len pe n) (Some d)))
                      end
                    else Val None
                end
              else Val None
          end
  end.

(** ** prim2oid.c *)

(** [while ( *dp++ & 0x80) if (dp > ep) return ...;] from [dp]: the pointer
    after the sub-identifier, or [None] for the error. The octet at [ep] may
    be read. *)
Fixpoint skip_groups (fuel : nat) (b : list Z) (dp ep : Z) : cres (option Z) :=
  match fuel with
  | O => UB
  | S fuel' =>
      c <- rd b dp;;
      let dp := dp + 1 in
      if Z.land c 128 =? 0 then Val (Some dp)
      else if dp >? ep then Val None
      else skip_groups fuel' b dp ep
  end.

(** The first loop: one more than the number of sub-identifiers. *)
Fixpoint count_subs (fuel : nat) (b : list Z) (i dp ep : Z) : cres (option Z) :=
  if dp <? ep then
    match fuel with
    | O => UB
    | S fuel' =>
        c <- rd b dp;;
        if c =? 128 then Val None
        else
          r <- skip_groups (S (Z.to_nat (ep - dp + 1))) b dp ep;;
          match r with
          | None => Val None
          | Some dp => count_subs fuel' b (i + 1) dp ep
          end
    end
  else Val (Some i).

(** [do { i <<= 7; i |= *dp & 0x7f; } while ( *dp++ & 0x80);] *)
Fixpoint read_groups (fuel : nat) (b : list Z) (dp i : Z) : cres (Z * Z) :=
  match fuel with
  | O => UB
  | S fuel' =>
      c <- rd b dp;;
      let i := Z.lor (u32 (Z.shiftl i 7)) (Z.land c 127) in
      if Z.land c 128 =? 0 then Val (i, dp + 1) else read_groups fuel' b (dp + 1) i
  end.

(** The second loop; [es] holds the elements stored so far. *)
Fixpoint read_subs (fuel : nat) (b : list Z) (dp ep : Z) (es : list Z) : cres (list Z) :=
  if dp <? ep then
    match fuel with
    | O => UB
    | S fuel' =>
        ' (i, dp) <- read_groups (S (Z.to_nat (ep - dp))) b dp 0;;
        let es :=
          match es with
          | _ :: _ => es ++ [i]
          | [] => if i <? 40 then [0; i] else if i <? 80 then [1; i - 40] else [2; i - 80]
          end in
        read_subs fuel' b dp ep es
    end
  else Val es.

Definition prim2oid (pe : PElement) : cres (option OIDentifier * PElement) :=
  match pe_prim pe with
  | None => Val (pe_seterr pe PE_ERR_PRIM None)
  | Some b =>
      if negb (pe_form pe =? PE_FORM_PRIM) || (pe_len pe =? 0) then Val (pe_seterr pe PE_ERR_PRIM None)
      else
        r <- count_subs (S (Z.to_nat (pe_len pe))) b 1 0 (pe_len pe);;
        match r with
        | None => Val (pe_seterr pe PE_ERR_OID None)
        | Some i =>
            match uint2int i with
            | None => Val (pe_seterr pe PE_ERR_NMEM None)
            | Some nelem =>
                match add_int_to_int nelem 1 with
                | None => Val (pe_seterr pe PE_ERR_NMEM None)
                | Some nalloc =>
                    if malloc_nmemb nalloc 4 then
                      es <- read_subs (S (Z.to_nat (pe_len pe))) b 0 (pe_len pe) [];;
                      Val (Some (mkOID nelem es), pe)
                    else Val (pe_seterr pe PE_ERR_NMEM None)
                end
            end
        end
  end.
End Oids.

(** ** sprintoid.c *)

(** The loop of [sprintoid]; each [sprintf] writes at the end of the static
    buffer of BUFSIZ octets, a terminating null included. *)
Fixpoint sprintoid_loop (ip : list Z) (cp bp : list Z) : cres (list Z) :=
  match ip with
  | [] => Val bp
  | e :: ip' =>
      let bp := bp ++ cp ++ print_u e in
      if zlen bp + 1 <=? BUFSIZ then sprintoid_loop ip' [46] bp else UB
  end.

Definition sprintoid (oid : option OIDentifier) : cres (list Z) :=
  match oid with
  | None => Val []
  | Some oid =>
      if oid_nelem oid <? 1 then Val []
      else es <- rdn (oid_elements oid) 0 (oid_nelem oid);; sprintoid_loop es [] []
  end.

(** ** compat/str2elem.c, str2oid.c *)

Definition NELEM : Z := 100.

(** [atoi] of a run of digits; undefined when it does not fit an [int]. *)
Definition atoi (ds : list Z) : cres Z :=
  let n := fold_left (fun a c => a * 10 + (c - 48)) ds 0 in
  if n <=? INT_MAX then Val n else UB.

(** The elements stored, and the rest of the string at [dp]. *)
Fixpoint str2elem_loop (fuel : nat) (cp acc : list Z) : cres (list Z * list Z) :=
  match fuel with
  | O => UB
  | S fuel' =>
      match cp with
      | [] => Val (acc, [])
      | _ :: _ =>
          if zlen acc <=? NELEM then
            let '(ds, dp) := span_digits cp in
            if match ds with [] => true | _ :: _ => false end
               || match dp with [] => false | c :: _ => negb (c =? 46) end
            then Val (acc, dp)
            else
              a <- atoi ds;;
              match dp with
              | [] => Val (acc ++ [a], [])
              | _ :: cp' => str2elem_loop fuel' cp' (acc ++ [a])
              end
          else Val (acc, cp)
      end
  end.

(** The count, or NOTOK, and the elements with their terminating 0. *)
Definition str2elem (s : option (list Z)) : cres (Z * list Z) :=
  match s with
  | None => Val (NOTOK, [])
  | Some [] => Val (NOTOK, [])
  | Some s =>
      ' (es, dp) <- str2elem_loop (S (length s)) s [];;
      if match dp with [] => false | _ :: _ => true end || (zlen es >=? NELEM)
      then Val (NOTOK, es)
      else Val (zlen es, es ++ [0])
  end.

Definition str2oid (s : option (list Z)) : cres (option OIDentifier) :=
  ' (i, elements) <- str2elem s;;
  if i <? 1 then Val None
  else
    e0 <- rd elements 0;;
    bad <- (if e0 >? 2 then Val true
            else if (i >? 1) && (e0 <? 2) then e1 <- rd elements 1;; Val (e1 >? 39)
            else Val false);;
    if (bad : bool) then Val None else Val (Some (mkOID i elements)).

Example prim2oid_run : @prim2oid plenty (mkPE 0 0 0 0 6 4 0 (Some [42; 134; 72; 1]) [] 0 0 None 0 0) =
  Val (Some (mkOID 4 [1; 2; 840; 1]), mkPE 0 0 0 0 6 4 0 (Some [42; 134; 72; 1]) [] 0 0 None 0 0).
Proof. vm_compute; reflexivity. Qed.
Example sprintoid_run : sprintoid (Some (mkOID 3 [1; 2; 840])) = Val [49; 46; 50; 46; 56; 52; 48].
Proof. vm_compute; reflexivity. Qed.
Example str2oid_run : str2oid (Some [49; 46; 50; 46; 56; 52; 48]) = Val (Some (mkOID 3 [1; 2; 840; 0])).
Proof. vm_compute; reflexivity. Qed.

(** * Lemmas *)

(** ** The order of identifiers *)

(** An identifier whose array holds its elements. *)
Definition oid_ok (o : OIDentifier) : Prop := 0 <= oid_nelem o <= zlen (oid_elements o).

(** Its elements. *)
Definition elems (o : OIDentifier) : list Z := ztake (oid_nelem o) (oid_elements o).

(** Lexicographic comparison, a proper prefix first. *)
Fixpoint lex (x y : list Z) : Z :=
  match x, y with
  | [], [] => 0
  | [], _ :: _ => -1
  | _ :: _, [] => 1
  | a :: x', b :: y' => if a >? b then 1 else if a <? b then -1 else lex x' y'
  end.

Lemma ztake_cons {A} n (a : A) l : 0 < n -> ztake n (a :: l) = a :: ztake (n - 1) l.
Proof. intros; unfold ztake; replace (Z.to_nat n) with (S (Z.to_nat (n - 1))) by lia; reflexivity. Qed.

Lemma elem_cmp_lex ip : forall i jp j, 0 <= i <= zlen ip -> 0 <= j <= zlen jp ->
  elem_cmp ip i jp j = Val (lex (ztake i ip) (ztake j jp)).
Proof.
  induction ip as [|a ip IH]; intros i jp j I J; cbn [elem_cmp].
  - change (zlen (@nil Z)) with 0 in I; replace i with 0 by lia; cbn [Z.gtb Z.compare]; rewrite ztake_0 by lia.
    destruct (Z.eqb_spec j 0) as [->|]; [rewrite (ztake_0 0) by lia; reflexivity|].
    destruct jp as [|b jp]; [change (zlen (@nil Z)) with 0 in J; lia|]; rewrite ztake_cons by lia; reflexivity.
  - rewrite zlen_cons in I; rewrite Z.gtb_ltb; destruct (Z.ltb_spec 0 i).
    + rewrite (ztake_cons i) by lia; destruct (Z.eqb_spec j 0) as [->|]; [rewrite (ztake_0 0) by lia; reflexivity|].
      destruct jp as [|b jp]; [change (zlen (@nil Z)) with 0 in J; lia|]; rewrite zlen_cons in J; rewrite (ztake_cons j) by lia.
      cbn [lex]; repeat case_goal; try reflexivity; apply IH; lia.
    + rewrite (ztake_0 i) by lia; destruct (Z.eqb_spec j 0) as [->|]; [rewrite (ztake_0 0) by lia; reflexivity|].
      destruct jp as [|b jp]; [change (zlen (@nil Z)) with 0 in J; lia|]; rewrite ztake_cons by lia; reflexivity.
Qed.

Lemma lex_values x y : lex x y = 0 \/ lex x y = 1 \/ lex x y = -1.
Proof.
  revert y; induction x as [|a x IH]; intros [|b y]; simpl; auto; repeat case_goal; auto.
Qed.

Lemma lex_eq x y : lex x y = 0 <-> x = y.
Proof.
  revert y; induction x as [|a x IH]; intros [|b y]; simpl; try easy; rewrite Z.gtb_ltb.
  destruct (Z.ltb_spec b a), (Z.ltb_spec a b); try lia; (split; [try easy | intros [= ? ?]; try lia]).
  - intros ->%IH; f_equal; lia.
  - apply IH; assumption.
Qed.

Lemma lex_sym x y : lex y x = - lex x y.
Proof.
  revert y; induction x as [|a x IH]; intros [|b y]; simpl; auto; rewrite !Z.gtb_ltb.
  destruct (Z.ltb_spec b a), (Z.ltb_spec a b); auto; lia.
Qed.

Lemma lex_trans x : forall y z, lex x y <= 0 -> lex y z <= 0 -> lex x z <= 0.
Proof.
  induction x as [|a x IH]; intros [|b y] [|c z]; simpl; try lia; rewrite !Z.gtb_ltb.
  destruct (Z.ltb_spec b a), (Z.ltb_spec a b), (Z.ltb_spec c b), (Z.ltb_spec b c), (Z.ltb_spec c a), (Z.ltb_spec a c);
    try lia; apply IH.
Qed.

(** ** Sub-identifiers *)

(** Octets with the top bit set, then one without. *)
Definition sub_shape (g : list Z) : Prop :=
  exists h c, g = h ++ [c] /\ Forall (fun x => 128 <= x < 256) h /\ 0 <= c < 128.

(** The value the code reads, in an [unsigned int]. *)
Definition sub_value (g : list Z) : Z :=
  fold_left (fun i c => Z.lor (u32 (Z.shiftl i 7)) (Z.land c 127)) g 0.

Lemma land_80_oid c : is_byte c -> (Z.land c 128 =? 0) = (c <? 128).
Proof.
  intros H; apply Bool.eqb_prop.
  apply (byte_forall (fun c => Bool.eqb (Z.land c 128 =? 0) (c <? 128))); [reflexivity | exact H].
Qed.

Lemma rd_mid pre c post : rd (pre ++ c :: post) (zlen pre) = Val c.
Proof. rewrite rd_app_r, Z.sub_diag by lia; apply rd_cons0. Qed.

Lemma app_cons_assoc {A} (x : list A) a y : x ++ a :: y = (x ++ [a]) ++ y.
Proof. rewrite <- app_assoc; reflexivity. Qed.

Lemma skip_groups_spec h c fuel pre post ep : Forall (fun x => 128 <= x < 256) h -> 0 <= c < 128 ->
  (length h < fuel)%nat -> zlen pre + zlen h + 1 <= ep ->
  skip_groups fuel (pre ++ (h ++ [c]) ++ post) (zlen pre) ep = Val (Some (zlen pre + zlen h + 1)).
Proof.
  intros H C; revert fuel pre; induction H as [|x h X _ IH]; intros [|fuel] pre F L; try (simpl in F; lia);
    cbn [skip_groups app]; rewrite rd_mid; cbn [cbind]; rewrite land_80_oid by (unfold is_byte; lia).
  - rewrite (proj2 (Z.ltb_lt c 128)) by lia; rewrite zlen_nil; do 2 f_equal; lia.
  - rewrite (proj2 (Z.ltb_ge x 128)) by lia; rewrite zlen_cons in *; pose proof (zlen_nonneg h).
    rewrite Z.gtb_ltb, (proj2 (Z.ltb_ge ep _)) by lia; rewrite (app_cons_assoc pre).
    replace (zlen pre + 1) with (zlen (pre ++ [x])) by (rewrite zlen_app; reflexivity).
    rewrite IH; [rewrite zlen_app; change (zlen [x]) with 1; do 2 f_equal; lia | simpl in F; lia|].
    rewrite zlen_app; change (zlen [x]) with 1; lia.
Qed.

Lemma read_groups_spec h c fuel pre post i : Forall (fun x => 128 <= x < 256) h -> 0 <= c < 128 ->
  (length h < fuel)%nat ->
  read_groups fuel (pre ++ (h ++ [c]) ++ post) (zlen pre) i =
  Val (fold_left (fun i c => Z.lor (u32 (Z.shiftl i 7)) (Z.land c 127)) (h ++ [c]) i, zlen pre + zlen h + 1).
Proof.
  intros H C; revert fuel pre i; induction H as [|x h X _ IH]; intros [|fuel] pre i F; try (simpl in F; lia);
    cbn [read_groups app fold_left]; rewrite rd_mid; cbn [cbind]; rewrite land_80_oid by (unfold is_byte; lia).
  - rewrite (proj2 (Z.ltb_lt c 128)) by lia; rewrite zlen_nil; do 2 f_equal; lia.
  - rewrite (proj2 (Z.ltb_ge x 128)), (app_cons_assoc pre), zlen_cons by lia.
    replace (zlen pre + 1) with (zlen (pre ++ [x])) by (rewrite zlen_app; reflexivity).
    rewrite IH by (simpl in F; lia); rewrite zlen_app; change (zlen [x]) with 1; do 2 f_equal; lia.
Qed.

(** The first octet of a sub-identifier. *)
Definition padded_sub (g : list Z) : bool := match g with c :: _ => c =? 128 | [] => false end.

Lemma sub_shape_cons g : sub_shape g -> exists c g', g = c :: g' /\ is_byte c.
Proof.
  intros (h & c & -> & H & C); destruct H as [|x h X H]; simpl; do 2 eexists; (split; [reflexivity|]); unfold is_byte; lia.
Qed.

Lemma count_subs_spec gs : Forall sub_shape gs -> forall fuel pre i, (length gs <= fuel)%nat ->
  count_subs fuel (pre ++ concat gs) i (zlen pre) (zlen (pre ++ concat gs)) =
  Val (if existsb padded_sub gs then None else Some (i + zlen gs)).
Proof.
  induction 1 as [|g gs G _ IH]; intros fuel pre i F; cbn [concat existsb].
  - rewrite app_nil_r; destruct fuel; cbn [count_subs]; rewrite Z.ltb_irrefl, zlen_nil, Z.add_0_r; reflexivity.
  - destruct fuel as [|fuel]; [simpl in F; lia|]; cbn [count_subs].
    destruct (sub_shape_cons g G) as (c0 & g' & Eg & C0).
    assert (Lt : zlen pre < zlen (pre ++ g ++ concat gs)).
    { rewrite !zlen_app, Eg, zlen_cons; pose proof (zlen_nonneg g'); pose proof (zlen_nonneg (concat gs)); lia. }
    rewrite (proj2 (Z.ltb_lt _ _) Lt).
    assert (R : rd (pre ++ g ++ concat gs) (zlen pre) = Val c0) by (rewrite Eg; apply rd_mid).
    rewrite R; cbn [cbind].
    assert (P : padded_sub g = (c0 =? 128)) by (rewrite Eg; reflexivity); rewrite P.
    destruct (c0 =? 128); [reflexivity|]; cbn [orb]; pose proof G as (h & c & E & H & C).
    pose proof (zlen_nonneg (concat gs)); pose proof (zlen_nonneg h).
    pose proof (skip_groups_spec h c (S (Z.to_nat (zlen (pre ++ g ++ concat gs) - zlen pre + 1))) pre (concat gs)
      (zlen (pre ++ g ++ concat gs)) H C) as K; rewrite <- E in K; rewrite K.
    2: { rewrite E, !zlen_app, zlen_one; unfold zlen in *; lia. }
    2: { rewrite E, !zlen_app, zlen_one; lia. }
    cbn [cbind]; replace (zlen pre + zlen h + 1) with (zlen (pre ++ g)).
    + rewrite app_assoc, IH by (simpl in F; lia); rewrite zlen_cons; destruct (existsb padded_sub gs); [reflexivity|].
      do 2 f_equal; lia.
    + rewrite E, !zlen_app, zlen_one; lia.
Qed.

(** The elements that sub-identifiers stand for. *)
Definition sub_elems (js : list Z) : list Z :=
  match js with
  | [] => []
  | i :: js' => (if i <? 40 then [0; i] else if i <? 80 then [1; i - 40] else [2; i - 80]) ++ js'
  end.

Lemma read_subs_step gs : Forall sub_shape gs -> forall fuel pre es, (length gs <= fuel)%nat -> es <> [] ->
  read_subs fuel (pre ++ concat gs) (zlen pre) (zlen (pre ++ concat gs)) es = Val (es ++ map sub_value gs).
Proof.
  induction 1 as [|g gs G _ IH]; intros fuel pre es F N; cbn [concat map].
  - rewrite !app_nil_r; destruct fuel; cbn [read_subs]; rewrite Z.ltb_irrefl; reflexivity.
  - destruct fuel as [|fuel]; [simpl in F; lia|]; cbn [read_subs]; destruct G as (h & c & E & H & C).
    pose proof (zlen_nonneg (concat gs)); pose proof (zlen_nonneg h).
    rewrite (proj2 (Z.ltb_lt _ _)) by (rewrite E, !zlen_app, zlen_one; lia).
    pose proof (read_groups_spec h c (S (Z.to_nat (zlen (pre ++ g ++ concat gs) - zlen pre))) pre (concat gs) 0 H C) as K.
    rewrite <- E in K; rewrite K.
    2: { rewrite E, !zlen_app, zlen_one; unfold zlen in *; lia. }
    cbn [cbind]; fold (sub_value g); destruct es as [|e es]; [easy|].
    replace (zlen pre + zlen h + 1) with (zlen (pre ++ g)) by (rewrite E, !zlen_app, zlen_one; lia).
    rewrite app_assoc, IH by (simpl in F; try lia; discriminate); rewrite <- app_assoc; reflexivity.
Qed.

Lemma read_subs_spec gs fuel : Forall sub_shape gs -> (length gs <= fuel)%nat ->
  read_subs fuel (concat gs) 0 (zlen (concat gs)) [] = Val (sub_elems (map sub_value gs)).
Proof.
  intros Sg F; destruct Sg as [|g gs G Sg]; [destruct fuel; reflexivity|]; destruct fuel as [|fuel]; [simpl in F; lia|].
  cbn [read_subs concat map sub_elems]; destruct G as (h & c & E & H & C); pose proof (zlen_nonneg (concat gs)); pose proof (zlen_nonneg h).
  rewrite (proj2 (Z.ltb_lt 0 (zlen (g ++ concat gs)))) by (rewrite E, !zlen_app, zlen_one; lia).
  pose proof (read_groups_spec h c (S (Z.to_nat (zlen (g ++ concat gs) - 0))) [] (concat gs) 0 H C) as R.
  cbn [app] in R; change (zlen []) with 0 in R; rewrite <- E in R; rewrite R; cbn [cbind].
  2: { rewrite E, !zlen_app, zlen_one; unfold zlen in *; lia. }
  fold (sub_value g); set (es := if _ <? 40 then _ else _).
  replace (0 + zlen h + 1) with (zlen g) by (rewrite E, zlen_app, zlen_one; lia).
  apply read_subs_step; [exact Sg | simpl in F; lia|].
  unfold es; repeat case_goal; discriminate.
Qed.

(** Any octets that end in one without the top bit are sub-identifiers. *)
Lemma split_subs d : bytes d -> d <> [] -> last d 0 < 128 -> exists gs, d = concat gs /\ Forall sub_shape gs.
Proof.
  assert (M : forall n (d : list Z), (length d <= n)%nat -> bytes d -> d <> [] -> last d 0 < 128 ->
    exists h c r, d = h ++ [c] ++ r /\ Forall (fun x => 128 <= x < 256) h /\ 0 <= c < 128 /\ (r <> [] -> last r 0 < 128) /\ bytes r).
  { induction n as [|n IH]; intros d0 L B N La; (destruct d0 as [|c d0]; [easy|]); [simpl in L; lia|].
    apply bytes_cons in B as [C B]; unfold is_byte in C; destruct (Z.lt_ge_cases c 128) as [Lc|Gc].
    - exists [], c, d0; repeat split; auto; try lia; intros Nr; destruct d0; [easy | exact La].
    - destruct d0 as [|x d1]; [simpl in La; lia|].
      destruct (IH (x :: d1) ltac:(simpl in *; lia) B ltac:(discriminate) La) as (h & c' & r & E & H & R).
      exists (c :: h), c', r; rewrite E; split; [reflexivity|]; split; [constructor; [lia | exact H] | exact R]. }
  assert (Q : forall n (d : list Z), (length d <= n)%nat -> bytes d -> (d <> [] -> last d 0 < 128) -> exists gs, d = concat gs /\ Forall sub_shape gs).
  { induction n as [|n IH]; intros d0 L B La; [destruct d0; [exists []; auto | simpl in L; lia]|].
    destruct d0 as [|x d1]; [exists []; auto|].
    destruct (M (S n) (x :: d1) L B ltac:(discriminate) (La ltac:(discriminate))) as (h & c & r & E & H & C & Lr & Br).
    destruct (IH r) as (gs & Eg & S); auto.
    - rewrite E, !length_app in L; simpl in L; lia.
    - exists ((h ++ [c]) :: gs); cbn [concat]; rewrite <- Eg, E, <- app_assoc; split; [reflexivity|].
      constructor; [exists h, c; auto | exact S]. }
  intros B N L; apply (Q (length d)); auto.
Qed.

(** ** Encoding *)

(** The value of groups of seven bits, without wrapping. *)
Definition group_value (l : list Z) (i : Z) : Z := fold_left (fun i c => i * 128 + c mod 128) l i.

Lemma group_value_bounds l : forall i, i * 128 ^ zlen l <= group_value l i < (i + 1) * 128 ^ zlen l.
Proof.
  unfold group_value; induction l as [|c l IH]; intros i; cbn [fold_left]; [cbn; lia|].
  specialize (IH (i * 128 + c mod 128)); rewrite zlen_cons, Z.pow_add_r by (zlen || lia); change (128 ^ 1) with 128.
  pose proof (Z.mod_pos_bound c 128 ltac:(lia)); assert (0 < 128 ^ zlen l) by (apply Z.pow_pos_nonneg; zlen || lia).
  nia.
Qed.

Lemma sub_value_group l : Forall is_byte l -> forall i, 0 <= i -> group_value l i < 4294967296 ->
  fold_left (fun i c => Z.lor (u32 (Z.shiftl i 7)) (Z.land c 127)) l i = group_value l i.
Proof.
  unfold group_value; induction 1 as [|c l C _ IH]; intros i I L; cbn [fold_left] in *; [reflexivity|].
  pose proof (Z.mod_pos_bound c 128 ltac:(lia)) as M.
  pose proof (group_value_bounds l (i * 128 + c mod 128)) as [G _]; unfold group_value in G.
  assert (1 <= 128 ^ zlen l) by (apply (Z.pow_le_mono_r 128 0); zlen || lia).
  assert (i * 128 + c mod 128 < 4294967296) by nia.
  rewrite land_7f, Z.shiftl_mul_pow2, u32_id by lia.
  rewrite (lor_add i (c mod 128) 7) by lia; change (2 ^ 7) with 128; apply IH; lia.
Qed.

Lemma store_groups_spec m : forall j acc, 0 <= j -> exists h, store_groups m j acc = Some (h ++ acc) /\
  length h = m /\ Forall (fun x => 128 <= x < 256) h /\ group_value h 0 = j mod 128 ^ Z.of_nat m.
Proof.
  induction m as [|m IH]; intros j acc J; cbn [store_groups].
  - exists []; rewrite Z.mod_1_r; auto.
  - pose proof (Z.mod_pos_bound j 128 ltac:(lia)) as M.
    assert (E : Z.lor (Z.land j 127) 128 = 128 + j mod 128).
    { rewrite land_7f, Z.lor_comm; apply (lor_add 1 _ 7); lia. }
    rewrite E, int2u8_Some, shr7 by (unfold is_byte; lia).
    destruct (IH (j / 128) ((128 + j mod 128) :: acc)) as (h & -> & L & F & V); [apply Z.div_pos; lia|].
    exists (h ++ [128 + j mod 128]); rewrite <- app_assoc; split; [reflexivity|]; split; [rewrite length_app; simpl; lia|].
    split; [apply Forall_app; split; [exact F | repeat constructor; lia]|].
    unfold group_value in *; rewrite fold_left_app, V; cbn [fold_left].
    rewrite Nat2Z.inj_succ, Z.pow_succ_r, (Z.rem_mul_r j 128) by (try apply Z.pow_pos_nonneg; lia).
    rewrite <- Z.add_mod_idemp_l by lia; change (128 mod 128) with 0; rewrite Z.add_0_l, Z.mod_mod by lia; lia.
Qed.

Lemma group_count_spec j : 0 <= j < 4294967296 ->
  exists m, group_count 5 0 j = m /\ 1 <= m <= 5 /\ j < 128 ^ m /\ (m = 1 \/ 128 ^ (m - 1) <= j).
Proof.
  intros J; eexists; split; [reflexivity|]; cbn [group_count Z.add]; rewrite !shr7.
  rewrite !Z.div_div by lia; cbn [Z.mul Pos.mul].
  pose proof (Z.div_small_iff j 128 ltac:(lia)); pose proof (Z.div_small_iff j (128 * 128) ltac:(lia)).
  pose proof (Z.div_small_iff j (128 * 128 * 128) ltac:(lia)); pose proof (Z.div_small_iff j (128 * 128 * 128 * 128) ltac:(lia)).
  cbn [Z.mul Pos.mul] in *.
  repeat match goal with |- context [?a =? 0] => destruct (Z.eqb_spec a 0) end; cbn [Z.pow Z.sub]; split; try lia.
  all: split; [cbn; lia|]; cbn; lia.
Qed.

(** One sub-identifier, encoded. *)
Definition encodes_sub (j : Z) (g : list Z) : Prop :=
  sub_shape g /\ sub_value g = j /\ padded_sub g = false /\ zlen g = group_count 5 0 j /\ bytes g.

Lemma encode_sub j : 0 <= j < 4294967296 ->
  exists g0, store_groups (Z.to_nat (group_count 5 0 j)) j [] = Some g0 /\
    encodes_sub j (removelast g0 ++ [u8_bic (last g0 0) 128]).
Proof.
  intros J; destruct (group_count_spec j J) as (m & E & M & U & Mn); unfold encodes_sub; rewrite E.
  replace (Z.to_nat m) with (S (Z.to_nat (m - 1))) by lia; cbn [store_groups].
  pose proof (Z.mod_pos_bound j 128 ltac:(lia)) as R; pose proof (Z.div_mod j 128 ltac:(lia)) as D.
  assert (El : Z.lor (Z.land j 127) 128 = 128 + j mod 128).
  { rewrite land_7f, Z.lor_comm; apply (lor_add 1 _ 7); lia. }
  rewrite El, int2u8_Some, shr7 by (unfold is_byte; lia).
  destruct (store_groups_spec (Z.to_nat (m - 1)) (j / 128) [128 + j mod 128]) as (h & -> & L & F & V); [apply Z.div_pos; lia|].
  exists (h ++ [128 + j mod 128]); split; [reflexivity|]; rewrite removelast_last, last_last.
  assert (Ec : u8_bic (128 + j mod 128) 128 = j mod 128).
  { assert (B : is_byte (128 + j mod 128)) by (unfold is_byte; lia).
    pose proof (byte_forall (fun x => (x <? 128) || (u8_bic x 128 =? x - 128)) eq_refl _ B) as Q; cbn beta in Q.
    bool_to_prop; destruct Q; bool_to_prop; lia. }
  rewrite Ec; rewrite Z2Nat.id in V by lia.
  assert (P : 128 ^ m = 128 * 128 ^ (m - 1)) by (rewrite <- Z.pow_succ_r by lia; f_equal; lia).
  rewrite Z.mod_small in V by (split; [apply Z.div_pos; lia | apply Z.div_lt_upper_bound; lia]).
  assert (Bh : Forall is_byte h) by (eapply Forall_impl; [|exact F]; unfold is_byte; cbv beta; lia).
  assert (Bg : bytes (h ++ [j mod 128])).
  { apply bytes_app; split; [exact Bh | repeat constructor; unfold is_byte; lia]. }
  split; [exists h, (j mod 128); repeat split; auto; lia|]; split; [|split; [|split; [|exact Bg]]].
  - assert (G : group_value (h ++ [j mod 128]) 0 = j).
    { unfold group_value in *; rewrite fold_left_app, V; cbn [fold_left]; rewrite Z.mod_mod by lia; lia. }
    unfold sub_value; rewrite sub_value_group, G; [reflexivity | exact Bg | lia | rewrite G; lia].
  - destruct h as [|x h]; cbn [app padded_sub]; [apply Z.eqb_neq; lia|].
    apply Z.eqb_neq; intros ->; simpl in L; destruct Mn as [Mn|Mn]; [lia|].
    pose proof (group_value_bounds h 0) as [_ G]; unfold group_value in V, G; cbn [fold_left] in V.
    change (0 * 128 + 128 mod 128) with 0 in V; rewrite V in G.
    assert (Lh : zlen h = m - 2) by (unfold zlen; lia); rewrite Lh in G.
    assert (P2 : 128 ^ (m - 1) = 128 * 128 ^ (m - 2)) by (rewrite <- Z.pow_succ_r by lia; f_equal; lia).
    assert (128 ^ (m - 2) <= j / 128) by (apply Z.div_le_lower_bound; lia); lia.
  - rewrite zlen_app; change (zlen [j mod 128]) with 1; unfold zlen; lia.
Qed.

Lemma store_subs_spec js : Forall (fun j => 0 <= j < 4294967296) js ->
  exists gs, store_subs js (map (group_count 5 0) js) = Some (concat gs) /\ Forall2 encodes_sub js gs.
Proof.
  induction 1 as [|j js J _ (gs & E & F)]; [exists []; auto|]; cbn [map store_subs].
  destruct (encode_sub j J) as (g0 & -> & G); rewrite E; eexists (_ :: gs); split; [reflexivity | constructor; assumption].
Qed.

Lemma obj_sizes_spec js : Forall (fun j => 0 <= j < 4294967296) js -> forall n, 0 <= n -> n + 5 * zlen js <= INT_MAX ->
  exists k, obj_sizes js n = Some (map (group_count 5 0) js, n + k) /\ 0 <= k <= 5 * zlen js /\
    forall gs, Forall2 encodes_sub js gs -> zlen (concat gs) = k.
Proof.
  induction 1 as [|j js J _ IH]; intros n N L; cbn [obj_sizes map].
  - exists 0; rewrite Z.add_0_r; split; [reflexivity|]; split; [cbn; lia|]; intros gs F; inversion F; reflexivity.
  - rewrite zlen_cons in L; pose proof (zlen_nonneg js); destruct (group_count_spec j J) as (m & E & M & _).
    rewrite E, add_int_to_int_Some by lia; destruct (IH (n + m)) as (k & -> & K & Gk); [lia | lia|].
    exists (m + k); rewrite Z.add_assoc, zlen_cons; split; [reflexivity|]; split; [lia|].
    intros gs F; inversion F as [|? g ? gs' G F']; subst; cbn [concat]; rewrite zlen_app, (Gk gs' F').
    destruct G as (_ & _ & _ & -> & _); reflexivity.
Qed.

(** The first sub-identifier splits into the first two elements. *)
Lemma sub_elems_first e0 e1 es : 0 <= e0 <= 2 -> 0 <= e1 -> (e0 < 2 -> e1 <= 39) ->
  sub_elems (e0 * 40 + e1 :: es) = e0 :: e1 :: es.
Proof.
  intros E0 E1 F; unfold sub_elems; destruct (Z.ltb_spec (e0 * 40 + e1) 40); [|destruct (Z.ltb_spec (e0 * 40 + e1) 80)];
    cbn [app]; f_equal; try lia; f_equal; lia.
Qed.

(** ** Strings *)

Lemma print_u_spec e : 0 <= e < 4294967296 ->
  Forall (fun c => is_digit c = true) (print_u e) /\ print_u e <> [] /\ zlen (print_u e) <= 10 /\
  (e <= INT_MAX -> atoi (print_u e) = Val e).
Proof.
  intros E; destruct (utoa_spec 10 e) as (A & B & C & V); [cbn; lia | lia|].
  unfold print_u; repeat split; auto; [unfold zlen; lia|].
  intros L; unfold atoi; rewrite V, (proj2 (Z.leb_le e INT_MAX)) by lia; reflexivity.
Qed.

(** The characters of elements, separated by dots. *)
Fixpoint dotted (es : list Z) : list Z :=
  match es with
  | [] => []
  | [e] => print_u e
  | e :: es' => print_u e ++ 46 :: dotted es'
  end.

Lemma dotted_cons e es : es <> [] -> dotted (e :: es) = print_u e ++ 46 :: dotted es.
Proof. destruct es; [easy | reflexivity]. Qed.

Lemma sprintoid_loop_spec es : forall bp, Forall (fun e => 0 <= e < 4294967296) es ->
  zlen bp + 11 * zlen es + 1 <= BUFSIZ ->
  sprintoid_loop es [46] bp = Val (bp ++ concat (map (fun e => 46 :: print_u e) es)).
Proof.
  induction es as [|e es IH]; intros bp F L; cbn [sprintoid_loop map concat].
  - rewrite app_nil_r; reflexivity.
  - inversion_clear F as [|? ? E F']; rewrite zlen_cons in L; destruct (print_u_spec e E) as (_ & _ & P & _).
    pose proof (zlen_nonneg es); cbn [app].
    rewrite (proj2 (Z.leb_le _ BUFSIZ)) by (rewrite zlen_app, zlen_cons; lia).
    rewrite IH by (auto; rewrite zlen_app, zlen_cons; lia); rewrite <- app_assoc; reflexivity.
Qed.

Lemma dotted_concat e es : dotted (e :: es) = print_u e ++ concat (map (fun e => 46 :: print_u e) es).
Proof.
  revert e; induction es as [|e' es IH]; intros e; [simpl; rewrite app_nil_r; reflexivity|].
  rewrite dotted_cons by discriminate; rewrite IH; reflexivity.
Qed.

Lemma atoi_overflow e : INT_MAX < e < 4294967296 -> atoi (print_u e) = UB.
Proof.
  intros E; destruct (utoa_spec 10 e) as (_ & _ & _ & V); [unfold INT_MAX in E; cbn; lia | lia|].
  unfold atoi, print_u; rewrite V, (proj2 (Z.leb_gt e INT_MAX)) by lia; reflexivity.
Qed.

(** The elements that [atoi] can return. *)
Definition ints (es : list Z) : bool := forallb (fun e => e <=? INT_MAX) es.

Lemma str2elem_loop_spec es : forall fuel acc, es <> [] -> Forall (fun e => 0 <= e < 4294967296) es ->
  zlen acc + zlen es <= NELEM -> (length es <= fuel)%nat ->
  str2elem_loop fuel (dotted es) acc = if ints es then Val (acc ++ es, []) else UB.
Proof.
  induction es as [|e es IH]; intros fuel acc N F L Fu; [easy|]; destruct fuel as [|fuel]; [simpl in Fu; lia|].
  inversion_clear F as [|? ? E F']; rewrite zlen_cons in L; pose proof (zlen_nonneg es).
  destruct (print_u_spec e E) as (D & Nn & _ & A); cbn [str2elem_loop ints forallb].
  assert (S : exists r, dotted (e :: es) = print_u e ++ r /\ span_digits (dotted (e :: es)) = (print_u e, r) /\
    (es = [] /\ r = [] \/ es <> [] /\ r = 46 :: dotted es)).
  { destruct es as [|e' es].
    - exists []; rewrite app_nil_r; split; [reflexivity|]; split; [|auto].
      change (dotted [e]) with (print_u e); rewrite <- (app_nil_r (print_u e)) at 1; apply span_digits_app; auto.
    - exists (46 :: dotted (e' :: es)); rewrite dotted_cons by discriminate; split; [reflexivity|]; split.
      + apply span_digits_app; [exact D | reflexivity].
      + right; split; [discriminate | reflexivity]. }
  destruct S as (r & Er & Es & C); rewrite Es.
  destruct (dotted (e :: es)) as [|c l] eqn:Ed; [destruct (print_u e); [easy | discriminate]|].
  rewrite (proj2 (Z.leb_le (zlen acc) NELEM)) by lia; pose proof (atoi_overflow e) as Big.
  destruct (print_u e) as [|c0 p] eqn:Ep; [easy|]; destruct (Z.leb_spec e INT_MAX) as [Le|Gt]; cbn [andb].
  2: { rewrite Big by lia; destruct C as [[-> ->]|[Ne ->]]; reflexivity. }
  rewrite A by lia; destruct C as [[-> ->]|[Ne ->]]; cbn [orb cbind].
  - reflexivity.
  - change (negb (46 =? 46)) with false; cbn match; rewrite IH; auto.
    + rewrite <- app_assoc; reflexivity.
    + rewrite zlen_app; change (zlen [e]) with 1; lia.
    + simpl in Fu; lia.
Qed.

Lemma dotted_length l : Forall (fun e => 0 <= e < 4294967296) l -> (length l <= S (length (dotted l)))%nat.
Proof.
  induction l as [|e l IH]; intros F; [simpl; lia|]; inversion_clear F as [|? ? E F'].
  destruct (print_u_spec e E) as (_ & Pn & _); destruct l as [|e' l]; [simpl; lia|].
  rewrite dotted_cons by discriminate; rewrite length_app; specialize (IH F'); simpl length in *; lia.
Qed.

Lemma str2elem_dotted e es n : Forall (fun e => 0 <= e < 4294967296) (e :: es) -> zlen (e :: es) = n -> 2 <= n < NELEM ->
  str2elem (Some (dotted (e :: es))) = if ints (e :: es) then Val (n, (e :: es) ++ [0]) else UB.
Proof.
  intros U Q N; pose proof (dotted_length _ U) as Le; unfold str2elem; destruct (dotted (e :: es)) as [|c s] eqn:Ed.
  - rewrite dotted_concat in Ed; inversion_clear U as [|? ? E0 _]; destruct (print_u_spec e E0) as (_ & Pn & _).
    destruct (print_u e); [easy | discriminate].
  - rewrite <- Ed, (str2elem_loop_spec (e :: es)); [|discriminate | exact U | rewrite Q; change (zlen (@nil Z)) with 0; lia | rewrite Ed; exact Le].
    destruct (ints _); [|reflexivity]; cbn [cbind app orb]; rewrite Q, Z.geb_leb, (proj2 (Z.leb_gt NELEM _)) by lia; reflexivity.
Qed.

Lemma shapes_length gs : Forall sub_shape gs -> (length gs <= length (concat gs))%nat.
Proof.
  induction 1 as [|g gs (h & c & -> & _) _ IH]; [auto|]; cbn [concat length]; rewrite !length_app; simpl; lia.
Qed.

Section Decode.
Context `{Allocator}.

(** [prim2oid] of sub-identifiers. *)
Lemma prim2oid_subs p gs : pe_ok p -> pe_form p = PE_FORM_PRIM -> pe_data p = concat gs -> gs <> [] ->
  Forall sub_shape gs -> 4 * zlen (concat gs) + 8 <= INT_MAX ->
  if existsb padded_sub gs then prim2oid p = Val (None, set_errno p PE_ERR_OID)
  else prim2oid p = Val (Some (mkOID (1 + zlen gs) (sub_elems (map sub_value gs))), p) \/
       (out_of_memory /\ prim2oid p = Val (None, set_errno p PE_ERR_NMEM)).
Proof.
  intros O F D N Sh L; destruct (pe_ok_leaf p O) as (_ & _ & (E & _ & _) & _); [rewrite F; discriminate|].
  pose proof (shapes_length gs Sh) as Lg.
  assert (Ng : 0 < zlen (concat gs)).
  { destruct Sh as [|g gs (h & c & -> & _) Sh]; [easy|]; cbn [concat]; rewrite !zlen_app, zlen_one.
    pose proof (zlen_nonneg h); pose proof (zlen_nonneg (concat gs)); lia. }
  assert (Zg : 0 < zlen gs <= zlen (concat gs)) by (destruct gs; [easy | unfold zlen in *; simpl length in *; lia]).
  unfold prim2oid; unfold pe_data in D, E; destruct (pe_prim p) as [b|]; [subst b|rewrite <- D in Ng; cbn in Ng; lia].
  rewrite F, E, (proj2 (Z.eqb_neq (zlen (concat gs)) 0)) by lia; change (negb (PE_FORM_PRIM =? PE_FORM_PRIM)) with false.
  cbn [orb]; pose proof (count_subs_spec gs Sh (S (Z.to_nat (zlen (concat gs)))) [] 1) as C.
  cbn [app] in C; change (zlen (@nil Z)) with 0 in C; rewrite C by (unfold zlen; lia); cbn [cbind].
  destruct (existsb padded_sub gs); [reflexivity|].
  unfold uint2int; rewrite Z.gtb_ltb, (proj2 (Z.ltb_ge INT_MAX _)), add_int_to_int_Some by lia.
  destruct (malloc_nmemb _ 4) eqn:M.
  - left; rewrite read_subs_spec by (auto; unfold zlen; lia); reflexivity.
  - right; split; [|reflexivity]; unfold malloc_nmemb in M; rewrite int2sizet_Some in M by lia.
    change (SIZE_MAX / 4) with 4611686018427387903 in M; unfold INT_MAX in *.
    rewrite Z.gtb_ltb, (proj2 (Z.ltb_ge 4611686018427387903 _)), andb_false_r in M by lia.
    left; eexists; split; [|exact M]; unfold INT_MAX; lia.
Qed.
End Decode.

(** * The properties *)

(** [oid_cmp] is a total order on well-formed identifiers: it reads only
    their elements, is 0 exactly on equal ones, changes sign when its
    arguments are swapped, and is transitive. *)
Theorem oid_cmp_total_order : forall p q, oid_ok p -> oid_ok q ->
  exists r, oid_cmp (Some p) (Some q) = Val r /\ (r = 0 \/ r = 1 \/ r = -1) /\
    (r = 0 <-> elems p = elems q) /\ oid_cmp (Some q) (Some p) = Val (- r) /\
    forall s, oid_ok s -> r <= 0 ->
      exists r' r'', oid_cmp (Some q) (Some s) = Val r' /\ oid_cmp (Some p) (Some s) = Val r'' /\
        (r' <= 0 -> r'' <= 0).
Proof.
  intros p q P Q; unfold oid_ok, elems in *; cbn [oid_cmp]; rewrite !elem_cmp_lex by assumption.
  eexists; split; [reflexivity|]; split; [apply lex_values|]; split; [apply lex_eq|].
  split; [f_equal; apply lex_sym|]; intros s O L; rewrite !elem_cmp_lex by assumption.
  do 2 eexists; split; [reflexivity|]; split; [reflexivity|]; intros L'; eapply lex_trans; eauto.
Qed.

(** An identifier that X.690 can encode and whose first sub-identifier does
    not wrap. *)
Definition encodable (o : OIDentifier) : Prop :=
  oid_ok o /\ 2 <= oid_nelem o /\ Forall (fun e => 0 <= e < 4294967296) (elems o) /\
  match elems o with
  | e0 :: e1 :: _ => e0 <= 2 /\ (e0 < 2 -> e1 <= 39) /\ e0 * 40 + e1 < 4294967296
  | _ => False
  end.

(** C28. Object identifiers round trip: [obj2prim] encodes every identifier with a
    well-formed primitive from which [prim2oid] reads the same elements; each
    fails only for want of memory. *)
Theorem prim2oid_obj2prim : forall (A : Allocator) o class id, encodable o -> 20 * oid_nelem o + 8 <= INT_MAX ->
  0 <= class < 4 -> 0 <= id < 65536 ->
  exists r, obj2prim (Some o) class id = Val r /\
    match r with
    | None => out_of_memory
    | Some p => pe_ok p /\
        ((exists o', prim2oid p = Val (Some o', p) /\ elems o' = elems o /\ oid_cmp (Some o') (Some o) = Val 0) \/
         (out_of_memory /\ prim2oid p = Val (None, set_errno p PE_ERR_NMEM)))
    end.
Proof.
  intros A o class id (Ok & N & U & First) L C I; unfold obj2prim.
  rewrite (proj2 (Z.leb_gt (oid_nelem o) 1)) by lia; unfold oid_ok in Ok.
  rewrite rdn_in, zdrop_0 by lia; fold (elems o); cbn [cbind].
  destruct (elems o) as [|e0 [|e1 es]] eqn:Ee; try easy; destruct First as (F0 & F1 & F2).
  inversion_clear U as [|? ? U0 U']; inversion_clear U' as [|? ? U1 U2].
  rewrite rd_cons0; cbn [cbind]; rewrite rd_consS, rd_cons0 by lia; cbn [cbind].
  replace ((e0 >? 2) || ((e0 <? 2) && (e1 >? 39))) with false.
  2: { rewrite !Z.gtb_ltb; destruct (Z.ltb_spec 2 e0), (Z.ltb_spec e0 2), (Z.ltb_spec 39 e1); try reflexivity; lia. }
  unfold pe_alloc; destruct (pe_pool_ok class PE_FORM_PRIM id) eqn:P; [|exists None; split; [reflexivity | right; eauto]].
  assert (Ln : oid_nelem o = 2 + zlen es).
  { assert (Q : zlen (elems o) = oid_nelem o) by (apply zlen_ztake; exact Ok).
    rewrite Ee, !zlen_cons in Q; lia. }
  pose proof (zlen_nonneg es); destruct (malloc_nmemb (oid_nelem o) 4) eqn:M.
  2: { exists None; split; [reflexivity|]; unfold malloc_nmemb in M; rewrite int2sizet_Some in M by lia.
       change (SIZE_MAX / 4) with 4611686018427387903 in M; unfold INT_MAX in *.
       rewrite Z.gtb_ltb, (proj2 (Z.ltb_ge 4611686018427387903 _)), andb_false_r in M by lia.
       left; eexists; split; [|exact M]; unfold INT_MAX; lia. }
  cbn [sub_ids]; rewrite !u32_id by (rewrite ?u32_id; lia); set (js := e0 * 40 + e1 :: es).
  assert (J : Forall (fun j => 0 <= j < 4294967296) js) by (constructor; [lia | exact U2]).
  assert (Zj : zlen js = 1 + zlen es) by apply zlen_cons.
  destruct (obj_sizes_spec js J 0) as (k & -> & K & Gk); [lia | lia|].
  destruct (malloc_int (0 + k)) eqn:Mk; [|exists None; split; [reflexivity | apply (malloc_int_false (0 + k)); [lia | exact Mk]]].
  destruct (store_subs_spec js J) as (gs & -> & F); specialize (Gk gs F).
  eexists; split; [reflexivity|]; cbn beta iota; set (p := set_prim _ _).
  assert (Sh : Forall sub_shape gs /\ map sub_value gs = js /\ existsb padded_sub gs = false /\ bytes (concat gs)).
  { clear -F; induction F as [|j g js gs (S1 & S2 & S3 & _ & S4) _ (I1 & I2 & I3 & I4)]; [repeat constructor|].
    cbn [map existsb concat]; rewrite S2, I2, S3, I3; repeat split; auto; apply bytes_app; auto. }
  destruct Sh as (S1 & S2 & S3 & S4).
  assert (O : pe_ok p).
  { apply ok_prim; [left; reflexivity | split; assumption | | reflexivity].
    unfold data_ok; cbn; split; [lia|]; split; [lia | exact S4]. }
  split; [exact O|].
  pose proof (prim2oid_subs p gs O eq_refl eq_refl) as R; rewrite S3, S2 in R.
  destruct R as [R|R]; auto.
  { intros ->; inversion F; discriminate. }
  { lia. }
  left; eexists; split; [exact R|].
  assert (Eo : elems (mkOID (1 + zlen gs) (sub_elems js)) = e0 :: e1 :: es).
  { unfold elems; cbn [oid_nelem oid_elements]; unfold js.
    assert (Zg : zlen gs = zlen js) by (rewrite <- S2; unfold zlen; rewrite length_map; reflexivity).
    rewrite sub_elems_first by (auto; lia); apply ztake_all; rewrite !zlen_cons; lia. }
  split; [exact Eo|]; cbn [oid_cmp]; rewrite elem_cmp_lex; [|cbn [oid_nelem oid_elements] | exact Ok].
  - fold (elems (mkOID (1 + zlen gs) (sub_elems js))); fold (elems o); rewrite Eo, Ee; f_equal; apply lex_eq; reflexivity.
  - assert (Zg : zlen gs = zlen js) by (rewrite <- S2; unfold zlen; rewrite length_map; reflexivity).
    unfold js in *; rewrite sub_elems_first by (auto; lia); rewrite !zlen_cons in *; lia.
Qed.

(** On any well-formed primitive whose last octet ends a sub-identifier,
    [prim2oid] reads only its octets: they split into sub-identifiers, and
    the result has their values, unless one is padded, which is refused with
    PE_ERR_OID, or memory runs out. *)
Theorem prim2oid_decodes : forall (A : Allocator) p, pe_ok p -> pe_form p = PE_FORM_PRIM -> pe_data p <> [] ->
  last (pe_data p) 0 < 128 -> 4 * zlen (pe_data p) + 8 <= INT_MAX ->
  exists gs, pe_data p = concat gs /\ Forall sub_shape gs /\
    if existsb padded_sub gs then prim2oid p = Val (None, set_errno p PE_ERR_OID)
    else prim2oid p = Val (Some (mkOID (1 + zlen gs) (sub_elems (map sub_value gs))), p) \/
         (out_of_memory /\ prim2oid p = Val (None, set_errno p PE_ERR_NMEM)).
Proof.
  intros A p O F N La L; destruct (pe_ok_leaf p O) as (_ & _ & (_ & _ & B) & _); [rewrite F; discriminate|].
  destruct (split_subs (pe_data p) B N La) as (gs & E & Sh); exists gs; split; [exact E|]; split; [exact Sh|].
  apply prim2oid_subs; auto; [|rewrite <- E; exact L]; intros ->; rewrite E in N; easy.
Qed.

(** C29. Text round trip. [sprintoid] prints an identifier of 2 to 99 elements
    whose first two are those of an identifier inside its static buffer. Where
    each element fits an [int], [str2oid] reads the text back to the same
    elements. Elements are [unsigned int]s: where one is above INT_MAX,
    [str2oid] gives its digits to [atoi], which is then undefined. *)
Theorem str2oid_sprintoid : forall o, oid_ok o -> 2 <= oid_nelem o < NELEM ->
  Forall (fun e => 0 <= e < 4294967296) (elems o) ->
  match elems o with e0 :: e1 :: _ => e0 <= 2 /\ (e0 < 2 -> e1 <= 39) | _ => False end ->
  exists s, sprintoid (Some o) = Val s /\
    (Forall (fun e => e <= INT_MAX) (elems o) -> exists o', str2oid (Some s) = Val (Some o') /\ elems o' = elems o) /\
    (Exists (fun e => INT_MAX < e) (elems o) -> str2oid (Some s) = UB).
Proof.
  intros o Ok N U First; unfold oid_ok in Ok; unfold NELEM in N.
  assert (Q : zlen (elems o) = oid_nelem o) by (apply zlen_ztake; exact Ok).
  exists (dotted (elems o)); destruct (elems o) as [|e0 [|e1 es]] eqn:Ee; try easy; split.
  - unfold sprintoid; rewrite (proj2 (Z.ltb_ge (oid_nelem o) 1)), rdn_in, zdrop_0 by lia; fold (elems o); rewrite Ee; cbn [cbind].
    inversion_clear U as [|? ? E0 U1]; destruct (print_u_spec e0 E0) as (_ & _ & P & _).
    rewrite zlen_cons in Q; remember (e1 :: es) as tl; rewrite dotted_concat; cbn [sprintoid_loop app].
    rewrite (proj2 (Z.leb_le _ BUFSIZ)) by (unfold BUFSIZ; lia).
    apply sprintoid_loop_spec; [exact U1 | unfold BUFSIZ; lia].
  - assert (S : str2elem (Some (dotted (e0 :: e1 :: es))) = if ints (e0 :: e1 :: es) then Val (oid_nelem o, (e0 :: e1 :: es) ++ [0]) else UB)
      by (apply str2elem_dotted; [exact U | exact Q | exact N]).
    unfold str2oid; rewrite S; unfold ints; split.
    + intros F; rewrite (proj2 (forallb_forall _ _)) by (rewrite Forall_forall in F; intros e I; apply Z.leb_le, F, I).
      exists (mkOID (oid_nelem o) ((e0 :: e1 :: es) ++ [0])); split; [|unfold elems; cbn [oid_nelem oid_elements]; apply ztake_app_exact; symmetry; exact Q].
      cbn [cbind]; rewrite (proj2 (Z.ltb_ge (oid_nelem o) 1)) by lia; cbn [app].
      rewrite rd_cons0; cbn [cbind]; rewrite rd_consS, rd_cons0, !Z.gtb_ltb by lia; cbn [cbind].
      rewrite (proj2 (Z.ltb_ge 2 e0)), (proj2 (Z.ltb_lt 1 _)) by lia; cbn [andb].
      destruct (Z.ltb_spec e0 2); cbn [cbind]; [rewrite ?Z.gtb_ltb, (proj2 (Z.ltb_ge 39 e1)) by lia|]; reflexivity.
    + intros X; destruct (forallb _ _) eqn:F; [|reflexivity].
      apply Exists_exists in X as (e & I & B); rewrite forallb_forall in F; specialize (F e I); apply Z.leb_le in F; lia.
Qed.

(** When the last octet announces another, [prim2oid] reads beyond the
    contents. *)
Theorem prim2oid_overread : forall (A : Allocator) p c, pe_form p = PE_FORM_PRIM -> pe_prim p = Some [c] ->
  pe_len p = 1 -> 128 < c < 256 -> prim2oid p = UB.
Proof.
  intros A p c F E L C; unfold prim2oid; rewrite E, F, L.
  assert (K : count_subs 2 [c] 1 0 1 = UB).
  { cbn [count_subs]; change (0 <? 1) with true; cbn match; rewrite rd_cons0; cbn [cbind].
    rewrite (proj2 (Z.eqb_neq c 128)) by lia; change (S (Z.to_nat (1 - 0 + 1))) with 3%nat; cbn [skip_groups].
    rewrite rd_cons0; cbn [cbind]; rewrite land_80_oid, (proj2 (Z.ltb_ge c 128)) by (unfold is_byte; lia).
    reflexivity. }
  change (S (Z.to_nat 1)) with 2%nat; rewrite K; reflexivity.
Qed.

(** Sub-identifiers beyond 32 bits are reduced without an error: the
    encodings of 1.2.4294967297 and of 1.2.1 give the same identifier. *)
Theorem prim2oid_wraps : forall class id,
  let enc d := mkPE 0 0 class PE_FORM_PRIM id (zlen d) 0 (Some d) [] 0 0 None 0 0 in
  cmap fst (@prim2oid plenty (enc [42; 144; 128; 128; 128; 1])) = Val (Some (mkOID 3 [1; 2; 1])) /\
  cmap fst (@prim2oid plenty (enc [42; 1])) = Val (Some (mkOID 3 [1; 2; 1])).
Proof. intros; split; vm_compute; reflexivity. Qed.

(** [str2elem] takes a text that ends in a dot. *)
Theorem str2elem_trailing_dot : forall e, 0 <= e <= INT_MAX ->
  str2elem (Some (print_u e ++ [46])) = Val (1, [e; 0]).
Proof.
  intros e E; destruct (print_u_spec e) as (D & N & L & A); [unfold INT_MAX in E; lia|].
  unfold str2elem; destruct (print_u e) as [|c s] eqn:P; [easy|]; cbn [app]; cbn [str2elem_loop length].
  change (zlen (@nil Z) <=? NELEM) with true; cbn match.
  pose proof (span_digits_app (c :: s) [46] D eq_refl) as Sp; cbn [app] in Sp; rewrite Sp; cbn [orb].
  change (negb (46 =? 46)) with false; cbn match; rewrite A by lia; cbn [cbind app].
  reflexivity.
Qed.

(** * Witnesses *)

Definition ex_oid : OIDentifier := mkOID 4 [1; 2; 840; 113549].

Lemma oid_cmp_total_order_witness : exists r, oid_cmp (Some ex_oid) (Some (mkOID 2 [2; 5])) = Val r /\
  oid_cmp (Some (mkOID 2 [2; 5])) (Some ex_oid) = Val (- r).
Proof.
  destruct (oid_cmp_total_order ex_oid (mkOID 2 [2; 5])) as (r & E & _ & _ & S & _);
    [unfold oid_ok; cbn; lia | unfold oid_ok; cbn; lia|].
  exists r; split; [exact E | exact S].
Defined.

Lemma prim2oid_obj2prim_witness : exists r, @obj2prim plenty (Some ex_oid) 0 6 = Val r /\
  match r with Some p => pe_ok p | None => @out_of_memory plenty end.
Proof.
  destruct (prim2oid_obj2prim plenty ex_oid 0 6) as (r & E & R); [|vm_compute; discriminate | lia | lia|].
  - split; [unfold oid_ok; cbn; lia|]; split; [cbn; lia|]; split; [|cbv [elems ex_oid]; vm_compute; repeat split; intros; discriminate].
    change (elems ex_oid) with [1; 2; 840; 113549]; repeat apply Forall_cons; try apply Forall_nil; unfold INT_MAX; lia.
  - exists r; split; [exact E|]; destruct r; [exact (proj1 R) | exact R].
Defined.

Definition ex_obj : PElement := mkPE 0 0 0 PE_FORM_PRIM 6 6 0 (Some [42; 134; 72; 134; 247; 13]) [] 0 0 None 0 0.

Lemma prim2oid_decodes_witness : exists gs, pe_data ex_obj = concat gs /\ Forall sub_shape gs.
Proof.
  destruct (prim2oid_decodes plenty ex_obj) as (gs & E & S & _);
    [apply pe_okb_ok; reflexivity | reflexivity | discriminate | cbn; lia | vm_compute; discriminate|].
  exists gs; split; [exact E | exact S].
Defined.

(** 1.2.2147483648 *)
Definition ex_large : OIDentifier := mkOID 3 [1; 2; 2147483648].

Lemma str2oid_sprintoid_witness : (exists s o', sprintoid (Some ex_oid) = Val s /\ str2oid (Some s) = Val (Some o') /\
    elems o' = [1; 2; 840; 113549]) /\
  exists s, sprintoid (Some ex_large) = Val s /\ str2oid (Some s) = UB.
Proof.
  split.
  - destruct (str2oid_sprintoid ex_oid) as (s & P & R & _);
      [unfold oid_ok; cbn; lia | vm_compute; split; [discriminate|reflexivity] | | vm_compute; repeat split; intros; discriminate|].
    + change (elems ex_oid) with [1; 2; 840; 113549]; repeat apply Forall_cons; try apply Forall_nil; lia.
    + destruct R as (o' & E & El); [change (elems ex_oid) with [1; 2; 840; 113549]; repeat apply Forall_cons; try apply Forall_nil; unfold INT_MAX; lia|].
      exists s, o'; split; [exact P | split; [exact E | exact El]].
  - destruct (str2oid_sprintoid ex_large) as (s & P & _ & R);
      [unfold oid_ok; cbn; lia | vm_compute; split; [discriminate|reflexivity] | | vm_compute; repeat split; intros; discriminate|].
    + change (elems ex_large) with [1; 2; 2147483648]; repeat apply Forall_cons; try apply Forall_nil; lia.
    + exists s; split; [exact P|]; apply R; change (elems ex_large) with [1; 2; 2147483648].
      apply Exists_cons_tl, Exists_cons_tl, Exists_cons_hd; reflexivity.
Defined.

(** [atoi] of an element above INT_MAX. *)
Lemma str2elem_overflow : str2elem (Some (dotted [1; 2; 2147483648])) = UB.
Proof. vm_compute; reflexivity. Qed.
