(* ===== verification/Time.v ===== *)
(** * psap: times (prim2time.c, time2str.c, time2prim.c, ut2tm.c, tm2ut.c,
    gtime.c)

    UTCTime and GeneralizedTime, between their octets, struct UTCtime, struct
    tm and the seconds since 1970. Functions that return the address of a
    static structure return its value here. Sums of [int]s that no value of
    the fields can take out of range are not checked. The first argument of
    [str2utct] and [str2gent] is an array of which they read a string: the
    contents of a primitive, which no null terminates, are none, so that
    [prim2time] has a result for constructed elements only. *)

From S2P Require Import Prelude Text Conv Convert PElement Prims.
Open Scope Z_scope.
Open Scope c_scope.

(** ** struct UTCtime *)

Record UTCtime : Type := mkUTC {
  ut_year : Z; ut_mon : Z; ut_mday : Z; ut_hour : Z; ut_min : Z; ut_sec : Z;
  ut_usec : Z; ut_zone : Z; ut_flags : Z
}.

Definition UT_ZONE : Z := 1.
Definition UT_SEC : Z := 2.
Definition UT_USEC : Z := 4.

Definition has (flags f : Z) : bool := negb (Z.land flags f =? 0).

(** ** prim2time.c *)

Definition YEAR (y : Z) : Z := if y >=? 50 then y + 1900 else y + 2000.

(** The digits of the fraction: [j] of them, [i] the first six as a number. *)
Fixpoint usec_digits (dp : list Z) (j i : Z) : cres (Z * Z) :=
  match dp with
  | [] => UB
  | c :: dp' =>
      if is_digit c then usec_digits dp' (j + 1) (if j <? 6 then i * 10 + (c - 48) else i)
      else Val (j, i)
  end.

(** [while (j++ < 6) i *= 10L]. *)
Definition usec_scale (j i : Z) : Z := if j <? 6 then i * 10 ^ (6 - j) else i.

(** The microseconds, [*cp] and [*len]. *)
Definition get_usec (cp : list Z) (pos len : Z) : cres (Z * Z * Z) :=
  ' (j, i) <- usec_digits (zdrop pos cp) 0 0;;
  Val (usec_scale j i, pos + j, cast SIZE (len - j)).

(** From the label [get_zone] to the end, which is also the end of
    [str2utct]. *)
Definition get_zone (cp : list Z) (pos len : Z) (u : UTCtime) : cres (option UTCtime) :=
  if len >? 0 then
    c <- rd cp pos;;
    let u := mkUTC (ut_year u) (ut_mon u) (ut_mday u) (ut_hour u) (ut_min u) (ut_sec u) (ut_usec u)
               (ut_zone u) (Z.lor (ut_flags u) UT_ZONE) in
    if c =? 90 then Val (if negb (cast SIZE (len - 1) =? 0) then None else Some u)
    else if (c =? 43) || (c =? 45) then
      r <- sscanf [2; 2]%nat (zdrop (pos + 1) cp);;
      match r with
      | Some [hours; mins] =>
          let zone := hours * 60 + mins in
          let u := mkUTC (ut_year u) (ut_mon u) (ut_mday u) (ut_hour u) (ut_min u) (ut_sec u) (ut_usec u)
                     (if c =? 43 then zone else - zone) (ut_flags u) in
          Val (if negb (cast SIZE (len - 5) =? 0) then None else Some u)
      | _ => Val None
      end
    else Val None
  else Val (if negb (len =? 0) then None else Some u).

Definition str2utct (cp : list Z) (len : Z) : cres (option UTCtime) :=
  r <- sscanf [2; 2; 2; 2; 2]%nat cp;;
  match r with
  | Some [year; mon; mday; hour; mins] =>
      let pos := 10 in
      let len := cast SIZE (len - 10) in
      let year := YEAR year in
      digit <- (if len >? 0 then cmap is_digit (rd cp pos) else Val false);;
      if digit : bool then
        s <- sscanf [2]%nat (zdrop pos cp);;
        match s with
        | Some [sec] =>
            get_zone cp (pos + 2) (cast SIZE (len - 2)) (mkUTC year mon mday hour mins sec 0 0 UT_SEC)
        | _ => Val None
        end
      else get_zone cp pos len (mkUTC year mon mday hour mins 0 0 0 0)
  | _ => Val None
  end.

(** What one of the three fields after the hour makes of the text at [cp]. *)
Inductive field : Type :=
| Fraction (usec pos len : Z)    (* after a decimal mark *)
| Digits (n pos len : Z)         (* two digits *)
| Absent                         (* anything else, or the end *)
| Malformed.

Definition get_field (two : bool) (cp : list Z) (pos len : Z) : cres field :=
  if len >? 0 then
    c <- rd cp pos;;
    if (c =? 46) || (c =? 44) then
      ' (usec, pos, len) <- get_usec cp (pos + 1) (cast SIZE (len - 1));;
      Val (Fraction usec pos len)
    else if two && is_digit c then
      r <- sscanf [2]%nat (zdrop pos cp);;
      Val (match r with Some [n] => Digits n (pos + 2) (cast SIZE (len - 2)) | _ => Malformed end)
    else Val Absent
  else Val Absent.

(** The fraction of a second, after the seconds. *)
Definition gent_fraction (cp : list Z) (pos len : Z) (u : UTCtime) : cres (option UTCtime) :=
  f <- get_field false cp pos len;;
  match f with
  | Fraction usec pos len =>
      match long2int usec with
      | Some us =>
          if us >=? 1000000 then Val None
          else
            get_zone cp pos len (mkUTC (ut_year u) (ut_mon u) (ut_mday u) (ut_hour u) (ut_min u) (ut_sec u) us
                                   (ut_zone u) (Z.lor (ut_flags u) UT_USEC))
      | None => Val None
      end
  | _ => get_zone cp pos len u
  end.

(** The seconds, after the minutes. *)
Definition gent_seconds (cp : list Z) (pos len : Z) (u : UTCtime) : cres (option UTCtime) :=
  f <- get_field true cp pos len;;
  match f with
  | Fraction usec pos len =>
      match long2int (Z.quot usec 1000000), long2int (Z.rem usec 1000000) with
      | Some sec, Some us =>
          if sec >=? 60 then Val None
          else
            get_zone cp pos len (mkUTC (ut_year u) (ut_mon u) (ut_mday u) (ut_hour u) (ut_min u) sec us
                                   (ut_zone u) (Z.lor (ut_flags u) (Z.lor UT_SEC UT_USEC)))
      | _, _ => Val None
      end
  | Digits sec pos len =>
      gent_fraction cp pos len (mkUTC (ut_year u) (ut_mon u) (ut_mday u) (ut_hour u) (ut_min u) sec (ut_usec u)
                                  (ut_zone u) (Z.lor (ut_flags u) UT_SEC))
  | Absent => gent_fraction cp pos len u
  | Malformed => Val None
  end.

Definition str2gent (cp : list Z) (len : Z) : cres (option UTCtime) :=
  r <- sscanf [4; 2; 2; 2]%nat cp;;
  match r with
  | Some [year; mon; mday; hour] =>
      let pos := 10 in
      let len := cast SIZE (len - 10) in
      f <- get_field true cp pos len;;
      match f with
      | Fraction usec pos len =>
          match long2int (Z.quot usec 1000000), long2int (Z.rem usec 1000000) with
          | Some total_sec, Some us =>
              get_zone cp pos len (mkUTC year mon mday hour (Z.quot total_sec 60) (Z.rem total_sec 60) us 0
                                     (Z.lor UT_SEC UT_USEC))
          | _, _ => Val None
          end
      | Digits mins pos len => gent_seconds cp pos len (mkUTC year mon mday hour mins 0 0 0 0)
      | Absent => gent_seconds cp pos len (mkUTC year mon mday hour 0 0 0 0 0)
      | Malformed => Val None
      end
  | _ => Val None
  end.

Section Times.
Context `{Allocator}.

(** [pe -> pe_len > SIZE_MAX] compares in [size_t]: it is never true. *)
Definition prim2time (pe : PElement) (generalized : bool) : cres (option UTCtime * PElement) :=
  if (pe_len pe <? 0) || (cast SIZE (pe_len pe) >? SIZE_MAX) then Val (pe_seterr pe PE_ERR_PRIM None)
  else
    let aux := if generalized then str2gent else str2utct in
    let finish (u : option UTCtime) (pe : PElement) :=
      match u with
      | Some u => (Some u, pe)
      | None => pe_seterr pe (if generalized then PE_ERR_GENT else PE_ERR_UTCT) None
      end in
    if pe_form pe =? PE_FORM_PRIM then
      match pe_prim pe with
      | None => Val (pe_seterr pe PE_ERR_PRIM None)
      | Some cp => cmap (fun u => finish u pe) (aux cp (cast SIZE (pe_len pe)))
      end
    else if pe_form pe =? PE_FORM_CONS then
      ' (cp, len, pe) <- prim2str pe;;
      match cp with
      | None => Val (None, pe)
      | Some cp =>
          if (len <? 0) || (cast SIZE len >? SIZE_MAX) then Val (pe_seterr pe PE_ERR_PRIM None)
          else
            u <- (if negb (len =? 0) then aux cp (cast SIZE len) else Val None);;
            Val (finish u pe)
      end
    else UB.

(** ** time2str.c, time2prim.c *)

Definition time2str (u : option UTCtime) (generalized : bool) : cres (option (list Z)) :=
  match u with
  | None => Val None
  | Some u =>
      let year := if generalized then print_0d 4 (ut_year u) else print_0d 2 (Z.rem (ut_year u) 100) in
      let date := print_0d 2 (ut_mon u) ++ print_0d 2 (ut_mday u) ++ print_0d 2 (ut_hour u) ++ print_0d 2 (ut_min u) in
      let sec := if has (ut_flags u) UT_SEC || (generalized && has (ut_flags u) UT_USEC)
                 then print_0d 2 (ut_sec u) else [] in
      let usec := if generalized && has (ut_flags u) UT_USEC then 46 :: print_0d 6 (ut_usec u) else [] in
      zone <-
        (if has (ut_flags u) UT_ZONE then
           let zone := ut_zone u in
           if zone =? 0 then Val [90]
           else if zone =? INT_MIN then UB
           else
             let mins := Z.rem (Z.abs zone) 60 in
             let hours := Z.quot (Z.abs zone) 60 in
             Val ((if zone <? 0 then 45 else 43) :: print_0d 2 hours ++ print_0d 2 mins)
         else Val []);;
      Val (Some (year ++ date ++ sec ++ usec ++ zone))
  end.

Definition time2prim (u : option UTCtime) (generalized : bool) (class id : Z) : cres (option PElement) :=
  bp <- time2str u generalized;;
  match bp with
  | None => Val None
  | Some bp =>
      match pe_alloc class PE_FORM_PRIM id with
      | None => Val None
      | Some pe =>
          len <- strlen2int (Some (bp ++ [0]));;
          match len with
          | None => Val None
          | Some len =>
              if malloc_int len then
                d <- bcopy_int (Some (bp ++ [0])) len;;
                Val (match d with Some d => Some (set_len (set_prim pe (Some d)) len) | None => Some (set_len pe len) end)
              else Val None
          end
      end
  end.
End Times.

(** ** ut2tm.c, tm2ut.c *)

(** struct tm *)
Record tm : Type := mkTM {
  tm_sec : Z; tm_min : Z; tm_hour : Z; tm_mday : Z; tm_mon : Z; tm_year : Z;
  tm_wday : Z; tm_yday : Z; tm_isdst : Z
}.

Definition dmsize : list Z := [31; 28; 31; 30; 31; 30; 31; 31; 30; 31; 30; 31].

Definition isleap (y : Z) : bool :=
  if negb (Z.rem y 4 =? 0) then false
  else if negb (Z.rem y 100 =? 0) then true
  else if negb (Z.rem y 400 =? 0) then false else true.

Definition dysize (y : Z) : Z :=
  if negb (Z.rem y 4 =? 0) then 365
  else if negb (Z.rem y 100 =? 0) then 366
  else if negb (Z.rem y 400 =? 0) then 365 else 366.

(** [while (--mon > 0) d += dmsize[mon - 1];] with [fuel] at least [mon]. *)
Fixpoint add_months (fuel : nat) (mon d : Z) : cres Z :=
  match fuel with
  | O => Val d
  | S fuel' =>
      let mon := mon - 1 in
      if mon >? 0 then n <- rd dmsize (mon - 1);; add_months fuel' mon (d + n) else Val d
  end.

Definition makewkday (ut : UTCtime) : cres Z :=
  let mon := ut_mon ut in
  let year := ut_year ut in
  let d := 4 + year + Z.quot (year + 3) 4 in
  let d := if year >? 1800 then d - Z.quot (year - 1701) 100 + Z.quot (year - 1601) 400 else d in
  let d := if year >? 1752 then d + 3 else d in
  let d := if (dysize year =? 366) && (mon >? 3) then d + 1 else d in
  d <- add_months (Z.to_nat mon) mon d;;
  Val (Z.rem (d + (ut_mday ut - 1)) 7).

Definition ut2tm (ut : UTCtime) : cres tm :=
  wday <- makewkday ut;;
  let mon := ut_mon ut - 1 in
  let year := ut_year ut - 1900 in
  let mday := ut_mday ut in
  let hour := ut_hour ut - Z.quot (ut_zone ut) 60 in
  let min := ut_min ut - Z.rem (ut_zone ut) 60 in
  let '(hour, min) :=
    if min <? 0 then (hour - 1, min + 60)
    else if min >? 59 then (hour + 1, min - 60)
    else (hour, min) in
  if hour <? 0 then
    let mday := mday - 1 in
    let hour := hour + 24 in
    if mday <? 1 then
      let mon := mon - 1 in
      mday <- rd dmsize mon;;
      let mday := if (mon =? 1) && isleap (year + 1900) then mday + 1 else mday in
      let '(year, mon) := if mon <? 0 then (year - 1, 11) else (year, mon) in
      Val (mkTM (ut_sec ut) min hour mday mon year wday 0 0)
    else Val (mkTM (ut_sec ut) min hour mday mon year wday 0 0)
  else if hour >? 23 then
    let mday := mday + 1 in
    let hour := hour - 24 in
    mdays <- rd dmsize mon;;
    let mdays := if (mon =? 1) && isleap (1900 + year) then mdays + 1 else mdays in
    if mday >? mdays then
      let mon := mon + 1 in
      let mday := 1 in
      let '(year, mon) := if mon >? 11 then (year + 1, 0) else (year, mon) in
      Val (mkTM (ut_sec ut) min hour mday mon year wday 0 0)
    else Val (mkTM (ut_sec ut) min hour mday mon year wday 0 0)
  else Val (mkTM (ut_sec ut) min hour mday mon year wday 0 0).

Definition tm2ut (t : tm) : UTCtime :=
  mkUTC (tm_year t + 1900) (tm_mon t + 1) (tm_mday t) (tm_hour t) (tm_min t) (tm_sec t) 0 0 (Z.lor UT_ZONE UT_SEC).

(** ** gtime.c *)

(** [for (i = 1970; i < year; i++) result += dysize (i);] with [fuel] at
    least [year - i]. *)
Fixpoint add_years (fuel : nat) (i year result : Z) : Z :=
  match fuel with
  | O => result
  | S fuel' => if i <? year then add_years fuel' (i + 1) year (result + dysize i) else result
  end.

Definition gtime (t : tm) : cres Z :=
  let sec := tm_sec t in
  let mins := tm_min t in
  let hour := tm_hour t in
  let mday := tm_mday t in
  let mon := tm_mon t + 1 in
  if (sec <? 0) || (sec >? 59) || (mins <? 0) || (mins >? 59) || (hour <? 0) || (hour >? 24)
     || (mday <? 1) || (mday >? 31) || (mon <? 1) || (mon >? 12)
  then Val NOTOK
  else
    let '(hour, mday) := if hour =? 24 then (0, mday + 1) else (hour, mday) in
    let year := tm_year t + 1900 in
    let result := add_years (Z.to_nat (year - 1970)) 1970 year 0 in
    let result := if (dysize year =? 366) && (mon >=? 3) then result + 1 else result in
    result <- add_months (Z.to_nat mon) mon result;;
    let result := result + (mday - 1) in
    let result := 24 * result + hour in
    let result := 60 * result + mins in
    Val (60 * result + sec).

(** * A cursor in a text *)

(** [s] is what lies at [pos] and beyond. *)
Definition at_pos (cp : list Z) (pos : Z) (s : list Z) : Prop := 0 <= pos /\ zdrop pos cp = s.

Lemma at_start s : at_pos s 0 s.
Proof. split; [lia | apply zdrop_0; lia]. Qed.

Lemma at_rd cp pos c s : at_pos cp pos (c :: s) -> rd cp pos = Val c.
Proof.
  intros (P & E); unfold rd; pose proof (f_equal (@length Z) E) as L; unfold zdrop in *.
  rewrite length_skipn in L; cbn [length] in L.
  replace ((0 <=? pos) && (pos <? zlen cp))%bool with true by (symmetry; unfold zlen; btrue; lia).
  f_equal; rewrite <- (Nat.add_0_r (Z.to_nat pos)), <- nth_skipn, E; reflexivity.
Qed.

Lemma at_app cp pos a s : at_pos cp pos (a ++ s) -> at_pos cp (pos + zlen a) s.
Proof.
  intros (P & E); pose proof (zlen_nonneg a); split; [lia|].
  rewrite Z.add_comm, <- zdrop_zdrop, E by lia; apply zdrop_app_exact; reflexivity.
Qed.

Lemma at_next cp pos c s : at_pos cp pos (c :: s) -> at_pos cp (pos + 1) s.
Proof. apply (at_app cp pos [c] s). Qed.

Definition small (n : Z) : Prop := 0 <= n < 100.

Lemma zlen_print w n : (0 < w <= 10)%nat -> 0 <= n < 10 ^ Z.of_nat w -> zlen (print_0d (Z.of_nat w) n) = Z.of_nat w.
Proof. intros W N; unfold zlen; rewrite (proj1 (proj2 (print_0d_spec w n W N))); reflexivity. Qed.

Lemma zlen_print2 n : small n -> zlen (print_0d 2 n) = 2.
Proof. intros; apply (zlen_print 2); unfold small in *; lia. Qed.

Lemma scan_print2 n r : small n -> scan_d 2 (print_0d 2 n ++ r) = Val (Some (n, r)).
Proof. intros; apply (scan_print 2); unfold small in *; lia. Qed.

Lemma at_print2 cp pos n s : at_pos cp pos (print_0d 2 n ++ s) -> small n -> at_pos cp (pos + 2) s.
Proof. intros P N; apply at_app in P; rewrite zlen_print2 in P by exact N; exact P. Qed.

Lemma sscanf_print2 n ws r : small n -> terminated r = true ->
  sscanf (2%nat :: ws) (print_0d 2 n ++ r) = cmap (option_map (cons n)) (sscanf ws r).
Proof. intros; apply (sscanf_print 2); unfold small in *; cbn; lia || assumption. Qed.
Create HintDb ended.
#[local] Hint Resolve terminated_app : ended.
#[local] Hint Extern 1 (small _) => assumption : ended.
Ltac scans := rewrite ?sscanf_print2, ?sscanf_nil by (auto 12 with ended).

Lemma print2_digit n : small n -> exists c s, print_0d 2 n = c :: s /\ is_digit c = true.
Proof.
  intros N; destruct (print_0d_spec 2 n) as (D & L & _); [lia | unfold small in *; cbn; lia|].
  change (Z.of_nat 2) with 2 in *; destruct (print_0d 2 n) as [|c s]; [discriminate|].
  inversion_clear D; eauto.
Qed.

Lemma size_id n : 0 <= n <= INT_MAX -> cast SIZE n = n.
Proof. intros N; apply cast_id; [cbn; lia | bounds; lia]. Qed.

(** ** The zone *)

Definition zone_text (zoned : bool) (zone : Z) : list Z :=
  if zoned then
    if zone =? 0 then [90]
    else (if zone <? 0 then 45 else 43) :: print_0d 2 (Z.quot (Z.abs zone) 60) ++ print_0d 2 (Z.rem (Z.abs zone) 60)
  else [].

Lemma hours_mins z : Z.abs z < 6000 ->
  small (Z.quot (Z.abs z) 60) /\ small (Z.rem (Z.abs z) 60) /\ Z.quot (Z.abs z) 60 * 60 + Z.rem (Z.abs z) 60 = Z.abs z.
Proof.
  intros Z; rewrite Z.quot_div_nonneg, Z.rem_mod_nonneg by lia; unfold small.
  pose proof (Z.mod_pos_bound (Z.abs z) 60); pose proof (Z.div_mod (Z.abs z) 60); lia.
Qed.

Lemma zlen_zone zoned zone : Z.abs zone < 6000 -> zlen (zone_text zoned zone) = if zoned then if zone =? 0 then 1 else 5 else 0.
Proof.
  intros Z; destruct (hours_mins zone Z) as (H & M & _); unfold zone_text.
  destruct zoned; [|reflexivity]; destruct (zone =? 0); [reflexivity|].
  rewrite zlen_cons, zlen_app, !zlen_print2 by assumption; reflexivity.
Qed.

Definition with_zone (u : UTCtime) (zoned : bool) (zone : Z) : UTCtime :=
  mkUTC (ut_year u) (ut_mon u) (ut_mday u) (ut_hour u) (ut_min u) (ut_sec u) (ut_usec u)
    (if zoned then zone else 0) (Z.lor (ut_flags u) (if zoned then UT_ZONE else 0)).

Lemma get_zone_spec cp pos zoned zone u r : at_pos cp pos (zone_text zoned zone ++ r) -> terminated r = true ->
  Z.abs zone < 6000 -> ut_zone u = 0 -> get_zone cp pos (zlen (zone_text zoned zone)) u = Val (Some (with_zone u zoned zone)).
Proof.
  intros P T Z U; rewrite zlen_zone by exact Z; destruct u as [y mo d h mi s us z fl]; cbn in U; subst z.
  unfold get_zone, with_zone; cbn [ut_year ut_mon ut_mday ut_hour ut_min ut_sec ut_usec ut_zone ut_flags].
  unfold zone_text in P; destruct zoned; [|cbn; rewrite Z.lor_0_r; reflexivity].
  destruct (Z.eqb_spec zone 0) as [->|Nz]; cbn [app] in P.
  - change (1 >? 0) with true; cbn match; rewrite (at_rd _ _ _ _ P); reflexivity.
  - change (5 >? 0) with true; cbn match; rewrite (at_rd _ _ _ _ P); cbn [cbind].
    destruct (hours_mins zone Z) as (H & M & E).
    apply at_next in P; destruct P as (_ & ->); rewrite <- app_assoc.
    assert (Sc : sscanf [2; 2]%nat (print_0d 2 (Z.quot (Z.abs zone) 60) ++ print_0d 2 (Z.rem (Z.abs zone) 60) ++ r) =
                 Val (Some [Z.quot (Z.abs zone) 60; Z.rem (Z.abs zone) 60])) by (scans; reflexivity).
    destruct (Z.ltb_spec zone 0).
    + change (45 =? 90) with false; change ((45 =? 43) || (45 =? 45)) with true; cbn match; rewrite Sc; cbn [cbind].
      change (45 =? 43) with false; cbn match; change (negb (cast SIZE (5 - 5) =? 0)) with false; cbn match.
      rewrite E; repeat f_equal; lia.
    + change (43 =? 90) with false; change ((43 =? 43) || (43 =? 45)) with true; cbn match; rewrite Sc; cbn [cbind].
      change (43 =? 43) with true; cbn match; change (negb (cast SIZE (5 - 5) =? 0)) with false; cbn match.
      rewrite E; repeat f_equal; lia.
Qed.

(** ** The fields *)

(** No digit follows: what stops [get_usec]. *)
Definition stops (s : list Z) : Prop := match s with [] => False | c :: _ => is_digit c = false end.

Lemma usec_digits_app ds : Forall (fun c => is_digit c = true) ds -> forall s j i, stops s -> j + zlen ds <= 6 ->
  usec_digits (ds ++ s) j i = Val (j + zlen ds, fold_left (fun a c => a * 10 + (c - 48)) ds i).
Proof.
  induction 1 as [|c ds C _ IH]; intros s j i S J; cbn [app usec_digits fold_left].
  - destruct s as [|c s]; [easy|]; cbn in S; cbn [usec_digits]; rewrite S; change (zlen (@nil Z)) with 0; rewrite Z.add_0_r; reflexivity.
  - rewrite zlen_cons in *; pose proof (zlen_nonneg ds); rewrite C, IH by (auto; lia).
    destruct (Z.ltb_spec j 6); [|lia]; do 2 f_equal; lia.
Qed.

Lemma get_field_digits cp pos len n s : at_pos cp pos (print_0d 2 n ++ s) -> terminated s = true -> small n -> 2 <= len <= INT_MAX ->
  get_field true cp pos len = Val (Digits n (pos + 2) (len - 2)).
Proof.
  intros P T N L; unfold get_field; destruct (Z.gtb_spec len 0); [|lia].
  destruct (print2_digit n N) as (c & t & E & D); pose proof P as P'; rewrite E in P'; cbn [app] in P'.
  rewrite (at_rd _ _ _ _ P'); cbn [cbind]; destruct P as (_ & ->); scans.
  unfold is_digit in D; apply andb_true_iff in D as [D1 D2]; apply Z.leb_le in D1, D2.
  rewrite !(proj2 (Z.eqb_neq c _)) by lia; unfold is_digit; rewrite (proj2 (Z.leb_le 48 c)), (proj2 (Z.leb_le c 57)) by lia.
  cbn [orb andb cmap cbind option_map]; rewrite size_id by (unfold INT_MAX in *; lia); reflexivity.
Qed.

Lemma get_field_fraction two cp pos len n s : at_pos cp pos (46 :: print_0d 6 n ++ s) -> stops s ->
  0 <= n < 1000000 -> 7 <= len <= INT_MAX ->
  get_field two cp pos len = Val (Fraction n (pos + 7) (len - 7)).
Proof.
  intros P S N L; unfold get_field; destruct (Z.gtb_spec len 0); [|lia].
  rewrite (at_rd _ _ _ _ P); cbn [cbind]; change ((46 =? 46) || (46 =? 44))%bool with true; cbn match.
  apply at_next in P; destruct P as (_ & E); unfold get_usec; rewrite E.
  destruct (print_0d_spec 6 n) as (D & Ln & V); [lia | cbn; lia|]; change (Z.of_nat 6) with 6 in *.
  assert (L6 : zlen (print_0d 6 n) = 6) by (unfold zlen; rewrite Ln; reflexivity).
  rewrite usec_digits_app by (auto; lia); fold (digits_value (print_0d 6 n)); rewrite V, L6; cbn [cbind].
  rewrite !size_id by (unfold INT_MAX in *; try rewrite size_id; unfold INT_MAX; lia).
  unfold usec_scale; cbn [Z.add Z.ltb Z.compare Pos.compare Pos.compare_cont]; do 2 f_equal; lia.
Qed.

Lemma get_field_zone two cp pos zoned zone r : at_pos cp pos (zone_text zoned zone ++ r) -> Z.abs zone < 6000 ->
  get_field two cp pos (zlen (zone_text zoned zone)) = Val Absent.
Proof.
  intros P Z; rewrite zlen_zone by exact Z; unfold zone_text in P; destruct zoned; [|reflexivity].
  unfold get_field; destruct (Z.eqb_spec zone 0); cbn [app] in P;
    [change (1 >? 0) with true | change (5 >? 0) with true]; cbn match; rewrite (at_rd _ _ _ _ P); cbn [cbind].
  - rewrite andb_false_r; reflexivity.
  - destruct (zone <? 0); cbn [orb Z.eqb Pos.eqb]; rewrite andb_false_r; reflexivity.
Qed.

(** ** The texts of a time *)

(** A time whose fields have as many digits as the text gives them. *)
Definition utc_ok (generalized : bool) (u : UTCtime) : Prop :=
  (if generalized then 0 <= ut_year u < 10000 else 1950 <= ut_year u < 2050) /\
  small (ut_mon u) /\ small (ut_mday u) /\ small (ut_hour u) /\ small (ut_min u) /\ small (ut_sec u) /\
  0 <= ut_usec u < 1000000 /\ Z.abs (ut_zone u) < 6000.

Definition shows_usec (generalized : bool) (u : UTCtime) : bool := generalized && has (ut_flags u) UT_USEC.
Definition shows_sec (generalized : bool) (u : UTCtime) : bool := has (ut_flags u) UT_SEC || shows_usec generalized u.

(** What the text keeps of [u]. *)
Definition told (generalized : bool) (u : UTCtime) : UTCtime :=
  let zoned := has (ut_flags u) UT_ZONE in
  mkUTC (ut_year u) (ut_mon u) (ut_mday u) (ut_hour u) (ut_min u)
    (if shows_sec generalized u then ut_sec u else 0)
    (if shows_usec generalized u then ut_usec u else 0)
    (if zoned then ut_zone u else 0)
    ((if shows_sec generalized u then UT_SEC else 0) + (if shows_usec generalized u then UT_USEC else 0) +
     (if zoned then UT_ZONE else 0)).

Definition time_text (generalized : bool) (u : UTCtime) : list Z :=
  (if generalized then print_0d 4 (ut_year u) else print_0d 2 (Z.rem (ut_year u) 100)) ++
  (print_0d 2 (ut_mon u) ++ print_0d 2 (ut_mday u) ++ print_0d 2 (ut_hour u) ++ print_0d 2 (ut_min u)) ++
  (if shows_sec generalized u then print_0d 2 (ut_sec u) else []) ++
  (if shows_usec generalized u then 46 :: print_0d 6 (ut_usec u) else []) ++
  zone_text (has (ut_flags u) UT_ZONE) (ut_zone u).

Lemma time2str_text generalized u : utc_ok generalized u -> time2str (Some u) generalized = Val (Some (time_text generalized u)).
Proof.
  intros (_ & _ & _ & _ & _ & _ & _ & Z); unfold time2str, time_text, zone_text, shows_sec, shows_usec.
  destruct (has (ut_flags u) UT_ZONE); [|reflexivity].
  destruct (ut_zone u =? 0); [reflexivity|].
  rewrite (proj2 (Z.eqb_neq _ INT_MIN)) by (unfold INT_MIN; lia); reflexivity.
Qed.

Lemma year_window y : 1950 <= y < 2050 -> small (Z.rem y 100) /\ YEAR (Z.rem y 100) = y.
Proof.
  intros Y; rewrite Z.rem_mod_nonneg by lia; unfold YEAR, small.
  pose proof (Z.mod_pos_bound y 100); pose proof (Z.div_mod y 100).
  assert (y / 100 = 19 \/ y / 100 = 20) by (assert (19 <= y / 100 < 21) by (split; [apply Z.div_le_lower_bound | apply Z.div_lt_upper_bound]; lia); lia).
  rewrite Z.geb_leb; destruct (Z.leb_spec 50 (y mod 100)); lia.
Qed.

Lemma zlen_sec b n : small n -> zlen (if b : bool then print_0d 2 n else []) = if b then 2 else 0.
Proof. intros; destruct b; [apply zlen_print2; assumption | reflexivity]. Qed.

Lemma zone_text_head zoned zone c t : zone_text zoned zone = c :: t -> is_digit c = false.
Proof.
  unfold zone_text; destruct zoned; [|discriminate]; destruct (_ =? 0); [intros [= <-]; reflexivity|].
  destruct (_ <? 0); intros [= <-]; reflexivity.
Qed.

Lemma str2utct_text u r : utc_ok false u -> terminated r = true ->
  str2utct (time_text false u ++ r) (zlen (time_text false u)) = Val (Some (told false u)).
Proof.
  intros (Y & Mo & D & H & Mi & S & _ & Z) T; destruct (year_window _ Y) as (Ys & Yw).
  unfold time_text, told, shows_sec; change (shows_usec false u) with false; rewrite orb_false_r, app_nil_l.
  pose proof (zlen_zone (has (ut_flags u) UT_ZONE) (ut_zone u) Z) as Lz; set (zt := zone_text _ _) in *.
  assert (Lb : 0 <= zlen zt <= 5) by (rewrite Lz; destruct (has _ UT_ZONE); [destruct (_ =? 0)|]; lia).
  rewrite !zlen_app, zlen_sec, !zlen_print2, <- !app_assoc by assumption.
  unfold str2utct; scans; cbn [cmap cbind option_map].
  set (sec := if has (ut_flags u) UT_SEC then print_0d 2 (ut_sec u) else []).
  match goal with |- context [rd ?text 10] => pose proof (at_start text) as P; set (cp := text) in P at 1 |- * end.
  clearbody cp; do 5 (apply at_print2 in P; [|assumption]); change (0 + 2 + 2 + 2 + 2 + 2) with 10 in P.
  rewrite size_id by (unfold INT_MAX; destruct (has _ UT_SEC); lia); rewrite Yw; subst sec.
  destruct (has (ut_flags u) UT_SEC).
  - match goal with |- context [get_zone cp 10 ?l] => replace l with (2 + zlen zt) by lia end.
    destruct (Z.gtb_spec (2 + zlen zt) 0); [|lia].
    destruct (print2_digit _ S) as (c & t & E & Dg); pose proof P as P'; rewrite E in P'; cbn [app] in P'.
    rewrite (at_rd _ _ _ _ P'); cbn [cmap cbind]; rewrite Dg, (proj2 P).
    scans; cbn [cmap cbind option_map].
    rewrite size_id by (unfold INT_MAX; lia); replace (2 + zlen zt - 2) with (zlen zt) by lia.
    apply at_print2 in P; [|assumption].
    unfold zt; rewrite (get_zone_spec _ _ _ _ _ r) by (first [exact P | assumption | reflexivity]); unfold with_zone; cbn.
    destruct (has (ut_flags u) UT_ZONE); reflexivity.
  - match goal with |- context [get_zone cp 10 ?l] => replace l with (zlen zt) by lia end; rewrite app_nil_l in P.
    assert (Nd : (if zlen zt >? 0 then cmap is_digit (rd cp 10) else Val false) = Val false).
    { pose proof (zone_text_head (has (ut_flags u) UT_ZONE) (ut_zone u)) as Hd; fold zt in Hd.
      clearbody zt; destruct zt as [|c t]; [reflexivity|].
      rewrite zlen_cons; pose proof (zlen_nonneg t); destruct (Z.gtb_spec (1 + zlen t) 0); [|lia].
      rewrite (at_rd _ _ _ _ P); cbn [cmap cbind]; f_equal; apply (Hd c t); reflexivity. }
    rewrite Nd; cbn [cbind]; unfold zt; rewrite (get_zone_spec _ _ _ _ _ r) by (first [exact P | assumption | reflexivity]).
    unfold with_zone; cbn; destruct (has (ut_flags u) UT_ZONE); reflexivity.
Qed.

Definition usec_text (shown : bool) (usec : Z) : list Z := if shown then 46 :: print_0d 6 usec else [].

Definition with_usec (u : UTCtime) (shown : bool) (usec : Z) : UTCtime :=
  mkUTC (ut_year u) (ut_mon u) (ut_mday u) (ut_hour u) (ut_min u) (ut_sec u) (if shown then usec else ut_usec u)
    (ut_zone u) (if shown then Z.lor (ut_flags u) UT_USEC else ut_flags u).

Definition with_sec (u : UTCtime) (shown : bool) (sec : Z) : UTCtime :=
  mkUTC (ut_year u) (ut_mon u) (ut_mday u) (ut_hour u) (ut_min u) (if shown then sec else ut_sec u) (ut_usec u)
    (ut_zone u) (if shown then Z.lor (ut_flags u) UT_SEC else ut_flags u).

Lemma zlen_usec shown usec : 0 <= usec < 1000000 -> zlen (usec_text shown usec) = if shown then 7 else 0.
Proof.
  intros N; destruct shown; [|reflexivity]; unfold usec_text; rewrite zlen_cons.
  rewrite (zlen_print 6) by (cbn; lia); reflexivity.
Qed.

Section Gent.
Variables (cp r : list Z) (zoned : bool) (zone : Z).
Hypothesis Zone : Z.abs zone < 6000.
Hypothesis Ended : terminated r = true.

Lemma zone_small : 0 <= zlen (zone_text zoned zone) <= 5.
Proof. rewrite zlen_zone by exact Zone; destruct zoned; [destruct (_ =? 0)|]; lia. Qed.

Lemma gent_fraction_spec pos shown usec u :
  at_pos cp pos (usec_text shown usec ++ zone_text zoned zone ++ r) -> 0 <= usec < 1000000 -> ut_zone u = 0 ->
  (shown = true -> stops (zone_text zoned zone ++ r)) ->
  gent_fraction cp pos (zlen (usec_text shown usec) + zlen (zone_text zoned zone)) u =
    Val (Some (with_zone (with_usec u shown usec) zoned zone)).
Proof.
  intros P N U St; pose proof zone_small; rewrite zlen_usec by exact N; unfold gent_fraction; destruct shown.
  - rewrite (get_field_fraction _ _ _ _ _ _ P) by (auto; unfold INT_MAX; lia); cbn [cbind].
    replace (7 + zlen (zone_text zoned zone) - 7) with (zlen (zone_text zoned zone)) by lia.
    rewrite long2int_exact by (bounds; lia); destruct (fits_spec INT usec) as [_|F]; [|destruct F; bounds; lia].
    rewrite Z.geb_leb; destruct (Z.leb_spec 1000000 usec); [lia|].
    apply at_app in P; rewrite (zlen_usec true) in P by exact N.
    apply (get_zone_spec _ _ _ _ _ r); assumption || reflexivity || auto.
  - rewrite Z.add_0_l; rewrite (get_field_zone false cp pos zoned zone r) by assumption; cbn [cbind].
    destruct u; apply (get_zone_spec _ _ _ _ _ r); assumption || reflexivity || auto.
Qed.

Lemma gent_seconds_spec pos secs sec shown usec u :
  at_pos cp pos ((if secs : bool then print_0d 2 sec else []) ++ usec_text shown usec ++ zone_text zoned zone ++ r) ->
  small sec -> 0 <= usec < 1000000 -> ut_zone u = 0 -> (shown = true -> secs = true /\ stops (zone_text zoned zone ++ r)) ->
  gent_seconds cp pos ((if secs then 2 else 0) + zlen (usec_text shown usec) + zlen (zone_text zoned zone)) u =
    Val (Some (with_zone (with_usec (with_sec u secs sec) shown usec) zoned zone)).
Proof.
  intros P S N U St; pose proof zone_small; pose proof (zlen_usec shown usec N) as Lu.
  unfold gent_seconds; destruct secs.
  - assert (0 <= zlen (usec_text shown usec) <= 7) by (rewrite Lu; destruct shown; lia).
    rewrite (get_field_digits _ _ _ _ _ P) by (auto with ended; unfold INT_MAX; lia); cbn [cbind].
    apply at_print2 in P; [|exact S].
    match goal with |- gent_fraction _ _ ?l _ = _ =>
      replace l with (zlen (usec_text shown usec) + zlen (zone_text zoned zone)) by lia end.
    rewrite gent_fraction_spec by (auto; intros E; destruct (St E); assumption); reflexivity.
  - destruct shown; [destruct St; congruence|]; rewrite Lu, Z.add_0_l in *.
    rewrite (get_field_zone true cp pos zoned zone r) by assumption; cbn [cbind].
    destruct u; apply (gent_fraction_spec pos false usec); auto; discriminate.
Qed.
End Gent.

Lemma str2gent_text u r : utc_ok true u -> terminated r = true ->
  (shows_usec true u = true -> stops (zone_text (has (ut_flags u) UT_ZONE) (ut_zone u) ++ r)) ->
  str2gent (time_text true u ++ r) (zlen (time_text true u)) = Val (Some (told true u)).
Proof.
  intros (Y & Mo & D & H & Mi & S & N & Zn) T St.
  unfold time_text; fold (usec_text (shows_usec true u) (ut_usec u)).
  pose proof (zone_small (has (ut_flags u) UT_ZONE) (ut_zone u) Zn) as Lz.
  pose proof (zlen_usec (shows_usec true u) _ N) as Lu.
  rewrite !zlen_app, zlen_sec, !zlen_print2, <- !app_assoc, (zlen_print 4) by (try assumption; cbn; lia).
  unfold str2gent; change 4 with (Z.of_nat 4) at 1; rewrite sscanf_print by (exact Y || lia || auto 12 with ended); scans; cbn [cmap cbind option_map].
  match goal with |- context [get_field true ?text 10] => pose proof (at_start text) as P; set (cp := text) in P at 1 |- * end.
  clearbody cp; apply at_app in P; rewrite (zlen_print 4) in P by (cbn; lia).
  do 3 (apply at_print2 in P; [|assumption]); change (0 + Z.of_nat 4 + 2 + 2 + 2) with 10 in P.
  assert (B : 0 <= zlen (usec_text (shows_usec true u) (ut_usec u)) <= 7) by (rewrite Lu; destruct (shows_usec true u); lia).
  assert (B2 : 0 <= (if shows_sec true u then 2 else 0) <= 2) by (destruct (shows_sec true u); lia).
  rewrite size_id by (unfold INT_MAX; lia).
  rewrite (get_field_digits _ _ _ _ _ P) by (auto 12 with ended; unfold INT_MAX; lia); cbn [cbind].
  apply at_print2 in P; [|assumption].
  match goal with |- gent_seconds _ _ ?l _ = _ =>
    replace l with ((if shows_sec true u then 2 else 0) + zlen (usec_text (shows_usec true u) (ut_usec u)) +
                    zlen (zone_text (has (ut_flags u) UT_ZONE) (ut_zone u))) by lia end.
  rewrite (gent_seconds_spec cp r _ _ Zn T _ _ _ _ _ _ P)
    by first [assumption | reflexivity |
              intros E; split; [unfold shows_sec; rewrite E; apply orb_true_r | exact (St E)]].
  unfold with_zone, with_usec, with_sec, told, shows_sec, shows_usec; cbn [andb].
  destruct (has (ut_flags u) UT_USEC), (has (ut_flags u) UT_SEC), (has (ut_flags u) UT_ZONE); reflexivity.
Qed.

(** ** Elements *)

Definition no_nul (s : list Z) : Prop := Forall (fun c => c <> 0) s.

Lemma print_no_nul w n : (0 < w <= 10)%nat -> 0 <= n < 10 ^ Z.of_nat w -> no_nul (print_0d (Z.of_nat w) n).
Proof.
  intros W N; destruct (print_0d_spec w n W N) as (D & _).
  unfold no_nul; eapply Forall_impl; [|exact D]; intros c C; unfold is_digit in C; apply andb_true_iff in C as [C _].
  apply Z.leb_le in C; lia.
Qed.

Lemma print2_no_nul n : small n -> no_nul (print_0d 2 n).
Proof. intros N; apply (print_no_nul 2); unfold small in N; cbn; lia. Qed.

Lemma bytes_print w n : (0 < w <= 10)%nat -> 0 <= n < 10 ^ Z.of_nat w -> bytes (print_0d (Z.of_nat w) n).
Proof.
  intros W N; destruct (print_0d_spec w n W N) as (D & _).
  unfold bytes; eapply Forall_impl; [|exact D]; intros c C; unfold is_digit in C; apply andb_true_iff in C as [C1 C2].
  apply Z.leb_le in C1, C2; unfold is_byte; lia.
Qed.

(** Characters of a text: octets, none of them the null. *)
Definition chars (s : list Z) : Prop := bytes s /\ no_nul s.

Lemma chars_app a b : chars a -> chars b -> chars (a ++ b).
Proof. intros (A1 & A2) (B1 & B2); split; apply Forall_app; auto. Qed.

Lemma chars_cons c s : 0 < c < 256 -> chars s -> chars (c :: s).
Proof. intros C (S1 & S2); split; constructor; auto; unfold is_byte; lia. Qed.

Lemma chars_nil : chars [].
Proof. split; constructor. Qed.

Lemma chars_print w n : (0 < w <= 10)%nat -> 0 <= n < 10 ^ Z.of_nat w -> chars (print_0d (Z.of_nat w) n).
Proof. split; [apply bytes_print | apply print_no_nul]; assumption. Qed.

Lemma chars_print2 n : small n -> chars (print_0d 2 n).
Proof. intros; apply (chars_print 2); unfold small in *; cbn; lia. Qed.

Lemma time_text_chars g u : utc_ok g u -> chars (time_text g u) /\ 0 < zlen (time_text g u) <= 100.
Proof.
  intros (Y & Mo & D & H & Mi & S & N & Zn); destruct (hours_mins _ Zn) as (Zh & Zm & _).
  assert (Cy : chars (if g then print_0d 4 (ut_year u) else print_0d 2 (Z.rem (ut_year u) 100)) /\
               0 < zlen (if g then print_0d 4 (ut_year u) else print_0d 2 (Z.rem (ut_year u) 100)) <= 4).
  { destruct g; [split; [apply (chars_print 4); cbn; lia | rewrite (zlen_print 4) by (cbn; lia); cbn; lia]|].
    destruct (year_window _ Y) as (Ys & _); split; [apply chars_print2, Ys | rewrite zlen_print2 by exact Ys; lia]. }
  assert (Cz : chars (zone_text (has (ut_flags u) UT_ZONE) (ut_zone u))).
  { unfold zone_text; destruct (has _ _); [|apply chars_nil]; destruct (_ =? 0); [apply chars_cons; [lia | apply chars_nil]|].
    apply chars_cons; [destruct (_ <? 0); lia | apply chars_app; apply chars_print2; assumption]. }
  unfold time_text; split.
  - apply chars_app; [apply Cy|]; apply chars_app; [|apply chars_app; [|apply chars_app; [|exact Cz]]].
    + do 3 (apply chars_app; [apply chars_print2; assumption|]); apply chars_print2; assumption.
    + destruct (shows_sec g u); [apply chars_print2, S | apply chars_nil].
    + destruct (shows_usec g u); [|apply chars_nil]; apply chars_cons; [lia|]; apply (chars_print 6); cbn; lia.
  - pose proof (zone_small (has (ut_flags u) UT_ZONE) (ut_zone u) Zn).
    pose proof (zlen_usec (shows_usec g u) _ N) as Lu; unfold usec_text in Lu.
    rewrite !zlen_app, zlen_sec, Lu, !zlen_print2 by assumption; destruct (shows_sec g u), (shows_usec g u); lia.
Qed.

(** The text as a string. *)
Lemma read_text g u : utc_ok g u ->
  (if g then str2gent else str2utct) (time_text g u ++ [0]) (zlen (time_text g u)) = Val (Some (told g u)).
Proof.
  intros Ok; destruct g; [apply str2gent_text | apply str2utct_text]; try exact Ok; try reflexivity.
  intros _; pose proof (zone_text_head (has (ut_flags u) UT_ZONE) (ut_zone u)) as Hd.
  destruct (zone_text (has (ut_flags u) UT_ZONE) (ut_zone u)) as [|c t]; [reflexivity | cbn; eapply Hd; reflexivity].
Qed.

(** Octets that are no string. *)
Lemma read_unterminated (g : bool) s len : no_nul s -> (if g then str2gent else str2utct) s len = UB.
Proof. intros N; destruct g; unfold str2gent, str2utct, sscanf; rewrite terminated_none by exact N; reflexivity. Qed.

Section Elements.
Context `{Allocator}.

Lemma length_ok n : 0 <= n <= INT_MAX -> (n <? 0) || (cast SIZE n >? SIZE_MAX) = false.
Proof.
  intros N; rewrite size_id by exact N; unfold INT_MAX in N.
  destruct (Z.ltb_spec n 0); [lia|]; destruct (Z.gtb_spec n SIZE_MAX); [unfold SIZE_MAX in *; lia | reflexivity].
Qed.

(** The contents of a primitive are not terminated: unless one of them is a
    null, it has no string for [sscanf]. *)
Lemma prim2time_prim g p b : pe_form p = PE_FORM_PRIM -> pe_prim p = Some b -> no_nul b -> 0 <= pe_len p <= INT_MAX ->
  prim2time p g = UB.
Proof.
  intros F E N L; unfold prim2time; rewrite length_ok, E, F by exact L.
  change (PE_FORM_PRIM =? PE_FORM_PRIM) with true; cbn match; rewrite read_unterminated by exact N; reflexivity.
Qed.

Lemma prim2time_text g u p : utc_ok g u -> pe_ok p -> str_segments p -> leaves p = time_text g u ->
  0 <= pe_len p <= INT_MAX -> pe_form p = PE_FORM_CONS ->
  prim2time p g = Val (Some (told g u), p) \/
  (out_of_memory /\ exists p', prim2time p g = Val (None, p') /\ pe_errno p' = PE_ERR_NMEM).
Proof.
  intros Ok O S L Pl F; destruct (time_text_chars g u Ok) as (_ & Len); unfold prim2time; rewrite length_ok by exact Pl.
  rewrite F; change (PE_FORM_CONS =? PE_FORM_PRIM) with false; change (PE_FORM_CONS =? PE_FORM_CONS) with true; cbn match.
  destruct (prim2str_result p O S) as [E|(M & p' & E & Er)]; [rewrite L; unfold INT_MAX; lia | left | right].
  - rewrite E, L; cbn [cbind]; rewrite length_ok by (unfold INT_MAX; lia).
    rewrite (proj2 (Z.eqb_neq (zlen (time_text g u)) 0)) by lia; cbn [negb]; rewrite size_id by (unfold INT_MAX; lia).
    rewrite read_text by exact Ok; reflexivity.
  - rewrite E; split; [exact M|]; exists p'; split; [reflexivity | exact Er].
Qed.

Lemma time2prim_text g u class id : utc_ok g u -> 0 <= class < 4 -> 0 <= id < 65536 ->
  exists r, time2prim (Some u) g class id = Val r /\
    match r with
    | None => out_of_memory
    | Some p => pe_ok p /\ pe_value p = VPrim class id (time_text g u) /\ pe_form p = PE_FORM_PRIM
    end.
Proof.
  intros Ok C I; destruct (time_text_chars g u Ok) as ((B & Nz) & Len); unfold time2prim.
  rewrite time2str_text by exact Ok; cbn [cbind]; unfold pe_alloc.
  destruct (pe_pool_ok class PE_FORM_PRIM id) eqn:P; [|exists None; split; [reflexivity | right; eauto]].
  unfold strlen2int; rewrite strlen_app by exact Nz; cbn [cmap cbind]; rewrite sizet2int_exact by (bounds; lia).
  destruct (fits_spec INT (zlen (time_text g u))) as [_|F]; [|destruct F; bounds; lia].
  destruct (malloc_int (zlen (time_text g u))) eqn:M.
  - unfold bcopy_int, rdn_ptr; rewrite int2sizet_Some, rdn_app_l, rdn_all by lia; cbn [cmap cbind].
    eexists; split; [reflexivity|]; split; [|split; reflexivity].
    apply ok_prim; [left; reflexivity | split; assumption | | reflexivity].
    split; [reflexivity|]; split; [cbn; unfold INT_MAX; lia | exact B].
  - exists None; split; [reflexivity|]; apply (malloc_int_false (zlen (time_text g u))); [unfold INT_MAX; lia | exact M].
Qed.
End Elements.

(** C31. Times round trip through their text. Of every time whose fields have
    the digits of its notation [time2str] writes a text that [str2utct], or
    [str2gent], reads back to what the notation tells of that time; [time2prim]
    makes a well-formed primitive of it, and [prim2time] reads a constructed
    element whose segments carry it. Each fails only for want of memory. A
    primitive is not read: [prim2time] gives its contents, which no null
    terminates, to [sscanf], and has undefined behaviour. *)
Theorem prim2time_time2prim : forall (A : Allocator) g u class id, utc_ok g u -> 0 <= class < 4 -> 0 <= id < 65536 ->
  exists s r, time2str (Some u) g = Val (Some s) /\
    (if g then str2gent else str2utct) (s ++ [0]) (zlen s) = Val (Some (told g u)) /\
    time2prim (Some u) g class id = Val r /\
    match r with
    | None => out_of_memory
    | Some q => pe_ok q /\ pe_value q = VPrim class id s /\ prim2time q g = UB /\
        forall p, pe_ok p -> str_segments p -> leaves p = s -> 0 <= pe_len p <= INT_MAX -> pe_form p = PE_FORM_CONS ->
          prim2time p g = Val (Some (told g u), p) \/
          (out_of_memory /\ exists p', prim2time p g = Val (None, p') /\ pe_errno p' = PE_ERR_NMEM)
    end.
Proof.
  intros A g u class id Ok C I; destruct (time2prim_text g u class id Ok C I) as (r & E & R).
  exists (time_text g u), r; split; [apply time2str_text, Ok|]; split; [apply read_text, Ok|]; split; [exact E|].
  destruct r as [q|]; [|exact R]; destruct R as (Q & V & F); split; [exact Q|]; split; [exact V|]; split.
  - rewrite pe_value_prim in V by exact F; injection V as _ _ V; destruct (time_text_chars g u Ok) as ((_ & Nz) & Len).
    inversion Q as [_ _ (D1 & D2 & _) _|F' _ _ _]; [|rewrite F in F'; discriminate].
    unfold pe_data in *; destruct (pe_prim q) as [b|] eqn:Eb; [|rewrite <- V in Len; cbn in Len; lia].
    apply (prim2time_prim g q b F Eb); [rewrite V; exact Nz | rewrite D1, V; unfold INT_MAX; lia].
  - intros p Op Sp Lp Pp Cp; apply prim2time_text; assumption.
Qed.

(** ** The calendar *)

(** The days from 1 January 1970 to a date of the Gregorian calendar, counted
    in years that begin in March. *)
Definition days_from_civil (y m d : Z) : Z :=
  let y' := if m <=? 2 then y - 1 else y in
  365 * y' + y' / 4 - y' / 100 + y' / 400 + (153 * ((m + 9) mod 12) + 2) / 5 + d - 1 - 719468.

Definition leaps (n : Z) : Z := n / 4 - n / 100 + n / 400.

Definition days_in_month (y m : Z) : Z :=
  if m =? 2 then if isleap y then 29 else 28
  else if (m =? 4) || (m =? 6) || (m =? 9) || (m =? 11) then 30 else 31.

Lemma isleap_leaps y : 0 <= y -> leaps y - leaps (y - 1) = if isleap y then 1 else 0.
Proof.
  intros Y; unfold isleap, leaps; rewrite !Z.rem_mod_nonneg by lia.
  destruct (Z.eqb_spec (y mod 4) 0); cbn [negb]; [destruct (Z.eqb_spec (y mod 100) 0); cbn [negb];
    [destruct (Z.eqb_spec (y mod 400) 0); cbn [negb]|]|]; Z.to_euclidean_division_equations; lia.
Qed.

Lemma dysize_isleap y : dysize y = if isleap y then 366 else 365.
Proof. unfold dysize, isleap; repeat (destruct (negb _); [reflexivity|]); reflexivity. Qed.

Lemma add_years_spec n : forall i year r, 0 <= i -> Z.to_nat (year - i) = n -> i <= year ->
  add_years n i year r = r + 365 * (year - i) + leaps (year - 1) - leaps (i - 1).
Proof.
  induction n as [|n IH]; intros i year r I N L; cbn [add_years].
  - replace i with year by lia; lia.
  - destruct (Z.ltb_spec i year); [|lia]; rewrite IH by lia; rewrite dysize_isleap.
    pose proof (isleap_leaps i I) as E; replace (i + 1 - 1) with i by lia; destruct (isleap i); lia.
Qed.

Lemma add_months_shift n : forall m d e, add_months n m (d + e) = cmap (Z.add d) (add_months n m e).
Proof.
  induction n as [|n IH]; intros m d e; cbn [add_months]; [reflexivity|].
  destruct (m - 1 >? 0); [|reflexivity]; destruct (rd dmsize (m - 1 - 1)) as [k|]; [|reflexivity]; cbn [cbind].
  rewrite <- Z.add_assoc; apply IH.
Qed.

Lemma month_cases m : 1 <= m <= 12 ->
  m = 1 \/ m = 2 \/ m = 3 \/ m = 4 \/ m = 5 \/ m = 6 \/ m = 7 \/ m = 8 \/ m = 9 \/ m = 10 \/ m = 11 \/ m = 12.
Proof. lia. Qed.

Ltac months M := destruct (month_cases _ M) as [->|[->|[->|[->|[->|[->|[->|[->|[->|[->|[->| ->]]]]]]]]]]].

(** The days before a month of a year that is not a leap year. *)
Definition month_days (m : Z) : Z := nth (Z.to_nat m) [0; 0; 31; 59; 90; 120; 151; 181; 212; 243; 273; 304; 334] 0.

Lemma add_months_spec m d : 1 <= m <= 12 -> add_months (Z.to_nat m) m d = Val (d + month_days m).
Proof.
  intros M; rewrite <- (Z.add_0_r d) at 1; rewrite add_months_shift.
  replace (add_months (Z.to_nat m) m 0) with (Val (month_days m)); [reflexivity|]; months M; reflexivity.
Qed.

Lemma days_year y m d : 1 <= y -> 1 <= m <= 12 ->
  days_from_civil y m d =
    365 * (y - 1970) + leaps (y - 1) - leaps 1969 + month_days m + (if isleap y && (3 <=? m) then 1 else 0) + (d - 1).
Proof.
  intros Y M; pose proof (isleap_leaps y ltac:(lia)) as E; change (leaps 1969) with 477; unfold days_from_civil.
  months M; cbv [month_days nth Z.to_nat Pos.to_nat Pos.iter_op Nat.add]; cbn [Z.leb Z.compare Pos.compare Pos.compare_cont];
    rewrite ?andb_true_r, ?andb_false_r; match goal with |- context [(153 * ?e + 2) / 5] => set (k := (153 * e + 2) / 5); vm_compute in k; subst k end;
    unfold leaps in *; destruct (isleap y); lia.
Qed.

(** The fields [gtime] accepts. *)
Definition tm_ok (t : tm) : Prop :=
  0 <= tm_sec t <= 59 /\ 0 <= tm_min t <= 59 /\ 0 <= tm_hour t <= 24 /\ 1 <= tm_mday t <= 31 /\ 0 <= tm_mon t <= 11 /\
  70 <= tm_year t.

Definition tm_seconds (t : tm) : Z :=
  86400 * days_from_civil (tm_year t + 1900) (tm_mon t + 1) (tm_mday t) + 3600 * tm_hour t + 60 * tm_min t + tm_sec t.

Lemma gtime_seconds t : tm_ok t -> gtime t = Val (tm_seconds t).
Proof.
  intros (S & Mi & H & D & M & Y); unfold gtime, tm_seconds.
  replace (_ || _)%bool with false by (symmetry; rewrite !Z.gtb_ltb; btrue).
  rewrite days_year by lia.
  assert (Lp : forall r, (if (dysize (tm_year t + 1900) =? 366) && (tm_mon t + 1 >=? 3) then r + 1 else r) =
             r + (if isleap (tm_year t + 1900) && (3 <=? tm_mon t + 1) then 1 else 0)).
  { intros r; rewrite dysize_isleap, Z.geb_leb; destruct (isleap _), (3 <=? _); cbn; lia. }
  destruct (Z.eqb_spec (tm_hour t) 24) as [E|E]; cbv zeta;
    rewrite add_years_spec, Lp, add_months_spec by lia; cbn [cbind]; f_equal; change (1970 - 1) with 1969; lia.
Qed.

(** A date of the calendar, with a time of day. *)
Definition date_ok (u : UTCtime) : Prop :=
  1971 <= ut_year u /\ 1 <= ut_mon u <= 12 /\ 1 <= ut_mday u <= days_in_month (ut_year u) (ut_mon u) /\
  0 <= ut_hour u <= 23 /\ 0 <= ut_min u <= 59 /\ 0 <= ut_sec u <= 59.

(** The seconds from 1970 to the time [u] shows, its zone left aside. *)
Definition local_seconds (u : UTCtime) : Z :=
  86400 * days_from_civil (ut_year u) (ut_mon u) (ut_mday u) + 3600 * ut_hour u + 60 * ut_min u + ut_sec u.

Lemma makewkday_spec u : 1801 <= ut_year u -> 1 <= ut_mon u <= 12 -> 1 <= ut_mday u ->
  makewkday u =
    Val ((4 + days_from_civil (ut_year u) (ut_mon u) (ut_mday u) -
          (if isleap (ut_year u) && (ut_mon u =? 3) then 1 else 0)) mod 7).
Proof.
  intros Y M D; rewrite days_year by lia; unfold makewkday.
  destruct (Z.gtb_spec (ut_year u) 1800); [|lia]; destruct (Z.gtb_spec (ut_year u) 1752); [|lia].
  rewrite !Z.quot_div_nonneg by lia; set (y := ut_year u) in *; cbv zeta.
  set (base := 4 + y + (y + 3) / 4 - (y - 1701) / 100 + (y - 1601) / 400 + 3).
  assert (Bs : base = y + leaps (y - 1) + 21).
  { unfold base, leaps; replace (y + 3) with (y - 1 + 1 * 4) by lia; replace (y - 1701) with (y - 1 + (-17) * 100) by lia.
    replace (y - 1601) with (y - 1 + (-4) * 400) by lia; rewrite !Z.div_add by lia; lia. }
  assert (Lp : (if (dysize y =? 366) && (ut_mon u >? 3) then base + 1 else base) =
               base + (if isleap y && (4 <=? ut_mon u) then 1 else 0)).
  { rewrite dysize_isleap, Z.gtb_ltb; destruct (Z.ltb_spec 3 (ut_mon u)), (Z.leb_spec 4 (ut_mon u)); try lia;
      destruct (isleap y); cbn; lia. }
  rewrite Lp, add_months_spec by lia; cbn [cbind]; f_equal.
  assert (Mn : 0 <= month_days (ut_mon u)) by (months M; vm_compute; discriminate).
  assert (0 <= leaps (y - 1)) by (unfold leaps; Z.to_euclidean_division_equations; lia).
  rewrite Z.rem_mod_nonneg by (destruct (isleap y && (4 <=? ut_mon u)); lia).
  change (leaps 1969) with 477; rewrite Bs.
  set (x := isleap y); assert (Ld : (if x && (4 <=? ut_mon u) then 1 else 0) =
     (if x && (3 <=? ut_mon u) then 1 else 0) - (if x && (ut_mon u =? 3) then 1 else 0)).
  { destruct x; [|reflexivity]; destruct (Z.leb_spec 4 (ut_mon u)), (Z.leb_spec 3 (ut_mon u)), (Z.eqb_spec (ut_mon u) 3); cbn; lia. }
  rewrite Ld; set (a := if x && (3 <=? ut_mon u) then 1 else 0); set (b := if x && (ut_mon u =? 3) then 1 else 0).
  replace (4 + (365 * (y - 1970) + leaps (y - 1) - 477 + month_days (ut_mon u) + a + (ut_mday u - 1)) - b)
    with (y + leaps (y - 1) + 21 + (a - b) + month_days (ut_mon u) + (ut_mday u - 1) + (52 * y - 102792) * 7) by lia.
  rewrite Z.mod_add by lia; reflexivity.
Qed.

(** Evaluates the tests and the tables of a known month. *)
Ltac month_values :=
  repeat match goal with
  | |- context [month_days ?k] => let v := eval vm_compute in (month_days k) in change (month_days k) with v
  | |- context [?a <=? ?b] => let v := eval vm_compute in (a <=? b) in change (a <=? b) with v
  | |- context [?a =? ?b] => let v := eval vm_compute in (a =? b) in change (a =? b) with v
  end; rewrite ?andb_true_r, ?andb_false_r; cbn [orb]; cbn match.

(** The days of two months that follow each other. *)
Lemma days_next_month y m d : 1 <= y -> 1 <= m < 12 ->
  days_from_civil y (m + 1) d = days_from_civil y m d + days_in_month y m.
Proof.
  intros Y M; rewrite !days_year by lia; unfold days_in_month.
  assert (M' : 1 <= m <= 12) by lia; months M'; try lia; month_values; destruct (isleap y); lia.
Qed.

Lemma days_next_year y d : 1 <= y -> days_from_civil (y + 1) 1 d = days_from_civil y 12 d + 31.
Proof.
  intros Y; rewrite !days_year by lia; pose proof (isleap_leaps y ltac:(lia)).
  replace (y + 1 - 1) with y by lia; month_values; destruct (isleap y); lia.
Qed.

Lemma days_add y m d k : days_from_civil y m (d + k) = days_from_civil y m d + k.
Proof. unfold days_from_civil; lia. Qed.

Lemma days_in_month_rd y m : 1 <= m <= 12 ->
  exists n, rd dmsize (m - 1) = Val n /\ (if (m - 1 =? 1) && isleap y then n + 1 else n) = days_in_month y m /\
    28 <= days_in_month y m <= 31.
Proof.
  intros M; months M; eexists; (split; [reflexivity|]); unfold days_in_month; month_values; try (split; [reflexivity | lia]).
  destruct (isleap y); split; try reflexivity; lia.
Qed.

Lemma split_zone z : Z.abs z < 1440 ->
  z = 60 * Z.quot z 60 + Z.rem z 60 /\ Z.abs (Z.quot z 60) <= 23 /\ Z.abs (Z.rem z 60) <= 59 /\
  0 <= Z.quot z 60 * Z.rem z 60.
Proof.
  intros Z; pose proof (Z.quot_rem z 60 ltac:(lia)).
  destruct (Z_le_gt_dec 0 z); [assert (0 <= z / 60 <= 23 /\ 0 <= z mod 60 <= 59)|].
  - pose proof (Z.mod_pos_bound z 60); split; [split; [apply Z.div_pos; lia | apply Z.lt_succ_r, Z.div_lt_upper_bound; lia] | lia].
  - rewrite Z.quot_div_nonneg, Z.rem_mod_nonneg in * by lia; nia.
  - replace z with (- - z) in * by lia; set (w := - z) in *; rewrite Z.quot_opp_l, Z.rem_opp_l in * by lia.
    rewrite Z.quot_div_nonneg, Z.rem_mod_nonneg in * by lia; pose proof (Z.mod_pos_bound w 60).
    assert (0 <= w / 60 <= 23) by (split; [apply Z.div_pos; lia | apply Z.lt_succ_r, Z.div_lt_upper_bound; lia]); nia.
Qed.

Lemma gtime_fields s mi h d mo y w a b S : 0 <= s <= 59 -> 0 <= mi <= 59 -> 0 <= h <= 23 -> 1 <= d <= 31 ->
  0 <= mo <= 11 -> 70 <= y ->
  86400 * days_from_civil (y + 1900) (mo + 1) d + 3600 * h + 60 * mi + s = S ->
  gtime (mkTM s mi h d mo y w a b) = Val S.
Proof. intros; subst S; apply gtime_seconds; repeat split; cbn; lia. Qed.

(** [ut2tm] takes the zone off: the broken-down time it gives, which
    [gtime] accepts, is that of the same instant in Greenwich, across the ends
    of days, months and years, leap years included. The one exception is an
    instant of the previous year (see [ut2tm_before_new_year]). *)
Theorem ut2tm_gtime : forall u, date_ok u -> Z.abs (ut_zone u) < 1440 ->
  (ut_mon u = 1 -> ut_mday u = 1 -> ut_zone u <= 60 * ut_hour u + ut_min u) ->
  exists t, ut2tm u = Val t /\ gtime t = Val (local_seconds u - 60 * ut_zone u).
Proof.
  intros u (Y & M & D & H & Mi & S) Zn Jan; unfold ut2tm, local_seconds.
  rewrite makewkday_spec by lia; cbn [cbind]; set (wday := _ mod 7).
  destruct (split_zone _ Zn) as (Zq & Q & R & Sg); set (q := Z.quot (ut_zone u) 60) in *; set (r := Z.rem (ut_zone u) 60) in *.
  destruct (days_in_month_rd (ut_year u) (ut_mon u) M) as (dm & Rd & Dm & Dr).
  set (norm := if ut_min u - r <? 0 then _ else _).
  assert (N : exists hour min, norm = (hour, min) /\ 60 * hour + min = 60 * ut_hour u + ut_min u - ut_zone u /\
            0 <= min <= 59 /\ -24 <= hour <= 47).
  { unfold norm; destruct (Z.ltb_spec (ut_min u - r) 0); [|destruct (Z.gtb_spec (ut_min u - r) 59)];
      eexists; eexists; (split; [reflexivity|]); nia. }
  destruct N as (hour & min & -> & E & Mr & Hr).
  assert (Yr : ut_year u - 1900 + 1900 = ut_year u) by lia.
  destruct (Z.ltb_spec hour 0) as [Hn|Hn]; [|destruct (Z.gtb_spec hour 23) as [Hp|Hp]].
  - destruct (Z.ltb_spec (ut_mday u - 1) 1) as [B|B].
    + assert (Mo : 1 <= ut_mon u - 1 <= 12) by lia.
      destruct (days_in_month_rd (ut_year u) (ut_mon u - 1) Mo) as (dp & Rp & Dp & Dpr); rewrite Rp; cbn [cbind].
      rewrite Yr, Dp; destruct (Z.ltb_spec (ut_mon u - 1 - 1) 0); [lia|]; eexists; split; [reflexivity|].
      apply gtime_fields; try lia; rewrite Yr; replace (ut_mon u - 1 - 1 + 1) with (ut_mon u - 1) by lia.
      pose proof (days_next_month (ut_year u) (ut_mon u - 1) 0 ltac:(lia) ltac:(lia)) as Nx.
      replace (ut_mon u - 1 + 1) with (ut_mon u) in Nx by lia.
      pose proof (days_add (ut_year u) (ut_mon u) 0 1); pose proof (days_add (ut_year u) (ut_mon u - 1) 0 (days_in_month (ut_year u) (ut_mon u - 1))).
      replace (ut_mday u) with 1 by lia; cbn [Z.add] in *; lia.
    + eexists; split; [reflexivity|]; apply gtime_fields; try lia; rewrite Yr; replace (ut_mon u - 1 + 1) with (ut_mon u) by lia.
      unfold Z.sub at 1; rewrite days_add; lia.
  - rewrite Rd; cbn [cbind]; replace (1900 + (ut_year u - 1900)) with (ut_year u) by lia; rewrite Dm.
    destruct (Z.gtb_spec (ut_mday u + 1) (days_in_month (ut_year u) (ut_mon u))) as [B|B].
    + destruct (Z.gtb_spec (ut_mon u - 1 + 1) 11) as [W|W]; (eexists; split; [reflexivity|]); apply gtime_fields; try lia.
      * replace (ut_year u - 1900 + 1 + 1900) with (ut_year u + 1) by lia; cbn [Z.add].
        assert (Em : ut_mon u = 12) by lia; rewrite Em in *.
        pose proof (days_next_year (ut_year u) 1 ltac:(lia)); pose proof (days_add (ut_year u) 12 1 (ut_mday u - 1)) as A.
        replace (1 + (ut_mday u - 1)) with (ut_mday u) in A by lia.
        assert (days_in_month (ut_year u) 12 = 31) by reflexivity; lia.
      * rewrite Yr; replace (ut_mon u - 1 + 1 + 1) with (ut_mon u + 1) by lia; rewrite days_next_month by lia.
        pose proof (days_add (ut_year u) (ut_mon u) 1 (ut_mday u - 1)) as A.
        replace (1 + (ut_mday u - 1)) with (ut_mday u) in A by lia; lia.
    + eexists; split; [reflexivity|]; apply gtime_fields; try lia; rewrite Yr; replace (ut_mon u - 1 + 1) with (ut_mon u) by lia.
      rewrite days_add; lia.
  - eexists; split; [reflexivity|]; apply gtime_fields; try lia; rewrite Yr; replace (ut_mon u - 1 + 1) with (ut_mon u) by lia; lia.
Qed.

(** The weekday of the date: [tm_wday], which the zone does not change. *)
Lemma ut2tm_wday u t : date_ok u -> ut2tm u = Val t ->
  tm_wday t = (4 + days_from_civil (ut_year u) (ut_mon u) (ut_mday u) -
               (if isleap (ut_year u) && (ut_mon u =? 3) then 1 else 0)) mod 7.
Proof.
  intros (Y & M & D & _) E; unfold ut2tm in E; rewrite makewkday_spec in E by lia; cbn [cbind] in E.
  set (wday := _ mod 7) in *; clearbody wday.
  destruct (if ut_min u - Z.rem (ut_zone u) 60 <? 0 then _ else _) as [hour min].
  repeat match type of E with
  | (_ <- ?m ;; _) = _ => destruct m; [cbn [cbind] in E | discriminate]
  | (if ?b then _ else _) = _ => destruct b
  | (let '(_, _) := if ?b then _ else _ in _) = _ => destruct b
  end; injection E as <-; reflexivity.
Qed.

(** * What the theorems above do not cover *)

(** In March of a leap year the weekday is the day before: the leap day is
    added only after March. 1 March 2000 was a Wednesday. *)
Lemma makewkday_march : makewkday (mkUTC 2000 3 1 0 0 0 0 0 0) = Val 2.
Proof. reflexivity. Qed.

(** On 1 January, a zone ahead of Greenwich by more than the time of day makes
    [ut2tm] read [dmsize] before its first element: the year is stepped back
    only afterwards. *)
Lemma ut2tm_before_new_year u : date_ok u -> Z.abs (ut_zone u) < 1440 ->
  ut_mon u = 1 -> ut_mday u = 1 -> 60 * ut_hour u + ut_min u < ut_zone u -> ut2tm u = UB.
Proof.
  intros (Y & M & D & H & Mi & S) Zn M1 D1 B; unfold ut2tm; rewrite makewkday_spec by lia; cbn [cbind].
  destruct (split_zone _ Zn) as (Zq & Q & R & Sg); set (q := Z.quot (ut_zone u) 60) in *; set (r := Z.rem (ut_zone u) 60) in *.
  set (norm := if ut_min u - r <? 0 then _ else _).
  assert (N : exists hour min, norm = (hour, min) /\ hour < 0).
  { unfold norm; destruct (Z.ltb_spec (ut_min u - r) 0); [|destruct (Z.gtb_spec (ut_min u - r) 59)];
      eexists; eexists; (split; [reflexivity|]); nia. }
  destruct N as (hour & min & -> & Hn); destruct (Z.ltb_spec hour 0); [|lia].
  rewrite M1, D1; reflexivity.
Qed.

(** The fraction of an hour is taken for one of a second. *)
Lemma str2gent_hour_fraction :
  str2gent ([50; 48; 50; 54; 48; 49; 48; 49; 49; 50; 46; 53; 90] ++ [0]) 13 =    (* 2026010112.5Z *)
  Val (Some (mkUTC 2026 1 1 12 0 0 500000 0 7)).
Proof. reflexivity. Qed.

(** The contents of a primitive are not terminated. *)
Lemma prim2time_unterminated : @prim2time plenty (mkPE 0 0 0 PE_FORM_PRIM 23 11 0
    (Some [50; 54; 48; 49; 48; 49; 49; 50; 48; 48; 90]) [] 0 0 None 0 0) false = UB.    (* 2601011200Z *)
Proof. reflexivity. Qed.

(** A string that is too short satisfies [sscanf], the remaining length wraps
    and the octet behind the terminator is read. *)
Lemma str2utct_short_overread : str2utct ([49; 45; 49; 45; 49; 45; 49; 45; 49] ++ [0]) 9 = UB.    (* 1-1-1-1-1 *)
Proof. reflexivity. Qed.

(** A constructor of indefinite length has [pe_len] -1: its time is refused. *)
Lemma prim2time_indefinite `{Allocator} p g : pe_len p = PE_LEN_INDF -> prim2time p g = Val (None, set_errno p PE_ERR_PRIM).
Proof. intros L; unfold prim2time; rewrite L; reflexivity. Qed.

(** * Witnesses *)

(** 29 February 2024, 23:30:05.25 in a zone an hour and a half behind. *)
Definition ex_utc : UTCtime := mkUTC 2024 2 29 23 30 5 250000 (-90) 7.

(** Its text, in two segments. *)
Definition ex_seg (d : list Z) : PElement := mkPE 0 0 0 PE_FORM_PRIM 4 (zlen d) 0 (Some d) [] 0 0 None 0 0.
Definition ex_text : list Z := time_text true ex_utc.
Definition ex_time : PElement := mkPE 0 0 0 PE_FORM_CONS 24 30 0 None [ex_seg (ztake 8 ex_text); ex_seg (zdrop 8 ex_text)] 0 0 None 0 0.

Lemma prim2time_time2prim_witness : str2gent (ex_text ++ [0]) (zlen ex_text) = Val (Some ex_utc) /\
  @prim2time plenty ex_time true = Val (Some ex_utc, ex_time).
Proof.
  destruct (prim2time_time2prim plenty true ex_utc 0 24) as (s & r & E & S & T & R); [unfold utc_ok, small; cbn; lia | lia | lia|].
  vm_compute in E; injection E as <-; split; [exact S|]; destruct r as [q|]; [|destruct R as [(n & _ & M)|(a & b & c & M)]; discriminate M].
  destruct R as (_ & _ & _ & R); destruct (R ex_time) as [P|([(n & _ & M)|(a & b & c & M)] & _)]; try exact P; try discriminate M.
  - apply pe_okb_ok; reflexivity.
  - eapply seg_node; [reflexivity | reflexivity | repeat constructor |]; repeat constructor.
  - reflexivity.
  - vm_compute; split; discriminate.
  - reflexivity.
Defined.

Lemma ut2tm_gtime_witness : exists t, ut2tm ex_utc = Val t /\ gtime t = Val 1709254805.
Proof.
  apply (ut2tm_gtime ex_utc); [|reflexivity | discriminate].
  unfold date_ok; change (days_in_month (ut_year ex_utc) (ut_mon ex_utc)) with 29; cbn; lia.
Defined.
