(* ===== verification/Tpkt.v ===== *)
(** * tsap: reading transport protocol data units (h/tpkt.h, fd2tpkt.c)

    A TPDU is read through the pointers [initfnx] and [readfnx] of a network:
    the class [TsIn], whose laws [TsReader] the string network of StrTpkt.v
    and the sockets of Tcp.v satisfy. The layouts of [tp_un] overlap in their
    first five octets, [t_un]; what CR and CC have beyond them is [crvar].
    The descriptor and the buffer that the pointers are called with are in
    the state of the network. *)

From S2P Require Import Prelude Conv Convert PStream Qbuf.
Open Scope Z_scope.
Open Scope c_scope.

Definition DR_UNKNOWN := 0.
Definition DR_CONGEST := 1.
Definition DR_PROTOCOL := 133.
Definition DR_LENGTH := 138.
Definition DR_NETWORK := 139.

Definition TPKT_VRSN := 3.
Definition TPDU_CR := 224.
Definition TPDU_CC := 208.
Definition TPDU_DR := 128.
Definition TPDU_DT := 240.
Definition TPDU_ED := 16.
Definition TPDU_ER := 112.
Definition TSSIZE := 64.
Definition NTPUV := 12.

Definition VDAT_TSAP_SRV := 194.
Definition VDAT_TSAP_CLI := 193.
Definition VDAT_SIZE := 192.
Definition VDAT_VRSN := 196.
Definition VDAT_SECURITY := 197.
Definition VDAT_CHECKSUM := 195.
Definition VDAT_OPTIONS := 198.
Definition VDAT_ALTERNATE := 199.
Definition VDAT_ACKTIME := 133.
Definition VDAT_THROUGHPUT := 137.
Definition VDAT_ERRORATE := 134.
Definition VDAT_PRIORITY := 135.
Definition VDAT_DELAY := 136.
Definition VDAT_TTR := 139.
Definition VDAT_ADDITIONAL := 224.
Definition VDAT_SUBSEQ := 140.
Definition VDAT_FLOWCTL := 139.
Definition VDAT_INVALID := 193.

(** [struct udvec], the end of a vector being the end of the list. *)
Record udvec : Type := UV { uv_base : list Z; uv_len : Z }.

(** The variable part of [un_cr]. *)
Record crvar : Type := CRV {
  t_called : list Z;
  t_calledlen : Z;
  t_calling : list Z;
  t_callinglen : Z;
  t_tpdusize : Z;
  t_options : Z;
  t_alternate : Z
}.

Record tsapkt : Type := TPKT {
  t_errno : Z;
  t_vrsn : Z;
  t_rsrvd : Z;
  t_length : Z;
  t_li : Z;
  t_code : Z;
  t_un : list Z;
  t_cr : crvar;
  t_vlen : Z;
  t_vdata : option (list Z);
  t_qbuf : option qseg;
  t_udvec : list udvec
}.

Definition set_t_errno (t : tsapkt) (e : Z) : tsapkt :=
  TPKT e (t_vrsn t) (t_rsrvd t) (t_length t) (t_li t) (t_code t) (t_un t) (t_cr t) (t_vlen t) (t_vdata t) (t_qbuf t) (t_udvec t).
Definition set_t_hdr (t : tsapkt) (vrsn rsrvd length li code : Z) : tsapkt :=
  TPKT (t_errno t) vrsn rsrvd length li code (t_un t) (t_cr t) (t_vlen t) (t_vdata t) (t_qbuf t) (t_udvec t).
Definition set_t_vrsn (t : tsapkt) (v : Z) : tsapkt := set_t_hdr t v (t_rsrvd t) (t_length t) (t_li t) (t_code t).
Definition set_t_length (t : tsapkt) (l : Z) : tsapkt := set_t_hdr t (t_vrsn t) (t_rsrvd t) l (t_li t) (t_code t).
Definition set_t_li (t : tsapkt) (li : Z) : tsapkt := set_t_hdr t (t_vrsn t) (t_rsrvd t) (t_length t) li (t_code t).
Definition set_t_un (t : tsapkt) (u : list Z) : tsapkt :=
  TPKT (t_errno t) (t_vrsn t) (t_rsrvd t) (t_length t) (t_li t) (t_code t) u (t_cr t) (t_vlen t) (t_vdata t) (t_qbuf t) (t_udvec t).
Definition set_t_cr (t : tsapkt) (c : crvar) : tsapkt :=
  TPKT (t_errno t) (t_vrsn t) (t_rsrvd t) (t_length t) (t_li t) (t_code t) (t_un t) c (t_vlen t) (t_vdata t) (t_qbuf t) (t_udvec t).
Definition set_t_var (t : tsapkt) (n : Z) (d : option (list Z)) : tsapkt :=
  TPKT (t_errno t) (t_vrsn t) (t_rsrvd t) (t_length t) (t_li t) (t_code t) (t_un t) (t_cr t) n d (t_qbuf t) (t_udvec t).
Definition set_t_qbuf (t : tsapkt) (q : option qseg) : tsapkt :=
  TPKT (t_errno t) (t_vrsn t) (t_rsrvd t) (t_length t) (t_li t) (t_code t) (t_un t) (t_cr t) (t_vlen t) (t_vdata t) q (t_udvec t).
Definition set_t_udvec (t : tsapkt) (l : list udvec) : tsapkt :=
  TPKT (t_errno t) (t_vrsn t) (t_rsrvd t) (t_length t) (t_li t) (t_code t) (t_un t) (t_cr t) (t_vlen t) (t_vdata t) (t_qbuf t) l.

Definition set_called (c : crvar) (d : list Z) (n : Z) : crvar :=
  CRV d n (t_calling c) (t_callinglen c) (t_tpdusize c) (t_options c) (t_alternate c).
Definition set_calling (c : crvar) (d : list Z) (n : Z) : crvar :=
  CRV (t_called c) (t_calledlen c) d n (t_tpdusize c) (t_options c) (t_alternate c).
Definition set_tpdusize (c : crvar) (n : Z) : crvar :=
  CRV (t_called c) (t_calledlen c) (t_calling c) (t_callinglen c) n (t_options c) (t_alternate c).
Definition set_options (c : crvar) (n : Z) : crvar :=
  CRV (t_called c) (t_calledlen c) (t_calling c) (t_callinglen c) (t_tpdusize c) n (t_alternate c).
Definition set_alternate (c : crvar) (n : Z) : crvar :=
  CRV (t_called c) (t_calledlen c) (t_calling c) (t_callinglen c) (t_tpdusize c) (t_options c) n.

Definition TPDU_CODE (t : tsapkt) : Z := Z.land (t_code t) 240.

(** [CR_CLASS]: [cr_class] is the fifth octet of the union. *)
Definition CR_CLASS (t : tsapkt) : Z := Z.land (nth 4 (t_un t) 0) 240.

Definition CR_SIZE := 5.
Definition DR_SIZE := 5.
Definition DT_SIZE := 1.
Definition ED_SIZE := 1.
Definition ER_SIZE := 3.

(** [TPDU_MINLEN (t, c)] for the size of the layout. *)
Definition TPDU_MINLEN (size : Z) : Z := size + 1.

(** The subtractions are of type [size_t]. *)
Definition TPDU_MAXLEN (t : tsapkt) : Z :=
  let n := cast SIZE (t_length t - 4 - 1) in if 254 <? n then 254 else n.

(** The packet [calloc] returns, and [newtpkt]. *)
Definition new_packet : tsapkt :=
  TPKT 0 0 0 0 0 0 (repeat 0 5) (CRV (repeat 0 64) 0 (repeat 0 64) 0 0 0 0) 0 None None [].

(** [sizeof_tpkt] is the size of a packet. *)
Definition newtpkt `{Allocator} (sizeof_tpkt code : Z) : option tsapkt :=
  if malloc_ok sizeof_tpkt then
    match int2u8 code with
    | Some u => Some (set_t_hdr new_packet TPKT_VRSN 0 0 0 u)
    | None => None
    end
  else None.

(** ** The network *)

(** [initfnx] reads the packet header, the length and the code; [readfnx]
    returns the count it read and the octets. *)
Class TsIn (N : Type) := {
  initfnx : N -> tsapkt -> cres (Z * tsapkt * N);
  readfnx : N -> Z -> cres (Z * list Z * N)
}.

(** ** set_varlen *)

Definition set_varlen (t : tsapkt) (minlen : Z) : option tsapkt :=
  match u8_minus_sizet (t_li t) minlen with
  | Some n => Some (set_t_var t n (t_vdata t))
  | None => None
  end.

(** ** fd2tpkt *)

Section Read.
Context {N : Type} `{TsIn N} `{Allocator}.

(** [bp] counts the octets read of [n], which are [got]. *)
Fixpoint readx_loop (fuel : nat) (s : N) (bp i : Z) (got : list Z) : cres (Z * list Z * N) :=
  if i >? 0 then
    match fuel with
    | O => UB
    | S fuel' =>
        ' (cc, d, s) <- readfnx s i;;
        if cc =? NOTOK then
          match ptrdiff2int bp with
          | None => Val (NOTOK, got, s)
          | Some n => Val (if n =? 0 then NOTOK else n, got, s)
          end
        else if cc =? OK then
          Val (match ptrdiff2int bp with Some n => n | None => NOTOK end, got, s)
        else readx_loop fuel' s (bp + cc) (i - cc) (got ++ d)
    end
  else Val (match ptrdiff2int bp with Some n => n | None => NOTOK end, got, s).

Definition readx (s : N) (n : Z) : cres (Z * list Z * N) := readx_loop (Z.to_nat n) s 0 n [].

(** The fixed and the variable part of a TPDU, read into the packet: what
    the five cases of the [switch] start with. *)
Definition read_parts (t : tsapkt) (size : Z) (s : N) : cres (Z * tsapkt * N) :=
  if t_li t <? TPDU_MINLEN size then Val (DR_LENGTH, t, s)
  else
    ' (n, d, s) <- readx s size;;
    un <- wr (t_un t) 0 d;;
    let t := set_t_un t un in
    if negb (n =? size) then Val (DR_NETWORK, t, s)
    else
      match set_varlen t (TPDU_MINLEN size) with
      | None => Val (DR_LENGTH, t, s)
      | Some t =>
          if t_vlen t =? 0 then Val (OK, t, s)
          else if malloc_ok (u32 (t_vlen t)) then
            ' (n, d, s) <- readx s (t_vlen t);;
            let t := set_t_var t (t_vlen t) (Some d) in
            Val (if n =? t_vlen t then OK else DR_NETWORK, t, s)
          else Val (DR_CONGEST, set_t_var t (t_vlen t) None, s)
      end.
End Read.

(** The parameters, [vlen] octets of them at [vptr]; [opt] is the [switch]
    on the code of one whose value is the [len] octets at [vptr]. Each takes
    two octets at least, which bounds the loop. *)
Fixpoint vdat_loop (opt : tsapkt -> Z -> list Z -> Z -> Z -> cres (Z * tsapkt))
  (fuel : nat) (b : list Z) (vptr vlen : Z) (t : tsapkt) : cres (Z * tsapkt) :=
  if vlen >? 0 then
    match fuel with
    | O => UB
    | S fuel' =>
        if vlen <? 2 then Val (DR_LENGTH, t)
        else
          code <- rd b vptr;;
          len <- rd b (vptr + 1);;
          if vlen - 2 <? len then Val (DR_LENGTH, t)
          else
            ' (rc, t) <- opt t code b (vptr + 2) len;;
            if rc =? OK then vdat_loop opt fuel' b (vptr + 2 + len) (vlen - 2 - len) t
            else Val (rc, t)
    end
  else Val (OK, t).

(** [t_alternate |= 1 << ((x >> 4) & 0x0f)] for the octets of the list. *)
Definition add_alternates (a : Z) (l : list Z) : Z :=
  fold_left (fun a x => u8 (Z.lor a (Z.shiftl 1 (Z.land (Z.shiftr x 4) 15)))) l a.

(** The parameters of CR and CC. *)
Definition cr_option (t : tsapkt) (code : Z) (b : list Z) (vptr len : Z) : cres (Z * tsapkt) :=
  let c := t_cr t in
  let ilen := if len >? TSSIZE then TSSIZE else len in
  if code =? VDAT_TSAP_SRV then
    d <- bcopy_int (Some (zdrop vptr b)) ilen;;
    match d with
    | None => Val (DR_LENGTH, t)
    | Some d => a <- wr (t_called c) 0 d;; Val (OK, set_t_cr t (set_called c a ilen))
    end
  else if code =? VDAT_TSAP_CLI then
    d <- bcopy_int (Some (zdrop vptr b)) ilen;;
    match d with
    | None => Val (DR_LENGTH, t)
    | Some d => a <- wr (t_calling c) 0 d;; Val (OK, set_t_cr t (set_calling c a ilen))
    end
  else if code =? VDAT_SIZE then
    if negb (len =? 1) then Val (DR_LENGTH, t)
    else x <- rd b vptr;; Val (OK, set_t_cr t (set_tpdusize c x))
  else if code =? VDAT_OPTIONS then
    if negb (len =? 1) then Val (DR_LENGTH, t)
    else x <- rd b vptr;; Val (OK, set_t_cr t (set_options c (Z.land x 255)))
  else if code =? VDAT_ALTERNATE then
    l <- rdn b vptr len;; Val (OK, set_t_cr t (set_alternate c (add_alternates (t_alternate c) l)))
  else if existsb (Z.eqb code) [VDAT_VRSN; VDAT_SECURITY; VDAT_CHECKSUM; VDAT_ACKTIME; VDAT_THROUGHPUT;
                                VDAT_ERRORATE; VDAT_PRIORITY; VDAT_DELAY; VDAT_TTR] then Val (OK, t)
  else Val (if TPDU_CODE t =? TPDU_CR then OK else DR_PROTOCOL, t).

Definition dr_option (t : tsapkt) (code : Z) (b : list Z) (vptr len : Z) : cres (Z * tsapkt) :=
  Val (if existsb (Z.eqb code) [VDAT_ADDITIONAL; VDAT_CHECKSUM] then OK else DR_PROTOCOL, t).

Definition dt_option (t : tsapkt) (code : Z) (b : list Z) (vptr len : Z) : cres (Z * tsapkt) :=
  Val (if existsb (Z.eqb code) [VDAT_CHECKSUM] then OK else DR_PROTOCOL, t).

Definition ed_option (t : tsapkt) (code : Z) (b : list Z) (vptr len : Z) : cres (Z * tsapkt) :=
  Val (if existsb (Z.eqb code) [VDAT_CHECKSUM; VDAT_SUBSEQ; VDAT_FLOWCTL] then OK else DR_PROTOCOL, t).

Definition er_option (t : tsapkt) (code : Z) (b : list Z) (vptr len : Z) : cres (Z * tsapkt) :=
  Val (if existsb (Z.eqb code) [VDAT_INVALID; VDAT_CHECKSUM] then OK else DR_PROTOCOL, t).

(** The [switch] on [TPDU_CODE]: the size of the fixed part and the
    parameters. *)
Definition tpdu_layout (code : Z) : option (Z * (tsapkt -> Z -> list Z -> Z -> Z -> cres (Z * tsapkt))) :=
  if (code =? TPDU_CR) || (code =? TPDU_CC) then Some (CR_SIZE, cr_option)
  else if code =? TPDU_DR then Some (DR_SIZE, dr_option)
  else if code =? TPDU_DT then Some (DT_SIZE, dt_option)
  else if code =? TPDU_ED then Some (ED_SIZE, ed_option)
  else if code =? TPDU_ER then Some (ER_SIZE, er_option)
  else None.

Section Read2.
(** [sizeof_qb] is the size of a [struct qbuf]. *)
Context {N : Type} `{TsIn N} `{Allocator} (sizeof_tpkt sizeof_qb : Z).

(** The user data after the header. *)
Definition read_data (t : tsapkt) (s : N) : cres (Z * tsapkt * N) :=
  let hdr := 4 + 1 + t_li t in
  match (if t_length t <=? hdr then Some 0 else sizet2int (cast SIZE (t_length t - hdr))) with
  | None => Val (DR_LENGTH, t, s)
  | Some len =>
      if len =? 0 then Val (OK, t, s)
      else if malloc_ok (cast SIZE (sizeof_qb + u32 len)) then
        ' (n, d, s) <- readx s len;;
        Val (if n =? len then OK else DR_NETWORK, set_t_qbuf t (Some (QSeg d len)), s)
      else Val (DR_CONGEST, set_t_qbuf t None, s)
  end.

(** [fd2tpktaux] after [initfnx]. *)
Definition read_tpdu (t : tsapkt) (s : N) : cres (Z * tsapkt * N) :=
  if t_li t >? TPDU_MAXLEN t then Val (DR_LENGTH, t, s)
  else
    match tpdu_layout (TPDU_CODE t) with
    | None => Val (DR_PROTOCOL, t, s)
    | Some (size, opt) =>
        ' (rc, t, s) <- read_parts t size s;;
        if negb (rc =? OK) then Val (rc, t, s)
        else
          ' (rc, t) <- (if t_vlen t =? 0 then Val (OK, t)
                        else match t_vdata t with
                             | Some b => vdat_loop opt (Z.to_nat (t_vlen t)) b 0 (t_vlen t) t
                             | None => UB
                             end);;
          if negb (rc =? OK) then Val (rc, t, s) else read_data t s
    end.

Definition fd2tpktaux (s : N) (t : tsapkt) : cres (Z * tsapkt * N) :=
  ' (code, t, s) <- initfnx s t;;
  if negb (code =? OK) then Val (code, t, s) else read_tpdu t s.

Definition fd2tpkt (s : N) : cres (option tsapkt * N) :=
  match newtpkt sizeof_tpkt 0 with
  | None => Val (None, s)
  | Some t =>
      ' (rc, t, s) <- fd2tpktaux s t;;
      let t := set_t_errno t rc in
      if rc =? OK then Val (Some t, s)
      else
        let t := match t_vdata t with Some _ => set_t_var t 0 None | None => t end in
        Val (Some (set_t_qbuf t None), s)
  end.
End Read2.

(** * TPDUs as values *)

(** The code with its low bits, the fixed part, the parameters and the user
    data. *)
Record tpdu : Type := Tpdu {
  p_code : Z;
  p_fixed : list Z;
  p_params : list (Z * list Z);
  p_data : list Z
}.

Definition enc_param (p : Z * list Z) : list Z := fst p :: zlen (snd p) :: snd p.

Definition enc_params (ps : list (Z * list Z)) : list Z := concat (map enc_param ps).

(** The length indicator counts the header after itself. *)
Definition tpdu_li (p : tpdu) : Z := 1 + zlen (p_fixed p) + zlen (enc_params (p_params p)).

Definition enc_tpdu (p : tpdu) : list Z :=
  tpdu_li p :: p_code p :: p_fixed p ++ enc_params (p_params p) ++ p_data p.

(** The size of the fixed part of each of the TPDUs of class 0. *)
Definition tpdu_size (code : Z) : option Z :=
  if (code =? TPDU_CR) || (code =? TPDU_CC) then Some 5
  else if code =? TPDU_DR then Some 5
  else if code =? TPDU_DT then Some 1
  else if code =? TPDU_ED then Some 1
  else if code =? TPDU_ER then Some 3
  else None.

(** The parameters each TPDU may have: an unknown one is ignored in CR only. *)
Definition param_okb (code : Z) (p : Z * list Z) : bool :=
  let c := fst p in
  let among l := existsb (Z.eqb c) l in
  if (code =? TPDU_CR) || (code =? TPDU_CC) then
    if among [VDAT_SIZE; VDAT_OPTIONS] then zlen (snd p) =? 1
    else (code =? TPDU_CR) ||
         among [VDAT_TSAP_SRV; VDAT_TSAP_CLI; VDAT_ALTERNATE; VDAT_VRSN; VDAT_SECURITY; VDAT_CHECKSUM;
                VDAT_ACKTIME; VDAT_THROUGHPUT; VDAT_ERRORATE; VDAT_PRIORITY; VDAT_DELAY; VDAT_TTR]
  else if code =? TPDU_DR then among [VDAT_ADDITIONAL; VDAT_CHECKSUM]
  else if code =? TPDU_DT then among [VDAT_CHECKSUM]
  else if code =? TPDU_ED then among [VDAT_CHECKSUM; VDAT_SUBSEQ; VDAT_FLOWCTL]
  else among [VDAT_INVALID; VDAT_CHECKSUM].

Definition param_ok (code : Z) (p : Z * list Z) : Prop :=
  is_byte (fst p) /\ bytes (snd p) /\ zlen (snd p) < 256 /\ param_okb code p = true.

Definition tpdu_ok (p : tpdu) : Prop :=
  is_byte (p_code p) /\ tpdu_size (Z.land (p_code p) 240) = Some (zlen (p_fixed p)) /\
  bytes (p_fixed p) /\ Forall (param_ok (Z.land (p_code p) 240)) (p_params p) /\ bytes (p_data p) /\
  tpdu_li p <= 254.

(** What a parameter sets: a selector is cut at [TSSIZE] octets. *)
Definition cr_param (c : crvar) (p : Z * list Z) : crvar :=
  let '(code, v) := p in
  let w := ztake TSSIZE v in
  if code =? VDAT_TSAP_SRV then set_called c (w ++ zdrop (zlen w) (t_called c)) (zlen w)
  else if code =? VDAT_TSAP_CLI then set_calling c (w ++ zdrop (zlen w) (t_calling c)) (zlen w)
  else if code =? VDAT_SIZE then set_tpdusize c (hd 0 v)
  else if code =? VDAT_OPTIONS then set_options c (hd 0 v)
  else if code =? VDAT_ALTERNATE then set_alternate c (add_alternates (t_alternate c) v)
  else c.

Definition param_set (code : Z) (c : crvar) (p : Z * list Z) : crvar :=
  if (code =? TPDU_CR) || (code =? TPDU_CC) then cr_param c p else c.

(** The packet for a TPDU that came in a TPKT whose reserved octet is [r]. *)
Definition packet_of (r : Z) (p : tpdu) : tsapkt :=
  TPKT OK TPKT_VRSN r (4 + zlen (enc_tpdu p)) (tpdu_li p) (p_code p)
    (p_fixed p ++ repeat 0 (5 - length (p_fixed p)))
    (fold_left (param_set (Z.land (p_code p) 240)) (p_params p) (t_cr new_packet))
    (zlen (enc_params (p_params p)))
    (match p_params p with [] => None | ps => Some (enc_params ps) end)
    (match p_data p with [] => None | d => Some (QSeg d (zlen d)) end) [].

(** ** What a network promises to the reader

    [net_input] is what [readfnx] has yet to deliver, up to the end or the
    first error; [net_frames s r len x]: the network has a packet header of
    reserved octet [r] and length [len] in front of the octets [x]. *)
Class TsReader (N : Type) `{TsIn N} := {
  net_ok : N -> Prop;
  net_input : N -> list Z;
  net_frames : N -> Z -> Z -> list Z -> Prop;
  init_sound : forall s t, net_ok s -> t_rsrvd t = 0 -> exists rc t' s', initfnx s t = Val (rc, t', s') /\ net_ok s' /\
    (rc = OK -> exists r len li code, t' = set_t_hdr t TPKT_VRSN r len li code /\ 6 <= len < 65536 /\
       net_frames s r len (li :: code :: net_input s'));
  init_complete : forall s t r len li code x, net_ok s -> t_rsrvd t = 0 -> 6 <= len < 65536 ->
    net_frames s r len (li :: code :: x) ->
    exists s', initfnx s t = Val (OK, set_t_hdr t TPKT_VRSN r len li code, s') /\ net_ok s' /\ net_input s' = x;
  frames_bytes : forall s r len x, net_ok s -> net_frames s r len x -> bytes x;
  read_law : forall s n, 0 < n <= INT_MAX -> net_ok s -> exists cc s',
    readfnx s n = Val (cc, ztake cc (net_input s), s') /\ net_ok s' /\ (0 <= cc <= n \/ cc = NOTOK) /\
    cc <= zlen (net_input s) /\ (cc <= 0 -> net_input s = []) /\ net_input s' = zdrop cc (net_input s)
}.

(** * The reader *)

Section Reader.
Context {N : Type} `{TsReader N}.

Lemma readx_loop_spec fuel : forall s bp i got, (Z.to_nat i <= fuel)%nat -> 0 <= i -> 0 <= bp -> bp + i <= INT_MAX -> net_ok s ->
  exists rc s', readx_loop fuel s bp i got = Val (rc, got ++ ztake i (net_input s), s') /\ net_ok s' /\
    net_input s' = zdrop i (net_input s) /\ (rc = bp + i <-> i <= zlen (net_input s)).
Proof.
  induction fuel as [|fuel IH]; intros s bp i got F I B M G; cbn [readx_loop]; rewrite Z.gtb_ltb;
    destruct (Z.ltb_spec 0 i) as [L|L]; try lia.
  1,3: assert (i = 0) as -> by lia; rewrite ptrdiff2int_Some, ztake_0, zdrop_0, app_nil_r by (unfold is_int, INT_MIN; lia);
       do 2 eexists; split; [reflexivity|]; pose proof (zlen_nonneg (net_input s)); repeat split; auto; lia.
  destruct (read_law s i ltac:(lia) G) as (cc & s' & -> & G' & R & C & E & I'); cbn [cbind].
  destruct (Z.eqb_spec cc NOTOK) as [->|]; [|destruct (Z.eqb_spec cc OK) as [->|]].
  1,2: assert (E0 : net_input s = []) by (apply E; unfold NOTOK, OK; lia);
       rewrite ptrdiff2int_Some by (unfold is_int, INT_MIN; lia); do 2 eexists; split;
       [rewrite E0, (ztake_all i []), app_nil_r by (rewrite zlen_nil; lia); reflexivity|];
       assert (I0 : net_input s' = []) by (rewrite I', E0; reflexivity);
       rewrite I0, E0, (zdrop_all i []) by (rewrite zlen_nil; lia); change (zlen (@nil Z)) with 0;
       repeat split; auto; try destruct (Z.eqb_spec bp 0); unfold NOTOK; lia.
  unfold NOTOK, OK in *; assert (0 < cc <= i) by lia.
  destruct (IH s' (bp + cc) (i - cc) (got ++ ztake cc (net_input s))) as (rc & s2 & -> & G2 & I2 & X); try lia; auto.
  exists rc, s2; rewrite I2, I', <- app_assoc in *; split; [|split; [exact G2|]].
  - do 3 f_equal; f_equal; rewrite PStream.ztake_ztake_app by lia; f_equal; lia.
  - split; [rewrite zdrop_zdrop by lia; f_equal; lia|]; rewrite zlen_zdrop in X by lia; lia.
Qed.

Lemma readx_spec s n : 0 <= n <= INT_MAX -> net_ok s ->
  exists rc s', readx s n = Val (rc, ztake n (net_input s), s') /\ net_ok s' /\
    net_input s' = zdrop n (net_input s) /\ (rc = n <-> n <= zlen (net_input s)).
Proof. intros; unfold readx; destruct (readx_loop_spec (Z.to_nat n) s 0 n []) as (rc & s' & E); try lia; eauto. Qed.

(** The packet after its fixed part [f] and its variable part [v] were read. *)
Definition with_parts (t : tsapkt) (f v : list Z) : tsapkt :=
  set_t_var (set_t_un t (f ++ zdrop (zlen f) (t_un t))) (zlen v)
    (match v with [] => t_vdata t | _ => Some v end).

Lemma set_varlen_Some t size : 0 <= size -> size + 1 <= t_li t < 256 ->
  set_varlen t (size + 1) = Some (set_t_var t (t_li t - (size + 1)) (t_vdata t)).
Proof.
  intros S L; unfold set_varlen, u8_minus_sizet, sizet2int, cast; simpl ct_width; simpl ct_signed; cbn match.
  rewrite !Z.mod_small by (change (2 ^ 64) with 18446744073709551616; lia).
  destruct (Z.ltb_spec (t_li t) (size + 1)); [lia|]; rewrite Z.gtb_ltb.
  destruct (Z.ltb_spec INT_MAX (t_li t - (size + 1))); [unfold INT_MAX in *; lia | reflexivity].
Qed.

Lemma read_parts_spec `{Allocator} t size s : memory_ok -> net_ok s -> 0 <= size <= 5 -> zlen (t_un t) = 5 -> is_byte (t_li t) ->
  let x := net_input s in
  exists rc t' s', read_parts t size s = Val (rc, t', s') /\ net_ok s' /\
    (rc = OK -> size + 1 <= t_li t /\ t_li t - 1 <= zlen x /\
       t' = with_parts t (ztake size x) (ztake (t_li t - 1 - size) (zdrop size x)) /\ net_input s' = zdrop (t_li t - 1) x) /\
    (size + 1 <= t_li t -> t_li t - 1 <= zlen x -> rc = OK) /\ t_qbuf t' = t_qbuf t.
Proof.
  intros Mem G S U Li x; unfold read_parts, is_byte in *.
  destruct (Z.ltb_spec (t_li t) (TPDU_MINLEN size)) as [|Lo]; unfold TPDU_MINLEN in *.
  { do 3 eexists; split; [reflexivity|]; repeat split; auto; try discriminate; lia. }
  destruct (readx_spec s size) as (n & s1 & -> & G1 & I1 & X1); [unfold INT_MAX; lia | exact G|]; cbn [cbind]; fold x in I1, X1.
  assert (Lt : zlen (ztake size (net_input s)) <= size)
    by (unfold zlen, ztake; rewrite length_firstn; lia).
  rewrite wr_in by lia; rewrite ztake_0, app_nil_l, Z.add_0_l by lia; cbn [cbind]; fold x in Lt |- *.
  destruct (Z.eqb_spec n size) as [E|E]; cbn [negb].
  2: do 3 eexists; split; [reflexivity|]; repeat split; auto; try discriminate; lia.
  apply X1 in E; rewrite set_varlen_Some by (cbn [t_li set_t_un]; lia); cbn [t_vlen set_t_var].
  change (t_li (set_t_un t _)) with (t_li t); set (m := t_li t - (size + 1)).
  assert (Em : t_li t - 1 - size = m) by lia; rewrite Em.
  destruct (Z.eqb_spec m 0) as [M|M].
  - do 3 eexists; split; [reflexivity|]; split; [exact G1|]; split; [|auto]; intros _; split; [lia|]; split; [lia|]; split.
    + unfold with_parts; rewrite M, (ztake_0 0) by lia; change (zlen (@nil Z)) with 0; reflexivity.
    + rewrite I1; f_equal; lia.
  - rewrite Mem; destruct (readx_spec s1 m) as (k & s2 & -> & G2 & I2 & X2); [unfold INT_MAX; lia | exact G1|]; cbn [cbind].
    rewrite I1 in *; pose proof (zlen_zdrop size x ltac:(lia)) as Z1.
    do 3 eexists; split; [reflexivity|]; split; [exact G2|].
    destruct (Z.eqb_spec k m) as [K|K]; [|split; [discriminate|]; split; [lia | reflexivity]].
    split; [intros _|split; reflexivity]; apply X2 in K; split; [lia|]; split; [lia|]; split.
    + unfold with_parts; rewrite (zlen_ztake m) by lia.
      pose proof (zlen_ztake m (zdrop size x) ltac:(lia)) as Z2.
      destruct (ztake m (zdrop size x)) eqn:Q; [rewrite zlen_nil in Z2; lia|]; reflexivity.
    + rewrite I2, zdrop_zdrop by lia; f_equal; lia.
Qed.
End Reader.

(** ** The parameters *)

Definition cr_ok (c : crvar) : Prop := zlen (t_called c) = TSSIZE /\ zlen (t_calling c) = TSSIZE.

(** What the [switch] of a TPDU does with a parameter. *)
Definition option_law (code : Z) (opt : tsapkt -> Z -> list Z -> Z -> Z -> cres (Z * tsapkt)) : Prop :=
  forall t b vptr c v w, TPDU_CODE t = code -> cr_ok (t_cr t) -> 0 <= vptr <= zlen b -> zdrop vptr b = v ++ w -> bytes v ->
  exists rc, opt t c b vptr (zlen v) =
      Val (rc, if param_okb code (c, v) then set_t_cr t (param_set code (t_cr t) (c, v)) else t) /\
    (rc = OK <-> param_okb code (c, v) = true).

Lemma set_t_cr_same t : set_t_cr t (t_cr t) = t.
Proof. destruct t; reflexivity. Qed.

Lemma rdn_value b vptr v w n : 0 <= vptr <= zlen b -> zdrop vptr b = v ++ w -> 0 <= n <= zlen v ->
  rdn b vptr n = Val (ztake n v).
Proof.
  intros P E L; assert (Q : zlen v + zlen w = zlen b - vptr) by (rewrite <- zlen_app, <- E; apply zlen_zdrop; lia).
  pose proof (zlen_nonneg w); rewrite rdn_in, E, ztake_app_l by lia; reflexivity.
Qed.

Lemma rd_value b vptr a v w : 0 <= vptr <= zlen b -> zdrop vptr b = (a :: v) ++ w -> rd b vptr = Val a.
Proof.
  intros P E; assert (Q : zlen (a :: v) + zlen w = zlen b - vptr) by (rewrite <- zlen_app, <- E; apply zlen_zdrop; lia).
  rewrite zlen_cons in Q; pose proof (zlen_nonneg v); pose proof (zlen_nonneg w).
  rewrite <- (ztake_zdrop vptr b), rd_app_r, zlen_ztake, Z.sub_diag, E by (rewrite ?zlen_ztake; lia); apply rd_cons0.
Qed.

(** A selector is copied to the front of its array. *)
Lemma copy_selector a b vptr v w : zlen a = TSSIZE -> 0 <= vptr <= zlen b -> zdrop vptr b = v ++ w ->
  let ilen := if zlen v >? TSSIZE then TSSIZE else zlen v in
  bcopy_int (Some (zdrop vptr b)) ilen = Val (Some (ztake TSSIZE v)) /\ zlen (ztake TSSIZE v) = ilen /\
  wr a 0 (ztake TSSIZE v) = Val (ztake TSSIZE v ++ zdrop (zlen (ztake TSSIZE v)) a).
Proof.
  intros A P E ilen; pose proof (zlen_nonneg v); unfold TSSIZE in *.
  assert (L : zlen (ztake 64 v) = ilen /\ 0 <= ilen <= 64 /\ ilen <= zlen v).
  { subst ilen; rewrite Z.gtb_ltb; destruct (Z.ltb_spec 64 (zlen v)).
    - rewrite zlen_ztake by lia; lia.
    - rewrite ztake_all by lia; lia. }
  split; [|split; [apply L|]].
  - unfold bcopy_int, rdn_ptr; rewrite int2sizet_Some by lia; unfold cmap.
    rewrite (rdn_value _ 0 v w) by (rewrite ?zdrop_0 by lia; rewrite ?E, ?zlen_app; pose proof (zlen_nonneg w); first [lia | reflexivity]).
    cbn [cbind]; do 2 f_equal; subst ilen; rewrite Z.gtb_ltb; destruct (Z.ltb_spec 64 (zlen v)); [reflexivity|].
    rewrite !ztake_all by lia; reflexivity.
  - rewrite wr_in by lia; rewrite ztake_0 by lia; reflexivity.
Qed.

Lemma zlen_1 {A} (l : list A) : zlen l = 1 -> exists a, l = [a].
Proof.
  destruct l as [|a [|b l]]; [discriminate | eexists; reflexivity|].
  rewrite !zlen_cons; pose proof (zlen_nonneg l); lia.
Qed.

(** The case of a parameter that holds one octet. *)
Lemma octet_option t (f : Z -> tsapkt) b vptr v w : 0 <= vptr <= zlen b -> zdrop vptr b = v ++ w ->
  exists rc, (if negb (zlen v =? 1) then Val (DR_LENGTH, t) else x <- rd b vptr;; Val (OK, f x)) =
    Val (rc, if zlen v =? 1 then f (hd 0 v) else t) /\ (rc = OK <-> (zlen v =? 1) = true).
Proof.
  intros P E; destruct (Z.eqb_spec (zlen v) 1) as [L|L]; cbn [negb].
  - apply zlen_1 in L as (a & ->); rewrite (rd_value b vptr a [] w P E); eexists; repeat split.
  - eexists; repeat split; discriminate.
Qed.

Lemma existsb_skip c a l : c <> a -> existsb (Z.eqb c) (a :: l) = existsb (Z.eqb c) l.
Proof. intros D; cbn [existsb]; rewrite (proj2 (Z.eqb_neq c a) D); reflexivity. Qed.

Lemma cr_option_law code : code = TPDU_CR \/ code = TPDU_CC -> option_law code cr_option.
Proof.
  intros C t b vptr c v w K [A1 A2] P E B; unfold param_okb, param_set, cr_option, cr_param; cbn [fst snd].
  assert (((code =? TPDU_CR) || (code =? TPDU_CC)) = true) as -> by (destruct C as [-> | ->]; reflexivity).
  destruct (copy_selector _ b vptr v w A1 P E) as (B1 & L1 & W1).
  destruct (copy_selector _ b vptr v w A2 P E) as (B2 & L2 & W2); cbv zeta in *; rewrite K.
  assert (X : forall a, (a || true)%bool = true) by (intros []; reflexivity).
  destruct (Z.eqb_spec c VDAT_TSAP_SRV) as [->|]; [|destruct (Z.eqb_spec c VDAT_TSAP_CLI) as [->|]].
  - rewrite B1; cbn [cbind]; rewrite W1, L1; simpl existsb; rewrite X; eexists; repeat split.
  - rewrite B2; cbn [cbind]; rewrite W2, L2; simpl existsb; rewrite X; eexists; repeat split.
  - destruct (Z.eqb_spec c VDAT_SIZE) as [->|]; [|destruct (Z.eqb_spec c VDAT_OPTIONS) as [->|]].
    + apply (octet_option t (fun x => set_t_cr t (set_tpdusize (t_cr t) x)) b vptr v w P E).
    + destruct (octet_option t (fun x => set_t_cr t (set_options (t_cr t) (Z.land x 255))) b vptr v w P E) as (rc & Q & R).
      exists rc; rewrite Q; split; [|exact R]; simpl existsb; destruct (Z.eqb_spec (zlen v) 1) as [L|]; [|reflexivity].
      apply zlen_1 in L as (a & ->); apply bytes_cons in B as (Ba & _); unfold is_byte in Ba.
      cbn [hd]; rewrite land_ff, Z.mod_small by exact Ba; reflexivity.
    + rewrite (existsb_skip c VDAT_SIZE), (existsb_skip c VDAT_OPTIONS) by assumption; cbn [existsb].
      destruct (Z.eqb_spec c VDAT_ALTERNATE) as [->|].
      * rewrite (rdn_value b vptr v w) by (pose proof (zlen_nonneg v); first [lia | assumption]).
        rewrite ztake_all by lia; simpl existsb; rewrite X; eexists; repeat split.
      * rewrite !(proj2 (Z.eqb_neq c VDAT_TSAP_SRV)), !(proj2 (Z.eqb_neq c VDAT_TSAP_CLI)) by assumption; cbn [orb].
        set (known := ((c =? VDAT_VRSN) || _)%bool); rewrite set_t_cr_same.
        destruct known, (code =? TPDU_CR); eexists; repeat split; discriminate.
Qed.

(** The layouts are those of the reference, and none but CR and CC sets anything. *)
Lemma layout_law code : match tpdu_layout code with
  | Some (size, opt) => tpdu_size code = Some size /\ 0 <= size <= 5 /\ option_law code opt
  | None => tpdu_size code = None
  end.
Proof.
  unfold tpdu_layout, tpdu_size; destruct ((code =? TPDU_CR) || (code =? TPDU_CC))%bool eqn:C.
  { split; [reflexivity|]; split; [cbv; split; discriminate|]; apply cr_option_law.
    apply orb_true_iff in C; rewrite !Z.eqb_eq in C; exact C. }
  assert (L : forall opt l, (forall t c b vptr len, opt t c b vptr len = Val (if existsb (Z.eqb c) l then OK else DR_PROTOCOL, t)) ->
            (forall c v, param_okb code (c, v) = existsb (Z.eqb c) l) -> option_law code opt).
  { intros opt l O K t b vptr c v w _ _ _ _ _; rewrite O, K; unfold param_set; rewrite C, set_t_cr_same.
    destruct (existsb _ l); eexists; repeat split; discriminate. }
  destruct (Z.eqb_spec code TPDU_DR) as [->|]; [|destruct (Z.eqb_spec code TPDU_DT) as [->|];
    [|destruct (Z.eqb_spec code TPDU_ED) as [->|]; [|destruct (Z.eqb_spec code TPDU_ER) as [->|]]]]; try reflexivity;
    (split; [reflexivity|]; split; [cbv; split; discriminate|]; eapply L; reflexivity).
Qed.

Lemma param_set_ok code c p : cr_ok c -> cr_ok (param_set code c p).
Proof.
  intros [A B]; unfold param_set, cr_param; destruct p as [k v]; destruct (_ || _)%bool; [|split; assumption].
  assert (L : 0 <= zlen (ztake TSSIZE v) <= TSSIZE).
  { pose proof (zlen_nonneg (ztake TSSIZE v)); unfold zlen, ztake in *; rewrite length_firstn in *; unfold TSSIZE in *; lia. }
  repeat (destruct (_ =? _); [split; cbn [t_called t_calling set_called set_calling set_tpdusize set_options set_alternate];
    rewrite ?zlen_app, ?zlen_zdrop by lia; lia|]); split; assumption.
Qed.

Lemma enc_params_cons c v ps : enc_params ((c, v) :: ps) = c :: zlen v :: v ++ enc_params ps.
Proof. reflexivity. Qed.

Section Parameters.
Context (code : Z) (opt : tsapkt -> Z -> list Z -> Z -> Z -> cres (Z * tsapkt)) (Law : option_law code opt).

(** The packet whose parameters [ps] were taken. *)
Definition with_params (t : tsapkt) (ps : list (Z * list Z)) : tsapkt :=
  set_t_cr t (fold_left (param_set code) ps (t_cr t)).

(** What the loop may answer for the octets [v] of the parameters. *)
Definition params_result (t : tsapkt) (v : list Z) (rc : Z) (t' : tsapkt) : Prop :=
  (rc = OK /\ exists ps, v = enc_params ps /\ Forall (param_ok code) ps /\ t' = with_params t ps) \/
  (rc <> OK /\ (exists c, t' = set_t_cr t c) /\ forall ps, v = enc_params ps -> ~ Forall (param_ok code) ps).

Lemma short_params c : forall ps, [c] <> enc_params ps.
Proof. intros [|[k v] ps]; [discriminate | rewrite enc_params_cons; discriminate]. Qed.

(** A first parameter that runs past the end, or is not allowed. *)
Lemma bad_first t v rc t' c n r : v = c :: n :: r -> rc <> OK -> (exists k, t' = set_t_cr t k) ->
  (forall x, r = x ++ zdrop n r -> n = zlen x -> param_okb code (c, x) = false) -> params_result t v rc t'.
Proof.
  intros -> R T X; right; split; [exact R|]; split; [exact T|].
  intros [|[k x] ps] E F; [discriminate|]; rewrite enc_params_cons in E; injection E as <- -> ->.
  apply Forall_inv in F as (_ & _ & _ & O); cbn [fst snd] in O.
  rewrite X in O; [discriminate | rewrite zdrop_app_exact; reflexivity | reflexivity].
Qed.

Lemma vdat_loop_spec fuel : forall b vptr t v, (length v <= fuel)%nat -> 0 <= vptr <= zlen b -> zdrop vptr b = v -> bytes v ->
  TPDU_CODE t = code -> cr_ok (t_cr t) ->
  exists rc t', vdat_loop opt fuel b vptr (zlen v) t = Val (rc, t') /\ params_result t v rc t'.
Proof.
  induction fuel as [|fuel IH]; intros b vptr t v L P E B K C; cbn [vdat_loop]; rewrite Z.gtb_ltb.
  - destruct v; [|simpl in L; lia]; do 2 eexists; split; [reflexivity|]; left; split; [reflexivity|].
    exists []; split; [reflexivity|]; split; [constructor | symmetry; apply set_t_cr_same].
  - destruct v as [|c [|n r]].
    { do 2 eexists; split; [reflexivity|]; left; split; [reflexivity|].
      exists []; split; [reflexivity|]; split; [constructor | symmetry; apply set_t_cr_same]. }
    { do 2 eexists; split; [reflexivity|]; right; split; [discriminate|].
      split; [exists (t_cr t); symmetry; apply set_t_cr_same|]; intros ps F; destruct (short_params c ps F). }
    rewrite !zlen_cons; pose proof (zlen_nonneg r); apply bytes_cons in B as (Bc & B); apply bytes_cons in B as (Bn & B).
    destruct (Z.ltb_spec 0 (1 + (1 + zlen r))); [|lia]; destruct (Z.ltb_spec (1 + (1 + zlen r)) 2); [lia|].
    assert (Lb : zlen b = vptr + 2 + zlen r).
    { assert (Q := f_equal zlen E); rewrite zlen_zdrop, !zlen_cons in Q by lia; lia. }
    assert (E1 : zdrop (vptr + 1) b = n :: r) by (rewrite Z.add_comm, <- zdrop_zdrop, E by lia; reflexivity).
    assert (E2 : zdrop (vptr + 2) b = r) by (rewrite Z.add_comm, <- zdrop_zdrop, E by lia; reflexivity).
    rewrite (rd_value b vptr c (n :: r) []), (rd_value b (vptr + 1) n r []) by (rewrite ?app_nil_r; first [lia | assumption]).
    cbn [cbind]; unfold is_byte in Bn; replace (1 + (1 + zlen r) - 2) with (zlen r) by lia.
    destruct (Z.ltb_spec (zlen r) n) as [S|S].
    + do 2 eexists; split; [reflexivity|]; eapply bad_first; [reflexivity | discriminate | exists (t_cr t); symmetry; apply set_t_cr_same|].
      intros x Ex ->; exfalso; assert (Q := f_equal zlen Ex); rewrite zlen_app in Q.
      pose proof (zlen_nonneg (zdrop (zlen x) r)); lia.
    + assert (Lx : zlen (ztake n r) = n) by (apply zlen_ztake; lia).
      destruct (Law t b (vptr + 2) c (ztake n r) (zdrop n r)) as (rc & Q & R); auto; try lia;
        [rewrite ztake_zdrop; exact E2 | apply Forall_ztake, B|]; rewrite Lx in Q; rewrite Q; cbn [cbind].
      destruct (param_okb code (c, ztake n r)) eqn:Ok.
      * rewrite (proj2 R eq_refl); change (OK =? OK) with true; cbn match.
        rewrite <- (zlen_zdrop n r) by lia.
        destruct (IH b (vptr + 2 + n) (set_t_cr t (param_set code (t_cr t) (c, ztake n r))) (zdrop n r))
          as (rc' & t' & Q' & A); auto.
        { unfold zdrop in *; rewrite length_skipn; simpl in L; lia. }
        { lia. }
        { rewrite <- E2, zdrop_zdrop by lia; f_equal; lia. }
        { apply Forall_zdrop, B. }
        { apply param_set_ok, C. }
        exists rc', t'; split; [exact Q'|]; destruct A as [(-> & ps & Ep & F & ->) | (N & (k & ->) & F)].
        { left; split; [reflexivity|]; exists ((c, ztake n r) :: ps); rewrite enc_params_cons, <- Ep, ztake_zdrop, Lx.
          split; [reflexivity|]; split; [|destruct t; reflexivity].
          constructor; [|exact F]; split; [exact Bc|]; split; [apply Forall_ztake, B|]; split; [cbn [snd]; lia | exact Ok]. }
        { right; split; [exact N|]; split; [exists k; destruct t; reflexivity|].
          intros [|[k' x] ps] Ep F'; [discriminate|]; rewrite enc_params_cons in Ep; injection Ep as -> -> ->.
          apply Forall_inv_tail in F'; rewrite zdrop_app_exact in F by reflexivity; apply (F ps eq_refl F'). }
      * destruct (Z.eqb_spec rc OK) as [->|N]; [discriminate (proj1 R eq_refl)|].
        do 2 eexists; split; [reflexivity|]; eapply bad_first; [reflexivity | exact N | exists (t_cr t); symmetry; apply set_t_cr_same|].
        intros x Ex ->; rewrite Ex, ztake_app_exact in Ok by reflexivity; exact Ok.
Qed.
End Parameters.

(** ** The encoding is not ambiguous *)

Lemma enc_params_inj code : forall ps qs, Forall (param_ok code) ps -> Forall (param_ok code) qs ->
  enc_params ps = enc_params qs -> ps = qs.
Proof.
  induction ps as [|[c v] ps IH]; intros [|[d w] qs] P Q E; try discriminate; [reflexivity|].
  rewrite !enc_params_cons in E; injection E as -> L E; apply app_same_length in E as [-> E]; [|exact L].
  f_equal; apply IH; [apply Forall_inv_tail in P | apply Forall_inv_tail in Q|]; assumption.
Qed.

Lemma enc_tpdu_inj p q r1 r2 : tpdu_ok p -> tpdu_ok q -> zlen (enc_tpdu p) = zlen (enc_tpdu q) ->
  enc_tpdu p ++ r1 = enc_tpdu q ++ r2 -> p = q /\ r1 = r2.
Proof.
  intros (_ & S1 & _ & P & _) (_ & S2 & _ & Q & _) L E; apply app_same_length in E as [E ->]; [|exact L].
  split; [|reflexivity]; injection E as Li C E; rewrite C in *; rewrite S1 in S2; injection S2 as S2.
  apply app_same_length in E as [F E]; [|exact S2]; unfold tpdu_li in Li; rewrite S2 in Li.
  apply app_same_length in E as [V D]; [|lia]; apply (enc_params_inj _ _ _ P Q) in V.
  destruct p, q; cbn in *; congruence.
Qed.

Lemma tpdu_size_range code n : tpdu_size code = Some n -> 0 < n <= 5.
Proof. unfold tpdu_size; repeat (destruct (_ : bool); [intros [= <-]; lia|]); discriminate. Qed.

(** ** The whole TPDU *)

(** The octets after the length and the code, seen as a TPDU. *)
Lemma tpdu_split p li code x rest : tpdu_ok p -> li :: code :: x = enc_tpdu p ++ rest ->
  let size := zlen (p_fixed p) in let v := enc_params (p_params p) in let n := zlen (p_data p) in
  li = tpdu_li p /\ code = p_code p /\ x = p_fixed p ++ v ++ p_data p ++ rest /\
  zlen (enc_tpdu p) = li + 1 + n /\ size + 1 <= li <= 254 /\ li - 1 + n <= zlen x /\
  ztake size x = p_fixed p /\ ztake (li - 1 - size) (zdrop size x) = v.
Proof.
  intros (_ & S & _ & _ & _ & Li) E size v n.
  unfold enc_tpdu in E; cbn [app] in E; injection E as -> -> ->; rewrite <- !app_assoc; fold v.
  unfold tpdu_li in *; fold size v in Li |- *; pose proof (zlen_nonneg (p_fixed p)); pose proof (zlen_nonneg v).
  pose proof (zlen_nonneg (p_data p)); pose proof (zlen_nonneg rest); unfold enc_tpdu; fold v.
  rewrite ?zlen_cons, !zlen_app; fold size n; repeat split; try lia.
  - apply ztake_app_exact; reflexivity.
  - rewrite zdrop_app_exact by reflexivity; apply ztake_app_exact; lia.
Qed.

Lemma maxlen_spec t : 6 <= t_length t < 65536 -> (t_li t >? TPDU_MAXLEN t) = negb ((t_li t <=? 254) && (t_li t <=? t_length t - 5)).
Proof.
  intros L; unfold TPDU_MAXLEN, cast; simpl ct_width; simpl ct_signed; cbn match.
  rewrite Z.mod_small by (change (2 ^ 64) with 18446744073709551616; lia); rewrite Z.gtb_ltb.
  replace (t_length t - 4 - 1) with (t_length t - 5) by lia.
  destruct (Z.ltb_spec 254 (t_length t - 5)), (Z.leb_spec (t_li t) 254), (Z.leb_spec (t_li t) (t_length t - 5)); cbn [andb negb];
    first [apply Z.ltb_lt; lia | apply Z.ltb_ge; lia].
Qed.

Section Decide.
Context {N : Type} `{TsReader N} `{Allocator} (sizeof_tpkt sizeof_qb : Z) (Mem : memory_ok).

Lemma read_data_spec t s : net_ok s -> is_byte (t_li t) -> 6 <= t_length t < 65536 -> t_li t <= t_length t - 5 ->
  let n := t_length t - 5 - t_li t in let x := net_input s in
  exists rc t' s', read_data sizeof_qb t s = Val (rc, t', s') /\ net_ok s' /\ (rc = OK <-> n <= zlen x) /\
    (rc = OK -> t' = set_t_qbuf t (if n =? 0 then t_qbuf t else Some (QSeg (ztake n x) n)) /\ net_input s' = zdrop n x).
Proof.
  intros G Li Ln M n x; unfold read_data, is_byte in *; change (4 + 1 + t_li t) with (5 + t_li t).
  replace (t_length t - (5 + t_li t)) with n by lia.
  assert (E : (if t_length t <=? 5 + t_li t then Some 0 else sizet2int (cast SIZE n)) = Some n).
  { destruct (Z.leb_spec (t_length t) (5 + t_li t)); [f_equal; lia|]; unfold sizet2int, cast; simpl ct_width; simpl ct_signed; cbn match.
    rewrite Z.mod_small by (change (2 ^ 64) with 18446744073709551616; lia); rewrite Z.gtb_ltb.
    destruct (Z.ltb_spec INT_MAX n); [unfold INT_MAX in *; lia | reflexivity]. }
  rewrite E; destruct (Z.eqb_spec n 0) as [Z0|Z0].
  - do 3 eexists; split; [reflexivity|]; pose proof (zlen_nonneg x); split; [exact G|]; split; [lia|].
    rewrite zdrop_0 by lia; destruct t; auto.
  - rewrite Mem; destruct (readx_spec s n) as (k & s' & -> & G' & I & X); [unfold INT_MAX; lia | exact G|]; cbn [cbind].
    do 3 eexists; split; [reflexivity|]; split; [exact G'|]; fold x in X, I |- *.
    destruct (Z.eqb_spec k n) as [K|K]; [split; [tauto | auto]|].
    split; [split; [discriminate | tauto] | discriminate].
Qed.

(** What [read_tpdu] answers for the length indicator, the code and the
    octets after them, in a packet of length [len]. *)
Definition tpdu_result (r len : Z) (x : list Z) (rc : Z) (t : tsapkt) (s : N) : Prop :=
  net_ok s /\
  (rc = OK -> exists p, tpdu_ok p /\ x = enc_tpdu p ++ net_input s /\ len = 4 + zlen (enc_tpdu p) /\ t = packet_of r p) /\
  (forall p rest, tpdu_ok p -> x = enc_tpdu p ++ rest -> len = 4 + zlen (enc_tpdu p) -> rc = OK).

Lemma no_params v : zlen v = 0 -> v = enc_params [].
Proof. apply zlen_0. Qed.

Lemma read_params_spec t v opt code : option_law code opt -> t_vlen t = zlen v -> (v <> [] -> t_vdata t = Some v) ->
  bytes v -> TPDU_CODE t = code -> cr_ok (t_cr t) ->
  exists rc t', (if t_vlen t =? 0 then Val (OK, t)
                 else match t_vdata t with
                      | Some b => vdat_loop opt (Z.to_nat (t_vlen t)) b 0 (t_vlen t) t
                      | None => UB
                      end) = Val (rc, t') /\ params_result code t v rc t'.
Proof.
  intros Law -> D B K C; destruct (Z.eqb_spec (zlen v) 0) as [L|L].
  - do 2 eexists; split; [reflexivity|]; left; split; [reflexivity|]; exists [].
    split; [apply no_params, L|]; split; [constructor | symmetry; apply set_t_cr_same].
  - rewrite D by (intros ->; apply L; reflexivity).
    apply vdat_loop_spec; auto; first [unfold zlen; lia | pose proof (zlen_nonneg v); lia | apply zdrop_0; lia].
Qed.

Lemma skipn_zeros n : forall m, skipn n (repeat 0 m) = repeat 0 (m - n).
Proof. induction n as [|n IH]; intros [|m]; try reflexivity; apply IH. Qed.

Lemma packet_parts r p : zlen (p_fixed p) <= 5 ->
  packet_of r p =
  set_t_qbuf (with_params (Z.land (p_code p) 240)
      (with_parts (set_t_hdr new_packet TPKT_VRSN r (4 + zlen (enc_tpdu p)) (tpdu_li p) (p_code p)) (p_fixed p) (enc_params (p_params p)))
      (p_params p))
    (if zlen (p_data p) =? 0 then None else Some (QSeg (p_data p) (zlen (p_data p)))).
Proof.
  destruct p as [code f ps d]; cbn [p_fixed p_params p_data p_code]; intros F.
  unfold packet_of, with_params, with_parts, set_t_qbuf, set_t_cr, set_t_var, set_t_un, set_t_hdr; cbn [t_errno t_vrsn t_rsrvd
    t_length t_li t_code t_un t_cr t_vlen t_vdata t_qbuf t_udvec new_packet p_fixed p_params p_data p_code].
  f_equal.
  - f_equal; unfold zdrop, zlen; rewrite Nat2Z.id, skipn_zeros; reflexivity.
  - destruct ps as [|[c v] ps]; [reflexivity|]; rewrite enc_params_cons; reflexivity.
  - destruct d as [|a d]; [reflexivity|]; rewrite zlen_cons; pose proof (zlen_nonneg d).
    destruct (Z.eqb_spec (1 + zlen d) 0); [lia | reflexivity].
Qed.

(** The parameters and the user data, after the fixed part [f] and the
    octets [v] of the variable part. *)
Lemma read_tail_spec r len li code f v opt s : net_ok s -> bytes (code :: f ++ v ++ net_input s) -> 6 <= len < 65536 ->
  tpdu_size (Z.land code 240) = Some (zlen f) -> option_law (Z.land code 240) opt -> li = 1 + zlen f + zlen v ->
  li <= 254 -> li <= len - 5 ->
  let t := with_parts (set_t_hdr new_packet TPKT_VRSN r len li code) f v in
  exists rc t' s',
    (' (rc, t) <- (if t_vlen t =? 0 then Val (OK, t)
                   else match t_vdata t with
                        | Some b => vdat_loop opt (Z.to_nat (t_vlen t)) b 0 (t_vlen t) t
                        | None => UB
                        end);;
     if negb (rc =? OK) then Val (rc, t, s) else read_data sizeof_qb t s) = Val (rc, t', s') /\
    tpdu_result r len (li :: code :: f ++ v ++ net_input s) rc t' s'.
Proof.
  intros G B Ln Sz Law Li L1 L2 t; apply bytes_cons in B as (Bc & B); apply bytes_app in B as (Bf & B).
  apply bytes_app in B as (Bv & Bx); pose proof (zlen_nonneg f); pose proof (zlen_nonneg v).
  destruct (read_params_spec t v opt (Z.land code 240) Law) as (rc & t1 & -> & R); auto;
    try solve [destruct v; [easy | reflexivity]]; try (split; reflexivity); cbn [cbind].
  assert (Same : forall p rest, tpdu_ok p -> li :: code :: f ++ v ++ net_input s = enc_tpdu p ++ rest ->
            f = p_fixed p /\ v = enc_params (p_params p) /\ zlen (enc_tpdu p) = li + 1 + zlen (p_data p) /\
            zlen (p_data p) <= zlen (net_input s) /\ Forall (param_ok (Z.land code 240)) (p_params p)).
  { intros p rest O E; apply tpdu_split in E as (E0 & E1 & E2 & E3 & _ & E4 & _); [|exact O].
    destruct O as (_ & O & _ & P & _); rewrite <- E1 in *; rewrite Sz in O; injection O as O.
    apply app_same_length in E2 as [-> E2]; [|exact O]; unfold tpdu_li in E0.
    apply app_same_length in E2 as [-> E2]; [|lia]; rewrite !zlen_app in E4; repeat split; auto; lia. }
  destruct R as [(-> & ps & Ev & Ps & ->) | (N0 & _ & No)].
  - destruct (read_data_spec (with_params (Z.land code 240) t ps) s G) as (rc & t2 & s2 & Q & G2 & R2 & T2);
      try (unfold is_byte; change (t_li (with_params (Z.land code 240) t ps)) with li); try exact Ln; try exact L2; try lia.
    exists rc, t2, s2; split; [exact Q|]; change (t_length (with_params (Z.land code 240) t ps)) with len in *.
    change (t_li (with_params (Z.land code 240) t ps)) with li in *; split; [exact G2|]; split.
    + intros E; destruct (T2 E) as (-> & I2); apply R2 in E.
      assert (Zn : zlen (ztake (len - 5 - li) (net_input s)) = len - 5 - li) by (apply zlen_ztake; lia); set (d := ztake _ (net_input s)) in *.
      exists (Tpdu code f ps d).
      assert (Lt : zlen (enc_tpdu (Tpdu code f ps d)) = li + 1 + zlen d)
        by (unfold enc_tpdu; cbn [p_fixed p_params p_data p_code]; rewrite ?zlen_cons, !zlen_app, <- Ev; lia).
      assert (Lt' : tpdu_li (Tpdu code f ps d) = li) by (unfold tpdu_li; cbn [p_fixed p_params]; rewrite <- Ev; lia).
      split; [|split; [|split; [lia|]]].
      * unfold tpdu_ok; rewrite Lt'; cbn [p_fixed p_params p_data p_code]; repeat split; auto; try apply Bc; apply Forall_ztake, Bx.
      * rewrite I2; unfold enc_tpdu; rewrite Lt'; cbn [p_fixed p_params p_data p_code app].
        rewrite <- Ev, <- !app_assoc; subst d; rewrite ztake_zdrop; reflexivity.
      * apply tpdu_size_range in Sz; rewrite packet_parts by (cbn [p_fixed]; lia); rewrite Lt, Lt'.
        cbn [p_fixed p_params p_data p_code]; rewrite <- Ev, Zn; replace (4 + (li + 1 + (len - 5 - li))) with len by lia; fold t.
        replace (t_qbuf (with_params (Z.land code 240) t ps)) with (@None qseg) by reflexivity; reflexivity.
    + intros p rest O E L; apply Same in E as (_ & _ & E & E' & _); [|exact O]; apply R2; lia.
  - do 3 eexists; split; [apply Z.eqb_neq in N0; rewrite N0; reflexivity|]; split; [exact G|]; split; [easy|].
    intros p rest O E _; apply Same in E as (_ & -> & _ & _ & P); [|exact O]; destruct (No _ eq_refl P).
Qed.

Lemma read_tpdu_spec r len li code s : net_ok s -> bytes (li :: code :: net_input s) -> 6 <= len < 65536 ->
  exists rc t' s', read_tpdu sizeof_qb (set_t_hdr new_packet TPKT_VRSN r len li code) s = Val (rc, t', s') /\
    tpdu_result r len (li :: code :: net_input s) rc t' s'.
Proof.
  intros G B Ln; apply bytes_cons in B as (Li & B); apply bytes_cons in B as (Co & B); set (x := net_input s) in *.
  set (t := set_t_hdr new_packet TPKT_VRSN r len li code); unfold read_tpdu.
  assert (F : forall rc t' s', net_ok s' -> rc <> OK ->
            (forall p rest, tpdu_ok p -> li :: code :: x = enc_tpdu p ++ rest -> len = 4 + zlen (enc_tpdu p) -> False) ->
            tpdu_result r len (li :: code :: x) rc t' s').
  { intros rc t' s' G' N0 X; split; [exact G'|]; split; [easy|]; intros p rest O E L; destruct (X p rest O E L). }
  rewrite maxlen_spec by exact Ln; change (t_li t) with li; change (t_length t) with len.
  destruct ((li <=? 254) && (li <=? len - 5))%bool eqn:M; cbn [negb].
  2: { do 3 eexists; split; [reflexivity|]; apply F; [exact G | discriminate|]; intros p rest O E L.
       apply tpdu_split in E as (-> & _ & _ & Z1 & Z2 & _); [|exact O]; pose proof (zlen_nonneg (p_data p)).
       apply andb_false_iff in M; rewrite !Z.leb_gt in M; lia. }
  apply andb_true_iff in M; rewrite !Z.leb_le in M; change (TPDU_CODE t) with (Z.land code 240).
  pose proof (layout_law (Z.land code 240)) as Lay; destruct (tpdu_layout _) as [[size opt]|].
  2: { do 3 eexists; split; [reflexivity|]; apply F; [exact G | discriminate|]; intros p rest O E _.
       apply tpdu_split in E as (_ & -> & _); [|exact O]; destruct O as (_ & O & _); congruence. }
  destruct Lay as (Sz & Rg & Law).
  destruct (read_parts_spec t size s Mem G Rg eq_refl Li) as (rc & t1 & s1 & -> & G1 & A1 & A2 & _); cbn [cbind]; fold x in A1, A2.
  change (t_li t) with li in *; destruct (Z.eqb_spec rc OK) as [->|R]; cbn [negb].
  2: { do 3 eexists; split; [reflexivity|]; apply F; [exact G1 | exact R|]; intros p rest O E L.
       apply tpdu_split in E as (_ & -> & _ & Z1 & Z2 & Z3 & _); [|exact O]; destruct O as (_ & O & _).
       rewrite Sz in O; injection O as ->; pose proof (zlen_nonneg (p_data p)); apply R, A2; lia. }
  destruct (A1 eq_refl) as (B1 & B2 & -> & I1).
  pose proof (zlen_ztake size x ltac:(lia)) as Zf; set (f := ztake size x) in *.
  pose proof (zlen_ztake (li - 1 - size) (zdrop size x)) as Zv; rewrite zlen_zdrop in Zv by lia; specialize (Zv ltac:(lia)).
  set (v := ztake (li - 1 - size) (zdrop size x)) in *.
  assert (Ex : x = f ++ v ++ net_input s1).
  { rewrite I1; replace (zdrop (li - 1) x) with (zdrop (li - 1 - size) (zdrop size x)) by (rewrite zdrop_zdrop by lia; f_equal; lia).
    unfold v, f; rewrite !ztake_zdrop; reflexivity. }
  destruct (read_tail_spec r len li code f v opt s1) as (rc' & t' & s' & Q & R); auto; try lia; try congruence.
  { apply bytes_cons; rewrite <- Ex; auto. }
  exists rc', t', s'; split; [exact Q | rewrite Ex; exact R].
Qed.
End Decide.

(** The network has a packet that holds the TPDU [p] and nothing more,
    followed by [rest]. *)
Definition has_tpdu {N} `{TsReader N} (s : N) (r : Z) (p : tpdu) (rest : list Z) : Prop :=
  tpdu_ok p /\ 4 + zlen (enc_tpdu p) < 65536 /\ net_frames s r (4 + zlen (enc_tpdu p)) (enc_tpdu p ++ rest).

(** Whether the network starts with a packet header or not, the reader ends. *)
Lemma fd2tpktaux_spec {N} `{TsReader N} `{Allocator} sizeof_qb s : memory_ok -> net_ok s ->
  exists rc t s', fd2tpktaux sizeof_qb s (set_t_hdr new_packet TPKT_VRSN 0 0 0 0) = Val (rc, t, s') /\ net_ok s' /\
    (rc = OK -> exists r p, has_tpdu s r p (net_input s')) /\
    (forall r p rest, has_tpdu s r p rest -> rc = OK /\ t = packet_of r p /\ net_input s' = rest).
Proof.
  intros Mem G; unfold fd2tpktaux; set (t0 := set_t_hdr _ _ _ _ _ _).
  destruct (init_sound s t0 G eq_refl) as (rc & t & s1 & E & G1 & A); rewrite E; cbn [cbind].
  assert (C : forall r p rest, has_tpdu s r p rest -> rc = OK /\ t = set_t_hdr new_packet TPKT_VRSN r (4 + zlen (enc_tpdu p)) (tpdu_li p) (p_code p) /\
            p_fixed p ++ enc_params (p_params p) ++ p_data p ++ rest = net_input s1).
  { intros r p rest (O & L & F).
    assert (L6 : 6 <= 4 + zlen (enc_tpdu p) < 65536).
    { split; [|exact L]; unfold enc_tpdu; rewrite !zlen_cons; pose proof (zlen_nonneg (p_fixed p ++ enc_params (p_params p) ++ p_data p)); lia. }
    assert (F' : net_frames s r (4 + zlen (enc_tpdu p)) (tpdu_li p :: p_code p :: p_fixed p ++ enc_params (p_params p) ++ p_data p ++ rest))
      by (unfold enc_tpdu in F at 2; cbn [app] in F; rewrite <- !app_assoc in F; exact F).
    destruct (init_complete s t0 r _ _ _ _ G eq_refl L6 F') as (s2 & E' & _ & I2); rewrite E in E'; injection E' as -> -> <-.
    rewrite I2; auto. }
  destruct (Z.eqb_spec rc OK) as [->|R]; cbn [negb].
  - destruct (A eq_refl) as (r & len & li & code & -> & Ln & F); clear A.
    change (set_t_hdr t0 TPKT_VRSN r len li code) with (set_t_hdr new_packet TPKT_VRSN r len li code) in *.
    destruct (read_tpdu_spec sizeof_qb Mem r len li code s1 G1 (frames_bytes s r len _ G F) Ln) as (rc & t & s' & Q & G' & R1 & R2).
    exists rc, t, s'; split; [exact Q|]; split; [exact G'|]; split.
    + intros Ok; destruct (R1 Ok) as (p & O & X & L & _); exists r, p; split; [exact O|]; split; [lia|].
      rewrite X, L in F; exact F.
    + intros r' p rest O; destruct (C r' p rest O) as (_ & Et & X); injection Et as -> L -> ->; change (len = 4 + zlen (enc_tpdu p)) in L; destruct O as (O & _ & _).
      rewrite <- X in *; assert (Ex : tpdu_li p :: p_code p :: p_fixed p ++ enc_params (p_params p) ++ p_data p ++ rest = enc_tpdu p ++ rest)
        by (unfold enc_tpdu; cbn [app]; rewrite <- !app_assoc; reflexivity); rewrite Ex in *.
      assert (Ok : rc = OK) by (apply (R2 p rest O eq_refl L)); split; [exact Ok|].
      destruct (R1 Ok) as (q & Oq & Xq & Lq & ->); apply enc_tpdu_inj in Xq as [<- ->]; auto; lia.
  - do 3 eexists; split; [reflexivity|]; split; [exact G1|]; split; [easy|].
    intros r p rest O; destruct (C r p rest O) as (-> & _); destruct R; reflexivity.
Qed.

(** C34. The reader of TPDUs decides the format, on any network: it returns
    without undefined behaviour; the packet has no error exactly when the
    network starts with a packet that holds one well-formed TPDU and nothing
    more; that packet then has the fields of the TPDU, and the octets after
    it are left. With an error no data is kept. *)
Theorem fd2tpkt_decides : forall (N : Type) (I : TsIn N) (R : TsReader N) (A : Allocator) sizeof_tpkt sizeof_qb (s : N),
  memory_ok -> net_ok s ->
  exists t s', fd2tpkt sizeof_tpkt sizeof_qb s = Val (Some t, s') /\ net_ok s' /\
    (t_errno t = OK <-> exists r p rest, has_tpdu s r p rest) /\
    (forall r p rest, has_tpdu s r p rest -> t = packet_of r p /\ net_input s' = rest) /\
    (t_errno t <> OK -> t_vdata t = None /\ t_qbuf t = None).
Proof.
  intros N I R A st sq s M G; unfold fd2tpkt, newtpkt; rewrite M, int2u8_Some by (cbv; easy); cbn match.
  destruct (fd2tpktaux_spec sq s M G) as (rc & t & s' & -> & G' & B & C); cbn [cbind].
  destruct (Z.eqb_spec rc OK) as [->|E].
  - do 2 eexists; split; [reflexivity|]; split; [exact G'|]; split; [|split; [|easy]].
    + split; [intros _|reflexivity]; destruct (B eq_refl) as (r & p & O); eauto.
    + intros r p rest O; destruct (C r p rest O) as (_ & -> & ->); split; reflexivity.
  - do 2 eexists; split; [reflexivity|]; split; [exact G'|]; split; [|split].
    + split; [destruct (t_vdata _); intros Q; destruct (E Q)|].
      intros (r & p & rest & O); destruct (C r p rest O) as (Q & _); destruct (E Q).
    + intros r p rest O; destruct (C r p rest O) as (Q & _); destruct (E Q).
    + intros _; change (t_vdata (set_t_errno t rc)) with (t_vdata t); destruct (t_vdata t) eqn:V; [split; reflexivity|].
      split; [exact V | reflexivity].
Qed.
