(* ===== verification/Tpkt2fd.v ===== *)
(** * tsap: writing transport protocol data units (fd2tpkt.c)

    [tpkt2fd] builds the variable part and hands the parts of a packet to
    the network through [writefnx]: the class [TsOut] with the laws
    [TsWriter]. What it writes is the encoding of the TPDU [tpdu_of]. *)

From S2P Require Import Prelude Conv Convert PStream Qbuf Tpkt.
Open Scope Z_scope.
Open Scope c_scope.

(** [writefnx (tb, t, cp, n)]: the fixed part is at [cp]. *)
Class TsOut (N : Type) := { writefnx : N -> tsapkt -> list Z -> Z -> cres (Z * N) }.

Definition set_tpdu_li (t : tsapkt) (hdr : Z) : option tsapkt :=
  match int2sizet (t_vlen t) with
  | None => None
  | Some n => if (hdr >? 254) || (n >? 254 - hdr) then None else Some (set_t_li t (u8 (hdr + n)))
  end.

(** ** The variable part *)

(** The variable part as it is built: the octets of the block of [cap], and
    [t_vlen]; a step that fails returns the state it found. *)
Definition vstate : Type := list Z * Z.

(** [put_octet] and the stores of octets at [vptr], the end of what is
    stored; [None] where the helper fails. *)
Definition vput (cap : Z) (b : list Z) (n : Z) : cres (option (list Z)) :=
  match int2octet n with
  | Some u => cmap Some (wrc cap b (zlen b) [u])
  | None => Val None
  end.

Fixpoint vputs (cap : Z) (b : list Z) (l : list Z) : cres (option (list Z)) :=
  match l with
  | [] => Val (Some b)
  | n :: l' =>
      r <- vput cap b n;;
      match r with Some b => vputs cap b l' | None => Val None end
  end.

Section Variable_part.
Context (cap : Z).

Definition put_options (t : tsapkt) (v : vstate) : cres (bool * vstate) :=
  let o := t_options (t_cr t) in
  if o =? 0 then Val (true, v)
  else
    r <- vputs cap (fst v) [VDAT_OPTIONS; 1];;
    match r with
    | None => Val (false, v)
    | Some b =>
        match u16tooctet o with
        | None => Val (false, v)
        | Some u => b <- wrc cap b (zlen b) [u];; Val (true, (b, i32 (snd v + 3)))
        end
    end.

(** The classes named by the bits of [cr_alternate], in the order of the
    code: "this doesn't preserve the order of alternates". *)
Definition alternates (a : Z) : list Z :=
  filter (fun c => Z.testbit a (Z.shiftr c 4)) [0; 16; 32; 48; 64].

(** The octet at [cp], which is stored last, is 0 until then. *)
Definition put_alternates (t : tsapkt) (v : vstate) : cres (bool * vstate) :=
  if negb (CR_CLASS t =? 0) && negb (t_alternate (t_cr t) =? 0) then
    r <- vput cap (fst v) VDAT_ALTERNATE;;
    match r with
    | None => Val (false, v)
    | Some b =>
        let cp := zlen b in
        b <- wrc cap b cp [0];;
        r <- vputs cap b (alternates (t_alternate (t_cr t)));;
        match r with
        | None => Val (false, v)
        | Some b =>
            match ptrdiff2int (zlen b - cp - 1) with
            | None => Val (false, v)
            | Some i =>
                match int2octet (Z.land i 255) with
                | None => Val (false, v)
                | Some u => b <- wr b cp [u];; Val (true, (b, i32 (snd v + Z.land (2 + i) 255)))
                end
            end
        end
    end
  else Val (true, v).

(** A selector under the code [code]: the text of the two cases. *)
Definition put_selector (code : Z) (sel : list Z) (len : Z) (v : vstate) : cres (bool * vstate) :=
  if len >? 0 then
    match int2u8 len with
    | None => Val (false, v)
    | Some nlen =>
        r <- vput cap (fst v) code;;
        match r with
        | None => Val (false, v)
        | Some b =>
            b <- wrc cap b (zlen b) [nlen];;
            d <- bcopy_int (Some sel) len;;
            match d with
            | None => Val (false, v)
            | Some d => b <- wrc cap b (zlen b) d;; Val (true, (b, i32 (snd v + (2 + len))))
            end
        end
    end
  else Val (true, v).

Definition put_tpdusize (t : tsapkt) (v : vstate) : cres (bool * vstate) :=
  let n := t_tpdusize (t_cr t) in
  if n =? 0 then Val (true, v)
  else
    r <- vputs cap (fst v) [VDAT_SIZE; 1];;
    match r with
    | None => Val (false, v)
    | Some b => b <- wrc cap b (zlen b) [n];; Val (true, (b, i32 (snd v + 3)))
    end.

(** A step after another that succeeded. *)
Definition vthen (m : cres (bool * vstate)) (k : vstate -> cres (bool * vstate)) : cres (bool * vstate) :=
  ' (ok, v) <- m;; if ok then k v else Val (false, v).

Definition put_variable (t : tsapkt) : cres (bool * vstate) :=
  let c := t_cr t in
  vthen (vthen (vthen (vthen (put_options t ([], 0))
    (put_alternates t))
    (put_selector VDAT_TSAP_CLI (t_calling c) (t_callinglen c)))
    (put_selector VDAT_TSAP_SRV (t_called c) (t_calledlen c)))
    (put_tpdusize t).
End Variable_part.

Section Write.
Context {N : Type} `{TsOut N} `{Allocator}.

(** The case of CR and CC: OK or the error, and the packet. *)
Definition cr_variable (t : tsapkt) : cres (Z * tsapkt) :=
  let cap := u32 (3 + 7 + (2 + t_callinglen (t_cr t)) + (2 + t_calledlen (t_cr t)) + 3) in
  if malloc_ok cap then
    ' (ok, (b, vlen)) <- put_variable cap t;;
    let t := set_t_var t vlen (Some b) in
    if negb ok then Val (DR_LENGTH, t)
    else
      let t := if vlen =? 0 then set_t_var t vlen None else t in
      match set_tpdu_li t (TPDU_MINLEN CR_SIZE) with
      | Some t => Val (OK, t)
      | None => Val (DR_LENGTH, t)
      end
  else Val (DR_CONGEST, t).

(** The length indicator of the other TPDUs. *)
Definition set_li (t : tsapkt) (size : Z) : Z * tsapkt :=
  match set_tpdu_li t (TPDU_MINLEN size) with Some t => (OK, t) | None => (DR_LENGTH, t) end.

(** The [switch]: the code to return, the size of the fixed part, and the
    packet. *)
Definition tpdu_parts (t : tsapkt) (ulen : Z) : cres (Z * Z * tsapkt) :=
  let code := TPDU_CODE t in
  if (code =? TPDU_CR) || (code =? TPDU_CC) then ' (rc, t) <- cr_variable t;; Val (rc, CR_SIZE, t)
  else if code =? TPDU_DR then let '(rc, t) := set_li t DR_SIZE in Val (rc, DR_SIZE, t)
  else if code =? TPDU_DT then let '(rc, t) := set_li t DT_SIZE in Val (rc, DT_SIZE, t)
  else if code =? TPDU_ED then let '(rc, t) := set_li t ED_SIZE in Val (rc, ED_SIZE, t)
  else if code =? TPDU_ER then
    let '(rc, t) := set_li t ER_SIZE in
    if negb (rc =? OK) then Val (rc, ER_SIZE, t)
    else if ulen >? 0 then Val (DR_PROTOCOL, ER_SIZE, t) else Val (OK, ER_SIZE, t)
  else Val (DR_PROTOCOL, 0, t).

(** [htons] on a machine whose octets are in the other order. *)
Definition htons (n : Z) : Z := Z.land n 255 * 256 + Z.shiftr n 8.

Definition tpkt2fd (tb : N) (t : tsapkt) : cres (Z * tsapkt * N) :=
  if negb (t_errno t =? OK) then Val (t_errno t, t, tb)
  else if negb (t_vrsn t =? TPKT_VRSN) && negb (t_vrsn t =? 0) then Val (DR_PROTOCOL, t, tb)
  else
    let t := set_t_vrsn t TPKT_VRSN in
    let t := set_t_var t 0 None in
    let ulen := fold_left (fun ulen uv => i32 (ulen + uv_len uv)) (t_udvec t) 0 in
    ' (rc, ilen, t) <- tpdu_parts t ulen;;
    if negb (rc =? OK) then Val (rc, t, tb)
    else if (t_li t >? INT_MAX - 5) || (ulen >? INT_MAX - 5 - t_li t) then Val (DR_LENGTH, t, tb)
    else
      match int2u16 (t_li t + 5 + ulen) with
      | None => Val (DR_LENGTH, t, tb)
      | Some nlen =>
          let t := set_t_length t (htons nlen) in
          ' (i, tb) <- writefnx tb t (t_un t) ilen;;
          if negb (i =? NOTOK) then Val (OK, t, tb)
          else Val (NOTOK, if t_errno t =? DR_UNKNOWN then set_t_errno t DR_NETWORK else t, tb)
      end.
End Write.

(** * The TPDU of a packet *)

Definition option_params (t : tsapkt) : list (Z * list Z) :=
  let o := t_options (t_cr t) in if o =? 0 then [] else [(VDAT_OPTIONS, [o])].

Definition alternate_params (t : tsapkt) : list (Z * list Z) :=
  if negb (CR_CLASS t =? 0) && negb (t_alternate (t_cr t) =? 0)
  then [(VDAT_ALTERNATE, alternates (t_alternate (t_cr t)))] else [].

Definition selector_params (code : Z) (sel : list Z) (len : Z) : list (Z * list Z) :=
  if len >? 0 then [(code, ztake len sel)] else [].

Definition size_params (t : tsapkt) : list (Z * list Z) :=
  let n := t_tpdusize (t_cr t) in if n =? 0 then [] else [(VDAT_SIZE, [n])].

Definition cr_params (t : tsapkt) : list (Z * list Z) :=
  let c := t_cr t in
  option_params t ++ alternate_params t ++ selector_params VDAT_TSAP_CLI (t_calling c) (t_callinglen c) ++
  selector_params VDAT_TSAP_SRV (t_called c) (t_calledlen c) ++ size_params t.

Definition uv_octets (u : udvec) : list Z := ztake (uv_len u) (uv_base u).

Definition user_data (t : tsapkt) : list Z := concat (map uv_octets (t_udvec t)).

Definition is_cr (t : tsapkt) : bool := (TPDU_CODE t =? TPDU_CR) || (TPDU_CODE t =? TPDU_CC).

Definition size_of (t : tsapkt) : Z := match tpdu_size (TPDU_CODE t) with Some n => n | None => 0 end.

Definition tpdu_of (t : tsapkt) : tpdu :=
  Tpdu (t_code t) (ztake (size_of t) (t_un t)) (if is_cr t then cr_params t else []) (user_data t).

(** The packets the callers make: a TPDU of class 0 whose fields are in
    range, with no user data on ER, and short enough for a TPKT. *)
Definition uv_ok (u : udvec) : Prop := 0 <= uv_len u <= zlen (uv_base u) /\ bytes (uv_octets u).

(** A null ends the array of NTPUV vectors. *)
Definition udvec_ok (l : list udvec) : Prop := Forall uv_ok l /\ zlen l < NTPUV.

Definition crvar_ok (c : crvar) : Prop :=
  cr_ok c /\ bytes (t_called c) /\ bytes (t_calling c) /\ 0 <= t_calledlen c <= TSSIZE /\ 0 <= t_callinglen c <= TSSIZE /\
  is_byte (t_tpdusize c) /\ is_byte (t_options c) /\ is_byte (t_alternate c).

Definition packet_ok (t : tsapkt) : Prop :=
  t_errno t = OK /\ (t_vrsn t = TPKT_VRSN \/ t_vrsn t = 0) /\ is_byte (t_code t) /\ tpdu_size (TPDU_CODE t) <> None /\
  zlen (t_un t) = 5 /\ bytes (t_un t) /\ crvar_ok (t_cr t) /\ udvec_ok (t_udvec t) /\
  (TPDU_CODE t = TPDU_ER -> user_data t = []) /\ 4 + zlen (enc_tpdu (tpdu_of t)) < 65536.

(** ** The variable part *)

(** A step that stores the parameters [ps]. *)
Definition stores (cap : Z) (step : vstate -> cres (bool * vstate)) (ps : list (Z * list Z)) : Prop :=
  forall b, zlen b + zlen (enc_params ps) <= cap ->
  step (b, zlen b) = Val (true, (b ++ enc_params ps, zlen (b ++ enc_params ps))).

Lemma enc_params_app ps qs : enc_params (ps ++ qs) = enc_params ps ++ enc_params qs.
Proof. unfold enc_params; rewrite map_app; apply concat_app. Qed.

Lemma enc_params_one c v : enc_params [(c, v)] = c :: zlen v :: v.
Proof. rewrite enc_params_cons, app_nil_r; reflexivity. Qed.

Lemma stores_nothing cap step : (forall v, step v = Val (true, v)) -> stores cap step [].
Proof. intros E b _; rewrite E, app_nil_r; reflexivity. Qed.

(** Steps in sequence. *)
Lemma vthen_stores cap m step b ps : stores cap step ps -> m = Val (true, (b, zlen b)) -> zlen b + zlen (enc_params ps) <= cap ->
  vthen m step = Val (true, (b ++ enc_params ps, zlen (b ++ enc_params ps))).
Proof. intros S -> L; unfold vthen; cbn [cbind]; apply S, L. Qed.

Section Steps.
Context (cap : Z) (Cap : 0 <= cap <= 65535).

Lemma vput_ok b n : is_byte n -> zlen b + 1 <= cap -> vput cap b n = Val (Some (b ++ [n])).
Proof. intros N L; unfold vput; rewrite int2octet_Some by exact N; rewrite wrc_end by (rewrite zlen_one; lia); reflexivity. Qed.

Lemma vputs_ok l : bytes l -> forall b, zlen b + zlen l <= cap -> vputs cap b l = Val (Some (b ++ l)).
Proof.
  induction 1 as [|n l N _ IH]; intros b L; cbn [vputs]; [rewrite app_nil_r; reflexivity|].
  rewrite zlen_cons in L; pose proof (zlen_nonneg l); rewrite vput_ok by first [assumption | lia]; cbn [cbind].
  rewrite IH by (rewrite zlen_app, zlen_one; lia); rewrite <- app_assoc; reflexivity.
Qed.

(** The count after a step, which no [int] overflows. *)
Lemma count_ok (b d : list Z) n : zlen d = n -> zlen (b ++ d) <= cap -> i32 (zlen b + n) = zlen (b ++ d).
Proof.
  intros <- L; rewrite zlen_app in *; pose proof (zlen_nonneg b); pose proof (zlen_nonneg d).
  apply i32_id; unfold is_int, INT_MIN, INT_MAX; lia.
Qed.

(** The octets a step stores one by one, then counts. *)
Lemma put3 b c n : is_byte c -> zlen b + 3 <= cap ->
  vputs cap b [c; 1] = Val (Some (b ++ [c; 1])) /\
  wrc cap (b ++ [c; 1]) (zlen (b ++ [c; 1])) [n] = Val (b ++ enc_params [(c, [n])]) /\
  i32 (zlen b + 3) = zlen (b ++ enc_params [(c, [n])]).
Proof.
  intros C L; rewrite enc_params_one; change (zlen [n]) with 1; split; [|split].
  - apply vputs_ok; [repeat constructor; first [apply C | lia] | change (zlen [c; 1]) with 2; lia].
  - rewrite wrc_end by (rewrite zlen_app; change (zlen [c; 1]) with 2; rewrite zlen_one; lia); rewrite <- app_assoc; reflexivity.
  - apply count_ok; [reflexivity | rewrite zlen_app; change (zlen [c; 1; n]) with 3; lia].
Qed.

Lemma put_options_stores t : is_byte (t_options (t_cr t)) -> stores cap (put_options cap t) (option_params t).
Proof.
  intros O; unfold option_params, put_options; destruct (Z.eqb_spec (t_options (t_cr t)) 0) as [E|E]; [apply stores_nothing; reflexivity|].
  intros b L; rewrite enc_params_one in L; rewrite !zlen_cons, zlen_nil in L; cbn [fst snd].
  destruct (put3 b VDAT_OPTIONS (t_options (t_cr t))) as (-> & W & C); [cbv; easy | lia|]; cbn [cbind].
  unfold u16tooctet, u16to8, octet2char, cast; simpl ct_width; simpl ct_signed; cbn match; unfold is_byte in O.
  rewrite Z.gtb_ltb; destruct (Z.ltb_spec 255 (t_options (t_cr t))); [lia|]; change (2 ^ 8) with 256.
  rewrite (Z.mod_small _ 256), u8_id, W by assumption; cbn [cbind]; rewrite C; reflexivity.
Qed.

Lemma put_tpdusize_stores t : is_byte (t_tpdusize (t_cr t)) -> stores cap (put_tpdusize cap t) (size_params t).
Proof.
  intros O; unfold size_params, put_tpdusize; destruct (Z.eqb_spec (t_tpdusize (t_cr t)) 0) as [E|E]; [apply stores_nothing; reflexivity|].
  intros b L; rewrite enc_params_one in L; rewrite !zlen_cons, zlen_nil in L; cbn [fst snd].
  destruct (put3 b VDAT_SIZE (t_tpdusize (t_cr t))) as (-> & W & C); [cbv; easy | lia|]; cbn [cbind].
  rewrite W; cbn [cbind]; rewrite C; reflexivity.
Qed.

Lemma alternates_ok a : bytes (alternates a) /\ zlen (alternates a) <= 5.
Proof.
  unfold alternates; cbn [filter]; repeat destruct (Z.testbit _ _);
    (split; [repeat constructor; lia | cbv; discriminate]).
Qed.

Lemma wr_hole b x n l : wr (b ++ x :: l) (zlen b) [n] = Val (b ++ n :: l).
Proof.
  pose proof (zlen_nonneg b); pose proof (zlen_nonneg l).
  rewrite wr_in by (rewrite ?zlen_one, ?zlen_app, ?zlen_cons; lia); rewrite ztake_app_exact by reflexivity.
  rewrite zdrop_app_r, zlen_one by (rewrite ?zlen_one; lia); replace (zlen b + 1 - zlen b) with 1 by lia; reflexivity.
Qed.

Lemma put_alternates_stores t : stores cap (put_alternates cap t) (alternate_params t).
Proof.
  unfold alternate_params, put_alternates; destruct (negb (CR_CLASS t =? 0) && _)%bool; [|apply stores_nothing; reflexivity].
  destruct (alternates_ok (t_alternate (t_cr t))) as (B & L5); set (l := alternates _) in *; pose proof (zlen_nonneg l).
  intros b L; rewrite enc_params_one, !zlen_cons in L; cbn [fst snd].
  rewrite vput_ok by first [cbv; easy | lia]; cbn [cbind].
  rewrite wrc_end by (rewrite zlen_app, !zlen_one; lia); cbn [cbind].
  rewrite vputs_ok by first [exact B | rewrite !zlen_app, !zlen_one; lia]; cbn [cbind].
  rewrite <- !app_assoc; cbn [app]; replace (zlen (b ++ _) - _ - 1) with (zlen l) by (rewrite !zlen_app, !zlen_cons, zlen_nil; lia).
  rewrite ptrdiff2int_Some, land_ff, Z.mod_small by (unfold is_int, INT_MIN, INT_MAX; lia).
  rewrite int2octet_Some by (unfold is_byte; lia).
  replace (b ++ VDAT_ALTERNATE :: 0 :: l) with ((b ++ [VDAT_ALTERNATE]) ++ 0 :: l) by (rewrite <- app_assoc; reflexivity).
  rewrite wr_hole; cbn [cbind]; rewrite <- app_assoc; cbn [app]; rewrite enc_params_one.
  rewrite land_ff, Z.mod_small, count_ok with (d := VDAT_ALTERNATE :: zlen l :: l)
    by (rewrite ?zlen_app, ?zlen_cons; lia); reflexivity.
Qed.

Lemma put_selector_stores code sel len : is_byte code -> zlen sel = TSSIZE -> len <= TSSIZE ->
  stores cap (put_selector cap code sel len) (selector_params code sel len).
Proof.
  intros C S Ln; unfold selector_params, put_selector, TSSIZE in *; rewrite !Z.gtb_ltb; destruct (Z.ltb_spec 0 len) as [P|P];
    [|apply stores_nothing; reflexivity].
  pose proof (zlen_ztake len sel ltac:(lia)) as Zt; intros b L; rewrite enc_params_one, !zlen_cons, Zt in L; cbn [fst snd].
  rewrite int2u8_Some, vput_ok by first [assumption | unfold is_byte; lia]; cbn [cbind].
  rewrite wrc_end by (rewrite zlen_app, !zlen_one; lia); cbn [cbind].
  unfold bcopy_int, rdn_ptr, cmap; rewrite int2sizet_Some, rdn_in by lia; rewrite zdrop_0 by lia; cbn [cbind].
  rewrite wrc_end by (rewrite !zlen_app, !zlen_one; lia); cbn [cbind]; rewrite <- !app_assoc; cbn [app].
  rewrite enc_params_one, Zt, count_ok with (d := code :: len :: ztake len sel) by (rewrite ?zlen_app, !zlen_cons; lia); reflexivity.
Qed.

Lemma cr_params_length t : crvar_ok (t_cr t) ->
  zlen (enc_params (cr_params t)) <= 3 + 7 + (2 + t_callinglen (t_cr t)) + (2 + t_calledlen (t_cr t)) + 3.
Proof.
  intros ((A & B) & _ & _ & C & D & _); unfold cr_params; rewrite !enc_params_app, !zlen_app.
  assert (E : forall c sel len, zlen sel = TSSIZE -> 0 <= len <= TSSIZE -> zlen (enc_params (selector_params c sel len)) <= 2 + len).
  { intros c sel len S L; unfold selector_params; rewrite Z.gtb_ltb; destruct (Z.ltb_spec 0 len); [|change (zlen (enc_params [])) with 0; lia].
    rewrite enc_params_one, !zlen_cons, zlen_ztake by lia; lia. }
  pose proof (E VDAT_TSAP_CLI _ _ B D); pose proof (E VDAT_TSAP_SRV _ _ A C).
  assert (zlen (enc_params (option_params t)) <= 3) by (unfold option_params; destruct (_ =? 0); cbv; discriminate).
  assert (zlen (enc_params (size_params t)) <= 3) by (unfold size_params; destruct (_ =? 0); cbv; discriminate).
  assert (zlen (enc_params (alternate_params t)) <= 7).
  { unfold alternate_params; destruct (_ && _)%bool; [|cbv; discriminate].
    destruct (alternates_ok (t_alternate (t_cr t))); rewrite enc_params_one, !zlen_cons; lia. }
  lia.
Qed.

Lemma put_variable_ok t : crvar_ok (t_cr t) -> zlen (enc_params (cr_params t)) <= cap ->
  put_variable cap t = Val (true, (enc_params (cr_params t), zlen (enc_params (cr_params t)))).
Proof.
  intros ((A & B) & _ & _ & C & D & E & F & _) L; unfold cr_params in *; rewrite !enc_params_app in *; rewrite !zlen_app in L.
  set (e1 := enc_params (option_params t)) in *; set (e2 := enc_params (alternate_params t)) in *.
  set (e3 := enc_params (selector_params VDAT_TSAP_CLI _ _)) in *; set (e4 := enc_params (selector_params VDAT_TSAP_SRV _ _)) in *.
  set (e5 := enc_params (size_params t)) in *.
  pose proof (zlen_nonneg e1); pose proof (zlen_nonneg e2); pose proof (zlen_nonneg e3); pose proof (zlen_nonneg e4); pose proof (zlen_nonneg e5).
  assert (S1 : put_options cap t ([], 0) = Val (true, (e1, zlen e1))) by (apply (put_options_stores t F []); fold e1; rewrite zlen_nil; lia).
  pose proof (vthen_stores cap _ _ e1 _ (put_alternates_stores t) S1 ltac:(fold e2; lia)) as S2; fold e2 in S2.
  pose proof (vthen_stores cap _ _ _ _ (put_selector_stores VDAT_TSAP_CLI _ _ ltac:(cbv; easy) B (proj2 D)) S2
                ltac:(fold e3; rewrite zlen_app; lia)) as S3; fold e3 in S3.
  pose proof (vthen_stores cap _ _ _ _ (put_selector_stores VDAT_TSAP_SRV _ _ ltac:(cbv; easy) A (proj2 C)) S3
                ltac:(fold e4; rewrite !zlen_app; lia)) as S4; fold e4 in S4.
  pose proof (vthen_stores cap _ _ _ _ (put_tpdusize_stores t E) S4 ltac:(fold e5; rewrite !zlen_app; lia)) as S5; fold e5 in S5.
  rewrite <- !app_assoc in S5; exact S5.
Qed.
End Steps.

(** ** What a network promises to the writer

    The octets of a packet from the length indicator on, [n] of them in the
    fixed part; [out_frame] is what the network puts in front of them.
    [out_octets] is what it was given so far. [out_fits] is what [writefnx]
    takes without undefined behaviour, and [out_accepts] without failing;
    [out_kept] is what a write keeps of its state. *)
Definition tpkt_octets (t : tsapkt) (n : Z) : list Z :=
  t_li t :: t_code t :: ztake n (t_un t) ++
  (match t_vdata t with Some d => ztake (t_vlen t) d | None => [] end) ++ user_data t.

Definition parts_ok (t : tsapkt) (n : Z) : Prop :=
  is_byte (t_li t) /\ is_byte (t_code t) /\ is_byte (t_vrsn t) /\ 0 <= n <= zlen (t_un t) /\ bytes (t_un t) /\
  match t_vdata t with Some d => 0 <= t_vlen t <= zlen d /\ bytes d | None => t_vlen t = 0 end /\
  udvec_ok (t_udvec t) /\ 4 + zlen (tpkt_octets t n) < 65536 /\ t_length t = htons (4 + zlen (tpkt_octets t n)).

Class TsWriter (N : Type) `{TsOut N} := {
  out_ok : N -> Prop;
  out_octets : N -> list Z;
  out_frame : tsapkt -> list Z;
  out_fits : N -> Z -> Prop;
  out_accepts : N -> Z -> Prop;
  out_kept : N -> N -> Prop;
  write_law : forall tb t n, out_ok tb -> parts_ok t n -> out_fits tb (zlen (tpkt_octets t n)) ->
    exists rc tb', writefnx tb t (t_un t) n = Val (rc, tb') /\ out_ok tb' /\ out_kept tb tb' /\
      (rc <> NOTOK -> out_octets tb' = out_octets tb ++ out_frame t ++ tpkt_octets t n) /\
      (out_accepts tb (zlen (tpkt_octets t n)) -> rc <> NOTOK)
}.

(** ** The packet as it is written *)

Definition variable_part (t : tsapkt) : list Z := enc_params (p_params (tpdu_of t)).

(** [t_vlen], [t_vdata], [t_li] and [t_length] as [tpkt2fd] sets them. *)
Definition prepared (t : tsapkt) : tsapkt :=
  let v := variable_part t in
  set_t_length (set_t_li (set_t_var (set_t_vrsn t TPKT_VRSN) (zlen v) (match v with [] => None | _ => Some v end))
    (tpdu_li (tpdu_of t))) (htons (4 + zlen (enc_tpdu (tpdu_of t)))).

Lemma size_of_spec t : packet_ok t -> tpdu_size (TPDU_CODE t) = Some (size_of t) /\ 0 < size_of t <= 5.
Proof.
  intros (_ & _ & _ & S & _); unfold size_of; destruct (tpdu_size (TPDU_CODE t)) eqn:E; [|easy].
  split; [reflexivity | apply (tpdu_size_range _ _ E)].
Qed.

Lemma zlen_fixed t : packet_ok t -> zlen (p_fixed (tpdu_of t)) = size_of t.
Proof. intros O; pose proof (size_of_spec t O) as (_ & S); destruct O as (_ & _ & _ & _ & U & _); apply zlen_ztake; lia. Qed.

Lemma ulen_spec l : Forall uv_ok l -> forall n, 0 <= n -> n + zlen (concat (map uv_octets l)) <= 65536 ->
  fold_left (fun ulen uv => i32 (ulen + uv_len uv)) l n = n + zlen (concat (map uv_octets l)).
Proof.
  induction 1 as [|u l (U & _) _ IH]; intros n N L; cbn [fold_left map concat]; [rewrite zlen_nil; lia|].
  cbn [map concat] in L; rewrite zlen_app in *; pose proof (zlen_nonneg (concat (map uv_octets l))).
  assert (E : zlen (uv_octets u) = uv_len u) by (apply zlen_ztake; lia); rewrite E in *.
  rewrite i32_id by (unfold is_int, INT_MIN, INT_MAX; lia); rewrite IH by lia; lia.
Qed.

Lemma zlen_tpdu t : packet_ok t ->
  zlen (enc_tpdu (tpdu_of t)) = 1 + tpdu_li (tpdu_of t) + zlen (user_data t) /\
  tpdu_li (tpdu_of t) = 1 + size_of t + zlen (variable_part t).
Proof.
  intros O; pose proof (zlen_fixed t O) as F; unfold enc_tpdu, tpdu_li, variable_part in *; rewrite !zlen_cons, !zlen_app, F.
  change (p_data (tpdu_of t)) with (user_data t); lia.
Qed.

(** The variable part is short, so that the length indicator is too. *)
Lemma variable_length t : packet_ok t -> 0 <= zlen (variable_part t) <= 145.
Proof.
  intros (_ & _ & _ & _ & _ & _ & C & _); unfold variable_part; cbn [tpdu_of p_params]; destruct (is_cr t); [|cbv; split; discriminate].
  pose proof (cr_params_length t C); destruct C as (_ & _ & _ & A & B & _); unfold TSSIZE in *; pose proof (zlen_nonneg (enc_params (cr_params t))); lia.
Qed.

Lemma set_tpdu_li_ok t size : 0 <= size <= 5 -> 0 <= t_vlen t <= 145 ->
  set_tpdu_li t (size + 1) = Some (set_t_li t (1 + size + t_vlen t)).
Proof.
  intros S V; unfold set_tpdu_li; rewrite int2sizet_Some by lia; rewrite !Z.gtb_ltb.
  destruct (Z.ltb_spec 254 (size + 1)), (Z.ltb_spec (254 - (size + 1)) (t_vlen t)); try lia; cbn [orb].
  rewrite u8_id by (unfold is_byte; lia); do 2 f_equal; lia.
Qed.

Section Writer.
Context {N : Type} `{TsWriter N} `{Allocator} (Mem : memory_ok).

Lemma cr_variable_ok t : crvar_ok (t_cr t) ->
  let v := enc_params (cr_params t) in
  cr_variable t = Val (OK, set_t_li (set_t_var t (zlen v) (match v with [] => None | _ => Some v end)) (6 + zlen v)).
Proof.
  intros C v; pose proof (cr_params_length t C) as L; fold v in L; unfold cr_variable.
  assert (C' := C); destruct C' as (_ & _ & _ & A & B & _); unfold TSSIZE in *; rewrite u32_id by lia; rewrite Mem.
  rewrite put_variable_ok by first [exact C | lia | exact L]; fold v; cbn [cbind negb]; pose proof (zlen_nonneg v).
  destruct (Z.eqb_spec (zlen v) 0) as [E|E].
  - unfold TPDU_MINLEN, CR_SIZE; rewrite set_tpdu_li_ok by (cbn [t_vlen set_t_var]; lia).
    apply zlen_0 in E; rewrite E; reflexivity.
  - unfold TPDU_MINLEN, CR_SIZE; rewrite set_tpdu_li_ok by (cbn [t_vlen set_t_var]; lia).
    destruct v; [destruct E; reflexivity | reflexivity].
Qed.

Lemma tpdu_parts_ok t : packet_ok t -> t_vlen t = 0 -> t_vdata t = None ->
  let v := variable_part t in
  tpdu_parts t (zlen (user_data t)) =
    Val (OK, size_of t, set_t_li (set_t_var t (zlen v) (match v with [] => None | _ => Some v end)) (tpdu_li (tpdu_of t))).
Proof.
  intros O V D v; destruct (zlen_tpdu t O) as (_ & Li); fold v in Li; destruct (size_of_spec t O) as (_ & R).
  assert (E : size_of t = match tpdu_size (TPDU_CODE t) with Some n => n | None => 0 end) by reflexivity.
  unfold tpdu_parts, variable_part, tpdu_of in *; cbn [p_params] in *; unfold is_cr in *; unfold tpdu_size in E.
  destruct ((TPDU_CODE t =? TPDU_CR) || (TPDU_CODE t =? TPDU_CC))%bool.
  - rewrite cr_variable_ok by apply O; rewrite Li, E; reflexivity.
  - change (enc_params []) with (@nil Z) in v; subst v; change (zlen []) with 0 in *; cbn match.
    assert (T : set_t_var t 0 None = t) by (rewrite <- V, <- D; destruct t; reflexivity); rewrite T.
    assert (S : forall size, size_of t = size -> set_li t size = (OK, set_t_li t (1 + size_of t + 0))).
    { intros size <-; unfold set_li, TPDU_MINLEN; rewrite set_tpdu_li_ok by lia; rewrite V; reflexivity. }
    rewrite Li; destruct (Z.eqb_spec (TPDU_CODE t) TPDU_DR); [rewrite (S DR_SIZE E), E; reflexivity|].
    destruct (Z.eqb_spec (TPDU_CODE t) TPDU_DT); [rewrite (S DT_SIZE E), E; reflexivity|].
    destruct (Z.eqb_spec (TPDU_CODE t) TPDU_ED); [rewrite (S ED_SIZE E), E; reflexivity|].
    destruct (Z.eqb_spec (TPDU_CODE t) TPDU_ER) as [Er|]; [|lia]; rewrite (S ER_SIZE E), E.
    destruct O as (_ & _ & _ & _ & _ & _ & _ & _ & U & _); rewrite (U Er); reflexivity.
Qed.

Lemma packet_ok_start t : packet_ok t -> packet_ok (set_t_var (set_t_vrsn t TPKT_VRSN) 0 None).
Proof. intros (A & _ & B); split; [exact A|]; split; [left; reflexivity | exact B]. Qed.

Lemma prepared_octets t : packet_ok t -> tpkt_octets (prepared t) (size_of t) = enc_tpdu (tpdu_of t).
Proof.
  intros _; unfold tpkt_octets, enc_tpdu; change (t_vlen (prepared t)) with (zlen (variable_part t)).
  change (t_vdata (prepared t)) with (match variable_part t with [] => None | _ => Some (variable_part t) end).
  fold (variable_part t); destruct (variable_part t) as [|a v]; [reflexivity|].
  rewrite (ztake_all (zlen (a :: v)) (a :: v)) by lia; reflexivity.
Qed.

Lemma enc_params_bytes code ps : Forall (param_ok code) ps -> bytes (enc_params ps).
Proof.
  induction 1 as [|[c v] ps (A & B & C & _) _ IH]; [constructor|]; cbn [fst snd] in *; rewrite enc_params_cons.
  pose proof (zlen_nonneg v); apply bytes_cons; split; [exact A|]; apply bytes_cons; split; [split; lia|]; apply bytes_app; auto.
Qed.

Lemma enc_tpdu_bytes p : tpdu_ok p -> bytes (enc_tpdu p).
Proof.
  intros (C & _ & F & P & D & L); apply enc_params_bytes in P; unfold enc_tpdu; apply bytes_cons; split.
  - unfold is_byte, tpdu_li in *; pose proof (zlen_nonneg (p_fixed p)); pose proof (zlen_nonneg (enc_params (p_params p))); lia.
  - apply bytes_cons; split; [exact C|]; apply bytes_app; split; [exact F|]; apply bytes_app; split; assumption.
Qed.

Lemma cr_params_ok t : crvar_ok (t_cr t) -> is_cr t = true -> Forall (param_ok (TPDU_CODE t)) (cr_params t).
Proof.
  intros ((S1 & S2) & B1 & B2 & L1 & L2 & Ts & Op & _) C; unfold cr_params, is_cr in *; unfold TSSIZE in *.
  assert (K : forall c v, is_byte c -> bytes v -> zlen v < 256 -> param_okb TPDU_CC (c, v) = true -> param_ok (TPDU_CODE t) (c, v)).
  { intros c v Bc Bv L E; repeat split; try apply Bc; try assumption; unfold param_okb in *; rewrite C; cbn [fst snd] in *.
    change ((TPDU_CC =? TPDU_CR) || (TPDU_CC =? TPDU_CC))%bool with true in E; cbn match in E.
    destruct (existsb _ [VDAT_SIZE; VDAT_OPTIONS]); [exact E|]; apply orb_true_iff; right; exact E. }
  assert (Sel : forall c sel n, (c = VDAT_TSAP_CLI \/ c = VDAT_TSAP_SRV) -> bytes sel -> zlen sel = 64 -> n <= 64 ->
            Forall (param_ok (TPDU_CODE t)) (selector_params c sel n)).
  { intros c sel n Hc B S L; unfold selector_params; rewrite Z.gtb_ltb; destruct (Z.ltb_spec 0 n); [|constructor].
    constructor; [|constructor]; apply K; [destruct Hc as [-> | ->]; cbv; easy | apply Forall_ztake, B | rewrite zlen_ztake by lia; lia|].
    destruct Hc as [-> | ->]; reflexivity. }
  repeat (apply Forall_app; split).
  - unfold option_params; destruct (_ =? 0); constructor; [|constructor]; apply K; [cbv; easy | repeat constructor; apply Op | cbv; easy | reflexivity].
  - unfold alternate_params; destruct (_ && _)%bool; constructor; [|constructor].
    destruct (alternates_ok (t_alternate (t_cr t))) as (Ba & La); apply K; [cbv; easy | exact Ba | lia | reflexivity].
  - apply Sel; auto; lia.
  - apply Sel; auto; lia.
  - unfold size_params; destruct (_ =? 0); constructor; [|constructor]; apply K; [cbv; easy | repeat constructor; apply Ts | cbv; easy | reflexivity].
Qed.

Lemma user_data_bytes t : Forall uv_ok (t_udvec t) -> bytes (user_data t).
Proof. unfold user_data; induction 1 as [|u l (_ & B) _ IH]; [constructor|]; cbn [map concat]; apply bytes_app; auto. Qed.

Lemma tpdu_of_ok t : packet_ok t -> tpdu_ok (tpdu_of t).
Proof.
  intros O; pose proof (size_of_spec t O) as (S & R); pose proof (variable_length t O) as V.
  destruct (zlen_tpdu t O) as (_ & Li); pose proof (zlen_fixed t O) as F.
  destruct O as (_ & _ & C & _ & U & Bu & Cr & Uv & _ & _); split; [exact C|]; split; [rewrite F; exact S|].
  split; [apply Forall_ztake, Bu|]; split; [|split; [apply user_data_bytes, (proj1 Uv) | lia]].
  cbn [tpdu_of p_params p_code]; destruct (is_cr t) eqn:E; [apply cr_params_ok; assumption | constructor].
Qed.

Lemma prepared_parts t : packet_ok t -> parts_ok (prepared t) (size_of t).
Proof.
  intros O; pose proof (prepared_octets t O) as E; pose proof (tpdu_of_ok t O) as (_ & _ & _ & P & _ & _).
  pose proof (size_of_spec t O) as (_ & R); pose proof (variable_length t O) as V; destruct (zlen_tpdu t O) as (_ & Li).
  unfold parts_ok; rewrite E; destruct O as (_ & _ & C & _ & U & Bu & _ & Uv & _ & L).
  change (t_li (prepared t)) with (tpdu_li (tpdu_of t)); change (t_un (prepared t)) with (t_un t).
  change (t_vlen (prepared t)) with (zlen (variable_part t)).
  change (t_vdata (prepared t)) with (match variable_part t with [] => None | _ => Some (variable_part t) end).
  split; [unfold is_byte; lia|]; split; [exact C|]; split; [cbv; easy|]; split; [lia|]; split; [exact Bu|].
  split; [|split; [exact Uv | split; [exact L | reflexivity]]].
  apply enc_params_bytes in P; fold (variable_part t) in P; destruct (variable_part t); [reflexivity | split; [lia | exact P]].
Qed.

Lemma tpkt2fd_spec tb t : out_ok tb -> packet_ok t -> out_fits tb (zlen (enc_tpdu (tpdu_of t))) ->
  exists rc t' tb', tpkt2fd tb t = Val (rc, t', tb') /\ out_ok tb' /\ out_kept tb tb' /\ (rc = OK \/ rc = NOTOK) /\
    (rc = OK -> t' = prepared t /\ out_octets tb' = out_octets tb ++ out_frame (prepared t) ++ enc_tpdu (tpdu_of t)) /\
    (out_accepts tb (zlen (enc_tpdu (tpdu_of t))) -> rc = OK) /\ (rc = NOTOK -> t_errno t' = DR_NETWORK).
Proof.
  intros Ob O F; pose proof (prepared_octets t O) as E; unfold tpkt2fd.
  pose proof O as (Er & Vr & _ & _ & _ & _ & _ & (Uv & _) & _ & L); rewrite Er; change (negb (OK =? OK)) with false; cbn match.
  replace (negb (t_vrsn t =? TPKT_VRSN) && negb (t_vrsn t =? 0))%bool with false by (destruct Vr as [-> | ->]; reflexivity).
  destruct (zlen_tpdu t O) as (Zt & Li); pose proof (variable_length t O) as V; pose proof (size_of_spec t O) as (_ & R).
  pose proof (zlen_nonneg (user_data t)).
  change (t_udvec (set_t_var _ _ _)) with (t_udvec t); rewrite ulen_spec by (try assumption; fold (user_data t); lia).
  rewrite Z.add_0_l; fold (user_data t); set (t1 := set_t_var _ 0 None).
  change (user_data t) with (user_data t1); rewrite (tpdu_parts_ok t1 (packet_ok_start t O) eq_refl eq_refl); cbn [cbind].
  change (negb (OK =? OK)) with false; cbn match; set (t2 := set_t_li _ _).
  change (t_li t2) with (tpdu_li (tpdu_of t)); change (user_data t1) with (user_data t); rewrite !Z.gtb_ltb.
  destruct (Z.ltb_spec (INT_MAX - 5) (tpdu_li (tpdu_of t))); [unfold INT_MAX in *; lia|].
  destruct (Z.ltb_spec (INT_MAX - 5 - tpdu_li (tpdu_of t)) (zlen (user_data t))); [unfold INT_MAX in *; lia|]; cbn [orb].
  rewrite int2u16_Some by lia.
  replace (set_t_length t2 _) with (prepared t) by (unfold prepared; fold t1; do 2 f_equal; lia).
  change (t_un t2) with (t_un (prepared t)); change (size_of t1) with (size_of t).
  rewrite <- E in F; destruct (write_law tb (prepared t) (size_of t) Ob (prepared_parts t O) F) as (i & tb' & -> & Ob' & Kp & W & A).
  cbn [cbind]; rewrite E in *; destruct (Z.eqb_spec i NOTOK) as [->|I]; cbn [negb].
  - change (t_errno (prepared t)) with (t_errno t); rewrite Er; do 3 eexists; split; [reflexivity|]; split; [exact Ob'|]; split; [exact Kp|].
    split; [right; reflexivity|]; split; [discriminate|]; split; [intros Q; destruct (A Q eq_refl) | reflexivity].
  - do 3 eexists; split; [reflexivity|]; split; [exact Ob'|]; split; [exact Kp|]; split; [left; reflexivity|].
    split; [intros _; split; [reflexivity | apply W, I]|]; split; [reflexivity | discriminate].
Qed.
End Writer.

(** * What the peer reads *)

(** The variable fields of a CR or CC as they arrive: the selectors in
    cleared arrays, and the alternative classes when the class is not 0, for
    which only five bits are used. *)
Definition received (t : tsapkt) : crvar :=
  let c := t_cr t in
  CRV (ztake (t_calledlen c) (t_called c) ++ repeat 0 (64 - Z.to_nat (t_calledlen c))) (t_calledlen c)
    (ztake (t_callinglen c) (t_calling c) ++ repeat 0 (64 - Z.to_nat (t_callinglen c))) (t_callinglen c)
    (t_tpdusize c) (t_options c) (if CR_CLASS t =? 0 then 0 else Z.land (t_alternate c) 31).

Definition packet_data (t : tsapkt) : list Z := match t_qbuf t with Some s => seg_octets s | None => [] end.

Lemma alternates_back a : is_byte a -> add_alternates 0 (alternates a) = Z.land a 31.
Proof.
  intros B; apply Z.eqb_eq; revert a B; apply (byte_forall (fun a => add_alternates 0 (alternates a) =? Z.land a 31)).
  vm_compute; reflexivity.
Qed.

Lemma selector_back sel len : zlen sel = TSSIZE -> 0 <= len <= TSSIZE ->
  ztake TSSIZE (ztake len sel) = ztake len sel /\ zlen (ztake len sel) = len /\
  ztake len sel ++ zdrop len (repeat 0 64) = ztake len sel ++ repeat 0 (64 - Z.to_nat len).
Proof.
  intros S L; unfold TSSIZE in *; pose proof (zlen_ztake len sel ltac:(lia)) as Z1.
  split; [apply ztake_all; lia|]; split; [exact Z1|]; unfold zdrop; rewrite skipn_zeros; reflexivity.
Qed.

Lemma cr_params_back t : crvar_ok (t_cr t) -> is_cr t = true ->
  fold_left (param_set (TPDU_CODE t)) (cr_params t) (t_cr new_packet) = received t.
Proof.
  intros ((S1 & S2) & _ & _ & L1 & L2 & Ts & Op & Al) C; unfold cr_params, received; cbv zeta; rewrite !fold_left_app.
  assert (P : forall c p, param_set (TPDU_CODE t) c p = cr_param c p)
    by (intros; unfold param_set, is_cr in *; rewrite C; reflexivity).
  set (k := TPDU_CODE t) in *; destruct (selector_back _ _ S1 L1) as (T1 & Z1 & R1), (selector_back _ _ S2 L2) as (T2 & Z2 & R2).
  assert (F1 : fold_left (param_set k) (option_params t) (t_cr new_packet) = set_options (t_cr new_packet) (t_options (t_cr t)))
    by (unfold option_params; destruct (Z.eqb_spec (t_options (t_cr t)) 0) as [->|]; [reflexivity | cbn [fold_left]; rewrite P; reflexivity]).
  rewrite F1; set (al := if CR_CLASS t =? 0 then 0 else _).
  assert (F2 : forall c, t_alternate c = 0 -> fold_left (param_set k) (alternate_params t) c = set_alternate c al).
  { intros c E; unfold alternate_params, al; destruct (Z.eqb_spec (CR_CLASS t) 0); cbn [negb andb fold_left];
      [rewrite <- E; destruct c; reflexivity|].
    destruct (Z.eqb_spec (t_alternate (t_cr t)) 0) as [A|]; cbn [negb fold_left]; [rewrite A, <- E; destruct c; cbn in E; subst; reflexivity|].
    rewrite P; cbn [cr_param]; change (set_alternate c (add_alternates (t_alternate c) (alternates (t_alternate (t_cr t)))) = set_alternate c (Z.land (t_alternate (t_cr t)) 31)).
    rewrite E, alternates_back by exact Al; reflexivity. }
  rewrite F2 by reflexivity.
  assert (F3 : forall c, t_calling c = repeat 0 64 -> t_callinglen c = 0 -> fold_left (param_set k)
            (selector_params VDAT_TSAP_CLI (t_calling (t_cr t)) (t_callinglen (t_cr t))) c =
            set_calling c (ztake (t_callinglen (t_cr t)) (t_calling (t_cr t)) ++ repeat 0 (64 - Z.to_nat (t_callinglen (t_cr t)))) (t_callinglen (t_cr t))).
  { intros c E1 E2; unfold selector_params; rewrite Z.gtb_ltb; destruct (Z.ltb_spec 0 (t_callinglen (t_cr t))); cbn [fold_left].
    - rewrite P; cbn [cr_param]; change (VDAT_TSAP_CLI =? VDAT_TSAP_SRV) with false; change (VDAT_TSAP_CLI =? VDAT_TSAP_CLI) with true; cbn match.
      rewrite T2, Z2, E1, R2; reflexivity.
    - rewrite ztake_0 by lia; replace (t_callinglen (t_cr t)) with 0 by lia; cbn [app Z.to_nat Nat.sub].
      destruct c; cbn in E1, E2; subst; reflexivity. }
  rewrite F3 by reflexivity.
  assert (F4 : forall c, t_called c = repeat 0 64 -> t_calledlen c = 0 -> fold_left (param_set k)
            (selector_params VDAT_TSAP_SRV (t_called (t_cr t)) (t_calledlen (t_cr t))) c =
            set_called c (ztake (t_calledlen (t_cr t)) (t_called (t_cr t)) ++ repeat 0 (64 - Z.to_nat (t_calledlen (t_cr t)))) (t_calledlen (t_cr t))).
  { intros c E1 E2; unfold selector_params; rewrite Z.gtb_ltb; destruct (Z.ltb_spec 0 (t_calledlen (t_cr t))); cbn [fold_left].
    - rewrite P; cbn [cr_param]; change (VDAT_TSAP_SRV =? VDAT_TSAP_SRV) with true; cbn match.
      rewrite T1, Z1, E1, R1; reflexivity.
    - rewrite ztake_0 by lia; replace (t_calledlen (t_cr t)) with 0 by lia; cbn [app Z.to_nat Nat.sub].
      destruct c; cbn in E1, E2; subst; reflexivity. }
  rewrite F4 by reflexivity.
  unfold size_params; destruct (Z.eqb_spec (t_tpdusize (t_cr t)) 0) as [->|]; [reflexivity | cbn [fold_left]; rewrite P; reflexivity].
Qed.

(** The packet read for one written. *)
Lemma packet_back r t : packet_ok t -> let q := packet_of r (tpdu_of t) in
  t_code q = t_code t /\ ztake (size_of t) (t_un q) = ztake (size_of t) (t_un t) /\
  (is_cr t = true -> t_cr q = received t) /\ packet_data q = user_data t.
Proof.
  intros O q; split; [reflexivity|]; split; [|split].
  - apply ztake_app_exact; symmetry; apply zlen_fixed, O.
  - intros C; subst q; unfold packet_of, tpdu_of; cbn [t_cr p_params p_code]; rewrite C; apply cr_params_back; [apply O | exact C].
  - subst q; unfold packet_of, packet_data, tpdu_of; cbn [t_qbuf p_data]; destruct (user_data t) as [|a d]; [reflexivity|].
    apply ztake_all; cbn [seg_len]; lia.
Qed.

(** C35. A TPDU that is written and read again is the same TPDU, whatever the
    two networks: [tpkt2fd] gives its network the encoding [x] of the packet
    after the frame, and from any network that delivers [x] in a packet of
    its length [fd2tpkt] returns the code, the fixed part, for CR and CC the
    selectors, size, options and alternative classes, and the user data that
    was in the vector, and leaves what follows. *)
Theorem tpkt2fd_fd2tpkt : forall (N M : Type) (O : TsOut N) (W : TsWriter N) (I : TsIn M) (R : TsReader M) (A : Allocator)
  sizeof_tpkt sizeof_qb (tb : N) t,
  memory_ok -> out_ok tb -> packet_ok t -> out_fits tb (zlen (enc_tpdu (tpdu_of t))) ->
  out_accepts tb (zlen (enc_tpdu (tpdu_of t))) ->
  exists t' tb' x, tpkt2fd tb t = Val (OK, t', tb') /\ out_ok tb' /\
    out_octets tb' = out_octets tb ++ out_frame t' ++ x /\
    forall (s : M) r rest, net_ok s -> net_frames s r (4 + zlen x) (x ++ rest) ->
      exists q s', fd2tpkt sizeof_tpkt sizeof_qb s = Val (Some q, s') /\ net_ok s' /\ net_input s' = rest /\
        t_errno q = OK /\ t_code q = t_code t /\ ztake (size_of t) (t_un q) = ztake (size_of t) (t_un t) /\
        (is_cr t = true -> t_cr q = received t) /\ packet_data q = user_data t.
Proof.
  intros N M O W I R A st sq tb t Mem Ob P F Acc.
  destruct (tpkt2fd_spec Mem tb t Ob P F) as (rc & t' & tb' & E & Ob' & _ & _ & Ok & Ac & _).
  specialize (Ac Acc); subst rc; destruct (Ok eq_refl) as (-> & Oo).
  exists (prepared t), tb', (enc_tpdu (tpdu_of t)); split; [exact E|]; split; [exact Ob'|]; split; [exact Oo|].
  intros s r rest G Fr; unfold fd2tpkt, newtpkt; rewrite Mem, int2u8_Some by (cbv; easy); cbn match.
  destruct (fd2tpktaux_spec sq s Mem G) as (rc & q & s' & -> & G' & _ & C); cbn [cbind].
  destruct (C r (tpdu_of t) rest) as (-> & -> & Rest); [split; [apply tpdu_of_ok, P | split; [apply P | exact Fr]]|].
  change (OK =? OK) with true; cbn match; do 2 eexists; split; [reflexivity|]; split; [exact G'|]; split; [exact Rest|].
  split; [reflexivity|]; exact (packet_back r t P).
Qed.
