(* ===== verification/StrTpkt.v ===== *)
(** * tsap: TPDUs as strings (str2tpkt.c, compat/explode.c, compat/implode.c)

    A listener passes the TPDU it read to the program that serves the
    connection as a string of hexadecimal digits. [StrIn] and [StrOut] are
    the static variables of [getfnx] and [readfnx], and of [writefnx]. *)

From S2P Require Import Prelude Conv Convert PElement PStream Pe2Ps Qbuf Tpkt Tpkt2fd.
Open Scope Z_scope.
Open Scope c_scope.

(** ** explode.c, implode.c *)

Definition nib2hex : list Z := [48; 49; 50; 51; 52; 53; 54; 55; 56; 57; 97; 98; 99; 100; 101; 102].

Definition hex2nib : list Z :=
  repeat 0 48 ++ [0; 1; 2; 3; 4; 5; 6; 7; 8; 9] ++ repeat 0 7 ++ [10; 11; 12; 13; 14; 15] ++ repeat 0 26 ++
  [10; 11; 12; 13; 14; 15] ++ repeat 0 25.

(** The digits of the [n] octets at [b], written to an array of [cap]
    characters with the null that follows them. *)
Fixpoint explode_loop (fuel : nat) (cap : Z) (a b : list Z) (i n : Z) : cres (list Z) :=
  if i <? n then
    match fuel with
    | O => UB
    | S fuel' =>
        c <- rd b i;;
        h <- rd nib2hex (Z.shiftr (u8 (Z.land c 240)) 4);;
        l <- rd nib2hex (Z.land c 15);;
        a <- wrc cap a (zlen a) [h; l];;
        explode_loop fuel' cap a b (i + 1) n
    end
  else (_ <- wrc cap a (zlen a) [0];; Val a).

(** The string, without its null, and the result. *)
Definition explode (cap : Z) (b : list Z) (n : Z) : cres (list Z * Z) :=
  a <- explode_loop (Z.to_nat n) cap [] b 0 n;; Val (a, i32 (n * 2)).

(** The octets written to an array of [cap] octets; [b] includes the null
    of the string. *)
Fixpoint implode_loop (fuel : nat) (cap : Z) (a b : list Z) (i n : Z) : cres (option (list Z)) :=
  if i <? n then
    match fuel with
    | O => UB
    | S fuel' =>
        x <- rd b i;;
        y <- rd b (i + 1);;
        h <- rd hex2nib (Z.land x 127);;
        l <- rd hex2nib (Z.land y 127);;
        match int2u8 (Z.lor (Z.shiftl h 4) (Z.land l 15)) with
        | None => Val None
        | Some octet => a <- wrc cap a (zlen a) [octet];; implode_loop fuel' cap a b (i + 2) n
        end
    end
  else Val (Some a).

Definition implode (cap : Z) (b : list Z) (n : Z) : cres (list Z * Z) :=
  a <- implode_loop (Z.to_nat n) cap [] b 0 n;;
  Val (match a with Some a => (a, Z.quot n 2) | None => ([], NOTOK) end).

(** ** str2tpkt *)

(** [cc] of [getfnx]; the octets from [bp] on and [cc] of [readfnx]. *)
Record StrIn : Type := SIn { get_cc : Z; read_bp : list Z; read_cc : Z }.

Definition str_readfnx (s : StrIn) (n : Z) : cres (Z * list Z * StrIn) :=
  let i := if read_cc s <? n then read_cc s else n in
  if i >? 0 then
    d <- bcopy_int (Some (read_bp s)) i;;
    Val (match d with
         | None => (NOTOK, [], s)
         | Some d => (i, d, SIn (get_cc s) (zdrop i (read_bp s)) (read_cc s - i))
         end)
  else Val (i, [], s).

(** [getfnx (NOTOK, NULLPKT, packet, n)] *)
Definition getfnx_start (packet : list Z) (n : Z) : StrIn := SIn n packet n.

Definition getfnx (s : StrIn) (t : tsapkt) : cres (Z * tsapkt * StrIn) :=
  let cc := get_cc s in
  if (cc <? 0) || (cc >? INT_MAX - 4) then Val (DR_LENGTH, t, s)
  else
    match int2u16 (cc + 4) with
    | None => Val (DR_LENGTH, t, s)
    | Some len =>
        let t := set_t_vrsn (set_t_length t len) TPKT_VRSN in
        ' (n, d, s) <- str_readfnx s 1;;
        let t := set_t_li t (hd (t_li t) d) in
        if negb (n =? 1) then Val (DR_LENGTH, t, s)
        else
          ' (n, d, s) <- str_readfnx s 1;;
          let t := set_t_hdr t (t_vrsn t) (t_rsrvd t) (t_length t) (t_li t) (hd (t_code t) d) in
          Val (if n =? 1 then OK else DR_LENGTH, t, s)
    end.

#[global] Instance StrNet : TsIn StrIn := {| initfnx := getfnx; readfnx := str_readfnx |}.

(** [strlen] of the string, whose null is not in [buffer]. *)
Definition str2tpkt `{Allocator} (sizeof_tpkt sizeof_qb : Z) (buffer : list Z) : cres (option tsapkt) :=
  match sizet2int (zlen buffer) with
  | None => Val None
  | Some blen =>
      ' (packet, n) <- implode BUFSIZ (buffer ++ [0]) blen;;
      ' (t, _) <- fd2tpkt sizeof_tpkt sizeof_qb (getfnx_start packet n);;
      Val t
  end.

(** ** tpkt2str *)

(** The octets of [packet] stored so far, of which [cc] counts those of
    [writefnx]. *)
Record StrOut : Type := SOut { put_packet : list Z; put_cc : Z }.

Definition str_writefnx (s : StrOut) (buffer : list Z) (n : Z) : cres (Z * StrOut) :=
  d <- bcopy_int (Some buffer) n;;
  match d with
  | None => Val (NOTOK, s)
  | Some d => p <- wrc BUFSIZ (put_packet s) (put_cc s) d;; Val (n, SOut p (i32 (put_cc s + n)))
  end.

(** The elements of the vector; [None] for NOTOK. *)
Fixpoint put_vector (s : StrOut) (cc : Z) (l : list udvec) : cres (option Z * StrOut) :=
  match l with
  | [] => Val (Some cc, s)
  | uv :: l' =>
      ' (n, s) <- str_writefnx s (uv_base uv) (uv_len uv);;
      if negb (n =? uv_len uv) then Val (None, s) else put_vector s (i32 (cc + uv_len uv)) l'
  end.

Definition putfnx (s : StrOut) (t : tsapkt) (cp : list Z) (n : Z) : cres (Z * StrOut) :=
  ' (k, s) <- str_writefnx s [t_li t] 1;;
  if negb (k =? 1) then Val (NOTOK, s)
  else
    ' (k, s) <- str_writefnx s [t_code t] 1;;
    if negb (k =? 1) then Val (NOTOK, s)
    else
      ' (k, s) <- str_writefnx s cp n;;
      if negb (k =? n) then Val (NOTOK, s)
      else
        ' (k, s) <- (match t_vdata t with
                     | Some d => str_writefnx s d (t_vlen t)
                     | None => Val (t_vlen t, s)
                     end);;
        if negb (k =? t_vlen t) then Val (NOTOK, s)
        else
          ' (cc, s) <- put_vector s (i32 (2 + n + t_vlen t)) (t_udvec t);;
          Val (match cc with Some cc => cc | None => NOTOK end, s).

#[global] Instance StrTo : TsOut StrOut := {| writefnx := putfnx |}.

(** The string and the packet; the static [buffer] has room for [packet]. *)
Definition tpkt2str `{Allocator} (t : tsapkt) : cres (option (list Z) * tsapkt) :=
  ' (rc, t, s) <- tpkt2fd (SOut [] 0) t;;
  if rc =? NOTOK then Val (None, t)
  else
    let cc := put_cc s in
    r <- (match t_qbuf t with
          | None => Val (Some (put_packet s, cc))
          | Some q =>
              d <- bcopy_int (Some (qb_data q)) (seg_len q);;
              match d with
              | None => Val None
              | Some d => p <- wrc BUFSIZ (put_packet s) cc d;; Val (Some (p, i32 (cc + seg_len q)))
              end
          end);;
    match r with
    | None => Val (None, t)
    | Some (p, cc) => ' (str, _) <- explode (2 * BUFSIZ + 1) p cc;; Val (Some str, t)
    end.

(** * A string is a network *)

#[local] Obligation Tactic := idtac.

Definition strin_ok (s : StrIn) : Prop :=
  0 <= read_cc s <= zlen (read_bp s) /\ bytes (ztake (read_cc s) (read_bp s)) /\ read_cc s <= get_cc s.

Definition strin_input (s : StrIn) : list Z := ztake (read_cc s) (read_bp s).

Lemma strin_len s : strin_ok s -> zlen (strin_input s) = read_cc s.
Proof. intros (L & _); apply zlen_ztake; lia. Qed.

Lemma zdrop_ztake {A} a b (l : list A) : 0 <= a <= b -> zdrop a (ztake b l) = ztake (b - a) (zdrop a l).
Proof. intros; unfold ztake, zdrop; rewrite skipn_firstn_comm; f_equal; lia. Qed.

Lemma str_readfnx_spec s n : 0 < n -> strin_ok s ->
  exists cc s', str_readfnx s n = Val (cc, ztake cc (strin_input s), s') /\ strin_ok s' /\ get_cc s' = get_cc s /\
    cc = Z.min (zlen (strin_input s)) n /\ strin_input s' = zdrop cc (strin_input s).
Proof.
  intros P O; pose proof (strin_len s O) as L; destruct O as (B & By & C); unfold str_readfnx, strin_input in *; rewrite L.
  set (i := if read_cc s <? n then read_cc s else n).
  assert (Ei : i = Z.min (read_cc s) n) by (subst i; destruct (Z.ltb_spec (read_cc s) n); lia).
  rewrite Z.gtb_ltb; destruct (Z.ltb_spec 0 i).
  - unfold bcopy_int, rdn_ptr, cmap; rewrite int2sizet_Some, rdn_in by lia; cbn [cbind]; rewrite (zdrop_0 0) by lia.
    exists i; eexists; split; [rewrite ztake_ztake by lia; reflexivity|].
    unfold strin_ok; cbn [read_cc read_bp get_cc]; rewrite zlen_zdrop by lia; rewrite <- (zdrop_ztake i (read_cc s)) by lia.
    repeat split; try lia; apply Forall_zdrop, By.
  - exists i; eexists; split; [rewrite ztake_0 by lia; reflexivity|]; repeat split; try lia; [exact By|].
    rewrite (zdrop_0 i) by lia; reflexivity.
Qed.

(** The length and the code are the first two octets. *)
Lemma getfnx_spec s t : strin_ok s -> exists rc t' s', getfnx s t = Val (rc, t', s') /\ strin_ok s' /\
  (rc = OK -> exists li code, t' = set_t_hdr t TPKT_VRSN (t_rsrvd t) (get_cc s + 4) li code /\ 6 <= get_cc s + 4 < 65536 /\
     strin_input s = li :: code :: strin_input s') /\
  (forall li code x, get_cc s + 4 < 65536 -> strin_input s = li :: code :: x -> rc = OK).
Proof.
  intros O; pose proof (strin_len s O) as L; unfold getfnx.
  destruct ((get_cc s <? 0) || (get_cc s >? INT_MAX - 4))%bool eqn:G.
  { do 3 eexists; split; [reflexivity|]; split; [exact O|]; split; [discriminate|]; intros li code x B E.
    destruct O as (O & _ & O'); apply orb_true_iff in G; rewrite Z.gtb_ltb, !Z.ltb_lt in G; unfold INT_MAX in G; lia. }
  apply orb_false_iff in G; rewrite Z.gtb_ltb, !Z.ltb_ge in G.
  destruct (Z.ltb_spec (get_cc s + 4) 65536) as [B|B].
  2: { unfold int2u16; rewrite Z.gtb_ltb; replace (_ || _)%bool with true by (symmetry; btrue).
       do 3 eexists; split; [reflexivity|]; split; [exact O|]; split; [discriminate | lia]. }
  rewrite int2u16_Some by lia.
  destruct (str_readfnx_spec s 1 ltac:(lia) O) as (n & s1 & -> & O1 & C1 & En & I1); cbn [cbind].
  destruct (strin_input s) as [|li x] eqn:E0.
  { change (Z.min (zlen []) 1) with 0 in En; subst n; do 3 eexists; split; [reflexivity|]; split; [exact O1|]; split; [discriminate | discriminate]. }
  rewrite zlen_cons in En; pose proof (zlen_nonneg x); assert (n = 1) as -> by lia.
  change (zdrop 1 (li :: x)) with x in I1; change (hd _ (ztake 1 (li :: x))) with li; change (negb (1 =? 1)) with false; cbn match.
  destruct (str_readfnx_spec s1 1 ltac:(lia) O1) as (n & s2 & -> & O2 & C2 & En2 & I2); cbn [cbind]; rewrite I1 in *.
  destruct x as [|code x].
  { change (Z.min (zlen []) 1) with 0 in En2; subst n; do 3 eexists; split; [reflexivity|]; split; [exact O2|]; split; [discriminate | discriminate]. }
  rewrite zlen_cons in En2; pose proof (zlen_nonneg x); assert (n = 1) as -> by lia.
  change (zdrop 1 (code :: x)) with x in I2; do 3 eexists; split; [reflexivity|]; split; [exact O2|].
  change (1 =? 1) with true; cbn match; split; [|reflexivity]; intros _; exists li, code; split; [reflexivity|].
  rewrite I2; split; [|reflexivity]; rewrite !zlen_cons in L; destruct O as (_ & _ & O); lia.
Qed.

#[global] Program Instance StrReader : TsReader StrIn := {|
  net_ok := strin_ok;
  net_input := strin_input;
  net_frames s r len x := r = 0 /\ len = get_cc s + 4 /\ x = strin_input s
|}.
Next Obligation.
  intros s t O Z0; destruct (getfnx_spec s t O) as (rc & t' & s' & E & O' & A & _); exists rc, t', s'.
  split; [exact E|]; split; [exact O'|]; intros Ok; destruct (A Ok) as (li & code & -> & L & I).
  exists 0, (get_cc s + 4), li, code; rewrite Z0, I; auto.
Qed.
Next Obligation.
  intros s t r len li code x O Z0 L (-> & -> & E); destruct (getfnx_spec s t O) as (rc & t' & s' & Q & O' & A & B).
  assert (rc = OK) as -> by (apply (B li code x); [lia | auto]); destruct (A eq_refl) as (l & c & -> & _ & I).
  rewrite <- E in I; injection I as -> -> ->; rewrite Z0 in Q; exists s'; auto.
Qed.
Next Obligation.
  intros s r len x (_ & B & _) (_ & _ & ->); exact B.
Qed.
Next Obligation.
  intros s n (P & _) O; destruct (str_readfnx_spec s n P O) as (cc & s' & E & O' & _ & C & I); exists cc, s'.
  pose proof (zlen_nonneg (strin_input s)); repeat split; auto; try apply O'; try lia.
  intros Z0; apply zlen_0; lia.
Qed.

(** * A string is written to *)

Definition strout_ok (s : StrOut) : Prop := put_cc s = zlen (put_packet s) /\ put_cc s <= BUFSIZ.

Lemma str_writefnx_ok s b n : strout_ok s -> 0 <= n <= zlen b -> put_cc s + n <= BUFSIZ ->
  exists s', str_writefnx s b n = Val (n, s') /\ strout_ok s' /\ put_packet s' = put_packet s ++ ztake n b.
Proof.
  intros (C & L) N B; unfold str_writefnx, bcopy_int, rdn_ptr, cmap; rewrite int2sizet_Some, rdn_in by lia; cbn [cbind].
  rewrite zdrop_0, C by lia; pose proof (zlen_ztake n b N) as Z1; rewrite wrc_end by (unfold BUFSIZ in *; lia); cbn [cbind].
  pose proof (zlen_nonneg (put_packet s)); rewrite i32_id by (unfold is_int, INT_MIN, INT_MAX, BUFSIZ in *; lia).
  eexists; split; [reflexivity|]; split; [split; cbn [put_cc put_packet]; rewrite ?zlen_app; lia | reflexivity].
Qed.

Lemma put_vector_ok l : Forall uv_ok l -> forall s cc, strout_ok s -> 0 <= cc ->
  put_cc s + zlen (concat (map uv_octets l)) <= BUFSIZ -> cc + zlen (concat (map uv_octets l)) <= 65536 ->
  exists s', put_vector s cc l = Val (Some (cc + zlen (concat (map uv_octets l))), s') /\ strout_ok s' /\
    put_packet s' = put_packet s ++ concat (map uv_octets l).
Proof.
  induction 1 as [|u l (U & _) _ IH]; intros s cc O C B M; cbn [put_vector map concat] in *.
  - rewrite zlen_nil, Z.add_0_r, app_nil_r; eauto.
  - rewrite zlen_app in *; pose proof (zlen_nonneg (concat (map uv_octets l))).
    assert (E : zlen (uv_octets u) = uv_len u) by (apply zlen_ztake; lia); rewrite E in *.
    destruct (str_writefnx_ok s (uv_base u) (uv_len u) O U) as (s1 & -> & O1 & P1); [lia|]; cbn [cbind].
    rewrite Z.eqb_refl; cbn [negb]; rewrite i32_id by (unfold is_int, INT_MIN, INT_MAX; lia).
    assert (K : put_cc s1 = put_cc s + uv_len u) by (destruct O as (-> & _), O1 as (-> & _); rewrite P1, zlen_app; fold (uv_octets u); lia).
    destruct (IH s1 (cc + uv_len u) O1) as (s2 & -> & O2 & P2); try lia; exists s2; rewrite P2, P1, <- app_assoc, Z.add_assoc; auto.
Qed.

Lemma putfnx_ok s t n : strout_ok s -> parts_ok t n -> put_cc s + zlen (tpkt_octets t n) <= BUFSIZ ->
  exists cc s', putfnx s t (t_un t) n = Val (cc, s') /\ 0 <= cc /\ strout_ok s' /\ put_packet s' = put_packet s ++ tpkt_octets t n.
Proof.
  intros O (_ & _ & _ & U & _ & D & (Uv & _) & M & _) B; unfold tpkt_octets in *; rewrite !zlen_cons, !zlen_app in *.
  pose proof (zlen_ztake n (t_un t) U) as Zu; set (v := match t_vdata t with Some d => ztake (t_vlen t) d | None => [] end) in *.
  assert (V : zlen v = t_vlen t) by (subst v; destruct (t_vdata t); [apply zlen_ztake; lia | rewrite D; reflexivity]).
  pose proof (zlen_nonneg (user_data t)); pose proof (zlen_nonneg v); rewrite Zu, V in *; unfold putfnx.
  destruct (str_writefnx_ok s [t_li t] 1 O) as (s1 & -> & O1 & P1); [rewrite zlen_one; lia | lia|]; cbn [cbind].
  assert (K1 : put_cc s1 = put_cc s + 1) by (destruct O as (-> & _), O1 as (-> & _); rewrite P1, zlen_app; reflexivity).
  destruct (str_writefnx_ok s1 [t_code t] 1 O1) as (s2 & -> & O2 & P2); [rewrite zlen_one; lia | lia|]; cbn [cbind].
  assert (K2 : put_cc s2 = put_cc s1 + 1) by (destruct O1 as (-> & _), O2 as (-> & _); rewrite P2, zlen_app; reflexivity).
  change (negb (1 =? 1)) with false; cbn match.
  destruct (str_writefnx_ok s2 (t_un t) n O2 U) as (s3 & -> & O3 & P3); [lia|]; cbn [cbind]; rewrite Z.eqb_refl; cbn [negb].
  assert (K3 : put_cc s3 = put_cc s2 + n) by (destruct O2 as (-> & _), O3 as (-> & _); rewrite P3, zlen_app; lia).
  assert (S4 : exists s4, (match t_vdata t with Some d => str_writefnx s3 d (t_vlen t) | None => Val (t_vlen t, s3) end) = Val (t_vlen t, s4) /\
            strout_ok s4 /\ put_packet s4 = put_packet s3 ++ v).
  { subst v; destruct (t_vdata t) as [d|]; [apply str_writefnx_ok; [exact O3 | apply D | lia] | exists s3; rewrite app_nil_r; auto]. }
  destruct S4 as (s4 & -> & O4 & P4); cbn [cbind]; rewrite Z.eqb_refl; cbn [negb].
  assert (K4 : put_cc s4 = put_cc s3 + t_vlen t) by (destruct O3 as (-> & _), O4 as (-> & _); rewrite P4, zlen_app; lia).
  rewrite i32_id by (unfold is_int, INT_MIN, INT_MAX; lia).
  destruct (put_vector_ok _ Uv s4 (2 + n + t_vlen t) O4) as (s5 & -> & O5 & P5); fold (user_data t); try lia; cbn [cbind].
  do 2 eexists; split; [reflexivity|]; split; [lia|]; split; [exact O5|].
  rewrite P5, P4, P3, P2, P1, <- !app_assoc; reflexivity.
Qed.

#[global] Program Instance StrWriter : TsWriter StrOut := {|
  out_ok := strout_ok;
  out_octets := put_packet;
  out_frame _ := [];
  out_fits s n := put_cc s + n <= BUFSIZ;
  out_accepts _ _ := True;
  out_kept _ _ := True
|}.
Next Obligation.
  intros s t n O P F; destruct (putfnx_ok s t n O P F) as (cc & s' & E & C & O' & Q); exists cc, s'.
  split; [exact E|]; split; [exact O'|]; split; [exact I|]; split; [intros _; exact Q | unfold NOTOK; lia].
Qed.

(** * Digits *)

(** The two digits of an octet. *)
Definition hex_octet (c : Z) : list Z := [nth (Z.to_nat (c / 16)) nib2hex 0; nth (Z.to_nat (c mod 16)) nib2hex 0].

Definition hex (l : list Z) : list Z := concat (map hex_octet l).

Lemma zlen_hex l : zlen (hex l) = 2 * zlen l.
Proof.
  unfold hex; induction l as [|c l IH]; [reflexivity|]; cbn [map concat]; rewrite zlen_app, IH, zlen_cons.
  change (zlen (hex_octet c)) with 2; lia.
Qed.

Lemma explode_octet c : is_byte c ->
  rd nib2hex (Z.shiftr (u8 (Z.land c 240)) 4) = Val (nth (Z.to_nat (c / 16)) nib2hex 0) /\
  rd nib2hex (Z.land c 15) = Val (nth (Z.to_nat (c mod 16)) nib2hex 0).
Proof.
  intros B; assert (E : ((Z.shiftr (u8 (Z.land c 240)) 4 =? c / 16) && (Z.land c 15 =? c mod 16))%bool = true).
  { revert c B; apply (byte_forall (fun c => (Z.shiftr (u8 (Z.land c 240)) 4 =? c / 16) && (Z.land c 15 =? c mod 16))%bool); vm_compute; reflexivity. }
  apply andb_true_iff in E as [E1 E2]; apply Z.eqb_eq in E1, E2; rewrite E1, E2; unfold is_byte in B.
  pose proof (Z.div_lt_upper_bound c 16 16); pose proof (Z.div_pos c 16); pose proof (Z.mod_pos_bound c 16).
  change (zlen nib2hex) with 16; split; apply rd_in; change (zlen nib2hex) with 16; lia.
Qed.

Lemma implode_octet c : is_byte c -> exists h l,
  rd hex2nib (Z.land (nth (Z.to_nat (c / 16)) nib2hex 0) 127) = Val h /\
  rd hex2nib (Z.land (nth (Z.to_nat (c mod 16)) nib2hex 0) 127) = Val l /\
  int2u8 (Z.lor (Z.shiftl h 4) (Z.land l 15)) = Some c.
Proof.
  intros B.
  assert (E : match rd hex2nib (Z.land (nth (Z.to_nat (c / 16)) nib2hex 0) 127), rd hex2nib (Z.land (nth (Z.to_nat (c mod 16)) nib2hex 0) 127) with
              | Val h, Val l => match int2u8 (Z.lor (Z.shiftl h 4) (Z.land l 15)) with Some o => o =? c | None => false end
              | _, _ => false
              end = true).
  { revert c B; apply (byte_forall (fun c => match rd hex2nib (Z.land (nth (Z.to_nat (c / 16)) nib2hex 0) 127),
      rd hex2nib (Z.land (nth (Z.to_nat (c mod 16)) nib2hex 0) 127) with
      | Val h, Val l => match int2u8 (Z.lor (Z.shiftl h 4) (Z.land l 15)) with Some o => o =? c | None => false end
      | _, _ => false end)); vm_compute; reflexivity. }
  destruct (rd hex2nib _) as [h|]; [|discriminate]; destruct (rd hex2nib _) as [l|]; [|discriminate]; exists h, l.
  destruct (int2u8 _) as [o|]; [|discriminate]; apply Z.eqb_eq in E as ->; auto.
Qed.

Lemma explode_loop_spec cap r : bytes r -> forall fuel pre a, (length r <= fuel)%nat -> zlen a + 2 * zlen r + 1 <= cap ->
  explode_loop fuel cap a (pre ++ r) (zlen pre) (zlen (pre ++ r)) = Val (a ++ hex r).
Proof.
  induction 1 as [|c r B _ IH]; intros fuel pre a F L.
  - rewrite !app_nil_r; destruct fuel; cbn [explode_loop]; rewrite Z.ltb_irrefl;
      (rewrite wrc_end by (rewrite zlen_one; change (zlen (@nil Z)) with 0 in L; lia); reflexivity).
  - destruct fuel as [|fuel]; [simpl in F; lia|]; cbn [explode_loop]; rewrite zlen_app, zlen_cons in *; pose proof (zlen_nonneg r).
    destruct (Z.ltb_spec (zlen pre) (zlen pre + (1 + zlen r))); [|lia].
    rewrite rd_app_r, Z.sub_diag, rd_cons0 by lia; cbn [cbind]; destruct (explode_octet c B) as (-> & ->); cbn [cbind].
    fold (hex_octet c); rewrite wrc_end by (change (zlen (hex_octet c)) with 2; lia); cbn [cbind].
    replace (pre ++ c :: r) with ((pre ++ [c]) ++ r) by (rewrite <- app_assoc; reflexivity).
    replace (zlen pre + 1) with (zlen (pre ++ [c])) by (rewrite zlen_app; reflexivity).
    replace (zlen pre + (1 + zlen r)) with (zlen ((pre ++ [c]) ++ r)) by (rewrite !zlen_app, zlen_one; lia).
    rewrite IH by (first [simpl in F; lia | rewrite zlen_app; change (zlen (hex_octet c)) with 2; lia]); rewrite <- app_assoc; reflexivity.
Qed.

Lemma implode_loop_spec cap r : bytes r -> forall fuel pre a, (length r <= fuel)%nat -> zlen a + zlen r <= cap ->
  implode_loop fuel cap a (pre ++ hex r ++ [0]) (zlen pre) (zlen pre + 2 * zlen r) = Val (Some (a ++ r)).
Proof.
  induction 1 as [|c r B _ IH]; intros fuel pre a F L.
  - rewrite app_nil_r; change (2 * zlen (@nil Z)) with 0; rewrite Z.add_0_r; destruct fuel; cbn [implode_loop]; rewrite Z.ltb_irrefl; reflexivity.
  - destruct fuel as [|fuel]; [simpl in F; lia|]; cbn [implode_loop]; rewrite zlen_cons in *; pose proof (zlen_nonneg r); pose proof (zlen_nonneg pre).
    destruct (Z.ltb_spec (zlen pre) (zlen pre + 2 * (1 + zlen r))); [|lia]; change (hex (c :: r)) with (hex_octet c ++ hex r); unfold hex_octet.
    cbn [app]; rewrite !rd_app_r by lia; rewrite Z.sub_diag; replace (zlen pre + 1 - zlen pre) with 1 by lia.
    rewrite rd_cons0, rd_consS by lia; change (1 - 1) with 0; rewrite rd_cons0; cbn [cbind].
    destruct (implode_octet c B) as (h & l & -> & -> & E); cbn [cbind]; rewrite E, wrc_end by (rewrite zlen_one; lia); cbn [cbind].
    specialize (IH fuel (pre ++ hex_octet c) (a ++ [c])); rewrite <- !app_assoc in IH; cbn [app] in IH.
    replace (zlen (pre ++ hex_octet c)) with (zlen pre + 2) in IH by (rewrite zlen_app; reflexivity).
    replace (zlen pre + 2 * (1 + zlen r)) with (zlen pre + 2 + 2 * zlen r) by lia.
    apply IH; [simpl in F; lia | rewrite zlen_app, zlen_one; lia].
Qed.

(** What is exploded is imploded to the same octets. *)
Lemma implode_explode cap cap' b : bytes b -> 2 * zlen b + 1 <= cap -> zlen b <= cap' -> 2 * zlen b <= INT_MAX ->
  exists s, explode cap b (zlen b) = Val (s, zlen s) /\ zlen s = 2 * zlen b /\ implode cap' (s ++ [0]) (zlen s) = Val (b, zlen b).
Proof.
  intros B L L' M; pose proof (zlen_nonneg b); exists (hex b); unfold explode, implode; rewrite zlen_hex.
  rewrite (explode_loop_spec cap b B _ [] []) by (unfold zlen in *; simpl in *; lia); cbn [cbind app].
  replace (zlen b * 2) with (2 * zlen b) by lia; rewrite i32_id by (unfold is_int, INT_MIN; lia); split; [reflexivity|]; split; [reflexivity|].
  pose proof (implode_loop_spec cap' b B (Z.to_nat (2 * zlen b)) [] []) as I; cbn [app] in I.
  change (zlen (@nil Z)) with 0 in I; rewrite !Z.add_0_l in I; rewrite I by (unfold zlen in *; lia); cbn [cbind].
  rewrite Z.mul_comm, Z.quot_mul by lia; reflexivity.
Qed.

(** * A packet through a string *)

(** The TPDU of a packet that was read, whose data is in [t_qbuf]. *)
Definition full_tpdu (t : tsapkt) : tpdu :=
  Tpdu (t_code t) (p_fixed (tpdu_of t)) (p_params (tpdu_of t)) (user_data t ++ packet_data t).

Definition data_seg_ok (t : tsapkt) : Prop := match t_qbuf t with Some q => seg_ok q | None => True end.

Lemma enc_full t : enc_tpdu (full_tpdu t) = enc_tpdu (tpdu_of t) ++ packet_data t.
Proof. unfold enc_tpdu, full_tpdu, tpdu_li; cbn [p_code p_fixed p_params p_data app]; rewrite <- !app_assoc; reflexivity. Qed.

Lemma full_tpdu_ok t : packet_ok t -> data_seg_ok t -> tpdu_ok (full_tpdu t).
Proof.
  intros O D; destruct (tpdu_of_ok t O) as (A & B & C & E & F & G); repeat (split; [assumption|]).
  split; [|exact G]; apply bytes_app; split; [exact F|]; unfold packet_data, data_seg_ok in *.
  destruct (t_qbuf t); [apply D | constructor].
Qed.

Lemma tpkt2str_spec `{Allocator} t : memory_ok -> packet_ok t -> data_seg_ok t -> zlen (enc_tpdu (full_tpdu t)) <= BUFSIZ ->
  exists str, tpkt2str t = Val (Some str, prepared t) /\
    implode BUFSIZ (str ++ [0]) (zlen str) = Val (enc_tpdu (full_tpdu t), zlen (enc_tpdu (full_tpdu t))) /\
    zlen str <= 2 * BUFSIZ.
Proof.
  intros M O D L; pose proof (full_tpdu_ok t O D) as F; rewrite enc_full in *; rewrite zlen_app in L.
  pose proof (zlen_nonneg (packet_data t)); set (x := enc_tpdu (tpdu_of t)) in *; pose proof (zlen_nonneg x).
  destruct (tpkt2fd_spec M (SOut [] 0) t) as (rc & t' & s & E & (O1 & _) & _ & _ & Ok & Ac & _);
    [split; [reflexivity | cbv; discriminate] | exact O | change (0 + zlen x <= BUFSIZ); lia|].
  specialize (Ac I); subst rc; destruct (Ok eq_refl) as (-> & P); unfold tpkt2str; rewrite E; cbn [cbind].
  change (OK =? NOTOK) with false; cbn match; cbn [out_octets out_frame StrWriter put_packet app] in P; fold x in P; rewrite P in *.
  assert (B : bytes (x ++ packet_data t)) by (unfold x; rewrite <- enc_full; apply enc_tpdu_bytes, F).
  assert (Q : (match t_qbuf (prepared t) with
     | Some q => d <- bcopy_int (Some (qb_data q)) (seg_len q);;
         match d with Some d => p <- wrc BUFSIZ x (put_cc s) d;; Val (Some (p, i32 (put_cc s + seg_len q))) | None => Val None end
     | None => Val (Some (x, put_cc s))
     end) = Val (Some (x ++ packet_data t, zlen (x ++ packet_data t)))).
  { rewrite O1; change (t_qbuf (prepared t)) with (t_qbuf t); unfold packet_data, data_seg_ok in *; destruct (t_qbuf t) as [q|];
      [|rewrite app_nil_r; reflexivity].
    rewrite bcopy_seg by (destruct D; lia); cbn [cbind]; fold (seg_octets q); pose proof (zlen_seg q D) as Z1.
    rewrite wrc_end by lia; cbn [cbind]; rewrite i32_id by (unfold is_int, INT_MIN, INT_MAX, BUFSIZ in *; lia).
    rewrite zlen_app, Z1; reflexivity. }
  rewrite Q; cbn [cbind].
  assert (L' : zlen (x ++ packet_data t) <= BUFSIZ) by (rewrite zlen_app; exact L).
  destruct (implode_explode (2 * BUFSIZ + 1) BUFSIZ (x ++ packet_data t) B) as (str & -> & Ls & I); [lia | exact L' | unfold BUFSIZ, INT_MAX in *; lia|].
  cbn [cbind]; exists str; split; [reflexivity|]; split; [exact I | lia].
Qed.

Lemma saved_restored `{Allocator} sizeof_tpkt sizeof_qb t :
  memory_ok -> packet_ok t -> data_seg_ok t -> zlen (enc_tpdu (full_tpdu t)) <= BUFSIZ ->
  exists str, tpkt2str t = Val (Some str, prepared t) /\
    str2tpkt sizeof_tpkt sizeof_qb str = Val (Some (packet_of 0 (full_tpdu t))).
Proof.
  intros M O D L; destruct (tpkt2str_spec t M O D L) as (str & E & I & S); exists str; split; [exact E|].
  pose proof (full_tpdu_ok t O D) as F; set (x := enc_tpdu (full_tpdu t)) in *; pose proof (zlen_nonneg x).
  unfold str2tpkt, sizet2int; rewrite Z.gtb_ltb; destruct (Z.ltb_spec INT_MAX (zlen str)); [unfold BUFSIZ, INT_MAX in *; lia|].
  rewrite I; cbn [cbind]; set (s := getfnx_start x (zlen x)).
  assert (Si : strin_input s = x) by (apply ztake_all; change (zlen x <= zlen x); lia).
  assert (B : bytes x) by (apply enc_tpdu_bytes, F).
  assert (G : net_ok s) by (split; [change (0 <= zlen x <= zlen x); lia | split; [fold (strin_input s); rewrite Si; exact B | change (zlen x <= zlen x); lia]]).
  unfold fd2tpkt, newtpkt; rewrite M, int2u8_Some by (cbv; easy); cbn match.
  destruct (fd2tpktaux_spec sizeof_qb s M G) as (rc & q & s' & -> & _ & _ & C); cbn [cbind].
  destruct (C 0 (full_tpdu t) []) as (-> & -> & _); [|reflexivity].
  split; [exact F|]; fold x; split; [unfold BUFSIZ in L; lia|]; rewrite app_nil_r; split; [reflexivity|]; split; [change (4 + zlen x = zlen x + 4); lia | symmetry; exact Si].
Qed.

(** A packet goes through a string unchanged: for a TPDU that fits in
    [BUFSIZ] octets, [tpkt2str] makes a string, and [str2tpkt] of it returns
    the packet of the same code, fixed part, parameters and data, whether
    the data was in the vector or in the [qbuf] of a packet that was read. *)
Theorem tpkt2str_str2tpkt : forall (A : Allocator) sizeof_tpkt sizeof_qb t,
  memory_ok -> packet_ok t -> data_seg_ok t -> zlen (enc_tpdu (full_tpdu t)) <= BUFSIZ ->
  exists str, tpkt2str t = Val (Some str, prepared t) /\
    str2tpkt sizeof_tpkt sizeof_qb str = Val (Some (packet_of 0 (full_tpdu t))).
Proof. intros A st sq t; apply saved_restored. Qed.

(** * Witnesses *)

(** A connection request for the selector 4F 53 49, with data. *)
Definition ex_cr : tsapkt :=
  TPKT 0 3 0 0 0 224 [0; 0; 1; 44; 0] (CRV ([79; 83; 73] ++ repeat 0 61) 3 (repeat 0 64) 0 11 1 0) 0 None None [UV [5; 6] 2].

Lemma ex_cr_ok : packet_ok ex_cr.
Proof.
  unfold packet_ok, crvar_ok, cr_ok, uv_ok; repeat split; try (vm_compute; congruence); try (left; reflexivity);
    try (apply forallb_bytes; reflexivity).
  constructor; [|constructor]; split; [vm_compute; split; discriminate | apply forallb_bytes; reflexivity].
Qed.

Lemma fd2tpkt_decides_witness : exists t s',
  @fd2tpkt StrIn StrNet plenty 400 40 (getfnx_start (enc_tpdu (tpdu_of ex_cr)) 20) = Val (Some t, s') /\ t_errno t = OK.
Proof.
  destruct (fd2tpkt_decides StrIn StrNet StrReader plenty 400 40 (getfnx_start (enc_tpdu (tpdu_of ex_cr)) 20)) as (t & s' & E & _ & D & _).
  - apply plenty_ok.
  - split; [vm_compute; split; discriminate | split; [apply forallb_bytes; reflexivity | vm_compute; discriminate]].
  - exists t, s'; split; [exact E|]; apply D; exists 0, (tpdu_of ex_cr), [].
    split; [apply tpdu_of_ok, ex_cr_ok | split; [reflexivity | split; [reflexivity | split; reflexivity]]].
Defined.

Lemma tpkt2fd_fd2tpkt_witness : exists t' tb' q s',
  @tpkt2fd StrOut StrTo plenty (SOut [] 0) ex_cr = Val (OK, t', tb') /\
  @fd2tpkt StrIn StrNet plenty 400 40 (getfnx_start (put_packet tb') (put_cc tb')) = Val (Some q, s') /\
  t_cr q = received ex_cr.
Proof.
  destruct (tpkt2fd_fd2tpkt StrOut StrIn StrTo StrWriter StrNet StrReader plenty 400 40 (SOut [] 0) ex_cr)
    as (t' & tb' & x & E & (Cc & _) & O & R).
  - apply plenty_ok.
  - split; [reflexivity | vm_compute; discriminate].
  - apply ex_cr_ok.
  - vm_compute; discriminate.
  - exact I.
  - cbn [out_octets out_frame StrWriter put_packet app] in O; subst x.
    destruct (R (getfnx_start (put_packet tb') (put_cc tb')) 0 []) as (q & s' & D & _ & _ & _ & _ & _ & Q & _).
    + vm_compute in E; injection E as <- <-; split; [vm_compute; split; discriminate | split; [apply forallb_bytes; reflexivity | vm_compute; discriminate]].
    + vm_compute in E; injection E as <- <-; split; [reflexivity | split; reflexivity].
    + exists t', tb', q, s'; split; [exact E|]; split; [exact D | apply Q; reflexivity].
Defined.

Lemma tpkt2str_str2tpkt_witness : exists str, @tpkt2str plenty ex_cr = Val (Some str, prepared ex_cr) /\
  @str2tpkt plenty 400 40 str = Val (Some (packet_of 0 (full_tpdu ex_cr))).
Proof.
  apply (tpkt2str_str2tpkt plenty 400 40 ex_cr); [apply plenty_ok | apply ex_cr_ok | exact I | vm_compute; discriminate].
Defined.
