(* ===== verification/Tcp.v ===== *)
(** * tsap: TPDUs from a TCP connection (ts2tcp.c)

    A connection is what it will deliver and how: the octets that are still
    to come, what [read] answers after the last of them (0 at the end of the
    connection, -1 on an error), and how many octets each of the next reads
    delivers at most, so that an octet may come alone or many together. A
    read returns at least one octet while there is one. *)

From S2P Require Import Prelude Conv Convert PElement PStream Pe2Ps Qbuf Tpkt Tpkt2fd.
Open Scope Z_scope.
Open Scope c_scope.

Record sock : Type := Sock { sk_in : list Z; sk_end : Z; sk_chunks : list Z }.

(** [read (fd, buf, n)]: the result, the octets, the connection. *)
Definition sock_read (s : sock) (n : Z) : Z * list Z * sock :=
  match sk_in s with
  | [] => (if n =? 0 then 0 else sk_end s, [], s)
  | _ =>
      let most := match sk_chunks s with [] => n | c :: _ => Z.min n (Z.max 1 c) end in
      let k := Z.min most (zlen (sk_in s)) in
      (k, ztake k (sk_in s), Sock (zdrop k (sk_in s)) (sk_end s) (tl (sk_chunks s)))
  end.

(** [read_int] of conv.h, then [ssize2int]. *)
Definition read_fd (s : sock) (n : Z) : option (Z * list Z * sock) :=
  let '(nread, d, s) := match int2sizet n with Some len => sock_read s len | None => (-1, [], s) end in
  match ssize2int nread with Some cc => Some (cc, d, s) | None => None end.

(** The octets of [t_pkthdr], [t_li] and [t_code], one after the other; the
    host keeps the low octet of [t_length] first. *)
Definition header_octets (t : tsapkt) : list Z :=
  [t_vrsn t; t_rsrvd t; t_length t mod 256; t_length t / 256; t_li t; t_code t].

Definition set_header (t : tsapkt) (h : list Z) : tsapkt :=
  match h with
  | [vrsn; rsrvd; l0; l1; li; code] => set_t_hdr t vrsn rsrvd (l0 + 256 * l1) li code
  | _ => t
  end.

Definition TPKT_HDRLEN : Z := 6.

(** The loop of [tcpinit]: the octets read; [None] for DR_NETWORK. *)
Fixpoint tcpinit_loop (fuel : nat) (s : sock) (i : Z) (got : list Z) : cres (bool * list Z * sock) :=
  if i >? 0 then
    match fuel with
    | O => UB
    | S fuel' =>
        match read_fd s i with
        | None => Val (false, got, s)
        | Some (cc, d, s) =>
            if (cc =? NOTOK) || (cc =? OK) then Val (false, got, s)
            else tcpinit_loop fuel' s (i - cc) (got ++ d)
        end
    end
  else Val (true, got, s).

(** [ntohs] is [htons]. *)
Definition tcpinit (s : sock) (t : tsapkt) : cres (Z * tsapkt * sock) :=
  ' (ok, got, s) <- tcpinit_loop 6 s TPKT_HDRLEN [];;
  h <- wr (header_octets t) 0 got;;
  let t := set_header t h in
  if negb ok then Val (DR_NETWORK, t, s)
  else if negb (t_vrsn t =? TPKT_VRSN) then Val (DR_PROTOCOL, t, s)
  else
    let t := set_t_length t (htons (t_length t)) in
    Val (if t_length t <? TPKT_HDRLEN then DR_LENGTH else OK, t, s).

Definition tcpread (s : sock) (n : Z) : cres (Z * list Z * sock) :=
  Val (match read_fd s n with Some r => r | None => (NOTOK, [], s) end).

#[global] Instance TcpNet : TsIn sock := {| initfnx := tcpinit; readfnx := tcpread |}.

(** * A connection is a network *)

Definition sock_ok (s : sock) : Prop := bytes (sk_in s) /\ (sk_end s = 0 \/ sk_end s = -1).

(** The packet header in front of [x]. *)
Definition frames (s : sock) (r len : Z) (x : list Z) : Prop :=
  sk_in s = 3 :: r :: Z.shiftr len 8 :: Z.land len 255 :: x /\ 0 <= len < 65536.

Lemma ssize2int_Some n : is_int n -> ssize2int n = Some n.
Proof.
  unfold is_int; intros B; unfold ssize2int; rewrite Z.gtb_ltb.
  destruct (Z.ltb_spec n INT_MIN), (Z.ltb_spec INT_MAX n); try lia; cbn [orb].
  rewrite cast_id by (unfold in_type; change (ct_min INT) with INT_MIN; change (ct_max INT) with INT_MAX; change (ct_width INT) with 32; lia); reflexivity.
Qed.

Lemma read_fd_spec s n : 0 < n <= INT_MAX -> sock_ok s ->
  exists cc s', read_fd s n = Some (cc, ztake cc (sk_in s), s') /\ sock_ok s' /\ sk_end s' = sk_end s /\
    (0 <= cc <= n \/ cc = NOTOK) /\ cc <= zlen (sk_in s) /\ (cc <= 0 -> sk_in s = []) /\ sk_in s' = zdrop cc (sk_in s).
Proof.
  intros N (B & E); unfold read_fd; rewrite int2sizet_Some by lia; unfold sock_read.
  destruct (sk_in s) as [|a l] eqn:I.
  - destruct (Z.eqb_spec n 0); [lia|]; rewrite ssize2int_Some by (unfold is_int, INT_MIN, INT_MAX; destruct E as [-> | ->]; lia).
    exists (sk_end s), s; unfold NOTOK; split; [destruct E as [-> | ->]; reflexivity|]; rewrite I.
    split; [split; [rewrite I; exact B | exact E]|]; split; [reflexivity|]; split; [lia|]; change (zlen []) with 0.
    split; [lia|]; split; [reflexivity|]; destruct E as [-> | ->]; reflexivity.
  - set (most := match sk_chunks s with [] => n | c :: _ => Z.min n (Z.max 1 c) end).
    assert (M : 0 < most <= n) by (subst most; destruct (sk_chunks s); lia).
    assert (L : 1 <= zlen (a :: l)) by (rewrite zlen_cons; pose proof (zlen_nonneg l); lia).
    set (k := Z.min most (zlen (a :: l))); rewrite ssize2int_Some by (unfold is_int, INT_MIN; lia).
    exists k, (Sock (zdrop k (a :: l)) (sk_end s) (tl (sk_chunks s))); split; [reflexivity|].
    cbn [sk_in sk_end]; split; [split; [apply Forall_zdrop, B | exact E]|]; repeat split; try lia.
Qed.

Lemma tcpinit_loop_spec fuel : forall s i got, (Z.to_nat i <= fuel)%nat -> 0 <= i <= 6 -> sock_ok s ->
  exists ok s', tcpinit_loop fuel s i got = Val (ok, got ++ ztake i (sk_in s), s') /\ sock_ok s' /\
    sk_in s' = zdrop i (sk_in s) /\ (ok = true <-> i <= zlen (sk_in s)).
Proof.
  induction fuel as [|fuel IH]; intros s i got F I O; cbn [tcpinit_loop]; rewrite Z.gtb_ltb; destruct (Z.ltb_spec 0 i); try lia.
  1,3: assert (i = 0) as -> by lia; rewrite ztake_0, zdrop_0, app_nil_r by lia; exists true, s; pose proof (zlen_nonneg (sk_in s)); repeat split; auto; apply O.
  destruct (read_fd_spec s i) as (cc & s' & -> & O' & _ & R & C & E & I'); [unfold INT_MAX; lia | exact O|].
  destruct ((cc =? NOTOK) || (cc =? OK))%bool eqn:Z0.
  - assert (E0 : sk_in s = []) by (apply E; apply orb_true_iff in Z0; rewrite !Z.eqb_eq in Z0; unfold NOTOK, OK in Z0; lia).
    rewrite E0, (ztake_all i), app_nil_r by (change (zlen (@nil Z)) with 0; lia).
    do 2 eexists; split; [reflexivity|]; split; [exact O'|]; rewrite I', E0, (zdrop_all i []) by (change (zlen (@nil Z)) with 0; lia).
    split; [unfold zdrop; destruct (Z.to_nat cc); reflexivity|]; change (zlen (@nil Z)) with 0; split; [discriminate | lia].
  - apply orb_false_iff in Z0; rewrite !Z.eqb_neq in Z0; unfold NOTOK, OK in *.
    destruct (IH s' (i - cc) (got ++ ztake cc (sk_in s))) as (ok & s2 & -> & O2 & I2 & X); try lia; auto.
    exists ok, s2; rewrite I2, I' in *; split; [|split; [exact O2|split]].
    + rewrite <- app_assoc, ztake_ztake_app by lia; replace (cc + (i - cc)) with i by lia; reflexivity.
    + rewrite zdrop_zdrop by lia; f_equal; lia.
    + rewrite X, zlen_zdrop by lia; lia.
Qed.

(** The two octets of the length, in network order. *)
Lemma swapped a b : is_byte a -> is_byte b -> htons (a + 256 * b) = a * 256 + b.
Proof.
  unfold is_byte; intros A B; unfold htons; rewrite land_ff, shr8.
  replace (a + 256 * b) with (a + b * 256) by lia.
  rewrite Z_mod_plus_full, Z.mod_small, Z_div_plus_full, Z.div_small by lia; lia.
Qed.

Lemma len_octets_split a b : is_byte a -> is_byte b -> Z.shiftr (a * 256 + b) 8 = a /\ Z.land (a * 256 + b) 255 = b.
Proof.
  unfold is_byte; intros A B; rewrite shr8, land_ff; split.
  - rewrite Z.div_add_l, Z.div_small by lia; lia.
  - rewrite Z.add_comm, Z_mod_plus_full, Z.mod_small by lia; reflexivity.
Qed.

Lemma list6 (l : list Z) : 6 <= zlen l -> exists a b c d e f, l = a :: b :: c :: d :: e :: f :: zdrop 6 l.
Proof.
  do 6 (destruct l as [|? l]; [cbv; intros []; reflexivity|]); intros _; do 6 eexists; reflexivity.
Qed.

(** Both outcomes of [tcpinit]. *)
Lemma tcpinit_spec s t : sock_ok s -> exists rc t' s', tcpinit s t = Val (rc, t', s') /\ sock_ok s' /\
  (rc = OK -> exists r len li code, t' = set_t_hdr t TPKT_VRSN r len li code /\ 6 <= len < 65536 /\ frames s r len (li :: code :: sk_in s')) /\
  (forall r len li code x, 6 <= len -> frames s r len (li :: code :: x) -> rc = OK).
Proof.
  intros O; unfold tcpinit, TPKT_HDRLEN.
  destruct (tcpinit_loop_spec 6 s 6 []) as (ok & s' & -> & O' & I & X); [lia | lia | exact O|]; cbn [cbind app].
  destruct ok.
  - apply proj1 in X; specialize (X eq_refl); destruct (list6 _ X) as (v & r & l1 & l2 & li & code & E).
    destruct O as (B & _); rewrite E in *; cbn [ztake Z.to_nat firstn] in *; clear X.
    change (ztake 6 _) with [v; r; l1; l2; li; code].
    repeat (let H := fresh "B" in apply bytes_cons in B as (H & B)).
    rewrite wr_in by (vm_compute; congruence); change (ztake 0 _ ++ _ ++ _) with [v; r; l1; l2; li; code]; cbn [cbind set_header negb].
    change (t_vrsn (set_t_hdr t v r (l1 + 256 * l2) li code)) with v; destruct (Z.eqb_spec v TPKT_VRSN) as [->|Nv]; cbn [negb].
    + change (t_length (set_t_hdr _ _ _ ?x _ _)) with x; rewrite swapped by assumption.
      change (t_length (set_t_length _ ?x)) with x; do 3 eexists; split; [reflexivity|]; split; [exact O'|].
      unfold is_byte in *; split.
      * destruct (Z.ltb_spec (l1 * 256 + l2) 6); [discriminate|]; intros _; exists r, (l1 * 256 + l2), li, code.
        split; [reflexivity|]; split; [lia|]; split; [|lia]; rewrite I.
        destruct (len_octets_split l1 l2) as (-> & ->); auto.
      * intros r' len li' code' x L (F & L'); rewrite E in F; injection F as _ -> -> _ _ _.
        assert (E2 : Z.shiftr len 8 * 256 + Z.land len 255 = len) by (rewrite shr8, land_ff; pose proof (Z.div_mod len 256); lia).
        rewrite E2; destruct (Z.ltb_spec len 6); [lia | reflexivity].
    + do 3 eexists; split; [reflexivity|]; split; [exact O'|]; split; [discriminate|].
      intros r' len li' code' x _ (F & _); rewrite E in F; injection F as F _; destruct (Nv F).
  - rewrite wr_in by (unfold zlen, ztake; rewrite ?length_firstn; simpl length; lia); cbn [cbind negb].
    do 3 eexists; split; [reflexivity|]; split; [exact O'|]; split; [discriminate|].
    intros r len li code x _ (F & _); assert (6 <= zlen (sk_in s)) by (rewrite F, !zlen_cons; pose proof (zlen_nonneg x); lia).
    apply X in H; discriminate.
Qed.

#[local] Obligation Tactic := idtac.

#[global] Program Instance TcpReader : TsReader sock := {| net_ok := sock_ok; net_input := sk_in; net_frames := frames |}.
Next Obligation.
  intros s t O _; destruct (tcpinit_spec s t O) as (rc & t' & s' & E & O' & A & _); exists rc, t', s'; auto.
Qed.
Next Obligation.
  intros s t r len li code x O _ L F; destruct (tcpinit_spec s t O) as (rc & t' & s' & E & O' & A & B).
  assert (rc = OK) as -> by (apply (B r len li code x); [lia | exact F]).
  destruct (A eq_refl) as (r' & len' & l & c & -> & L' & (F' & _)); destruct F as (F & _); rewrite F in F'.
  injection F' as -> S1 S2 -> -> ->; exists s'; split; [|auto]; change (initfnx s t) with (tcpinit s t); rewrite E.
  assert (len = len') as ->; [|reflexivity].
  rewrite shr8 in S1; rewrite land_ff in S2; pose proof (Z.div_mod len 256); pose proof (Z.div_mod len' 256).
  rewrite shr8, land_ff in *; lia.
Qed.
Next Obligation.
  intros s r len x (B & _) (F & _); rewrite F in B; apply bytes_cons in B as (_ & B); apply bytes_cons in B as (_ & B);
  apply bytes_cons in B as (_ & B); apply bytes_cons in B as (_ & B); exact B.
Qed.
Next Obligation.
  intros s n N O; destruct (read_fd_spec s n N O) as (cc & s' & E & O' & _ & R); exists cc, s'.
  cbn [readfnx TcpNet]; unfold tcpread; rewrite E; auto.
Qed.
