(* ===== verification/Tp0.v ===== *)
(** * tsap: the engine of transport class 0 (tp0ts.c)

    User data is cut into DT TPDUs and put together again. A write that
    would block is queued and drained later. [tsapblk] holds what the engine
    uses of a connection: [tb_in], what the peer sent, and [tb_out], the
    octets the network took and its answers to the next writes. The code is
    that of the configuration of Linux: TCP, [writev] and non-blocking
    writes; management reports and logs are left out. A protocol error ends in
    [tpktlose] (tsaplose.c), which is undefined. *)

From S2P Require Import Prelude Conv Convert PElement PStream Pe2Ps Qbuf Tpkt Tpkt2fd Tcp.
Open Scope Z_scope.
Open Scope c_scope.

Definition DONE : Z := 1.
Definition TB_CONN := 1.
Definition TB_EXPD := 4.
Definition TB_TCP := 8.
Definition TB_X25 := 16.
Definition TB_QWRITES := 128.
Definition DT_EOT := 128.
Definition TD_SIZE := 64.
Definition DR_SESSION := 2.
Definition DR_ADDRESS := 3.
Definition ER_REJ_NOTSPECIFIED := 0.
Definition ER_REJ_CODE := 1.
Definition ER_REJ_TPDU := 2.
Definition ER_REJ_VALUE := 3.

(** ** Writing to the network

    Each answer says how many octets a [write] takes at most, or -1 when it
    would block, or another negative number when it fails; where there is
    none the write takes all. *)
Record wire : Type := Wire { sent : list Z; answers : list Z }.

Definition EWOULDBLOCK := 11.
Definition EPIPE := 32.

(** The result, [errno] and the wire. *)
Definition sock_write (w : wire) (p : list Z) : Z * Z * wire :=
  match answers w with
  | [] => (zlen p, 0, Wire (sent w ++ p) [])
  | a :: l =>
      if a <? 0 then (-1, if a =? -1 then EWOULDBLOCK else EPIPE, Wire (sent w) l)
      else let k := Z.min a (zlen p) in (k, 0, Wire (sent w ++ ztake k p) l)
  end.

(** What the engine uses of [struct tsapblk]: [tb_queue] tells whether the
    function at [tb_queuePfnx] agrees; a reference is two octets. *)
Record tsapblk : Type := TB {
  tb_flags : Z;
  tb_srcref : list Z;
  tb_dstref : list Z;
  tb_tsdusize : Z;
  tb_tpduslop : Z;
  tb_tpdusize : Z;
  tb_qbuf : list qseg;
  tb_len : Z;
  tb_qwrites : list qseg;
  tb_queue : bool;
  tb_in : sock;
  tb_out : wire
}.

Definition set_tb_out (tb : tsapblk) (w : wire) : tsapblk :=
  TB (tb_flags tb) (tb_srcref tb) (tb_dstref tb) (tb_tsdusize tb) (tb_tpduslop tb) (tb_tpdusize tb) (tb_qbuf tb) (tb_len tb)
    (tb_qwrites tb) (tb_queue tb) (tb_in tb) w.
Definition set_tb_qwrites (tb : tsapblk) (q : list qseg) : tsapblk :=
  TB (tb_flags tb) (tb_srcref tb) (tb_dstref tb) (tb_tsdusize tb) (tb_tpduslop tb) (tb_tpdusize tb) (tb_qbuf tb) (tb_len tb)
    q (tb_queue tb) (tb_in tb) (tb_out tb).
Definition set_tb_in (tb : tsapblk) (s : sock) : tsapblk :=
  TB (tb_flags tb) (tb_srcref tb) (tb_dstref tb) (tb_tsdusize tb) (tb_tpduslop tb) (tb_tpdusize tb) (tb_qbuf tb) (tb_len tb)
    (tb_qwrites tb) (tb_queue tb) s (tb_out tb).
Definition set_tb_qbuf (tb : tsapblk) (q : list qseg) (n : Z) : tsapblk :=
  TB (tb_flags tb) (tb_srcref tb) (tb_dstref tb) (tb_tsdusize tb) (tb_tpduslop tb) (tb_tpdusize tb) q n
    (tb_qwrites tb) (tb_queue tb) (tb_in tb) (tb_out tb).

Definition flag (tb : tsapblk) (f : Z) : bool := negb (Z.land (tb_flags tb) f =? 0).

(** ** iov_push, iov_push_int *)

(** The count and the vectors, whose octets [writev] reads. *)
Definition iov_push (v : Z * list (list Z)) (base : list Z) (len : Z) : cres (option (Z * list (list Z))) :=
  match add_sizet_to_int (fst v) len with
  | None => Val None
  | Some cc => d <- rdn base 0 len;; Val (Some (cc, snd v ++ [d]))
  end.

Definition iov_push_int (v : Z * list (list Z)) (base : list Z) (len : Z) : cres (option (Z * list (list Z))) :=
  match int2sizet len with None => Val None | Some n => iov_push v base n end.

Fixpoint iov_push_all (v : Z * list (list Z)) (l : list udvec) : cres (option (Z * list (list Z))) :=
  match l with
  | [] => Val (Some v)
  | uv :: l' =>
      r <- iov_push_int v (uv_base uv) (uv_len uv);;
      match r with None => Val None | Some v => iov_push_all v l' end
  end.

(** ** tp0write *)

(** The octets of a packet before the fixed part: on X.25 there is no packet
    header. *)
Definition tp0_header (tb : tsapblk) (t : tsapkt) : list Z :=
  if flag tb TB_X25 then [t_li t; t_code t] else header_octets t.

(** The first vectors: on X.25 one for each of the two octets. *)
Definition iov_header (tb : tsapblk) (t : tsapkt) : cres (option (Z * list (list Z))) :=
  if flag tb TB_X25 then
    r <- iov_push (0, []) [t_li t] 1;;
    match r with None => Val None | Some v => iov_push v [t_code t] 1 end
  else iov_push (0, []) (header_octets t) TPKT_HDRLEN.

(** The vectors for [writev]. *)
Definition tp0_iov (tb : tsapblk) (t : tsapkt) (cp : list Z) (n : Z) : cres (option (Z * list (list Z))) :=
  r <- iov_header tb t;;
  match r with
  | None => Val None
  | Some v =>
      r <- iov_push_int v cp n;;
      match r with
      | None => Val None
      | Some v =>
          r <- (match t_vdata t with Some d => iov_push_int v d (t_vlen t) | None => Val (Some v) end);;
          match r with None => Val None | Some v => iov_push_all v (t_udvec t) end
      end
  end.

Definition count_all (l : list udvec) (cc : option Z) : option Z :=
  fold_left (fun acc uv => match acc with Some cc => add_int_to_int cc (uv_len uv) | None => None end) l cc.

(** The count of the octets of the pseudo-writev. *)
Definition tp0_count (tb : tsapblk) (t : tsapkt) (n : Z) : option Z :=
  match add_int_to_int (zlen (tp0_header tb t)) n with
  | None => None
  | Some cc =>
      match (match t_vdata t with Some _ => add_int_to_int cc (t_vlen t) | None => Some cc end) with
      | None => None
      | Some cc =>
          count_all (t_udvec t) (Some cc)
      end
  end.

(** The copies to the block of [cap] octets at [q]; [None] for [losing]. *)
Definition tp0_copy (cap : Z) (q : list Z) (base : list Z) (n : Z) : cres (option (list Z)) :=
  d <- bcopy_int (Some base) n;;
  match d with None => Val None | Some d => cmap Some (wrc cap q (zlen q) d) end.

Fixpoint tp0_copy_all (cap : Z) (q : list Z) (l : list udvec) : cres (option (list Z)) :=
  match l with
  | [] => Val (Some q)
  | uv :: l' =>
      r <- tp0_copy cap q (uv_base uv) (uv_len uv);;
      match r with None => Val None | Some q => tp0_copy_all cap q l' end
  end.

Definition tp0_block (tb : tsapblk) (t : tsapkt) (cp : list Z) (n cap : Z) : cres (option (list Z)) :=
  q <- wrc cap [] 0 (tp0_header tb t);;
  r <- tp0_copy cap q cp n;;
  match r with
  | None => Val None
  | Some q =>
      r <- (match t_vdata t with Some d => tp0_copy cap q d (t_vlen t) | None => Val (Some q) end);;
      match r with None => Val None | Some q => tp0_copy_all cap q (t_udvec t) end
  end.

(** The write of the block [p] of [cc] octets, or its place in the queue. *)
Definition tp0_send (tb : tsapblk) (p : list Z) (cc : Z) : Z * tsapblk :=
  match tb_qwrites tb with
  | _ :: _ => (cc, set_tb_qwrites tb (tb_qwrites tb ++ [QSeg p cc]))
  | [] =>
      let '(nw, errno, w) := sock_write (tb_out tb) (ztake cc p) in
      let tb := set_tb_out tb w in
      match ssize2int nw with
      | None => (NOTOK, tb)
      | Some nc =>
          if nc =? cc then (cc, tb)
          else if (nc =? NOTOK) && negb (errno =? EWOULDBLOCK) then (NOTOK, tb)
          else if (nc >? 0) && flag tb TB_X25 then (NOTOK, tb)
          else
            let nc := if nc =? NOTOK then 0 else nc in
            if tb_queue tb then (cc, set_tb_qwrites tb [QSeg (zdrop nc p) (cc - nc)]) else (NOTOK, tb)
      end
  end.

Section Tp0.
(** [sizeof_qb] and [sizeof_tpkt] are the sizes of the two structures. *)
Context `{Allocator} (sizeof_tpkt sizeof_qb : Z).

Definition tp0write (tb : tsapblk) (t : tsapkt) (cp : list Z) (n : Z) : cres (Z * tsapblk) :=
  if negb (flag tb TB_QWRITES) then
    r <- tp0_iov tb t cp n;;
    match r with
    | None => Val (NOTOK, tb)
    | Some (cc, iov) =>
        match ptrdiff2int (zlen iov) with
        | None => Val (NOTOK, tb)
        | Some _ =>
            let '(nsent, _, w) := sock_write (tb_out tb) (concat iov) in
            Val (match ssize2int nsent with Some nout => if nout =? cc then cc else NOTOK | None => NOTOK end, set_tb_out tb w)
        end
    end
  else
    match tp0_count tb t n with
    | None => Val (NOTOK, tb)
    | Some cc =>
        match int2sizet cc with
        | None => Val (NOTOK, tb)
        | Some extra =>
            if sizeof_qb >? SIZE_MAX - extra then Val (NOTOK, tb)
            else if malloc_ok (sizeof_qb + extra) then
              r <- tp0_block tb t cp n cc;;
              Val (match r with None => (NOTOK, tb) | Some p => tp0_send tb p cc end)
            else Val (NOTOK, tb)
        end
    end.
End Tp0.

#[global] Instance Tp0Out `{Allocator} (sizeof_qb : Z) : TsOut tsapblk := {| writefnx := tp0write sizeof_qb |}.

(** ** TDrain *)

(** DONE when the queue was written, OK when the network would block. *)
Fixpoint drain_loop (x25 : bool) (l : list qseg) (w : wire) : Z * list qseg * wire :=
  match l with
  | [] => (DONE, [], w)
  | qb :: l' =>
      match int2sizet (seg_len qb) with
      | None => (NOTOK, l, w)
      | Some wlen =>
          let '(nw, errno, w) := sock_write w (ztake wlen (qb_data qb)) in
          match ssize2int nw with
          | None => (NOTOK, l, w)
          | Some nc =>
              if nc =? seg_len qb then drain_loop x25 l' w
              else if (nc =? NOTOK) && negb (errno =? EWOULDBLOCK) then (NOTOK, l, w)
              else if (nc >? 0) && x25 then (NOTOK, l, w)
              else
                let nc := if nc =? NOTOK then 0 else nc in
                (OK, QSeg (zdrop nc (qb_data qb)) (seg_len qb - nc) :: l', w)
          end
      end
  end.

Definition TDrain (tb : tsapblk) : Z * tsapblk :=
  let '(rc, l, w) := drain_loop (flag tb TB_X25) (tb_qwrites tb) (tb_out tb) in
  (rc, set_tb_out (set_tb_qwrites tb l) w).

(** ** TWrite *)

(** Where the data that is left starts: [bp] with its count [cc], and the
    vectors after it; [None] at the null that ends them. *)
Definition cursor : Type := option (list Z * Z * list udvec).

(** The vector of one packet: [k] elements at most and [len] octets. *)
Fixpoint fill (k : nat) (bp : list Z) (cc : Z) (uvs : list udvec) (len : Z) (vv : list udvec) : list udvec * cursor :=
  match k with
  | O => (vv, Some (bp, cc, uvs))
  | S k' =>
      if len >? 0 then
        let j := if cc <? len then cc else len in
        let vv := vv ++ [UV bp j] in
        if cc - j <=? 0 then
          match uvs with
          | [] => (vv, None)
          | u :: uvs => fill k' (uv_base u) (uv_len u) uvs (len - j) vv
          end
        else fill k' (zdrop j bp) (cc - j) uvs (len - j) vv
      else (vv, Some (bp, cc, uvs))
  end.

(** The user data that a DT packet may carry. *)
Definition segment_len (tb : tsapblk) : Z :=
  if negb (tb_tpdusize tb =? 0) then tb_tpdusize tb - tb_tpduslop tb else tb_tsdusize tb.

(** The sixteen bits of a reference, and the first octets of the fixed part. *)
Definition set_fixed (t : tsapkt) (d : list Z) : tsapkt := set_t_un t (d ++ zdrop (zlen d) (t_un t)).

Section Engine.
Context `{Allocator} (sizeof_tpkt sizeof_qb : Z).

(** The result and [td_reason]. When a TPDU cannot be written the
    connection is freed. *)
Fixpoint twrite_loop (fuel : nat) (tb : tsapblk) (c : cursor) (expedited : Z) : cres (Z * Z * tsapblk) :=
  match c with
  | None => Val (OK, 0, tb)
  | Some (bp, cc, uvs) =>
      match fuel with
      | O => UB
      | S fuel' =>
          match newtpkt sizeof_tpkt (if negb (expedited =? 0) then TPDU_ED else TPDU_DT) with
          | None => Val (NOTOK, DR_CONGEST, tb)
          | Some t =>
              let '(vv, c) := fill (Z.to_nat (NTPUV - 1)) bp cc uvs (segment_len tb) [] in
              let t := set_t_udvec t vv in
              let t := match c with None => set_fixed t [Z.lor (hd 0 (t_un t)) DT_EOT] | Some _ => t end in
              ' (rc, t, tb) <- @tpkt2fd _ (Tp0Out sizeof_qb) _ tb t;;
              if rc =? NOTOK then Val (NOTOK, t_errno t, tb) else twrite_loop fuel' tb c expedited
          end
      end
  end.

Definition TWrite (fuel : nat) (tb : tsapblk) (uv : list udvec) (expedited : Z) : cres (Z * Z * tsapblk) :=
  twrite_loop fuel tb (match uv with [] => None | u :: uvs => Some (uv_base u, uv_len u, uvs) end) expedited.

(** ** TLose *)

(** [td_reason] and [td_data] of the disconnect; the text of a local
    diagnostic is [None]. *)
Definition TLose (tb : tsapblk) (reason : Z) (td_data : list Z) : cres tsapblk :=
  let dr := (reason =? DR_UNKNOWN) || (reason =? DR_CONGEST) || (reason =? DR_SESSION) || (reason =? DR_ADDRESS) in
  match newtpkt sizeof_tpkt (if dr then TPDU_DR else TPDU_ER) with
  | None => Val tb
  | Some t =>
      let t :=
        if dr then
          let t := set_fixed t (tb_dstref tb ++ tb_srcref tb) in
          match int2u8 reason with
          | None => t
          | Some u => set_t_udvec (set_fixed t (tb_dstref tb ++ tb_srcref tb ++ [u]))
                        (if zlen td_data >? 0 then [UV td_data (zlen td_data)] else [])
          end
        else set_fixed t (tb_dstref tb ++ [if reason =? DR_PROTOCOL then ER_REJ_TPDU else ER_REJ_NOTSPECIFIED]) in
      ' (_, _, tb) <- @tpkt2fd _ (Tp0Out sizeof_qb) _ tb t;; Val tb
  end.

(** ** tsaplose.c *)

(** The arguments of a function with a variable number of them that are still
    to be taken. A called function that took one leaves the list of its caller
    indeterminate: it may only be ended (C11 7.16). *)
Inductive va_list : Type := Args (l : list (option (list Z))) | Indeterminate.

Definition va_arg (ap : va_list) : cres (option (list Z) * va_list) :=
  match ap with Args (a :: l) => Val (a, Args l) | _ => UB end.

(** [_tsaplose]: the reason it stores, and the list as it leaves it to the
    caller. *)
Definition tsaplose_args (reason : Z) (ap : va_list) : cres (Z * va_list) :=
  ' (_, ap) <- va_arg ap;; ' (_, _) <- va_arg ap;; Val (reason, Indeterminate).

(** [what] and [fmt] are taken again after [_tsaplose] has taken them; [text]
    is the message they make, without [what]. *)
Definition tpktlose (tb : tsapblk) (reason : Z) (what fmt : option (list Z)) (text : list Z) : cres tsapblk :=
  ' (reason, ap) <- tsaplose_args reason (Args [what; fmt]);;
  ' (_, ap) <- va_arg ap;; ' (_, _) <- va_arg ap;;
  TLose tb reason text.

(** The second use of the list has no meaning, whatever the arguments. *)
Lemma tpktlose_undefined tb reason what fmt text : tpktlose tb reason what fmt text = UB.
Proof. reflexivity. Qed.

(** ** TRead *)

(** What [TRead] reports: data with its queue and count, more to come (only
    when [async]), or the end of the connection with [td_reason] and the
    data of the peer's disconnect. *)
Inductive tread : Type :=
| TxData (expedited : Z) (q : list qseg) (cc : Z)
| TxMore
| TxLost (reason : Z) (data : option (list Z)).

(** [copyTSAPdata] to an array of [cap] octets. *)
Definition copy_data (cap : Z) (q : option qseg) : cres (option (list Z)) :=
  match q with
  | None => Val (Some [])
  | Some q =>
      match ptrdiff2sizet (seg_len q) with
      | None => Val (Some [])
      | Some n => d <- rdn (qb_data q) 0 (if n >? cap then cap else n);; Val (Some d)
      end
  end.

(** Each packet has a header, so that the octets of the input bound the
    loop. [tread_loop] is the [for] of [TRead] without out of band data. *)
Fixpoint tread_loop (fuel : nat) (tb : tsapblk) (async : Z) : cres (tread * tsapblk) :=
  match fuel with
  | O => UB
  | S fuel' =>
      ' (t, s) <- fd2tpkt sizeof_tpkt sizeof_qb (tb_in tb);;
      let tb := set_tb_in tb s in
      match t with
      | None => Val (TxLost DR_CONGEST None, tb)
      | Some t =>
          if negb (t_errno t =? OK) then Val (TxLost (t_errno t) None, tb)
          else if TPDU_CODE t =? TPDU_DT then
            let eot := negb (Z.land (hd 0 (t_un t)) DT_EOT =? 0) in
            let tb := match t_qbuf t with
                      | Some q => set_tb_qbuf tb (tb_qbuf tb ++ [q]) (i32 (tb_len tb + seg_len q))
                      | None => tb
                      end in
            if negb eot then
              if negb (async =? 0) then Val (TxMore, tb) else tread_loop fuel' tb async
            else
              match tb_qbuf tb with
              | [] => Val (TxData 0 [] 0, tb)
              | q => Val (TxData 0 q (tb_len tb), set_tb_qbuf tb [] 0)
              end
          else if TPDU_CODE t =? TPDU_ED then
            Val (match t_qbuf t with Some q => TxData 1 [q] (seg_len q) | None => TxData 1 [] 0 end, tb)
          else if TPDU_CODE t =? TPDU_DR then
            d <- copy_data TD_SIZE (t_qbuf t);; Val (TxLost (nth 4 (t_un t) 0) d, tb)
          else if TPDU_CODE t =? TPDU_ER then
            let r := nth 2 (t_un t) 0 in
            Val (TxLost (if (r =? ER_REJ_CODE) || (r =? ER_REJ_TPDU) || (r =? ER_REJ_VALUE) then DR_PROTOCOL else DR_UNKNOWN)
                   (Some []), tb)
          else
            tb <- tpktlose tb DR_PROTOCOL None (Some []) [];; Val (TxLost DR_PROTOCOL None, tb)
      end
  end.

Definition TRead (fuel : nat) (tb : tsapblk) (async oob : Z) : cres (tread * tsapblk) :=
  if negb (oob =? 0) then Val (TxLost DR_NETWORK None, tb) else tread_loop fuel tb async.

(** ** TDisconnect *)

Definition DR_NORMAL := 128.

(** The result and [td_reason]. *)
Definition TDisconnect (tb : tsapblk) (data : list Z) (cc : Z) : cres (Z * Z * tsapblk) :=
  if flag tb TB_TCP then
    match newtpkt sizeof_tpkt TPDU_DR with
    | None => Val (NOTOK, DR_CONGEST, tb)
    | Some t =>
        let t := set_fixed t (tb_dstref tb ++ tb_srcref tb ++ [DR_NORMAL]) in
        let t := set_t_udvec t (if cc >? 0 then [UV data cc] else []) in
        ' (rc, t, tb) <- @tpkt2fd _ (Tp0Out sizeof_qb) _ tb t;;
        Val (rc, if rc =? NOTOK then t_errno t else 0, tb)
    end
  else Val (OK, 0, tb).
End Engine.

(** ** TSetQueuesOK (tsaplisten.c)

    [agrees] is what [TNetQueue] will answer. *)
Definition DR_OPERATION := 141.
Definition DR_WAITING := 143.

Definition set_tb_queue (tb : tsapblk) (flags : Z) (q : bool) : tsapblk :=
  TB flags (tb_srcref tb) (tb_dstref tb) (tb_tsdusize tb) (tb_tpduslop tb) (tb_tpdusize tb) (tb_qbuf tb) (tb_len tb)
    (tb_qwrites tb) q (tb_in tb) (tb_out tb).

(** The result, [td_reason] and the connection. *)
Definition TSetQueuesOK (tb : tsapblk) (onoff : Z) (agrees : bool) : Z * Z * tsapblk :=
  if negb (flag tb TB_CONN) then (NOTOK, DR_OPERATION, tb)
  else if negb (onoff =? 0) then
    match char_bis (tb_flags tb) TB_QWRITES with
    | None => (NOTOK, DR_OPERATION, tb)
    | Some f => (OK, 0, set_tb_queue tb f agrees)
    end
  else
    match tb_qwrites tb with
    | _ :: _ => (NOTOK, DR_WAITING, tb)
    | [] =>
        match char_bic (tb_flags tb) TB_QWRITES with
        | None => (NOTOK, DR_OPERATION, set_tb_queue tb (tb_flags tb) false)
        | Some f => (OK, 0, set_tb_queue tb f false)
        end
    end.

(** * What is sent and what is queued *)

Definition seg_fits (s : qseg) : Prop := 0 <= seg_len s <= zlen (qb_data s) /\ seg_len s <= INT_MAX.

(** The octets given to the network, those of the queue last. *)
Definition stream (tb : tsapblk) : list Z := sent (tb_out tb) ++ ring_octets (tb_qwrites tb).

(** A queue is only used while queued writes are allowed. *)
Definition tp0_inv (tb : tsapblk) : Prop :=
  flag tb TB_X25 = false /\ is_byte (tb_flags tb) /\ Forall seg_fits (tb_qwrites tb) /\
  (flag tb TB_QWRITES = true \/ tb_qwrites tb = []).

(** The packet header in front of the length indicator. *)
Definition tpkt_frame (t : tsapkt) : list Z := [t_vrsn t; t_rsrvd t; t_length t mod 256; t_length t / 256].

Definition tpkt_packet (t : tsapkt) (n : Z) : list Z := tpkt_frame t ++ tpkt_octets t n.

Lemma add_sizet_to_int_Some acc n : 0 <= acc -> 0 <= n -> acc + n <= INT_MAX -> add_sizet_to_int acc n = Some (acc + n).
Proof.
  intros; unfold add_sizet_to_int, sizet2int; rewrite Z.gtb_ltb.
  destruct (Z.ltb_spec INT_MAX n); [lia|]; rewrite Z.gtb_ltb.
  destruct (Z.ltb_spec acc 0), (Z.ltb_spec (INT_MAX - n) acc); try lia; reflexivity.
Qed.

(** The parts of a packet after its header: addresses and lengths. *)
Definition tp0_parts (t : tsapkt) (n : Z) : list udvec :=
  UV (t_un t) n :: (match t_vdata t with Some d => [UV d (t_vlen t)] | None => [] end) ++ t_udvec t.

Definition uv_fits (u : udvec) : Prop := 0 <= uv_len u <= zlen (uv_base u).

Lemma tp0_parts_octets t n : header_octets t ++ concat (map uv_octets (tp0_parts t n)) = tpkt_packet t n.
Proof.
  unfold tp0_parts, tpkt_packet, tpkt_octets, user_data; cbn [map concat]; rewrite map_app, concat_app.
  destruct (t_vdata t); cbn [map concat]; rewrite ?app_nil_r; reflexivity.
Qed.

Lemma tp0_parts_fit t n : parts_ok t n -> Forall uv_fits (tp0_parts t n).
Proof.
  intros (_ & _ & _ & U & _ & D & (F & _) & _); unfold tp0_parts; constructor; [exact U|]; apply Forall_app; split.
  - destruct (t_vdata t); constructor; [apply D | constructor].
  - eapply Forall_impl; [|exact F]; intros u (L & _); exact L.
Qed.

Lemma zlen_packet t n : parts_ok t n -> zlen (tpkt_packet t n) < 65536.
Proof. intros P; unfold tpkt_packet; rewrite zlen_app; change (zlen (tpkt_frame t)) with 4; apply P. Qed.

Lemma uv_octets_len u : uv_fits u -> zlen (uv_octets u) = uv_len u.
Proof. intros F; apply zlen_ztake; unfold uv_fits in F; lia. Qed.

Lemma zlen_map {A B} (f : A -> B) l : zlen (map f l) = zlen l.
Proof. unfold zlen; rewrite length_map; reflexivity. Qed.

Lemma iov_push_all_ok l : Forall uv_fits l -> forall v, 0 <= fst v -> fst v + zlen (concat (map uv_octets l)) <= INT_MAX ->
  iov_push_all v l = Val (Some (fst v + zlen (concat (map uv_octets l)), snd v ++ map uv_octets l)).
Proof.
  induction 1 as [|u l U _ IH]; intros [cc iov] C L; cbn [iov_push_all map concat fst snd] in *.
  - rewrite Z.add_0_r, app_nil_r; reflexivity.
  - rewrite zlen_app, (uv_octets_len u U) in *; pose proof (zlen_nonneg (concat (map uv_octets l))); unfold uv_fits in U.
    unfold iov_push_int, iov_push; cbn [fst snd]; rewrite int2sizet_Some, add_sizet_to_int_Some, rdn_in by lia; cbn [cbind].
    rewrite zdrop_0, IH by (cbn [fst]; lia); cbn [fst snd]; rewrite <- app_assoc, Z.add_assoc; reflexivity.
Qed.

Lemma iov_push_parts t n v : iov_push_all v (tp0_parts t n) =
  (r <- iov_push_int v (t_un t) n;;
   match r with
   | None => Val None
   | Some v =>
       r <- (match t_vdata t with Some d => iov_push_int v d (t_vlen t) | None => Val (Some v) end);;
       match r with None => Val None | Some v => iov_push_all v (t_udvec t) end
   end).
Proof. unfold tp0_parts; cbn [iov_push_all app]; destruct (iov_push_int v _ _) as [[w|]|]; cbn [cbind]; destruct (t_vdata t); reflexivity. Qed.

Lemma tp0_iov_ok tb t n : flag tb TB_X25 = false -> parts_ok t n ->
  tp0_iov tb t (t_un t) n = Val (Some (zlen (tpkt_packet t n), header_octets t :: map uv_octets (tp0_parts t n))).
Proof.
  intros X P; unfold tp0_iov, iov_header; rewrite X; unfold iov_push, TPKT_HDRLEN; cbn [fst snd].
  rewrite add_sizet_to_int_Some by (unfold INT_MAX; lia).
  rewrite rdn_in by (change (zlen (header_octets t)) with 6; lia); change (ztake 6 (zdrop 0 _)) with (header_octets t); cbn [cbind app].
  rewrite <- iov_push_parts; pose proof (zlen_packet t n P) as L; rewrite <- tp0_parts_octets, zlen_app in *.
  change (zlen (header_octets t)) with 6 in *; rewrite iov_push_all_ok by (first [apply tp0_parts_fit, P | cbn [fst]; unfold INT_MAX; lia]).
  reflexivity.
Qed.

Lemma tp0_copy_all_ok cap l : Forall uv_fits l -> forall q, zlen q + zlen (concat (map uv_octets l)) <= cap ->
  tp0_copy_all cap q l = Val (Some (q ++ concat (map uv_octets l))).
Proof.
  induction 1 as [|u l U _ IH]; intros q L; cbn [tp0_copy_all map concat] in *; [rewrite app_nil_r; reflexivity|].
  rewrite zlen_app, (uv_octets_len u U) in L; pose proof (zlen_nonneg (concat (map uv_octets l))); unfold uv_fits in U.
  unfold tp0_copy, bcopy_int, rdn_ptr, cmap; rewrite int2sizet_Some, rdn_in by lia; cbn [cbind]; rewrite zdrop_0 by lia.
  fold (uv_octets u); pose proof (uv_octets_len u U) as Lu; rewrite wrc_end by lia; cbn [cbind].
  rewrite IH by (rewrite zlen_app; lia); rewrite <- app_assoc; reflexivity.
Qed.

Lemma tp0_block_ok tb t n : flag tb TB_X25 = false -> parts_ok t n ->
  tp0_block tb t (t_un t) n (zlen (tpkt_packet t n)) = Val (Some (tpkt_packet t n)).
Proof.
  intros X P; unfold tp0_block, tp0_header; rewrite X; set (cap := zlen (tpkt_packet t n)).
  assert (C : cap = 6 + zlen (concat (map uv_octets (tp0_parts t n)))) by (subst cap; rewrite <- tp0_parts_octets, zlen_app; reflexivity).
  pose proof (zlen_nonneg (concat (map uv_octets (tp0_parts t n)))).
  change 0 with (zlen (@nil Z)) at 1; rewrite (wrc_end cap [] (header_octets t)) by (change (zlen (header_octets t)) with 6; change (zlen (@nil Z)) with 0; lia); cbn [cbind app].
  pose proof (tp0_copy_all_ok cap (tp0_parts t n) (tp0_parts_fit t n P) (header_octets t)) as E.
  change (zlen (header_octets t)) with 6 in E; specialize (E ltac:(lia)); rewrite tp0_parts_octets in E; rewrite <- E.
  unfold tp0_parts; cbn [tp0_copy_all uv_base uv_len app]; destruct (tp0_copy cap (header_octets t) (t_un t) n) as [[q|]|]; cbn [cbind]; try reflexivity.
  destruct (t_vdata t); reflexivity.
Qed.

Lemma count_all_ok l : Forall uv_fits l -> forall cc, 0 <= cc -> cc + zlen (concat (map uv_octets l)) <= INT_MAX ->
  count_all l (Some cc) = Some (cc + zlen (concat (map uv_octets l))).
Proof.
  unfold count_all; induction 1 as [|u l U _ IH]; intros cc C L; cbn [fold_left map concat] in *; [change (zlen []) with 0; rewrite Z.add_0_r; reflexivity|].
  rewrite zlen_app, (uv_octets_len u U) in *; pose proof (zlen_nonneg (concat (map uv_octets l))); unfold uv_fits in U.
  rewrite add_int_to_int_Some, IH by lia; f_equal; lia.
Qed.

Lemma tp0_count_ok tb t n : flag tb TB_X25 = false -> parts_ok t n -> tp0_count tb t n = Some (zlen (tpkt_packet t n)).
Proof.
  intros X P; unfold tp0_count, tp0_header; rewrite X; change (zlen (header_octets t)) with 6.
  pose proof (zlen_packet t n P) as L; pose proof (count_all_ok _ (tp0_parts_fit t n P) 6) as F.
  rewrite <- tp0_parts_octets, zlen_app in *; change (zlen (header_octets t)) with 6 in *; rewrite <- F by (unfold INT_MAX; lia).
  assert (None_all : forall l, count_all l None = None) by (intros l; induction l as [|u l IH]; [reflexivity | exact IH]).
  unfold tp0_parts; destruct (t_vdata t); cbn [app]; unfold count_all in *; cbn [fold_left uv_len];
    destruct (add_int_to_int 6 n) as [cc|]; rewrite ?None_all; try reflexivity.
  destruct (add_int_to_int cc (t_vlen t)); rewrite ?None_all; reflexivity.
Qed.

(** ** Writes, queues and drains *)

(** What a write may do; a network that is [willing] never fails hard. *)
Definition willing_net (w : wire) : Prop := Forall (fun a => -1 <= a) (answers w).

Lemma sock_write_spec w p : exists nw e w', sock_write w p = (nw, e, w') /\ answers w' = tl (answers w) /\
  (nw = -1 /\ sent w' = sent w /\ (willing_net w -> e = EWOULDBLOCK) \/ 0 <= nw <= zlen p /\ sent w' = sent w ++ ztake nw p) /\
  (answers w = [] -> nw = zlen p).
Proof.
  unfold sock_write, willing_net; pose proof (zlen_nonneg p); destruct (answers w) as [|a l] eqn:A.
  - do 3 eexists; split; [reflexivity|]; split; [reflexivity|]; split; [right; split; [lia | cbn [sent]; rewrite ztake_all by lia; reflexivity] | reflexivity].
  - destruct (Z.ltb_spec a 0); cbv zeta; do 3 eexists; (split; [reflexivity|]); (split; [reflexivity|]); (split; [|discriminate]).
    + left; split; [reflexivity|]; split; [reflexivity|]; intros F; apply Forall_inv in F; destruct (Z.eqb_spec a (-1)); [reflexivity | lia].
    + right; split; [lia | reflexivity].
Qed.

(** What is left of a block after [nc] octets. *)
Lemma block_rest (p : list Z) n cc : 0 <= n <= cc -> cc <= zlen p -> ztake (cc - n) (zdrop n p) = zdrop n (ztake cc p).
Proof. intros; unfold ztake, zdrop; rewrite skipn_firstn_comm; f_equal; lia. Qed.

Definition same_but_io (tb tb' : tsapblk) : Prop :=
  tb' = set_tb_out (set_tb_qwrites tb (tb_qwrites tb')) (tb_out tb').

(** The engine goes on writing: a queue is there to take what the network
    does not, or the network takes everything. *)
Definition willing (tb : tsapblk) : Prop :=
  willing_net (tb_out tb) /\ if flag tb TB_QWRITES then tb_queue tb = true else answers (tb_out tb) = [].

Lemma same_but_io_trans tb1 tb2 tb3 : same_but_io tb1 tb2 -> same_but_io tb2 tb3 -> same_but_io tb1 tb3.
Proof. unfold same_but_io; intros A B; rewrite A in B; destruct tb1; exact B. Qed.

Lemma tp0_inv_io tb q w : tp0_inv tb -> Forall seg_fits q -> (flag tb TB_QWRITES = true \/ q = []) ->
  tp0_inv (set_tb_out (set_tb_qwrites tb q) w).
Proof. intros (X & B & _ & _) F Q; repeat split; assumption || apply B. Qed.

Lemma willing_net_tl w w' : answers w' = tl (answers w) -> willing_net w -> willing_net w'.
Proof. unfold willing_net; intros ->; destruct 1; [constructor | assumption]. Qed.

Lemma willing_io tb tb' : same_but_io tb tb' -> answers (tb_out tb') = tl (answers (tb_out tb)) -> willing tb -> willing tb'.
Proof.
  intros E A (W & Q); split; [exact (willing_net_tl _ _ A W)|]; rewrite E in *; unfold flag in *; cbn in *.
  destruct (negb _); [exact Q | rewrite A, Q; reflexivity].
Qed.

(** One write of the block [p] of [cc] octets: [nc] of them are taken, and
    unless the network fails hard it is not for an error that it is not all. *)
Lemma write_block w p cc : 0 <= cc <= zlen p -> cc <= INT_MAX ->
  exists nw e w', sock_write w (ztake cc p) = (nw, e, w') /\ answers w' = tl (answers w) /\ ssize2int nw = Some nw /\
    (let nc := if nw =? NOTOK then 0 else nw in 0 <= nc <= cc /\ sent w' = sent w ++ ztake nc p) /\
    (willing_net w -> ((nw =? NOTOK) && negb (e =? EWOULDBLOCK))%bool = false) /\ (answers w = [] -> nw = cc).
Proof.
  intros C M; destruct (sock_write_spec w (ztake cc p)) as (nw & e & w' & -> & A & N & F); rewrite zlen_ztake in * by lia.
  exists nw, e, w'; split; [reflexivity|]; split; [exact A|]; split; [apply ssize2int_Some; unfold is_int, INT_MIN; lia|].
  unfold NOTOK; split; [|split; [|exact F]].
  - destruct (Z.eqb_spec nw (-1)), N as [(N & S & _) | (N & S)]; try lia; (split; [lia|]); rewrite S.
    + rewrite ztake_0, app_nil_r by lia; reflexivity.
    + rewrite ztake_ztake by lia; reflexivity.
  - intros G; destruct (Z.eqb_spec nw (-1)), N as [(_ & _ & N) | (N & _)]; try lia; try reflexivity; rewrite (N G); reflexivity.
Qed.

Lemma seg_octets_rest p n cc : 0 <= n <= cc -> cc <= zlen p ->
  ztake n p ++ seg_octets (QSeg (zdrop n p) (cc - n)) = ztake cc p.
Proof. intros A B; unfold seg_octets; cbn [qb_data seg_len]; rewrite ztake_ztake_app by lia; f_equal; lia. Qed.

Lemma tp0_inv_same tb tb' : tp0_inv tb -> same_but_io tb tb' -> Forall seg_fits (tb_qwrites tb') ->
  (flag tb TB_QWRITES = true \/ tb_qwrites tb' = []) -> tp0_inv tb'.
Proof. intros I -> F Q; apply tp0_inv_io; [exact I | exact F | exact Q]. Qed.

(** What a write of the octets [x] comes to; it succeeds if [G]. *)
Definition wrote (G : Prop) (tb : tsapblk) (x : list Z) (rc : Z) (tb' : tsapblk) : Prop :=
  tp0_inv tb' /\ same_but_io tb tb' /\ (rc <> NOTOK -> stream tb' = stream tb ++ x) /\
  (willing tb -> willing tb' /\ (G -> rc <> NOTOK)).

Lemma wrote_nothing (G : Prop) tb x : tp0_inv tb -> ~ G -> wrote G tb x NOTOK tb.
Proof.
  intros I N; split; [exact I|]; split; [destruct tb; reflexivity|]; split; [intros []; reflexivity|].
  intros W; split; [exact W | intros g; destruct (N g)].
Qed.

Lemma wrote_weaken (G H : Prop) tb x rc tb' : (H -> G) -> wrote G tb x rc tb' -> wrote H tb x rc tb'.
Proof. intros K (A & B & C & D); split; [exact A|]; split; [exact B|]; split; [exact C|]; intros W; destruct (D W) as (V & g); auto. Qed.

(** The queue stays empty. *)
Lemma wrote_out tb w x rc : tp0_inv tb -> tb_qwrites tb = [] -> answers w = tl (answers (tb_out tb)) ->
  (rc <> NOTOK -> sent w = sent (tb_out tb) ++ x) -> (willing tb -> rc <> NOTOK) -> forall G, wrote G tb x rc (set_tb_out tb w).
Proof.
  intros I W A S G P; assert (E : same_but_io tb (set_tb_out tb w)) by (destruct tb; reflexivity).
  split; [apply (tp0_inv_same tb _ I E); cbn [tb_qwrites set_tb_out]; rewrite W; auto|]; split; [exact E|]; split.
  - intros R; unfold stream; cbn [tb_out tb_qwrites set_tb_out]; rewrite W; change (ring_octets []) with (@nil Z); rewrite !app_nil_r; exact (S R).
  - intros V; split; [exact (willing_io tb _ E A V) | intros _; exact (G V)].
Qed.

Lemma seg_octets_all p : seg_octets (QSeg p (zlen p)) = p.
Proof. apply ztake_all; cbn [seg_len]; lia. Qed.

Lemma ring_octets_one s : ring_octets [s] = seg_octets s.
Proof. rewrite ring_octets_cons; change (ring_octets []) with (@nil Z); apply app_nil_r. Qed.

Lemma tp0_send_spec tb p : tp0_inv tb -> flag tb TB_QWRITES = true -> zlen p <= INT_MAX ->
  exists rc tb', tp0_send tb p (zlen p) = (rc, tb') /\ wrote True tb p rc tb'.
Proof.
  intros I Q L; pose proof (zlen_nonneg p) as P; pose proof I as (X & _ & S & _); unfold tp0_send.
  assert (Rc : zlen p <> NOTOK) by (unfold NOTOK; lia).
  destruct (tb_qwrites tb) as [|s l] eqn:W.
  - destruct (write_block (tb_out tb) p (zlen p)) as (nw & e & w & -> & A & -> & (N & Sw) & G & _); try lia.
    destruct (Z.eqb_spec nw (zlen p)) as [E|E].
    { do 2 eexists; split; [reflexivity|]; apply wrote_out; auto; intros _; rewrite Sw, E.
      destruct (Z.eqb_spec (zlen p) NOTOK); [lia|]; rewrite ztake_all by lia; reflexivity. }
    destruct ((nw =? NOTOK) && negb (e =? EWOULDBLOCK))%bool.
    { do 2 eexists; split; [reflexivity|]; apply wrote_out; auto; [intros []; reflexivity | intros (V & _); discriminate (G V)]. }
    change (flag (set_tb_out tb w) TB_X25) with (flag tb TB_X25); rewrite X, andb_false_r; cbn [tb_queue set_tb_out].
    set (nc := if nw =? NOTOK then 0 else nw) in *; destruct (tb_queue tb) eqn:Tq.
    + do 2 eexists; split; [reflexivity|]; set (q := QSeg (zdrop nc p) (zlen p - nc)).
      assert (E' : same_but_io tb (set_tb_qwrites (set_tb_out tb w) [q])) by (destruct tb; reflexivity).
      split; [apply (tp0_inv_same tb _ I E'); [|left; exact Q]; repeat constructor; cbn [q seg_len qb_data]; rewrite ?zlen_zdrop by lia; lia|].
      split; [exact E'|]; split; [|intros V; split; [exact (willing_io tb _ E' A V) | intros _; exact Rc]]; intros _; unfold stream.
      change (tb_out (set_tb_qwrites _ _)) with w; change (tb_qwrites (set_tb_qwrites _ _)) with [q].
      rewrite W, Sw, ring_octets_one, <- app_assoc; unfold q; rewrite seg_octets_rest, ztake_all by lia.
      change (ring_octets []) with (@nil Z); rewrite app_nil_r; reflexivity.
    + do 2 eexists; split; [reflexivity|]; apply wrote_out; auto; [intros []; reflexivity|].
      intros (_ & V); rewrite Q, Tq in V; discriminate.
  - do 2 eexists; split; [reflexivity|]; set (tb' := set_tb_qwrites tb _).
    assert (E' : same_but_io tb tb') by (destruct tb; reflexivity).
    split; [apply (tp0_inv_same tb _ I E'); [|left; exact Q]; apply Forall_app; split; [exact S | repeat constructor; cbn; lia]|].
    split; [exact E'|]; split; [|intros V; split; [exact V | intros _; exact Rc]]; intros _; unfold stream; change (tb_out tb') with (tb_out tb).
    change (tb_qwrites tb') with ((s :: l) ++ [QSeg p (zlen p)]).
    rewrite W, ring_octets_app, ring_octets_one, seg_octets_all, app_assoc; reflexivity.
Qed.

Section Writer.
Context `{Allocator} (sizeof_qb : Z).

(** There is room for a packet in a [struct qbuf] of its own. *)
Definition room : Prop := memory_ok /\ 0 <= sizeof_qb <= SIZE_MAX - 65536.

Lemma tp0write_spec tb t n : tp0_inv tb -> parts_ok t n ->
  exists rc tb', tp0write sizeof_qb tb t (t_un t) n = Val (rc, tb') /\ wrote room tb (tpkt_packet t n) rc tb'.
Proof.
  intros I P; pose proof I as (X & _ & _ & Q); pose proof (zlen_packet t n P) as L; pose proof (zlen_nonneg (tpkt_packet t n)).
  unfold tp0write; destruct (flag tb TB_QWRITES) eqn:F; cbn [negb].
  - rewrite (tp0_count_ok tb t n X P), int2sizet_Some by lia; rewrite Z.gtb_ltb; destruct (Z.ltb_spec (SIZE_MAX - zlen (tpkt_packet t n)) sizeof_qb).
    { do 2 eexists; split; [reflexivity|]; apply wrote_nothing; [exact I | intros (_ & G); lia]. }
    destruct (malloc_ok _) eqn:M.
    + rewrite (tp0_block_ok tb t n X P); cbn [cbind]; destruct (tp0_send_spec tb (tpkt_packet t n) I F) as (rc & tb' & -> & W); [unfold INT_MAX; lia|].
      do 2 eexists; split; [reflexivity|]; apply (wrote_weaken True); auto.
    + do 2 eexists; split; [reflexivity|]; apply wrote_nothing; [exact I | intros (G & _)]; rewrite G in M; discriminate.
  - destruct Q as [Q | Q]; [discriminate|]; rewrite (tp0_iov_ok tb t n X P); cbn [cbind concat].
    rewrite tp0_parts_octets, ptrdiff2int_Some.
    + destruct (write_block (tb_out tb) (tpkt_packet t n) (zlen (tpkt_packet t n))) as (nw & e & w & E & A & S & (N & Sw) & _ & Al); [lia | unfold INT_MAX; lia|].
      rewrite (ztake_all (zlen (tpkt_packet t n))) in E by lia; rewrite E, S; destruct (Z.eqb_spec nw (zlen (tpkt_packet t n))) as [W|W].
      * do 2 eexists; split; [reflexivity|]; apply wrote_out; auto; [intros _ | intros _; unfold NOTOK; lia].
        rewrite Sw, W; destruct (Z.eqb_spec (zlen (tpkt_packet t n)) NOTOK) as [K|]; [unfold NOTOK in K; lia|]; rewrite ztake_all by lia; reflexivity.
      * do 2 eexists; split; [reflexivity|]; apply wrote_out; auto; [intros []; reflexivity|].
        intros (_ & V); rewrite F in V; destruct (W (Al V)).
    + destruct P as (_ & _ & _ & _ & _ & _ & (_ & U) & _); pose proof (zlen_nonneg (t_udvec t)); unfold tp0_parts, NTPUV in *.
      rewrite zlen_cons, zlen_map, zlen_cons, zlen_app; unfold is_int, INT_MIN, INT_MAX.
      destruct (t_vdata t); rewrite ?zlen_one; change (zlen (@nil udvec)) with 0; lia.
Qed.
End Writer.

#[local] Obligation Tactic := idtac.

#[global] Program Instance Tp0Writer `{Allocator} (sizeof_qb : Z) : @TsWriter tsapblk (Tp0Out sizeof_qb) := {|
  out_ok := fun tb => tp0_inv tb;
  out_octets := stream;
  out_frame := tpkt_frame;
  out_fits := fun _ _ => True;
  out_accepts := fun tb _ => willing tb /\ room sizeof_qb;
  out_kept := fun tb tb' => same_but_io tb tb' /\ (willing tb -> willing tb') |}.
Next Obligation.
  intros A q tb t n I P _; destruct (tp0write_spec q tb t n I P) as (rc & tb' & E & I' & K & S & W).
  exists rc, tb'; split; [exact E|]; split; [exact I'|]; split; [split; [exact K | apply W]|]; split; [exact S|]; intros (V & R); destruct (W V) as (_ & G); auto.
Qed.

(** ** Drains *)

Lemma drain_loop_spec l : Forall seg_fits l -> forall w, exists rc l' w', drain_loop false l w = (rc, l', w') /\ Forall seg_fits l' /\
  sent w' ++ ring_octets l' = sent w ++ ring_octets l /\ (rc = DONE -> l' = []) /\ (l = [] -> l' = []) /\
  (willing_net w -> willing_net w' /\ (rc = DONE \/ rc = OK /\ length (answers w') < length (answers w))%nat) /\
  (length (answers w') <= length (answers w))%nat.
Proof.
  induction 1 as [|s l (Sl & Sm) Sf IH]; intros w; cbn [drain_loop].
  { do 3 eexists; split; [reflexivity|]; repeat split; auto; constructor. }
  rewrite int2sizet_Some by lia; destruct (write_block w (qb_data s) (seg_len s)) as (nw & e & w1 & -> & A & -> & (N & Sw) & G & Al); try lia.
  assert (La : (length (answers w1) <= length (answers w))%nat) by (rewrite A; destruct (answers w); simpl; lia).
  assert (Fs : Forall seg_fits (s :: l)) by (constructor; [split; assumption | exact Sf]).
  assert (Lt : nw <> seg_len s -> (length (answers w1) < length (answers w))%nat).
  { intros D; rewrite A; destruct (answers w) eqn:Aw; [destruct (D (Al eq_refl)) | simpl; lia]. }
  destruct (Z.eqb_spec nw (seg_len s)) as [E|E].
  - assert (nw <> NOTOK) by (unfold NOTOK; lia); rewrite (proj2 (Z.eqb_neq nw NOTOK)), E in Sw by assumption.
    destruct (IH w1) as (rc & l' & w' & -> & F & S & D & _ & W & M); do 3 eexists; split; [reflexivity|]; split; [exact F|].
    rewrite S, Sw, ring_octets_cons, <- app_assoc; split; [reflexivity|]; split; [exact D|]; split; [discriminate|]; split; [|lia].
    intros V; destruct (W (willing_net_tl _ _ A V)) as (W' & [-> | (-> & K)]); split; auto; right; split; [reflexivity | lia].
  - destruct ((nw =? NOTOK) && negb (e =? EWOULDBLOCK))%bool eqn:H.
    { do 3 eexists; split; [reflexivity|]; apply andb_true_iff in H as (H & _); rewrite H, ztake_0, app_nil_r in Sw by lia.
      rewrite Sw; split; [exact Fs|]; split; [reflexivity|]; split; [discriminate|]; split; [discriminate|]; split; [|exact La].
      intros V; discriminate (G V). }
    rewrite andb_false_r; do 3 eexists; split; [reflexivity|]; split.
    { constructor; [|exact Sf]; unfold seg_fits; cbn [seg_len qb_data]; rewrite zlen_zdrop by lia; lia. }
    split; [rewrite Sw, !ring_octets_cons, <- !app_assoc, (app_assoc (ztake _ _)), seg_octets_rest by lia; reflexivity|].
    split; [discriminate|]; split; [discriminate|]; split; [|exact La].
    intros V; split; [exact (willing_net_tl _ _ A V)|]; right; split; [reflexivity | exact (Lt E)].
Qed.

Lemma TDrain_spec tb : tp0_inv tb -> exists rc tb', TDrain tb = (rc, tb') /\ tp0_inv tb' /\ same_but_io tb tb' /\
  stream tb' = stream tb /\ (rc = DONE -> tb_qwrites tb' = []) /\
  (willing_net (tb_out tb) -> willing_net (tb_out tb') /\
     (rc = DONE \/ rc = OK /\ (length (answers (tb_out tb')) < length (answers (tb_out tb)))%nat)).
Proof.
  intros I; pose proof I as (X & _ & S & Q); unfold TDrain; rewrite X.
  destruct (drain_loop_spec _ S (tb_out tb)) as (rc & l & w & -> & F & St & D & E & W & _).
  do 2 eexists; split; [reflexivity|]; split; [apply tp0_inv_io; auto; destruct Q; auto|].
  split; [destruct tb; reflexivity|]; split; [exact St|]; split; [exact D | exact W].
Qed.

(** [TDrain], until it does not ask to be called again. *)
Fixpoint drains (n : nat) (tb : tsapblk) : Z * tsapblk :=
  match n with
  | O => (OK, tb)
  | S n' => let '(rc, tb) := TDrain tb in if rc =? OK then drains n' tb else (rc, tb)
  end.

(** The packet header of a packet that is written. *)
Lemma frame_prepared t : let n := 4 + zlen (enc_tpdu (tpdu_of t)) in n < 65536 ->
  tpkt_frame (prepared t) = [TPKT_VRSN; t_rsrvd t; Z.shiftr n 8; Z.land n 255].
Proof.
  intros n L; pose proof (zlen_nonneg (enc_tpdu (tpdu_of t))); unfold tpkt_frame.
  change (t_length (prepared t)) with (htons n); change (t_vrsn (prepared t)) with TPKT_VRSN; change (t_rsrvd (prepared t)) with (t_rsrvd t).
  assert (N : 0 <= n < 65536) by lia; clearbody n; unfold htons; rewrite shr8, land_ff.
  assert (0 <= n / 256 < 256) by (split; [apply Z.div_pos; lia | apply Z.div_lt_upper_bound; lia]).
  rewrite Z.add_comm, Z_mod_plus_full, Z.mod_small, Z_div_plus_full, (Z.div_small (n / 256)) by lia; reflexivity.
Qed.

(** A packet that was written is on the connection of the peer. *)
Lemma written_has_tpdu s t rest : packet_ok t -> sk_in s = tpkt_frame (prepared t) ++ enc_tpdu (tpdu_of t) ++ rest ->
  has_tpdu s (t_rsrvd t) (tpdu_of t) rest.
Proof.
  intros P E; pose proof (tpdu_of_ok t P) as O; assert (L : 4 + zlen (enc_tpdu (tpdu_of t)) < 65536) by apply P.
  split; [exact O|]; split; [exact L|]; rewrite frame_prepared in E by exact L; split; [exact E|].
  pose proof (zlen_nonneg (enc_tpdu (tpdu_of t))); lia.
Qed.

(** ** The order of what is sent *)

(** What may happen to a connection between the packets it is given:
    a packet is written, the queue is drained, queued writes are turned on
    or off, and the network and the peer do what they like. *)
Inductive engine_step `{Allocator} (sizeof_qb : Z) : tsapblk * list (list Z) -> tsapblk * list (list Z) -> Prop :=
| StepWrite tb given t t' tb' : packet_ok t -> @tpkt2fd _ (Tp0Out sizeof_qb) _ tb t = Val (OK, t', tb') ->
    engine_step sizeof_qb (tb, given) (tb', given ++ [tpkt_frame t' ++ enc_tpdu (tpdu_of t)])
| StepDrain tb given rc tb' : TDrain tb = (rc, tb') -> engine_step sizeof_qb (tb, given) (tb', given)
| StepQueues tb given onoff agrees rc reason tb' : TSetQueuesOK tb onoff agrees = (rc, reason, tb') ->
    engine_step sizeof_qb (tb, given) (tb', given)
| StepNet tb given l s : engine_step sizeof_qb (tb, given) (set_tb_in (set_tb_out tb (Wire (sent (tb_out tb)) l)) s, given)
| StepAgree tb given agrees : engine_step sizeof_qb (tb, given) (set_tb_queue tb (tb_flags tb) agrees, given).

Inductive engine_steps `{Allocator} (sizeof_qb : Z) (s : tsapblk * list (list Z)) : tsapblk * list (list Z) -> Prop :=
| Steps0 : engine_steps sizeof_qb s s
| StepsS s1 s2 : engine_steps sizeof_qb s s1 -> engine_step sizeof_qb s1 s2 -> engine_steps sizeof_qb s s2.

Lemma flags_bis f : is_byte f -> exists g, char_bis f TB_QWRITES = Some g /\ is_byte g /\
  (Z.land g TB_X25 =? 0) = (Z.land f TB_X25 =? 0) /\ (Z.land g TB_QWRITES =? 0) = false.
Proof.
  intros F; pose proof (byte_forall (fun f => match char_bis f TB_QWRITES with
    | Some g => (0 <=? g) && (g <? 256) && Bool.eqb (Z.land g TB_X25 =? 0) (Z.land f TB_X25 =? 0) && negb (Z.land g TB_QWRITES =? 0)
    | None => false end)%bool ltac:(vm_compute; reflexivity) f F) as E; cbv beta in E.
  destruct (char_bis f TB_QWRITES) as [g|]; [|discriminate]; rewrite !andb_true_iff, Z.leb_le, Z.ltb_lt, eqb_true_iff, negb_true_iff in E.
  exists g; unfold is_byte; tauto.
Qed.

Lemma flags_bic f : is_byte f -> exists g, char_bic f TB_QWRITES = Some g /\ is_byte g /\ (Z.land g TB_X25 =? 0) = (Z.land f TB_X25 =? 0).
Proof.
  intros F; pose proof (byte_forall (fun f => match char_bic f TB_QWRITES with
    | Some g => (0 <=? g) && (g <? 256) && Bool.eqb (Z.land g TB_X25 =? 0) (Z.land f TB_X25 =? 0)
    | None => false end)%bool ltac:(vm_compute; reflexivity) f F) as E; cbv beta in E.
  destruct (char_bic f TB_QWRITES) as [g|]; [|discriminate]; rewrite !andb_true_iff, Z.leb_le, Z.ltb_lt, eqb_true_iff in E.
  exists g; unfold is_byte; tauto.
Qed.

Lemma TSetQueuesOK_spec tb onoff agrees rc reason tb' : tp0_inv tb -> TSetQueuesOK tb onoff agrees = (rc, reason, tb') ->
  tp0_inv tb' /\ stream tb' = stream tb.
Proof.
  intros (X & B & S & Q); unfold TSetQueuesOK; destruct (negb (flag tb TB_CONN)); [intros [= _ _ <-]; repeat split; assumption || apply B|].
  destruct (negb (onoff =? 0)).
  - destruct (flags_bis _ B) as (g & -> & Bg & Xg & Qg); intros [= _ _ <-]; split; [|reflexivity].
    split; [unfold flag in *; cbn [tb_flags set_tb_queue]; rewrite Xg; exact X|]; split; [exact Bg|]; split; [exact S|].
    left; unfold flag; cbn [tb_flags set_tb_queue]; rewrite Qg; reflexivity.
  - destruct (tb_qwrites tb) as [|s l] eqn:W; [|intros [= _ _ <-]; split; [split; [exact X|]; rewrite W; auto | reflexivity]].
    destruct (flags_bic _ B) as (g & -> & Bg & Xg); intros [= _ _ <-]; split; [|reflexivity].
    split; [unfold flag in *; cbn [tb_flags set_tb_queue]; rewrite Xg; exact X|]; split; [exact Bg|]; cbn [tb_qwrites set_tb_queue]; rewrite W; auto.
Qed.

Lemma engine_step_inv `{Allocator} sizeof_qb tb given tb' given' : memory_ok -> tp0_inv tb ->
  engine_step sizeof_qb (tb, given) (tb', given') -> tp0_inv tb' /\ exists x, given' = given ++ x /\ stream tb' = stream tb ++ concat x.
Proof.
  intros M I E; assert (Keep : forall tb', tp0_inv tb' /\ stream tb' = stream tb ->
    tp0_inv tb' /\ exists x, given = given ++ x /\ stream tb' = stream tb ++ concat x)
    by (intros k (K1 & K2); split; [exact K1|]; exists []; rewrite !app_nil_r; auto).
  inversion E; subst; clear E.
  - destruct (@tpkt2fd_spec _ (Tp0Out sizeof_qb) (Tp0Writer sizeof_qb) _ M tb t) as (rc & t2 & tb2 & E & I' & _ & _ & S & _); auto; [exact Logic.I|].
    assert (rc = OK /\ t2 = t' /\ tb2 = tb') as (-> & -> & ->) by (repeat split; congruence); destruct (S eq_refl) as (-> & S').
    split; [exact I'|]; eexists; split; [reflexivity|]; cbn [concat]; rewrite app_nil_r; exact S'.
  - destruct (TDrain_spec tb I) as (rc2 & tb2 & E & I' & _ & S & _).
    assert (tb2 = tb') as -> by congruence; auto.
  - eapply Keep, TSetQueuesOK_spec; eassumption.
  - apply Keep; split; [|reflexivity]; destruct I as (X & B & Sf & Q); repeat split; assumption || apply B.
  - apply Keep; split; [|reflexivity]; destruct I as (X & B & Sf & Q); repeat split; assumption || apply B.
Qed.

(** C36. Nothing a connection was given is lost, repeated or put out of order,
    however writes, drains, changes of [TSetQueuesOK] and short or refused
    writes follow one another: the octets the network took, then those of the
    queue, are those of the packets written, each whole and in its turn. *)
Theorem tp0_queue_order : forall (A : Allocator) sizeof_qb tb given tb', memory_ok -> tp0_inv tb -> stream tb = [] ->
  engine_steps sizeof_qb (tb, []) (tb', given) ->
  tp0_inv tb' /\ sent (tb_out tb') ++ ring_octets (tb_qwrites tb') = concat given.
Proof.
  intros A q tb given tb' M I E Steps; remember (tb', given) as s eqn:Es; revert tb' given Es.
  induction Steps as [|[tb1 g1] s2 _ IH Step]; intros tb' given Es.
  - injection Es as <- <-; split; [exact I | exact E].
  - subst s2; destruct (IH tb1 g1 eq_refl) as (I1 & E1).
    destruct (engine_step_inv q tb1 g1 tb' given M I1 Step) as (I' & x & -> & S); split; [exact I'|].
    change (stream tb' = concat (g1 ++ x)); rewrite S, concat_app, <- E1; reflexivity.
Qed.

Lemma drains_spec tb : tp0_inv tb -> willing_net (tb_out tb) ->
  exists n tb', (n <= S (length (answers (tb_out tb))))%nat /\ drains n tb = (DONE, tb') /\ tp0_inv tb' /\
    tb_qwrites tb' = [] /\ sent (tb_out tb') = stream tb /\ same_but_io tb tb'.
Proof.
  remember (length (answers (tb_out tb))) as k eqn:K; revert tb K.
  induction k as [k IH] using lt_wf_ind; intros tb -> I V.
  destruct (TDrain_spec tb I) as (rc & tb1 & E & I1 & Sm & St & D & W); destruct (W V) as (V1 & [-> | (-> & L)]).
  - exists 1%nat, tb1; split; [lia|]; cbn [drains]; rewrite E; split; [reflexivity|]; split; [exact I1|]; split; [exact (D eq_refl)|].
    split; [|exact Sm]; rewrite <- St; unfold stream; rewrite (D eq_refl); symmetry; apply app_nil_r.
  - destruct (IH _ L tb1 eq_refl I1 V1) as (n & tb2 & Ln & E2 & I2 & Q2 & S2 & Sm2); exists (S n), tb2; split; [lia|].
    cbn [drains]; rewrite E; change (OK =? OK) with true; cbn match; split; [exact E2|]; split; [exact I2|]; split; [exact Q2|].
    split; [rewrite S2; exact St | exact (same_but_io_trans _ _ _ Sm Sm2)].
Qed.

(** C37. Queued octets do not stay: while no write fails hard, [TDrain] is
    called again at most once for each answer the network has left, and then
    the queue is empty and the network took all of it, in order. *)
Theorem tp0_drains : forall tb, tp0_inv tb -> willing_net (tb_out tb) ->
  exists n tb', (n <= S (length (answers (tb_out tb))))%nat /\ drains n tb = (DONE, tb') /\ tp0_inv tb' /\
    tb_qwrites tb' = [] /\ sent (tb_out tb') = sent (tb_out tb) ++ ring_octets (tb_qwrites tb) /\ same_but_io tb tb'.
Proof. intros tb I V; destruct (drains_spec tb I V) as (n & tb' & D); exists n, tb'; exact D. Qed.
