(* ===== verification/Transfer.v ===== *)
(** * tsap: a TSDU from one user to the other

    [TWrite] cuts the vector of its user into DT TPDUs no longer than what
    was agreed, through the queue when there is one; [TRead] of the peer puts
    their data together. The file follows the octets from one end of a TCP
    connection to the other. *)

From S2P Require Import Prelude Conv Convert PElement PStream Pe2Ps Qbuf Tpkt Tpkt2fd Tcp Tp0.
Open Scope Z_scope.
Open Scope c_scope.

(** ** The octets of a TSDU *)

Definition dt_tpdu (eot : bool) (d : list Z) : tpdu := Tpdu TPDU_DT [if eot then DT_EOT else 0] [] d.

Definition dt_octets (eot : bool) (d : list Z) : list Z :=
  let x := enc_tpdu (dt_tpdu eot d) in
  3 :: 0 :: Z.shiftr (4 + zlen x) 8 :: Z.land (4 + zlen x) 255 :: x.

(** One DT for each chunk, the last of them with the mark of the end. *)
Fixpoint dt_stream (chunks : list (list Z)) : list Z :=
  match chunks with
  | [] => []
  | [d] => dt_octets true d
  | d :: l => dt_octets false d ++ dt_stream l
  end.

Lemma dt_stream_cons d l : l <> [] -> dt_stream (d :: l) = dt_octets false d ++ dt_stream l.
Proof. destruct l; [congruence | reflexivity]. Qed.

(** The octets of a vector. *)
Definition user_octets (l : list udvec) : list Z := concat (map uv_octets l).

(** ** What is left to write *)

Definition cursor_ok (c : cursor) : Prop :=
  match c with
  | None => True
  | Some (bp, cc, uvs) => 0 <= cc <= zlen bp /\ bytes (ztake cc bp) /\ Forall uv_ok uvs
  end.

Definition cursor_octets (c : cursor) : list Z :=
  match c with None => [] | Some (bp, cc, uvs) => ztake cc bp ++ concat (map uv_octets uvs) end.

Definition cursor_left (c : cursor) : nat :=
  match c with None => 0 | Some (bp, cc, uvs) => S (length uvs + length (cursor_octets c)) end.

(** What one packet takes. *)
Definition filled (k : nat) (len : Z) (start : cursor) (new : list udvec) (c : cursor) : Prop :=
  Forall uv_ok new /\ (length new <= k)%nat /\ cursor_octets start = concat (map uv_octets new) ++ cursor_octets c /\
  zlen (concat (map uv_octets new)) <= len /\ cursor_ok c /\ (cursor_left c <= cursor_left start)%nat /\
  ((0 < k)%nat -> 0 < len -> start <> None -> (cursor_left c < cursor_left start)%nat).

Lemma fill_nothing k len c : 0 <= len -> cursor_ok c -> (k = O \/ len <= 0 \/ c = None) -> filled k len c [] c.
Proof.
  intros L C K; split; [constructor|]; split; [simpl; lia|]; split; [reflexivity|]; split; [exact L|]; split; [exact C|].
  split; [lia|]; intros K0 L0 N; destruct K as [K | [K | K]]; try lia; destruct (N K).
Qed.

Lemma filled_cons k len start u j mid new c : uv_ok u -> uv_len u = j ->
  cursor_octets start = uv_octets u ++ cursor_octets mid -> (cursor_left mid < cursor_left start)%nat ->
  filled k (len - j) mid new c -> filled (S k) len start (u :: new) c.
Proof.
  intros U J E L (F & K & E2 & Z2 & C & M & _); unfold filled; cbn [map concat length]; rewrite E, E2, <- app_assoc.
  rewrite zlen_app, uv_octets_len by apply U; repeat split; auto; lia.
Qed.

Lemma fill_spec k : forall bp cc uvs len vv, 0 <= len -> cursor_ok (Some (bp, cc, uvs)) ->
  exists new c, fill k bp cc uvs len vv = (vv ++ new, c) /\ filled k len (Some (bp, cc, uvs)) new c.
Proof.
  induction k as [|k IH]; intros bp cc uvs len vv L C; cbn [fill]; rewrite ?Z.gtb_ltb.
  { exists [], (Some (bp, cc, uvs)); rewrite app_nil_r; split; [reflexivity | apply fill_nothing; auto]. }
  destruct (Z.ltb_spec 0 len); [|exists [], (Some (bp, cc, uvs)); rewrite app_nil_r; split; [reflexivity | apply fill_nothing; auto]].
  pose proof C as (Cc & B & U); set (j := if cc <? len then cc else len).
  assert (J : 0 <= j <= cc /\ j <= len /\ (cc - j <= 0 <-> cc <= len) /\ (cc <= len -> j = cc) /\ (len < cc -> j = len)) by (subst j; destruct (Z.ltb_spec cc len); lia).
  assert (Uj : uv_ok (UV bp j)).
  { split; cbn [uv_len uv_base]; [lia|]; unfold uv_octets; cbn [uv_len uv_base]; rewrite <- (ztake_ztake j cc) by lia; apply Forall_ztake, B. }
  destruct (Z.leb_spec (cc - j) 0) as [D|D]; [assert (Ej : j = cc) by lia; destruct uvs as [|u uvs]|].
  - exists [UV bp j], None; split; [reflexivity|]; apply filled_cons with (j := j) (mid := None); auto; try (simpl; lia).
    + change (uv_octets (UV bp j)) with (ztake j bp); cbn [cursor_octets uv_len uv_base map concat]; rewrite Ej; reflexivity.
    + apply fill_nothing; [lia | exact I | auto].
  - pose proof (Forall_inv U) as (Lu & Bu); pose proof (Forall_inv_tail U) as Ut.
    destruct (IH (uv_base u) (uv_len u) uvs (len - j) (vv ++ [UV bp j])) as (new & c & -> & F); [lia | exact (conj Lu (conj Bu Ut))|].
    exists (UV bp j :: new), c; rewrite <- app_assoc; split; [reflexivity|].
    apply filled_cons with (j := j) (mid := Some (uv_base u, uv_len u, uvs)); auto.
    + change (uv_octets (UV bp j)) with (ztake j bp); cbn [cursor_octets uv_len uv_base map concat]; rewrite Ej; reflexivity.
    + unfold cursor_left; cbn [cursor_octets length map concat]; rewrite !length_app; fold (uv_octets u); lia.
  - destruct (IH (zdrop j bp) (cc - j) uvs (len - j) (vv ++ [UV bp j])) as (new & c & -> & F); [lia | split; [rewrite zlen_zdrop; lia | split; [|exact U]]|].
    { rewrite block_rest by lia; apply Forall_zdrop, B. }
    assert (Eo : cursor_octets (Some (bp, cc, uvs)) = uv_octets (UV bp j) ++ cursor_octets (Some (zdrop j bp, cc - j, uvs))).
    { change (uv_octets (UV bp j)) with (ztake j bp); cbn [cursor_octets uv_len uv_base]; rewrite app_assoc, ztake_ztake_app by lia; do 2 f_equal; lia. }
    exists (UV bp j :: new), c; rewrite <- app_assoc; split; [reflexivity|].
    apply filled_cons with (j := j) (mid := Some (zdrop j bp, cc - j, uvs)); auto.
    unfold cursor_left; rewrite Eo, !length_app; pose proof (uv_octets_len _ (proj1 Uj)) as Zu; unfold zlen in Zu; cbn [uv_len] in Zu; lia.
Qed.

(** ** One packet *)

(** The DT that [TWrite] makes. *)
Definition dt_packet (eot : bool) (vv : list udvec) : tsapkt :=
  let t := set_t_udvec (set_t_hdr new_packet TPKT_VRSN 0 0 0 TPDU_DT) vv in
  if eot then set_fixed t [Z.lor (hd 0 (t_un t)) DT_EOT] else t.

Lemma dt_packet_tpdu eot vv : tpdu_of (dt_packet eot vv) = dt_tpdu eot (concat (map uv_octets vv)).
Proof. destruct eot; reflexivity. Qed.

Lemma dt_packet_ok eot vv : Forall uv_ok vv -> (length vv <= 11)%nat -> zlen (concat (map uv_octets vv)) <= 65528 ->
  packet_ok (dt_packet eot vv).
Proof.
  intros U K L; unfold packet_ok; rewrite dt_packet_tpdu; assert (E : t_udvec (dt_packet eot vv) = vv) by (destruct eot; reflexivity).
  rewrite E; split; [destruct eot; reflexivity|]; split; [left; destruct eot; reflexivity|]; split; [destruct eot; cbv; easy|].
  split; [destruct eot; discriminate|]; split; [destruct eot; reflexivity|]; split; [destruct eot; apply forallb_bytes; reflexivity|].
  split; [destruct eot; repeat split; try discriminate; apply forallb_bytes; reflexivity|].
  split; [split; [exact U | unfold zlen, NTPUV; lia]|]; split; [destruct eot; discriminate|].
  unfold enc_tpdu; rewrite !zlen_cons, !zlen_app; change (p_data (dt_tpdu eot ?d)) with d.
  change (zlen (p_fixed (dt_tpdu eot ?d))) with 1; change (zlen (enc_params (p_params (dt_tpdu eot ?d)))) with 0; lia.
Qed.

Lemma dt_frame eot vv : zlen (concat (map uv_octets vv)) <= 65528 ->
  tpkt_frame (prepared (dt_packet eot vv)) ++ enc_tpdu (dt_tpdu eot (concat (map uv_octets vv))) = dt_octets eot (concat (map uv_octets vv)).
Proof.
  intros L; set (d := concat _) in *; rewrite frame_prepared; rewrite dt_packet_tpdu; fold d.
  - replace (t_rsrvd (dt_packet eot vv)) with 0 by (destruct eot; reflexivity); reflexivity.
  - unfold enc_tpdu; rewrite !zlen_cons, !zlen_app; change (p_data (dt_tpdu eot d)) with d; pose proof (zlen_nonneg d).
    change (zlen (p_fixed (dt_tpdu eot d))) with 1; change (zlen (enc_params (p_params (dt_tpdu eot d)))) with 0; lia.
Qed.

(** ** Writing it all *)

Section Writing.
Context `{Allocator} (sizeof_tpkt sizeof_qb : Z) (Room : room sizeof_qb).

(** The chunks carry [data], each within what was agreed. *)
Definition chunks_of (tb : tsapblk) (data : list Z) (chunks : list (list Z)) : Prop :=
  concat chunks = data /\ chunks <> [] /\ Forall (fun d => zlen d <= segment_len tb) chunks /\ Forall bytes chunks.

Lemma uv_ok_bytes l : Forall uv_ok l -> bytes (concat (map uv_octets l)).
Proof. induction 1 as [|u l (_ & B) _ IH]; [constructor|]; cbn [map concat]; apply bytes_app; auto. Qed.

Lemma twrite_loop_spec fuel : forall tb c, tp0_inv tb -> willing tb -> cursor_ok c -> 0 < segment_len tb <= 65528 ->
  c <> None -> (cursor_left c <= fuel)%nat ->
  exists chunks tb', twrite_loop sizeof_tpkt sizeof_qb fuel tb c 0 = Val (OK, 0, tb') /\ tp0_inv tb' /\ willing tb' /\
    same_but_io tb tb' /\ stream tb' = stream tb ++ dt_stream chunks /\ chunks_of tb (cursor_octets c) chunks.
Proof.
  induction fuel as [|fuel IH]; intros tb c I W C S N K; (destruct c as [[[bp cc] uvs]|]; [|destruct N; reflexivity]); [unfold cursor_left in K; lia|].
  cbn [twrite_loop]; unfold newtpkt; rewrite (proj1 Room); change (int2u8 _) with (Some TPDU_DT); cbn match.
  destruct (fill_spec (Z.to_nat (NTPUV - 1)) bp cc uvs (segment_len tb) [] ltac:(lia) C) as (vv & c & -> & F); cbn [app].
  destruct F as (U & Lk & E & L & Cok & _ & Dec); change (Z.to_nat (NTPUV - 1)) with 11%nat in *; specialize (Dec ltac:(lia) ltac:(lia) N).
  set (eot := match c with None => true | Some _ => false end); set (d := concat (map uv_octets vv)) in *.
  assert (P : match c with None => set_fixed (set_t_udvec (set_t_hdr new_packet TPKT_VRSN 0 0 0 TPDU_DT) vv)
                [Z.lor (hd 0 (t_un (set_t_udvec (set_t_hdr new_packet TPKT_VRSN 0 0 0 TPDU_DT) vv))) DT_EOT]
              | Some _ => set_t_udvec (set_t_hdr new_packet TPKT_VRSN 0 0 0 TPDU_DT) vv end = dt_packet eot vv) by (destruct c; reflexivity).
  rewrite P; pose proof (dt_packet_ok eot vv U Lk ltac:(fold d; lia)) as Pok.
  destruct (@tpkt2fd_spec _ (Tp0Out sizeof_qb) (Tp0Writer sizeof_qb) _ (proj1 Room) tb _ I Pok Logic.I)
    as (rc & t' & tb1 & -> & I1 & (Sm1 & W1) & _ & Ok & Ac & _); cbn [cbind].
  rewrite (Ac (conj W Room)) in *; clear Ac; destruct (Ok eq_refl) as (_ & St); change (OK =? NOTOK) with false; cbn match.
  change (out_octets tb1) with (stream tb1) in St; change (out_frame (N := tsapblk)) with tpkt_frame in St.
  rewrite dt_packet_tpdu, dt_frame in St by (fold d; lia); fold d in St; change (out_octets tb) with (stream tb) in St.
  assert (Sg : segment_len tb1 = segment_len tb) by (rewrite Sm1; reflexivity).
  destruct c as [c'|].
  - destruct (IH tb1 (Some c')) as (chunks & tb' & -> & I' & W' & Sm' & St' & (Cd & Cn & Cl & Cb)); auto; [rewrite Sg; exact S | discriminate | lia|].
    exists (d :: chunks), tb'; split; [reflexivity|]; split; [exact I'|]; split; [exact W'|]; split; [exact (same_but_io_trans _ _ _ Sm1 Sm')|].
    rewrite St', St, dt_stream_cons, <- app_assoc by exact Cn; split; [reflexivity|].
    split; [cbn [concat]; rewrite Cd; symmetry; exact E|]; split; [discriminate|]; split; constructor; auto.
    + rewrite <- Sg; exact Cl.
    + apply uv_ok_bytes, U.
  - exists [d], tb1; split; [destruct fuel; reflexivity|]; split; [exact I1|]; split; [apply W1, W|]; split; [exact Sm1|]; split; [exact St|].
    split; [cbn [concat]; rewrite E; reflexivity|]; split; [discriminate|]; split; repeat constructor; auto; apply uv_ok_bytes, U.
Qed.
End Writing.

(** ** Reading it all *)

Lemma fd2tpkt_framed {N} `{TsReader N} `{Allocator} sizeof_tpkt sizeof_qb (s : N) r p rest : memory_ok -> net_ok s -> has_tpdu s r p rest ->
  exists s', fd2tpkt sizeof_tpkt sizeof_qb s = Val (Some (packet_of r p), s') /\ net_ok s' /\ net_input s' = rest.
Proof.
  intros M G P; unfold fd2tpkt, newtpkt; rewrite M, int2u8_Some by (cbv; easy); cbn match.
  destruct (fd2tpktaux_spec sizeof_qb s M G) as (rc & q & s' & -> & G' & _ & C); cbn [cbind].
  destruct (C r p rest P) as (-> & -> & Rest); exists s'; change (OK =? OK) with true; auto.
Qed.

Lemma dt_has_tpdu s eot d rest : bytes d -> zlen d <= 65528 -> sk_in s = dt_octets eot d ++ rest -> has_tpdu s 0 (dt_tpdu eot d) rest.
Proof.
  intros B L E; assert (Z4 : 0 <= 4 + zlen (enc_tpdu (dt_tpdu eot d)) < 65536).
  { unfold enc_tpdu; rewrite !zlen_cons, !zlen_app; change (p_data (dt_tpdu eot d)) with d; pose proof (zlen_nonneg d).
    change (zlen (p_fixed (dt_tpdu eot d))) with 1; change (zlen (enc_params (p_params (dt_tpdu eot d)))) with 0; lia. }
  split; [|split; [lia | split; [exact E | exact Z4]]]; split; [cbv; easy|]; split; [reflexivity|].
  split; [destruct eot; apply forallb_bytes; reflexivity|]; split; [constructor|]; split; [exact B | vm_compute; discriminate].
Qed.

(** The connection after the data of a packet. *)
Definition takes (tb : tsapblk) (s : sock) (d : list Z) : tsapblk :=
  match d with
  | [] => set_tb_in tb s
  | _ => set_tb_qbuf (set_tb_in tb s) (tb_qbuf tb ++ [QSeg d (zlen d)]) (i32 (tb_len tb + zlen d))
  end.

Lemma takes_spec tb s d : tb_len tb = zlen (ring_octets (tb_qbuf tb)) -> tb_len tb + zlen d <= INT_MAX ->
  ring_octets (tb_qbuf (takes tb s d)) = ring_octets (tb_qbuf tb) ++ d /\ tb_len (takes tb s d) = tb_len tb + zlen d /\ tb_in (takes tb s d) = s.
Proof.
  intros E L; pose proof (zlen_nonneg d); pose proof (zlen_nonneg (ring_octets (tb_qbuf tb))); destruct d as [|a d]; cbn [takes].
  - change (zlen []) with 0; rewrite app_nil_r, Z.add_0_r; repeat split.
  - cbn [tb_qbuf tb_len tb_in set_tb_qbuf set_tb_in]; rewrite ring_octets_app, ring_octets_one, seg_octets_all.
    rewrite i32_id by (unfold is_int, INT_MIN; lia); repeat split.
Qed.

Section Reading.
Context `{Allocator} (sizeof_tpkt sizeof_qb : Z) (Mem : memory_ok).

(** One round of the loop of [TRead]. *)
Lemma tread_step fuel tb eot d rest async : sock_ok (tb_in tb) -> bytes d -> zlen d <= 65528 ->
  sk_in (tb_in tb) = dt_octets eot d ++ rest ->
  exists s, sock_ok s /\ sk_in s = rest /\
    tread_loop sizeof_tpkt sizeof_qb (S fuel) tb async =
      let tb := takes tb s d in
      if eot then Val match tb_qbuf tb with [] => (TxData 0 [] 0, tb) | q => (TxData 0 q (tb_len tb), set_tb_qbuf tb [] 0) end
      else if negb (async =? 0) then Val (TxMore, tb) else tread_loop sizeof_tpkt sizeof_qb fuel tb async.
Proof.
  intros G B L E; destruct (@fd2tpkt_framed sock TcpNet TcpReader _ sizeof_tpkt sizeof_qb (tb_in tb) 0 (dt_tpdu eot d) rest Mem G (dt_has_tpdu _ _ _ _ B L E)) as (s & F & G' & R).
  exists s; split; [exact G'|]; split; [exact R|]; cbn [tread_loop]; rewrite F; cbn [cbind].
  change (t_errno (packet_of 0 (dt_tpdu eot d)) =? OK) with true; change (TPDU_CODE (packet_of 0 (dt_tpdu eot d)) =? TPDU_DT) with true; cbn [negb].
  assert (T : match t_qbuf (packet_of 0 (dt_tpdu eot d)) with
     | Some q => set_tb_qbuf (set_tb_in tb s) (tb_qbuf (set_tb_in tb s) ++ [q]) (i32 (tb_len (set_tb_in tb s) + seg_len q))
     | None => set_tb_in tb s
     end = takes tb s d) by (destruct d; reflexivity); rewrite T.
  replace (negb (Z.land (hd 0 (t_un (packet_of 0 (dt_tpdu eot d)))) DT_EOT =? 0)) with eot by (destruct eot; reflexivity).
  cbv zeta; destruct eot; cbn [negb]; [|reflexivity]; destruct (tb_qbuf (takes tb s d)); reflexivity.
Qed.

Lemma tread_loop_spec chunks : forall fuel tb rest, chunks <> [] -> Forall bytes chunks -> Forall (fun d => zlen d <= 65528) chunks ->
  sock_ok (tb_in tb) -> sk_in (tb_in tb) = dt_stream chunks ++ rest -> tb_len tb = zlen (ring_octets (tb_qbuf tb)) ->
  tb_len tb + zlen (concat chunks) <= INT_MAX -> (length chunks <= fuel)%nat ->
  exists q tb', tread_loop sizeof_tpkt sizeof_qb fuel tb 0 = Val (TxData 0 q (tb_len tb + zlen (concat chunks)), tb') /\
    ring_octets q = ring_octets (tb_qbuf tb) ++ concat chunks /\ sk_in (tb_in tb') = rest /\ tb_qbuf tb' = [] /\ sock_ok (tb_in tb').
Proof.
  induction chunks as [|d l IH]; intros fuel tb rest N B L G E T M K; [destruct N; reflexivity|].
  destruct fuel as [|fuel]; [simpl in K; lia|]; pose proof (Forall_inv B) as Bd; pose proof (Forall_inv L) as Ld; cbn beta in Ld.
  cbn [concat] in *; rewrite zlen_app in *; pose proof (zlen_nonneg (concat l)); pose proof (zlen_nonneg d).
  destruct l as [|d2 l].
  - destruct (tread_step fuel tb true d rest 0 G Bd Ld E) as (s & G' & R & ->); cbv zeta; cbn match.
    destruct (takes_spec tb s d T ltac:(lia)) as (Q & Tl & Ti); change (zlen (concat [])) with 0; rewrite app_nil_r, Z.add_0_r, <- Tl.
    destruct (tb_qbuf (takes tb s d)) as [|a q] eqn:Tq.
    + exists [], (takes tb s d); rewrite <- Q, Ti, Tq; change (ring_octets []) with (@nil Z) in Q; assert (Z0 := f_equal zlen Q); rewrite zlen_app in Z0; change (zlen []) with 0 in Z0.
      split; [do 3 f_equal; rewrite Tl; lia|]; auto.
    + exists (a :: q), (set_tb_qbuf (takes tb s d) [] 0); split; [reflexivity|]; split; [exact Q|].
      change (tb_in (set_tb_qbuf ?t _ _)) with (tb_in t); rewrite Ti; auto.
  - rewrite dt_stream_cons, <- app_assoc in E by discriminate.
    destruct (tread_step fuel tb false d _ 0 G Bd Ld E) as (s & G' & R & ->); cbv zeta; change (negb (0 =? 0)) with false; cbn match.
    destruct (takes_spec tb s d T ltac:(lia)) as (Q & Tl & Ti).
    destruct (IH fuel (takes tb s d) rest) as (q & tb' & -> & Q' & R' & Z' & G2); rewrite ?Ti, ?Q, ?Tl, ?zlen_app; auto; try discriminate;
      try (apply Forall_inv_tail in B; apply Forall_inv_tail in L; assumption); try lia; [simpl in *; lia|].
    exists q, tb'; split; [do 3 f_equal; lia|]; rewrite Q', Q, <- app_assoc; auto.
Qed.
End Reading.

(** ** From one user to the other *)

Lemma dt_octets_bytes eot d : bytes d -> zlen d <= 65528 -> bytes (dt_octets eot d).
Proof.
  intros B L; set (s := Sock (dt_octets eot d) 0 []).
  destruct (dt_has_tpdu s eot d [] B L) as (O & Z4 & _); [rewrite app_nil_r; reflexivity|]; clear s.
  apply enc_tpdu_bytes in O; unfold dt_octets; cbv zeta; set (x := enc_tpdu _) in *; pose proof (zlen_nonneg x).
  repeat (apply bytes_cons; split; [unfold is_byte; rewrite ?shr8, ?land_ff; first [lia | apply Z.mod_pos_bound; lia |
    split; [apply Z.div_pos; lia | apply Z.div_lt_upper_bound; lia]]|]); exact O.
Qed.

Lemma dt_stream_bytes l : Forall bytes l -> Forall (fun d => zlen d <= 65528) l -> bytes (dt_stream l) /\ (length l <= length (dt_stream l))%nat.
Proof.
  induction 1 as [|d l B Bl IH]; intros L; [split; [constructor | simpl; lia]|]; pose proof (Forall_inv L) as Ld; cbn beta in Ld.
  destruct (IH (Forall_inv_tail L)) as (Bs & Ls); pose proof (fun e => dt_octets_bytes e d B Ld) as Bd.
  destruct l as [|d2 l]; [split; [apply Bd | simpl; lia]|]; rewrite dt_stream_cons by discriminate; split; [apply bytes_app; auto|].
  rewrite length_app; cbn [length] in *; unfold dt_octets; cbn [length]; lia.
Qed.

(** C38. What one user writes is what the other reads. [TWrite] of any vector
    ends, with chunks within the size that was agreed, whether the network
    takes the packets at once, in part or later; once the queue is drained the
    network has taken all of them after what was there. From any connection that
    delivers them, in pieces of any size, [TRead] returns one TSDU with the
    octets of the vector and their count, and leaves what follows. *)
Theorem TWrite_TRead : forall (A : Allocator) sizeof_tpkt sizeof_qb tb u uvs peer,
  let data := user_octets (u :: uvs) in
  room sizeof_qb -> tp0_inv tb -> willing tb -> 0 < segment_len tb <= 65528 ->
  Forall uv_ok (u :: uvs) -> zlen data <= INT_MAX -> tb_qbuf peer = [] -> tb_len peer = 0 ->
  exists chunks tb1 k tb2,
    TWrite sizeof_tpkt sizeof_qb (S (length uvs + length data)) tb (u :: uvs) 0 = Val (OK, 0, tb1) /\
    chunks_of tb data chunks /\ drains k tb1 = (DONE, tb2) /\ sent (tb_out tb2) = stream tb ++ dt_stream chunks /\
    forall rest e reads, bytes rest -> e = 0 \/ e = -1 ->
      let from := set_tb_in peer (Sock (dt_stream chunks ++ rest) e reads) in
      exists q to, TRead sizeof_tpkt sizeof_qb (length (dt_stream chunks)) from 0 0 = Val (TxData 0 q (zlen data), to) /\
        ring_octets q = data /\ sk_in (tb_in to) = rest /\ tb_qbuf to = [].
Proof.
  intros A st sq tb u uvs peer data R I W S U M Q0 L0.
  destruct (twrite_loop_spec st sq R (Datatypes.S (length uvs + length data)) tb (Some (uv_base u, uv_len u, uvs)) I W)
    as (chunks & tb1 & E & I1 & W1 & _ & St & C); [| exact S | discriminate | reflexivity |].
  { pose proof (Forall_inv U) as (Lu & Bu); exact (conj Lu (conj Bu (Forall_inv_tail U))). }
  destruct (drains_spec tb1 I1 (proj1 W1)) as (k & tb2 & _ & D & _ & _ & Sd & _).
  exists chunks, tb1, k, tb2; split; [exact E|]; split; [exact C|]; split; [exact D|]; split; [rewrite Sd; exact St|].
  intros rest e reads Br He from; destruct C as (Cd & Cn & Cl & Cb); change (cursor_octets _) with data in Cd.
  assert (L : Forall (fun d => zlen d <= 65528) chunks) by (eapply Forall_impl; [|exact Cl]; cbn beta; lia).
  destruct (dt_stream_bytes chunks Cb L) as (Bs & Ls).
  destruct (tread_loop_spec st sq (proj1 R) chunks (length (dt_stream chunks)) from rest Cn Cb L) as (q & to & Er & Oq & Rq & Zq & _); auto.
  - split; [apply bytes_app; auto | exact He].
  - change (tb_len from) with (tb_len peer); change (tb_qbuf from) with (tb_qbuf peer); rewrite Q0, L0; reflexivity.
  - change (tb_len from) with (tb_len peer); rewrite L0, Cd; exact M.
  - change (tb_len from) with (tb_len peer) in Er; change (tb_qbuf from) with (tb_qbuf peer) in Oq; rewrite L0, Cd in Er; rewrite Q0, Cd in Oq.
    exists q, to; auto.
Qed.

(** * What the model showed *)

Section Findings.
Context `{Allocator} (sizeof_tpkt sizeof_qb : Z) (Room : room sizeof_qb).

(** The peer chooses the size of a TPDU. When it leaves no room for data, as
    an exponent of 1 or 2 does, [TWrite] writes empty DTs for ever. *)
Lemma TWrite_never fuel : forall tb u uvs, tp0_inv tb -> willing tb -> segment_len tb <= 0 ->
  TWrite sizeof_tpkt sizeof_qb fuel tb (u :: uvs) 0 = UB.
Proof.
  unfold TWrite; induction fuel as [|fuel IH]; intros tb u uvs I W S; [reflexivity|].
  cbn [twrite_loop]; unfold newtpkt; rewrite (proj1 Room); change (int2u8 _) with (Some TPDU_DT); cbn match.
  change (Z.to_nat (NTPUV - 1)) with (Datatypes.S 10); generalize 10%nat; intros k; cbn [fill]; rewrite Z.gtb_ltb; destruct (Z.ltb_spec 0 (segment_len tb)); [lia|].
  pose proof (dt_packet_ok false [] ltac:(constructor) ltac:(simpl; lia) ltac:(vm_compute; discriminate)) as Pok.
  destruct (@tpkt2fd_spec _ (Tp0Out sizeof_qb) (Tp0Writer sizeof_qb) _ (proj1 Room) tb _ I Pok Logic.I)
    as (rc & t' & tb1 & E & I1 & (Sm1 & W1) & _ & _ & Ac & _); rewrite (Ac (conj W Room)) in *; clear Ac.
  change (dt_packet false []) with (set_t_udvec (set_t_hdr new_packet TPKT_VRSN 0 0 0 TPDU_DT) []) in E; rewrite E; cbn [cbind].
  change (OK =? NOTOK) with false; cbn match; apply IH; [exact I1 | apply W1, W | rewrite Sm1; exact S].
Qed.

Lemma tpkt2fd_too_long (tb : tsapblk) u : 65528 < uv_len u < 1000000 ->
  exists t, @tpkt2fd _ (Tp0Out sizeof_qb) _ tb (dt_packet true [u]) = Val (DR_LENGTH, t, tb).
Proof.
  intros L; unfold tpkt2fd; change (negb (t_errno (dt_packet true [u]) =? OK)) with false.
  change (negb (t_vrsn (dt_packet true [u]) =? TPKT_VRSN)) with false; cbn match; cbn [andb].
  set (t := set_t_var _ 0 None); change (t_udvec t) with [u]; cbn [fold_left]; rewrite Z.add_0_l, i32_id by (unfold is_int, INT_MIN, INT_MAX; lia).
  assert (E : tpdu_parts t (uv_len u) = Val (OK, DT_SIZE, set_t_li t 2)) by (unfold tpdu_parts; change (TPDU_CODE t) with TPDU_DT; reflexivity).
  rewrite E; cbn [cbind]; change (negb (OK =? OK)) with false; cbn match; change (t_li (set_t_li t 2)) with 2; rewrite !Z.gtb_ltb.
  change (INT_MAX - 5) with 2147483642; destruct (Z.ltb_spec 2147483642 2), (Z.ltb_spec (2147483642 - 2) (uv_len u)); try lia; cbn [orb].
  eexists; replace (int2u16 (2 + 5 + uv_len u)) with (@None Z); [reflexivity|].
  unfold int2u16; rewrite Z.gtb_ltb; destruct (Z.ltb_spec 65535 (2 + 5 + uv_len u)); [rewrite orb_true_r; reflexivity | lia].
Qed.

(** When it allows more than a TPKT holds, such an exponent of 17, the code
    DR_LENGTH of [tpkt2fd] is not taken for an error: [TWrite] says OK and
    writes nothing. *)
Lemma TWrite_drops fuel tb u : 65528 < uv_len u < 1000000 -> uv_len u <= segment_len tb -> uv_len u <= zlen (uv_base u) ->
  TWrite sizeof_tpkt sizeof_qb (S fuel) tb [u] 0 = Val (OK, 0, tb).
Proof.
  intros L S Z0; unfold TWrite; cbn [twrite_loop]; unfold newtpkt; rewrite (proj1 Room); change (int2u8 _) with (Some TPDU_DT); cbn match.
  change (Z.to_nat (NTPUV - 1)) with (Datatypes.S 10); generalize 10%nat; intros k; cbn [fill]; rewrite Z.gtb_ltb; destruct (Z.ltb_spec 0 (segment_len tb)); [|lia].
  assert (J : (if uv_len u <? segment_len tb then uv_len u else segment_len tb) = uv_len u) by (destruct (Z.ltb_spec (uv_len u) (segment_len tb)); lia).
  rewrite J, Z.sub_diag; change (0 <=? 0) with true; cbn [app]; destruct u as [bp cc]; cbn [uv_base uv_len] in *.
  destruct (tpkt2fd_too_long tb (UV bp cc) L) as (t & E); unfold dt_packet in E; rewrite E; cbn [cbind].
  change (DR_LENGTH =? NOTOK) with false; destruct fuel; reflexivity.
Qed.
End Findings.

(** * Examples *)

(** A connection with queued writes whose network takes three octets, then
    would block, then takes two, then all. *)
Definition ex_tb : tsapblk :=
  TB (TB_CONN + TB_TCP + TB_QWRITES) [0; 1] [0; 2] 9 7 16 [] 0 [] true (Sock [] 0 []) (Wire [] [3; -1; 2]).

Lemma ex_tb_inv : tp0_inv ex_tb /\ willing ex_tb.
Proof.
  split; [split; [reflexivity|]; split; [cbv; easy|]; split; [constructor | left; reflexivity]|].
  split; [|reflexivity]; repeat constructor; lia.
Qed.

Lemma ex_uv_ok l : forallb (fun u => (0 <=? uv_len u) && (uv_len u <=? zlen (uv_base u)) && forallb (fun b => (0 <=? b) && (b <? 256)) (uv_octets u))%bool l = true ->
  Forall uv_ok l.
Proof.
  intros E; apply Forall_forall; intros u U; rewrite forallb_forall in E; specialize (E u U); rewrite !andb_true_iff, !Z.leb_le in E.
  split; [lia | apply forallb_bytes, E].
Qed.

Definition ex_dt : tsapkt := dt_packet true [UV [1; 2; 3] 3].

Lemma ex_dt_ok : packet_ok ex_dt.
Proof. apply dt_packet_ok; [apply ex_uv_ok; reflexivity | simpl; lia | vm_compute; discriminate]. Qed.

Lemma room_plenty n : 0 <= n <= SIZE_MAX - 65536 -> @room plenty n.
Proof. intros N; split; [apply plenty_ok | exact N]. Qed.

(** The connection after one packet is written to it. *)
Definition ex_tb1 : tsapblk := set_tb_out (set_tb_qwrites ex_tb [QSeg [10; 2; 240; 128; 1; 2; 3] 7]) (Wire [3; 0; 0] [-1; 2]).

Lemma tp0_queue_order_witness : exists given tb', engine_steps (H := plenty) 40 (ex_tb, []) (tb', given) /\
  given = [[3; 0; 0; 10; 2; 240; 128; 1; 2; 3]] /\ sent (tb_out tb') ++ ring_octets (tb_qwrites tb') = concat given.
Proof.
  assert (St : engine_steps (H := plenty) 40 (ex_tb, []) (snd (TDrain (snd (TDrain ex_tb1))), [[3; 0; 0; 10; 2; 240; 128; 1; 2; 3]])).
  { eapply StepsS; [eapply StepsS; [eapply StepsS; [apply Steps0|] |] |].
    - apply (StepWrite (H := plenty) 40 ex_tb [] ex_dt (prepared ex_dt) ex_tb1); [apply ex_dt_ok | reflexivity].
    - eapply StepDrain; reflexivity.
    - eapply StepDrain; reflexivity. }
  do 2 eexists; split; [exact St|]; split; [reflexivity|].
  apply (tp0_queue_order plenty 40 ex_tb _ _ (plenty_ok) (proj1 ex_tb_inv) eq_refl St).
Defined.

Lemma tp0_drains_witness : exists n tb', (n <= 3)%nat /\ drains n ex_tb1 = (DONE, tb') /\ tb_qwrites tb' = [] /\
  sent (tb_out tb') = [3; 0; 0; 10; 2; 240; 128; 1; 2; 3].
Proof.
  destruct (tp0_drains ex_tb1) as (n & tb' & L & D & _ & Q & S & _).
  - split; [reflexivity|]; split; [cbv; easy|]; split; [repeat constructor; cbv; discriminate | left; reflexivity].
  - repeat constructor; lia.
  - exists n, tb'; auto.
Defined.

Lemma TWrite_TRead_witness : exists chunks tb1 k tb2,
  TWrite (H := plenty) 400 40 14 ex_tb [UV [1; 2; 3; 4; 5; 6; 7] 7; UV [] 0; UV [8; 9; 10; 11] 4] 0 = Val (OK, 0, tb1) /\
  concat chunks = [1; 2; 3; 4; 5; 6; 7; 8; 9; 10; 11] /\ drains k tb1 = (DONE, tb2) /\ sent (tb_out tb2) = dt_stream chunks.
Proof.
  destruct (TWrite_TRead plenty 400 40 ex_tb (UV [1; 2; 3; 4; 5; 6; 7] 7) [UV [] 0; UV [8; 9; 10; 11] 4] ex_tb)
    as (chunks & tb1 & k & tb2 & E & (C & _) & D & S & _).
  - apply room_plenty; vm_compute; split; discriminate.
  - apply ex_tb_inv.
  - apply ex_tb_inv.
  - vm_compute; split; [reflexivity | discriminate].
  - apply ex_uv_ok; reflexivity.
  - vm_compute; discriminate.
  - reflexivity.
  - reflexivity.
  - exists chunks, tb1, k, tb2; split; [|split; [exact C | split; [exact D | exact S]]]. exact E.
Defined.
