(* ===== verification/Tp0Conn.v ===== *)
(** * tsap: the connection phase of transport class 0

    TConnect, TRetry, TStart and TAccept of tp0ts.c, TTService of ts2tcp.c
    and the part of tcpaccept2 (tsaplisten.c) that takes a packet from the
    network. A connection is the [tsapblk] of the data phase with the
    selectors of the two sides and the packet to be sent. *)

From S2P Require Import Prelude Conv Convert PElement PStream Pe2Ps Qbuf Tpkt Tpkt2fd StrTpkt Tcp Tp0 Transfer.
Open Scope Z_scope.
Open Scope c_scope.

Definition TB_STACKS := 88.
Definition MAX1006 := 2048.
Definition DT_MAGIC := 3.
Definition SIZE_DFLT := 7.
Definition SIZE_MAXTP0 := 11.
Definition OPT_TEXPEDITE := 1.
Definition ALT_TP0 := 1.
Definition ALT_TP1 := 2.
Definition TS_SIZE := 32.
Definition TC_SIZE := 32.
Definition DR_CONNECT := 130.
Definition DR_MISMATCH := 132.
Definition DR_PARAMETER := 140.
Definition CONNECTING_1 := OK.
Definition CONNECTING_2 := 2.

(** What the engine uses of [struct tsapADDR]. *)
Record taddr : Type := TA { ta_selector : list Z; ta_selectlen : Z }.

Record tconn : Type := TCn { cn_tb : tsapblk; cn_initiating : taddr; cn_responding : taddr; cn_retry : option tsapkt }.

Definition set_cn_tb (c : tconn) (tb : tsapblk) : tconn := TCn tb (cn_initiating c) (cn_responding c) (cn_retry c).
Definition set_cn_initiating (c : tconn) (a : taddr) : tconn := TCn (cn_tb c) a (cn_responding c) (cn_retry c).
Definition set_cn_responding (c : tconn) (a : taddr) : tconn := TCn (cn_tb c) (cn_initiating c) a (cn_retry c).
Definition set_cn_retry (c : tconn) (t : option tsapkt) : tconn := TCn (cn_tb c) (cn_initiating c) (cn_responding c) t.

Definition set_tb_agreed (tb : tsapblk) (flags : Z) (src dst : list Z) (tsdusize tpduslop tpdusize : Z) : tsapblk :=
  TB flags src dst tsdusize tpduslop tpdusize (tb_qbuf tb) (tb_len tb) (tb_qwrites tb) (tb_queue tb) (tb_in tb) (tb_out tb).
Definition set_tb_flags (tb : tsapblk) (flags : Z) : tsapblk :=
  set_tb_agreed tb flags (tb_srcref tb) (tb_dstref tb) (tb_tsdusize tb) (tb_tpduslop tb) (tb_tpdusize tb).
Definition set_tb_refs (tb : tsapblk) (src dst : list Z) : tsapblk :=
  set_tb_agreed tb (tb_flags tb) src dst (tb_tsdusize tb) (tb_tpduslop tb) (tb_tpdusize tb).
Definition set_tb_sizes (tb : tsapblk) (tsdusize tpdusize : Z) : tsapblk :=
  set_tb_agreed tb (tb_flags tb) (tb_srcref tb) (tb_dstref tb) tsdusize (tb_tpduslop tb) tpdusize.

(** The flags are a [char]. *)
Definition flag_on (tb : tsapblk) (f : Z) : tsapblk := set_tb_flags tb (u8 (Z.lor (tb_flags tb) f)).
Definition flag_off (tb : tsapblk) (f : Z) : tsapblk := set_tb_flags tb (u8 (Z.land (tb_flags tb) (Z.lnot f))).

(** ** TTService *)

Definition TTService (tb : tsapblk) : tsapblk :=
  let tb := flag_on (flag_off tb TB_STACKS) TB_TCP in
  let slop := 4 + DT_MAGIC in
  set_tb_agreed tb (tb_flags tb) (tb_srcref tb) (tb_dstref tb) (MAX1006 - slop) slop (tb_tpdusize tb).

(** ** The size of a TPDU *)

(** [1 << n] of type [int]. *)
Definition shl1 (n : Z) : cres Z := if (n <? 0) || (n >? 30) then UB else Val (Z.shiftl 1 n).

(** [for (j = 0; i > 0; j++) i >>= 1] *)
Fixpoint exponent_loop (fuel : nat) (i j : Z) : cres Z :=
  if i >? 0 then match fuel with O => UB | S fuel' => exponent_loop fuel' (Z.shiftr i 1) (j + 1) end else Val j.

Definition size_exponent (k : Z) : cres Z :=
  j <- exponent_loop 32 k 0;; s <- shl1 (j - 1);; Val (if k =? s then j - 1 else j).

(** The exponent to propose; [None] when it is no octet. *)
Definition propose (tb : tsapblk) : cres (option Z * tsapblk) :=
  j <- size_exponent (i32 (tb_tsdusize tb + tb_tpduslop tb));;
  if flag tb TB_TCP then Val (int2u8 j, tb)
  else
    if j >? SIZE_MAXTP0 then
      s <- shl1 SIZE_MAXTP0;; Val (int2u8 SIZE_MAXTP0, set_tb_sizes tb (i32 (s - tb_tpduslop tb)) (tb_tpdusize tb))
    else Val (int2u8 j, tb).

(** The sizes after the peer's exponent [n]. *)
Definition agree (tb : tsapblk) (n : Z) : cres tsapblk :=
  if negb (flag tb TB_TCP) || negb (n =? 0) then
    let n := if n =? 0 then SIZE_DFLT else if (n >? SIZE_MAXTP0) && negb (flag tb TB_TCP) then SIZE_MAXTP0 else n in
    s <- shl1 n;; Val (set_tb_sizes tb (i32 (s - tb_tpduslop tb)) s)
  else Val tb.

(** ** References and selectors *)

(** [htons ((uint16_t) (pid & 0xffff))] in memory. *)
Definition reference (pid : Z) : list Z := [Z.land (Z.shiftr pid 8) 255; Z.land pid 255].

(** [bcopy_int] of a selector into one of a packet. *)
Definition put_sel (a : taddr) (n : Z) (sel : list Z) : cres (option (list Z)) :=
  d <- bcopy_int (Some (ta_selector a)) n;;
  match d with None => Val None | Some d => cmap Some (wr sel 0 d) end.

(** A selector of a packet into one of the connection; [None] for [out]. *)
Definition take_sel (a : taddr) (sel : list Z) (len : Z) : cres (option taddr) :=
  if len >? 0 then
    match int2sizet len with
    | None => Val None
    | Some nlen =>
        let nlen := if nlen >? TSSIZE then TSSIZE else nlen in
        d <- rdn sel 0 nlen;;
        s <- wr (ta_selector a) 0 d;;
        Val (match sizet2int nlen with Some n => Some (TA s n) | None => None end)
    end
  else Val (Some a).

Definition copied (data : list Z) (cc : Z) : list udvec := if cc >? 0 then [UV data cc] else [].

Section Connection.
Context `{Allocator} (sizeof_tpkt sizeof_qb : Z).

(** ** TConnect *)

(** The selectors, the option and the data of a CR. *)
Definition finish_cr (c : tconn) (t : tsapkt) (expedited : Z) (data : list Z) (cc : Z) : cres (Z * Z * tconn) :=
  let ln := ta_selectlen (cn_initiating c) in
  s <- put_sel (cn_initiating c) ln (t_calling (t_cr t));;
  match s with
  | None => Val (NOTOK, DR_PARAMETER, c)
  | Some calling =>
      let t := set_t_cr t (set_calling (t_cr t) calling ln) in
      let ld := ta_selectlen (cn_responding c) in
      s <- put_sel (cn_responding c) ld (t_called (t_cr t));;
      match s with
      | None => Val (NOTOK, DR_PARAMETER, c)
      | Some called =>
          let t := set_t_cr t (set_called (t_cr t) called ld) in
          let '(c, t) :=
            if negb (expedited =? 0)
            then (set_cn_tb c (flag_on (cn_tb c) TB_EXPD), set_t_cr t (set_options (t_cr t) (Z.lor (t_options (t_cr t)) OPT_TEXPEDITE)))
            else (c, t) in
          Val (OK, 0, set_cn_retry c (Some (set_t_udvec t (copied data cc))))
      end
  end.

(** The result, [td_reason] and the connection. *)
Definition TConnect (c : tconn) (pid expedited : Z) (data : list Z) (cc : Z) : cres (Z * Z * tconn) :=
  let tcp := flag (cn_tb c) TB_TCP in
  if negb tcp && (cc >? 0) then Val (NOTOK, DR_PARAMETER, c)
  else
    let expedited := if tcp then expedited else 0 in
    let c := set_cn_tb c (set_tb_refs (cn_tb c) (reference pid) (reference 0)) in
    match newtpkt sizeof_tpkt TPDU_CR with
    | None => Val (NOTOK, DR_CONGEST, c)
    | Some t =>
        let t := set_fixed t (tb_dstref (cn_tb c) ++ tb_srcref (cn_tb c) ++ [0]) in
        ' (j, tb) <- propose (cn_tb c);;
        let c := set_cn_tb c tb in
        match j with
        | None => Val (NOTOK, DR_CONGEST, c)
        | Some j => finish_cr c (set_t_cr t (set_tpdusize (t_cr t) j)) expedited data cc
        end
    end.

(** ** TRetry *)

(** CONNECTING_1 or CONNECTING_2; DONE with what [tc] says; NOTOK with
    [td_reason] and [td_data], when they are set here; [None] for the data
    stands for the text of a message, or none. *)
Inductive tretry : Type :=
| TrConnecting (n : Z)
| TrDone (expedited tsdusize : Z) (data : option (list Z))
| TrLost (reason : option Z) (data : option (list Z)).

(** [tpktlose] on the block of the connection. *)
Definition lose (c : tconn) (reason : Z) : cres tconn := cmap (set_cn_tb c) (tpktlose sizeof_tpkt sizeof_qb (cn_tb c) reason None (Some []) []).

(** A CC of class 0 that answers our reference. *)
Definition retry_cc (c : tconn) (t : tsapkt) : cres (tretry * tconn) :=
  let tb := set_tb_refs (cn_tb c) (tb_srcref (cn_tb c)) (ztake 2 (zdrop 2 (t_un t))) in
  tb <- agree tb (t_tpdusize (t_cr t));;
  let c := set_cn_tb c tb in
  a <- take_sel (cn_responding c) (t_called (t_cr t)) (t_calledlen (t_cr t));;
  match a with
  | None => Val (TrLost None None, c)
  | Some a =>
      let c := set_cn_responding c a in
      let tb := if (Z.land (t_options (t_cr t)) OPT_TEXPEDITE =? 0) || negb (flag (cn_tb c) TB_TCP)
                then flag_off (cn_tb c) TB_EXPD else cn_tb c in
      d <- copy_data TC_SIZE (t_qbuf t);;
      Val (TrDone (if flag tb TB_EXPD then 1 else 0) (tb_tsdusize tb) d, set_cn_tb c (flag_on tb TB_CONN))
  end.

(** The answer of the peer. *)
Definition retry_reply (c : tconn) : cres (tretry * tconn) :=
  ' (t, s) <- fd2tpkt sizeof_tpkt sizeof_qb (tb_in (cn_tb c));;
  let c := set_cn_tb c (set_tb_in (cn_tb c) s) in
  match t with
  | None => Val (TrLost (Some DR_CONGEST) None, c)
  | Some t =>
      if negb (t_errno t =? OK) then Val (TrLost (Some (t_errno t)) None, c)
      else if TPDU_CODE t =? TPDU_CC then
        if negb (CR_CLASS t =? 0) then c <- lose c DR_PROTOCOL;; Val (TrLost (Some DR_PROTOCOL) None, c)
        else if negb (forallb (fun p => fst p =? snd p) (combine (tb_srcref (cn_tb c)) (ztake 2 (t_un t)))) then
          c <- lose c DR_MISMATCH;; Val (TrLost (Some DR_MISMATCH) None, c)
        else retry_cc c t
      else if TPDU_CODE t =? TPDU_DR then
        d <- copy_data TD_SIZE (t_qbuf t);; Val (TrLost (Some (nth 4 (t_un t) 0)) d, c)
      else if TPDU_CODE t =? TPDU_ER then
        let r := nth 2 (t_un t) 0 in
        Val (TrLost (Some (if (r =? ER_REJ_CODE) || (r =? ER_REJ_TPDU) || (r =? ER_REJ_VALUE) then DR_PROTOCOL else DR_CONNECT)) (Some []), c)
      else c <- lose c DR_PROTOCOL;; Val (TrLost (Some DR_PROTOCOL) None, c)
  end.

(** [retryfnx] is what [tb_retryfnx] answers, when there is one; [ready]
    tells whether [xselect] finds something to read. *)
Definition TRetry (c : tconn) (async : Z) (retryfnx : option Z) (ready : bool) : cres (tretry * tconn) :=
  ' (r, c) <-
    match cn_retry c with
    | None => Val (None, c)
    | Some t =>
        let c := set_cn_retry c None in
        match (if async =? 0 then None else retryfnx) with
        | Some (-1) => Val (Some (TrLost None None), c)
        | Some 0 => Val (Some (TrConnecting CONNECTING_1), set_cn_retry c (Some t))
        | _ =>
            ' (rc, t, tb) <- @tpkt2fd _ (Tp0Out sizeof_qb) _ (cn_tb c) t;;
            Val (if rc =? NOTOK then Some (TrLost (Some (t_errno t)) None) else None, set_cn_tb c tb)
        end
    end;;
  match r with
  | Some r => Val (r, c)
  | None => if negb (async =? 0) && negb ready then Val (TrConnecting CONNECTING_2, c) else retry_reply c
  end.

(** ** tcpaccept2 *)

(** What it does with the packet of the peer: [listening] is the address
    it listens to and [text] the text of the message about another one. The
    saved form of the packet, or [td_reason]. *)
Definition accept_packet (tb : tsapblk) (listening : taddr) (text : list Z) : cres ((list Z + Z) * tsapblk) :=
  let refuse tb reason text := cmap (fun tb => (inr reason, tb)) (tpktlose sizeof_tpkt sizeof_qb tb reason None (Some text) text) in
  ' (t, s) <- fd2tpkt sizeof_tpkt sizeof_qb (tb_in tb);;
  let tb := set_tb_in tb s in
  match t with
  | None => refuse tb DR_CONGEST []
  | Some t =>
      if negb (t_errno t =? OK) then refuse tb (t_errno t) []
      else if negb (TPDU_CODE t =? TPDU_CR) then refuse tb DR_PROTOCOL []
      else
        let n := ta_selectlen listening in
        other <- (if n >? 0 then
                    if negb (n =? t_calledlen (t_cr t)) then Val true
                    else cmap (fun d => negb (d =? 0)) (bcmp_int (Some (ta_selector listening)) (Some (t_called (t_cr t))) n)
                  else Val false);;
        if other then refuse tb DR_SESSION text
        else
          ' (str, _) <- tpkt2str t;;
          Val (match str with Some str => inl str | None => inr DR_CONGEST end, tb)
  end.

(** ** TStart *)

(** OK with what [ts] says, or NOTOK with [td_reason] when it is set here. *)
Inductive tstart : Type :=
| TsDone (expedited tsdusize : Z) (data : option (list Z))
| TsLost (reason : option Z).

Definition TStart (c : tconn) (pid : Z) (cp : list Z) : cres (tstart * tconn) :=
  t <- str2tpkt sizeof_tpkt sizeof_qb cp;;
  match t with
  | None => Val (TsLost (Some DR_PARAMETER), c)
  | Some t =>
      if negb (t_errno t =? OK) then Val (TsLost (Some DR_PARAMETER), c)
      else if negb (CR_CLASS t =? 0) && (Z.land (t_alternate (t_cr t)) (Z.lor ALT_TP0 ALT_TP1) =? 0) then
        c <- lose c DR_CONNECT;; Val (TsLost (Some DR_CONNECT), c)
      else
        tb <- agree (set_tb_refs (cn_tb c) (reference pid) (ztake 2 (zdrop 2 (t_un t)))) (t_tpdusize (t_cr t));;
        let c := set_cn_tb c tb in
        a <- take_sel (cn_initiating c) (t_calling (t_cr t)) (t_callinglen (t_cr t));;
        match a with
        | None => Val (TsLost None, c)
        | Some a =>
            let c := set_cn_initiating c a in
            b <- take_sel (cn_responding c) (t_called (t_cr t)) (t_calledlen (t_cr t));;
            match b with
            | None => Val (TsLost None, c)
            | Some b =>
                let c := set_cn_responding c b in
                let tb := if negb (Z.land (t_options (t_cr t)) OPT_TEXPEDITE =? 0) && flag (cn_tb c) TB_TCP
                          then flag_on (cn_tb c) TB_EXPD else cn_tb c in
                d <- copy_data TS_SIZE (t_qbuf t);;
                Val (TsDone (if flag tb TB_EXPD then 1 else 0) (tb_tsdusize tb) d, set_cn_tb c tb)
            end
        end
  end.

(** ** TAccept *)

(** The result, [td_reason] and the connection. *)
Definition TAccept (c : tconn) (responding : bool) (data : list Z) (cc : Z) : cres (Z * Z * tconn) :=
  if negb (flag (cn_tb c) TB_TCP) && (cc >? 0) then Val (NOTOK, DR_PARAMETER, c)
  else
    match newtpkt sizeof_tpkt TPDU_CC with
    | None => Val (NOTOK, DR_CONGEST, c)
    | Some t =>
        let t := set_fixed t (tb_dstref (cn_tb c) ++ tb_srcref (cn_tb c) ++ [0]) in
        ' (j, tb) <- propose (cn_tb c);;
        let c := set_cn_tb c tb in
        match j with
        | None => Val (NOTOK, DR_CONGEST, c)
        | Some j =>
            let t := set_t_cr t (set_tpdusize (t_cr t) j) in
            let n := if responding then ta_selectlen (cn_responding c) else 0 in
            s <- put_sel (cn_responding c) n (t_called (t_cr t));;
            match s with
            | None => Val (NOTOK, DR_PARAMETER, c)
            | Some called =>
                let t := set_t_cr t (set_called (t_cr t) called n) in
                let t := if flag (cn_tb c) TB_EXPD then set_t_cr t (set_options (t_cr t) (Z.lor (t_options (t_cr t)) OPT_TEXPEDITE)) else t in
                ' (rc, t, tb) <- @tpkt2fd _ (Tp0Out sizeof_qb) _ (cn_tb c) (set_t_udvec t (copied data cc));;
                Val (if rc =? NOTOK then (NOTOK, t_errno t, set_cn_tb c tb) else (rc, 0, set_cn_tb c (flag_on tb TB_CONN)))
            end
        end
    end.
End Connection.

(** * What the two sides agree on *)

(** ** The exponent *)

Lemma exponent_loop_spec fuel : forall i j, 0 <= i < 2 ^ Z.of_nat fuel ->
  exponent_loop fuel i j = Val (j + (if i =? 0 then 0 else Z.log2 i + 1)).
Proof.
  induction fuel as [|fuel IH]; intros i j I; cbn [exponent_loop]; rewrite Z.gtb_ltb.
  - change (2 ^ Z.of_nat 0) with 1 in I; assert (i = 0) as -> by lia; change (0 <? 0) with false; change (0 =? 0) with true; cbn match; f_equal; lia.
  - destruct (Z.ltb_spec 0 i), (Z.eqb_spec i 0); try lia; [|f_equal; lia].
    rewrite Nat2Z.inj_succ, Z.pow_succ_r in I by lia; rewrite IH by (rewrite Z.shiftr_div_pow2 by lia; change (2 ^ 1) with 2; split; [apply Z.div_pos; lia | apply Z.div_lt_upper_bound; lia]).
    f_equal; destruct (Z.eqb_spec (Z.shiftr i 1) 0) as [E|E].
    + rewrite Z.shiftr_div_pow2 in E by lia; change (2 ^ 1) with 2 in E; apply Z.div_small_iff in E; [|lia]; assert (i = 1) as -> by lia; change (Z.log2 1) with 0; lia.
    + assert (2 <= i) by (rewrite Z.shiftr_div_pow2 in E by lia; change (2 ^ 1) with 2 in E; destruct (Z.eq_dec i 1) as [->|]; [destruct (E eq_refl) | lia]).
      pose proof (Z.log2_le_mono 2 i ltac:(lia)) as M; change (Z.log2 2) with 1 in M; rewrite Z.log2_shiftr by lia; lia.
Qed.

Lemma shl1_Some n : 0 <= n <= 30 -> shl1 n = Val (2 ^ n).
Proof.
  intros N; unfold shl1; rewrite Z.gtb_ltb; destruct (Z.ltb_spec n 0), (Z.ltb_spec 30 n); try lia; cbn [orb].
  rewrite Z.shiftl_mul_pow2, Z.mul_1_l by lia; reflexivity.
Qed.

(** The proposal is the least power of two that is not less. *)
Lemma size_exponent_spec k : 1 < k <= 2 ^ 30 -> size_exponent k = Val (Z.log2_up k) /\ 1 <= Z.log2_up k <= 30.
Proof.
  intros K; unfold size_exponent; rewrite exponent_loop_spec by (change (2 ^ Z.of_nat 32) with 4294967296; change (2 ^ 30) with 1073741824 in K; lia); cbn [cbind].
  destruct (Z.eqb_spec k 0); [lia|]; pose proof (Z.log2_spec k ltac:(lia)) as S; pose proof (Z.log2_nonneg k).
  assert (B : Z.log2 k <= 30) by (rewrite <- (Z.log2_pow2 30) by lia; apply Z.log2_le_mono; lia).
  replace (0 + (Z.log2 k + 1) - 1) with (Z.log2 k) by lia; rewrite shl1_Some by lia; cbn [cbind].
  assert (U : 1 <= Z.log2_up k <= 30).
  { pose proof (Z.log2_up_le_mono 2 k ltac:(lia)) as L; change (Z.log2_up 2) with 1 in L.
    pose proof (Z.log2_up_le_mono k (2 ^ 30) ltac:(lia)) as M; rewrite Z.log2_up_pow2 in M by lia; lia. }
  split; [|exact U]; destruct (Z.eqb_spec k (2 ^ Z.log2 k)) as [E|E]; f_equal.
  - rewrite E at 2; rewrite Z.log2_up_pow2 by lia; lia.
  - symmetry; apply Z.log2_up_unique; [lia|]; replace (Z.pred (0 + (Z.log2 k + 1))) with (Z.log2 k) by lia.
    replace (0 + (Z.log2 k + 1)) with (Z.succ (Z.log2 k)) by lia; lia.
Qed.

Lemma agree_ok tb n : flag tb TB_TCP = true -> 1 <= n <= 30 -> 0 <= tb_tpduslop tb <= 2 ^ 30 ->
  agree tb n = Val (set_tb_sizes tb (2 ^ n - tb_tpduslop tb) (2 ^ n)).
Proof.
  intros T N S; unfold agree; rewrite T; cbn [negb orb]; rewrite andb_false_r; destruct (Z.eqb_spec n 0); [lia|]; cbn [negb].
  rewrite shl1_Some by lia; cbn [cbind]; rewrite i32_id; [reflexivity|].
  assert (0 < 2 ^ n <= 2 ^ 30) by (split; [apply Z.pow_pos_nonneg; lia | apply Z.pow_le_mono_r; lia]).
  change (2 ^ 30) with 1073741824 in *; unfold is_int, INT_MIN, INT_MAX; lia.
Qed.

(** An exponent of 31 or more of the peer is shifted by all the same. *)
Lemma agree_overflow tb n : flag tb TB_TCP = true -> 30 < n -> agree tb n = UB.
Proof.
  intros F N; unfold agree, shl1; rewrite F; cbn [negb orb]; rewrite andb_false_r; destruct (Z.eqb_spec n 0); [lia|]; cbn [negb].
  rewrite Z.gtb_ltb; destruct (Z.ltb_spec n 0), (Z.ltb_spec 30 n); try lia; reflexivity.
Qed.

(** Without a size to propose the loop ends at once, and 1 is shifted by -1. *)
Lemma size_exponent_none k : k <= 0 -> size_exponent k = UB.
Proof.
  intros K; unfold size_exponent; cbn [exponent_loop]; rewrite Z.gtb_ltb; destruct (Z.ltb_spec 0 k); [lia | reflexivity].
Qed.

Lemma propose_ok tb : flag tb TB_TCP = true -> 1 < tb_tsdusize tb + tb_tpduslop tb <= 2 ^ 30 ->
  propose tb = Val (Some (Z.log2_up (tb_tsdusize tb + tb_tpduslop tb)), tb).
Proof.
  intros T K; unfold propose; rewrite i32_id by (change (2 ^ 30) with 1073741824 in K; unfold is_int, INT_MIN, INT_MAX; lia).
  destruct (size_exponent_spec _ K) as (-> & U); cbn [cbind]; rewrite T, int2u8_Some by (unfold is_byte; lia); reflexivity.
Qed.

(** ** Selectors and data *)

Definition addr_ok (a : taddr) : Prop := zlen (ta_selector a) = TSSIZE /\ bytes (ta_selector a) /\ 0 <= ta_selectlen a <= TSSIZE.

Definition sel_octets (a : taddr) : list Z := ztake (ta_selectlen a) (ta_selector a).

(** An array of TSSIZE octets that holds [l]. *)
Definition padded (l : list Z) : list Z := l ++ repeat 0 (64 - length l).

Lemma zlen_padded l : zlen l <= TSSIZE -> zlen (padded l) = TSSIZE.
Proof. unfold padded, zlen, TSSIZE; rewrite length_app, repeat_length; lia. Qed.

Lemma padded_bytes l : bytes l -> bytes (padded l).
Proof. intros B; apply bytes_app; split; [exact B | apply Forall_forall; intros x I; apply repeat_spec in I; subst; cbv; easy]. Qed.

Lemma put_sel_ok a n : addr_ok a -> 0 <= n <= ta_selectlen a ->
  put_sel a n (repeat 0 64) = Val (Some (padded (ztake n (ta_selector a)))).
Proof.
  intros (L & B & S) N; unfold put_sel, bcopy_int, rdn_ptr, TSSIZE in *; rewrite int2sizet_Some, rdn_in, zdrop_0 by lia; cbn [cmap cbind].
  pose proof (zlen_ztake n (ta_selector a) ltac:(lia)) as Z1; rewrite wr_in by (rewrite ?Z1; change (zlen (repeat 0 64)) with 64; lia).
  rewrite ztake_0 by lia; cbn [app]; unfold cmap; cbn [cbind]; unfold padded, zdrop; rewrite Z1, Z.add_0_l, skipn_zeros.
  replace (length (ztake n (ta_selector a))) with (Z.to_nat n) by (unfold zlen in Z1; lia); reflexivity.
Qed.

Lemma take_sel_ok a sel len : addr_ok a -> zlen sel = TSSIZE -> bytes sel -> 0 <= len <= TSSIZE ->
  exists b, take_sel a sel len = Val (Some b) /\ addr_ok b /\ (0 < len -> sel_octets b = ztake len sel) /\ (len = 0 -> b = a).
Proof.
  intros (L & B & S) Ls Bs N; unfold take_sel, TSSIZE in *; rewrite Z.gtb_ltb; destruct (Z.ltb_spec 0 len).
  - rewrite int2sizet_Some by lia; rewrite Z.gtb_ltb; destruct (Z.ltb_spec 64 len); [lia|].
    rewrite rdn_in, zdrop_0 by lia; cbn [cbind]; pose proof (zlen_ztake len sel ltac:(lia)) as Z1.
    rewrite wr_in by lia; rewrite ztake_0 by lia; cbn [app cbind]; unfold sizet2int; rewrite Z.gtb_ltb.
    destruct (Z.ltb_spec INT_MAX len); [unfold INT_MAX in *; lia|]; eexists; split; [reflexivity|]; rewrite Z1.
    split; [|split; [|lia]].
    + split; [cbn [ta_selector]; rewrite zlen_app, Z1, zlen_zdrop by lia; unfold TSSIZE; lia|]; split; [|cbn; unfold TSSIZE; lia].
      apply bytes_app; split; [apply Forall_ztake, Bs | apply Forall_zdrop, B].
    + intros _; unfold sel_octets; cbn [ta_selector ta_selectlen]; apply ztake_app_exact; lia.
  - exists a; split; [reflexivity|]; split; [split; [exact L | split; [exact B | exact S]]|]; split; [lia | reflexivity].
Qed.

Lemma ptrdiff2sizet_Some n : 0 <= n <= INT_MAX -> ptrdiff2sizet n = Some n.
Proof.
  intros N; change INT_MAX with 2147483647 in N; unfold ptrdiff2sizet.
  assert (U : in_type UINTMAX n) by (unfold in_type; change (ct_min UINTMAX) with 0; change (ct_max UINTMAX) with 18446744073709551615; lia).
  assert (S : in_type SIZE n) by (unfold in_type; change (ct_min SIZE) with 0; change (ct_max SIZE) with 18446744073709551615; lia).
  rewrite (cast_id UINTMAX n ltac:(discriminate) U), (cast_id SIZE n ltac:(discriminate) S), Z.gtb_ltb.
  change SIZE_MAX with 18446744073709551615; destruct (Z.ltb_spec n 0), (Z.ltb_spec 18446744073709551615 n); try lia; reflexivity.
Qed.

Lemma copy_data_ok cap r p : 0 <= cap -> zlen (p_data p) <= INT_MAX -> copy_data cap (t_qbuf (packet_of r p)) = Val (Some (ztake cap (p_data p))).
Proof.
  intros C L; unfold packet_of; cbn [t_qbuf]; destruct (p_data p) as [|a d] eqn:E; [unfold copy_data, ztake; rewrite firstn_nil; reflexivity|].
  set (l := a :: d) in *; pose proof (zlen_nonneg l); unfold copy_data; cbn [seg_len qb_data]; rewrite ptrdiff2sizet_Some by lia.
  rewrite Z.gtb_ltb; destruct (Z.ltb_spec cap (zlen l)); rewrite rdn_in, zdrop_0 by lia; cbn [cbind]; [reflexivity|].
  rewrite !ztake_all by lia; reflexivity.
Qed.

(** ** The packets of the connection phase *)

Definition conn_vars (calling called : list Z) (n options : Z) : crvar :=
  CRV (padded called) (zlen called) (padded calling) (zlen calling) n options 0.

Definition conn_packet (code : Z) (dst src : list Z) (v : crvar) (uv : list udvec) : tsapkt :=
  set_t_udvec (set_t_cr (set_t_un (set_t_hdr new_packet TPKT_VRSN 0 0 0 code) (dst ++ src ++ [0])) v) uv.

Definition ref_ok (r : list Z) : Prop := zlen r = 2 /\ bytes r.

Lemma reference_ok pid : ref_ok (reference pid).
Proof.
  assert (B : forall n, is_byte (Z.land n 255)) by (intros; rewrite land_ff; unfold is_byte; apply Z.mod_pos_bound; lia).
  split; [reflexivity | repeat constructor; apply B].
Qed.

Lemma padded_short l : zlen l <= TSSIZE -> ztake (zlen l) (padded l) = l.
Proof. intros _; apply ztake_app_exact; reflexivity. Qed.

Section Packets.
Context (code : Z) (Code : code = TPDU_CR \/ code = TPDU_CC) (dst src : list Z) (Dst : ref_ok dst) (Src : ref_ok src).
Context (calling called : list Z) (n options : Z) (uv : list udvec).
Context (Calling : bytes calling /\ zlen calling <= TSSIZE) (Called : bytes called /\ zlen called <= TSSIZE).
Context (Size : is_byte n) (Opts : is_byte options) (Uv : udvec_ok uv) (Short : zlen (concat (map uv_octets uv)) <= 8000).

Let t := conn_packet code dst src (conn_vars calling called n options) uv.

Lemma code_cr : ((code =? TPDU_CR) || (code =? TPDU_CC))%bool = true /\ is_byte code /\ code <> TPDU_ER.
Proof. destruct Code as [E | E]; rewrite E; (split; [reflexivity | split; [cbv; easy | discriminate]]). Qed.

Lemma conn_code : TPDU_CODE t = code /\ is_cr t = true /\ tpdu_size (TPDU_CODE t) = Some 5.
Proof. destruct Code; subst code; repeat split. Qed.

Lemma conn_class : CR_CLASS t = 0.
Proof.
  unfold CR_CLASS; change (t_un t) with (dst ++ src ++ [0]); destruct Dst as (D & _), Src as (S & _); unfold zlen in *.
  rewrite app_assoc, app_nth2 by (rewrite length_app; lia); rewrite length_app; replace (4 - (length dst + length src))%nat with 0%nat by lia; reflexivity.
Qed.

Lemma conn_un : zlen (t_un t) = 5 /\ bytes (t_un t).
Proof.
  change (t_un t) with (dst ++ src ++ [0]); destruct Dst as (D & B), Src as (S & C); rewrite !zlen_app; change (zlen [0]) with 1; split; [lia|].
  apply bytes_app; split; [exact B|]; apply bytes_app; split; [exact C | repeat constructor; lia].
Qed.

Lemma conn_vars_ok : crvar_ok (t_cr t).
Proof.
  pose proof (zlen_nonneg calling); pose proof (zlen_nonneg called); cbn; split; [split; apply zlen_padded; easy|].
  repeat split; cbn [t_called t_calling t_calledlen t_callinglen conn_vars]; try apply padded_bytes; try easy; try apply Size; try apply Opts; lia.
Qed.

Lemma conn_length : zlen (enc_tpdu (tpdu_of t)) <= 8160.
Proof.
  pose proof (cr_params_length t conn_vars_ok) as L; destruct conn_vars_ok as (_ & _ & _ & A & B & _); destruct conn_code as (_ & C & S).
  destruct conn_un as (Z5 & _); unfold enc_tpdu, tpdu_of, size_of; rewrite C, S; cbn [p_fixed p_params p_data p_code].
  rewrite !zlen_cons, !zlen_app, ztake_all by lia; unfold user_data; change (t_udvec t) with uv; unfold TSSIZE in *; lia.
Qed.

Lemma conn_packet_ok : packet_ok t.
Proof.
  pose proof conn_length; split; [reflexivity|]; split; [left; reflexivity|]; split; [destruct Code; subst code; cbv; easy|].
  split; [rewrite (proj2 (proj2 conn_code)); discriminate|]; split; [apply conn_un|]; split; [apply conn_un|]; split; [apply conn_vars_ok|].
  split; [exact Uv|]; split; [rewrite (proj1 conn_code); destruct Code; subst code; discriminate | lia].
Qed.

Lemma received_same : received t = t_cr t.
Proof.
  unfold received; rewrite conn_class; cbn [t_cr t conn_packet set_t_udvec set_t_cr t_called t_calledlen t_calling t_callinglen t_tpdusize t_options conn_vars].
  change (0 =? 0) with true; cbn match; rewrite !padded_short by easy; unfold padded, zlen; rewrite !Nat2Z.id; reflexivity.
Qed.

(** The packet that is read, and its TPDU when it is written once more. *)
Lemma conn_back r : let q := packet_of r (tpdu_of t) in
  t_errno q = OK /\ TPDU_CODE q = code /\ t_un q = dst ++ src ++ [0] /\ t_cr q = conn_vars calling called n options /\ CR_CLASS q = 0 /\
  p_data (tpdu_of t) = concat (map uv_octets uv).
Proof.
  intros q; destruct (packet_back r t conn_packet_ok) as (_ & _ & Cr & _); destruct conn_code as (C & I & S); destruct conn_un as (Z5 & _).
  assert (U : t_un q = t_un t).
  { unfold q, packet_of, tpdu_of, size_of; rewrite S; cbn [t_un p_fixed]; rewrite ztake_all by lia.
    unfold zlen in Z5; replace (5 - length (t_un t))%nat with 0%nat by lia; apply app_nil_r. }
  split; [reflexivity|]; split; [exact C|]; split; [exact U|]; split; [exact (eq_trans (Cr I) received_same)|].
  split; [unfold CR_CLASS; rewrite U; apply conn_class | reflexivity].
Qed.

Lemma conn_again r : let q := packet_of r (tpdu_of t) in packet_ok q /\ data_seg_ok q /\ full_tpdu q = tpdu_of t.
Proof.
  intros q; destruct (conn_back r) as (E & C & U & V & K & D); fold q in E, C, U, V, K; destruct conn_code as (Ct & I & S).
  pose proof conn_packet_ok as P; pose proof (tpdu_of_ok t P) as (_ & _ & _ & _ & Bd & _).
  assert (Sz : size_of q = 5) by (unfold size_of; rewrite C, <- Ct, S; reflexivity).
  assert (Iq : is_cr q = true) by (unfold is_cr; rewrite C; apply code_cr).
  assert (Pq : cr_params q = cr_params t) by (unfold cr_params, option_params, alternate_params, size_params; rewrite V, K, conn_class; reflexivity).
  assert (T : tpdu_of q = Tpdu code (p_fixed (tpdu_of t)) (p_params (tpdu_of t)) []).
  { unfold tpdu_of; rewrite Sz, Iq, I, Pq, U; unfold size_of; rewrite S; reflexivity. }
  split; [|split].
  - split; [exact E|]; split; [left; reflexivity|]; split; [apply code_cr|].
    split; [rewrite C, <- Ct, S; discriminate|]; rewrite U, V; split; [apply conn_un|]; split; [apply conn_un|]; split; [apply conn_vars_ok|].
    split; [split; [constructor | reflexivity]|]; split; [reflexivity|]; pose proof conn_length as L; rewrite T.
    unfold enc_tpdu, tpdu_li in *; cbn [p_code p_fixed p_params p_data] in *; rewrite !zlen_cons, !zlen_app in *; change (zlen []) with 0.
    pose proof (zlen_nonneg (user_data t)); unfold tpdu_of in *; cbn [p_data p_fixed p_params] in *; lia.
  - unfold data_seg_ok, q, packet_of; cbn [t_qbuf]; destruct (p_data (tpdu_of t)) as [|a d] eqn:X; [exact Logic.I|].
    split; [cbn [seg_len qb_data]; pose proof (zlen_nonneg (a :: d)); lia | rewrite seg_octets_all; exact Bd].
  - unfold full_tpdu; rewrite T; cbn [p_fixed p_params]; change (t_code q) with code; change (user_data q) with (@nil Z).
    destruct (packet_back r t P) as (_ & _ & _ & Dq); fold q in Dq; rewrite Dq; reflexivity.
Qed.
End Packets.

(** ** The engine during the connection phase *)

Definition flag_bits : list Z := [TB_CONN; TB_EXPD; TB_TCP; TB_X25; TB_QWRITES].

Lemma flags_check (good : Z -> Z -> bool) :
  forallb (fun b => forallb (good b) flag_bits) octets = true -> forall b g, is_byte b -> In g flag_bits -> good b g = true.
Proof.
  intros E b g B G; pose proof (byte_forall (fun b => forallb (good b) flag_bits) E b B) as X; cbv beta in X.
  rewrite forallb_forall in X; apply X, G.
Qed.

Lemma set_bit f : In f [TB_CONN; TB_EXPD] -> forallb (fun b => forallb (fun g =>
  Bool.eqb (negb (Z.land (u8 (Z.lor b f)) g =? 0)) ((g =? f) || negb (Z.land b g =? 0))) flag_bits) octets = true.
Proof. intros [<- | [<- | []]]; vm_compute; reflexivity. Qed.

Lemma clear_bit : forallb (fun b => forallb (fun g =>
  Bool.eqb (negb (Z.land (u8 (Z.land b (Z.lnot TB_EXPD))) g =? 0)) (negb (g =? TB_EXPD) && negb (Z.land b g =? 0))) flag_bits) octets = true.
Proof. vm_compute; reflexivity. Qed.

Lemma flag_on_spec tb f g : In f [TB_CONN; TB_EXPD] -> is_byte (tb_flags tb) -> In g flag_bits ->
  flag (flag_on tb f) g = ((g =? f) || flag tb g)%bool.
Proof. intros F B G; exact (eqb_prop _ _ (flags_check _ (set_bit f F) _ _ B G)). Qed.

Lemma flag_off_spec tb g : is_byte (tb_flags tb) -> In g flag_bits ->
  flag (flag_off tb TB_EXPD) g = (negb (g =? TB_EXPD) && flag tb g)%bool.
Proof. intros B G; exact (eqb_prop _ _ (flags_check _ clear_bit _ _ B G)). Qed.

(** The engine may write, over TCP. *)
Definition engine_ok (tb : tsapblk) : Prop := tp0_inv tb /\ willing tb /\ flag tb TB_TCP = true.

(** What the connection phase changes of it. *)
Lemma engine_agreed tb fl src dst a b c : engine_ok tb -> is_byte fl ->
  (forall g, In g [TB_TCP; TB_X25; TB_QWRITES] -> (Z.land fl g =? 0) = (Z.land (tb_flags tb) g =? 0)) -> engine_ok (set_tb_agreed tb fl src dst a b c).
Proof.
  intros ((X & _ & S & Q) & (W & V) & T) B G; unfold engine_ok, tp0_inv, willing, flag in *; cbn [tb_flags set_tb_agreed tb_qwrites tb_out tb_queue] in *.
  rewrite !G by (simpl; auto); repeat split; assumption || apply B.
Qed.

Lemma flag_on_byte tb f : is_byte (tb_flags (flag_on tb f)) /\ is_byte (tb_flags (flag_off tb f)).
Proof. split; apply u8_byte. Qed.

Lemma flag_zero x y : negb (x =? 0) = negb (y =? 0) -> (x =? 0) = (y =? 0).
Proof. destruct (x =? 0), (y =? 0); easy. Qed.

Lemma engine_on tb f : In f [TB_CONN; TB_EXPD] -> engine_ok tb -> engine_ok (flag_on tb f).
Proof.
  intros F E; apply engine_agreed; [exact E | apply (flag_on_byte tb f)|]; intros g G; apply flag_zero.
  pose proof (flag_on_spec tb f g F (proj1 (proj2 (proj1 E)))) as X; unfold flag in X; cbn [tb_flags flag_on set_tb_flags set_tb_agreed] in X.
  rewrite X by (simpl in *; tauto); destruct F as [<- | [<- | []]], G as [<- | [<- | [<- | []]]]; reflexivity.
Qed.

Lemma engine_off tb : engine_ok tb -> engine_ok (flag_off tb TB_EXPD).
Proof.
  intros E; apply engine_agreed; [exact E | apply (flag_on_byte tb TB_EXPD)|]; intros g G; apply flag_zero.
  pose proof (flag_off_spec tb g (proj1 (proj2 (proj1 E)))) as X; unfold flag in X; cbn [tb_flags flag_off set_tb_flags set_tb_agreed] in X.
  rewrite X by (simpl in *; tauto); destruct G as [<- | [<- | [<- | []]]]; reflexivity.
Qed.

Lemma engine_same tb fl src dst a b c : engine_ok tb -> fl = tb_flags tb -> engine_ok (set_tb_agreed tb fl src dst a b c).
Proof. intros E ->; apply engine_agreed; [exact E | apply E | reflexivity]. Qed.

(** ** The four operations *)

(** The largest TPDU a side takes. *)
Definition max_tpdu (tb : tsapblk) : Z := tb_tsdusize tb + tb_tpduslop tb.

Definition tcp_conn (c : tconn) : Prop :=
  engine_ok (cn_tb c) /\ addr_ok (cn_initiating c) /\ addr_ok (cn_responding c) /\ 1 < max_tpdu (cn_tb c) <= 2 ^ 30 /\
  0 <= tb_tpduslop (cn_tb c) <= 2 ^ 30.

(** The initial data a user may give. *)
Definition data_ok (data : list Z) (cc : Z) : Prop := 0 <= cc <= TS_SIZE /\ cc <= zlen data /\ bytes data.

Lemma copied_ok data cc : data_ok data cc -> udvec_ok (copied data cc) /\ concat (map uv_octets (copied data cc)) = ztake cc data /\
  zlen (ztake cc data) = cc.
Proof.
  intros (C & L & B); unfold copied; rewrite Z.gtb_ltb; pose proof (zlen_ztake cc data ltac:(lia)) as Z1; destruct (Z.ltb_spec 0 cc).
  - split; [split; [|reflexivity]|split; [apply app_nil_r | exact Z1]]; constructor; [|constructor].
    split; [cbn; lia | apply Forall_ztake, B].
  - rewrite ztake_0 by lia; assert (cc = 0) as -> by lia; split; [split; [constructor | reflexivity] | split; reflexivity].
Qed.

Definition options_of (expedited : bool) : Z := if expedited then OPT_TEXPEDITE else 0.

Definition expedites (tb : tsapblk) (expedited : bool) : tsapblk := if expedited then flag_on tb TB_EXPD else tb.

(** The CR that [TConnect] leaves to be sent. *)
Definition cr_vars (c : tconn) (expedited : bool) : crvar :=
  conn_vars (sel_octets (cn_initiating c)) (sel_octets (cn_responding c)) (Z.log2_up (max_tpdu (cn_tb c))) (options_of expedited).

Definition cr_of (c : tconn) (pid : Z) (expedited : bool) (data : list Z) (cc : Z) : tsapkt :=
  conn_packet TPDU_CR (reference 0) (reference pid) (cr_vars c expedited) (copied data cc).

Lemma zlen_sel a : addr_ok a -> zlen (sel_octets a) = ta_selectlen a.
Proof. intros (L & _ & N); apply zlen_ztake; lia. Qed.

Lemma sel_ok a : addr_ok a -> bytes (sel_octets a) /\ zlen (sel_octets a) <= TSSIZE.
Proof. intros A; rewrite zlen_sel by exact A; destruct A as (_ & B & N); split; [apply Forall_ztake, B | lia]. Qed.

Section Cr.
Context (c : tconn) (pid : Z) (e : bool) (data : list Z) (cc : Z) (C : tcp_conn c) (D : data_ok data cc).

Let t := cr_of c pid e data cc.

Lemma exponent_byte k : 1 < k <= 2 ^ 30 -> is_byte (Z.log2_up k).
Proof. intros K; destruct (size_exponent_spec k K); unfold is_byte; lia. Qed.

Lemma options_byte b : is_byte (options_of b).
Proof. destruct b; cbv; easy. Qed.

Lemma cr_ok_packet : packet_ok t /\ zlen (enc_tpdu (tpdu_of t)) <= 8160.
Proof.
  destruct C as (_ & Ai & Ar & K & _), (copied_ok data cc D) as (U & E & L).
  assert (S : zlen (concat (map uv_octets (copied data cc))) <= 8000) by (rewrite E, L; destruct D as ((_ & D1) & _); unfold TS_SIZE in D1; lia).
  split; [apply conn_packet_ok | apply conn_length]; auto using reference_ok, sel_ok, exponent_byte, options_byte.
Qed.

Lemma cr_back r : let q := packet_of r (tpdu_of t) in
  t_errno q = OK /\ TPDU_CODE q = TPDU_CR /\ t_un q = reference 0 ++ reference pid ++ [0] /\ t_cr q = cr_vars c e /\ CR_CLASS q = 0 /\
  p_data (tpdu_of t) = ztake cc data.
Proof.
  destruct C as (_ & Ai & Ar & K & _), (copied_ok data cc D) as (U & E & L); rewrite <- E.
  assert (S : zlen (concat (map uv_octets (copied data cc))) <= 8000) by (rewrite E, L; destruct D as ((_ & D1) & _); unfold TS_SIZE in D1; lia).
  refine (conn_back TPDU_CR _ _ _ _ _ _ _ _ _ _ _ _ _ _ _ _ r); auto using reference_ok, sel_ok, exponent_byte, options_byte.
Qed.

Lemma cr_again r : let q := packet_of r (tpdu_of t) in packet_ok q /\ data_seg_ok q /\ full_tpdu q = tpdu_of t.
Proof.
  destruct C as (_ & Ai & Ar & K & _), (copied_ok data cc D) as (U & E & L).
  assert (S : zlen (concat (map uv_octets (copied data cc))) <= 8000) by (rewrite E, L; destruct D as ((_ & D1) & _); unfold TS_SIZE in D1; lia).
  refine (conn_again TPDU_CR _ _ _ _ _ _ _ _ _ _ _ _ _ _ _ _ r); auto using reference_ok, sel_ok, exponent_byte, options_byte.
Qed.
End Cr.

Section Operations.
Context `{Allocator} (sizeof_tpkt sizeof_qb : Z) (Room : room sizeof_qb).

Lemma TConnect_spec c pid expedited data cc : tcp_conn c -> data_ok data cc ->
  let e := negb (expedited =? 0) in
  TConnect sizeof_tpkt c pid expedited data cc =
    Val (OK, 0, set_cn_retry (set_cn_tb c (expedites (set_tb_refs (cn_tb c) (reference pid) (reference 0)) e)) (Some (cr_of c pid e data cc))).
Proof.
  intros ((I & W & T) & Ai & Ar & K & Sl) D e; unfold TConnect; rewrite T; cbn [negb andb]; unfold newtpkt; rewrite (proj1 Room).
  change (int2u8 TPDU_CR) with (Some TPDU_CR); cbn match; set (c1 := set_cn_tb c _).
  change (tb_dstref (cn_tb c1)) with (reference 0); change (tb_srcref (cn_tb c1)) with (reference pid).
  rewrite (propose_ok (cn_tb c1)) by assumption; cbn [cbind]; change (tb_tsdusize (cn_tb c1) + tb_tpduslop (cn_tb c1)) with (max_tpdu (cn_tb c)).
  unfold finish_cr; set (c2 := set_cn_tb c1 _); change (cn_initiating c2) with (cn_initiating c); change (cn_responding c2) with (cn_responding c).
  change (t_calling (t_cr (set_t_cr _ _))) with (repeat 0 64).
  rewrite put_sel_ok by first [exact Ai | destruct Ai as (_ & _ & N); lia]; cbn [cbind]; fold (sel_octets (cn_initiating c)).
  change (t_called (t_cr (set_t_cr _ _))) with (repeat 0 64).
  rewrite put_sel_ok by first [exact Ar | destruct Ar as (_ & _ & N); lia]; cbn [cbind]; fold (sel_octets (cn_responding c)).
  unfold cr_of, cr_vars, conn_vars; rewrite !zlen_sel by assumption; fold e; destruct e; reflexivity.
Qed.

(** The listener's address is that of the CR, or it takes any. *)
Definition listens (listening : taddr) (called : list Z) : Prop :=
  ta_selectlen listening <= 0 \/
  addr_ok listening /\ sel_octets listening = called.

Lemma accept_packet_spec tb listening text c pid e data cc rest : tcp_conn c -> data_ok data cc -> sock_ok (tb_in tb) ->
  listens listening (sel_octets (cn_responding c)) ->
  sk_in (tb_in tb) = tpkt_frame (prepared (cr_of c pid e data cc)) ++ enc_tpdu (tpdu_of (cr_of c pid e data cc)) ++ rest ->
  exists str s, accept_packet sizeof_tpkt sizeof_qb tb listening text = Val (inl str, set_tb_in tb s) /\ sock_ok s /\ sk_in s = rest /\
    str2tpkt sizeof_tpkt sizeof_qb str = Val (Some (packet_of 0 (tpdu_of (cr_of c pid e data cc)))).
Proof.
  intros C D So L E; set (t := cr_of c pid e data cc) in *.
  destruct (@fd2tpkt_framed sock TcpNet TcpReader _ sizeof_tpkt sizeof_qb (tb_in tb) 0 (tpdu_of t) rest (proj1 Room) So (written_has_tpdu _ t rest (proj1 (cr_ok_packet c pid e data cc C D)) E)) as (s & F & G & R).
  destruct (cr_back c pid e data cc C D 0) as (Er & Cd & _ & V & _ & _); destruct (cr_again c pid e data cc C D 0) as (Pq & Dq & Fq); fold t in Er, Cd, V, Pq, Dq, Fq.
  destruct (saved_restored sizeof_tpkt sizeof_qb (packet_of 0 (tpdu_of t)) (proj1 Room) Pq Dq) as (str & S & S2); [rewrite Fq; pose proof (proj2 (cr_ok_packet c pid e data cc C D)) as Lt; fold t in Lt; unfold BUFSIZ; lia|].
  exists str, s; rewrite Fq in S2; split; [|split; [exact G | split; [exact R | exact S2]]]; unfold accept_packet; rewrite F; cbn [cbind].
  rewrite Er, Cd; change (negb (OK =? OK)) with false; change (negb (TPDU_CR =? TPDU_CR)) with false; cbn match; rewrite V; unfold cr_vars; cbn [t_calledlen t_called conn_vars].
  rewrite Z.gtb_ltb; destruct L as [L | (La & Ls)].
  - destruct (Z.ltb_spec 0 (ta_selectlen listening)); [lia|]; cbn [cbind]; rewrite S; reflexivity.
  - rewrite <- Ls, zlen_sel, Z.eqb_refl by exact La; cbn [negb].
    assert (M : bcmp_int (Some (ta_selector listening)) (Some (padded (sel_octets listening))) (ta_selectlen listening) = Val 0).
    { pose proof (zlen_sel _ La) as Zs; destruct La as (Lz & Lb & Ln); unfold bcmp_int, rdn_ptr; unfold TSSIZE in Lz, Ln.
      rewrite int2sizet_Some, rdn_in, zdrop_0 by lia; cbn [cbind]; rewrite rdn_in, zdrop_0 by (rewrite ?zlen_padded by (unfold TSSIZE; lia); unfold TSSIZE; lia).
      cbn [cbind]; fold (sel_octets listening); rewrite <- Zs, padded_short by (unfold TSSIZE; lia); f_equal; apply memcmp_eq; reflexivity. }
    rewrite M; destruct (0 <? ta_selectlen listening); cbn [cbind cmap]; rewrite S; reflexivity.
Qed.

(** A side that has the peer's proposal. *)
Definition has_agreed (c : tconn) (n : Z) (src dst : list Z) (expedited : bool) : Prop :=
  let tb := cn_tb c in
  engine_ok tb /\ addr_ok (cn_initiating c) /\ addr_ok (cn_responding c) /\ 0 <= tb_tpduslop tb <= 2 ^ 30 /\
  tb_srcref tb = src /\ tb_dstref tb = dst /\ tb_tpdusize tb = 2 ^ n /\ tb_tsdusize tb = 2 ^ n - tb_tpduslop tb /\
  flag tb TB_EXPD = expedited.

(** The selector of the peer, when it gave one. *)
Definition took (a : taddr) (l : list Z) : Prop := l <> [] -> sel_octets a = l.

Lemma took_sel b c l : addr_ok c -> (0 < ta_selectlen c -> sel_octets b = ztake (ta_selectlen c) (padded (sel_octets c))) ->
  l = sel_octets c -> took b l.
Proof.
  intros A X -> N; pose proof (zlen_sel c A) as Z1; rewrite X, <- Z1, padded_short; [reflexivity | apply sel_ok, A|].
  destruct (sel_octets c) as [|x l]; [destruct N; reflexivity|]; rewrite <- Z1, zlen_cons; pose proof (zlen_nonneg l); lia.
Qed.

Lemma TStart_spec r pidr str c pid e data cc : tcp_conn c -> data_ok data cc -> tcp_conn r -> flag (cn_tb r) TB_EXPD = false ->
  str2tpkt sizeof_tpkt sizeof_qb str = Val (Some (packet_of 0 (tpdu_of (cr_of c pid e data cc)))) ->
  exists r1, TStart sizeof_tpkt sizeof_qb r pidr str =
      Val (TsDone (if e then 1 else 0) (2 ^ Z.log2_up (max_tpdu (cn_tb c)) - tb_tpduslop (cn_tb r)) (Some (ztake cc data)), r1) /\
    has_agreed r1 (Z.log2_up (max_tpdu (cn_tb c))) (reference pidr) (reference pid) e /\ stream (cn_tb r1) = stream (cn_tb r) /\
    tb_tpduslop (cn_tb r1) = tb_tpduslop (cn_tb r) /\
    took (cn_initiating r1) (sel_octets (cn_initiating c)) /\ took (cn_responding r1) (sel_octets (cn_responding c)).
Proof.
  intros C D (Er & Ai & Ar & _ & Sl) X S; destruct (cr_back c pid e data cc C D 0) as (E & _ & U & V & K & Dq); set (t := cr_of c pid e data cc) in *.
  unfold TStart; rewrite S; cbn [cbind]; rewrite E, K, U, V; change (negb (OK =? OK)) with false; change (negb (0 =? 0)) with false; cbn match; cbn [andb].
  change (ztake 2 (zdrop 2 (reference 0 ++ reference pid ++ [0]))) with (reference pid); unfold cr_vars at 1; cbn [t_tpdusize conn_vars].
  destruct C as (_ & Ci & Cr & Ck & _); destruct (size_exponent_spec _ Ck) as (_ & Nk); set (n := Z.log2_up (max_tpdu (cn_tb c))) in *.
  rewrite agree_ok by (first [apply Er | exact Nk | exact Sl]); cbn [cbind]; set (r1 := set_cn_tb r _).
  change (cn_initiating r1) with (cn_initiating r); unfold cr_vars at 1 2; cbn [t_calling t_callinglen conn_vars].
  destruct (sel_ok _ Ci) as (Bi & Li), (sel_ok _ Cr) as (Br & Lr).
  destruct (take_sel_ok (cn_initiating r) (padded (sel_octets (cn_initiating c))) (zlen (sel_octets (cn_initiating c)))) as (a & -> & Aa & Ta & _);
    [exact Ai | apply zlen_padded, Li | apply padded_bytes, Bi | pose proof (zlen_nonneg (sel_octets (cn_initiating c))); lia|]; cbn [cbind].
  change (cn_responding (set_cn_initiating r1 a)) with (cn_responding r); unfold cr_vars at 1 2; cbn [t_called t_calledlen conn_vars].
  destruct (take_sel_ok (cn_responding r) (padded (sel_octets (cn_responding c))) (zlen (sel_octets (cn_responding c)))) as (b & -> & Ab & Tb & _);
    [exact Ar | apply zlen_padded, Lr | apply padded_bytes, Br | pose proof (zlen_nonneg (sel_octets (cn_responding c))); lia|]; cbn [cbind].
  set (r2 := set_cn_responding (set_cn_initiating r1 a) b); set (tb1 := cn_tb r1); change (cn_tb r2) with tb1.
  assert (E1 : engine_ok tb1) by (apply engine_same; [exact Er | reflexivity]).
  change (flag tb1 TB_TCP) with (flag (cn_tb r) TB_TCP); rewrite (proj2 (proj2 Er)), andb_true_r; unfold cr_vars; cbn [t_options conn_vars].
  rewrite copy_data_ok by (rewrite ?Dq; first [unfold TS_SIZE; lia | destruct (copied_ok data cc D) as (_ & _ & L); rewrite L; destruct D as ((_ & D) & _); unfold TS_SIZE, INT_MAX in *; lia]).
  cbn [cbind]; replace (if negb (Z.land (options_of e) OPT_TEXPEDITE =? 0) then flag_on tb1 TB_EXPD else tb1) with (expedites tb1 e) by (destruct e; reflexivity).
  assert (Fe : flag (expedites tb1 e) TB_EXPD = e).
  { destruct e; [|exact X]; cbn [expedites]; rewrite flag_on_spec; [reflexivity | simpl; auto | apply E1 | simpl; auto]. }
  rewrite Fe, Dq; exists (set_cn_tb r2 (expedites tb1 e)); split.
  { do 3 f_equal; [destruct e; reflexivity|]; destruct (copied_ok data cc D) as (_ & _ & L); destruct D as (D & _); f_equal; apply ztake_all; lia. }
  assert (Ee : engine_ok (expedites tb1 e)) by (destruct e; [apply engine_on; [simpl; auto | exact E1] | exact E1]).
  split; [|split; [destruct e; reflexivity | split; [destruct e; reflexivity|]]].
  - split; [exact Ee|]; split; [exact Aa|]; split; [exact Ab|]; destruct e; repeat split; assumption || apply Sl.
  - split; [eapply (took_sel _ (cn_initiating c)); [exact Ci| |reflexivity]|eapply (took_sel _ (cn_responding c)); [exact Cr| |reflexivity]];
      rewrite <- zlen_sel by assumption; assumption.
Qed.

(** The CC that [TAccept] sends; [called] is the selector it gives. *)
Definition cc_of (dst src : list Z) (called : list Z) (n : Z) (expedited : bool) (data : list Z) (cc : Z) : tsapkt :=
  conn_packet TPDU_CC dst src (conn_vars [] called n (options_of expedited)) (copied data cc).

Section Cc.
Context (dst src called : list Z) (n : Z) (e : bool) (data : list Z) (cc : Z).
Context (Dst : ref_ok dst) (Src : ref_ok src) (Called : bytes called /\ zlen called <= TSSIZE) (N : 1 <= n <= 30) (D : data_ok data cc).

Lemma cc_ok_packet : packet_ok (cc_of dst src called n e data cc).
Proof.
  destruct (copied_ok data cc D) as (U & E & L); apply conn_packet_ok; auto using options_byte.
  - split; [constructor | cbv; discriminate].
  - unfold is_byte; lia.
  - rewrite E, L; destruct D as ((_ & D1) & _); unfold TS_SIZE in D1; lia.
Qed.

Lemma cc_back r : let q := packet_of r (tpdu_of (cc_of dst src called n e data cc)) in
  t_errno q = OK /\ TPDU_CODE q = TPDU_CC /\ t_un q = dst ++ src ++ [0] /\ t_cr q = conn_vars [] called n (options_of e) /\ CR_CLASS q = 0 /\
  p_data (tpdu_of (cc_of dst src called n e data cc)) = ztake cc data.
Proof.
  destruct (copied_ok data cc D) as (U & E & L); rewrite <- E.
  refine (conn_back TPDU_CC _ _ _ _ _ _ _ _ _ _ _ _ _ _ _ _ r); auto using options_byte.
  - split; [constructor | cbv; discriminate].
  - unfold is_byte; lia.
  - rewrite E, L; destruct D as ((_ & D1) & _); unfold TS_SIZE in D1; lia.
Qed.
End Cc.

Lemma TAccept_spec r n src dst e (responding : bool) data cc : has_agreed r n src dst e -> ref_ok src -> ref_ok dst -> 1 <= n <= 30 -> data_ok data cc ->
  let called := if responding then sel_octets (cn_responding r) else [] in
  let t := cc_of dst src called n e data cc in
  exists r2, TAccept sizeof_tpkt sizeof_qb r responding data cc = Val (OK, 0, r2) /\ has_agreed r2 n src dst e /\
    flag (cn_tb r2) TB_CONN = true /\ tb_tpduslop (cn_tb r2) = tb_tpduslop (cn_tb r) /\
    stream (cn_tb r2) = stream (cn_tb r) ++ tpkt_frame (prepared t) ++ enc_tpdu (tpdu_of t).
Proof.
  intros (E & Ai & Ar & Sl & Sr & Ds & Tp & Ts & Ex) Rs Rd N D called t.
  assert (Cl : bytes called /\ zlen called <= TSSIZE) by (unfold called; destruct responding; [apply sel_ok, Ar | split; [constructor | cbv; discriminate]]).
  pose proof (cc_ok_packet dst src called n e data cc Rd Rs Cl N D) as P; fold t in P.
  unfold TAccept; rewrite (proj2 (proj2 E)); cbn [negb andb]; unfold newtpkt; rewrite (proj1 Room); change (int2u8 TPDU_CC) with (Some TPDU_CC); cbn match.
  assert (M : tb_tsdusize (cn_tb r) + tb_tpduslop (cn_tb r) = 2 ^ n) by lia.
  assert (B : 2 <= 2 ^ n <= 2 ^ 30) by (split; [change 2 with (2 ^ 1) at 1 | idtac]; apply Z.pow_le_mono_r; lia).
  rewrite propose_ok by (first [apply E | rewrite M; lia]); cbn [cbind]; rewrite M, Z.log2_up_pow2 by lia.
  assert (Same : set_cn_tb r (cn_tb r) = r) by (destruct r; reflexivity); rewrite Same, Sr, Ds.
  change (t_called (t_cr (set_t_cr _ _))) with (repeat 0 64).
  rewrite put_sel_ok by (first [exact Ar | destruct Ar as (_ & _ & L); destruct responding; lia]); cbn [cbind]; rewrite Ex.
  match goal with |- context [tpkt2fd _ ?x] => assert (T : x = t) end.
  { unfold t, cc_of, conn_packet, called; destruct Rs as (Ls & _), Rd as (Ld & _); unfold set_fixed.
    assert (Z5 : zlen (dst ++ src ++ [0]) = 5) by (rewrite !zlen_app, zlen_one; lia); rewrite Z5.
    change (zdrop 5 _) with (@nil Z); rewrite app_nil_r; unfold conn_vars; change (zlen []) with 0; change (padded []) with (repeat 0 64).
    destruct responding; rewrite ?zlen_sel by exact Ar; rewrite ?ztake_0 by lia; destruct e; reflexivity. }
  rewrite T.
  destruct (@tpkt2fd_spec _ (Tp0Out sizeof_qb) (Tp0Writer sizeof_qb) _ (proj1 Room) (cn_tb r) t (proj1 E) P Logic.I)
    as (rc & t' & tb1 & -> & I1 & (Sm & W1) & _ & Ok & Ac & _); cbn [cbind]; rewrite (Ac (conj (proj1 (proj2 E)) Room)) in *; clear Ac.
  destruct (Ok eq_refl) as (_ & St); change (OK =? NOTOK) with false; cbn match.
  assert (E1 : engine_ok tb1) by (split; [exact I1 | split; [apply W1, E | rewrite Sm; apply E]]).
  exists (set_cn_tb r (flag_on tb1 TB_CONN)); split; [reflexivity|].
  assert (Fl : forall g, In g flag_bits -> flag (flag_on tb1 TB_CONN) g = ((g =? TB_CONN) || flag (cn_tb r) g)%bool).
  { intros g G; rewrite flag_on_spec by (try apply E1; simpl; auto); rewrite Sm; reflexivity. }
  split; [|split; [apply Fl; simpl; auto | split; [rewrite Sm; reflexivity | exact St]]].
  split; [apply engine_on; [simpl; auto | exact E1]|]; split; [exact Ai|]; split; [exact Ar|].
  unfold set_cn_tb, cn_tb at 1 2 3 4 5 6 7; rewrite Fl by (simpl; auto); rewrite Sm; repeat split; assumption || apply Sl.
Qed.

Lemma engine_in tb s : engine_ok tb -> engine_ok (set_tb_in tb s).
Proof. intros ((X & B & S & Q) & (W & V) & T); repeat split; assumption || apply B. Qed.

Lemma same_reference l : forallb (fun p => fst p =? snd p) (combine l l) = true.
Proof. induction l as [|x l IH]; [reflexivity|]; cbn; rewrite Z.eqb_refl; exact IH. Qed.

Lemma retry_cc_spec c q src dst called n e d : engine_ok (cn_tb c) -> addr_ok (cn_initiating c) -> addr_ok (cn_responding c) ->
  0 <= tb_tpduslop (cn_tb c) <= 2 ^ 30 -> tb_srcref (cn_tb c) = src -> ref_ok src -> ref_ok dst ->
  bytes called /\ zlen called <= TSSIZE -> 1 <= n <= 30 ->
  t_un q = src ++ dst ++ [0] -> t_cr q = conn_vars [] called n (options_of e) -> copy_data TC_SIZE (t_qbuf q) = Val d ->
  let x := (flag (cn_tb c) TB_EXPD && e)%bool in
  exists c2, retry_cc c q = Val (TrDone (if x then 1 else 0) (2 ^ n - tb_tpduslop (cn_tb c)) d, c2) /\
    has_agreed c2 n src dst x /\ flag (cn_tb c2) TB_CONN = true /\ tb_tpduslop (cn_tb c2) = tb_tpduslop (cn_tb c) /\
    stream (cn_tb c2) = stream (cn_tb c) /\ tb_in (cn_tb c2) = tb_in (cn_tb c) /\ took (cn_responding c2) called.
Proof.
  intros E Ai Ar Sl Sr (Ls & Bs) (Ld & Bd) (Bc & Lc) N U V Q x; unfold retry_cc; rewrite U, V, zdrop_app_r, Ls, Z.sub_diag, zdrop_0, ztake_app_exact by lia.
  cbn [t_tpdusize conn_vars]; rewrite agree_ok by (first [apply E | exact N | exact Sl]); cbn [cbind t_called t_calledlen conn_vars].
  set (tb1 := set_tb_sizes _ _ _); assert (E1 : engine_ok tb1) by (apply engine_same; [exact E | reflexivity]).
  change (cn_responding (set_cn_tb c tb1)) with (cn_responding c); pose proof (zlen_nonneg called) as Z0.
  destruct (take_sel_ok (cn_responding c) (padded called) (zlen called) Ar (zlen_padded _ Lc) (padded_bytes _ Bc) ltac:(lia)) as (b & -> & Ab & Tb & _); cbn [cbind].
  set (c1 := set_cn_responding _ b); change (cn_tb c1) with tb1; rewrite (proj2 (proj2 E1)); cbn [negb t_options conn_vars]; rewrite orb_false_r, Q; cbn [cbind].
  set (tb2 := if _ =? 0 then flag_off tb1 TB_EXPD else tb1).
  assert (T2 : tb2 = if e then tb1 else flag_off tb1 TB_EXPD) by (unfold tb2; destruct e; reflexivity).
  assert (E2 : engine_ok tb2) by (rewrite T2; destruct e; [exact E1 | apply engine_off, E1]).
  assert (X2 : flag tb2 TB_EXPD = x).
  { unfold x; rewrite T2; destruct e; [rewrite andb_true_r; reflexivity|]; rewrite flag_off_spec by (try apply E1; simpl; auto); rewrite andb_false_r; reflexivity. }
  rewrite X2; exists (set_cn_tb c1 (flag_on tb2 TB_CONN)); split; [do 3 f_equal; rewrite T2; destruct e; reflexivity|].
  assert (Fl : forall g, In g flag_bits -> flag (flag_on tb2 TB_CONN) g = ((g =? TB_CONN) || flag tb2 g)%bool)
    by (intros g G; apply flag_on_spec; [simpl; auto | apply E2 | exact G]).
  assert (Tk : took b called).
  { intros Nc; rewrite Tb; [apply padded_short, Lc|]; destruct called as [|y l]; [destruct Nc; reflexivity | rewrite zlen_cons; pose proof (zlen_nonneg l); lia]. }
  split; [|split; [apply Fl; simpl; auto | rewrite T2; destruct e; repeat (split; [reflexivity|]); exact Tk]].
  split; [apply engine_on; [simpl; auto | exact E2]|]; split; [exact Ai|]; split; [exact Ab|].
  change (cn_tb (set_cn_tb c1 (flag_on tb2 TB_CONN))) with (flag_on tb2 TB_CONN); rewrite Fl, X2 by (simpl; auto).
  rewrite T2; destruct e; repeat split; assumption || apply Sl.
Qed.

(** The CC of the peer is taken. *)
Lemma retry_reply_spec c src dst called n e data cc rest : engine_ok (cn_tb c) -> addr_ok (cn_initiating c) -> addr_ok (cn_responding c) ->
  0 <= tb_tpduslop (cn_tb c) <= 2 ^ 30 -> tb_srcref (cn_tb c) = src -> ref_ok src -> ref_ok dst ->
  bytes called /\ zlen called <= TSSIZE -> 1 <= n <= 30 -> data_ok data cc -> sock_ok (tb_in (cn_tb c)) ->
  let t := cc_of src dst called n e data cc in
  let x := (flag (cn_tb c) TB_EXPD && e)%bool in
  sk_in (tb_in (cn_tb c)) = tpkt_frame (prepared t) ++ enc_tpdu (tpdu_of t) ++ rest ->
  exists c2, retry_reply sizeof_tpkt sizeof_qb c = Val (TrDone (if x then 1 else 0) (2 ^ n - tb_tpduslop (cn_tb c)) (Some (ztake cc data)), c2) /\
    has_agreed c2 n src dst x /\ flag (cn_tb c2) TB_CONN = true /\ tb_tpduslop (cn_tb c2) = tb_tpduslop (cn_tb c) /\
    stream (cn_tb c2) = stream (cn_tb c) /\ sk_in (tb_in (cn_tb c2)) = rest /\ took (cn_responding c2) called.
Proof.
  intros E Ai Ar Sl Sr Rs Rd Cl N D So t x I; pose proof (cc_ok_packet src dst called n e data cc Rs Rd Cl N D) as P; fold t in P.
  destruct (@fd2tpkt_framed sock TcpNet TcpReader _ sizeof_tpkt sizeof_qb (tb_in (cn_tb c)) 0 (tpdu_of t) rest (proj1 Room) So (written_has_tpdu _ t rest P I)) as (s & F & G & R).
  destruct (cc_back src dst called n e data cc Rs Rd Cl N D 0) as (Er & Cd & U & V & K & Dq); fold t in Er, Cd, U, V, K, Dq.
  unfold retry_reply; rewrite F; cbn [cbind]; rewrite Er, Cd, K; change (negb (OK =? OK)) with false; change (TPDU_CC =? TPDU_CC) with true; change (negb (0 =? 0)) with false; cbn match.
  set (c1 := set_cn_tb c _); change (tb_srcref (cn_tb c1)) with (tb_srcref (cn_tb c)); rewrite Sr, U, ztake_app_exact, same_reference by (destruct Rs; lia); cbn [negb].
  assert (Q : copy_data TC_SIZE (t_qbuf (packet_of 0 (tpdu_of t))) = Val (Some (ztake cc data))).
  { destruct (copied_ok data cc D) as (_ & _ & L), D as ((_ & D) & _); unfold TS_SIZE in D.
    rewrite copy_data_ok by (rewrite ?Dq, ?L; unfold TC_SIZE, INT_MAX; lia); rewrite Dq, ztake_all by (rewrite L; exact D); reflexivity. }
  destruct (retry_cc_spec c1 _ src dst called n e _ (engine_in _ s E) Ai Ar Sl Sr Rs Rd Cl N U V Q) as (c2 & S2 & Ag & Co & Sp & St & In & Tk).
  exists c2; split; [exact S2|]; repeat (split; [assumption|]); split; [rewrite In; exact R | exact Tk].
Qed.

(** [TRetry] sends the packet that waits, then takes the answer. *)
Lemma TRetry_sends c t retryfnx ready : cn_retry c = Some t -> packet_ok t -> engine_ok (cn_tb c) ->
  exists tb1, TRetry sizeof_tpkt sizeof_qb c 0 retryfnx ready = retry_reply sizeof_tpkt sizeof_qb (set_cn_tb (set_cn_retry c None) tb1) /\
    engine_ok tb1 /\ same_but_io (cn_tb c) tb1 /\ stream tb1 = stream (cn_tb c) ++ tpkt_frame (prepared t) ++ enc_tpdu (tpdu_of t).
Proof.
  intros R P E; unfold TRetry; rewrite R; change (0 =? 0) with true; cbn match; cbn [negb andb].
  destruct (@tpkt2fd_spec _ (Tp0Out sizeof_qb) (Tp0Writer sizeof_qb) _ (proj1 Room) (cn_tb c) t (proj1 E) P Logic.I)
    as (rc & t' & tb1 & Q & I1 & (Sm & W1) & _ & Ok & Ac & _); rewrite (Ac (conj (proj1 (proj2 E)) Room)) in *; clear Ac.
  change (cn_tb (set_cn_retry c None)) with (cn_tb c); rewrite Q; cbn [cbind]; change (OK =? NOTOK) with false; cbn match.
  exists tb1; split; [reflexivity|]; split; [split; [exact I1 | split; [apply W1, E | rewrite Sm; apply E]]|]; split; [exact Sm | apply Ok; reflexivity].
Qed.
End Operations.

Lemma packet_bytes t : packet_ok t -> is_byte (t_rsrvd t) -> bytes (tpkt_frame (prepared t) ++ enc_tpdu (tpdu_of t)).
Proof.
  intros P R; apply bytes_app; split; [|apply enc_tpdu_bytes, tpdu_of_ok, P]; pose proof (zlen_nonneg (enc_tpdu (tpdu_of t))).
  assert (L : 4 + zlen (enc_tpdu (tpdu_of t)) < 65536) by apply P; rewrite frame_prepared by exact L.
  repeat constructor; rewrite ?shr8, ?land_ff; try apply R; try lia; unfold TPKT_VRSN;
    first [apply Z.mod_pos_bound; lia | apply Z.div_pos; lia | apply Z.div_lt_upper_bound; lia | lia].
Qed.

(** Two ends of one connection. *)
Definition joined (a b : tsapblk) (expedited : bool) : Prop :=
  flag a TB_CONN = true /\ flag b TB_CONN = true /\ flag a TB_EXPD = expedited /\ flag b TB_EXPD = expedited /\
  tb_srcref a = tb_dstref b /\ tb_dstref a = tb_srcref b /\ tb_tpdusize a = tb_tpdusize b /\
  segment_len a = tb_tpdusize a - tb_tpduslop a /\ segment_len b = tb_tpdusize b - tb_tpduslop b.

Lemma agreed_segment c n src dst e : has_agreed c n src dst e -> 0 <= n -> segment_len (cn_tb c) = tb_tpdusize (cn_tb c) - tb_tpduslop (cn_tb c).
Proof.
  intros (_ & _ & _ & _ & _ & _ & Tp & _) N; unfold segment_len; rewrite Tp; assert (0 < 2 ^ n) by (apply Z.pow_pos_nonneg; lia).
  destruct (Z.eqb_spec (2 ^ n) 0); [lia | reflexivity].
Qed.

(** C39. Two users that connect over TCP agree. The CR of [TConnect], taken
    by a listener from any connection that delivers it and handed as text to
    the responder, makes [TStart] report the data of the initiator; the CC of
    [TAccept], delivered to [TRetry], makes it report the data of the
    responder. Both ends then have the size of TPDU that the initiator
    proposed, the least power of two that holds its own maximum, each other's
    references, and the expedited service exactly when it was asked for. *)
Theorem connection_agrees : forall (A : Allocator) sizeof_tpkt sizeof_qb c r pidc pidr expedited data cc responding rdata rcc listening text,
  room sizeof_qb -> tcp_conn c -> tcp_conn r -> flag (cn_tb c) TB_EXPD = false -> flag (cn_tb r) TB_EXPD = false ->
  data_ok data cc -> data_ok rdata rcc -> listens listening (sel_octets (cn_responding c)) ->
  let e := negb (expedited =? 0) in
  let size := 2 ^ Z.log2_up (max_tpdu (cn_tb c)) in
  exists c1 x, TConnect sizeof_tpkt c pidc expedited data cc = Val (OK, 0, c1) /\ bytes x /\
    forall tb rest, sock_ok (tb_in tb) -> sk_in (tb_in tb) = x ++ rest ->
      exists str s r1 r2 y, accept_packet sizeof_tpkt sizeof_qb tb listening text = Val (inl str, set_tb_in tb s) /\ sk_in s = rest /\
        TStart sizeof_tpkt sizeof_qb r pidr str =
          Val (TsDone (if e then 1 else 0) (size - tb_tpduslop (cn_tb r)) (Some (ztake cc data)), r1) /\
        TAccept sizeof_tpkt sizeof_qb r1 responding rdata rcc = Val (OK, 0, r2) /\ stream (cn_tb r2) = stream (cn_tb r) ++ y /\ bytes y /\
        forall s' rest' ready, sock_ok s' -> sk_in s' = y ++ rest' ->
          exists c2, TRetry sizeof_tpkt sizeof_qb (set_cn_tb c1 (set_tb_in (cn_tb c1) s')) 0 None ready =
              Val (TrDone (if e then 1 else 0) (size - tb_tpduslop (cn_tb c)) (Some (ztake rcc rdata)), c2) /\
            stream (cn_tb c2) = stream (cn_tb c) ++ x /\ sk_in (tb_in (cn_tb c2)) = rest' /\
            joined (cn_tb c2) (cn_tb r2) e /\ tb_tpdusize (cn_tb c2) = size.
Proof.
  intros A st sq c r pidc pidr expedited data cc responding rdata rcc listening text Room C R Xc Xr D Dr L e size.
  set (t := cr_of c pidc e data cc); eexists; exists (tpkt_frame (prepared t) ++ enc_tpdu (tpdu_of t)); split; [apply (TConnect_spec st sq Room); assumption|].
  split; [apply packet_bytes; [apply cr_ok_packet; assumption | split; reflexivity || discriminate]|].
  intros tb rest So I; rewrite <- app_assoc in I; fold e.
  destruct (accept_packet_spec st sq Room tb listening text c pidc e data cc rest C D So L I) as (str & s & Ea & Gs & Rs & Str).
  destruct (TStart_spec st sq r pidr str c pidc e data cc C D R Xr Str) as (r1 & Es & Ag & St & Sl & _ & _).
  destruct C as (Ec & Ai & Ar & K & Slc); destruct (size_exponent_spec _ K) as (_ & N).
  destruct (TAccept_spec st sq Room r1 _ _ _ e responding rdata rcc Ag (reference_ok _) (reference_ok _) N Dr) as (r2 & Et & Ag2 & Co & Sl2 & Y).
  set (q := cc_of _ _ _ _ _ _ _) in Y; exists str, s, r1, r2, (tpkt_frame (prepared q) ++ enc_tpdu (tpdu_of q)).
  split; [exact Ea|]; split; [exact Rs|]; split; [exact Es|]; split; [exact Et|]; split; [rewrite Y, St; reflexivity|].
  assert (Cl : bytes (if responding then sel_octets (cn_responding r1) else []) /\ zlen (if responding then sel_octets (cn_responding r1) else []) <= TSSIZE)
    by (destruct responding; [apply sel_ok, Ag | split; [constructor | cbv; discriminate]]).
  split; [apply packet_bytes; [apply cc_ok_packet; auto using reference_ok | split; reflexivity || discriminate]|].
  intros s' rest' ready So' I'; rewrite <- app_assoc in I'; set (tb0 := set_tb_refs (cn_tb c) (reference pidc) (reference 0)).
  assert (E0 : engine_ok (expedites tb0 e)) by (destruct e; [apply engine_on; [simpl; auto|]|]; apply engine_same; auto).
  assert (X0 : flag (expedites tb0 e) TB_EXPD = e) by (destruct e; [cbn [expedites]; rewrite flag_on_spec by (try apply Ec; simpl; auto); reflexivity | exact Xc]).
  set (c1 := set_cn_tb _ (set_tb_in _ s')).
  destruct (TRetry_sends st sq Room c1 t None ready eq_refl) as (tb1 & -> & E1 & Sm & S1); [apply cr_ok_packet; repeat (split; [assumption|]); assumption | apply engine_in, E0|].
  assert (Tb : tb_tpduslop tb1 = tb_tpduslop (cn_tb c) /\ tb_srcref tb1 = reference pidc /\ tb_in tb1 = s' /\ flag tb1 TB_EXPD = e /\
               stream (cn_tb c1) = stream (cn_tb c)).
  { rewrite Sm; split; [destruct e; reflexivity|]; split; [destruct e; reflexivity|]; split; [reflexivity|]; split; [exact X0 | destruct e; reflexivity]. }
  destruct Tb as (T1 & T2 & T3 & T4 & T5); set (c2 := set_cn_tb _ tb1).
  destruct (retry_reply_spec st sq Room c2 (reference pidc) (reference pidr) _ _ e rdata rcc rest' E1 Ai Ar ltac:(change (cn_tb c2) with tb1; rewrite T1; exact Slc) T2
              (reference_ok _) (reference_ok _) Cl N Dr ltac:(change (cn_tb c2) with tb1; rewrite T3; exact So') ltac:(change (cn_tb c2) with tb1; rewrite T3; exact I')) as (c3 & Er & Ag3 & Co3 & Sl3 & St3 & In3 & _).
  change (cn_tb c2) with tb1 in *; rewrite T4, andb_diag, T1 in *; exists c3; split; [exact Er|]; split; [rewrite St3, S1, T5; reflexivity|]; split; [exact In3|].
  pose proof (agreed_segment _ _ _ _ _ Ag3 ltac:(lia)) as G3; pose proof (agreed_segment _ _ _ _ _ Ag2 ltac:(lia)) as G2.
  destruct Ag3 as (_ & _ & _ & _ & Sr3 & Ds3 & Tp3 & _ & Ex3), Ag2 as (_ & _ & _ & _ & Sr2 & Ds2 & Tp2 & _ & Ex2).
  split; [|exact Tp3]; repeat split; congruence.
Qed.

(** * Examples *)

Definition fresh_tb : tsapblk := TB 0 [0; 0] [0; 0] 0 0 0 [] 0 [] false (Sock [] 0 []) (Wire [] []).

Definition no_addr : taddr := TA (repeat 0 64) 0.

(** A user with selector 65 that calls one with selector 83, 66. *)
Definition ex_caller : tconn := TCn (TTService fresh_tb) (TA (padded [65]) 1) (TA (padded [83; 66]) 2) None.

Definition ex_called : tconn := TCn (TTService fresh_tb) no_addr no_addr None.

Lemma fresh_conn a b : addr_ok a -> addr_ok b -> tcp_conn (TCn (TTService fresh_tb) a b None).
Proof.
  intros Ha Hb; split; [|split; [exact Ha | split; [exact Hb | split; vm_compute; split; reflexivity || discriminate]]].
  split; [split; [reflexivity|]; split; [vm_compute; split; reflexivity || discriminate|]; split; [constructor | right; reflexivity]|].
  split; [split; [constructor | reflexivity] | reflexivity].
Qed.

Lemma ex_addr l n : forallb byteb l = true -> zlen l = 64 -> (0 <=? n) && (n <=? 64) = true -> addr_ok (TA l n).
Proof.
  intros B L N; apply andb_true_iff in N as (N1 & N2); apply Z.leb_le in N1, N2.
  split; [exact L | split; [apply forallb_bytes, B | split; assumption]].
Qed.

Lemma connection_agrees_witness : exists c1 x str s r1, TConnect (H := plenty) 400 ex_caller 4660 1 [7; 8] 2 = Val (OK, 0, c1) /\
  accept_packet (H := plenty) 400 40 (set_tb_in fresh_tb (Sock x 0 [1; 5])) no_addr [] = Val (inl str, set_tb_in (set_tb_in fresh_tb (Sock x 0 [1; 5])) s) /\
  TStart (H := plenty) 400 40 ex_called 43981 str = Val (TsDone 1 2041 (Some [7; 8]), r1).
Proof.
  destruct (connection_agrees plenty 400 40 ex_caller ex_called 4660 43981 1 [7; 8] 2 true [9] 1 no_addr []) as (c1 & x & E & B & L).
  - apply room_plenty; vm_compute; split; discriminate.
  - apply fresh_conn; apply ex_addr; reflexivity.
  - apply fresh_conn; apply ex_addr; reflexivity.
  - reflexivity.
  - reflexivity.
  - split; [vm_compute; split; discriminate | split; [vm_compute; discriminate | apply forallb_bytes; reflexivity]].
  - split; [vm_compute; split; discriminate | split; [vm_compute; discriminate | apply forallb_bytes; reflexivity]].
  - left; vm_compute; discriminate.
  - destruct (L (set_tb_in fresh_tb (Sock x 0 [1; 5])) []) as (str & s & r1 & r2 & y & Ea & _ & Es & _).
    + split; [exact B | left; reflexivity].
    + symmetry; apply app_nil_r.
    + exists c1, x, str, s, r1; split; [exact E | split; [exact Ea | exact Es]].
Defined.
