(* ===== verification/Tp0Reply.v ===== *)
(** * tsap: every answer to a connect request

    What TRetry (tp0ts.c) does with whatever the peer of a TCP connection
    sends, well-formed or not. *)

From S2P Require Import Prelude Conv Convert PElement PStream Pe2Ps Qbuf Tpkt Tpkt2fd StrTpkt Tcp Tp0 Transfer Tp0Conn.
Open Scope Z_scope.
Open Scope c_scope.

(** ** The reader on any input *)

Lemma fd2tpkt_unframed {N} `{TsReader N} `{Allocator} sizeof_tpkt sizeof_qb (s : N) : memory_ok -> net_ok s ->
  (forall r p rest, ~ has_tpdu s r p rest) ->
  exists t s', fd2tpkt sizeof_tpkt sizeof_qb s = Val (Some t, s') /\ net_ok s' /\ t_errno t <> OK.
Proof.
  intros M G P; unfold fd2tpkt, newtpkt; rewrite M, int2u8_Some by (cbv; easy); cbn match.
  destruct (fd2tpktaux_spec sizeof_qb s M G) as (rc & q & s' & -> & G' & S & _); cbn [cbind].
  destruct (Z.eqb_spec rc OK) as [R|R]; [destruct (S R) as (r & p & O); destruct (P _ _ _ O)|].
  do 2 eexists; split; [reflexivity|]; split; [exact G'|]; cbn [t_errno set_t_qbuf]; destruct (t_vdata _); exact R.
Qed.

(** The selectors that were read fit. *)
Definition vars_ok (c : crvar) : Prop :=
  cr_ok c /\ bytes (t_called c) /\ 0 <= t_calledlen c <= TSSIZE.

Lemma param_set_vars code c p : vars_ok c -> bytes (snd p) -> vars_ok (param_set code c p).
Proof.
  intros (O & B & L) Bv; split; [apply param_set_ok, O|]; unfold param_set, cr_param; destruct p as [k v]; cbn [snd] in Bv.
  destruct (_ || _)%bool; [|split; assumption]; destruct (k =? VDAT_TSAP_SRV).
  - assert (W : 0 <= zlen (ztake TSSIZE v) <= TSSIZE).
    { pose proof (zlen_nonneg (ztake TSSIZE v)); unfold zlen, ztake in *; rewrite length_firstn in *; unfold TSSIZE in *; lia. }
    split; [|exact W]; apply bytes_app; split; [apply Forall_ztake, Bv | apply Forall_zdrop, B].
  - repeat (destruct (_ =? _); [split; assumption|]); split; assumption.
Qed.

Lemma packet_vars r p : tpdu_ok p -> vars_ok (t_cr (packet_of r p)).
Proof.
  intros (_ & _ & _ & P & _); unfold packet_of; cbn [t_cr].
  assert (V : vars_ok (t_cr new_packet)) by (split; [split; reflexivity | split; [apply forallb_bytes; reflexivity | vm_compute; split; discriminate]]).
  revert V; generalize (t_cr new_packet); induction P as [|[k v] ps (_ & B & _) _ IH]; intros c V; cbn [fold_left]; [exact V|].
  apply IH, param_set_vars; assumption.
Qed.

Lemma packet_fixed r p k : (k < length (p_fixed p))%nat -> nth k (t_un (packet_of r p)) 0 = nth k (p_fixed p) 0.
Proof. intros K; unfold packet_of; cbn [t_un]; apply app_nth1, K. Qed.

Lemma data_short p : 4 + zlen (enc_tpdu p) < 65536 -> zlen (p_data p) <= INT_MAX.
Proof.
  unfold enc_tpdu, INT_MAX; rewrite !zlen_cons, !zlen_app; pose proof (zlen_nonneg (p_fixed p)); pose proof (zlen_nonneg (enc_params (p_params p))); lia.
Qed.

(** The exponent of the size is an octet. *)
Lemma packet_size r p : tpdu_ok p -> 0 <= t_tpdusize (t_cr (packet_of r p)).
Proof.
  intros (_ & _ & _ & P & _); unfold packet_of; cbn [t_cr].
  assert (V : 0 <= t_tpdusize (t_cr new_packet)) by (vm_compute; discriminate).
  revert V; generalize (t_cr new_packet); induction P as [|[k v] ps (_ & B & _) _ IH]; intros c V; cbn [fold_left]; [exact V|].
  apply IH; unfold param_set, cr_param; repeat match goal with |- context [if ?b then _ else _] => destruct b end; try exact V.
  destruct v as [|x v]; [discriminate | apply (Forall_inv B)].
Qed.

Section Reply.
Context `{Allocator} (sizeof_tpkt sizeof_qb : Z) (Room : room sizeof_qb).

(** ** What the answer means *)

Inductive reply : Type :=
| RpAccept
| RpRefuse (reason : Z) (data : list Z)
| RpBreak.

(** The meaning of a TPDU for a user whose reference is [src]. *)
Definition reply_of (src : list Z) (p : tpdu) : reply :=
  let code := Z.land (p_code p) 240 in
  let r := nth 2 (p_fixed p) 0 in
  if code =? TPDU_CC then
    if negb (Z.land (nth 4 (p_fixed p) 0) 240 =? 0) then RpBreak
    else if list_eq_dec Z.eq_dec src (ztake 2 (p_fixed p)) then RpAccept else RpBreak
  else if code =? TPDU_DR then RpRefuse (nth 4 (p_fixed p) 0) (ztake TD_SIZE (p_data p))
  else if code =? TPDU_ER then
    RpRefuse (if (r =? ER_REJ_CODE) || (r =? ER_REJ_TPDU) || (r =? ER_REJ_VALUE) then DR_PROTOCOL else DR_CONNECT) []
  else RpBreak.

Lemma refs_eqb (a : list Z) : forall b, length a = length b -> forallb (fun p => fst p =? snd p) (combine a b) = if list_eq_dec Z.eq_dec a b then true else false.
Proof.
  intros b L; destruct (list_eq_dec Z.eq_dec a b) as [<-|N]; [apply same_reference|].
  apply not_true_is_false; intros E; apply N; clear N; revert b L E; induction a as [|x a IH]; intros [|y b] L E; try discriminate; [reflexivity|].
  cbn in E; apply andb_true_iff in E as (E1 & E2); apply Z.eqb_eq in E1 as ->; f_equal; apply IH; auto.
Qed.

(** What [retry_reply] may come to, for the octets [x] it writes. *)
Definition outcome (c : tconn) (x : list Z) (c' : tconn) : Prop :=
  engine_ok (cn_tb c') /\ stream (cn_tb c') = stream (cn_tb c) ++ x.

Lemma outcome_in c s : engine_ok (cn_tb c) -> outcome c [] (set_cn_tb c (set_tb_in (cn_tb c) s)).
Proof. intros E; split; [apply engine_in, E | symmetry; apply app_nil_r]. Qed.


Lemma agree_any tb n : engine_ok tb -> 0 <= n <= 30 -> exists a b, agree tb n = Val (set_tb_sizes tb a b).
Proof.
  intros E N; unfold agree; rewrite (proj2 (proj2 E)); cbn [negb orb]; destruct (Z.eqb_spec n 0); cbn [negb].
  - exists (tb_tsdusize tb), (tb_tpdusize tb); destruct tb; reflexivity.
  - rewrite andb_false_r, shl1_Some by lia; cbn [cbind]; eauto.
Qed.

Lemma retry_cc_any c r p : engine_ok (cn_tb c) -> addr_ok (cn_responding c) -> tpdu_ok p -> 4 + zlen (enc_tpdu p) < 65536 ->
  0 <= t_tpdusize (t_cr (packet_of r p)) <= 30 ->
  exists e n d c', retry_cc c (packet_of r p) = Val (TrDone e n d, c') /\ outcome c [] c' /\ flag (cn_tb c') TB_CONN = true /\
    n = tb_tsdusize (cn_tb c') /\ d = Some (ztake TC_SIZE (p_data p)) /\ tb_dstref (cn_tb c') = ztake 2 (zdrop 2 (t_un (packet_of r p))).
Proof.
  intros E A O L N; destruct (packet_vars r p O) as ((Lz & _) & B & Ln); unfold retry_cc.
  set (tb0 := set_tb_refs _ _ _); destruct (agree_any tb0 _ (engine_same _ _ _ _ _ _ _ E eq_refl) N) as (a & b & ->); cbn [cbind].
  set (tb1 := set_tb_sizes tb0 a b); assert (E1 : engine_ok tb1) by (apply engine_same; [exact E | reflexivity]).
  change (cn_responding (set_cn_tb c tb1)) with (cn_responding c).
  destruct (take_sel_ok (cn_responding c) _ _ A Lz B Ln) as (a' & -> & _); cbn [cbind].
  set (c1 := set_cn_responding _ a'); change (cn_tb c1) with tb1.
  rewrite copy_data_ok by (first [unfold TC_SIZE; lia | apply data_short, L]); cbn [cbind].
  set (tb2 := if (_ || _)%bool then flag_off tb1 TB_EXPD else tb1).
  assert (E2 : engine_ok tb2 /\ stream tb2 = stream (cn_tb c) /\ tb_dstref tb2 = tb_dstref tb0)
    by (unfold tb2; destruct (_ || _)%bool; split; [apply engine_off, E1 | split; reflexivity | exact E1 | split; reflexivity]).
  destruct E2 as (E2 & S2 & D2); do 4 eexists; split; [reflexivity|]; split; [split; [apply engine_on; [simpl; auto | exact E2]|]|].
  - change (stream tb2 = stream (cn_tb c) ++ []); rewrite app_nil_r; exact S2.
  - split; [apply flag_on_spec; [simpl; auto | apply E2 | simpl; auto]|]; repeat split; exact D2.
Qed.

(** The size of a CC, which a TCP connection takes as it is, is no [int]. *)
Definition oversized (r : Z) (p : tpdu) : bool := t_tpdusize (t_cr (packet_of r p)) >? 30.

(** What the answer leads to, by its meaning; [x] are the octets written. *)
Definition answered (src : list Z) (c : tconn) (r : Z) (p : tpdu) (x : list Z) (res : cres (tretry * tconn)) : Prop :=
  match reply_of src p with
  | RpAccept =>
      if oversized r p then res = UB
      else
        exists e c', res = Val (TrDone e (tb_tsdusize (cn_tb c')) (Some (ztake TC_SIZE (p_data p))), c') /\ outcome c x c' /\
          flag (cn_tb c') TB_CONN = true /\ tb_dstref (cn_tb c') = ztake 2 (zdrop 2 (p_fixed p))
  | RpRefuse reason data => exists c', res = Val (TrLost (Some reason) (Some data), c') /\ outcome c x c'
  | RpBreak => res = UB
  end.

Lemma fixed_nth r p n k : tpdu_ok p -> tpdu_size (Z.land (p_code p) 240) = Some n -> Z.of_nat k < n ->
  nth k (t_un (packet_of r p)) 0 = nth k (p_fixed p) 0.
Proof. intros (_ & S & _) E K; apply packet_fixed; rewrite E in S; injection S as S; unfold zlen in S; lia. Qed.

Lemma cc_un r p : tpdu_ok p -> Z.land (p_code p) 240 = TPDU_CC -> t_un (packet_of r p) = p_fixed p /\ zlen (p_fixed p) = 5.
Proof.
  intros (_ & S & _) E; rewrite E in S; change (tpdu_size TPDU_CC) with (Some 5) in S; injection S as S; split; [|lia].
  unfold packet_of; cbn [t_un]; unfold zlen in S; replace (5 - length (p_fixed p))%nat with 0%nat by lia; apply app_nil_r.
Qed.

Lemma lose_undefined c reason : lose sizeof_tpkt sizeof_qb c reason = UB.
Proof. unfold lose; rewrite tpktlose_undefined; reflexivity. Qed.

Lemma retry_reply_any c r p rest : engine_ok (cn_tb c) -> addr_ok (cn_responding c) -> ref_ok (tb_srcref (cn_tb c)) ->
  sock_ok (tb_in (cn_tb c)) -> has_tpdu (tb_in (cn_tb c)) r p rest ->
  answered (tb_srcref (cn_tb c)) c r p [] (retry_reply sizeof_tpkt sizeof_qb c).
Proof.
  intros E A Rs So P; pose proof P as (O & L & _); unfold retry_reply.
  destruct (@fd2tpkt_framed sock TcpNet TcpReader _ sizeof_tpkt sizeof_qb _ r p rest (proj1 Room) So P) as (s & -> & _); cbn [cbind].
  change (t_errno (packet_of r p) =? OK) with true; change (TPDU_CODE (packet_of r p)) with (Z.land (p_code p) 240); cbn [negb].
  change (cn_tb (set_cn_tb c (set_tb_in (cn_tb c) s))) with (set_tb_in (cn_tb c) s); change (tb_srcref (set_tb_in _ s)) with (tb_srcref (cn_tb c)).
  rewrite !lose_undefined; cbn [cbind]; unfold CR_CLASS, answered, reply_of; destruct (Z.eqb_spec (Z.land (p_code p) 240) TPDU_CC) as [K|_].
  - destruct (cc_un r p O K) as (U & F5); rewrite U; destruct (negb _); [reflexivity|].
    rewrite refs_eqb by (destruct Rs as (L2 & _); pose proof (zlen_ztake 2 (p_fixed p) ltac:(lia)); unfold zlen in *; lia).
    destruct (list_eq_dec _ _ _); cbn [negb]; [|reflexivity].
    unfold oversized; rewrite Z.gtb_ltb; destruct (Z.ltb_spec 30 (t_tpdusize (t_cr (packet_of r p)))) as [Sz|Sz].
    + unfold retry_cc; rewrite agree_overflow; [reflexivity | apply E | exact Sz].
    + destruct (retry_cc_any (set_cn_tb c (set_tb_in (cn_tb c) s)) r p (engine_in _ s E) A O L (conj (packet_size r p O) Sz))
        as (x & n & d & c' & -> & Q & Cn & -> & -> & D); rewrite U in D; eauto 9.
  - destruct (Z.eqb_spec (Z.land (p_code p) 240) TPDU_DR) as [K|_]; [|destruct (Z.eqb_spec (Z.land (p_code p) 240) TPDU_ER) as [K|_]; [|reflexivity]].
    + rewrite copy_data_ok by (first [unfold TD_SIZE; lia | apply data_short, L]); cbn [cbind].
      rewrite (fixed_nth r p 5 4 O ltac:(rewrite K; reflexivity) ltac:(lia)); eexists; auto using outcome_in.
    + rewrite (fixed_nth r p 3 2 O ltac:(rewrite K; reflexivity) ltac:(lia)); eexists; auto using outcome_in.
Qed.

Lemma retry_reply_none c : engine_ok (cn_tb c) -> sock_ok (tb_in (cn_tb c)) -> (forall r p rest, ~ has_tpdu (tb_in (cn_tb c)) r p rest) ->
  exists e c', retry_reply sizeof_tpkt sizeof_qb c = Val (TrLost (Some e) None, c') /\ e <> OK /\ outcome c [] c'.
Proof.
  intros E So N; unfold retry_reply.
  destruct (@fd2tpkt_unframed sock TcpNet TcpReader _ sizeof_tpkt sizeof_qb _ (proj1 Room) So N) as (t & s & -> & _ & Er); cbn [cbind].
  destruct (Z.eqb_spec (t_errno t) OK) as [|Ne]; [contradiction|]; do 2 eexists; split; [reflexivity|]; split; [exact Ne | apply outcome_in, E].
Qed.

(** ** From the start of TRetry *)

(** The octets of the packet that waits. *)
Definition waiting (c : tconn) : list Z :=
  match cn_retry c with Some t => tpkt_frame (prepared t) ++ enc_tpdu (tpdu_of t) | None => [] end.

Lemma TRetry_first c retryfnx ready : engine_ok (cn_tb c) -> (forall t, cn_retry c = Some t -> packet_ok t) ->
  exists c1, TRetry sizeof_tpkt sizeof_qb c 0 retryfnx ready = retry_reply sizeof_tpkt sizeof_qb c1 /\ engine_ok (cn_tb c1) /\
    same_but_io (cn_tb c) (cn_tb c1) /\ stream (cn_tb c1) = stream (cn_tb c) ++ waiting c /\ cn_responding c1 = cn_responding c.
Proof.
  intros E P; unfold waiting; destruct (cn_retry c) as [t|] eqn:R.
  - destruct (TRetry_sends sizeof_tpkt sizeof_qb Room c t retryfnx ready R (P t eq_refl) E) as (tb & -> & E1 & Sm & S).
    exists (set_cn_tb (set_cn_retry c None) tb); auto.
  - exists c; unfold TRetry; rewrite R, app_nil_r; cbn [cbind]; repeat (split; [reflexivity || exact E|]).
    split; [unfold same_but_io; destruct (cn_tb c); reflexivity | split; reflexivity].
Qed.

Lemma answered_from src c c1 r p x res : answered src c1 r p [] res -> stream (cn_tb c1) = stream (cn_tb c) ++ x ->
  answered src c r p x res.
Proof.
  intros A S; unfold answered, outcome in *; destruct (reply_of src p); [destruct (oversized r p)| |]; try exact A;
    rewrite S in A; setoid_rewrite app_nil_r in A; exact A.
Qed.
End Reply.

(** C40. What the initiator makes of any answer. After the packet that waits
    is written, a CC of class 0 for our reference connects, with the reference
    and the data of the peer; a DR or an ER is the end, for the reason and
    with the data it gives; octets that are no TPDU are the end with an error,
    nothing more being written. And these are the answers the code copes with:
    on a CC whose size is no [int] it shifts too far, and on any other TPDU,
    a CC of another class or for another reference it calls [tpktlose], which
    takes arguments from a list that is used up; both are undefined. *)
Theorem TRetry_reply : forall (A : Allocator) sizeof_tpkt sizeof_qb c retryfnx ready,
  room sizeof_qb -> engine_ok (cn_tb c) -> addr_ok (cn_responding c) -> ref_ok (tb_srcref (cn_tb c)) ->
  sock_ok (tb_in (cn_tb c)) -> (forall t, cn_retry c = Some t -> packet_ok t) ->
  let res := TRetry sizeof_tpkt sizeof_qb c 0 retryfnx ready in
  (forall r p rest, has_tpdu (tb_in (cn_tb c)) r p rest -> answered (tb_srcref (cn_tb c)) c r p (waiting c) res) /\
  ((forall r p rest, ~ has_tpdu (tb_in (cn_tb c)) r p rest) ->
     exists e c', res = Val (TrLost (Some e) None, c') /\ e <> OK /\ outcome c (waiting c) c').
Proof.
  intros A st sq c f ready Room E Ad Rs So P; cbv zeta.
  destruct (TRetry_first st sq Room c f ready E P) as (c1 & -> & E1 & Sm & S & Re).
  assert (F : tb_srcref (cn_tb c1) = tb_srcref (cn_tb c) /\ tb_in (cn_tb c1) = tb_in (cn_tb c)) by (rewrite Sm; auto).
  destruct F as (F1 & F3); split.
  - intros r p rest T; apply (answered_from _ c c1); [|exact S]; rewrite <- F1.
    apply (retry_reply_any st sq Room c1 r p rest E1); rewrite ?Re, ?F1, ?F3; assumption.
  - intros N; destruct (retry_reply_none st sq Room c1 E1) as (e & c' & -> & Ne & O); rewrite ?F3; try assumption.
    exists e, c'; split; [reflexivity|]; split; [exact Ne|]; destruct O as (O1 & O2); split; [exact O1 | rewrite O2, S, app_nil_r; reflexivity].
Qed.

(** * Examples *)

(** A DR for reason 2 with two octets of data. *)
Definition ex_dr : tpdu := Tpdu TPDU_DR [18; 52; 0; 9; 2] [] [7; 8].

Definition ex_refused : tconn :=
  TCn (set_tb_in (set_tb_refs (TTService fresh_tb) [18; 52] [0; 0]) (Sock ([3; 0; 0; 13] ++ enc_tpdu ex_dr) 0 [])) no_addr no_addr None.

Lemma ex_dr_framed : has_tpdu (tb_in (cn_tb ex_refused)) 0 ex_dr [].
Proof.
  split; [|split; [vm_compute; reflexivity | split; [reflexivity | vm_compute; split; reflexivity || discriminate]]].
  split; [cbv; easy|]; split; [reflexivity|]; split; [apply forallb_bytes; reflexivity|]; split; [constructor|].
  split; [apply forallb_bytes; reflexivity | vm_compute; discriminate].
Qed.

Lemma TRetry_reply_witness : exists c', TRetry (H := plenty) 400 40 ex_refused 0 None true = Val (TrLost (Some 2) (Some [7; 8]), c') /\
  stream (cn_tb c') = [].
Proof.
  destruct (TRetry_reply plenty 400 40 ex_refused None true) as (R & _).
  - apply room_plenty; vm_compute; split; discriminate.
  - apply engine_in, (engine_same (TTService fresh_tb)); [|reflexivity].
    apply (fresh_conn no_addr no_addr); apply ex_addr; reflexivity.
  - apply ex_addr; reflexivity.
  - split; [reflexivity | apply forallb_bytes; reflexivity].
  - split; [apply forallb_bytes; reflexivity | left; reflexivity].
  - discriminate.
  - destruct (R 0 ex_dr [] ex_dr_framed) as (c' & E & _ & S); exists c'; split; [exact E | exact S].
Defined.
