(* ===== verification/Spkt.v ===== *)
(** * ssap: session protocol data units (spkt.h, newspkt of tsdu2spkt.c)

    The structure [ssapkt] that stands for an SPDU, its codes, masks and
    tables, and the octets of a list of parameters. *)

From S2P Require Import Prelude Conv Convert PElement PStream Qbuf.
Open Scope Z_scope.
Open Scope c_scope.

Definition SC_ACCEPT := -1.
Definition SC_CONGEST := 131.
Definition SC_PROTOCOL := 137.

(** ** Codes *)

Definition SPDU_CN := 13.
Definition SPDU_AC := 14.
Definition SPDU_RF := 12.
Definition SPDU_FN := 9.
Definition SPDU_DN := 10.
Definition SPDU_NF := 8.
Definition SPDU_AB := 25.
Definition SPDU_AA := 26.
Definition SPDU_GT := 1.
Definition SPDU_DT := SPDU_GT.
Definition SPDU_EX := 5.
Definition SPDU_TD := 33.
Definition SPDU_CD := 61.
Definition SPDU_CDA := 62.
Definition SPDU_PT := 2.
Definition SPDU_GTC := 21.
Definition SPDU_GTA := 22.
Definition SPDU_MIP := 49.
Definition SPDU_MIA := 50.
Definition SPDU_MAP := 41.
Definition SPDU_MAA := 42.
Definition SPDU_RS := 53.
Definition SPDU_RA := 34.
Definition SPDU_PR := 7.
Definition SPDU_ER := 0.
Definition SPDU_ED := 48.
Definition SPDU_AS := 45.
Definition SPDU_AR := 29.
Definition SPDU_AI := SPDU_AB.
Definition SPDU_AD := 57.
Definition SPDU_ADA := 58.

(** ** Masks *)

Definition SMASK_CN_REF := 1.
Definition SMASK_CN_OPT := 2.
Definition SMASK_CN_TSDU := 4.
Definition SMASK_CN_VRSN := 8.
Definition SMASK_CN_ISN := 16.
Definition SMASK_CN_SET := 32.
Definition SMASK_AC_TOKEN := 64.
Definition SMASK_CN_REQ := 128.
Definition SMASK_CN_CALLING := 256.
Definition SMASK_CN_CALLED := 512.
Definition SMASK_RF_REF := 1.
Definition SMASK_RF_DISC := 2.
Definition SMASK_RF_REQ := 4.
Definition SMASK_RF_VRSN := 8.
Definition SMASK_FN_DISC := 1.
Definition SMASK_AB_DISC := 1.
Definition SMASK_AB_REFL := 2.
Definition SMASK_SPDU_AB := 4.
Definition SMASK_SPDU_AA := 1.
Definition SMASK_GT_TOKEN := 1.
Definition SMASK_SPDU_EXPD := 32768.
Definition SMASK_SPDU_GT := 2.
Definition SMASK_PT_TOKEN := 1.
Definition SMASK_MIP_SYNC := 1.
Definition SMASK_MIP_SERIAL := 2.
Definition SMASK_MIA_SERIAL := 1.
Definition SMASK_MAP_SYNC := 1.
Definition SMASK_MAP_SERIAL := 2.
Definition SMASK_MAA_SERIAL := 1.
Definition SMASK_RS_SET := 1.
Definition SMASK_RS_TYPE := 2.
Definition SMASK_RS_SSN := 4.
Definition SMASK_RA_SET := 1.
Definition SMASK_RA_SSN := 2.
Definition SMASK_PR_TYPE := 1.
Definition SMASK_ED_REASON := 1.
Definition SMASK_AS_ID := 1.
Definition SMASK_AR_REF := 1.
Definition SMASK_AR_OID := 2.
Definition SMASK_AR_SSN := 4.
Definition SMASK_AR_ID := 8.
Definition SMASK_AI_REASON := 1.
Definition SMASK_AD_REASON := 1.
Definition SMASK_ENCLOSE := 8192.
Definition SMASK_UDATA_PGI := 16384.

Definition CR_OPT_MASK := 1.
Definition RF_DISC_MASK := 1.
Definition FN_DISC_MASK := 1.
Definition AB_DISC_MASK := 15.
Definition MIP_SYNC_MASK := 1.
Definition MAP_SYNC_MASK := 1.
Definition ENCL_MASK := 3.
Definition PR_MAX := 4.
Definition AB_REFL_SIZE := 9.
Definition RF_SIZE := 513.
Definition CN_SIZE := 512.
Definition CONNECT_MAX := 10240.
Definition SEGMENT_MAX := 65528.
Definition SREF_USER_SIZE := 64.
Definition SREF_COMM_SIZE := 64.
Definition SREF_ADDT_SIZE := 4.
Definition SID_DATA_SIZE := 6.
Definition SSSIZE := 64.
Definition SIZE_CN_ISN := 6.
Definition SERIAL_MAX := 999998.

(** [SYNC_OK] and [SP_OK] *)
Definition SYNC_OK (r : Z) : bool := r <=? 2.
Definition SP_OK (r : Z) : bool := ((r <? 6) && negb (r =? 2) && negb (r =? 4)) || (r =? 128).

(** ** Parameters *)

Definition PGI_CN_ID := 1.
Definition PI_CALLED_SS := 9.
Definition PI_CALLING_SS := 10.
Definition PI_COMMON_REF := 11.
Definition PI_ADD_INFO := 12.
Definition PGI_CN_ITEMS := 5.
Definition PI_PROTOCOL_OPT := 19.
Definition PI_TSDU_MAXSIZ := 21.
Definition PI_VERSION := 22.
Definition PI_ISN := 23.
Definition PI_TOKEN_SET := 26.
Definition PI_ISN2 := 55.
Definition PI_SYNC := 15.
Definition PI_TOKEN := 16.
Definition PI_TDISC := 17.
Definition PI_USER_REQ := 20.
Definition PI_PREPARE := 24.
Definition PI_ENCLOSE := 25.
Definition PI_RESYNC := 27.
Definition PGI_AR_LINK := 33.
Definition PI_AR_CALLED := 9.
Definition PI_AR_CALLING := 10.
Definition PI_AR_COMMON := 11.
Definition PI_AR_ADDT := 12.
Definition PI_ACT_ID := 41.
Definition PI_SERIAL := 42.
Definition PI_MIA_DATA := 46.
Definition PI_REFLECT := 49.
Definition PI_REASON := 50.
Definition PI_SSAP_CALLING := 51.
Definition PI_SSAP_CALLED := 52.
Definition PI_UDATA := 193.
Definition PI_XDATA := 194.

(** The bits of the two tables that follow. *)
Definition PMASK_CN_ID := 1.
Definition PMASK_CN_ITEMS := 2.
Definition PMASK_SYNC := 4.
Definition PMASK_TOKEN := 8.
Definition PMASK_TDISC := 16.
Definition PMASK_USER_REQ := 32.
Definition PMASK_VERSION := 64.
Definition PMASK_PREPARE := 128.
Definition PMASK_ENCLOSE := 256.
Definition PMASK_TOKEN_SET := 512.
Definition PMASK_RESYNC := 1024.
Definition PMASK_LINK := 2048.
Definition PMASK_ACT_ID := 4096.
Definition PMASK_SERIAL := 8192.
Definition PMASK_MIA_DATA := 16384.
Definition PMASK_REFLECT := 32768.
Definition PMASK_REASON := 65536.
Definition PMASK_SSAP_CALLING := 131072.
Definition PMASK_SSAP_CALLED := 262144.
Definition PMASK_UDATA := 524288.
Definition PMASK_XDATA := 1048576.
Definition PMASK_PGI := 4194304.
Definition PMASK_VARLEN := 8388608.
Definition PMASK_NOTSUPPORTED := -1.

Definition ors (l : list Z) : Z := fold_right Z.lor 0 l.

(** The parameters each SPDU may have. *)
Definition si_table : list Z :=
  let no := PMASK_NOTSUPPORTED in
  [ PMASK_REFLECT;
    ors [PMASK_ENCLOSE; PMASK_TOKEN; PMASK_UDATA];
    ors [PMASK_TOKEN; PMASK_ENCLOSE; PMASK_UDATA];
    no; no;
    0;
    no;
    PMASK_PREPARE;
    ors [PMASK_ENCLOSE; PMASK_UDATA];
    ors [PMASK_TDISC; PMASK_ENCLOSE; PMASK_UDATA];
    ors [PMASK_ENCLOSE; PMASK_UDATA];
    no;
    ors [PMASK_CN_ID; PMASK_TDISC; PMASK_USER_REQ; PMASK_VERSION; PMASK_ENCLOSE; PMASK_REASON];
    ors [PMASK_CN_ID; PMASK_CN_ITEMS; PMASK_USER_REQ; PMASK_VERSION; PMASK_SSAP_CALLING; PMASK_SSAP_CALLED; PMASK_UDATA; PMASK_XDATA];
    ors [PMASK_CN_ID; PMASK_CN_ITEMS; PMASK_USER_REQ; PMASK_VERSION; PMASK_SSAP_CALLING; PMASK_TOKEN; PMASK_ENCLOSE; PMASK_SSAP_CALLED; PMASK_UDATA];
    no; no; no; no; no; no;
    0;
    0;
    no; no;
    ors [PMASK_TDISC; PMASK_REFLECT; PMASK_REASON; PMASK_ENCLOSE; PMASK_UDATA];
    0;
    no; no;
    ors [PMASK_LINK; PMASK_ACT_ID; PMASK_ENCLOSE; PMASK_SERIAL; PMASK_UDATA];
    no; no; no;
    PMASK_ENCLOSE;
    ors [PMASK_TOKEN_SET; PMASK_ENCLOSE; PMASK_SERIAL; PMASK_UDATA];
    no; no; no; no; no; no;
    ors [PMASK_SYNC; PMASK_ENCLOSE; PMASK_SERIAL; PMASK_UDATA];
    ors [PMASK_ENCLOSE; PMASK_SERIAL; PMASK_UDATA];
    no; no;
    ors [PMASK_ENCLOSE; PMASK_ACT_ID; PMASK_UDATA];
    no; no;
    ors [PMASK_ENCLOSE; PMASK_REASON; PMASK_UDATA];
    ors [PMASK_SYNC; PMASK_ENCLOSE; PMASK_SERIAL; PMASK_UDATA];
    ors [PMASK_ENCLOSE; PMASK_SERIAL; PMASK_MIA_DATA];
    no; no;
    ors [PMASK_TOKEN_SET; PMASK_ENCLOSE; PMASK_RESYNC; PMASK_SERIAL; PMASK_UDATA];
    no; no; no;
    PMASK_REASON;
    0;
    no; no;
    ors [PMASK_ENCLOSE; PMASK_UDATA];
    ors [PMASK_ENCLOSE; PMASK_UDATA] ].

Definition SI_TABLE_LEN : Z := zlen si_table.

(** The parameters: the bits of the table above that allow one, whether its
    length may vary and whether it is a group. *)
Definition pi_table : list Z :=
  let ref := ors [PMASK_VARLEN; PMASK_CN_ID; PMASK_LINK] in
  [ 0;
    ors [PMASK_VARLEN; PMASK_CN_ID; PMASK_PGI];
    0; 0; 0;
    ors [PMASK_VARLEN; PMASK_CN_ITEMS; PMASK_PGI];
    0; 0; 0;
    ref; ref; ref; ref;
    0; 0;
    PMASK_SYNC;
    PMASK_TOKEN;
    PMASK_TDISC;
    0;
    PMASK_CN_ITEMS;
    PMASK_USER_REQ;
    ors [PMASK_VARLEN; PMASK_CN_ITEMS];
    PMASK_VERSION;
    ors [PMASK_VARLEN; PMASK_CN_ITEMS];
    PMASK_PREPARE;
    PMASK_ENCLOSE;
    ors [PMASK_CN_ITEMS; PMASK_TOKEN_SET];
    PMASK_RESYNC;
    0; 0; 0; 0; 0;
    ors [PMASK_VARLEN; PMASK_LINK; PMASK_PGI];
    0; 0; 0; 0; 0; 0; 0;
    ors [PMASK_VARLEN; PMASK_ACT_ID];
    ors [PMASK_VARLEN; PMASK_SERIAL];
    0; 0; 0;
    ors [PMASK_VARLEN; PMASK_MIA_DATA];
    0; 0;
    ors [PMASK_VARLEN; PMASK_REFLECT];
    ors [PMASK_VARLEN; PMASK_REASON];
    ors [PMASK_VARLEN; PMASK_SSAP_CALLING];
    ors [PMASK_VARLEN; PMASK_SSAP_CALLED];
    0; 0;
    ors [PMASK_VARLEN; PMASK_CN_ITEMS] ].

Definition PI_TABLE_LEN : Z := zlen pi_table.

Definition pi_length : list Z :=
  [ 0;
    SREF_USER_SIZE + SREF_COMM_SIZE + SREF_ADDT_SIZE + 6;
    0; 0; 0;
    1 + 4 + 1 + 6 + 1 + 10;
    0; 0; 0;
    SREF_USER_SIZE; SREF_USER_SIZE; SREF_COMM_SIZE; SREF_ADDT_SIZE;
    0; 0;
    1; 1; 1;
    0;
    1; 2; 4; 1; SIZE_CN_ISN; 1; 1; 1; 1;
    0; 0; 0; 0; 0;
    2 * SREF_USER_SIZE + SREF_COMM_SIZE + SREF_ADDT_SIZE + SID_DATA_SIZE + SIZE_CN_ISN + 6 * 2;
    0; 0; 0; 0; 0; 0; 0;
    SID_DATA_SIZE;
    SIZE_CN_ISN;
    0; 0; 0;
    SEGMENT_MAX;
    0; 0;
    SEGMENT_MAX;
    RF_SIZE;
    SSSIZE;
    SSSIZE;
    0; 0;
    SIZE_CN_ISN ].

Definition tbl (t : list Z) (i : Z) : Z := nth (Z.to_nat i) t 0.

(** ** The structure

    [s_un] of the structure is a union with a member for each SPDU. An SPDU
    uses its own member only, so that the members are one function from the
    names of their fields: the integers, and the arrays with the count of
    the octets in use. *)

Inductive snum : Type :=
| N_options | N_tsdu_init | N_tsdu_resp | N_cn_version | N_isn | N_settings | N_ac_token | N_cn_require
| N_rf_disconnect | N_rf_require | N_rf_version | N_fn_disconnect | N_ab_disconnect | N_gt_token | N_pt_token
| N_mip_sync | N_mip_serial | N_mia_serial | N_map_sync | N_map_serial | N_maa_serial
| N_rs_settings | N_rs_type | N_rs_serial | N_ra_settings | N_ra_serial | N_pr_type | N_ed_reason
| N_ar_serial | N_ai_reason | N_ad_reason | N_enclose.

(** [sr_udata] of a reference, or [sr_calling]; [sr_cdata]; [sr_adata]; and
    [sr_vdata], or [sr_called], of AR. *)
Inductive sarr : Type :=
| A_cn_user | A_cn_comm | A_cn_addt | A_rf_user | A_rf_comm | A_rf_addt
| A_ar_calling | A_ar_called | A_ar_comm | A_ar_addt
| A_calling | A_called | A_as_id | A_ar_oid | A_ar_id.

Definition snum_eq_dec (a b : snum) : {a = b} + {a <> b}.
Proof. decide equality. Defined.

Definition sarr_eq_dec (a b : sarr) : {a = b} + {a <> b}.
Proof. decide equality. Defined.

Record counted : Type := Cnt { c_len : Z; c_data : list Z }.

(** The size of an array. *)
Definition sarr_size (a : sarr) : Z :=
  match a with
  | A_cn_addt | A_rf_addt | A_ar_addt => SREF_ADDT_SIZE
  | A_as_id | A_ar_oid | A_ar_id => SID_DATA_SIZE
  | _ => SREF_USER_SIZE
  end.

Record ssapkt : Type := Spkt {
  s_errno : Z; s_mask : Z; s_code : Z; s_li : Z;
  s_num : snum -> Z; s_arr : sarr -> counted; s_reflect : list Z;
  s_rdata : option (list Z); s_rlen : Z;
  s_udata : option (list Z); s_ulen : Z
}.

Definition set_s_errno (s : ssapkt) (v : Z) : ssapkt :=
  Spkt v (s_mask s) (s_code s) (s_li s) (s_num s) (s_arr s) (s_reflect s) (s_rdata s) (s_rlen s) (s_udata s) (s_ulen s).
Definition set_s_li (s : ssapkt) (v : Z) : ssapkt :=
  Spkt (s_errno s) (s_mask s) (s_code s) v (s_num s) (s_arr s) (s_reflect s) (s_rdata s) (s_rlen s) (s_udata s) (s_ulen s).
(** [Set (flag)] *)
Definition Set_ (s : ssapkt) (f : Z) : ssapkt :=
  Spkt (s_errno s) (Z.lor (s_mask s) f) (s_code s) (s_li s) (s_num s) (s_arr s) (s_reflect s) (s_rdata s) (s_rlen s) (s_udata s) (s_ulen s).
Definition set_num (s : ssapkt) (n : snum) (v : Z) : ssapkt :=
  Spkt (s_errno s) (s_mask s) (s_code s) (s_li s) (fun m => if snum_eq_dec n m then v else s_num s m) (s_arr s) (s_reflect s)
    (s_rdata s) (s_rlen s) (s_udata s) (s_ulen s).
Definition set_arr (s : ssapkt) (a : sarr) (v : counted) : ssapkt :=
  Spkt (s_errno s) (s_mask s) (s_code s) (s_li s) (s_num s) (fun b => if sarr_eq_dec a b then v else s_arr s b) (s_reflect s)
    (s_rdata s) (s_rlen s) (s_udata s) (s_ulen s).
Definition set_reflect (s : ssapkt) (v : list Z) : ssapkt :=
  Spkt (s_errno s) (s_mask s) (s_code s) (s_li s) (s_num s) (s_arr s) v (s_rdata s) (s_rlen s) (s_udata s) (s_ulen s).
Definition set_rdata (s : ssapkt) (v : option (list Z)) (n : Z) : ssapkt :=
  Spkt (s_errno s) (s_mask s) (s_code s) (s_li s) (s_num s) (s_arr s) (s_reflect s) v n (s_udata s) (s_ulen s).
Definition set_udata (s : ssapkt) (v : option (list Z)) (n : Z) : ssapkt :=
  Spkt (s_errno s) (s_mask s) (s_code s) (s_li s) (s_num s) (s_arr s) (s_reflect s) (s_rdata s) (s_rlen s) v n.

(** [If_Set (flag)] *)
Definition is_set (s : ssapkt) (f : Z) : bool := negb (Z.land (s_mask s) f =? 0).

Definition new_spkt (code : Z) : ssapkt :=
  Spkt 0 0 code 0 (fun _ => 0) (fun a => Cnt 0 (repeat 0 (Z.to_nat (sarr_size a)))) (repeat 0 9) None 0 None 0.

Definition newspkt `{Allocator} (sizeof_spkt code : Z) : option ssapkt :=
  if malloc_ok sizeof_spkt then match int2u8 code with Some c => Some (new_spkt c) | None => None end else None.

(** ** The octets of a list of parameters *)

Definition spi : Type := Z * list Z.

(** A parameter, or a group of parameters. *)
Inductive sitem : Type :=
| Pi (p : spi)
| Pgi (code : Z) (l : list spi).

Definition enc_li (n : Z) : list Z := if n <? 255 then [n] else [255; Z.land (Z.shiftr n 8) 255; Z.land n 255].

Definition enc_pi (p : spi) : list Z := fst p :: enc_li (zlen (snd p)) ++ snd p.

Definition enc_pis (l : list spi) : list Z := concat (map enc_pi l).

Definition enc_item (i : sitem) : list Z :=
  match i with
  | Pi p => enc_pi p
  | Pgi code l => code :: zlen (enc_pis l) :: enc_pis l
  end.

Definition enc_items (l : list sitem) : list Z := concat (map enc_item l).

Definition enc_spdu (code : Z) (l : list sitem) : list Z :=
  code :: enc_li (zlen (enc_items l)) ++ enc_items l.

Definition opt {A} (b : bool) (l : list A) : list A := if b then l else [].
