(* ===== verification/Spkt2tsdu.v ===== *)
(** * ssap: the writer of SPDUs (spkt2tsdu of tsdu2spkt.c)

    An SPDU is built in a block that [start_spdu] sizes beforehand: two or
    four octets for the code and the length, which [end_spdu] fills in, then
    the parameters. *)

From S2P Require Import Prelude Text Conv Convert PElement PStream Qbuf Spkt.
Open Scope Z_scope.
Open Scope c_scope.

(** ** The buffer

    [ptr] and [pgi] are offsets from [top]. A [len] of 0 says that the
    buffer is lost. *)

Record local_buf : Type := LB {
  lb_top : list Z; lb_ptr : Z; lb_pgi : Z; lb_left : Z; lb_li : Z; lb_allocli : Z; lb_len : Z
}.

Definition lb_fail (c : local_buf) : local_buf := LB (lb_top c) (lb_ptr c) (lb_pgi c) (lb_left c) (lb_li c) (lb_allocli c) 0.
Definition set_lb_left (c : local_buf) (v : Z) : local_buf := LB (lb_top c) (lb_ptr c) (lb_pgi c) v (lb_li c) (lb_allocli c) (lb_len c).
Definition set_lb_pgi (c : local_buf) (v : Z) : local_buf := LB (lb_top c) (lb_ptr c) v (lb_left c) (lb_li c) (lb_allocli c) (lb_len c).
Definition set_lb_top (c : local_buf) (v : list Z) : local_buf := LB v (lb_ptr c) (lb_pgi c) (lb_left c) (lb_li c) (lb_allocli c) (lb_len c).
Definition set_lb_len (c : local_buf) (v : Z) : local_buf := LB (lb_top c) (lb_ptr c) (lb_pgi c) (lb_left c) (lb_li c) (lb_allocli c) v.

(** What the buffer is before [start_spdu]. *)
Definition lb_none : local_buf := LB [] 0 0 0 0 0 0.

(** [store_u8] for a run of octets; [None] at the first that is none. *)
Fixpoint store_all (top : list Z) (i : Z) (l : list Z) : cres (option (list Z)) :=
  match l with
  | [] => Val (Some top)
  | n :: l' => match int2u8 n with None => Val None | Some v => top <- wr top i [v];; store_all top (i + 1) l' end
  end.

(** [for (p1 = c -> ptr, p2 = p1 + 2; cl; cl--) *p2-- = *p1--;] *)
Fixpoint move_up (cl : nat) (top : list Z) (p1 : Z) : cres (list Z) :=
  match cl with
  | O => Val top
  | S cl' => v <- rd top p1;; top <- wr top (p1 + 2) [v];; move_up cl' top (p1 - 1)
  end.

(** ** Steps

    A step puts something into the buffer. [WBreak] is the [break] of a
    missing parameter, for which [s_errno] is SC_PROTOCOL, and [WReturn] the
    [return NOTOK] with the same error. *)

Inductive wres : Type :=
| WGo (c : local_buf)
| WBreak (c : local_buf)
| WReturn.

Definition wstep : Type := local_buf -> cres wres.

Definition wseq (f g : wstep) : wstep := fun c =>
  r <- f c;; match r with WGo c => g c | r => Val r end.

Notation "f ;> g" := (wseq f g) (at level 96, right associativity).

Section Writer.
Context `{Allocator}.
(** What a new block of memory holds. *)
Variable fresh : Z -> list Z.

(** The part of [put2spdu] that makes room for [cl] octets. *)
Definition lb_grow (cl : Z) (c : local_buf) : cres (option local_buf) :=
  let cl := if lb_allocli c <? 255 then cl + 2 else cl in
  let len := lb_len c + cl in
  if malloc_ok (u32 len) then
    let top := lb_top c ++ fresh cl in
    let ptr := len - lb_left c in
    if lb_allocli c <? 255 then
      top <- move_up (Z.to_nat (len - lb_left c + 2)) top ptr;;
      Val (Some (LB top ptr (lb_pgi c + 2) (lb_left c - 2) (lb_li c) (lb_allocli c + cl) len))
    else Val (Some (LB top ptr (lb_pgi c) (lb_left c) (lb_li c) (lb_allocli c) len))
  else Val None.

Definition put2spdu (code li : Z) (value : list Z) (c : local_buf) : cres local_buf :=
  if lb_len c =? 0 then Val c
  else
    let cl := li + (if li <? 255 then 2 else 4) in
    r <- (if lb_left c >=? cl then Val (Some (set_lb_left c (lb_left c - cl))) else lb_grow cl c);;
    match r with
    | None => Val (lb_fail c)
    | Some c =>
        let hd := Z.land code 255 :: (if li <? 255 then [li] else [255; Z.land (Z.shiftr li 8) 255; Z.land li 255]) in
        r <- store_all (lb_top c) (lb_ptr c) hd;;
        match r with
        | None => Val (lb_fail c)
        | Some top =>
            let ptr := lb_ptr c + zlen hd in
            let sum := lb_li c + zlen hd + li in
            if li >? 0 then
              d <- bcopy_int (Some value) li;;
              match d with
              | None => Val (lb_fail c)
              | Some d => top <- wr top ptr d;; Val (LB top (ptr + li) (lb_pgi c) (lb_left c) sum (lb_allocli c) (lb_len c))
              end
            else Val (LB top (ptr + li) (lb_pgi c) (lb_left c) sum (lb_allocli c) (lb_len c))
        end
    end.

Definition start_pgi (code : Z) (c : local_buf) : cres local_buf :=
  c <- put2spdu code 0 [] c;;
  if lb_len c =? 0 then Val c
  else Val (match ptrdiff2int (lb_ptr c - 1) with Some d => set_lb_pgi c d | None => lb_fail c end).

Definition end_pgi (c : local_buf) : cres local_buf :=
  if lb_len c =? 0 then Val c
  else
    r <- store_all (lb_top c) (lb_pgi c) [lb_len c - lb_left c - (lb_pgi c + 1)];;
    Val (match r with Some top => set_lb_top c top | None => lb_fail c end).

(** ** start_spdu and end_spdu *)

Definition count_ref (u c a : Z) : Z :=
  (if u =? 0 then 0 else 2 + u) + (if c =? 0 then 0 else 2 + c) + (if a =? 0 then 0 else 2 + a).

(** The number of octets to make room for. *)
Definition base_size (s : ssapkt) (basesize : Z) : Z :=
  let code := s_code s in
  let data :=
    match s_udata s with
    | None => 0
    | Some _ =>
        if (code =? SPDU_DT) || (code =? SPDU_EX) || (code =? SPDU_TD) then 0
        else if s_ulen s =? 0 then 0 else s_ulen s + (if s_ulen s >? 254 then 4 else 2)
    end in
  let len a := c_len (s_arr s a) in
  let fields :=
    if (code =? SPDU_CN) || (code =? SPDU_AC) then
      (if is_set s SMASK_CN_REF then 2 + count_ref (len A_cn_user) (len A_cn_comm) (len A_cn_addt) else 0)
      + (if is_set s SMASK_CN_CALLING then len A_calling + 2 else 0)
      + (if is_set s SMASK_CN_CALLED then len A_called + 2 else 0)
    else if code =? SPDU_RF then
      (if is_set s SMASK_RF_REF then 2 + count_ref (len A_rf_user) (len A_rf_comm) (len A_rf_addt) else 0)
      + (if s_rlen s =? 0 then 0 else s_rlen s + (if s_rlen s >? 254 then 4 else 2))
    else if code =? SPDU_AR then
      2 + (if is_set s SMASK_AR_REF
           then count_ref (len A_ar_calling) (len A_ar_comm) (len A_ar_addt) + (if len A_ar_called =? 0 then 0 else 2 + len A_ar_called)
           else 0)
    else 0 in
  let size := basesize + data + fields in
  if size <? 254 then 254 else size.

(** The buffer and [s_errno]. *)
Definition start_spdu (s : ssapkt) (basesize : Z) : local_buf * Z :=
  let size := base_size s basesize in
  let len := size + (if size >? 254 then 4 else 2) in
  let hdr := if size >? 254 then 4 else 2 in
  if malloc_ok (u32 len) then (LB (fresh len) hdr 0 size 0 size len, SC_ACCEPT) else (LB [] hdr 0 size 0 size 0, SC_CONGEST).

Definition end_spdu (code : Z) (c : local_buf) : cres (Z * local_buf) :=
  if lb_len c =? 0 then Val (NOTOK, c)
  else
    let li := lb_li c in
    r <- (if lb_allocli c >? 254 then
            if li <? 255 then
              let nbytes := lb_len c - lb_left c in
              d <- bcopy_int (Some (zdrop 2 (lb_top c))) nbytes;;
              match d with
              | None => Val None
              | Some d =>
                  buf <- wr (fresh 256) 0 d;;
                  d <- bcopy_int (Some buf) nbytes;;
                  match d with
                  | None => Val None
                  | Some d =>
                      top <- wr (lb_top c) 0 d;;
                      r <- store_all top 1 [li];;
                      Val (match r with Some top => Some (set_lb_len (set_lb_top c top) (li + 2)) | None => None end)
                  end
              end
            else
              r <- store_all (lb_top c) 1 [255; Z.land (Z.shiftr li 8) 255; Z.land li 255];;
              Val (match r with Some top => Some (set_lb_len (set_lb_top c top) (li + 4)) | None => None end)
          else
            r <- store_all (lb_top c) 1 [li];;
            Val (match r with
                 | Some top => match ptrdiff2int (lb_ptr c) with Some len => Some (set_lb_len (set_lb_top c top) len) | None => None end
                 | None => None
                 end));;
    match r with
    | None => Val (NOTOK, c)
    | Some c => top <- wr (lb_top c) 0 [code];; Val (OK, set_lb_top c top)
    end.

(** ** What goes into each SPDU *)

Definition wdo (f : local_buf -> cres local_buf) : wstep := fun c => cmap WGo (f c).

Definition wif (b : bool) (f : wstep) : wstep := fun c => if b then f c else Val (WGo c).

(** [If_Reset (flag) { s -> s_errno = SC_PROTOCOL; break; }] *)
Definition wneed (b : bool) : wstep := fun c => Val (if b then WGo c else WBreak c).

Definition wfail (b : bool) : wstep := fun c => Val (if b then WReturn else WGo c).

Definition wput (code li : Z) (value : list Z) : wstep := wdo (put2spdu code li value).

Definition Put_Item (code : Z) (value : list Z) : wstep := wput code (tbl pi_length code) value.

(** A field of one octet, and one of two in network order. *)
Definition put_octet (s : ssapkt) (code : Z) (f : snum) : wstep := Put_Item code [s_num s f].

Definition octets2 (v : Z) : list Z := [Z.land (Z.shiftr v 8) 255; Z.land v 255].

Definition put_short (s : ssapkt) (code : Z) (f : snum) : wstep := Put_Item code (octets2 (s_num s f)).

Definition put_counted (s : ssapkt) (code : Z) (a : sarr) : wstep := wput code (c_len (s_arr s a)) (c_data (s_arr s a)).

Definition Put_SSN (code ssn : Z) : wstep :=
  wfail (ssn >? SERIAL_MAX + 1) ;> wput code (zlen (print_u ssn)) (print_u ssn).

Definition Put_UData (s : ssapkt) : wstep := fun c =>
  match s_udata s with Some d => wput PI_UDATA (s_ulen s) d c | None => Val (WGo c) end.

Definition Put_XData (s : ssapkt) (csize : Z) : wstep := fun c =>
  match s_udata s with Some d => wput (if s_ulen s >? csize then PI_XDATA else PI_UDATA) (s_ulen s) d c | None => Val (WGo c) end.

Definition Put_MData (s : ssapkt) : wstep := fun c =>
  match s_udata s with Some d => wput PI_MIA_DATA (s_ulen s) d c | None => Val (WGo c) end.

Definition put_nonempty (s : ssapkt) (code : Z) (a : sarr) : wstep := wif (negb (c_len (s_arr s a) =? 0)) (put_counted s code a).

Definition Put_Ref (s : ssapkt) (u c a : sarr) (code : Z) : wstep :=
  wdo (start_pgi PGI_CN_ID) ;>
  (put_nonempty s code u ;> put_nonempty s PI_COMMON_REF c ;> put_nonempty s PI_ADD_INFO a) ;>
  wdo end_pgi.

Definition put_enclose (s : ssapkt) : wstep := wif (is_set s SMASK_ENCLOSE) (put_octet s PI_ENCLOSE N_enclose).

(** [((s_tsdu_init & 0xffff) << 16) | (s_tsdu_resp & 0xffff)] of type [int]. *)
Definition tsdu_maxsize (s : ssapkt) : cres Z :=
  let i := Z.land (s_num s N_tsdu_init) 65535 in
  if i >? 32767 then UB else Val (Z.lor (Z.shiftl i 16) (Z.land (s_num s N_tsdu_resp) 65535)).

Definition put_tsdu (s : ssapkt) : wstep := fun c =>
  v <- tsdu_maxsize s;; Put_Item PI_TSDU_MAXSIZ (octets2 (Z.shiftr v 16) ++ octets2 v) c.

Definition put_cn_items (s : ssapkt) : wstep :=
  wif (is_set s (ors [SMASK_CN_OPT; SMASK_CN_TSDU; SMASK_CN_VRSN; SMASK_CN_ISN; SMASK_CN_SET]))
    (wdo (start_pgi PGI_CN_ITEMS) ;>
     (wif (is_set s SMASK_CN_OPT) (put_octet s PI_PROTOCOL_OPT N_options) ;>
      wif (is_set s SMASK_CN_TSDU) (put_tsdu s) ;>
      wif (is_set s SMASK_CN_VRSN) (put_octet s PI_VERSION N_cn_version) ;>
      wif (is_set s SMASK_CN_ISN) (Put_SSN PI_ISN (s_num s N_isn)) ;>
      wif (is_set s SMASK_CN_SET) (put_octet s PI_TOKEN_SET N_settings)) ;>
     wdo end_pgi).

Definition put_cn_rest (s : ssapkt) : wstep :=
  wif (is_set s SMASK_CN_REQ) (put_short s PI_USER_REQ N_cn_require) ;>
  wif (is_set s SMASK_CN_CALLING) (put_counted s PI_SSAP_CALLING A_calling) ;>
  wif (is_set s SMASK_CN_CALLED) (put_counted s PI_SSAP_CALLED A_called).

Definition put_cn (s : ssapkt) : wstep :=
  wif (is_set s SMASK_CN_REF) (Put_Ref s A_cn_user A_cn_comm A_cn_addt PI_CALLING_SS) ;>
  put_cn_items s ;> put_cn_rest s ;> Put_XData s CN_SIZE.

Definition put_ac (s : ssapkt) : wstep :=
  wif (is_set s SMASK_CN_REF) (Put_Ref s A_cn_user A_cn_comm A_cn_addt PI_CALLED_SS) ;>
  put_cn_items s ;> wif (is_set s SMASK_AC_TOKEN) (put_octet s PI_TOKEN N_ac_token) ;> put_cn_rest s ;>
  put_enclose s ;> Put_UData s.

Definition put_rf (s : ssapkt) : wstep :=
  wif (is_set s SMASK_RF_REF) (Put_Ref s A_rf_user A_rf_comm A_rf_addt PI_CALLED_SS) ;>
  wif (is_set s SMASK_RF_DISC) (put_octet s PI_TDISC N_rf_disconnect) ;>
  wif (is_set s SMASK_RF_REQ) (put_short s PI_USER_REQ N_rf_require) ;>
  wif (is_set s SMASK_RF_VRSN) (put_octet s PI_VERSION N_rf_version) ;>
  wfail (s_rlen s >? RF_SIZE) ;> put_enclose s ;>
  wif (s_rlen s >? 0) (wput PI_REASON (s_rlen s) (match s_rdata s with Some d => d | None => [] end)).

Definition put_fn (s : ssapkt) : wstep :=
  wif (is_set s SMASK_FN_DISC) (put_octet s PI_TDISC N_fn_disconnect) ;> put_enclose s ;> Put_UData s.

(** DN, NF, CD and CDA. *)
Definition put_plain (s : ssapkt) : wstep := put_enclose s ;> Put_UData s.

Definition put_ab (s : ssapkt) : wstep :=
  wneed (is_set s SMASK_AB_DISC) ;> put_octet s PI_TDISC N_ab_disconnect ;>
  wif (is_set s SMASK_AB_REFL) (wput PI_REFLECT AB_REFL_SIZE (s_reflect s)) ;> put_enclose s ;> Put_UData s.

Definition put_ai (s : ssapkt) : wstep := wif (is_set s SMASK_AI_REASON) (wput PI_REASON 1 [s_num s N_ai_reason]).

Definition put_gt (s : ssapkt) : wstep := wif (is_set s SMASK_GT_TOKEN) (put_octet s PI_TOKEN N_gt_token).

Definition put_pt (s : ssapkt) : wstep :=
  wif (is_set s SMASK_PT_TOKEN) (put_octet s PI_TOKEN N_pt_token) ;> put_enclose s ;> Put_UData s.

Definition put_mip (s : ssapkt) : wstep :=
  wif (is_set s SMASK_MIP_SYNC) (put_octet s PI_SYNC N_mip_sync) ;> wneed (is_set s SMASK_MIP_SERIAL) ;>
  Put_SSN PI_SERIAL (s_num s N_mip_serial) ;> put_enclose s ;> Put_UData s.

(** MAP and AE. *)
Definition put_map (s : ssapkt) : wstep :=
  wif (is_set s SMASK_MAP_SYNC) (put_octet s PI_SYNC N_map_sync) ;> wneed (is_set s SMASK_MAP_SERIAL) ;>
  Put_SSN PI_SERIAL (s_num s N_map_serial) ;> put_enclose s ;> Put_UData s.

Definition put_mia (s : ssapkt) : wstep :=
  wneed (is_set s SMASK_MIA_SERIAL) ;> Put_SSN PI_SERIAL (s_num s N_mia_serial) ;> put_enclose s ;> Put_MData s.

Definition put_maa (s : ssapkt) : wstep :=
  wneed (is_set s SMASK_MAA_SERIAL) ;> Put_SSN PI_SERIAL (s_num s N_maa_serial) ;> put_enclose s ;> Put_UData s.

Definition put_rs (s : ssapkt) : wstep :=
  wif (is_set s SMASK_RS_SET) (put_octet s PI_TOKEN_SET N_rs_settings) ;> wneed (is_set s SMASK_RS_TYPE) ;>
  put_octet s PI_RESYNC N_rs_type ;> wneed (is_set s SMASK_RS_SSN) ;> Put_SSN PI_SERIAL (s_num s N_rs_serial) ;>
  put_enclose s ;> Put_UData s.

Definition put_ra (s : ssapkt) : wstep :=
  wif (is_set s SMASK_RA_SET) (put_octet s PI_TOKEN_SET N_ra_settings) ;> wneed (is_set s SMASK_RA_SSN) ;>
  Put_SSN PI_SERIAL (s_num s N_ra_serial) ;> put_enclose s ;> Put_UData s.

Definition put_pr (s : ssapkt) : wstep := wneed (is_set s SMASK_PR_TYPE) ;> put_octet s PI_PREPARE N_pr_type.

Definition put_ed (s : ssapkt) : wstep :=
  wneed (is_set s SMASK_ED_REASON) ;> wput PI_REASON 1 [s_num s N_ed_reason] ;> put_enclose s ;> Put_UData s.

Definition put_as (s : ssapkt) : wstep :=
  wneed (is_set s SMASK_AS_ID) ;> put_counted s PI_ACT_ID A_as_id ;> put_enclose s ;> Put_UData s.

Definition put_ar_link (s : ssapkt) : wstep :=
  wdo (start_pgi PGI_AR_LINK) ;>
  (wif (is_set s SMASK_AR_REF)
     (put_nonempty s PI_AR_CALLED A_ar_called ;> put_nonempty s PI_AR_CALLING A_ar_calling ;>
      put_nonempty s PI_AR_COMMON A_ar_comm ;> put_nonempty s PI_AR_ADDT A_ar_addt) ;>
   wneed (is_set s SMASK_AR_OID) ;> put_counted s PI_ACT_ID A_ar_oid ;>
   wneed (is_set s SMASK_AR_SSN) ;> Put_SSN PI_SERIAL (s_num s N_ar_serial)) ;>
  wdo end_pgi.

Definition put_ar (s : ssapkt) : wstep :=
  put_ar_link s ;> wneed (is_set s SMASK_AR_ID) ;> put_counted s PI_ACT_ID A_ar_id ;> put_enclose s ;> Put_UData s.

Definition put_ad (s : ssapkt) : wstep := wif (is_set s SMASK_AD_REASON) (wput PI_REASON 1 [s_num s N_ad_reason]).

Definition put_nothing : wstep := fun c => Val (WGo c).

(** The [switch]: the base size and the steps, or [None] where nothing is
    started and the SPDU is refused. *)
Definition spdu_body (s : ssapkt) : option (Z * wstep) :=
  let code := s_code s in
  if code =? SPDU_CN then Some (56, put_cn s)
  else if code =? SPDU_AC then Some (62, put_ac s)
  else if code =? SPDU_RF then Some (13, put_rf s)
  else if code =? SPDU_FN then Some (6, put_fn s)
  else if code =? SPDU_DN then Some (3, put_plain s)
  else if code =? SPDU_NF then Some (3, put_plain s)
  else if code =? SPDU_AB then if is_set s SMASK_SPDU_AB then Some (17, put_ab s) else Some (3, put_ai s)
  else if code =? SPDU_AA then Some (0, put_nothing)
  else if code =? SPDU_GT then if is_set s SMASK_SPDU_GT then Some (3, put_gt s) else Some (3, put_enclose s)
  else if code =? SPDU_TD then Some (3, put_enclose s)
  else if code =? SPDU_EX then Some (0, put_nothing)
  else if code =? SPDU_CD then Some (3, put_plain s)
  else if code =? SPDU_CDA then Some (3, put_plain s)
  else if code =? SPDU_PT then Some (6, put_pt s)
  else if code =? SPDU_GTC then Some (0, put_nothing)
  else if code =? SPDU_GTA then Some (0, put_nothing)
  else if code =? SPDU_MIP then Some (14, put_mip s)
  else if code =? SPDU_MAP then Some (if is_set s SMASK_MAP_SYNC then 14 else 8, put_map s)
  else if code =? SPDU_MIA then Some (11, put_mia s)
  else if code =? SPDU_MAA then Some (11, put_maa s)
  else if code =? SPDU_RS then Some (17, put_rs s)
  else if code =? SPDU_RA then Some (14, put_ra s)
  else if code =? SPDU_PR then Some (3, put_pr s)
  else if code =? SPDU_ER then None
  else if code =? SPDU_ED then Some (6, put_ed s)
  else if code =? SPDU_AS then Some (11, put_as s)
  else if code =? SPDU_AR then Some (29, put_ar s)
  else if code =? SPDU_AD then Some (3, put_ad s)
  else if code =? SPDU_ADA then Some (0, put_nothing)
  else None.

(** The result, the block and its length in use, and the packet; the block
    is [None] where it is null or not set. *)
Definition spkt2tsdu (s : ssapkt) : cres (Z * option (list Z) * Z * ssapkt) :=
  match spdu_body s with
  | None => Val (NOTOK, None, 0, set_s_errno s SC_PROTOCOL)
  | Some (basesize, body) =>
      let '(c, errno) := start_spdu s basesize in
      r <- body c;;
      match r with
      | WReturn => Val (NOTOK, None, 0, set_s_errno s SC_PROTOCOL)
      | WGo c =>
          ' (rc, c) <- end_spdu (s_code s) c;;
          if (rc =? NOTOK) || negb (errno =? SC_ACCEPT) then
            Val (NOTOK, None, 0, set_s_errno s (if errno =? SC_ACCEPT then SC_CONGEST else errno))
          else if lb_li c <? 0 then Val (NOTOK, None, 0, set_s_errno s SC_CONGEST)
          else Val (OK, Some (lb_top c), lb_len c, set_s_li (set_s_errno s errno) (lb_li c))
      | WBreak c =>
          ' (_, c) <- end_spdu (s_code s) c;;
          Val (NOTOK, None, 0, set_s_errno s SC_PROTOCOL)
      end
  end.
End Writer.

(** * What is written *)

(** ** The parameters of a packet *)

Definition octets_of (s : ssapkt) (a : sarr) : list Z := ztake (c_len (s_arr s a)) (c_data (s_arr s a)).

Definition i_octet (s : ssapkt) (code : Z) (f : snum) : spi := (code, [s_num s f]).

Definition i_pair (code : Z) (v : list Z) : spi := (code, v).

Definition i_ssn (s : ssapkt) (code : Z) (f : snum) : spi := (code, print_u (s_num s f)).

Definition i_array (s : ssapkt) (code : Z) (a : sarr) : spi := (code, octets_of s a).

Definition i_nonempty (s : ssapkt) (code : Z) (a : sarr) : list spi := opt (negb (c_len (s_arr s a) =? 0)) [i_array s code a].

Definition i_enclose (s : ssapkt) : list sitem := opt (is_set s SMASK_ENCLOSE) [Pi (i_octet s PI_ENCLOSE N_enclose)].

(** The user data of the packet. *)
Definition user_octets (s : ssapkt) : list Z := match s_udata s with Some d => ztake (s_ulen s) d | None => [] end.

Definition i_udata (s : ssapkt) (code : Z) : list sitem := match s_udata s with Some _ => [Pi (code, user_octets s)] | None => [] end.

Definition i_tail (s : ssapkt) : list sitem := i_enclose s ++ i_udata s PI_UDATA.

Definition reason_octets (s : ssapkt) : list Z := match s_rdata s with Some d => ztake (s_rlen s) d | None => [] end.

Definition i_ref (s : ssapkt) (u c a : sarr) (code : Z) : sitem :=
  Pgi PGI_CN_ID (i_nonempty s code u ++ i_nonempty s PI_COMMON_REF c ++ i_nonempty s PI_ADD_INFO a).

Definition tsdu_octets (s : ssapkt) : list Z := octets2 (s_num s N_tsdu_init) ++ octets2 (s_num s N_tsdu_resp).

Definition i_cn_items (s : ssapkt) : list sitem :=
  opt (is_set s (ors [SMASK_CN_OPT; SMASK_CN_TSDU; SMASK_CN_VRSN; SMASK_CN_ISN; SMASK_CN_SET]))
    [Pgi PGI_CN_ITEMS
       (opt (is_set s SMASK_CN_OPT) [i_octet s PI_PROTOCOL_OPT N_options] ++
        opt (is_set s SMASK_CN_TSDU) [i_pair PI_TSDU_MAXSIZ (tsdu_octets s)] ++
        opt (is_set s SMASK_CN_VRSN) [i_octet s PI_VERSION N_cn_version] ++
        opt (is_set s SMASK_CN_ISN) [i_ssn s PI_ISN N_isn] ++
        opt (is_set s SMASK_CN_SET) [i_octet s PI_TOKEN_SET N_settings])].

Definition i_cn_rest (s : ssapkt) : list sitem :=
  opt (is_set s SMASK_CN_REQ) [Pi (PI_USER_REQ, octets2 (s_num s N_cn_require))] ++
  opt (is_set s SMASK_CN_CALLING) [Pi (i_array s PI_SSAP_CALLING A_calling)] ++
  opt (is_set s SMASK_CN_CALLED) [Pi (i_array s PI_SSAP_CALLED A_called)].

Definition i_ar_link (s : ssapkt) : sitem :=
  Pgi PGI_AR_LINK
    (opt (is_set s SMASK_AR_REF)
       (i_nonempty s PI_AR_CALLED A_ar_called ++ i_nonempty s PI_AR_CALLING A_ar_calling ++
        i_nonempty s PI_AR_COMMON A_ar_comm ++ i_nonempty s PI_AR_ADDT A_ar_addt) ++
     [] ++ [i_array s PI_ACT_ID A_ar_oid] ++ [] ++ [i_ssn s PI_SERIAL N_ar_serial]).

(** The parameters of each SPDU, in the order of the standard. *)
Definition spdu_items (s : ssapkt) : list sitem :=
  let code := s_code s in
  if code =? SPDU_CN then
    opt (is_set s SMASK_CN_REF) [i_ref s A_cn_user A_cn_comm A_cn_addt PI_CALLING_SS] ++ i_cn_items s ++ i_cn_rest s ++
    i_udata s (if s_ulen s >? CN_SIZE then PI_XDATA else PI_UDATA)
  else if code =? SPDU_AC then
    opt (is_set s SMASK_CN_REF) [i_ref s A_cn_user A_cn_comm A_cn_addt PI_CALLED_SS] ++ i_cn_items s ++
    opt (is_set s SMASK_AC_TOKEN) [Pi (i_octet s PI_TOKEN N_ac_token)] ++ i_cn_rest s ++ i_tail s
  else if code =? SPDU_RF then
    opt (is_set s SMASK_RF_REF) [i_ref s A_rf_user A_rf_comm A_rf_addt PI_CALLED_SS] ++
    opt (is_set s SMASK_RF_DISC) [Pi (i_octet s PI_TDISC N_rf_disconnect)] ++
    opt (is_set s SMASK_RF_REQ) [Pi (PI_USER_REQ, octets2 (s_num s N_rf_require))] ++
    opt (is_set s SMASK_RF_VRSN) [Pi (i_octet s PI_VERSION N_rf_version)] ++ [] ++ i_enclose s ++
    opt (s_rlen s >? 0) [Pi (PI_REASON, reason_octets s)]
  else if code =? SPDU_FN then opt (is_set s SMASK_FN_DISC) [Pi (i_octet s PI_TDISC N_fn_disconnect)] ++ i_tail s
  else if (code =? SPDU_DN) || (code =? SPDU_NF) || (code =? SPDU_CD) || (code =? SPDU_CDA) then i_tail s
  else if code =? SPDU_AB then
    if is_set s SMASK_SPDU_AB then
      [] ++ [Pi (i_octet s PI_TDISC N_ab_disconnect)] ++ opt (is_set s SMASK_AB_REFL) [Pi (PI_REFLECT, s_reflect s)] ++ i_tail s
    else opt (is_set s SMASK_AI_REASON) [Pi (i_octet s PI_REASON N_ai_reason)]
  else if code =? SPDU_GT then
    if is_set s SMASK_SPDU_GT then opt (is_set s SMASK_GT_TOKEN) [Pi (i_octet s PI_TOKEN N_gt_token)] else i_enclose s
  else if code =? SPDU_TD then i_enclose s
  else if code =? SPDU_PT then opt (is_set s SMASK_PT_TOKEN) [Pi (i_octet s PI_TOKEN N_pt_token)] ++ i_tail s
  else if code =? SPDU_MIP then
    opt (is_set s SMASK_MIP_SYNC) [Pi (i_octet s PI_SYNC N_mip_sync)] ++ [] ++ [Pi (i_ssn s PI_SERIAL N_mip_serial)] ++ i_tail s
  else if code =? SPDU_MAP then
    opt (is_set s SMASK_MAP_SYNC) [Pi (i_octet s PI_SYNC N_map_sync)] ++ [] ++ [Pi (i_ssn s PI_SERIAL N_map_serial)] ++ i_tail s
  else if code =? SPDU_MIA then [] ++ [Pi (i_ssn s PI_SERIAL N_mia_serial)] ++ i_enclose s ++ i_udata s PI_MIA_DATA
  else if code =? SPDU_MAA then [] ++ [Pi (i_ssn s PI_SERIAL N_maa_serial)] ++ i_tail s
  else if code =? SPDU_RS then
    opt (is_set s SMASK_RS_SET) [Pi (i_octet s PI_TOKEN_SET N_rs_settings)] ++ [] ++ [Pi (i_octet s PI_RESYNC N_rs_type)] ++ [] ++
    [Pi (i_ssn s PI_SERIAL N_rs_serial)] ++ i_tail s
  else if code =? SPDU_RA then
    opt (is_set s SMASK_RA_SET) [Pi (i_octet s PI_TOKEN_SET N_ra_settings)] ++ [] ++ [Pi (i_ssn s PI_SERIAL N_ra_serial)] ++ i_tail s
  else if code =? SPDU_PR then [] ++ [Pi (i_octet s PI_PREPARE N_pr_type)]
  else if code =? SPDU_ED then [] ++ [Pi (i_octet s PI_REASON N_ed_reason)] ++ i_tail s
  else if code =? SPDU_AS then [] ++ [Pi (i_array s PI_ACT_ID A_as_id)] ++ i_tail s
  else if code =? SPDU_AR then [i_ar_link s] ++ [] ++ [Pi (i_array s PI_ACT_ID A_ar_id)] ++ i_tail s
  else if code =? SPDU_AD then opt (is_set s SMASK_AD_REASON) [Pi (i_octet s PI_REASON N_ad_reason)]
  else [].

(** The SPDUs this implementation writes, with the parameters they must have. *)
Definition complete (s : ssapkt) : bool :=
  let code := s_code s in
  if code =? SPDU_AB then negb (is_set s SMASK_SPDU_AB) || is_set s SMASK_AB_DISC
  else if code =? SPDU_MIP then is_set s SMASK_MIP_SERIAL
  else if code =? SPDU_MAP then is_set s SMASK_MAP_SERIAL
  else if code =? SPDU_MIA then is_set s SMASK_MIA_SERIAL
  else if code =? SPDU_MAA then is_set s SMASK_MAA_SERIAL
  else if code =? SPDU_RS then is_set s SMASK_RS_TYPE && is_set s SMASK_RS_SSN
  else if code =? SPDU_RA then is_set s SMASK_RA_SSN
  else if code =? SPDU_PR then is_set s SMASK_PR_TYPE
  else if code =? SPDU_ED then is_set s SMASK_ED_REASON
  else if code =? SPDU_AS then is_set s SMASK_AS_ID
  else if code =? SPDU_AR then is_set s SMASK_AR_OID && is_set s SMASK_AR_SSN && is_set s SMASK_AR_ID
  else existsb (Z.eqb code) [SPDU_CN; SPDU_AC; SPDU_RF; SPDU_FN; SPDU_DN; SPDU_NF; SPDU_CD; SPDU_CDA; SPDU_AA; SPDU_GT; SPDU_TD;
                             SPDU_EX; SPDU_PT; SPDU_GTC; SPDU_GTA; SPDU_AD; SPDU_ADA].

Definition spdu_codes : list Z :=
  [SPDU_CN; SPDU_AC; SPDU_RF; SPDU_FN; SPDU_DN; SPDU_NF; SPDU_AB; SPDU_AA; SPDU_GT; SPDU_TD; SPDU_EX; SPDU_CD; SPDU_CDA; SPDU_PT; SPDU_GTC;
   SPDU_GTA; SPDU_MIP; SPDU_MAP; SPDU_MIA; SPDU_MAA; SPDU_RS; SPDU_RA; SPDU_PR; SPDU_ED; SPDU_AS; SPDU_AR; SPDU_AD; SPDU_ADA].

Lemma complete_code s : complete s = true -> In (s_code s) spdu_codes.
Proof.
  unfold complete; intros C.
  repeat match type of C with (if ?a =? ?b then _ else _) = true => destruct (Z.eqb_spec a b) as [->|_]; [unfold spdu_codes; simpl; tauto|] end.
  apply existsb_exists in C as (c & I & E); apply Z.eqb_eq in E as ->; unfold spdu_codes; simpl in I |- *; tauto.
Qed.

(** ** Packets with fields in their range *)

(** One more than the largest value of a field: the octets, the serial
    numbers, and the others, of which [tsdu_init] has to stay below 2^15 for
    its shift to the left to be defined. *)
Definition num_bound (f : snum) : Z :=
  match f with
  | N_isn | N_mip_serial | N_mia_serial | N_map_serial | N_maa_serial | N_rs_serial | N_ra_serial | N_ar_serial => SERIAL_MAX + 2
  | N_tsdu_init => 32768
  | N_tsdu_resp | N_cn_require | N_rf_require => 65536
  | _ => 256
  end.

Definition counted_ok (a : sarr) (v : counted) : Prop := 0 <= c_len v <= sarr_size a /\ zlen (c_data v) = sarr_size a /\ bytes (c_data v).

Definition data_fits (d : option (list Z)) (n : Z) : Prop :=
  match d with Some d => 0 < n <= SEGMENT_MAX /\ n <= zlen d /\ bytes d | None => n = 0 end.

Record spkt_ok (s : ssapkt) : Prop := {
  ok_num : forall f, 0 <= s_num s f < num_bound f;
  ok_arr : forall a, counted_ok a (s_arr s a);
  ok_reflect : zlen (s_reflect s) = AB_REFL_SIZE /\ bytes (s_reflect s);
  ok_rdata : data_fits (s_rdata s) (s_rlen s) /\ s_rlen s <= RF_SIZE;
  ok_udata : data_fits (s_udata s) (s_ulen s)
}.

Lemma zlen_octets_of s a : spkt_ok s -> zlen (octets_of s a) = c_len (s_arr s a) /\ 0 <= c_len (s_arr s a) <= sarr_size a.
Proof. intros O; destruct (ok_arr s O a) as (L & Z & _); split; [apply zlen_ztake; lia | exact L]. Qed.

Lemma zlen_print_ssn n : 0 <= n < SERIAL_MAX + 2 -> 1 <= zlen (print_u n) <= 6 /\ bytes (print_u n).
Proof.
  intros N; unfold SERIAL_MAX in N; unfold print_u; rewrite (utoa_fuel 6) by (cbn; lia).
  destruct (utoa_spec 6 n ltac:(cbn; lia) ltac:(lia)) as (D & Ne & L & _); split.
  - unfold zlen; destruct (utoa 6 n); [contradiction | cbn [length] in *; lia].
  - revert D; apply Forall_impl; unfold is_digit, is_byte; intros c C; apply andb_true_iff in C as (C1 & C2); apply Z.leb_le in C1, C2; lia.
Qed.

(** ** The octets of a list *)

Lemma enc_pis_app a b : enc_pis (a ++ b) = enc_pis a ++ enc_pis b.
Proof. unfold enc_pis; rewrite map_app; apply concat_app. Qed.

Lemma enc_pis_one p : enc_pis [p] = enc_pi p.
Proof. apply app_nil_r. Qed.

Lemma enc_items_app a b : enc_items (a ++ b) = enc_items a ++ enc_items b.
Proof. unfold enc_items; rewrite map_app; apply concat_app. Qed.

Lemma enc_items_one i : enc_items [i] = enc_item i.
Proof. apply app_nil_r. Qed.

Lemma zlen_enc_li n : zlen (enc_li n) = if n <? 255 then 1 else 3.
Proof. unfold enc_li; destruct (n <? 255); reflexivity. Qed.

Lemma zlen_enc_pi p : zlen (enc_pi p) = zlen (snd p) + (if zlen (snd p) <? 255 then 2 else 4).
Proof. unfold enc_pi; rewrite zlen_cons, zlen_app, zlen_enc_li; destruct (_ <? 255); lia. Qed.

(** Decides the comparisons of codes. *)
Ltac codes := lazy beta iota delta [Z.eqb Pos.eqb orb
  SPDU_CN SPDU_AC SPDU_RF SPDU_FN SPDU_DN SPDU_NF SPDU_AB
  SPDU_AA SPDU_GT SPDU_DT SPDU_EX SPDU_TD SPDU_CD SPDU_CDA SPDU_PT
  SPDU_GTC SPDU_GTA SPDU_MIP SPDU_MIA SPDU_MAP SPDU_MAA SPDU_RS SPDU_RA SPDU_PR SPDU_ER SPDU_ED SPDU_AS
  SPDU_AR SPDU_AI SPDU_AD SPDU_ADA].

(** AB or AI, GT or DT. *)
Ltac either := try match goal with
  | |- context [is_set ?s SMASK_SPDU_AB] => destruct (is_set s SMASK_SPDU_AB)
  | |- context [is_set ?s SMASK_SPDU_GT] => destruct (is_set s SMASK_SPDU_GT)
  end.

(** Projects the fields of a buffer. *)
Ltac lb := cbn [lb_top lb_ptr lb_pgi lb_left lb_li lb_allocli lb_len set_lb_left set_lb_pgi set_lb_top set_lb_len lb_fail].

Section Emit.
Context `{Allocator} (fresh : Z -> list Z).

(** ** What a step writes *)

(** A buffer with header [h] that holds [x] and has [rest] left. *)
Definition at_buf (h x rest : list Z) (pgi : Z) : local_buf :=
  LB (h ++ x ++ rest) (zlen h + zlen x) pgi (zlen rest) (zlen x) (zlen x + zlen rest) (zlen h + zlen x + zlen rest).

(** [f] writes [o], where it fits, and leaves [pgi] alone. *)
Definition puts (f : wstep) (o : list Z) : Prop := forall h x rest pgi, 0 < zlen h -> zlen o <= zlen rest ->
  f (at_buf h x rest pgi) = Val (WGo (at_buf h (x ++ o) (zdrop (zlen o) rest) pgi)).

(** [f] writes [o], where it fits. *)
Definition emits (f : wstep) (o : list Z) : Prop := forall h x rest pgi, 0 < zlen h -> zlen h + zlen x + zlen rest <= INT_MAX -> zlen o <= zlen rest ->
  exists pgi', f (at_buf h x rest pgi) = Val (WGo (at_buf h (x ++ o) (zdrop (zlen o) rest) pgi')).

Lemma puts_emits f o : puts f o -> emits f o.
Proof. intros P h x rest pgi Zh _ L; exists pgi; apply P; assumption. Qed.

Lemma puts_seq f g a b : puts f a -> puts g b -> puts (f ;> g) (a ++ b).
Proof.
  intros F G h x rest pgi Zh L; rewrite zlen_app in L; pose proof (zlen_nonneg a); pose proof (zlen_nonneg b); unfold wseq; rewrite F by lia; cbn [cbind].
  rewrite G by (rewrite ?zlen_zdrop; lia); rewrite <- app_assoc, zdrop_zdrop, zlen_app, (Z.add_comm (zlen b)) by lia; reflexivity.
Qed.

Lemma emits_seq f g a b : emits f a -> emits g b -> emits (f ;> g) (a ++ b).
Proof.
  intros F G h x rest pgi Zh M L; rewrite zlen_app in L; pose proof (zlen_nonneg a); pose proof (zlen_nonneg b); unfold wseq.
  destruct (F h x rest pgi Zh M ltac:(lia)) as (p & ->); cbn [cbind].
  destruct (G h (x ++ a) (zdrop (zlen a) rest) p Zh) as (q & ->); [rewrite zlen_app, zlen_zdrop; lia | rewrite zlen_zdrop; lia|].
  exists q; rewrite <- app_assoc, zdrop_zdrop, zlen_app, (Z.add_comm (zlen b)) by lia; reflexivity.
Qed.

Lemma puts_nil f : (forall c, f c = Val (WGo c)) -> puts f [].
Proof. intros F h x rest pgi _ _; rewrite F, app_nil_r, zdrop_0 by (change (zlen (@nil Z)) with 0; lia); reflexivity. Qed.

Lemma puts_if b f o : (b = true -> puts f o) -> puts (wif b f) (if b then o else []).
Proof. unfold wif; destruct b; intros F; [apply F; reflexivity | apply puts_nil; reflexivity]. Qed.

Lemma emits_if b f o : (b = true -> emits f o) -> emits (wif b f) (if b then o else []).
Proof. unfold wif; destruct b; intros F; [apply F; reflexivity | apply puts_emits, puts_nil; reflexivity]. Qed.

Lemma puts_need b : b = true -> puts (wneed b) [].
Proof. intros ->; apply puts_nil; reflexivity. Qed.

Lemma puts_fail b : b = false -> puts (wfail b) [].
Proof. intros ->; apply puts_nil; reflexivity. Qed.

(** A run of octets stored in front of [rest]. *)
Lemma store_all_app l : forall (a b : list Z) rest, zlen b = zlen l -> bytes l ->
  store_all (a ++ b ++ rest) (zlen a) l = Val (Some (a ++ l ++ rest)).
Proof.
  induction l as [|n l IH]; intros a b rest L B.
  - apply zlen_0 in L as ->; reflexivity.
  - destruct b as [|y b]; [rewrite zlen_nil, zlen_cons in L; pose proof (zlen_nonneg l); lia|].
    rewrite !zlen_cons in L; inversion B; subst; cbn [store_all]; rewrite int2u8_Some by assumption.
    pose proof (zlen_nonneg a); pose proof (zlen_nonneg b); pose proof (zlen_nonneg rest).
    rewrite wr_in by (rewrite ?zlen_app, ?zlen_cons, ?zlen_nil; lia); cbn [cbind]; rewrite ztake_app_exact by reflexivity.
    rewrite zlen_one, zdrop_app_r by lia; replace (zlen a + 1 - zlen a) with 1 by lia; cbn [app]; change (zdrop 1 (y :: b ++ rest)) with (b ++ rest).
    replace (zlen a + 1) with (zlen (a ++ [n])) by (rewrite zlen_app, zlen_one; reflexivity).
    change (a ++ n :: b ++ rest) with (a ++ [n] ++ b ++ rest); rewrite app_assoc, IH by (assumption || lia); rewrite <- app_assoc; reflexivity.
Qed.

Lemma enc_li_bytes n : 0 <= n < 65536 -> bytes (enc_li n).
Proof.
  intros N; unfold enc_li; destruct (Z.ltb_spec n 255); repeat constructor; rewrite ?shr8, ?land_ff; try lia; try (apply Z.mod_pos_bound; lia).
Qed.
Lemma wr_app a b rest d i : i = zlen a -> zlen b = zlen d -> wr (a ++ b ++ rest) i d = Val (a ++ d ++ rest).
Proof.
  intros -> L; pose proof (zlen_nonneg a); pose proof (zlen_nonneg d); pose proof (zlen_nonneg rest); rewrite wr_in by (rewrite ?zlen_app; lia).
  rewrite ztake_app_exact, zdrop_app_r by lia; replace (zlen a + zlen d - zlen a) with (zlen b) by lia; rewrite zdrop_app_exact by reflexivity; reflexivity.
Qed.

(** One parameter. *)
Lemma put2spdu_puts code li v : is_byte code -> 0 <= li < 65536 -> li <= zlen v -> puts (wput fresh code li v) (enc_pi (code, ztake li v)).
Proof.
  intros C L V h x rest pgi Zh R; pose proof (zlen_ztake li v ltac:(lia)) as Zt.
  rewrite zlen_enc_pi in *; unfold enc_pi; cbn [fst snd] in *; rewrite Zt in *; unfold wput, wdo, put2spdu, at_buf; lb.
  pose proof (zlen_nonneg x); pose proof (zlen_nonneg rest); rewrite (proj2 (Z.eqb_neq _ 0)) by lia.
  set (cl := li + _) in *; replace (zlen rest >=? cl) with true by (symmetry; apply Z.geb_le; exact R); cbn [cbind]; lb.
  assert (C0 : li + 2 <= cl) by (unfold cl; destruct (li <? 255); lia).
  set (hd := Z.land code 255 :: _).
  assert (Hd : hd = code :: enc_li li) by (unfold hd, enc_li; rewrite land_ff, Z.mod_small by exact C; destruct (li <? 255); reflexivity).
  assert (Lh : zlen hd = cl - li) by (rewrite Hd, zlen_cons, zlen_enc_li; unfold cl; destruct (li <? 255); lia).
  assert (Bh : bytes hd) by (rewrite Hd; constructor; [exact C | apply enc_li_bytes; lia]).
  change (code :: enc_li li ++ ztake li v) with ((code :: enc_li li) ++ ztake li v); rewrite <- Hd in *; clearbody hd; clear Hd.
  rewrite app_assoc; rewrite <- (ztake_zdrop (cl - li) rest) at 1; replace (zlen h + zlen x) with (zlen (h ++ x)) by apply zlen_app.
  rewrite store_all_app by (rewrite ?zlen_ztake; assumption || lia); cbn [cbind]; lb.
  rewrite <- (ztake_zdrop li (zdrop (cl - li) rest)), zdrop_zdrop, zlen_app by lia; replace (li + (cl - li)) with cl by lia.
  set (rest' := zdrop cl rest); assert (Zr : zlen rest' = zlen rest - cl) by (apply zlen_zdrop; lia).
  destruct (Z.gtb_spec li 0) as [P|P].
  - unfold bcopy_int; rewrite int2sizet_Some by lia; unfold rdn_ptr; rewrite rdn_in, zdrop_0 by lia; cbn [cbind cmap].
    assert (Zb : zlen (ztake li (zdrop (cl - li) rest)) = li) by (apply zlen_ztake; rewrite zlen_zdrop; lia).
    rewrite (app_assoc (h ++ x)), wr_app by (rewrite ?zlen_app; lia); cbn [cbind cmap].
    do 3 f_equal; [rewrite <- !app_assoc; reflexivity|..]; rewrite ?zlen_app; lia.
  - assert (li = 0) by lia; subst li; rewrite !ztake_0 by lia; cbn [cmap cbind app].
    do 3 f_equal; [rewrite <- !app_assoc; reflexivity|..]; rewrite ?zlen_app; change (zlen (@nil Z)) with 0; lia.
Qed.
(** A group: its length is stored when its parameters are there. *)
Lemma emits_pgi code f o : is_byte code -> puts f o -> zlen o < 256 ->
  emits (wdo (start_pgi fresh code) ;> f ;> wdo end_pgi) (code :: zlen o :: o).
Proof.
  intros C F Lo h x rest pgi Zh M L; rewrite !zlen_cons in L; pose proof (zlen_nonneg x); pose proof (zlen_nonneg o).
  exists (zlen h + zlen x + 1); unfold wseq, wdo, start_pgi.
  pose proof (put2spdu_puts code 0 [] C ltac:(lia) ltac:(reflexivity) h x rest pgi Zh ltac:(change (zlen (enc_pi _)) with 2; lia)) as E.
  change (enc_pi (code, ztake 0 [])) with [code; 0] in E; change (zlen [code; 0]) with 2 in E.
  unfold wput, wdo, cmap in E; destruct (put2spdu _ _ _ _ _) as [c|]; [injection E as -> | discriminate]; cbn [cbind].
  assert (Z2 : zlen (x ++ [code; 0]) = zlen x + 2) by (rewrite zlen_app; reflexivity).
  assert (Zd : zlen (zdrop 2 rest) = zlen rest - 2) by (apply zlen_zdrop; lia).
  unfold at_buf at 1; cbn [lb_len]; rewrite Z2, Zd, (proj2 (Z.eqb_neq _ 0)) by lia; unfold at_buf at 1; cbn [lb_ptr]; rewrite Z2.
  rewrite ptrdiff2int_Some by (unfold is_int, INT_MIN; lia); cbn [cmap cbind].
  change (set_lb_pgi (at_buf h (x ++ [code; 0]) (zdrop 2 rest) pgi) (zlen h + (zlen x + 2) - 1)) with (at_buf h (x ++ [code; 0]) (zdrop 2 rest) (zlen h + (zlen x + 2) - 1)).
  rewrite F by (rewrite ?Zd; lia); cbn [cbind]; unfold end_pgi, at_buf; lb.
  rewrite zdrop_zdrop, !zlen_app, zlen_zdrop by lia; change (zlen [code; 0]) with 2; rewrite (proj2 (Z.eqb_neq _ 0)) by lia.
  set (v := _ - (_ + 1)); replace v with (zlen o) by (unfold v; lia); clear v.
  replace (h ++ ((x ++ [code; 0]) ++ o) ++ zdrop (zlen o + 2) rest) with ((h ++ x ++ [code]) ++ [0] ++ o ++ zdrop (zlen o + 2) rest) by (rewrite <- !app_assoc; reflexivity).
  replace (zlen h + (zlen x + 2) - 1) with (zlen (h ++ x ++ [code])) by (rewrite !zlen_app, zlen_one; lia).
  rewrite store_all_app by (reflexivity || (repeat constructor; lia)); cbn [cmap cbind]; unfold set_lb_top; lb.
  rewrite !zlen_cons; replace (zlen h + zlen x + 1) with (zlen (h ++ x ++ [code])) by (rewrite !zlen_app, zlen_one; lia).
  replace (1 + (1 + zlen o)) with (zlen o + 2) by lia; rewrite zlen_zdrop, !zlen_app, zlen_one by lia.
  do 3 f_equal; [rewrite <- !app_assoc; reflexivity|..]; lia.
Qed.
(** ** The same for lists of parameters *)

Lemma puts_pis_seq f g a b : puts f (enc_pis a) -> puts g (enc_pis b) -> puts (f ;> g) (enc_pis (a ++ b)).
Proof. rewrite enc_pis_app; apply puts_seq. Qed.

Lemma puts_pis_opt b f l : (b = true -> puts f (enc_pis l)) -> puts (wif b f) (enc_pis (opt b l)).
Proof. intros F; replace (enc_pis (opt b l)) with (if b then enc_pis l else []) by (destruct b; reflexivity); apply puts_if, F. Qed.

Lemma emits_items_seq f g a b : emits f (enc_items a) -> emits g (enc_items b) -> emits (f ;> g) (enc_items (a ++ b)).
Proof. rewrite enc_items_app; apply emits_seq. Qed.

Lemma emits_items_opt b f l : (b = true -> emits f (enc_items l)) -> emits (wif b f) (enc_items (opt b l)).
Proof. intros F; replace (enc_items (opt b l)) with (if b then enc_items l else []) by (destruct b; reflexivity); apply emits_if, F. Qed.

Lemma emits_pi f p : puts f (enc_pis [p]) -> emits f (enc_items [Pi p]).
Proof. rewrite enc_pis_one, enc_items_one; apply puts_emits. Qed.

Lemma emits_need b : b = true -> emits (wneed b) (enc_items []).
Proof. intros B; apply puts_emits, puts_need, B. Qed.

Lemma emits_fail b : b = false -> emits (wfail b) (enc_items []).
Proof. intros B; apply puts_emits, puts_fail, B. Qed.

Lemma emits_group code f l : is_byte code -> puts f (enc_pis l) -> zlen (enc_pis l) < 256 ->
  emits (wdo (start_pgi fresh code) ;> f ;> wdo end_pgi) (enc_items [Pgi code l]).
Proof. intros C F L; rewrite enc_items_one; cbn [enc_item]; apply emits_pgi; assumption. Qed.

(** ** The fields of a packet *)

Context (s : ssapkt) (Ok : spkt_ok s).

Lemma num_byte f : num_bound f = 256 -> is_byte (s_num s f).
Proof. intros B; pose proof (ok_num s Ok f); unfold is_byte; lia. Qed.

Lemma puts_octet code f : is_byte code -> tbl pi_length code = 1 -> num_bound f = 256 -> puts (put_octet fresh s code f) (enc_pis [i_octet s code f]).
Proof.
  intros C L B; unfold put_octet, Put_Item; rewrite L, enc_pis_one; apply (put2spdu_puts code 1 [s_num s f]); [exact C | lia|].
  rewrite zlen_one; lia.
Qed.

Lemma octets2_bytes v : bytes (octets2 v).
Proof. unfold octets2; repeat constructor; rewrite land_ff; try apply Z.mod_pos_bound; lia. Qed.

Lemma puts_short code f : is_byte code -> tbl pi_length code = 2 -> puts (put_short fresh s code f) (enc_pis [(code, octets2 (s_num s f))]).
Proof.
  intros C L; unfold put_short, Put_Item; rewrite L, enc_pis_one; apply (put2spdu_puts code 2 (octets2 (s_num s f))); [exact C | lia | reflexivity || discriminate].
Qed.

Lemma tsdu_maxsize_ok : tsdu_maxsize s = Val (s_num s N_tsdu_init * 65536 + s_num s N_tsdu_resp).
Proof.
  pose proof (ok_num s Ok N_tsdu_init) as I; pose proof (ok_num s Ok N_tsdu_resp) as R; cbn [num_bound] in I, R.
  unfold tsdu_maxsize; change 65535 with (2 ^ 16 - 1); rewrite !land_mask, !Z.mod_small by lia.
  rewrite Z.gtb_ltb; destruct (Z.ltb_spec 32767 (s_num s N_tsdu_init)); [lia|].
  rewrite shl_or by lia; reflexivity.
Qed.

Lemma octets2_mod v : octets2 (v mod 65536) = octets2 v.
Proof.
  unfold octets2; rewrite !land_ff, !shr8; f_equal; [|f_equal].
  - rewrite (Z.div_mod v 65536) at 2 by lia; replace (65536 * (v / 65536) + v mod 65536) with (v mod 65536 + (v / 65536 * 256) * 256) by lia.
    rewrite Z.div_add, Z.mod_add by lia; reflexivity.
  - symmetry; rewrite (Z.div_mod v 65536) at 1 by lia; replace (65536 * (v / 65536) + v mod 65536) with (v mod 65536 + (v / 65536 * 256) * 256) by lia.
    apply Z.mod_add; lia.
Qed.

Lemma puts_tsdu : puts (put_tsdu fresh s) (enc_pis [i_pair PI_TSDU_MAXSIZ (tsdu_octets s)]).
Proof.
  assert (E : put_tsdu fresh s = Put_Item fresh PI_TSDU_MAXSIZ (tsdu_octets s)).
  { unfold put_tsdu; rewrite tsdu_maxsize_ok; cbn [cbind].
    pose proof (ok_num s Ok N_tsdu_init) as I; pose proof (ok_num s Ok N_tsdu_resp) as R; cbn [num_bound] in I, R.
    set (v := _ + _); assert (V : Z.shiftr v 16 = s_num s N_tsdu_init) by (rewrite Z.shiftr_div_pow2 by lia; unfold v; change (2 ^ 16) with 65536; rewrite Z.div_add_l, Z.div_small by lia; lia).
    rewrite V, <- (octets2_mod v); replace (v mod 65536) with (s_num s N_tsdu_resp); [reflexivity|].
    unfold v; rewrite Z.add_comm, Z.mod_add, Z.mod_small by lia; reflexivity. }
  rewrite E; unfold Put_Item; rewrite enc_pis_one; apply (put2spdu_puts PI_TSDU_MAXSIZ 4 (tsdu_octets s)); [split; [discriminate | reflexivity] | lia | discriminate].
Qed.

Lemma puts_counted code a : is_byte code -> puts (put_counted fresh s code a) (enc_pis [i_array s code a]).
Proof.
  intros C; destruct (ok_arr s Ok a) as (L & Zl & _); unfold put_counted; rewrite enc_pis_one.
  apply put2spdu_puts; [exact C | | lia]; destruct a; cbn [sarr_size] in L; unfold SREF_USER_SIZE, SREF_ADDT_SIZE, SID_DATA_SIZE in L; lia.
Qed.

Lemma puts_nonempty code a : is_byte code -> puts (put_nonempty fresh s code a) (enc_pis (i_nonempty s code a)).
Proof. intros C; apply puts_pis_opt; intros _; apply puts_counted, C. Qed.

Lemma puts_ssn code f : is_byte code -> num_bound f = SERIAL_MAX + 2 -> puts (Put_SSN fresh code (s_num s f)) (enc_pis [i_ssn s code f]).
Proof.
  intros C B; pose proof (ok_num s Ok f) as R; rewrite B in R; destruct (zlen_print_ssn _ R) as (L & _).
  unfold Put_SSN; change [i_ssn s code f] with ([] ++ [i_ssn s code f]); apply puts_pis_seq.
  - apply puts_fail; rewrite Z.gtb_ltb; apply Z.ltb_ge; lia.
  - rewrite enc_pis_one; unfold i_ssn; rewrite <- (ztake_all (zlen (print_u (s_num s f))) (print_u (s_num s f))) at 3 by lia; apply put2spdu_puts; [exact C | lia | lia].
Qed.
Lemma emits_udata code : is_byte code ->
  emits (fun c => match s_udata s with Some d => wput fresh code (s_ulen s) d c | None => Val (WGo c) end) (enc_items (i_udata s code)).
Proof.
  intros C; unfold i_udata, user_octets; pose proof (ok_udata s Ok) as U; unfold SEGMENT_MAX in U; destruct (s_udata s) as [d|]; cbn [data_fits] in U.
  - apply (emits_pi (wput fresh code (s_ulen s) d)); rewrite enc_pis_one; apply put2spdu_puts; [exact C | unfold SEGMENT_MAX in U; lia | lia].
  - apply (puts_emits (fun c => Val (WGo c))), puts_nil; reflexivity.
Qed.

Lemma emits_reason : emits (wif (s_rlen s >? 0) (wput fresh PI_REASON (s_rlen s) (match s_rdata s with Some d => d | None => [] end)))
  (enc_items (opt (s_rlen s >? 0) [Pi (PI_REASON, reason_octets s)])).
Proof.
  apply emits_items_opt; rewrite Z.gtb_ltb; intros P; apply Z.ltb_lt in P; unfold reason_octets.
  destruct (ok_rdata s Ok) as (U & L); unfold RF_SIZE in L; destruct (s_rdata s) as [d|]; cbn [data_fits] in U; [|lia].
  apply emits_pi; rewrite enc_pis_one; apply put2spdu_puts; [cbv; easy | lia | lia].
Qed.

Lemma emits_reflect : emits (wput fresh PI_REFLECT AB_REFL_SIZE (s_reflect s)) (enc_items [Pi (PI_REFLECT, s_reflect s)]).
Proof.
  destruct (ok_reflect s Ok) as (L & _); rewrite <- (ztake_all AB_REFL_SIZE (s_reflect s)) at 2 by lia.
  apply emits_pi; rewrite enc_pis_one; apply put2spdu_puts; [cbv; easy | cbv; easy | lia].
Qed.

(** ** Lengths *)

Lemma len_octet code f : zlen (enc_pi (i_octet s code f)) = 3.
Proof. reflexivity. Qed.

Lemma len_ssn code f : num_bound f = SERIAL_MAX + 2 -> 3 <= zlen (enc_pi (i_ssn s code f)) <= 8.
Proof.
  intros B; pose proof (ok_num s Ok f) as R; rewrite B in R; destruct (zlen_print_ssn _ R) as (L & _).
  rewrite zlen_enc_pi; cbn [snd i_ssn]; destruct (Z.ltb_spec (zlen (print_u (s_num s f))) 255); lia.
Qed.

Lemma len_array code a : zlen (enc_pi (i_array s code a)) = 2 + c_len (s_arr s a) /\ 0 <= c_len (s_arr s a) <= sarr_size a.
Proof.
  destruct (zlen_octets_of s a Ok) as (L & R); split; [|exact R]; rewrite zlen_enc_pi; cbn [snd i_array]; rewrite L.
  assert (sarr_size a <= 64) by (destruct a; cbv; discriminate); destruct (Z.ltb_spec (c_len (s_arr s a)) 255); lia.
Qed.

Lemma len_nonempty code a : zlen (enc_pis (i_nonempty s code a)) = (if c_len (s_arr s a) =? 0 then 0 else 2 + c_len (s_arr s a)).
Proof. unfold i_nonempty; destruct (c_len (s_arr s a) =? 0); [reflexivity|]; cbn [negb opt]; rewrite enc_pis_one; apply len_array. Qed.

Lemma len_nonempty_le code a : 0 <= zlen (enc_pis (i_nonempty s code a)) <= 2 + sarr_size a.
Proof. rewrite len_nonempty; destruct (len_array code a) as (_ & R); destruct (_ =? 0); lia. Qed.

Lemma len_pis_opt b l : 0 <= zlen (enc_pis (opt b l)) <= zlen (enc_pis l).
Proof. pose proof (zlen_nonneg (enc_pis l)); destruct b; cbn [opt]; [lia|]; change (zlen (enc_pis [])) with 0; lia. Qed.

Lemma len_opt b l : zlen (enc_items (opt b l)) = if b then zlen (enc_items l) else 0.
Proof. destruct b; reflexivity. Qed.

Lemma len_opt_le b l : 0 <= zlen (enc_items (opt b l)) <= zlen (enc_items l).
Proof. rewrite len_opt; pose proof (zlen_nonneg (enc_items l)); destruct b; lia. Qed.

Lemma len_item i : zlen (enc_items [i]) = zlen (enc_item i).
Proof. rewrite enc_items_one; reflexivity. Qed.

Lemma len_pis_app a b : zlen (enc_pis (a ++ b)) = zlen (enc_pis a) + zlen (enc_pis b).
Proof. rewrite enc_pis_app; apply zlen_app. Qed.

Lemma len_items_app a b : zlen (enc_items (a ++ b)) = zlen (enc_items a) + zlen (enc_items b).
Proof. rewrite enc_items_app; apply zlen_app. Qed.

Lemma len_udata code : zlen (enc_items (i_udata s code)) =
  match s_udata s with Some _ => s_ulen s + (if s_ulen s >? 254 then 4 else 2) | None => 0 end.
Proof.
  unfold i_udata, user_octets; pose proof (ok_udata s Ok) as U; destruct (s_udata s) as [d|]; [|reflexivity]; cbn [data_fits] in U.
  rewrite len_item; cbn [enc_item]; rewrite zlen_enc_pi; cbn [snd]; rewrite zlen_ztake, Z.gtb_ltb by lia.
  destruct (Z.ltb_spec (s_ulen s) 255), (Z.ltb_spec 254 (s_ulen s)); lia.
Qed.

Lemma len_reason : zlen (enc_items (opt (s_rlen s >? 0) [Pi (PI_REASON, reason_octets s)])) =
  if s_rlen s =? 0 then 0 else s_rlen s + (if s_rlen s >? 254 then 4 else 2).
Proof.
  destruct (ok_rdata s Ok) as (U & _); unfold reason_octets; destruct (s_rdata s) as [d|]; cbn [data_fits] in U; [|rewrite U; reflexivity].
  rewrite len_opt, len_item; cbn [enc_item]; rewrite zlen_enc_pi; cbn [snd]; rewrite zlen_ztake, !Z.gtb_ltb by lia.
  destruct (Z.eqb_spec (s_rlen s) 0), (Z.ltb_spec 0 (s_rlen s)), (Z.ltb_spec (s_rlen s) 255), (Z.ltb_spec 254 (s_rlen s)); lia.
Qed.

Lemma len_ref u c a code : zlen (enc_items [i_ref s u c a code]) = 2 + count_ref (c_len (s_arr s u)) (c_len (s_arr s c)) (c_len (s_arr s a)).
Proof. rewrite len_item; cbn [i_ref enc_item]; rewrite !zlen_cons, !len_pis_app, !len_nonempty; unfold count_ref; lia. Qed.


(** The bounds of the optional parts of a length. *)
Ltac opt_bounds := repeat match goal with
  | |- context [zlen (enc_pis (opt ?b ?l))] =>
      let B := fresh in pose proof (len_pis_opt b l) as B; revert B; generalize (zlen (enc_pis (opt b l))); intros
  | |- context [zlen (enc_items (opt ?b ?l))] =>
      let B := fresh in pose proof (len_opt_le b l) as B; revert B; generalize (zlen (enc_items (opt b l))); intros
  end; rewrite ?enc_pis_one, ?len_item, ?enc_items_one in *; cbn [enc_item] in *.

Lemma len_ssns : 3 <= zlen (enc_pi (i_ssn s PI_ISN N_isn)) <= 8.
Proof. apply len_ssn; reflexivity. Qed.

Lemma len_group_cn : zlen (enc_pis
  (opt (is_set s SMASK_CN_OPT) [i_octet s PI_PROTOCOL_OPT N_options] ++ opt (is_set s SMASK_CN_TSDU) [i_pair PI_TSDU_MAXSIZ (tsdu_octets s)] ++
   opt (is_set s SMASK_CN_VRSN) [i_octet s PI_VERSION N_cn_version] ++ opt (is_set s SMASK_CN_ISN) [i_ssn s PI_ISN N_isn] ++
   opt (is_set s SMASK_CN_SET) [i_octet s PI_TOKEN_SET N_settings])) <= 23.
Proof.
  rewrite !len_pis_app; pose proof len_ssns; opt_bounds; rewrite !len_octet in *.
  change (zlen (enc_pi (i_pair PI_TSDU_MAXSIZ (tsdu_octets s)))) with 6 in *; lia.
Qed.

Lemma len_cn_items : 0 <= zlen (enc_items (i_cn_items s)) <= 25.
Proof.
  unfold i_cn_items; pose proof len_group_cn; opt_bounds; rewrite !zlen_cons in *; lia.
Qed.

Lemma len_ar_link : zlen (enc_items [i_ar_link s]) <=
  2 + (if is_set s SMASK_AR_REF
       then count_ref (c_len (s_arr s A_ar_calling)) (c_len (s_arr s A_ar_comm)) (c_len (s_arr s A_ar_addt))
            + (if c_len (s_arr s A_ar_called) =? 0 then 0 else 2 + c_len (s_arr s A_ar_called)) else 0) + 16.
Proof.
  rewrite len_item; unfold i_ar_link; cbn [enc_item]; rewrite !zlen_cons, !len_pis_app, !enc_pis_one; change (zlen (enc_pis [])) with 0.
  pose proof (len_ssn PI_SERIAL N_ar_serial eq_refl); destruct (len_array PI_ACT_ID A_ar_oid) as (-> & R); cbn [sarr_size] in R; unfold SID_DATA_SIZE in R.
  destruct (is_set s SMASK_AR_REF); cbn [opt]; rewrite ?len_pis_app, ?len_nonempty; unfold count_ref; change (zlen (enc_pis [])) with 0; lia.
Qed.

Lemma len_ar_group : match i_ar_link s with Pgi _ l => zlen (enc_pis l) < 255 | Pi _ => True end.
Proof.
  pose proof len_ar_link as L; destruct (len_array PI_AR_CALLED A_ar_called) as (_ & R1), (len_array PI_AR_CALLING A_ar_calling) as (_ & R2),
    (len_array PI_AR_COMMON A_ar_comm) as (_ & R3), (len_array PI_AR_ADDT A_ar_addt) as (_ & R4).
  rewrite len_item in L; unfold i_ar_link in L; cbn [enc_item] in L; rewrite !zlen_cons in L.
  cbn [sarr_size] in *; unfold SREF_USER_SIZE, SREF_ADDT_SIZE, count_ref in *.
  unfold i_ar_link; revert L; generalize (zlen (enc_pis (opt (is_set s SMASK_AR_REF) (i_nonempty s PI_AR_CALLED A_ar_called ++ i_nonempty s PI_AR_CALLING A_ar_calling ++ i_nonempty s PI_AR_COMMON A_ar_comm ++ i_nonempty s PI_AR_ADDT A_ar_addt) ++ [] ++ [i_array s PI_ACT_ID A_ar_oid] ++ [] ++ [i_ssn s PI_SERIAL N_ar_serial]))); intros z.
  repeat match goal with |- context [if ?b then _ else _] => destruct b end; lia.
Qed.

(** ** The steps of each SPDU *)

Lemma emits_octet code f : is_byte code -> tbl pi_length code = 1 -> num_bound f = 256 -> emits (put_octet fresh s code f) (enc_items [Pi (i_octet s code f)]).
Proof. intros; apply emits_pi, puts_octet; assumption. Qed.

Lemma emits_short code f : is_byte code -> tbl pi_length code = 2 -> emits (put_short fresh s code f) (enc_items [Pi (code, octets2 (s_num s f))]).
Proof. intros; apply emits_pi, puts_short; assumption. Qed.

Lemma emits_counted code a : is_byte code -> emits (put_counted fresh s code a) (enc_items [Pi (i_array s code a)]).
Proof. intros; apply emits_pi, puts_counted; assumption. Qed.

Lemma emits_ssn code f : is_byte code -> num_bound f = SERIAL_MAX + 2 -> emits (Put_SSN fresh code (s_num s f)) (enc_items [Pi (i_ssn s code f)]).
Proof. intros; apply emits_pi, puts_ssn; assumption. Qed.

Lemma emits_reason1 code f : is_byte code -> num_bound f = 256 -> emits (wput fresh code 1 [s_num s f]) (enc_items [Pi (i_octet s code f)]).
Proof.
  intros C B; apply emits_pi; rewrite enc_pis_one; apply (put2spdu_puts code 1 [s_num s f]); [exact C | lia|]; rewrite zlen_one; lia.
Qed.

Lemma emits_enclose : emits (put_enclose fresh s) (enc_items (i_enclose s)).
Proof. apply emits_items_opt; intros _; apply emits_octet; [cbv; easy | reflexivity | reflexivity]. Qed.

Lemma emits_tail : emits (put_enclose fresh s ;> Put_UData fresh s) (enc_items (i_tail s)).
Proof. apply emits_items_seq; [apply emits_enclose | apply (emits_udata PI_UDATA); cbv; easy]. Qed.

Lemma emits_ref u c a code : is_byte code -> sarr_size u + sarr_size c + sarr_size a <= 132 ->
  emits (Put_Ref fresh s u c a code) (enc_items [i_ref s u c a code]).
Proof.
  intros C L; unfold Put_Ref, i_ref; apply emits_group; [cbv; easy | repeat apply puts_pis_seq; apply puts_nonempty; (exact C || (cbv; easy))|].
  rewrite !len_pis_app; pose proof (len_nonempty_le code u); pose proof (len_nonempty_le PI_COMMON_REF c); pose proof (len_nonempty_le PI_ADD_INFO a); lia.
Qed.

Ltac byte := split; [discriminate | reflexivity].

Lemma emits_cn_items : emits (put_cn_items fresh s) (enc_items (i_cn_items s)).
Proof.
  apply emits_items_opt; intros _; apply emits_group; [byte | | pose proof len_group_cn; lia].
  repeat apply puts_pis_seq; apply puts_pis_opt; intros _;
    first [apply puts_tsdu | apply puts_octet; [byte | reflexivity | reflexivity] | apply puts_ssn; [byte | reflexivity]].
Qed.

Lemma emits_cn_rest : emits (put_cn_rest fresh s) (enc_items (i_cn_rest s)).
Proof.
  repeat apply emits_items_seq; apply emits_items_opt; intros _;
    first [apply emits_short; [byte | reflexivity] | apply emits_counted; byte].
Qed.

Lemma emits_ar_link : is_set s SMASK_AR_OID = true -> is_set s SMASK_AR_SSN = true -> emits (put_ar_link fresh s) (enc_items [i_ar_link s]).
Proof.
  intros O N; apply emits_group; [byte | |].
  - apply puts_pis_seq.
    { apply puts_pis_opt; intros _; repeat apply puts_pis_seq; apply puts_nonempty; byte. }
    apply puts_pis_seq; [apply puts_need, O|]; apply puts_pis_seq; [apply puts_counted; byte|].
    apply puts_pis_seq; [apply puts_need, N | apply puts_ssn; [byte | reflexivity]].
  - pose proof len_ar_group as L; cbn [i_ar_link] in L; lia.
Qed.
(** ** One SPDU after the other *)


Lemma emits_nothing : emits put_nothing (enc_items []).
Proof. apply puts_emits, puts_nil; reflexivity. Qed.

(** Follows the steps of an SPDU. *)
Ltac emit := lazymatch goal with
  | |- emits (put_enclose _ _ ;> Put_UData _ _) _ => apply emits_tail
  | |- emits (_ ;> _) _ => apply emits_items_seq; [emit | emit]
  | |- emits (wif (s_rlen _ >? 0) _) _ => apply emits_reason
  | |- emits (wif _ _) _ => apply emits_items_opt; intros _; emit
  | |- emits (wneed _) _ => apply emits_need; intuition
  | |- emits (wfail _) _ => apply emits_fail; assumption
  | |- emits (put_octet _ _ _ _) _ => apply emits_octet; [byte | reflexivity | reflexivity]
  | |- emits (put_short _ _ _ _) _ => apply emits_short; [byte | reflexivity]
  | |- emits (put_counted _ _ _ _) _ => apply emits_counted; byte
  | |- emits (Put_SSN _ _ _) _ => apply emits_ssn; [byte | reflexivity]
  | |- emits (wput _ _ AB_REFL_SIZE _) _ => apply emits_reflect
  | |- emits (wput _ _ _ _) _ => apply emits_reason1; [byte | reflexivity]
  | |- emits (Put_Ref _ _ _ _ _ _) _ => apply emits_ref; [byte | discriminate]
  | |- emits (put_cn_items _ _) _ => apply emits_cn_items
  | |- emits (put_cn_rest _ _) _ => apply emits_cn_rest
  | |- emits (put_ar_link _ _) _ => apply emits_ar_link; intuition
  | |- emits (put_enclose _ _) _ => apply emits_enclose
  | |- emits (Put_MData _ _) _ => apply (emits_udata PI_MIA_DATA); byte
  | |- emits (Put_XData _ _ _) _ => apply (emits_udata (if s_ulen s >? CN_SIZE then PI_XDATA else PI_UDATA)); destruct (s_ulen s >? CN_SIZE); byte
  | |- emits put_nothing _ => apply emits_nothing
  end.

Ltac steps := unfold put_cn, put_ac, put_rf, put_fn, put_plain, put_ab, put_ai, put_gt, put_pt, put_mip, put_map, put_mia, put_maa, put_rs, put_ra,
  put_pr, put_ed, put_as, put_ar, put_ad.

Lemma emits_body n body : spdu_body fresh s = Some (n, body) -> complete s = true -> emits body (enc_items (spdu_items s)).
Proof.
  intros B C; pose proof (complete_code s C) as I; revert B C; unfold spdu_body, spdu_items, complete.
  assert (Rf : (s_rlen s >? RF_SIZE) = false) by (rewrite Z.gtb_ltb; apply Z.ltb_ge, (ok_rdata s Ok)).
  repeat (destruct I as [E | I]; [rewrite <- E; codes; either;
    intros [= <- <-] C; cbn [negb orb] in C; rewrite ?andb_true_iff in C; steps|]).
  all: try solve [emit]. all: destruct I.
Qed.
(** ** Room for it *)

Lemma len_enclose : 0 <= zlen (enc_items (i_enclose s)) <= 3.
Proof. apply (len_opt_le (is_set s SMASK_ENCLOSE) [Pi (i_octet s PI_ENCLOSE N_enclose)]). Qed.

Lemma len_cn_rest : zlen (enc_items (i_cn_rest s)) <=
  4 + (if is_set s SMASK_CN_CALLING then c_len (s_arr s A_calling) + 2 else 0) + (if is_set s SMASK_CN_CALLED then c_len (s_arr s A_called) + 2 else 0).
Proof.
  unfold i_cn_rest; rewrite !len_items_app, !len_opt, !len_item; cbn [enc_item]; change (zlen (enc_pi (PI_USER_REQ, octets2 (s_num s N_cn_require)))) with 4.
  destruct (len_array PI_SSAP_CALLING A_calling) as (-> & _), (len_array PI_SSAP_CALLED A_called) as (-> & _).
  destruct (is_set s SMASK_CN_REQ), (is_set s SMASK_CN_CALLING), (is_set s SMASK_CN_CALLED); lia.
Qed.

Lemma len_one_le b i : 0 <= zlen (enc_items (opt b [i])) <= zlen (enc_item i).
Proof. rewrite <- len_item; apply len_opt_le. Qed.

(** Replaces the lengths of the parts of an SPDU by their bounds. *)
Ltac lengths :=
  rewrite ?len_items_app, ?len_udata, ?len_item; cbn [enc_item];
  rewrite ?len_octet; change (zlen (enc_items [])) with 0;
  pose proof len_enclose; pose proof len_cn_items; pose proof len_cn_rest;
  repeat match goal with
  | |- context [zlen (enc_items (opt ?b [Pi (i_octet s ?c ?f)]))] =>
      let B := fresh in pose proof (len_one_le b (Pi (i_octet s c f))) as B; cbn [enc_item] in B; rewrite len_octet in B;
      revert B; generalize (zlen (enc_items (opt b [Pi (i_octet s c f)]))); intros
  | |- context [zlen (enc_pi (i_ssn s ?c ?f))] =>
      let B := fresh in pose proof (len_ssn c f eq_refl) as B; revert B; generalize (zlen (enc_pi (i_ssn s c f))); intros
  | |- context [zlen (enc_pi (i_array s ?c ?a))] =>
      let B := fresh in destruct (len_array c a) as (-> & B); cbn [sarr_size] in B; unfold SREF_USER_SIZE, SREF_ADDT_SIZE, SID_DATA_SIZE in B
  end.

Lemma len_require f : zlen (enc_item (Pi (PI_USER_REQ, octets2 (s_num s f)))) = 4.
Proof. reflexivity. Qed.

Lemma len_reflect : zlen (enc_item (Pi (PI_REFLECT, s_reflect s))) = 11.
Proof. cbn [enc_item]; rewrite zlen_enc_pi; cbn [snd]; rewrite (proj1 (ok_reflect s Ok)); reflexivity. Qed.

Lemma base_enough n body : spdu_body fresh s = Some (n, body) -> complete s = true ->
  (s_code s = SPDU_MAP -> is_set s SMASK_MAP_SYNC = true) -> zlen (enc_items (spdu_items s)) <= base_size s n.
Proof.
  intros B C Ae; pose proof (complete_code s C) as I; clear C; revert B Ae; unfold spdu_body, spdu_items, base_size; cbv zeta.
  match goal with |- _ -> _ -> _ <= if ?x <? 254 then 254 else ?x => intros B Ae; apply Z.le_trans with x; [|destruct (Z.ltb_spec x 254); lia] end.
  assert (U : match s_udata s with Some _ => (s_ulen s =? 0) = false /\ 0 < s_ulen s | None => True end).
  { pose proof (ok_udata s Ok) as U; destruct (s_udata s); cbn [data_fits] in U; [split; [apply Z.eqb_neq|]; lia | trivial]. }
  pose proof len_ar_link as La; pose proof len_reason as Lr.
  revert U B Ae La Lr; set (u0 := s_ulen s =? 0); set (r0 := s_rlen s =? 0); set (a0 := c_len (s_arr s A_ar_called) =? 0).
  repeat (destruct I as [E | I]; [rewrite <- E; codes; either;
     intros U [= <- <-] Ae La Lr; clear E; unfold i_tail; lengths; try rewrite (Ae eq_refl) in *; clear Ae|]); [..|destruct I].
  all: rewrite ?Lr, ?len_opt, ?len_item, ?len_require, ?len_reflect in *; rewrite <- ?len_item, ?len_ref, ?len_item in *.
  all: destruct (s_udata s); [destruct U as (-> & U)|clear U].
  all: repeat match goal with |- context [if ?b then _ else _] => destruct b end; lia.
Qed.
End Emit.

(** ** The whole SPDU *)

Section Whole.
Context `{Allocator} (fresh : Z -> list Z) (Fresh : forall n, 0 <= n -> zlen (fresh n) = n).

Lemma two_octets (h : list Z) : zlen h = 2 -> exists a b, h = [a; b].
Proof. unfold zlen; destruct h as [|a [|b [|? ?]]]; cbn [length]; intros; try lia; eauto. Qed.

Lemma four_octets (h : list Z) : zlen h = 4 -> exists a b c d, h = [a; b; c; d].
Proof. unfold zlen; destruct h as [|a [|b [|c [|d [|? ?]]]]]; cbn [length]; intros; try lia; eauto 6. Qed.

(** The three ways the code and the length are put in front. *)
Lemma end_spdu_short code h x rest pgi : zlen h = 2 -> zlen x + zlen rest <= 254 ->
  end_spdu fresh code (at_buf h x rest pgi) =
    Val (OK, set_lb_len (set_lb_top (at_buf h x rest pgi) ((code :: enc_li (zlen x)) ++ x ++ rest)) (2 + zlen x)).
Proof.
  intros Lh L; pose proof (zlen_nonneg x); pose proof (zlen_nonneg rest); unfold end_spdu, at_buf; lb.
  destruct (two_octets h Lh) as (a & b & ->); clear Lh; change (zlen [a; b]) with 2.
  rewrite (proj2 (Z.eqb_neq _ 0)), Z.gtb_ltb, (proj2 (Z.ltb_ge _ _)) by lia.
  change ([a; b] ++ x ++ rest) with ([a] ++ [b] ++ x ++ rest); change 1 with (zlen [a]) at 1.
  rewrite store_all_app by (reflexivity || (repeat constructor; lia)); cbn [cbind].
  rewrite ptrdiff2int_Some by (unfold is_int, INT_MIN, INT_MAX; lia); unfold set_lb_len, set_lb_top; lb; cbn [cbind]; lb.
  change ([a] ++ [zlen x] ++ x ++ rest) with ([] ++ [a] ++ zlen x :: x ++ rest); rewrite wr_app by reflexivity; cbn [cbind].
  unfold enc_li; rewrite (proj2 (Z.ltb_lt _ 255)) by lia; reflexivity.
Qed.

Lemma end_spdu_long code h x rest pgi : zlen h = 4 -> 255 <= zlen x < 65536 ->
  end_spdu fresh code (at_buf h x rest pgi) =
    Val (OK, set_lb_len (set_lb_top (at_buf h x rest pgi) ((code :: enc_li (zlen x)) ++ x ++ rest)) (zlen x + 4)).
Proof.
  intros Lh L; pose proof (zlen_nonneg rest); unfold end_spdu, at_buf; lb.
  destruct (four_octets h Lh) as (a & b & c & d & ->); clear Lh; change (zlen [a; b; c; d]) with 4.
  rewrite (proj2 (Z.eqb_neq _ 0)), Z.gtb_ltb, (proj2 (Z.ltb_lt _ _)), (proj2 (Z.ltb_ge (zlen x) 255)) by lia.
  change ([a; b; c; d] ++ x ++ rest) with ([a] ++ [b; c; d] ++ x ++ rest); change 1 with (zlen [a]) at 1.
  rewrite store_all_app; [|reflexivity|].
  2: { repeat constructor; rewrite ?land_ff; try lia; apply Z.mod_pos_bound; lia. }
  cbn [cbind]; unfold set_lb_len, set_lb_top; lb.
  match goal with |- context [wr ([a] ++ ?y) 0 [code]] => change ([a] ++ y) with ([] ++ [a] ++ y) end; rewrite wr_app by reflexivity; cbn [cbind].
  unfold enc_li; rewrite (proj2 (Z.ltb_ge (zlen x) 255)) by lia; reflexivity.
Qed.

(** The parameters are moved down by two octets through a buffer of 256. *)
Lemma end_spdu_moved code h x rest pgi : zlen h = 4 -> zlen x <= 252 -> 254 < zlen x + zlen rest ->
  exists top, end_spdu fresh code (at_buf h x rest pgi) = Val (OK, set_lb_len (set_lb_top (at_buf h x rest pgi) top) (zlen x + 2)) /\
    exists rest', top = (code :: enc_li (zlen x)) ++ x ++ rest'.
Proof.
  intros Lh L R; pose proof (zlen_nonneg x); unfold end_spdu, at_buf; lb.
  destruct (four_octets h Lh) as (a & b & c & d & ->); clear Lh; change (zlen [a; b; c; d]) with 4.
  rewrite (proj2 (Z.eqb_neq _ 0)), Z.gtb_ltb, (proj2 (Z.ltb_lt _ _)), (proj2 (Z.ltb_lt (zlen x) 255)) by lia.
  replace (4 + zlen x + zlen rest - zlen rest) with (zlen x + 4) by lia; change (zdrop 2 ([a; b; c; d] ++ x ++ rest)) with ([c; d] ++ x ++ rest).
  set (m := [c; d] ++ x ++ ztake 2 rest); assert (Lm : zlen m = zlen x + 4) by (unfold m; rewrite !zlen_app, zlen_ztake by lia; change (zlen [c; d]) with 2; lia).
  assert (E : [c; d] ++ x ++ rest = m ++ zdrop 2 rest) by (unfold m; rewrite <- !app_assoc, ztake_zdrop; reflexivity).
  unfold bcopy_int; rewrite int2sizet_Some by lia; unfold rdn_ptr; rewrite E, rdn_in, zdrop_0, ztake_app_exact by (rewrite ?zlen_app; pose proof (zlen_nonneg (zdrop 2 rest)); lia).
  cbn [cbind cmap]; rewrite wr_in by (rewrite ?Fresh; lia); rewrite (ztake_0 0) by lia; cbn [app cbind].
  rewrite rdn_in by (rewrite ?zlen_app; pose proof (zlen_nonneg (zdrop (0 + zlen m) (fresh 256))); lia); rewrite zdrop_0, <- Lm, ztake_app_exact by lia; cbn [cbind cmap].
  assert (E4 : a :: b :: c :: d :: x ++ rest = [] ++ ([a; b; c; d] ++ x) ++ rest) by reflexivity.
  rewrite E4, wr_app by (rewrite ?zlen_app; reflexivity || (change (zlen [a; b; c; d]) with 4; lia)); cbn [cbind app].
  unfold m; cbn [app]; change (c :: d :: (x ++ ztake 2 rest) ++ rest) with ([c] ++ [d] ++ (x ++ ztake 2 rest) ++ rest); change 1 with (zlen [c]) at 1.
  rewrite store_all_app by (reflexivity || (repeat constructor; lia)); cbn [cbind]; unfold set_lb_len, set_lb_top; lb.
  match goal with |- context [wr ([c] ++ ?y) 0 [code]] => change ([c] ++ y) with ([] ++ [c] ++ y) end; rewrite wr_app by reflexivity; cbn [cbind].
  eexists; split; [reflexivity|]; exists (ztake 2 rest ++ rest).
  unfold enc_li; rewrite (proj2 (Z.ltb_lt (zlen x) 255)) by lia; cbn [app]; rewrite <- app_assoc; reflexivity.
Qed.
(** The base size [spkt2tsdu] gives to [start_spdu]. *)
Definition spdu_base (s : ssapkt) : Z := match spdu_body fresh s with Some (n, _) => n | None => 0 end.

(** The octets [start_spdu] makes room for are enough, and the length does
    not fall where [end_spdu] has to move the parameters through a buffer
    that is too short for them. *)
Definition in_room (s : ssapkt) : Prop :=
  let n := zlen (enc_items (spdu_items s)) in
  let size := base_size s (spdu_base s) in
  n <= size /\ n < 65536 /\ (size <= 254 \/ n <= 252 \/ 255 <= n).

Lemma complete_body s : complete s = true -> exists body, spdu_body fresh s = Some (spdu_base s, body) /\ 0 <= spdu_base s <= 62.
Proof.
  intros C; pose proof (complete_code s C) as I; clear C; unfold spdu_base, spdu_body.
  assert (R : (0 <= if is_set s SMASK_MAP_SYNC then 14 else 8) /\ (if is_set s SMASK_MAP_SYNC then 14 else 8) <= 62) by (destruct (is_set s SMASK_MAP_SYNC); lia).
  repeat (destruct I as [E | I]; [rewrite <- E; codes; either; (eexists; split; [reflexivity | first [exact R | split; discriminate]])|]); destruct I.
Qed.

Lemma count_ref_le u c a : u <= 64 -> c <= 64 -> a <= 64 -> count_ref u c a <= 198.
Proof. intros; unfold count_ref; destruct (u =? 0), (c =? 0), (a =? 0); lia. Qed.

Lemma base_size_range s n : spkt_ok s -> 0 <= n <= 62 -> 254 <= base_size s n <= 200000.
Proof.
  intros O N; unfold base_size; cbv zeta.
  match goal with |- 254 <= (if ?x <? 254 then 254 else ?x) <= _ => assert (x <= 200000); [|destruct (Z.ltb_spec x 254); lia] end.
  assert (U : s_ulen s <= 65528) by (pose proof (ok_udata s O) as U; unfold data_fits, SEGMENT_MAX in U; destruct (s_udata s); lia).
  assert (R : s_rlen s <= 513) by apply (ok_rdata s O).
  assert (L : forall a, c_len (s_arr s a) <= 64) by (intros a; destruct (ok_arr s O a) as (L & _); destruct a; cbn [sarr_size] in L; unfold SREF_USER_SIZE, SREF_ADDT_SIZE, SID_DATA_SIZE in L; lia).
  assert (D : match s_udata s with None => 0 | Some _ =>
     if (s_code s =? SPDU_DT) || (s_code s =? SPDU_EX) || (s_code s =? SPDU_TD) then 0
     else if s_ulen s =? 0 then 0 else s_ulen s + (if s_ulen s >? 254 then 4 else 2) end <= 70000)
    by (destruct (s_udata s); repeat match goal with |- context [if ?b then _ else _] => destruct b end; lia).
  revert D; generalize (match s_udata s with None => 0 | Some _ => if (s_code s =? SPDU_DT) || (s_code s =? SPDU_EX) || (s_code s =? SPDU_TD) then 0
     else if s_ulen s =? 0 then 0 else s_ulen s + (if s_ulen s >? 254 then 4 else 2) end); intros d D.
  pose proof (L A_ar_called); pose proof (L A_calling); pose proof (L A_called).
  pose proof (count_ref_le _ _ _ (L A_cn_user) (L A_cn_comm) (L A_cn_addt)); pose proof (count_ref_le _ _ _ (L A_rf_user) (L A_rf_comm) (L A_rf_addt));
    pose proof (count_ref_le _ _ _ (L A_ar_calling) (L A_ar_comm) (L A_ar_addt)).
  destruct (_ || _)%bool; [|destruct (_ =? SPDU_RF); [|destruct (_ =? SPDU_AR)]];
    repeat match goal with |- context [if ?b then _ else _] => destruct b end; lia.
Qed.

Lemma start_spdu_ok s n : memory_ok -> 254 <= base_size s n -> let size := base_size s n in let hdr := if size >? 254 then 4 else 2 in
  exists h rest, start_spdu fresh s n = (at_buf h [] rest 0, SC_ACCEPT) /\ zlen h = hdr /\ zlen rest = size.
Proof.
  intros M L size hdr; unfold start_spdu; fold size hdr; rewrite M.
  assert (Hd : 0 < hdr) by (unfold hdr; destruct (size >? 254); lia); pose proof (Fresh (size + hdr) ltac:(lia)) as F.
  exists (ztake hdr (fresh (size + hdr))), (zdrop hdr (fresh (size + hdr))); rewrite zlen_ztake, zlen_zdrop by lia; split; [|split; lia].
  unfold at_buf; rewrite zlen_ztake, zlen_zdrop by lia; cbn [app]; rewrite ztake_zdrop; change (zlen (@nil Z)) with 0; do 2 f_equal; lia.
Qed.

Lemma end_spdu_ok code h x rest pgi : zlen h = (if zlen x + zlen rest >? 254 then 4 else 2) -> zlen x < 65536 ->
  (zlen x + zlen rest <= 254 \/ zlen x <= 252 \/ 255 <= zlen x) ->
  let e := code :: enc_li (zlen x) ++ x in
  exists c, end_spdu fresh code (at_buf h x rest pgi) = Val (OK, c) /\ lb_li c = zlen x /\ lb_len c = zlen e /\ ztake (zlen e) (lb_top c) = e.
Proof.
  intros Lh L R e; rewrite Z.gtb_ltb in Lh; pose proof (zlen_nonneg x).
  assert (Le : zlen e = (if zlen x <? 255 then 2 else 4) + zlen x) by (unfold e; rewrite zlen_cons, zlen_app, zlen_enc_li; destruct (_ <? 255); lia).
  assert (T : forall z, ztake (zlen e) ((code :: enc_li (zlen x)) ++ x ++ z) = e).
  { intros z; rewrite app_assoc; apply ztake_app_exact; reflexivity. }
  destruct (Z.ltb_spec 254 (zlen x + zlen rest)); [destruct (Z.leb_spec 255 (zlen x))|].
  - rewrite end_spdu_long by lia; eexists; split; [reflexivity|]; lb; rewrite (proj2 (Z.ltb_ge (zlen x) 255)) in Le by lia; rewrite T; repeat split; lia.
  - destruct (end_spdu_moved code h x rest pgi Lh) as (top & -> & z & ->); [lia | lia|].
    eexists; split; [reflexivity|]; lb; rewrite (proj2 (Z.ltb_lt (zlen x) 255)) in Le by lia; rewrite T; repeat split; lia.
  - rewrite end_spdu_short by lia; eexists; split; [reflexivity|]; lb; pose proof (zlen_nonneg rest); rewrite (proj2 (Z.ltb_lt (zlen x) 255)) in Le by lia; rewrite T; repeat split; lia.
Qed.
End Whole.

Lemma written : forall (A : Allocator) fresh s, memory_ok -> (forall n, 0 <= n -> zlen (fresh n) = n) -> spkt_ok s ->
  complete s = true -> in_room fresh s ->
  let e := enc_spdu (s_code s) (spdu_items s) in
  exists top, spkt2tsdu fresh s = Val (OK, Some top, zlen e, set_s_li (set_s_errno s SC_ACCEPT) (zlen (enc_items (spdu_items s)))) /\
    ztake (zlen e) top = e.
Proof.
  intros A fresh s M F O C (R1 & R2 & R3) e; destruct (complete_body fresh s C) as (body & B & N); unfold spkt2tsdu; rewrite B.
  pose proof (base_size_range s _ O N) as S; destruct (start_spdu_ok fresh F s (spdu_base fresh s) M (proj1 S)) as (h & rest & -> & Lh & Lr).
  assert (Zh : 0 < zlen h <= 4) by (rewrite Lh; destruct (_ >? 254); lia).
  destruct (emits_body fresh s O _ _ B C h [] rest 0) as (pgi & ->); [lia | change (zlen (@nil Z)) with 0; unfold INT_MAX; lia | lia|].
  cbn [cbind app]; set (x := enc_items (spdu_items s)) in *; pose proof (zlen_nonneg x).
  assert (Lz : zlen x + zlen (zdrop (zlen x) rest) = base_size s (spdu_base fresh s)) by (rewrite zlen_zdrop; lia).
  destruct (end_spdu_ok fresh F (s_code s) h x (zdrop (zlen x) rest) pgi) as (c & -> & Li & Le & Te); [rewrite Lz; exact Lh | exact R2 | rewrite Lz; exact R3|].
  cbn [cbind]; change (OK =? NOTOK) with false; change (SC_ACCEPT =? SC_ACCEPT) with true; cbn [negb orb].
  rewrite Li, (proj2 (Z.ltb_ge (zlen x) 0)), Le by lia; exists (lb_top c); split; [reflexivity | exact Te].
Qed.

(** The writer of SPDUs. For every SPDU that has its mandatory
    parameters and fields in their range, [spkt2tsdu] returns OK with the
    reference encoding: the code, the length in one or three octets, and the
    parameters of the packet in the order of the standard, the groups nested
    in them. This holds wherever the size estimated beforehand suffices
    ([in_room]), which it always does but for AE. *)
Theorem spkt2tsdu_encodes : forall (A : Allocator) fresh s, memory_ok -> (forall n, 0 <= n -> zlen (fresh n) = n) -> spkt_ok s ->
  complete s = true -> in_room fresh s ->
  let e := enc_spdu (s_code s) (spdu_items s) in
  exists top, spkt2tsdu fresh s = Val (OK, Some top, zlen e, set_s_li (set_s_errno s SC_ACCEPT) (zlen (enc_items (spdu_items s)))) /\
    ztake (zlen e) top = e.
Proof. intros; apply written; assumption. Qed.

(** ** Where the room is not enough *)

Definition zeros (n : Z) : list Z := repeat 0 (Z.to_nat n).

(** A DN SPDU without an enclosure and with 251 octets of user data has 253
    octets of parameters in a block for more than 254: 257 octets go into
    the buffer of 256 of [end_spdu]. *)
Lemma spkt2tsdu_overflow : spkt2tsdu (H := plenty) zeros (set_udata (new_spkt SPDU_DN) (Some (zeros 251)) 251) = UB.
Proof. vm_compute; reflexivity. Qed.

(** An AE SPDU, for which AE_BASE_SIZE counts no enclosure. *)
Definition ex_ae (n : Z) : ssapkt :=
  set_udata (set_num (set_num (Set_ (Set_ (new_spkt SPDU_MAP) SMASK_MAP_SERIAL) SMASK_ENCLOSE) N_map_serial 100000) N_enclose 3)
    (Some (zeros n)) n.

(** When the parameters do not fit, [put2spdu] writes outside the block. *)
Lemma spkt2tsdu_AE_overflow : spkt2tsdu (H := plenty) zeros (ex_ae 300) = UB.
Proof. vm_compute; reflexivity. Qed.

(** A size of 32768 or more is shifted into the sign. *)
Lemma spkt2tsdu_tsdu_shift :
  spkt2tsdu (H := plenty) zeros (set_num (Set_ (new_spkt SPDU_CN) SMASK_CN_TSDU) N_tsdu_init 32768) = UB.
Proof. vm_compute; reflexivity. Qed.

(** Without a mandatory parameter the SPDU is refused. *)
Lemma spkt2tsdu_missing : forall c, In c [SPDU_MIP; SPDU_MAP; SPDU_MIA; SPDU_MAA; SPDU_RS; SPDU_RA; SPDU_PR; SPDU_ED; SPDU_AS; SPDU_AR; SPDU_ER] ->
  exists s, spkt2tsdu (H := plenty) zeros (new_spkt c) = Val (NOTOK, None, 0, s) /\ s_errno s = SC_PROTOCOL.
Proof. intros c I; repeat (destruct I as [<- | I]; [eexists; split; vm_compute; reflexivity|]); destruct I. Qed.

(** * Examples *)

(** A MIP SPDU with serial number 42, an enclosure and three octets of data. *)
Definition ex_mip : ssapkt :=
  set_udata (set_num (set_num (Set_ (Set_ (new_spkt SPDU_MIP) SMASK_MIP_SERIAL) SMASK_ENCLOSE) N_mip_serial 42) N_enclose 3) (Some [7; 8; 9]) 3.

Lemma ex_mip_ok : spkt_ok ex_mip.
Proof.
  split.
  - intros f; destruct f; vm_compute; split; reflexivity || discriminate.
  - intros a; split; [destruct a; vm_compute; split; discriminate|]; split; [destruct a; reflexivity|].
    apply forallb_bytes; destruct a; vm_compute; reflexivity.
  - split; [reflexivity | apply forallb_bytes; reflexivity].
  - split; [reflexivity | vm_compute; discriminate].
  - split; [vm_compute; split; reflexivity || discriminate|]; split; [vm_compute; discriminate | apply forallb_bytes; reflexivity].
Qed.

Lemma spkt2tsdu_encodes_witness :
  exists top s, spkt2tsdu (H := plenty) zeros ex_mip = Val (OK, Some top, 14, s) /\
    ztake 14 top = [49; 12; 42; 2; 52; 50; 25; 1; 3; 193; 3; 7; 8; 9].
Proof.
  destruct (spkt2tsdu_encodes plenty zeros ex_mip) as (top & E & T).
  - intros n; reflexivity.
  - intros n N; unfold zlen, zeros; rewrite repeat_length; apply Z2Nat.id, N.
  - exact ex_mip_ok.
  - reflexivity.
  - split; [vm_compute; discriminate | split; [vm_compute; reflexivity | left; vm_compute; discriminate]].
  - exists top; eexists; split; [exact E | exact T].
Defined.
