(* ===== verification/Tsdu2spkt.v ===== *)
(** * ssap: the reader of SPDUs (pullqb, str2ssn and tsdu2spkt of tsdu2spkt.c)

    The TSDU is a queue of buffers. [pullqb] returns a pointer to the next
    octets: into the first buffer when it has them all, else into a static
    buffer they are gathered in. *)

From S2P Require Import Prelude Text Conv Convert PElement PStream Qbuf Spkt Spkt2tsdu.
Open Scope Z_scope.
Open Scope c_scope.

Definition UINT32_MAX : Z := 4294967295.

(** [str2ssn] with [u] so far. *)
Fixpoint str2ssn (n : nat) (s : list Z) (u : Z) : cres Z :=
  match n with
  | O => Val u
  | S n' =>
      match s with
      | [] => UB
      | c :: s' =>
          if (c <? 48) || (c >? 57) then Val 0
          else
            let d := c - 48 in
            if u >? (UINT32_MAX - d) / 10 then Val UINT32_MAX else str2ssn n' s' (u * 10 + d)
      end
  end.

(** ** The cursor

    [base] is what follows the pointer in the block it points into, and
    [left] is [xbase - base]. *)

Record cursor : Type := Cur { c_base : list Z; c_left : Z; c_qb : list qseg; c_buffer : option (list Z); c_nread : Z }.

(** [base += n] *)
Definition skip (n : Z) (c : cursor) : cursor := Cur (zdrop n (c_base c)) (c_left c - n) (c_qb c) (c_buffer c) (c_nread c).

(** [*base++] *)
Definition next (c : cursor) : cres (Z * cursor) := v <- rd (c_base c) 0;; Val (v, skip 1 c).

Section Reader.
Context `{Allocator} (sizeof_spkt : Z).
(** What a new block of memory holds. *)
Variable fresh : Z -> list Z.

(** The loop of [pullqb]: a buffer that is not used up ends it. *)
Fixpoint pull_loop (l : list qseg) (n : Z) (once : bool) (buffer : option (list Z)) (cp : Z) : cres (option (list Z) * list qseg * option (list Z)) :=
  if n >? 0 then
    match l with
    | [] => Val (None, [], buffer)
    | qp :: l' =>
        let i := Z.min (seg_len qp) n in
        if once && (i =? n) then Val (Some (qb_data qp), QSeg (zdrop i (qb_data qp)) (seg_len qp - i) :: l', buffer)
        else
          match (match buffer with
                 | Some b => Some (b, cp)
                 | None => if malloc_ok SEGMENT_MAX then Some (fresh SEGMENT_MAX, 0) else None
                 end) with
          | None => Val (None, l, buffer)
          | Some (b, cp) =>
              d <- bcopy_int (Some (qb_data qp)) i;;
              match d with
              | None => Val (None, l, Some b)
              | Some d =>
                  b <- wr b cp d;;
                  if seg_len qp - i <=? 0 then pull_loop l' (n - i) false (Some b) (cp + i)
                  else Val (Some b, QSeg (zdrop i (qb_data qp)) (seg_len qp - i) :: l', Some b)
              end
          end
    end
  else Val (buffer, l, buffer).

Definition pullqb (qb : list qseg) (buffer : option (list Z)) (n : Z) : cres (option (list Z) * list qseg * option (list Z)) :=
  if n >? SEGMENT_MAX then Val (None, qb, buffer) else pull_loop qb n true buffer 0.

(** [advance (n)]; false for its [break]. *)
Definition advance (n : Z) (c : cursor) : cres (bool * cursor) :=
  if c_left c <=? 0 then
    ' (base, qb, buffer) <- pullqb (c_qb c) (c_buffer c) n;;
    Val (match base with
         | None => (false, Cur [] (c_left c) qb buffer (c_nread c))
         | Some base => (true, Cur base n qb buffer (c_nread c + n))
         end)
  else Val (true, c).

(** The code, the length and the size of the header of a parameter; [inl]
    for a [break]. *)
Definition read_header (c : cursor) : cres (cursor + Z * Z * Z * cursor) :=
  ' (ok, c) <- advance 2 c;;
  if negb ok then Val (inl c)
  else
    ' (code, c) <- next c;;
    b <- rd (c_base c) 0;;
    if b =? 255 then
      ' (ok, c) <- advance 2 (skip 1 c);;
      if negb ok then Val (inl c)
      else
        hi <- rd (c_base c) 0;;
        lo <- rd (c_base c) 1;;
        let li := Z.shiftl hi 8 + lo in
        if li <? 255 then Val (inl c) else Val (inr (as_octet code, li, 4, skip 2 c))
    else Val (inr (as_octet code, b, 2, skip 1 c)).

(** Whether an SPDU may have a parameter, and one of that length. *)
Definition pi_allowed (pmask code li : Z) : bool :=
  if code =? PI_UDATA then negb (Z.land pmask PMASK_UDATA =? 0) && (li <=? 512)
  else if code =? PI_XDATA then negb (Z.land pmask PMASK_XDATA =? 0) && (512 <? li)
  else negb ((code <? PI_TABLE_LEN) && negb (tbl pi_table code =? 0) && (Z.land pmask (tbl pi_table code) =? 0)).

Definition pi_fits (code li : Z) : bool :=
  if (code <? PI_TABLE_LEN) && negb (tbl pi_table code =? 0) && (Z.land (tbl pi_table code) PMASK_PGI =? 0) && negb (li =? 0) then
    if negb (Z.land (tbl pi_table code) PMASK_VARLEN =? 0) then li <=? tbl pi_length code else li =? tbl pi_length code
  else true.

(** ** The parameters *)

(** A case of the [switch]: the packet, with [s_errno] set where the case is
    refused, and the cursor. *)
Definition pstore : Type := cres (ssapkt * cursor).

Definition refuse (s : ssapkt) (c : cursor) : pstore := Val (set_s_errno s SC_PROTOCOL, c).

(** [store_li_u8] and [copy_li] into an array with its count. *)
Definition copy_array (s : ssapkt) (a : sarr) (flag li : Z) (c : cursor) : cres ssapkt :=
  match int2u8 li with
  | None => Val (set_s_errno s SC_PROTOCOL)
  | Some u =>
      d <- bcopy_int (Some (c_base c)) li;;
      match d with
      | None => Val (set_s_errno (set_arr s a (Cnt u (c_data (s_arr s a)))) SC_PROTOCOL)
      | Some d => data <- wr (c_data (s_arr s a)) 0 d;; Val (Set_ (set_arr s a (Cnt u data)) flag)
      end
  end.

(** PI_CALLED_SS and PI_CALLING_SS *)
Definition store_user (si code li : Z) (s : ssapkt) (c : cursor) : pstore :=
  s <- (if (si =? SPDU_CN) || (si =? SPDU_AC) then copy_array s A_cn_user SMASK_CN_REF li c
        else if si =? SPDU_RF then copy_array s A_rf_user SMASK_RF_REF li c
        else if si =? SPDU_AR then copy_array s (if code =? PI_AR_CALLED then A_ar_called else A_ar_calling) SMASK_AR_REF li c
        else Val (set_s_errno s SC_PROTOCOL));;
  Val (s, skip li c).

(** PI_COMMON_REF *)
Definition store_comm (si li : Z) (s : ssapkt) (c : cursor) : pstore :=
  s <- (if (si =? SPDU_CN) || (si =? SPDU_AC) then copy_array s A_cn_comm SMASK_CN_REF li c
        else if si =? SPDU_RF then copy_array s A_rf_comm SMASK_RF_REF li c
        else if si =? SPDU_AR then copy_array s A_ar_comm SMASK_AR_REF li c
        else Val (set_s_errno s SC_PROTOCOL));;
  Val (s, skip li c).

(** PI_ADD_INFO *)
Definition store_addt (si li : Z) (s : ssapkt) (c : cursor) : pstore :=
  s <- (if (si =? SPDU_CN) || (si =? SPDU_AC) then copy_array s A_cn_addt SMASK_CN_REF li c
        else if si =? SPDU_RF then copy_array s A_rf_addt SMASK_RF_REF li c
        else if si =? SPDU_AR then copy_array s A_ar_addt SMASK_AR_REF li c
        else Val (set_s_errno s SC_PROTOCOL));;
  Val (s, skip li c).

(** A field of one octet under a mask. *)
Definition store_octet (s : ssapkt) (f : snum) (mask flag : Z) (c : cursor) : pstore :=
  ' (v, c) <- next c;; Val (Set_ (set_num s f (Z.land (as_octet v) mask)) flag, c).

Definition store_tsdu (s : ssapkt) (c : cursor) : pstore :=
  d <- bcopy_int (Some (c_base c)) (tbl pi_length PI_TSDU_MAXSIZ);;
  match d with
  | Some [a; b; e; f] =>
      Val (Set_ (set_num (set_num s N_tsdu_init (Z.shiftl a 8 + b)) N_tsdu_resp (Z.shiftl e 8 + f)) SMASK_CN_TSDU, skip (tbl pi_length PI_TSDU_MAXSIZ) c)
  | _ => UB
  end.

Definition store_version (si : Z) (s : ssapkt) (c : cursor) : pstore :=
  if (si =? SPDU_CN) || (si =? SPDU_AC) then store_octet s N_cn_version 255 SMASK_CN_VRSN c
  else if si =? SPDU_RF then store_octet s N_rf_version 255 SMASK_RF_VRSN c
  else refuse s c.

Definition store_sync (si : Z) (s : ssapkt) (c : cursor) : pstore :=
  if si =? SPDU_MIP then store_octet s N_mip_sync MIP_SYNC_MASK SMASK_MIP_SYNC c
  else if si =? SPDU_MAP then store_octet s N_map_sync MAP_SYNC_MASK SMASK_MAP_SYNC c
  else Val (s, c).

Definition store_token_set (si : Z) (s : ssapkt) (c : cursor) : pstore :=
  if (si =? SPDU_CN) || (si =? SPDU_AC) then store_octet s N_settings 255 SMASK_CN_SET c
  else if si =? SPDU_RS then store_octet s N_rs_settings 255 SMASK_RS_SET c
  else if si =? SPDU_RA then store_octet s N_ra_settings 255 SMASK_RA_SET c
  else refuse s c.

Definition store_token (si : Z) (s : ssapkt) (c : cursor) : pstore :=
  if si =? SPDU_AC then store_octet s N_ac_token 255 SMASK_AC_TOKEN c
  else if si =? SPDU_GT then if is_set s SMASK_SPDU_GT then store_octet s N_gt_token 255 SMASK_GT_TOKEN c else refuse s c
  else if si =? SPDU_PT then store_octet s N_pt_token 255 SMASK_PT_TOKEN c
  else refuse s c.

Definition store_tdisc (si : Z) (s : ssapkt) (c : cursor) : pstore :=
  if si =? SPDU_RF then store_octet s N_rf_disconnect RF_DISC_MASK SMASK_RF_DISC c
  else if si =? SPDU_FN then store_octet s N_fn_disconnect FN_DISC_MASK SMASK_FN_DISC c
  else if si =? SPDU_AB then if is_set s SMASK_SPDU_AB then store_octet s N_ab_disconnect AB_DISC_MASK SMASK_AB_DISC c else refuse s c
  else refuse s c.

Definition store_require (si : Z) (s : ssapkt) (c : cursor) : pstore :=
  d <- bcopy_int (Some (c_base c)) 2;;
  match d with
  | Some [a; b] =>
      let v := Z.shiftl a 8 + b in
      Val (if negb (si =? SPDU_RF) then Set_ (set_num s N_cn_require v) SMASK_CN_REQ else Set_ (set_num s N_rf_require v) SMASK_RF_REQ, skip 2 c)
  | _ => UB
  end.

Definition store_ssn (s : ssapkt) (f : snum) (flag li : Z) (c : cursor) : cres ssapkt :=
  v <- str2ssn (Z.to_nat li) (c_base c) 0;; Val (Set_ (set_num s f v) flag).

Definition store_isn (si li : Z) (s : ssapkt) (c : cursor) : pstore :=
  s <- (if (si =? SPDU_CN) || (si =? SPDU_AC) then store_ssn s N_isn SMASK_CN_ISN li c else Val (set_s_errno s SC_PROTOCOL));;
  Val (s, skip li c).

Definition store_enclose (si : Z) (s : ssapkt) (c : cursor) : pstore :=
  if ((si =? SPDU_DT) && is_set s SMASK_SPDU_GT) || ((si =? SPDU_AI) && negb (is_set s SMASK_SPDU_AB)) then refuse s c
  else store_octet s N_enclose ENCL_MASK SMASK_ENCLOSE c.

Definition store_resync (s : ssapkt) (c : cursor) : pstore :=
  ' (v, c) <- next c;;
  let s := set_num s N_rs_type (as_octet v) in
  if SYNC_OK (as_octet v) then Val (Set_ s SMASK_RS_TYPE, c) else refuse s c.

Definition store_act (si li : Z) (s : ssapkt) (c : cursor) : pstore :=
  s <- (if si =? SPDU_AS then copy_array s A_as_id SMASK_AS_ID li c
        else if si =? SPDU_AR then
          if is_set s SMASK_AR_OID && (c_len (s_arr s A_ar_oid) =? 0) then copy_array s A_ar_oid 0 li c else copy_array s A_ar_id SMASK_AR_ID li c
        else Val (set_s_errno s SC_PROTOCOL));;
  Val (s, skip li c).

Definition store_serial (si li : Z) (s : ssapkt) (c : cursor) : pstore :=
  s <- (if si =? SPDU_MIP then store_ssn s N_mip_serial SMASK_MIP_SERIAL li c
        else if si =? SPDU_MAP then store_ssn s N_map_serial SMASK_MAP_SERIAL li c
        else if si =? SPDU_MIA then store_ssn s N_mia_serial SMASK_MIA_SERIAL li c
        else if si =? SPDU_MAA then store_ssn s N_maa_serial SMASK_MAA_SERIAL li c
        else if si =? SPDU_RS then store_ssn s N_rs_serial SMASK_RS_SSN li c
        else if si =? SPDU_RA then store_ssn s N_ra_serial SMASK_RA_SSN li c
        else if si =? SPDU_AR then store_ssn s N_ar_serial SMASK_AR_SSN li c
        else Val (set_s_errno s SC_PROTOCOL));;
  Val (s, skip li c).

(** PI_MIA_DATA, PI_UDATA and PI_XDATA *)
Definition store_udata (si code li : Z) (s : ssapkt) (c : cursor) : pstore :=
  let s := Set_ s SMASK_UDATA_PGI in
  if li =? 0 then Val (s, c)
  else if (si =? SPDU_AB) && negb (is_set s SMASK_SPDU_AB) then refuse s c
  else if li >? (if negb (code =? PI_XDATA) then SEGMENT_MAX else CONNECT_MAX) then refuse s c
  else if malloc_ok (u32 li) then
    d <- bcopy_int (Some (c_base c)) li;;
    match d with None => refuse s c | Some d => Val (set_udata s (Some d) li, skip li c) end
  else Val (set_s_errno (set_udata s None li) SC_CONGEST, c).

Definition store_reason1 (s : ssapkt) (f : snum) (flag li : Z) (c : cursor) : pstore :=
  ' (v, c) <- next c;;
  let s := set_num s f (as_octet v) in
  if (li =? 1) && SP_OK (as_octet v) then Val (Set_ s flag, c) else refuse s c.

Definition store_reason (si li : Z) (s : ssapkt) (c : cursor) : pstore :=
  if si =? SPDU_RF then
    if malloc_ok (u32 li) then
      d <- bcopy_int (Some (c_base c)) li;;
      match d with None => refuse s c | Some d => Val (set_rdata s (Some d) li, skip li c) end
    else Val (set_s_errno (set_rdata s None li) SC_CONGEST, c)
  else if si =? SPDU_ED then store_reason1 s N_ed_reason SMASK_ED_REASON li c
  else if si =? SPDU_AI then if is_set s SMASK_SPDU_AB then refuse s c else store_reason1 s N_ai_reason SMASK_AI_REASON li c
  else if si =? SPDU_AD then store_reason1 s N_ad_reason SMASK_AD_REASON li c
  else refuse s c.

Definition store_reflect (si li : Z) (s : ssapkt) (c : cursor) : pstore :=
  s <- (if si =? SPDU_AB then
          if negb (is_set s SMASK_SPDU_AB) || (li >? AB_REFL_SIZE) then Val (set_s_errno s SC_PROTOCOL)
          else
            d <- bcopy_int (Some (c_base c)) li;;
            match d with
            | None => Val (set_s_errno s SC_PROTOCOL)
            | Some d => r <- wr (s_reflect s) 0 d;; Val (Set_ (set_reflect s r) SMASK_AB_REFL)
            end
        else if si =? SPDU_ER then
          if malloc_ok (u32 li) then
            d <- bcopy_int (Some (c_base c)) li;;
            match d with None => Val (set_s_errno s SC_PROTOCOL) | Some d => Val (set_udata s (Some d) li) end
          else Val (set_s_errno (set_udata s None li) SC_CONGEST)
        else Val (set_s_errno s SC_PROTOCOL));;
  Val (s, skip li c).

Definition store_ssap (s : ssapkt) (a : sarr) (flag li : Z) (c : cursor) : pstore :=
  d <- bcopy_int (Some (c_base c)) li;;
  match d with
  | None => refuse s c
  | Some d => data <- wr (c_data (s_arr s a)) 0 d;; Val (Set_ (set_arr s a (Cnt li data)) flag, skip li c)
  end.

Definition store_prepare (s : ssapkt) (c : cursor) : pstore :=
  ' (v, c) <- next c;;
  let s := set_num s N_pr_type (as_octet v) in
  if as_octet v >? PR_MAX then refuse s c else Val (Set_ s SMASK_PR_TYPE, c).

(** The second [switch], but for the groups. *)
Definition store_pi (si code li : Z) (s : ssapkt) (c : cursor) : pstore :=
  if (code =? PI_CALLED_SS) || (code =? PI_CALLING_SS) then store_user si code li s c
  else if code =? PI_COMMON_REF then store_comm si li s c
  else if code =? PI_ADD_INFO then store_addt si li s c
  else if code =? PI_PROTOCOL_OPT then store_octet s N_options CR_OPT_MASK SMASK_CN_OPT c
  else if code =? PI_TSDU_MAXSIZ then store_tsdu s c
  else if code =? PI_VERSION then store_version si s c
  else if code =? PI_SYNC then store_sync si s c
  else if code =? PI_TOKEN_SET then store_token_set si s c
  else if code =? PI_TOKEN then store_token si s c
  else if code =? PI_TDISC then store_tdisc si s c
  else if code =? PI_USER_REQ then store_require si s c
  else if code =? PI_ISN then store_isn si li s c
  else if code =? PI_ISN2 then Val (s, skip li c)
  else if code =? PI_ENCLOSE then store_enclose si s c
  else if code =? PI_RESYNC then store_resync s c
  else if code =? PI_ACT_ID then store_act si li s c
  else if code =? PI_SERIAL then store_serial si li s c
  else if (code =? PI_MIA_DATA) || (code =? PI_UDATA) || (code =? PI_XDATA) then store_udata si code li s c
  else if code =? PI_REASON then store_reason si li s c
  else if code =? PI_REFLECT then store_reflect si li s c
  else if code =? PI_SSAP_CALLING then store_ssap s A_calling SMASK_CN_CALLING li c
  else if code =? PI_SSAP_CALLED then store_ssap s A_called SMASK_CN_CALLED li c
  else if code =? PI_PREPARE then store_prepare s c
  else Val (s, skip li c).

(** One round of the loop: the packet, [pktlen], [pgilen] and the cursor. *)
Definition read_round (si pmask : Z) (s : ssapkt) (pktlen pgilen : Z) (c : cursor) : cres (ssapkt * Z * Z * cursor) :=
  r <- read_header c;;
  match r with
  | inl c => Val (set_s_errno s SC_PROTOCOL, pktlen, pgilen, c)
  | inr (code, li, xlen, c) =>
      if negb (pi_allowed pmask code li) then Val (set_s_errno s SC_PROTOCOL, pktlen, pgilen, c)
      else
        let pgilen := (if pgilen =? 0 then pktlen else pgilen) - xlen in
        let pktlen := pktlen - (xlen + li) in
        if li >? pgilen then Val (set_s_errno s SC_PROTOCOL, pktlen, pgilen, c)
        else
          let pgilen := pgilen - li in
          ' (ok, c) <- (if negb (li =? 0) then advance li c else Val (true, c));;
          if negb ok || negb (pi_fits code li) then Val (set_s_errno s SC_PROTOCOL, pktlen, pgilen, c)
          else if code =? PGI_AR_LINK then Val (Set_ s SMASK_AR_OID, pktlen + li, li, c)
          else if code =? PGI_CN_ID then Val (Set_ s SMASK_CN_REF, pktlen + li, li, c)
          else if code =? PGI_CN_ITEMS then Val (s, pktlen + li, li, c)
          else ' (s, c) <- store_pi si code li s c;; Val (s, pktlen, pgilen, c)
  end.

Fixpoint read_loop (fuel : nat) (si pmask : Z) (s : ssapkt) (pktlen pgilen : Z) (c : cursor) : cres (ssapkt * cursor) :=
  if negb (pktlen =? 0) && (s_errno s =? SC_ACCEPT) then
    match fuel with
    | O => UB
    | S fuel' => ' (s, pktlen, pgilen, c) <- read_round si pmask s pktlen pgilen c;; read_loop fuel' si pmask s pktlen pgilen c
    end
  else Val (s, c).

(** The parameters an SPDU must have. *)
Definition mandatory (s : ssapkt) : bool :=
  let code := s_code s in
  if code =? SPDU_AB then negb (is_set s SMASK_SPDU_AB) || is_set s SMASK_AB_DISC
  else if code =? SPDU_MIP then is_set s SMASK_MIP_SERIAL
  else if code =? SPDU_MAP then is_set s SMASK_MAP_SERIAL
  else if code =? SPDU_MIA then is_set s SMASK_MIA_SERIAL
  else if code =? SPDU_MAA then is_set s SMASK_MAA_SERIAL
  else if code =? SPDU_RS then is_set s SMASK_RS_TYPE && is_set s SMASK_RS_SSN
  else if code =? SPDU_RA then is_set s SMASK_RA_SSN
  else if code =? SPDU_PR then is_set s SMASK_PR_TYPE
  else if code =? SPDU_ED then is_set s SMASK_ED_REASON
  else if code =? SPDU_AS then is_set s SMASK_AS_ID
  else if code =? SPDU_AR then is_set s SMASK_AR_OID && is_set s SMASK_AR_SSN && is_set s SMASK_AR_ID
  else true.

(** The mask of an SPDU that shares its code with another one. *)
Definition category0 (si : Z) (s : ssapkt) : ssapkt :=
  if si =? SPDU_GT then Set_ s SMASK_SPDU_GT
  else if si =? SPDU_AB then Set_ s SMASK_SPDU_AB
  else if si =? SPDU_AA then Set_ s SMASK_SPDU_AA
  else s.

(** The first buffer when it is used up. *)
Definition dangling (qb : list qseg) : list qseg :=
  match qb with qp :: l => if seg_len qp <=? 0 then l else qb | [] => [] end.

(** [*cc] on entry is [cat0], or 1 for a null pointer. The packet, [*cc] on
    return, the queue and the static buffer. *)
Definition tsdu2spkt (qb : list qseg) (buffer : option (list Z)) (len cat0 : Z) : cres (option ssapkt * Z * list qseg * option (list Z)) :=
  ' (base, qb, buffer) <- pullqb qb buffer 2;;
  match base with
  | None => Val (None, 0, qb, buffer)
  | Some base =>
      si <- rd base 0;;
      let si := as_octet si in
      match newspkt sizeof_spkt si with
      | None => Val (None, 0, qb, buffer)
      | Some s =>
          let err s qb buffer := Val (Some (set_s_errno s SC_PROTOCOL), 0, qb, buffer) in
          l <- rd base 1;;
          ' (r, nread, qb, buffer) <-
            (if l =? 255 then
               ' (base, qb, buffer) <- pullqb qb buffer 2;;
               match base with
               | None => Val (None, 2, qb, buffer)
               | Some base => hi <- rd base 0;; lo <- rd base 1;; Val (Some (Z.shiftl hi 8 + lo), 4, qb, buffer)
               end
             else Val (Some l, 2, qb, buffer));;
          match r with
          | None => err s qb buffer
          | Some li =>
              let s := set_s_li s li in
              if (nread =? 4) && (li <? 255) then err s qb buffer
              else
                let s := if negb (cat0 =? 0) then category0 si s else s in
                let pmask := tbl si_table si in
                if (si >=? SI_TABLE_LEN) || (pmask =? PMASK_NOTSUPPORTED) then err s qb buffer
                else if len <? li + nread then err s qb buffer
                else
                  ' (s, c) <- read_loop (Z.to_nat li) si pmask (set_s_errno s SC_ACCEPT) li li (Cur [] 0 qb buffer nread);;
                  Val (Some (if mandatory s then s else set_s_errno s SC_PROTOCOL), c_nread c, dangling (c_qb c), c_buffer c)
          end
      end
  end.
End Reader.

(** * Reading well-formed octets *)

Section Pull.
Context `{Allocator} (fresh : Z -> list Z) (Mem : memory_ok) (Fresh : forall n, 0 <= n -> zlen (fresh n) = n).

(** ** The queue *)

Definition buffer_ok (b : option (list Z)) : Prop := match b with Some b => zlen b = SEGMENT_MAX | None => True end.

Lemma seg_split q i : seg_ok q -> 0 <= i <= seg_len q ->
  seg_ok (QSeg (zdrop i (qb_data q)) (seg_len q - i)) /\ seg_octets q = ztake i (qb_data q) ++ seg_octets (QSeg (zdrop i (qb_data q)) (seg_len q - i)).
Proof.
  intros (L & B) I; destruct q as [d n]; unfold seg_ok, seg_octets in *; cbn [qb_data seg_len] in *.
  assert (E : ztake n d = ztake i d ++ ztake (n - i) (zdrop i d)).
  { rewrite <- (ztake_zdrop i (ztake n d)) at 1; unfold ztake, zdrop; rewrite firstn_firstn, skipn_firstn_comm; f_equal; f_equal; lia. }
  split; [split; [rewrite zlen_zdrop; lia|] | exact E]; rewrite E in B; apply bytes_app in B; apply B.
Qed.

(** A part [i] octets long of what the first buffer holds. *)
Lemma seg_copy q i : seg_ok q -> 0 <= i <= seg_len q -> bcopy_int (Some (qb_data q)) i = Val (Some (ztake i (qb_data q))).
Proof. intros (L & _) I; unfold bcopy_int; rewrite int2sizet_Some by lia; unfold rdn_ptr; rewrite rdn_in, zdrop_0 by lia; reflexivity. Qed.

(** The octets of the queue go on into the buffer after [y]. *)
Lemma gather_spec l : Forall seg_ok l -> forall n y z x rest, ring_octets l = x ++ rest -> zlen x = n ->
  zlen (y ++ z) = SEGMENT_MAX -> zlen y + n <= SEGMENT_MAX ->
  exists j l', pull_loop fresh l n false (Some (y ++ z)) (zlen y) = Val (Some (y ++ x ++ j), l', Some (y ++ x ++ j)) /\
    Forall seg_ok l' /\ ring_octets l' = rest /\ zlen (y ++ x ++ j) = SEGMENT_MAX.
Proof.
  induction 1 as [|q l Q Hl IH]; intros n y z x rest E Ln Lb C; cbn [pull_loop]; rewrite Z.gtb_ltb; destruct (Z.ltb_spec 0 n).
  - symmetry in E; apply app_eq_nil in E as (-> & _); rewrite zlen_nil in Ln; lia.
  - assert (x = []) by (apply zlen_0; pose proof (zlen_nonneg x); lia); subst x; exists z, []; cbn [app]; auto.
  - cbn [andb]; pose proof Q as (Lq & _); set (i := Z.min (seg_len q) n); rewrite seg_copy by (unfold i; assumption || lia); cbn [cbind].
    destruct (seg_split q i Q ltac:(unfold i; lia)) as (Q' & Eq); rewrite ring_octets_cons, Eq, <- app_assoc in E; set (d := ztake i (qb_data q)) in *.
    assert (Ld : zlen d = i) by (apply zlen_ztake; unfold i; lia); rewrite zlen_app in Lb; pose proof (zlen_nonneg y); pose proof (zlen_nonneg z).
    replace (y ++ z) with (y ++ ztake i z ++ zdrop i z) by (rewrite ztake_zdrop; reflexivity); rewrite wr_app by (rewrite ?zlen_ztake; unfold i in *; lia); cbn [cbind].
    assert (Sx : exists x', x = d ++ x' /\ seg_octets (QSeg (zdrop i (qb_data q)) (seg_len q - i)) ++ ring_octets l = x' ++ rest).
    { exists (zdrop i x); assert (T : ztake i x = d).
      { rewrite <- (ztake_app_l i x rest) by (unfold i; lia); rewrite <- E; apply ztake_app_exact; lia. }
      split; [rewrite <- T, ztake_zdrop; reflexivity|]; rewrite <- (zdrop_app_l i x rest) by (unfold i; lia); rewrite <- E.
      symmetry; apply zdrop_app_exact; lia. }
    destruct Sx as (x' & -> & E'); rewrite zlen_app in Ln.
    assert (Lz : zlen (zdrop i z) = zlen z - i) by (apply zlen_zdrop; unfold i in *; lia).
    destruct (Z.leb_spec (seg_len q - i) 0).
    + replace (seg_len q - i) with 0 in E' by (unfold i in *; lia).
      change (seg_octets (QSeg (zdrop i (qb_data q)) 0)) with (@nil Z) in E'; cbn [app] in E'.
      destruct (IH (n - i) (y ++ d) (zdrop i z) x' rest E' ltac:(lia)) as (j & l' & R & S & O & Z).
      * rewrite !zlen_app, Lz; lia.
      * rewrite zlen_app; lia.
      * exists j, l'; rewrite zlen_app, Ld in R; rewrite <- !app_assoc in R; rewrite <- !app_assoc in Z; rewrite <- !app_assoc; auto.
    + assert (n = i) by (unfold i in *; lia); assert (x' = []) by (apply zlen_0; lia); subst x'; cbn [app] in E'.
      exists (zdrop i z), (QSeg (zdrop i (qb_data q)) (seg_len q - i) :: l); rewrite app_nil_r; split; [reflexivity|].
      split; [constructor; assumption|]; split; [exact E' | rewrite !zlen_app, Lz; lia].
  - assert (x = []) by (apply zlen_0; pose proof (zlen_nonneg x); lia); subst x; exists z, (q :: l); cbn [app]; repeat (split; [auto; fail|]); auto.
Qed.

(** [pullqb] returns the next octets of the queue, however it is cut. *)
Lemma pullqb_spec l n b x rest : Forall seg_ok l -> buffer_ok b -> ring_octets l = x ++ rest -> zlen x = n -> 0 < n <= SEGMENT_MAX ->
  exists j l' b', pullqb fresh l b n = Val (Some (x ++ j), l', b') /\ Forall seg_ok l' /\ ring_octets l' = rest /\ buffer_ok b'.
Proof.
  intros Hl Bo E Ln N; unfold pullqb; rewrite Z.gtb_ltb, (proj2 (Z.ltb_ge SEGMENT_MAX n)) by lia.
  destruct Hl as [|q l Q Hl]; cbn [pull_loop]; rewrite Z.gtb_ltb, (proj2 (Z.ltb_lt 0 n)) by lia.
  { symmetry in E; apply app_eq_nil in E as (-> & _); rewrite zlen_nil in Ln; lia. }
  pose proof Q as (Lq & _); destruct (Z.leb_spec n (seg_len q)).
  - rewrite Z.min_r, Z.eqb_refl by lia; cbn [andb]; destruct (seg_split q n Q ltac:(lia)) as (Q' & Eq); rewrite ring_octets_cons, Eq, <- app_assoc in E.
    apply app_same_length in E as (E1 & E2); [|rewrite zlen_ztake by lia; lia].
    exists (zdrop n (qb_data q)); do 2 eexists; rewrite <- E1, ztake_zdrop; split; [reflexivity|]; split; [constructor; assumption | split; [exact E2 | exact Bo]].
  - rewrite Z.min_l, (proj2 (Z.eqb_neq (seg_len q) n)) by lia; cbn [andb]; rewrite Mem.
    set (r := match b with Some b => Some (b, 0) | None => Some (fresh SEGMENT_MAX, 0) end).
    assert (R : exists m, r = Some (m, 0) /\ zlen m = SEGMENT_MAX) by (unfold r; destruct b; eexists; split; [reflexivity | exact Bo | reflexivity | apply Fresh; discriminate]).
    destruct R as (m & -> & Lm); rewrite seg_copy by (assumption || lia); cbn [cbind]; set (d := ztake (seg_len q) (qb_data q)).
    assert (Ld : zlen d = seg_len q) by (apply zlen_ztake; lia); rewrite wr_in by lia; rewrite ztake_0, Z.sub_diag by lia; cbn [cbind app]; change (0 <=? 0) with true; cbn match.
    change (ring_octets (q :: l)) with (d ++ ring_octets l) in E.
    assert (Sx : exists x', x = d ++ x' /\ ring_octets l = x' ++ rest).
    { exists (zdrop (zlen d) x); assert (T : ztake (zlen d) x = d) by (rewrite <- (ztake_app_l (zlen d) x rest) by lia; rewrite <- E; apply ztake_app_exact; reflexivity).
      split; [rewrite <- T at 1; rewrite ztake_zdrop; reflexivity|]; rewrite <- (zdrop_app_l (zlen d) x rest) by lia; rewrite <- E; symmetry; apply zdrop_app_exact; reflexivity. }
    destruct Sx as (x' & -> & E'); rewrite zlen_app in Ln; rewrite Z.add_0_l.
    destruct (gather_spec l Hl (n - seg_len q) d (zdrop (zlen d) m) x' rest E') as (j & l' & G & S & O & Z); [lia | rewrite zlen_app, zlen_zdrop; lia | lia|].
    rewrite Ld in G at 2; exists j, l'; rewrite <- app_assoc; eexists; rewrite Ld in *; split; [exact G | auto].
Qed.
(** ** The cursor *)

(** The pointer is [y] octets in front of the end of what was pulled, and
    [x] is still in the queue. *)
Record inside (c : cursor) (y x : list Z) : Prop := {
  in_base : exists j, c_base c = y ++ j;
  in_left : c_left c = zlen y;
  in_segs : Forall seg_ok (c_qb c);
  in_queue : ring_octets (c_qb c) = x;
  in_buffer : buffer_ok (c_buffer c)
}.

Lemma inside_skip c d y x : inside c (d ++ y) x -> inside (skip (zlen d) c) y x.
Proof.
  intros [(j & B) L S Q F]; split; cbn [skip c_base c_left c_qb c_buffer]; try assumption.
  - exists j; rewrite B, <- app_assoc; apply zdrop_app_exact; reflexivity.
  - rewrite L, zlen_app; lia.
Qed.

(** Octets of a new block are pulled. *)
Lemma advance_pulls c d x n : inside c [] (d ++ x) -> zlen d = n -> 0 < n <= SEGMENT_MAX ->
  exists c', advance fresh n c = Val (true, c') /\ inside c' d x /\ c_nread c' = c_nread c + n.
Proof.
  intros [_ L S Q F] Ld N; unfold advance; rewrite L; change (zlen (@nil Z) <=? 0) with true; cbn match.
  destruct (pullqb_spec _ n (c_buffer c) d x S F Q Ld N) as (j & l' & b' & -> & S' & Q' & F'); cbn [cbind].
  eexists; split; [reflexivity|]; split; [split; cbn; eauto | reflexivity].
Qed.

Lemma advance_stays c y x n : inside c y x -> y <> [] -> advance fresh n c = Val (true, c).
Proof.
  intros [_ L _ _ _] Y; unfold advance; rewrite L; destruct y; [contradiction|]; rewrite zlen_cons; pose proof (zlen_nonneg y).
  rewrite (proj2 (Z.leb_gt _ 0)) by lia; reflexivity.
Qed.

Lemma inside_next c a y x : inside c (a :: y) x -> next c = Val (a, skip 1 c) /\ inside (skip 1 c) y x.
Proof.
  intros I; split; [|apply (inside_skip c [a] y x I)]; destruct (in_base _ _ _ I) as (j & B); unfold next; rewrite B; reflexivity.
Qed.

Lemma inside_rd c a y x : inside c (a :: y) x -> rd (c_base c) 0 = Val a.
Proof. intros I; destruct (in_base _ _ _ I) as (j & B); rewrite B; reflexivity. Qed.

Lemma inside_rd1 c a b y x : inside c (a :: b :: y) x -> rd (c_base c) 1 = Val b.
Proof. intros I; destruct (in_base _ _ _ I) as (j & B); rewrite B; cbn [app]; rewrite rd_consS by lia; reflexivity. Qed.

Definition hdr_len (n : Z) : Z := if n <? 255 then 2 else 4.

Lemma zlen_hdr code n : zlen (code :: enc_li n) = hdr_len n.
Proof. rewrite zlen_cons, zlen_enc_li; unfold hdr_len; destruct (n <? 255); reflexivity. Qed.

(** The length in two octets. *)
Lemma li_octets n : 255 <= n < 65536 -> Z.shiftl (Z.land (Z.shiftr n 8) 255) 8 + Z.land n 255 = n.
Proof.
  intros N; rewrite !land_ff, shr8, Z.shiftl_mul_pow2 by lia; change (2 ^ 8) with 256; rewrite (Z.mod_small (n / 256)) by (split; [apply Z.div_pos | apply Z.div_lt_upper_bound]; lia).
  pose proof (Z.div_mod n 256); lia.
Qed.

Lemma rd_second a b l : rd (a :: b :: l) 1 = Val b.
Proof. rewrite rd_consS by lia; apply rd_cons0. Qed.

(** The header of a parameter, at the end of a block. *)
Lemma header_pulled c code n x : is_byte code -> 0 <= n < 65536 -> inside c [] ((code :: enc_li n) ++ x) ->
  exists c', read_header fresh c = Val (inr (code, n, hdr_len n, c')) /\ inside c' [] x /\ c_nread c' = c_nread c + hdr_len n.
Proof.
  intros C N I; unfold read_header, hdr_len, enc_li in *; destruct (Z.ltb_spec n 255).
  - destruct (advance_pulls c [code; n] x 2 I eq_refl ltac:(unfold SEGMENT_MAX; lia)) as (c1 & -> & I1 & R1); cbn [cbind negb].
    destruct (inside_next _ _ _ _ I1) as (-> & I2); cbn [cbind]; rewrite (inside_rd _ _ _ _ I2); cbn [cbind].
    rewrite (proj2 (Z.eqb_neq n 255)), as_octet_id by (assumption || lia).
    eexists; split; [reflexivity|]; split; [apply (inside_skip _ [n] [] x I2) | exact R1].
  - set (hi := Z.land (Z.shiftr n 8) 255); set (lo := Z.land n 255).
    change ((code :: [255; hi; lo]) ++ x) with ([code; 255] ++ [hi; lo] ++ x) in I.
    destruct (advance_pulls c [code; 255] _ 2 I eq_refl ltac:(unfold SEGMENT_MAX; lia)) as (c1 & -> & I1 & R1); cbn [cbind negb].
    destruct (inside_next _ _ _ _ I1) as (-> & I2); cbn [cbind]; rewrite (inside_rd _ _ _ _ I2); cbn [cbind]; change (255 =? 255) with true; cbn match.
    destruct (advance_pulls (skip 1 (skip 1 c1)) [hi; lo] x 2 (inside_skip _ [255] [] _ I2) eq_refl ltac:(unfold SEGMENT_MAX; lia)) as (c2 & -> & I3 & R2); cbn [cbind negb].
    rewrite (inside_rd _ _ _ _ I3), (inside_rd1 _ _ _ _ _ I3); cbn [cbind].
    unfold hi, lo; rewrite li_octets by lia; fold hi lo.
    rewrite (proj2 (Z.ltb_ge n 255)), as_octet_id by assumption.
    eexists; split; [reflexivity|]; split; [apply (inside_skip _ [hi; lo] [] x I3)|]; cbn [skip c_nread] in *; rewrite R2; cbn [c_nread]; rewrite R1; lia.
Qed.

(** The header of a parameter of a group. *)
Lemma header_inside c code n y x : is_byte code -> 0 <= n < 255 -> inside c ([code; n] ++ y) x ->
  exists c', read_header fresh c = Val (inr (code, n, 2, c')) /\ inside c' y x /\ c_nread c' = c_nread c.
Proof.
  intros C N I; unfold read_header; rewrite (advance_stays _ _ _ 2 I) by discriminate; cbn [cbind negb].
  destruct (inside_next _ _ _ _ I) as (-> & I2); cbn [cbind]; rewrite (inside_rd _ _ _ _ I2); cbn [cbind].
  rewrite (proj2 (Z.eqb_neq n 255)), as_octet_id by (assumption || lia).
  eexists; split; [reflexivity|]; split; [apply (inside_skip _ [n] y x I2) | reflexivity].
Qed.
End Pull.

(** ** A parameter is stored from its own octets *)

(** What [f] makes of a block that holds [v] it makes of one that goes on. *)
Definition reads {A} (f : cursor -> cres A) : Prop := forall v l a, f (Cur v l [] None 0) = Val a ->
  forall j l2 qb b n, f (Cur (v ++ j) l2 qb b n) = Val a.

Definition extends (f : cursor -> pstore) : Prop := forall v l s c, f (Cur v l [] None 0) = Val (s, c) ->
  exists k, 0 <= k /\ c_left c = l - k /\ forall j l2 qb b n, f (Cur (v ++ j) l2 qb b n) = Val (s, skip k (Cur (v ++ j) l2 qb b n)).

Lemma skip_0 c : skip 0 c = c.
Proof. destruct c; unfold skip; cbn [c_base c_left c_qb c_buffer c_nread]; rewrite zdrop_0, Z.sub_0_r by lia; reflexivity. Qed.

Lemma skip_skip a b c : 0 <= a -> 0 <= b -> skip a (skip b c) = skip (b + a) c.
Proof. intros A B; unfold skip; cbn [c_base c_left c_qb c_buffer c_nread]; rewrite zdrop_zdrop by assumption; f_equal; [f_equal; lia | lia]. Qed.

Lemma reads_ret {A} (a : A) : reads (fun _ => Val a).
Proof. intros v l a' [= <-]; reflexivity. Qed.

Lemma reads_bind {A B} (f : cursor -> cres A) (g : A -> cursor -> cres B) : reads f -> (forall a, reads (g a)) -> reads (fun c => x <- f c;; g x c).
Proof.
  intros F G v l a E j l2 qb b n; destruct (f (Cur v l [] None 0)) as [x|] eqn:Ef; [|discriminate]; cbn [cbind] in E.
  rewrite (F _ _ _ Ef); cbn [cbind]; apply (G x v l), E.
Qed.

Lemma reads_copy li : reads (fun c => bcopy_int (Some (c_base c)) li).
Proof.
  intros v l a E j l2 qb b n; unfold bcopy_int in *; destruct (int2sizet li) as [m|]; [|exact E]; cbn [rdn_ptr c_base] in *.
  destruct (rdn v 0 m) as [d|] eqn:R; [|discriminate]; rewrite rdn_app_l; [rewrite R; exact E|].
  apply rdn_Val in R; lia.
Qed.

Lemma reads_str2ssn k : forall u, reads (fun c => str2ssn k (c_base c) u).
Proof.
  assert (P : forall k v u a j, str2ssn k v u = Val a -> str2ssn k (v ++ j) u = Val a).
  { clear k; induction k as [|k IH]; intros v u a j E; [exact E|]; destruct v as [|c v]; [discriminate|]; cbn [app str2ssn] in *.
    destruct (_ || _)%bool; [exact E|]; destruct (_ >? _); [exact E|]; apply IH, E. }
  intros u v l a E j l2 qb b n; apply P, E.
Qed.

Lemma extends_bind {A} (f : cursor -> cres A) (g : A -> cursor -> pstore) : reads f -> (forall a, extends (g a)) -> extends (fun c => x <- f c;; g x c).
Proof.
  intros F G v l s c E; destruct (f (Cur v l [] None 0)) as [x|] eqn:Ef; [|discriminate]; cbn [cbind] in E.
  destruct (G x v l s c E) as (k & K & L & X); exists k; split; [exact K|]; split; [exact L|].
  intros j l2 qb b n; rewrite (F _ _ _ Ef); cbn [cbind]; apply X.
Qed.

Lemma extends_skip s k : 0 <= k -> extends (fun c => Val (s, skip k c)).
Proof. intros K v l s' c [= <- <-]; exists k; split; [exact K|]; split; [reflexivity|]; reflexivity. Qed.

Lemma extends_ret s : extends (fun c => Val (s, c)).
Proof. intros v l s' c [= <- <-]; exists 0; split; [lia|]; split; [symmetry; apply Z.sub_0_r|]; intros; rewrite skip_0; reflexivity. Qed.

Lemma extends_next (g : Z -> cursor -> pstore) : (forall a, extends (g a)) -> extends (fun c => ' (v, c) <- next c;; g v c).
Proof.
  intros G v l s c E; unfold next in E; cbn [c_base] in E; destruct v as [|a v]; [discriminate|]; rewrite rd_cons0 in E; cbn [cbind] in E.
  change (skip 1 (Cur (a :: v) l [] None 0)) with (Cur v (l - 1) [] None 0) in E.
  destruct (G a v (l - 1) s c E) as (k & K & L & X); exists (1 + k); split; [lia|]; split; [lia|].
  intros j l2 qb b n; unfold next; cbn [app c_base]; rewrite rd_cons0; cbn [cbind].
  rewrite <- skip_skip by lia; change (skip 1 (Cur (a :: v ++ j) l2 qb b n)) with (Cur (v ++ j) (l2 - 1) qb b n); apply X.
Qed.

Lemma extends_if (b : bool) f g : extends f -> extends g -> extends (fun c => if b then f c else g c).
Proof. destruct b; auto. Qed.

Lemma reads_if {A} (b : bool) (f g : cursor -> cres A) : reads f -> reads g -> reads (fun c => if b then f c else g c).
Proof. destruct b; auto. Qed.

Lemma extends_copy li (g : option (list Z) -> cursor -> pstore) : (forall d, extends (g d)) -> extends (fun c => d <- bcopy_int (Some (c_base c)) li;; g d c).
Proof. apply (extends_bind (fun c => bcopy_int (Some (c_base c)) li)), reads_copy. Qed.

Create HintDb stores.
#[local] Hint Resolve reads_ret reads_copy reads_str2ssn reads_if extends_skip extends_ret extends_next extends_if extends_copy : stores.

Section Stores.
Context `{Allocator}.

Lemma reads_wr {A} (b : list Z) i d (f : list Z -> A) : reads (fun _ => x <- wr b i d;; Val (f x)).
Proof. intros v l a E; intros; exact E. Qed.

Lemma reads_copy_array s a flag li : reads (copy_array s a flag li).
Proof.
  unfold copy_array; destruct (int2u8 li) as [u|]; [|apply reads_ret].
  apply (reads_bind (fun c => bcopy_int (Some (c_base c)) li)); [apply reads_copy|]; intros [d|]; [apply reads_wr | apply reads_ret].
Qed.

Lemma reads_store_ssn s f flag li : reads (store_ssn s f flag li).
Proof. apply (reads_bind (fun c => str2ssn (Z.to_nat li) (c_base c) 0)); [apply reads_str2ssn | intros; apply reads_ret]. Qed.

(** A choice of arrays, or of serial numbers, and the octets skipped. *)
Lemma extends_then f li : 0 <= li -> reads f -> extends (fun c => s <- f c;; Val (s, skip li c)).
Proof. intros L F; apply extends_bind; [exact F | intros; apply extends_skip, L]. Qed.

Lemma extends_octet s f mask flag : extends (store_octet s f mask flag).
Proof. apply extends_next; intros; apply extends_ret. Qed.

Lemma extends_reason1 s f flag li : extends (store_reason1 s f flag li).
Proof. apply extends_next; intros; apply (extends_if ((li =? 1) && SP_OK (as_octet a))); apply extends_ret. Qed.

#[local] Hint Resolve reads_copy_array reads_store_ssn extends_octet extends_reason1 : stores.

Ltac store := cbv beta; first [ solve [auto with stores] | apply extends_then; [assumption | solve [repeat first [apply reads_if | auto with stores]]] ].

Lemma extends_store_udata si code li s : 0 <= li -> extends (store_udata si code li s).
Proof.
  intros L; unfold store_udata; destruct (li =? 0); [apply extends_ret|]; destruct (_ && _)%bool; [apply extends_ret|].
  destruct (li >? _); [apply extends_ret|]; destruct (malloc_ok _); [|apply extends_ret].
  apply extends_copy; intros [d|]; [apply extends_skip, L | apply extends_ret].
Qed.

Lemma extends_store_reason si li s : 0 <= li -> extends (store_reason si li s).
Proof.
  intros L; unfold store_reason; destruct (si =? SPDU_RF).
  - destruct (malloc_ok _); [|apply extends_ret]; apply extends_copy; intros [d|]; [apply extends_skip, L | apply extends_ret].
  - destruct (si =? SPDU_ED); [apply extends_reason1|]; destruct (si =? SPDU_AI); [|destruct (si =? SPDU_AD); [apply extends_reason1 | apply extends_ret]].
    destruct (is_set _ _); [apply extends_ret | apply extends_reason1].
Qed.

Lemma extends_store_reflect si li s : 0 <= li -> extends (store_reflect si li s).
Proof.
  intros L; apply extends_then; [exact L|]; destruct (si =? SPDU_AB); [destruct (_ || _)%bool; [apply reads_ret|]|destruct (si =? SPDU_ER); [|apply reads_ret]].
  - apply (reads_bind (fun c => bcopy_int (Some (c_base c)) li)); [apply reads_copy|]; intros [d|]; [apply reads_wr | apply reads_ret].
  - destruct (malloc_ok _); [|apply reads_ret].
    apply (reads_bind (fun c => bcopy_int (Some (c_base c)) li)); [apply reads_copy|]; intros [d|]; apply reads_ret.
Qed.

Lemma extends_store_ssap s a flag li : 0 <= li -> extends (store_ssap s a flag li).
Proof.
  intros L; apply extends_copy; intros [d|]; [|apply extends_ret].
  apply (extends_bind (fun _ => wr (c_data (s_arr s a)) 0 d)); [intros v l x E; intros; exact E | intros; apply extends_skip, L].
Qed.

Lemma extends_store_tsdu s : extends (store_tsdu s).
Proof.
  apply extends_copy; intros [[|a [|b [|c [|d [|]]]]]|]; try (apply extends_skip; discriminate); intros ? ? ? ? E; discriminate.
Qed.

Lemma extends_store_require si s : extends (store_require si s).
Proof. apply extends_copy; intros [[|a [|b [|]]]|]; try (apply extends_skip; discriminate); intros ? ? ? ? E; discriminate. Qed.

#[local] Hint Resolve extends_store_udata extends_store_reason extends_store_reflect extends_store_ssap extends_store_tsdu extends_store_require : stores.

Lemma extends_store_pi si code li s : 0 <= li -> extends (store_pi si code li s).
Proof.
  intros L; unfold store_pi, store_user, store_comm, store_addt, store_version, store_sync, store_token_set, store_token, store_tdisc, store_isn,
    store_enclose, store_resync, store_act, store_serial, store_prepare, refuse.
  repeat first [ solve [auto with stores] | apply extends_then; [exact L | solve [repeat first [auto with stores; fail | apply reads_if | auto with stores]]] | apply extends_if ].
Qed.

(** What a parameter does to the packet, when it is not refused. *)
Definition effect (si : Z) (p : spi) (s : ssapkt) : option ssapkt :=
  match store_pi si (fst p) (zlen (snd p)) s (Cur (snd p) (zlen (snd p)) [] None 0) with
  | Val (s, c) => if (c_left c =? 0) && (s_errno s =? SC_ACCEPT) then Some s else None
  | UB => None
  end.

Lemma effect_stores si p s s' c y x : effect si p s = Some s' -> inside c (snd p ++ y) x ->
  exists c', store_pi si (fst p) (zlen (snd p)) s c = Val (s', c') /\ inside c' y x /\ c_nread c' = c_nread c /\ s_errno s' = SC_ACCEPT.
Proof.
  unfold effect; intros E I; destruct (store_pi _ _ _ _ _) as [[s1 c1]|] eqn:P; [|discriminate].
  destruct (Z.eqb_spec (c_left c1) 0) as [L|]; [|discriminate]; destruct (Z.eqb_spec (s_errno s1) SC_ACCEPT) as [A|]; [|discriminate]; injection E as <-.
  destruct (extends_store_pi si (fst p) (zlen (snd p)) s (zlen_nonneg _) _ _ _ _ P) as (k & K & Lk & X); assert (k = zlen (snd p)) by lia; subst k.
  pose proof I as [(j & B) Il _ _ _]; destruct c as [b l qb bf n]; cbn [c_base c_left] in B, Il; subst b l; rewrite <- app_assoc in *.
  exists (skip (zlen (snd p)) (Cur (snd p ++ y ++ j) (zlen (snd p ++ y)) qb bf n)); split; [apply X|].
  split; [apply inside_skip, I | split; [reflexivity | exact A]].
Qed.
End Stores.

(** ** Rounds *)

Ltac tuple := repeat (reflexivity || lia || f_equal).

Section Rounds.
Context `{Allocator} (fresh : Z -> list Z) (Mem : memory_ok) (Fresh : forall n, 0 <= n -> zlen (fresh n) = n).

Definition group_codes : list Z := [PGI_AR_LINK; PGI_CN_ID; PGI_CN_ITEMS].

Definition pi_ok (si : Z) (p : spi) : Prop :=
  is_byte (fst p) /\ zlen (snd p) <= SEGMENT_MAX /\ pi_allowed (tbl si_table si) (fst p) (zlen (snd p)) = true /\
  pi_fits (fst p) (zlen (snd p)) = true /\ ~ In (fst p) group_codes.

(** What a group does by itself. *)
Definition group_effect (code : Z) (s : ssapkt) : ssapkt :=
  if code =? PGI_AR_LINK then Set_ s SMASK_AR_OID else if code =? PGI_CN_ID then Set_ s SMASK_CN_REF else s.

Definition group_ok (si code : Z) (l : list spi) : Prop :=
  In code group_codes /\ pi_allowed (tbl si_table si) code (zlen (enc_pis l)) = true /\ zlen (enc_pis l) < 255 /\ Forall (pi_ok si) l.

Lemma zlen_pi p : zlen (enc_pi p) = hdr_len (zlen (snd p)) + zlen (snd p).
Proof. rewrite zlen_enc_pi; unfold hdr_len; lia. Qed.

Lemma hdr_pos n : 2 <= hdr_len n <= 4.
Proof. unfold hdr_len; destruct (n <? 255); lia. Qed.

(** The part of a round that follows the header. *)
Lemma round_store si p s s' c y x : pi_ok si p -> effect si p s = Some s' ->
  (inside c [] (snd p ++ x) /\ y = [] \/ inside c (snd p ++ y) x) ->
  exists c1 c', (if negb (zlen (snd p) =? 0) then advance fresh (zlen (snd p)) c else Val (true, c)) = Val (true, c1) /\
    store_pi si (fst p) (zlen (snd p)) s c1 = Val (s', c') /\ inside c' y x /\ s_errno s' = SC_ACCEPT /\
    (y = [] -> inside c [] (snd p ++ x) -> c_nread c' = c_nread c + zlen (snd p)) /\
    (inside c (snd p ++ y) x -> c_nread c' = c_nread c).
Proof.
  intros (_ & L & _) E I; pose proof (zlen_nonneg (snd p)) as Z0; destruct (Z.eqb_spec (zlen (snd p)) 0) as [N|N]; cbn [negb].
  - apply zlen_0 in N; assert (I' : inside c (snd p ++ y) x) by (destruct I as [(I & ->) | I]; [rewrite N in *; exact I | exact I]).
    destruct (effect_stores si p s s' c y x E I') as (c' & S & I2 & R & A); exists c, c'; rewrite N in *; change (zlen (@nil Z)) with 0 in *.
    repeat (split; [eauto; fail|]); split; [intros; lia | auto].
  - destruct I as [(I & ->) | I].
    + destruct (advance_pulls fresh Mem Fresh c (snd p) x (zlen (snd p)) I eq_refl ltac:(lia)) as (c1 & -> & I1 & R1).
      destruct (effect_stores si p s s' c1 [] x E) as (c' & S & I2 & R & A); [rewrite app_nil_r; exact I1|].
      exists c1, c'; repeat (split; [eauto; fail|]); split; [intros; lia|]; intros I'; pose proof (in_left _ _ _ I) as L1; pose proof (in_left _ _ _ I') as L2.
      rewrite app_nil_r in L2; change (zlen (@nil Z)) with 0 in L1; lia.
    + rewrite (advance_stays fresh c _ x _ I) by (intros X; apply app_eq_nil in X as (X & _); rewrite X in N; apply N; reflexivity).
      destruct (effect_stores si p s s' c y x E I) as (c' & S & I2 & R & A); exists c, c'; repeat (split; [eauto; fail|]); split; [|auto].
      intros -> I'; pose proof (in_left _ _ _ I) as L1; pose proof (in_left _ _ _ I') as L2; rewrite app_nil_r in L1; change (zlen (@nil Z)) with 0 in L2; lia.
Qed.

Lemma not_group code : ~ In code group_codes -> (code =? PGI_AR_LINK) = false /\ (code =? PGI_CN_ID) = false /\ (code =? PGI_CN_ITEMS) = false.
Proof. intros N; repeat split; apply Z.eqb_neq; intros ->; apply N; cbn; auto. Qed.

(** A parameter that is in no group. *)
Lemma round_top si p s s' k pg c x : pi_ok si p -> effect si p s = Some s' -> inside c [] (enc_pi p ++ x) -> zlen (enc_pi p) <= k -> pg = 0 \/ pg = k ->
  exists c', read_round fresh si (tbl si_table si) s k pg c = Val (s', k - zlen (enc_pi p), k - zlen (enc_pi p), c') /\
    inside c' [] x /\ c_nread c' = c_nread c + zlen (enc_pi p) /\ s_errno s' = SC_ACCEPT.
Proof.
  intros O E I K Pg; pose proof O as (C & L & Al & Fi & Ng); rewrite zlen_pi in *; pose proof (zlen_nonneg (snd p)) as Z0; pose proof (hdr_pos (zlen (snd p))) as Hh.
  assert (I0 : inside c [] ((fst p :: enc_li (zlen (snd p))) ++ snd p ++ x)) by (rewrite app_assoc; exact I); unfold SEGMENT_MAX in L.
  unfold read_round; destruct (header_pulled fresh Mem Fresh c (fst p) (zlen (snd p)) _ C ltac:(lia) I0) as (c1 & -> & I1 & R1); cbn [cbind].
  rewrite Al; cbn [negb]; assert (P : (if pg =? 0 then k else pg) = k) by (destruct Pg as [-> | ->]; [reflexivity | destruct (k =? 0); reflexivity]); rewrite P.
  rewrite Z.gtb_ltb, (proj2 (Z.ltb_ge _ _)) by lia; destruct (round_store si p s s' c1 [] x O E (or_introl (conj I1 eq_refl))) as (c2 & c3 & -> & S & I3 & A & R & _); cbn [cbind].
  rewrite Fi; cbn [negb orb]; destruct (not_group _ Ng) as (-> & -> & ->); rewrite S; cbn [cbind].
  exists c3; split; [tuple|]; split; [exact I3|]; split; [rewrite (R eq_refl I1), R1; lia | exact A].
Qed.

(** A parameter of a group. *)
Lemma round_in si p s s' k pg c y x : pi_ok si p -> effect si p s = Some s' -> inside c (enc_pi p ++ y) x -> zlen (snd p) < 255 -> zlen (enc_pi p) <= pg ->
  exists c', read_round fresh si (tbl si_table si) s k pg c = Val (s', k - zlen (enc_pi p), pg - zlen (enc_pi p), c') /\
    inside c' y x /\ c_nread c' = c_nread c /\ s_errno s' = SC_ACCEPT.
Proof.
  intros O E I Lt Pg; pose proof O as (C & L & Al & Fi & Ng); rewrite zlen_pi in *; pose proof (zlen_nonneg (snd p)) as Z0; unfold hdr_len in *.
  unfold enc_pi, enc_li in I; rewrite (proj2 (Z.ltb_lt _ 255) Lt) in *; change ((fst p :: [zlen (snd p)] ++ snd p) ++ y) with ([fst p; zlen (snd p)] ++ snd p ++ y) in I.
  unfold read_round; destruct (header_inside fresh c (fst p) (zlen (snd p)) _ x C ltac:(lia) I) as (c1 & -> & I1 & R1); cbn [cbind].
  rewrite Al; cbn [negb]; rewrite (proj2 (Z.eqb_neq pg 0)), Z.gtb_ltb, (proj2 (Z.ltb_ge _ _)) by lia.
  destruct (round_store si p s s' c1 y x O E (or_intror I1)) as (c2 & c3 & -> & S & I3 & A & _ & R); cbn [cbind].
  rewrite Fi; cbn [negb orb]; destruct (not_group _ Ng) as (-> & -> & ->); rewrite S; cbn [cbind].
  exists c3; split; [tuple|]; split; [exact I3|]; split; [rewrite (R I1), R1; reflexivity | exact A].
Qed.

(** The start of a group: all of it is pulled. *)
Lemma round_group si code l s k pg c x : group_ok si code l -> inside c [] (enc_item (Pgi code l) ++ x) -> zlen (enc_item (Pgi code l)) <= k -> pg = 0 \/ pg = k ->
  exists c', read_round fresh si (tbl si_table si) s k pg c = Val (group_effect code s, k - 2, zlen (enc_pis l), c') /\
    inside c' (enc_pis l) x /\ c_nread c' = c_nread c + 2 + zlen (enc_pis l).
Proof.
  intros (G & Al & Lt & _) I K Pg; set (n := zlen (enc_pis l)) in *; pose proof (zlen_nonneg (enc_pis l)) as Z0; fold n in Z0; cbn [enc_item] in I, K; rewrite !zlen_cons in K; fold n in I, K.
  assert (C : is_byte code) by (destruct G as [<- | [<- | [<- | []]]]; cbv; split; discriminate || reflexivity).
  assert (I0 : inside c [] ((code :: enc_li n) ++ enc_pis l ++ x)) by (unfold enc_li; rewrite (proj2 (Z.ltb_lt n 255) Lt); exact I).
  unfold read_round; destruct (header_pulled fresh Mem Fresh c code n _ C ltac:(lia) I0) as (c1 & -> & I1 & R1); cbn [cbind].
  unfold hdr_len in *; rewrite (proj2 (Z.ltb_lt n 255) Lt) in *; rewrite Al; cbn [negb].
  assert (P : (if pg =? 0 then k else pg) = k) by (destruct Pg as [-> | ->]; [reflexivity | destruct (k =? 0); reflexivity]); rewrite P.
  rewrite Z.gtb_ltb, (proj2 (Z.ltb_ge _ _)) by lia.
  assert (A : exists c2, (if negb (n =? 0) then advance fresh n c1 else Val (true, c1)) = Val (true, c2) /\ inside c2 (enc_pis l) x /\ c_nread c2 = c_nread c1 + n).
  { destruct (Z.eqb_spec n 0) as [N|N]; cbn [negb].
    - exists c1; split; [reflexivity|]; apply zlen_0 in N; rewrite N in *; split; [exact I1 | unfold n; rewrite N; symmetry; apply Z.add_0_r].
    - apply (advance_pulls fresh Mem Fresh c1 (enc_pis l) x n I1 eq_refl); unfold SEGMENT_MAX; lia. }
  destruct A as (c2 & -> & I2 & R2); cbn [cbind negb orb].
  assert (F : pi_fits code n = true) by (unfold pi_fits; destruct G as [<- | [<- | [<- | []]]]; reflexivity); rewrite F; cbn [negb].
  unfold group_effect; destruct G as [<- | [<- | [<- | []]]]; cbn [Z.eqb Pos.eqb PGI_AR_LINK PGI_CN_ID PGI_CN_ITEMS];
    (exists c2; split; [tuple | split; [exact I2 | lia]]).
Qed.
(** ** The loop *)

Fixpoint run {X} (step : X -> ssapkt -> option ssapkt) (l : list X) (s : ssapkt) : option ssapkt :=
  match l with
  | [] => Some s
  | x :: l => match step x s with Some s => run step l s | None => None end
  end.

Definition effects (si : Z) : list spi -> ssapkt -> option ssapkt := run (effect si).

Definition item_effect (si : Z) (i : sitem) (s : ssapkt) : option ssapkt :=
  match i with Pi p => effect si p s | Pgi code ps => effects si ps (group_effect code s) end.

(** What a list of parameters makes of a packet. *)
Definition apply_items (si : Z) : list sitem -> ssapkt -> option ssapkt := run (item_effect si).

Definition item_ok (si : Z) (i : sitem) : Prop := match i with Pi p => pi_ok si p | Pgi code l => group_ok si code l end.

Lemma read_loop_step fuel si pm s k pg c s1 k1 pg1 c1 : read_round fresh si pm s k pg c = Val (s1, k1, pg1, c1) ->
  s_errno s = SC_ACCEPT -> (Z.to_nat k <= fuel)%nat -> 0 < k -> k1 <= k - 2 ->
  exists fuel', read_loop fresh fuel si pm s k pg c = read_loop fresh fuel' si pm s1 k1 pg1 c1 /\ (Z.to_nat k1 <= fuel')%nat.
Proof.
  intros R A F K K1; destruct fuel as [|fuel]; [lia|]; exists fuel; cbn [read_loop]; rewrite (proj2 (Z.eqb_neq k 0)), A by lia.
  change (SC_ACCEPT =? SC_ACCEPT) with true; cbn [negb andb]; rewrite R; cbn [cbind]; split; [reflexivity | lia].
Qed.

Lemma effects_accept si l : forall s s', effects si l s = Some s' -> s_errno s = SC_ACCEPT -> s_errno s' = SC_ACCEPT.
Proof.
  induction l as [|p l IH]; intros s s' E A; unfold effects in E; cbn [run] in E; fold (effects si) in E; [injection E as <-; exact A|].
  destruct (effect si p s) as [s1|] eqn:F; [|discriminate]; apply (IH s1 s' E); unfold effect in F.
  destruct (store_pi _ _ _ _ _) as [[s2 c2]|]; [|discriminate]; destruct (Z.eqb_spec (s_errno s2) SC_ACCEPT); [|rewrite andb_false_r in F; discriminate].
  destruct (_ && _)%bool; [injection F as <-; assumption | discriminate].
Qed.

Lemma loop_in si l : Forall (pi_ok si) l -> forall s s' fuel k c x, Forall (fun p => zlen (snd p) < 255) l -> effects si l s = Some s' ->
  s_errno s = SC_ACCEPT -> inside c (enc_pis l) x -> 0 <= k -> (Z.to_nat (k + zlen (enc_pis l)) <= fuel)%nat ->
  exists fuel' c', read_loop fresh fuel si (tbl si_table si) s (k + zlen (enc_pis l)) (zlen (enc_pis l)) c =
      read_loop fresh fuel' si (tbl si_table si) s' k 0 c' /\ (Z.to_nat k <= fuel')%nat /\ inside c' [] x /\ c_nread c' = c_nread c.
Proof.
  induction 1 as [|p l P Hl IH]; intros s s' fuel k c x Lt E A I K F; unfold effects in E; cbn [run] in E; fold (effects si) in E.
  - injection E as <-; change (zlen (enc_pis [])) with 0 in *; rewrite Z.add_0_r in *; exists fuel, c; auto.
  - destruct (effect si p s) as [s1|] eqn:Ef; [|discriminate]; inversion Lt; subst.
    change (enc_pis (p :: l)) with (enc_pi p ++ enc_pis l) in *; rewrite zlen_app in *.
    pose proof (zlen_nonneg (enc_pis l)); assert (2 <= zlen (enc_pi p)) by (rewrite zlen_pi; pose proof (hdr_pos (zlen (snd p))); pose proof (zlen_nonneg (snd p)); lia).
    destruct (round_in si p s s1 (k + (zlen (enc_pi p) + zlen (enc_pis l))) (zlen (enc_pi p) + zlen (enc_pis l)) c (enc_pis l) x P Ef I) as (c1 & R & I1 & N1 & A1); [assumption | lia|].
    destruct (read_loop_step _ _ _ _ _ _ _ _ _ _ _ R A F) as (f1 & -> & F1); [lia | lia|].
    replace (k + (zlen (enc_pi p) + zlen (enc_pis l)) - zlen (enc_pi p)) with (k + zlen (enc_pis l)) in * by lia.
    replace (zlen (enc_pi p) + zlen (enc_pis l) - zlen (enc_pi p)) with (zlen (enc_pis l)) by lia.
    destruct (IH s1 s' f1 k c1 x) as (f2 & c2 & -> & F2 & I2 & N2); auto; exists f2, c2; split; [reflexivity|]; split; [exact F2|]; split; [exact I2 | congruence].
Qed.

Lemma short_pis l : zlen (enc_pis l) < 255 -> Forall (fun p => zlen (snd p) < 255) l.
Proof.
  induction l as [|p l IH]; intros L; [constructor|]; change (enc_pis (p :: l)) with (enc_pi p ++ enc_pis l) in L; rewrite zlen_app, zlen_pi in L.
  pose proof (zlen_nonneg (enc_pis l)); pose proof (hdr_pos (zlen (snd p))); pose proof (zlen_nonneg (snd p)); constructor; [|apply IH]; lia.
Qed.

Lemma loop_top si l : Forall (item_ok si) l -> forall s s' fuel pg c x, apply_items si l s = Some s' -> s_errno s = SC_ACCEPT ->
  inside c [] (enc_items l ++ x) -> pg = 0 \/ pg = zlen (enc_items l) -> (Z.to_nat (zlen (enc_items l)) <= fuel)%nat ->
  exists c', read_loop fresh fuel si (tbl si_table si) s (zlen (enc_items l)) pg c = Val (s', c') /\ inside c' [] x /\
    c_nread c' = c_nread c + zlen (enc_items l).
Proof.
  induction 1 as [|i l P Hl IH]; intros s s' fuel pg c x E A I Pg F; unfold apply_items in E; cbn [run] in E; fold (apply_items si) in E.
  - injection E as <-; exists c; split; [destruct fuel; reflexivity|]; split; [exact I | symmetry; apply Z.add_0_r].
  - change (enc_items (i :: l)) with (enc_item i ++ enc_items l) in *; rewrite zlen_app in *; pose proof (zlen_nonneg (enc_items l)); rewrite <- app_assoc in I.
    destruct i as [p|code ps]; cbn [item_effect] in E.
    + destruct (effect si p s) as [s1|] eqn:Ef; [|discriminate]; cbn [enc_item item_ok] in *.
      assert (2 <= zlen (enc_pi p)) by (rewrite zlen_pi; pose proof (hdr_pos (zlen (snd p))); pose proof (zlen_nonneg (snd p)); lia).
      destruct (round_top si p s s1 (zlen (enc_pi p) + zlen (enc_items l)) pg c _ P Ef I ltac:(lia) Pg) as (c1 & R & I1 & N1 & A1).
      destruct (read_loop_step _ _ _ _ _ _ _ _ _ _ _ R A F) as (f1 & -> & F1); [lia | lia|].
      replace (zlen (enc_pi p) + zlen (enc_items l) - zlen (enc_pi p)) with (zlen (enc_items l)) in * by lia.
      destruct (IH s1 s' f1 (zlen (enc_items l)) c1 x E A1 I1 (or_intror eq_refl) F1) as (c2 & -> & I2 & N2); exists c2; split; [reflexivity|]; split; [exact I2 | lia].
    + destruct (effects si ps (group_effect code s)) as [s1|] eqn:Ef; [|discriminate]; cbn [item_ok] in P; pose proof P as (G & _ & Lt & Ps).
      destruct (round_group si code ps s (zlen (enc_item (Pgi code ps)) + zlen (enc_items l)) pg c _ P I ltac:(lia) Pg) as (c1 & R & I1 & N1).
      assert (Le : zlen (enc_item (Pgi code ps)) = 2 + zlen (enc_pis ps)) by (cbn [enc_item]; rewrite !zlen_cons; lia); rewrite Le in *.
      pose proof (zlen_nonneg (enc_pis ps)); destruct (read_loop_step _ _ _ _ _ _ _ _ _ _ _ R A F) as (f1 & -> & F1); [lia | lia|].
      replace (2 + zlen (enc_pis ps) + zlen (enc_items l) - 2) with (zlen (enc_items l) + zlen (enc_pis ps)) in * by lia.
      assert (A0 : s_errno (group_effect code s) = SC_ACCEPT) by (unfold group_effect; destruct (_ =? _); [exact A|]; destruct (_ =? _); exact A).
      destruct (loop_in si ps Ps _ s1 f1 (zlen (enc_items l)) c1 _ (short_pis ps Lt) Ef A0 I1) as (f2 & c2 & -> & F2 & I2 & N2); [assumption | exact F1|].
      destruct (IH s1 s' f2 0 c2 x E (effects_accept _ _ _ _ Ef A0) I2 (or_introl eq_refl) F2) as (c3 & -> & I3 & N3); exists c3; split; [reflexivity|]; split; [exact I3 | lia].
Qed.
(** ** A whole SPDU *)

(** The packet before its parameters are read. *)
Definition spdu_start (code li cat0 : Z) : ssapkt :=
  let s := set_s_li (new_spkt code) li in set_s_errno (if negb (cat0 =? 0) then category0 code s else s) SC_ACCEPT.

(** An SPDU the reader knows, in well-formed octets. *)
Definition spdu_ok (code : Z) (l : list sitem) : Prop :=
  0 <= code < SI_TABLE_LEN /\ tbl si_table code <> PMASK_NOTSUPPORTED /\ Forall (item_ok code) l /\ zlen (enc_items l) < 65536.

Lemma ring_dangling l : Forall seg_ok l -> Forall seg_ok (dangling l) /\ ring_octets (dangling l) = ring_octets l.
Proof.
  intros [|q l' Q Hl]; [split; [constructor | reflexivity]|]; cbn [dangling]; destruct (Z.leb_spec (seg_len q) 0); [|split; [constructor; assumption | reflexivity]].
  split; [exact Hl|]; rewrite ring_octets_cons; pose proof Q as (L & _); unfold seg_octets; replace (seg_len q) with 0 by lia; rewrite ztake_0 by lia; reflexivity.
Qed.

Lemma reads_spdu sizeof_spkt qb b len cat0 code l rest s : spdu_ok code l -> apply_items code l (spdu_start code (zlen (enc_items l)) cat0) = Some s ->
  Forall seg_ok qb -> buffer_ok b -> ring_octets qb = enc_spdu code l ++ rest -> zlen (enc_spdu code l) <= len ->
  exists qb' b', tsdu2spkt sizeof_spkt fresh qb b len cat0 =
      Val (Some (if mandatory s then s else set_s_errno s SC_PROTOCOL), zlen (enc_spdu code l), qb', b') /\
    Forall seg_ok qb' /\ ring_octets qb' = rest /\ buffer_ok b'.
Proof.
  intros (C & Ns & It & L) A Q B E Len; set (n := zlen (enc_items l)) in *; pose proof (zlen_nonneg (enc_items l)) as N0; fold n in N0.
  assert (Cb : is_byte code) by (unfold is_byte; change SI_TABLE_LEN with 63 in C; lia).
  assert (Le : zlen (enc_spdu code l) = hdr_len n + n) by (unfold enc_spdu; fold n; rewrite app_comm_cons, zlen_app, zlen_hdr; reflexivity).
  assert (E' : ring_octets qb = (code :: enc_li n) ++ enc_items l ++ rest) by (rewrite E; unfold enc_spdu; fold n; cbn [app]; rewrite <- app_assoc; reflexivity).
  assert (Rd : forall qb2 b2, Forall seg_ok qb2 -> buffer_ok b2 -> ring_octets qb2 = enc_items l ++ rest -> exists c,
    read_loop fresh (Z.to_nat n) code (tbl si_table code) (spdu_start code n cat0) n n (Cur [] 0 qb2 b2 (hdr_len n)) = Val (s, c) /\ inside c [] rest /\ c_nread c = hdr_len n + n).
  { intros qb2 b2 Q2 B2 E2; destruct (loop_top code l It (spdu_start code n cat0) s (Z.to_nat n) n (Cur [] 0 qb2 b2 (hdr_len n)) rest A) as (c & R & I & Nr); auto; [|exists c; auto].
    split; cbn [c_base c_left c_qb c_buffer]; auto; exists []; reflexivity. }
  unfold tsdu2spkt, enc_li, hdr_len in *; rewrite Le in *; destruct (Z.ltb_spec n 255).
  - destruct (pullqb_spec fresh Mem Fresh qb 2 b [code; n] (enc_items l ++ rest) Q B E' eq_refl ltac:(unfold SEGMENT_MAX; lia)) as (j & qb2 & b2 & -> & Q2 & E2 & B2); cbn [cbind app].
    rewrite rd_cons0; cbn [cbind]; rewrite as_octet_id by assumption; unfold newspkt; rewrite Mem, int2u8_Some by assumption.
    rewrite rd_second; cbn [cbind]; rewrite (proj2 (Z.eqb_neq n 255)) by lia; cbn [cbind].
    change (2 =? 4) with false; cbn [andb]; rewrite (proj2 (Z.ltb_ge len _)), Z.geb_leb, (proj2 (Z.leb_gt _ code)), (proj2 (Z.eqb_neq _ _) Ns) by lia; cbn [orb].
    destruct (Rd qb2 b2 Q2 B2 E2) as (c & R & I & Nr); unfold spdu_start in R; rewrite R; cbn [cbind].
    destruct (ring_dangling _ (in_segs _ _ _ I)) as (D1 & D2); rewrite (in_queue _ _ _ I) in D2; pose proof (in_buffer _ _ _ I); do 2 eexists; split; [rewrite Nr; reflexivity | auto].
  - set (hi := Z.land (Z.shiftr n 8) 255) in *; set (lo := Z.land n 255) in *; change ((code :: [255; hi; lo]) ++ enc_items l ++ rest) with ([code; 255] ++ [hi; lo] ++ enc_items l ++ rest) in E'.
    destruct (pullqb_spec fresh Mem Fresh qb 2 b [code; 255] _ Q B E' eq_refl ltac:(unfold SEGMENT_MAX; lia)) as (j & qb1 & b1 & -> & Q1 & E1 & B1); cbn [cbind app].
    rewrite rd_cons0; cbn [cbind]; rewrite as_octet_id by assumption; unfold newspkt; rewrite Mem, int2u8_Some by assumption.
    rewrite rd_second; cbn [cbind]; change (255 =? 255) with true; cbn match.
    destruct (pullqb_spec fresh Mem Fresh qb1 2 b1 [hi; lo] _ Q1 B1 E1 eq_refl ltac:(unfold SEGMENT_MAX; lia)) as (j2 & qb2 & b2 & -> & Q2 & E2 & B2); cbn [cbind app].
    rewrite rd_second, rd_cons0; cbn [cbind]; unfold hi, lo; rewrite li_octets by lia.
    change (4 =? 4) with true; cbn [andb]; rewrite (proj2 (Z.ltb_ge n 255)), (proj2 (Z.ltb_ge len _)), Z.geb_leb, (proj2 (Z.leb_gt _ code)), (proj2 (Z.eqb_neq _ _) Ns) by lia; cbn [orb].
    destruct (Rd qb2 b2 Q2 B2 E2) as (c & R & I & Nr); unfold spdu_start in R; rewrite R; cbn [cbind].
    destruct (ring_dangling _ (in_segs _ _ _ I)) as (D1 & D2); rewrite (in_queue _ _ _ I) in D2; pose proof (in_buffer _ _ _ I); do 2 eexists; split; [rewrite Nr; reflexivity | auto].
Qed.
End Rounds.

(** The reader of SPDUs. Whatever list of parameters and groups an SPDU
    consists of, as long as the tables allow them, and however the TSDU is
    cut into buffers, [tsdu2spkt] applies the parameters to a new packet one
    after the other, reports a missing mandatory one by SC_PROTOCOL, counts
    the octets of the SPDU and leaves the next SPDU in the queue. *)
Theorem tsdu2spkt_reads : forall (A : Allocator) sizeof_spkt fresh qb b len cat0 code l rest s, memory_ok -> (forall n, 0 <= n -> zlen (fresh n) = n) ->
  spdu_ok code l -> apply_items code l (spdu_start code (zlen (enc_items l)) cat0) = Some s ->
  Forall seg_ok qb -> buffer_ok b -> ring_octets qb = enc_spdu code l ++ rest -> zlen (enc_spdu code l) <= len ->
  exists qb' b', tsdu2spkt sizeof_spkt fresh qb b len cat0 =
      Val (Some (if mandatory s then s else set_s_errno s SC_PROTOCOL), zlen (enc_spdu code l), qb', b') /\
    ring_octets qb' = rest.
Proof.
  intros A z fresh qb b len cat0 code l rest s M F O Ap Q B E L.
  destruct (reads_spdu fresh M F z qb b len cat0 code l rest s O Ap Q B E L) as (qb' & b' & R & _ & O' & _); exists qb', b'; auto.
Qed.

(** A group and a parameter of a CN, cut in the middle of the group. *)
Definition ex_cn_items : list sitem := [Pgi PGI_CN_ITEMS [(PI_PROTOCOL_OPT, [0]); (PI_VERSION, [2])]; Pi (PI_USER_REQ, [0; 2])].
Definition ex_cn_queue : list qseg := [QSeg [13; 12; 5; 6; 19] 5; QSeg [1; 0; 22; 1; 2; 20; 2; 0; 2; 99; 99] 11].

Lemma tsdu2spkt_reads_witness :
  exists s qb b, tsdu2spkt (H := plenty) 800 zeros ex_cn_queue None 14 1 = Val (Some s, 14, qb, b) /\ ring_octets qb = [99; 99] /\
    s_num s N_cn_version = 2 /\ s_num s N_cn_require = 2 /\ s_errno s = SC_ACCEPT.
Proof.
  assert (A : exists s, apply_items (H := plenty) SPDU_CN ex_cn_items (spdu_start SPDU_CN (zlen (enc_items ex_cn_items)) 1) = Some s /\
    s_num s N_cn_version = 2 /\ s_num s N_cn_require = 2 /\ s_errno s = SC_ACCEPT) by (eexists; vm_compute; repeat split).
  destruct A as (s & A & V).
  destruct (tsdu2spkt_reads plenty 800 zeros ex_cn_queue None 14 1 SPDU_CN ex_cn_items [99; 99] s) as (qb & b & R & O).
  - intros n; reflexivity.
  - intros n N; unfold zlen, zeros; rewrite repeat_length; apply Z2Nat.id, N.
  - split; [vm_compute; split; reflexivity || discriminate|]; split; [vm_compute; discriminate|]; split; [|reflexivity].
    repeat constructor; try (vm_compute; reflexivity || discriminate); vm_compute; tauto || intuition discriminate.
  - exact A.
  - repeat constructor; try (vm_compute; reflexivity || discriminate); apply forallb_bytes; reflexivity.
  - exact I.
  - reflexivity.
  - vm_compute; discriminate.
  - exists s, qb, b; split; [|split; [exact O | exact V]]; destruct V as (_ & _ & V).
    rewrite R; replace (mandatory s) with true; [reflexivity|].
    vm_compute in A; injection A as <-; reflexivity.
Defined.

(** A fixed parameter of no octets is taken for one of its length: the
    octets after it, or after the end of the TSDU, are read. *)
Lemma tsdu2spkt_zero_length : tsdu2spkt (H := plenty) 800 zeros [QSeg [25; 2; 17; 0] 4] None 4 1 = UB.
Proof. vm_compute; reflexivity. Qed.
