(* ===== verification/Spdu.v ===== *)
(** * ssap: SPDUs written and read back

    The parameters [spkt2tsdu] writes for a packet, seen by [tsdu2spkt]: what
    each does to the packet that is read, and the packet they make. *)

From S2P Require Import Prelude Text Conv Convert PElement PStream Qbuf Spkt Spkt2tsdu Tsdu2spkt.
Open Scope Z_scope.
Open Scope c_scope.

(** ** Updates of a packet *)

Definition upd_flag (b : bool) (flag : Z) (t : ssapkt) : ssapkt := if b then Set_ t flag else t.
Definition upd_num (b : bool) (f : snum) (v flag : Z) (t : ssapkt) : ssapkt := if b then Set_ (set_num t f v) flag else t.
Definition upd_arr (b : bool) (a : sarr) (d : list Z) (flag : Z) (t : ssapkt) : ssapkt :=
  if b then Set_ (set_arr t a (Cnt (zlen d) (d ++ zdrop (zlen d) (c_data (s_arr t a))))) flag else t.
Definition upd_reflect (b : bool) (d : list Z) (flag : Z) (t : ssapkt) : ssapkt := if b then Set_ (set_reflect t d) flag else t.
Definition upd_udata (b : bool) (d : list Z) (t : ssapkt) : ssapkt := if b then set_udata (Set_ t SMASK_UDATA_PGI) (Some d) (zlen d) else t.
Definition upd_rdata (b : bool) (d : list Z) (t : ssapkt) : ssapkt := if b then set_rdata t (Some d) (zlen d) else t.

Definition meets (a b : Z) : bool := negb (Z.land a b =? 0).
Definition same_snum (f g : snum) : bool := if snum_eq_dec f g then true else false.
Definition same_sarr (a b : sarr) : bool := if sarr_eq_dec a b then true else false.

Lemma is_set_Set t f g : is_set (Set_ t f) g = meets f g || is_set t g.
Proof.
  unfold is_set, meets, Set_; cbn [s_mask]; rewrite Z.land_lor_distr_l.
  destruct (Z.eqb_spec (Z.land f g) 0) as [-> | N]; [rewrite Z.lor_0_r; reflexivity|]; cbn [negb orb].
  destruct (Z.eqb_spec (Z.lor (Z.land (s_mask t) g) (Z.land f g)) 0) as [E|]; [|reflexivity]; apply Z.lor_eq_0_iff in E as (_ & E); contradiction.
Qed.

Section Facts.
Context (b : bool) (f : snum) (a : sarr) (v flag : Z) (d : list Z) (t : ssapkt).

Lemma is_set_flag g : is_set (upd_flag b flag t) g = b && meets flag g || is_set t g.
Proof. destruct b; [apply is_set_Set | reflexivity]. Qed.
Lemma is_set_num g : is_set (upd_num b f v flag t) g = b && meets flag g || is_set t g.
Proof. destruct b; [apply (is_set_Set (set_num t f v)) | reflexivity]. Qed.
Lemma is_set_arr g : is_set (upd_arr b a d flag t) g = b && meets flag g || is_set t g.
Proof. destruct b; [unfold upd_arr; rewrite is_set_Set; reflexivity | reflexivity]. Qed.
Lemma is_set_reflect g : is_set (upd_reflect b d flag t) g = b && meets flag g || is_set t g.
Proof. destruct b; [unfold upd_reflect; rewrite is_set_Set; reflexivity | reflexivity]. Qed.
Lemma is_set_udata g : is_set (upd_udata b d t) g = b && meets SMASK_UDATA_PGI g || is_set t g.
Proof. destruct b; [apply (is_set_Set t) | reflexivity]. Qed.
Lemma is_set_rdata g : is_set (upd_rdata b d t) g = is_set t g.
Proof. destruct b; reflexivity. Qed.

Lemma s_num_flag g : s_num (upd_flag b flag t) g = s_num t g.
Proof. destruct b; reflexivity. Qed.
Lemma s_num_num g : s_num (upd_num b f v flag t) g = if b && same_snum f g then v else s_num t g.
Proof. destruct b; [|reflexivity]; unfold same_snum; cbn; destruct (snum_eq_dec f g); reflexivity. Qed.
Lemma s_num_arr g : s_num (upd_arr b a d flag t) g = s_num t g.
Proof. destruct b; reflexivity. Qed.
Lemma s_num_reflect g : s_num (upd_reflect b d flag t) g = s_num t g.
Proof. destruct b; reflexivity. Qed.
Lemma s_num_udata g : s_num (upd_udata b d t) g = s_num t g.
Proof. destruct b; reflexivity. Qed.
Lemma s_num_rdata g : s_num (upd_rdata b d t) g = s_num t g.
Proof. destruct b; reflexivity. Qed.

Lemma octets_flag g : octets_of (upd_flag b flag t) g = octets_of t g.
Proof. destruct b; reflexivity. Qed.
Lemma octets_num g : octets_of (upd_num b f v flag t) g = octets_of t g.
Proof. destruct b; reflexivity. Qed.
Lemma octets_arr g : octets_of (upd_arr b a d flag t) g = if b && same_sarr a g then d else octets_of t g.
Proof.
  destruct b; [|reflexivity]; unfold same_sarr, octets_of; cbn; destruct (sarr_eq_dec a g); [|reflexivity].
  cbn [c_len c_data]; apply ztake_app_exact; reflexivity.
Qed.
Lemma octets_reflect g : octets_of (upd_reflect b d flag t) g = octets_of t g.
Proof. destruct b; reflexivity. Qed.
Lemma octets_udata g : octets_of (upd_udata b d t) g = octets_of t g.
Proof. destruct b; reflexivity. Qed.
Lemma octets_rdata g : octets_of (upd_rdata b d t) g = octets_of t g.
Proof. destruct b; reflexivity. Qed.
End Facts.

Create Rewrite HintDb spdu.
#[export] Hint Rewrite is_set_flag is_set_num is_set_arr is_set_reflect is_set_udata is_set_rdata s_num_flag s_num_num s_num_arr s_num_reflect s_num_udata
  s_num_rdata octets_flag octets_num octets_arr octets_reflect octets_udata octets_rdata : spdu.

(** ** Reading in steps *)

(** A packet in the middle of being read. *)
Record alive (t : ssapkt) : Prop := {
  al_errno : s_errno t = SC_ACCEPT;
  al_arr : forall a, zlen (c_data (s_arr t a)) = sarr_size a;
  al_reflect : zlen (s_reflect t) = AB_REFL_SIZE
}.

Definition goes {X} (ok : X -> Prop) (step : X -> ssapkt -> option ssapkt) (l : list X) (t t' : ssapkt) : Prop :=
  alive t -> Forall ok l /\ run step l t = Some t' /\ alive t'.

Section Goes.
Context {X : Type} (ok : X -> Prop) (step : X -> ssapkt -> option ssapkt).

Lemma goes_nil t : goes ok step [] t t.
Proof. intros A; split; [constructor | split; [reflexivity | exact A]]. Qed.

Lemma run_app l1 l2 : forall t t1, run step l1 t = Some t1 -> run step (l1 ++ l2) t = run step l2 t1.
Proof.
  induction l1 as [|x l1 IH]; intros t t1 R; cbn [run app] in *; [injection R as ->; reflexivity|].
  destruct (step x t); [apply IH, R | discriminate].
Qed.

Lemma goes_app l1 l2 t t1 t2 : goes ok step l1 t t1 -> goes ok step l2 t1 t2 -> goes ok step (l1 ++ l2) t t2.
Proof.
  intros G1 G2 A; destruct (G1 A) as (O1 & R1 & A1); destruct (G2 A1) as (O2 & R2 & A2); split; [apply Forall_app; split; assumption|].
  rewrite (run_app _ _ _ _ R1); auto.
Qed.
End Goes.

Section Read.
Context `{Allocator} (Mem : memory_ok).

Definition into (si : Z) : list spi -> ssapkt -> ssapkt -> Prop := goes (pi_ok si) (effect si).
Definition after (si : Z) : list sitem -> ssapkt -> ssapkt -> Prop := goes (item_ok si) (item_effect si).

Lemma after_pi si b p t t' : into si (opt b [p]) t t' -> after si (opt b [Pi p]) t t'.
Proof.
  intros G A; destruct (G A) as (O & R & A'); destruct b; cbn [opt] in *; [|split; [constructor | auto]].
  inversion O; subst; split; [constructor; [assumption | constructor]|]; split; [|exact A']; cbn [run item_effect] in *; exact R.
Qed.

(** What [pi_allowed] and [pi_fits] ask for. *)
Definition pi_kind (si code : Z) : bool :=
  (0 <=? code) && (code <? PI_UDATA) && negb (existsb (Z.eqb code) group_codes) && pi_allowed (tbl si_table si) code 0.

Definition pi_varies (code : Z) : bool := negb (Z.land (tbl pi_table code) PMASK_VARLEN =? 0).

Lemma pi_ok_kind si code d : pi_kind si code = true -> zlen d = tbl pi_length code \/ (pi_varies code = true /\ zlen d <= tbl pi_length code) ->
  tbl pi_length code <= SEGMENT_MAX -> pi_ok si (code, d).
Proof.
  unfold pi_kind; rewrite !andb_true_iff, negb_true_iff; intros (((K1 & K2) & K3) & K4) L S; apply Z.leb_le in K1; apply Z.ltb_lt in K2.
  unfold PI_UDATA in K2; split; [unfold is_byte; cbn [fst]; lia|]; split; [cbn [snd]; lia|]; cbn [fst snd].
  split; [|split].
  - unfold pi_allowed, PI_UDATA, PI_XDATA in *; rewrite (proj2 (Z.eqb_neq code 193)), (proj2 (Z.eqb_neq code 194)) in * by lia; exact K4.
  - unfold pi_fits; destruct (_ && _)%bool; [|reflexivity]; unfold pi_varies in L; destruct (negb (Z.land _ PMASK_VARLEN =? 0)).
    + apply Z.leb_le; lia.
    + apply Z.eqb_eq; destruct L as [L | (L & _)]; [exact L | discriminate].
  - intros I; assert (E : existsb (Z.eqb code) group_codes = true) by (apply existsb_exists; exists code; split; [exact I | apply Z.eqb_refl]); congruence.
Qed.

(** A parameter that may be missing. *)
Lemma into_leaf b si code d t t' : (b = true -> pi_ok si (code, d) /\
    (alive t -> store_pi si code (zlen d) t (Cur d (zlen d) [] None 0) = Val (t', Cur [] 0 [] None 0) /\ alive t')) ->
  (b = false -> t' = t) -> into si (opt b [(code, d)]) t t'.
Proof.
  intros T F A; destruct b; [|rewrite (F eq_refl); apply goes_nil, A]; destruct (T eq_refl) as (O & S); destruct (S A) as (E & A').
  split; [constructor; [exact O | constructor]|]; split; [|exact A']; cbn [opt run]; unfold effect; cbn [fst snd]; rewrite E; cbn [c_left].
  rewrite (al_errno _ A'); reflexivity.
Qed.
Definition whole (d : list Z) : cursor := Cur d (zlen d) [] None 0.
Definition used_up : cursor := Cur [] 0 [] None 0.

Lemma skip_whole d : skip (zlen d) (whole d) = used_up.
Proof. unfold skip, whole, used_up; cbn [c_base c_left c_qb c_buffer c_nread]; rewrite Z.sub_diag, zdrop_all by lia; reflexivity. Qed.

Lemma alive_num t f v flag : alive t -> alive (Set_ (set_num t f v) flag).
Proof. intros [E A R]; split; assumption. Qed.

Lemma alive_arr t a d flag : alive t -> zlen d <= sarr_size a -> alive (Set_ (set_arr t a (Cnt (zlen d) (d ++ zdrop (zlen d) (c_data (s_arr t a))))) flag).
Proof.
  intros [E A R] L; split; [exact E | | exact R]; intros b; cbn [Set_ set_arr s_arr]; destruct (sarr_eq_dec a b) as [<-|]; [|apply A].
  cbn [c_data]; pose proof (zlen_nonneg d); rewrite zlen_app, zlen_zdrop by (rewrite A; lia); rewrite A; lia.
Qed.

Lemma wr_prefix (x d : list Z) : zlen d <= zlen x -> wr x 0 d = Val (d ++ zdrop (zlen d) x).
Proof. intros L; pose proof (zlen_nonneg d); rewrite wr_in by lia; rewrite ztake_0 by lia; reflexivity. Qed.

Lemma bcopy_whole d j : is_int (zlen d) -> bcopy_int (Some (d ++ j)) (zlen d) = Val (Some d).
Proof.
  intros I; pose proof (zlen_nonneg d); unfold bcopy_int, is_int in *; rewrite int2sizet_Some by lia; unfold rdn_ptr.
  rewrite rdn_in by (rewrite ?zlen_app; pose proof (zlen_nonneg j); lia); rewrite zdrop_0, ztake_app_exact by lia; reflexivity.
Qed.

Lemma bcopy_base d : zlen d <= SEGMENT_MAX -> bcopy_int (Some (c_base (whole d))) (zlen d) = Val (Some d).
Proof.
  intros L; pose proof (zlen_nonneg d); unfold whole; cbn [c_base]; rewrite <- (app_nil_r d) at 1; apply bcopy_whole.
  unfold is_int, INT_MIN, INT_MAX, SEGMENT_MAX in *; lia.
Qed.

(** ** Each kind of parameter *)

Definition pi_size (code n : Z) : Prop := n = tbl pi_length code \/ (pi_varies code = true /\ n <= tbl pi_length code).

Lemma into_num b si code d f v flag t : pi_kind si code = true -> pi_size code (zlen d) -> tbl pi_length code <= SEGMENT_MAX ->
  (b = true -> alive t -> store_pi si code (zlen d) t (whole d) = Val (Set_ (set_num t f v) flag, used_up)) ->
  into si (opt b [(code, d)]) t (upd_num b f v flag t).
Proof.
  intros K Z S E; apply into_leaf; intros ->; [|reflexivity]; split; [apply pi_ok_kind; assumption|].
  intros A; split; [apply E; auto | apply alive_num, A].
Qed.

Lemma into_octet b si code f v mask flag t : pi_kind si code = true -> tbl pi_length code = 1 ->
  (b = true -> store_pi si code 1 t = store_octet t f mask flag) -> is_byte v -> Z.land v mask = v ->
  into si (opt b [(code, [v])]) t (upd_num b f v flag t).
Proof.
  intros K L E B M; apply into_num; [exact K | left; exact (eq_sym L) | rewrite L; discriminate|].
  intros T _; change (zlen [v]) with 1; rewrite (E T); unfold store_octet, next, whole; cbn [c_base]; rewrite rd_cons0; cbn [cbind].
  rewrite as_octet_id, M by exact B; reflexivity.
Qed.

Lemma octets2_value v : 0 <= v < 65536 -> Z.shiftl (Z.land (Z.shiftr v 8) 255) 8 + Z.land v 255 = v.
Proof.
  intros V; rewrite !land_ff, shr8, Z.shiftl_mul_pow2 by lia; change (2 ^ 8) with 256.
  rewrite (Z.mod_small (v / 256)) by (split; [apply Z.div_pos | apply Z.div_lt_upper_bound]; lia); pose proof (Z.div_mod v 256); lia.
Qed.

Lemma into_require b si f v flag t : pi_kind si PI_USER_REQ = true -> 0 <= v < 65536 ->
  (forall s w, (if negb (si =? SPDU_RF) then Set_ (set_num s N_cn_require w) SMASK_CN_REQ else Set_ (set_num s N_rf_require w) SMASK_RF_REQ) =
    Set_ (set_num s f w) flag) ->
  into si (opt b [(PI_USER_REQ, octets2 v)]) t (upd_num b f v flag t).
Proof.
  intros K V F; apply into_num; [exact K | left; reflexivity | discriminate|]; intros _ _.
  change (zlen (octets2 v)) with 2; unfold store_pi; lazy beta iota delta [Z.eqb Pos.eqb orb PI_USER_REQ PI_CALLED_SS PI_CALLING_SS PI_COMMON_REF PI_ADD_INFO
    PI_PROTOCOL_OPT PI_TSDU_MAXSIZ PI_VERSION PI_SYNC PI_TOKEN_SET PI_TOKEN PI_TDISC].
  unfold store_require; change 2 with (zlen (octets2 v)) at 1; rewrite bcopy_base by discriminate; cbn [cbind octets2].
  rewrite F, octets2_value by exact V; reflexivity.
Qed.

Lemma str2ssn_fold l : forall u, Forall (fun c => is_digit c = true) l -> 0 <= u -> u * 10 ^ zlen l + 10 ^ zlen l <= UINT32_MAX ->
  str2ssn (length l) l u = Val (fold_left (fun a c => a * 10 + (c - 48)) l u).
Proof.
  induction l as [|c l IH]; intros u D U M; [reflexivity|]; inversion D as [|? ? C D']; subst; cbn [length str2ssn fold_left].
  unfold is_digit in C; apply andb_true_iff in C as (C1 & C2); apply Z.leb_le in C1, C2.
  rewrite Z.gtb_ltb, (proj2 (Z.ltb_ge c 48)), (proj2 (Z.ltb_ge 57 c)) by lia; cbn [orb].
  rewrite zlen_cons, Z.pow_add_r in M by (try apply zlen_nonneg; lia); change (10 ^ 1) with 10 in M; pose proof (zlen_nonneg l).
  assert (P : 0 < 10 ^ zlen l) by (apply Z.pow_pos_nonneg; lia).
  assert (B : u * 10 + 10 <= UINT32_MAX) by nia.
  assert (Q : u <= (UINT32_MAX - (c - 48)) / 10) by (apply Z.div_le_lower_bound; lia).
  rewrite Z.gtb_ltb, (proj2 (Z.ltb_ge _ u) Q); apply IH; [exact D' | lia | nia].
Qed.

Lemma str2ssn_print n : 0 <= n < SERIAL_MAX + 2 -> str2ssn (Z.to_nat (zlen (print_u n))) (print_u n) 0 = Val n.
Proof.
  intros N; unfold SERIAL_MAX in N; unfold print_u; rewrite (utoa_fuel 6) by (cbn; lia).
  destruct (utoa_spec 6 n ltac:(cbn; lia) ltac:(lia)) as (D & Ne & L & V); unfold zlen; rewrite Nat2Z.id, str2ssn_fold; [rewrite V; reflexivity | exact D | lia|].
  cbn [Z.mul Z.add]; apply Z.le_trans with (10 ^ 6); [apply Z.pow_le_mono_r; unfold zlen; lia | discriminate].
Qed.

Lemma into_ssn b si code f n flag t : pi_kind si code = true -> tbl pi_length code = 6 -> pi_varies code = true -> 0 <= n < SERIAL_MAX + 2 ->
  (forall li c, store_pi si code li t c = (s <- store_ssn t f flag li c;; Val (s, skip li c))) ->
  into si (opt b [(code, print_u n)]) t (upd_num b f n flag t).
Proof.
  intros K L V N E; destruct (zlen_print_ssn n N) as (P & _); apply into_num; [exact K | right; split; [exact V | lia] | rewrite L; discriminate|]; intros _ _.
  rewrite E; unfold store_ssn; cbn [whole c_base]; rewrite str2ssn_print by exact N; cbn [cbind]; rewrite skip_whole; reflexivity.
Qed.

Lemma into_arr b si code a d flag t : pi_kind si code = true -> tbl pi_length code = sarr_size a -> pi_varies code = true -> zlen d <= sarr_size a ->
  (forall li c, store_pi si code li t c = (s <- copy_array t a flag li c;; Val (s, skip li c))) ->
  into si (opt b [(code, d)]) t (upd_arr b a d flag t).
Proof.
  intros K L V N E; assert (S : sarr_size a <= 64) by (destruct a; discriminate); apply into_leaf; intros ->; [|reflexivity].
  split; [apply pi_ok_kind; [exact K | right; split; [exact V | lia] | unfold SEGMENT_MAX; lia]|]; intros A; split; [|apply alive_arr; assumption].
  change (Cur d (zlen d) [] None 0) with (whole d); rewrite E; pose proof (zlen_nonneg d); unfold copy_array; rewrite int2u8_Some by (unfold is_byte; lia).
  rewrite bcopy_base by (unfold SEGMENT_MAX; lia); cbn [cbind]; rewrite wr_prefix by (rewrite (al_arr _ A); lia); cbn [cbind]; rewrite skip_whole; reflexivity.
Qed.

Lemma into_ssap b si code a d flag t : pi_kind si code = true -> tbl pi_length code = sarr_size a -> pi_varies code = true -> zlen d <= sarr_size a ->
  (forall li, store_pi si code li t = store_ssap t a flag li) ->
  into si (opt b [(code, d)]) t (upd_arr b a d flag t).
Proof.
  intros K L V N E; assert (S : sarr_size a <= 64) by (destruct a; discriminate); apply into_leaf; intros ->; [|reflexivity].
  split; [apply pi_ok_kind; [exact K | right; split; [exact V | lia] | unfold SEGMENT_MAX; lia]|]; intros A; split; [|apply alive_arr; assumption].
  change (Cur d (zlen d) [] None 0) with (whole d); rewrite E; unfold store_ssap.
  rewrite bcopy_base by (unfold SEGMENT_MAX; lia); cbn [cbind]; rewrite wr_prefix by (rewrite (al_arr _ A); lia); cbn [cbind]; rewrite skip_whole; reflexivity.
Qed.
Lemma into_reflect b si d t : si = SPDU_AB -> zlen d = AB_REFL_SIZE -> is_set t SMASK_SPDU_AB = true ->
  into si (opt b [(PI_REFLECT, d)]) t (upd_reflect b d SMASK_AB_REFL t).
Proof.
  intros -> L S; apply into_leaf; intros ->; [|reflexivity]; split; [apply pi_ok_kind; [reflexivity | right; split; [reflexivity | rewrite L; discriminate] | discriminate]|].
  intros A; split; [|destruct A as [E Ar R]; split; [exact E | exact Ar | exact L]]; change (Cur d (zlen d) [] None 0) with (whole d).
  change (store_pi SPDU_AB PI_REFLECT (zlen d) t (whole d)) with (store_reflect SPDU_AB (zlen d) t (whole d)); unfold store_reflect.
  change (SPDU_AB =? SPDU_AB) with true; cbn match; rewrite S; replace (zlen d >? AB_REFL_SIZE) with false by (rewrite L; reflexivity); cbn [negb orb].
  rewrite bcopy_base by (rewrite L; discriminate); cbn [cbind]; rewrite wr_prefix by (rewrite (al_reflect _ A); lia); cbn [cbind]; rewrite skip_whole.
  rewrite zdrop_all, app_nil_r by (rewrite (al_reflect _ A); lia); reflexivity.
Qed.

Lemma into_udata b si code d t : (b = true -> pi_ok si (code, d)) -> d <> [] -> zlen d <= SEGMENT_MAX -> (code = PI_XDATA -> zlen d <= CONNECT_MAX) ->
  (si = SPDU_AB -> is_set t SMASK_SPDU_AB = true) -> (forall li, store_pi si code li t = store_udata si code li t) ->
  into si (opt b [(code, d)]) t (upd_udata b d t).
Proof.
  intros O N L X S E; assert (Z0 : 0 < zlen d) by (pose proof (zlen_nonneg d); destruct (Z.eq_dec (zlen d) 0) as [D|]; [apply zlen_0 in D; contradiction | lia]).
  apply into_leaf; intros B; [|rewrite B; reflexivity]; split; [apply O, B|]; intros A; rewrite B; split; [|destruct A as [A1 A2 A3]; split; assumption].
  change (Cur d (zlen d) [] None 0) with (whole d); rewrite E; unfold store_udata; rewrite (proj2 (Z.eqb_neq (zlen d) 0)) by lia.
  assert (S' : (si =? SPDU_AB) && negb (is_set (Set_ t SMASK_UDATA_PGI) SMASK_SPDU_AB) = false).
  { rewrite is_set_Set; destruct (Z.eqb_spec si SPDU_AB) as [Y|]; [rewrite (S Y), orb_true_r; reflexivity | reflexivity]. }
  rewrite S', Z.gtb_ltb; replace (_ <? zlen d) with false.
  - rewrite Mem, bcopy_base by exact L; cbn [cbind]; rewrite skip_whole; reflexivity.
  - symmetry; apply Z.ltb_ge; destruct (Z.eqb_spec code PI_XDATA); cbn [negb]; auto.
Qed.

Lemma into_rdata b d t : (b = true -> zlen d <= RF_SIZE) -> into SPDU_RF (opt b [(PI_REASON, d)]) t (upd_rdata b d t).
Proof.
  intros L; apply into_leaf; intros ->; [|reflexivity]; specialize (L eq_refl); split; [apply pi_ok_kind; [reflexivity | right; split; [reflexivity | exact L] | discriminate]|].
  intros [A1 A2 A3]; split; [|split; assumption]; change (Cur d (zlen d) [] None 0) with (whole d).
  change (store_pi SPDU_RF PI_REASON (zlen d) t (whole d)) with (store_reason SPDU_RF (zlen d) t (whole d)); unfold store_reason.
  change (SPDU_RF =? SPDU_RF) with true; cbn match; rewrite Mem, bcopy_base by (unfold SEGMENT_MAX, RF_SIZE in *; lia); cbn [cbind]; rewrite skip_whole; reflexivity.
Qed.

Lemma Set_0 t : Set_ t 0 = t.
Proof. destruct t; unfold Set_; simpl; rewrite Z.lor_0_r; reflexivity. Qed.

Lemma into_tsdu b si i r t : pi_kind si PI_TSDU_MAXSIZ = true -> 0 <= i < 65536 -> 0 <= r < 65536 ->
  into si (opt b [(PI_TSDU_MAXSIZ, octets2 i ++ octets2 r)]) t (upd_num b N_tsdu_resp r SMASK_CN_TSDU (upd_num b N_tsdu_init i 0 t)).
Proof.
  intros K I R; apply into_leaf; intros ->; [|reflexivity]; split; [apply pi_ok_kind; [exact K | left; reflexivity | discriminate]|].
  intros A; split; [|apply alive_num, alive_num, A]; change (store_pi si PI_TSDU_MAXSIZ (zlen (octets2 i ++ octets2 r)) t) with (store_tsdu t); unfold store_tsdu.
  change (tbl pi_length PI_TSDU_MAXSIZ) with (zlen (octets2 i ++ octets2 r)); change (Cur ?d (zlen ?d) [] None 0) with (whole d).
  rewrite bcopy_base by discriminate; cbn [cbind octets2 app]; rewrite !octets2_value by assumption; unfold upd_num; rewrite Set_0; reflexivity.
Qed.

(** ** Groups *)

Lemma alive_group code t : alive t -> alive (group_effect code t).
Proof. intros [E A R]; unfold group_effect; destruct (_ =? _); [|destruct (_ =? _)]; split; assumption. Qed.

Lemma after_group si b code ps t t' :
  (b = true -> In code group_codes /\ pi_allowed (tbl si_table si) code (zlen (enc_pis ps)) = true /\ zlen (enc_pis ps) < 255 /\ into si ps (group_effect code t) t') ->
  (b = false -> t' = t) -> after si (opt b [Pgi code ps]) t t'.
Proof.
  intros T F A; destruct b; [|rewrite (F eq_refl); apply goes_nil, A]; destruct (T eq_refl) as (C & P & L & G).
  destruct (G (alive_group code t A)) as (O & R & A'); split; [constructor; [repeat split; assumption | constructor]|]; split; [|exact A'].
  cbn [opt run item_effect]; unfold effects; rewrite R; reflexivity.
Qed.

Lemma is_set_ors t l : is_set t (ors l) = existsb (is_set t) l.
Proof.
  induction l as [|g l IH]; [unfold is_set; cbn; rewrite Z.land_0_r; reflexivity|]; cbn [existsb]; rewrite <- IH; unfold is_set, ors; cbn [fold_right]; fold (ors l).
  rewrite Z.land_lor_distr_r; destruct (Z.eqb_spec (Z.land (s_mask t) g) 0) as [->|N]; [rewrite Z.lor_0_l; reflexivity|]; cbn [negb orb].
  destruct (Z.eqb_spec (Z.lor (Z.land (s_mask t) g) (Z.land (s_mask t) (ors l))) 0) as [E|]; [apply Z.lor_eq_0_iff in E as (E & _); contradiction | reflexivity].
Qed.
End Read.

(** * What a packet becomes *)

(** ** Packets the reader accepts *)

(** The values of a field that the reader does not refuse or cut. *)
Definition num_readable (f : snum) (v : Z) : bool :=
  match f with
  | N_options | N_mip_sync | N_map_sync | N_rf_disconnect | N_fn_disconnect => v <=? 1
  | N_ab_disconnect => v <=? 15
  | N_enclose => v <=? 3
  | N_pr_type => v <=? PR_MAX
  | N_rs_type => SYNC_OK v
  | N_ed_reason | N_ai_reason | N_ad_reason => SP_OK v
  | _ => true
  end.

Definition ar_ref_len (s : ssapkt) : Z :=
  c_len (s_arr s A_ar_called) + c_len (s_arr s A_ar_calling) + c_len (s_arr s A_ar_comm) + c_len (s_arr s A_ar_addt).

(** The limit to the user data: the reader takes version 1. *)
Definition udata_limit (s : ssapkt) : Z :=
  if s_code s =? SPDU_CN then CONNECT_MAX else if s_code s =? SPDU_MIA then SEGMENT_MAX else 512.

(** [cat0] tells GT from DT and AB from AI. *)
Record readable (s : ssapkt) (cat0 : Z) : Prop := {
  re_num : forall f, num_readable f (s_num s f) = true;
  re_udata : s_ulen s <= udata_limit s;
  re_oid : s_code s = SPDU_AR -> c_len (s_arr s A_ar_oid) <> 0;
  re_ref : s_code s = SPDU_AR -> is_set s SMASK_AR_REF = true -> ar_ref_len s <> 0;
  re_GT : s_code s = SPDU_GT -> is_set s SMASK_SPDU_GT = negb (cat0 =? 0);
  re_AB : s_code s = SPDU_AB -> is_set s SMASK_SPDU_AB = negb (cat0 =? 0)
}.

(** ** The fields an SPDU carries *)

Definition enclose_fields (s : ssapkt) : list (Z * snum) :=
  let code := s_code s in
  if existsb (Z.eqb code) [SPDU_CN; SPDU_AA; SPDU_EX; SPDU_GTC; SPDU_GTA; SPDU_PR; SPDU_AD; SPDU_ADA] then []
  else if code =? SPDU_GT then opt (negb (is_set s SMASK_SPDU_GT)) [(SMASK_ENCLOSE, N_enclose)]
  else if code =? SPDU_AB then opt (is_set s SMASK_SPDU_AB) [(SMASK_ENCLOSE, N_enclose)]
  else [(SMASK_ENCLOSE, N_enclose)].

Definition num_fields (s : ssapkt) : list (Z * snum) :=
  let code := s_code s in
  (if (code =? SPDU_CN) || (code =? SPDU_AC) then
     [(SMASK_CN_OPT, N_options); (SMASK_CN_TSDU, N_tsdu_init); (SMASK_CN_TSDU, N_tsdu_resp); (SMASK_CN_VRSN, N_cn_version); (SMASK_CN_ISN, N_isn);
      (SMASK_CN_SET, N_settings); (SMASK_CN_REQ, N_cn_require)] ++ opt (code =? SPDU_AC) [(SMASK_AC_TOKEN, N_ac_token)]
   else if code =? SPDU_RF then [(SMASK_RF_DISC, N_rf_disconnect); (SMASK_RF_REQ, N_rf_require); (SMASK_RF_VRSN, N_rf_version)]
   else if code =? SPDU_FN then [(SMASK_FN_DISC, N_fn_disconnect)]
   else if code =? SPDU_AB then if is_set s SMASK_SPDU_AB then [(SMASK_AB_DISC, N_ab_disconnect)] else [(SMASK_AI_REASON, N_ai_reason)]
   else if code =? SPDU_GT then opt (is_set s SMASK_SPDU_GT) [(SMASK_GT_TOKEN, N_gt_token)]
   else if code =? SPDU_PT then [(SMASK_PT_TOKEN, N_pt_token)]
   else if code =? SPDU_MIP then [(SMASK_MIP_SYNC, N_mip_sync); (SMASK_MIP_SERIAL, N_mip_serial)]
   else if code =? SPDU_MAP then [(SMASK_MAP_SYNC, N_map_sync); (SMASK_MAP_SERIAL, N_map_serial)]
   else if code =? SPDU_MIA then [(SMASK_MIA_SERIAL, N_mia_serial)]
   else if code =? SPDU_MAA then [(SMASK_MAA_SERIAL, N_maa_serial)]
   else if code =? SPDU_RS then [(SMASK_RS_SET, N_rs_settings); (SMASK_RS_TYPE, N_rs_type); (SMASK_RS_SSN, N_rs_serial)]
   else if code =? SPDU_RA then [(SMASK_RA_SET, N_ra_settings); (SMASK_RA_SSN, N_ra_serial)]
   else if code =? SPDU_PR then [(SMASK_PR_TYPE, N_pr_type)]
   else if code =? SPDU_ED then [(SMASK_ED_REASON, N_ed_reason)]
   else if code =? SPDU_AR then [(SMASK_AR_SSN, N_ar_serial)]
   else if code =? SPDU_AD then [(SMASK_AD_REASON, N_ad_reason)]
   else []) ++ enclose_fields s.

Definition arr_fields (s : ssapkt) : list (Z * sarr) :=
  let code := s_code s in
  if (code =? SPDU_CN) || (code =? SPDU_AC) then
    [(SMASK_CN_REF, A_cn_user); (SMASK_CN_REF, A_cn_comm); (SMASK_CN_REF, A_cn_addt); (SMASK_CN_CALLING, A_calling); (SMASK_CN_CALLED, A_called)]
  else if code =? SPDU_RF then [(SMASK_RF_REF, A_rf_user); (SMASK_RF_REF, A_rf_comm); (SMASK_RF_REF, A_rf_addt)]
  else if code =? SPDU_AS then [(SMASK_AS_ID, A_as_id)]
  else if code =? SPDU_AR then
    [(SMASK_AR_REF, A_ar_called); (SMASK_AR_REF, A_ar_calling); (SMASK_AR_REF, A_ar_comm); (SMASK_AR_REF, A_ar_addt); (SMASK_AR_OID, A_ar_oid);
     (SMASK_AR_ID, A_ar_id)]
  else [].

Definition carries_udata (s : ssapkt) : bool :=
  existsb (Z.eqb (s_code s)) [SPDU_CN; SPDU_AC; SPDU_FN; SPDU_DN; SPDU_NF; SPDU_CD; SPDU_CDA; SPDU_PT; SPDU_MIP; SPDU_MAP; SPDU_MIA; SPDU_MAA; SPDU_RS;
    SPDU_RA; SPDU_ED; SPDU_AS; SPDU_AR] || ((s_code s =? SPDU_AB) && is_set s SMASK_SPDU_AB).

(** The packet that is read has the fields of the one that was written. *)
Record same_spdu (s s' : ssapkt) : Prop := {
  same_code : s_code s' = s_code s;
  same_GT : s_code s = SPDU_GT -> is_set s' SMASK_SPDU_GT = is_set s SMASK_SPDU_GT;
  same_AB : s_code s = SPDU_AB -> is_set s' SMASK_SPDU_AB = is_set s SMASK_SPDU_AB;
  same_num : forall flag f, In (flag, f) (num_fields s) -> is_set s' flag = is_set s flag /\ (is_set s flag = true -> s_num s' f = s_num s f);
  same_arr : forall flag a, In (flag, a) (arr_fields s) -> is_set s' flag = is_set s flag /\ (is_set s flag = true -> octets_of s' a = octets_of s a);
  same_reflect : s_code s = SPDU_AB -> is_set s SMASK_SPDU_AB = true -> is_set s' SMASK_AB_REFL = is_set s SMASK_AB_REFL /\
    (is_set s SMASK_AB_REFL = true -> s_reflect s' = s_reflect s);
  same_udata : carries_udata s = true -> user_octets s' = user_octets s;
  same_rdata : s_code s = SPDU_RF -> reason_octets s' = reason_octets s;
  same_normal : is_set s' SMASK_SPDU_EXPD = false;
  same_enclosed : is_set s SMASK_ENCLOSE = false -> is_set s' SMASK_ENCLOSE = false;
  same_given : (s_udata s', s_ulen s') =
    match (if carries_udata s then s_udata s else None) with Some _ => (Some (user_octets s), s_ulen s) | None => (None, 0) end;
  same_room : forall a, zlen (octets_of s' a) = c_len (s_arr s' a) /\ zlen (c_data (s_arr s' a)) = sarr_size a;
  same_reasons : s_code s = SPDU_RF -> s_rlen s > 0 -> s_rdata s' = Some (reason_octets s) /\ s_rlen s' = s_rlen s
}.

Section Packet.
Context `{Allocator} (Mem : memory_ok) (s : ssapkt) (cat0 : Z) (Ok : spkt_ok s) (Re : readable s cat0).

Lemma num_range f : 0 <= s_num s f < num_bound f.
Proof. apply (ok_num s Ok). Qed.

Lemma len_octets_of a : zlen (octets_of s a) <= sarr_size a.
Proof. destruct (zlen_octets_of s a Ok) as (-> & L); lia. Qed.

Lemma num_is_byte f : num_bound f = 256 -> is_byte (s_num s f).
Proof. intros E; pose proof (num_range f); unfold is_byte; lia. Qed.

(** A reference. *)
Definition ref_read (b : bool) (u c a : sarr) (flag : Z) (t : ssapkt) : ssapkt :=
  let upd x t := upd_arr (b && negb (c_len (s_arr s x) =? 0)) x (octets_of s x) flag t in
  upd a (upd c (upd u (upd_flag b SMASK_CN_REF t))).

Lemma after_ref si b u c a flag code t :
  pi_kind si code && pi_kind si PI_COMMON_REF && pi_kind si PI_ADD_INFO && pi_varies code = true ->
  (forall n, pi_allowed (tbl si_table si) PGI_CN_ID n = true) ->
  (tbl pi_length code = 64 /\ sarr_size u = 64 /\ sarr_size c = 64 /\ sarr_size a = 4) ->
  (forall t li x, store_pi si code li t x = (s <- copy_array t u flag li x;; Val (s, skip li x))) ->
  (forall t li x, store_pi si PI_COMMON_REF li t x = (s <- copy_array t c flag li x;; Val (s, skip li x))) ->
  (forall t li x, store_pi si PI_ADD_INFO li t x = (s <- copy_array t a flag li x;; Val (s, skip li x))) ->
  after si (opt b [i_ref s u c a code]) t (ref_read b u c a flag t).
Proof.
  rewrite !andb_true_iff; intros (((K1 & K2) & K3) & V) Al (L1 & Z1 & Z2 & Z3) E1 E2 E3; apply after_group; intros ->; [|reflexivity].
  split; [cbn; auto|]; split; [apply Al | split].
  - rewrite !len_pis_app; pose proof (len_nonempty_le s Ok code u); pose proof (len_nonempty_le s Ok PI_COMMON_REF c); pose proof (len_nonempty_le s Ok PI_ADD_INFO a); lia.
  - unfold ref_read; cbv beta zeta; cbn [andb]; eapply goes_app; [apply (into_arr _ si code u) | eapply goes_app; [apply (into_arr _ si PI_COMMON_REF c) | apply (into_arr _ si PI_ADD_INFO a)]];
      first [assumption | reflexivity | apply len_octets_of | congruence | rewrite Z2; reflexivity | rewrite Z3; reflexivity | auto].
Qed.

(** The parameters of CN and AC that are in a group. *)
Definition cn_items_read (t : ssapkt) : ssapkt :=
  upd_num (is_set s SMASK_CN_SET) N_settings (s_num s N_settings) SMASK_CN_SET
    (upd_num (is_set s SMASK_CN_ISN) N_isn (s_num s N_isn) SMASK_CN_ISN
      (upd_num (is_set s SMASK_CN_VRSN) N_cn_version (s_num s N_cn_version) SMASK_CN_VRSN
        (upd_num (is_set s SMASK_CN_TSDU) N_tsdu_resp (s_num s N_tsdu_resp) SMASK_CN_TSDU
          (upd_num (is_set s SMASK_CN_TSDU) N_tsdu_init (s_num s N_tsdu_init) 0
            (upd_num (is_set s SMASK_CN_OPT) N_options (s_num s N_options) SMASK_CN_OPT t))))).

Lemma land_ff_id v : is_byte v -> Z.land v 255 = v.
Proof. intros V; rewrite land_ff; apply Z.mod_small; exact V. Qed.

Lemma land_low k v : 0 <= v < 2 ^ k -> 0 <= k -> Z.land v (Z.ones k) = v.
Proof. intros V K; rewrite Z.land_ones by exact K; apply Z.mod_small, V. Qed.

Lemma after_cn_items si t : si = SPDU_CN \/ si = SPDU_AC -> after si (i_cn_items s) t (cn_items_read t).
Proof.
  intros Si; apply after_group; intros B; rewrite is_set_ors in B; cbn [existsb] in B.
  - split; [cbn; auto|]; split; [destruct Si as [-> | ->]; reflexivity|]; split; [pose proof (len_group_cn s Ok); lia|].
    change (group_effect PGI_CN_ITEMS t) with t; unfold cn_items_read.
    pose proof (num_range N_tsdu_init) as R1; pose proof (num_range N_tsdu_resp) as R2; cbn [num_bound] in R1, R2.
    eapply goes_app; [apply (into_octet _ si PI_PROTOCOL_OPT N_options _ CR_OPT_MASK) | eapply goes_app; [apply into_tsdu | eapply goes_app;
      [apply (into_octet _ si PI_VERSION N_cn_version _ 255) | eapply goes_app; [apply (into_ssn _ si PI_ISN N_isn) | apply (into_octet _ si PI_TOKEN_SET N_settings _ 255)]]]];
      first [ destruct Si as [-> | ->]; reflexivity | apply num_is_byte; reflexivity | apply land_ff_id, num_is_byte; reflexivity | lia | apply (num_range N_isn) | idtac ].
    apply (land_low 1); [|lia]; pose proof (re_num s cat0 Re N_options) as O; cbn in O; pose proof (num_range N_options); lia.
  - repeat (apply orb_false_iff in B as (? & B)); unfold cn_items_read; repeat match goal with E : is_set s _ = false |- _ => rewrite E; clear E end; reflexivity.
Qed.
Definition cn_rest_read (t : ssapkt) : ssapkt :=
  upd_arr (is_set s SMASK_CN_CALLED) A_called (octets_of s A_called) SMASK_CN_CALLED
    (upd_arr (is_set s SMASK_CN_CALLING) A_calling (octets_of s A_calling) SMASK_CN_CALLING
      (upd_num (is_set s SMASK_CN_REQ) N_cn_require (s_num s N_cn_require) SMASK_CN_REQ t)).

Lemma after_cn_rest si t : si = SPDU_CN \/ si = SPDU_AC -> after si (i_cn_rest s) t (cn_rest_read t).
Proof.
  intros Si; unfold i_cn_rest, cn_rest_read.
  eapply goes_app; [apply after_pi, (into_require _ si N_cn_require) | eapply goes_app; [apply after_pi, (into_ssap _ si PI_SSAP_CALLING A_calling) |
    apply after_pi, (into_ssap _ si PI_SSAP_CALLED A_called)]]; first [ destruct Si as [-> | ->]; reflexivity | apply (num_range N_cn_require) | apply len_octets_of ].
Qed.

Definition enclose_read (t : ssapkt) : ssapkt := upd_num (is_set s SMASK_ENCLOSE) N_enclose (s_num s N_enclose) SMASK_ENCLOSE t.

Lemma after_enclose si t : pi_kind si PI_ENCLOSE = true -> store_pi si PI_ENCLOSE 1 t = store_octet t N_enclose ENCL_MASK SMASK_ENCLOSE ->
  after si (i_enclose s) t (enclose_read t).
Proof.
  intros K E; apply after_pi, (into_octet _ si PI_ENCLOSE N_enclose _ ENCL_MASK); auto; [apply num_is_byte; reflexivity|].
  apply (land_low 2); [|lia]; pose proof (re_num s cat0 Re N_enclose) as O; cbn in O; pose proof (num_range N_enclose); lia.
Qed.

(** User data. *)
Definition has_data : bool := match s_udata s with Some _ => true | None => false end.

Definition udata_read (t : ssapkt) : ssapkt := upd_udata has_data (user_octets s) t.

Lemma len_user : has_data = true -> 0 < zlen (user_octets s) /\ zlen (user_octets s) = s_ulen s /\ s_ulen s <= SEGMENT_MAX.
Proof.
  unfold has_data, user_octets; pose proof (ok_udata s Ok) as D; unfold data_fits in D; destruct (s_udata s) as [d|]; [|discriminate]; intros _.
  destruct D as (L & M & _); rewrite zlen_ztake by lia; lia.
Qed.

Lemma pi_ok_udata si d : negb (Z.land (tbl si_table si) PMASK_UDATA =? 0) = true -> zlen d <= 512 -> pi_ok si (PI_UDATA, d).
Proof.
  intros M L; split; [split; [discriminate | reflexivity]|]; split; [cbn [snd]; unfold SEGMENT_MAX; lia|]; cbn [fst snd]; split; [|split; [reflexivity|]].
  - unfold pi_allowed; change (PI_UDATA =? PI_UDATA) with true; cbn match; rewrite M, (proj2 (Z.leb_le _ _)) by exact L; reflexivity.
  - intros [E | [E | [E | []]]]; discriminate E.
Qed.

Lemma pi_ok_xdata d : 512 < zlen d <= SEGMENT_MAX -> pi_ok SPDU_CN (PI_XDATA, d).
Proof.
  intros L; split; [split; [discriminate | reflexivity]|]; split; [cbn [snd]; lia|]; cbn [fst snd]; split; [|split; [reflexivity|]].
  - change (pi_allowed (tbl si_table SPDU_CN) PI_XDATA (zlen d)) with (512 <? zlen d); apply Z.ltb_lt; lia.
  - intros [E | [E | [E | []]]]; discriminate E.
Qed.

Lemma after_udata si code t : (has_data = true -> pi_ok si (code, user_octets s)) -> (code = PI_XDATA -> zlen (user_octets s) <= CONNECT_MAX) ->
  (si = SPDU_AB -> is_set t SMASK_SPDU_AB = true) -> (forall li, store_pi si code li t = store_udata si code li t) ->
  after si (i_udata s code) t (udata_read t).
Proof.
  intros O X S E; unfold udata_read; destruct has_data eqn:D.
  - replace (i_udata s code) with (opt true [Pi (code, user_octets s)]) by (unfold i_udata, has_data in *; destruct (s_udata s); [reflexivity | discriminate]).
    destruct (len_user D) as (P & L & M); apply after_pi, into_udata; auto; [|lia].
    intros N; rewrite N in P; cbn in P; lia.
  - replace (i_udata s code) with (@nil sitem) by (unfold i_udata, has_data in *; destruct (s_udata s); [discriminate | reflexivity]); apply goes_nil.
Qed.

Lemma after_tail si t : si = s_code s -> udata_limit s = 512 -> pi_kind si PI_ENCLOSE && negb (Z.land (tbl si_table si) PMASK_UDATA =? 0) = true ->
  store_pi si PI_ENCLOSE 1 t = store_octet t N_enclose ENCL_MASK SMASK_ENCLOSE -> (si = SPDU_AB -> is_set t SMASK_SPDU_AB = true) ->
  after si (i_tail s) t (udata_read (enclose_read t)).
Proof.
  intros Si L KU E S; apply andb_true_iff in KU as (K & U); unfold i_tail; eapply goes_app; [apply after_enclose; assumption|]; apply after_udata.
  - intros D; destruct (len_user D) as (_ & Lu & _); apply pi_ok_udata; [exact U|]; pose proof (re_udata s cat0 Re); lia.
  - discriminate.
  - intros A; unfold enclose_read; rewrite is_set_num, (S A), orb_true_r; reflexivity.
  - reflexivity.
Qed.
(** ** Activity resume *)

Lemma s_arr_other b a g d flag t : same_sarr a g = false -> s_arr (upd_arr b a d flag t) g = s_arr t g.
Proof. destruct b; [|reflexivity]; unfold same_sarr, upd_arr; cbn; destruct (sarr_eq_dec a g); [discriminate | reflexivity]. Qed.

Definition ar_ref_read (t : ssapkt) : ssapkt :=
  let upd x t := upd_arr (is_set s SMASK_AR_REF && negb (c_len (s_arr s x) =? 0)) x (octets_of s x) SMASK_AR_REF t in
  upd A_ar_addt (upd A_ar_comm (upd A_ar_calling (upd A_ar_called (upd_flag true SMASK_AR_OID t)))).

Definition ar_link_read (t : ssapkt) : ssapkt :=
  upd_num true N_ar_serial (s_num s N_ar_serial) SMASK_AR_SSN (upd_arr true A_ar_oid (octets_of s A_ar_oid) 0 (ar_ref_read t)).

Lemma into_ar_ref t : into SPDU_AR (opt (is_set s SMASK_AR_REF)
    (i_nonempty s PI_AR_CALLED A_ar_called ++ i_nonempty s PI_AR_CALLING A_ar_calling ++
     i_nonempty s PI_AR_COMMON A_ar_comm ++ i_nonempty s PI_AR_ADDT A_ar_addt)) (upd_flag true SMASK_AR_OID t) (ar_ref_read t).
Proof.
  unfold ar_ref_read; cbv beta zeta; destruct (is_set s SMASK_AR_REF); [|apply goes_nil]; cbn [opt andb].
  eapply goes_app; [apply (into_arr _ SPDU_AR PI_AR_CALLED A_ar_called) | eapply goes_app; [apply (into_arr _ SPDU_AR PI_AR_CALLING A_ar_calling) |
    eapply goes_app; [apply (into_arr _ SPDU_AR PI_AR_COMMON A_ar_comm) | apply (into_arr _ SPDU_AR PI_AR_ADDT A_ar_addt)]]];
    first [reflexivity | apply len_octets_of].
Qed.

(** The first identifier of an activity goes into the link, as long as it is
    not empty. *)
Lemma store_oid t li c : is_set t SMASK_AR_OID = true -> c_len (s_arr t A_ar_oid) = 0 ->
  store_pi SPDU_AR PI_ACT_ID li t c = (s <- copy_array t A_ar_oid 0 li c;; Val (s, skip li c)).
Proof.
  intros O L; change (store_pi SPDU_AR PI_ACT_ID li t c) with (store_act SPDU_AR li t c); unfold store_act; change (SPDU_AR =? SPDU_AS) with false.
  change (SPDU_AR =? SPDU_AR) with true; cbn match; rewrite O, L; reflexivity.
Qed.

Lemma store_id t li c : c_len (s_arr t A_ar_oid) <> 0 ->
  store_pi SPDU_AR PI_ACT_ID li t c = (s <- copy_array t A_ar_id SMASK_AR_ID li c;; Val (s, skip li c)).
Proof.
  intros L; change (store_pi SPDU_AR PI_ACT_ID li t c) with (store_act SPDU_AR li t c); unfold store_act; change (SPDU_AR =? SPDU_AS) with false.
  change (SPDU_AR =? SPDU_AR) with true; cbn match; rewrite (proj2 (Z.eqb_neq _ 0) L), andb_false_r; reflexivity.
Qed.

Lemma after_ar_link t : c_len (s_arr t A_ar_oid) = 0 -> after SPDU_AR [i_ar_link s] t (ar_link_read t).
Proof.
  intros L; apply (after_group SPDU_AR true); [intros _ | discriminate]; split; [cbn; auto|]; split; [reflexivity|]; split; [exact (len_ar_group s Ok)|].
  change (group_effect PGI_AR_LINK t) with (upd_flag true SMASK_AR_OID t); eapply goes_app; [apply into_ar_ref|]; cbn [app].
  eapply (goes_app _ _ [_] [_]); [apply (into_arr true SPDU_AR PI_ACT_ID A_ar_oid _ 0) | apply (into_ssn true SPDU_AR PI_SERIAL N_ar_serial)];
    try first [reflexivity | apply len_octets_of | apply (num_range N_ar_serial)].
  intros li c; unfold ar_ref_read; cbv beta zeta; apply store_oid; [autorewrite with spdu; rewrite !orb_true_r; reflexivity|].
  rewrite !s_arr_other by reflexivity; exact L.
Qed.

Lemma after_ar_id t : c_len (s_arr t A_ar_oid) <> 0 ->
  after SPDU_AR [Pi (i_array s PI_ACT_ID A_ar_id)] t (upd_arr true A_ar_id (octets_of s A_ar_id) SMASK_AR_ID t).
Proof.
  intros L; apply (after_pi SPDU_AR true), (into_arr true SPDU_AR PI_ACT_ID A_ar_id); try first [reflexivity | apply len_octets_of].
  intros; apply store_id, L.
Qed.
(** ** The other kinds of one octet *)

Lemma into_reason1 b si f flag t : pi_kind si PI_REASON = true -> num_bound f = 256 -> SP_OK (s_num s f) = true ->
  (b = true -> store_pi si PI_REASON 1 t = store_reason1 t f flag 1) ->
  into si (opt b [i_octet s PI_REASON f]) t (upd_num b f (s_num s f) flag t).
Proof.
  intros K B P E; apply into_num; [exact K | right; split; [reflexivity | discriminate] | discriminate|]; intros T _.
  change (zlen [s_num s f]) with 1; rewrite (E T); unfold store_reason1, next, whole; cbn [c_base]; rewrite rd_cons0; cbn [cbind].
  rewrite as_octet_id, P by (apply num_is_byte, B); reflexivity.
Qed.

Lemma into_resync t : into SPDU_RS [i_octet s PI_RESYNC N_rs_type] t (upd_num true N_rs_type (s_num s N_rs_type) SMASK_RS_TYPE t).
Proof.
  apply (into_num true); [reflexivity | left; reflexivity | discriminate|]; intros _ _; pose proof (re_num s cat0 Re N_rs_type) as P; cbn [num_readable] in P.
  change (store_pi SPDU_RS PI_RESYNC (zlen [s_num s N_rs_type]) t) with (store_resync t); unfold store_resync, next, whole; cbn [c_base]; rewrite rd_cons0; cbn [cbind].
  rewrite as_octet_id, P by (apply num_is_byte; reflexivity); reflexivity.
Qed.

Lemma into_prepare t : into SPDU_PR [i_octet s PI_PREPARE N_pr_type] t (upd_num true N_pr_type (s_num s N_pr_type) SMASK_PR_TYPE t).
Proof.
  apply (into_num true); [reflexivity | left; reflexivity | discriminate|]; intros _ _; pose proof (re_num s cat0 Re N_pr_type) as P; cbn [num_readable] in P.
  change (store_pi SPDU_PR PI_PREPARE (zlen [s_num s N_pr_type]) t) with (store_prepare t); unfold store_prepare, next, whole; cbn [c_base]; rewrite rd_cons0; cbn [cbind].
  rewrite as_octet_id by (apply num_is_byte; reflexivity); rewrite Z.gtb_ltb, (proj2 (Z.ltb_ge _ _)) by (apply Z.leb_le; exact P); reflexivity.
Qed.

(** ** The packet that is read *)

Definition num_read (b : bool) (f : snum) (flag : Z) (t : ssapkt) : ssapkt := upd_num b f (s_num s f) flag t.

Definition arr_read (a : sarr) (flag : Z) (t : ssapkt) : ssapkt := upd_arr true a (octets_of s a) flag t.

Definition tail_read (t : ssapkt) : ssapkt := udata_read (enclose_read t).

Definition spdu_read (t : ssapkt) : ssapkt :=
  let code := s_code s in
  let may f flag := num_read (is_set s flag) f flag in
  let must f flag := num_read true f flag in
  if code =? SPDU_CN then
    udata_read (cn_rest_read (cn_items_read (ref_read (is_set s SMASK_CN_REF) A_cn_user A_cn_comm A_cn_addt SMASK_CN_REF t)))
  else if code =? SPDU_AC then
    tail_read (cn_rest_read (may N_ac_token SMASK_AC_TOKEN (cn_items_read
      (ref_read (is_set s SMASK_CN_REF) A_cn_user A_cn_comm A_cn_addt SMASK_CN_REF t))))
  else if code =? SPDU_RF then
    upd_rdata (s_rlen s >? 0) (reason_octets s) (enclose_read (may N_rf_version SMASK_RF_VRSN (may N_rf_require SMASK_RF_REQ
      (may N_rf_disconnect SMASK_RF_DISC (ref_read (is_set s SMASK_RF_REF) A_rf_user A_rf_comm A_rf_addt SMASK_RF_REF t)))))
  else if code =? SPDU_FN then tail_read (may N_fn_disconnect SMASK_FN_DISC t)
  else if (code =? SPDU_DN) || (code =? SPDU_NF) || (code =? SPDU_CD) || (code =? SPDU_CDA) then tail_read t
  else if code =? SPDU_AB then
    if is_set s SMASK_SPDU_AB then
      tail_read (upd_reflect (is_set s SMASK_AB_REFL) (s_reflect s) SMASK_AB_REFL (must N_ab_disconnect SMASK_AB_DISC t))
    else may N_ai_reason SMASK_AI_REASON t
  else if code =? SPDU_GT then if is_set s SMASK_SPDU_GT then may N_gt_token SMASK_GT_TOKEN t else enclose_read t
  else if code =? SPDU_TD then enclose_read t
  else if code =? SPDU_PT then tail_read (may N_pt_token SMASK_PT_TOKEN t)
  else if code =? SPDU_MIP then tail_read (must N_mip_serial SMASK_MIP_SERIAL (may N_mip_sync SMASK_MIP_SYNC t))
  else if code =? SPDU_MAP then tail_read (must N_map_serial SMASK_MAP_SERIAL (may N_map_sync SMASK_MAP_SYNC t))
  else if code =? SPDU_MIA then udata_read (enclose_read (must N_mia_serial SMASK_MIA_SERIAL t))
  else if code =? SPDU_MAA then tail_read (must N_maa_serial SMASK_MAA_SERIAL t)
  else if code =? SPDU_RS then
    tail_read (must N_rs_serial SMASK_RS_SSN (must N_rs_type SMASK_RS_TYPE (may N_rs_settings SMASK_RS_SET t)))
  else if code =? SPDU_RA then tail_read (must N_ra_serial SMASK_RA_SSN (may N_ra_settings SMASK_RA_SET t))
  else if code =? SPDU_PR then must N_pr_type SMASK_PR_TYPE t
  else if code =? SPDU_ED then tail_read (must N_ed_reason SMASK_ED_REASON t)
  else if code =? SPDU_AS then tail_read (arr_read A_as_id SMASK_AS_ID t)
  else if code =? SPDU_AR then tail_read (arr_read A_ar_id SMASK_AR_ID (ar_link_read t))
  else if code =? SPDU_AD then may N_ad_reason SMASK_AD_REASON t
  else t.
(** ** One SPDU after the other *)

Lemma after_nil si t : after si [] t t.
Proof. apply goes_nil. Qed.

Lemma after_app si l1 l2 t t1 t2 : after si l1 t t1 -> after si l2 t1 t2 -> after si (l1 ++ l2) t t2.
Proof. apply goes_app. Qed.

(** A field of one octet, and a serial number. *)
Lemma after_octet b si code f mask flag t : pi_kind si code = true -> tbl pi_length code = 1 -> num_bound f = 256 -> Z.land (s_num s f) mask = s_num s f ->
  (b = true -> store_pi si code 1 t = store_octet t f mask flag) -> after si (opt b [Pi (i_octet s code f)]) t (num_read b f flag t).
Proof. intros K L B M E; apply after_pi, (into_octet _ si code f _ mask); auto; apply num_is_byte, B. Qed.

Lemma after_ssn si f flag t : pi_kind si PI_SERIAL = true -> num_bound f = SERIAL_MAX + 2 ->
  (forall li c, store_pi si PI_SERIAL li t c = (s <- store_ssn t f flag li c;; Val (s, skip li c))) ->
  after si [Pi (i_ssn s PI_SERIAL f)] t (num_read true f flag t).
Proof. intros K B E; apply (after_pi _ true), (into_ssn true si PI_SERIAL f); auto; rewrite <- B; apply num_range. Qed.

Lemma mask_octet f : num_bound f = 256 -> Z.land (s_num s f) 255 = s_num s f.
Proof. intros B; apply land_ff_id, num_is_byte, B. Qed.

Lemma mask_low f k : 0 <= k -> num_bound f = 256 -> (s_num s f <? 2 ^ k) = true -> Z.land (s_num s f) (Z.ones k) = s_num s f.
Proof. intros K B L; apply land_low; [|exact K]; pose proof (num_range f); lia. Qed.

Lemma mask_one f : num_bound f = 256 -> num_readable f = (fun v : Z => (v <=? 1)) -> Z.land (s_num s f) 1 = s_num s f.
Proof. intros B E; apply (mask_low f 1); [discriminate | exact B|]; pose proof (re_num s cat0 Re f) as R; rewrite E in R; change (2 ^ 1) with 2; lia. Qed.

Lemma mask_disconnect : Z.land (s_num s N_ab_disconnect) 15 = s_num s N_ab_disconnect.
Proof. apply (mask_low _ 4); [discriminate | reflexivity|]; pose proof (re_num s cat0 Re N_ab_disconnect) as R; cbn [num_readable] in R; change (2 ^ 4) with 16; lia. Qed.

Lemma reason_ok f : num_readable f = SP_OK -> SP_OK (s_num s f) = true.
Proof. intros E; pose proof (re_num s cat0 Re f) as R; rewrite E in R; exact R. Qed.

Ltac leaf := lazymatch goal with
  | |- after _ [] _ _ => apply after_nil
  | |- after _ (i_cn_items _) _ _ => apply after_cn_items; auto
  | |- after _ (i_cn_rest _) _ _ => apply after_cn_rest; auto
  | |- after _ (i_enclose _) _ _ => apply after_enclose; [reflexivity | try reflexivity]
  | |- after _ [i_ar_link _] _ _ => apply after_ar_link; auto
  | |- after _ (opt _ [i_ref _ _ _ _ _]) _ _ => apply after_ref; try reflexivity; repeat split
  | |- after _ [Pi (i_ssn _ _ _)] _ _ => apply after_ssn; reflexivity
  | |- after _ [Pi (i_octet _ PI_REASON _)] _ _ => apply (after_pi _ true), (into_reason1 true); [reflexivity | reflexivity | apply reason_ok; reflexivity | intros _; reflexivity]
  | |- after _ (opt _ [Pi (i_octet _ PI_REASON _)]) _ _ => apply after_pi, into_reason1; [reflexivity | reflexivity | apply reason_ok; reflexivity | intros _; try reflexivity]
  | |- after _ [Pi (i_octet _ PI_RESYNC _)] _ _ => apply (after_pi _ true), into_resync
  | |- after _ [Pi (i_octet _ PI_PREPARE _)] _ _ => apply (after_pi _ true), into_prepare
  | |- after _ (opt _ [Pi (PI_USER_REQ, _)]) _ _ => apply after_pi, into_require; [reflexivity | apply (num_range N_rf_require) | reflexivity]
  | |- after _ (opt _ [Pi (i_octet _ _ _)]) _ _ =>
      eapply after_octet; [reflexivity | reflexivity | reflexivity | | reflexivity]; first [apply mask_octet; reflexivity | apply mask_one; reflexivity]
  | |- after _ [Pi (i_octet _ PI_TDISC _)] _ _ => apply (after_octet true _ _ _ AB_DISC_MASK); [reflexivity | reflexivity | reflexivity | apply mask_disconnect |]
  | |- after _ [Pi (i_array _ PI_ACT_ID A_as_id)] _ _ => apply (after_pi _ true), (into_arr true SPDU_AS); try first [reflexivity | apply len_octets_of]
  | |- _ => idtac
  end.

(** The parameters from the last, whose effect is the outermost. *)
Ltac leaves := lazymatch goal with
  | |- after _ (i_tail _) _ _ => apply after_tail; [assumption | | reflexivity | reflexivity | discriminate]
  | |- after _ (_ ++ _) _ _ => eapply after_app; [|leaves]; leaf
  | |- _ => leaf
  end.

(** The user data of CN and of MIA, and the reasons of RF. *)
Lemma after_cn_udata t : s_code s = SPDU_CN -> after SPDU_CN (i_udata s (if s_ulen s >? CN_SIZE then PI_XDATA else PI_UDATA)) t (udata_read t).
Proof.
  intros C; pose proof (re_udata s cat0 Re) as L; unfold udata_limit in L; rewrite C in L; change (SPDU_CN =? SPDU_CN) with true in L; cbn match in L.
  apply after_udata; [| | discriminate | rewrite Z.gtb_ltb; destruct (_ <? _); reflexivity].
  - intros D; destruct (len_user D) as (_ & Lu & M); rewrite Z.gtb_ltb; destruct (Z.ltb_spec CN_SIZE (s_ulen s)) as [G|G]; unfold CN_SIZE in G.
    + apply pi_ok_xdata; lia.
    + apply pi_ok_udata; [reflexivity | lia].
  - intros X; destruct has_data eqn:D; [destruct (len_user D) as (_ & Lu & _); lia|].
    unfold user_octets, has_data in *; destruct (s_udata s); [discriminate | vm_compute; discriminate].
Qed.

Lemma after_mia_udata t : after SPDU_MIA (i_udata s PI_MIA_DATA) t (udata_read t).
Proof.
  apply after_udata; [intros D | discriminate | discriminate | reflexivity]; destruct (len_user D) as (_ & Lu & M).
  apply pi_ok_kind; [reflexivity | right; split; [reflexivity|] | discriminate]; change (tbl pi_length PI_MIA_DATA) with SEGMENT_MAX; lia.
Qed.

Lemma after_reasons t : after SPDU_RF (opt (s_rlen s >? 0) [Pi (PI_REASON, reason_octets s)]) t (upd_rdata (s_rlen s >? 0) (reason_octets s) t).
Proof.
  apply after_pi, (into_rdata Mem); intros G; assert (0 < s_rlen s) by (clear - G; lia); destruct (ok_rdata s Ok) as (D & L).
  unfold reason_octets, data_fits in *; destruct (s_rdata s) as [d|]; [rewrite zlen_ztake; lia | lia].
Qed.

(** An AB, for which the reader has to know the category. *)
Lemma after_ab t : s_code s = SPDU_AB -> is_set t SMASK_SPDU_AB = true -> after SPDU_AB
    ([] ++ [Pi (i_octet s PI_TDISC N_ab_disconnect)] ++ opt (is_set s SMASK_AB_REFL) [Pi (PI_REFLECT, s_reflect s)] ++ i_tail s) t
    (tail_read (upd_reflect (is_set s SMASK_AB_REFL) (s_reflect s) SMASK_AB_REFL (num_read true N_ab_disconnect SMASK_AB_DISC t))).
Proof.
  intros C S; assert (S1 : forall f, is_set (num_read true f SMASK_AB_DISC t) SMASK_SPDU_AB = true) by (intros f; unfold num_read; rewrite is_set_num, S; apply orb_true_r).
  assert (S2 : forall b d t, is_set t SMASK_SPDU_AB = true -> is_set (upd_reflect b d SMASK_AB_REFL t) SMASK_SPDU_AB = true)
    by (intros b d t' T; rewrite is_set_reflect, T; apply orb_true_r).
  eapply after_app; [apply after_nil|]; eapply after_app; [|eapply after_app; [apply after_pi, into_reflect | apply after_tail]].
  - apply (after_octet true _ _ _ AB_DISC_MASK); [reflexivity | reflexivity | reflexivity | apply mask_disconnect|].
    intros _; change (store_pi SPDU_AB PI_TDISC 1 t) with (store_tdisc SPDU_AB t); unfold store_tdisc; cbn [Z.eqb Pos.eqb SPDU_AB SPDU_RF SPDU_FN]; rewrite S; reflexivity.
  - reflexivity.
  - apply (ok_reflect s Ok).
  - apply S1.
  - symmetry; exact C.
  - unfold udata_limit; rewrite C; reflexivity.
  - reflexivity.
  - change (store_pi SPDU_AB PI_ENCLOSE 1) with (store_enclose SPDU_AB); unfold store_enclose; cbn [Z.eqb Pos.eqb SPDU_AB SPDU_DT SPDU_GT SPDU_AI andb orb].
    rewrite S2 by apply S1; reflexivity.
  - intros _; apply S2, S1.
Qed.

Lemma ar_link_oid t : c_len (s_arr (ar_link_read t) A_ar_oid) = zlen (octets_of s A_ar_oid).
Proof. unfold ar_link_read, upd_num, upd_arr; cbn; destruct (sarr_eq_dec A_ar_oid A_ar_oid); [reflexivity | contradiction]. Qed.

Lemma after_items t : In (s_code s) spdu_codes -> (forall a, c_len (s_arr t a) = 0) -> (s_code s = SPDU_GT -> is_set t SMASK_SPDU_GT = is_set s SMASK_SPDU_GT) ->
  (s_code s = SPDU_AB -> is_set t SMASK_SPDU_AB = is_set s SMASK_SPDU_AB) -> after (s_code s) (spdu_items s) t (spdu_read t).
Proof.
  intros I L G B; unfold spdu_items, spdu_read; repeat destruct I as [E | I]; try destruct I.
  all: pose proof E as E'; revert G B; rewrite <- E'; intros G B; codes; either; try leaves.

  all: try (unfold udata_limit; rewrite <- E'; reflexivity).
  - apply after_cn_udata; exact (eq_sym E').
  - apply after_reasons.
  - apply after_ab; [exact (eq_sym E') | exact (B eq_refl)].
  - specialize (B eq_refl).
    change (store_reason SPDU_AI 1 t = store_reason1 t N_ai_reason SMASK_AI_REASON 1); unfold store_reason; cbn [Z.eqb Pos.eqb SPDU_AI SPDU_AB SPDU_RF SPDU_ED].
    rewrite B; reflexivity.
  - apply (after_octet _ _ _ _ 255); [reflexivity | reflexivity | reflexivity | apply mask_octet; reflexivity|]; intros _; specialize (G eq_refl).
    change (store_token SPDU_GT t = store_octet t N_gt_token 255 SMASK_GT_TOKEN); unfold store_token; cbn [Z.eqb Pos.eqb SPDU_GT SPDU_AC]; rewrite G; reflexivity.
  - specialize (G eq_refl); change (store_enclose SPDU_GT t = store_octet t N_enclose ENCL_MASK SMASK_ENCLOSE); unfold store_enclose.
    cbn [Z.eqb Pos.eqb SPDU_GT SPDU_DT SPDU_AI SPDU_AB]; rewrite G; reflexivity.
  - apply after_mia_udata.
  - apply after_ar_id; rewrite ar_link_oid; destruct (zlen_octets_of s A_ar_oid Ok) as (-> & _); apply (re_oid s cat0 Re), (eq_sym E').
Qed.
(** ** The fields of the packet that is read *)

Definition view (t : ssapkt) : Z * list Z * list Z * list Z := (s_code t, s_reflect t, user_octets t, reason_octets t).

Lemma view_flag b flag t : view (upd_flag b flag t) = view t.
Proof. destruct b; reflexivity. Qed.
Lemma view_num b f v flag t : view (upd_num b f v flag t) = view t.
Proof. destruct b; reflexivity. Qed.
Lemma view_arr b a d flag t : view (upd_arr b a d flag t) = view t.
Proof. destruct b; reflexivity. Qed.
Lemma view_reflect b d flag t : view (upd_reflect b d flag t) = match view t with (c, x, u, r) => (c, if b then d else x, u, r) end.
Proof. destruct b; reflexivity. Qed.
Lemma view_udata b d t : view (upd_udata b d t) = match view t with (c, x, u, r) => (c, x, if b then d else u, r) end.
Proof. destruct b; [|reflexivity]; unfold view, upd_udata, user_octets; cbn; unfold ztake, zlen; rewrite Nat2Z.id, firstn_all; reflexivity. Qed.
Lemma view_rdata b d t : view (upd_rdata b d t) = match view t with (c, x, u, r) => (c, x, u, if b then d else r) end.
Proof. destruct b; [|reflexivity]; unfold view, upd_rdata, reason_octets; cbn; unfold ztake, zlen; rewrite Nat2Z.id, firstn_all; reflexivity. Qed.

Hint Rewrite view_flag view_num view_arr view_reflect view_udata view_rdata : spdu.

Ltac opened := unfold tail_read, udata_read, enclose_read, cn_rest_read, cn_items_read, ref_read, ar_link_read, ar_ref_read, arr_read, num_read; cbv beta zeta.

(** Decides which flags meet and which names are the same. *)
Ltac decided := autorewrite with spdu; repeat match goal with
  | |- context [meets ?a ?b] => let v := eval vm_compute in (meets a b) in change (meets a b) with v
  | |- context [same_snum ?a ?b] => let v := eval vm_compute in (same_snum a b) in change (same_snum a b) with v
  | |- context [same_sarr ?a ?b] => let v := eval vm_compute in (same_sarr a b) in change (same_sarr a b) with v
  end; rewrite ?andb_true_r, ?andb_false_r; cbn [andb orb]; cbn match; rewrite ?orb_false_r.

Lemma read_num t flag f : In (s_code s) spdu_codes -> complete s = true -> In (flag, f) (num_fields s) -> is_set t flag = false ->
  is_set (spdu_read t) flag = is_set s flag /\ (is_set s flag = true -> s_num (spdu_read t) f = s_num s f).
Proof.
  intros I C F Z; unfold num_fields, enclose_fields, spdu_read, complete in *; repeat destruct I as [E | I]; try destruct I.
  all: revert F C; rewrite <- E; codes; cbn [existsb]; codes; either; cbn [negb orb opt app]; intros F C; rewrite ?andb_true_iff in C; repeat destruct F as [[= <- <-] | F]; try destruct F.
  all: opened; decided; rewrite ?Z, ?orb_false_r.
  all: try (split; [congruence | intros T; rewrite ?T, ?C; decided; reflexivity]).
  all: split; [symmetry; apply C | reflexivity].
Qed.

(** An array that is empty is not written, and stays empty. *)
Lemma octets_opt a t : octets_of t a = [] -> (if negb (c_len (s_arr s a) =? 0) then octets_of s a else octets_of t a) = octets_of s a.
Proof.
  intros E; destruct (Z.eqb_spec (c_len (s_arr s a)) 0) as [L|]; [|reflexivity]; cbn [negb]; rewrite E; symmetry; apply zlen_0.
  destruct (zlen_octets_of s a Ok) as (-> & _); exact L.
Qed.

Lemma ar_ref_flag : s_code s = SPDU_AR -> is_set s SMASK_AR_REF = true ->
  negb (c_len (s_arr s A_ar_addt) =? 0) || (negb (c_len (s_arr s A_ar_comm) =? 0) || (negb (c_len (s_arr s A_ar_calling) =? 0) || negb (c_len (s_arr s A_ar_called) =? 0))) = true.
Proof.
  intros C R; pose proof (re_ref s cat0 Re C R) as N; unfold ar_ref_len in N.
  destruct (Z.eqb_spec (c_len (s_arr s A_ar_addt)) 0), (Z.eqb_spec (c_len (s_arr s A_ar_comm)) 0), (Z.eqb_spec (c_len (s_arr s A_ar_calling)) 0),
    (Z.eqb_spec (c_len (s_arr s A_ar_called)) 0); try reflexivity; lia.
Qed.

Lemma read_arr t flag a : In (s_code s) spdu_codes -> complete s = true -> In (flag, a) (arr_fields s) -> is_set t flag = false -> octets_of t a = [] ->
  is_set (spdu_read t) flag = is_set s flag /\ (is_set s flag = true -> octets_of (spdu_read t) a = octets_of s a).
Proof.
  intros I C F Z Y; pose proof ar_ref_flag as Rf; unfold arr_fields, spdu_read, complete in *; repeat destruct I as [E | I]; try destruct I.
  all: revert F C Rf; rewrite <- E; codes; cbn [existsb]; codes; either; cbn [negb orb opt app]; intros F C Rf; rewrite ?andb_true_iff in C; repeat destruct F as [[= <- <-] | F]; try destruct F.
  all: opened; decided; rewrite ?Z, ?orb_false_r.
  all: try (split; [|intros T; rewrite ?T; cbn [andb]; decided; rewrite ?octets_opt by exact Y; reflexivity]).
  all: try (destruct (is_set s SMASK_CN_REF); cbn [andb orb]; rewrite ?orb_true_r; reflexivity).
  all: try (destruct (is_set s SMASK_RF_REF); cbn [andb orb]; rewrite ?orb_true_r; reflexivity).
  all: try (symmetry; apply C).
  all: destruct (is_set s SMASK_AR_REF) eqn:R; cbn [andb orb]; [apply Rf; first [reflexivity | assumption] | reflexivity].
Qed.

Lemma user_none : has_data = false -> user_octets s = [].
Proof. unfold has_data, user_octets; destruct (s_udata s); [discriminate | reflexivity]. Qed.

Lemma reason_none : (s_rlen s >? 0) = false -> reason_octets s = [].
Proof.
  intros G; unfold reason_octets; destruct (ok_rdata s Ok) as (D & _); unfold data_fits in D; destruct (s_rdata s) as [d|]; [|reflexivity].
  exfalso; clear - G D; lia.
Qed.

Lemma read_view t x : In (s_code s) spdu_codes -> view t = (s_code s, x, [], []) -> exists r u v,
  view (spdu_read t) = (s_code s, r, u, v) /\ (s_code s = SPDU_AB -> is_set s SMASK_SPDU_AB = true -> is_set s SMASK_AB_REFL = true -> r = s_reflect s) /\
  (carries_udata s = true -> u = user_octets s) /\ (s_code s = SPDU_RF -> v = reason_octets s).
Proof.
  intros I V; pose proof user_none as U; pose proof reason_none as R; unfold spdu_read, carries_udata; repeat destruct I as [E | I]; try destruct I.
  all: revert V; rewrite <- E; codes; cbn [existsb]; codes; either; either; cbn [negb orb andb]; intros V; opened; autorewrite with spdu; rewrite V; do 3 eexists; (split; [reflexivity|]).
  all: repeat split; try discriminate; try (intros _ _ ->; reflexivity).
  all: try (intros _; destruct has_data; [reflexivity | symmetry; apply U; reflexivity]).
  all: intros _; destruct (s_rlen s >? 0); [reflexivity | symmetry; apply R; reflexivity].
Qed.
(** The user data as it is given to the user. *)
Definition given (t : ssapkt) : option (list Z) * Z := (s_udata t, s_ulen t).

Lemma given_flag b flag t : given (upd_flag b flag t) = given t.
Proof. destruct b; reflexivity. Qed.
Lemma given_num b f v flag t : given (upd_num b f v flag t) = given t.
Proof. destruct b; reflexivity. Qed.
Lemma given_arr b a d flag t : given (upd_arr b a d flag t) = given t.
Proof. destruct b; reflexivity. Qed.
Lemma given_reflect b d flag t : given (upd_reflect b d flag t) = given t.
Proof. destruct b; reflexivity. Qed.
Lemma given_udata b d t : given (upd_udata b d t) = if b then (Some d, zlen d) else given t.
Proof. destruct b; reflexivity. Qed.
Lemma given_rdata b d t : given (upd_rdata b d t) = given t.
Proof. destruct b; reflexivity. Qed.

Hint Rewrite given_flag given_num given_arr given_reflect given_udata given_rdata : spdu.

Lemma read_given t : In (s_code s) spdu_codes -> given t = (None, 0) ->
  given (spdu_read t) = match (if carries_udata s then s_udata s else None) with Some _ => (Some (user_octets s), s_ulen s) | None => (None, 0) end.
Proof.
  intros I V; pose proof len_user as L; unfold spdu_read, carries_udata, has_data in *; repeat destruct I as [E | I]; try destruct I.
  all: rewrite <- E; codes; cbn [existsb]; codes; destruct (is_set s SMASK_SPDU_GT), (is_set s SMASK_SPDU_AB); cbn [negb orb andb]; opened; unfold has_data; autorewrite with spdu;
    rewrite ?V; try reflexivity.
  all: destruct (s_udata s); [rewrite (proj1 (proj2 (L eq_refl))); reflexivity | reflexivity].
Qed.

(** The arrays hold the octets that their counts say. *)
Definition tight (t : ssapkt) : Prop := forall a, zlen (octets_of t a) = c_len (s_arr t a).

Lemma tight_flag b flag t : tight t -> tight (upd_flag b flag t).
Proof. destruct b; auto. Qed.
Lemma tight_num b f v flag t : tight t -> tight (upd_num b f v flag t).
Proof. destruct b; auto. Qed.
Lemma tight_reflect b d flag t : tight t -> tight (upd_reflect b d flag t).
Proof. destruct b; auto. Qed.
Lemma tight_udata b d t : tight t -> tight (upd_udata b d t).
Proof. destruct b; auto. Qed.
Lemma tight_rdata b d t : tight t -> tight (upd_rdata b d t).
Proof. destruct b; auto. Qed.
Lemma tight_arr b a d flag t : tight t -> tight (upd_arr b a d flag t).
Proof.
  intros G g; rewrite octets_arr; destruct b; [|apply G]; unfold same_sarr, upd_arr; cbn; destruct (sarr_eq_dec a g); [reflexivity | apply G].
Qed.

Lemma read_tight t : In (s_code s) spdu_codes -> tight t -> tight (spdu_read t).
Proof.
  unfold spdu_read; intros I G; repeat destruct I as [E | I]; try destruct I; rewrite <- E; codes; either; opened.
  all: repeat first [exact G | apply tight_udata | apply tight_num | apply tight_arr | apply tight_flag | apply tight_rdata | apply tight_reflect].
Qed.

Lemma read_reasons t : s_code s = SPDU_RF -> s_rlen s > 0 -> s_rdata (spdu_read t) = Some (reason_octets s) /\ s_rlen (spdu_read t) = s_rlen s.
Proof.
  intros C P; unfold spdu_read; rewrite C; codes; rewrite Z.gtb_ltb, (proj2 (Z.ltb_lt 0 _)) by lia; cbn [upd_rdata set_rdata s_rdata s_rlen]; split; [reflexivity|].
  unfold reason_octets; destruct (ok_rdata s Ok) as (D & _); destruct (s_rdata s) as [d|]; cbn [data_fits] in D; [apply zlen_ztake; lia | lia].
Qed.

Lemma read_normal t : In (s_code s) spdu_codes -> is_set t SMASK_SPDU_EXPD = false -> is_set (spdu_read t) SMASK_SPDU_EXPD = false.
Proof.
  intros I V; unfold spdu_read; repeat destruct I as [E | I]; try destruct I.
  all: rewrite <- E; codes; destruct (is_set s SMASK_SPDU_GT), (is_set s SMASK_SPDU_AB); opened; decided; exact V.
Qed.

Lemma read_enclosed t : In (s_code s) spdu_codes -> is_set s SMASK_ENCLOSE = false -> is_set t SMASK_ENCLOSE = false -> is_set (spdu_read t) SMASK_ENCLOSE = false.
Proof.
  intros I N V; unfold spdu_read; repeat destruct I as [E | I]; try destruct I.
  all: rewrite <- E; codes; destruct (is_set s SMASK_SPDU_GT), (is_set s SMASK_SPDU_AB); opened; decided; rewrite ?N; exact V.
Qed.

(** ** The packet that is read first *)

Section Start.
Context (n : Z).
Let t := spdu_start (s_code s) n cat0.

Lemma start_eq : exists m, t = set_s_errno (Spkt 0 m (s_code s) n (fun _ => 0) (s_arr (new_spkt 0)) (s_reflect (new_spkt 0)) None 0 None 0) SC_ACCEPT /\
  m = if cat0 =? 0 then 0 else if s_code s =? SPDU_GT then SMASK_SPDU_GT else if s_code s =? SPDU_AB then SMASK_SPDU_AB else
      if s_code s =? SPDU_AA then SMASK_SPDU_AA else 0.
Proof.
  eexists; split; [|reflexivity]; unfold t, spdu_start; cbv zeta; destruct (cat0 =? 0); cbn [negb]; [reflexivity|]; unfold category0.
  destruct (s_code s =? SPDU_GT); [reflexivity|]; destruct (s_code s =? SPDU_AB); [reflexivity|]; destruct (s_code s =? SPDU_AA); reflexivity.
Qed.

Lemma start_alive : alive t.
Proof. destruct start_eq as (m & -> & _); split; [reflexivity | intros a; destruct a; reflexivity | reflexivity]. Qed.

Lemma start_view : view t = (s_code s, s_reflect (new_spkt 0), [], []).
Proof. destruct start_eq as (m & -> & _); reflexivity. Qed.

Lemma start_octets a : c_len (s_arr t a) = 0 /\ octets_of t a = [].
Proof. destruct start_eq as (m & -> & _); destruct a; split; reflexivity. Qed.

Lemma start_GT : s_code s = SPDU_GT -> is_set t SMASK_SPDU_GT = is_set s SMASK_SPDU_GT.
Proof. intros C; destruct start_eq as (m & -> & ->); rewrite (re_GT s cat0 Re C), C; destruct (cat0 =? 0); reflexivity. Qed.

Lemma start_AB : s_code s = SPDU_AB -> is_set t SMASK_SPDU_AB = is_set s SMASK_SPDU_AB.
Proof. intros C; destruct start_eq as (m & -> & ->); rewrite (re_AB s cat0 Re C), C; destruct (cat0 =? 0); reflexivity. Qed.

Lemma start_tight : tight t.
Proof. destruct start_eq as (m & -> & _); intros a; destruct a; reflexivity. Qed.

Lemma start_given : given t = (None, 0).
Proof. destruct start_eq as (m & -> & _); reflexivity. Qed.

Lemma start_normal : In (s_code s) spdu_codes -> is_set t SMASK_SPDU_EXPD = false /\ is_set t SMASK_ENCLOSE = false.
Proof.
  destruct start_eq as (m & -> & ->); destruct (cat0 =? 0); intros I; repeat destruct I as [E | I]; try destruct I; rewrite <- E; split; reflexivity.
Qed.

(** No flag of a field is set. *)
Lemma start_flags flag : In (s_code s) spdu_codes -> In flag (map fst (num_fields s) ++ map fst (arr_fields s)) \/ (s_code s = SPDU_AB /\ flag = SMASK_AB_REFL) ->
  is_set t flag = false.
Proof.
  destruct start_eq as (m & -> & ->); unfold num_fields, arr_fields, enclose_fields; destruct (cat0 =? 0); intros I; repeat destruct I as [E | I]; try destruct I.
  all: rewrite <- E; codes; cbn [existsb]; codes; either; cbn [negb orb opt app map fst].
  all: intros F; repeat destruct F as [F | F]; try (destruct F as (F1 & F)); try discriminate; try contradiction; subst; reflexivity.
Qed.
End Start.

Lemma same_read n : In (s_code s) spdu_codes -> complete s = true -> alive (spdu_read (spdu_start (s_code s) n cat0)) ->
  same_spdu s (spdu_read (spdu_start (s_code s) n cat0)).
Proof.
  intros I C Al; destruct (read_view _ _ I (start_view n)) as (r & u & v & V & V1 & V2 & V3); unfold view in V; injection V as W1 W2 W3 W4.
  split.
  - exact W1.
  - intros A; pose proof (start_GT n A) as Z; revert Z; generalize (spdu_start (s_code s) n cat0); intros t Z; rewrite <- Z; unfold spdu_read; rewrite A; codes.
    destruct (is_set s SMASK_SPDU_GT); opened; decided; reflexivity.
  - intros A; pose proof (start_AB n A) as Z; revert Z; generalize (spdu_start (s_code s) n cat0); intros t Z; rewrite <- Z; unfold spdu_read; rewrite A; codes.
    destruct (is_set s SMASK_SPDU_AB); opened; decided; reflexivity.
  - intros flag f F; apply read_num; auto; apply start_flags; [exact I | left; apply in_or_app; left; exact (in_map fst _ _ F)].
  - intros flag a F; apply read_arr; auto; [apply start_flags; [exact I | left; apply in_or_app; right; exact (in_map fst _ _ F)] | apply start_octets].
  - intros A B; rewrite W2; split; [|auto]; pose proof (start_flags n SMASK_AB_REFL I (or_intror (conj A eq_refl))) as Z; revert Z.
    generalize (spdu_start (s_code s) n cat0); intros t Z; unfold spdu_read; rewrite A; codes; rewrite B; opened; decided; rewrite Z, ?orb_false_r; reflexivity.
  - rewrite W3; exact V2.
  - rewrite W4; exact V3.
  - apply read_normal; [exact I | apply start_normal, I].
  - intros N; apply read_enclosed; [exact I | exact N | apply start_normal, I].
  - apply read_given; [exact I | apply start_given].
  - intros a; split; [apply read_tight; [exact I | apply start_tight] | apply (al_arr _ Al)].
  - apply read_reasons.
Qed.

Lemma supported c : In c spdu_codes -> 0 <= c < SI_TABLE_LEN /\ tbl si_table c <> PMASK_NOTSUPPORTED.
Proof. intros I; repeat destruct I as [<- | I]; try destruct I; (split; [split; [discriminate | reflexivity] | discriminate]). Qed.

(** The parameters of the packet are read one by one, and the packet they
    make has the fields of the one they were written from. *)
Lemma packet_read n : In (s_code s) spdu_codes -> complete s = true -> zlen (enc_items (spdu_items s)) < 65536 ->
  exists s', spdu_ok (s_code s) (spdu_items s) /\ apply_items (s_code s) (spdu_items s) (spdu_start (s_code s) n cat0) = Some s' /\
    s_errno s' = SC_ACCEPT /\ same_spdu s s'.
Proof.
  intros I C L; set (t := spdu_start (s_code s) n cat0); destruct (after_items t) as (O & R & A'); auto.
  - apply start_octets.
  - apply start_GT.
  - apply start_AB.
  - apply start_alive.
  - exists (spdu_read t); destruct (supported _ I) as (S1 & S2); split; [exact (conj S1 (conj S2 (conj O L)))|].
    split; [exact R|]; split; [exact (al_errno _ A') | apply same_read; assumption].
Qed.
End Packet.

(** What the reader asks for is there. *)
Lemma same_mandatory s s' : In (s_code s) spdu_codes -> complete s = true -> same_spdu s s' -> mandatory s' = true.
Proof.
  intros I C [Sc _ Sb Sn Sa _ _ _ _ _ _ _ _]; assert (Fl : forall g, In g (map fst (num_fields s) ++ map fst (arr_fields s)) -> is_set s' g = is_set s g).
  { intros g G; apply in_app_or in G as [G | G]; apply in_map_iff in G as ((g' & x) & <- & G); [apply (Sn g' x G) | apply (Sa g' x G)]. }
  unfold complete, mandatory, num_fields, enclose_fields, arr_fields in *; rewrite Sc; clear Sc Sn Sa; revert C Fl Sb; repeat destruct I as [E | I]; try destruct I.
  all: rewrite <- E; codes; cbn [existsb]; codes; either; cbn [negb orb opt app map fst]; intros C Fl Sb; try reflexivity; rewrite ?andb_true_iff in *.
  all: rewrite ?(Sb eq_refl); cbn [negb]; rewrite ?Fl by (cbn; tauto); first [reflexivity | tauto].
Qed.

(** What was written is read back from any queue that starts with it. *)
Lemma read_back : forall (A : Allocator) fresh sizeof_spkt s cat0, memory_ok -> (forall n, 0 <= n -> zlen (fresh n) = n) ->
  spkt_ok s -> complete s = true -> zlen (enc_items (spdu_items s)) < 65536 -> readable s cat0 ->
  let e := enc_spdu (s_code s) (spdu_items s) in
  forall qb b rest len, Forall seg_ok qb -> buffer_ok b -> ring_octets qb = e ++ rest -> zlen e <= len ->
  exists s' qb' b', tsdu2spkt sizeof_spkt fresh qb b len cat0 = Val (Some s', zlen e, qb', b') /\
    s_errno s' = SC_ACCEPT /\ same_spdu s s' /\ Forall seg_ok qb' /\ ring_octets qb' = rest /\ buffer_ok b'.
Proof.
  intros A fresh z s cat0 M F O C R Re e qb b rest len Q B E L; pose proof (complete_code s C) as I.
  destruct (packet_read M s cat0 O Re (zlen (enc_items (spdu_items s))) I C R) as (s' & So & Ap & Ac & Sm).
  destruct (reads_spdu fresh M F z qb b len cat0 _ _ rest s' So Ap Q B E L) as (qb' & b' & Rd & Sq & Er & Bo).
  exists s', qb', b'; rewrite (same_mandatory s s' I C Sm) in Rd; auto 6.
Qed.

(** C19. The writer and the reader of SPDUs. Every SPDU the implementation
    writes, for a packet whose fields the reader accepts, is read back from
    the queue, however it is cut and whatever follows it, as a packet with
    the same code, the same parameters present, and the same value in every
    field that is present: numbers, references, selectors, identifiers of
    activities, reasons and user data. The rest of the queue is kept. *)
Theorem tsdu2spkt_spkt2tsdu : forall (A : Allocator) fresh sizeof_spkt s cat0, memory_ok -> (forall n, 0 <= n -> zlen (fresh n) = n) ->
  spkt_ok s -> complete s = true -> in_room fresh s -> readable s cat0 ->
  exists top n s1, spkt2tsdu fresh s = Val (OK, Some top, n, s1) /\
    forall qb b rest len, Forall seg_ok qb -> buffer_ok b -> ring_octets qb = ztake n top ++ rest -> n <= len ->
    exists s' qb' b', tsdu2spkt sizeof_spkt fresh qb b len cat0 = Val (Some s', n, qb', b') /\
      s_errno s' = SC_ACCEPT /\ same_spdu s s' /\ ring_octets qb' = rest.
Proof.
  intros A fresh z s cat0 M F O C R Re; destruct (written A fresh s M F O C R) as (top & W & T); do 3 eexists; split; [exact W|].
  intros qb b rest len Q B E L; rewrite T in E.
  destruct (read_back A fresh z s cat0 M F O C (proj1 (proj2 R)) Re qb b rest len Q B E L) as (s' & qb' & b' & Rd & Ac & Sm & _ & Er & _).
  exists s', qb', b'; auto.
Qed.

(** The MIP SPDU again, in two buffers and with an octet of what follows. *)
Lemma ex_mip_readable : readable ex_mip 1.
Proof. split; try (vm_compute; discriminate); intros f; destruct f; reflexivity. Qed.

Lemma tsdu2spkt_spkt2tsdu_witness : exists s' qb b,
  tsdu2spkt (H := plenty) 800 zeros [QSeg [49; 12; 42; 2; 52] 5; QSeg [50; 25; 1; 3; 193; 3; 7; 8; 9; 77] 10] None 15 1 = Val (Some s', 14, qb, b) /\
  s_num s' N_mip_serial = 42 /\ s_num s' N_enclose = 3 /\ user_octets s' = [7; 8; 9] /\ ring_octets qb = [77].
Proof.
  destruct (tsdu2spkt_spkt2tsdu plenty zeros 800 ex_mip 1) as (top & n & s1 & W & R).
  - intros n; reflexivity.
  - intros n N; unfold zlen, zeros; rewrite repeat_length; apply Z2Nat.id, N.
  - exact ex_mip_ok.
  - reflexivity.
  - split; [vm_compute; discriminate | split; [vm_compute; reflexivity | left; vm_compute; discriminate]].
  - exact ex_mip_readable.
  - vm_compute in W; injection W as <- <- <-.
    destruct (R [QSeg [49; 12; 42; 2; 52] 5; QSeg [50; 25; 1; 3; 193; 3; 7; 8; 9; 77] 10] None [77] 15) as (s' & qb & b & E & _ & S & O).
    + repeat constructor; try (vm_compute; reflexivity || discriminate); apply forallb_bytes; reflexivity.
    + exact I.
    + reflexivity.
    + discriminate.
    + exists s', qb, b; split; [exact E|].
      split; [exact (proj2 (same_num _ _ S SMASK_MIP_SERIAL N_mip_serial (or_intror (or_introl eq_refl))) eq_refl)|].
      split; [exact (proj2 (same_num _ _ S SMASK_ENCLOSE N_enclose (or_intror (or_intror (or_introl eq_refl)))) eq_refl)|].
      split; [exact (same_udata _ _ S eq_refl) | exact O].
Defined.
