(* ===== verification/Ssap.v ===== *)
(** * ssap: a session, its transport service and its writers (spkt.h,
    ssaplose.c, ssapwrite.c, and spkt2sd, sb2spkt, ts2sslose, freesblk and
    SDataRequestAux of ssaprovider.c)

    A function that works on a session is a computation [sess]: it is given
    the block of the session, the indication the user passed, the transport
    service and the static buffer of the reader of SPDUs, and returns its
    result and their new values. *)

From S2P Require Import Prelude Conv Convert PElement PStream Qbuf Tpkt Tpkt2fd Tcp Tp0 Spkt Spkt2tsdu Tsdu2spkt.
Open Scope Z_scope.
Open Scope c_scope.

(** ** Constants *)

Definition SB_VRSN2 := 1.
Definition SB_ALLVRSNS := 3.
Definition SB_CONN := 1.
Definition SB_FINN := 2.
Definition SB_INIT := 4.
Definition SB_ASYN := 8.
Definition SB_EXPD := 16.
Definition SB_CD := 32.
Definition SB_CDA := 64.
Definition SB_GTC := 128.
Definition SB_MAP := 256.
Definition SB_MAA := 512.
Definition SB_AE := 1024.
Definition SB_RS := 2048.
Definition SB_RA := 4096.
Definition SB_AI := 8192.
Definition SB_AIA := 16384.
Definition SB_ED := 32768.
Definition SB_EDACK := 65536.
Definition SB_ERACK := 131072.
Definition SB_Vact := 262144.
Definition SB_Vsc := 524288.
Definition SB_Vnextact := 1048576.
Definition SB_RELEASE := 2097152.

Definition SR_HALFDUPLEX := 1.
Definition SR_DUPLEX := 2.
Definition SR_EXPEDITED := 4.
Definition SR_MINORSYNC := 8.
Definition SR_MAJORSYNC := 16.
Definition SR_RESYNC := 32.
Definition SR_ACTIVITY := 64.
Definition SR_NEGOTIATED := 128.
Definition SR_CAPABILITY := 256.
Definition SR_EXCEPTIONS := 512.
Definition SR_TYPEDATA := 1024.
Definition SR_RLS_EXISTS := SR_NEGOTIATED.
Definition SR_MAJ_EXISTS := 80.
Definition SR_ACT_EXISTS := SR_ACTIVITY.
Definition SR_MIN_EXISTS := SR_MINORSYNC.
Definition SR_DAT_EXISTS := SR_HALFDUPLEX.
Definition SR_TOKENS := ors [SR_RLS_EXISTS; SR_MAJ_EXISTS; SR_ACT_EXISTS; SR_MIN_EXISTS; SR_DAT_EXISTS].

Definition ST_INIT_VALUE := 0.
Definition ST_RESP_VALUE := 1.
Definition ST_CALL_VALUE := 2.
Definition ST_MASK := 3.
Definition ST_RLS_TOKEN := 64.
Definition ST_MAJ_TOKEN := 16.
Definition ST_ACT_TOKEN := ST_MAJ_TOKEN.
Definition ST_MIN_TOKEN := 4.
Definition ST_DAT_TOKEN := 1.

Definition SC_BASE := 128.
Definition SC_VERSION := 132.
Definition SC_SSAPID := 129.
Definition SC_ADDRESS := 133.
Definition SC_REFUSED := 134.
Definition SC_TRANSPORT := 135.
Definition SC_ABORT := 136.
Definition SC_PARAMETER := 138.
Definition SC_OPERATION := 139.
Definition SC_TIMER := 140.
Definition SC_WAITING := 141.
Definition SC_REJECTED := 2.
Definition SC_REFUSE := 256.

(** [SC_OFFICIAL] *)
Definition SC_OFFICIAL (r : Z) : bool := r <? SC_ADDRESS.

Definition SYNC_RESTART := 0.
Definition SYNC_ABANDON := 1.
Definition SYNC_SET := 2.
Definition SYNC_INTR := 3.
Definition SYNC_DISC := 4.
Definition SYNC_CONFIRM := 1.
Definition SYNC_NOCONFIRM := 0.
Definition SERIAL_NONE := -1.
Definition SERIAL_MIN := 0.

Definition PR_MAA := 1.
Definition PR_RS := 2.
Definition PR_RA := 3.
Definition PR_AB := 4.
Definition SPDU_AIA := SPDU_AA.
Definition MIP_SYNC_NOEXPL := 1.
Definition MAP_SYNC_NOEND := 1.
Definition FN_DISC_RELEASE := 1.
Definition RF_DISC_RELEASE := 1.
Definition AB_DISC_RELEASE := 1.
Definition AB_DISC_USER := 2.
Definition AB_DISC_PROTO := 4.
Definition AB_DISC_UNKNOWN := 8.
Definition ENCL_BEGIN := 1.
Definition ENCL_END := 2.
Definition ENCLOSE_MAX := 65400.
Definition SSDU_MAGIC := 7.
Definition NSPUV : nat := 12.
Definition SX_EXSIZE := 14.
Definition TX_SIZE := 16.
Definition DR_REMOTE := 129.
Definition DR_REFUSED := 136.
Definition DR_TIMER := 142.

(** [a & b], as a test. *)
Definition meets (a b : Z) : bool := negb (Z.land a b =? 0).

(** ** The block of a session

    A packet that was read, with the user information that follows it in its
    TSDU ([s_qbuf], [s_qlen]). *)
Record packet : Type := Pkt { p_spkt : ssapkt; s_qbuf : list qseg; s_qlen : Z }.

(** What the data phase uses of [struct ssapblk]. *)
Record ssapblk : Type := SBlk {
  sb_version : Z;
  sb_flags : Z;
  sb_retry : option ssapkt;
  sb_V_A : Z;
  sb_V_M : Z;
  sb_V_R : Z;
  sb_rs : Z;
  sb_rsn : Z;
  sb_rsettings : Z;
  sb_pr : Z;
  sb_xspdu : option packet;
  sb_spdu : option packet;
  sb_qbuf : list qseg;
  sb_len : Z;
  sb_code : Z;
  sb_tsdu_us : Z;
  sb_tsdu_them : Z;
  sb_owned : Z;
  sb_requirements : Z
}.

Definition set_flags (v : Z) (b : ssapblk) : ssapblk :=
  SBlk (sb_version b) v (sb_retry b) (sb_V_A b) (sb_V_M b) (sb_V_R b) (sb_rs b) (sb_rsn b) (sb_rsettings b) (sb_pr b) (sb_xspdu b)
    (sb_spdu b) (sb_qbuf b) (sb_len b) (sb_code b) (sb_tsdu_us b) (sb_tsdu_them b) (sb_owned b) (sb_requirements b).
Definition set_retry (v : option ssapkt) (b : ssapblk) : ssapblk :=
  SBlk (sb_version b) (sb_flags b) v (sb_V_A b) (sb_V_M b) (sb_V_R b) (sb_rs b) (sb_rsn b) (sb_rsettings b) (sb_pr b) (sb_xspdu b)
    (sb_spdu b) (sb_qbuf b) (sb_len b) (sb_code b) (sb_tsdu_us b) (sb_tsdu_them b) (sb_owned b) (sb_requirements b).
(** The three serial numbers. *)
Definition set_V (a m r : Z) (b : ssapblk) : ssapblk :=
  SBlk (sb_version b) (sb_flags b) (sb_retry b) a m r (sb_rs b) (sb_rsn b) (sb_rsettings b) (sb_pr b) (sb_xspdu b)
    (sb_spdu b) (sb_qbuf b) (sb_len b) (sb_code b) (sb_tsdu_us b) (sb_tsdu_them b) (sb_owned b) (sb_requirements b).
(** The resynchronization: its type, its serial number and the tokens. *)
Definition set_rs (rs rsn : Z) (b : ssapblk) : ssapblk :=
  SBlk (sb_version b) (sb_flags b) (sb_retry b) (sb_V_A b) (sb_V_M b) (sb_V_R b) rs rsn (sb_rsettings b) (sb_pr b) (sb_xspdu b)
    (sb_spdu b) (sb_qbuf b) (sb_len b) (sb_code b) (sb_tsdu_us b) (sb_tsdu_them b) (sb_owned b) (sb_requirements b).
Definition set_rsettings (v : Z) (b : ssapblk) : ssapblk :=
  SBlk (sb_version b) (sb_flags b) (sb_retry b) (sb_V_A b) (sb_V_M b) (sb_V_R b) (sb_rs b) (sb_rsn b) v (sb_pr b) (sb_xspdu b)
    (sb_spdu b) (sb_qbuf b) (sb_len b) (sb_code b) (sb_tsdu_us b) (sb_tsdu_them b) (sb_owned b) (sb_requirements b).
Definition set_pr (v : Z) (b : ssapblk) : ssapblk :=
  SBlk (sb_version b) (sb_flags b) (sb_retry b) (sb_V_A b) (sb_V_M b) (sb_V_R b) (sb_rs b) (sb_rsn b) (sb_rsettings b) v (sb_xspdu b)
    (sb_spdu b) (sb_qbuf b) (sb_len b) (sb_code b) (sb_tsdu_us b) (sb_tsdu_them b) (sb_owned b) (sb_requirements b).
Definition set_xspdu (v : option packet) (b : ssapblk) : ssapblk :=
  SBlk (sb_version b) (sb_flags b) (sb_retry b) (sb_V_A b) (sb_V_M b) (sb_V_R b) (sb_rs b) (sb_rsn b) (sb_rsettings b) (sb_pr b) v
    (sb_spdu b) (sb_qbuf b) (sb_len b) (sb_code b) (sb_tsdu_us b) (sb_tsdu_them b) (sb_owned b) (sb_requirements b).
Definition set_spdu (v : option packet) (b : ssapblk) : ssapblk :=
  SBlk (sb_version b) (sb_flags b) (sb_retry b) (sb_V_A b) (sb_V_M b) (sb_V_R b) (sb_rs b) (sb_rsn b) (sb_rsettings b) (sb_pr b) (sb_xspdu b)
    v (sb_qbuf b) (sb_len b) (sb_code b) (sb_tsdu_us b) (sb_tsdu_them b) (sb_owned b) (sb_requirements b).
(** The SSDU being put together. *)
Definition set_ssdu (q : list qseg) (n : Z) (b : ssapblk) : ssapblk :=
  SBlk (sb_version b) (sb_flags b) (sb_retry b) (sb_V_A b) (sb_V_M b) (sb_V_R b) (sb_rs b) (sb_rsn b) (sb_rsettings b) (sb_pr b) (sb_xspdu b)
    (sb_spdu b) q n (sb_code b) (sb_tsdu_us b) (sb_tsdu_them b) (sb_owned b) (sb_requirements b).
Definition set_code (v : Z) (b : ssapblk) : ssapblk :=
  SBlk (sb_version b) (sb_flags b) (sb_retry b) (sb_V_A b) (sb_V_M b) (sb_V_R b) (sb_rs b) (sb_rsn b) (sb_rsettings b) (sb_pr b) (sb_xspdu b)
    (sb_spdu b) (sb_qbuf b) (sb_len b) v (sb_tsdu_us b) (sb_tsdu_them b) (sb_owned b) (sb_requirements b).
Definition set_owned (v : Z) (b : ssapblk) : ssapblk :=
  SBlk (sb_version b) (sb_flags b) (sb_retry b) (sb_V_A b) (sb_V_M b) (sb_V_R b) (sb_rs b) (sb_rsn b) (sb_rsettings b) (sb_pr b) (sb_xspdu b)
    (sb_spdu b) (sb_qbuf b) (sb_len b) (sb_code b) (sb_tsdu_us b) (sb_tsdu_them b) v (sb_requirements b).

(** [sb -> sb_flags & f], [sb_flags |= f] and [sb_flags &= ~f]. *)
Definition has (b : ssapblk) (f : Z) : bool := meets (sb_flags b) f.
Definition raise (f : Z) (b : ssapblk) : ssapblk := set_flags (Z.lor (sb_flags b) f) b.
Definition lower (f : Z) (b : ssapblk) : ssapblk := set_flags (Z.land (sb_flags b) (Z.lnot f)) b.

(** [sb -> sb_requirements & r] and [sb -> sb_owned & t]. *)
Definition needs (b : ssapblk) (r : Z) : bool := meets (sb_requirements b) r.
Definition owns (b : ssapblk) (t : Z) : bool := meets (sb_owned b) t.

(** [sb_owned |= bit] and [sb_owned = u8_bic (sb_owned, bit)]. *)
Definition take_token (bit : Z) (b : ssapblk) : ssapblk := set_owned (Z.lor (sb_owned b) bit) b.
Definition drop_token (bit : Z) (b : ssapblk) : ssapblk := set_owned (u8_bic (sb_owned b) bit) b.

(** ** Tokens

    [dotokens]: what a token requires, its shift in a word of settings and
    its bit. *)
Definition token_table : list (Z * Z * Z) :=
  [(SR_RLS_EXISTS, 6, ST_RLS_TOKEN); (SR_MAJ_EXISTS, 4, ST_MAJ_TOKEN); (SR_MIN_EXISTS, 2, ST_MIN_TOKEN); (SR_DAT_EXISTS, 0, ST_DAT_TOKEN)].

(** [dotokens ()] where the body of [dotoken] always goes on. *)
Definition dotokens {A} (f : Z -> Z -> Z -> A -> A) (a : A) : A :=
  fold_left (fun a t => let '(requires, shift, bit) := t in f requires shift bit a) token_table a.

(** [dotokens ()] where it may return. *)
Fixpoint each_token {A E} (f : Z -> Z -> Z -> A -> E + A) (l : list (Z * Z * Z)) (a : A) : E + A :=
  match l with
  | [] => inr a
  | (requires, shift, bit) :: l => match f requires shift bit a with inl e => inl e | inr a => each_token f l a end
  end.
Definition dotokens_or {A E} (f : Z -> Z -> Z -> A -> E + A) (a : A) : E + A := each_token f token_table a.

(** ** What the user is told

    User data and its length. *)
Definition sdata : Type := option (list Z) * Z.

(** [struct SSAPref] *)
Record sref : Type := Ref { sr_calling : counted; sr_comm : counted; sr_addt : counted; sr_called : counted }.

(** [struct SSAPindication]: the type and the member of its union. The text
    that goes with a reason is left out. *)
Inductive SSAPindication : Type :=
| SI_DATA
| SI_TOKEN (type tokens owned : Z) (data : sdata)
| SI_SYNC (type options ssn settings : Z) (data : sdata)
| SI_ACTIVITY (type : Z) (id oid : option counted) (connect : option sref) (ssn reason : Z) (data : sdata)
| SI_REPORT (peer : bool) (reason : Z) (data : sdata)
| SI_FINISH (data : sdata)
| SI_ABORT (peer : bool) (reason : Z) (info : sdata).

Definition no_data : sdata := (None, 0).

(** [si -> si_abort.sa_reason] *)
Definition sa_reason (si : SSAPindication) : Z := match si with SI_ABORT _ r _ => r | _ => 0 end.

(** ** The transport service

    What was sent, on the expedited flow or the normal one; how the requests
    to come are answered, [None] for OK and the reason otherwise; and what
    the reads to come return, a TSDU or a reason. Requests with no answer
    left are granted and reads with nothing left time out. *)
Record tsdu : Type := Tsdu { tx_expedited : bool; tx_qbuf : list qseg; tx_cc : Z }.
Record transport : Type := Tp { tp_sent : list (bool * list Z); tp_answers : list (option Z); tp_reads : list (Z + tsdu); tp_up : bool }.

(** ** Computations *)

Record session : Type := Ses {
  ses_sb : ssapblk;
  (** whether the block was freed *)
  ses_gone : bool;
  ses_si : SSAPindication;
  ses_tp : transport;
  ses_buffer : option (list Z)
}.

Definition sess (A : Type) : Type := session -> cres (A * session).

Definition ret {A} (a : A) : sess A := fun st => Val (a, st).
Definition bind {A B} (m : sess A) (k : A -> sess B) : sess B := fun st => match m st with Val (a, st) => k a st | UB => UB end.

Declare Scope ses_scope.
Delimit Scope ses_scope with ses.
Notation "'do' x <~ m ; k" := (bind m (fun x => k)) (at level 61, x name, m at next level, right associativity) : ses_scope.
Notation "'do' ' p <~ m ; k" := (bind m (fun x => match x with p => k end)) (at level 61, p pattern, m at next level, right associativity) : ses_scope.
Notation "'exec' m ; k" := (bind m (fun _ => k)) (at level 61, m at next level, right associativity) : ses_scope.
Open Scope ses_scope.

Definition lift {A} (m : cres A) : sess A := fun st => match m with Val a => Val (a, st) | UB => UB end.
(** The block may not be used once it is freed. *)
Definition get : sess ssapblk := fun st => if ses_gone st then UB else Val (ses_sb st, st).
Definition put (b : ssapblk) : sess unit := fun st =>
  if ses_gone st then UB else Val (tt, Ses b false (ses_si st) (ses_tp st) (ses_buffer st)).
Definition update (f : ssapblk -> ssapblk) : sess unit := fun st => put (f (ses_sb st)) st.
Definition get_si : sess SSAPindication := fun st => Val (ses_si st, st).
Definition set_si (si : SSAPindication) : sess unit := fun st => Val (tt, Ses (ses_sb st) (ses_gone st) si (ses_tp st) (ses_buffer st)).
Definition set_tp (t : transport) : sess unit := fun st => Val (tt, Ses (ses_sb st) (ses_gone st) (ses_si st) t (ses_buffer st)).
Definition get_tp : sess transport := fun st => Val (ses_tp st, st).
Definition undefined {A} : sess A := fun _ => UB.

(** ** ssaplose

    [_ssaplose] reads two arguments after the reason. Some calls have only
    one ([Misused]): what is read for the other is undefined. *)
Inductive lose : Type := Lose (reason : Z) | Misused.

Definition ssaplose (reason : Z) : sess Z := exec set_si (SI_ABORT false reason no_data); ret NOTOK.

(** What a function returns when it fails: NOTOK, with nothing at the
    pointers to its results. *)
Class Failure (A : Type) := failure : Z -> A.
#[export] Instance failure_int : Failure Z := fun r => r.
#[export] Instance failure_out {A} : Failure (Z * option A) := fun r => (r, None).

Definition lose_with {A} `{Failure A} (e : lose) : sess A :=
  match e with Lose reason => do r <~ ssaplose reason; ret (failure r) | Misused => undefined end.

(** The first of the guards that is met. *)
Fixpoint check (l : list (bool * lose)) : option lose :=
  match l with
  | [] => None
  | (c, e) :: l => if c then Some e else check l
  end.

Definition guarded {A} `{Failure A} (l : list (bool * lose)) (k : sess A) : sess A := match check l with Some e => lose_with e | None => k end.

(** ** Requests to the transport service *)

(** [TDataRequest], [TWriteRequest] and [TExpdRequest]: [None] for OK. *)
Definition TRequest (expedited : bool) (octets : list Z) : sess (option Z) :=
  do t <~ get_tp;
  let granted l := exec set_tp (Tp (tp_sent t ++ [(expedited, octets)]) l (tp_reads t) (tp_up t)); ret None in
  match tp_answers t with
  | [] => granted []
  | None :: l => granted l
  | Some reason :: l => exec set_tp (Tp (tp_sent t) l (tp_reads t) (tp_up t)); ret (Some reason)
  end.

Definition TReadRequest : sess (Z + tsdu) :=
  do t <~ get_tp;
  match tp_reads t with
  | [] => ret (inl DR_TIMER)
  | r :: l => exec set_tp (Tp (tp_sent t) (tp_answers t) l (tp_up t)); ret r
  end.

Definition TDiscRequest : sess unit := do t <~ get_tp; set_tp (Tp (tp_sent t) (tp_answers t) (tp_reads t) false).

Definition ts2sslose (reason : Z) : sess Z :=
  ssaplose
    (if (reason =? DR_REMOTE) || (reason =? DR_CONGEST) then SC_CONGEST
     else if (reason =? DR_SESSION) || (reason =? DR_ADDRESS) then SC_ADDRESS
     else if reason =? DR_REFUSED then SC_REFUSED
     else SC_TRANSPORT).

(** * The session protocol machine *)

Section Spm.
Context `{Allocator} (sizeof_spkt : Z).
(** What a new block of memory holds. *)
Variable fresh : Z -> list Z.
(** How long an abort, a disconnect and a refusal are waited for; not at all
    when negative. *)
Variables ses_ab_timer ses_dn_timer ses_rf_timer : Z.

(** The reads until one fails. *)
Fixpoint drain (l : list (Z + tsdu)) : list (Z + tsdu) :=
  match l with
  | inr _ :: l => drain l
  | inl _ :: l => l
  | [] => []
  end.

(** [connected] tells whether [sb_fd] is not NOTOK. *)
Definition freesblk (connected : bool) : sess unit :=
  do b <~ get;
  exec (if connected then
      exec (if has b SB_FINN && (ses_dn_timer >=? 0) then
          do t <~ get_tp; set_tp (Tp (tp_sent t) (tp_answers t) (drain (tp_reads t)) (tp_up t))
        else ret tt);
      TDiscRequest
    else ret tt);
  fun st => Val (tt, Ses (ses_sb st) true (ses_si st) (ses_tp st) (ses_buffer st)).

(** ** Writing an SPDU on its own *)

(** The octets of an SPDU in a block of [len]; an EX SPDU is followed by its
    user data. [None] where there is no memory or the count is negative, and
    [realloc (base, 0)] frees the block that is freed again. *)
Definition with_user_data (s : ssapkt) (base : list Z) (len : Z) : cres (option (list Z)) :=
  match (if s_code s =? SPDU_EX then s_udata s else None) with
  | Some d =>
      let i := len + s_ulen s in
      if u32 i =? 0 then UB
      else if malloc_ok (u32 i) then
        d <- bcopy_int (Some d) (s_ulen s);;
        Val (match d with Some d => Some (ztake len base ++ d) | None => None end)
      else Val None
  | None => Val (Some (ztake len base))
  end.

Definition spkt2sd (s : ssapkt) (expedited : bool) : sess Z :=
  do ' (rc, base, len, s) <~ lift (spkt2tsdu fresh (if expedited then Set_ s SMASK_SPDU_EXPD else s));
  match base with
  | Some base =>
      if rc =? NOTOK then ssaplose (s_errno s)
      else
        do octets <~ lift (with_user_data s base len);
        match octets with
        | None => ssaplose SC_CONGEST
        | Some octets =>
            do r <~ TRequest (expedited && negb (zlen octets >? TX_SIZE)) octets;
            match r with None => ret OK | Some reason => ts2sslose reason end
        end
  | None => if rc =? NOTOK then ssaplose (s_errno s) else undefined
  end.

(** ** spktlose *)

(** The RF SPDU with a reason, and the AB SPDU; [None] where there is no
    memory or the reason is no octet. *)
Definition rf_spkt (reason : Z) : option ssapkt :=
  match newspkt sizeof_spkt SPDU_RF with
  | None => None
  | Some s =>
      let s := set_num (Set_ s SMASK_RF_DISC) N_rf_disconnect (u8_bis (s_num s N_rf_disconnect) RF_DISC_RELEASE) in
      let s := if reason =? SC_VERSION then set_num (Set_ s SMASK_RF_VRSN) N_rf_version SB_ALLVRSNS else s in
      if malloc_ok 1 then match int2octet reason with Some r => Some (set_rdata s (Some [r]) 1) | None => None end
      else Some (set_rdata s None 1)
  end.

Definition ab_spkt (reason : Z) : option ssapkt :=
  match newspkt sizeof_spkt SPDU_AB with
  | None => None
  | Some s =>
      let s := Set_ s (Z.lor SMASK_SPDU_AB SMASK_AB_DISC) in
      Some (set_num s N_ab_disconnect
        (if (reason =? SC_PROTOCOL) || (reason =? SC_VERSION) then u8_bis AB_DISC_RELEASE AB_DISC_PROTO
         else if (reason =? SC_CONGEST) || (reason =? SC_SSAPID) then AB_DISC_RELEASE
         else u8_bis AB_DISC_RELEASE AB_DISC_UNKNOWN))
  end.

(** The connection is refused or aborted, and what the peer makes of it is
    read and dropped. *)
Definition spktlose (reason : Z) : sess Z :=
  let value := Z.land reason SC_REFUSE in
  let reason := Z.land reason (Z.lnot SC_REFUSE) in
  let refuse := negb (value =? 0) && SC_OFFICIAL reason in
  exec ssaplose reason;
  match (if refuse then rf_spkt reason else ab_spkt reason) with
  | None => ret NOTOK
  | Some s =>
      do expd <~ (fun st => Val (negb (ses_gone st) && has (ses_sb st) SB_EXPD, st));
      do value <~ spkt2sd s expd;
      exec (if (value =? NOTOK) || ((if refuse then ses_rf_timer else ses_ab_timer) <? 0) then ret tt
            else exec TReadRequest; ret tt);
      ret NOTOK
  end.

(** ** sb2spkt *)

Definition read_spdu (qb : list qseg) (len cat0 : Z) : sess (option ssapkt * Z * list qseg) := fun st =>
  match tsdu2spkt sizeof_spkt fresh qb (ses_buffer st) len cat0 with
  | Val (s, cc, qb, buffer) => Val ((s, cc, qb), Ses (ses_sb st) (ses_gone st) (ses_si st) (ses_tp st) buffer)
  | UB => UB
  end.

(** A packet that can be used; the reason of the refusal otherwise. *)
Definition accepted (s : option ssapkt) : Z + ssapkt :=
  match s with
  | None => inl SC_CONGEST
  | Some s => if s_errno s =? SC_ACCEPT then inr s else inl (s_errno s)
  end.

Definition one_of (code : Z) (l : list Z) : bool := existsb (Z.eqb code) l.

Definition is_expd (tx : tsdu) (s : ssapkt) : ssapkt := if tx_expedited tx then Set_ s SMASK_SPDU_EXPD else s.

Definition with_qbuf (s : ssapkt) (qb : list qseg) (cc : Z) : packet :=
  match qb with [] => Pkt s [] 0 | _ => Pkt s qb cc end.

(** The category 2 SPDUs that may follow a GT, and a PT. *)
Definition after_GT : list Z := [SPDU_MIP; SPDU_MAP; SPDU_RS; SPDU_AS; SPDU_AR; SPDU_AD; SPDU_AI; SPDU_CD].
Definition after_PT : list Z := [SPDU_MIA; SPDU_MAA; SPDU_RA; SPDU_ADA; SPDU_AIA; SPDU_CDA; SPDU_ER; SPDU_ED].

(** Whether the category 0 SPDU [p] is kept for the next call. *)
Definition keeps_cat0 (p s : ssapkt) : bool :=
  negb (one_of (s_code s) [SPDU_RS; SPDU_AD; SPDU_AI; SPDU_CD]) &&
  (if s_code p =? SPDU_GT then is_set p SMASK_GT_TOKEN && negb (s_num p N_gt_token =? 0)
   else (is_set p SMASK_PT_TOKEN && negb (s_num p N_pt_token =? 0)) || negb (s_ulen p =? 0)).

(** The SPDU after a category 0 SPDU. *)
Definition sb2spkt_second (tx : tsdu) (p : ssapkt) (qb : list qseg) (cc : Z) : sess (option packet) :=
  exec update (set_spdu (Some (Pkt p [] 0)));
  do ' (s, n, qb) <~ read_spdu qb cc 0;
  let bad2 reason := exec spktlose reason; exec update (set_spdu None); ret None in
  match accepted s with
  | inl reason => bad2 reason
  | inr s =>
      let s := is_expd tx s in
      let cc := cc - n in
      let keep k := exec (if keeps_cat0 p s then ret tt else update (set_spdu None)); ret (Some k) in
      if (s_code p =? SPDU_GT) && (s_code s =? SPDU_DT) then keep (with_qbuf s qb cc)
      else if one_of (s_code s) (if s_code p =? SPDU_GT then after_GT else after_PT) then
        if cc <=? 0 then keep (Pkt s [] 0) else bad2 SC_PROTOCOL
      else bad2 SC_PROTOCOL
  end.

Definition sb2spkt_first (tx : tsdu) : sess (option packet) :=
  do ' (s, n, qb) <~ read_spdu (tx_qbuf tx) (tx_cc tx) 1;
  let bad1 reason := exec spktlose reason; ret None in
  match accepted s with
  | inl reason => bad1 reason
  | inr s =>
      let s := is_expd tx s in
      let cc := tx_cc tx - n in
      let simple := ret (Some (Pkt s [] 0)) in
      if one_of (s_code s) [SPDU_GT; SPDU_PT] then if cc <=? 0 then simple else sb2spkt_second tx s qb cc
      else if one_of (s_code s) [SPDU_EX; SPDU_TD] then ret (Some (with_qbuf s qb cc))
      else if one_of (s_code s) [SPDU_CN; SPDU_AC; SPDU_RF; SPDU_FN; SPDU_DN; SPDU_NF; SPDU_AB; SPDU_AA; SPDU_GTC; SPDU_GTA; SPDU_PR] then
        if cc <=? 0 then simple else bad1 SC_PROTOCOL
      else bad1 SC_PROTOCOL
  end.

(** [ty] is the TSDU that was given to TDATAser. *)
Definition sb2spkt (ty : option tsdu) : sess (option packet) :=
  do b <~ get;
  match (if sb_pr b =? SPDU_PR then sb_xspdu b else None), sb_spdu b with
  | Some s, _ => exec put (set_xspdu None b); ret (Some s)
  | None, Some s => exec put (set_spdu None b); ret (Some s)
  | None, None =>
      do r <~ (match ty with Some tx => ret (inr tx) | None => TReadRequest end);
      match r with
      | inl reason => exec (if reason =? DR_TIMER then ssaplose SC_TIMER else ts2sslose reason); ret None
      | inr tx => sb2spkt_first tx
      end
  end.

(** ** SWriteRequestAux

    What is to be prepared on the expedited flow. *)
Definition prepare_type (code : Z) : option Z :=
  if code =? SPDU_MAA then Some PR_MAA
  else if one_of code [SPDU_AI; SPDU_AD; SPDU_RS] then Some PR_RS
  else if one_of code [SPDU_AIA; SPDU_ADA; SPDU_RA] then Some PR_RA
  else None.

Definition pr_spkt (type : Z) : option ssapkt :=
  match newspkt sizeof_spkt SPDU_PR with
  | None => None
  | Some p => Some (set_num (Set_ p SMASK_PR_TYPE) N_pr_type type)
  end.

(** The category 0 SPDU that goes before an SPDU. *)
Definition cat0_spkt (code : Z) : option ssapkt :=
  if one_of code [SPDU_MAP; SPDU_MIP; SPDU_RS; SPDU_AS; SPDU_AR; SPDU_AD; SPDU_AI; SPDU_CD]
  then match newspkt sizeof_spkt SPDU_GT with Some s => Some (Set_ s SMASK_SPDU_GT) | None => None end
  else newspkt sizeof_spkt SPDU_PT.

(** A field with its flag; [None] for [bad_conv]. *)
Definition put_u8 (flag : Z) (f : snum) (v : Z) (s : ssapkt) : option ssapkt :=
  match int2u8 v with Some v => Some (set_num (Set_ s flag) f v) | None => None end.
Definition put_u32 (flag : Z) (f : snum) (v : Z) (s : ssapkt) : option ssapkt :=
  if (v <? 0) || (v >? UINT32_MAX) then None else Some (set_num (Set_ s flag) f v).

(** [*id], a pointer that may be null. *)
Definition deref {A} (p : option A) : cres A := match p with Some a => Val a | None => UB end.

Definition put_ref (ref : option sref) (s : ssapkt) : ssapkt :=
  match ref with
  | Some r =>
      set_arr (set_arr (set_arr (set_arr (Set_ s SMASK_AR_REF) A_ar_calling (sr_calling r)) A_ar_comm (sr_comm r)) A_ar_addt (sr_addt r))
        A_ar_called (sr_called r)
  | None => s
  end.

Definition obind {A B} (m : option A) (k : A -> option B) : option B := match m with Some a => k a | None => None end.

(** The fields of the SPDU; [None] for [bad_conv]. *)
Definition write_fields (b : ssapblk) (code type ssn settings : Z) (id oid : option counted) (ref : option sref) (s : ssapkt) : cres (option ssapkt) :=
  if code =? SPDU_MAP then
    Val (obind (if negb (type =? 0) then put_u8 SMASK_MAP_SYNC N_map_sync type s else Some s) (put_u32 SMASK_MAP_SERIAL N_map_serial ssn))
  else if code =? SPDU_MAA then Val (put_u32 SMASK_MAA_SERIAL N_maa_serial ssn s)
  else if code =? SPDU_MIP then
    Val (put_u32 SMASK_MIP_SERIAL N_mip_serial ssn
      (if type =? SYNC_NOCONFIRM then set_num (Set_ s SMASK_MIP_SYNC) N_mip_sync MIP_SYNC_NOEXPL else s))
  else if code =? SPDU_MIA then Val (put_u32 SMASK_MIA_SERIAL N_mia_serial ssn s)
  else if code =? SPDU_RS then
    Val (obind (if needs b SR_TOKENS then put_u8 SMASK_RS_SET N_rs_settings settings s else Some s) (fun s =>
         obind (put_u8 SMASK_RS_TYPE N_rs_type type s) (put_u32 SMASK_RS_SSN N_rs_serial ssn)))
  else if code =? SPDU_RA then
    Val (obind (if needs b SR_TOKENS then put_u8 SMASK_RA_SET N_ra_settings settings s else Some s) (put_u32 SMASK_RA_SSN N_ra_serial ssn))
  else if code =? SPDU_AS then
    id <- deref id;; Val (Some (set_arr (Set_ s SMASK_AS_ID) A_as_id id))
  else if code =? SPDU_AR then
    oid <- deref oid;;
    match put_u32 (ors [SMASK_AR_OID; SMASK_AR_SSN; SMASK_AR_ID]) N_ar_serial ssn (set_arr s A_ar_oid oid) with
    | None => Val None
    | Some s => id <- deref id;; Val (Some (put_ref ref (set_arr s A_ar_id id)))
    end
  else if code =? SPDU_AI then Val (put_u8 SMASK_AI_REASON N_ai_reason type s)
  else if code =? SPDU_AD then Val (put_u8 SMASK_AD_REASON N_ad_reason type s)
  else if code =? SPDU_ED then Val (put_u8 SMASK_ED_REASON N_ed_reason type s)
  else Val (Some s).

(** The user data of an SPDU. *)
Definition put_data (data : option (list Z)) (cc : Z) (s : ssapkt) : ssapkt :=
  if cc >? 0 then set_udata (Set_ s SMASK_UDATA_PGI) data cc else set_udata s None 0.

(** The octets of a packet, or the reason why there are none. *)
Definition spkt_octets (s : ssapkt) : cres (Z + list Z) :=
  ' (rc, base, len, s) <- spkt2tsdu fresh s;;
  if rc =? NOTOK then Val (inl (s_errno s))
  else match base with Some base => Val (inr (ztake len base)) | None => UB end.

(** [TWriteRequest], and its failure. *)
Definition send (octets : list Z) : sess Z :=
  do r <~ TRequest false octets;
  match r with None => ret OK | Some reason => ts2sslose reason end.

Definition SWriteRequestAux (code : Z) (data : option (list Z)) (cc type ssn settings : Z) (id oid : option counted) (ref : option sref) : sess Z :=
  do b <~ get;
  do prepared <~
    (match (if has b SB_EXPD then prepare_type code else None) with
     | Some type => match pr_spkt type with None => ssaplose SC_CONGEST | Some p => spkt2sd p true end
     | None => ret OK
     end);
  if prepared =? NOTOK then ret NOTOK
  else
    match cat0_spkt code with
    | None => ssaplose SC_CONGEST
    | Some s =>
        do o1 <~ lift (spkt_octets s);
        match o1 with
        | inl reason => ssaplose reason
        | inr o1 =>
            match newspkt sizeof_spkt code with
            | None => ssaplose SC_CONGEST
            | Some s =>
                do s <~ lift (write_fields b code type ssn settings id oid ref s);
                match s with
                | None => ssaplose SC_PARAMETER
                | Some s =>
                    do o2 <~ lift (spkt_octets (put_data data cc s));
                    match o2 with
                    | inl reason => ssaplose reason
                    | inr o2 => send (o1 ++ o2)
                    end
                end
            end
        end
    end.

(** ** SDataRequestAux

    The sum of the lengths of the vectors. *)
Fixpoint uv_sum (l : list udvec) (n : Z) : cres Z :=
  match l with
  | [] => Val n
  | u :: l => let n := n + uv_len u in if (n <? INT_MIN) || (n >? INT_MAX) then UB else uv_sum l n
  end.

(** The octets the vectors give to the transport service. *)
Fixpoint uv_read (l : list udvec) : cres (list Z) :=
  match l with
  | [] => Val []
  | u :: l => d <- rdn (uv_base u) 0 (uv_len u);; r <- uv_read l;; Val (d ++ r)
  end.

(** The GT SPDU that goes before a DT SPDU. *)
Definition ssdu_gt (code : Z) : cres (Z + list Z) :=
  if code =? SPDU_DT then
    match newspkt sizeof_spkt SPDU_GT with
    | None => Val (inl SC_CONGEST)
    | Some s => spkt_octets (Set_ s SMASK_SPDU_GT)
    end
  else Val (inr []).

(** The SPDU itself, with its enclosure. *)
Definition ssdu_header (b : ssapblk) (code : Z) (begin last : bool) : cres (Z + list Z) :=
  match newspkt sizeof_spkt code with
  | None => Val (inl SC_CONGEST)
  | Some s =>
      spkt_octets
        (if sb_tsdu_us b =? 0 then s
         else
           let s := Set_ s SMASK_ENCLOSE in
           let s := if begin then set_num s N_enclose (u8_bis (s_num s N_enclose) ENCL_BEGIN) else s in
           if last then set_num s N_enclose (u8_bis (s_num s N_enclose) ENCL_END) else s)
  end.

(** The vectors of one TSDU. Its loop is the one of TWrite, which stops at
    [NSPUV - 1]. *)
Definition ssdu_vectors (b : ssapblk) (code n : Z) (bp : list Z) (cc : Z) (uvs : list udvec) : list udvec * Tp0.cursor :=
  let len := if sb_tsdu_us b =? 0 then n else Z.min n (sb_tsdu_us b - SSDU_MAGIC) in
  fill (NSPUV - 1 - (if code =? SPDU_DT then 2 else 1)) bp cc uvs len [].

(** [while (uv -> uv_base)]; [n] octets are left. *)
Fixpoint ssdu_loop (fuel : nat) (b : ssapblk) (code : Z) (begin end_ : bool) (n : Z) (c : Tp0.cursor) : sess Z :=
  match c with
  | None => ret OK
  | Some (bp, cc, uvs) =>
      match fuel with
      | O => undefined
      | S fuel =>
          do g <~ lift (ssdu_gt code);
          match g with
          | inl reason => ssaplose reason
          | inr g =>
              let '(vv, c) := ssdu_vectors b code n bp cc uvs in
              let rest := match c with Some _ => true | None => false end in
              if (sb_tsdu_us b =? 0) && rest then ssaplose SC_PARAMETER
              else
                do h <~ lift (ssdu_header b code begin (end_ && negb rest));
                match h with
                | inl reason => ssaplose reason
                | inr h =>
                    do d <~ lift (uv_read vv);
                    do r <~ send (g ++ h ++ d);
                    if r =? NOTOK then ret NOTOK
                    else ssdu_loop fuel b code (begin && (sb_tsdu_us b =? 0)) end_ (n - zlen d) c
                end
          end
      end
  end.

(** [uv] with the null that ends it; [fuel] bounds the TSDUs. *)
Definition SDataRequestAux (fuel : nat) (code : Z) (uv : list udvec) (begin end_ : bool) : sess Z :=
  do b <~ get;
  guarded [((code =? SPDU_DT) && needs b SR_DAT_EXISTS && negb (owns b ST_DAT_TOKEN), Lose SC_OPERATION);
           ((code =? SPDU_TD) && negb (needs b SR_TYPEDATA), Lose SC_OPERATION)]
    (do n <~ lift (uv_sum uv 0);
     if n =? 0 then ssaplose SC_PARAMETER
     else match uv with [] => undefined | u :: uvs => ssdu_loop fuel b code begin end_ n (Some (uv_base u, uv_len u, uvs)) end).

End Spm.
