(* ===== verification/Sreq.v ===== *)
(** * ssap: the requests and responses of a session user (ssaptoken.c,
    ssapminor1.c, ssapminor2.c, ssapmajor1.c, ssapmajor2.c, ssapresync1.c,
    ssapresync2.c, ssapactivity.c, ssapactchk.c, ssapreport.c, ssapcapd1.c,
    ssapcapd2.c, ssaptyped.c, ssapexpd.c, ssaprelease1.c, ssaprelease2.c,
    ssapabort.c, and SDataRequest, SSendRequest, SWriteRequest and
    SDoCollideAux of ssaprovider.c)

    The descriptor names the session of the state; pointers to results are
    not null. *)

From S2P Require Import Prelude Conv Convert PElement PStream Qbuf Tpkt Tpkt2fd Tcp Tp0 Spkt Spkt2tsdu Tsdu2spkt Ssap.
Open Scope Z_scope.
Open Scope c_scope.
Open Scope ses_scope.

(** ** The guards of spkt.h *)

(** A request in progress. *)
Definition busy (b : ssapblk) (l : list Z) : list (bool * lose) := map (fun f => (has b f, Lose SC_OPERATION)) l.

Definition exception : Z := ors [SB_ED; SB_EDACK; SB_ERACK].

Definition connected (b : ssapblk) : bool * lose := (negb (has b SB_CONN), Lose SC_PARAMETER).

Definition ssapPsig (b : ssapblk) : list (bool * lose) :=
  connected b :: busy b [SB_FINN; SB_RELEASE; SB_MAP; SB_RS; SB_RA; SB_AI; SB_AIA; exception].
Definition ssapXsig (b : ssapblk) : list (bool * lose) := connected b :: busy b [SB_FINN; SB_RELEASE; SB_RS; SB_RA; SB_AI; SB_AIA; SB_ED].
Definition ssapRsig (b : ssapblk) : list (bool * lose) := connected b :: busy b [SB_FINN; SB_RELEASE; SB_RS; SB_AI; SB_AIA; SB_AE; SB_ED].
Definition ssapAsig (b : ssapblk) : list (bool * lose) := connected b :: busy b [SB_FINN; SB_RELEASE; SB_MAA; SB_RS; SB_AI; exception].
Definition ssapFsig (b : ssapblk) : list (bool * lose) :=
  connected b :: (negb (has b SB_FINN), Lose SC_OPERATION) :: busy b [SB_RELEASE; SB_MAA; SB_RS; SB_RA; SB_AI; SB_AIA; exception].

(** [findsblk] and one of the guards. *)
Definition with_sd {A} `{Failure A} (sig : ssapblk -> list (bool * lose)) (k : sess A) : sess A := fun st =>
  if ses_gone st then lose_with (Lose SC_PARAMETER) st else guarded (sig (ses_sb st)) k st.

(** [toomuchP]: the count of the user data, at most [m] in version 1. *)
Definition toomuchP {A} `{Failure A} (data : option (list Z)) (cc m : Z) (k : Z -> sess A) : sess A :=
  match data with
  | None => k 0
  | Some _ => do b <~ get; guarded [(cc >? (if sb_version b <? SB_VRSN2 then m else ENCLOSE_MAX), Lose SC_PARAMETER)] (k cc)
  end.

(** [idmuchP] and [refmuchP] *)
Definition idmuchP (id : counted) : bool := c_len id >? SID_DATA_SIZE.
Definition refmuchP (r : sref) : bool :=
  (c_len (sr_calling r) >? SREF_USER_SIZE) || (c_len (sr_comm r) >? SREF_COMM_SIZE) || (c_len (sr_addt r) >? SREF_ADDT_SIZE) ||
  (c_len (sr_called r) >? SREF_USER_SIZE).

(** The size of the user data of version 1: ST_SIZE, SN_SIZE, ... *)
Definition USER_SIZE := 512.

(** ** SDoCollideAux *)

(** Which of two requests that cross wins: OK for the local one. *)
Definition SDoCollideAux (init : bool) (localop localssn remoteop remotessn : Z) : Z :=
  let mine := if init then OK else NOTOK in
  if localop =? SYNC_DISC then OK
  else if remoteop =? SYNC_DISC then NOTOK
  else if localop =? SYNC_INTR then OK
  else if remoteop =? SYNC_INTR then NOTOK
  else if localop =? SYNC_ABANDON then if negb (remoteop =? SYNC_ABANDON) then OK else mine
  else if remoteop =? SYNC_ABANDON then NOTOK
  else if localop =? SYNC_SET then if negb (remoteop =? SYNC_SET) then OK else mine
  else if remoteop =? SYNC_SET then NOTOK
  else if localssn =? remotessn then mine
  else if localssn <? remotessn then OK else NOTOK.

(** ** Tokens *)

(** The value of a token in a word of settings, at its place. *)
Definition setting (settings shift : Z) : Z := Z.land settings (Z.shiftl ST_MASK shift).

Definition give_settings (b : ssapblk) (tokens : Z) : lose + Z :=
  dotokens_or (fun requires _ bit settings =>
    if meets tokens bit then
      if negb (needs b requires) then inl (Lose SC_OPERATION)
      else if negb (owns b bit) then inl (Lose SC_OPERATION)
      else inr (Z.lor settings bit)
    else inr settings) 0.

Definition please_settings (b : ssapblk) (tokens : Z) : lose + Z :=
  dotokens_or (fun requires _ bit settings =>
    if meets tokens bit then
      if negb (needs b requires) then inl (Lose SC_OPERATION)
      else if owns b bit then inl (Lose SC_OPERATION)
      else inr (Z.lor settings bit)
    else inr settings) 0.

(** The settings a resynchronization may propose. *)
Definition resync_settings (b : ssapblk) (settings : Z) : lose + unit :=
  dotokens_or (fun requires shift _ _ =>
    if needs b requires && negb (one_of (setting settings shift) (map (fun v => Z.shiftl v shift) [ST_INIT_VALUE; ST_RESP_VALUE; ST_CALL_VALUE]))
    then inl (Lose SC_PARAMETER) else inr tt) tt.

(** The settings of its response: the choice of the user where it was left
    to him, and what was proposed otherwise. *)
Definition agree_settings (b : ssapblk) (settings : Z) : lose + Z :=
  dotokens_or (fun requires shift _ settings =>
    let choose v := inr (Z.lor (Z.land settings (Z.lnot (Z.shiftl ST_MASK shift))) (Z.shiftl v shift)) in
    if needs b requires then
      if setting (sb_rsettings b) shift =? Z.shiftl ST_CALL_VALUE shift then
        if setting settings shift =? Z.shiftl ST_INIT_VALUE shift then choose ST_INIT_VALUE
        else if setting settings shift =? Z.shiftl ST_RESP_VALUE shift then choose ST_RESP_VALUE
        else inl (Lose SC_PARAMETER)
      else if negb (setting (sb_rsettings b) shift =? setting settings shift) then inl Misused
      else inr settings
    else inr settings) settings.

(** A token goes to the initiator, or to the responder. *)
Definition assign_token (to_init : bool) (bit : Z) (b : ssapblk) : ssapblk :=
  if Bool.eqb (has b SB_INIT) to_init then take_token bit b else drop_token bit b.

(** The tokens as the response sets them. *)
Definition settle_tokens (settings : Z) (b : ssapblk) : ssapblk :=
  dotokens (fun requires shift bit b =>
    if needs b requires then
      if setting settings shift =? Z.shiftl ST_INIT_VALUE shift then assign_token true bit b
      else if setting settings shift =? Z.shiftl ST_RESP_VALUE shift then assign_token false bit b
      else b
    else b) b.

Section Requests.
Context `{Allocator} (sizeof_spkt : Z).
Variable fresh : Z -> list Z.
Variables ses_ab_timer ses_dn_timer ses_rf_timer : Z.

Let write := SWriteRequestAux sizeof_spkt fresh.
Let free := freesblk ses_dn_timer.
Let sd_write := spkt2sd fresh.

(** What follows a write: the session is lost when it fails. *)
Definition finish (ok : sess unit) (result : Z) : sess Z :=
  exec (if result =? NOTOK then free true else ok); ret result.

(** The same with the serial number at [*ssn]. *)
Definition with_ssn (ssn : Z) (m : sess Z) : sess (Z * option Z) := do r <~ m; ret (r, Some ssn).

(** *** ssaptoken.c *)

Definition SGTokenRequestAux (tokens : Z) : sess Z :=
  do b <~ get;
  match give_settings b tokens with
  | inl e => lose_with e
  | inr settings =>
      let data := meets settings ST_DAT_TOKEN in
      guarded [(settings =? 0, Lose SC_PARAMETER);
               (has b SB_GTC, Lose SC_OPERATION);
               (negb data && has b (Z.lor SB_EDACK SB_ERACK), Misused)]
        (exec (if data then update (lower (Z.lor SB_EDACK SB_ERACK)) else ret tt);
         match newspkt sizeof_spkt SPDU_GT with
         | None => ssaplose SC_CONGEST
         | Some s =>
             match put_u8 (Z.lor SMASK_SPDU_GT SMASK_GT_TOKEN) N_gt_token settings s with
             | None => ssaplose SC_PARAMETER
             | Some s => do r <~ sd_write s false; finish (update (drop_token (s_num s N_gt_token))) r
             end
         end)
  end.

Definition SGTokenRequest (tokens : Z) : sess Z := with_sd ssapXsig (SGTokenRequestAux tokens).

Definition SPTokenRequestAux (tokens : Z) (data : option (list Z)) (cc : Z) : sess Z :=
  do b <~ get;
  match please_settings b tokens with
  | inl e => lose_with e
  | inr settings =>
      guarded [(settings =? 0, Lose SC_PARAMETER); (has b SB_GTC, Lose SC_OPERATION)]
        (match newspkt sizeof_spkt SPDU_PT with
         | None => ssaplose SC_CONGEST
         | Some s =>
             match put_u8 SMASK_PT_TOKEN N_pt_token settings s with
             | None => ssaplose SC_PARAMETER
             | Some s => do r <~ sd_write (put_data data cc s) false; finish (ret tt) r
             end
         end)
  end.

Definition SPTokenRequest (tokens : Z) (data : option (list Z)) (cc : Z) : sess Z :=
  with_sd ssapPsig (toomuchP data cc USER_SIZE (SPTokenRequestAux tokens data)).

(** *** ssapminor1.c, ssapminor2.c *)

(** The minor synchronization points before this one are confirmed. *)
Definition confirm_all (b : ssapblk) : ssapblk :=
  if has b SB_Vsc then lower SB_Vsc (set_V (sb_V_M b) (sb_V_M b) (sb_V_R b) b) else b.

(** [sb_V_M++] *)
Definition next_ssn (b : ssapblk) : ssapblk := set_V (sb_V_A b) (sb_V_M b + 1) (sb_V_R b) b.

Definition no_activity (b : ssapblk) : bool := needs b SR_ACTIVITY && negb (has b SB_Vact).
Definition lacks (b : ssapblk) (requires bit : Z) : bool := needs b requires && negb (owns b bit).

Definition SMinSyncRequestAux (type : Z) (data : option (list Z)) (cc : Z) : sess (Z * option Z) :=
  do b <~ get;
  guarded [(negb (needs b SR_MINORSYNC), Lose SC_OPERATION);
           (lacks b SR_DAT_EXISTS ST_DAT_TOKEN, Lose SC_OPERATION);
           (negb (owns b ST_MIN_TOKEN), Lose SC_OPERATION);
           (no_activity b, Lose SC_OPERATION);
           (has b SB_MAA, Misused)]
    (with_ssn (sb_V_M b)
      (do r <~ write SPDU_MIP data cc type (sb_V_M b) 0 None None None;
       finish (update (fun b => next_ssn (confirm_all b))) r)).

Definition SMinSyncRequest (type : Z) (data : option (list Z)) (cc : Z) : sess (Z * option Z) :=
  guarded [(negb (one_of type [SYNC_CONFIRM; SYNC_NOCONFIRM]), Lose SC_PARAMETER)]
    (with_sd ssapPsig (toomuchP data cc USER_SIZE (SMinSyncRequestAux type data))).

Definition SMinSyncResponseAux (ssn : Z) (data : option (list Z)) (cc : Z) : sess Z :=
  do b <~ get;
  guarded [(negb (needs b SR_MINORSYNC), Lose SC_OPERATION);
           (negb (has b SB_Vsc), Lose SC_OPERATION);
           (ssn <? sb_V_A b, Lose SC_OPERATION)]
    (do r <~ write SPDU_MIA data cc 0 ssn 0 None None None;
     finish (update (fun b => set_V (ssn + 1) (sb_V_M b) (sb_V_R b) b)) r).

(** A serial number out of the range of the standard. *)
Definition bad_ssn (ssn : Z) : bool := (SERIAL_MIN >? ssn) || (ssn >? SERIAL_MAX).

Definition SMinSyncResponse (ssn : Z) (data : option (list Z)) (cc : Z) : sess Z :=
  guarded [(bad_ssn ssn, Lose SC_PARAMETER)]
    (with_sd ssapPsig (toomuchP data cc USER_SIZE (SMinSyncResponseAux ssn data))).
(** *** ssapactchk.c *)

(** What a major synchronization, an activity and give control require:
    [act] for an activity, [rls] where the release token is asked for. *)
Definition activity_guards (b : ssapblk) (act rls : bool) : list (bool * lose) :=
  (if act then [(negb (needs b SR_ACT_EXISTS), Lose SC_OPERATION); (has b SB_Vact, Lose SC_OPERATION)]
   else [(negb (needs b SR_MAJ_EXISTS), Lose SC_OPERATION)]) ++
  [(lacks b SR_DAT_EXISTS ST_DAT_TOKEN, Lose SC_OPERATION);
   (lacks b SR_MIN_EXISTS ST_MIN_TOKEN, Lose SC_OPERATION);
   (negb (owns b (if act then ST_ACT_TOKEN else ST_MAJ_TOKEN)), Lose SC_OPERATION);
   (rls && lacks b SR_RLS_EXISTS ST_RLS_TOKEN, Lose SC_OPERATION)].

(** [SDoActivityAux], and the return where it is NOTOK. *)
Definition SDoActivityAux {A} `{Failure A} (act rls : bool) (k : sess A) : sess A :=
  do b <~ get; guarded (activity_guards b act rls) k.

(** *** ssapmajor1.c, ssapmajor2.c *)

(** [opts] is MAP_SYNC_NOEND, or 0 at the end of an activity. *)
Definition SMajSyncRequestAux (data : option (list Z)) (cc opts : Z) : sess (Z * option Z) :=
  SDoActivityAux false false
    (do b <~ get;
     guarded [(no_activity b, Lose SC_OPERATION); (has b SB_MAA, Misused)]
       (with_ssn (sb_V_M b)
         (do r <~ write SPDU_MAP data cc opts (sb_V_M b) 0 None None None;
          finish (update (fun b =>
            let b := raise SB_MAP b in
            let b := if meets opts MAP_SYNC_NOEND then if needs b SR_ACTIVITY then raise SB_Vnextact b else b
                     else lower SB_Vnextact (raise SB_AE b) in
            next_ssn (confirm_all b))) r))).

Definition SMajSyncRequest (data : option (list Z)) (cc : Z) : sess (Z * option Z) :=
  with_sd ssapPsig (toomuchP data cc USER_SIZE (fun cc => SMajSyncRequestAux data cc MAP_SYNC_NOEND)).

(** The activity after a major synchronization: it goes on, or ends. *)
Definition settle_activity (b : ssapblk) : ssapblk :=
  if needs b SR_ACTIVITY then if has b SB_Vnextact then raise SB_Vact b else lower SB_Vact b else b.

(** All the synchronization points are confirmed. *)
Definition confirm_major (b : ssapblk) : ssapblk := settle_activity (set_V (sb_V_M b) (sb_V_M b) (sb_V_M b) b).

Definition SMajSyncResponseAux (data : option (list Z)) (cc : Z) : sess Z :=
  do b <~ get;
  guarded [(negb (needs b SR_MAJORSYNC) && negb (needs b SR_ACTIVITY) && negb (has b SB_Vact), Lose SC_OPERATION);
           (negb (has b SB_MAA), Lose SC_OPERATION)]
    (do r <~ write SPDU_MAA data cc 0 (sb_V_M b - 1) 0 None None None;
     finish (update (fun b => lower (Z.lor SB_MAA SB_AE) (confirm_major b))) r).

Definition SMajSyncResponse (data : option (list Z)) (cc : Z) : sess Z :=
  with_sd ssapPsig (toomuchP data cc USER_SIZE (SMajSyncResponseAux data)).

(** *** ssapresync1.c, ssapresync2.c *)

Definition SReSyncRequestAux (type ssn settings : Z) (data : option (list Z)) (cc : Z) : sess Z :=
  do b <~ get;
  guarded [(negb (needs b SR_RESYNC), Lose SC_OPERATION);
           (no_activity b, Lose SC_OPERATION);
           (has b SB_RA && (SDoCollideAux (has b SB_INIT) type ssn (sb_rs b) (sb_rsn b) =? NOTOK), Lose SC_OPERATION);
           ((type =? SYNC_RESTART) && ((sb_V_M b <? ssn) || (ssn <? sb_V_R b)), Lose SC_OPERATION)]
    (let ssn := if type =? SYNC_ABANDON then sb_V_M b else ssn in
     match resync_settings b settings with
     | inl e => lose_with e
     | inr _ =>
         match (if needs b SR_TOKENS then int2u8 settings else Some 0) with
         | None => ssaplose SC_PARAMETER
         | Some v =>
             exec put (set_rsettings v b);
             do r <~ write SPDU_RS data cc type ssn settings None None None;
             finish (update (fun b => set_rs type ssn (lower (ors [SB_RA; SB_EDACK; SB_ERACK]) (raise SB_RS b)))) r
         end
     end).

Definition SReSyncRequest (type ssn settings : Z) (data : option (list Z)) (cc : Z) : sess Z :=
  guarded [((type =? SYNC_ABANDON) && negb (ssn =? SERIAL_NONE), Lose SC_PARAMETER);
           ((type =? SYNC_SET) && ((SERIAL_MIN >? ssn) || (ssn >? SERIAL_MAX + 1)), Lose SC_PARAMETER);
           (negb (one_of type [SYNC_RESTART; SYNC_ABANDON; SYNC_SET]), Lose SC_PARAMETER)]
    (with_sd ssapRsig (toomuchP data cc USER_SIZE (SReSyncRequestAux type ssn settings data))).

Definition SReSyncResponseAux (ssn settings : Z) (data : option (list Z)) (cc : Z) : sess Z :=
  do b <~ get;
  guarded [(negb (needs b SR_RESYNC), Lose SC_OPERATION); (negb (has b SB_RA), Lose SC_OPERATION)]
    (let ssn := if sb_rs b =? SYNC_RESTART then sb_rsn b else if sb_rs b =? SYNC_ABANDON then sb_V_A b else ssn in
     match agree_settings b settings with
     | inl e => lose_with e
     | inr settings =>
         do r <~ write SPDU_RA data cc 0 ssn settings None None None;
         finish (update (fun b =>
           let b := lower SB_RA b in
           let b := set_V ssn ssn (if sb_rs b =? SYNC_RESTART then sb_V_R b else 0) b in
           settle_tokens settings b)) r
     end).

Definition SReSyncResponse (ssn settings : Z) (data : option (list Z)) (cc : Z) : sess Z :=
  with_sd ssapRsig (toomuchP data cc USER_SIZE (SReSyncResponseAux ssn settings data)).

(** *** ssapactivity.c *)

Definition SGControlRequestAux : sess Z :=
  SDoActivityAux true true
    (do b <~ get;
     guarded [(has b SB_GTC, Lose SC_OPERATION)]
       (match newspkt sizeof_spkt SPDU_GTC with
        | None => ssaplose SC_CONGEST
        | Some s => do r <~ sd_write s false; finish (update (fun b => raise SB_GTC (set_owned 0 b))) r
        end)).

Definition SGControlRequest : sess Z := with_sd ssapPsig SGControlRequestAux.

Definition SActStartRequestAux (id : counted) (data : option (list Z)) (cc : Z) : sess Z :=
  SDoActivityAux true false
    (do r <~ write SPDU_AS data cc 0 0 0 (Some id) None None;
     finish (update (fun b => raise SB_Vact (set_V 1 1 1 b))) r).

Definition SActStartRequest (id : counted) (data : option (list Z)) (cc : Z) : sess Z :=
  guarded [(idmuchP id, Lose SC_PARAMETER)] (with_sd ssapPsig (toomuchP data cc USER_SIZE (SActStartRequestAux id data))).

Definition SActResumeRequestAux (id oid : counted) (ssn : Z) (ref : option sref) (data : option (list Z)) (cc : Z) : sess Z :=
  SDoActivityAux true false
    (do r <~ write SPDU_AR data cc 0 ssn 0 (Some id) (Some oid) ref;
     finish (update (fun b => raise SB_Vact (set_V (ssn + 1) (ssn + 1) 1 b))) r).

Definition SActResumeRequest (id oid : counted) (ssn : Z) (ref : option sref) (data : option (list Z)) (cc : Z) : sess Z :=
  guarded [(idmuchP id, Lose SC_PARAMETER); (idmuchP oid, Lose SC_PARAMETER); (bad_ssn ssn, Lose SC_PARAMETER);
           (match ref with Some r => refmuchP r | None => false end, Lose SC_PARAMETER)]
    (with_sd ssapPsig (toomuchP data cc USER_SIZE (SActResumeRequestAux id oid ssn ref data))).

(** The operation of SPDU_AI, and of SPDU_AD. *)
Definition intr_op (type : Z) : Z := if type =? SPDU_AI then SYNC_INTR else SYNC_DISC.

Definition SActIntrRequestAux (reason type : Z) : sess Z :=
  do b <~ get;
  guarded [(negb (needs b SR_ACTIVITY), Lose SC_OPERATION);
           (negb (owns b ST_ACT_TOKEN), Lose SC_OPERATION);
           (negb (has b SB_Vact), Lose SC_OPERATION);
           (has b SB_RA && (SDoCollideAux (has b SB_INIT) (intr_op type) 0 (sb_rs b) (sb_rsn b) =? NOTOK), Lose SC_OPERATION)]
    (do r <~ write type None 0 reason 0 0 None None None;
     finish (update (fun b => set_rs (intr_op type) (sb_rsn b) (lower (ors [SB_RA; SB_EDACK; SB_ERACK]) (raise SB_AI b)))) r).

(** [SActIntrRequest] and [SActDiscRequest] *)
Definition SActIntr (type reason : Z) : sess Z :=
  guarded [(negb (SP_OK reason), Lose SC_PARAMETER)]
    (with_sd ssapXsig (do b <~ get; guarded [(has b SB_MAP, Lose SC_OPERATION)] (SActIntrRequestAux reason type))).

Definition SActIntrRequest (reason : Z) : sess Z := SActIntr SPDU_AI reason.
Definition SActDiscRequest (reason : Z) : sess Z := SActIntr SPDU_AD reason.

Definition SActIntrResponseAux (type : Z) : sess Z :=
  do b <~ get;
  guarded [(negb (needs b SR_ACTIVITY), Lose SC_OPERATION);
           (negb (has b SB_Vact), Lose SC_OPERATION);
           (negb (has b SB_AIA), Lose SC_OPERATION)]
    (do r <~ write type None 0 0 0 0 None None None;
     finish (update (fun b => set_owned 0 (lower (Z.lor SB_AIA SB_Vact) b))) r).

Definition SActIntrResponse : sess Z := with_sd ssapAsig (SActIntrResponseAux SPDU_AIA).
Definition SActDiscResponse : sess Z := with_sd ssapAsig (SActIntrResponseAux SPDU_ADA).

Definition SActEndRequest (data : option (list Z)) (cc : Z) : sess (Z * option Z) :=
  with_sd ssapPsig (toomuchP data cc USER_SIZE (fun cc => SMajSyncRequestAux data cc 0)).

Definition SActEndResponse (data : option (list Z)) (cc : Z) : sess Z :=
  with_sd ssapPsig (toomuchP data cc USER_SIZE (SMajSyncResponseAux data)).

(** *** ssapreport.c, ssapcapd1.c, ssapcapd2.c, ssapexpd.c *)

Definition SUReportRequestAux (reason : Z) (data : option (list Z)) (cc : Z) : sess Z :=
  do b <~ get;
  guarded [(negb (needs b SR_EXCEPTIONS), Lose SC_OPERATION);
           (negb (needs b SR_DAT_EXISTS), Lose SC_OPERATION);
           (owns b ST_DAT_TOKEN, Lose SC_OPERATION);
           (no_activity b, Lose SC_OPERATION)]
    (do r <~ write SPDU_ED data cc reason 0 0 None None None;
     finish (update (raise SB_ED)) r).

Definition SUReportRequest (reason : Z) (data : option (list Z)) (cc : Z) : sess Z :=
  guarded [(negb (SP_OK reason), Lose SC_PARAMETER)] (with_sd ssapPsig (toomuchP data cc USER_SIZE (SUReportRequestAux reason data))).

Definition SCapdRequestAux (data : option (list Z)) (cc : Z) : sess Z :=
  do b <~ get;
  guarded [(negb (needs b SR_CAPABILITY), Lose SC_OPERATION)]
    (SDoActivityAux true false
      (guarded [(has b SB_CD, Lose SC_OPERATION)]
        (exec update (raise SB_CD);
         do r <~ write SPDU_CD data cc 0 0 0 None None None;
         finish (ret tt) r))).

Definition SCapdRequest (data : option (list Z)) (cc : Z) : sess Z :=
  with_sd ssapPsig (toomuchP data cc USER_SIZE (SCapdRequestAux data)).

Definition SCapdResponseAux (data : option (list Z)) (cc : Z) : sess Z :=
  do b <~ get;
  guarded [(negb (needs b SR_CAPABILITY), Lose SC_OPERATION); (negb (has b SB_CDA), Lose SC_OPERATION)]
    (do r <~ write SPDU_CDA data cc 0 0 0 None None None;
     finish (update (lower SB_CDA)) r).

Definition SCapdResponse (data : option (list Z)) (cc : Z) : sess Z :=
  with_sd ssapPsig (toomuchP data cc USER_SIZE (SCapdResponseAux data)).

Definition SExpdRequestAux (data : option (list Z)) (cc : Z) : sess Z :=
  do b <~ get;
  guarded [(negb (needs b SR_EXPEDITED), Lose SC_OPERATION)]
    (match newspkt sizeof_spkt SPDU_EX with
     | None => ssaplose SC_CONGEST
     | Some s => do r <~ sd_write (set_udata s data cc) true; finish (ret tt) r
     end).

Definition SExpdRequest (data : option (list Z)) (cc : Z) : sess Z :=
  guarded [(match data with None => true | Some _ => false end, Lose SC_PARAMETER); (cc >? SX_EXSIZE, Lose SC_PARAMETER)]
    (with_sd ssapPsig (SExpdRequestAux data cc)).

(** *** S-DATA, S-TYPED-DATA and S-WRITE *)

(** [SSendRequest], and [STypedRequest] *)
Definition ssdu_request (code : Z) (data : option (list Z)) (cc : Z) (begin end_ : bool) : sess Z :=
  guarded [(match data with None => true | Some _ => false end, Lose SC_PARAMETER); (cc <=? 0, Lose SC_PARAMETER)]
    (with_sd ssapPsig
      (match data with
       | Some d => SDataRequestAux sizeof_spkt fresh (S (Z.to_nat cc)) code [UV d cc] begin end_
       | None => undefined
       end)).

Definition SSendRequest : option (list Z) -> Z -> bool -> bool -> sess Z := ssdu_request SPDU_DT.
Definition SDataRequest (data : option (list Z)) (cc : Z) : sess Z := SSendRequest data cc true true.
Definition STypedRequest (data : option (list Z)) (cc : Z) : sess Z := ssdu_request SPDU_TD data cc true true.

Definition SWriteRequest (fuel : nat) (typed : bool) (uv : list udvec) : sess Z :=
  with_sd ssapPsig (SDataRequestAux sizeof_spkt fresh fuel (if typed then SPDU_TD else SPDU_DT) uv true true).

(** *** ssaprelease1.c *)

(** [struct SSAPrelease]: [sr_affirmative] and the data. *)
Definition srelease : Type := bool * sdata.

(** The user data of a packet, which passes to the user. *)
Definition copySPKTdata (s : ssapkt) : sdata := (s_udata s, s_ulen s).

(** [s -> s_code = code] *)
Definition recode (code : Z) (s : ssapkt) : ssapkt :=
  Spkt (s_errno s) (s_mask s) code (s_li s) (s_num s) (s_arr s) (s_reflect s) (s_rdata s) (s_rlen s) (s_udata s) (s_ulen s).

(** [s -> s_mask &= ~flag] *)
Definition Clear (flag : Z) (s : ssapkt) : ssapkt :=
  Spkt (s_errno s) (Z.land (s_mask s) (Z.lnot flag)) (s_code s) (s_li s) (s_num s) (s_arr s) (s_reflect s) (s_rdata s) (s_rlen s) (s_udata s) (s_ulen s).

(** The part after [again]: FN, or DN where the peer has sent FN, from
    [sb_retry]. *)
Definition rel_send (code : Z) : sess Z :=
  do b <~ get;
  match sb_retry b with
  | None => undefined
  | Some s =>
      let s := recode code s in
      let fn := code =? SPDU_FN in
      let s := if fn then set_num (Set_ s SMASK_FN_DISC) N_fn_disconnect FN_DISC_RELEASE else s in
      do r <~ sd_write s false;
      let s := if fn then set_num (set_udata (Clear (Z.lor SMASK_UDATA_PGI SMASK_FN_DISC) s) None 0) N_fn_disconnect 0 else s in
      exec update (set_retry (Some s));
      ret r
  end.

Definition abort_info (s : ssapkt) : SSAPindication :=
  let peer := meets (s_num s N_ab_disconnect) AB_DISC_USER in
  SI_ABORT peer (if peer then 0 else SC_ABORT) (s_udata s, s_ulen s).

Definition rel_lost : sess (Z * option srelease) := exec free true; ret (NOTOK, None).

(** The part after [waiting]; the code of what is to be sent [again]. *)
Definition rel_wait : sess (Z + Z * option srelease) :=
  do r <~ sb2spkt sizeof_spkt fresh ses_ab_timer ses_rf_timer None;
  match r with
  | None =>
      do si <~ get_si;
      if sa_reason si =? SC_TIMER then exec update (raise SB_RELEASE); ret (inr (NOTOK, None))
      else do r <~ rel_lost; ret (inr r)
  | Some k =>
      do b <~ get;
      let s := p_spkt k in
      let bad_nf := exec spktlose sizeof_spkt fresh ses_ab_timer ses_rf_timer SC_PROTOCOL; do r <~ rel_lost; ret (inr r) in
      if s_code s =? SPDU_FN then ret (inl SPDU_DN)
      else if s_code s =? SPDU_DN then exec free true; ret (inr (OK, Some (true, copySPKTdata s)))
      else if s_code s =? SPDU_NF then
        if negb (needs b SR_RLS_EXISTS) || negb (owns b ST_RLS_TOKEN) then bad_nf
        else ret (inr (OK, Some (false, copySPKTdata s)))
      else if s_code s =? SPDU_RS then
        exec put (set_spdu (Some k) b); do r <~ ssaplose SC_WAITING; ret (inr (r, None))
      else if s_code s =? SPDU_AB then exec set_si (abort_info s); do r <~ rel_lost; ret (inr r)
      else bad_nf
  end.

(** [code] is what is sent first, if anything; [fuel] bounds the rounds. *)
Fixpoint rel_loop (fuel : nat) (code : option Z) : sess (Z * option srelease) :=
  match fuel with
  | O => undefined
  | S fuel =>
      do r <~ (match code with Some code => rel_send code | None => ret OK end);
      if r =? NOTOK then rel_lost
      else
        do r <~ rel_wait;
        match r with
        | inl code => rel_loop fuel (Some code)
        | inr r => ret r
        end
  end.

(** Each round reads a packet: one that waits, or a TSDU. *)
Definition SRelRetryRequestAux : sess (Z * option srelease) :=
  do b <~ get;
  do t <~ get_tp;
  rel_loop (3 + length (tp_reads t)) (if has b SB_RELEASE then None else Some SPDU_FN).

(** [dotokens]: the tokens that exist are owned. *)
Definition rel_tokens (b : ssapblk) : list (bool * lose) :=
  map (fun t => let '(requires, _, bit) := t in (lacks b requires bit, Lose SC_OPERATION)) token_table.

Definition SRelRequestAux (data : option (list Z)) (cc : Z) : sess (Z * option srelease) :=
  do b <~ get;
  guarded (rel_tokens b ++
           [(has b SB_CD, Lose SC_OPERATION); (has b SB_CDA, Lose SC_OPERATION); (has b SB_GTC, Lose SC_OPERATION);
            (has b SB_MAA, Misused); (has b SB_RELEASE, Misused);
            (match sb_xspdu b, sb_spdu b with None, None => false | _, _ => true end, Lose SC_WAITING)])
    (match newspkt sizeof_spkt SPDU_FN with
     | None => lose_with (Lose SC_CONGEST)
     | Some s => exec put (set_retry (Some (put_data data cc s)) b); SRelRetryRequestAux
     end).

Definition SRelRequest (data : option (list Z)) (cc : Z) : sess (Z * option srelease) :=
  with_sd ssapPsig (toomuchP data cc USER_SIZE (SRelRequestAux data)).

Definition SRelRetryRequest : sess (Z * option srelease) :=
  with_sd (fun b => [(negb (has b SB_RELEASE), Misused)]) SRelRetryRequestAux.

(** *** ssaprelease2.c, ssapabort.c *)

Definition SRelResponseAux (status : Z) (data : option (list Z)) (cc : Z) : sess Z :=
  do b <~ get;
  let rejected := status =? SC_REJECTED in
  guarded [(rejected && negb (needs b SR_NEGOTIATED), Lose SC_OPERATION);
           (rejected && negb (needs b SR_RLS_EXISTS), Lose SC_OPERATION);
           (rejected && owns b ST_RLS_TOKEN, Lose SC_OPERATION);
           (negb (one_of status [SC_ACCEPT; SC_REJECTED]), Lose SC_PARAMETER)]
    (let code := if rejected then SPDU_NF else SPDU_DN in
     match newspkt sizeof_spkt code with
     | None => ssaplose SC_CONGEST
     | Some s =>
         do r <~ sd_write (put_data data cc s) false;
         exec (if (r =? NOTOK) || (code =? SPDU_DN) then free true else update (lower SB_FINN));
         ret r
     end).

Definition SRelResponse (status : Z) (data : option (list Z)) (cc : Z) : sess Z :=
  with_sd ssapFsig (toomuchP data cc USER_SIZE (SRelResponseAux status data)).

(** The PR SPDU before a long abort; a lack of memory is ignored. *)
Definition abort_prepare (b : ssapblk) (cc : Z) : sess Z :=
  if has b SB_EXPD && (sb_version b >=? SB_VRSN2) && (cc >? 9) then
    match pr_spkt sizeof_spkt PR_AB with None => ret OK | Some p => sd_write p true end
  else ret OK.

Definition SUAbortRequestAux (data : option (list Z)) (cc : Z) : sess Z :=
  exec update (lower exception);
  do b <~ get;
  do r <~ abort_prepare b cc;
  let out r := exec free true; ret r in
  if r =? NOTOK then out NOTOK
  else
    match newspkt sizeof_spkt SPDU_AB with
    | None => do r <~ ssaplose SC_CONGEST; out r
    | Some s =>
        let s := Set_ s (Z.lor SMASK_SPDU_AB SMASK_AB_DISC) in
        let s := set_num s N_ab_disconnect (Z.lor AB_DISC_RELEASE AB_DISC_USER) in
        do r <~ sd_write (put_data data cc s) (has b SB_EXPD);
        if r =? NOTOK then out NOTOK
        else if ses_ab_timer >=? 0 then
          do r <~ TReadRequest;
          exec free (match r with inl reason => reason =? DR_TIMER | inr _ => true end); ret OK
        else out OK
    end.

Definition SUAbortRequest (data : option (list Z)) (cc : Z) : sess Z :=
  with_sd (fun _ => []) (toomuchP data cc USER_SIZE (SUAbortRequestAux data)).
End Requests.
