(* ===== verification/Sread.v ===== *)
(** * ssap: what a session makes of each SPDU (SReadRequest, SReadRequestAux,
    TDATAser and TDISCser of ssaprovider.c)

    The body of the loop of [SReadRequestAux] is cut where the source has its
    switches: the filter of the flows, the filters of collisions, exceptions
    and segmentation, the check of the functional units, and the actions. *)

From S2P Require Import Prelude Conv Convert PElement PStream Qbuf Tpkt Tpkt2fd Tcp Tp0 Spkt Spkt2tsdu Tsdu2spkt Ssap Sreq.
Open Scope Z_scope.
Open Scope c_scope.
Open Scope ses_scope.

Definition SX_NORMAL := 0.
Definition SX_EXPEDITED := 1.
Definition SX_TYPED := 2.
Definition SX_CAPDIND := 3.
Definition SX_CAPDCNF := 4.
Definition ST_GIVE := 0.
Definition ST_PLEASE := 1.
Definition ST_CONTROL := 2.
Definition SN_MAJORIND := 0.
Definition SN_MAJORCNF := 1.
Definition SN_MINORIND := 2.
Definition SN_MINORCNF := 3.
Definition SN_RESETIND := 4.
Definition SN_RESETCNF := 5.
Definition SV_START := 0.
Definition SV_RESUME := 1.
Definition SV_INTRIND := 2.
Definition SV_INTRCNF := 3.
Definition SV_DISCIND := 4.
Definition SV_DISCCNF := 5.
Definition SV_ENDIND := 6.
Definition SV_ENDCNF := 7.
Definition SP_PROTOCOL := -1.

(** [struct SSAPdata] *)
Record SSAPdata : Type := Sx { sx_type : Z; sx_cc : Z; sx_qbuf : list qseg }.
Definition no_ssdu : SSAPdata := Sx 0 0 [].

(** Where a step leaves the body of the loop: it returns, goes on to [spin],
    breaks, or jumps to [out]. *)
Inductive exit : Type :=
| Return (result : Z) (sx : SSAPdata)
| Spin
| Break
| Out.

(** A filter either leaves or lets the SPDU pass. *)
Definition filter : Type := sess (option exit).
Definition pass : filter := ret None.
Definition leave (e : exit) : filter := ret (Some e).

(** The first filter that does not let the SPDU pass. *)
Definition andthen (f : filter) (k : sess exit) : sess exit := do r <~ f; match r with Some e => ret e | None => k end.

Section Reader.
Context `{Allocator} (sizeof_spkt sizeof_qbuf : Z).
Variable fresh : Z -> list Z.
Variables ses_ab_timer ses_dn_timer ses_rf_timer : Z.

Let lose := spktlose sizeof_spkt fresh ses_ab_timer ses_rf_timer.

(** [spktlose (...); goto out], and the same with [break]. *)
Definition lose_out (reason : Z) : filter := exec lose reason; leave Out.
Definition lose_break (reason : Z) : sess exit := exec lose reason; ret Break.

(** ** The flows: what the prepare SPDU has announced *)

(** Whether the normal flow waits for another SPDU than [s] ([drop_it]),
    and otherwise whether it waits no longer. *)
Definition prepared (b : ssapblk) (s : ssapkt) : option bool :=
  let code := s_code s in
  if sb_pr b =? SPDU_MAA then Some (code =? SPDU_MAA)
  else if sb_pr b =? SPDU_RS then
    if code =? SPDU_AB then Some (negb (is_set s SMASK_SPDU_AB))
    else if one_of code [SPDU_AD; SPDU_RS] then Some true
    else None
  else if sb_pr b =? SPDU_RA then
    if code =? SPDU_AB then Some false
    else if code =? SPDU_AA then Some (negb (is_set s SMASK_SPDU_AA))
    else if one_of code [SPDU_ADA; SPDU_RA] then Some true
    else None
  else if sb_pr b =? SPDU_AB then if code =? SPDU_AB then Some true else None
  else Some false.

Definition filter_flow (s : ssapkt) : filter :=
  do b <~ get;
  if negb (is_set s SMASK_SPDU_EXPD) then
    match prepared b s with
    | None => leave Spin
    | Some done =>
        exec (if done then put (set_pr SPDU_PR b) else ret tt);
        if one_of (s_code s) [SPDU_PR; SPDU_EX] then lose_out SC_PROTOCOL else pass
    end
  else if s_code s =? SPDU_PR then if negb (sb_pr b =? SPDU_PR) then lose_out SC_PROTOCOL else pass
  else if one_of (s_code s) [SPDU_AB; SPDU_AA; SPDU_EX] then pass
  else lose_out SC_PROTOCOL.

(** ** Collisions: what is dropped while RS, AI or AD is in progress *)

Definition collides (b : ssapblk) (op ssn : Z) : bool := negb (SDoCollideAux (has b SB_INIT) (sb_rs b) (sb_rsn b) op ssn =? NOTOK).

Definition filter_collision (s : ssapkt) : filter :=
  do b <~ get;
  let drop (c : bool) := if c then leave Spin else pass in
  if has b (Z.lor SB_RS SB_AI) then
    if s_code s =? SPDU_PR then drop (negb (one_of (s_num s N_pr_type) [PR_RS; PR_RA]))
    else if s_code s =? SPDU_RS then drop (collides b (s_num s N_rs_type) (s_num s N_rs_serial))
    else if s_code s =? SPDU_AD then drop (collides b SYNC_DISC 0)
    else if s_code s =? SPDU_AB then drop (negb (is_set s SMASK_SPDU_AB) && collides b SYNC_INTR 0)
    else pass
  else pass.

(** ** Exceptions: what is dropped until one is cleared *)

Definition gives_data (s : ssapkt) : bool := is_set s SMASK_SPDU_GT && is_set s SMASK_GT_TOKEN && meets (s_num s N_gt_token) ST_DAT_TOKEN.

Definition filter_exception (s : ssapkt) : filter :=
  do b <~ get;
  if has b (Z.lor SB_ED SB_ERACK) then
    let code := s_code s in
    if (code =? SPDU_AB) ||
       (one_of code [SPDU_MAP; SPDU_MIP] && has b SB_ED) ||
       ((code =? SPDU_PR) && (s_num s N_pr_type =? PR_RS)) ||
       ((code =? SPDU_GT) && gives_data s)
    then pass else leave Spin
  else pass.

(** ** Segmentation: what may come inside an SSDU *)

Definition flush : sess unit := update (set_ssdu [] 0).

Definition filter_segment (s : ssapkt) : filter :=
  do b <~ get;
  if sb_len b >? 0 then
    let code := s_code s in
    let same := if sb_code b =? code then pass else lose_out SC_PROTOCOL in
    if one_of code [SPDU_PT; SPDU_EX] then pass
    else if code =? SPDU_PR then if negb (s_num s N_pr_type =? PR_RS) then pass else exec flush; pass
    else if one_of code [SPDU_RS; SPDU_ER; SPDU_ED; SPDU_AD; SPDU_AB] then exec flush; pass
    else if code =? SPDU_GT then if is_set s SMASK_SPDU_GT then pass else same
    else same
  else pass.

(** The size of the user data and enclosures, in version 1. *)
Definition filter_version (s : ssapkt) : filter :=
  do b <~ get;
  let v1 := sb_version b <? SB_VRSN2 in
  if (s_ulen s >? CN_SIZE) && v1 then lose_out SC_PROTOCOL
  else if is_set s SMASK_ENCLOSE && (negb (s_code s =? SPDU_DT) || is_set s SMASK_SPDU_GT) && negb (s_code s =? SPDU_TD) && v1
  then lose_out SC_PROTOCOL
  else pass.

(** ** The functional unit each SPDU needs *)

Definition unit_of (code : Z) : option Z :=
  if one_of code [SPDU_GTC; SPDU_GTA; SPDU_PT] then Some SR_TOKENS
  else if code =? SPDU_TD then Some SR_TYPEDATA
  else if code =? SPDU_EX then Some SR_EXPEDITED
  else if one_of code [SPDU_CD; SPDU_CDA] then Some SR_CAPABILITY
  else if one_of code [SPDU_MAP; SPDU_MAA] then Some (Z.lor SR_MAJORSYNC SR_ACTIVITY)
  else if one_of code [SPDU_MIP; SPDU_MIA] then Some SR_MINORSYNC
  else if one_of code [SPDU_RS; SPDU_RA] then Some SR_RESYNC
  else if one_of code [SPDU_ER; SPDU_ED] then Some SR_EXCEPTIONS
  else if one_of code [SPDU_AS; SPDU_AR; SPDU_AD; SPDU_ADA] then Some SR_ACTIVITY
  else None.

Definition filter_unit (s : ssapkt) : filter :=
  do b <~ get;
  match unit_of (s_code s) with
  | Some r => if needs b r then pass else lose_out SC_PROTOCOL
  | None => pass
  end.

(** ** The actions *)

(** Tells the user. *)
Definition indicate (si : SSAPindication) : sess exit := exec set_si si; ret (Return DONE no_ssdu).

(** The tokens of a word that exist. *)
Definition existing (b : ssapblk) (word : Z) : Z :=
  dotokens (fun requires _ bit tokens => if needs b requires && meets word bit then Z.lor tokens bit else tokens) 0.

(** All the tokens that exist become ours. *)
Definition take_all (b : ssapblk) : ssapblk :=
  dotokens (fun requires _ bit b => if needs b requires then take_token bit b else b) b.

Definition act_PT (s : ssapkt) : sess exit :=
  do b <~ get;
  if has b SB_GTC then ret Spin
  else
    indicate (SI_TOKEN ST_PLEASE (if is_set s SMASK_PT_TOKEN then existing b (s_num s N_pt_token) else 0) (sb_owned b) (copySPKTdata s)).

Definition act_GT (s : ssapkt) : sess exit :=
  do b <~ get;
  if has b SB_GTC then ret Spin
  else
    let tokens := if is_set s SMASK_GT_TOKEN then existing b (s_num s N_gt_token) else 0 in
    exec update (take_token tokens);
    if negb (tokens =? 0) && negb (needs b SR_TOKENS) then lose_break SC_PROTOCOL
    else
      exec (if meets tokens ST_DAT_TOKEN then update (lower (Z.lor SB_ED SB_ERACK)) else ret tt);
      do b <~ get;
      indicate (SI_TOKEN ST_GIVE tokens (sb_owned b) no_data).

(** DT and TD: whether the SSDU ends here; [None] where the enclosure is
    not one that fits. *)
Definition ssdu_ends (b : ssapblk) (s : ssapkt) : option bool :=
  let enclosed := is_set s SMASK_ENCLOSE in
  let begins := meets (s_num s N_enclose) ENCL_BEGIN in
  let ends := meets (s_num s N_enclose) ENCL_END in
  if negb (sb_tsdu_them b =? 0) then
    if negb enclosed then None
    else if (if begins then sb_len b >? 0 else sb_len b =? 0) then None
    else Some ends
  else if enclosed && (negb begins || negb ends) then None
  else Some true.

(** The user information goes to the end of the SSDU. *)
Definition append_ssdu (k : packet) (b : ssapblk) : cres ssapblk :=
  match s_qbuf k with
  | [] => Val b
  | q =>
      let n := sb_len b + s_qlen k in
      if n >? INT_MAX then UB else Val (set_ssdu (sb_qbuf b ++ q) n b)
  end.

Definition act_DT (k : packet) : sess exit :=
  let s := p_spkt k in
  exec update (set_code (s_code s));
  do b <~ get;
  match ssdu_ends b s with
  | None => lose_break SC_PROTOCOL
  | Some eot =>
      do b <~ lift (append_ssdu k b);
      let b := if negb eot && (s_code s =? SPDU_DT) then set_spdu None b else b in
      exec put b;
      if negb eot then ret Spin
      else
        let type := if sb_code b =? SPDU_DT then SX_NORMAL else SX_TYPED in
        match sb_qbuf b with
        | [] => ret (Return OK (Sx type 0 []))
        | q => exec put (set_ssdu [] 0 b); ret (Return OK (Sx type (sb_len b) q))
        end
  end.

Definition act_EX (k : packet) : sess exit :=
  do b <~ get;
  if negb (sb_pr b =? SPDU_PR) then
    match sb_xspdu b with
    | Some _ => lose_break SC_CONGEST
    | None => exec put (set_xspdu (Some k) b); ret Spin
    end
  else ret (Return OK (match s_qbuf k with [] => Sx SX_EXPEDITED 0 [] | q => Sx SX_EXPEDITED (s_qlen k) q end)).

Definition act_CD (s : ssapkt) : sess exit :=
  let cd := s_code s =? SPDU_CD in
  exec update (if cd then raise SB_CDA else lower SB_CD);
  let type := if cd then SX_CAPDIND else SX_CAPDCNF in
  match s_udata s with
  | None => ret (Return OK (Sx type 0 []))
  | Some d =>
      if negb (malloc_ok (sizeof_qbuf + u32 (s_ulen s))) then lose_break SC_CONGEST
      else
        do d <~ lift (bcopy_int (Some d) (s_ulen s));
        match d with
        | None => lose_break SC_CONGEST
        | Some d => ret (Return OK (Sx type (s_ulen s) [QSeg d (s_ulen s)]))
        end
  end.

Definition act_GTC : sess exit :=
  do b <~ get;
  if has b SB_Vact then ret Spin
  else
    exec update take_all;
    match newspkt sizeof_spkt SPDU_GTA with
    | None => lose_break SC_CONGEST
    | Some s =>
        do r <~ spkt2sd fresh s false;
        if r =? NOTOK then ret Break
        else do b <~ get; indicate (SI_TOKEN ST_CONTROL (sb_owned b) (sb_owned b) no_data)
    end.

Definition act_GTA : sess exit := exec update (lower SB_GTC); ret Spin.

(** [if (!(sb -> sb_flags & SB_Vsc)) sb -> sb_V_A = sb -> sb_V_M] *)
Definition confirm_received (b : ssapblk) : ssapblk := if has b SB_Vsc then b else set_V (sb_V_M b) (sb_V_M b) (sb_V_R b) b.

Definition act_AE (s : ssapkt) : sess exit :=
  exec update (fun b => raise (Z.lor SB_MAA SB_AE) (lower SB_Vnextact (next_ssn (confirm_received b))));
  indicate (SI_ACTIVITY SV_ENDIND None None None (s_num s N_map_serial) 0 (copySPKTdata s)).

Definition act_MAP (s : ssapkt) : sess exit :=
  do b <~ get;
  if negb (sb_V_M b =? s_num s N_map_serial) then ret Spin
  else if negb (is_set s SMASK_MAP_SYNC) || negb (meets (s_num s N_map_sync) MAP_SYNC_NOEND) then act_AE s
  else
    exec update (fun b => next_ssn (confirm_received b));
    if has b (Z.lor SB_ED SB_ERACK) then ret Spin
    else
      exec update (fun b => raise SB_MAA (if needs b SR_ACTIVITY then raise SB_Vnextact b else b));
      indicate (SI_SYNC SN_MAJORIND 0 (s_num s N_map_serial) 0 (copySPKTdata s)).

Definition act_MAA (s : ssapkt) : sess exit :=
  do b <~ get;
  if negb (sb_V_M b =? s_num s N_maa_serial + 1) then ret Spin
  else
    let ssn := s_num s N_maa_serial in
    exec update (fun b => lower SB_MAP (confirm_major b));
    if has b SB_AE then
      exec update (lower SB_AE);
      indicate (SI_ACTIVITY SV_ENDCNF None None None ssn 0 (copySPKTdata s))
    else indicate (SI_SYNC SN_MAJORCNF 0 ssn 0 (copySPKTdata s)).

Definition act_MIP (s : ssapkt) : sess exit :=
  exec update (fun b => next_ssn (if has b SB_Vsc then b else raise SB_Vsc (confirm_received b)));
  do b <~ get;
  if has b (Z.lor SB_ED SB_ERACK) then ret Spin
  else
    indicate (SI_SYNC SN_MINORIND
      (if is_set s SMASK_MIP_SYNC && meets (s_num s N_mip_sync) MIP_SYNC_NOEXPL then SYNC_NOCONFIRM else SYNC_CONFIRM)
      (s_num s N_mip_serial) 0 (copySPKTdata s)).

Definition act_MIA (s : ssapkt) : sess exit :=
  do b <~ get;
  let ssn := s_num s N_mia_serial in
  if has b SB_Vsc || (sb_V_A b >? ssn) || (ssn >=? sb_V_M b) then ret Spin
  else
    exec update (fun b => set_V ssn (sb_V_M b) (sb_V_R b) b);
    indicate (SI_SYNC SN_MINORCNF 0 ssn 0 (copySPKTdata s)).

(** The settings of an RS without any: each token assigns the word. *)
Definition default_settings (b : ssapblk) : Z :=
  dotokens (fun requires shift bit v =>
    if needs b requires then
      if owns b bit && has b SB_INIT then Z.shiftl ST_INIT_VALUE shift else Z.shiftl ST_RESP_VALUE shift
    else v) 0.

Definition act_RS (s : ssapkt) : sess exit :=
  do b <~ get;
  let type := s_num s N_rs_type in
  let ssn := s_num s N_rs_serial in
  if (type =? SYNC_RESTART) && (sb_V_R b >? ssn) then ret Spin
  else
    exec update (fun b =>
      let b := set_rs type ssn (raise SB_RA (lower SB_RS b)) in
      set_rsettings (if is_set s SMASK_RS_SET then s_num s N_rs_settings else default_settings b) b);
    do b <~ get;
    indicate (SI_SYNC SN_RESETIND (sb_rs b) (sb_rsn b) (sb_rsettings b) (copySPKTdata s)).

(** The tokens after an RA: as [sb_rsettings] says or, where it leaves the
    choice to the called user, as [s_ra_settings] does. The labels of that
    inner switch are not shifted. *)
Definition settle_received (settings : Z) (b : ssapblk) : ssapblk :=
  dotokens (fun requires shift bit b =>
    if needs b requires then
      let v := setting (sb_rsettings b) shift in
      if v =? Z.shiftl ST_CALL_VALUE shift then
        let w := setting settings shift in
        if w =? ST_INIT_VALUE then assign_token true bit b
        else if w =? ST_RESP_VALUE then assign_token false bit b
        else b
      else if v =? Z.shiftl ST_INIT_VALUE shift then assign_token true bit b
      else if v =? Z.shiftl ST_RESP_VALUE shift then assign_token false bit b
      else b
    else b) b.

Definition act_RA (s : ssapkt) : sess exit :=
  exec update (fun b =>
    let b := lower SB_RS b in
    let ssn := s_num s N_ra_serial in
    let b := set_V ssn ssn (if sb_rs b =? SYNC_RESTART then sb_V_R b else 0) b in
    let b := if is_set s SMASK_RA_SET then set_rsettings (s_num s N_ra_settings) b else b in
    settle_received (s_num s N_ra_settings) b);
  do b <~ get;
  indicate (SI_SYNC SN_RESETCNF 0 (sb_V_M b) (sb_rsettings b) (copySPKTdata s)).

Definition act_PR (s : ssapkt) : sess exit :=
  let type := s_num s N_pr_type in
  exec (if type =? PR_MAA then update (set_pr SPDU_MAA)
        else if type =? PR_RS then update (fun b => set_pr SPDU_RS (lower (Z.lor SB_ED SB_ERACK) b))
        else if type =? PR_RA then update (set_pr SPDU_RA)
        else if type =? PR_AB then update (set_pr SPDU_AB)
        else ret tt);
  ret Spin.

Definition act_ER : sess exit :=
  exec update (raise SB_ERACK); indicate (SI_REPORT false SP_PROTOCOL no_data).

Definition act_ED (s : ssapkt) : sess exit :=
  exec update (fun b => if owns b ST_DAT_TOKEN then raise SB_EDACK b else b);
  indicate (SI_REPORT true (s_num s N_ed_reason) (copySPKTdata s)).

Definition act_AS (s : ssapkt) : sess exit :=
  do b <~ get;
  if has b SB_Vact then ret Spin
  else
    exec update (fun b => raise SB_Vact (set_V 1 1 1 b));
    indicate (SI_ACTIVITY SV_START (Some (s_arr s A_as_id)) None None 0 0 (copySPKTdata s)).

Definition act_AR (s : ssapkt) : sess exit :=
  do b <~ get;
  if has b SB_Vact then ret Spin
  else
    let ssn := s_num s N_ar_serial in
    exec update (fun b => raise SB_Vact (set_V (ssn + 1) (ssn + 1) 1 b));
    indicate (SI_ACTIVITY SV_RESUME (Some (s_arr s A_ar_id)) (Some (s_arr s A_ar_oid))
      (if is_set s SMASK_AR_REF then Some (Ref (s_arr s A_ar_calling) (s_arr s A_ar_comm) (s_arr s A_ar_addt) (s_arr s A_ar_called)) else None)
      ssn 0 (copySPKTdata s)).

(** AD, and AI at [spdu_ai]; [s_ai_reason] and [s_ad_reason] are the first
    octet of the union. *)
Definition act_AD (s : ssapkt) : sess exit :=
  do b <~ get;
  if negb (has b SB_Vact) then ret Spin
  else
    exec update (fun b => set_rs SYNC_INTR (sb_rsn b) (raise SB_AIA (lower (Z.lor SB_RS SB_RA) b)));
    indicate (if s_code s =? SPDU_AI then SI_ACTIVITY SV_INTRIND None None None 0 (s_num s N_ai_reason) no_data
              else SI_ACTIVITY SV_DISCIND None None None 0 (s_num s N_ad_reason) no_data).

Definition act_ADA (s : ssapkt) : sess exit :=
  do b <~ get;
  if negb (has b SB_Vact) then ret Spin
  else
    exec update (fun b => take_all (lower (Z.lor SB_AI SB_Vact) b));
    indicate (SI_ACTIVITY (if s_code s =? SPDU_AIA then SV_INTRCNF else SV_DISCCNF) None None None 0 0 no_data).

Definition act_FN (s : ssapkt) : sess exit :=
  exec update (raise SB_FINN); indicate (SI_FINISH (copySPKTdata s)).

Definition act_AB (s : ssapkt) : sess exit :=
  exec update (lower exception); exec set_si (abort_info s); ret Break.

Definition act (k : packet) : sess exit :=
  let s := p_spkt k in
  let code := s_code s in
  if code =? SPDU_PT then act_PT s
  else if code =? SPDU_GT then if is_set s SMASK_SPDU_GT then act_GT s else act_DT k
  else if code =? SPDU_TD then act_DT k
  else if code =? SPDU_EX then act_EX k
  else if one_of code [SPDU_CD; SPDU_CDA] then act_CD s
  else if code =? SPDU_GTC then act_GTC
  else if code =? SPDU_GTA then do b <~ get; if has b SB_GTC then act_GTA else ret Spin
  else if code =? SPDU_MAP then act_MAP s
  else if code =? SPDU_MAA then act_MAA s
  else if code =? SPDU_MIP then act_MIP s
  else if code =? SPDU_MIA then act_MIA s
  else if code =? SPDU_RS then act_RS s
  else if code =? SPDU_RA then act_RA s
  else if code =? SPDU_PR then act_PR s
  else if code =? SPDU_ER then act_ER
  else if code =? SPDU_ED then act_ED s
  else if code =? SPDU_AS then act_AS s
  else if code =? SPDU_AR then act_AR s
  else if code =? SPDU_AD then act_AD s
  else if code =? SPDU_AA then if is_set s SMASK_SPDU_AA then ret Spin else act_ADA s
  else if code =? SPDU_ADA then act_ADA s
  else if code =? SPDU_FN then act_FN s
  else if code =? SPDU_AB then if is_set s SMASK_SPDU_AB then act_AB s else act_AD s
  else lose_break SC_PROTOCOL.

(** ** The loop *)

Definition read_step (k : packet) : sess exit :=
  let s := p_spkt k in
  andthen (filter_flow s)
    (andthen (filter_collision s)
      (andthen (filter_exception s)
        (andthen (filter_segment s) (andthen (filter_version s) (andthen (filter_unit s) (act k)))))).

(** After the loop, and at [out]. *)
Definition read_lost (out : bool) : sess (Z * SSAPdata) :=
  do si <~ get_si;
  if negb out && (sa_reason si =? SC_TIMER) then ret (NOTOK, no_ssdu)
  else exec freesblk ses_dn_timer true; ret (NOTOK, no_ssdu).

(** [tx] is the TSDU of an asynchronous call; the result and the data. *)
Fixpoint spin_loop (fuel : nat) (async : bool) (tx : option tsdu) : sess (Z * SSAPdata) :=
  match fuel with
  | O => undefined
  | S fuel =>
      do k <~ sb2spkt sizeof_spkt fresh ses_ab_timer ses_rf_timer tx;
      match k with
      | None => read_lost false
      | Some k =>
          do e <~ read_step k;
          match e with
          | Return r sx => ret (r, sx)
          | Break => read_lost false
          | Out => read_lost true
          | Spin =>
              do b <~ get;
              if negb async || (match sb_spdu b with Some _ => true | None => false end) then spin_loop fuel async None
              else exec set_si SI_DATA; ret (DONE, no_ssdu)
          end
      end
  end.

(** What is left to read: two packets of each TSDU, and those kept. *)
Definition unread (tx : option tsdu) (st : session) : nat :=
  (2 * (length (tp_reads (ses_tp st)) + match tx with Some _ => 1 | None => 0 end) +
   (match sb_spdu (ses_sb st) with Some _ => 1 | None => 0 end) + (match sb_xspdu (ses_sb st) with Some _ => 1 | None => 0 end))%nat.

Definition SReadRequestAux (async : bool) (tx : option tsdu) : sess (Z * SSAPdata) := fun st =>
  (exec set_si SI_DATA; spin_loop (S (unread tx st)) async tx) st.

Definition SReadRequest : sess (Z * option SSAPdata) :=
  with_sd (fun b => [(negb (has b SB_CONN), Lose SC_PARAMETER); (has b SB_FINN, Lose SC_OPERATION)])
    (do ' (r, sx) <~ SReadRequestAux false None; ret (r, Some sx)).

(** ** TDATAser and TDISCser

    [user] is the function the user gave for each kind of event, which may
    not use the session; the events in the order it is told of them. *)
Inductive event : Type :=
| Data (sx : SSAPdata)
| Indication (si : SSAPindication)
| Aborted (si : SSAPindication).

Fixpoint TDATAser (fuel : nat) (tx : option tsdu) (told : list event) : sess (list event) := fun st =>
  if ses_gone st then Val (told, st)
  else
    match fuel with
    | O => UB
    | S fuel =>
        (do ' (r, sx) <~ SReadRequestAux true tx;
         do si <~ get_si;
         if r =? NOTOK then ret (told ++ [Aborted si])
         else
           let told := told ++ (if r =? OK then [Data sx] else match si with SI_DATA => [] | _ => [Indication si] end) in
           do b <~ get;
           match sb_spdu b with None => ret told | Some _ => TDATAser fuel None told end) st
    end.

Definition TDISCser (reason : Z) : sess (list event) := fun st =>
  if ses_gone st then Val ([], st)
  else (exec ts2sslose reason; exec freesblk ses_dn_timer false; do si <~ get_si; ret [Aborted si]) st.
End Reader.
