(* ===== verification/Swrite.v ===== *)
(** * ssap: what one session writes is what the other reads

    Packets that [SWriteRequestAux] and [spkt2sd] write, through the codec of
    SPDUs and the transport service, to [sb2spkt] of the peer. *)

From S2P Require Import Prelude Conv Convert PElement PStream Qbuf Tpkt Tpkt2fd Tcp Tp0 Spkt Spkt2tsdu Tsdu2spkt Spdu Ssap.
Open Scope Z_scope.
Open Scope c_scope.
Open Scope ses_scope.

Create HintDb spkt.

(** ** Packets in their range *)

Lemma data_fits_none n : data_fits None n <-> n = 0.
Proof. reflexivity. Qed.

Lemma ok_new code : spkt_ok (new_spkt code).
Proof.
  split.
  - intros f; destruct f; cbn; lia.
  - intros a; destruct a; (split; [vm_compute; split; discriminate | split; [reflexivity | apply forallb_bytes; reflexivity]]).
  - split; [reflexivity | apply forallb_bytes; reflexivity].
  - split; [reflexivity | discriminate].
  - reflexivity.
Qed.

Lemma ok_Set s f : spkt_ok s -> spkt_ok (Set_ s f).
Proof. intros [N A R D U]; split; assumption. Qed.

Lemma ok_set_num s f v : spkt_ok s -> 0 <= v < num_bound f -> spkt_ok (set_num s f v).
Proof. intros [N A R D U] V; split; try assumption; intros g; cbn [s_num set_num]; destruct (snum_eq_dec f g) as [<-|]; auto. Qed.

Lemma ok_set_arr s a v : spkt_ok s -> counted_ok a v -> spkt_ok (set_arr s a v).
Proof. intros [N A R D U] V; split; try assumption; intros b; cbn [s_arr set_arr]; destruct (sarr_eq_dec a b) as [<-|]; auto. Qed.

Lemma ok_set_udata s d n : spkt_ok s -> data_fits d n -> spkt_ok (set_udata s d n).
Proof. intros [N A R D U] V; split; assumption. Qed.

Lemma ok_put_data s d n : spkt_ok s -> (0 < n -> data_fits d n) -> spkt_ok (put_data d n s).
Proof.
  intros O D; unfold put_data; rewrite Z.gtb_ltb; destruct (Z.ltb_spec 0 n); apply ok_set_udata; auto using ok_Set; reflexivity.
Qed.

#[export] Hint Resolve ok_new ok_Set ok_set_num ok_set_arr ok_set_udata ok_put_data : spkt.

(** The reference encoding of a packet. *)
Definition enc (s : ssapkt) : list Z := enc_spdu (s_code s) (spdu_items s).

(** ** The transport service *)

(** Every request is granted. *)
Definition granting (t : transport) : Prop := Forall (eq None) (tp_answers t).

(** A session with another block, indication, transport service. *)
Definition at_sb (b : ssapblk) (st : session) : session := Ses b (ses_gone st) (ses_si st) (ses_tp st) (ses_buffer st).
Definition at_si (si : SSAPindication) (st : session) : session := Ses (ses_sb st) (ses_gone st) si (ses_tp st) (ses_buffer st).
Definition at_tp (t : transport) (st : session) : session := Ses (ses_sb st) (ses_gone st) (ses_si st) t (ses_buffer st).
Definition at_buffer (x : option (list Z)) (st : session) : session := Ses (ses_sb st) (ses_gone st) (ses_si st) (ses_tp st) x.

Definition add_sent (l : list (bool * list Z)) (st : session) : session :=
  let t := ses_tp st in at_tp (Tp (tp_sent t ++ l) (skipn (length l) (tp_answers t)) (tp_reads t) (tp_up t)) st.

Definition with_reads (l : list (Z + tsdu)) (st : session) : session :=
  let t := ses_tp st in at_tp (Tp (tp_sent t) (tp_answers t) l (tp_up t)) st.

(** ** The steps of a computation *)

Lemma bind_get {A} (k : ssapblk -> sess A) st : ses_gone st = false -> bind get k st = k (ses_sb st) st.
Proof. intros Al; unfold bind, get; rewrite Al; reflexivity. Qed.

Lemma bind_put {A} b (k : unit -> sess A) st : ses_gone st = false -> bind (put b) k st = k tt (at_sb b st).
Proof. intros Al; unfold bind, put, at_sb; rewrite Al; reflexivity. Qed.

Lemma bind_update {A} f (k : unit -> sess A) st : ses_gone st = false -> bind (update f) k st = k tt (at_sb (f (ses_sb st)) st).
Proof. intros Al; unfold bind, update, put, at_sb; rewrite Al; reflexivity. Qed.

Lemma bind_lift {A B} (a : A) (k : A -> sess B) st : bind (lift (Val a)) k st = k a st.
Proof. reflexivity. Qed.

Lemma bind_set_si {A} si (k : unit -> sess A) st : bind (set_si si) k st = k tt (at_si si st).
Proof. reflexivity. Qed.

Lemma bind_ret {A B} (a : A) (k : A -> sess B) st : bind (ret a) k st = k a st.
Proof. reflexivity. Qed.

Lemma granting_skipn n t : granting t -> Forall (eq None) (skipn n (tp_answers t)).
Proof. intros G; unfold granting in G; rewrite <- (firstn_skipn n) in G; apply Forall_app in G; tauto. Qed.

Lemma TRequest_granted expd o st : granting (ses_tp st) -> TRequest expd o st = Val (None, add_sent [(expd, o)] st).
Proof.
  intros G; unfold TRequest, get_tp, bind, set_tp, ret, add_sent, at_tp; cbn [length]; unfold granting in G.
  destruct (tp_answers (ses_tp st)) as [|a l] eqn:E; [reflexivity|]; pose proof (Forall_inv G) as <-; reflexivity.
Qed.

Lemma send_granted o st : granting (ses_tp st) -> send o st = Val (OK, add_sent [(false, o)] st).
Proof. intros G; unfold send, bind; rewrite TRequest_granted by exact G; reflexivity. Qed.

Lemma add_sent_nil st : add_sent [] st = st.
Proof. destruct st as [b g i [s a r u] x]; unfold add_sent, at_tp; cbn; rewrite app_nil_r; reflexivity. Qed.

Lemma add_sent_twice l m st : add_sent m (add_sent l st) = add_sent (l ++ m) st.
Proof.
  unfold add_sent, at_tp; cbn [ses_sb ses_gone ses_si ses_tp ses_buffer tp_sent tp_answers tp_reads tp_up].
  rewrite app_assoc, skipn_skipn, length_app, (Nat.add_comm (length m)); reflexivity.
Qed.

Lemma add_sent_granting l st : granting (ses_tp st) -> granting (ses_tp (add_sent l st)).
Proof. intros G; apply granting_skipn, G. Qed.
#[export] Hint Resolve add_sent_granting : spkt.

Section Codec.
Context `{Allocator} (sizeof_spkt : Z) (fresh : Z -> list Z).
Hypothesis Mem : memory_ok.
Hypothesis Fresh : forall n, 0 <= n -> zlen (fresh n) = n.
Variables ses_ab_timer ses_rf_timer : Z.

Lemma newspkt_ok code : is_byte code -> newspkt sizeof_spkt code = Some (new_spkt code).
Proof. intros B; unfold newspkt; rewrite Mem, int2u8_Some by exact B; reflexivity. Qed.

(** ** Writing *)

Lemma spkt_octets_ok s : spkt_ok s -> complete s = true -> in_room fresh s -> spkt_octets fresh s = Val (inr (enc s)).
Proof.
  intros O C R; destruct (written _ fresh s Mem Fresh O C R) as (top & W & T); unfold spkt_octets; rewrite W; cbn [cbind].
  change (OK =? NOTOK) with false; cbn match; rewrite T; reflexivity.
Qed.

(** A packet of its own, that is no EX. *)
Lemma spkt2sd_ok s (expd : bool) st : let s1 := if expd then Set_ s SMASK_SPDU_EXPD else s in
  spkt_ok s1 -> complete s1 = true -> in_room fresh s1 -> (s_code s =? SPDU_EX) = false -> granting (ses_tp st) ->
  spkt2sd fresh s expd st = Val (OK, add_sent [(expd && negb (zlen (enc s1) >? TX_SIZE), enc s1)] st).
Proof.
  intros s1 O C R X G; destruct (written _ fresh _ Mem Fresh O C R) as (top & W & T); change (enc_spdu (s_code s1) (spdu_items s1)) with (enc s1) in *.
  unfold spkt2sd, lift, bind; fold s1; rewrite W; change (OK =? NOTOK) with false; cbn match.
  unfold with_user_data; cbn [s_code set_s_li set_s_errno]; replace (s_code s1) with (s_code s) by (subst s1; destruct expd; reflexivity).
  rewrite X, T; cbn match; rewrite TRequest_granted by exact G; reflexivity.
Qed.

(** ** Reading *)

(** A session that can read: its block is there, and so is the buffer. *)
Definition reading (st : session) : Prop := ses_gone st = false /\ buffer_ok (ses_buffer st).

Lemma read_spdu_ok s cat0 qb rest len st : spkt_ok s -> complete s = true -> zlen (enc_items (spdu_items s)) < 65536 -> readable s cat0 ->
  buffer_ok (ses_buffer st) -> Forall seg_ok qb -> ring_octets qb = enc s ++ rest -> zlen (enc s) <= len ->
  exists s' qb' x, read_spdu sizeof_spkt fresh qb len cat0 st = Val ((Some s', zlen (enc s), qb'), at_buffer x st) /\
    accepted (Some s') = inr s' /\ same_spdu s s' /\ Forall seg_ok qb' /\ ring_octets qb' = rest /\ buffer_ok x.
Proof.
  intros O C L Re B Q E Le; destruct (read_back _ fresh sizeof_spkt s cat0 Mem Fresh O C L Re qb _ rest len Q B E Le) as (s' & qb' & x & R & Ac & Sm & Q' & E' & B').
  exists s', qb', x; unfold read_spdu; rewrite R; split; [reflexivity|]; split; [|auto].
  unfold accepted; rewrite Ac; reflexivity.
Qed.

(** The same for a list of parameters, of which the packet is known. *)
Lemma read_spdu_items code l s cat0 qb rest len st : spdu_ok code l -> apply_items code l (spdu_start code (zlen (enc_items l)) cat0) = Some s ->
  mandatory s = true -> s_errno s = SC_ACCEPT ->
  buffer_ok (ses_buffer st) -> Forall seg_ok qb -> ring_octets qb = enc_spdu code l ++ rest -> zlen (enc_spdu code l) <= len ->
  exists qb' x, read_spdu sizeof_spkt fresh qb len cat0 st = Val ((Some s, zlen (enc_spdu code l), qb'), at_buffer x st) /\
    Forall seg_ok qb' /\ ring_octets qb' = rest /\ buffer_ok x.
Proof.
  intros So A M Ac B Q E Le; destruct (reads_spdu fresh Mem Fresh sizeof_spkt qb _ len cat0 code l rest s So A Q B E Le) as (qb' & x & R & Q' & E' & B').
  exists qb', x; unfold read_spdu; rewrite R, M; auto.
Qed.
(** ** A category 0 SPDU and another one *)

(** What [SWriteRequestAux] writes. *)
Definition write_codes : list Z :=
  [SPDU_MAP; SPDU_MAA; SPDU_MIP; SPDU_MIA; SPDU_RS; SPDU_RA; SPDU_AS; SPDU_AR; SPDU_AI; SPDU_AIA; SPDU_AD; SPDU_ADA; SPDU_ED; SPDU_CD; SPDU_CDA].

Definition cat0_code (code : Z) : Z := if one_of code [SPDU_MAP; SPDU_MIP; SPDU_RS; SPDU_AS; SPDU_AR; SPDU_AD; SPDU_AI; SPDU_CD] then SPDU_GT else SPDU_PT.

(** The PR SPDU on the expedited flow. *)
Definition announces (b : ssapblk) (code : Z) : list (bool * list Z) :=
  match (if has b SB_EXPD then prepare_type code else None) with
  | Some type => [(true, [SPDU_PR; 3; PI_PREPARE; 1; type])]
  | None => []
  end.

(** What is sent for the packet [s]. *)
Definition written_as (b : ssapblk) (s : ssapkt) : list (bool * list Z) :=
  announces b (s_code s) ++ [(false, [cat0_code (s_code s); 0] ++ enc s)].

Lemma cat0_ok code : In code write_codes -> exists s, cat0_spkt sizeof_spkt code = Some s /\ spkt_octets fresh s = Val (inr [cat0_code code; 0]).
Proof.
  intros I; unfold cat0_spkt, cat0_code; destruct (one_of code _).
  - rewrite newspkt_ok by (split; [discriminate | reflexivity]); eexists; split; [reflexivity|].
    apply (spkt_octets_ok (Set_ (new_spkt SPDU_GT) SMASK_SPDU_GT)); [auto with spkt | reflexivity | split; [discriminate|]; split; [reflexivity | left; discriminate]].
  - rewrite newspkt_ok by (split; [discriminate | reflexivity]); eexists; split; [reflexivity|].
    apply (spkt_octets_ok (new_spkt SPDU_PT)); [auto with spkt | reflexivity | split; [discriminate|]; split; [reflexivity | left; discriminate]].
Qed.

Lemma prepare_ok code type st : prepare_type code = Some type -> granting (ses_tp st) ->
  exists p, pr_spkt sizeof_spkt type = Some p /\ spkt2sd fresh p true st = Val (OK, add_sent [(true, [SPDU_PR; 3; PI_PREPARE; 1; type])] st).
Proof.
  intros P G; unfold pr_spkt; rewrite newspkt_ok by (split; [discriminate | reflexivity]); eexists; split; [reflexivity|].
  assert (T : type = PR_MAA \/ type = PR_RS \/ type = PR_RA).
  { unfold prepare_type in P; repeat match type of P with (if ?c then _ else _) = _ => destruct c end; try discriminate P; injection P as <-; auto. }
  rewrite spkt2sd_ok; [| | | | reflexivity | exact G]; destruct T as [-> | [-> | ->]]; try reflexivity.
  all: try (apply ok_Set, ok_set_num; [apply ok_Set, ok_new | split; [discriminate | reflexivity]]).
  all: split; [discriminate|]; split; [reflexivity | left; discriminate].
Qed.

Lemma SWriteRequestAux_ok code data cc type ssn settings id oid ref st s0 : let s := put_data data cc s0 in
  In code write_codes -> s_code s = code -> write_fields (ses_sb st) code type ssn settings id oid ref (new_spkt code) = Val (Some s0) ->
  spkt_ok s -> complete s = true -> in_room fresh s -> ses_gone st = false -> granting (ses_tp st) ->
  SWriteRequestAux sizeof_spkt fresh code data cc type ssn settings id oid ref st = Val (OK, add_sent (written_as (ses_sb st) s) st).
Proof.
  intros s I Sc W O C R Al G; destruct (cat0_ok code I) as (p & Cp & Op); unfold written_as; rewrite Sc.
  assert (Ib : is_byte code) by (repeat (destruct I as [<- | I]; [split; [discriminate | reflexivity]|]); destruct I).
  assert (Pr : exists st1, (match (if has (ses_sb st) SB_EXPD then prepare_type code else None) with
     | Some type => match pr_spkt sizeof_spkt type with None => ssaplose SC_CONGEST | Some p => spkt2sd fresh p true end
     | None => ret OK end) st = Val (OK, st1) /\ st1 = add_sent (announces (ses_sb st) code) st).
  { eexists; split; [|reflexivity]; unfold announces; destruct (if has _ _ then _ else _) as [t|] eqn:Ep.
    - destruct (has (ses_sb st) SB_EXPD); [|discriminate]; destruct (prepare_ok code t st Ep G) as (q & -> & ->); reflexivity.
    - rewrite add_sent_nil; reflexivity. }
  destruct Pr as (st1 & Pr & E1); unfold SWriteRequestAux, bind, get; rewrite Al, Pr; change (OK =? NOTOK) with false; cbn match.
  rewrite Cp; unfold lift; rewrite Op, newspkt_ok by exact Ib; cbn match; rewrite W; fold s; rewrite (spkt_octets_ok s O C R).
  rewrite E1, send_granted by auto with spkt; rewrite add_sent_twice; reflexivity.
Qed.

(** The queue of a TSDU that holds some octets. *)
Definition carries (tx : tsdu) (expd : bool) (octets : list Z) : Prop :=
  tx_expedited tx = expd /\ Forall seg_ok (tx_qbuf tx) /\ ring_octets (tx_qbuf tx) = octets /\ tx_cc tx = zlen octets.

(** Nothing was kept from before. *)
Definition nothing_kept (b : ssapblk) : Prop := (if sb_pr b =? SPDU_PR then sb_xspdu b else None) = None /\ sb_spdu b = None.

Lemma sb2spkt_reads tx b st : ses_gone st = false -> nothing_kept b ->
  sb2spkt sizeof_spkt fresh ses_ab_timer ses_rf_timer (Some tx) (at_sb b st) = sb2spkt_first sizeof_spkt fresh ses_ab_timer ses_rf_timer tx (at_sb b st).
Proof. intros Al (X & S); unfold sb2spkt, bind, get; cbn [ses_gone at_sb ses_sb]; rewrite Al, X, S; reflexivity. Qed.

Lemma sb2spkt_waits tx l b st : ses_gone st = false -> nothing_kept b -> tp_reads (ses_tp st) = inr tx :: l ->
  sb2spkt sizeof_spkt fresh ses_ab_timer ses_rf_timer None (at_sb b st) =
  sb2spkt_first sizeof_spkt fresh ses_ab_timer ses_rf_timer tx (with_reads l (at_sb b st)).
Proof.
  intros Al (X & S) E; destruct st as [b0 g i t x]; cbn [ses_gone ses_tp] in Al, E; subst g.
  unfold sb2spkt, bind, get, at_sb; cbn [ses_gone ses_sb ses_tp ses_si ses_buffer]; rewrite X, S.
  unfold TReadRequest, bind, get_tp; cbn [ses_tp]; rewrite E; reflexivity.
Qed.

Lemma set_spdu_back b p : sb_spdu b = None -> set_spdu None (set_spdu p b) = b.
Proof. destruct b; cbn; intros ->; reflexivity. Qed.

(** The category 0 SPDU has nothing to say and is not kept. *)
Lemma sb2spkt_pair tx s b st : reading st -> sb_spdu b = None -> In (s_code s) write_codes ->
  spkt_ok s -> complete s = true -> zlen (enc_items (spdu_items s)) < 65536 -> readable s 0 ->
  carries tx false ([cat0_code (s_code s); 0] ++ enc s) ->
  exists s' x, sb2spkt_first sizeof_spkt fresh ses_ab_timer ses_rf_timer tx (at_sb b st) = Val (Some (Pkt s' [] 0), at_buffer x (at_sb b st)) /\
    same_spdu s s' /\ buffer_ok x.
Proof.
  intros (Al & B) Sb I O C L Re (Ex & Q & E & Cc); pose proof (zlen_nonneg (enc s)) as Z0; set (c0 := cat0_code (s_code s)) in *.
  assert (C0 : c0 = SPDU_GT \/ c0 = SPDU_PT) by (unfold c0, cat0_code; destruct (one_of _ _); auto).
  set (p := spdu_start c0 0 1); assert (P : mandatory p = true /\ s_errno p = SC_ACCEPT /\ s_code p = c0) by (subst p; destruct C0 as [-> | ->]; repeat split).
  destruct P as (Pm & Pa & Pc); unfold sb2spkt_first, bind.
  destruct (read_spdu_items c0 [] p 1 (tx_qbuf tx) (enc s) (tx_cc tx) (at_sb b st)) as (q1 & x1 & -> & Q1 & E1 & B1); auto.
  { destruct C0 as [-> | ->]; (split; [split; [discriminate | reflexivity]|]; split; [discriminate|]; split; [constructor | reflexivity]). }
  { rewrite Cc, zlen_app; change (zlen (enc_spdu c0 [])) with 2; change (zlen [c0; 0]) with 2; lia. }
  change (zlen (enc_spdu c0 [])) with 2; unfold accepted; rewrite Pa; change (SC_ACCEPT =? SC_ACCEPT) with true; cbn match.
  unfold is_expd; rewrite Ex, Pc; replace (one_of c0 [SPDU_GT; SPDU_PT]) with true by (destruct C0 as [-> | ->]; reflexivity).
  assert (N0 : 2 <= zlen (enc s)).
  { unfold enc, enc_spdu, enc_li; rewrite zlen_cons, zlen_app; pose proof (zlen_nonneg (enc_items (spdu_items s))).
    destruct (_ <? 255); rewrite ?zlen_cons, zlen_nil; lia. }
  rewrite Cc, zlen_app; change (zlen [c0; 0]) with 2; rewrite (proj2 (Z.leb_gt _ 0)) by lia.
  unfold sb2spkt_second, bind, update, put; cbn [ses_gone ses_sb at_buffer at_sb ses_si ses_tp ses_buffer]; rewrite Al.
  set (st2 := Ses (set_spdu (Some (Pkt p [] 0)) b) false (ses_si st) (ses_tp st) x1).
  destruct (read_spdu_ok s 0 q1 [] (2 + zlen (enc s) - 2) st2) as (s' & q2 & x2 & -> & -> & Sm & Q2 & E2 & B2); auto.
  { rewrite app_nil_r; exact E1. }
  { lia. }
  exists s', x2; split; [|auto]; pose proof (same_code _ _ Sm) as Sc; unfold is_expd; rewrite Ex.
  assert (K : keeps_cat0 p s' = false).
  { unfold keeps_cat0; rewrite Pc; subst p; destruct C0 as [-> | ->]; cbn; apply andb_false_r. }
  assert (F : (s_code p =? SPDU_GT) && (s_code s' =? SPDU_DT) = false /\
    one_of (s_code s') (if s_code p =? SPDU_GT then after_GT else after_PT) = true).
  { rewrite Sc, Pc; unfold c0, cat0_code; repeat (destruct I as [<- | I]; [split; reflexivity|]); destruct I. }
  destruct F as (-> & ->); rewrite (proj2 (Z.leb_le _ 0)) by lia; rewrite K.
  cbn [at_buffer ses_sb ses_gone st2]; unfold ret; rewrite set_spdu_back by exact Sb; rewrite <- Al; reflexivity.
Qed.
End Codec.

(** ** Examples *)

Definition ex_blk (flags owned req us : Z) : ssapblk := SBlk 1 flags None 0 0 0 0 0 0 SPDU_PR None None [] 0 0 us us owned req.
Definition ex_session (b : ssapblk) (reads : list (Z + tsdu)) : session := Ses b false SI_DATA (Tp [] [] reads true) None.

(** A queue of one buffer, and the TSDUs of some octets. *)
Definition ex_tx (o : list Z) : tsdu := Tsdu false [QSeg o (zlen o)] (zlen o).

Lemma ex_carries o : bytes o -> carries (ex_tx o) false o.
Proof.
  intros B; pose proof (zlen_nonneg o); split; [reflexivity|]; cbn [tx_qbuf ex_tx tx_cc].
  assert (E : seg_octets (QSeg o (zlen o)) = o) by (unfold seg_octets; cbn [qb_data seg_len]; apply ztake_all; lia).
  split; [constructor; [|constructor]; split; [cbn [qb_data seg_len]; lia | rewrite E; exact B]|].
  split; [unfold ring_octets; cbn [map concat]; rewrite E, app_nil_r; reflexivity | reflexivity].
Qed.

Lemma zeros_fresh n : 0 <= n -> zlen (zeros n) = n.
Proof. intros N; unfold zlen, zeros; rewrite repeat_length; apply Z2Nat.id, N. Qed.

(** A TSDU with the octets, and a session that can read it. *)
Definition with_tsdu (tx : tsdu) (st : session) : session := with_reads (inr tx :: tp_reads (ses_tp st)) st.

(** C7. What one session writes is what the other reads. [SWriteRequestAux]
    succeeds for every SPDU whose fields are in their range, announces it on
    the expedited flow where it has to, and sends it after a category 0 SPDU;
    the session is not changed. However the TSDU is cut into buffers,
    [sb2spkt] of a session that keeps nothing from before finds a packet with
    the same code, the same parameters and the same user data; it keeps
    nothing of the category 0 SPDU and does not change the block either. *)
Theorem SWriteRequestAux_sb2spkt : forall (A : Allocator) sizeof_spkt fresh ab rf code data cc type ssn settings id oid ref st s0,
  memory_ok -> (forall n, 0 <= n -> zlen (fresh n) = n) -> let s := put_data data cc s0 in
  In code write_codes -> write_fields (ses_sb st) code type ssn settings id oid ref (new_spkt code) = Val (Some s0) -> s_code s = code ->
  spkt_ok s -> complete s = true -> in_room fresh s -> readable s 0 -> ses_gone st = false -> granting (ses_tp st) ->
  exists o, SWriteRequestAux sizeof_spkt fresh code data cc type ssn settings id oid ref st =
      Val (OK, add_sent (announces (ses_sb st) code ++ [(false, o)]) st) /\
    forall peer tx, reading peer -> nothing_kept (ses_sb peer) -> carries tx false o ->
    exists s' x, sb2spkt sizeof_spkt fresh ab rf None (with_tsdu tx peer) = Val (Some (Pkt s' [] 0), at_buffer x peer) /\ same_spdu s s'.
Proof.
  intros A z fresh ab rf code data cc type ssn settings id oid ref st s0 M F s I W Sc O C R Re Al G.
  eexists; split; [rewrite (SWriteRequestAux_ok z fresh M F code data cc type ssn settings id oid ref st s0 I Sc W O C R Al G); unfold written_as; fold s; rewrite Sc; reflexivity|].
  intros peer tx Rd Kp Ca; change (with_tsdu tx peer) with (at_sb (ses_sb peer) (with_tsdu tx peer)).
  rewrite (sb2spkt_waits z fresh ab rf tx (tp_reads (ses_tp peer)) (ses_sb peer) (with_tsdu tx peer) (proj1 Rd) Kp eq_refl).
  destruct (sb2spkt_pair z fresh M F ab rf tx s (ses_sb peer) (with_reads (tp_reads (ses_tp peer)) (with_tsdu tx peer)) Rd (proj2 Kp)) as (s' & x & E & Sm & _);
    [rewrite Sc; exact I | exact O | exact C | apply R | exact Re | rewrite Sc; exact Ca |].
  exists s', x; split; [|exact Sm]; change (with_reads ?l (at_sb ?b ?t)) with (at_sb b (with_reads l t)); rewrite E.
  destruct peer as [b g i [? ? ? ?] ?]; reflexivity.
Qed.

(** A MIP SPDU with serial number 42 and two octets of user data. *)
Definition ex_mip_tsdu : list Z := [1; 0; 49; 8; 42; 2; 52; 50; 193; 2; 7; 8].

Lemma SWriteRequestAux_sb2spkt_witness : exists s' x, let st := ex_session (ex_blk SB_CONN 5 9 0) [] in
  SWriteRequestAux (H := plenty) 800 zeros SPDU_MIP (Some [7; 8]) 2 SYNC_CONFIRM 42 0 None None None st = Val (OK, add_sent [(false, ex_mip_tsdu)] st) /\
  sb2spkt (H := plenty) 800 zeros 30 30 None (with_tsdu (ex_tx ex_mip_tsdu) st) = Val (Some (Pkt s' [] 0), at_buffer x st) /\
  s_code s' = SPDU_MIP /\ s_num s' N_mip_serial = 42 /\ user_octets s' = [7; 8].
Proof.
  set (st := ex_session (ex_blk SB_CONN 5 9 0) []).
  set (s0 := set_num (Set_ (new_spkt SPDU_MIP) SMASK_MIP_SERIAL) N_mip_serial 42).
  destruct (SWriteRequestAux_sb2spkt plenty 800 zeros 30 30 SPDU_MIP (Some [7; 8]) 2 SYNC_CONFIRM 42 0 None None None st s0) as (o & W & R).
  - intros n; reflexivity.
  - exact zeros_fresh.
  - cbn; tauto.
  - reflexivity.
  - reflexivity.
  - apply ok_put_data; [apply ok_set_num; [apply ok_Set, ok_new | split; [discriminate | reflexivity]]|].
    intros _; split; [split; [reflexivity | discriminate]|]; split; [discriminate | apply forallb_bytes; reflexivity].
  - reflexivity.
  - split; [vm_compute; discriminate|]; split; [reflexivity | left; vm_compute; discriminate].
  - split; try discriminate; intros f; destruct f; reflexivity.
  - reflexivity.
  - constructor.
  - assert (V : SWriteRequestAux (H := plenty) 800 zeros SPDU_MIP (Some [7; 8]) 2 SYNC_CONFIRM 42 0 None None None st = Val (OK, add_sent [(false, ex_mip_tsdu)] st))
      by (vm_compute; reflexivity).
    pose proof V as V'; rewrite W in V'; injection V' as ->.
    destruct (R st (ex_tx ex_mip_tsdu)) as (s' & x & E & Sm).
    + split; [reflexivity | exact I].
    + split; reflexivity.
    + apply ex_carries, forallb_bytes; reflexivity.
    + exists s', x; split; [exact V|]; split; [exact E|]; split; [exact (same_code _ _ Sm)|].
      split; [exact (proj2 (same_num _ _ Sm SMASK_MIP_SERIAL N_mip_serial (or_intror (or_introl eq_refl))) eq_refl) | exact (same_udata _ _ Sm eq_refl)].
Defined.
