(* ===== verification/Ssdu.v ===== *)
(** * ssap: the transfer of an SSDU

    [SDataRequestAux] cuts the vectors of the user into TSDUs, each with the
    enclosure that tells where the SSDU begins and ends; [SReadRequest] of
    the peer puts them together. *)

From S2P Require Import Prelude Conv Convert PElement PStream Qbuf Tpkt Tpkt2fd Tcp Tp0 Transfer Spkt Spkt2tsdu Tsdu2spkt Spdu Ssap Sreq Sread Swrite.
Open Scope Z_scope.
Open Scope c_scope.
Open Scope ses_scope.

(** ** The TSDUs of an SSDU *)

Definition encl (begin last : bool) : Z := Z.lor (if begin then ENCL_BEGIN else 0) (if last then ENCL_END else 0).

(** The enclosure, where segments have a size. *)
Definition ssdu_items (us : Z) (begin last : bool) : list sitem := if us =? 0 then [] else [Pi (PI_ENCLOSE, [encl begin last])].

Definition ssdu_tsdu (us code : Z) (begin last : bool) (d : list Z) : list Z :=
  (if code =? SPDU_DT then [SPDU_GT; 0] else []) ++ enc_spdu code (ssdu_items us begin last) ++ d.

Fixpoint ssdu_tsdus (us code : Z) (begin end_ : bool) (chunks : list (list Z)) : list (list Z) :=
  match chunks with
  | [] => []
  | d :: l => ssdu_tsdu us code begin (end_ && match l with [] => true | _ => false end) d :: ssdu_tsdus us code (begin && (us =? 0)) end_ l
  end.

(** The size of a TSDU: no limit, or room for data after the header. *)
Definition tsdu_size (us : Z) : Prop := us = 0 \/ SSDU_MAGIC < us <= 65535.

Definition data_code (code : Z) : Prop := code = SPDU_DT \/ code = SPDU_TD.

Definition slots (code : Z) : nat := NSPUV - 1 - (if code =? SPDU_DT then 2 else 1).

(** ** The vectors *)

Definition uv_pos (u : udvec) : Prop := 0 < uv_len u.
Definition cursor_pos (c : Tp0.cursor) : Prop := match c with None => True | Some (_, cc, uvs) => 0 < cc /\ Forall uv_pos uvs end.

Lemma fill_pos k : forall bp cc uvs len vv, cursor_pos (Some (bp, cc, uvs)) -> cursor_pos (snd (fill k bp cc uvs len vv)).
Proof.
  induction k as [|k IH]; intros bp cc uvs len vv (C & U); cbn [fill]; [split; assumption|]; rewrite !Z.gtb_ltb.
  destruct (Z.ltb_spec 0 len); [|split; assumption]; set (j := if cc <? len then cc else len).
  destruct (Z.leb_spec (cc - j) 0); [destruct uvs as [|u uvs]; [exact I | apply IH; split; [exact (Forall_inv U) | exact (Forall_inv_tail U)]]|].
  apply IH; split; [lia | exact U].
Qed.

(** Each vector that is added has octets, and one is added. *)
Lemma fill_new k : forall bp cc uvs len vv, cursor_pos (Some (bp, cc, uvs)) -> Forall uv_pos vv -> let vv' := fst (fill k bp cc uvs len vv) in
  Forall uv_pos vv' /\ (length vv <= length vv')%nat /\ ((0 < k)%nat -> 0 < len -> (length vv < length vv')%nat).
Proof.
  induction k as [|k IH]; intros bp cc uvs len vv (C & U) V; cbn [fill]; [repeat split; auto; lia|]; rewrite !Z.gtb_ltb.
  destruct (Z.ltb_spec 0 len); [|repeat split; auto; lia]; set (j := if cc <? len then cc else len).
  assert (J : 0 < j) by (subst j; destruct (Z.ltb_spec cc len); lia).
  assert (V' : Forall uv_pos (vv ++ [UV bp j])) by (apply Forall_app; split; [exact V | constructor; [exact J | constructor]]).
  assert (L : (length vv < length (vv ++ [UV bp j]))%nat) by (rewrite length_app; simpl; lia).
  destruct (Z.leb_spec (cc - j) 0); [destruct uvs as [|u uvs]; [cbn [fst]; repeat split; auto; lia|]|].
  - destruct (IH (uv_base u) (uv_len u) uvs (len - j) (vv ++ [UV bp j])) as (A & B & _); [split; [exact (Forall_inv U) | exact (Forall_inv_tail U)] | exact V' | repeat split; [exact A | lia | lia]].
  - destruct (IH (zdrop j bp) (cc - j) uvs (len - j) (vv ++ [UV bp j])) as (A & B & _); [split; [lia | exact U] | exact V' | repeat split; [exact A | lia | lia]].
Qed.

Lemma octets_pos l : Forall uv_ok l -> Forall uv_pos l -> l <> [] -> concat (map uv_octets l) <> [].
Proof.
  intros O P N E; destruct l as [|u l]; [destruct (N eq_refl)|]; cbn [map concat] in E; apply app_eq_nil in E as (E & _).
  pose proof (Forall_inv P) as Pu; unfold uv_pos in Pu; pose proof (uv_octets_len u (proj1 (Forall_inv O))) as L; rewrite E in L; change (zlen (@nil Z)) with 0 in L; lia.
Qed.

(** Vectors that fit are taken all. *)
Lemma fill_all k : forall bp cc uvs len vv, cursor_pos (Some (bp, cc, uvs)) -> cursor_ok (Some (bp, cc, uvs)) ->
  (length uvs < k)%nat -> zlen (cursor_octets (Some (bp, cc, uvs))) <= len -> snd (fill k bp cc uvs len vv) = None.
Proof.
  induction k as [|k IH]; intros bp cc uvs len vv (C & U) (Cc & B & Uo) K L; [lia|]; cbn [fill cursor_octets] in *; rewrite !Z.gtb_ltb.
  rewrite zlen_app, zlen_ztake in L by lia; pose proof (zlen_nonneg (concat (map uv_octets uvs))).
  destruct (Z.ltb_spec 0 len); [|lia]; assert (J : (if cc <? len then cc else len) = cc) by (destruct (Z.ltb_spec cc len); lia); rewrite J.
  rewrite Z.sub_diag; cbn match; destruct uvs as [|u uvs]; [reflexivity|]; pose proof (Forall_inv Uo) as (Lu & Bu).
  apply IH; [split; [exact (Forall_inv U) | exact (Forall_inv_tail U)] | exact (conj Lu (conj Bu (Forall_inv_tail Uo))) | simpl in K; lia|].
  cbn [cursor_octets map concat] in *; fold (uv_octets u); lia.
Qed.

Lemma cursor_some_pos bp cc uvs : cursor_pos (Some (bp, cc, uvs)) -> cursor_ok (Some (bp, cc, uvs)) -> cursor_octets (Some (bp, cc, uvs)) <> [].
Proof.
  intros (C & _) (Cc & _) E; cbn [cursor_octets] in E; apply app_eq_nil in E as (E & _); apply (f_equal zlen) in E.
  rewrite zlen_ztake in E by lia; change (zlen (@nil Z)) with 0 in E; lia.
Qed.

Lemma uv_read_ok l : Forall uv_ok l -> uv_read l = Val (concat (map uv_octets l)).
Proof.
  induction 1 as [|u l (L & B) _ IH]; [reflexivity|]; cbn [uv_read map concat]; rewrite rdn_in, IH by lia; cbn [cbind].
  rewrite zdrop_0 by lia; reflexivity.
Qed.

Lemma uv_sum_ok l : forall n, Forall uv_ok l -> 0 <= n -> n + zlen (Transfer.user_octets l) <= INT_MAX -> uv_sum l n = Val (n + zlen (Transfer.user_octets l)).
Proof.
  unfold Transfer.user_octets; induction l as [|u l IH]; intros n F N L; cbn [uv_sum map concat] in *; [rewrite Z.add_0_r; reflexivity|]; cbv zeta.
  pose proof (Forall_inv F) as (Lu & _); pose proof (zlen_nonneg (concat (map uv_octets l))).
  rewrite zlen_app in *; rewrite uv_octets_len in * by exact Lu.
  rewrite (proj2 (Z.ltb_ge _ INT_MIN)), Z.gtb_ltb, (proj2 (Z.ltb_ge INT_MAX _)) by (unfold INT_MIN; lia); cbn [orb].
  rewrite (IH _ (Forall_inv_tail F)) by lia; f_equal; lia.
Qed.

Section Ssdu.
Context `{Allocator} (sizeof_spkt sizeof_qbuf : Z) (fresh : Z -> list Z).
Hypothesis Mem : memory_ok.
Hypothesis Fresh : forall n, 0 <= n -> zlen (fresh n) = n.
Variables ses_ab_timer ses_dn_timer ses_rf_timer : Z.

(** ** Sending *)

Lemma ssdu_gt_ok code : data_code code -> ssdu_gt sizeof_spkt fresh code = Val (inr (if code =? SPDU_DT then [SPDU_GT; 0] else [])).
Proof.
  intros [-> | ->]; unfold ssdu_gt; [|reflexivity]; change (SPDU_DT =? SPDU_DT) with true; cbn match.
  rewrite (newspkt_ok _ Mem) by (split; [discriminate | reflexivity]).
  apply (spkt_octets_ok fresh Mem Fresh (Set_ (new_spkt SPDU_GT) SMASK_SPDU_GT)); [auto with spkt | reflexivity | split; [discriminate|]; split; [reflexivity | left; discriminate]].
Qed.

Lemma ssdu_header_ok b code begin last : data_code code ->
  ssdu_header sizeof_spkt fresh b code begin last = Val (inr (enc_spdu code (ssdu_items (sb_tsdu_us b) begin last))).
Proof.
  intros D; unfold ssdu_header, ssdu_items; rewrite (newspkt_ok _ Mem) by (destruct D as [-> | ->]; split; [discriminate | reflexivity | discriminate | reflexivity]).
  destruct (sb_tsdu_us b =? 0).
  - destruct D as [-> | ->]; (rewrite (spkt_octets_ok fresh Mem Fresh); [reflexivity | auto with spkt | reflexivity | split; [discriminate|]; split; [reflexivity | left; discriminate]]).
  - destruct D as [-> | ->], begin, last; (rewrite (spkt_octets_ok fresh Mem Fresh);
      [reflexivity | repeat first [apply ok_set_num; [|split; [discriminate | reflexivity]] | apply ok_Set]; apply ok_new
      | reflexivity | split; [discriminate|]; split; [reflexivity | left; discriminate]]).
Qed.

(** The chunks of some octets: none is empty, and each fits. *)
Definition chunked (us : Z) (data : list Z) (chunks : list (list Z)) : Prop :=
  concat chunks = data /\ Forall (fun d => d <> []) chunks /\ Forall bytes chunks /\
  (if us =? 0 then (length chunks <= 1)%nat else Forall (fun d => zlen d <= us - SSDU_MAGIC) chunks).

Lemma ssdu_vectors_ok b code bp cc uvs : data_code code -> tsdu_size (sb_tsdu_us b) ->
  let c := Some (bp, cc, uvs) in
  cursor_ok c -> cursor_pos c -> (sb_tsdu_us b = 0 -> (length uvs < slots code)%nat) ->
  exists new c', ssdu_vectors b code (zlen (cursor_octets c)) bp cc uvs = (new, c') /\ Forall uv_ok new /\
    cursor_octets c = concat (map uv_octets new) ++ cursor_octets c' /\ concat (map uv_octets new) <> [] /\ bytes (concat (map uv_octets new)) /\
    cursor_ok c' /\ cursor_pos c' /\ (cursor_left c' < cursor_left c)%nat /\
    (if sb_tsdu_us b =? 0 then c' = None else zlen (concat (map uv_octets new)) <= sb_tsdu_us b - SSDU_MAGIC).
Proof.
  intros D S c C P K; pose proof (cursor_some_pos _ _ _ P C) as Ne; fold c in Ne; unfold ssdu_vectors; fold (slots code).
  assert (K0 : (0 < slots code)%nat) by (destruct D as [-> | ->]; cbn; lia).
  assert (N0 : 0 < zlen (cursor_octets c)) by (pose proof (zlen_nonneg (cursor_octets c)); destruct (Z.eq_dec (zlen (cursor_octets c)) 0) as [Z|]; [destruct (Ne (zlen_0 _ Z)) | lia]).
  set (len := if sb_tsdu_us b =? 0 then _ else _).
  assert (L : 0 < len /\ (sb_tsdu_us b = 0 -> len = zlen (cursor_octets c)) /\ (sb_tsdu_us b <> 0 -> len <= sb_tsdu_us b - SSDU_MAGIC)).
  { subst len; destruct S as [-> | S]; [change (0 =? 0) with true; cbn match; lia|]; unfold SSDU_MAGIC in *; rewrite (proj2 (Z.eqb_neq _ 0)) by lia; lia. }
  destruct (fill_spec (slots code) bp cc uvs len [] ltac:(lia) C) as (new & c' & E & (U & _ & Oc & Zn & C' & _ & Lt)); fold c in Oc, Lt.
  pose proof (fill_pos (slots code) bp cc uvs len [] P) as P'; rewrite E in P' |- *; cbn [snd app] in *.
  exists new, c'; split; [reflexivity|]; split; [exact U|]; split; [exact Oc|]; specialize (Lt K0 (proj1 L) ltac:(discriminate)).
  assert (Cb : bytes (cursor_octets c)).
  { subst c; cbn [cursor_octets]; destruct C as (_ & B & Uo); apply bytes_app; split; [exact B|].
    revert Uo; clear; induction 1 as [|u l (_ & B) _ IH]; [constructor|]; cbn [map concat]; apply bytes_app; split; assumption. }
  rewrite Oc in Cb; apply bytes_app in Cb; split; [|split; [apply Cb|]; split; [exact C'|]; split; [exact P'|]; split; [exact Lt|]].
  - destruct (fill_new (slots code) bp cc uvs len [] P (Forall_nil _)) as (Fp & _ & Fl); rewrite E in Fp, Fl; cbn [fst app length] in Fp, Fl.
    apply octets_pos; auto; intros ->; specialize (Fl K0 (proj1 L)); simpl in Fl; lia.
  - destruct (Z.eqb_spec (sb_tsdu_us b) 0) as [Z|Z]; [|lia].
    pose proof (fill_all (slots code) bp cc uvs len [] P C (K Z)) as A; rewrite E in A; apply A; fold c; rewrite (proj1 (proj2 L) Z); lia.
Qed.
Lemma ssdu_loop_ok b code end_ : data_code code -> tsdu_size (sb_tsdu_us b) -> forall fuel c begin st,
  cursor_ok c -> cursor_pos c -> (sb_tsdu_us b = 0 -> match c with Some (_, _, uvs) => (length uvs < slots code)%nat | None => True end) ->
  (cursor_left c <= fuel)%nat -> granting (ses_tp st) ->
  exists chunks, chunked (sb_tsdu_us b) (cursor_octets c) chunks /\
    ssdu_loop sizeof_spkt fresh fuel b code begin end_ (zlen (cursor_octets c)) c st =
      Val (OK, add_sent (map (pair false) (ssdu_tsdus (sb_tsdu_us b) code begin end_ chunks)) st).
Proof.
  intros D S; induction fuel as [|fuel IH]; intros c begin st C P K L G; (destruct c as [((bp, cc), uvs)|];
    [|exists []; split; [split; [reflexivity | split; [constructor | split; [constructor | destruct (sb_tsdu_us b =? 0); [cbn; lia | constructor]]]]
        | cbn [ssdu_loop ssdu_tsdus map]; rewrite add_sent_nil; reflexivity]]).
  { cbn [cursor_left] in L; lia. }
  destruct (ssdu_vectors_ok b code bp cc uvs D S C P K) as (new & c' & E & U & Oc & Ne & By & C' & P' & Lt & Sz).
  set (d := concat (map uv_octets new)) in *; set (o := cursor_octets (Some (bp, cc, uvs))) in *.
  assert (R0 : (match c' with Some _ => true | None => false end = false) <-> cursor_octets c' = []).
  { destruct c' as [((b', n'), u')|]; [|split; reflexivity]; split; [discriminate | intros Z; destruct (cursor_some_pos _ _ _ P' C' Z)]. }
  destruct (IH c' (begin && (sb_tsdu_us b =? 0)) (add_sent [(false, ssdu_tsdu (sb_tsdu_us b) code begin (end_ && negb (match c' with Some _ => true | None => false end)) d)] st))
    as (chunks & (Cc & Cn & Cb & Cs) & R); auto with spkt; [|lia|].
  { intros Z; rewrite Z in Sz; cbn in Sz; rewrite Sz; exact I. }
  assert (Last : negb (match c' with Some _ => true | None => false end) = match chunks with [] => true | _ => false end).
  { destruct c' as [((b', n'), u')|]; destruct chunks as [|d' l']; try reflexivity; cbn [concat cursor_octets] in Cc.
    - destruct (cursor_some_pos _ _ _ P' C'); cbn [cursor_octets]; rewrite <- Cc; reflexivity.
    - apply app_eq_nil in Cc as (-> & _); destruct (Forall_inv Cn eq_refl). }
  exists (d :: chunks); split.
  - split; [cbn [concat]; rewrite Cc, Oc; reflexivity|]; split; [constructor; assumption|]; split; [constructor; assumption|].
    destruct (Z.eqb_spec (sb_tsdu_us b) 0) as [Z|Z]; [|constructor; assumption].
    rewrite Sz in Last; destruct chunks; [cbn; lia | discriminate].
  - cbn [ssdu_loop]; unfold bind, lift; rewrite (ssdu_gt_ok code D), E.
    assert (X : (sb_tsdu_us b =? 0) && (match c' with Some _ => true | None => false end) = false).
    { destruct (Z.eqb_spec (sb_tsdu_us b) 0) as [Z|Z]; [rewrite Sz; reflexivity | reflexivity]. }
    rewrite X, (ssdu_header_ok b code _ _ D), (uv_read_ok new U); fold d.
    rewrite send_granted by exact G; change (OK =? NOTOK) with false; cbn match.
    replace (zlen o - zlen d) with (zlen (cursor_octets c')) by (rewrite Oc, zlen_app; lia).
    unfold ssdu_tsdu in R; rewrite R, add_sent_twice; cbn [ssdu_tsdus map app]; rewrite <- Last; reflexivity.
Qed.

(** ** Receiving one TSDU *)

(** The packet that is read of the SPDU in a TSDU. *)
Record data_spkt (us code : Z) (begin last : bool) (s : ssapkt) : Prop := {
  dt_code : s_code s = code;
  dt_no_GT : code = SPDU_DT -> is_set s SMASK_SPDU_GT = false;
  dt_normal : is_set s SMASK_SPDU_EXPD = false;
  dt_enclosed : is_set s SMASK_ENCLOSE = negb (us =? 0);
  dt_encl : us <> 0 -> s_num s N_enclose = encl begin last;
  dt_no_data : s_ulen s = 0
}.

Lemma data_items us code begin last : data_code code -> let cat0 := if code =? SPDU_DT then 0 else 1 in let l := ssdu_items us begin last in
  spdu_ok code l /\ exists s, apply_items code l (spdu_start code (zlen (enc_items l)) cat0) = Some s /\ mandatory s = true /\ s_errno s = SC_ACCEPT /\
    data_spkt us code begin last s.
Proof.
  intros D; unfold ssdu_items; destruct (Z.eqb_spec us 0) as [->|U].
  - split; [destruct D as [-> | ->]; (split; [split; [discriminate | reflexivity]|]; split; [discriminate|]; split; [constructor | reflexivity])|].
    eexists; split; [reflexivity|]; destruct D as [-> | ->]; (split; [reflexivity|]; split; [reflexivity|]; split; try reflexivity; try discriminate; congruence).
  - split.
    + destruct D as [-> | ->], begin, last; (split; [split; [discriminate | reflexivity]|]; split; [discriminate|]; split; [|reflexivity]; repeat constructor;
        try (vm_compute; reflexivity || discriminate); try (vm_compute; intuition discriminate); apply forallb_bytes; reflexivity).
    + assert (N : (us =? 0) = false) by (apply Z.eqb_neq; exact U).
      destruct D as [-> | ->], begin, last; (eexists; split; [reflexivity|]; split; [reflexivity|]; split; [reflexivity|];
        split; rewrite ?N; try reflexivity; try discriminate; intros; reflexivity).
Qed.
(** What a TSDU of an SSDU gives: the packet with the data in its queue. *)
Lemma sb2spkt_data tx us code begin last d b st : reading st -> sb_spdu b = None -> data_code code -> d <> [] ->
  carries tx false (ssdu_tsdu us code begin last d) ->
  exists s q x, sb2spkt_first sizeof_spkt fresh ses_ab_timer ses_rf_timer tx (at_sb b st) = Val (Some (Pkt s q (zlen d)), at_buffer x (at_sb b st)) /\
    data_spkt us code begin last s /\ Forall seg_ok q /\ ring_octets q = d /\ buffer_ok x.
Proof.
  intros (Al & B) Sb D Ne (Ex & Q & E & Cc); destruct (data_items us code begin last D) as (So & s & Ap & M & Ac & Ds).
  set (o := enc_spdu code (ssdu_items us begin last)) in *; pose proof (zlen_nonneg d); pose proof (zlen_nonneg o).
  assert (With : forall q, ring_octets q = d -> with_qbuf s q (zlen d) = Pkt s q (zlen d)) by (intros [|? ?] R; [destruct (Ne (eq_sym R)) | reflexivity]).
  exists s; unfold sb2spkt_first, bind, ssdu_tsdu in *; fold o in E, Cc; destruct D as [-> | ->].
  - change (SPDU_DT =? SPDU_DT) with true in *; cbn match in *; set (p := spdu_start SPDU_GT 0 1).
    destruct (read_spdu_items sizeof_spkt fresh Mem Fresh SPDU_GT [] p 1 (tx_qbuf tx) (o ++ d) (tx_cc tx) (at_sb b st)) as (q1 & x1 & -> & Q1 & E1 & B1); auto.
    { split; [split; [discriminate | reflexivity]|]; split; [discriminate|]; split; [constructor | reflexivity]. }
    { rewrite Cc, !zlen_app; change (zlen (enc_spdu SPDU_GT [])) with 2; change (zlen [SPDU_GT; 0]) with 2; lia. }
    change (zlen (enc_spdu SPDU_GT [])) with 2; change (accepted (Some p)) with (@inr Z ssapkt p); cbn match; unfold is_expd; rewrite Ex.
    change (one_of (s_code p) [SPDU_GT; SPDU_PT]) with true; cbn match; rewrite Cc, !zlen_app; change (zlen [SPDU_GT; 0]) with 2.
    assert (0 < zlen d) by (destruct (Z.eq_dec (zlen d) 0) as [Z|]; [destruct (Ne (zlen_0 _ Z)) | lia]); rewrite (proj2 (Z.leb_gt _ 0)) by lia.
    unfold sb2spkt_second, bind, update, put; cbn [ses_gone ses_sb at_buffer at_sb ses_si ses_tp ses_buffer]; rewrite Al.
    set (st2 := Ses (set_spdu (Some (Pkt p [] 0)) b) false (ses_si st) (ses_tp st) x1).
    destruct (read_spdu_items sizeof_spkt fresh Mem Fresh SPDU_DT _ s 0 q1 d (2 + (zlen o + zlen d) - 2) st2 So Ap M Ac) as (q2 & x2 & -> & Q2 & E2 & B2); auto.
    { fold o; lia. }
    fold o; unfold accepted; rewrite Ac; change (SC_ACCEPT =? SC_ACCEPT) with true; cbn match; unfold is_expd; rewrite Ex, (dt_code _ _ _ _ _ Ds).
    change ((s_code p =? SPDU_GT) && (SPDU_DT =? SPDU_DT)) with true; cbn match.
    assert (K : keeps_cat0 p s = false) by (unfold keeps_cat0; rewrite (dt_code _ _ _ _ _ Ds); reflexivity); rewrite K.
    replace (2 + (zlen o + zlen d) - 2 - zlen o) with (zlen d) by lia; rewrite (With q2 E2).
    exists q2, x2; split; [|auto]; cbn [at_buffer ses_sb ses_gone st2]; unfold ret; rewrite set_spdu_back by exact Sb; rewrite <- Al; reflexivity.
  - change (SPDU_TD =? SPDU_DT) with false in *; cbn match in *; cbn [app] in E, Cc.
    destruct (read_spdu_items sizeof_spkt fresh Mem Fresh SPDU_TD _ s 1 (tx_qbuf tx) d (tx_cc tx) (at_sb b st) So Ap M Ac B Q E) as (q & x & -> & Q' & E' & B').
    { fold o; rewrite Cc, zlen_app; lia. }
    fold o; unfold accepted; rewrite Ac; change (SC_ACCEPT =? SC_ACCEPT) with true; cbn match; unfold is_expd; rewrite Ex, (dt_code _ _ _ _ _ Ds).
    change (one_of SPDU_TD [SPDU_GT; SPDU_PT]) with false; change (one_of SPDU_TD [SPDU_EX; SPDU_TD]) with true; cbn match.
    replace (tx_cc tx - zlen o) with (zlen d) by (rewrite Cc, zlen_app; lia); rewrite (With q E').
    exists q, x; auto.
Qed.

(** ** The steps of the reader *)

Lemma andthen_pass f k st : f st = Val (None, st) -> andthen f k st = k st.
Proof. intros E; unfold andthen, bind; rewrite E; reflexivity. Qed.

(** A session that takes data: no SPDU is prepared for, nothing is kept, and
    neither a resynchronization nor an exception is in progress. *)
Record receptive (us code : Z) (b : ssapblk) : Prop := {
  rc_pr : sb_pr b = SPDU_PR;
  rc_resync : has b (Z.lor SB_RS SB_AI) = false;
  rc_exception : has b (Z.lor SB_ED SB_ERACK) = false;
  rc_typed : code = SPDU_TD -> needs b SR_TYPEDATA = true;
  rc_them : sb_tsdu_them b = us;
  rc_xspdu : sb_xspdu b = None;
  rc_spdu : sb_spdu b = None
}.

Lemma receptive_kept us code b : receptive us code b -> nothing_kept b.
Proof. intros []; split; [|assumption]; destruct (_ =? _); auto. Qed.

Lemma data_step us code begin last s q n st : ses_gone st = false -> data_code code -> receptive us code (ses_sb st) -> data_spkt us code begin last s ->
  (0 < sb_len (ses_sb st) -> sb_code (ses_sb st) = code) ->
  read_step sizeof_spkt sizeof_qbuf fresh ses_ab_timer ses_rf_timer (Pkt s q n) st =
  act_DT sizeof_spkt fresh ses_ab_timer ses_rf_timer (Pkt s q n) st.
Proof.
  intros Al D [Rp Rr Re Rt Ru Rx Rs] [Sc Sg Sn Se Sl Sd] Co; unfold read_step; cbn [p_spkt].
  rewrite andthen_pass.
  2: { unfold filter_flow, bind, get; rewrite Al, Sn; unfold prepared; rewrite Rp, Sc; destruct D as [-> | ->]; reflexivity. }
  rewrite andthen_pass by (unfold filter_collision, bind, get; rewrite Al, Rr; reflexivity).
  rewrite andthen_pass by (unfold filter_exception, bind, get; rewrite Al, Re; reflexivity).
  rewrite andthen_pass.
  2: { unfold filter_segment, bind, get; rewrite Al, Z.gtb_ltb, Sc; destruct (Z.ltb_spec 0 (sb_len (ses_sb st))) as [L|L]; [|reflexivity].
       rewrite (Co L); destruct D as [-> | ->]; [rewrite (Sg eq_refl); reflexivity | reflexivity]. }
  rewrite andthen_pass.
  2: { unfold filter_version, bind, get; rewrite Al, Sd, Sc; destruct D as [-> | ->]; [rewrite (Sg eq_refl)|]; destruct (is_set s SMASK_ENCLOSE); reflexivity. }
  rewrite andthen_pass.
  2: { unfold filter_unit, bind, get; rewrite Al, Sc; destruct D as [-> | ->]; [reflexivity|]; change (unit_of SPDU_TD) with (Some SR_TYPEDATA); cbn match; rewrite (Rt eq_refl); reflexivity. }
  unfold act; cbn [p_spkt]; rewrite Sc; destruct D as [-> | ->]; [rewrite (Sg eq_refl)|]; reflexivity.
Qed.
(** ** Putting the SSDU together *)

Lemma ssdu_ends_ok us code begin last s b : data_spkt us code begin last s -> sb_tsdu_them b = us -> (us = 0 -> last = true) ->
  (if begin then sb_len b = 0 else 0 < sb_len b) -> ssdu_ends b s = Some last.
Proof.
  intros [Sc Sg Sn Se Sl Sd] Ru L0 Lb; unfold ssdu_ends; rewrite Ru, Se; destruct (Z.eqb_spec us 0) as [Z|Z]; cbn [negb andb]; [rewrite (L0 Z); reflexivity|].
  rewrite (Sl Z); replace (meets (encl begin last) ENCL_BEGIN) with begin by (destruct begin, last; reflexivity).
  replace (meets (encl begin last) ENCL_END) with last by (destruct begin, last; reflexivity).
  destruct begin; [rewrite Lb; reflexivity|]; rewrite (proj2 (Z.eqb_neq _ 0)) by lia; reflexivity.
Qed.

(** The block with more of the SSDU. *)
Definition grown (code : Z) (q : list qseg) (n : Z) (b : ssapblk) : ssapblk := set_ssdu (sb_qbuf b ++ q) (sb_len b + n) (set_code code b).

Lemma act_DT_ok us code begin last s q n b st : ses_gone st = false -> receptive us code b -> data_code code -> data_spkt us code begin last s ->
  (us = 0 -> last = true) -> (if begin then sb_len b = 0 else 0 < sb_len b) -> q <> [] -> sb_len b + n <= INT_MAX ->
  act_DT sizeof_spkt fresh ses_ab_timer ses_rf_timer (Pkt s q n) (at_sb b st) =
  if last then Val (Return OK (Sx (if code =? SPDU_DT then SX_NORMAL else SX_TYPED) (sb_len b + n) (sb_qbuf b ++ q)), at_sb (set_ssdu [] 0 (grown code q n b)) st)
  else Val (Spin, at_sb (grown code q n b) st).
Proof.
  intros Al Rc D Ds L0 Lb Qn M; unfold act_DT; rewrite bind_update by exact Al; rewrite bind_get by exact Al; cbn [p_spkt ses_sb at_sb].
  rewrite (dt_code _ _ _ _ _ Ds), (ssdu_ends_ok us code begin last s (set_code code b) Ds (rc_them _ _ _ Rc) L0 Lb).
  assert (Ap : append_ssdu (Pkt s q n) (set_code code b) = Val (grown code q n b)).
  { unfold append_ssdu; cbn [s_qbuf s_qlen]; destruct q as [|k q]; [destruct (Qn eq_refl)|].
    change (sb_len (set_code code b)) with (sb_len b); rewrite Z.gtb_ltb, (proj2 (Z.ltb_ge INT_MAX _)) by exact M; reflexivity. }
  rewrite Ap, bind_lift.
  assert (Sp : (if negb last && (code =? SPDU_DT) then set_spdu None (grown code q n b) else grown code q n b) = grown code q n b).
  { destruct (negb last && (code =? SPDU_DT)); [|reflexivity]; pose proof (rc_spdu _ _ _ Rc); unfold grown; destruct b; cbn in *; subst; reflexivity. }
  cbv zeta; rewrite Sp, bind_put by exact Al; change (sb_code (grown code q n b)) with code; change (sb_qbuf (grown code q n b)) with (sb_qbuf b ++ q).
  destruct last; cbn [negb]; [|reflexivity].
  destruct (sb_qbuf b ++ q) as [|k' q'] eqn:Eq; [apply app_eq_nil in Eq as (_ & ->); destruct (Qn eq_refl)|].
  rewrite bind_put by exact Al; reflexivity.
Qed.

Lemma read_ssdu us code : data_code code -> forall chunks b st (begin : bool) txs rest fuel,
  reading st -> receptive us code b -> Forall (fun d => d <> []) chunks -> chunks <> [] -> (us = 0 -> (length chunks <= 1)%nat) ->
  (if begin then sb_len b = 0 else 0 < sb_len b /\ sb_code b = code) -> sb_len b + zlen (concat chunks) <= INT_MAX ->
  tp_reads (ses_tp st) = map inr txs ++ rest ->
  Forall2 (fun tx o => carries tx false o) txs (ssdu_tsdus us code begin true chunks) -> (length chunks <= fuel)%nat ->
  exists q x, spin_loop sizeof_spkt sizeof_qbuf fresh ses_ab_timer ses_dn_timer ses_rf_timer fuel false None (at_sb b st) =
      Val ((OK, Sx (if code =? SPDU_DT then SX_NORMAL else SX_TYPED) (sb_len b + zlen (concat chunks)) q),
           at_buffer x (with_reads rest (at_sb (set_code code (set_ssdu [] 0 b)) st))) /\
    ring_octets q = ring_octets (sb_qbuf b) ++ concat chunks /\ buffer_ok x.
Proof.
  intros D; induction chunks as [|d chunks IH]; intros b st begin txs rest fuel Rd Rc Ne Nn U Lb M Tr F2 Fu; [destruct (Nn eq_refl)|].
  destruct fuel as [|fuel]; [cbn in Fu; lia|]; cbn [ssdu_tsdus] in F2; inversion F2 as [|tx o txs' os Ca F2' E1 E2]; subst txs o os; clear F2.
  set (last := match chunks with [] => true | _ => false end) in *; pose proof (Forall_inv Ne) as Nd; cbn [map app] in Tr.
  assert (Kp := receptive_kept _ _ _ Rc); cbn [spin_loop]; unfold bind; rewrite (sb2spkt_waits _ _ _ _ _ _ _ _ (proj1 Rd) Kp Tr).
  set (st1 := with_reads (map inr txs' ++ rest) st).
  destruct (sb2spkt_data tx us code begin last d b st1 Rd (rc_spdu _ _ _ Rc) D Nd Ca) as (s & q & x & E & Ds & Qk & Qo & Bx).
  change (with_reads (map inr txs' ++ rest) (at_sb b st)) with (at_sb b st1); rewrite E; clear E.
  assert (L0 : us = 0 -> last = true) by (intros Z; specialize (U Z); destruct chunks; [reflexivity | cbn in U; lia]).
  assert (Qn : q <> []) by (intros ->; destruct (Nd (eq_sym Qo))).
  assert (Al : ses_gone st = false) by apply Rd.
  cbn [concat] in M; rewrite zlen_app in M; pose proof (zlen_nonneg (concat chunks)).
  rewrite (data_step us code begin last s q (zlen d)); [| exact Al | exact D | exact Rc | exact Ds | cbn [at_buffer at_sb ses_sb]; destruct begin; [lia | tauto]].
  change (at_buffer x (at_sb b st1)) with (at_sb b (at_buffer x st1)).
  rewrite (act_DT_ok us code begin last s q (zlen d) b (at_buffer x st1) Al Rc D Ds L0) by (try assumption; try lia; destruct begin; tauto).
  destruct last eqn:El; cbn match.
  - destruct chunks as [|? ?]; [|discriminate]; cbn [ssdu_tsdus] in F2'; inversion F2'; subst txs'; cbn [map app] in st1.
    exists (sb_qbuf b ++ q), x; cbn [concat]; rewrite app_nil_r, ring_octets_app, Qo; split; [|auto].
    reflexivity.
  - assert (Un : us <> 0) by (intros Z; discriminate (L0 Z)); rewrite (proj2 (Z.eqb_neq us 0) Un), andb_false_r in F2'.
    cbn [get ses_gone at_sb at_buffer st1 with_reads at_tp negb orb].
    unfold get; cbn [ses_gone at_sb at_buffer st1 with_reads at_tp negb orb]; rewrite Al.
    destruct (IH (grown code q (zlen d) b) (at_buffer x st1) false txs' rest fuel) as (q' & x' & -> & Qo' & Bx').
    + split; [exact Al | exact Bx].
    + destruct Rc; split; assumption.
    + exact (Forall_inv_tail Ne).
    + intros ->; discriminate El.
    + intros Z; destruct (Un Z).
    + split; [|reflexivity]; cbn [sb_len grown set_ssdu]; assert (0 < zlen d) by (pose proof (zlen_nonneg d); destruct (Z.eq_dec (zlen d) 0) as [Z|]; [destruct (Nd (zlen_0 _ Z)) | lia]).
      destruct begin; lia.
    + cbn [sb_len grown set_ssdu]; lia.
    + reflexivity.
    + exact F2'.
    + cbn [length] in Fu; lia.
    + exists q', x'; split; [|split; [|exact Bx']].
      * cbn [sb_len grown set_ssdu concat]; rewrite zlen_app, Z.add_assoc; reflexivity.
      * rewrite Qo'; cbn [sb_qbuf grown set_ssdu concat]; rewrite ring_octets_app, Qo, app_assoc; reflexivity.
Qed.
End Ssdu.

(** * The transfer *)

(** The session may send: no request is in progress, and it owns the data
    token, if there is one, or has typed data. *)
Definition may_send (typed : bool) (b : ssapblk) : Prop :=
  check (ssapPsig b) = None /\ (if typed then needs b SR_TYPEDATA = true else lacks b SR_DAT_EXISTS ST_DAT_TOKEN = false).

(** The session may read: it is connected and nothing of an SSDU is there. *)
Definition may_read (us code : Z) (st : session) : Prop :=
  reading st /\ has (ses_sb st) SB_CONN = true /\ has (ses_sb st) SB_FINN = false /\ receptive us code (ses_sb st) /\
  sb_len (ses_sb st) = 0 /\ sb_qbuf (ses_sb st) = [].

Lemma ssdu_tsdus_length us code end_ chunks : forall begin, length (ssdu_tsdus us code begin end_ chunks) = length chunks.
Proof. induction chunks as [|d l IH]; intros begin; [reflexivity|]; cbn [ssdu_tsdus length]; rewrite IH; reflexivity. Qed.

(** C6. An SSDU is transferred as it was given. [SWriteRequest] of vectors
    that are not empty ends, whether data or typed data, with TSDUs of at
    most the agreed size, each with the enclosure it needs; with the fuel of
    the octets and the vectors it never ends for lack of it. From any queues
    that hold these TSDUs, cut into buffers in any way, one [SReadRequest] of
    the peer returns all the octets in order, with their count, as an SSDU of
    that type; the session is ready for the next one, and what follows in
    the transport service is left there. *)
Theorem ssdu_transfer : forall (A : Allocator) sizeof_spkt sizeof_qbuf fresh ab dn rf (typed : bool) uv st,
  memory_ok -> (forall n, 0 <= n -> zlen (fresh n) = n) ->
  let us := sb_tsdu_us (ses_sb st) in let data := Transfer.user_octets uv in let code := if typed then SPDU_TD else SPDU_DT in
  ses_gone st = false -> granting (ses_tp st) -> may_send typed (ses_sb st) -> tsdu_size us ->
  uv <> [] -> Forall uv_ok uv -> Forall uv_pos uv -> zlen data <= INT_MAX -> (us = 0 -> (length uv <= slots code)%nat) ->
  exists chunks, chunked us data chunks /\
    SWriteRequest sizeof_spkt fresh (S (length uv + length data)) typed uv st =
      Val (OK, add_sent (map (pair false) (ssdu_tsdus us code true true chunks)) st) /\
    forall peer txs rest, may_read us code peer -> tp_reads (ses_tp peer) = map inr txs ++ rest ->
      Forall2 (fun tx o => carries tx false o) txs (ssdu_tsdus us code true true chunks) ->
      exists q peer', SReadRequest sizeof_spkt sizeof_qbuf fresh ab dn rf peer =
          Val ((OK, Some (Sx (if typed then SX_TYPED else SX_NORMAL) (zlen data) q)), peer') /\
        ring_octets q = data /\ tp_reads (ses_tp peer') = rest /\ ses_sb peer' = set_code code (ses_sb peer).
Proof.
  intros A z zq fresh ab dn rf typed uv st M F us data code Al G (Ck & Ms) Sz Ne U P L K.
  assert (D : data_code code) by (unfold code, data_code; destruct typed; auto).
  destruct uv as [|u uvs]; [destruct (Ne eq_refl)|]; pose proof (Forall_inv U) as (Lu & Bu).
  set (c := Some (uv_base u, uv_len u, uvs)); assert (Oc : cursor_octets c = data) by reflexivity.
  assert (Ok : cursor_ok c) by exact (conj Lu (conj Bu (Forall_inv_tail U))).
  assert (Pc : cursor_pos c) by exact (conj (Forall_inv P) (Forall_inv_tail P)).
  destruct (ssdu_loop_ok z fresh M F (ses_sb st) code true D Sz (S (length (u :: uvs) + length data)) c true st Ok Pc) as (chunks & Ch & E);
    [unfold c; intros Z; specialize (K Z); cbn [length] in K; lia | change (cursor_left c) with (S (length uvs + length data)); cbn [length]; lia | exact G |].
  rewrite Oc in Ch, E; exists chunks; split; [exact Ch|]; split.
  - unfold SWriteRequest, with_sd; rewrite Al; unfold guarded at 1; rewrite Ck; fold code; unfold SDataRequestAux; rewrite bind_get by exact Al.
    unfold guarded; cbn [check]; replace ((code =? SPDU_DT) && needs (ses_sb st) SR_DAT_EXISTS && negb (owns (ses_sb st) ST_DAT_TOKEN)) with false
      by (unfold code, lacks in *; destruct typed; [reflexivity | rewrite <- andb_assoc, Ms; reflexivity]).
    replace ((code =? SPDU_TD) && negb (needs (ses_sb st) SR_TYPEDATA)) with false by (unfold code; destruct typed; [rewrite Ms|]; reflexivity); cbn match.
    rewrite (uv_sum_ok _ 0 U) by (fold data; lia); fold data; rewrite bind_lift, Z.add_0_l.
    assert (N : data <> []) by (rewrite <- Oc; exact (cursor_some_pos _ _ _ Pc Ok)).
    rewrite (proj2 (Z.eqb_neq _ 0)) by (intros Z; destruct (N (zlen_0 _ Z))); exact E.
  - intros peer txs rest (Rd & Cn & Fn & Rc & L0 & Q0) Tr F2; destruct Ch as (Cc & Cne & _ & Cl).
    assert (N : data <> []) by (rewrite <- Oc; exact (cursor_some_pos _ _ _ Pc Ok)).
    assert (Nc : chunks <> []) by (intros ->; destruct (N (eq_sym Cc))).
    assert (Lt : length txs = length chunks) by (rewrite (Forall2_length F2); apply ssdu_tsdus_length).
    destruct (read_ssdu z zq fresh M F ab dn rf us code D chunks (ses_sb peer) (at_si SI_DATA peer) true txs rest (S (unread None peer)))
      as (q & x & E' & Qo & _); auto.
    { intros Z; unfold us in Z; rewrite Z in Cl; exact Cl. }
    { rewrite L0, Cc; exact L. }
    { unfold unread; rewrite Tr, length_app, length_map; lia. }
    rewrite L0, Cc, Z.add_0_l in E'; rewrite Q0, Cc in Qo; exists q; eexists; split; [|split; [exact Qo|]].
    + unfold SReadRequest, with_sd; rewrite (proj1 Rd); unfold guarded; cbn [check]; rewrite Cn, Fn; cbn [negb]; unfold SReadRequestAux, bind at 1; rewrite bind_set_si.
      change (at_si SI_DATA peer) with (at_sb (ses_sb peer) (at_si SI_DATA peer)); rewrite E'; unfold ret.
      replace (if code =? SPDU_DT then SX_NORMAL else SX_TYPED) with (if typed then SX_TYPED else SX_NORMAL) by (unfold code; destruct typed; reflexivity); reflexivity.
    + split; [reflexivity|]; cbn [ses_sb at_buffer with_reads at_tp at_sb]; clear - L0 Q0; destruct (ses_sb peer); cbn in *; subst; reflexivity.
Qed.

(** ** An example: eight octets in two vectors, three to a TSDU *)

Definition ex_sender : session := ex_session (ex_blk (Z.lor SB_CONN SB_INIT) ST_DAT_TOKEN SR_HALFDUPLEX 10) [].
Definition ex_receiver (l : list (list Z)) : session := ex_session (ex_blk SB_CONN 0 SR_HALFDUPLEX 10) (map inr (map ex_tx l)).

(** The TSDUs it sends. *)
Definition ex_tsdus : list (list Z) :=
  [[1; 0; 1; 3; 25; 1; 1; 1; 2; 3]; [1; 0; 1; 3; 25; 1; 0; 4; 5; 6]; [1; 0; 1; 3; 25; 1; 2; 7; 8]].

Lemma ssdu_transfer_witness : exists q peer',
  SWriteRequest (H := plenty) 800 zeros 11 false [UV [1; 2] 2; UV [3; 4; 5; 6; 7; 8] 6] ex_sender = Val (OK, add_sent (map (pair false) ex_tsdus) ex_sender) /\
  SReadRequest (H := plenty) 800 64 zeros 30 30 30 (ex_receiver ex_tsdus) = Val ((OK, Some (Sx SX_NORMAL 8 q)), peer') /\
  ring_octets q = [1; 2; 3; 4; 5; 6; 7; 8].
Proof.
  destruct (ssdu_transfer plenty 800 64 zeros 30 30 30 false [UV [1; 2] 2; UV [3; 4; 5; 6; 7; 8] 6] ex_sender) as (chunks & C & W & R).
  - intros n; reflexivity.
  - exact zeros_fresh.
  - reflexivity.
  - constructor.
  - split; reflexivity.
  - right; vm_compute; split; [reflexivity | discriminate].
  - discriminate.
  - repeat constructor; try (vm_compute; discriminate).
  - repeat constructor.
  - vm_compute; discriminate.
  - discriminate.
  - set (l := ssdu_tsdus _ _ _ _ _) in *.
    assert (V : SWriteRequest (H := plenty) 800 zeros 11 false [UV [1; 2] 2; UV [3; 4; 5; 6; 7; 8] 6] ex_sender = Val (OK, add_sent (map (pair false) ex_tsdus) ex_sender))
      by (vm_compute; reflexivity).
    pose proof V as V'; change (S _) with 11%nat in W; rewrite W in V'; injection V' as E; apply (f_equal (map snd)) in E; rewrite !map_map, !map_id in E.
    destruct (R (ex_receiver ex_tsdus) (map ex_tx ex_tsdus) []) as (q & peer' & Er & O & _).
    + repeat split; try reflexivity; discriminate.
    + rewrite app_nil_r; reflexivity.
    + rewrite E; repeat constructor; try (vm_compute; discriminate).
    + exists q, peer'; split; [exact V|]; split; [exact Er | exact O].
Defined.

(** ** A vector without octets at the end

    With segments, the loop over the vectors does not end when the last one
    is empty: it sends TSDUs without data for ever. *)

Section Endless.
Context `{Allocator} (sizeof_spkt : Z) (fresh : Z -> list Z).
Hypothesis Mem : memory_ok.
Hypothesis Fresh : forall n, 0 <= n -> zlen (fresh n) = n.

Lemma fill_nothing_left k bp cc uvs vv : fill k bp cc uvs 0 vv = (vv, Some (bp, cc, uvs)).
Proof. destruct k; reflexivity. Qed.

Lemma ssdu_loop_never code fuel : data_code code -> forall b begin bp uvs st, SSDU_MAGIC < sb_tsdu_us b -> granting (ses_tp st) ->
  ssdu_loop sizeof_spkt fresh fuel b code begin true 0 (Some (bp, 0, uvs)) st = UB.
Proof.
  intros D; induction fuel as [|fuel IH]; intros b begin bp uvs st U G; [reflexivity|].
  assert (N : (sb_tsdu_us b =? 0) = false) by (apply Z.eqb_neq; unfold SSDU_MAGIC in U; lia).
  assert (E : ssdu_vectors b code 0 bp 0 uvs = ([], Some (bp, 0, uvs))).
  { unfold ssdu_vectors; rewrite N, Z.min_l by lia; destruct D as [-> | ->]; reflexivity. }
  cbn [ssdu_loop]; unfold bind, lift; rewrite (ssdu_gt_ok sizeof_spkt fresh Mem Fresh code D), E, N; cbn [andb].
  rewrite (ssdu_header_ok sizeof_spkt fresh Mem Fresh b code _ _ D); cbn [uv_read].
  rewrite send_granted by exact G; change (OK =? NOTOK) with false; cbn match; apply IH; auto with spkt.
Qed.

Lemma SWriteRequest_never fuel : forall d bp st, granting (ses_tp st) -> ses_gone st = false -> may_send false (ses_sb st) ->
  0 < zlen d <= sb_tsdu_us (ses_sb st) - SSDU_MAGIC -> sb_tsdu_us (ses_sb st) <= 65535 ->
  SWriteRequest sizeof_spkt fresh fuel false [UV d (zlen d); UV bp 0] st = UB.
Proof.
  intros d bp st G Al (Ck & Ms) N U; unfold SWriteRequest, with_sd; rewrite Al; unfold guarded at 1; rewrite Ck.
  unfold SDataRequestAux; rewrite bind_get by exact Al; unfold guarded; cbn [check]; change (SPDU_DT =? SPDU_DT) with true; change (SPDU_DT =? SPDU_TD) with false.
  cbn [andb]; fold (lacks (ses_sb st) SR_DAT_EXISTS ST_DAT_TOKEN); rewrite Ms; cbn match.
  unfold SSDU_MAGIC in N; cbn [uv_sum uv_len uv_base]; cbv zeta; rewrite !Z.add_0_l, !Z.add_0_r.
  rewrite (proj2 (Z.ltb_ge _ INT_MIN)), Z.gtb_ltb, (proj2 (Z.ltb_ge INT_MAX _)) by (unfold INT_MIN, INT_MAX; lia); cbn [orb]; cbn match; rewrite bind_lift.
  rewrite (proj2 (Z.eqb_neq _ 0)) by lia; destruct fuel as [|fuel]; [reflexivity|].
  assert (Nz : (sb_tsdu_us (ses_sb st) =? 0) = false) by (apply Z.eqb_neq; lia).
  assert (E : ssdu_vectors (ses_sb st) SPDU_DT (zlen d) d (zlen d) [UV bp 0] = ([UV d (zlen d)], Some (bp, 0, []))).
  { unfold ssdu_vectors; rewrite Nz, Z.min_l by (unfold SSDU_MAGIC; lia); change (fill _) with (fill (S 8)); generalize 8%nat; intros k.
    cbn [fill]; rewrite Z.gtb_ltb, (proj2 (Z.ltb_lt 0 _)), Z.ltb_irrefl, Z.sub_diag by lia; apply fill_nothing_left. }
  cbn [ssdu_loop]; unfold bind, lift; rewrite (ssdu_gt_ok sizeof_spkt fresh Mem Fresh SPDU_DT (or_introl eq_refl)), E, Nz; cbn [andb].
  rewrite (ssdu_header_ok sizeof_spkt fresh Mem Fresh _ SPDU_DT _ _ (or_introl eq_refl)).
  assert (Rd : uv_read [UV d (zlen d)] = Val d).
  { cbn [uv_read uv_base uv_len]; rewrite rdn_in by lia; cbn [cbind]; rewrite zdrop_0, ztake_all, app_nil_r by lia; reflexivity. }
  rewrite Rd, send_granted, Z.sub_diag by exact G; change (OK =? NOTOK) with false; cbn match.
  apply (ssdu_loop_never SPDU_DT fuel (or_introl eq_refl)); [unfold SSDU_MAGIC; lia | auto with spkt].
Qed.
End Endless.
