(* ===== verification/Session.v ===== *)
(** * ssap: the invariant of a session

    A block is well formed when the session owns no token that was not
    negotiated, prepares for an SPDU that can be announced, and keeps only
    packets of the kinds that may be kept. Every request of the user and
    every SPDU that is read keeps it so, and what was negotiated is not
    changed. *)

From S2P Require Import Prelude Conv Convert PElement PStream Qbuf Tpkt Tpkt2fd Tcp Tp0 Spkt Spkt2tsdu Tsdu2spkt Spdu Ssap Sreq Sread Swrite.
Open Scope Z_scope.
Open Scope c_scope.
Open Scope ses_scope.

(** ** Requests *)

Inductive request : Type :=
| R_GToken (tokens : Z)
| R_PToken (tokens : Z) (data : option (list Z)) (cc : Z)
| R_MinSync (type : Z) (data : option (list Z)) (cc : Z)
| R_MinSyncResponse (ssn : Z) (data : option (list Z)) (cc : Z)
| R_MajSync (data : option (list Z)) (cc : Z)
| R_MajSyncResponse (data : option (list Z)) (cc : Z)
| R_ReSync (type ssn settings : Z) (data : option (list Z)) (cc : Z)
| R_ReSyncResponse (ssn settings : Z) (data : option (list Z)) (cc : Z)
| R_GControl
| R_ActStart (id : counted) (data : option (list Z)) (cc : Z)
| R_ActResume (id oid : counted) (ssn : Z) (ref : option sref) (data : option (list Z)) (cc : Z)
| R_ActIntr (reason : Z)
| R_ActIntrResponse
| R_ActDisc (reason : Z)
| R_ActDiscResponse
| R_ActEnd (data : option (list Z)) (cc : Z)
| R_ActEndResponse (data : option (list Z)) (cc : Z)
| R_UReport (reason : Z) (data : option (list Z)) (cc : Z)
| R_Capd (data : option (list Z)) (cc : Z)
| R_CapdResponse (data : option (list Z)) (cc : Z)
| R_Expd (data : option (list Z)) (cc : Z)
| R_Send (data : option (list Z)) (cc : Z) (begin end_ : bool)
| R_Typed (data : option (list Z)) (cc : Z)
| R_Write (fuel : nat) (typed : bool) (uv : list udvec)
| R_Rel (data : option (list Z)) (cc : Z)
| R_RelRetry
| R_RelResponse (status : Z) (data : option (list Z)) (cc : Z)
| R_UAbort (data : option (list Z)) (cc : Z)
| R_Read.

(** The result without what is returned through pointers. *)
Definition result {A} (m : sess (Z * A)) : sess Z := do ' (r, _) <~ m; ret r.

Section Perform.
Context `{Allocator} (sizeof_spkt sizeof_qbuf : Z) (fresh : Z -> list Z) (ses_ab_timer ses_dn_timer ses_rf_timer : Z).

Definition perform (q : request) : sess Z :=
  match q with
  | R_GToken tokens => SGTokenRequest sizeof_spkt fresh ses_dn_timer tokens
  | R_PToken tokens data cc => SPTokenRequest sizeof_spkt fresh ses_dn_timer tokens data cc
  | R_MinSync type data cc => result (SMinSyncRequest sizeof_spkt fresh ses_dn_timer type data cc)
  | R_MinSyncResponse ssn data cc => SMinSyncResponse sizeof_spkt fresh ses_dn_timer ssn data cc
  | R_MajSync data cc => result (SMajSyncRequest sizeof_spkt fresh ses_dn_timer data cc)
  | R_MajSyncResponse data cc => SMajSyncResponse sizeof_spkt fresh ses_dn_timer data cc
  | R_ReSync type ssn settings data cc => SReSyncRequest sizeof_spkt fresh ses_dn_timer type ssn settings data cc
  | R_ReSyncResponse ssn settings data cc => SReSyncResponse sizeof_spkt fresh ses_dn_timer ssn settings data cc
  | R_GControl => SGControlRequest sizeof_spkt fresh ses_dn_timer
  | R_ActStart id data cc => SActStartRequest sizeof_spkt fresh ses_dn_timer id data cc
  | R_ActResume id oid ssn ref data cc => SActResumeRequest sizeof_spkt fresh ses_dn_timer id oid ssn ref data cc
  | R_ActIntr reason => SActIntrRequest sizeof_spkt fresh ses_dn_timer reason
  | R_ActIntrResponse => SActIntrResponse sizeof_spkt fresh ses_dn_timer
  | R_ActDisc reason => SActDiscRequest sizeof_spkt fresh ses_dn_timer reason
  | R_ActDiscResponse => SActDiscResponse sizeof_spkt fresh ses_dn_timer
  | R_ActEnd data cc => result (SActEndRequest sizeof_spkt fresh ses_dn_timer data cc)
  | R_ActEndResponse data cc => SActEndResponse sizeof_spkt fresh ses_dn_timer data cc
  | R_UReport reason data cc => SUReportRequest sizeof_spkt fresh ses_dn_timer reason data cc
  | R_Capd data cc => SCapdRequest sizeof_spkt fresh ses_dn_timer data cc
  | R_CapdResponse data cc => SCapdResponse sizeof_spkt fresh ses_dn_timer data cc
  | R_Expd data cc => SExpdRequest sizeof_spkt fresh ses_dn_timer data cc
  | R_Send data cc begin end_ => SSendRequest sizeof_spkt fresh data cc begin end_
  | R_Typed data cc => STypedRequest sizeof_spkt fresh data cc
  | R_Write fuel typed uv => SWriteRequest sizeof_spkt fresh fuel typed uv
  | R_Rel data cc => result (SRelRequest sizeof_spkt fresh ses_ab_timer ses_dn_timer ses_rf_timer data cc)
  | R_RelRetry => result (SRelRetryRequest sizeof_spkt fresh ses_ab_timer ses_dn_timer ses_rf_timer)
  | R_RelResponse status data cc => SRelResponse sizeof_spkt fresh ses_dn_timer status data cc
  | R_UAbort data cc => SUAbortRequest sizeof_spkt fresh ses_ab_timer ses_dn_timer data cc
  | R_Read => result (SReadRequest sizeof_spkt sizeof_qbuf fresh ses_ab_timer ses_dn_timer ses_rf_timer)
  end.
End Perform.

(** ** Sets of tokens *)

(** The tokens that were negotiated. *)
Definition tokens_of (b : ssapblk) : Z := dotokens (fun requires _ bit t => if needs b requires then Z.lor t bit else t) 0.

(** The tokens of one word are among those of the other. *)
Definition among (v w : Z) : Prop := forall k, 0 <= k -> Z.testbit v k = true -> Z.testbit w k = true.

Lemma among_refl v : among v v.
Proof. intros k _ T; exact T. Qed.

Lemma among_trans u v w : among u v -> among v w -> among u w.
Proof. intros A B k K T; auto. Qed.

Lemma among_0 w : among 0 w.
Proof. intros k _; rewrite Z.bits_0; discriminate. Qed.

Lemma among_lor u v w : among u w -> among v w -> among (Z.lor u v) w.
Proof. intros A B k K; rewrite Z.lor_spec; intros T; apply orb_true_iff in T as [T | T]; auto. Qed.

Lemma among_lor_l u v w : among u v -> among u (Z.lor v w).
Proof. intros A k K T; rewrite Z.lor_spec, (A k K T); reflexivity. Qed.

Lemma among_lor_r u v w : among u w -> among u (Z.lor v w).
Proof. intros A k K T; rewrite Z.lor_spec, (A k K T); apply orb_true_r. Qed.

Lemma among_land_l u v : among (Z.land u v) u.
Proof. intros k K; rewrite Z.land_spec; intros T; apply andb_true_iff in T; tauto. Qed.

Lemma among_u8 v : among (u8 v) v.
Proof. intros k K; unfold u8; change 256 with (2 ^ 8); destruct (Z.ltb_spec k 8); [rewrite Z.mod_pow2_bits_low by lia; auto | rewrite Z.mod_pow2_bits_high by lia; discriminate]. Qed.

Lemma among_drop v bit w : among v w -> among (u8_bic v bit) w.
Proof. intros A; eapply among_trans; [apply among_u8|]; eapply among_trans; [apply among_land_l | exact A]. Qed.

(** One round of [dotokens]. *)
Ltac each_round := unfold dotokens, token_table; cbn [fold_left].

(** The row of a token. *)
Ltac in_table := repeat first [left; reflexivity | right].

Lemma token_exists b r s bit : In (r, s, bit) token_table -> needs b r = true -> among bit (tokens_of b).
Proof.
  intros [E | [E | [E | [E | []]]]] N; injection E as <- <- <-; unfold tokens_of; each_round; rewrite N.
  all: repeat match goal with |- context [needs ?b ?r] => destruct (needs b r) end;
    repeat first [apply among_refl | apply among_lor_r, among_refl | apply among_lor_l].
Qed.

Lemma among_existing b w : among (existing b w) (tokens_of b) /\ among (existing b w) w.
Proof.
  assert (B : forall r s bit, In (r, s, bit) token_table -> meets w bit = true -> among bit w).
  { intros r s bit Tk; unfold meets; destruct (Z.eqb_spec (Z.land w bit) 0) as [|M]; [discriminate|]; intros _ k K T.
    assert (P : exists j, 0 <= j /\ bit = 2 ^ j).
    { destruct Tk as [E | [E | [E | [E | []]]]]; injection E as <- <- <-; [exists 6 | exists 4 | exists 2 | exists 0]; split; reflexivity || lia. }
    destruct P as (j & J & ->); destruct (Z.eqb_spec j k) as [->|Ne]; [|rewrite Z.pow2_bits_false in T by exact Ne; discriminate].
    destruct (Z.testbit w k) eqn:W; [reflexivity|]; destruct M; apply Z.bits_inj'; intros n Hn; rewrite Z.land_spec, Z.bits_0, Z.pow2_bits_eqb by lia.
    destruct (Z.eqb_spec k n) as [<-|]; [rewrite W; reflexivity | apply andb_false_r]. }
  unfold existing; each_round; split.
  all: repeat match goal with |- context [if needs ?b ?r && meets ?w ?bit then _ else _] => destruct (needs b r) eqn:?; destruct (meets w bit) eqn:?; cbn [andb] end.
  all: repeat apply among_lor; try apply among_0.
  all: first [eapply token_exists; [in_table | assumption] | eapply B; [in_table | assumption]].
Qed.

(** ** Well-formed blocks *)

Record wf (b : ssapblk) : Prop := {
  (** no token that was not negotiated *)
  wf_owned : among (sb_owned b) (tokens_of b);
  wf_pr : In (sb_pr b) [SPDU_PR; SPDU_MAA; SPDU_RS; SPDU_RA; SPDU_AB];
  (** the packets that are kept: a category 0 SPDU, or the RS of a release *)
  wf_spdu : match sb_spdu b with Some k => In (s_code (p_spkt k)) [SPDU_GT; SPDU_PT; SPDU_RS] | None => True end;
  wf_xspdu : match sb_xspdu b with Some k => s_code (p_spkt k) = SPDU_EX | None => True end
}.

(** What was negotiated. *)
Definition terms (b : ssapblk) : Z * Z * Z * Z := (sb_version b, sb_tsdu_us b, sb_tsdu_them b, sb_requirements b).

(** The block goes from [b] to [b']: the terms stay, and what is well formed
    stays so. *)
Definition evolves (b b' : ssapblk) : Prop := terms b' = terms b /\ (wf b -> wf b').

Lemma evolves_refl b : evolves b b.
Proof. split; auto. Qed.

Lemma evolves_trans a b c : evolves a b -> evolves b c -> evolves a c.
Proof. intros (T & W) (T' & W'); split; [congruence | auto]. Qed.

Lemma tokens_terms b b' : terms b' = terms b -> tokens_of b' = tokens_of b.
Proof. unfold terms, tokens_of; intros T; injection T as _ _ _ R; each_round; unfold needs; rewrite R; reflexivity. Qed.

Lemma evolves_owned v b : (wf b -> among v (tokens_of b)) -> evolves b (set_owned v b).
Proof. intros A; split; [reflexivity|]; intros W; split; [exact (A W) | apply W | apply W | apply W]. Qed.

Lemma evolves_pr v b : In v [SPDU_PR; SPDU_MAA; SPDU_RS; SPDU_RA; SPDU_AB] -> evolves b (set_pr v b).
Proof. intros I; split; [reflexivity|]; intros W; split; [apply W | exact I | apply W | apply W]. Qed.

Lemma evolves_spdu v b : match v with Some k => In (s_code (p_spkt k)) [SPDU_GT; SPDU_PT; SPDU_RS] | None => True end -> evolves b (set_spdu v b).
Proof. intros I; split; [reflexivity|]; intros W; split; [apply W | apply W | exact I | apply W]. Qed.

Lemma evolves_xspdu v b : match v with Some k => s_code (p_spkt k) = SPDU_EX | None => True end -> evolves b (set_xspdu v b).
Proof. intros I; split; [reflexivity|]; intros W; split; [apply W | apply W | apply W | exact I]. Qed.

(** The other fields. *)
Lemma evolves_flags v b : evolves b (set_flags v b).
Proof. split; [reflexivity|]; intros []; split; assumption. Qed.
Lemma evolves_retry v b : evolves b (set_retry v b).
Proof. split; [reflexivity|]; intros []; split; assumption. Qed.
Lemma evolves_V x y z b : evolves b (set_V x y z b).
Proof. split; [reflexivity|]; intros []; split; assumption. Qed.
Lemma evolves_rs x y b : evolves b (set_rs x y b).
Proof. split; [reflexivity|]; intros []; split; assumption. Qed.
Lemma evolves_rsettings v b : evolves b (set_rsettings v b).
Proof. split; [reflexivity|]; intros []; split; assumption. Qed.
Lemma evolves_ssdu x y b : evolves b (set_ssdu x y b).
Proof. split; [reflexivity|]; intros []; split; assumption. Qed.
Lemma evolves_code v b : evolves b (set_code v b).
Proof. split; [reflexivity|]; intros []; split; assumption. Qed.

Create HintDb evolves.
#[export] Hint Resolve evolves_refl evolves_flags evolves_retry evolves_V evolves_rs evolves_rsettings evolves_ssdu evolves_code : evolves.

(** A function on blocks along which every block evolves. *)
Definition safe (f : ssapblk -> ssapblk) : Prop := forall b, evolves b (f b).

Lemma safe_id : safe (fun b => b).
Proof. intros b; apply evolves_refl. Qed.

Lemma safe_comp f g : safe f -> safe g -> safe (fun b => f (g b)).
Proof. intros F G b; eapply evolves_trans; [apply G | apply F]. Qed.

Lemma evolves_take r s bit b : In (r, s, bit) token_table -> needs b r = true -> evolves b (take_token bit b).
Proof. intros I N; apply evolves_owned; intros W; apply among_lor; [apply W | eapply token_exists; eassumption]. Qed.

Lemma evolves_drop bit b : evolves b (drop_token bit b).
Proof. apply evolves_owned; intros W; apply among_drop, W. Qed.

(** A step for each token that exists. *)
Lemma safe_dotokens f : (forall r s bit b, In (r, s, bit) token_table -> evolves b (f r s bit b)) -> safe (dotokens f).
Proof.
  intros F b; unfold dotokens; assert (G : forall l b, (forall t, In t l -> In t token_table) ->
    evolves b (fold_left (fun a t => let '(requires, shift, bit) := t in f requires shift bit a) l b)).
  { clear b; induction l as [|((r, s), bit) l IH]; intros b I; cbn [fold_left]; [apply evolves_refl|].
    eapply evolves_trans; [apply (F r s bit), I; left; reflexivity | apply IH; intros t T; apply I; right; exact T]. }
  apply G; auto.
Qed.

Lemma evolves_assign r s bit i b : In (r, s, bit) token_table -> needs b r = true -> evolves b (assign_token i bit b).
Proof. intros I N; unfold assign_token; destruct (Bool.eqb _ _); [eapply evolves_take; eassumption | apply evolves_drop]. Qed.

Lemma safe_settle settings : safe (settle_tokens settings).
Proof.
  apply safe_dotokens; intros r s bit b I; destruct (needs b r) eqn:N; [|apply evolves_refl].
  destruct (_ =? _); [eapply evolves_assign; eassumption|]; destruct (_ =? _); [eapply evolves_assign; eassumption | apply evolves_refl].
Qed.

Lemma safe_settle_received settings : safe (settle_received settings).
Proof.
  apply safe_dotokens; intros r s bit b I; destruct (needs b r) eqn:N; [|apply evolves_refl]; cbv zeta.
  repeat (destruct (_ =? _); try (eapply evolves_assign; eassumption)); apply evolves_refl.
Qed.

Lemma safe_take_all : safe take_all.
Proof. apply safe_dotokens; intros r s bit b I; destruct (needs b r) eqn:N; [eapply evolves_take; eassumption | apply evolves_refl]. Qed.

(** ** Computations that keep the invariant *)

(** [m] does not touch the block. *)
Definition still {A} (m : sess A) : Prop := forall st r st', m st = Val (r, st') -> ses_sb st' = ses_sb st.

(** From the block [b], [m] ends with a block [b] evolves to. *)
Definition keeps {A} (b : ssapblk) (m : sess A) : Prop := forall st r st', ses_sb st = b -> m st = Val (r, st') -> evolves b (ses_sb st').

Lemma bind_inv {A B} (m : sess A) (k : A -> sess B) st r st' : bind m k st = Val (r, st') -> exists a st1, m st = Val (a, st1) /\ k a st1 = Val (r, st').
Proof. unfold bind; destruct (m st) as [(a, st1)|]; [eauto | discriminate]. Qed.

Lemma still_bind {A B} (m : sess A) (k : A -> sess B) : still m -> (forall a, still (k a)) -> still (bind m k).
Proof. intros M K st r st' E; apply bind_inv in E as (a & st1 & E1 & E2); rewrite (K _ _ _ _ E2); apply (M _ _ _ E1). Qed.

Lemma keeps_still {A} b (m : sess A) : still m -> keeps b m.
Proof. intros S st r st' <- E; rewrite (S _ _ _ E); apply evolves_refl. Qed.

Lemma keeps_bind_still {A B} b (m : sess A) (k : A -> sess B) : still m -> (forall a, keeps b (k a)) -> keeps b (bind m k).
Proof. intros S K st r st' E0 E; apply bind_inv in E as (a & st1 & E1 & E2); apply (K a _ _ _) in E2; [exact E2 | rewrite (S _ _ _ E1); exact E0]. Qed.

Lemma keeps_bind {A B} b (m : sess A) (k : A -> sess B) : keeps b m -> (forall b' a, keeps b' (k a)) -> keeps b (bind m k).
Proof.
  intros M K st r st' E0 E; apply bind_inv in E as (a & st1 & E1 & E2).
  eapply evolves_trans; [exact (M _ _ _ E0 E1) | exact (K _ a _ _ _ eq_refl E2)].
Qed.

Lemma keeps_get {B} b (k : ssapblk -> sess B) : keeps b (k b) -> keeps b (bind get k).
Proof. intros K st r st' E0 E; unfold bind, get in E; destruct (ses_gone st); [discriminate|]; rewrite E0 in E; exact (K _ _ _ E0 E). Qed.

Lemma keeps_put {B} b b' (k : unit -> sess B) : evolves b b' -> keeps b' (k tt) -> keeps b (bind (put b') k).
Proof.
  intros V K st r st' E0 E; unfold bind, put in E; destruct (ses_gone st); [discriminate|].
  eapply evolves_trans; [exact V | exact (K _ _ _ (eq_refl : ses_sb (Ses b' _ _ _ _) = b') E)].
Qed.

Lemma keeps_update {B} b f (k : unit -> sess B) : evolves b (f b) -> keeps (f b) (k tt) -> keeps b (bind (update f) k).
Proof.
  intros V K st r st' E0 E; unfold bind, update, put in E; destruct (ses_gone st); [discriminate|]; rewrite E0 in E.
  eapply evolves_trans; [exact V | exact (K _ _ _ (eq_refl : ses_sb (Ses (f b) _ _ _ _) = f b) E)].
Qed.

Lemma keeps_update_end b f : evolves b (f b) -> keeps b (update f).
Proof. intros V st r st' E0 E; unfold update, put in E; destruct (ses_gone st); [discriminate|]; injection E as _ <-; cbn; rewrite E0; exact V. Qed.

Lemma keeps_put_end b b' : evolves b b' -> keeps b (put b').
Proof. intros V st r st' E0 E; unfold put in E; destruct (ses_gone st); [discriminate|]; injection E as _ <-; exact V. Qed.

Lemma still_ret {A} (a : A) : still (ret a).
Proof. intros st r st' E; injection E as _ <-; reflexivity. Qed.
Lemma still_undefined {A} : still (@undefined A).
Proof. intros st r st' E; discriminate. Qed.
Lemma still_lift {A} (m : cres A) : still (lift m).
Proof. intros st r st' E; unfold lift in E; destruct m; [injection E as _ <-; reflexivity | discriminate]. Qed.
Lemma still_get : still get.
Proof. intros st r st' E; unfold get in E; destruct (ses_gone st); [discriminate | injection E as _ <-; reflexivity]. Qed.
Lemma still_get_si : still get_si.
Proof. intros st r st' E; injection E as _ <-; reflexivity. Qed.
Lemma still_get_tp : still get_tp.
Proof. intros st r st' E; injection E as _ <-; reflexivity. Qed.
Lemma still_set_si si : still (set_si si).
Proof. intros st r st' E; injection E as _ <-; reflexivity. Qed.
Lemma still_set_tp t : still (set_tp t).
Proof. intros st r st' E; injection E as _ <-; reflexivity. Qed.

Create HintDb still.
#[export] Hint Resolve still_ret still_undefined still_lift still_get still_get_si still_get_tp still_set_si still_set_tp : still.

(** Splits a computation into its steps. *)
Ltac still :=
  repeat first
    [ solve [auto with still]
    | apply still_bind; [|intros ?]
    | match goal with |- still (match ?x with _ => _ end) => destruct x end
    | match goal with |- still (let '_ := ?x in _) => destruct x end ].

Lemma still_ssaplose r : still (ssaplose r).
Proof. unfold ssaplose; still. Qed.
#[export] Hint Resolve still_ssaplose : still.
Lemma still_lose_with {A} `{Failure A} e : still (lose_with e).
Proof. unfold lose_with; still. Qed.
Lemma still_TRequest x o : still (TRequest x o).
Proof. unfold TRequest; still. Qed.
Lemma still_TReadRequest : still TReadRequest.
Proof. unfold TReadRequest; still. Qed.
Lemma still_TDiscRequest : still TDiscRequest.
Proof. unfold TDiscRequest; still. Qed.
Lemma still_ts2sslose r : still (ts2sslose r).
Proof. unfold ts2sslose; still. Qed.
#[export] Hint Resolve @still_lose_with still_TRequest still_TReadRequest still_TDiscRequest still_ts2sslose : still.

(** ** The functions of the writers *)

Ltac keeps_still := apply keeps_still; auto with still.

(** Splits a computation that works on the block [b]. *)
Ltac keeps_step :=
  first
    [ solve [keeps_still]
    | apply keeps_get
    | match goal with |- keeps _ (match ?x with _ => _ end) => destruct x eqn:? end
    | match goal with |- keeps _ (let '_ := ?x in _) => destruct x eqn:? end
    | apply keeps_bind_still; [solve [auto with still]|intros ?]
    | apply keeps_update; [solve [auto with evolves]|]
    | apply keeps_update_end; solve [auto with evolves]
    | apply keeps_put; [solve [auto with evolves]|] ].
Ltac keeps := repeat keeps_step.

Lemma keeps_guarded {A} `{Failure A} b l (k : sess A) : (check l = None -> keeps b k) -> keeps b (guarded l k).
Proof. intros K; unfold guarded; destruct (check l); [keeps_still | auto]. Qed.

Lemma still_guarded {A} `{Failure A} l (k : sess A) : still k -> still (guarded l k).
Proof. intros K; unfold guarded; destruct (check l); auto with still. Qed.

(** The guards that let a computation go on are all unmet. *)
Lemma check_none l : check l = None -> forall c e, In (c, e) l -> c = false.
Proof. induction l as [|(c, e) l IH]; cbn [check In]; [tauto|]; destruct c; [discriminate|]; intros C ? ? [I | I]; [injection I as <- _; reflexivity | eauto]. Qed.

Section Writers.
Context `{Allocator} (sizeof_spkt sizeof_qbuf : Z) (fresh : Z -> list Z) (ses_ab_timer ses_dn_timer ses_rf_timer : Z).

Lemma still_freesblk connected : still (freesblk ses_dn_timer connected).
Proof.
  unfold freesblk; apply still_bind; [apply still_get|]; intros b; apply still_bind; [destruct connected; still|].
  intros _ st r st' E; injection E as _ <-; reflexivity.
Qed.

Lemma still_spkt2sd s expedited : still (spkt2sd fresh s expedited).
Proof. unfold spkt2sd; still. Qed.

Lemma still_spktlose reason : still (spktlose sizeof_spkt fresh ses_ab_timer ses_rf_timer reason).
Proof.
  unfold spktlose; apply still_bind; [auto with still|]; intros _; destruct (if _ && _ then _ else _); [|auto with still].
  apply still_bind; [intros st r st' E; injection E as _ <-; reflexivity|]; intros expd.
  apply still_bind; [apply still_spkt2sd|]; intros value; still.
Qed.

Lemma still_read_spdu qb len cat0 : still (read_spdu sizeof_spkt fresh qb len cat0).
Proof. intros st r st' E; unfold read_spdu in E; destruct tsdu2spkt as [(((s, cc), q), buffer)|]; [injection E as _ <-; reflexivity | discriminate]. Qed.

Lemma still_send octets : still (send octets).
Proof. unfold send; still. Qed.
End Writers.
#[export] Hint Resolve still_freesblk still_spkt2sd still_spktlose still_read_spdu still_send : still.

Section Keeps.
Context `{Allocator} (sizeof_spkt sizeof_qbuf : Z) (fresh : Z -> list Z) (ses_ab_timer ses_dn_timer ses_rf_timer : Z).

Lemma still_SWriteRequestAux code data cc type ssn settings id oid ref :
  still (SWriteRequestAux sizeof_spkt fresh code data cc type ssn settings id oid ref).
Proof. unfold SWriteRequestAux; still. Qed.

Lemma still_ssdu_loop fuel b code begin end_ n c : still (ssdu_loop sizeof_spkt fresh fuel b code begin end_ n c).
Proof.
  revert begin n c; induction fuel as [|fuel IH]; intros begin n c; cbn [ssdu_loop]; destruct c as [((bp, cc), uvs)|]; auto with still.
  still; apply IH.
Qed.

Lemma still_SDataRequestAux fuel code uv begin end_ : still (SDataRequestAux sizeof_spkt fresh fuel code uv begin end_).
Proof.
  unfold SDataRequestAux; apply still_bind; [apply still_get|]; intros b; apply still_guarded, still_bind; [apply still_lift|].
  intros n; destruct (n =? 0); [apply still_ssaplose|]; destruct uv; [apply still_undefined | apply still_ssdu_loop].
Qed.

(** *** Reading *)

Lemma evolves_spdu_none b : evolves b (set_spdu None b).
Proof. apply evolves_spdu; exact I. Qed.

Lemma evolves_xspdu_none b : evolves b (set_xspdu None b).
Proof. apply evolves_xspdu; exact I. Qed.

Hint Resolve evolves_spdu_none evolves_xspdu_none : evolves.
Hint Resolve still_SWriteRequestAux still_SDataRequestAux : still.

Lemma one_of_in code l : one_of code l = true -> In code l.
Proof. unfold one_of; rewrite existsb_exists; intros (x & I & E); apply Z.eqb_eq in E; subst; exact I. Qed.

Lemma keeps_sb2spkt_second b tx p qb cc : In (s_code p) [SPDU_GT; SPDU_PT] -> keeps b (sb2spkt_second sizeof_spkt fresh ses_ab_timer ses_rf_timer tx p qb cc).
Proof.
  intros C; unfold sb2spkt_second; apply keeps_update; [apply evolves_spdu; cbn [p_spkt]; destruct C as [C | [C | []]]; rewrite <- C; cbn; tauto|].
  apply keeps_bind_still; [apply still_read_spdu|]; intros ((s, n), q); cbv zeta.
  destruct (accepted s) as [reason | s']; [keeps|].
  repeat match goal with |- context [if ?c then _ else _] => lazymatch c with keeps_cat0 _ _ => fail | _ => destruct c end end.
  all: first [solve [keeps] | apply keeps_bind; [destruct (keeps_cat0 _ _); keeps | intros; keeps]].
Qed.

Lemma keeps_sb2spkt b ty : keeps b (sb2spkt sizeof_spkt fresh ses_ab_timer ses_rf_timer ty).
Proof.
  unfold sb2spkt; apply keeps_get.
  assert (W : keeps b (do r <~ (match ty with Some tx => ret (inr tx) | None => TReadRequest end);
      match r with
      | inl reason => exec (if reason =? DR_TIMER then ssaplose SC_TIMER else ts2sslose reason); ret None
      | inr tx => sb2spkt_first sizeof_spkt fresh ses_ab_timer ses_rf_timer tx
      end)).
  { apply keeps_bind_still; [still|]; intros [reason | tx]; [keeps_still; still|].
    unfold sb2spkt_first; apply keeps_bind_still; [apply still_read_spdu|]; intros ((s, n), q); cbv zeta.
    destruct (accepted s) as [reason | s']; [keeps|].
    destruct (one_of (s_code (is_expd tx s')) [SPDU_GT; SPDU_PT]) eqn:C; [|keeps].
    destruct (_ <=? 0); [keeps | apply keeps_sb2spkt_second, one_of_in, C]. }
  destruct (if sb_pr b =? SPDU_PR then sb_xspdu b else None); [keeps|]; destruct (sb_spdu b); [keeps | exact W].
Qed.

(** *** Requests *)

Lemma keeps_finish b ok result : (keeps b ok) -> keeps b (finish ses_dn_timer ok result).
Proof. intros K; unfold finish; apply keeps_bind; [destruct (result =? NOTOK); [keeps_still | exact K] | intros; keeps_still]. Qed.

Lemma keeps_with_sd {A} `{Failure A} sig b (k : sess A) : keeps b k -> keeps b (with_sd sig k).
Proof.
  intros K st r st' E0; unfold with_sd; destruct (ses_gone st).
  - intros E; rewrite (still_lose_with _ _ _ _ E), E0; apply evolves_refl.
  - apply (keeps_guarded b (sig (ses_sb st)) k (fun _ => K) _ _ _ E0).
Qed.

Lemma keeps_toomuch {A} `{Failure A} data cc m b (k : Z -> sess A) : (forall cc, keeps b (k cc)) -> keeps b (toomuchP data cc m k).
Proof. intros K; unfold toomuchP; destruct data; [apply keeps_get, keeps_guarded; auto | auto]. Qed.

Lemma evolves_raise f b : evolves b (raise f b).
Proof. apply evolves_flags. Qed.
Lemma evolves_lower f b : evolves b (lower f b).
Proof. apply evolves_flags. Qed.
Lemma evolves_next_ssn b : evolves b (next_ssn b).
Proof. apply evolves_V. Qed.
Lemma evolves_owned_0 b : evolves b (set_owned 0 b).
Proof. apply evolves_owned; intros _; apply among_0. Qed.
Hint Resolve evolves_raise evolves_lower evolves_next_ssn evolves_owned_0 evolves_drop : evolves.

(** Composition of updates, by their outermost step. *)
Ltac evolves :=
  cbv beta zeta;
  repeat first
    [ solve [auto with evolves]
    | match goal with |- evolves _ (if ?c then _ else _) => destruct c end
    | match goal with |- evolves ?b (?f ?x) => eapply (evolves_trans b x); [|solve [auto with evolves]] end
    | match goal with |- evolves ?b (?f ?y ?x) => eapply (evolves_trans b x); [|solve [auto with evolves]] end
    | match goal with |- evolves ?b (set_rs ?y ?z ?x) => eapply (evolves_trans b x); [|solve [auto with evolves]] end
    | match goal with |- evolves ?b (set_V ?y ?z ?w ?x) => eapply (evolves_trans b x); [|solve [auto with evolves]] end ].

Lemma evolves_confirm_all b : evolves b (confirm_all b).
Proof. unfold confirm_all; evolves. Qed.
Lemma evolves_settle_activity b : evolves b (settle_activity b).
Proof. unfold settle_activity; evolves. Qed.
Hint Resolve evolves_confirm_all evolves_settle_activity : evolves.
Lemma evolves_confirm_major b : evolves b (confirm_major b).
Proof. unfold confirm_major; evolves. Qed.
Lemma evolves_settle settings b : evolves b (settle_tokens settings b).
Proof. apply safe_settle. Qed.
Hint Resolve evolves_confirm_major evolves_settle : evolves.

(** Splits a request. *)
Ltac request :=
  cbv beta zeta;
  repeat first
    [ solve [keeps_still]
    | match goal with
      | |- keeps _ (guarded _ _) => apply keeps_guarded; intros _
      | |- keeps _ (with_sd _ _) => apply keeps_with_sd
      | |- keeps _ (toomuchP _ _ _ _) => apply keeps_toomuch; intros ?
      | |- keeps _ (finish _ _ _) => apply keeps_finish
      | |- keeps _ (SDoActivityAux _ _ _) => unfold SDoActivityAux
      | |- keeps _ (with_ssn _ _) => unfold with_ssn
      | |- keeps _ (result _) => unfold result
      end
    | apply keeps_get
    | match goal with |- keeps _ (match ?x with _ => _ end) => destruct x eqn:? end
    | apply keeps_bind_still; [solve [auto with still]|intros ?]
    | apply keeps_update; [solve [evolves]|]
    | apply keeps_update_end; solve [evolves]
    | apply keeps_put; [solve [evolves]|]
    | apply keeps_put_end; solve [evolves]
    | apply keeps_bind; [|intros ? ?] ].

Lemma keeps_SGToken b tokens : keeps b (SGTokenRequest sizeof_spkt fresh ses_dn_timer tokens).
Proof. unfold SGTokenRequest, SGTokenRequestAux; request. Qed.

Lemma keeps_SPToken b tokens data cc : keeps b (SPTokenRequest sizeof_spkt fresh ses_dn_timer tokens data cc).
Proof. unfold SPTokenRequest, SPTokenRequestAux; request. Qed.

Lemma keeps_SMinSync b type data cc : keeps b (SMinSyncRequest sizeof_spkt fresh ses_dn_timer type data cc).
Proof. unfold SMinSyncRequest, SMinSyncRequestAux; request. Qed.

Lemma keeps_SMinSyncResponse b ssn data cc : keeps b (SMinSyncResponse sizeof_spkt fresh ses_dn_timer ssn data cc).
Proof. unfold SMinSyncResponse, SMinSyncResponseAux; request. Qed.

Lemma keeps_SMajSyncAux b data cc opts : keeps b (SMajSyncRequestAux sizeof_spkt fresh ses_dn_timer data cc opts).
Proof. unfold SMajSyncRequestAux; request. Qed.

Lemma keeps_SMajSyncResponseAux b data cc : keeps b (SMajSyncResponseAux sizeof_spkt fresh ses_dn_timer data cc).
Proof. unfold SMajSyncResponseAux; request. Qed.

Lemma keeps_SReSync b type ssn settings data cc : keeps b (SReSyncRequest sizeof_spkt fresh ses_dn_timer type ssn settings data cc).
Proof. unfold SReSyncRequest, SReSyncRequestAux; request. Qed.

Lemma keeps_SReSyncResponse b ssn settings data cc : keeps b (SReSyncResponse sizeof_spkt fresh ses_dn_timer ssn settings data cc).
Proof. unfold SReSyncResponse, SReSyncResponseAux; request. Qed.

Lemma keeps_SGControl b : keeps b (SGControlRequest sizeof_spkt fresh ses_dn_timer).
Proof. unfold SGControlRequest, SGControlRequestAux; request. Qed.

Lemma keeps_SActStart b id data cc : keeps b (SActStartRequest sizeof_spkt fresh ses_dn_timer id data cc).
Proof. unfold SActStartRequest, SActStartRequestAux; request. Qed.

Lemma keeps_SActResume b id oid ssn ref data cc : keeps b (SActResumeRequest sizeof_spkt fresh ses_dn_timer id oid ssn ref data cc).
Proof. unfold SActResumeRequest, SActResumeRequestAux; request. Qed.

Lemma keeps_SActIntr b type reason : keeps b (SActIntr sizeof_spkt fresh ses_dn_timer type reason).
Proof. unfold SActIntr, SActIntrRequestAux; request. Qed.

Lemma keeps_SActIntrResponseAux b type : keeps b (SActIntrResponseAux sizeof_spkt fresh ses_dn_timer type).
Proof. unfold SActIntrResponseAux; request. Qed.

Lemma keeps_SUReport b reason data cc : keeps b (SUReportRequest sizeof_spkt fresh ses_dn_timer reason data cc).
Proof. unfold SUReportRequest, SUReportRequestAux; request. Qed.

Lemma keeps_SCapd b data cc : keeps b (SCapdRequest sizeof_spkt fresh ses_dn_timer data cc).
Proof. unfold SCapdRequest, SCapdRequestAux; request. Qed.

Lemma keeps_SCapdResponse b data cc : keeps b (SCapdResponse sizeof_spkt fresh ses_dn_timer data cc).
Proof. unfold SCapdResponse, SCapdResponseAux; request. Qed.

Lemma keeps_SExpd b data cc : keeps b (SExpdRequest sizeof_spkt fresh ses_dn_timer data cc).
Proof. unfold SExpdRequest, SExpdRequestAux; request. Qed.

Lemma keeps_ssdu_request b code data cc begin end_ : keeps b (ssdu_request sizeof_spkt fresh code data cc begin end_).
Proof. unfold ssdu_request; request. Qed.

(** *** Release and abort *)

Lemma keeps_rel_send b code : keeps b (rel_send fresh code).
Proof. unfold rel_send; request. Qed.

Lemma still_rel_lost : still (rel_lost ses_dn_timer).
Proof. unfold rel_lost; still. Qed.
Hint Resolve still_rel_lost : still.

Lemma keeps_rel_wait b : keeps b (rel_wait sizeof_spkt fresh ses_ab_timer ses_dn_timer ses_rf_timer).
Proof.
  unfold rel_wait; apply keeps_bind; [apply keeps_sb2spkt|]; clear b; intros b [k|]; [|request; still].
  apply keeps_get; cbv zeta.
  destruct (_ =? SPDU_FN); [request|]; destruct (_ =? SPDU_DN); [request|]; destruct (_ =? SPDU_NF); [request; still|].
  destruct (Z.eqb_spec (s_code (p_spkt k)) SPDU_RS) as [C|]; [|destruct (_ =? SPDU_AB); request; still].
  apply keeps_put; [apply evolves_spdu; rewrite C; cbn; tauto | keeps_still; still].
Qed.

Lemma keeps_rel_loop fuel : forall b code, keeps b (rel_loop sizeof_spkt fresh ses_ab_timer ses_dn_timer ses_rf_timer fuel code).
Proof.
  induction fuel as [|fuel IH]; intros b code; cbn [rel_loop]; [keeps_still|].
  apply keeps_bind; [destruct code; [apply keeps_rel_send | keeps_still]|]; clear b; intros b r.
  destruct (r =? NOTOK); [keeps_still|].
  apply keeps_bind; [apply keeps_rel_wait|]; clear b; intros b [c | x]; [apply IH | keeps_still].
Qed.

Lemma keeps_SRelRetryAux b : keeps b (SRelRetryRequestAux sizeof_spkt fresh ses_ab_timer ses_dn_timer ses_rf_timer).
Proof. unfold SRelRetryRequestAux; apply keeps_get, keeps_bind_still; [apply still_get_tp|]; intros t; apply keeps_rel_loop. Qed.

Lemma keeps_SRel b data cc : keeps b (SRelRequest sizeof_spkt fresh ses_ab_timer ses_dn_timer ses_rf_timer data cc).
Proof.
  unfold SRelRequest, SRelRequestAux; apply keeps_with_sd, keeps_toomuch; intros n; apply keeps_get, keeps_guarded; intros _.
  destruct newspkt; [apply keeps_put; [auto with evolves | apply keeps_SRelRetryAux] | keeps_still].
Qed.

Lemma keeps_SRelResponse b status data cc : keeps b (SRelResponse sizeof_spkt fresh ses_dn_timer status data cc).
Proof. unfold SRelResponse, SRelResponseAux; request. Qed.

Lemma keeps_SUAbort b data cc : keeps b (SUAbortRequest sizeof_spkt fresh ses_ab_timer ses_dn_timer data cc).
Proof. unfold SUAbortRequest, SUAbortRequestAux, abort_prepare; request. Qed.

(** *** What is read *)

Lemma still_lose_out reason : still (lose_out sizeof_spkt fresh ses_ab_timer ses_rf_timer reason).
Proof. unfold lose_out, leave; still. Qed.
Lemma still_lose_break reason : still (lose_break sizeof_spkt fresh ses_ab_timer ses_rf_timer reason).
Proof. unfold lose_break; still. Qed.
Lemma still_leave e : still (leave e).
Proof. unfold leave; still. Qed.
Lemma still_pass : still pass.
Proof. unfold pass; still. Qed.
Lemma still_indicate si : still (indicate si).
Proof. unfold indicate; still. Qed.
Hint Resolve still_lose_out still_lose_break still_leave still_pass still_indicate : still.

Lemma evolves_set_pr v b : In v [SPDU_PR; SPDU_MAA; SPDU_RS; SPDU_RA; SPDU_AB] -> evolves b (set_pr v b).
Proof. apply evolves_pr. Qed.
Hint Extern 1 (evolves _ (set_pr _ _)) => apply evolves_set_pr; cbn; tauto : evolves.

Lemma keeps_filter_flow b s : keeps b (filter_flow sizeof_spkt fresh ses_ab_timer ses_rf_timer s).
Proof. unfold filter_flow; request. Qed.

Lemma keeps_filter_collision b s : keeps b (filter_collision s).
Proof. unfold filter_collision; request. Qed.

Lemma keeps_filter_exception b s : keeps b (filter_exception s).
Proof. unfold filter_exception; request. Qed.

Lemma keeps_filter_segment b s : keeps b (filter_segment sizeof_spkt fresh ses_ab_timer ses_rf_timer s).
Proof. unfold filter_segment, flush; request. Qed.

Lemma keeps_filter_version b s : keeps b (filter_version sizeof_spkt fresh ses_ab_timer ses_rf_timer s).
Proof. unfold filter_version; request. Qed.

Lemma keeps_filter_unit b s : keeps b (filter_unit sizeof_spkt fresh ses_ab_timer ses_rf_timer s).
Proof. unfold filter_unit; request. Qed.

Lemma evolves_take_existing b word : evolves b (take_token (existing b word) b).
Proof. apply evolves_owned; intros W; apply among_lor; [apply W | apply among_existing]. Qed.
Lemma evolves_take_all b : evolves b (take_all b).
Proof. apply safe_take_all. Qed.
Lemma evolves_settle_received settings b : evolves b (settle_received settings b).
Proof. apply safe_settle_received. Qed.
Lemma evolves_confirm_received b : evolves b (confirm_received b).
Proof. unfold confirm_received; evolves. Qed.
Hint Resolve evolves_take_existing evolves_take_all evolves_settle_received evolves_confirm_received : evolves.

Lemma evolves_append k b b' : append_ssdu k b = Val b' -> evolves b b'.
Proof.
  unfold append_ssdu; destruct (s_qbuf k); [intros E; injection E as <-; apply evolves_refl|].
  cbv zeta; destruct (_ >? INT_MAX); [discriminate|]; intros E; injection E as <-; apply evolves_ssdu.
Qed.

Lemma keeps_lift {A B} b (m : cres A) (k : A -> sess B) : (forall a, m = Val a -> keeps b (k a)) -> keeps b (bind (lift m) k).
Proof. intros K st r st' E0 E; apply bind_inv in E as (a & st1 & E1 & E2); unfold lift in E1; destruct m; [|discriminate]; injection E1 as -> <-; exact (K _ eq_refl _ _ _ E0 E2). Qed.

Lemma keeps_act_PT b s : keeps b (act_PT s).
Proof. unfold act_PT; request. Qed.

Lemma keeps_act_GT b s : keeps b (act_GT sizeof_spkt fresh ses_ab_timer ses_rf_timer s).
Proof.
  unfold act_GT; apply keeps_get; destruct (has b SB_GTC); [keeps_still|]; cbv zeta.
  apply keeps_update; [destruct (is_set s SMASK_GT_TOKEN); [auto with evolves|]; apply evolves_owned; intros W; rewrite Z.lor_0_r; apply W|].
  request.
Qed.

Lemma keeps_act_DT b k : keeps b (act_DT sizeof_spkt fresh ses_ab_timer ses_rf_timer k).
Proof.
  unfold act_DT; cbv zeta; apply keeps_update; [auto with evolves|]; apply keeps_get.
  destruct (ssdu_ends _ _) as [eot|]; [|keeps_still]; apply keeps_lift; intros b' Ap.
  apply keeps_put; [eapply evolves_trans; [exact (evolves_append _ _ _ Ap)|]; evolves|].
  destruct (negb eot); [keeps_still|].
  match goal with |- keeps ?x _ => generalize x; clear; intros b end; cbv zeta; request.
Qed.

Lemma keeps_act_EX b k : s_code (p_spkt k) = SPDU_EX -> keeps b (act_EX sizeof_spkt fresh ses_ab_timer ses_rf_timer k).
Proof.
  intros C; unfold act_EX; apply keeps_get; destruct (negb _); [|keeps_still].
  destruct (sb_xspdu b); [keeps_still | apply keeps_put; [apply evolves_xspdu, C | keeps_still]].
Qed.

Lemma keeps_act_CD b s : keeps b (act_CD sizeof_spkt sizeof_qbuf fresh ses_ab_timer ses_rf_timer s).
Proof. unfold act_CD; cbv zeta; apply keeps_update; [destruct (_ =? SPDU_CD); auto with evolves | request]. Qed.

Lemma keeps_act_GTC b : keeps b (act_GTC sizeof_spkt fresh ses_ab_timer ses_rf_timer).
Proof. unfold act_GTC; request. Qed.

Lemma keeps_act_AE b s : keeps b (act_AE s).
Proof. unfold act_AE; request. Qed.

Lemma keeps_act_MAP b s : keeps b (act_MAP s).
Proof. unfold act_MAP, act_AE; request. Qed.

Lemma keeps_act_MAA b s : keeps b (act_MAA s).
Proof. unfold act_MAA; request. Qed.

Lemma keeps_act_MIP b s : keeps b (act_MIP s).
Proof. unfold act_MIP; request. Qed.

Lemma keeps_act_MIA b s : keeps b (act_MIA s).
Proof. unfold act_MIA; request. Qed.

Lemma keeps_act_RS b s : keeps b (act_RS s).
Proof. unfold act_RS; request. Qed.

Lemma keeps_act_RA b s : keeps b (act_RA s).
Proof. unfold act_RA; request. Qed.

Lemma keeps_act_PR b s : keeps b (act_PR s).
Proof. unfold act_PR; request. Qed.

Lemma keeps_act_ED b s : keeps b (act_ED s).
Proof. unfold act_ED; request. Qed.

Lemma keeps_act_AD b s : keeps b (act_AD s).
Proof. unfold act_AD; request. Qed.

Lemma keeps_act_ADA b s : keeps b (act_ADA s).
Proof. unfold act_ADA; request. Qed.

Lemma keeps_update_ret {A} b f (a : A) : evolves b (f b) -> keeps b (exec update f; ret a).
Proof. intros V; apply keeps_update; [exact V | keeps_still]. Qed.

Lemma keeps_act b k : keeps b (act sizeof_spkt sizeof_qbuf fresh ses_ab_timer ses_rf_timer k).
Proof.
  unfold act; cbv zeta.
  repeat match goal with
  | |- keeps _ (if s_code (p_spkt k) =? SPDU_EX then _ else _) =>
      destruct (Z.eqb_spec (s_code (p_spkt k)) SPDU_EX) as [C|]; [apply keeps_act_EX, C|]
  | |- keeps _ (if ?c then _ else _) => destruct c
  end.
  all: first
    [ apply keeps_act_PT | apply keeps_act_GT | apply keeps_act_DT | apply keeps_act_CD | apply keeps_act_GTC | apply keeps_act_MAP
    | apply keeps_act_MAA | apply keeps_act_MIP | apply keeps_act_MIA | apply keeps_act_RS | apply keeps_act_RA | apply keeps_act_PR
    | apply keeps_act_ED | apply keeps_act_AD | apply keeps_act_ADA | unfold act_GTA, act_ER, act_AS, act_AR, act_FN, act_AB; request ].
Qed.

Lemma keeps_andthen b f k : keeps b f -> (forall b, keeps b k) -> keeps b (andthen f k).
Proof. intros F K; unfold andthen; apply keeps_bind; [exact F | intros b' [e|]; [keeps_still | apply K]]. Qed.

Lemma keeps_read_step b k : keeps b (read_step sizeof_spkt sizeof_qbuf fresh ses_ab_timer ses_rf_timer k).
Proof.
  unfold read_step; apply keeps_andthen; [apply keeps_filter_flow|]; clear b; intros b.
  apply keeps_andthen; [apply keeps_filter_collision|]; clear b; intros b.
  apply keeps_andthen; [apply keeps_filter_exception|]; clear b; intros b.
  apply keeps_andthen; [apply keeps_filter_segment|]; clear b; intros b.
  apply keeps_andthen; [apply keeps_filter_version|]; clear b; intros b.
  apply keeps_andthen; [apply keeps_filter_unit|]; intros b'; apply keeps_act.
Qed.

Lemma still_read_lost out : still (read_lost ses_dn_timer out).
Proof. unfold read_lost; still. Qed.
Hint Resolve still_read_lost : still.

Lemma keeps_spin fuel : forall b async tx, keeps b (spin_loop sizeof_spkt sizeof_qbuf fresh ses_ab_timer ses_dn_timer ses_rf_timer fuel async tx).
Proof.
  induction fuel as [|fuel IH]; intros b async tx; cbn [spin_loop]; [keeps_still|].
  apply keeps_bind; [apply keeps_sb2spkt|]; clear b; intros b [k|]; [|keeps_still].
  apply keeps_bind; [apply keeps_read_step|]; clear b; intros b [r sx | | |]; [keeps_still | | keeps_still | keeps_still].
  apply keeps_get; destruct (_ || _); [apply IH | keeps_still; still].
Qed.

Lemma keeps_SReadRequestAux b async tx : keeps b (SReadRequestAux sizeof_spkt sizeof_qbuf fresh ses_ab_timer ses_dn_timer ses_rf_timer async tx).
Proof.
  intros st r st' E0 E; unfold SReadRequestAux in E; revert E.
  apply keeps_bind_still; [apply still_set_si | intros _; apply keeps_spin | exact E0].
Qed.

Lemma keeps_SRead b : keeps b (SReadRequest sizeof_spkt sizeof_qbuf fresh ses_ab_timer ses_dn_timer ses_rf_timer).
Proof.
  unfold SReadRequest; apply keeps_with_sd, keeps_bind; [apply keeps_SReadRequestAux | intros b' (r, sx); keeps_still].
Qed.

(** *** Any request *)

Lemma keeps_perform b q : keeps b (perform sizeof_spkt sizeof_qbuf fresh ses_ab_timer ses_dn_timer ses_rf_timer q).
Proof.
  assert (Rs : forall A (m : sess (Z * A)), keeps b m -> keeps b (result m)).
  { intros A m M; unfold result; apply keeps_bind; [exact M | intros b' (r, x); keeps_still]. }
  destruct q; cbn [perform]; try apply Rs.
  all: first
    [ apply keeps_SGToken | apply keeps_SPToken | apply keeps_SMinSyncResponse | apply keeps_SReSync | apply keeps_SReSyncResponse
    | apply keeps_SGControl | apply keeps_SActStart | apply keeps_SActResume | apply keeps_SActIntr | apply keeps_SUReport | apply keeps_SCapd
    | apply keeps_SCapdResponse | apply keeps_SExpd | apply keeps_ssdu_request | apply keeps_SRel | apply keeps_SRelResponse | apply keeps_SUAbort
    | apply keeps_SRead | apply keeps_SMinSync
    | unfold SMajSyncResponse, SActEndResponse; apply keeps_with_sd, keeps_toomuch; intros; apply keeps_SMajSyncResponseAux
    | unfold SMajSyncRequest, SActEndRequest; apply keeps_with_sd, keeps_toomuch; intros; apply keeps_SMajSyncAux
    | apply keeps_with_sd, keeps_SActIntrResponseAux
    | solve [unfold SWriteRequest; apply keeps_with_sd; keeps_still]
    | unfold SRelRetryRequest; apply keeps_with_sd, keeps_SRelRetryAux ].
Qed.
End Keeps.

(** ** The theorem *)

(** Several requests, one after the other; the results and the state, or
    undefined behaviour. *)
Fixpoint perform_all `{Allocator} (sizeof_spkt sizeof_qbuf : Z) (fresh : Z -> list Z) (ses_ab_timer ses_dn_timer ses_rf_timer : Z)
    (l : list request) : sess (list Z) :=
  match l with
  | [] => ret []
  | q :: l =>
      do r <~ perform sizeof_spkt sizeof_qbuf fresh ses_ab_timer ses_dn_timer ses_rf_timer q;
      do rs <~ perform_all sizeof_spkt sizeof_qbuf fresh ses_ab_timer ses_dn_timer ses_rf_timer l; ret (r :: rs)
  end.

(** C8. Whatever the user asks for and whatever the transport service
    delivers, answers or refuses, in any order: a session that is well formed
    stays so. It owns no token that was not negotiated; it prepares for an
    SPDU that a PR can announce; the packet that waits after the first of a
    TSDU is a GT or PT, or the RS that stopped a release; the packet that
    waits for the end of a preparation is an EX. The version, the sizes of
    TSDUs and the functional units are those that were negotiated. *)
Theorem session_typed `{Allocator} sizeof_spkt sizeof_qbuf fresh ses_ab_timer ses_dn_timer ses_rf_timer (l : list request) (st st' : session) rs :
  wf (ses_sb st) ->
  perform_all sizeof_spkt sizeof_qbuf fresh ses_ab_timer ses_dn_timer ses_rf_timer l st = Val (rs, st') ->
  wf (ses_sb st') /\ terms (ses_sb st') = terms (ses_sb st).
Proof.
  intros W E; cut (evolves (ses_sb st) (ses_sb st')); [intros (T & K); auto|]; clear W.
  revert st rs E; induction l as [|q l IH]; intros st rs E; cbn [perform_all] in E; [injection E as _ <-; apply evolves_refl|].
  apply bind_inv in E as (r & st1 & E1 & E2); apply bind_inv in E2 as (rs1 & st2 & E2 & E3); injection E3 as _ <-.
  eapply evolves_trans; [exact (keeps_perform _ _ _ _ _ _ _ _ _ _ _ eq_refl E1) | exact (IH _ _ E2)].
Qed.

(** A minor synchronization point, the data token given and had back, and
    expedited data both ways. *)
Definition ex_requests : list request :=
  [R_MinSync SYNC_CONFIRM (Some [7]) 1; R_GToken ST_DAT_TOKEN; R_Read; R_Read; R_Expd (Some [1; 2]) 2].
Definition ex_start : session :=
  ex_session (ex_blk (ors [SB_CONN; SB_INIT]) 5 (ors [SR_HALFDUPLEX; SR_MINORSYNC; SR_EXPEDITED]) 0)
    [inr (ex_tx [1; 3; 16; 1; 1]); inr (Tsdu true [QSeg [5; 0; 9] 3] 3)].

Lemma session_typed_witness : exists st', perform_all (H := plenty) 800 64 zeros 30 30 30 ex_requests ex_start = Val ([OK; OK; DONE; OK; OK], st') /\
  sb_owned (ses_sb st') = 5 /\ sb_V_M (ses_sb st') = 1 /\ wf (ses_sb st') /\ terms (ses_sb st') = terms (ses_sb ex_start).
Proof.
  assert (E : exists st', perform_all (H := plenty) 800 64 zeros 30 30 30 ex_requests ex_start = Val ([OK; OK; DONE; OK; OK], st') /\
    sb_owned (ses_sb st') = 5 /\ sb_V_M (ses_sb st') = 1) by (vm_compute; eexists; split; [reflexivity | split; reflexivity]).
  destruct E as (st' & E & O & V); exists st'; split; [exact E|]; split; [exact O|]; split; [exact V|].
  apply (session_typed (H := plenty) 800 64 zeros 30 30 30 ex_requests ex_start st' [OK; OK; DONE; OK; OK]); [|exact E].
  split; [|cbn; tauto | exact I | exact I]; intros k K; change (tokens_of (ses_sb ex_start)) with 5; auto.
Defined.

(** ** Where a call does not do what it means to *)

Definition ex_units : Z := ors [SR_HALFDUPLEX; SR_EXPEDITED; SR_MINORSYNC; SR_RESYNC].

(** A negative count becomes a large size for [realloc], or frees the block
    that is then used. *)
Lemma SExpdRequest_negative : SExpdRequest (H := plenty) 800 zeros 30 (Some [1; 2]) (-2) (ex_session (ex_blk SB_CONN 5 ex_units 0) []) = UB.
Proof. vm_compute; reflexivity. Qed.

(** Points that were never marked are confirmed. *)
Lemma SMinSyncResponse_ahead : exists st', SMinSyncResponse (H := plenty) 800 zeros 30 700 None 0 (ex_session (ex_blk (ors [SB_CONN; SB_Vsc]) 5 ex_units 0) []) = Val (OK, st') /\
  sb_V_M (ses_sb st') = 0 /\ sb_V_A (ses_sb st') = 701.
Proof. eexists; vm_compute; repeat split. Qed.

(** A serial number that is refused ends the session although the reason is
    not fatal. *)
Lemma SReSyncResponse_bad_set : exists st',
  SReSyncResponse (H := plenty) 800 zeros 30 (-1) 0 None 0 (ex_session (set_rs SYNC_SET 3 (ex_blk (ors [SB_CONN; SB_RA]) 5 ex_units 0)) []) = Val (NOTOK, st') /\
  ses_gone st' = true /\ sa_reason (ses_si st') = SC_PARAMETER.
Proof. eexists; vm_compute; repeat split. Qed.
