(* ===== verification/Message.v ===== *)
(** * ssap: what two sessions tell each other

    The SPDUs of a session that gives tokens, asks for them, marks minor
    synchronization points, confirms them and sends SSDUs, as messages: what
    a request sends, what its TSDU is and what the peer hears. *)

From S2P Require Import Prelude Conv Convert PElement PStream Qbuf Tpkt Tpkt2fd Tcp Tp0 Transfer Spkt Spkt2tsdu Tsdu2spkt Spdu Ssap Sreq Sread Swrite Ssdu Session.
Open Scope Z_scope.
Open Scope c_scope.
Open Scope ses_scope.

(** ** Messages *)

Inductive msg : Type :=
| Give (tokens : Z)
| Please (tokens : Z) (data : option (list Z)) (cc : Z)
| Minor (type ssn : Z) (data : option (list Z)) (cc : Z)
| Ack (ssn : Z) (data : option (list Z)) (cc : Z)
| Ssdu (data : list Z).

(** The packet it is written from. *)
Definition spkt_of (m : msg) : ssapkt :=
  match m with
  | Give w => set_num (Set_ (new_spkt SPDU_GT) (Z.lor SMASK_SPDU_GT SMASK_GT_TOKEN)) N_gt_token w
  | Please w d cc => put_data d cc (set_num (Set_ (new_spkt SPDU_PT) SMASK_PT_TOKEN) N_pt_token w)
  | Minor type n d cc =>
      put_data d cc
        (set_num (Set_ (if type =? SYNC_NOCONFIRM then set_num (Set_ (new_spkt SPDU_MIP) SMASK_MIP_SYNC) N_mip_sync MIP_SYNC_NOEXPL else new_spkt SPDU_MIP)
           SMASK_MIP_SERIAL) N_mip_serial n)
  | Ack n d cc => put_data d cc (set_num (Set_ (new_spkt SPDU_MIA) SMASK_MIA_SERIAL) N_mia_serial n)
  | Ssdu _ => new_spkt SPDU_DT
  end.

(** Its TSDU. *)
Definition wire (m : msg) : list Z :=
  match m with
  | Give _ | Please _ _ _ => enc (spkt_of m)
  | Minor _ _ _ _ | Ack _ _ _ => [cat0_code (s_code (spkt_of m)); 0] ++ enc (spkt_of m)
  | Ssdu d => ssdu_tsdu 0 SPDU_DT true true d
  end.

(** User data of at most 190 octets: with it every SPDU is below the size
    at which its parameters are moved. *)
Definition DATA_MAX := 190.
Definition data_ok (d : option (list Z)) (cc : Z) : Prop := cc <= DATA_MAX /\ (0 < cc -> data_fits d cc).

Definition msg_ok (m : msg) : Prop :=
  match m with
  | Give w => 0 <= w < 256
  | Please w d cc => 0 <= w < 256 /\ data_ok d cc
  | Minor _ n d cc | Ack n d cc => 0 <= n < SERIAL_MAX + 2 /\ data_ok d cc
  | Ssdu d => bytes d /\ d <> [] /\ zlen d <= INT_MAX
  end.

(** ** The codec *)

Lemma put_data_udata d cc s : data_ok d cc -> s_udata (put_data d cc s) = (if cc >? 0 then d else None) /\ s_ulen (put_data d cc s) = Z.max 0 cc /\
  user_octets (put_data d cc s) = if cc >? 0 then match d with Some d => ztake cc d | None => [] end else [].
Proof.
  intros (L & F); unfold put_data, user_octets; rewrite Z.gtb_ltb; destruct (Z.ltb_spec 0 cc); cbn [s_udata s_ulen set_udata Set_]; (split; [reflexivity|]); (split; [lia | reflexivity]).
Qed.

Lemma spkt_of_ok m : msg_ok m -> spkt_ok (spkt_of m).
Proof.
  assert (Pd : forall d cc s, data_ok d cc -> spkt_ok s -> spkt_ok (put_data d cc s)) by (intros d cc s (_ & F) O; apply ok_put_data; auto).
  destruct m; cbn [msg_ok spkt_of]; intros M; repeat match goal with H : _ /\ _ |- _ => destruct H end; try apply Pd; auto with spkt.
  - apply ok_set_num; [|cbn [num_bound]; lia]; apply ok_Set; destruct (type =? SYNC_NOCONFIRM); auto with spkt.
    apply ok_set_num; [auto with spkt | split; [discriminate | reflexivity]].
Qed.

Lemma put_data_code d cc s : s_code (put_data d cc s) = s_code s.
Proof. unfold put_data; destruct (cc >? 0); reflexivity. Qed.
Lemma put_data_num d cc s : s_num (put_data d cc s) = s_num s.
Proof. unfold put_data; destruct (cc >? 0); reflexivity. Qed.
Lemma put_data_set d cc s f : meets SMASK_UDATA_PGI f = false -> is_set (put_data d cc s) f = is_set s f.
Proof.
  intros N; unfold put_data; destruct (cc >? 0); [|reflexivity]; unfold is_set; cbn [s_mask set_udata Set_]; rewrite Z.land_lor_distr_l.
  unfold meets in N; apply negb_false_iff, Z.eqb_eq in N; rewrite N, Z.lor_0_r; reflexivity.
Qed.

(** The codes and the fields of the packets. *)
Lemma spkt_of_code m : s_code (spkt_of m) = match m with Give _ => SPDU_GT | Please _ _ _ => SPDU_PT | Minor _ _ _ _ => SPDU_MIP | Ack _ _ _ => SPDU_MIA | Ssdu _ => SPDU_DT end.
Proof. destruct m; cbn [spkt_of]; rewrite ?put_data_code; try reflexivity; cbn [s_code set_num Set_]; destruct (type =? SYNC_NOCONFIRM); reflexivity. Qed.

Lemma spkt_of_enclose m : is_set (spkt_of m) SMASK_ENCLOSE = false.
Proof.
  destruct m; cbn [spkt_of]; rewrite ?put_data_set by reflexivity; try reflexivity.
  destruct (type =? SYNC_NOCONFIRM); reflexivity.
Qed.

Lemma spkt_of_complete m : complete (spkt_of m) = true.
Proof.
  unfold complete; rewrite spkt_of_code; destruct m; try reflexivity; cbn [spkt_of].
  - destruct (type =? SYNC_NOCONFIRM); codes; rewrite put_data_set by reflexivity; reflexivity.
  - codes; rewrite put_data_set by reflexivity; reflexivity.
Qed.

Lemma spkt_of_readable m : msg_ok m -> readable (spkt_of m) (match m with Give _ | Please _ _ _ => 1 | _ => 0 end).
Proof.
  intros M; split.
  - intros f; destruct m; cbn [spkt_of]; rewrite ?put_data_num; try destruct (type =? SYNC_NOCONFIRM); destruct f; reflexivity.
  - unfold udata_limit; rewrite spkt_of_code; destruct m; cbn [spkt_of msg_ok] in *; try (vm_compute; discriminate).
    all: destruct M as (_ & M); rewrite (proj1 (proj2 (put_data_udata _ _ _ M))); destruct M as (L & _); unfold DATA_MAX in L.
    all: codes; unfold SEGMENT_MAX; lia.
  - rewrite spkt_of_code; destruct m; discriminate.
  - rewrite spkt_of_code; destruct m; discriminate.
  - rewrite spkt_of_code; destruct m; try discriminate; reflexivity.
  - rewrite spkt_of_code; destruct m; discriminate.
Qed.

Section Codec.
Context `{Allocator} (sizeof_spkt : Z) (fresh : Z -> list Z).
Hypothesis Mem : memory_ok.
Hypothesis Fresh : forall n, 0 <= n -> zlen (fresh n) = n.
Variables ses_ab_timer ses_rf_timer : Z.

(** The size of a message's SPDU. *)
Lemma spkt_of_room m : msg_ok m -> in_room fresh (spkt_of m).
Proof.
  intros M; pose proof (spkt_of_complete m) as C; destruct (complete_body fresh _ C) as (body & B & N).
  assert (E : zlen (enc_items (spdu_items (spkt_of m))) <= base_size (spkt_of m) (spdu_base fresh (spkt_of m))).
  { apply (base_enough fresh (spkt_of m) (spkt_of_ok m M) _ body B C); rewrite spkt_of_code; destruct m; discriminate. }
  assert (D : match s_udata (spkt_of m) with None => True | Some _ => s_ulen (spkt_of m) <= DATA_MAX end).
  { destruct m; cbn [spkt_of msg_ok] in *; try exact I; destruct M as (_ & M); destruct (put_data_udata _ _ (new_spkt 0) M) as (_ & U & _).
    all: rewrite (proj1 (put_data_udata _ _ _ M)), (proj1 (proj2 (put_data_udata _ _ _ M))); destruct M as (L & _); destruct (cc >? 0), data; unfold DATA_MAX in *; lia || exact I. }
  assert (Sz : base_size (spkt_of m) (spdu_base fresh (spkt_of m)) <= 254).
  { clear E; revert N D; generalize (spdu_base fresh (spkt_of m)); intros n N D; unfold base_size; cbv zeta; rewrite spkt_of_code.
    replace (match m with Give _ => _ | _ => _ end =? SPDU_AR) with false by (destruct m; reflexivity).
    replace (match m with Give _ => _ | _ => _ end =? SPDU_RF) with false by (destruct m; reflexivity).
    replace ((match m with Give _ => SPDU_GT | _ => _ end =? SPDU_CN) || _) with false by (destruct m; reflexivity).
    unfold DATA_MAX in D; match goal with |- (if ?x <? 254 then _ else _) <= _ => assert (x <= 254); [|destruct (Z.ltb_spec x 254); lia] end.
    destruct (s_udata (spkt_of m)); [|lia]; rewrite Z.gtb_ltb; destruct (Z.ltb_spec 254 (s_ulen (spkt_of m))); [lia|].
    repeat match goal with |- context [if ?c then _ else _] => destruct c end; lia. }
  split; [exact E|]; split; [lia | left; exact Sz].
Qed.

(** The packet that is found for a message. *)
Definition arrived (m : msg) (k : packet) : Prop :=
  match m with
  | Ssdu d => data_spkt 0 SPDU_DT true true (p_spkt k) /\ Forall seg_ok (s_qbuf k) /\ ring_octets (s_qbuf k) = d /\ s_qlen k = zlen d
  | _ => same_spdu (spkt_of m) (p_spkt k)
  end.

(** A category 0 SPDU on its own. *)
Lemma sb2spkt_alone m tx b st : match m with Give _ | Please _ _ _ => True | _ => False end -> msg_ok m -> reading st -> carries tx false (wire m) ->
  exists s' x, sb2spkt_first sizeof_spkt fresh ses_ab_timer ses_rf_timer tx (at_sb b st) = Val (Some (Pkt s' [] 0), at_buffer x (at_sb b st)) /\
    same_spdu (spkt_of m) s' /\ buffer_ok x.
Proof.
  intros Mc M (Al & B) (Ex & Q & E & Cc); pose proof (spkt_of_readable m M) as Re; pose proof (spkt_of_room m M) as Ro.
  replace (wire m) with (enc (spkt_of m)) in * by (destruct m; try destruct Mc; reflexivity).
  replace (match m with Give _ | Please _ _ _ => 1 | _ => 0 end) with 1 in Re by (destruct m; try destruct Mc; reflexivity).
  unfold sb2spkt_first, bind.
  destruct (read_spdu_ok sizeof_spkt fresh Mem Fresh (spkt_of m) 1 (tx_qbuf tx) [] (tx_cc tx) (at_sb b st)) as (s' & q & x & -> & -> & Sm & _ & _ & Bx);
    [apply spkt_of_ok, M | apply spkt_of_complete | apply Ro | exact Re | exact B | exact Q | rewrite app_nil_r; exact E | lia |].
  exists s', x; split; [|auto]; unfold is_expd; rewrite Ex, (same_code _ _ Sm), Cc, Z.sub_diag, spkt_of_code.
  destruct m; try destruct Mc; reflexivity.
Qed.

Lemma sb2spkt_hears m tx b st : msg_ok m -> reading st -> sb_spdu b = None -> carries tx false (wire m) ->
  exists k x, sb2spkt_first sizeof_spkt fresh ses_ab_timer ses_rf_timer tx (at_sb b st) = Val (Some k, at_buffer x (at_sb b st)) /\ arrived m k /\ buffer_ok x.
Proof.
  intros M Rd Sb Ca; pose proof (spkt_of_readable m M) as Re; pose proof (spkt_of_room m M) as Ro.
  destruct m as [w | w d cc | type n d cc | n d cc | d].
  1, 2: match type of M with msg_ok ?m => destruct (sb2spkt_alone m tx b st I M Rd Ca) as (s' & x & E & Sm & Bx) end; exists (Pkt s' [] 0), x; auto.
  1, 2: match type of M with msg_ok ?m => destruct (sb2spkt_pair sizeof_spkt fresh Mem Fresh ses_ab_timer ses_rf_timer tx (spkt_of m) b st Rd Sb) as (s' & x & E & Sm & Bx);
      [rewrite spkt_of_code; cbn; tauto | apply spkt_of_ok, M | apply spkt_of_complete | apply Ro | exact Re | exact Ca | exists (Pkt s' [] 0), x; auto] end.
  destruct M as (Bd & Nd & Ld).
  destruct (sb2spkt_data sizeof_spkt fresh Mem Fresh ses_ab_timer ses_rf_timer tx 0 SPDU_DT true true d b st Rd Sb (or_introl eq_refl) Nd Ca) as (s & q & x & E & Ds & Qk & Qo & Bx).
  exists (Pkt s q (zlen d)), x; repeat split; auto; apply Ds.
Qed.
End Codec.

(** ** Quiet sessions *)

(** The flags of what is in progress. *)
Definition blockers : Z := ors [SB_FINN; SB_RELEASE; SB_MAP; SB_MAA; SB_RS; SB_RA; SB_AI; SB_AIA; SB_GTC; exception].

(** Nothing is in progress, prepared for or kept, and TSDUs have no size. *)
Record quiet (b : ssapblk) : Prop := {
  qt_flags : has b blockers = false;
  qt_conn : has b SB_CONN = true;
  qt_activity : no_activity b = false;
  qt_pr : sb_pr b = SPDU_PR;
  qt_xspdu : sb_xspdu b = None;
  qt_spdu : sb_spdu b = None;
  qt_len : sb_len b = 0;
  qt_qbuf : sb_qbuf b = [];
  qt_us : sb_tsdu_us b = 0;
  qt_them : sb_tsdu_them b = 0
}.

Lemma meets_sub a f g : Z.land f g = f -> meets a g = false -> meets a f = false.
Proof.
  unfold meets; rewrite !negb_false_iff, !Z.eqb_eq; intros S E; rewrite <- S, Z.land_comm, <- Z.land_assoc, (Z.land_comm g a), E, Z.land_0_r; reflexivity.
Qed.

Lemma quiet_flag b f : quiet b -> Z.land f blockers = f -> has b f = false.
Proof. intros Q S; exact (meets_sub _ _ _ S (qt_flags b Q)). Qed.

(** Flags that have nothing to do with [f]. *)
Lemma has_raise b f g : Z.land f g = 0 -> has (raise f b) g = has b g.
Proof. intros D; unfold has, raise, meets; cbn [sb_flags set_flags]; rewrite Z.land_lor_distr_l, D, Z.lor_0_r; reflexivity. Qed.

Lemma has_lower b f g : Z.land g f = 0 -> has (lower f b) g = has b g.
Proof.
  intros D; unfold has, lower, meets; cbn [sb_flags set_flags]; do 2 f_equal; apply Z.bits_inj'; intros n N.
  apply (f_equal (fun z => Z.testbit z n)) in D; rewrite Z.bits_0, Z.land_spec in D; rewrite !Z.land_spec, Z.lnot_spec by lia.
  destruct (Z.testbit g n), (Z.testbit f n); rewrite ?andb_false_r, ?andb_true_r; try reflexivity; discriminate.
Qed.

Lemma has_V a m r b g : has (set_V a m r b) g = has b g.
Proof. reflexivity. Qed.
Lemma has_owned v b g : has (set_owned v b) g = has b g.
Proof. reflexivity. Qed.

(** Blocks that differ in serial numbers, tokens and flags of no concern. *)
Definition like (b b' : ssapblk) : Prop :=
  terms b' = terms b /\ sb_pr b' = sb_pr b /\ sb_xspdu b' = sb_xspdu b /\ sb_spdu b' = sb_spdu b /\ sb_qbuf b' = sb_qbuf b /\ sb_len b' = sb_len b /\
  has b' blockers = has b blockers /\ has b' SB_CONN = has b SB_CONN /\ has b' SB_Vact = has b SB_Vact.

Lemma like_refl b : like b b.
Proof. repeat split. Qed.
Lemma like_trans a b c : like a b -> like b c -> like a c.
Proof. unfold like; intuition congruence. Qed.

Lemma quiet_like b b' : like b b' -> quiet b -> quiet b'.
Proof.
  intros (T & P & X & S & Q & L & F & C & A) []; unfold terms in T; injection T as T1 T2 T3 T4.
  split; try congruence; unfold no_activity, needs in *; rewrite T4, A; assumption.
Qed.

Lemma like_V a m r b : like b (set_V a m r b).
Proof. repeat split. Qed.
Lemma like_owned v b : like b (set_owned v b).
Proof. repeat split. Qed.
Lemma like_code v b : like b (set_code v b).
Proof. repeat split. Qed.
Lemma like_raise_Vsc b : like b (raise SB_Vsc b).
Proof. repeat split; apply has_raise; reflexivity. Qed.
Lemma like_lower_Vsc b : like b (lower SB_Vsc b).
Proof. repeat split; apply has_lower; reflexivity. Qed.

(** An exception that is not there is cleared. *)
Lemma lower_none f b : has b f = false -> lower f b = b.
Proof.
  intros N; unfold has, meets in N; apply negb_false_iff, Z.eqb_eq in N; unfold lower.
  assert (E : Z.land (sb_flags b) (Z.lnot f) = sb_flags b).
  { apply Z.bits_inj'; intros n Hn; apply (f_equal (fun z => Z.testbit z n)) in N; rewrite Z.bits_0, Z.land_spec in N; rewrite Z.land_spec, Z.lnot_spec by lia.
    destruct (Z.testbit (sb_flags b) n), (Z.testbit f n); reflexivity || discriminate. }
  rewrite E; destruct b; reflexivity.
Qed.

Create HintDb like.
#[export] Hint Resolve like_refl like_V like_owned like_code like_raise_Vsc like_lower_Vsc : like.

(** ** What a request sends *)

(** The message of a request and the block after it; [None] where it is
    refused. *)
Definition asks (b : ssapblk) (q : request) : option (msg * ssapblk) :=
  match q with
  | R_GToken tokens =>
      match give_settings b tokens with
      | inr w => if w =? 0 then None else Some (Give w, drop_token w b)
      | inl _ => None
      end
  | R_PToken tokens d cc =>
      match please_settings b tokens with
      | inr w => if w =? 0 then None else Some (Please w d (match d with Some _ => cc | None => 0 end), b)
      | inl _ => None
      end
  | R_MinSync type d cc =>
      if needs b SR_MINORSYNC && negb (lacks b SR_DAT_EXISTS ST_DAT_TOKEN) && owns b ST_MIN_TOKEN
      then Some (Minor type (sb_V_M b) d (match d with Some _ => cc | None => 0 end), next_ssn (confirm_all b)) else None
  | R_MinSyncResponse ssn d cc =>
      if needs b SR_MINORSYNC && has b SB_Vsc && (sb_V_A b <=? ssn)
      then Some (Ack ssn d (match d with Some _ => cc | None => 0 end), set_V (ssn + 1) (sb_V_M b) (sb_V_R b) b) else None
  | R_Send (Some d) cc _ _ => if lacks b SR_DAT_EXISTS ST_DAT_TOKEN then None else Some (Ssdu (ztake cc d), b)
  | _ => None
  end.

(** The requests that are meant, with parameters in their range. *)
Definition user_ok (d : option (list Z)) (cc : Z) : Prop := match d with Some d => data_ok (Some d) cc | None => True end.

Definition proper (b : ssapblk) (q : request) : Prop :=
  match q with
  | R_GToken _ => True
  | R_PToken _ d cc => user_ok d cc
  | R_MinSync type d cc => In type [SYNC_CONFIRM; SYNC_NOCONFIRM] /\ user_ok d cc /\ 0 <= sb_V_M b < SERIAL_MAX + 2
  | R_MinSyncResponse ssn d cc => bad_ssn ssn = false /\ user_ok d cc
  | R_Send (Some d) cc begin end_ => 0 < cc <= zlen d /\ cc <= INT_MAX /\ bytes d
  | _ => False
  end.

(** ** Requests of a quiet session *)

Section Asking.
Context `{Allocator} (sizeof_spkt sizeof_qbuf : Z) (fresh : Z -> list Z).
Hypothesis Mem : memory_ok.
Hypothesis Fresh : forall n, 0 <= n -> zlen (fresh n) = n.
Variables ses_ab_timer ses_dn_timer ses_rf_timer : Z.

(** A refusal tells the user and does nothing else. *)
Definition refused (st : session) (m : sess Z) : Prop := exists reason, m st = Val (NOTOK, at_si (SI_ABORT false reason no_data) st).

Lemma lose_refused r st : refused st (lose_with (Lose r)).
Proof. exists r; reflexivity. Qed.

Lemma guarded_pass {A} `{Failure A} l (k : sess A) st : check l = None -> guarded l k st = k st.
Proof. intros E; unfold guarded; rewrite E; reflexivity. Qed.

Lemma quiet_P b : quiet b -> check (ssapPsig b) = None.
Proof.
  intros Q; unfold ssapPsig, connected, busy; cbn [map check]; rewrite (qt_conn b Q); cbn [negb].
  repeat (rewrite (quiet_flag b) by (exact Q || reflexivity)); reflexivity.
Qed.

Lemma quiet_X b : quiet b -> check (ssapXsig b) = None.
Proof.
  intros Q; unfold ssapXsig, connected, busy; cbn [map check]; rewrite (qt_conn b Q); cbn [negb].
  repeat (rewrite (quiet_flag b) by (exact Q || reflexivity)); reflexivity.
Qed.

Lemma with_sd_quiet {A} `{Failure A} sig (k : sess A) st : ses_gone st = false -> check (sig (ses_sb st)) = None -> with_sd sig k st = k st.
Proof. intros Al C; unfold with_sd; rewrite Al; apply guarded_pass, C. Qed.

(** The count that is used. *)
Definition count (d : option (list Z)) (cc : Z) : Z := match d with Some _ => cc | None => 0 end.

Lemma toomuch_quiet {A} `{Failure A} d cc (k : Z -> sess A) st : ses_gone st = false -> user_ok d cc -> toomuchP d cc USER_SIZE k st = k (count d cc) st.
Proof.
  intros Al U; unfold toomuchP, count; destruct d as [d|]; [|reflexivity]; destruct U as (L & _); unfold DATA_MAX in L.
  rewrite bind_get by exact Al; apply guarded_pass; cbn [check]; rewrite Z.gtb_ltb.
  destruct (sb_version (ses_sb st) <? SB_VRSN2); rewrite (proj2 (Z.ltb_ge _ cc)) by (unfold USER_SIZE, ENCLOSE_MAX; lia); reflexivity.
Qed.

Lemma user_count_ok d cc : user_ok d cc -> data_ok d (count d cc).
Proof. intros U; destruct d as [d|]; [exact U | split; [unfold DATA_MAX; cbn; lia | cbn [count]; lia]]. Qed.

Lemma finish_ok f r st : r = OK -> ses_gone st = false -> finish ses_dn_timer (update f) r st = Val (OK, at_sb (f (ses_sb st)) st).
Proof. intros -> Al; unfold finish; change (OK =? NOTOK) with false; cbn match; rewrite bind_update by exact Al; reflexivity. Qed.

(** A category 0 SPDU on its own. *)
Lemma send_alone m st : match m with Give _ | Please _ _ _ => True | _ => False end -> msg_ok m -> granting (ses_tp st) ->
  spkt2sd fresh (spkt_of m) false st = Val (OK, add_sent [(false, wire m)] st).
Proof.
  intros Mc M G; rewrite (spkt2sd_ok fresh Mem Fresh (spkt_of m) false st);
    [destruct m; try destruct Mc; reflexivity | apply spkt_of_ok, M | apply spkt_of_complete | apply (spkt_of_room fresh), M | rewrite spkt_of_code; destruct m; try destruct Mc; reflexivity | exact G].
Qed.

(** One that goes after a category 0 SPDU. *)
Lemma send_pair m code type ssn d cc st s0 : match m with Minor _ _ _ _ | Ack _ _ _ => True | _ => False end -> msg_ok m -> ses_gone st = false ->
  granting (ses_tp st) -> code = s_code (spkt_of m) -> write_fields (ses_sb st) code type ssn 0 None None None (new_spkt code) = Val (Some s0) ->
  put_data d cc s0 = spkt_of m -> SWriteRequestAux sizeof_spkt fresh code d cc type ssn 0 None None None st = Val (OK, add_sent [(false, wire m)] st).
Proof.
  intros Mc M Al G -> W E; rewrite (SWriteRequestAux_ok sizeof_spkt fresh Mem Fresh (s_code (spkt_of m)) d cc type ssn 0 None None None st s0).
  - replace (wire m) with ([cat0_code (s_code (spkt_of m)); 0] ++ enc (spkt_of m)) by (destruct m; try destruct Mc; reflexivity).
    unfold written_as, announces; rewrite E, spkt_of_code; destruct m; try destruct Mc; destruct (has (ses_sb st) SB_EXPD); reflexivity.
  - rewrite spkt_of_code; destruct m; try destruct Mc; cbn; tauto.
  - rewrite E; reflexivity.
  - exact W.
  - rewrite E; apply spkt_of_ok, M.
  - rewrite E; apply spkt_of_complete.
  - rewrite E; apply (spkt_of_room fresh), M.
  - exact Al.
  - exact G.
Qed.

(** What a request does. *)
Definition does (q : request) (st : session) : Prop :=
  let act := perform sizeof_spkt sizeof_qbuf fresh ses_ab_timer ses_dn_timer ses_rf_timer q in
  match asks (ses_sb st) q with
  | Some (m, b) => act st = Val (OK, at_sb b (add_sent [(false, wire m)] st)) /\ msg_ok m
  | None => refused st act
  end.

(** *** The words of tokens *)

Lemma meets_bit w k : 0 <= k -> meets w (2 ^ k) = Z.testbit w k.
Proof.
  intros K; unfold meets; destruct (Z.testbit w k) eqn:T.
  - apply negb_true_iff, Z.eqb_neq; intros E; apply (f_equal (fun z => Z.testbit z k)) in E; rewrite Z.land_spec, Z.pow2_bits_true, T, Z.bits_0 in E by exact K; discriminate.
  - apply negb_false_iff, Z.eqb_eq, Z.bits_inj'; intros n Hn; rewrite Z.land_spec, Z.bits_0, Z.pow2_bits_eqb by exact K.
    destruct (Z.eqb_spec k n) as [<-|]; [rewrite T; reflexivity | apply andb_false_r].
Qed.

Lemma table_bit r s bit : In (r, s, bit) token_table -> exists k, 0 <= k /\ bit = 2 ^ k.
Proof. intros [E | [E | [E | [E | []]]]]; injection E as <- <- <-; [exists 6 | exists 4 | exists 2 | exists 0]; split; reflexivity || lia. Qed.

(** The tokens of a request are some of those that are asked for. *)
Fixpoint gather (l : list (Z * Z * Z)) (ok : Z -> bool) (w : Z) : Z :=
  match l with [] => w | (_, _, bit) :: l => gather l ok (if ok bit then Z.lor w bit else w) end.

Lemma gather_among l ok v : forall w, among w v -> (forall r s bit, In (r, s, bit) l -> ok bit = true -> among bit v) -> among (gather l ok w) v.
Proof.
  induction l as [|((r, s), bit) l IH]; intros w W B; cbn [gather]; [exact W|]; apply IH; [|intros r' s' b' I' M'; apply (B r' s' b'); [right; exact I' | exact M']].
  destruct (ok bit) eqn:O; [apply among_lor; [exact W | apply (B r s bit); [left; reflexivity | exact O]] | exact W].
Qed.

Lemma each_gather l tokens (f : Z -> Z -> Z -> Z -> lose + Z) :
  (forall r s bit w v, f r s bit w = inr v -> v = if meets tokens bit then Z.lor w bit else w) ->
  forall w v, each_token f l w = inr v -> v = gather l (meets tokens) w.
Proof.
  intros F; induction l as [|((r, s), bit) l IH]; intros w v E; cbn [each_token gather] in *; [injection E as ->; reflexivity|].
  destruct (f r s bit w) as [|w'] eqn:Ef; [discriminate|]; rewrite <- (F _ _ _ _ _ Ef); apply IH, E.
Qed.

Lemma each_requires l (P : Z -> Z -> Prop) (f : Z -> Z -> Z -> Z -> lose + Z) : (forall r s bit w v, f r s bit w = inr v -> P r bit) ->
  forall w v, each_token f l w = inr v -> forall r s bit, In (r, s, bit) l -> P r bit.
Proof.
  intros F; induction l as [|((r, s), bit) l IH]; intros w v E r' s' bit' I; cbn [each_token] in E; [destruct I|].
  destruct (f r s bit w) as [|w'] eqn:Ef; [discriminate|]; destruct I as [I | I]; [injection I as <- <- <-; exact (F _ _ _ _ _ Ef) | exact (IH _ _ E _ _ _ I)].
Qed.

Lemma gather_byte tokens : 0 <= gather token_table (meets tokens) 0 < 256.
Proof. unfold token_table; cbn [gather]; repeat match goal with |- context [if ?c then _ else _] => destruct c end; split; reflexivity || discriminate. Qed.

Lemma bit_among r s bit w : In (r, s, bit) token_table -> meets w bit = true -> among bit w.
Proof.
  intros I M; destruct (table_bit _ _ _ I) as (k & K & ->); rewrite (meets_bit w k K) in M; intros n Hn; rewrite Z.pow2_bits_eqb by exact K.
  intros E; apply Z.eqb_eq in E; subst n; exact M.
Qed.

Lemma give_settings_ok b tokens w : give_settings b tokens = inr w -> 0 <= w < 256 /\ among w (tokens_of b) /\ among w (sb_owned b).
Proof.
  intros E; unfold give_settings, dotokens_or in E; assert (G : w = gather token_table (meets tokens) 0).
  { revert E; apply each_gather; intros r s bit v u; destruct (meets tokens bit); [|intros F; injection F as ->; reflexivity].
    destruct (negb (needs b r)); [discriminate|]; destruct (negb (owns b bit)); [discriminate|]; intros F; injection F as ->; reflexivity. }
  assert (P : forall r s bit, In (r, s, bit) token_table -> meets tokens bit = true -> needs b r = true /\ owns b bit = true).
  { refine (each_requires token_table (fun r bit => meets tokens bit = true -> needs b r = true /\ owns b bit = true) _ _ _ _ E).
    intros r s bit v u F M; rewrite M in F; destruct (needs b r); [|discriminate]; destruct (owns b bit); [split; reflexivity | discriminate]. }
  rewrite G; split; [apply gather_byte|]; split; apply gather_among; try apply among_0.
  - intros r s bit I M; eapply token_exists; [exact I | apply (P r s bit I M)].
  - intros r s bit I M; eapply bit_among; [exact I | apply (P r s bit I M)].
Qed.

Lemma please_settings_ok b tokens w : please_settings b tokens = inr w -> 0 <= w < 256 /\ among w (tokens_of b).
Proof.
  intros E; unfold please_settings, dotokens_or in E; assert (G : w = gather token_table (meets tokens) 0).
  { revert E; apply each_gather; intros r s bit v u; destruct (meets tokens bit); [|intros F; injection F as ->; reflexivity].
    destruct (negb (needs b r)); [discriminate|]; destruct (owns b bit); [discriminate|]; intros F; injection F as ->; reflexivity. }
  assert (P : forall r s bit, In (r, s, bit) token_table -> meets tokens bit = true -> needs b r = true).
  { refine (each_requires token_table (fun r bit => meets tokens bit = true -> needs b r = true) _ _ _ _ E).
    intros r s bit v u F M; rewrite M in F; destruct (needs b r); [reflexivity | discriminate]. }
  rewrite G; split; [apply gather_byte|]; apply gather_among; [apply among_0|].
  intros r s bit I M; eapply token_exists; [exact I | apply (P r s bit I M)].
Qed.

(** A refusal while the tokens are gathered. *)
Lemma each_error l (f : Z -> Z -> Z -> Z -> lose + Z) : (forall r s bit w e, f r s bit w = inl e -> e = Lose SC_OPERATION) ->
  forall w e, each_token f l w = inl e -> e = Lose SC_OPERATION.
Proof.
  intros F; induction l as [|((r, s), bit) l IH]; intros w e E; cbn [each_token] in E; [discriminate|].
  destruct (f r s bit w) as [e'|] eqn:Ef; [injection E as <-; exact (F _ _ _ _ _ Ef) | exact (IH _ _ E)].
Qed.

Lemma give_settings_error b tokens e : give_settings b tokens = inl e -> e = Lose SC_OPERATION.
Proof.
  apply each_error; intros r s bit w e'; destruct (meets tokens bit); [|discriminate].
  destruct (negb (needs b r)); [congruence|]; destruct (negb (owns b bit)); [congruence | discriminate].
Qed.

Lemma please_settings_error b tokens e : please_settings b tokens = inl e -> e = Lose SC_OPERATION.
Proof.
  apply each_error; intros r s bit w e'; destruct (meets tokens bit); [|discriminate].
  destruct (negb (needs b r)); [congruence|]; destruct (owns b bit); [congruence | discriminate].
Qed.

Lemma put_u8_ok flag f v s : 0 <= v < 256 -> put_u8 flag f v s = Some (set_num (Set_ s flag) f v).
Proof. intros V; unfold put_u8; rewrite int2u8_Some by exact V; reflexivity. Qed.

Lemma put_u32_ok flag f v s : 0 <= v < SERIAL_MAX + 2 -> put_u32 flag f v s = Some (set_num (Set_ s flag) f v).
Proof.
  intros V; unfold put_u32; rewrite (proj2 (Z.ltb_ge v 0)) by lia; rewrite Z.gtb_ltb, (proj2 (Z.ltb_ge UINT32_MAX v)) by (unfold UINT32_MAX, SERIAL_MAX in *; lia); reflexivity.
Qed.

(** A request that is let pass, and one that is refused by its guards. *)
Lemma guarded_none {A} `{Failure A} (l : list (bool * lose)) (k : sess A) st : forallb (fun g => negb (fst g)) l = true -> guarded l k st = k st.
Proof.
  intros F; apply guarded_pass; revert F; induction l as [|(c, e) l IH]; [reflexivity|]; cbn [forallb check fst]; destruct c; [discriminate | exact IH].
Qed.

Lemma does_GToken tokens st : quiet (ses_sb st) -> ses_gone st = false -> granting (ses_tp st) -> does (R_GToken tokens) st.
Proof.
  intros Q Al G; unfold does, perform, SGTokenRequest; cbn [asks].
  assert (Aux : forall r, SGTokenRequestAux sizeof_spkt fresh ses_dn_timer tokens st = r -> with_sd ssapXsig (SGTokenRequestAux sizeof_spkt fresh ses_dn_timer tokens) st = r)
    by (intros r <-; apply with_sd_quiet; [exact Al | apply quiet_X, Q]).
  destruct (give_settings (ses_sb st) tokens) as [e | w] eqn:E.
  - exists SC_OPERATION; apply Aux; unfold SGTokenRequestAux; rewrite bind_get, E by exact Al; rewrite (give_settings_error _ _ _ E); reflexivity.
  - destruct (give_settings_ok _ _ _ E) as (W & _ & _); destruct (Z.eqb_spec w 0) as [->|W0].
    + exists SC_PARAMETER; apply Aux; unfold SGTokenRequestAux; rewrite bind_get, E by exact Al; reflexivity.
    + assert (Ex : has (ses_sb st) (Z.lor SB_EDACK SB_ERACK) = false) by (apply quiet_flag; [exact Q | reflexivity]).
      split; [apply Aux | exact W]; unfold SGTokenRequestAux; rewrite bind_get, E by exact Al; rewrite guarded_none.
      2: { cbn [forallb fst]; rewrite (proj2 (Z.eqb_neq w 0) W0), (quiet_flag _ SB_GTC Q eq_refl), Ex, andb_false_r; reflexivity. }
      assert (Low : forall A (k : unit -> sess A), bind (if meets w ST_DAT_TOKEN then update (lower (Z.lor SB_EDACK SB_ERACK)) else ret tt) k st = k tt st).
      { intros A k; destruct (meets w ST_DAT_TOKEN); [|reflexivity]; rewrite bind_update, lower_none by assumption; destruct st; reflexivity. }
      rewrite Low, (newspkt_ok sizeof_spkt Mem) by (split; [discriminate | reflexivity]); rewrite put_u8_ok by exact W.
      change (set_num (Set_ (new_spkt SPDU_GT) _) N_gt_token w) with (spkt_of (Give w)); cbv zeta.
      unfold bind at 1; rewrite (send_alone (Give w) st I W G); apply (finish_ok (drop_token w) OK (add_sent [(false, wire (Give w))] st) eq_refl Al).
Qed.

Lemma does_PToken tokens d cc st : quiet (ses_sb st) -> ses_gone st = false -> granting (ses_tp st) -> user_ok d cc -> does (R_PToken tokens d cc) st.
Proof.
  intros Q Al G U; unfold does, perform, SPTokenRequest; cbn [asks]; fold (count d cc); pose proof (user_count_ok d cc U) as D.
  assert (Aux : forall r, SPTokenRequestAux sizeof_spkt fresh ses_dn_timer tokens d (count d cc) st = r ->
    with_sd ssapPsig (toomuchP d cc USER_SIZE (SPTokenRequestAux sizeof_spkt fresh ses_dn_timer tokens d)) st = r)
    by (intros r <-; rewrite with_sd_quiet by (exact Al || apply quiet_P, Q); apply toomuch_quiet; assumption).
  destruct (please_settings (ses_sb st) tokens) as [e | w] eqn:E.
  - exists SC_OPERATION; apply Aux; unfold SPTokenRequestAux; rewrite bind_get, E by exact Al; rewrite (please_settings_error _ _ _ E); reflexivity.
  - destruct (please_settings_ok _ _ _ E) as (W & _); destruct (Z.eqb_spec w 0) as [->|W0].
    + exists SC_PARAMETER; apply Aux; unfold SPTokenRequestAux; rewrite bind_get, E by exact Al; reflexivity.
    + split; [apply Aux | split; [exact W | exact D]]; unfold SPTokenRequestAux; rewrite bind_get, E by exact Al; rewrite guarded_none.
      2: { cbn [forallb fst]; rewrite (proj2 (Z.eqb_neq w 0) W0), (quiet_flag _ SB_GTC Q eq_refl); reflexivity. }
      rewrite (newspkt_ok sizeof_spkt Mem) by (split; [discriminate | reflexivity]); rewrite put_u8_ok by exact W.
      change (put_data d (count d cc) (set_num _ N_pt_token w)) with (spkt_of (Please w d (count d cc))); unfold bind at 1.
      rewrite (send_alone (Please w d (count d cc)) st I (conj W D) G); destruct st; reflexivity.
Qed.

Lemma result_with_ssn ssn (m : sess Z) st : result (with_ssn ssn m) st = m st.
Proof. unfold result, with_ssn, bind; destruct (m st) as [(r, st1)|]; reflexivity. Qed.

Lemma result_same {A} (m n : sess (Z * A)) st : m st = n st -> result m st = result n st.
Proof. intros E; unfold result, bind; rewrite E; reflexivity. Qed.

(** A request that gives back a serial number, behind its guards. *)
Lemma result_guarded l (k : sess (Z * option Z)) st : result (guarded l k) st = match check l with None => result k st | Some e => @lose_with Z _ e st end.
Proof. unfold guarded; destruct (check l) as [[r|]|]; reflexivity. Qed.

Lemma check_all l : Forall (fun g => snd g = Lose SC_OPERATION) l -> check l = if forallb (fun g => negb (fst g)) l then None else Some (Lose SC_OPERATION).
Proof.
  induction 1 as [|(c, e) l E _ IH]; [reflexivity|]; cbn [check forallb fst snd] in *; destruct c; [rewrite E; reflexivity | exact IH].
Qed.

Lemma does_MinSync type d cc st : quiet (ses_sb st) -> ses_gone st = false -> granting (ses_tp st) -> proper (ses_sb st) (R_MinSync type d cc) ->
  does (R_MinSync type d cc) st.
Proof.
  intros Q Al G (Ty & U & V); unfold does, perform; cbn [asks]; fold (count d cc); pose proof (user_count_ok d cc U) as D.
  set (m := Minor type (sb_V_M (ses_sb st)) d (count d cc)).
  assert (E : result (SMinSyncRequest sizeof_spkt fresh ses_dn_timer type d cc) st =
    (if needs (ses_sb st) SR_MINORSYNC && negb (lacks (ses_sb st) SR_DAT_EXISTS ST_DAT_TOKEN) && owns (ses_sb st) ST_MIN_TOKEN
     then Val (OK, at_sb (next_ssn (confirm_all (ses_sb st))) (add_sent [(false, wire m)] st)) else @lose_with Z _ (Lose SC_OPERATION) st)).
  { unfold SMinSyncRequest; rewrite result_guarded; replace (check _) with (@None lose) by (destruct Ty as [<- | [<- | []]]; reflexivity).
    rewrite (result_same _ _ st (with_sd_quiet _ _ st Al (quiet_P _ Q))), (result_same _ _ st (toomuch_quiet d cc _ st Al U)).
    unfold SMinSyncRequestAux; rewrite (result_same _ _ st (bind_get _ st Al)).
    rewrite result_guarded; cbn [check]; rewrite (qt_activity _ Q), (quiet_flag _ SB_MAA Q eq_refl).
    destruct (needs (ses_sb st) SR_MINORSYNC); [|reflexivity]; destruct (lacks (ses_sb st) SR_DAT_EXISTS ST_DAT_TOKEN); [reflexivity|].
    destruct (owns (ses_sb st) ST_MIN_TOKEN); [|reflexivity]; cbn [negb andb]; rewrite result_with_ssn; unfold bind.
    rewrite (send_pair m SPDU_MIP type (sb_V_M (ses_sb st)) d (count d cc) st
      (set_num (Set_ (if type =? SYNC_NOCONFIRM then set_num (Set_ (new_spkt SPDU_MIP) SMASK_MIP_SYNC) N_mip_sync MIP_SYNC_NOEXPL else new_spkt SPDU_MIP) SMASK_MIP_SERIAL) N_mip_serial (sb_V_M (ses_sb st))) I);
      [| split; [exact V | exact D] | exact Al | exact G | subst m; rewrite spkt_of_code; reflexivity | | reflexivity].
    - apply (finish_ok (fun b => next_ssn (confirm_all b)) OK (add_sent [(false, wire m)] st) eq_refl Al).
    - unfold write_fields; cbn [Z.eqb Pos.eqb SPDU_MIP SPDU_MAP SPDU_MAA]; rewrite put_u32_ok by exact V; reflexivity. }
  destruct (needs (ses_sb st) SR_MINORSYNC && negb (lacks (ses_sb st) SR_DAT_EXISTS ST_DAT_TOKEN) && owns (ses_sb st) ST_MIN_TOKEN).
  - split; [exact E | split; [exact V | exact D]].
  - exists SC_OPERATION; exact E.
Qed.

Lemma does_MinSyncResponse ssn d cc st : quiet (ses_sb st) -> ses_gone st = false -> granting (ses_tp st) ->
  proper (ses_sb st) (R_MinSyncResponse ssn d cc) -> does (R_MinSyncResponse ssn d cc) st.
Proof.
  intros Q Al G (B & U); unfold does, perform; cbn [asks]; fold (count d cc); pose proof (user_count_ok d cc U) as D.
  assert (V : 0 <= ssn < SERIAL_MAX + 2).
  { unfold bad_ssn in B; apply orb_false_iff in B as (B1 & B2); rewrite Z.gtb_ltb in B1, B2; apply Z.ltb_ge in B1, B2; unfold SERIAL_MIN in B1; lia. }
  set (m := Ack ssn d (count d cc)); set (b := ses_sb st).
  assert (E : SMinSyncResponse sizeof_spkt fresh ses_dn_timer ssn d cc st =
    (if needs b SR_MINORSYNC && has b SB_Vsc && (sb_V_A b <=? ssn)
     then Val (OK, at_sb (set_V (ssn + 1) (sb_V_M b) (sb_V_R b) b) (add_sent [(false, wire m)] st)) else @lose_with Z _ (Lose SC_OPERATION) st)).
  { unfold SMinSyncResponse; rewrite guarded_none by (cbn [forallb fst]; rewrite B; reflexivity).
    rewrite (with_sd_quiet _ _ st Al (quiet_P _ Q)), (toomuch_quiet d cc _ st Al U).
    unfold SMinSyncResponseAux; rewrite bind_get by exact Al; fold b; unfold guarded; cbn [check].
    destruct (needs b SR_MINORSYNC); [|reflexivity]; destruct (has b SB_Vsc); [|reflexivity]; cbn [negb andb]; rewrite Z.leb_antisym.
    destruct (ssn <? sb_V_A b); [reflexivity|]; cbn [negb]; unfold bind.
    rewrite (send_pair m SPDU_MIA 0 ssn d (count d cc) st (set_num (Set_ (new_spkt SPDU_MIA) SMASK_MIA_SERIAL) N_mia_serial ssn) I);
      [| split; [exact V | exact D] | exact Al | exact G | subst m; rewrite spkt_of_code; reflexivity | | reflexivity].
    - apply (finish_ok (fun b => set_V (ssn + 1) (sb_V_M b) (sb_V_R b) b) OK (add_sent [(false, wire m)] st) eq_refl Al).
    - unfold write_fields; cbn [Z.eqb Pos.eqb SPDU_MIP SPDU_MAP SPDU_MAA SPDU_MIA]; rewrite put_u32_ok by exact V; reflexivity. }
  fold b; destruct (needs b SR_MINORSYNC && has b SB_Vsc && (sb_V_A b <=? ssn)).
  - split; [exact E | split; [exact V | exact D]].
  - exists SC_OPERATION; exact E.
Qed.

Lemma does_Send d cc begin end_ st : quiet (ses_sb st) -> ses_gone st = false -> granting (ses_tp st) ->
  proper (ses_sb st) (R_Send (Some d) cc begin end_) -> does (R_Send (Some d) cc begin end_) st.
Proof.
  intros Q Al G (C & M & By); unfold does, perform; cbn [asks]; set (m := Ssdu (ztake cc d)); set (b := ses_sb st).
  assert (Ok : msg_ok m).
  { split; [apply Forall_ztake, By|]; split; [intros E; apply (f_equal zlen) in E; rewrite zlen_ztake in E by lia; change (zlen (@nil Z)) with 0 in E; lia | rewrite zlen_ztake; lia]. }
  assert (E : SSendRequest sizeof_spkt fresh (Some d) cc begin end_ st =
    (if lacks b SR_DAT_EXISTS ST_DAT_TOKEN then @lose_with Z _ (Lose SC_OPERATION) st else Val (OK, at_sb b (add_sent [(false, wire m)] st)))).
  { unfold SSendRequest, ssdu_request; rewrite guarded_none by (cbn [forallb fst negb andb]; rewrite (proj2 (Z.leb_gt cc 0)) by lia; reflexivity).
    rewrite (with_sd_quiet _ _ st Al (quiet_P _ Q)); unfold SDataRequestAux; rewrite bind_get by exact Al; fold b; unfold guarded; cbn [check].
    change (SPDU_DT =? SPDU_DT) with true; change (SPDU_DT =? SPDU_TD) with false; cbn [andb]; unfold lacks.
    destruct (needs b SR_DAT_EXISTS && negb (owns b ST_DAT_TOKEN)); [reflexivity|].
    assert (Uv : Forall uv_ok [UV d cc]) by (constructor; [split; [cbn [uv_len uv_base]; lia | apply Forall_ztake, By] | constructor]).
    assert (Ud : Transfer.user_octets [UV d cc] = ztake cc d) by (unfold Transfer.user_octets; cbn [map concat]; rewrite app_nil_r; reflexivity).
    rewrite (uv_sum_ok [UV d cc] 0 Uv) by (try lia; rewrite Ud, zlen_ztake by lia; lia); rewrite Ud, zlen_ztake, bind_lift, Z.add_0_l, (proj2 (Z.eqb_neq cc 0)) by lia.
    cbn [uv_base uv_len]; set (c := Some (d, cc, []) : Tp0.cursor); assert (Oc : cursor_octets c = ztake cc d) by (cbn [cursor_octets c map concat]; apply app_nil_r).
    pose proof (qt_us b Q) as Us; assert (Tz : tsdu_size (sb_tsdu_us b)) by (left; exact Us).
    assert (Le : (cursor_left c <= S (Z.to_nat cc))%nat).
    { unfold c, cursor_left; fold c; rewrite Oc; cbn [length]; pose proof (zlen_ztake cc d) as Lz; unfold zlen in *; lia. }
    destruct (ssdu_loop_ok sizeof_spkt fresh Mem Fresh b SPDU_DT end_ (or_introl eq_refl) Tz (S (Z.to_nat cc)) c begin st) as (chunks & (Cc & Cn & _ & Cl) & R);
      [split; [lia | split; [apply Forall_ztake, By | constructor]] | split; [lia | constructor] | intros _; cbn; lia | exact Le | exact G |].
    rewrite Oc in Cc, R; rewrite zlen_ztake in R by lia; rewrite Us in Cl, R; change (0 =? 0) with true in Cl.
    destruct chunks as [|x [|? ?]]; [destruct (proj1 (proj2 Ok) (eq_sym Cc)) | | cbn in Cl; lia].
    cbn [concat] in Cc; rewrite app_nil_r in Cc; subst x; rewrite R; destruct st; reflexivity. }
  fold b; destruct (lacks b SR_DAT_EXISTS ST_DAT_TOKEN).
  - exists SC_OPERATION; exact E.
  - split; [exact E | exact Ok].
Qed.

Lemma perform_does q st : quiet (ses_sb st) -> ses_gone st = false -> granting (ses_tp st) -> proper (ses_sb st) q -> does q st.
Proof.
  intros Q Al G P; destruct q; try contradiction P.
  - apply does_GToken; assumption.
  - apply does_PToken; assumption.
  - apply does_MinSync; assumption.
  - apply does_MinSyncResponse; assumption.
  - destruct data as [d|]; [|contradiction P]; apply does_Send; assumption.
Qed.
End Asking.

(** ** What a session hears *)

Inductive heard : Type :=
| Told (si : SSAPindication)
| Octets (d : list Z).

(** The user data that is given. *)
Definition gives (d : option (list Z)) (cc : Z) : sdata :=
  if cc >? 0 then match d with Some d => (Some (ztake cc d), cc) | None => no_data end else no_data.

(** What the user hears of a message, if anything, and the block after it. *)
Definition hears (m : msg) (b : ssapblk) : option heard * ssapblk :=
  match m with
  | Give w => (Some (Told (SI_TOKEN ST_GIVE w (Z.lor (sb_owned b) w) no_data)), take_token w b)
  | Please w d cc => (Some (Told (SI_TOKEN ST_PLEASE w (sb_owned b) (gives d cc))), b)
  | Minor type n d cc =>
      (Some (Told (SI_SYNC SN_MINORIND (if type =? SYNC_NOCONFIRM then SYNC_NOCONFIRM else SYNC_CONFIRM) n 0 (gives d cc))),
       next_ssn (if has b SB_Vsc then b else raise SB_Vsc (confirm_received b)))
  | Ack n d cc =>
      if has b SB_Vsc || (sb_V_A b >? n) || (n >=? sb_V_M b) then (None, b)
      else (Some (Told (SI_SYNC SN_MINORCNF 0 n 0 (gives d cc))), set_V n (sb_V_M b) (sb_V_R b) b)
  | Ssdu d => (Some (Octets d), set_code SPDU_DT b)
  end.

(** The message uses what was negotiated. *)
Definition fits (b : ssapblk) (m : msg) : Prop :=
  match m with
  | Give w => among w (tokens_of b)
  | Please w _ _ => w <> 0 /\ among w (tokens_of b)
  | Minor _ _ _ _ | Ack _ _ _ => needs b SR_MINORSYNC = true
  | Ssdu _ => True
  end.

(** *** Words of tokens that exist *)

Lemma land_bit w k : 0 <= k -> (if meets w (2 ^ k) then 2 ^ k else 0) = Z.land w (2 ^ k).
Proof.
  intros K; rewrite meets_bit by exact K; apply Z.bits_inj'; intros n Hn; rewrite Z.land_spec, Z.pow2_bits_eqb by exact K; destruct (Z.eqb_spec k n) as [<-|Ne].
  - destruct (Z.testbit w k); [apply Z.pow2_bits_true, K | apply Z.bits_0].
  - rewrite andb_false_r; destruct (Z.testbit w k); [apply Z.pow2_bits_false, Ne | apply Z.bits_0].
Qed.

Lemma lor_if (c : bool) a v : (if c then Z.lor a v else a) = Z.lor a (if c then v else 0).
Proof. destruct c; [reflexivity | rewrite Z.lor_0_r; reflexivity]. Qed.

Lemma if_and (c d : bool) (x y : Z) : (if c && d then x else y) = if c then (if d then x else y) else y.
Proof. destruct c; reflexivity. Qed.

Lemma existing_land b w : existing b w = Z.land w (tokens_of b).
Proof.
  pose proof (land_bit w 6 ltac:(lia)) as B6; pose proof (land_bit w 4 ltac:(lia)) as B4; pose proof (land_bit w 2 ltac:(lia)) as B2; pose proof (land_bit w 0 ltac:(lia)) as B0.
  change (2 ^ 6) with ST_RLS_TOKEN in B6; change (2 ^ 4) with ST_MAJ_TOKEN in B4; change (2 ^ 2) with ST_MIN_TOKEN in B2; change (2 ^ 0) with ST_DAT_TOKEN in B0.
  unfold existing, tokens_of; each_round; rewrite !lor_if.
  assert (S : forall (c : bool) bit, (if meets w bit then bit else 0) = Z.land w bit -> (if c && meets w bit then bit else 0) = Z.land w (if c then bit else 0)).
  { intros [] bit E; cbn [andb]; [exact E | rewrite Z.land_0_r; reflexivity]. }
  rewrite (S _ _ B6), (S _ _ B4), (S _ _ B2), (S _ _ B0), !Z.land_lor_distr_r, Z.land_0_r; reflexivity.
Qed.

Lemma among_land v w : among v w -> Z.land v w = v.
Proof.
  intros A; apply Z.bits_inj'; intros n Hn; rewrite Z.land_spec; destruct (Z.testbit v n) eqn:T; [rewrite (A n Hn T); reflexivity | reflexivity].
Qed.

Lemma existing_all b w : among w (tokens_of b) -> existing b w = w.
Proof. intros A; rewrite existing_land; apply among_land, A. Qed.

Lemma no_tokens b : needs b SR_TOKENS = false -> tokens_of b = 0.
Proof.
  intros N; unfold tokens_of; each_round.
  repeat match goal with |- context [needs b ?r] => rewrite (meets_sub (sb_requirements b) r SR_TOKENS eq_refl N : needs b r = false) end; reflexivity.
Qed.

Lemma has_tokens b w : among w (tokens_of b) -> w <> 0 -> needs b SR_TOKENS = true.
Proof.
  intros A N; destruct (needs b SR_TOKENS) eqn:E; [reflexivity|]; destruct N; rewrite (no_tokens b E) in A.
  rewrite <- (among_land w 0 A); apply Z.land_0_r.
Qed.

Section Hearing.
Context `{Allocator} (sizeof_spkt sizeof_qbuf : Z) (fresh : Z -> list Z).
Hypothesis Mem : memory_ok.
Hypothesis Fresh : forall n, 0 <= n -> zlen (fresh n) = n.
Variables ses_ab_timer ses_dn_timer ses_rf_timer : Z.

(** The user data of the packet that is read. *)
Lemma given_data m d cc s' : data_ok d cc -> match m with Please _ d' c' | Minor _ _ d' c' | Ack _ d' c' => d' = d /\ c' = cc | _ => False end ->
  same_spdu (spkt_of m) s' -> copySPKTdata s' = gives d cc /\ s_ulen s' <= DATA_MAX.
Proof.
  intros D Md Sm; pose proof (same_given _ _ Sm) as G; replace (carries_udata (spkt_of m)) with true in G
    by (unfold carries_udata; rewrite spkt_of_code; destruct m; try contradiction Md; reflexivity).
  assert (U : s_udata (spkt_of m) = (if cc >? 0 then d else None) /\ s_ulen (spkt_of m) = Z.max 0 cc /\
      user_octets (spkt_of m) = if cc >? 0 then match d with Some d => ztake cc d | None => [] end else [])
    by (destruct m; try contradiction Md; destruct Md as (-> & ->); apply put_data_udata, D).
  destruct U as (U1 & U2 & U3); rewrite U1, U2, U3 in G; unfold copySPKTdata, gives, no_data; destruct D as (L & _); unfold DATA_MAX in *.
  rewrite Z.gtb_ltb in *; destruct (Z.ltb_spec 0 cc); destruct d as [d|]; (split; [|apply (f_equal snd) in G; cbn [snd] in G; lia]); rewrite ?Z.max_r in G by lia; exact G.
Qed.

(** Numbers of the packet that is read. *)
Lemma same_field s s' flag f : same_spdu s s' -> In (flag, f) (num_fields s) -> is_set s flag = true -> is_set s' flag = true /\ s_num s' f = s_num s f.
Proof. intros Sm I E; destruct (same_num _ _ Sm flag f I) as (A & B); rewrite A; auto. Qed.

(** Every filter lets a message pass. *)
Lemma read_step_acts m k st : quiet (ses_sb st) -> ses_gone st = false -> fits (ses_sb st) m -> msg_ok m -> arrived m k ->
  match m with Ssdu _ => False | _ => True end ->
  read_step sizeof_spkt sizeof_qbuf fresh ses_ab_timer ses_rf_timer k st = act sizeof_spkt sizeof_qbuf fresh ses_ab_timer ses_rf_timer k st.
Proof.
  intros Q Al F M A Ns; assert (Sm : same_spdu (spkt_of m) (p_spkt k)) by (destruct m; try contradiction Ns; exact A); clear A.
  pose proof (same_code _ _ Sm) as Sc; rewrite spkt_of_code in Sc; pose proof (same_normal _ _ Sm) as Sn; pose proof (same_enclosed _ _ Sm (spkt_of_enclose m)) as Se.
  assert (Ul : s_ulen (p_spkt k) <= DATA_MAX).
  { destruct m as [w | w d cc | type n d cc | n d cc | d]; [|eapply (given_data (Please w d cc)) | eapply (given_data (Minor type n d cc)) | eapply (given_data (Ack n d cc)) | contradiction Ns].
    - pose proof (f_equal snd (same_given _ _ Sm)) as G; cbn [snd] in G; rewrite G; vm_compute; discriminate.
    - apply M.
    - split; reflexivity.
    - exact Sm.
    - apply M.
    - split; reflexivity.
    - exact Sm.
    - apply M.
    - split; reflexivity.
    - exact Sm. }
  unfold read_step; rewrite andthen_pass.
  2: { unfold filter_flow, bind, get; rewrite Al, Sn; unfold prepared; rewrite (qt_pr _ Q), Sc; destruct m; try contradiction Ns; reflexivity. }
  rewrite andthen_pass by (unfold filter_collision, bind, get; rewrite Al, (quiet_flag _ _ Q eq_refl); reflexivity).
  rewrite andthen_pass by (unfold filter_exception, bind, get; rewrite Al, (quiet_flag _ _ Q eq_refl); reflexivity).
  rewrite andthen_pass by (unfold filter_segment, bind, get; rewrite Al, (qt_len _ Q); reflexivity).
  rewrite andthen_pass.
  2: { unfold filter_version, bind, get; rewrite Al, Se, Z.gtb_ltb, (proj2 (Z.ltb_ge _ _)) by (unfold CN_SIZE, DATA_MAX in *; lia); reflexivity. }
  rewrite andthen_pass; [reflexivity|]; unfold filter_unit, bind, get; rewrite Al, Sc.
  destruct m as [w | w d cc | type n d cc | n d cc | d]; try contradiction Ns; cbn [fits] in F.
  - reflexivity.
  - change (unit_of SPDU_PT) with (Some SR_TOKENS); cbn match; rewrite (has_tokens _ w (proj2 F) (proj1 F)); reflexivity.
  - change (unit_of SPDU_MIP) with (Some SR_MINORSYNC); cbn match; rewrite F; reflexivity.
  - change (unit_of SPDU_MIA) with (Some SR_MINORSYNC); cbn match; rewrite F; reflexivity.
Qed.

(** What is made of the packet of a message. *)
Definition step_hears (m : msg) (st : session) (r : cres (exit * session)) : Prop :=
  match hears m (ses_sb st) with
  | (Some (Told si), b) => r = Val (Return DONE no_ssdu, at_si si (at_sb b st))
  | (Some (Octets d), b) => exists q, ring_octets q = d /\ r = Val (Return OK (Sx SX_NORMAL (zlen d) q), at_sb b st)
  | (None, b) => r = Val (Spin, at_sb b st)
  end.

Lemma at_sb_same st : at_sb (ses_sb st) st = st.
Proof. destruct st; reflexivity. Qed.

Lemma read_step_hears m k st : quiet (ses_sb st) -> ses_gone st = false -> fits (ses_sb st) m -> msg_ok m -> arrived m k ->
  step_hears m st (read_step sizeof_spkt sizeof_qbuf fresh ses_ab_timer ses_rf_timer k st).
Proof.
  intros Q Al F M A; pose proof (read_step_acts m k st Q Al F M A) as Ra; unfold step_hears; set (b := ses_sb st) in *.
  assert (Ed : has b (Z.lor SB_ED SB_ERACK) = false) by (apply quiet_flag; [exact Q | reflexivity]).
  destruct m as [w | w d cc | type n d cc | n d cc | d]; cbn [hears]; try (rewrite (Ra I); clear Ra; cbn [arrived] in A; pose proof (same_code _ _ A) as Sc; rewrite spkt_of_code in Sc; unfold act; rewrite Sc).
  - pose proof (same_GT _ _ A (spkt_of_code (Give w))) as Sg; change (is_set (spkt_of (Give w)) SMASK_SPDU_GT) with true in Sg.
    destruct (same_field _ _ SMASK_GT_TOKEN N_gt_token A (or_introl eq_refl) eq_refl) as (Sf & Sw); change (s_num (spkt_of (Give w)) N_gt_token) with w in Sw.
    change (SPDU_GT =? SPDU_PT) with false; change (SPDU_GT =? SPDU_GT) with true; cbn match; rewrite Sg; unfold act_GT; rewrite bind_get by exact Al; fold b.
    rewrite (quiet_flag b SB_GTC Q eq_refl), Sf, Sw, (existing_all b w F); cbv zeta; rewrite bind_update by exact Al; fold b.
    assert (T : negb (w =? 0) && negb (needs b SR_TOKENS) = false).
    { destruct (Z.eqb_spec w 0) as [|N]; [reflexivity|]; rewrite (has_tokens b w F N); reflexivity. }
    rewrite T; assert (Low : forall A (k : unit -> sess A), bind (if meets w ST_DAT_TOKEN then update (lower (Z.lor SB_ED SB_ERACK)) else ret tt) k (at_sb (take_token w b) st) = k tt (at_sb (take_token w b) st)).
    { intros B k'; destruct (meets w ST_DAT_TOKEN); [|reflexivity]; rewrite bind_update by exact Al; cbn [ses_sb at_sb]; rewrite lower_none by (exact Ed); reflexivity. }
    rewrite Low, bind_get by exact Al; reflexivity.
  - destruct (given_data (Please w d cc) d cc _ (proj2 M) (conj eq_refl eq_refl) A) as (Gd & _); destruct F as (_ & F).
    assert (Fl : is_set (spkt_of (Please w d cc)) SMASK_PT_TOKEN = true) by (cbn [spkt_of]; rewrite put_data_set by reflexivity; reflexivity).
    destruct (same_field _ _ SMASK_PT_TOKEN N_pt_token A) as (Sf & Sw); [unfold num_fields; rewrite spkt_of_code; left; reflexivity | exact Fl|].
    replace (s_num (spkt_of (Please w d cc)) N_pt_token) with w in Sw by (cbn [spkt_of]; rewrite put_data_num; reflexivity).
    change (SPDU_PT =? SPDU_PT) with true; cbn match; unfold act_PT; rewrite bind_get by exact Al; fold b.
    rewrite (quiet_flag b SB_GTC Q eq_refl), Sf, Sw, (existing_all b w F), Gd; unfold b; rewrite at_sb_same; reflexivity.
  - destruct (given_data (Minor type n d cc) d cc _ (proj2 M) (conj eq_refl eq_refl) A) as (Gd & _).
    assert (Fl : is_set (spkt_of (Minor type n d cc)) SMASK_MIP_SERIAL = true /\ is_set (spkt_of (Minor type n d cc)) SMASK_MIP_SYNC = (type =? SYNC_NOCONFIRM) /\
      s_num (spkt_of (Minor type n d cc)) N_mip_serial = n /\ (type = SYNC_NOCONFIRM -> s_num (spkt_of (Minor type n d cc)) N_mip_sync = MIP_SYNC_NOEXPL)).
    { cbn [spkt_of]; rewrite !put_data_num, !put_data_set by reflexivity; destruct (Z.eqb_spec type SYNC_NOCONFIRM); repeat split; congruence. }
    destruct Fl as (F1 & F2 & F3 & F4).
    destruct (same_field _ _ SMASK_MIP_SERIAL N_mip_serial A) as (_ & Sw); [unfold num_fields; rewrite spkt_of_code; right; left; reflexivity | exact F1|]; rewrite F3 in Sw.
    destruct (same_num _ _ A SMASK_MIP_SYNC N_mip_sync) as (Y1 & Y2); [unfold num_fields; rewrite spkt_of_code; left; reflexivity|]; rewrite F2 in Y1, Y2.
    set (b1 := next_ssn (if has b SB_Vsc then b else raise SB_Vsc (confirm_received b))).
    assert (E1 : has (ses_sb (at_sb b1 st)) (Z.lor SB_ED SB_ERACK) = false).
    { change (has b1 (Z.lor SB_ED SB_ERACK) = false); subst b1; unfold next_ssn; rewrite has_V; destruct (has b SB_Vsc) eqn:V; [exact Ed|].
      rewrite has_raise by reflexivity; unfold confirm_received; rewrite V; exact Ed. }
    destruct (type =? SYNC_NOCONFIRM) eqn:Ty; codes; cbn match; change (one_of 49 _) with false; cbn match; unfold act_MIP; rewrite bind_update, bind_get by exact Al; fold b; fold b1.
    all: rewrite E1, Sw, Gd, Y1; rewrite ?(Y2 eq_refl), ?(F4 (proj1 (Z.eqb_eq _ _) Ty)); reflexivity.
  - destruct (given_data (Ack n d cc) d cc _ (proj2 M) (conj eq_refl eq_refl) A) as (Gd & _).
    destruct (same_field _ _ SMASK_MIA_SERIAL N_mia_serial A) as (_ & Sw);
      [unfold num_fields; rewrite spkt_of_code; left; reflexivity | cbn [spkt_of]; rewrite put_data_set by reflexivity; reflexivity|].
    replace (s_num (spkt_of (Ack n d cc)) N_mia_serial) with n in Sw by (cbn [spkt_of]; rewrite put_data_num; reflexivity).
    codes; cbn match; change (one_of 50 _) with false; cbn match; unfold act_MIA; rewrite bind_get by exact Al; fold b; rewrite Sw; cbv zeta.
    unfold orb; destruct (if if has b SB_Vsc then true else sb_V_A b >? n then true else n >=? sb_V_M b); [change (ret Spin st = Val (Spin, at_sb (ses_sb st) st)); rewrite at_sb_same; reflexivity|].
    rewrite bind_update by exact Al; rewrite Gd; reflexivity.
  - destruct A as (Ds & _ & Qo & Ql); destruct k as [s q l]; cbn [p_spkt s_qbuf s_qlen] in *; subst l; destruct M as (_ & Nd & Ld); exists q; split; [exact Qo|].
    assert (Rc : receptive 0 SPDU_DT b).
    { split; try (apply quiet_flag; [exact Q | reflexivity]); try apply Q; discriminate. }
    rewrite (data_step sizeof_spkt sizeof_qbuf fresh ses_ab_timer ses_rf_timer 0 SPDU_DT true true s q (zlen d) st Al (or_introl eq_refl) Rc Ds)
      by (fold b; rewrite (qt_len b Q); lia).
    replace st with (at_sb b st) at 1 by (unfold b; apply at_sb_same).
    rewrite (act_DT_ok sizeof_spkt fresh ses_ab_timer ses_rf_timer 0 SPDU_DT true true s q (zlen d) b st Al Rc (or_introl eq_refl) Ds);
      [| reflexivity | exact (qt_len b Q) | intros ->; destruct (Nd (eq_sym Qo)) | rewrite (qt_len b Q); lia].
    rewrite (qt_len b Q), (qt_qbuf b Q); cbn [app]; unfold grown; pose proof (qt_qbuf b Q); pose proof (qt_len b Q); destruct b; cbn in *; subst; reflexivity.
Qed.
End Hearing.

(** ** The octets of a message *)

Lemma item_bytes c d : is_byte c -> bytes d -> zlen d < 65536 -> bytes (enc_item (Pi (c, d))).
Proof.
  intros C D L; pose proof (zlen_nonneg d); cbn [enc_item]; unfold enc_pi; cbn [fst snd]; apply bytes_cons; split; [exact C|].
  apply bytes_app; split; [apply enc_li_bytes; lia | exact D].
Qed.

Lemma items_bytes l : Forall (fun i => bytes (enc_item i)) l -> bytes (enc_items l).
Proof. unfold enc_items; induction 1; cbn [map concat]; [constructor | apply bytes_app; auto]. Qed.

Lemma enc_bytes s : is_byte (s_code s) -> zlen (enc_items (spdu_items s)) < 65536 -> Forall (fun i => bytes (enc_item i)) (spdu_items s) -> bytes (enc s).
Proof.
  intros C L F; pose proof (zlen_nonneg (enc_items (spdu_items s))); unfold enc, enc_spdu; apply bytes_cons; split; [exact C|].
  apply bytes_app; split; [apply enc_li_bytes; lia | apply items_bytes, F].
Qed.

Lemma octet_item s c f : is_byte c -> is_byte (s_num s f) -> bytes (enc_item (Pi (i_octet s c f))).
Proof. intros C N; apply item_bytes; [exact C | repeat constructor; apply N | reflexivity]. Qed.

Lemma ssn_item s c f : is_byte c -> 0 <= s_num s f < SERIAL_MAX + 2 -> bytes (enc_item (Pi (i_ssn s c f))).
Proof. intros C N; destruct (zlen_print_ssn _ N) as (L & B); apply item_bytes; [exact C | exact B | lia]. Qed.

Lemma udata_item s c : is_byte c -> spkt_ok s -> s_ulen s < 65536 -> Forall (fun i => bytes (enc_item i)) (i_udata s c).
Proof.
  intros C O L; pose proof (ok_udata s O) as U; unfold i_udata, user_octets; destruct (s_udata s) as [d|]; constructor; [|constructor].
  destruct U as (U1 & U2 & U3); apply item_bytes; [exact C | apply Forall_ztake, U3 | rewrite zlen_ztake by lia; exact L].
Qed.

Lemma wire_bytes m : msg_ok m -> bytes (wire m).
Proof.
  intros M; pose proof (spkt_of_ok m M) as O.
  assert (En : i_enclose (spkt_of m) = []) by (unfold i_enclose; rewrite spkt_of_enclose; reflexivity).
  assert (Uz : s_ulen (spkt_of m) < 65536).
  { destruct m; try reflexivity; destruct M as (_ & M); cbn [spkt_of]; rewrite (proj1 (proj2 (put_data_udata _ _ _ M))); destruct M as (L & _); unfold DATA_MAX in L; lia. }
  assert (N : forall f, 0 <= s_num (spkt_of m) f < num_bound f) by apply (ok_num _ O).
  assert (E : match m with Ssdu _ => True | _ => bytes (enc (spkt_of m)) end).
  { destruct m as [w | w d cc | type n d cc | n d cc | d]; try exact I.
    all: apply enc_bytes; [rewrite spkt_of_code; split; discriminate || reflexivity | apply (spkt_of_room (H := plenty) zeros), M |].
    all: unfold spdu_items; rewrite spkt_of_code; cbv zeta; codes; unfold i_tail; rewrite ?En; cbn [app].
    - change (is_set (spkt_of (Give w)) SMASK_SPDU_GT) with true; change (is_set (spkt_of (Give w)) SMASK_GT_TOKEN) with true; cbn [opt]; cbn match.
      constructor; [|constructor]; apply octet_item; [split; discriminate || reflexivity | apply (N N_gt_token)].
    - apply Forall_app; split; [|apply udata_item; auto; split; discriminate || reflexivity].
      unfold opt; destruct (is_set _ _); constructor; [|constructor]; apply octet_item; [split; discriminate || reflexivity | apply (N N_pt_token)].
    - apply Forall_app; split; [|constructor; [|apply udata_item; auto; split; discriminate || reflexivity]].
      + unfold opt; destruct (is_set _ _); constructor; [|constructor]; apply octet_item; [split; discriminate || reflexivity | apply (N N_mip_sync)].
      + apply ssn_item; [split; discriminate || reflexivity | apply (N N_mip_serial)].
    - constructor; [|apply udata_item; auto; split; discriminate || reflexivity].
      apply ssn_item; [split; discriminate || reflexivity | apply (N N_mia_serial)]. }
  assert (C0 : bytes [cat0_code (s_code (spkt_of m)); 0]).
  { rewrite spkt_of_code; destruct m; repeat constructor; discriminate || reflexivity. }
  destruct m; cbn [wire]; try exact E; try (apply bytes_app; split; [exact C0 | exact E]).
  change (ssdu_tsdu 0 SPDU_DT true true data) with ([1; 0; 1; 0] ++ data); apply bytes_app; split; [repeat constructor; discriminate || reflexivity | apply M].
Qed.
