(* ===== verification/Peers.v ===== *)
(** * ssap: two sessions that speak to each other

    What each user asks for is heard by the other, in order: the protocol
    machines of [Ssap], [Sreq] and [Sread], joined by their transport
    connections, implement the exchange of the messages of [Message]. From
    it follow that no token is ever owned twice, that serial numbers agree
    and that SSDUs are delivered as they were sent. *)

From S2P Require Import Prelude Conv Convert PElement PStream Qbuf Tpkt Tpkt2fd Tcp Tp0 Transfer Spkt Spkt2tsdu Tsdu2spkt Spdu Ssap Sreq Sread Swrite Ssdu Session Message.
Open Scope Z_scope.
Open Scope c_scope.
Open Scope ses_scope.

(** ** What a user does *)

Inductive action : Type :=
| Ask (q : request)
| Listen.

(** What the session returns, what is in the indication, and the SSDU. *)
Record reply : Type := Reply { r_result : Z; r_si : SSAPindication; r_ssdu : list Z }.

Section Sessions.
Context `{Allocator} (sizeof_spkt sizeof_qbuf : Z) (fresh : Z -> list Z).
Variables ses_ab_timer ses_dn_timer ses_rf_timer : Z.

Definition take (a : action) (st : session) : cres (reply * session) :=
  match a with
  | Ask q => ' (r, st') <- perform sizeof_spkt sizeof_qbuf fresh ses_ab_timer ses_dn_timer ses_rf_timer q st ;; Val (Reply r (ses_si st') [], st')
  | Listen =>
      ' ((r, sx), st') <- SReadRequest sizeof_spkt sizeof_qbuf fresh ses_ab_timer ses_dn_timer ses_rf_timer st ;;
      Val (Reply r (ses_si st') (match sx with Some sx => ring_octets (sx_qbuf sx) | None => [] end), st')
  end.

(** What was sent since, and what the transport service makes of it: [cut]
    says how each TSDU is received, in what buffers. *)
Definition since (st st' : session) : list (bool * list Z) := zdrop (zlen (tp_sent (ses_tp st))) (tp_sent (ses_tp st')).

Definition deliver (cut : bool -> list Z -> tsdu) (l : list (bool * list Z)) (st : session) : session :=
  with_reads (tp_reads (ses_tp st) ++ map (fun o => inr (cut (fst o) (snd o))) l) st.

(** One side does something, the right one where [side] is true. *)
Definition pair_step (cut : bool -> list Z -> tsdu) (side : bool) (a : action) (p : session * session) : cres (reply * (session * session)) :=
  let (me, you) := if side then (snd p, fst p) else p in
  ' (r, me') <- take a me ;;
  let you' := deliver cut (since me me') you in
  Val (r, if side then (you', me') else (me', you')).

Fixpoint pair_run (cut : nat -> bool -> list Z -> tsdu) (l : list (bool * action)) (p : session * session) : cres (list reply * (session * session)) :=
  match l with
  | [] => Val ([], p)
  | (side, a) :: l =>
      ' (r, p) <- pair_step (cut (length l)) side a p ;;
      ' (rs, p) <- pair_run cut l p ;;
      Val (r :: rs, p)
  end.
End Sessions.

(** ** The exchange of messages *)

Record world : Type := World { w_left : ssapblk; w_right : ssapblk; to_left : list msg; to_right : list msg }.

Inductive outcome : Type :=
| Sent (m : msg)
| Refused
| Heard (h : heard)
| Nothing.

(** The first message that is heard. *)
Fixpoint listen (b : ssapblk) (l : list msg) : option heard * ssapblk * list msg :=
  match l with
  | [] => (None, b, [])
  | m :: l => match hears m b with (Some h, b) => (Some h, b, l) | (None, b) => listen b l end
  end.

Definition flip (w : world) : world := World (w_right w) (w_left w) (to_right w) (to_left w).

Definition left_step (a : action) (w : world) : outcome * world :=
  match a with
  | Ask q =>
      match asks (w_left w) q with
      | Some (m, b) => (Sent m, World b (w_right w) (to_left w) (to_right w ++ [m]))
      | None => (Refused, w)
      end
  | Listen =>
      let '(h, b, l) := listen (w_left w) (to_left w) in
      (match h with Some h => Heard h | None => Nothing end, World b (w_right w) l (to_right w))
  end.

Definition step (side : bool) (a : action) (w : world) : outcome * world :=
  if side then let (o, w) := left_step a (flip w) in (o, flip w) else left_step a w.

Fixpoint run (l : list (bool * action)) (w : world) : list outcome * world :=
  match l with
  | [] => ([], w)
  | (side, a) :: l => let (o, w) := step side a w in let (os, w) := run l w in (o :: os, w)
  end.

(** The parameters of every request are meant, when its turn comes. *)
Definition intended (a : action) (b : ssapblk) : Prop := match a with Ask q => proper b q | Listen => True end.

Fixpoint all_intended (l : list (bool * action)) (w : world) : Prop :=
  match l with
  | [] => True
  | (side, a) :: l => intended a (if side then w_right w else w_left w) /\ all_intended l (snd (step side a w))
  end.

(** What the user is shown of an outcome. *)
Definition shows (o : outcome) (r : reply) : Prop :=
  match o with
  | Sent _ => r_result r = OK
  | Refused => r_result r = NOTOK /\ exists reason, r_si r = SI_ABORT false reason no_data
  | Heard (Told si) => r_result r = DONE /\ r_si r = si
  | Heard (Octets d) => r_result r = OK /\ r_ssdu r = d
  | Nothing => r_result r = NOTOK /\ r_si r = SI_ABORT false SC_TIMER no_data
  end.

(** ** Blocks and messages *)

Lemma hears_like m b : like b (snd (hears m b)).
Proof.
  destruct m; cbn [hears].
  - apply like_owned.
  - apply like_refl.
  - destruct (has b SB_Vsc); [apply like_V|]; eapply like_trans; [|apply like_V]; eapply like_trans; [|apply like_raise_Vsc].
    unfold confirm_received; destruct (has b SB_Vsc); [apply like_refl | apply like_V].
  - destruct (_ || _); [apply like_refl | apply like_V].
  - apply like_code.
Qed.

Lemma listen_like l : forall b, like b (snd (fst (listen b l))).
Proof.
  induction l as [|m l IH]; intros b; cbn [listen]; [apply like_refl|]; pose proof (hears_like m b) as L.
  destruct (hears m b) as ([h|], b'); cbn [snd] in L; [exact L | eapply like_trans; [exact L | apply IH]].
Qed.

Lemma asks_like b q m b' : asks b q = Some (m, b') -> like b b'.
Proof.
  destruct q; cbn [asks]; try discriminate.
  - destruct (give_settings b tokens) as [|w]; [discriminate|]; destruct (w =? 0); [discriminate|]; intros E; injection E as <- <-; apply like_owned.
  - destruct (please_settings b tokens) as [|w]; [discriminate|]; destruct (w =? 0); [discriminate|]; intros E; injection E as <- <-; apply like_refl.
  - destruct (_ && _ && _); [|discriminate]; intros E; injection E as <- <-; eapply like_trans; [|apply like_V].
    unfold confirm_all; destruct (has b SB_Vsc); [|apply like_refl]; eapply like_trans; [apply like_V | apply like_lower_Vsc].
  - destruct (_ && _ && _); [|discriminate]; intros E; injection E as <- <-; apply like_V.
  - destruct data as [d|]; [|discriminate]; destruct (lacks _ _ _); [discriminate|]; intros E; injection E as <- <-; apply like_refl.
Qed.

(** The requirements of a block say which messages fit. *)
Lemma like_requirements b b' : like b b' -> sb_requirements b' = sb_requirements b.
Proof. intros (T & _); unfold terms in T; congruence. Qed.

Lemma tokens_requirements b b' : sb_requirements b' = sb_requirements b -> tokens_of b' = tokens_of b.
Proof. intros E; unfold tokens_of; each_round; unfold needs; rewrite E; reflexivity. Qed.

Lemma fits_requirements b b' m : sb_requirements b' = sb_requirements b -> fits b m -> fits b' m.
Proof. intros E; pose proof (tokens_requirements b b' E) as T; destruct m; cbn [fits]; unfold needs; rewrite ?T, ?E; auto. Qed.

Lemma asks_fits b q m b' : asks b q = Some (m, b') -> fits b m.
Proof.
  destruct q; cbn [asks]; try discriminate.
  - destruct (give_settings b tokens) as [|w] eqn:G; [discriminate|]; destruct (w =? 0); [discriminate|]; intros E; injection E as <- <-.
    apply (give_settings_ok _ _ _ G).
  - destruct (please_settings b tokens) as [|w] eqn:G; [discriminate|]; destruct (Z.eqb_spec w 0); [discriminate|]; intros E; injection E as <- <-.
    split; [assumption | apply (please_settings_ok _ _ _ G)].
  - destruct (needs b SR_MINORSYNC) eqn:N; [|discriminate]; destruct (_ && _ && _); [|discriminate]; intros E; injection E as <- <-; exact N.
  - destruct (needs b SR_MINORSYNC) eqn:N; [|discriminate]; destruct (_ && _ && _); [|discriminate]; intros E; injection E as <- <-; exact N.
  - destruct data as [d|]; [|discriminate]; destruct (lacks _ _ _); [discriminate|]; intros E; injection E as <- <-; exact I.
Qed.

(** ** Sessions that implement the exchange *)

(** The TSDUs that wait for a session are those of messages. *)
Definition waiting (st : session) (l : list msg) : Prop :=
  exists txs, tp_reads (ses_tp st) = map inr txs /\ Forall2 (fun tx m => carries tx false (wire m)) txs l.

(** A session of the exchange, and what it has still to hear. *)
Record speaks (st : session) (b : ssapblk) (l : list msg) : Prop := {
  sp_block : ses_sb st = b;
  sp_reading : reading st;
  sp_granting : granting (ses_tp st);
  sp_quiet : quiet b;
  sp_waiting : waiting st l;
  sp_ok : Forall msg_ok l;
  sp_fits : Forall (fits b) l
}.

Lemma at_sb_back st : at_sb (ses_sb st) st = st.
Proof. destruct st; reflexivity. Qed.


(** A session that took part has other serial numbers and tokens, no more. *)
Lemma speaks_like st b l st' b' l' : speaks st b l -> ses_sb st' = b' -> like b b' -> reading st' -> granting (ses_tp st') -> waiting st' l' ->
  (exists l0, l = l0 ++ l') -> speaks st' b' l'.
Proof.
  intros S E L Rd G W (l0 & ->); split; auto.
  - apply (quiet_like b); [exact L | apply S].
  - pose proof (sp_ok _ _ _ S) as O; apply Forall_app in O; apply O.
  - pose proof (sp_fits _ _ _ S) as F; apply Forall_app in F as (_ & F).
    revert F; apply Forall_impl; intros m; apply fits_requirements, like_requirements, L.
Qed.

Lemma listen_rest l : forall b, exists l0, l = l0 ++ snd (listen b l).
Proof.
  induction l as [|m l IH]; intros b; cbn [listen]; [exists []; reflexivity|]; destruct (hears m b) as ([h|], b'); cbn [snd].
  - exists [m]; reflexivity.
  - destruct (IH b') as (l0 & E); exists (m :: l0); cbn [app]; rewrite <- E; reflexivity.
Qed.

Lemma waiting_app st l m cut : waiting st l -> (forall o, bytes o -> carries (cut false o) false o) -> msg_ok m ->
  waiting (deliver cut [(false, wire m)] st) (l ++ [m]).
Proof.
  intros (txs & E & F2) C M; exists (txs ++ [cut false (wire m)]); split.
  - cbn [deliver with_reads at_tp ses_tp tp_reads map fst snd]; rewrite E, map_app; reflexivity.
  - apply Forall2_app; [exact F2 | constructor; [apply C, wire_bytes, M | constructor]].
Qed.

(** What is sent is waited for. *)
Lemma speaks_deliver st b l m cut : speaks st b l -> (forall o, bytes o -> carries (cut false o) false o) -> msg_ok m -> fits b m ->
  speaks (deliver cut [(false, wire m)] st) b (l ++ [m]).
Proof.
  intros [] C M F; split; auto using waiting_app; apply Forall_app; auto.
Qed.

Lemma deliver_nothing cut st : deliver cut [] st = st.
Proof. destruct st as [b g i [] x]; unfold deliver, with_reads, at_tp; cbn; rewrite app_nil_r; reflexivity. Qed.

Lemma zdrop_exact {A} (l k : list A) : zdrop (zlen l) (l ++ k) = k.
Proof. apply zdrop_app_exact; reflexivity. Qed.

Section Speaking.
Context `{Allocator} (sizeof_spkt sizeof_qbuf : Z) (fresh : Z -> list Z).
Hypothesis Mem : memory_ok.
Hypothesis Fresh : forall n, 0 <= n -> zlen (fresh n) = n.
Variables ses_ab_timer ses_dn_timer ses_rf_timer : Z.

(** The session after a read, but for its transport service and buffer. *)
Definition after_read (si : SSAPindication) (x : option (list Z)) (txs : list tsdu) (b : ssapblk) (st : session) : session :=
  at_si si (at_buffer x (with_reads (map inr txs) (at_sb b st))).

Definition outcome_of (h : option heard) : outcome := match h with Some h => Heard h | None => Nothing end.

(** Nothing is there to read. *)
Lemma spin_nothing fuel b st : ses_gone st = false -> nothing_kept b -> tp_reads (ses_tp st) = [] ->
  spin_loop sizeof_spkt sizeof_qbuf fresh ses_ab_timer ses_dn_timer ses_rf_timer (S fuel) false None (at_sb b st) =
  Val ((NOTOK, no_ssdu), at_si (SI_ABORT false SC_TIMER no_data) (at_sb b st)).
Proof.
  intros Al (X & S) E; destruct st as [b0 g i t x]; cbn [ses_gone ses_tp] in Al, E; subst g; cbn [spin_loop].
  unfold sb2spkt, bind, get, at_sb; cbn [ses_gone ses_sb ses_tp ses_si ses_buffer]; rewrite X, S.
  unfold TReadRequest, bind, get_tp; cbn [ses_tp]; rewrite E; reflexivity.
Qed.

Lemma quiet_kept b : quiet b -> nothing_kept b.
Proof. intros Q; split; [rewrite (qt_pr b Q), (qt_xspdu b Q); reflexivity | apply (qt_spdu b Q)]. Qed.

(** The loop of a read hears the first message there is to hear. *)
Lemma spin_hears l : forall b st txs fuel, reading st -> quiet b -> Forall msg_ok l -> Forall (fits b) l -> tp_reads (ses_tp st) = map inr txs ->
  Forall2 (fun tx m => carries tx false (wire m)) txs l -> (length l < fuel)%nat -> let '(h, b', l') := listen b l in
  exists r si sx x txs', spin_loop sizeof_spkt sizeof_qbuf fresh ses_ab_timer ses_dn_timer ses_rf_timer fuel false None (at_sb b st) =
      Val ((r, sx), after_read si x txs' b' st) /\
    shows (outcome_of h) (Reply r si (ring_octets (sx_qbuf sx))) /\ buffer_ok x /\ Forall2 (fun tx m => carries tx false (wire m)) txs' l'.
Proof.
  induction l as [|m l IH]; intros b st txs fuel Rd Q Ok Fi Tr F2 Fu; (destruct fuel as [|fuel]; [cbn in Fu; lia|]); inversion F2; subst; clear F2; cbn [listen].
  - exists NOTOK, (SI_ABORT false SC_TIMER no_data), no_ssdu, (ses_buffer st), []; split; [|split; [split; reflexivity | split; [apply Rd | constructor]]].
    rewrite spin_nothing by (apply Rd || apply quiet_kept, Q || exact Tr).
    unfold after_read; replace (with_reads _ _) with (at_sb b st); [reflexivity|].
    destruct st as [? ? ? [] ?]; cbn in Tr; subst; reflexivity.
  - inversion Ok as [|? ? M Ok']; inversion Fi as [|? ? F Fi']; subst; cbn [map] in Tr; cbn [spin_loop]; unfold bind.
    rewrite (sb2spkt_waits _ _ _ _ _ _ _ _ (proj1 Rd) (quiet_kept b Q) Tr).
    set (st1 := with_reads (map inr l0) st); change (with_reads (map inr l0) (at_sb b st)) with (at_sb b st1).
    destruct (sb2spkt_hears sizeof_spkt fresh Mem Fresh ses_ab_timer ses_rf_timer m x b st1 M Rd (qt_spdu b Q) ltac:(assumption)) as (k & y & -> & A & By).
    change (at_buffer y (at_sb b st1)) with (at_sb b (at_buffer y st1)).
    pose proof (read_step_hears sizeof_spkt sizeof_qbuf fresh ses_ab_timer ses_rf_timer m k (at_sb b (at_buffer y st1)) Q (proj1 Rd) F M A) as S; unfold step_hears in S.
    pose proof (hears_like m b) as Lk; cbn [ses_sb at_sb] in S; destruct (hears m b) as ([[si | d]|], b'); cbn [snd] in Lk.
    + rewrite S; exists DONE, si, no_ssdu, y, l0; repeat split; assumption.
    + destruct S as (q & Qo & ->); exists OK, (ses_si st), (Sx SX_NORMAL (zlen d) q), y, l0; repeat split; assumption.
    + rewrite S; cbn [negb orb]; unfold get; cbn [ses_gone at_sb at_buffer st1 with_reads at_tp]; rewrite (proj1 Rd).
      specialize (IH b' (at_buffer y st1) l0 fuel); destruct (listen b' l) as ((h, b2), l'); apply IH; auto.
      * split; [apply Rd | exact By].
      * apply (quiet_like b), Q; exact Lk.
      * revert Fi'; apply Forall_impl; intros m'; apply fits_requirements, like_requirements, Lk.
      * cbn [length] in Fu; lia.
Qed.

(** ** What one side does *)

Lemma take_listen st b l : speaks st b l -> let '(h, b', l') := listen b l in
  exists r st', take sizeof_spkt sizeof_qbuf fresh ses_ab_timer ses_dn_timer ses_rf_timer Listen st = Val (r, st') /\
    shows (outcome_of h) r /\ speaks st' b' l' /\ since st st' = [].
Proof.
  intros Sk; pose proof (sp_quiet _ _ _ Sk) as Q; pose proof (sp_reading _ _ _ Sk) as Rd; pose proof (sp_block _ _ _ Sk) as B; destruct (sp_waiting _ _ _ Sk) as (txs & Tr & F2).
  assert (Le : (length l < S (unread None st))%nat).
  { unfold unread; rewrite Tr, length_map, (Forall2_length F2); lia. }
  pose proof (spin_hears l b (at_si SI_DATA st) txs _ Rd Q (sp_ok _ _ _ Sk) (sp_fits _ _ _ Sk) Tr F2 Le) as Sp.
  pose proof (listen_like l b) as Lk; pose proof (listen_rest l b) as Re; destruct (listen b l) as ((h, b'), l'); cbn [fst snd] in Lk, Re.
  destruct Sp as (r & si & sx & x & txs' & E & Sh & Bx & F2'); exists (Reply r si (ring_octets (sx_qbuf sx))), (after_read si x txs' b' (at_si SI_DATA st)); split; [|split; [exact Sh|]; split].
  - cbn [take]; unfold SReadRequest, with_sd; rewrite (proj1 Rd); unfold guarded; cbn [check]; rewrite B, (qt_conn b Q), (quiet_flag b SB_FINN Q eq_refl); cbn [negb].
    unfold SReadRequestAux, bind at 1; rewrite bind_set_si; replace (at_sb b (at_si SI_DATA st)) with (at_si SI_DATA st) in E by (rewrite <- B; destruct st; reflexivity).
    rewrite E; reflexivity.
  - apply (speaks_like st b l); try assumption; try reflexivity.
    + split; [apply Rd | exact Bx].
    + apply Sk.
    + exists txs'; split; [reflexivity | exact F2'].
  - unfold since; cbn; apply zdrop_all; lia.
Qed.

Lemma take_ask st b l q : speaks st b l -> proper b q ->
  match asks b q with
  | Some (m, b') => exists r st', take sizeof_spkt sizeof_qbuf fresh ses_ab_timer ses_dn_timer ses_rf_timer (Ask q) st = Val (r, st') /\
    shows (Sent m) r /\ speaks st' b' l /\ since st st' = [(false, wire m)] /\ msg_ok m
  | None => exists r st', take sizeof_spkt sizeof_qbuf fresh ses_ab_timer ses_dn_timer ses_rf_timer (Ask q) st = Val (r, st') /\
    shows Refused r /\ speaks st' b l /\ since st st' = []
  end.
Proof.
  intros Sk P; pose proof (sp_block _ _ _ Sk) as B; pose proof (sp_reading _ _ _ Sk) as Rd.
  pose proof (perform_does sizeof_spkt sizeof_qbuf fresh Mem Fresh ses_ab_timer ses_dn_timer ses_rf_timer q st) as D; rewrite B in D.
  specialize (D (sp_quiet _ _ _ Sk) (proj1 Rd) (sp_granting _ _ _ Sk) P); unfold does in D; rewrite B in D; cbv zeta in D.
  pose proof (asks_like b q) as Lk; destruct (asks b q) as [(m, b')|].
  - destruct D as (D & M); eexists; eexists; split; [cbn [take]; rewrite D; reflexivity|]; split; [reflexivity|]; split; [|split; [apply zdrop_exact | exact M]].
    apply (speaks_like st b l); auto.
    + apply (Lk m b' eq_refl).
    + apply add_sent_granting, Sk.
    + apply Sk.
    + exists []; reflexivity.
  - destruct D as (reason & D); eexists; eexists; split; [cbn [take]; rewrite D; reflexivity|].
    split; [split; [reflexivity | exists reason; reflexivity]|]; split; [|unfold since; cbn; apply zdrop_all; lia].
    apply (speaks_like st b l); try apply Sk; auto; [apply like_refl | exists []; reflexivity].
Qed.
(** ** Both sides *)

Record linked (p : session * session) (w : world) : Prop := {
  lk_left : speaks (fst p) (w_left w) (to_left w);
  lk_right : speaks (snd p) (w_right w) (to_right w);
  lk_terms : sb_requirements (w_right w) = sb_requirements (w_left w)
}.

(** The transport service delivers what was sent, in some buffers. *)
Definition faithful (cut : bool -> list Z -> tsdu) : Prop := forall o, bytes o -> carries (cut false o) false o.

Lemma linked_flip p w : linked p w -> linked (snd p, fst p) (flip w).
Proof. intros []; split; cbn [fst snd flip w_left w_right to_left to_right]; congruence || assumption. Qed.

Lemma left_ok cut a p w : linked p w -> faithful cut -> intended a (w_left w) ->
  exists r me, take sizeof_spkt sizeof_qbuf fresh ses_ab_timer ses_dn_timer ses_rf_timer a (fst p) = Val (r, me) /\
    shows (fst (left_step a w)) r /\ linked (me, deliver cut (since (fst p) me) (snd p)) (snd (left_step a w)).
Proof.
  intros [L R T] C P; destruct a as [q|]; cbn [left_step intended] in *.
  - pose proof (take_ask _ _ _ q L P) as Tk; pose proof (asks_like (w_left w) q) as Lk; pose proof (asks_fits (w_left w) q) as Fi; destruct (asks (w_left w) q) as [(m, b')|].
    + destruct Tk as (r & st' & E & Sh & S' & Si & M); exists r, st'; split; [exact E|]; split; [exact Sh|]; rewrite Si; specialize (Lk m b' eq_refl).
      split; cbn [fst snd w_left w_right to_left to_right]; [exact S' | | rewrite (like_requirements _ _ Lk); exact T].
      apply speaks_deliver; auto; apply (fits_requirements (w_left w)), (Fi m b'); congruence.
    + destruct Tk as (r & st' & E & Sh & S' & Si); exists r, st'; split; [exact E|]; split; [exact Sh|]; rewrite Si, deliver_nothing; split; assumption.
  - pose proof (take_listen _ _ _ L) as Tk; pose proof (listen_like (to_left w) (w_left w)) as Lk; destruct (listen (w_left w) (to_left w)) as ((h, b'), l'); cbn [fst snd] in Lk.
    destruct Tk as (r & st' & E & Sh & S' & Si); exists r, st'; split; [exact E|]; split; [exact Sh|]; rewrite Si, deliver_nothing.
    split; cbn [fst snd w_left w_right to_left to_right]; [exact S' | exact R | rewrite (like_requirements _ _ Lk); exact T].
Qed.

Lemma step_ok cut side a p w : linked p w -> faithful cut -> intended a (if side : bool then w_right w else w_left w) ->
  exists r p', pair_step sizeof_spkt sizeof_qbuf fresh ses_ab_timer ses_dn_timer ses_rf_timer cut side a p = Val (r, p') /\
    shows (fst (step side a w)) r /\ linked p' (snd (step side a w)).
Proof.
  intros L C P; unfold pair_step, step; destruct side.
  - destruct (left_ok cut a _ _ (linked_flip _ _ L) C P) as (r & me & E & Sh & L'); cbn [fst snd] in E, L'; rewrite E.
    destruct (left_step a (flip w)) as (o, w'); eexists; eexists; split; [reflexivity|]; split; [exact Sh | exact (linked_flip _ _ L')].
  - destruct (left_ok cut a p w L C P) as (r & me & E & Sh & L'); destruct p as (me0, you); cbn [fst snd] in *; rewrite E.
    eexists; eexists; split; [reflexivity|]; split; [exact Sh | exact L'].
Qed.

Lemma run_ok cut l : (forall n, faithful (cut n)) -> forall p w, linked p w -> all_intended l w ->
  exists rs p', pair_run sizeof_spkt sizeof_qbuf fresh ses_ab_timer ses_dn_timer ses_rf_timer cut l p = Val (rs, p') /\
    Forall2 shows (fst (run l w)) rs /\ linked p' (snd (run l w)).
Proof.
  intros C; induction l as [|(side, a) l IH]; intros p w L P; cbn [pair_run run all_intended] in *.
  - exists [], p; split; [reflexivity|]; split; [constructor | exact L].
  - destruct P as (P & Pl); destruct (step_ok (cut (length l)) side a p w L (C _) P) as (r & p1 & -> & Sh & L1); cbn [cbind].
    destruct (step side a w) as (o, w1); cbn [fst snd] in *; destruct (IH p1 w1 L1 Pl) as (rs & p2 & -> & Shs & L2); cbn [cbind].
    destruct (run l w1) as (os, w2); cbn [fst snd] in *; exists (r :: rs), p2; split; [reflexivity|]; split; [constructor; assumption | exact L2].
Qed.
End Speaking.

(** ** Tokens and serial numbers

    What becomes of the next serial number of a block and of the tokens it
    owns when it hears what there is to hear; [None] where a token would be
    owned twice, where a serial number is not the next one, or where a
    synchronization point is told to the owner of the minor token. *)
Fixpoint replay (l : list msg) (v own : Z) : option (Z * Z) :=
  match l with
  | [] => Some (v, own)
  | Give w :: l => if meets w own then None else replay l v (Z.lor own w)
  | Minor _ n _ _ :: l => if (n =? v) && negb (meets own ST_MIN_TOKEN) then replay l (v + 1) own else None
  | _ :: l => replay l v own
  end.

Lemma replay_app l m : forall v own, replay (l ++ m) v own = match replay l v own with Some (v, own) => replay m v own | None => None end.
Proof.
  induction l as [|[] l IH]; intros v own; cbn [replay app]; auto.
  - destruct (meets _ _); auto.
  - destruct (_ && _); auto.
Qed.

(** Words that do not meet. *)
Lemma meets_none a b : meets a b = false <-> forall n, 0 <= n -> Z.testbit a n = true -> Z.testbit b n = true -> False.
Proof.
  unfold meets; rewrite negb_false_iff, Z.eqb_eq; split.
  - intros E n N A B; apply (f_equal (fun z => Z.testbit z n)) in E; rewrite Z.land_spec, A, B, Z.bits_0 in E; discriminate.
  - intros E; apply Z.bits_inj'; intros n N; rewrite Z.land_spec, Z.bits_0; specialize (E n N); destruct (Z.testbit a n), (Z.testbit b n); auto; destruct (E eq_refl eq_refl).
Qed.

Lemma among_meets u v w : among u v -> meets w v = false -> meets w u = false.
Proof. rewrite !meets_none; intros A M n N W U; apply (M n N W), A; assumption. Qed.

Lemma replay_grows l : forall v own e f, replay l v own = Some (e, f) -> among own f.
Proof.
  induction l as [|[] l IH]; intros v own e f E; cbn [replay] in E; eauto.
  - injection E as _ <-; apply among_refl.
  - destruct (meets _ _); [discriminate|]; apply (among_trans _ (Z.lor own tokens)); [apply among_lor_l, among_refl | eauto].
  - destruct (_ && _); [eauto | discriminate].
Qed.

Lemma meets_lor a b c : meets (Z.lor a b) c = meets a c || meets b c.
Proof. unfold meets; rewrite Z.land_lor_distr_l; destruct (Z.eqb_spec (Z.land a c) 0) as [->|Na]; [reflexivity|]; cbn [negb orb]; apply negb_true_iff, Z.eqb_neq; intros E; apply Z.lor_eq_0_iff in E; tauto. Qed.

(** The owner of the minor token is not told of synchronization points. *)
Lemma replay_holding l : forall v own e f, meets own ST_MIN_TOKEN = true -> replay l v own = Some (e, f) -> e = v /\ forall v', replay l v' own = Some (v', f).
Proof.
  induction l as [|[] l IH]; intros v own e f M E; cbn [replay] in E |- *; eauto.
  - injection E as -> <-; auto.
  - destruct (meets tokens own) eqn:T; [discriminate|]; apply (IH _ _ e f); [rewrite meets_lor, M; reflexivity | exact E].
  - rewrite M, andb_false_r in E; discriminate.
Qed.

(** Tokens that are given away stay away. *)
Lemma replay_without l w : forall v own e f, among w own -> replay l v own = Some (e, f) -> replay l v (Z.ldiff own w) = Some (e, Z.ldiff f w).
Proof.
  induction l as [|[] l IH]; intros v own e f A E; cbn [replay] in E |- *; eauto.
  - injection E as -> <-; reflexivity.
  - destruct (meets tokens own) eqn:T; [discriminate|].
    assert (Wd : meets tokens (Z.ldiff own w) = false).
    { apply (among_meets _ own); [|exact T]; intros n N; rewrite Z.ldiff_spec; destruct (Z.testbit own n); [reflexivity | discriminate]. }
    rewrite Wd; replace (Z.lor (Z.ldiff own w) tokens) with (Z.ldiff (Z.lor own tokens) w).
    + apply IH; [apply among_lor_l, A | exact E].
    + pose proof (proj1 (meets_none _ _) T) as T'; apply Z.bits_inj'; intros n N; rewrite Z.ldiff_spec, !Z.lor_spec, Z.ldiff_spec.
      specialize (T' n N); specialize (A n N); destruct (Z.testbit own n), (Z.testbit tokens n), (Z.testbit w n); try reflexivity; exfalso; auto; discriminate (A eq_refl).
  - destruct (Z.eqb_spec ssn v); [|discriminate]; cbn [andb] in *; destruct (meets own ST_MIN_TOKEN) eqn:M; [discriminate|]; cbn [negb] in E.
    assert (Wd : meets (Z.ldiff own w) ST_MIN_TOKEN = false).
    { rewrite meets_none in M |- *; intros n N; rewrite Z.ldiff_spec; intros L; apply andb_true_iff in L as (L & _); exact (M n N L). }
    rewrite Wd; cbn [negb]; auto.
Qed.

Lemma hears_replay m l b r : replay (m :: l) (sb_V_M b) (sb_owned b) = Some r -> let b' := snd (hears m b) in replay l (sb_V_M b') (sb_owned b') = Some r.
Proof.
  destruct m; cbn [replay hears].
  - destruct (meets _ _); [discriminate | auto].
  - auto.
  - destruct (_ && _); [|discriminate]; unfold confirm_received; destruct (has b SB_Vsc); auto.
  - destruct (_ || _); auto.
  - auto.
Qed.

(** What is heard of a synchronization point: the next serial number, by the
    side that does not own the minor token. *)
Definition in_turn (b : ssapblk) (h : option heard) (b' : ssapblk) : Prop :=
  match h with
  | Some (Told (SI_SYNC type _ n _ _)) => type = SN_MINORIND -> n = sb_V_M b /\ sb_V_M b' = sb_V_M b + 1 /\ meets (sb_owned b) ST_MIN_TOKEN = false
  | Some (Told (SI_TOKEN type w owned _)) => type = ST_GIVE -> meets w (sb_owned b) = false /\ owned = sb_owned b' /\ owned = Z.lor (sb_owned b) w
  | _ => True
  end.

Lemma hears_in_turn m l b r : replay (m :: l) (sb_V_M b) (sb_owned b) = Some r -> in_turn b (fst (hears m b)) (snd (hears m b)).
Proof.
  destruct m; cbn [replay hears].
  - destruct (meets tokens (sb_owned b)) eqn:M; [discriminate|]; intros _ _; auto.
  - intros _ E; discriminate E.
  - destruct (Z.eqb_spec ssn (sb_V_M b)) as [->|]; [|discriminate]; destruct (meets _ _) eqn:M; [discriminate|]; intros _ _.
    split; [reflexivity|]; split; [|exact M]; unfold confirm_received; destruct (has b SB_Vsc); reflexivity.
  - destruct (_ || _); intros _; [exact I | intros E; discriminate E].
  - intros _; exact I.
Qed.

Lemma hears_skips m b : fst (hears m b) = None -> snd (hears m b) = b.
Proof. destruct m; cbn [hears]; try discriminate; destruct (_ || _); [reflexivity | discriminate]. Qed.

Lemma listen_replay l : forall b r, replay l (sb_V_M b) (sb_owned b) = Some r -> let '(h, b', l') := listen b l in
  replay l' (sb_V_M b') (sb_owned b') = Some r /\ in_turn b h b'.
Proof.
  induction l as [|m l IH]; intros b r E; cbn [listen]; [split; [exact E | exact I]|].
  pose proof (hears_replay m l b r E) as R; pose proof (hears_in_turn m l b r E) as T; pose proof (hears_skips m b) as K.
  destruct (hears m b) as ([h|], b'); cbn [fst snd] in *; [auto|]; rewrite (K eq_refl) in *; apply IH, R.
Qed.

(** What is asked for, in the block of the user. *)
Lemma asks_effect b q m b' : asks b q = Some (m, b') ->
  match m with
  | Give w => sb_V_M b' = sb_V_M b /\ sb_owned b' = u8_bic (sb_owned b) w /\ among w (sb_owned b)
  | Minor _ n _ _ => n = sb_V_M b /\ sb_V_M b' = sb_V_M b + 1 /\ sb_owned b' = sb_owned b /\ meets (sb_owned b) ST_MIN_TOKEN = true
  | _ => sb_V_M b' = sb_V_M b /\ sb_owned b' = sb_owned b
  end.
Proof.
  destruct q; cbn [asks]; try discriminate.
  - destruct (give_settings b tokens) as [|w] eqn:G; [discriminate|]; destruct (w =? 0); [discriminate|]; intros E; injection E as <- <-.
    split; [reflexivity|]; split; [reflexivity | apply (give_settings_ok _ _ _ G)].
  - destruct (please_settings b tokens) as [|w] eqn:G; [discriminate|]; destruct (w =? 0); [discriminate|]; intros E; injection E as <- <-; auto.
  - destruct (owns b ST_MIN_TOKEN) eqn:N; rewrite ?andb_false_r; [|discriminate]; destruct (_ && _); [|discriminate]; intros E; injection E as <- <-.
    unfold confirm_all; destruct (has b SB_Vsc); repeat split; exact N.
  - destruct (_ && _ && _); [|discriminate]; intros E; injection E as <- <-; auto.
  - destruct data as [d|]; [|discriminate]; destruct (lacks _ _ _); [discriminate|]; intros E; injection E as <- <-; auto.
Qed.

(** ** Sides in balance *)

Record balanced (w : world) : Prop := {
  bl_terms : sb_requirements (w_right w) = sb_requirements (w_left w);
  bl_replay : exists e fl fr,
    replay (to_left w) (sb_V_M (w_left w)) (sb_owned (w_left w)) = Some (e, fl) /\
    replay (to_right w) (sb_V_M (w_right w)) (sb_owned (w_right w)) = Some (e, fr) /\
    meets fl fr = false /\ Z.lor fl fr = tokens_of (w_left w)
}.

Lemma meets_comm a b : meets a b = meets b a.
Proof. unfold meets; rewrite Z.land_comm; reflexivity. Qed.

Lemma balanced_flip w : balanced w -> balanced (flip w).
Proof.
  intros [T (e & fl & fr & L & R & M & O)]; split; cbn [flip w_left w_right to_left to_right]; [auto|].
  exists e, fr, fl; rewrite meets_comm, Z.lor_comm, (tokens_requirements _ _ T); auto.
Qed.

Lemma tokens_small b n : Z.testbit (tokens_of b) n = true -> 0 <= n -> n < 8.
Proof.
  intros T N; destruct (Z.lt_ge_cases n 8) as [|G]; [assumption|]; revert T; unfold tokens_of; each_round.
  assert (S : forall bit, 0 <= bit < 256 -> Z.testbit bit n = false).
  { intros bit B; destruct (Z.eq_dec bit 0) as [->|]; [apply Z.bits_0|]; apply Z.bits_above_log2; [lia|]; apply Z.log2_lt_pow2; [lia|].
    apply Z.lt_le_trans with (2 ^ 8); [apply B | apply Z.pow_le_mono_r; lia]. }
  rewrite !lor_if, !Z.lor_spec, Z.bits_0; intros E.
  repeat match type of E with context [Z.testbit (if ?c then ?x else 0) n] =>
    rewrite (S (if c then x else 0)) in E by (destruct c; split; discriminate || reflexivity) end; discriminate.
Qed.

Lemma drop_ldiff b own w : among own (tokens_of b) -> u8_bic own w = Z.ldiff own w.
Proof.
  intros A; unfold u8_bic, u8; change 256 with (2 ^ 8); apply Z.bits_inj'; intros n N; rewrite Z.ldiff_spec; destruct (Z.lt_ge_cases n 8) as [L|L].
  - rewrite Z.mod_pow2_bits_low, Z.land_spec, Z.lnot_spec by lia; reflexivity.
  - destruct (Z.testbit own n) eqn:T; [pose proof (tokens_small b n (A n N T) N); lia|]; rewrite Z.mod_pow2_bits_high by lia; reflexivity.
Qed.

Lemma balanced_asks w q m b : balanced w -> asks (w_left w) q = Some (m, b) -> balanced (World b (w_right w) (to_left w) (to_right w ++ [m])).
Proof.
  intros [T (e & fl & fr & L & R & M & O)] E; pose proof (asks_effect _ _ _ _ E) as F; pose proof (like_requirements _ _ (asks_like _ _ _ _ E)) as Rq.
  split; cbn [w_left w_right to_left to_right]; [congruence|]; rewrite replay_app, R, (tokens_requirements _ _ Rq).
  pose proof (replay_grows _ _ _ _ _ L) as G.
  destruct m; cbn [replay]; try (destruct F as (-> & ->); exists e, fl, fr; auto).
  - destruct F as (-> & -> & W); assert (Wl : among tokens fl) by (eapply among_trans; eassumption).
    assert (Wr : meets tokens fr = false) by (rewrite meets_comm; apply (among_meets _ fl); [exact Wl | rewrite meets_comm; exact M]).
    rewrite Wr, (drop_ldiff (w_left w)) by (rewrite <- O; apply among_lor_l, G); exists e, (Z.ldiff fl tokens), (Z.lor fr tokens).
    split; [apply replay_without; assumption|]; split; [reflexivity|]; split.
    + rewrite meets_none in *; intros n N; rewrite Z.ldiff_spec, Z.lor_spec; specialize (M n N).
      destruct (Z.testbit fl n), (Z.testbit fr n), (Z.testbit tokens n); cbn; auto; discriminate.
    + rewrite <- O; apply Z.bits_inj'; intros n N; rewrite !Z.lor_spec, Z.ldiff_spec; specialize (Wl n N).
      destruct (Z.testbit fl n), (Z.testbit fr n), (Z.testbit tokens n); cbn; auto; discriminate (Wl eq_refl).
  - destruct F as (-> & -> & -> & W); destruct (replay_holding _ _ _ _ _ W L) as (-> & K).
    assert (Ml : meets fr ST_MIN_TOKEN = false).
    { rewrite meets_none in M |- *; intros n N A B; apply (M n N); [|exact A].
      apply (G n N); unfold meets in W; change ST_MIN_TOKEN with (2 ^ 2) in *; rewrite Z.pow2_bits_eqb in B by lia; apply Z.eqb_eq in B as <-.
      rewrite <- meets_bit by lia; exact W. }
    rewrite Z.eqb_refl, Ml; cbn [negb andb]; exists (sb_V_M (w_left w) + 1), fl, fr; auto.
Qed.

Lemma balanced_left a w : balanced w -> balanced (snd (left_step a w)).
Proof.
  intros B; destruct a as [q|]; cbn [left_step].
  - pose proof (balanced_asks w q) as A; destruct (asks (w_left w) q) as [(m, b)|]; [apply (A m b B eq_refl) | exact B].
  - destruct B as [T (e & fl & fr & L & R & M & O)]; pose proof (listen_replay _ _ _ L) as P; pose proof (listen_like (to_left w) (w_left w)) as Lk.
    destruct (listen (w_left w) (to_left w)) as ((h, b), l); cbn [fst snd] in *; destruct P as (P & _); apply like_requirements in Lk.
    split; cbn [w_left w_right to_left to_right]; [congruence|]; exists e, fl, fr; rewrite (tokens_requirements _ _ Lk); auto.
Qed.

Lemma balanced_step side a w : balanced w -> balanced (snd (step side a w)).
Proof.
  intros B; unfold step; destruct side; [|apply balanced_left, B].
  pose proof (balanced_left a _ (balanced_flip _ B)) as F; destruct (left_step a (flip w)) as (o, w'); exact (balanced_flip _ F).
Qed.

Lemma balanced_run l : forall w, balanced w -> balanced (snd (run l w)).
Proof.
  induction l as [|(side, a) l IH]; intros w B; cbn [run]; [exact B|]; pose proof (balanced_step side a w B) as S.
  destruct (step side a w) as (o, w1); cbn [snd] in S; specialize (IH w1 S); destruct (run l w1) as (os, w2); exact IH.
Qed.

(** ** SSDUs *)

Definition ssdus (l : list msg) : list (list Z) := flat_map (fun m => match m with Ssdu d => [d] | _ => [] end) l.

(** The SSDUs that one side gave, and those that one side was given. *)
Definition gave (side s : bool) (a : action) (r : reply) : list (list Z) :=
  match a with Ask (R_Send (Some d) cc _ _) => if eqb s side && (r_result r =? OK) then [ztake cc d] else [] | _ => [] end.

Definition took (side s : bool) (a : action) (r : reply) : list (list Z) :=
  match a with Listen => if eqb s side && (r_result r =? OK) then [r_ssdu r] else [] | _ => [] end.

Fixpoint all_of (f : bool -> action -> reply -> list (list Z)) (l : list (bool * action)) (rs : list reply) : list (list Z) :=
  match l, rs with
  | (s, a) :: l, r :: rs => f s a r ++ all_of f l rs
  | _, _ => []
  end.

Lemma ssdus_app l k : ssdus (l ++ k) = ssdus l ++ ssdus k.
Proof. apply flat_map_app. Qed.

Lemma asks_ssdu b q m b' r s : asks b q = Some (m, b') -> r_result r = OK -> ssdus [m] = gave s s (Ask q) r.
Proof.
  intros E R; assert (Eb : eqb s s = true) by apply eqb_reflx; destruct q; cbn [asks gave] in *; try discriminate.
  - destruct (give_settings b tokens) as [|w]; [discriminate|]; destruct (w =? 0); [discriminate|]; injection E as <- <-; reflexivity.
  - destruct (please_settings b tokens) as [|w]; [discriminate|]; destruct (w =? 0); [discriminate|]; injection E as <- <-; reflexivity.
  - destruct (_ && _ && _); [|discriminate]; injection E as <- <-; reflexivity.
  - destruct (_ && _ && _); [|discriminate]; injection E as <- <-; reflexivity.
  - destruct data as [d|]; [|discriminate]; destruct (lacks _ _ _); [discriminate|]; injection E as <- <-; rewrite Eb, R; reflexivity.
Qed.

Lemma gave_other side s a r : eqb s side = false \/ r_result r = NOTOK -> gave side s a r = [].
Proof. intros D; destruct a as [[]|]; try reflexivity; cbn [gave]; destruct data; [|reflexivity]; destruct D as [-> | ->]; rewrite ?andb_false_r; reflexivity. Qed.

Lemma hears_ssdu m b : ssdus [m] = match fst (hears m b) with Some (Octets d) => [d] | _ => [] end.
Proof. destruct m; cbn [hears]; try reflexivity; destruct (_ || _); reflexivity. Qed.

Lemma listen_ssdu l : forall b, let '(h, _, l') := listen b l in ssdus l = match h with Some (Octets d) => [d] | _ => [] end ++ ssdus l'.
Proof.
  induction l as [|m l IH]; intros b; cbn [listen]; [reflexivity|]; pose proof (hears_ssdu m b) as S; change (m :: l) with ([m] ++ l); rewrite ssdus_app, S.
  destruct (hears m b) as ([h|], b'); cbn [fst]; [reflexivity | apply IH].
Qed.

Lemma took_heard s o r : shows o r -> took s s Listen r = match o with Heard (Octets d) => [d] | Sent _ => [r_ssdu r] | _ => [] end.
Proof.
  assert (Eb : eqb s s = true) by apply eqb_reflx; destruct o as [m | | [si | d] |]; cbn [shows took]; rewrite Eb; intros S.
  - rewrite S; reflexivity.
  - destruct S as (-> & _); reflexivity.
  - destruct S as (-> & _); reflexivity.
  - destruct S as (-> & ->); reflexivity.
  - destruct S as (-> & _); reflexivity.
Qed.

(** What is given goes to the peer, and what is taken comes from it. *)
Lemma left_ssdus a w r s : shows (fst (left_step a w)) r ->
  ssdus (to_right w) ++ gave s s a r = ssdus (to_right (snd (left_step a w))) /\ ssdus (to_left w) = took s s a r ++ ssdus (to_left (snd (left_step a w))).
Proof.
  destruct a as [q|]; cbn [left_step].
  - pose proof (asks_ssdu (w_left w) q) as A; destruct (asks (w_left w) q) as [(m, b)|]; cbn [fst snd to_left to_right shows]; intros S; (split; [|reflexivity]).
    + rewrite ssdus_app, (A m b r s eq_refl S); reflexivity.
    + rewrite gave_other by (right; apply S); apply app_nil_r.
  - pose proof (listen_ssdu (to_left w) (w_left w)) as L; destruct (listen (w_left w) (to_left w)) as ((h, b), l); cbn [fst snd to_left to_right]; intros S.
    split; [apply app_nil_r|]; rewrite (took_heard s _ r S), L; destruct h as [[]|]; reflexivity.
Qed.

Lemma run_ssdus l : forall w rs, Forall2 shows (fst (run l w)) rs -> let w' := snd (run l w) in
  ssdus (to_right w) ++ all_of (gave false) l rs = all_of (took true) l rs ++ ssdus (to_right w') /\
  ssdus (to_left w) ++ all_of (gave true) l rs = all_of (took false) l rs ++ ssdus (to_left w').
Proof.
  induction l as [|(side, a) l IH]; intros w rs F; cbn [run] in *.
  - inversion F; cbn [all_of snd]; rewrite !app_nil_r; auto.
  - assert (St : forall r, shows (fst (step side a w)) r -> let w1 := snd (step side a w) in
      ssdus (to_right w) ++ gave false side a r = took true side a r ++ ssdus (to_right w1) /\
      ssdus (to_left w) ++ gave true side a r = took false side a r ++ ssdus (to_left w1)).
    { intros r S; unfold step in *; destruct side.
      - pose proof (left_ssdus a (flip w) r true) as Ls; destruct (left_step a (flip w)) as (o, w1); cbn [fst snd flip to_left to_right] in *; destruct (Ls S) as (G & T).
        rewrite G, T, (gave_other false true) by (left; reflexivity); rewrite app_nil_r; split; [reflexivity|]; destruct a as [[]|]; reflexivity.
      - pose proof (left_ssdus a w r false) as Ls; destruct (left_step a w) as (o, w1); cbn [fst snd] in *; destruct (Ls S) as (G & T).
        rewrite G, T, (gave_other true false) by (left; reflexivity); rewrite app_nil_r; split; [|reflexivity]; destruct a as [[]|]; reflexivity. }
    destruct (step side a w) as (o, w1); specialize (IH w1); destruct (run l w1) as (os, w2); cbn [fst snd] in *; inversion F as [|? r ? rs' S F']; subst.
    destruct (St r S) as (R & L); destruct (IH rs' F') as (Rs & Ls); cbn [all_of]; rewrite !app_assoc, R, L, <- !app_assoc, Rs, Ls; auto.
Qed.

(** * What is shown of two sessions *)

(** Both are there and have nothing in progress, with the same functional
    units and nothing to read. *)
Definition idle (st : session) : Prop := reading st /\ granting (ses_tp st) /\ quiet (ses_sb st) /\ tp_reads (ses_tp st) = [].
Definition met (a b : session) : Prop := idle a /\ idle b /\ sb_requirements (ses_sb b) = sb_requirements (ses_sb a).

(** Each token is owned by one side, and the next serial number is the same. *)
Definition settled (a b : session) : Prop :=
  meets (sb_owned (ses_sb a)) (sb_owned (ses_sb b)) = false /\ Z.lor (sb_owned (ses_sb a)) (sb_owned (ses_sb b)) = tokens_of (ses_sb a) /\
  sb_V_M (ses_sb a) = sb_V_M (ses_sb b).

Definition world_of (a b : session) : world := World (ses_sb a) (ses_sb b) [] [].

Lemma idle_speaks st : idle st -> speaks st (ses_sb st) [].
Proof. intros (R & G & Q & T); split; auto; exists []; auto. Qed.

Lemma met_linked a b : met a b -> linked (a, b) (world_of a b).
Proof. intros (A & B & T); split; cbn; auto using idle_speaks. Qed.

Lemma settled_balanced a b : met a b -> settled a b -> balanced (world_of a b).
Proof.
  intros (_ & _ & T) (M & O & V); split; cbn [world_of w_left w_right to_left to_right]; [exact T|].
  exists (sb_V_M (ses_sb a)), (sb_owned (ses_sb a)), (sb_owned (ses_sb b)); cbn [replay]; rewrite V; auto.
Qed.

Lemma waiting_nothing st l : waiting st l -> tp_reads (ses_tp st) = [] -> l = [].
Proof. intros (txs & E & F) N; rewrite N in E; destruct txs; [inversion F; reflexivity | discriminate]. Qed.

(** C1. Two sessions implement the exchange of messages. Whatever their users do,
    in any order and on either side -- give tokens, ask for them, mark
    synchronization points and confirm them, send SSDUs, read -- and in
    whatever buffers the TSDUs are received, every call returns, with the
    result, the indication or the SSDU that the exchange says, and the blocks
    of both sessions and what waits to be read are those of the exchange:
    a request sends its message and changes its own block, or is refused and
    changes nothing, and a read hears the first message of the queue. *)
Theorem peers_refine : forall (A : Allocator) sizeof_spkt sizeof_qbuf fresh ab dn rf cut l a b,
  memory_ok -> (forall n, 0 <= n -> zlen (fresh n) = n) -> (forall n, faithful (cut n)) -> met a b -> all_intended l (world_of a b) ->
  let w := snd (run l (world_of a b)) in
  exists rs a' b', pair_run sizeof_spkt sizeof_qbuf fresh ab dn rf cut l (a, b) = Val (rs, (a', b')) /\
    Forall2 shows (fst (run l (world_of a b))) rs /\
    ses_sb a' = w_left w /\ ses_sb b' = w_right w /\ waiting a' (to_left w) /\ waiting b' (to_right w) /\ ses_gone a' = false /\ ses_gone b' = false.
Proof.
  intros A z zq fresh ab dn rf cut l a b M F C Me P; destruct (run_ok z zq fresh M F ab dn rf cut l C (a, b) _ (met_linked a b Me) P) as (rs & (a', b') & E & Sh & [L R _]).
  exists rs, a', b'; repeat split; try assumption; try apply L; try apply R.
Qed.

(** C2. No token is ever owned by both sides, and once nothing is left to
    read each token is owned by one of them again and both have the same next
    serial number. A read after any run tells of a synchronization point only
    with the next serial number of the reader, which then goes on, and only
    where the reader does not own the minor token; and it tells only of
    tokens the reader does not own. *)
Theorem peers_agree : forall (A : Allocator) sizeof_spkt sizeof_qbuf fresh ab dn rf cut l a b,
  memory_ok -> (forall n, 0 <= n -> zlen (fresh n) = n) -> (forall n, faithful (cut n)) -> met a b -> settled a b -> all_intended l (world_of a b) ->
  exists rs a' b', pair_run sizeof_spkt sizeof_qbuf fresh ab dn rf cut l (a, b) = Val (rs, (a', b')) /\
    meets (sb_owned (ses_sb a')) (sb_owned (ses_sb b')) = false /\
    (tp_reads (ses_tp a') = [] -> tp_reads (ses_tp b') = [] -> settled a' b') /\
    forall st, st = a' \/ st = b' -> exists r st', take sizeof_spkt sizeof_qbuf fresh ab dn rf Listen st = Val (r, st') /\
      (r_result r = DONE -> in_turn (ses_sb st) (Some (Told (r_si r))) (ses_sb st')).
Proof.
  intros A z zq fresh ab dn rf cut l a b M F C Me Se P; destruct (run_ok z zq fresh M F ab dn rf cut l C (a, b) _ (met_linked a b Me) P) as (rs & (a', b') & E & Sh & [L R _]).
  pose proof (balanced_run l _ (settled_balanced a b Me Se)) as [Rq (e & fl & fr & Rl & Rr & Nm & O)]; cbn [fst snd] in *; set (w := snd (run l (world_of a b))) in *.
  exists rs, a', b'; split; [exact E|]; split; [|split].
  - rewrite (sp_block _ _ _ L), (sp_block _ _ _ R); apply (among_meets _ fr); [exact (replay_grows _ _ _ _ _ Rr)|].
    rewrite meets_comm; apply (among_meets _ fl); [exact (replay_grows _ _ _ _ _ Rl) | rewrite meets_comm; exact Nm].
  - intros Na Nb; unfold settled; rewrite (sp_block _ _ _ L), (sp_block _ _ _ R).
    rewrite (waiting_nothing _ _ (sp_waiting _ _ _ L) Na) in Rl; rewrite (waiting_nothing _ _ (sp_waiting _ _ _ R) Nb) in Rr; cbn [replay] in Rl, Rr.
    injection Rl as -> ->; injection Rr as -> ->; auto.
  - assert (T : forall st bl k rp, speaks st bl k -> replay k (sb_V_M bl) (sb_owned bl) = Some rp -> exists r st', take z zq fresh ab dn rf Listen st = Val (r, st') /\
      (r_result r = DONE -> in_turn (ses_sb st) (Some (Told (r_si r))) (ses_sb st'))).
    { intros st bl k rp S Rp; pose proof (take_listen z zq fresh M F ab dn rf st bl k S) as Tk; pose proof (listen_replay k bl rp Rp) as Lr.
      destruct (listen bl k) as ((h, b1), k'); destruct Tk as (r & st' & Et & Sr & S' & _); exists r, st'; split; [exact Et|]; intros D.
      rewrite (sp_block _ _ _ S), (sp_block _ _ _ S'); destruct h as [[si | d]|]; cbn [outcome_of shows] in Sr; destruct Sr as (Sr & Si); [rewrite Si; apply Lr | rewrite Sr in D; discriminate D..]. }
    intros st [-> | ->]; [exact (T _ _ _ _ L Rl) | exact (T _ _ _ _ R Rr)].
Qed.

(** C3. SSDUs are delivered as they were given: after any run, the SSDUs that
    the user of one side gave with a request that succeeded are those that
    the reads of the other returned, in the same order, followed by those
    that wait to be read; so each arrives once and nothing else does. *)
Theorem peers_deliver : forall (A : Allocator) sizeof_spkt sizeof_qbuf fresh ab dn rf cut l a b,
  memory_ok -> (forall n, 0 <= n -> zlen (fresh n) = n) -> (forall n, faithful (cut n)) -> met a b -> all_intended l (world_of a b) ->
  exists rs a' b' to_a to_b, pair_run sizeof_spkt sizeof_qbuf fresh ab dn rf cut l (a, b) = Val (rs, (a', b')) /\
    waiting a' to_a /\ all_of (gave true) l rs = all_of (took false) l rs ++ ssdus to_a /\
    waiting b' to_b /\ all_of (gave false) l rs = all_of (took true) l rs ++ ssdus to_b.
Proof.
  intros A z zq fresh ab dn rf cut l a b M F C Me P; destruct (run_ok z zq fresh M F ab dn rf cut l C (a, b) _ (met_linked a b Me) P) as (rs & (a', b') & E & Sh & [L R _]).
  destruct (run_ssdus l (world_of a b) rs Sh) as (Rs & Ls); cbn [world_of to_left to_right ssdus flat_map app] in Rs, Ls.
  exists rs, a', b'; eexists; eexists; split; [exact E|]; split; [apply L|]; split; [exact Ls|]; split; [apply R | exact Rs].
Qed.

(** ** An example: a synchronization point, an SSDU and the tokens, and back *)

Definition ex_cut (n : nat) (expedited : bool) (o : list Z) : tsdu := ex_tx o.
Definition ex_req : Z := ors [SR_HALFDUPLEX; SR_MINORSYNC].
Definition ex_left : session := ex_session (ex_blk (ors [SB_CONN; SB_INIT]) 5 ex_req 0) [].
Definition ex_right : session := ex_session (ex_blk SB_CONN 0 ex_req 0) [].

Definition ex_actions : list (bool * action) :=
  [(false, Ask (R_MinSync SYNC_CONFIRM (Some [7]) 1)); (false, Ask (R_Send (Some [1; 2; 3]) 3 true true));
   (true, Ask (R_PToken ST_MIN_TOKEN (Some [4; 4]) 2)); (false, Ask (R_GToken (ors [ST_DAT_TOKEN; ST_MIN_TOKEN])));
   (true, Listen); (true, Ask (R_MinSyncResponse 0 None 0)); (true, Listen); (false, Ask (R_Send (Some [5]) 1 true true));
   (true, Listen); (true, Ask (R_MinSync SYNC_NOCONFIRM None 0)); (true, Ask (R_Send (Some [8; 9]) 1 true true));
   (false, Listen); (false, Listen); (false, Listen); (false, Listen); (false, Listen)].

Lemma ex_faithful n : faithful (ex_cut n).
Proof. intros o B; apply ex_carries, B. Qed.

Lemma ex_met : met ex_left ex_right.
Proof. repeat split; try constructor; discriminate. Qed.

Lemma ex_user_ok d cc : 0 < cc <= DATA_MAX -> cc <= zlen d -> bytes d -> user_ok (Some d) cc.
Proof. intros C L B; split; [lia|]; intros _; split; [unfold DATA_MAX, SEGMENT_MAX in *; lia | auto]. Qed.

Lemma ex_intended : all_intended ex_actions (world_of ex_left ex_right).
Proof.
  unfold ex_actions; cbn [all_intended intended proper].
  repeat match goal with
  | |- _ /\ _ => split
  | |- True => exact I
  | |- user_ok (Some _) _ => apply ex_user_ok
  | |- user_ok None _ => exact I
  | |- bytes _ => repeat constructor; discriminate
  | |- In _ _ => cbn; tauto
  | |- _ => vm_compute; congruence
  end.
Qed.

Definition ex_results : list Z := [OK; OK; OK; OK; DONE; OK; OK; NOTOK; DONE; OK; OK; DONE; DONE; DONE; OK; NOTOK].

Lemma ex_run : match pair_run (H := plenty) 800 64 zeros 30 30 30 ex_cut ex_actions (ex_left, ex_right) with
  | Val (rs, (a, b)) => map r_result rs = ex_results /\ tp_reads (ses_tp a) = [] /\ tp_reads (ses_tp b) = []
  | UB => False
  end.
Proof. vm_compute; repeat split. Qed.

Lemma ex_memory : memory_ok (H := plenty).
Proof. intros n; reflexivity. Qed.

(** The world after the run is computed. *)
Lemma peers_refine_witness : exists rs a' b', pair_run (H := plenty) 800 64 zeros 30 30 30 ex_cut ex_actions (ex_left, ex_right) = Val (rs, (a', b')) /\
  map r_result rs = ex_results /\ sb_V_M (ses_sb a') = 2 /\ sb_owned (ses_sb b') = 5 /\ tp_reads (ses_tp a') = [].
Proof.
  destruct (peers_refine plenty 800 64 zeros 30 30 30 ex_cut ex_actions ex_left ex_right ex_memory zeros_fresh ex_faithful ex_met ex_intended)
    as (rs & a' & b' & E & _ & Ba & Bb & _); pose proof ex_run as R; rewrite E in R; destruct R as (R & Ra & _).
  exists rs, a', b'; split; [exact E|]; split; [exact R|]; rewrite Ba, Bb; split; [vm_compute; reflexivity|]; split; [vm_compute; reflexivity | exact Ra].
Defined.

Lemma peers_agree_witness : exists rs a' b', pair_run (H := plenty) 800 64 zeros 30 30 30 ex_cut ex_actions (ex_left, ex_right) = Val (rs, (a', b')) /\ settled a' b'.
Proof.
  destruct (peers_agree plenty 800 64 zeros 30 30 30 ex_cut ex_actions ex_left ex_right ex_memory zeros_fresh ex_faithful ex_met) as (rs & a' & b' & E & _ & S & _);
    [repeat split | exact ex_intended |].
  pose proof ex_run as R; rewrite E in R; destruct R as (_ & Ra & Rb); exists rs, a', b'; split; [exact E | exact (S Ra Rb)].
Defined.

Lemma peers_deliver_witness : exists rs a' b', pair_run (H := plenty) 800 64 zeros 30 30 30 ex_cut ex_actions (ex_left, ex_right) = Val (rs, (a', b')) /\
  all_of (took true) ex_actions rs = [[1; 2; 3]] /\ all_of (took false) ex_actions rs = [[8]].
Proof.
  destruct (peers_deliver plenty 800 64 zeros 30 30 30 ex_cut ex_actions ex_left ex_right ex_memory zeros_fresh ex_faithful ex_met ex_intended)
    as (rs & a' & b' & ta & tb & E & Wa & Ga & Wb & Gb); pose proof ex_run as R; rewrite E in R; destruct R as (R & Ra & Rb).
  rewrite (waiting_nothing _ _ Wa Ra) in Ga; rewrite (waiting_nothing _ _ Wb Rb) in Gb; exists rs, a', b'; split; [exact E|].
  assert (G : forall rs, map r_result rs = ex_results -> all_of (gave false) ex_actions rs = [[1; 2; 3]] /\ all_of (gave true) ex_actions rs = [[8]]).
  { clear; intros rs E; unfold ex_results in E; repeat (destruct rs as [|[? ? ?] rs]; [discriminate|]; injection E as -> E); destruct rs; [|discriminate].
    split; reflexivity. }
  destruct (G rs R) as (G1 & G2); cbn [ssdus flat_map] in Ga, Gb; rewrite app_nil_r in Ga, Gb; rewrite <- Ga, <- Gb; auto.
Defined.
