(* ===== verification/Avl.v ===== *)
(** * dsap: AVL trees (turbo_avl.c)

    The directory keeps entries and indices in balanced search trees whose
    nodes hold any data, compared by a function of the caller. *)

From Stdlib Require Import Sorted.
From S2P Require Import Prelude Conv.
Open Scope Z_scope.
Open Scope c_scope.

(** ** The tree *)

(** The balance factors: left high, equal height, right high. *)
Inductive bf : Type := LH | EH | RH.

(** [Avlnode]: the null pointer is [Null]. *)
Inductive avlnode (D : Type) : Type :=
| Null
| Node (avl_left : avlnode D) (avl_bf : bf) (avl_data : D) (avl_right : avlnode D).
Arguments Null {D}.
Arguments Node {D} _ _ _ _.

Definition AVL_NOMORE : Z := -6.
Definition AVL_PREORDER : Z := 1.
Definition AVL_INORDER : Z := 2.
Definition AVL_POSTORDER : Z := 3.

Section Avl.
Context `{Allocator} {D : Type}.
(** The null pointer as data, and the size of a node. *)
Variables (null : D) (is_null : D -> bool) (sizeof_Avlnode : Z).
(** Whether [char] is signed: [avl_bf] is a [char] and [LH] is -1. *)
Variable char_signed : bool.
(** The comparison of two data, and what is done to the data of a node and
    returned when data that is equal is inserted. *)
Variables (fcmp : D -> D -> Z) (fdup : D -> D -> Z * D).

(** The case a switch on [avl_bf] takes; an unsigned [char] is never [LH]. *)
Definition sw (b : bf) : option bf := match b with LH => if char_signed then Some LH else None | _ => Some b end.

(** ** Rotations

    The process exits where the subtree to be rotated up is not there. *)
Definition ROTATERIGHT (x : avlnode D) : cres (avlnode D) :=
  match x with
  | Node (Node ll lb ld lr) b d r => Val (Node ll lb ld (Node lr b d r))
  | _ => UB
  end.

Definition ROTATELEFT (x : avlnode D) : cres (avlnode D) :=
  match x with
  | Node l b d (Node rl rb rd rr) => Val (Node (Node l b d rl) rb rd rr)
  | _ => UB
  end.

(** A double rotation to the left: [r] is the right subtree, whose left
    subtree comes up. *)
Definition double_left (l : avlnode D) (b : bf) (d : D) (r : avlnode D) : cres (avlnode D) :=
  match r with
  | Node (Node ll lb ld lr) rb rd rr =>
      let '(b', rb') := match sw lb with Some LH => (EH, RH) | Some EH => (EH, EH) | Some RH => (LH, EH) | None => (b, rb) end in
      r <- ROTATERIGHT (Node (Node ll EH ld lr) rb' rd rr);;
      ROTATELEFT (Node l b' d r)
  | _ => UB
  end.

Definition double_right (l : avlnode D) (b : bf) (d : D) (r : avlnode D) : cres (avlnode D) :=
  match l with
  | Node ll lb ld (Node rl rb rd rr) =>
      let '(b', lb') := match sw rb with Some LH => (RH, EH) | Some EH => (EH, EH) | Some RH => (EH, LH) | None => (b, lb) end in
      l <- ROTATELEFT (Node ll lb' ld (Node rl EH rd rr));;
      ROTATERIGHT (Node l b' d r)
  | _ => UB
  end.

(** ** Insertion

    [taller] is [None] where it was not assigned; it is indeterminate then. *)
Definition flag_of (taller : option bool) : cres bool := match taller with Some t => Val t | None => UB end.

(** The right subtree has become taller. *)
Definition grown_right (l : avlnode D) (b : bf) (d : D) (r : avlnode D) : cres (option bool * avlnode D) :=
  match sw b with
  | Some LH => Val (Some false, Node l EH d r)
  | Some EH => Val (Some true, Node l RH d r)
  | Some RH =>
      match r with
      | Null => UB
      | Node rl rb rd rr =>
          match sw rb with
          | Some LH => t <- double_left l b d r;; Val (Some false, t)
          | Some RH => t <- ROTATELEFT (Node l EH d (Node rl EH rd rr));; Val (Some false, t)
          | _ => Val (None, Node l b d r)
          end
      end
  | None => Val (None, Node l b d r)
  end.

Definition grown_left (l : avlnode D) (b : bf) (d : D) (r : avlnode D) : cres (option bool * avlnode D) :=
  match sw b with
  | Some LH =>
      match l with
      | Null => UB
      | Node ll lb ld lr =>
          match sw lb with
          | Some LH => t <- ROTATERIGHT (Node (Node ll EH ld lr) EH d r);; Val (Some false, t)
          | Some RH => t <- double_right l b d r;; Val (Some false, t)
          | _ => Val (None, Node l b d r)
          end
      end
  | Some EH => Val (Some true, Node l LH d r)
  | Some RH => Val (Some false, Node l EH d r)
  | None => Val (None, Node l b d r)
  end.

Fixpoint ravl_insert (t : avlnode D) (data : D) : cres (Z * option bool * avlnode D) :=
  match t with
  | Null => if malloc_ok sizeof_Avlnode then Val (OK, Some true, Node Null EH data Null) else UB
  | Node l b d r =>
      let cmp := fcmp data d in
      if cmp =? 0 then let (rc, d) := fdup d data in Val (rc, Some false, Node l b d r)
      else if cmp >? 0 then
        ' (rc, sub, r) <- ravl_insert r data;;
        tallersub <- flag_of sub;;
        if (tallersub : bool) then ' (taller, t) <- grown_right l b d r;; Val (rc, taller, t) else Val (rc, Some false, Node l b d r)
      else
        ' (rc, sub, l) <- ravl_insert l data;;
        tallersub <- flag_of sub;;
        if (tallersub : bool) then ' (taller, t) <- grown_left l b d r;; Val (rc, taller, t) else Val (rc, Some false, Node l b d r)
  end.

Definition avl_insert (t : avlnode D) (data : D) : cres (Z * avlnode D) :=
  ' (rc, _, t) <- ravl_insert t data;; Val (rc, t).

(** ** Deletion *)

(** The right subtree has been shortened: whether the tree is, too. *)
Definition right_balance (l : avlnode D) (b : bf) (d : D) (r : avlnode D) : cres (bool * avlnode D) :=
  match sw b with
  | Some RH => Val (true, Node l EH d r)
  | Some EH => Val (false, Node l LH d r)
  | Some LH =>
      match l with
      | Null => UB
      | Node ll lb ld lr =>
          match sw lb with
          | Some RH => t <- double_right l b d r;; Val (true, t)
          | Some EH => t <- ROTATERIGHT (Node (Node ll RH ld lr) LH d r);; Val (false, t)
          | Some LH => t <- ROTATERIGHT (Node (Node ll EH ld lr) EH d r);; Val (true, t)
          | None => UB
          end
      end
  | None => UB
  end.

Definition left_balance (l : avlnode D) (b : bf) (d : D) (r : avlnode D) : cres (bool * avlnode D) :=
  match sw b with
  | Some LH => Val (true, Node l EH d r)
  | Some EH => Val (false, Node l RH d r)
  | Some RH =>
      match r with
      | Null => UB
      | Node rl rb rd rr =>
          match sw rb with
          | Some LH => t <- double_left l b d r;; Val (true, t)
          | Some EH => t <- ROTATELEFT (Node l RH d (Node rl LH rd rr));; Val (false, t)
          | Some RH => t <- ROTATELEFT (Node l EH d (Node rl EH rd rr));; Val (true, t)
          | None => UB
          end
      end
  | None => UB
  end.

(** The leftmost node: its data, and the tree with other data there. *)
Fixpoint minnode (t : avlnode D) (savedata : D) : option (D * avlnode D) :=
  match t with
  | Null => None
  | Node Null b d r => Some (d, Node Null b savedata r)
  | Node l b d r => match minnode l savedata with Some (m, l) => Some (m, Node l b d r) | None => None end
  end.

(** The data that was found, or null, and whether the tree is shorter: a
    flag that is not assigned keeps the 0 of the caller. The depth of the
    tree suffices for [fuel]. *)
Fixpoint ravl_delete (fuel : nat) (t : avlnode D) (data : D) : cres (D * bool * avlnode D) :=
  match fuel, t with
  | O, _ => UB
  | _, Null => Val (null, false, Null)
  | S fuel, Node l b d r =>
      let cmp := fcmp data d in
      if cmp =? 0 then
        match l, r with
        | Null, _ => Val (d, true, r)
        | _, Null => Val (d, true, l)
        | _, _ =>
            match minnode r d with
            | None => UB
            | Some (m, r) =>
                ' (saved, shorter, r) <- ravl_delete fuel r data;;
                if (shorter : bool) then ' (shorter, t) <- right_balance l b m r;; Val (saved, shorter, t) else Val (saved, false, Node l b m r)
            end
        end
      else if cmp <? 0 then
        ' (saved, shorter, l) <- ravl_delete fuel l data;;
        if is_null saved then Val (null, false, Node l b d r)
        else if (shorter : bool) then ' (shorter, t) <- left_balance l b d r;; Val (saved, shorter, t) else Val (saved, false, Node l b d r)
      else
        ' (saved, shorter, r) <- ravl_delete fuel r data;;
        if is_null saved then Val (null, false, Node l b d r)
        else if (shorter : bool) then ' (shorter, t) <- right_balance l b d r;; Val (saved, shorter, t) else Val (saved, false, Node l b d r)
  end.

Fixpoint height (t : avlnode D) : nat := match t with Null => O | Node l _ _ r => S (Nat.max (height l) (height r)) end.

Definition avl_delete (t : avlnode D) (data : D) : cres (D * avlnode D) :=
  ' (saved, _, t) <- ravl_delete (S (height t)) t data;; Val (saved, t).

(** ** Search *)

Fixpoint avl_find (t : avlnode D) (data : D) : D :=
  match t with
  | Null => null
  | Node l b d r => let cmp := fcmp data d in if cmp =? 0 then d else if cmp <? 0 then avl_find l data else avl_find r data
  end.
End Avl.

(** ** Traversal

    The functions of the caller change its state. *)
Section Traversal.
Context {D S : Type}.

Section Apply.
Variables (fn : D -> S -> Z * S) (stopflag : Z).

Fixpoint avl_inapply (t : avlnode D) (s : S) : Z * S :=
  match t with
  | Null => (AVL_NOMORE, s)
  | Node l b d r =>
      let (c, s) := match l with Null => (stopflag + 1, s) | _ => avl_inapply l s end in
      if c =? stopflag then (stopflag, s)
      else
        let (c, s) := fn d s in
        if c =? stopflag then (stopflag, s) else match r with Null => (AVL_NOMORE, s) | _ => avl_inapply r s end
  end.

Fixpoint avl_postapply (t : avlnode D) (s : S) : Z * S :=
  match t with
  | Null => (AVL_NOMORE, s)
  | Node l b d r =>
      let (c, s) := match l with Null => (stopflag + 1, s) | _ => avl_postapply l s end in
      if c =? stopflag then (stopflag, s)
      else
        let (c, s) := match r with Null => (stopflag + 1, s) | _ => avl_postapply r s end in
        if c =? stopflag then (stopflag, s) else fn d s
  end.

Fixpoint avl_preapply (t : avlnode D) (s : S) : Z * S :=
  match t with
  | Null => (AVL_NOMORE, s)
  | Node l b d r =>
      let (c, s) := fn d s in
      if c =? stopflag then (stopflag, s)
      else
        let (c, s) := match l with Null => (stopflag + 1, s) | _ => avl_preapply l s end in
        if c =? stopflag then (stopflag, s) else match r with Null => (AVL_NOMORE, s) | _ => avl_preapply r s end
  end.

Definition avl_apply (t : avlnode D) (s : S) (type : Z) : Z * S :=
  if type =? AVL_INORDER then avl_inapply t s
  else if type =? AVL_PREORDER then avl_preapply t s
  else if type =? AVL_POSTORDER then avl_postapply t s
  else (NOTOK, s).
End Apply.

(** [fcmp] is the comparison with the key. *)
Fixpoint avl_prefixapply (fcmp : D -> Z) (fmatch : D -> S -> Z * S) (stopflag : Z) (t : avlnode D) (s : S) : Z * S :=
  match t with
  | Null => (AVL_NOMORE, s)
  | Node l b d r =>
      let cmp := fcmp d in
      if cmp =? 0 then
        let (c, s) := fmatch d s in
        if c =? stopflag then (stopflag, s)
        else
          let (c, s) := match l with Null => (stopflag + 1, s) | _ => avl_prefixapply fcmp fmatch stopflag l s end in
          if c =? stopflag then (stopflag, s) else match r with Null => (AVL_NOMORE, s) | _ => avl_prefixapply fcmp fmatch stopflag r s end
      else if cmp <? 0 then match l with Null => (AVL_NOMORE, s) | _ => avl_prefixapply fcmp fmatch stopflag l s end
      else match r with Null => (AVL_NOMORE, s) | _ => avl_prefixapply fcmp fmatch stopflag r s end
  end.

(** The number of nodes, as an [int], and what [dfree] does to each data. *)
Fixpoint avl_free (dfree : option (D -> S -> S)) (t : avlnode D) (s : S) : Z * S :=
  match t with
  | Null => (0, s)
  | Node l b d r =>
      let (nleft, s) := match l with Null => (0, s) | _ => avl_free dfree l s end in
      let (nright, s) := match r with Null => (0, s) | _ => avl_free dfree r s end in
      let s := match dfree with Some f => f d s | None => s end in
      (i32 (nleft + nright + 1), s)
  end.
End Traversal.

(** ** Iteration

    [avl_getfirst] stores the data in a list which [avl_getnext] goes
    through. The list is the data stored so far; [slots] is its size. *)
Section Iteration.
Context `{Allocator} {D : Type}.
Variables (null : D) (sizeof_caddr : Z).

Record iteration : Type := Iter { avl_list : option (list D); slots : Z; avl_maxlist : Z; avl_nextlist : Z }.

Definition AVL_GRABSIZE : Z := 100.

Definition avl_buildlist (data : D) (it : cres iteration) : Z * cres iteration :=
  (0,
   it <- it;;
   it <- (match avl_list it with
          | None => if malloc_ok (AVL_GRABSIZE * sizeof_caddr) then Val (Iter (Some []) AVL_GRABSIZE 0 (avl_nextlist it)) else UB
          | Some l =>
              if avl_maxlist it =? slots it then
                let n := i32 (slots it + AVL_GRABSIZE) in
                if malloc_ok (u32 n * sizeof_caddr) then Val (Iter (Some l) n (avl_maxlist it) (avl_nextlist it)) else UB
              else Val it
          end);;
   match avl_list it with
   | Some l => if (avl_maxlist it =? zlen l) && (zlen l <? slots it) then Val (Iter (Some (l ++ [data])) (slots it) (avl_maxlist it + 1) (avl_nextlist it)) else UB
   | None => UB
   end).

Definition avl_getfirst (t : avlnode D) (it : iteration) : cres (D * iteration) :=
  let it := Iter None (slots it) 0 0 in
  match t with
  | Null => Val (null, it)
  | _ =>
      it <- snd (avl_apply avl_buildlist (-1) t (Val it) AVL_INORDER);;
      match avl_list it with
      | Some (d :: l) => Val (d, Iter (Some (d :: l)) (slots it) (avl_maxlist it) 1)
      | _ => UB
      end
  end.

Definition avl_getnext (it : iteration) : cres (D * iteration) :=
  match avl_list it with
  | None => Val (null, it)
  | Some l =>
      if avl_nextlist it =? avl_maxlist it then Val (null, Iter None (slots it) (avl_maxlist it) (avl_nextlist it))
      else match nth_error l (Z.to_nat (avl_nextlist it)) with
           | Some d => Val (d, Iter (Some l) (slots it) (avl_maxlist it) (avl_nextlist it + 1))
           | None => UB
           end
  end.
End Iteration.

Definition avl_dup_error {D} (data1 data2 : D) : Z * D := (NOTOK, data1).

(** * What the operations do *)

(** ** The data of a tree *)

Section Data.
Context {D : Type}.

Fixpoint elements (t : avlnode D) : list D := match t with Null => [] | Node l _ d r => elements l ++ d :: elements r end.
Fixpoint preorder (t : avlnode D) : list D := match t with Null => [] | Node l _ d r => d :: preorder l ++ preorder r end.
Fixpoint postorder (t : avlnode D) : list D := match t with Null => [] | Node l _ d r => postorder l ++ postorder r ++ [d] end.

(** The balance factors are those of the heights. *)
Fixpoint avl (t : avlnode D) : Prop :=
  match t with
  | Null => True
  | Node l b _ r => avl l /\ avl r /\
      match b with LH => height l = S (height r) | EH => height l = height r | RH => height r = S (height l) end
  end.

(** *** Rebalancing *)

Definition shape (t : avlnode D) (h : nat) (l : list D) : Prop := avl t /\ height t = h /\ elements t = l.

Definition leans (t : avlnode D) : Prop := match t with Node _ EH _ _ => False | _ => True end.

Ltac shapes := unfold shape in *; cbn [avl height elements] in *;
  repeat match goal with H : _ /\ _ |- _ => destruct H end; repeat split; try assumption; try lia; rewrite <- ?app_assoc; cbn [app]; rewrite <- ?app_assoc; try reflexivity.

Lemma double_left_ok l d rl rd rr h : avl l -> avl (Node rl LH rd rr) -> height l = h -> height (Node rl LH rd rr) = S (S h) -> forall b,
  exists t, double_left true l b d (Node rl LH rd rr) = Val t /\ shape t (S (S h)) (elements l ++ d :: elements (Node rl LH rd rr)).
Proof.
  intros L R Hl Hr b; destruct rl as [|ll lb ld lr]; [cbn in R, Hr; lia|]; destruct lb; cbn; eexists; (split; [reflexivity|]); shapes.
Qed.

Lemma double_right_ok r d ll ld lr h : avl r -> avl (Node ll RH ld lr) -> height r = h -> height (Node ll RH ld lr) = S (S h) -> forall b,
  exists t, double_right true (Node ll RH ld lr) b d r = Val t /\ shape t (S (S h)) (elements (Node ll RH ld lr) ++ d :: elements r).
Proof.
  intros R L Hr Hl b; destruct lr as [|rl rb rd rr]; [cbn in L, Hl; lia|]; destruct rb; cbn; eexists; (split; [reflexivity|]); shapes.
Qed.

(** A subtree that became one taller than [h]. *)
Definition with_height (b : bf) (hl hr : nat) : Prop := match b with LH => hl = S hr | EH => hl = hr | RH => hr = S hl end.

Lemma grown_right_ok l b d r h : avl l -> avl r -> leans r \/ h = O -> height r = S h -> with_height b (height l) h ->
  exists taller t, grown_right true l b d r = Val (Some taller, t) /\
    shape t (if taller : bool then S (S (Nat.max (height l) h)) else S (Nat.max (height l) h)) (elements l ++ d :: elements r) /\ (taller = true -> leans t).
Proof.
  intros L R Le Hr Hb; destruct b; cbn [grown_right sw with_height] in *.
  - eexists; eexists; split; [reflexivity|]; split; [shapes | discriminate].
  - eexists; eexists; split; [reflexivity|]; split; [shapes | intros _; exact I].
  - destruct r as [|rl rb rd rr]; [cbn in Hr; lia|]; destruct rb; cbn [sw].
    + destruct (double_left_ok l d rl rd rr (height l) L R eq_refl) with (b := RH) as (t & E & Sh); [lia|]; rewrite E; cbn [cbind].
      eexists; eexists; split; [reflexivity|]; split; [|discriminate]; replace (Nat.max (height l) h) with (S (height l)) by lia; exact Sh.
    + destruct Le as [[] | Le]; lia.
    + eexists; eexists; split; [reflexivity|]; split; [shapes | discriminate].
Qed.

Lemma grown_left_ok l b d r h : avl l -> avl r -> leans l \/ h = O -> height l = S h -> with_height b h (height r) ->
  exists taller t, grown_left true l b d r = Val (Some taller, t) /\
    shape t (if taller : bool then S (S (Nat.max h (height r))) else S (Nat.max h (height r))) (elements l ++ d :: elements r) /\ (taller = true -> leans t).
Proof.
  intros L R Le Hl Hb; destruct b; cbn [grown_left sw with_height] in *.
  - destruct l as [|ll lb ld lr]; [cbn in Hl; lia|]; destruct lb; cbn [sw].
    + eexists; eexists; split; [reflexivity|]; split; [shapes | discriminate].
    + destruct Le as [[] | Le]; lia.
    + destruct (double_right_ok r d ll ld lr (height r) R L eq_refl) with (b := LH) as (t & E & Sh); [lia|]; rewrite E; cbn [cbind].
      eexists; eexists; split; [reflexivity|]; split; [|discriminate]; replace (Nat.max h (height r)) with (S (height r)) by lia; exact Sh.
  - eexists; eexists; split; [reflexivity|]; split; [shapes | intros _; exact I].
  - eexists; eexists; split; [reflexivity|]; split; [shapes | discriminate].
Qed.

(** A subtree that became one shorter: it was [S h] high. *)
Lemma right_balance_ok l b d r h : avl l -> avl r -> height r = h -> with_height b (height l) (S h) ->
  exists shorter t, right_balance true l b d r = Val (shorter, t) /\
    shape t (if shorter : bool then Nat.max (height l) (S h) else S (Nat.max (height l) (S h))) (elements l ++ d :: elements r).
Proof.
  intros L R Hr Hb; destruct b; cbn [right_balance sw with_height] in *.
  - destruct l as [|ll lb ld lr]; [cbn in Hb; lia|]; destruct lb; cbn [sw].
    + eexists; eexists; split; [reflexivity|]; shapes.
    + eexists; eexists; split; [reflexivity|]; shapes.
    + destruct (double_right_ok r d ll ld lr h R L Hr) with (b := LH) as (t & E & Sh); [lia|]; rewrite E; cbn [cbind].
      eexists; eexists; split; [reflexivity|]; rewrite Hb; replace (Nat.max _ _) with (S (S h)) by lia; exact Sh.
  - eexists; eexists; split; [reflexivity|]; shapes.
  - eexists; eexists; split; [reflexivity|]; shapes.
Qed.

Lemma left_balance_ok l b d r h : avl l -> avl r -> height l = h -> with_height b (S h) (height r) ->
  exists shorter t, left_balance true l b d r = Val (shorter, t) /\
    shape t (if shorter : bool then Nat.max (S h) (height r) else S (Nat.max (S h) (height r))) (elements l ++ d :: elements r).
Proof.
  intros L R Hl Hb; destruct b; cbn [left_balance sw with_height] in *.
  - eexists; eexists; split; [reflexivity|]; shapes.
  - eexists; eexists; split; [reflexivity|]; shapes.
  - destruct r as [|rl rb rd rr]; [cbn in Hb; lia|]; destruct rb; cbn [sw].
    + destruct (double_left_ok l d rl rd rr h L R Hl) with (b := RH) as (t & E & Sh); [lia|]; rewrite E; cbn [cbind].
      eexists; eexists; split; [reflexivity|]; rewrite Hb; replace (Nat.max _ _) with (S (S h)) by lia; exact Sh.
    + eexists; eexists; split; [reflexivity|]; shapes.
    + eexists; eexists; split; [reflexivity|]; shapes.
Qed.
End Data.

(** ** The order of the data *)

Class Ordering {D} (fcmp : D -> D -> Z) : Prop := {
  cmp_sym x y : Z.sgn (fcmp y x) = - Z.sgn (fcmp x y);
  cmp_trans x y z : fcmp x y < 0 -> fcmp y z < 0 -> fcmp x z < 0;
  cmp_eq x y z : fcmp x y = 0 -> Z.sgn (fcmp x z) = Z.sgn (fcmp y z)
}.

Section Order.
Context {D : Type} (fcmp : D -> D -> Z) `{Ord : Ordering D fcmp} (fdup : D -> D -> Z * D) (null : D).

Definition before (x y : D) : Prop := fcmp x y < 0.
Definition sorted : list D -> Prop := StronglySorted before.

(** What the operations do to a sorted list. *)
Fixpoint list_insert (data : D) (l : list D) : Z * list D :=
  match l with
  | [] => (OK, [data])
  | x :: l =>
      if fcmp data x =? 0 then let (rc, x) := fdup x data in (rc, x :: l)
      else if fcmp data x <? 0 then (OK, data :: x :: l)
      else let (rc, l) := list_insert data l in (rc, x :: l)
  end.

Fixpoint list_delete (data : D) (l : list D) : D * list D :=
  match l with
  | [] => (null, [])
  | x :: l => if fcmp data x =? 0 then (x, l) else let (saved, l) := list_delete data l in (saved, x :: l)
  end.

Definition list_find (data : D) (l : list D) : D := match find (fun x => fcmp data x =? 0) l with Some x => x | None => null end.

Lemma cmp_refl x : fcmp x x = 0.
Proof. pose proof (cmp_sym x x); lia. Qed.

Lemma before_trans x y z : before x y -> before y z -> before x z.
Proof. apply cmp_trans. Qed.

(** Where data is found from the data of a node. *)
Lemma cmp_below data d x : before x d -> 0 <= fcmp data d -> 0 < fcmp data x.
Proof.
  intros B C; unfold before in B; pose proof (cmp_sym data x); pose proof (cmp_sym data d); destruct (Z.eq_dec (fcmp data d) 0) as [E|].
  - pose proof (cmp_eq data d x E); pose proof (cmp_sym x d); lia.
  - assert (fcmp x data < 0) by (apply (cmp_trans x d data B); lia); lia.
Qed.

Lemma cmp_above data d x : before d x -> fcmp data d <= 0 -> fcmp data x < 0.
Proof.
  intros B C; unfold before in B; destruct (Z.eq_dec (fcmp data d) 0) as [E|].
  - pose proof (cmp_eq data d x E); lia.
  - apply (cmp_trans data d x); lia.
Qed.

Lemma sorted_node l d r : sorted (l ++ d :: r) <-> sorted l /\ sorted r /\ Forall (fun x => before x d) l /\ Forall (before d) r.
Proof.
  unfold sorted; induction l as [|x l IH]; cbn [app].
  - split; [intros S; apply StronglySorted_inv in S as (S & F); repeat split; try constructor; assumption | intros (_ & S & _ & F); constructor; assumption].
  - split.
    + intros S; apply StronglySorted_inv in S as (S & F); apply IH in S as (A & B & C & E); apply Forall_app in F as (F & G).
      repeat split; try assumption; constructor; auto; apply (Forall_inv G).
    + intros (S & R & F & G); apply StronglySorted_inv in S as (S & E); inversion F; subst; constructor; [apply IH; auto|].
      apply Forall_app; split; [assumption|]; constructor; [assumption|]; revert G; apply Forall_impl; intros y; apply (before_trans x d y); assumption.
Qed.

(** Insertion goes past smaller data, and into the list before larger data. *)
Lemma list_insert_past data l k : Forall (fun x => 0 < fcmp data x) l -> list_insert data (l ++ k) = (fst (list_insert data k), l ++ snd (list_insert data k)).
Proof.
  induction 1 as [|x l C _ IH]; cbn [app list_insert]; [apply surjective_pairing|].
  rewrite (proj2 (Z.eqb_neq _ _)), (proj2 (Z.ltb_ge _ _)), IH by lia; reflexivity.
Qed.

Lemma list_insert_below data l d k : fcmp data d < 0 -> list_insert data (l ++ d :: k) = (fst (list_insert data l), snd (list_insert data l) ++ d :: k).
Proof.
  intros C; induction l as [|x l IH]; cbn [app list_insert].
  - rewrite (proj2 (Z.eqb_neq _ _)), (proj2 (Z.ltb_lt _ _)) by lia; reflexivity.
  - destruct (fcmp data x =? 0); [destruct (fdup x data); reflexivity|]; destruct (fcmp data x <? 0); [reflexivity|].
    rewrite IH; destruct (list_insert data l); reflexivity.
Qed.

Lemma list_delete_past data l k : Forall (fun x => fcmp data x <> 0) l -> list_delete data (l ++ k) = (fst (list_delete data k), l ++ snd (list_delete data k)).
Proof.
  induction 1 as [|x l C _ IH]; cbn [app list_delete]; [apply surjective_pairing|]; rewrite (proj2 (Z.eqb_neq _ _)), IH by exact C; reflexivity.
Qed.

Lemma list_delete_below data l k : Forall (fun x => fcmp data x <> 0) k -> list_delete data (l ++ k) = (fst (list_delete data l), snd (list_delete data l) ++ k).
Proof.
  intros F; induction l as [|x l IH]; cbn [app list_delete fst snd].
  - replace (list_delete data k) with (list_delete data (k ++ [])) by (rewrite app_nil_r; reflexivity); rewrite list_delete_past by exact F; cbn; rewrite app_nil_r; reflexivity.
  - destruct (fcmp data x =? 0); [reflexivity|]; rewrite IH; destruct (list_delete data l); reflexivity.
Qed.

Lemma list_find_app data l k : Forall (fun x => fcmp data x <> 0) l -> list_find data (l ++ k) = list_find data k.
Proof. unfold list_find; induction 1 as [|x l C _ IH]; cbn [app find]; [reflexivity|]; rewrite (proj2 (Z.eqb_neq _ _) C); exact IH. Qed.

Lemma list_find_below data l k : Forall (fun x => fcmp data x <> 0) k -> list_find data (l ++ k) = list_find data l.
Proof.
  intros F; unfold list_find; induction l as [|x l IH]; cbn [app find].
  - induction F as [|x k C _ IH]; cbn [find]; [reflexivity|]; rewrite (proj2 (Z.eqb_neq _ _) C); exact IH.
  - destruct (fcmp data x =? 0); [reflexivity | exact IH].
Qed.

(** The data of the subtrees, from what is found at the node. *)
Lemma node_left data l d : Forall (fun x => before x d) l -> 0 <= fcmp data d -> Forall (fun x => 0 < fcmp data x) l.
Proof. intros F C; revert F; apply Forall_impl; intros x B; apply (cmp_below data d x B C). Qed.

Lemma node_right data d r : Forall (before d) r -> fcmp data d <= 0 -> Forall (fun x => fcmp data x < 0) r.
Proof. intros F C; revert F; apply Forall_impl; intros x B; apply (cmp_above data d x B C). Qed.

Lemma Forall_list_insert P data l : Forall P l -> P data -> (forall y, P y -> P (snd (fdup y data))) -> Forall P (snd (list_insert data l)).
Proof.
  intros F Pd Du; induction F as [|y l Py F IH]; cbn [list_insert]; [repeat constructor; exact Pd|]; destruct (fcmp data y =? 0).
  - specialize (Du y Py); destruct (fdup y data); constructor; assumption.
  - destruct (fcmp data y <? 0); [constructor; [exact Pd | constructor; assumption]|]; destruct (list_insert data l); constructor; assumption.
Qed.

Lemma list_insert_sorted data l : (forall x y, fcmp (snd (fdup x y)) x = 0) -> sorted l -> sorted (snd (list_insert data l)).
Proof.
  intros Du S; induction l as [|x l IH]; cbn [list_insert]; [repeat constructor|]; pose proof (StronglySorted_inv S) as (Sl & F).
  destruct (Z.eqb_spec (fcmp data x) 0) as [E|E].
  - specialize (Du x data); destruct (fdup x data) as (rc, x'); cbn [snd] in *; constructor; [exact Sl|]; revert F; apply Forall_impl; intros y B.
    unfold before in *; pose proof (cmp_eq x' x y Du); lia.
  - destruct (Z.ltb_spec (fcmp data x) 0) as [L|L]; cbn [snd].
    + constructor; [exact S|]; constructor; [exact L|]; apply (node_right data x l F); lia.
    + specialize (IH Sl); assert (B : Forall (before x) (snd (list_insert data l))).
      { apply Forall_list_insert; [exact F | unfold before; pose proof (cmp_sym x data); lia|]; unfold before; intros y By.
        pose proof (cmp_sym x y); pose proof (cmp_sym x (snd (fdup y data))); pose proof (cmp_eq _ _ x (Du y data)); lia. }
      destruct (list_insert data l); cbn [snd] in *; constructor; assumption.
Qed.

Lemma list_delete_sorted data l : sorted l -> sorted (snd (list_delete data l)).
Proof.
  intros S; induction l as [|x l IH]; cbn [list_delete]; [constructor|]; apply StronglySorted_inv in S as (S & F).
  destruct (fcmp data x =? 0); [exact S|]; specialize (IH S); assert (B : Forall (before x) (snd (list_delete data l))).
  { clear IH S; induction F as [|y l By F IH]; cbn [list_delete]; [constructor|]; destruct (fcmp data y =? 0); [exact F|].
    destruct (list_delete data l); constructor; assumption. }
  destruct (list_delete data l); constructor; assumption.
Qed.

(** ** Insertion *)

Section Insert.
Context `{Allocator} (sizeof_Avlnode : Z).
Hypothesis Mem : malloc_ok sizeof_Avlnode = true.

Lemma ravl_insert_ok data t : avl t -> sorted (elements t) -> exists taller t',
  ravl_insert sizeof_Avlnode true fcmp fdup t data = Val (fst (list_insert data (elements t)), Some taller, t') /\
  shape t' (if taller : bool then S (height t) else height t) (snd (list_insert data (elements t))) /\ (taller = true -> leans t' \/ height t = O).
Proof.
  induction t as [|l IHl b d r IHr]; intros A So; cbn [ravl_insert].
  - rewrite Mem; exists true; eexists; split; [reflexivity|]; split; [repeat split | right; reflexivity].
  - destruct A as (Al & Ar & Ab); cbn [elements] in *; apply sorted_node in So as (Sl & Sr & Fl & Fr).
    destruct (Z.eqb_spec (fcmp data d) 0) as [E|E].
    + rewrite list_insert_past by (apply (node_left data _ d Fl); lia); cbn [list_insert]; rewrite (proj2 (Z.eqb_eq _ 0) E).
      destruct (fdup d data) as (rc, d'); exists false; eexists; split; [reflexivity|]; split; [|discriminate]; split; [repeat split; assumption | split; reflexivity].
    + rewrite Z.gtb_ltb; destruct (Z.ltb_spec 0 (fcmp data d)) as [L|L].
      * rewrite list_insert_past by (apply (node_left data _ d Fl); lia); cbn [list_insert]; rewrite (proj2 (Z.eqb_neq _ 0) E), (proj2 (Z.ltb_ge _ 0)) by lia.
        destruct (IHr Ar Sr) as (taller & r' & -> & (Ar' & Hr & Er) & Le); cbn [cbind flag_of]; destruct (list_insert data (elements r)) as (rc, k); cbn [fst snd] in *; subst k.
        destruct taller; cbn [height].
        -- destruct (grown_right_ok l b d r' (height r) Al Ar' (Le eq_refl) Hr Ab) as (taller & t & -> & Sh & Lt); cbn [cbind].
           exists taller, t; split; [reflexivity|]; split; [destruct taller; exact Sh | auto].
        -- exists false; eexists; split; [reflexivity|]; split; [|discriminate]; split; [|split; [cbn [height]; lia | reflexivity]].
           repeat split; try assumption; rewrite Hr; exact Ab.
      * rewrite list_insert_below by lia; destruct (IHl Al Sl) as (taller & l' & -> & (Al' & Hl & El) & Le); cbn [cbind flag_of].
        destruct (list_insert data (elements l)) as (rc, k); cbn [fst snd] in *; subst k; destruct taller; cbn [height].
        -- destruct (grown_left_ok l' b d r (height l) Al' Ar (Le eq_refl) Hl Ab) as (taller & t & -> & Sh & Lt); cbn [cbind].
           exists taller, t; split; [reflexivity|]; split; [destruct taller; exact Sh | auto].
        -- exists false; eexists; split; [reflexivity|]; split; [|discriminate]; split; [|split; [cbn [height]; lia | reflexivity]].
           repeat split; try assumption; rewrite Hl; exact Ab.
Qed.
End Insert.

(** ** Deletion *)

Lemma minnode_ok (t : avlnode D) saved : t <> Null -> exists m t' k, minnode t saved = Some (m, t') /\ elements t = m :: k /\ elements t' = saved :: k /\
  height t' = height t /\ (avl t -> avl t').
Proof.
  induction t as [|l IHl b d r _]; intros N; [congruence|]; cbn [minnode]; destruct l as [|ll lb ld lr].
  - exists d; eexists; exists (elements r); split; [reflexivity|]; split; [reflexivity|]; split; [reflexivity|]; split; [reflexivity | intros A; exact A].
  - destruct IHl as (m & l' & k & E & El & El' & Hl & Al); [discriminate|]; set (l := Node ll lb ld lr) in *; clearbody l; rewrite E.
    exists m, (Node l' b d r), (k ++ d :: elements r); cbn [elements height avl]; rewrite El, El', Hl; repeat split; tauto.
Qed.

Section Delete.
Variable is_null : D -> bool.

Lemma list_delete_null data l : Forall (fun x => is_null x = false) l -> is_null (fst (list_delete data l)) = true -> list_delete data l = (null, l).
Proof.
  intros F; induction F as [|x l N F IH]; cbn [list_delete]; [reflexivity|]; destruct (fcmp data x =? 0); cbn [fst]; [congruence|].
  destruct (list_delete data l) as (saved, k); cbn [fst] in *; intros E; specialize (IH E); congruence.
Qed.

Lemma neq_left data l d : Forall (fun x => before x d) l -> 0 <= fcmp data d -> Forall (fun x => fcmp data x <> 0) l.
Proof. intros F C; generalize (node_left data l d F C); apply Forall_impl; intros; lia. Qed.

Lemma neq_right data d r : Forall (before d) r -> fcmp data d <= 0 -> Forall (fun x => fcmp data x <> 0) r.
Proof. intros F C; generalize (node_right data d r F C); apply Forall_impl; intros; lia. Qed.

(** A subtree of the same height in the place of another. *)
Lemma node_shape l b (d : D) r l' r' k m : avl (Node l b d r) -> shape l' (height l) k -> shape r' (height r) m ->
  shape (Node l' b d r') (height (Node l b d r)) (k ++ d :: m).
Proof.
  intros (_ & _ & Ab) (Al & Hl & El) (Ar & Hr & Er); split; [repeat split; try assumption; rewrite Hl, Hr; exact Ab|]; cbn [height elements]; rewrite Hl, Hr, El, Er; split; reflexivity.
Qed.

Lemma shape_self (t : avlnode D) : avl t -> shape t (height t) (elements t).
Proof. intros A; repeat split; assumption. Qed.

(** What the recursion gives and what is given back. *)
Definition deletes (data : D) (t : avlnode D) (r : cres (D * bool * avlnode D)) : Prop :=
  exists shorter t', r = Val (fst (list_delete data (elements t)), shorter, t') /\
    shape t' (if shorter : bool then pred (height t) else height t) (snd (list_delete data (elements t))) /\ (shorter = true -> height t <> O) /\
    (is_null (fst (list_delete data (elements t))) = true -> shorter = false).

Lemma shortened_left l b (d : D) r l' k : avl (Node l b d r) -> shape l' (pred (height l)) k -> height l <> O -> exists shorter t,
  left_balance true l' b d r = Val (shorter, t) /\ shape t (if shorter : bool then pred (height (Node l b d r)) else height (Node l b d r)) (k ++ d :: elements r).
Proof.
  intros (_ & Ar & Ab) (Al & Hl & El) N; destruct (left_balance_ok l' b d r (pred (height l)) Al Ar Hl) as (sh & t & E & Sh).
  - replace (S (pred (height l))) with (height l) by lia; exact Ab.
  - exists sh, t; split; [exact E|]; rewrite El in Sh; replace (S (pred (height l))) with (height l) in Sh by lia; exact Sh.
Qed.

Lemma shortened_right l b (d : D) r r' k : avl (Node l b d r) -> shape r' (pred (height r)) k -> height r <> O -> exists shorter t,
  right_balance true l b d r' = Val (shorter, t) /\ shape t (if shorter : bool then pred (height (Node l b d r)) else height (Node l b d r)) (elements l ++ d :: k).
Proof.
  intros (Al & _ & Ab) (Ar & Hr & Er) N; destruct (right_balance_ok l b d r' (pred (height r)) Al Ar Hr) as (sh & t & E & Sh).
  - replace (S (pred (height r))) with (height r) by lia; exact Ab.
  - exists sh, t; split; [exact E|]; rewrite Er in Sh; replace (S (pred (height r))) with (height r) in Sh by lia; exact Sh.
Qed.

Lemma delete_both fuel l b (d : D) r data : fcmp data d = 0 -> l <> Null -> r <> Null ->
  ravl_delete null is_null true fcmp (S fuel) (Node l b d r) data =
  match minnode r d with
  | None => UB
  | Some (m, r) =>
      ' (saved, shorter, r) <- ravl_delete null is_null true fcmp fuel r data;;
      if (shorter : bool) then ' (shorter, t) <- right_balance true l b m r;; Val (saved, shorter, t) else Val (saved, false, Node l b m r)
  end.
Proof. intros E L R; cbn [ravl_delete]; rewrite (proj2 (Z.eqb_eq _ 0) E); destruct l, r; congruence || reflexivity. Qed.

Lemma null_or (t : avlnode D) : t = Null \/ t <> Null.
Proof. destruct t; [left; reflexivity | right; discriminate]. Qed.

(** The node is the one: both subtrees are there, or one is not. *)
Lemma delete_here fuel l b d r data : avl (Node l b d r) -> sorted (elements (Node l b d r)) -> fcmp data d = 0 -> is_null d = false ->
  (forall t, avl t -> sorted (elements t) -> height t = height r -> Forall (fun x => is_null x = false) (elements t) -> deletes data t (ravl_delete null is_null true fcmp fuel t data)) ->
  Forall (fun x => is_null x = false) (elements r) ->
  deletes data (Node l b d r) (ravl_delete null is_null true fcmp (S fuel) (Node l b d r) data).
Proof.
  intros A So E Nd IH Nr; cbn [elements] in So; pose proof (proj1 (sorted_node _ _ _) So) as (Sl & Sr & Fl & Fr); pose proof A as (Al & Ar & Ab).
  assert (Ld : list_delete data (elements (Node l b d r)) = (d, elements l ++ elements r)).
  { cbn [elements]; rewrite list_delete_past by (apply (neq_left data _ d Fl); lia); cbn [list_delete]; rewrite (proj2 (Z.eqb_eq _ 0) E); reflexivity. }
  unfold deletes; rewrite Ld; cbn [fst snd]; rewrite Nd; destruct (null_or l) as [->|Nl].
  { cbn [ravl_delete]; rewrite (proj2 (Z.eqb_eq _ 0) E); exists true, r; split; [reflexivity|]; split; [|split; discriminate]; split; [exact Ar | split; reflexivity]. }
  destruct (null_or r) as [->|Nn].
  { cbn [ravl_delete]; rewrite (proj2 (Z.eqb_eq _ 0) E); destruct l as [|ll lb ld lr]; [congruence|]; exists true; eexists; split; [reflexivity|]; split; [|split; discriminate].
    split; [exact Al|]; cbn [elements]; rewrite app_nil_r; split; [cbn [height]; lia | reflexivity]. }
  rewrite delete_both by assumption; destruct (minnode_ok r d Nn) as (m & r' & k & -> & Er & Er' & Hr & Av); specialize (Av Ar).
  rewrite Er in *; pose proof (Forall_inv Fr) as Bd; pose proof (StronglySorted_inv Sr) as (Sk & Fk).
  assert (Fd : Forall (before d) k) by (revert Fk; apply Forall_impl; intros x; apply before_trans; exact Bd).
  destruct (IH r') as (sh & r2 & -> & Sh & Nz & _); auto.
  { rewrite Er'; constructor; assumption. }
  { rewrite Er'; constructor; [exact Nd | apply (Forall_inv_tail Nr)]. }
  rewrite Er' in *; cbn [list_delete] in *; rewrite (proj2 (Z.eqb_eq _ 0) E) in *; cbn [fst snd cbind] in *; rewrite Hr in *.
  assert (Am : avl (Node l b m r)) by (repeat split; assumption); destruct sh.
  - destruct (shortened_right l b m r r2 k Am Sh (Nz eq_refl)) as (sh & t & -> & St); cbn [cbind]; exists sh, t; split; [reflexivity|]; split; [exact St | split; discriminate].
  - exists false; eexists; split; [reflexivity|]; split; [exact (node_shape l b m r l r2 _ k Am (shape_self l Al) Sh) | split; discriminate].
Qed.

Lemma ravl_delete_ok data : forall fuel t, (height t < fuel)%nat -> avl t -> sorted (elements t) -> Forall (fun x => is_null x = false) (elements t) ->
  deletes data t (ravl_delete null is_null true fcmp fuel t data).
Proof.
  induction fuel as [|fuel IH]; intros t Hf A So Nn; [lia|]; destruct t as [|l b d r].
  - exists false, Null; repeat split; discriminate.
  - pose proof So as So'; cbn [elements] in So', Nn; pose proof (proj1 (sorted_node _ _ _) So') as (Sl & Sr & Fl & Fr); pose proof (proj1 (Forall_app _ _ _) Nn) as (Nl & Nr); inversion Nr as [|? ? Nd Nr']; subst.
    pose proof A as (Al & Ar & _); cbn [height] in Hf; destruct (Z.eqb_spec (fcmp data d) 0) as [E|E].
    + apply delete_here; auto; intros t At St Ht Nt; apply IH; auto; lia.
    + cbn [ravl_delete]; unfold deletes; rewrite (proj2 (Z.eqb_neq _ 0) E); cbn [elements]; destruct (Z.ltb_spec (fcmp data d) 0) as [L|L].
      * rewrite list_delete_below by (constructor; [lia | apply (neq_right data d _ Fr); lia]); cbn [fst snd].
        destruct (IH l ltac:(lia) Al Sl Nl) as (sh & l' & -> & Sh & Nz & Nf); cbn [cbind].
        destruct (is_null (fst (list_delete data (elements l)))) eqn:In.
        -- rewrite (Nf eq_refl) in *; rewrite (list_delete_null data _ Nl In) in *; exists false; eexists; split; [reflexivity|]; split; [|split; [discriminate | reflexivity]].
           exact (node_shape l b d r l' r _ _ A Sh (shape_self r Ar)).
        -- destruct sh.
           ++ destruct (shortened_left l b d r l' _ A Sh (Nz eq_refl)) as (sh & t & -> & St); cbn [cbind]; exists sh, t; split; [reflexivity|]; split; [exact St | split; discriminate].
           ++ exists false; eexists; split; [reflexivity|]; split; [exact (node_shape l b d r l' r _ _ A Sh (shape_self r Ar)) | split; discriminate].
      * rewrite list_delete_past by (apply (neq_left data _ d Fl); lia); cbn [list_delete fst snd]; rewrite (proj2 (Z.eqb_neq _ 0) E).
        destruct (IH r ltac:(lia) Ar Sr Nr') as (sh & r' & -> & Sh & Nz & Nf); cbn [cbind].
        destruct (list_delete data (elements r)) as (saved, k) eqn:Ed; cbn [fst snd] in *; destruct (is_null saved) eqn:In.
        -- rewrite (Nf eq_refl) in *; pose proof (list_delete_null data _ Nr') as Dn; rewrite Ed in Dn; specialize (Dn In); injection Dn as -> ->.
           exists false; eexists; split; [reflexivity|]; split; [|split; [discriminate | reflexivity]].
           exact (node_shape l b d r l r' _ _ A (shape_self l Al) Sh).
        -- destruct sh.
           ++ destruct (shortened_right l b d r r' _ A Sh (Nz eq_refl)) as (sh & t & -> & St); cbn [cbind]; exists sh, t; split; [reflexivity|]; split; [exact St | split; discriminate].
           ++ exists false; eexists; split; [reflexivity|]; split; [exact (node_shape l b d r l r' _ _ A (shape_self l Al) Sh) | split; discriminate].
Qed.
End Delete.
End Order.

(** ** Search *)

Section Find.
Context {D : Type} (fcmp : D -> D -> Z) `{Ord : Ordering D fcmp} (null : D).

Lemma avl_find_ok data t : sorted fcmp (elements t) -> avl_find null fcmp t data = list_find fcmp null data (elements t).
Proof.
  induction t as [|l IHl b d r IHr]; intros So; [reflexivity|]; cbn [avl_find elements] in *; apply (sorted_node fcmp) in So as (Sl & Sr & Fl & Fr).
  destruct (Z.eqb_spec (fcmp data d) 0) as [E|E].
  - rewrite (list_find_app fcmp null) by (apply (neq_left fcmp data _ d Fl); lia); unfold list_find; cbn [find]; rewrite (proj2 (Z.eqb_eq _ 0) E); reflexivity.
  - destruct (Z.ltb_spec (fcmp data d) 0) as [L|L].
    + rewrite (list_find_below fcmp null); [auto|]; constructor; [lia | apply (neq_right fcmp data d _ Fr); lia].
    + rewrite (list_find_app fcmp null) by (apply (neq_left fcmp data _ d Fl); lia); unfold list_find at 1; cbn [find]; rewrite (proj2 (Z.eqb_neq _ 0) E); auto.
Qed.

(** The number of comparisons. *)
Fixpoint probes (t : avlnode D) (data : D) : nat :=
  match t with
  | Null => O
  | Node l _ d r => S (if fcmp data d =? 0 then O else if fcmp data d <? 0 then probes l data else probes r data)
  end.

Lemma probes_height data (t : avlnode D) : (probes t data <= height t)%nat.
Proof. induction t as [|l IHl b d r IHr]; cbn [probes height]; [lia|]; destruct (fcmp data d =? 0), (fcmp data d <? 0); lia. Qed.
End Find.

(** The height is at most twice the logarithm of the number of nodes. *)
Lemma square_sum a b x : 0 <= x -> 0 <= a -> 0 <= b -> 2 * x <= a * a -> x <= b * b -> 4 * x <= (a + b) * (a + b).
Proof.
  intros X A B Ha Hb; destruct (Z.le_gt_cases x (2 * (a * b))) as [L|G]; [lia|].
  assert (P : (2 * (a * b)) * (2 * (a * b)) < x * x \/ x = 0) by nia.
  assert (Q : 2 * x * x <= (a * a) * (b * b)) by nia; nia.
Qed.

Lemma height_bound {D} (t : avlnode D) : avl t -> 2 ^ Z.of_nat (height t) <= (zlen (elements t) + 1) * (zlen (elements t) + 1).
Proof.
  induction t as [|l IHl b d r IHr]; intros A; [reflexivity|]; destruct A as (Al & Ar & Ab); specialize (IHl Al); specialize (IHr Ar); cbn [elements height].
  rewrite zlen_app, zlen_cons; pose proof (zlen_nonneg (elements l)) as X; pose proof (zlen_nonneg (elements r)) as Y.
  replace (zlen (elements l) + (1 + zlen (elements r)) + 1) with ((zlen (elements l) + 1) + (zlen (elements r) + 1)) by lia.
  set (x := zlen (elements l) + 1) in *; set (y := zlen (elements r) + 1) in *; rewrite Nat2Z.inj_succ, Z.pow_succ_r by lia; destruct b.
  - rewrite Ab, Nat.max_l by lia; rewrite Ab in IHl; rewrite Nat2Z.inj_succ, Z.pow_succ_r in * by lia; pose proof (Z.pow_nonneg 2 (Z.of_nat (height r)) ltac:(lia)).
    pose proof (square_sum x y (2 ^ Z.of_nat (height r))); lia.
  - rewrite Ab, Nat.max_id in *; pose proof (Z.pow_nonneg 2 (Z.of_nat (height r)) ltac:(lia)); nia.
  - rewrite Ab, Nat.max_r by lia; rewrite Ab in IHr; rewrite Nat2Z.inj_succ, Z.pow_succ_r in * by lia; pose proof (Z.pow_nonneg 2 (Z.of_nat (height l)) ltac:(lia)).
    pose proof (square_sum y x (2 ^ Z.of_nat (height l))); lia.
Qed.

(** ** Traversal *)

Section Scan.
Context {D S : Type} (fn : D -> S -> Z * S) (stopflag : Z).

(** The function goes along a list until it returns the flag. *)
Fixpoint scan (l : list D) (s : S) : Z * S :=
  match l with
  | [] => (AVL_NOMORE, s)
  | d :: l => let (c, s) := fn d s in if c =? stopflag then (stopflag, s) else scan l s
  end.

Hypothesis Flag : stopflag <> AVL_NOMORE.

Lemma scan_app l k s : scan (l ++ k) s = let (c, s) := scan l s in if c =? stopflag then (stopflag, s) else scan k s.
Proof.
  revert s; induction l as [|d l IH]; intros s; cbn [app scan]; [rewrite (proj2 (Z.eqb_neq _ _)) by (intros E; apply Flag; lia); reflexivity|].
  destruct (fn d s) as (c, s1); destruct (c =? stopflag); [rewrite Z.eqb_refl; reflexivity | apply IH].
Qed.

(** The null subtree is not visited. *)
Lemma visit (f : avlnode D -> S -> Z * S) t s (k : S -> Z * S) l : (t = Null -> l = []) -> f t s = scan l s ->
  (let (c, s) := match t with Null => (stopflag + 1, s) | _ => f t s end in if c =? stopflag then (stopflag, s) else k s) =
  (let (c, s) := scan l s in if c =? stopflag then (stopflag, s) else k s).
Proof.
  intros N E; destruct t; [rewrite (N eq_refl); cbn [scan] | rewrite E; reflexivity].
  rewrite !(proj2 (Z.eqb_neq _ _)) by lia || (intros E'; apply Flag; lia); reflexivity.
Qed.

(** The last subtree. *)
Lemma visit_last (f : avlnode D -> S -> Z * S) t s : (forall s, f Null s = (AVL_NOMORE, s)) -> match t with Null => (AVL_NOMORE, s) | _ => f t s end = f t s.
Proof. intros N; destruct t; [rewrite N|]; reflexivity. Qed.

Lemma null_elements (f : avlnode D -> list D) t : f Null = [] -> t = Null -> f t = [].
Proof. intros E ->; exact E. Qed.

Lemma avl_inapply_scan t : forall s, avl_inapply fn stopflag t s = scan (elements t) s.
Proof.
  induction t as [|l IHl b d r IHr]; intros s; [reflexivity|]; cbn [avl_inapply elements].
  rewrite scan_app, (visit (avl_inapply fn stopflag) l s _ (elements l)) by (apply null_elements; reflexivity) || apply IHl.
  destruct (scan (elements l) s) as (c, s1); destruct (c =? stopflag); [reflexivity|]; cbn [scan]; destruct (fn d s1) as (c2, s2); destruct (c2 =? stopflag); [reflexivity|].
  rewrite (visit_last (avl_inapply fn stopflag)) by reflexivity; apply IHr.
Qed.

Lemma avl_preapply_scan t : forall s, avl_preapply fn stopflag t s = scan (preorder t) s.
Proof.
  induction t as [|l IHl b d r IHr]; intros s; [reflexivity|]; cbn [avl_preapply preorder scan]; destruct (fn d s) as (c, s1); destruct (c =? stopflag); [reflexivity|].
  rewrite scan_app, (visit (avl_preapply fn stopflag) l s1 _ (preorder l)) by (apply null_elements; reflexivity) || apply IHl.
  destruct (scan (preorder l) s1) as (c2, s2); destruct (c2 =? stopflag); [reflexivity|].
  rewrite (visit_last (avl_preapply fn stopflag)) by reflexivity; apply IHr.
Qed.

(** In postorder, what the last call returned is returned. *)
Definition stops (r : Z * S) : bool := fst r =? stopflag.

Lemma scan_flag l s : fst (scan l s) = if stops (scan l s) then stopflag else AVL_NOMORE.
Proof.
  unfold stops; revert s; induction l as [|d l IH]; intros s; cbn [scan fst]; [rewrite (proj2 (Z.eqb_neq _ _)) by (intros E; apply Flag; lia); reflexivity|].
  destruct (fn d s) as (c, s1); destruct (c =? stopflag); [cbn [fst]; rewrite Z.eqb_refl; reflexivity | apply IH].
Qed.

Lemma avl_postapply_scan t : forall s, snd (avl_postapply fn stopflag t s) = snd (scan (postorder t) s) /\
  stops (avl_postapply fn stopflag t s) = stops (scan (postorder t) s) /\ (stops (scan (postorder t) s) = true -> avl_postapply fn stopflag t s = scan (postorder t) s).
Proof.
  assert (Vp : forall t s (k : S -> Z * S), (forall s, snd (avl_postapply fn stopflag t s) = snd (scan (postorder t) s) /\ stops (avl_postapply fn stopflag t s) = stops (scan (postorder t) s) /\
      (stops (scan (postorder t) s) = true -> avl_postapply fn stopflag t s = scan (postorder t) s)) ->
    (let (c, s) := match t with Null => (stopflag + 1, s) | _ => avl_postapply fn stopflag t s end in if c =? stopflag then (stopflag, s) else k s) =
    (let (c, s) := scan (postorder t) s in if c =? stopflag then (stopflag, s) else k s)).
  { clear t; intros t s k IH; destruct t as [|l b d r]; [apply (visit (avl_postapply fn stopflag) Null s k []); reflexivity|]; set (u := Node l b d r) in *; specialize (IH s); clearbody u.
    destruct IH as (Es & Eb & _); destruct (avl_postapply fn stopflag u s), (scan (postorder u) s); unfold stops in Eb; cbn [fst snd] in *; subst; rewrite Eb; reflexivity. }
  induction t as [|l IHl b d r IHr]; intros s; [repeat split; reflexivity|]; cbn [avl_postapply postorder]; rewrite scan_app, (Vp l s _ IHl).
  destruct (scan (postorder l) s) as (c, s1); destruct (c =? stopflag); [repeat split|]; rewrite scan_app, (Vp r s1 _ IHr).
  destruct (scan (postorder r) s1) as (c2, s2); destruct (c2 =? stopflag); [repeat split|]; cbn [scan]; destruct (fn d s2) as (c3, s3) eqn:Ef; unfold stops; cbn [fst].
  destruct (Z.eqb_spec c3 stopflag) as [->|N]; cbn [fst snd]; [rewrite Z.eqb_refl; auto|]; rewrite (proj2 (Z.eqb_neq _ _)) by (intros E; apply Flag; lia); repeat split; discriminate.
Qed.

End Scan.

Section Prefix.
Context {D S : Type} (fcmp : D -> D -> Z) `{Ord : Ordering D fcmp} (fkey : D -> Z) (fmatch : D -> S -> Z * S) (stopflag : Z).
Hypothesis Flag : stopflag <> AVL_NOMORE.
(** The key is compared in the order of the tree. *)
Hypothesis Mono : forall x y, before fcmp x y -> (fkey x < 0 -> fkey y < 0) /\ (0 < fkey y -> 0 < fkey x).

Definition matches (d : D) : bool := fkey d =? 0.

Lemma no_match (l : list D) : Forall (fun d => fkey d <> 0) l -> filter matches l = [].
Proof. induction 1 as [|d l E _ IH]; cbn [filter]; [reflexivity|]; unfold matches at 1; rewrite (proj2 (Z.eqb_neq _ _) E); exact IH. Qed.

Lemma Forall_preorder (P : D -> Prop) t : Forall P (elements t) -> Forall P (preorder t).
Proof.
  induction t as [|l IHl b d r IHr]; intros F; [constructor|]; cbn [elements preorder] in *; apply Forall_app in F as (Fl & F); inversion F; subst.
  constructor; [assumption | apply Forall_app; auto].
Qed.

Lemma avl_prefixapply_scan t : sorted fcmp (elements t) -> forall s, avl_prefixapply fkey fmatch stopflag t s = scan fmatch stopflag (filter matches (preorder t)) s.
Proof.
  induction t as [|l IHl b d r IHr]; intros So s; [reflexivity|]; cbn [avl_prefixapply preorder filter elements] in *; apply (sorted_node fcmp) in So as (Sl & Sr & Fl & Fr); unfold matches at 1.
  rewrite filter_app; destruct (Z.eqb_spec (fkey d) 0) as [E|E].
  - cbn [scan]; destruct (fmatch d s) as (c, s1); destruct (c =? stopflag); [reflexivity|].
    rewrite (scan_app fmatch stopflag Flag), (visit fmatch stopflag Flag (avl_prefixapply fkey fmatch stopflag) l s1 _ (filter matches (preorder l))) by ((intros ->; reflexivity) || exact (IHl Sl s1)).
    destruct (scan fmatch stopflag (filter matches (preorder l)) s1) as (c2, s2); destruct (c2 =? stopflag); [reflexivity|].
    rewrite (visit_last (avl_prefixapply fkey fmatch stopflag)) by reflexivity; exact (IHr Sr s2).
  - destruct (Z.ltb_spec (fkey d) 0) as [L|L]; rewrite (visit_last (avl_prefixapply fkey fmatch stopflag)) by reflexivity.
    + rewrite (no_match (preorder r)), app_nil_r; [exact (IHl Sl s)|]; apply Forall_preorder; revert Fr; apply Forall_impl; intros x B; pose proof (Mono d x B); lia.
    + rewrite (no_match (preorder l)); [exact (IHr Sr s)|]; apply Forall_preorder; revert Fl; apply Forall_impl; intros x B; pose proof (Mono x d B); lia.
Qed.
End Prefix.

(** ** Iteration *)

Section Iterate.
Context `{Allocator} {D : Type} (null : D) (sizeof_caddr : Z).
Hypothesis Mem : forall n, malloc_ok n = true.

(** The list holds the data that was stored. *)
Definition stored (it : iteration) (l : list D) : Prop :=
  match avl_list it with None => l = [] /\ avl_maxlist it = 0 | Some k => k = l /\ avl_maxlist it = zlen l /\ zlen l <= slots it /\ slots it <= zlen l + 100 end.

Lemma buildlist_ok d it l : stored it l -> zlen l + 200 <= INT_MAX -> exists it', snd (avl_buildlist sizeof_caddr d (Val it)) = Val it' /\
  stored it' (l ++ [d]) /\ avl_nextlist it' = avl_nextlist it.
Proof.
  intros St L; pose proof (zlen_nonneg l); unfold avl_buildlist, stored in *; cbn [snd cbind]; destruct it as [[k|] n m x]; cbn [avl_list slots avl_maxlist avl_nextlist] in *.
  - destruct St as (-> & -> & L1 & L2); destruct (Z.eqb_spec (zlen l) n) as [<-|N].
    + unfold AVL_GRABSIZE; replace (i32 (zlen l + 100)) with (zlen l + 100) by (unfold i32, INT_MAX in *; rewrite Z.mod_small; lia).
      rewrite Mem; cbn [cbind avl_list avl_maxlist slots avl_nextlist]; rewrite Z.eqb_refl, (proj2 (Z.ltb_lt _ _)) by lia; cbn [andb].
      eexists; split; [reflexivity|]; cbn [avl_list avl_maxlist slots avl_nextlist]; rewrite zlen_app, zlen_one; repeat split; lia.
    + cbn [cbind avl_list avl_maxlist slots avl_nextlist]; rewrite Z.eqb_refl, (proj2 (Z.ltb_lt _ _)) by lia; cbn [andb].
      eexists; split; [reflexivity|]; cbn [avl_list avl_maxlist slots avl_nextlist]; rewrite zlen_app, zlen_one; repeat split; lia.
  - destruct St as (-> & ->); rewrite Mem; cbn [cbind avl_list avl_maxlist slots avl_nextlist app]; eexists; split; [reflexivity|]; cbn [avl_list avl_maxlist slots avl_nextlist]; rewrite zlen_one; unfold AVL_GRABSIZE; repeat split; lia.
Qed.

Lemma scan_buildlist k : forall it l, stored it l -> zlen l + zlen k + 200 <= INT_MAX -> exists it',
  snd (scan (avl_buildlist sizeof_caddr) (-1) k (Val it)) = Val it' /\ stored it' (l ++ k) /\ avl_nextlist it' = avl_nextlist it.
Proof.
  induction k as [|d k IH]; intros it l St L; cbn [scan]; [exists it; rewrite app_nil_r; auto|]; rewrite zlen_cons in L; pose proof (zlen_nonneg k).
  destruct (buildlist_ok d it l St ltac:(lia)) as (it1 & E & St1 & N1).
  replace (avl_buildlist sizeof_caddr d (Val it)) with (0, Val it1) by (rewrite <- E; reflexivity); change (0 =? -1) with false; cbn match.
  destruct (IH it1 (l ++ [d]) St1) as (it2 & E2 & St2 & N2); [rewrite zlen_app, zlen_one; lia|]; exists it2; rewrite E2, <- app_assoc in *; split; [reflexivity | split; [exact St2 | congruence]].
Qed.

(** The data that the next calls give. *)
Fixpoint getnexts (n : nat) (it : iteration) : cres (list D * iteration) :=
  match n with
  | O => Val ([], it)
  | S n => ' (d, it) <- avl_getnext null it;; ' (l, it) <- getnexts n it;; Val (d :: l, it)
  end.

Lemma getnexts_ok k : forall l x, (length (l ++ k) = length l + length k)%nat ->
  getnexts (length k) (Iter (Some (l ++ k)) x (zlen (l ++ k)) (zlen l)) = Val (k, Iter (Some (l ++ k)) x (zlen (l ++ k)) (zlen (l ++ k))).
Proof.
  induction k as [|d k IH]; intros l x _; cbn [length getnexts]; [rewrite app_nil_r; reflexivity|].
  unfold avl_getnext; cbn [avl_list avl_nextlist avl_maxlist slots]; rewrite zlen_app, zlen_cons; pose proof (zlen_nonneg k); rewrite (proj2 (Z.eqb_neq _ _)) by lia.
  unfold zlen at 1; rewrite Nat2Z.id, nth_error_app2, Nat.sub_diag by lia; cbn [nth_error cbind].
  specialize (IH (l ++ [d]) x); rewrite <- app_assoc in IH; cbn [app] in IH; rewrite !zlen_app, zlen_one, zlen_cons in IH; rewrite IH by (rewrite !length_app; cbn [length]; lia).
  reflexivity.
Qed.
End Iterate.

(** ** The other operations *)

Lemma avl_free_counts {D S} (dfree : D -> S -> S) (t : avlnode D) : forall s, zlen (elements t) <= INT_MAX ->
  avl_free (Some dfree) t s = (zlen (elements t), fold_left (fun s d => dfree d s) (postorder t) s).
Proof.
  induction t as [|l IHl b d r IHr]; intros s L; [reflexivity|]; cbn [avl_free elements postorder] in *; rewrite zlen_app, zlen_cons in L.
  pose proof (zlen_nonneg (elements l)); pose proof (zlen_nonneg (elements r)); rewrite !fold_left_app; cbn [fold_left].
  assert (N : forall (t : avlnode D) s, match t with Null => (0, s) | _ => avl_free (Some dfree) t s end = avl_free (Some dfree) t s) by (intros [] ?; reflexivity).
  rewrite N, IHl by lia; rewrite N, IHr by lia; rewrite zlen_app, zlen_cons; unfold i32, INT_MAX in *; rewrite Z.mod_small by lia; f_equal; lia.
Qed.

(** * The tree as a sorted list *)

Inductive op (D : Type) : Type :=
| Insert (data : D)
| Delete (data : D)
| Find (data : D).
Arguments Insert {D} _.
Arguments Delete {D} _.
Arguments Find {D} _.

(** What an operation returns: a code or data. *)
Inductive answer (D : Type) : Type :=
| Code (rc : Z)
| Data (d : D).
Arguments Code {D} _.
Arguments Data {D} _.

Section Refinement.
Context `{Allocator} {D : Type} (null : D) (is_null : D -> bool) (sizeof_Avlnode : Z) (char_signed : bool) (fcmp : D -> D -> Z) (fdup : D -> D -> Z * D).

Definition tree_op (o : op D) (t : avlnode D) : cres (answer D * avlnode D) :=
  match o with
  | Insert d => ' (rc, t) <- avl_insert sizeof_Avlnode char_signed fcmp fdup t d;; Val (Code rc, t)
  | Delete d => ' (saved, t) <- avl_delete null is_null char_signed fcmp t d;; Val (Data saved, t)
  | Find d => Val (Data (avl_find null fcmp t d), t)
  end.

Definition list_op (o : op D) (l : list D) : answer D * list D :=
  match o with
  | Insert d => let (rc, l) := list_insert fcmp fdup d l in (Code rc, l)
  | Delete d => let (saved, l) := list_delete fcmp null d l in (Data saved, l)
  | Find d => (Data (list_find fcmp null d l), l)
  end.

Fixpoint tree_run (os : list (op D)) (t : avlnode D) : cres (list (answer D) * avlnode D) :=
  match os with
  | [] => Val ([], t)
  | o :: os => ' (a, t) <- tree_op o t;; ' (l, t) <- tree_run os t;; Val (a :: l, t)
  end.

Fixpoint list_run (os : list (op D)) (l : list D) : list (answer D) * list D :=
  match os with
  | [] => ([], l)
  | o :: os => let (a, l) := list_op o l in let (k, l) := list_run os l in (a :: k, l)
  end.

(** The data that is inserted is there. *)
Definition op_ok (o : op D) : Prop := match o with Insert d => is_null d = false | _ => True end.

(** A balanced search tree, with data that is there. *)
Definition tree_ok (t : avlnode D) : Prop := avl t /\ sorted fcmp (elements t) /\ Forall (fun d => is_null d = false) (elements t).
End Refinement.

Lemma tree_op_ok `{Allocator} {D} (null : D) is_null z fcmp `{Ordering D fcmp} fdup o t : malloc_ok z = true ->
  (forall x y, fcmp (snd (fdup x y)) x = 0) -> (forall x y, is_null x = false -> is_null (snd (fdup x y)) = false) -> op_ok is_null o -> tree_ok is_null fcmp t ->
  exists t', tree_op null is_null z true fcmp fdup o t = Val (fst (list_op null fcmp fdup o (elements t)), t') /\
    elements t' = snd (list_op null fcmp fdup o (elements t)) /\ tree_ok is_null fcmp t'.
Proof.
  intros M Du Dn P (A & S & N); destruct o as [d | d | d]; cbn [tree_op list_op op_ok] in *.
  - destruct (ravl_insert_ok fcmp fdup z M d t A S) as (taller & t' & E & (A' & _ & El) & _); unfold avl_insert; rewrite E; cbn [cbind].
    pose proof (list_insert_sorted fcmp fdup d _ Du S) as S'; pose proof (Forall_list_insert fcmp fdup (fun d => is_null d = false) d _ N P) as N'.
    rewrite <- El in S', N'; destruct (list_insert fcmp fdup d (elements t)) as (rc, l); exists t'; split; [reflexivity|]; split; [exact El|]; split; [exact A' | split; [exact S' | apply N'; auto]].
  - destruct (ravl_delete_ok fcmp fdup null is_null d (Datatypes.S (height t)) t (le_n _) A S N) as (sh & t' & E & (A' & _ & El) & _); unfold avl_delete; rewrite E; cbn [cbind].
    pose proof (list_delete_sorted fcmp null d _ S) as S'; rewrite <- El in S'.
    assert (N' : Forall (fun d => is_null d = false) (elements t')).
    { rewrite El; clear - N; induction N as [|x l Nx N IH]; cbn [list_delete]; [constructor|]; destruct (fcmp d x =? 0); [exact N|]; destruct (list_delete fcmp null d l); constructor; assumption. }
    destruct (list_delete fcmp null d (elements t)) as (saved, l); exists t'; split; [reflexivity|]; split; [exact El | split; [exact A' | split; assumption]].
  - exists t; rewrite (avl_find_ok fcmp null d t S); repeat split; assumption.
Qed.

(** C14. A tree is a sorted list. Whatever data is inserted, deleted and looked
    for, in any order, the operations return what the same operations on the
    sorted list of the data return -- the code of the function for duplicates,
    the data that was deleted or found, or null -- and leave a tree whose data
    is that list, in order, whose balance factors are those of its heights,
    and whose subtrees differ by at most one in height. *)
Theorem avl_refines : forall (A : Allocator) D (null : D) is_null sizeof_Avlnode fcmp fdup os t, Ordering fcmp -> malloc_ok sizeof_Avlnode = true ->
  (forall x y, fcmp (snd (fdup x y)) x = 0) -> (forall x y, is_null x = false -> is_null (snd (fdup x y)) = false) ->
  Forall (op_ok is_null) os -> tree_ok is_null fcmp t ->
  exists t', tree_run null is_null sizeof_Avlnode true fcmp fdup os t = Val (fst (list_run null fcmp fdup os (elements t)), t') /\
    elements t' = snd (list_run null fcmp fdup os (elements t)) /\ tree_ok is_null fcmp t'.
Proof.
  intros A D null is_null z fcmp fdup os; induction os as [|o os IH]; intros t Ord M Du Dn P T; cbn [tree_run list_run].
  - exists t; repeat split; apply T.
  - destruct (tree_op_ok null is_null z fcmp fdup o t M Du Dn (Forall_inv P) T) as (t1 & E & El & T1); rewrite E; cbn [cbind].
    destruct (IH t1 Ord M Du Dn (Forall_inv_tail P) T1) as (t2 & E2 & El2 & T2); rewrite E2; cbn [cbind]; rewrite El in *.
    destruct (list_op null fcmp fdup o (elements t)) as (a, l); cbn [fst snd] in *; destruct (list_run null fcmp fdup os l) as (k, l'); exists t2; auto.
Qed.

(** C15. A search is fast: [avl_find] compares no more often than twice the
    logarithm of the number of nodes and one, and finds the data that is equal
    in the list of the data, or null. *)
Theorem avl_find_bound : forall D (null : D) is_null fcmp t data, Ordering fcmp -> tree_ok is_null fcmp t ->
  avl_find null fcmp t data = list_find fcmp null data (elements t) /\
  2 ^ Z.of_nat (probes fcmp t data) <= (zlen (elements t) + 1) * (zlen (elements t) + 1).
Proof.
  intros D null is_null fcmp t data Ord (A & S & _); split; [exact (avl_find_ok fcmp null data t S)|].
  pose proof (height_bound t A); pose proof (probes_height fcmp data t); etransitivity; [apply Z.pow_le_mono_r; [lia | apply inj_le; eassumption] | assumption].
Qed.

(** C16. The traversals call the function of the user on the data of the tree
    one after the other, until it returns the flag to stop: in ascending order
    of the data, in preorder or in postorder, and [avl_prefixapply], over a
    search tree, on the data that match a key and on no other. They return
    the flag where it was returned, and the first three of these return
    AVL_NOMORE otherwise; [avl_apply] in postorder returns then what the
    function returned for the root. *)
Theorem avl_traversals : forall D S (fn : D -> S -> Z * S) stopflag t s, stopflag <> AVL_NOMORE ->
  avl_apply fn stopflag t s AVL_INORDER = scan fn stopflag (elements t) s /\
  avl_apply fn stopflag t s AVL_PREORDER = scan fn stopflag (preorder t) s /\
  snd (avl_apply fn stopflag t s AVL_POSTORDER) = snd (scan fn stopflag (postorder t) s) /\
  stops stopflag (avl_apply fn stopflag t s AVL_POSTORDER) = stops stopflag (scan fn stopflag (postorder t) s) /\
  forall fcmp fkey, Ordering fcmp -> sorted fcmp (elements t) -> (forall x y, before fcmp x y -> (fkey x < 0 -> fkey y < 0) /\ (0 < fkey y -> 0 < fkey x)) ->
    avl_prefixapply fkey fn stopflag t s = scan fn stopflag (filter (matches fkey) (preorder t)) s.
Proof.
  intros D S fn stopflag t s F; unfold avl_apply; cbn [Z.eqb AVL_INORDER AVL_PREORDER AVL_POSTORDER Pos.eqb].
  split; [apply avl_inapply_scan, F|]; split; [apply avl_preapply_scan, F|]; destruct (avl_postapply_scan fn stopflag F t s) as (E & Eb & _); split; [exact E|]; split; [exact Eb|].
  intros fcmp fkey Ord So Mo; apply (avl_prefixapply_scan fcmp fkey fn stopflag F Mo t So).
Qed.

(** ** An example: numbers, with 0 as the null pointer *)

#[export] Instance ex_ordering : Ordering Z.sub.
Proof. split; intros; lia. Qed.

Definition ex_null (d : Z) : bool := d =? 0.
Definition ex_ops : list (op Z) := map Insert [1; 2; 3; 4; 5; 6; 7] ++ [Delete 4; Insert 3; Find 5; Find 4; Delete 9; Delete 1; Delete 2].
Definition ex_tree : avlnode Z := Node (Node Null RH 3 (Node Null EH 4 Null)) LH 5 (Node Null EH 9 Null).

Lemma ex_tree_ok : tree_ok ex_null Z.sub ex_tree.
Proof. split; [repeat split|]; split; [repeat constructor | repeat constructor]. Qed.

Lemma avl_refines_witness : exists t', tree_run (H := plenty) 0 ex_null 32 true Z.sub avl_dup_error ex_ops Null =
    Val ([Code OK; Code OK; Code OK; Code OK; Code OK; Code OK; Code OK; Data 4; Code NOTOK; Data 5; Data 0; Data 0; Data 1; Data 2], t') /\
  elements t' = [3; 5; 6; 7] /\ avl t'.
Proof.
  destruct (avl_refines plenty Z 0 ex_null 32 Z.sub avl_dup_error ex_ops Null ex_ordering eq_refl) as (t' & E & El & (A & _)).
  - intros x y; cbn; lia.
  - intros x y N; exact N.
  - repeat constructor.
  - repeat split; constructor.
  - exists t'; split; [exact E|]; split; [exact El | exact A].
Defined.

Lemma avl_find_bound_witness : avl_find 0 Z.sub ex_tree 4 = 4 /\ probes Z.sub ex_tree 4 = 3%nat /\ 8 <= 25.
Proof.
  destruct (avl_find_bound Z 0 ex_null Z.sub ex_tree 4 ex_ordering ex_tree_ok) as (F & B); split; [exact F|]; split; [reflexivity | exact B].
Defined.

(** Every number is added up, and 5 stops. *)
Definition ex_fn (d s : Z) : Z * Z := (d, s + d).

Lemma avl_traversals_witness : avl_apply ex_fn 5 ex_tree 0 AVL_INORDER = (5, 12) /\ avl_apply ex_fn 5 ex_tree 0 AVL_PREORDER = (5, 5) /\
  snd (avl_apply ex_fn 9 ex_tree 0 AVL_POSTORDER) = 16 /\ avl_prefixapply (fun d => if d <? 4 then 1 else if d <? 6 then 0 else -1) ex_fn 9 ex_tree 0 = (AVL_NOMORE, 9).
Proof.
  destruct (avl_traversals Z Z ex_fn 5 ex_tree 0) as (I & P & _); [discriminate|]; destruct (avl_traversals Z Z ex_fn 9 ex_tree 0) as (_ & _ & Q & _ & X); [discriminate|].
  split; [exact I|]; split; [exact P|]; split; [exact Q|]; apply (X Z.sub); [exact ex_ordering | apply ex_tree_ok|].
  intros x y B; unfold before in B; destruct (Z.ltb_spec x 4), (Z.ltb_spec y 4), (Z.ltb_spec x 6), (Z.ltb_spec y 6); lia.
Defined.

(** The data in order, one after the other. *)
Lemma avl_iterates `{Allocator} {D} (null : D) z (t : avlnode D) it d k : memory_ok -> elements t = d :: k -> zlen (d :: k) + 200 <= INT_MAX -> exists it1 it2,
  avl_getfirst null z t it = Val (d, it1) /\ getnexts null (length k) it1 = Val (k, it2) /\ exists it3, avl_getnext null it2 = Val (null, it3) /\ avl_list it3 = None.
Proof.
  intros M E L; destruct t as [|l b d' r]; [discriminate|]; unfold avl_getfirst, avl_apply; cbn [Z.eqb AVL_INORDER Pos.eqb]; rewrite avl_inapply_scan by discriminate.
  destruct (scan_buildlist z M (elements (Node l b d' r)) (Iter None (slots it) 0 0) [] ltac:(split; reflexivity)) as (it1 & -> & St & Nx); [rewrite E; exact L|].
  rewrite E in St; cbn [app] in St; cbn [cbind]; destruct it1 as [[l1|] x m n]; unfold stored in St; cbn [avl_list avl_maxlist avl_nextlist slots] in *; [|destruct St; discriminate].
  destruct St as (-> & -> & _); eexists; eexists; split; [reflexivity|]; pose proof (getnexts_ok null k [d] x) as G; cbn [app] in G; change (zlen [d]) with 1 in G; cbn [slots avl_maxlist]; rewrite G by reflexivity.
  split; [reflexivity|]; unfold avl_getnext; cbn [avl_list avl_nextlist avl_maxlist]; rewrite Z.eqb_refl; eexists; split; reflexivity.
Qed.

(** ** Where the code does not do what it means to *)

(** Where [char] is unsigned a factor of -1 is stored as 255 and met by no
    case: the fourth of these insertions reads a flag that was not assigned. *)
Lemma avl_insert_unsigned : exists t, tree_run (H := plenty) 0 ex_null 32 false Z.sub avl_dup_error [Insert 9; Insert 5; Insert 4] Null = Val ([Code OK; Code OK; Code OK], t) /\
  height t = 3%nat /\ tree_run (H := plenty) 0 ex_null 32 false Z.sub avl_dup_error [Insert 3] t = UB.
Proof. eexists; repeat split. Qed.

(** A traversal in postorder that nothing stopped returns what the function
    returned for the root. *)
Lemma avl_postorder_result : avl_apply ex_fn 7 ex_tree 0 AVL_POSTORDER = (5, 21).
Proof. reflexivity. Qed.

(** Without memory the null pointer is used. *)
Lemma avl_insert_no_memory (z : Z) : avl_insert (H := {| malloc_ok _ := false; pe_pool_ok _ _ _ := false |}) z true Z.sub avl_dup_error Null 1 = UB.
Proof. reflexivity. Qed.
