(* ===== verification/StrSpkt.v ===== *)
(** * ssap: SPDUs as strings (str2spkt.c)

    A listener reads the CN SPDU of a connection and passes it to the program
    that serves the session as a string of hexadecimal digits. *)

From S2P Require Import Prelude Conv Convert PElement PStream Qbuf Tpkt Tpkt2fd StrTpkt Spkt Spkt2tsdu Tsdu2spkt Spdu Ssap Swrite Message.
Open Scope Z_scope.
Open Scope c_scope.

(** The size of [packet]; [buffer] has room for its digits. *)
Definition PACKET_SIZE : Z := CONNECT_MAX + BUFSIZ.

Section Strings.
Context `{Allocator} (sizeof_spkt sizeof_qb : Z).
(** What a new block of memory holds. *)
Variable fresh : Z -> list Z.

(** The octets of the packet and of the user data that follows it. [None]
    where there is no memory or the count is negative; [realloc (base, 0)]
    frees the block that is freed again. *)
Definition spkt_block (s : ssapkt) (base : list Z) (len : Z) : cres (option (list Z)) :=
  let follows := ((s_code s =? SPDU_DT) && negb (is_set s SMASK_SPDU_GT)) || (s_code s =? SPDU_EX) || (s_code s =? SPDU_TD) in
  match (if follows then s_udata s else None) with
  | None => Val (Some (ztake len base))
  | Some d =>
      let i := len + s_ulen s in
      if u32 i =? 0 then UB
      else if malloc_ok (u32 i) then
        d <- bcopy_int (Some d) (s_ulen s);;
        Val (match d with Some d => Some (ztake len base ++ d) | None => None end)
      else Val None
  end.

(** The string, without its null, and the packet. *)
Definition spkt2str (s : ssapkt) : cres (option (list Z) * ssapkt) :=
  ' (rc, base, len, s) <- spkt2tsdu fresh s;;
  if rc =? NOTOK then Val (None, s)
  else
    match base with
    | None => UB
    | Some base =>
        b <- spkt_block s base len;;
        match b with
        | None => Val (None, s)
        | Some b => ' (str, _) <- explode (PACKET_SIZE * 2 + 1) b (zlen b);; Val (Some str, s)
        end
    end.

(** The packet, and the static buffer of the reader. *)
Definition str2spkt (text : list Z) (buffer : option (list Z)) : cres (option ssapkt * option (list Z)) :=
  match sizet2int (zlen text) with
  | None => Val (None, buffer)
  | Some nhex =>
      ' (packet, cc) <- implode PACKET_SIZE (text ++ [0]) nhex;;
      if cc =? NOTOK then Val (None, buffer)
      else if malloc_ok (sizeof_qb + cc) then
        d <- bcopy_int (Some packet) cc;;
        match d with
        | None => Val (None, buffer)
        | Some d => ' (s, _, _, buffer) <- tsdu2spkt sizeof_spkt fresh [QSeg d cc] buffer cc 1;; Val (s, buffer)
        end
      else Val (None, buffer)
  end.
End Strings.

(** * The octets of a packet *)

Create HintDb octets.

Section Octets.
Variable s : ssapkt.
Hypothesis Ok : spkt_ok s.

Definition fine (i : sitem) : Prop := bytes (enc_item i).

Lemma fine_pi c d : is_byte c -> bytes d -> zlen d < 65536 -> fine (Pi (c, d)).
Proof. apply item_bytes. Qed.

Lemma fine_pi_octets c d : fine (Pi (c, d)) -> bytes (enc_pis [(c, d)]).
Proof. intros F; rewrite enc_pis_one; exact F. Qed.

Lemma fine_octet c f : is_byte c -> num_bound f = 256 -> fine (Pi (i_octet s c f)).
Proof. intros C B; apply octet_item; [exact C | pose proof (ok_num s Ok f); unfold is_byte; lia]. Qed.

Lemma fine_ssn c f : is_byte c -> num_bound f = SERIAL_MAX + 2 -> fine (Pi (i_ssn s c f)).
Proof. intros C B; apply ssn_item; [exact C | rewrite <- B; apply (ok_num s Ok)]. Qed.

Lemma fine_short c v : is_byte c -> fine (Pi (c, octets2 v)).
Proof. intros C; apply fine_pi; [exact C | apply octets2_bytes | reflexivity]. Qed.

Lemma fine_array c a : is_byte c -> fine (Pi (i_array s c a)).
Proof.
  intros C; destruct (ok_arr s Ok a) as (L & _ & B); apply fine_pi; [exact C | apply Forall_ztake, B |].
  destruct (zlen_octets_of s a Ok) as (-> & R); assert (sarr_size a <= 64) by (destruct a; discriminate); lia.
Qed.

Lemma fine_reflect : fine (Pi (PI_REFLECT, s_reflect s)).
Proof. destruct (ok_reflect s Ok) as (L & B); apply fine_pi; [split; [discriminate | reflexivity] | exact B | rewrite L; reflexivity]. Qed.

Lemma fine_reason b : Forall fine (opt b [Pi (PI_REASON, reason_octets s)]).
Proof.
  destruct (ok_rdata s Ok) as (D & L); destruct b; constructor; [|constructor]; unfold reason_octets; destruct (s_rdata s) as [d|].
  - destruct D as (D1 & D2 & D3); apply fine_pi; [split; [discriminate | reflexivity] | apply Forall_ztake, D3|].
    rewrite zlen_ztake by lia; unfold RF_SIZE in L; lia.
  - apply fine_pi; [split; [discriminate | reflexivity] | constructor | reflexivity].
Qed.

Lemma fine_udata c : is_byte c -> Forall fine (i_udata s c).
Proof. intros C; apply udata_item; [exact C | exact Ok|]; pose proof (ok_udata s Ok) as U; destruct (s_udata s); cbn [data_fits] in U; unfold SEGMENT_MAX in *; lia. Qed.

Lemma fine_opt b i : fine i -> Forall fine (opt b [i]).
Proof. intros F; destruct b; repeat constructor; exact F. Qed.

Lemma fine_group c l : is_byte c -> zlen (enc_pis l) < 256 -> Forall fine (map Pi l) -> fine (Pgi c l).
Proof.
  intros C L F; pose proof (zlen_nonneg (enc_pis l)); unfold fine; cbn [enc_item]; apply bytes_cons; split; [exact C|]; apply bytes_cons; split; [unfold is_byte; lia|].
  clear L H; induction l as [|p l IH]; [constructor|]; inversion F as [|? ? F1 F2]; subst; change (enc_pis (p :: l)) with (enc_pi p ++ enc_pis l).
  apply bytes_app; split; [exact F1 | apply IH, F2].
Qed.

Lemma map_opt {A B} (f : A -> B) b x : map f (opt b [x]) = opt b [f x].
Proof. destruct b; reflexivity. Qed.

Lemma fine_ref u c a code : is_byte code -> sarr_size u = 64 -> sarr_size c = 64 -> sarr_size a = 4 -> fine (i_ref s u c a code).
Proof.
  intros C U Cm A; pose proof (len_ref s Ok u c a code) as L; pose proof (zlen_octets_of s u Ok) as (_ & Lu); pose proof (zlen_octets_of s c Ok) as (_ & Lc).
  pose proof (zlen_octets_of s a Ok) as (_ & La); apply fine_group; [split; [discriminate | reflexivity] | |].
  - rewrite len_item in L; cbn [i_ref enc_item] in L; rewrite !zlen_cons in L; unfold count_ref in L.
    repeat match type of L with context [if ?b then _ else _] => destruct b end; lia.
  - rewrite !map_app; unfold i_nonempty; rewrite !map_opt.
    repeat (apply Forall_app; split); apply fine_opt, fine_array; try exact C; split; discriminate || reflexivity.
Qed.
End Octets.

Ltac fine_item := first
  [ apply fine_opt; fine_item | apply fine_udata; [assumption | fine_byte] | apply fine_reason; assumption
  | apply fine_octet; [assumption | fine_byte | reflexivity] | apply fine_ssn; [assumption | fine_byte | reflexivity]
  | apply fine_short; fine_byte | apply fine_array; [assumption | fine_byte] | apply fine_reflect; assumption
  | apply fine_ref; [assumption | fine_byte | reflexivity..] | apply Forall_cons; [fine_item | apply Forall_nil] | apply Forall_nil ]
with fine_byte := repeat match goal with |- context [if ?b then _ else _] => destruct b end; (split; [discriminate | reflexivity]).

Lemma fine_cn_items s : spkt_ok s -> Forall (fine) (i_cn_items s).
Proof.
  intros O; pose proof (len_group_cn s O) as L; unfold i_cn_items; apply fine_opt, fine_group; [fine_byte | lia|].
  rewrite !map_app, !map_opt; repeat (apply Forall_app; split); try fine_item.
  apply fine_opt; change (fine (Pi (PI_TSDU_MAXSIZ, tsdu_octets s))); apply fine_pi; [fine_byte | apply bytes_app; split; apply octets2_bytes | reflexivity].
Qed.

Lemma fine_ar_link s : spkt_ok s -> fine (i_ar_link s).
Proof.
  intros O; pose proof (len_ar_group s O) as L; unfold i_ar_link in *; apply fine_group; [fine_byte | lia|].
  rewrite map_app; cbn [map app]; apply Forall_app; split; [|repeat (constructor; [fine_item|]); constructor].
  unfold i_nonempty; destruct (is_set s SMASK_AR_REF); cbn [opt map]; [|constructor].
  rewrite !map_app, !map_opt; repeat (apply Forall_app; split); fine_item.
Qed.

(** A packet in its range is written as octets. *)
Lemma enc_octets s : spkt_ok s -> In (s_code s) spdu_codes -> zlen (enc_items (spdu_items s)) < 65536 -> bytes (enc s).
Proof.
  intros O I L; apply enc_bytes; [repeat (destruct I as [<- | I]; [fine_byte|]); destruct I | exact L|]; fold fine.
  change (Forall fine (spdu_items s)); pose proof (fine_cn_items s O); pose proof (fine_ar_link s O); unfold spdu_items, i_tail, i_enclose, i_cn_rest.
  repeat (destruct I as [<- | I]; [codes; repeat match goal with |- context [if is_set s ?f then _ else _] => destruct (is_set s f) end; cbn [app];
    repeat (apply Forall_app; split); try assumption; repeat (constructor; [first [assumption | fine_item]|]);
    repeat (apply Forall_app; split); try assumption; try fine_item|]); destruct I.
Qed.

(** * A packet through a string *)

Section Saved.
Context `{Allocator} (sizeof_spkt sizeof_qb : Z) (fresh : Z -> list Z).
Hypothesis Mem : memory_ok.
Hypothesis Fresh : forall n, 0 <= n -> zlen (fresh n) = n.

(** No user data follows the packet in its TSDU. *)
Definition alone (s : ssapkt) : Prop := one_of (s_code s) [SPDU_EX; SPDU_TD] = false /\ (s_code s = SPDU_GT -> is_set s SMASK_SPDU_GT = true).

Lemma alone_block s base len : alone s -> spkt_block s base len = Val (Some (ztake len base)).
Proof.
  intros (A & G); unfold spkt_block; cbn [one_of existsb] in A; apply orb_false_iff in A as (A1 & A2); apply orb_false_iff in A2 as (A2 & _); rewrite A1, A2, !orb_false_r.
  replace ((s_code s =? SPDU_DT) && negb (is_set s SMASK_SPDU_GT)) with false; [reflexivity|].
  destruct (Z.eqb_spec (s_code s) SPDU_DT) as [E|]; [rewrite (G E)|]; reflexivity.
Qed.

Lemma spkt2str_ok s : spkt_ok s -> complete s = true -> in_room fresh s -> alone s -> zlen (enc s) <= PACKET_SIZE ->
  exists text s1, spkt2str fresh s = Val (Some text, s1) /\ zlen text = 2 * zlen (enc s) /\ implode PACKET_SIZE (text ++ [0]) (zlen text) = Val (enc s, zlen (enc s)).
Proof.
  intros O C R A P; destruct (written _ fresh s Mem Fresh O C R) as (top & W & T); change (enc_spdu (s_code s) (spdu_items s)) with (enc s) in *.
  unfold PACKET_SIZE, CONNECT_MAX, BUFSIZ in *; pose proof (enc_octets s O (complete_code s C) (proj1 (proj2 R))) as B.
  destruct (implode_explode (PACKET_SIZE * 2 + 1) PACKET_SIZE (enc s) B) as (text & Ex & L & Im); try (unfold PACKET_SIZE, CONNECT_MAX, BUFSIZ, INT_MAX; lia).
  exists text, (set_s_li (set_s_errno s SC_ACCEPT) (zlen (enc_items (spdu_items s)))); unfold spkt2str; rewrite W; cbn [cbind]; change (OK =? NOTOK) with false; cbn match.
  rewrite alone_block by exact A; cbn [cbind]; rewrite T; unfold PACKET_SIZE in Ex; unfold PACKET_SIZE; rewrite Ex; auto.
Qed.

Lemma str2spkt_ok s text b : spkt_ok s -> complete s = true -> zlen (enc_items (spdu_items s)) < 65536 -> readable s 1 -> zlen (enc s) <= PACKET_SIZE ->
  zlen text = 2 * zlen (enc s) -> implode PACKET_SIZE (text ++ [0]) (zlen text) = Val (enc s, zlen (enc s)) -> buffer_ok b ->
  exists s' b', str2spkt sizeof_spkt sizeof_qb fresh text b = Val (Some s', b') /\ s_errno s' = SC_ACCEPT /\ same_spdu s s' /\ buffer_ok b'.
Proof.
  intros O C L Re P Lt Im Bo; pose proof (zlen_nonneg (enc s)) as N; unfold str2spkt, sizet2int; rewrite Z.gtb_ltb, (proj2 (Z.ltb_ge _ _)) by (unfold PACKET_SIZE, CONNECT_MAX, BUFSIZ, INT_MAX in *; lia).
  rewrite Im; cbn [cbind]; rewrite (proj2 (Z.eqb_neq _ NOTOK)) by (unfold NOTOK; lia); rewrite Mem.
  pose proof (bcopy_whole (enc s) []) as Bc; rewrite app_nil_r in Bc; rewrite Bc by (unfold is_int, INT_MIN, INT_MAX, PACKET_SIZE, CONNECT_MAX, BUFSIZ in *; lia); cbn [cbind].
  assert (Sg : seg_octets (QSeg (enc s) (zlen (enc s))) = enc s) by (unfold seg_octets; cbn [qb_data seg_len]; apply ztake_all; lia).
  destruct (read_back _ fresh sizeof_spkt s 1 Mem Fresh O C L Re [QSeg (enc s) (zlen (enc s))] b [] (zlen (enc s))) as (s' & q & b' & -> & Ac & Sm & _ & _ & Bo').
  - constructor; [|constructor]; split; [cbn [qb_data seg_len]; lia | rewrite Sg; apply enc_octets; auto using complete_code].
  - exact Bo.
  - unfold ring_octets; cbn [map concat]; rewrite Sg; reflexivity.
  - apply Z.le_refl.
  - exists s', b'; auto.
Qed.
End Saved.

(** C20. An SPDU passed as a string. For every packet the implementation
    writes on its own, and whose octets fit the array, [spkt2str] makes a
    string of two digits an octet, and [str2spkt] of this string finds a
    packet with the same code, the same parameters and the same values. *)
Theorem spkt2str_str2spkt : forall (A : Allocator) sizeof_spkt sizeof_qb fresh s, memory_ok -> (forall n, 0 <= n -> zlen (fresh n) = n) ->
  spkt_ok s -> complete s = true -> in_room fresh s -> readable s 1 -> alone s -> zlen (enc s) <= PACKET_SIZE ->
  exists text s1, spkt2str fresh s = Val (Some text, s1) /\ zlen text = 2 * zlen (enc s) /\
    forall b, buffer_ok b -> exists s' b', str2spkt sizeof_spkt sizeof_qb fresh text b = Val (Some s', b') /\ s_errno s' = SC_ACCEPT /\ same_spdu s s'.
Proof.
  intros A z zq fresh s M F O C R Re Al P; destruct (spkt2str_ok fresh M F s O C R Al P) as (text & s1 & E & L & Im).
  exists text, s1; split; [exact E|]; split; [exact L|]; intros b B; destruct (str2spkt_ok z zq fresh M F s text b) as (s' & b' & Es & Ac & Sm & _); auto; [apply R|].
  exists s', b'; auto.
Qed.

(** A CN SPDU with its version and requirements. *)
Definition ex_cn : ssapkt :=
  set_num (Set_ (set_num (Set_ (new_spkt SPDU_CN) SMASK_CN_VRSN) N_cn_version 3) SMASK_CN_REQ) N_cn_require 10.

Lemma spkt2str_str2spkt_witness : exists s' s1 b text, spkt2str (H := plenty) zeros ex_cn = Val (Some text, s1) /\
  text = [48; 100; 48; 57; 48; 53; 48; 51; 49; 54; 48; 49; 48; 51; 49; 52; 48; 50; 48; 48; 48; 97] /\
  str2spkt (H := plenty) 800 64 zeros text None = Val (Some s', b) /\ s_code s' = SPDU_CN /\ s_num s' N_cn_require = 10.
Proof.
  destruct (spkt2str_str2spkt plenty 800 64 zeros ex_cn) as (text & s1 & E & L & R).
  - intros n; reflexivity.
  - exact zeros_fresh.
  - apply ok_set_num; [apply ok_Set, ok_set_num; [apply ok_Set, ok_new|]|]; split; discriminate || reflexivity.
  - reflexivity.
  - split; [vm_compute; discriminate|]; split; [reflexivity | left; vm_compute; discriminate].
  - split; try discriminate; intros f; destruct f; reflexivity.
  - split; [reflexivity | discriminate].
  - vm_compute; discriminate.
  - assert (V : text = [48; 100; 48; 57; 48; 53; 48; 51; 49; 54; 48; 49; 48; 51; 49; 52; 48; 50; 48; 48; 48; 97]) by (vm_compute in E; injection E as <- _; reflexivity).
    destruct (R None I) as (s' & b & Es & _ & Sm); exists s', s1, b, text; split; [exact E|]; split; [exact V|]; split; [exact Es|]; split; [exact (same_code _ _ Sm)|].
    exact (proj2 (same_num _ _ Sm SMASK_CN_REQ N_cn_require (or_intror (or_intror (or_intror (or_intror (or_intror (or_intror (or_introl eq_refl)))))))) eq_refl).
Defined.

(** A string of more octets than the array has room for is written past its
    end: [str2spkt] does not look at its length. *)
Lemma implode_loop_long cap r : bytes r -> forall fuel pre a, (length r <= fuel)%nat -> zlen a <= cap < zlen a + zlen r ->
  implode_loop fuel cap a (pre ++ hex r ++ [0]) (zlen pre) (zlen pre + 2 * zlen r) = UB.
Proof.
  induction 1 as [|c r B _ IH]; intros fuel pre a F L; [change (zlen (@nil Z)) with 0 in L; lia|].
  destruct fuel as [|fuel]; [simpl in F; lia|]; cbn [implode_loop]; rewrite zlen_cons in *; pose proof (zlen_nonneg r); pose proof (zlen_nonneg pre).
  destruct (Z.ltb_spec (zlen pre) (zlen pre + 2 * (1 + zlen r))); [|lia]; change (hex (c :: r)) with (hex_octet c ++ hex r); unfold hex_octet.
  cbn [app]; rewrite !rd_app_r by lia; rewrite Z.sub_diag; replace (zlen pre + 1 - zlen pre) with 1 by lia.
  rewrite rd_cons0, rd_consS by lia; change (1 - 1) with 0; rewrite rd_cons0; cbn [cbind].
  destruct (implode_octet c B) as (h & l & -> & -> & E); cbn [cbind]; rewrite E; destruct (Z.eq_dec (zlen a) cap) as [Ec | Nc].
  - unfold wrc; rewrite zlen_one, (proj2 (Z.leb_gt _ cap)) by lia; rewrite andb_false_r; reflexivity.
  - rewrite wrc_end by (rewrite zlen_one; lia); cbn [cbind]; specialize (IH fuel (pre ++ hex_octet c) (a ++ [c])); rewrite <- !app_assoc in IH; cbn [app] in IH.
    replace (zlen (pre ++ hex_octet c)) with (zlen pre + 2) in IH by (rewrite zlen_app; reflexivity).
    replace (zlen pre + 2 * (1 + zlen r)) with (zlen pre + 2 + 2 * zlen r) by lia.
    apply IH; [simpl in F; lia | rewrite zlen_app, zlen_one; lia].
Qed.

Lemma str2spkt_overflow `{Allocator} z zq fresh l b : bytes l -> PACKET_SIZE < zlen l -> 2 * zlen l <= INT_MAX -> str2spkt z zq fresh (hex l) b = UB.
Proof.
  intros B L M; pose proof (zlen_nonneg l); unfold str2spkt, sizet2int; rewrite zlen_hex, Z.gtb_ltb, (proj2 (Z.ltb_ge _ _)) by exact M.
  unfold implode; pose proof (implode_loop_long PACKET_SIZE l B (Z.to_nat (2 * zlen l)) [] []) as I; cbn [app] in I; change (zlen (@nil Z)) with 0 in I; rewrite !Z.add_0_l in I.
  rewrite I by (unfold PACKET_SIZE, CONNECT_MAX, BUFSIZ, zlen in *; lia); reflexivity.
Qed.
