(* ===== verification/Sconn.v ===== *)
(** * ssap: the connection of a session (ssapinitiate.c, ssaprespond.c)

    The initiator proposes the terms of a session in a CN SPDU, the responder
    answers with an AC or an RF SPDU, and each takes from them the version,
    the size of TSDUs, the functional units, the serial number and the owners
    of the tokens. The computations are those of [Ssap]; what only the
    connection phase uses of the block is in [terms]. How long a read may
    take is left to the transport service, so that [sb_maxtime] is left out. *)

From S2P Require Import Prelude Conv Convert PElement PStream Qbuf Tpkt Tpkt2fd Tcp Tp0 Tp0Conn Spkt Spkt2tsdu Tsdu2spkt Ssap StrSpkt.
Open Scope Z_scope.
Open Scope c_scope.
Open Scope ses_scope.

(** ** Constants *)

Definition SB_VRSN1 := 0.
Definition SB_ASYNC_CONN := 4194304.
Definition SB_TS_CONN := 8388608.
Definition SR_BASUBSET := ors [SR_HALFDUPLEX; SR_TYPEDATA; SR_CAPABILITY; SR_MINORSYNC; SR_EXCEPTIONS; SR_ACTIVITY].
Definition SR_BCSUBSET := ors [SR_HALFDUPLEX; SR_DUPLEX].
Definition SR_BSSUBSET := ors [SR_NEGOTIATED; SR_HALFDUPLEX; SR_DUPLEX; SR_TYPEDATA; SR_MINORSYNC; SR_MAJORSYNC; SR_RESYNC].
Definition SR_MYREQUIRE := ors [SR_BASUBSET; SR_BCSUBSET; SR_BSSUBSET; SR_EXPEDITED].
Definition SR_DEFAULT := ors [SR_HALFDUPLEX; SR_MINORSYNC; SR_ACTIVITY; SR_CAPABILITY; SR_EXCEPTIONS].
Definition ST_RSVD_VALUE := 3.
Definition SC_NOTSPECIFIED := 0.
Definition SC_CONGESTION := 1.
Definition SS_SIZE := 512.
Definition SC_SIZE := 512.
Definition CR_OPT_NULL := 0.
Definition DT_MINSIZE := 64.

Definition BAD_TSDU_SIZE (s : Z) : bool := negb (s =? 0) && (s <? DT_MINSIZE).
Definition GET_TSDU_SIZE (s : Z) : Z := if s <? DT_MINSIZE then 0 else s.

(** ** Data *)

Record QOStype : Type := Qos { qos_reliability : Z; qos_sversion : Z; qos_extended : Z; qos_maxtime : Z }.
Definition set_qos (version extended : Z) (q : QOStype) : QOStype := Qos (qos_reliability q) version extended (qos_maxtime q).
Definition no_qos : QOStype := Qos 0 0 0 0.

(** The session layer only copies transport addresses. *)
Record SSAPaddr (T : Type) : Type := SA { sa_addr : T; sa_selectlen : Z; sa_selector : list Z }.
Arguments SA {T}.
Arguments sa_addr {T}.
Arguments sa_selectlen {T}.
Arguments sa_selector {T}.

(** [struct TSAPconnect] and [struct TSAPstart]; the session layer does not
    use their data. *)
Record TSAPconnect (T : Type) : Type := Tc { tc_sd : Z; tc_responding : T; tc_expedited : Z; tc_tsdusize : Z; tc_qos : QOStype }.
Arguments Tc {T}.
Arguments tc_sd {T}.
Arguments tc_responding {T}.
Arguments tc_expedited {T}.
Arguments tc_tsdusize {T}.
Arguments tc_qos {T}.

Record TSAPstart (T : Type) : Type := Ts { ts_sd : Z; ts_calling : T; ts_called : T; ts_expedited : Z; ts_tsdusize : Z; ts_qos : QOStype }.
Arguments Ts {T}.
Arguments ts_sd {T}.
Arguments ts_calling {T}.
Arguments ts_called {T}.
Arguments ts_expedited {T}.
Arguments ts_tsdusize {T}.
Arguments ts_qos {T}.

Record SSAPconnect (T : Type) : Type := Sc {
  sc_sd : Z; sc_connect : sref; sc_responding : SSAPaddr T; sc_result : Z;
  sc_requirements : Z; sc_settings : Z; sc_please : Z; sc_isn : Z;
  sc_ssdusize : Z; sc_qos : QOStype; sc_data : sdata
}.
Arguments Sc {T}.
Arguments sc_sd {T}.
Arguments sc_connect {T}.
Arguments sc_responding {T}.
Arguments sc_result {T}.
Arguments sc_requirements {T}.
Arguments sc_settings {T}.
Arguments sc_please {T}.
Arguments sc_isn {T}.
Arguments sc_ssdusize {T}.
Arguments sc_qos {T}.
Arguments sc_data {T}.

Record SSAPstart (T : Type) : Type := Ss {
  ss_sd : Z; ss_connect : sref; ss_calling : SSAPaddr T; ss_called : SSAPaddr T;
  ss_requirements : Z; ss_settings : Z; ss_isn : Z; ss_ssdusize : Z; ss_qos : QOStype; ss_data : sdata
}.
Arguments Ss {T}.
Arguments ss_sd {T}.
Arguments ss_connect {T}.
Arguments ss_calling {T}.
Arguments ss_called {T}.
Arguments ss_requirements {T}.
Arguments ss_settings {T}.
Arguments ss_isn {T}.
Arguments ss_ssdusize {T}.
Arguments ss_qos {T}.
Arguments ss_data {T}.

(** The rest of [struct ssapblk]. *)
Record terms (T : Type) : Type := Terms {
  sb_fd : Z; sb_vrsnmask : Z; sb_options : Z; sb_settings : Z;
  sb_initiating : SSAPaddr T; sb_responding : SSAPaddr T; sb_tc : TSAPconnect T
}.
Arguments Terms {T}.
Arguments sb_fd {T}.
Arguments sb_vrsnmask {T}.
Arguments sb_options {T}.
Arguments sb_settings {T}.
Arguments sb_initiating {T}.
Arguments sb_responding {T}.
Arguments sb_tc {T}.

Definition set_fd {T} (v : Z) (x : terms T) : terms T :=
  Terms v (sb_vrsnmask x) (sb_options x) (sb_settings x) (sb_initiating x) (sb_responding x) (sb_tc x).
Definition set_vrsnmask {T} (v : Z) (x : terms T) : terms T :=
  Terms (sb_fd x) v (sb_options x) (sb_settings x) (sb_initiating x) (sb_responding x) (sb_tc x).
Definition set_options {T} (v : Z) (x : terms T) : terms T :=
  Terms (sb_fd x) (sb_vrsnmask x) v (sb_settings x) (sb_initiating x) (sb_responding x) (sb_tc x).
Definition set_settings {T} (v : Z) (x : terms T) : terms T :=
  Terms (sb_fd x) (sb_vrsnmask x) (sb_options x) v (sb_initiating x) (sb_responding x) (sb_tc x).
Definition set_initiating {T} (v : SSAPaddr T) (x : terms T) : terms T :=
  Terms (sb_fd x) (sb_vrsnmask x) (sb_options x) (sb_settings x) v (sb_responding x) (sb_tc x).
Definition set_responding {T} (v : SSAPaddr T) (x : terms T) : terms T :=
  Terms (sb_fd x) (sb_vrsnmask x) (sb_options x) (sb_settings x) (sb_initiating x) v (sb_tc x).
Definition set_tc {T} (v : TSAPconnect T) (x : terms T) : terms T :=
  Terms (sb_fd x) (sb_vrsnmask x) (sb_options x) (sb_settings x) (sb_initiating x) (sb_responding x) v.

Definition set_version (v : Z) (b : ssapblk) : ssapblk :=
  SBlk v (sb_flags b) (sb_retry b) (sb_V_A b) (sb_V_M b) (sb_V_R b) (sb_rs b) (sb_rsn b) (sb_rsettings b) (sb_pr b) (sb_xspdu b)
    (sb_spdu b) (sb_qbuf b) (sb_len b) (sb_code b) (sb_tsdu_us b) (sb_tsdu_them b) (sb_owned b) (sb_requirements b).
Definition set_tsdu (us them : Z) (b : ssapblk) : ssapblk :=
  SBlk (sb_version b) (sb_flags b) (sb_retry b) (sb_V_A b) (sb_V_M b) (sb_V_R b) (sb_rs b) (sb_rsn b) (sb_rsettings b) (sb_pr b) (sb_xspdu b)
    (sb_spdu b) (sb_qbuf b) (sb_len b) (sb_code b) us them (sb_owned b) (sb_requirements b).
Definition set_requirements (v : Z) (b : ssapblk) : ssapblk :=
  SBlk (sb_version b) (sb_flags b) (sb_retry b) (sb_V_A b) (sb_V_M b) (sb_V_R b) (sb_rs b) (sb_rsn b) (sb_rsettings b) (sb_pr b) (sb_xspdu b)
    (sb_spdu b) (sb_qbuf b) (sb_len b) (sb_code b) (sb_tsdu_us b) (sb_tsdu_them b) (sb_owned b) v.

(** What newsblk makes. *)
Definition new_sblk : ssapblk := SBlk 0 0 None 0 0 0 0 0 0 SPDU_PR None None [] 0 0 0 0 0 0.

Definition zero_cnt (n : Z) : counted := Cnt 0 (repeat 0 (Z.to_nat n)).
Definition no_ref : sref := Ref (zero_cnt SREF_USER_SIZE) (zero_cnt SREF_COMM_SIZE) (zero_cnt SREF_ADDT_SIZE) (zero_cnt SREF_USER_SIZE).

(** The token of a word of settings at [shift], and a value of it there. *)
Definition st_at (w shift : Z) : Z := Z.land w (Z.shiftl ST_MASK shift).
Definition st_val (v shift : Z) : Z := Z.shiftl v shift.
(** [settings &= ~(ST_MASK << shift); settings |= v << shift] *)
Definition st_put (w v shift : Z) : Z := Z.lor (Z.land w (Z.lnot (Z.shiftl ST_MASK shift))) (st_val v shift).

(** [missingP (ref)], [refmuchP (ref)] and the test of [sr_vlen]. *)
Definition bad_ref (ref : option sref) : bool :=
  match ref with
  | None => true
  | Some r => (c_len (sr_calling r) >? SREF_USER_SIZE) || (c_len (sr_comm r) >? SREF_COMM_SIZE) || (c_len (sr_addt r) >? SREF_ADDT_SIZE)
              || (c_len (sr_called r) >? SREF_USER_SIZE) || negb (c_len (sr_called r) =? 0)
  end.

(** The initial serial number is not what the functional units ask for. *)
Definition bad_isn (requirements isn : Z) : bool :=
  if meets requirements (ors [SR_MINORSYNC; SR_MAJORSYNC; SR_RESYNC]) then
    (negb (meets requirements SR_ACTIVITY) || negb (isn =? SERIAL_NONE)) && ((SERIAL_MIN >? isn) || (isn >? SERIAL_MAX + 1))
  else negb (isn =? SERIAL_NONE).

(** A token that is asked for has an improper setting. *)
Definition bad_settings (requirements settings : Z) : bool :=
  existsb (fun t => let '(requires, shift, _) := t in
    meets requirements requires && negb (existsb (Z.eqb (st_at settings shift)) (map (fun v => st_val v shift) [ST_INIT_VALUE; ST_RESP_VALUE; ST_CALL_VALUE])))
    token_table.

(** [s -> s_cn_reference = *ref] *)
Definition put_cn_reference (r : sref) (s : ssapkt) : ssapkt :=
  set_arr (set_arr (set_arr s A_cn_user (sr_calling r)) A_cn_comm (sr_comm r)) A_cn_addt (sr_addt r).
Definition cn_reference (s : ssapkt) : sref := Ref (s_arr s A_cn_user) (s_arr s A_cn_comm) (s_arr s A_cn_addt) (zero_cnt SREF_USER_SIZE).

Section Connection.
Context `{Allocator} (sizeof_spkt sizeof_qb sizeof_ssapblk : Z).
(** What a new block of memory holds. *)
Variable fresh : Z -> list Z.
Variables ses_ab_timer ses_dn_timer ses_rf_timer : Z.
(** Whether [char] is signed. *)
Variable char_signed : bool.
Context {TSAPaddr : Type}.
(** An address that was zeroed. *)
Variable no_ta : TSAPaddr.

#[local] Abbreviation saddr := (SSAPaddr TSAPaddr).
#[local] Abbreviation tconnect := (TSAPconnect TSAPaddr).
#[local] Abbreviation tstart := (TSAPstart TSAPaddr).
#[local] Abbreviation sconnect := (SSAPconnect TSAPaddr).
#[local] Abbreviation sstart := (SSAPstart TSAPaddr).
#[local] Abbreviation sterms := (terms TSAPaddr).

Definition no_sa : saddr := SA no_ta 0 (repeat 0 (Z.to_nat SSSIZE)).
Definition no_tc : tconnect := Tc 0 no_ta 0 0 no_qos.
Definition new_terms : sterms := Terms NOTOK 0 0 0 no_sa no_sa no_tc.
Definition no_sc : sconnect := Sc 0 no_ref no_sa 0 0 0 0 0 0 no_qos no_data.

Definition newsblk : sess bool := fun st =>
  if malloc_ok sizeof_ssapblk then Val (true, Ses new_sblk false (ses_si st) (ses_tp st) (ses_buffer st)) else Val (false, st).

Definition connected (x : sterms) : bool := negb (sb_fd x =? NOTOK).

(** A selector into its array, with its flag; [None] where its length is
    negative. *)
Definition put_selector (a : sarr) (flag : Z) (sa : saddr) (s : ssapkt) : cres (option ssapkt) :=
  d <- bcopy_int (Some (sa_selector sa)) (sa_selectlen sa);;
  match d with
  | None => Val None
  | Some d => data <- wr (c_data (s_arr s a)) 0 d;; Val (Some (set_arr (Set_ s flag) a (Cnt (sa_selectlen sa) data)))
  end.

Definition put_nonempty_selector (a : sarr) (flag : Z) (sa : option saddr) (s : ssapkt) : cres (option ssapkt) :=
  match sa with Some sa => if sa_selectlen sa >? 0 then put_selector a flag sa s else Val (Some s) | None => Val (Some s) end.

(** [copy_capped] of a selector that was received. *)
Definition take_selector (s : ssapkt) (a : sarr) (sa : saddr) : cres (option saddr) :=
  ' (rc, n, d) <- copy_capped (Some (c_data (s_arr s a))) (Some (sa_selector sa)) (c_len (s_arr s a)) SSSIZE;;
  Val (if rc =? 0 then match d with Some d => Some (SA (sa_addr sa) n d) | None => None end else None).

(** The result, [sc] where it is filled in, and the terms. Of a call that
    returns CONNECTING_1 or CONNECTING_2 [sc] holds only the descriptor,
    [sb_fd]; of one that fails, nothing of use. *)
Definition coutcome : Type := Z * option sconnect * sterms.

(** ** The initiator *)

Definition bad_tsdu (x : sterms) : sess coutcome := do r <~ ssaplose SC_PROTOCOL; ret (r, None, x).

(** [goto out] with the connection aborted. *)
Definition mangled (x : sterms) : sess coutcome :=
  do r <~ spktlose sizeof_spkt fresh ses_ab_timer ses_rf_timer SC_PROTOCOL;
  exec freesblk ses_dn_timer (connected x); ret (r, None, x).

(** [dotoken] of SAsynRetryAux2: [s_settings], the block, [sc_settings] and
    [sc_please]. *)
Definition ac_token (s : ssapkt) (settings requires shift bit : Z) (a : Z * ssapblk * Z * Z) : Z * ssapblk * Z * Z :=
  let '(s_settings, b, sc_settings, please) := a in
  if needs b requires then
    let own s_settings := (s_settings, take_token bit b, Z.lor sc_settings (st_val ST_INIT_VALUE shift)) in
    let yield s_settings := (s_settings, b, Z.lor sc_settings (st_val ST_RESP_VALUE shift)) in
    let v := st_at settings shift in
    let '(s_settings, b, sc_settings) :=
      if v =? st_val ST_CALL_VALUE shift then
        let s_settings := if is_set s SMASK_CN_SET then s_settings else st_val ST_INIT_VALUE shift in
        if st_at s_settings shift =? st_val ST_RESP_VALUE shift then yield s_settings else own s_settings
      else if v =? st_val ST_INIT_VALUE shift then own s_settings
      else if v =? st_val ST_RESP_VALUE shift then yield s_settings
      else (s_settings, b, sc_settings) in
    (s_settings, b, sc_settings, if is_set s SMASK_AC_TOKEN && meets (s_num s N_ac_token) bit then Z.lor please bit else please)
  else a.

Definition ac_tokens (s : ssapkt) (settings : Z) (b : ssapblk) : ssapblk * Z * Z :=
  let '(_, b, sc_settings, please) := dotokens (ac_token s settings) (s_num s N_settings, b, 0, 0) in
  (b, sc_settings, please).

(** The sizes of the AC SPDU, that the connection goes down to. *)
Definition ac_sizes (s : ssapkt) (b : ssapblk) : ssapblk :=
  let init := if is_set s SMASK_CN_TSDU then s_num s N_tsdu_init else 0 in
  let resp := if is_set s SMASK_CN_TSDU then s_num s N_tsdu_resp else 0 in
  set_tsdu (if init <? sb_tsdu_us b then init else sb_tsdu_us b) (if resp <? sb_tsdu_them b then resp else sb_tsdu_them b) b.

Definition ac_require (s : ssapkt) : Z := if is_set s SMASK_CN_REQ then s_num s N_cn_require else SR_DEFAULT.

(** The functional units that remain make no session. *)
Definition bad_units (r : Z) : bool :=
  let d := Z.land r (ors [SR_HALFDUPLEX; SR_DUPLEX]) in
  negb ((d =? SR_HALFDUPLEX) || (d =? SR_DUPLEX))
  || (meets r SR_EXCEPTIONS && negb (meets r SR_HALFDUPLEX))
  || (meets r SR_CAPABILITY && negb (meets r SR_ACTIVITY)).

(** [case SPDU_AC] *)
Definition retry_AC (x : sterms) (tc : tconnect) (s : ssapkt) : sess coutcome :=
  let x := if is_set s SMASK_CN_OPT then set_options (s_num s N_options) x else x in
  exec update (ac_sizes s);
  do b <~ get;
  if BAD_TSDU_SIZE (sb_tsdu_us b) || BAD_TSDU_SIZE (sb_tsdu_them b) then mangled x
  else if is_set s SMASK_CN_VRSN && negb (meets (s_num s N_cn_version) (sb_vrsnmask x)) then mangled x
  else
    let x := if is_set s SMASK_CN_VRSN then set_vrsnmask (Z.land (sb_vrsnmask x) (s_num s N_cn_version)) x else x in
    exec update (set_version (if meets (sb_vrsnmask x) (Z.shiftl 1 SB_VRSN2) then SB_VRSN2 else SB_VRSN1));
    exec update (fun b => if is_set s SMASK_CN_ISN then set_V (s_num s N_isn) (s_num s N_isn) (sb_V_R b) b else b);
    do b <~ get;
    if meets (ac_require s) (Z.lnot (sb_requirements b)) then mangled x
    else
      let b := set_requirements (Z.land (sb_requirements b) (ac_require s)) b in
      exec put b;
      if bad_units (sb_requirements b) then mangled x
      else
        let '(b, settings, please) := ac_tokens s (sb_settings x) b in
        exec put b;
        do r <~ lift (if is_set s SMASK_CN_CALLED then take_selector s A_called (sb_responding x) else Val (Some (sb_responding x)));
        match r with
        | None => mangled x
        | Some responding =>
            let x := set_responding responding x in
            let size := sb_tsdu_us b - SSDU_MAGIC in
            exec put (raise (Z.lor SB_CONN SB_INIT) b);
            ret (DONE,
              Some (Sc (sb_fd x) (if is_set s SMASK_CN_REF then cn_reference s else no_ref) responding SC_ACCEPT (sb_requirements b) settings please
                (if is_set s SMASK_CN_ISN then s_num s N_isn else SERIAL_NONE)
                (if size <? 0 then tc_tsdusize tc - SSDU_MAGIC else size)
                (set_qos (sb_version b + 1) (if has b SB_EXPD then 1 else 0) (tc_qos tc)) (s_udata s, s_ulen s)), x)
        end.

(** The value of a [char]. *)
Definition as_char (c : Z) : Z := if char_signed && (c >=? 128) then c - 256 else c.

(** [case SPDU_RF]: the pointer is moved past the reason even where there is
    none. *)
Definition retry_RF (x : sterms) (s : ssapkt) : sess coutcome :=
  do result <~ lift (if s_rlen s >? 0 then match s_rdata s with Some d => c <- rd d 0;; Val (as_char c) | None => UB end else Val SC_NOTSPECIFIED);
  let connect := if is_set s SMASK_RF_REF then Ref (s_arr s A_rf_user) (s_arr s A_rf_comm) (s_arr s A_rf_addt) (zero_cnt SREF_USER_SIZE) else no_ref in
  let requirements := if (result =? SC_REJECTED) && is_set s SMASK_RF_REQ then s_num s N_rf_require else 0 in
  do r <~ lift (if is_set s SMASK_CN_CALLED && meets result SC_BASE then take_selector s A_called (sb_responding x) else Val (Some (sb_responding x)));
  match r with
  | None => mangled x
  | Some responding =>
      let x := set_responding responding x in
      do data <~ lift (match s_rdata s with Some d => Val (Some (zdrop 1 d), s_rlen s - 1) | None => UB end);
      exec set_si (SI_ABORT false result data);
      exec freesblk ses_dn_timer (connected x);
      ret (DONE, Some (Sc NOTOK connect responding result requirements 0 0 0 0 no_qos data), x)
  end.

(** [case SPDU_AB] *)
Definition retry_AB (x : sterms) (s : ssapkt) : sess coutcome :=
  do si <~ get_si;
  let peer := meets (s_num s N_ab_disconnect) AB_DISC_USER in
  exec set_si (SI_ABORT peer (if peer then sa_reason si else SC_ABORT) (s_udata s, s_ulen s));
  exec freesblk ses_dn_timer (connected x);
  ret (DONE, Some (Sc NOTOK no_ref no_sa SC_ABORT 0 0 0 0 0 no_qos no_data), x).

Definition SAsynRetryAux2 (x : sterms) (tc : tconnect) : sess coutcome :=
  exec update (set_retry None);
  do p <~ sb2spkt sizeof_spkt fresh ses_ab_timer ses_rf_timer None;
  match p with
  | None =>
      do si <~ get_si;
      exec (if sa_reason si =? SC_TIMER then exec ssaplose SC_CONGEST; ret tt else ret tt);
      exec freesblk ses_dn_timer (connected x);
      ret (NOTOK, None, x)
  | Some p =>
      let s := p_spkt p in
      if s_code s =? SPDU_AC then retry_AC x tc s
      else if s_code s =? SPDU_RF then retry_RF x s
      else if s_code s =? SPDU_AB then retry_AB x s
      else mangled x
  end.

(** What the transport connection allows. *)
Definition on_transport (tc : tconnect) (b : ssapblk) : ssapblk :=
  let b := raise SB_TS_CONN b in
  if negb (tc_expedited tc =? 0) then raise SB_EXPD b else set_requirements (u16_bic (sb_requirements b) SR_EXPEDITED) b.

(** The sizes of version 1 are those of the transport connection. *)
Definition own_sizes (tc : tconnect) (b : ssapblk) : option ssapblk :=
  if sb_version b <? SB_VRSN2 then match int2u16 (GET_TSDU_SIZE (tc_tsdusize tc)) with Some tsz => Some (set_tsdu tsz tsz b) | None => None end
  else Some b.

(** The sizes in a CN or an AC SPDU. *)
Definition put_sizes (b : ssapblk) (s : ssapkt) : option ssapkt :=
  if negb (sb_tsdu_us b =? 0) || negb (sb_tsdu_them b =? 0) then
    match int2u16 (GET_TSDU_SIZE (sb_tsdu_us b)), int2u16 (GET_TSDU_SIZE (sb_tsdu_them b)) with
    | Some resp, Some init => Some (set_num (set_num (Set_ s SMASK_CN_TSDU) N_tsdu_resp resp) N_tsdu_init init)
    | _, _ => None
    end
  else Some s.

(** The functional units, and the settings of the tokens they have. *)
Definition put_units (x : sterms) (b : ssapblk) (s : ssapkt) : ssapkt :=
  let s := set_num (Set_ s SMASK_CN_REQ) N_cn_require (sb_requirements b) in
  if needs b SR_TOKENS then set_num (Set_ s SMASK_CN_SET) N_settings (sb_settings x) else s.

(** When the CN SPDU cannot be sent it is freed, and freed again with the
    block, which still points to it. *)
Definition SAsynRetryAux1 (x : sterms) (tc : tconnect) : sess coutcome :=
  do b <~ get;
  match sb_retry b with
  | None => undefined
  | Some s =>
      let x := set_responding (SA (tc_responding tc) (sa_selectlen (sb_responding x)) (sa_selector (sb_responding x))) x in
      let b := on_transport tc b in
      exec put b;
      match own_sizes tc b with
      | None => bad_tsdu x
      | Some b =>
          exec put b;
          match put_sizes b s with
          | None => bad_tsdu x
          | Some s =>
              let s := put_units x b s in
              exec put (set_retry (Some s) b);
              do r <~ spkt2sd fresh s false;
              if r =? NOTOK then undefined
              else if has b SB_ASYNC_CONN then ret (CONNECTING_2, None, set_tc tc x)
              else SAsynRetryAux2 x tc
          end
      end
  end.

(** The connection that failed below. *)
Definition no_transport (reason : Z) (x : sterms) : sess coutcome :=
  exec ts2sslose reason;
  do si <~ get_si;
  exec freesblk ses_dn_timer false;
  ret (DONE, Some (Sc NOTOK no_ref no_sa (sa_reason si) 0 0 0 0 0 no_qos no_data), x).

(** The versions that are proposed: [sb_version] and [sb_vrsnmask]. *)
Definition propose_version (cc : Z) (qos : option QOStype) : Z * Z :=
  let required := match qos with Some q => qos_sversion q | None => 0 end in
  if required <? 0 then (SB_VRSN1, SB_ALLVRSNS)
  else if (cc >? SS_SIZE) || (required >? 1) then (SB_VRSN2, Z.shiftl 1 SB_VRSN2)
  else (SB_VRSN1, SB_ALLVRSNS).

(** The CN SPDU once the transport connection is asked for. *)
Definition cn_spkt (ref : sref) (mask isn : Z) (data : option (list Z)) (cc : Z) (s : ssapkt) : option ssapkt :=
  let s := Set_ s (ors [SMASK_CN_REF; SMASK_CN_OPT; SMASK_CN_VRSN]) in
  let s := set_num (put_cn_reference ref s) N_options CR_OPT_NULL in
  match int2u8 mask with
  | None => None
  | Some v =>
      let s := set_num s N_cn_version v in
      match (if isn =? SERIAL_NONE then Some s else put_u32 SMASK_CN_ISN N_isn isn s) with
      | None => None
      | Some s => Some (put_data data cc s)
      end
  end.

(** [answer] is that of TAsynConnRequest. Before it is called, the [goto]s
    return a [result] that was not assigned. *)
Definition SConnRequestAux (ref : sref) (calling : option saddr) (called : saddr) (requirements settings isn : Z)
    (data : option (list Z)) (cc : Z) (qos : option QOStype) (async : bool) (answer : Z + Z * tconnect) : sess coutcome :=
  do made <~ newsblk;
  if negb made then do r <~ ssaplose SC_CONGEST; ret (r, None, new_terms)
  else
    match newspkt sizeof_spkt SPDU_CN with
    | None => undefined
    | Some s =>
        do s1 <~ lift (put_nonempty_selector A_calling SMASK_CN_CALLING calling s);
        do s2 <~ lift (match s1 with Some s => put_nonempty_selector A_called SMASK_CN_CALLED (Some called) s | None => Val None end);
        match s2, int2u16 requirements, int2u8 settings with
        | Some s, Some requirements, Some settings =>
            exec update (fun b => set_requirements requirements (if async then raise SB_ASYNC_CONN b else b));
            let x := set_settings settings (set_responding called (match calling with Some c => set_initiating c new_terms | None => new_terms end)) in
            match answer with
            | inl reason => no_transport reason x
            | inr (result, tc) =>
                let '(version, mask) := propose_version cc qos in
                let x := set_vrsnmask mask (set_fd (tc_sd tc) x) in
                exec update (set_version version);
                match cn_spkt ref mask isn data cc s with
                | None => exec ssaplose SC_PARAMETER; exec freesblk ses_dn_timer (connected x); ret (result, None, x)
                | Some s =>
                    exec update (set_retry (Some s));
                    if async && ((result =? CONNECTING_1) || (result =? CONNECTING_2)) then ret (result, None, x)
                    else
                      do ' (r, sc, x) <~ SAsynRetryAux1 x tc;
                      ret (if (r =? DONE) && negb async then OK else r, sc, x)
                end
            end
        | _, _, _ => undefined
        end
    end.

#[export] Instance failure_coutcome : Failure coutcome := fun r => (r, None, new_terms).

Definition SAsynConnRequest (ref : option sref) (calling called : option saddr) (requirements settings isn : Z)
    (data : option (list Z)) (cc : Z) (qos : option QOStype) (async : bool) (answer : Z + Z * tconnect) : sess coutcome :=
  guarded [(bad_ref ref, Lose SC_PARAMETER);
           (match called with None => true | Some _ => false end, Lose SC_PARAMETER);
           (meets requirements (Z.lnot SR_MYREQUIRE), Lose SC_PARAMETER);
           (meets requirements SR_EXCEPTIONS && negb (meets requirements SR_HALFDUPLEX), Lose SC_PARAMETER);
           (bad_settings requirements settings, Lose SC_PARAMETER);
           (bad_isn requirements isn, Lose SC_PARAMETER);
           (match data with None => false | Some _ => cc >? CONNECT_MAX end, Lose SC_PARAMETER)]
    (match ref, called with
     | Some ref, Some called =>
         SConnRequestAux ref calling called requirements settings isn data (match data with None => 0 | Some _ => cc end) qos async answer
     | _, _ => undefined
     end).

(** [answer] is that of TAsynRetryRequest, if it is called. *)
Definition SAsynRetryRequest (x : sterms) (answer : Z + Z * tconnect) : sess coutcome :=
  do b <~ get;
  if has b SB_CONN then do r <~ ssaplose SC_OPERATION; ret (r, None, x)
  else if has b SB_TS_CONN then SAsynRetryAux2 x (sb_tc x)
  else
    match answer with
    | inl reason => no_transport reason (set_fd NOTOK x)
    | inr (result, tc) => if result =? DONE then SAsynRetryAux1 x tc else ret (result, None, x)
    end.

(** [answer] is that of TAsynNextRequest. *)
Definition SAsynNextRequest (x : sterms) (answer : Z + Z * tconnect) : sess coutcome :=
  do b <~ get;
  if has b SB_CONN then do r <~ ssaplose SC_OPERATION; ret (r, None, x)
  else
    exec put (lower SB_TS_CONN b);
    match answer with
    | inl reason => no_transport reason (set_fd NOTOK x)
    | inr (result, tc) => if result =? DONE then SAsynRetryAux1 x tc else ret (result, None, x)
    end.

(** ** The responder *)

(** How the connection came to this process: the state of a transport
    connection is restored from a vector of two, the transport connection is
    accepted here, or a listener has accepted it and read the CN SPDU. [inl]
    has the reason of a failure. *)
Inductive arrival : Type :=
| Restored (r : Z + tstart)
| Accepted (ts : tstart) (answer : option Z)
| Passed (reason : Z) (r : Z + tstart) (spdu : list Z).

Definition refuse_with (reason : Z) : sess (option ssapkt) :=
  exec spktlose sizeof_spkt fresh ses_ab_timer ses_rf_timer reason; ret None.

(** The CN SPDU that is read; [None] for [goto out1] and [goto out2]. *)
Definition read_CN : sess (option ssapkt) :=
  do r <~ TReadRequest;
  match r with
  | inl reason => exec ts2sslose reason; ret None
  | inr tx =>
      do ' (s, _, _) <~ read_spdu sizeof_spkt fresh (tx_qbuf tx) (tx_cc tx) 1;
      match accepted s with
      | inl reason => refuse_with (Z.lor reason SC_REFUSE)
      | inr s =>
          let req := s_num s N_cn_require in
          if negb (s_code s =? SPDU_CN) then refuse_with (Z.lor (s_errno s) SC_REFUSE)
          else if is_set s SMASK_CN_VRSN && negb (meets (s_num s N_cn_version) SB_ALLVRSNS) then refuse_with (Z.lor SC_VERSION SC_REFUSE)
          else if is_set s SMASK_CN_REQ &&
              ((meets req SR_EXCEPTIONS && negb (meets req SR_HALFDUPLEX)) || (meets req SR_CAPABILITY && negb (meets req SR_ACTIVITY))
               || negb (meets req (Z.lor SR_HALFDUPLEX SR_DUPLEX))) then refuse_with SC_PROTOCOL
          else if is_set s SMASK_CN_REQ &&
              (if meets req (ors [SR_MINORSYNC; SR_MAJORSYNC; SR_RESYNC]) then negb (meets req SR_ACTIVITY) && negb (is_set s SMASK_CN_ISN)
               else is_set s SMASK_CN_ISN) then refuse_with SC_PROTOCOL
          else ret (Some s)
      end
  end.

(** The transport connection and the CN SPDU; [None] where the block is to
    be freed, with [sb_fd]. *)
Definition meet_initiator (a : arrival) : sess (option (tstart * ssapkt) * Z) :=
  let read ts := do s <~ read_CN; ret (match s with Some s => Some (ts, s) | None => None end, ts_sd ts) in
  match a with
  | Restored (inl reason) => exec ts2sslose reason; exec ssaplose SC_PARAMETER; ret (None, NOTOK)
  | Restored (inr ts) => read ts
  | Accepted ts (Some reason) => exec ts2sslose reason; exec TDiscRequest; ret (None, NOTOK)
  | Accepted ts None => read ts
  | Passed reason r spdu =>
      let bad := exec ssaplose SC_PARAMETER; ret (None, NOTOK) in
      if negb (reason =? DR_PARAMETER) then exec ts2sslose reason; bad
      else
        match r with
        | inl reason => exec ts2sslose reason; bad
        | inr ts =>
            do s <~ (fun st => match str2spkt sizeof_spkt sizeof_qb fresh spdu (ses_buffer st) with
                               | Val (s, buffer) => Val (s, Ses (ses_sb st) (ses_gone st) (ses_si st) (ses_tp st) buffer)
                               | UB => UB
                               end);
            match s with
            | Some s => if s_errno s =? SC_ACCEPT then ret (Some (ts, s), ts_sd ts) else bad
            | None => bad
            end
        end
  end.

(** The version that is taken, and the sizes. *)
Definition cn_version_of (s : ssapkt) : Z :=
  if is_set s SMASK_CN_VRSN then if meets (s_num s N_cn_version) (Z.shiftl 1 SB_VRSN2) then SB_VRSN2 else SB_VRSN1
  else if s_ulen s >? SS_SIZE then SB_VRSN2 else SB_VRSN1.

Definition cn_sizes (s : ssapkt) (tsz : Z) (b : ssapblk) : ssapblk :=
  let init := if is_set s SMASK_CN_TSDU then s_num s N_tsdu_init else 0 in
  let resp := if is_set s SMASK_CN_TSDU then s_num s N_tsdu_resp else 0 in
  if sb_version b >=? SB_VRSN2 then set_tsdu 0 0 b
  else set_tsdu (if resp <? tsz then resp else tsz) (if init <? tsz then init else tsz) b.

(** The functional units that are indicated. *)
Definition cn_units (s : ssapkt) (expedited : Z) : Z :=
  let r := Z.land (if is_set s SMASK_CN_REQ then s_num s N_cn_require else SR_DEFAULT) SR_MYREQUIRE in
  if expedited =? 0 then u16_bic r SR_EXPEDITED else r.

(** The terms that are taken from the CN SPDU; the returns after a failure
    do not free the block. *)
Definition start_from (ts : tstart) (s : ssapkt) : sess (Z * option sstart * sterms) :=
  let x := set_fd (ts_sd ts) new_terms in
  exec update (set_version (cn_version_of s));
  exec update (fun b => if negb (ts_expedited ts =? 0) then raise SB_EXPD b else b);
  let x := if is_set s SMASK_CN_OPT then set_options (s_num s N_options) x else x in
  let isn := s_num s N_isn in
  exec update (fun b => if is_set s SMASK_CN_ISN then set_V isn isn (sb_V_R b) b else b);
  match int2u16 (GET_TSDU_SIZE (ts_tsdusize ts)) with
  | None => do r <~ ssaplose SC_PROTOCOL; ret (r, None, x)
  | Some tsz =>
      exec update (cn_sizes s tsz);
      let x := if is_set s SMASK_CN_SET then set_settings (s_num s N_settings) x else x in
      exec update (set_requirements (cn_units s (ts_expedited ts)));
      do calling <~ lift (if is_set s SMASK_CN_CALLING then take_selector s A_calling (SA (ts_calling ts) 0 (sa_selector no_sa))
                          else Val (Some (SA (ts_calling ts) 0 (sa_selector no_sa))));
      match calling with
      | None => do r <~ ssaplose SC_PROTOCOL; ret (r, None, x)
      | Some calling =>
          let x := set_initiating calling x in
          do called <~ lift (if is_set s SMASK_CN_CALLED then take_selector s A_called (SA (ts_called ts) 0 (sa_selector no_sa))
                             else Val (Some (SA (ts_called ts) 0 (sa_selector no_sa))));
          match called with
          | None => do r <~ ssaplose SC_PROTOCOL; ret (r, None, x)
          | Some called =>
              let x := set_responding called x in
              do b <~ get;
              let size := sb_tsdu_us b - SSDU_MAGIC in
              ret (OK,
                Some (Ss (sb_fd x) (if is_set s SMASK_CN_REF then cn_reference s else no_ref) calling called (sb_requirements b)
                  (if is_set s SMASK_CN_SET then s_num s N_settings else 0) (if is_set s SMASK_CN_ISN then isn else SERIAL_NONE)
                  (if size <? 0 then ts_tsdusize ts - SSDU_MAGIC else size)
                  (set_qos (sb_version b + 1) (if has b SB_EXPD then 1 else 0) (ts_qos ts)) (s_udata s, s_ulen s)), x)
          end
      end
  end.

#[export] Instance failure_start : Failure (Z * option sstart * sterms) := fun r => (r, None, new_terms).

(** [vecp] is the length of the vector, which has been read as [a]. *)
Definition SInit (vecp : Z) (a : arrival) : sess (Z * option sstart * sterms) :=
  guarded [(vecp <? 2, Lose SC_PARAMETER)]
    (do made <~ newsblk;
     if negb made then do r <~ ssaplose SC_CONGEST; ret (r, None, new_terms)
     else
       do ' (m, fd) <~ meet_initiator a;
       match m with
       | None => exec freesblk ses_dn_timer (negb (fd =? NOTOK)); ret (NOTOK, None, new_terms)
       | Some (ts, s) => start_from ts s
       end).

(** [dotoken] of SConnResponse: the block, [settings] and [please]; [inl]
    where the choice of a setting is improper. *)
Definition choose_token (proposed requires shift bit : Z) (a : ssapblk * Z * Z) : ssapblk + ssapblk * Z * Z :=
  let '(b, settings, please) := a in
  if needs b requires then
    let v := st_at proposed shift in
    let yield please := inr (b, st_put settings ST_INIT_VALUE shift, please) in
    let own := inr (take_token bit b, st_put settings ST_RESP_VALUE shift, please) in
    if v =? st_val ST_CALL_VALUE shift then
      if st_at settings shift =? st_val ST_INIT_VALUE shift then yield please
      else if st_at settings shift =? st_val ST_RESP_VALUE shift then own
      else inl b
    else if v =? st_val ST_INIT_VALUE shift then
      yield (if st_at settings shift =? st_val ST_RSVD_VALUE shift then Z.lor please bit else please)
    else if v =? st_val ST_RESP_VALUE shift then own
    else inr a
  else inr a.

Definition choose_tokens (proposed settings : Z) (b : ssapblk) : ssapblk + ssapblk * Z * Z :=
  dotokens_or (choose_token proposed) (b, settings, 0).

(** [case SC_ACCEPT]: [settings] and [please], or [None] after a failure. *)
Definition accept_terms (x : sterms) (requirements settings isn : Z) : sess (option (Z * Z)) :=
  let bad := exec ssaplose SC_PARAMETER; ret None in
  if meets requirements (Z.lnot SR_MYREQUIRE) || (meets requirements SR_HALFDUPLEX && meets requirements SR_DUPLEX)
     || (meets requirements SR_EXCEPTIONS && negb (meets requirements SR_HALFDUPLEX)) then bad
  else
    match int2u16 requirements with
    | None => bad
    | Some req =>
        exec update (fun b => set_owned 0 (set_requirements (Z.land (sb_requirements b) req) b));
        do b <~ get;
        match choose_tokens (sb_settings x) settings b with
        | inl b => exec put b; bad
        | inr (b, settings, please) =>
            exec put b;
            if bad_isn (sb_requirements b) isn then bad else ret (Some (settings, please))
        end
    end.

(** The result of refuse, and [sb_fd]. *)
Definition refuse (x : sterms) (s : ssapkt) : sess (Z * sterms) :=
  let s := set_num (Set_ s SMASK_RF_DISC) N_rf_disconnect (u8_bis (s_num s N_rf_disconnect) RF_DISC_RELEASE) in
  do b <~ get;
  do r <~ spkt2sd fresh s (has b SB_EXPD);
  if r =? NOTOK then ret (NOTOK, x)
  else
    if ses_rf_timer >=? 0 then
      do r <~ TReadRequest;
      ret (OK, match r with inl _ => set_fd NOTOK x | inr _ => x end)
    else ret (OK, x).

(** [s_rdata] of the RF SPDU: the status and the data of the user. *)
Definition rf_data (status : Z) (data : option (list Z)) (cc : Z) : cres (option (list Z)) :=
  rdata <- wr (fresh (u32 (1 + cc))) 0 [Z.land status 255];;
  if cc >? 0 then
    d <- bcopy_int data cc;;
    match d with None => Val None | Some d => rdata <- wr rdata 1 d;; Val (Some rdata) end
  else Val (Some rdata).

Definition respond_RF (x : sterms) (ref : sref) (status requirements : Z) (data : option (list Z)) (cc : Z) : sess (Z * sterms) :=
  let lost reason := exec ssaplose reason; exec freesblk ses_dn_timer (connected x); ret (NOTOK, x) in
  match newspkt sizeof_spkt SPDU_RF with
  | None => lost SC_CONGEST
  | Some s =>
      let s := set_arr (set_arr (set_arr (Set_ s SMASK_RF_REF) A_rf_user (sr_calling ref)) A_rf_comm (sr_comm ref)) A_rf_addt (sr_addt ref) in
      match (if status =? SC_REJECTED then match int2u16 requirements with Some v => Some (set_num (Set_ s SMASK_RF_REQ) N_rf_require v) | None => None end
             else Some s) with
      | None => lost SC_PARAMETER
      | Some s =>
          if malloc_ok (u32 (1 + cc)) then
            do d <~ lift (rf_data status data cc);
            match d with
            | None => lost SC_PARAMETER
            | Some d =>
                do ' (r, x) <~ refuse x (set_rdata s (Some d) (1 + cc));
                exec freesblk ses_dn_timer (connected x);
                ret (if r =? NOTOK then NOTOK else OK, x)
            end
          else lost SC_CONGEST
      end
  end.

(** The AC SPDU, but for the selector and the user data. *)
Definition ac_spkt (ref : sref) (b : ssapblk) (settings please isn : Z) (s : ssapkt) : ssapkt + Z :=
  let s := Set_ s (ors [SMASK_CN_REF; SMASK_CN_OPT; SMASK_CN_VRSN]) in
  let s := set_num (put_cn_reference ref s) N_options CR_OPT_NULL in
  match int2u8 (Z.shiftl 1 (sb_version b)) with
  | None => inr SC_PARAMETER
  | Some v =>
      let s := set_num s N_cn_version v in
      match (if isn =? SERIAL_NONE then Some s else put_u32 SMASK_CN_ISN N_isn isn s) with
      | None => inr SC_PARAMETER
      | Some s =>
          match put_sizes b s with
          | None => inr SC_PROTOCOL
          | Some s =>
              let s := set_num (Set_ s SMASK_CN_REQ) N_cn_require (sb_requirements b) in
              match (if needs b SR_TOKENS then put_u8 SMASK_CN_SET N_settings settings s else Some s) with
              | None => inr SC_PARAMETER
              | Some s => match (if please =? 0 then Some s else put_u8 SMASK_AC_TOKEN N_ac_token please s) with None => inr SC_PARAMETER | Some s => inl s end
              end
          end
      end
  end.

Definition respond_AC (x : sterms) (ref : sref) (responding : bool) (settings please isn : Z) (data : option (list Z)) (cc : Z) : sess (Z * sterms) :=
  let lost reason := exec ssaplose reason; exec freesblk ses_dn_timer (connected x); ret (NOTOK, x) in
  match newspkt sizeof_spkt SPDU_AC with
  | None => lost SC_CONGEST
  | Some s =>
      do b <~ get;
      match ac_spkt ref b settings please isn s with
      | inr reason => lost reason
      | inl s =>
          do s <~ lift (if responding then put_selector A_called SMASK_CN_CALLED (sb_responding x) s else Val (Some s));
          match s with
          | None => do r <~ ssaplose SC_PARAMETER; ret (r, x)
          | Some s =>
              do r <~ spkt2sd fresh (put_data data cc s) false;
              exec (if r =? NOTOK then freesblk ses_dn_timer (connected x) else update (raise SB_CONN));
              ret (r, x)
          end
      end
  end.

(** A call that fails before it answers leaves the block as it is. *)
Definition SConnResponse (x : sterms) (ref : option sref) (responding : option saddr) (status requirements settings isn : Z)
    (data : option (list Z)) (cc : Z) : sess (Z * sterms) :=
  let bad x := do r <~ ssaplose SC_PARAMETER; ret (r, x) in
  do b <~ get;
  if has b SB_CONN || bad_ref ref then bad x
  else
    let x := match responding with Some a => set_responding a x | None => x end in
    do terms <~
      (if status =? SC_ACCEPT then accept_terms x requirements settings isn
       else if (status =? SC_NOTSPECIFIED) || (status =? SC_CONGESTION) || (status =? SC_REJECTED) then ret (Some (settings, 0))
       else exec ssaplose SC_PARAMETER; ret None);
    match terms, ref with
    | Some (settings, please), Some ref =>
        let cc := match data with None => 0 | Some _ => cc end in
        if match data with None => false | Some _ => cc >? (if sb_version b <? SB_VRSN2 then SC_SIZE else ENCLOSE_MAX) end then bad x
        else if negb (status =? SC_ACCEPT) then respond_RF x ref status requirements data cc
        else respond_AC x ref (match responding with Some _ => true | None => false end) settings please isn data cc
    | None, _ => ret (NOTOK, x)
    | _, None => undefined
    end.
End Connection.
