(* ===== verification/SconnAgree.v ===== *)
(** * ssap: two users that connect agree

    The CN SPDU of the initiator, as the responder takes it, the AC SPDU of
    the responder, as the initiator takes it, and the two sessions they
    leave. *)

From S2P Require Import Prelude Conv Convert PElement PStream Qbuf Tpkt Tpkt2fd Tcp Tp0 Tp0Conn Transfer Spkt Spkt2tsdu Tsdu2spkt Spdu Ssap Sreq Sread Swrite Ssdu Session Message Peers StrSpkt Sconn.
Open Scope Z_scope.
Open Scope c_scope.
Open Scope ses_scope.

(** ** What the users say *)

Section Users.
Context {T : Type}.

Record offer : Type := Offer {
  o_ref : sref; o_calling : option (SSAPaddr T); o_called : SSAPaddr T; o_requirements : Z; o_settings : Z; o_isn : Z;
  o_data : option (list Z); o_cc : Z; o_qos : option QOStype
}.

Record reply_to : Type := Answer {
  a_ref : sref; a_responding : option (SSAPaddr T); a_requirements : Z; a_settings : Z; a_isn : Z; a_data : option (list Z); a_cc : Z
}.

Definition selector_ok (a : SSAPaddr T) : Prop := counted_ok A_called (Cnt (sa_selectlen a) (sa_selector a)).
Definition maybe_selector (a : option (SSAPaddr T)) : Prop := match a with Some a => selector_ok a | None => True end.

Definition ref_ok (r : sref) : Prop :=
  counted_ok A_cn_user (sr_calling r) /\ counted_ok A_cn_comm (sr_comm r) /\ counted_ok A_cn_addt (sr_addt r) /\ c_len (sr_called r) = 0.

(** User data of at most [limit] octets. *)
Definition within (limit : Z) (d : option (list Z)) (cc : Z) : Prop :=
  match d with Some d => 0 <= cc <= limit /\ (0 < cc -> cc <= zlen d /\ bytes d) | None => True end.

Definition data_of (d : option (list Z)) (cc : Z) : list Z := match d with Some d => ztake cc d | None => [] end.

(** An offer that SAsynConnRequest takes. *)
Record offer_ok (o : offer) : Prop := {
  of_ref : ref_ok (o_ref o);
  of_calling : maybe_selector (o_calling o);
  of_called : selector_ok (o_called o);
  of_units : meets (o_requirements o) (Z.lnot SR_MYREQUIRE) = false;
  of_exceptions : meets (o_requirements o) SR_EXCEPTIONS && negb (meets (o_requirements o) SR_HALFDUPLEX) = false;
  of_settings : bad_settings (o_requirements o) (o_settings o) = false;
  of_byte : is_byte (o_settings o);
  of_isn : bad_isn (o_requirements o) (o_isn o) = false;
  of_data : within CONNECT_MAX (o_data o) (o_cc o)
}.
End Users.
Arguments offer T : clear implicits.
Arguments reply_to T : clear implicits.

(** ** Packets *)

Section Packets.
Context {T : Type}.

Definition with_selector (a : sarr) (flag : Z) (sa : SSAPaddr T) (s : ssapkt) : ssapkt :=
  set_arr (Set_ s flag) a (Cnt (sa_selectlen sa) (ztake (sa_selectlen sa) (sa_selector sa) ++ zdrop (sa_selectlen sa) (c_data (s_arr s a)))).

Definition with_nonempty (a : sarr) (flag : Z) (sa : option (SSAPaddr T)) (s : ssapkt) : ssapkt :=
  match sa with Some sa => if sa_selectlen sa >? 0 then with_selector a flag sa s else s | None => s end.

Definition with_isn (isn : Z) (s : ssapkt) : ssapkt := if isn =? SERIAL_NONE then s else set_num (Set_ s SMASK_CN_ISN) N_isn isn.

Definition with_sizes (resp init : Z) (s : ssapkt) : ssapkt :=
  if negb (resp =? 0) || negb (init =? 0) then set_num (set_num (Set_ s SMASK_CN_TSDU) N_tsdu_resp resp) N_tsdu_init init else s.

Definition with_units (units settings : Z) (s : ssapkt) : ssapkt :=
  let s := set_num (Set_ s SMASK_CN_REQ) N_cn_require units in
  if meets units SR_TOKENS then set_num (Set_ s SMASK_CN_SET) N_settings settings else s.

(** The reference, the options and the version. *)
Definition with_terms (r : sref) (version : Z) (s : ssapkt) : ssapkt :=
  set_num (set_num (put_cn_reference r (Set_ s (ors [SMASK_CN_REF; SMASK_CN_OPT; SMASK_CN_VRSN]))) N_options CR_OPT_NULL) N_cn_version version.

(** The functional units that are proposed on a transport connection. *)
Definition units_on (expedited requirements : Z) : Z := if negb (expedited =? 0) then requirements else u16_bic requirements SR_EXPEDITED.

Definition o_count (o : offer T) : Z := match o_data o with None => 0 | Some _ => o_cc o end.
Definition a_count (a : reply_to T) : Z := match a_data a with None => 0 | Some _ => a_cc a end.
Definition o_version (o : offer T) : Z := fst (propose_version (o_count o) (o_qos o)).
Definition o_mask (o : offer T) : Z := snd (propose_version (o_count o) (o_qos o)).

(** The size that is proposed: none for version 2 alone. *)
Definition o_size (o : offer T) (tc : TSAPconnect T) : Z := if o_version o <? SB_VRSN2 then GET_TSDU_SIZE (tc_tsdusize tc) else 0.

(** The CN SPDU when it is kept, and when it is sent. *)
Definition cn_kept (o : offer T) : ssapkt :=
  put_data (o_data o) (o_count o) (with_isn (o_isn o) (with_terms (o_ref o) (o_mask o)
    (with_nonempty A_called SMASK_CN_CALLED (Some (o_called o)) (with_nonempty A_calling SMASK_CN_CALLING (o_calling o) (new_spkt SPDU_CN))))).

Definition cn_packet (o : offer T) (tc : TSAPconnect T) : ssapkt :=
  with_units (units_on (tc_expedited tc) (o_requirements o)) (o_settings o) (with_sizes (o_size o tc) (o_size o tc) (cn_kept o)).
End Packets.

(** ** Steps *)

Section Steps.
Context `{Allocator} (sizeof_spkt sizeof_qb sizeof_ssapblk : Z) (fresh : Z -> list Z).
Hypothesis Mem : memory_ok.
Hypothesis Fresh : forall n, 0 <= n -> zlen (fresh n) = n.
Variables ses_ab_timer ses_dn_timer ses_rf_timer : Z.
Variable char_signed : bool.
Context {T : Type} (no_ta : T).

Lemma put_selector_ok a flag (sa : SSAPaddr T) s : sarr_size a = 64 -> selector_ok sa -> counted_ok a (s_arr s a) ->
  put_selector a flag sa s = Val (Some (with_selector a flag sa s)).
Proof.
  intros Sz (L & Zs & B) (_ & Za & _); cbn [c_len c_data sarr_size] in *; rewrite Sz in Za; unfold SREF_USER_SIZE in *; unfold put_selector.
  assert (E : bcopy_int (Some (sa_selector sa)) (sa_selectlen sa) = Val (Some (ztake (sa_selectlen sa) (sa_selector sa)))).
  { pose proof (bcopy_whole (ztake (sa_selectlen sa) (sa_selector sa)) (zdrop (sa_selectlen sa) (sa_selector sa))) as W.
    rewrite ztake_zdrop, zlen_ztake in W by lia; apply W; unfold is_int, INT_MIN, INT_MAX; lia. }
  rewrite E; cbn [cbind]; pose proof (wr_prefix (c_data (s_arr s a)) (ztake (sa_selectlen sa) (sa_selector sa))) as W; rewrite zlen_ztake in W by lia.
  rewrite W by lia; reflexivity.
Qed.

Lemma with_selector_ok a flag (sa : SSAPaddr T) s : sarr_size a = 64 -> selector_ok sa -> spkt_ok s -> spkt_ok (with_selector a flag sa s).
Proof.
  intros Sz (L & Zs & B) O; destruct (ok_arr s O a) as (_ & Za & Ba); cbn [c_len c_data sarr_size] in *; rewrite Sz in Za; unfold SREF_USER_SIZE in *.
  apply ok_set_arr; [apply ok_Set, O|]; split; [rewrite Sz; exact L|]; cbn [c_data]; split.
  - rewrite zlen_app, zlen_ztake, zlen_zdrop, Sz by lia; lia.
  - apply bytes_app; split; [apply Forall_ztake, B | apply Forall_zdrop, Ba].
Qed.

Lemma with_nonempty_ok a flag sa s : sarr_size a = 64 -> maybe_selector sa -> spkt_ok s -> spkt_ok (with_nonempty (T := T) a flag sa s).
Proof. intros; unfold with_nonempty; destruct sa as [sa|]; [destruct (_ >? 0); [apply with_selector_ok|]|]; assumption. Qed.

Lemma put_nonempty_ok a flag sa s : sarr_size a = 64 -> maybe_selector sa -> spkt_ok s ->
  put_nonempty_selector a flag sa s = Val (Some (with_nonempty (T := T) a flag sa s)).
Proof.
  intros Sz M O; unfold put_nonempty_selector, with_nonempty; destruct sa as [sa|]; [destruct (_ >? 0)|]; [apply put_selector_ok|..]; auto.
  apply (ok_arr s O).
Qed.

Lemma put_u32_isn isn s : isn <> SERIAL_NONE -> SERIAL_MIN <= isn <= SERIAL_MAX + 1 -> put_u32 SMASK_CN_ISN N_isn isn s = Some (set_num (Set_ s SMASK_CN_ISN) N_isn isn).
Proof.
  intros N (L & U); unfold put_u32, SERIAL_MIN, SERIAL_MAX, UINT32_MAX in *; rewrite Z.gtb_ltb, (proj2 (Z.ltb_ge _ _)), (proj2 (Z.ltb_ge _ _)) by lia; reflexivity.
Qed.

Lemma bad_isn_range r isn : bad_isn r isn = false -> isn = SERIAL_NONE \/ SERIAL_MIN <= isn <= SERIAL_MAX + 1.
Proof.
  unfold bad_isn; rewrite Z.gtb_ltb; destruct (Z.eqb_spec isn SERIAL_NONE) as [|N]; [auto|]; cbn [negb]; rewrite orb_true_r; destruct (meets _ _); [|discriminate].
  cbn [andb]; intros E; apply orb_false_iff in E as (E1 & E2); rewrite Z.gtb_ltb in E2; apply Z.ltb_ge in E1, E2; auto.
Qed.

Lemma with_isn_ok r isn s : bad_isn r isn = false -> (if isn =? SERIAL_NONE then Some s else put_u32 SMASK_CN_ISN N_isn isn s) = Some (with_isn isn s).
Proof.
  intros B; unfold with_isn; destruct (Z.eqb_spec isn SERIAL_NONE); [reflexivity|]; destruct (bad_isn_range _ _ B) as [|R]; [contradiction | apply put_u32_isn; assumption].
Qed.

Lemma propose_values cc qos : propose_version cc qos = (SB_VRSN1, SB_ALLVRSNS) \/ propose_version cc qos = (SB_VRSN2, 2).
Proof. unfold propose_version; cbv zeta; destruct (_ <? 0); [auto|]; destruct (_ || _); auto. Qed.

Lemma cn_spkt_ok (o : offer T) s : offer_ok o -> cn_spkt (o_ref o) (o_mask o) (o_isn o) (o_data o) (o_count o) s =
  Some (put_data (o_data o) (o_count o) (with_isn (o_isn o) (with_terms (o_ref o) (o_mask o) s))).
Proof.
  intros O; unfold cn_spkt; assert (M : is_byte (o_mask o)) by (unfold o_mask; destruct (propose_values (o_count o) (o_qos o)) as [-> | ->]; split; discriminate || reflexivity).
  rewrite int2u8_Some by exact M; fold (with_terms (o_ref o) (o_mask o) s); rewrite (with_isn_ok _ _ _ (of_isn o O)); reflexivity.
Qed.

(** ** The CN SPDU is sent *)

Lemma units_among r : meets r (Z.lnot SR_MYREQUIRE) = false -> among r SR_MYREQUIRE.
Proof.
  intros M; rewrite meets_none in M; intros n N B; destruct (Z.testbit SR_MYREQUIRE n) eqn:E; [reflexivity|].
  destruct (M n N B); rewrite Z.lnot_spec, E by exact N; reflexivity.
Qed.

Lemma among_range k v w : 0 <= k -> among v w -> 0 <= w < 2 ^ k -> 0 <= v < 2 ^ k.
Proof.
  intros K A W; assert (E : v mod 2 ^ k = v); [|rewrite <- E; apply Z.mod_pos_bound; lia].
  apply Z.bits_inj'; intros n N; destruct (Z.ltb_spec n k); [apply Z.mod_pow2_bits_low; lia|]; rewrite Z.mod_pow2_bits_high by lia.
  destruct (Z.testbit v n) eqn:B; [|reflexivity]; rewrite <- (A n N B), <- (Z.mod_small w (2 ^ k)) by exact W; symmetry; apply Z.mod_pow2_bits_high; lia.
Qed.

Lemma u16_bic_ldiff v b : 0 <= v < 65536 -> 0 <= b < 65536 -> u16_bic v b = Z.ldiff v b.
Proof.
  intros V B; apply Z.bits_inj'; intros n N; unfold u16_bic, cast; cbn [ct_signed ct_width UINT USHORT]; change 65536 with (2 ^ 16) in *; rewrite Z.ldiff_spec.
  assert (Hi : 16 <= n -> Z.testbit v n = false) by (intros H'; rewrite <- (Z.mod_small v (2 ^ 16)) by exact V; apply Z.mod_pow2_bits_high; lia).
  destruct (Z.ltb_spec n 16); [|rewrite Z.mod_pow2_bits_high, Hi by lia; reflexivity].
  rewrite Z.mod_pow2_bits_low, Z.land_spec, Z.mod_pow2_bits_low, Z.lnot_spec by lia; reflexivity.
Qed.

Lemma among_ldiff v b : among (Z.ldiff v b) v.
Proof. intros n N; rewrite Z.ldiff_spec; intros E; apply andb_true_iff in E; tauto. Qed.

Lemma units_on_among e r : among r SR_MYREQUIRE -> among (units_on e r) r.
Proof.
  intros A; unfold units_on; destruct (e =? 0); cbn [negb]; [|apply among_refl].
  rewrite u16_bic_ldiff; [apply among_ldiff | apply (among_range 16 _ _ ltac:(discriminate) A); split; [discriminate | reflexivity] | split; [discriminate | reflexivity]].
Qed.

Lemma units_range r : among r SR_MYREQUIRE -> 0 <= r < 65536.
Proof. intros A; apply (among_range 16 _ _ ltac:(discriminate) A); split; [discriminate | reflexivity]. Qed.

Lemma within_fits limit d cc : limit <= SEGMENT_MAX -> within limit d cc -> 0 < match d with None => 0 | Some _ => cc end -> data_fits d (match d with None => 0 | Some _ => cc end).
Proof. destruct d as [d|]; [|lia]; intros L ((C & C') & W) P; destruct (W P); split; [lia | auto]. Qed.

Lemma with_terms_ok r v s : ref_ok r -> is_byte v -> spkt_ok s -> spkt_ok (with_terms r v s).
Proof.
  intros (R1 & R2 & R3 & _) V O; unfold with_terms, put_cn_reference; apply ok_set_num; [|exact V]; apply ok_set_num; [|split; [discriminate | reflexivity]].
  apply ok_set_arr; [apply ok_set_arr; [apply ok_set_arr; [apply ok_Set, O | exact R1] | exact R2] | exact R3].
Qed.

Lemma with_isn_spkt r isn s : bad_isn r isn = false -> spkt_ok s -> spkt_ok (with_isn isn s).
Proof.
  intros B O; unfold with_isn; destruct (Z.eqb_spec isn SERIAL_NONE); [exact O|]; apply ok_set_num; [apply ok_Set, O|].
  destruct (bad_isn_range _ _ B) as [|R]; [contradiction|]; cbn [num_bound]; unfold SERIAL_MIN in R; lia.
Qed.

Lemma with_sizes_ok resp init s : 0 <= resp < 32768 -> 0 <= init < 32768 -> spkt_ok s -> spkt_ok (with_sizes resp init s).
Proof.
  intros R I O; unfold with_sizes; destruct (_ || _); [|exact O]; apply ok_set_num; [apply ok_set_num; [apply ok_Set, O|]|]; cbn [num_bound]; lia.
Qed.

Lemma with_units_ok units settings s : 0 <= units < 65536 -> is_byte settings -> spkt_ok s -> spkt_ok (with_units units settings s).
Proof.
  intros U B O; unfold with_units; destruct (meets _ _); [apply ok_set_num; [apply ok_Set|exact B]|]; (apply ok_set_num; [apply ok_Set, O | exact U]).
Qed.

Lemma o_mask_byte (o : offer T) : is_byte (o_mask o).
Proof. unfold o_mask; destruct (propose_values (o_count o) (o_qos o)) as [-> | ->]; split; discriminate || reflexivity. Qed.

Lemma get_size_range n : n < 32768 -> 0 <= GET_TSDU_SIZE n < 32768.
Proof. intros N; unfold GET_TSDU_SIZE, DT_MINSIZE; destruct (Z.ltb_spec n 64); lia. Qed.

Lemma o_size_range (o : offer T) tc : tc_tsdusize tc < 32768 -> 0 <= o_size o tc < 32768.
Proof. intros N; unfold o_size; destruct (_ <? _); [apply get_size_range, N | lia]. Qed.

Lemma cn_kept_ok (o : offer T) : offer_ok o -> spkt_ok (cn_kept o).
Proof.
  intros O; unfold cn_kept; apply ok_put_data; [|exact (within_fits CONNECT_MAX _ _ ltac:(discriminate) (of_data o O))]; apply (with_isn_spkt _ _ _ (of_isn o O)).
  apply with_terms_ok; [apply of_ref, O | apply o_mask_byte|]; apply with_nonempty_ok; [reflexivity | apply of_called, O|].
  apply with_nonempty_ok; [reflexivity | apply of_calling, O | apply ok_new].
Qed.

Lemma cn_packet_ok (o : offer T) tc : offer_ok o -> tc_tsdusize tc < 32768 -> spkt_ok (cn_packet o tc).
Proof.
  intros O N; pose proof (units_among _ (of_units o O)) as A; apply with_units_ok; [|apply of_byte, O|].
  - apply units_range; eapply among_trans; [apply units_on_among, A | exact A].
  - apply with_sizes_ok; try apply o_size_range, N; apply cn_kept_ok, O.
Qed.

End Steps.

(** ** The fields of the packets *)

Section Fields.
Context {T : Type}.

Definition nonempty (a : option (SSAPaddr T)) : bool := match a with Some a => sa_selectlen a >? 0 | None => false end.

Definition sized (n : Z) : bool := negb (n =? 0).

(** What is in every packet of the connection: CN and AC. *)
Record connect_fields (r : sref) (mask isn size units settings : Z) (calling called : bool) (s : ssapkt) : Prop := {
  cf_ref : is_set s SMASK_CN_REF = true /\ s_arr s A_cn_user = sr_calling r /\ s_arr s A_cn_comm = sr_comm r /\ s_arr s A_cn_addt = sr_addt r;
  cf_opt : is_set s SMASK_CN_OPT = true /\ s_num s N_options = 0;
  cf_vrsn : is_set s SMASK_CN_VRSN = true /\ s_num s N_cn_version = mask;
  cf_isn : is_set s SMASK_CN_ISN = negb (isn =? SERIAL_NONE) /\ ((isn =? SERIAL_NONE) = false -> s_num s N_isn = isn);
  cf_tsdu : is_set s SMASK_CN_TSDU = sized size /\ (sized size = true -> s_num s N_tsdu_init = size /\ s_num s N_tsdu_resp = size);
  cf_req : is_set s SMASK_CN_REQ = true /\ s_num s N_cn_require = units;
  cf_set : is_set s SMASK_CN_SET = meets units SR_TOKENS /\ (meets units SR_TOKENS = true -> s_num s N_settings = settings);
  cf_calling : is_set s SMASK_CN_CALLING = calling;
  cf_called : is_set s SMASK_CN_CALLED = called
}.

Lemma cn_packet_fields (o : offer T) tc : let u := units_on (tc_expedited tc) (o_requirements o) in
  s_code (cn_packet o tc) = SPDU_CN /\
  connect_fields (o_ref o) (o_mask o) (o_isn o) (o_size o tc) u (o_settings o) (nonempty (o_calling o)) (nonempty (Some (o_called o))) (cn_packet o tc) /\
  is_set (cn_packet o tc) SMASK_AC_TOKEN = false.
Proof.
  intros u; unfold cn_packet, cn_kept; fold u; generalize (o_size o tc) (o_mask o) u (o_count o); intros size mask v cc; clear u.
  unfold with_units, with_sizes, put_data, with_isn, with_terms, with_nonempty, with_selector, nonempty, put_cn_reference; fold (sized size).
  destruct (o_calling o) as [c|]; [destruct (sa_selectlen c >? 0) eqn:E1|]; destruct (sa_selectlen (o_called o) >? 0) eqn:E2, (sized size) eqn:E3,
    (o_isn o =? SERIAL_NONE) eqn:E4, (meets v SR_TOKENS) eqn:E5, (cc >? 0); cbn [orb].
  all: split; [reflexivity|]; split; [|reflexivity]; split; rewrite ?E1, ?E2, ?E3, ?E4, ?E5; (split || idtac); intros; try discriminate; repeat split; reflexivity.
Qed.
End Fields.

(** * The CN SPDU goes out *)

Section Ask.
Context `{Allocator} (sizeof_spkt sizeof_qb sizeof_ssapblk : Z) (fresh : Z -> list Z).
Hypothesis Mem : memory_ok.
Hypothesis Fresh : forall n, 0 <= n -> zlen (fresh n) = n.
Variables ses_ab_timer ses_dn_timer ses_rf_timer : Z.
Variable char_signed : bool.
Context {T : Type} (no_ta : T).

(** The block while the answer is waited for. *)
Definition asked_block (o : offer T) (tc : TSAPconnect T) : ssapblk :=
  SBlk (o_version o) (ors [SB_ASYNC_CONN; SB_TS_CONN; if tc_expedited tc =? 0 then 0 else SB_EXPD]) (Some (cn_packet o tc)) 0 0 0 0 0 0 SPDU_PR None None [] 0 0
    (o_size o tc) (o_size o tc) 0 (units_on (tc_expedited tc) (o_requirements o)).

Definition asked_terms (o : offer T) (tc : TSAPconnect T) : terms T :=
  Terms (tc_sd tc) (o_mask o) 0 (o_settings o) (match o_calling o with Some c => c | None => no_sa no_ta end)
    (SA (tc_responding tc) (sa_selectlen (o_called o)) (sa_selector (o_called o))) tc.

(** A session that has a block, and nothing else than another one has. *)
Definition with_block (b : ssapblk) (st : session) : session := Ses b false (ses_si st) (ses_tp st) (ses_buffer st).

Lemma get_size_twice n : GET_TSDU_SIZE (GET_TSDU_SIZE n) = GET_TSDU_SIZE n.
Proof. unfold GET_TSDU_SIZE, DT_MINSIZE; destruct (Z.ltb_spec n 64); [reflexivity|]; destruct (Z.ltb_spec n 64); [lia | reflexivity]. Qed.

Lemma o_size_twice (o : offer T) tc : GET_TSDU_SIZE (o_size o tc) = o_size o tc.
Proof. unfold o_size; destruct (_ <? _); [apply get_size_twice | reflexivity]. Qed.

Definition kept_block (o : offer T) : ssapblk :=
  SBlk (o_version o) SB_ASYNC_CONN (Some (cn_kept o)) 0 0 0 0 0 0 SPDU_PR None None [] 0 0 0 0 0 (o_requirements o).

Lemma own_sizes_ok (o : offer T) tc : offer_ok o -> tc_tsdusize tc < 32768 ->
  exists b, own_sizes tc (on_transport tc (kept_block o)) = Some b /\ set_retry (Some (cn_packet o tc)) b = asked_block o tc.
Proof.
  intros O N; pose proof (get_size_range _ N) as Sg; unfold own_sizes, asked_block, units_on, on_transport, o_size.
  destruct (tc_expedited tc =? 0); cbn [negb sb_version raise set_flags set_requirements kept_block sb_flags sb_requirements].
  all: destruct (o_version o <? SB_VRSN2); [rewrite int2u16_Some by lia|]; (eexists; split; [reflexivity|]; reflexivity).
Qed.

Lemma put_sizes_ok b s : 0 <= sb_tsdu_us b < 65536 -> 0 <= sb_tsdu_them b < 65536 -> GET_TSDU_SIZE (sb_tsdu_us b) = sb_tsdu_us b -> GET_TSDU_SIZE (sb_tsdu_them b) = sb_tsdu_them b ->
  put_sizes b s = Some (with_sizes (sb_tsdu_us b) (sb_tsdu_them b) s).
Proof. intros U M Eu Em; unfold put_sizes, with_sizes; rewrite Eu, Em, !int2u16_Some by assumption; destruct (_ || _); reflexivity. Qed.

Lemma SAsynRetryAux1_ok (o : offer T) tc x st : offer_ok o -> tc_tsdusize tc < 32768 -> in_room fresh (cn_packet o tc) -> granting (ses_tp st) -> sb_settings x = o_settings o ->
  SAsynRetryAux1 sizeof_spkt fresh ses_ab_timer ses_dn_timer ses_rf_timer char_signed no_ta x tc (with_block (kept_block o) st) =
  Val ((CONNECTING_2, None, set_tc tc (set_responding (SA (tc_responding tc) (sa_selectlen (sb_responding x)) (sa_selector (sb_responding x))) x)),
       add_sent [(false, enc (cn_packet o tc))] (with_block (asked_block o tc) st)).
Proof.
  intros O N R G Xs; pose proof (o_size_range o tc N) as Sz; pose proof (o_size_twice o tc) as Tw; pose proof (cn_packet_fields o tc) as (Cc & _).
  unfold SAsynRetryAux1, bind, get, put, with_block; cbn [ses_gone ses_sb ses_si ses_tp ses_buffer kept_block sb_retry]; fold (kept_block o).
  destruct (own_sizes_ok o tc O N) as (b & -> & Eb); cbn [ses_gone ses_si ses_tp ses_buffer].
  assert (Ub : sb_tsdu_us b = o_size o tc /\ sb_tsdu_them b = o_size o tc /\ sb_requirements b = units_on (tc_expedited tc) (o_requirements o) /\ sb_flags b = sb_flags (asked_block o tc)).
  { pose proof (f_equal sb_tsdu_us Eb) as F1; pose proof (f_equal sb_tsdu_them Eb) as F2; pose proof (f_equal sb_requirements Eb) as F3; pose proof (f_equal sb_flags Eb) as F4; destruct b; auto. }
  destruct Ub as (U1 & U2 & U3 & U4); rewrite put_sizes_ok by (rewrite ?U1, ?U2; lia || assumption); rewrite U1, U2; cbn [ses_gone ses_si ses_tp ses_buffer].
  match goal with |- context [put_units ?x ?b ?s] => change (put_units x b s) with (if needs b SR_TOKENS then set_num (Set_ (set_num (Set_ s SMASK_CN_REQ) N_cn_require (sb_requirements b)) SMASK_CN_SET) N_settings (sb_settings x)
    else set_num (Set_ s SMASK_CN_REQ) N_cn_require (sb_requirements b)) end.
  cbn [sb_settings set_responding]; unfold needs; rewrite U3, Xs; fold (with_units (units_on (tc_expedited tc) (o_requirements o)) (o_settings o) (with_sizes (o_size o tc) (o_size o tc) (cn_kept o))).
  fold (cn_packet o tc); rewrite Eb.
  rewrite (spkt2sd_ok fresh Mem Fresh); [|exact (cn_packet_ok o tc O N) | unfold complete; rewrite Cc; reflexivity | exact R | rewrite Cc; reflexivity | exact G].
  unfold has; rewrite U4; replace (meets (sb_flags (asked_block o tc)) SB_ASYNC_CONN) with true by (unfold asked_block; cbn [sb_flags]; destruct (tc_expedited tc =? 0); reflexivity).
  reflexivity.
Qed.

(** The request of the initiator, on a transport connection that is made at
    once. *)
Definition asks_connect (o : offer T) (answer : Z + Z * TSAPconnect T) : sess (coutcome (TSAPaddr := T)) :=
  SAsynConnRequest sizeof_spkt sizeof_ssapblk fresh ses_ab_timer ses_dn_timer ses_rf_timer char_signed no_ta
    (Some (o_ref o)) (o_calling o) (Some (o_called o)) (o_requirements o) (o_settings o) (o_isn o) (o_data o) (o_cc o) (o_qos o) true answer.

Lemma ref_taken r : ref_ok r -> bad_ref (Some r) = false.
Proof.
  intros ((R1 & _) & (R2 & _) & (R3 & _) & R4); cbn [sarr_size] in *; unfold bad_ref; rewrite R4, !Z.gtb_ltb; change (SREF_USER_SIZE <? 0) with false.
  unfold SREF_USER_SIZE, SREF_COMM_SIZE in *; rewrite (proj2 (Z.ltb_ge 64 _)), (proj2 (Z.ltb_ge 64 (c_len (sr_comm r)))), (proj2 (Z.ltb_ge SREF_ADDT_SIZE _)) by lia; reflexivity.
Qed.

Lemma offer_taken (o : offer T) : offer_ok o ->
  check [(bad_ref (Some (o_ref o)), Lose SC_PARAMETER); (match Some (o_called o) with None => true | Some _ => false end, Lose SC_PARAMETER);
    (meets (o_requirements o) (Z.lnot SR_MYREQUIRE), Lose SC_PARAMETER);
    (meets (o_requirements o) SR_EXCEPTIONS && negb (meets (o_requirements o) SR_HALFDUPLEX), Lose SC_PARAMETER);
    (bad_settings (o_requirements o) (o_settings o), Lose SC_PARAMETER); (bad_isn (o_requirements o) (o_isn o), Lose SC_PARAMETER);
    (match o_data o with None => false | Some _ => o_cc o >? CONNECT_MAX end, Lose SC_PARAMETER)] = None.
Proof.
  intros O; cbn [check]; rewrite (ref_taken _ (of_ref o O)), (of_units o O), (of_exceptions o O), (of_settings o O), (of_isn o O).
  pose proof (of_data o O) as D; destruct (o_data o); [|reflexivity]; destruct D as (D & _); rewrite Z.gtb_ltb, (proj2 (Z.ltb_ge _ _)) by lia; reflexivity.
Qed.

Lemma asks_connect_ok (o : offer T) tc result st : offer_ok o -> tc_tsdusize tc < 32768 -> in_room fresh (cn_packet o tc) -> granting (ses_tp st) ->
  result <> CONNECTING_1 -> result <> CONNECTING_2 ->
  asks_connect o (inr (result, tc)) st = Val ((CONNECTING_2, None, asked_terms o tc), add_sent [(false, enc (cn_packet o tc))] (with_block (asked_block o tc) st)).
Proof.
  intros O N R G R1 R2; pose proof (units_among _ (of_units o O)) as A; unfold asks_connect, SAsynConnRequest, guarded; rewrite (offer_taken o O).
  unfold SConnRequestAux, newsblk, bind at 1; rewrite Mem; cbn [negb]; rewrite (newspkt_ok sizeof_spkt Mem) by (split; [discriminate | reflexivity]).
  unfold lift, bind at 1; rewrite put_nonempty_ok by (first [reflexivity | exact (of_calling o O) | apply ok_new]); unfold bind at 1.
  rewrite put_nonempty_ok by (first [reflexivity | exact (of_called o O) | apply with_nonempty_ok; first [reflexivity | exact (of_calling o O) | apply ok_new]]).
  rewrite int2u16_Some by (apply units_range, A); rewrite int2u8_Some by apply of_byte, O.
  unfold bind at 1, update, put; cbn [ses_gone ses_sb ses_si ses_tp ses_buffer].
  change (match o_data o with Some _ => o_cc o | None => 0 end) with (o_count o); rewrite (surjective_pairing (propose_version (o_count o) (o_qos o))).
  fold (o_version o) (o_mask o); unfold bind at 1; cbn [ses_gone ses_sb ses_si ses_tp ses_buffer]; rewrite cn_spkt_ok by exact O; fold (cn_kept o).
  unfold bind at 1; cbn [ses_gone ses_sb ses_si ses_tp ses_buffer andb]; rewrite (proj2 (Z.eqb_neq _ _) R1), (proj2 (Z.eqb_neq _ _) R2); cbn [orb].
  match goal with |- bind ?m _ (Ses ?b _ _ _ _) = _ => change b with (kept_block o) end.
  pose proof (SAsynRetryAux1_ok o tc (set_vrsnmask (o_mask o) (set_fd (tc_sd tc)
    (set_settings (o_settings o) (set_responding (o_called o) (match o_calling o with Some c => set_initiating c (new_terms no_ta) | None => new_terms no_ta end))))) st O N R G) as E.
  unfold with_block at 1 in E; unfold bind; rewrite E by (destruct (o_calling o); reflexivity); unfold asked_terms; destruct (o_calling o); reflexivity.
Qed.
End Ask.

(** * What is received *)

Definition connect_code (s : ssapkt) : Prop := s_code s = SPDU_CN \/ s_code s = SPDU_AC.

Definition octets (c : counted) : list Z := ztake (c_len c) (c_data c).

Lemma connect_num s s' flag f : connect_code s -> same_spdu s s' ->
  In (flag, f) [(SMASK_CN_OPT, N_options); (SMASK_CN_TSDU, N_tsdu_init); (SMASK_CN_TSDU, N_tsdu_resp); (SMASK_CN_VRSN, N_cn_version); (SMASK_CN_ISN, N_isn);
      (SMASK_CN_SET, N_settings); (SMASK_CN_REQ, N_cn_require)] ->
  is_set s' flag = is_set s flag /\ (is_set s flag = true -> s_num s' f = s_num s f).
Proof.
  intros C Sm I; apply (same_num s s' Sm); unfold num_fields; apply in_or_app; left; destruct C as [-> | ->]; codes; apply in_or_app; left; exact I.
Qed.

Lemma connect_arr s s' flag a : connect_code s -> same_spdu s s' ->
  In (flag, a) [(SMASK_CN_REF, A_cn_user); (SMASK_CN_REF, A_cn_comm); (SMASK_CN_REF, A_cn_addt); (SMASK_CN_CALLING, A_calling); (SMASK_CN_CALLED, A_called)] ->
  is_set s' flag = is_set s flag /\ (is_set s flag = true -> octets (s_arr s' a) = octets (s_arr s a)).
Proof. intros C Sm I; apply (same_arr s s' Sm); unfold arr_fields; destruct C as [-> | ->]; codes; exact I. Qed.

(** A CN or AC SPDU that was received. *)
Record received (r : sref) (mask isn size units settings : Z) (calling called : bool) (s : ssapkt) : Prop := {
  rc_ref : is_set s SMASK_CN_REF = true /\ octets (s_arr s A_cn_user) = octets (sr_calling r) /\ octets (s_arr s A_cn_comm) = octets (sr_comm r) /\
    octets (s_arr s A_cn_addt) = octets (sr_addt r);
  rc_opt : is_set s SMASK_CN_OPT = true /\ s_num s N_options = 0;
  rc_vrsn : is_set s SMASK_CN_VRSN = true /\ s_num s N_cn_version = mask;
  rc_isn : is_set s SMASK_CN_ISN = negb (isn =? SERIAL_NONE) /\ ((isn =? SERIAL_NONE) = false -> s_num s N_isn = isn);
  rc_tsdu : is_set s SMASK_CN_TSDU = sized size /\ (sized size = true -> s_num s N_tsdu_init = size /\ s_num s N_tsdu_resp = size);
  rc_req : is_set s SMASK_CN_REQ = true /\ s_num s N_cn_require = units;
  rc_set : is_set s SMASK_CN_SET = meets units SR_TOKENS /\ (meets units SR_TOKENS = true -> s_num s N_settings = settings);
  rc_calling : is_set s SMASK_CN_CALLING = calling;
  rc_called : is_set s SMASK_CN_CALLED = called
}.

Lemma connect_received r mask isn size units settings calling called s s' : connect_code s -> connect_fields r mask isn size units settings calling called s ->
  same_spdu s s' -> received r mask isn size units settings calling called s'.
Proof.
  intros C [R O V I Ts Q St Cg Cd] Sm.
  pose proof (fun flag f F => connect_num s s' flag f C Sm F) as Nm; pose proof (fun flag f F => connect_arr s s' flag f C Sm F) as Ar.
  destruct R as (R1 & R2 & R3 & R4), O as (O1 & O2), V as (V1 & V2), I as (I1 & I2), Ts as (T1 & T2), Q as (Q1 & Q2), St as (S1 & S2).
  split.
  - destruct (Ar SMASK_CN_REF A_cn_user) as (E & F1); [cbn; tauto|]; destruct (Ar SMASK_CN_REF A_cn_comm) as (_ & F2); [cbn; tauto|].
    destruct (Ar SMASK_CN_REF A_cn_addt) as (_ & F3); [cbn; tauto|]; rewrite E, F1, F2, F3, R2, R3, R4 by exact R1; auto.
  - destruct (Nm SMASK_CN_OPT N_options) as (E & F); [cbn; tauto|]; rewrite E, F by exact O1; auto.
  - destruct (Nm SMASK_CN_VRSN N_cn_version) as (E & F); [cbn; tauto|]; rewrite E, F by exact V1; auto.
  - destruct (Nm SMASK_CN_ISN N_isn) as (E & F); [cbn; tauto|]; rewrite E, I1; split; [reflexivity|]; intros Z; rewrite F by (rewrite I1, Z; reflexivity); auto.
  - destruct (Nm SMASK_CN_TSDU N_tsdu_init) as (E & F); [cbn; tauto|]; destruct (Nm SMASK_CN_TSDU N_tsdu_resp) as (_ & F'); [cbn; tauto|]; rewrite E, T1; split; [reflexivity|].
    intros Z; rewrite F, F' by (rewrite T1; exact Z); auto.
  - destruct (Nm SMASK_CN_REQ N_cn_require) as (E & F); [cbn; tauto|]; rewrite E, F by exact Q1; auto.
  - destruct (Nm SMASK_CN_SET N_settings) as (E & F); [cbn; tauto|]; rewrite E, S1; split; [reflexivity|]; intros Z; rewrite F by (rewrite S1; exact Z); auto.
  - destruct (Ar SMASK_CN_CALLING A_calling) as (E & _); [cbn; tauto | congruence].
  - destruct (Ar SMASK_CN_CALLED A_called) as (E & _); [cbn; tauto | congruence].
Qed.

(** What is taken of a selector that was received. *)
Definition selected {T} (ta : T) (there : bool) (c : counted) : SSAPaddr T :=
  if there then SA ta (c_len c) (octets c ++ zdrop (c_len c) (repeat 0 64)) else SA ta 0 (repeat 0 64).

Lemma take_selector_ok {T} s a (sa : SSAPaddr T) : sarr_size a = 64 -> zlen (octets_of s a) = c_len (s_arr s a) -> zlen (c_data (s_arr s a)) = sarr_size a ->
  zlen (sa_selector sa) = 64 -> take_selector s a sa = Val (Some (SA (sa_addr sa) (c_len (s_arr s a)) (octets (s_arr s a) ++ zdrop (c_len (s_arr s a)) (sa_selector sa)))).
Proof.
  intros Sz L Z Zs; rewrite Sz in Z; pose proof (zlen_nonneg (octets_of s a)) as P; rewrite L in P.
  assert (C : c_len (s_arr s a) <= 64) by (rewrite <- L, <- Z; unfold octets_of, ztake, zlen; rewrite length_firstn; lia).
  unfold take_selector; rewrite copy_capped_copies by (unfold SSSIZE, INT_MAX; first [lia | vm_compute; intuition discriminate]).
  cbn [cbind]; change (0 =? 0) with true; unfold SSSIZE; rewrite Z.min_l by exact C; reflexivity.
Qed.

Lemma meets_ldiff r b m : Z.land b m = 0 -> meets (Z.ldiff r b) m = meets r m.
Proof.
  intros D; unfold meets; replace (Z.land (Z.ldiff r b) m) with (Z.land r m); [reflexivity|]; apply Z.bits_inj'; intros n N.
  rewrite !Z.land_spec, Z.ldiff_spec; pose proof (f_equal (fun z => Z.testbit z n) D) as B; cbn beta in B; rewrite Z.land_spec, Z.bits_0 in B.
  destruct (Z.testbit r n), (Z.testbit b n), (Z.testbit m n); cbn in *; congruence.
Qed.

Lemma meets_units_on e r m : among r SR_MYREQUIRE -> Z.land SR_EXPEDITED m = 0 -> meets (units_on e r) m = meets r m.
Proof.
  intros A D; unfold units_on; destruct (e =? 0); cbn [negb]; [|reflexivity]; rewrite u16_bic_ldiff by (first [apply units_range, A | split; [discriminate | reflexivity]]).
  apply meets_ldiff, D.
Qed.

(** ** The CN SPDU is taken *)

Section Indicate.
Context `{Allocator} (sizeof_spkt sizeof_qb sizeof_ssapblk : Z) (fresh : Z -> list Z).
Hypothesis Mem : memory_ok.
Hypothesis Fresh : forall n, 0 <= n -> zlen (fresh n) = n.
Variables ses_ab_timer ses_dn_timer ses_rf_timer : Z.
Variable char_signed : bool.
Context {T : Type} (no_ta : T).
Variables (o : offer T) (tc : TSAPconnect T) (ts : TSAPstart T).

(** What is proposed, and what the responder is told of it. *)
Definition proposed : Z := units_on (tc_expedited tc) (o_requirements o).
Definition indicated : Z := units_on (ts_expedited ts) proposed.

(** The responder takes no proposal without one of the two kinds of data
    transfer, or with capability data outside activities. *)
Definition sound_units (u : Z) : Prop :=
  meets u SR_CAPABILITY && negb (meets u SR_ACTIVITY) = false /\ meets u (Z.lor SR_HALFDUPLEX SR_DUPLEX) = true.

Definition isn_of (isn : Z) : Z := if isn =? SERIAL_NONE then 0 else isn.

Definition indicated_block : ssapblk :=
  SBlk SB_VRSN2 (if ts_expedited ts =? 0 then 0 else SB_EXPD) None (isn_of (o_isn o)) (isn_of (o_isn o)) 0 0 0 0 SPDU_PR None None [] 0 0 0 0 0 indicated.

(** What the user is told. *)
Record tells_start (ss : SSAPstart T) : Prop := {
  ts_ref : octets (sr_calling (ss_connect ss)) = octets (sr_calling (o_ref o)) /\ octets (sr_comm (ss_connect ss)) = octets (sr_comm (o_ref o)) /\
    octets (sr_addt (ss_connect ss)) = octets (sr_addt (o_ref o));
  ts_units : ss_requirements ss = indicated;
  ts_serial : ss_isn ss = o_isn o;
  ts_settings : meets proposed SR_TOKENS = true -> ss_settings ss = o_settings o;
  ts_user : match fst (ss_data ss) with Some d => d | None => [] end = data_of (o_data o) (o_count o)
}.

Definition proposal_received (s : ssapkt) : Prop :=
  received (o_ref o) (o_mask o) (o_isn o) (o_size o tc) proposed (o_settings o) (nonempty (o_calling o)) (nonempty (Some (o_called o))) s /\
  s_code s = SPDU_CN /\ (forall a, zlen (octets_of s a) = c_len (s_arr s a) /\ zlen (c_data (s_arr s a)) = sarr_size a) /\
  match s_udata s with Some d => d | None => [] end = data_of (o_data o) (o_count o).

Hypothesis Ok : offer_ok o.
Hypothesis Size : tc_tsdusize tc < 32768.

Lemma user_of_packet : user_octets (cn_packet o tc) = data_of (o_data o) (o_count o) /\ carries_udata (cn_packet o tc) = true.
Proof.
  split.
  - pose proof (of_data o Ok) as D; unfold cn_packet, cn_kept, with_units, with_sizes, put_data, user_octets, data_of, o_count in *; rewrite Z.gtb_ltb.
    assert (C : match o_data o with Some _ => o_cc o | None => 0 end <= 0 -> match o_data o with Some d => ztake (match o_data o with Some _ => o_cc o | None => 0 end) d | None => [] end = []).
    { destruct (o_data o) as [d|]; [|reflexivity]; intros L; destruct D as (D & _); replace (o_cc o) with 0 by lia; reflexivity. }
    destruct (meets _ SR_TOKENS), (negb _ || _), (Z.ltb_spec 0 (match o_data o with Some _ => o_cc o | None => 0 end)); cbn [s_udata s_ulen set_num Set_ set_udata];
      first [reflexivity | rewrite C by assumption; reflexivity].
  - unfold carries_udata; rewrite (proj1 (cn_packet_fields o tc)); reflexivity.
Qed.

Lemma proposal_of s' : same_spdu (cn_packet o tc) s' -> proposal_received s'.
Proof.
  intros Sm; pose proof (cn_packet_fields o tc) as (C & F & _); pose proof (same_given _ _ Sm) as G; destruct user_of_packet as (U & Cu); rewrite Cu in G.
  split; [exact (connect_received _ _ _ _ _ _ _ _ _ _ (or_introl C) F Sm)|]; split; [rewrite <- C; exact (same_code _ _ Sm)|]; split; [exact (same_room _ _ Sm)|].
  rewrite <- U; destruct (s_udata (cn_packet o tc)) as [d|] eqn:E; [injection G as -> _; reflexivity|]; injection G as -> _; unfold user_octets; rewrite E; reflexivity.
Qed.

Lemma proposed_among : among proposed SR_MYREQUIRE.
Proof. pose proof (units_among _ (of_units o Ok)) as A; eapply among_trans; [apply units_on_among, A | exact A]. Qed.

(** No check of [read_CN] fails. *)
Lemma proposal_checked s : sound_units proposed -> proposal_received s ->
  is_set s SMASK_CN_VRSN && negb (meets (s_num s N_cn_version) SB_ALLVRSNS) = false /\
  is_set s SMASK_CN_REQ &&
    ((meets (s_num s N_cn_require) SR_EXCEPTIONS && negb (meets (s_num s N_cn_require) SR_HALFDUPLEX)) || (meets (s_num s N_cn_require) SR_CAPABILITY && negb (meets (s_num s N_cn_require) SR_ACTIVITY))
     || negb (meets (s_num s N_cn_require) (Z.lor SR_HALFDUPLEX SR_DUPLEX))) = false /\
  is_set s SMASK_CN_REQ &&
    (if meets (s_num s N_cn_require) (ors [SR_MINORSYNC; SR_MAJORSYNC; SR_RESYNC]) then negb (meets (s_num s N_cn_require) SR_ACTIVITY) && negb (is_set s SMASK_CN_ISN)
     else is_set s SMASK_CN_ISN) = false.
Proof.
  intros (S1 & S2) ([_ _ (V1 & V2) (I1 & _) _ (Q1 & Q2) _ _ _] & _ & _); rewrite V1, V2, I1, Q1, Q2, S1, S2; cbn [andb]; pose proof (units_among _ (of_units o Ok)) as A.
  split; [unfold o_mask; destruct (propose_values (o_count o) (o_qos o)) as [-> | ->]; reflexivity|].
  unfold proposed; rewrite !meets_units_on by (exact A || reflexivity); rewrite (of_exceptions o Ok); split; [reflexivity|].
  pose proof (of_isn o Ok) as B; unfold bad_isn in B; destruct (meets (o_requirements o) (ors _)); [|rewrite B; reflexivity].
  destruct (meets (o_requirements o) SR_ACTIVITY); cbn [negb andb orb] in *; [reflexivity|]; destruct (Z.eqb_spec (o_isn o) SERIAL_NONE) as [E|]; [rewrite E in B; discriminate B | reflexivity].
Qed.

Lemma start_from_ok s st : proposal_received s -> ts_tsdusize ts < 32768 -> exists ss x,
  start_from no_ta ts s (with_block new_sblk st) = Val ((OK, Some ss, x), with_block indicated_block st) /\ tells_start ss /\
  sb_fd x = ts_sd ts /\ (meets proposed SR_TOKENS = true -> sb_settings x = o_settings o).
Proof.
  intros ([(R1 & R2 & R3 & R4) (O1 & O2) (V1 & V2) (I1 & I2) (Z1 & Z2) (Q1 & Q2) (S1 & S2) Cg Cd] & Code & Room & User) N.
  pose proof (get_size_range _ N) as Sg.
  assert (Ver : cn_version_of s = SB_VRSN2) by (unfold cn_version_of; rewrite V1, V2; unfold o_mask; destruct (propose_values (o_count o) (o_qos o)) as [-> | ->]; reflexivity).
  assert (Un : cn_units s (ts_expedited ts) = indicated) by (unfold cn_units, indicated; rewrite Q1, Q2, (among_land _ _ proposed_among); unfold units_on; destruct (ts_expedited ts =? 0); reflexivity).
  unfold start_from, with_block, bind at 1, update, put; cbn [ses_gone ses_sb ses_si ses_tp ses_buffer]; rewrite Ver.
  unfold bind at 1; cbn [ses_gone ses_sb ses_si ses_tp ses_buffer]; unfold bind at 1; cbn [ses_gone ses_sb ses_si ses_tp ses_buffer]; rewrite int2u16_Some by lia.
  unfold bind at 1; cbn [ses_gone ses_sb ses_si ses_tp ses_buffer]; rewrite Un; unfold bind at 1; cbn [ses_gone ses_sb ses_si ses_tp ses_buffer].
  assert (Sel : forall flag a there (ta : T), sarr_size a = 64 -> is_set s flag = there ->
    (if is_set s flag then take_selector s a (SA ta 0 (sa_selector (no_sa no_ta))) else Val (Some (SA ta 0 (sa_selector (no_sa no_ta))))) =
    Val (Some (selected ta there (s_arr s a)))).
  { intros flag a there ta Sz ->; destruct there; [|reflexivity]; destruct (Room a) as (L & Zc); rewrite (take_selector_ok s a _ Sz L Zc) by reflexivity; reflexivity. }
  rewrite (Sel SMASK_CN_CALLING A_calling _ _ eq_refl Cg), (Sel SMASK_CN_CALLED A_called _ _ eq_refl Cd); unfold bind at 1, lift, get; cbn [ses_gone ses_sb ses_si ses_tp ses_buffer].
  unfold bind at 1; cbn [ses_gone ses_sb ses_si ses_tp ses_buffer]; unfold bind at 1; cbn [ses_gone ses_sb ses_si ses_tp ses_buffer].
  set (b := set_requirements _ _).
  assert (B : b = indicated_block).
  { unfold b, cn_sizes, indicated_block, isn_of; rewrite I1; destruct (o_isn o =? SERIAL_NONE) eqn:Ei; cbn [negb]; [|rewrite I2 by reflexivity]; destruct (ts_expedited ts =? 0); reflexivity. }
  clearbody b; subst b; do 2 eexists; split; [reflexivity|]; split; [|split].
  - split; cbn [ss_connect ss_requirements ss_isn ss_settings ss_data]; rewrite ?R1.
    + exact (conj R2 (conj R3 R4)).
    + reflexivity.
    + rewrite I1; destruct (Z.eqb_spec (o_isn o) SERIAL_NONE) as [->|E]; [reflexivity | apply I2; reflexivity].
    + intros M; rewrite S1, M; apply S2, M.
    + exact User.
  - destruct (is_set s SMASK_CN_SET); destruct (is_set s SMASK_CN_OPT); reflexivity.
  - intros M; rewrite S1, M, S2 by exact M; destruct (is_set s SMASK_CN_OPT); reflexivity.
Qed.

Lemma cn_readable : readable (cn_packet o tc) 1.
Proof.
  pose proof (cn_packet_fields o tc) as (C & [_ (_ & Op) _ _ _ _ _ _ _] & _); split; try (rewrite C; discriminate).
  - intros f; destruct f; try reflexivity; [cbn [num_readable]; rewrite Op; reflexivity|..].
    all: unfold cn_packet, cn_kept, with_units, with_sizes, put_data, with_isn, with_terms, with_nonempty, with_selector, put_cn_reference;
      repeat match goal with |- context [if ?b then _ else _] => lazymatch b with context [if _ then _ else _] => fail | _ => destruct b end
        | |- context [match o_calling o with Some _ => _ | None => _ end] => destruct (o_calling o) end; reflexivity.
  - unfold udata_limit; rewrite C; codes; pose proof (of_data o Ok) as D; unfold cn_packet, cn_kept, with_units, with_sizes, put_data, o_count in *.
    assert (L : match o_data o with Some _ => o_cc o | None => 0 end <= CONNECT_MAX) by (destruct (o_data o); [apply D | discriminate]).
    destruct (meets _ SR_TOKENS), (negb _ || _), (_ >? 0); cbn [s_ulen set_num Set_ set_udata]; first [exact L | discriminate].
Qed.

Hypothesis Room : in_room fresh (cn_packet o tc).
Hypothesis Sound : sound_units proposed.

Lemma read_CN_ok tx l st : reading st -> tp_reads (ses_tp st) = inr tx :: l -> carries tx false (enc (cn_packet o tc)) ->
  exists s x, read_CN sizeof_spkt fresh ses_ab_timer ses_rf_timer st = Val (Some s, at_buffer x (with_reads l st)) /\ proposal_received s /\ buffer_ok x.
Proof.
  intros (Al & B) Rd (_ & Q & E & Cc); pose proof (cn_packet_fields o tc) as (C & _); unfold read_CN, bind at 1, TReadRequest, bind at 1, get_tp; rewrite Rd.
  unfold bind at 1, set_tp, ret; change (Ses (ses_sb st) (ses_gone st) (ses_si st) _ (ses_buffer st)) with (with_reads l st).
  destruct (read_spdu_ok sizeof_spkt fresh Mem Fresh (cn_packet o tc) 1 (tx_qbuf tx) [] (tx_cc tx) (with_reads l st)) as (s & q & x & Er & Ac & Sm & _ & _ & Bx).
  - apply cn_packet_ok; assumption.
  - unfold complete; rewrite C; reflexivity.
  - apply Room.
  - apply cn_readable.
  - exact B.
  - exact Q.
  - rewrite app_nil_r; exact E.
  - rewrite Cc; apply Z.le_refl.
  - pose proof (proposal_of s Sm) as P; destruct (proposal_checked s Sound P) as (K1 & K2 & K3).
    exists s, x; split; [|auto]; unfold bind; rewrite Er, Ac, (proj1 (proj2 P)), K1, K2, K3; reflexivity.
Qed.

(** The two ways in which the responder reads the CN SPDU itself. *)
Definition reads_itself (a : arrival (TSAPaddr := T)) : Prop := a = Restored (inr ts) \/ a = Accepted ts None.

Definition starts (a : arrival (TSAPaddr := T)) : sess (Z * option (SSAPstart T) * terms T) :=
  SInit sizeof_spkt sizeof_qb sizeof_ssapblk fresh ses_ab_timer ses_dn_timer ses_rf_timer no_ta (match a with Restored _ => 2 | _ => 3 end) a.

Lemma SInit_ok a tx l st : reads_itself a -> ts_tsdusize ts < 32768 -> buffer_ok (ses_buffer st) -> tp_reads (ses_tp st) = inr tx :: l -> carries tx false (enc (cn_packet o tc)) ->
  exists ss x y, starts a st = Val ((OK, Some ss, x), with_block indicated_block (at_buffer y (with_reads l st))) /\ buffer_ok y /\ tells_start ss /\
    sb_fd x = ts_sd ts /\ (meets proposed SR_TOKENS = true -> sb_settings x = o_settings o).
Proof.
  intros A N B Rd Ca; destruct (read_CN_ok tx l (with_block new_sblk st)) as (s & y & Er & P & By); [split; [reflexivity | exact B] | exact Rd | exact Ca|].
  destruct (start_from_ok s (at_buffer y (with_reads l st)) P N) as (ss & x & Es & Ts & Fd & Set_').
  exists ss, x, y; split; [|auto]; unfold starts, SInit, guarded; cbn [check]; replace (_ <? 2) with false by (destruct A as [-> | ->]; reflexivity); cbn match; unfold bind at 1, newsblk; rewrite Mem; cbn [negb].
  fold (with_block new_sblk st); unfold bind at 1.
  assert (Mi : meet_initiator sizeof_spkt sizeof_qb fresh ses_ab_timer ses_rf_timer a (with_block new_sblk st) =
    Val ((Some (ts, s), ts_sd ts), with_block new_sblk (at_buffer y (with_reads l st)))).
  { unfold meet_initiator; destruct A as [-> | ->]; unfold bind; rewrite Er; reflexivity. }
  rewrite Mi; exact Es.
Qed.
End Indicate.

(** * Tokens *)

Section Tokens.

Definition far (s s' : Z) : Prop := s + 2 <= s' \/ s' + 2 <= s.

Lemma mask_bits m : 0 <= m -> Z.testbit ST_MASK m = (m <? 2).
Proof.
  intros M; change ST_MASK with (Z.ones 2); destruct (Z.ltb_spec m 2); [apply Z.ones_spec_low | apply Z.ones_spec_high]; lia.
Qed.

Lemma st_at_bits w s n : 0 <= s -> 0 <= n -> Z.testbit (st_at w s) n = Z.testbit w n && ((s <=? n) && (n <? s + 2)).
Proof.
  intros S N; unfold st_at; rewrite Z.land_spec, Z.shiftl_spec by exact N; f_equal; destruct (Z.leb_spec s n); [|apply Z.testbit_neg_r; lia].
  rewrite mask_bits by lia; cbn [andb]; destruct (Z.ltb_spec (n - s) 2), (Z.ltb_spec n (s + 2)); reflexivity || lia.
Qed.

Lemma st_put_bits w v s n : 0 <= s -> 0 <= n -> Z.testbit (st_put w v s) n = (Z.testbit w n && negb ((s <=? n) && (n <? s + 2))) || Z.testbit (st_val v s) n.
Proof.
  intros S N; unfold st_put; rewrite Z.lor_spec, Z.land_spec, Z.lnot_spec by exact N; f_equal; f_equal; f_equal.
  pose proof (st_at_bits (-1) s n S N) as B; unfold st_at in B; rewrite Z.land_m1_l, Z.bits_m1 in B by exact N; exact B.
Qed.

Lemma st_val_bits v s n : 0 <= v < 4 -> 0 <= s -> 0 <= n -> Z.testbit (st_val v s) n = true -> s <= n < s + 2.
Proof.
  intros V S N; unfold st_val; rewrite Z.shiftl_spec by exact N; intros B; destruct (Z.ltb_spec n s); [rewrite Z.testbit_neg_r in B by lia; discriminate|].
  destruct (Z.ltb_spec (n - s) 2); [lia|]; rewrite <- (Z.mod_small v (2 ^ 2)), Z.mod_pow2_bits_high in B by lia; discriminate.
Qed.

Lemma st_at_same w v s : 0 <= v < 4 -> 0 <= s -> st_at (st_put w v s) s = st_val v s.
Proof.
  intros V S; apply Z.bits_inj'; intros n N; rewrite st_at_bits, st_put_bits by assumption; pose proof (st_val_bits v s n V S N) as B.
  destruct (Z.leb_spec s n), (Z.ltb_spec n (s + 2)), (Z.testbit w n), (Z.testbit (st_val v s) n); cbn; try reflexivity; specialize (B eq_refl); lia.
Qed.

Lemma st_at_far w v s s' : 0 <= v < 4 -> 0 <= s -> 0 <= s' -> far s s' -> st_at (st_put w v s) s' = st_at w s'.
Proof.
  intros V S S' F; apply Z.bits_inj'; intros n N; rewrite !st_at_bits, st_put_bits by assumption; pose proof (st_val_bits v s n V S N) as B; unfold far in F.
  destruct (Z.leb_spec s n), (Z.ltb_spec n (s + 2)), (Z.leb_spec s' n), (Z.ltb_spec n (s' + 2)), (Z.testbit w n), (Z.testbit (st_val v s) n); cbn; try reflexivity; try lia;
    specialize (B eq_refl); lia.
Qed.

Lemma st_put_byte w v s : 0 <= v < 4 -> 0 <= s <= 6 -> is_byte w -> is_byte (st_put w v s).
Proof.
  intros V S B; apply (among_range 8 _ 255 ltac:(discriminate)); [|split; [discriminate | reflexivity]]; intros n N; rewrite st_put_bits by lia; intros E.
  change 255 with (Z.ones 8); destruct (Z.ltb_spec n 8); [apply Z.ones_spec_low; lia|]; exfalso.
  assert (Hi : Z.testbit w n = false) by (rewrite <- (Z.mod_small w (2 ^ 8)) by exact B; apply Z.mod_pow2_bits_high; lia); rewrite Hi in E; cbn in E.
  apply st_val_bits in E; lia.
Qed.

(** The responder gets a token of its choice, or one that is proposed to it;
    and it may ask for one it does not get. *)
Definition responder_has (p c shift : Z) : bool :=
  if st_at p shift =? st_val ST_CALL_VALUE shift then st_at c shift =? st_val ST_RESP_VALUE shift else st_at p shift =? st_val ST_RESP_VALUE shift.
Definition is_asked (p c shift : Z) : bool := (st_at p shift =? st_val ST_INIT_VALUE shift) && (st_at c shift =? st_val ST_RSVD_VALUE shift).

(** The bits of the tokens that the functional units [u] have and [f] picks. *)
Definition picked (u : Z) (f : Z -> bool) (l : list (Z * Z * Z)) (t : Z) : Z :=
  fold_left (fun t row => let '(r, shift, bit) := row in if meets u r && f shift then Z.lor t bit else t) l t.

Definition settled_at (u p c c' : Z) (row : Z * Z * Z) : Prop :=
  let '(r, shift, bit) := row in meets u r = true -> st_at c' shift = st_val (if responder_has p c shift then ST_RESP_VALUE else ST_INIT_VALUE) shift.

Definition proposes_well (u p : Z) (row : Z * Z * Z) : Prop :=
  let '(r, shift, bit) := row in
  0 <= shift <= 6 /\ (meets u r = true -> st_at p shift = st_val ST_CALL_VALUE shift \/ st_at p shift = st_val ST_INIT_VALUE shift \/ st_at p shift = st_val ST_RESP_VALUE shift).

Lemma st_val_differ a b s : 0 <= s -> a <> b -> (st_val a s =? st_val b s) = false.
Proof. intros S N; apply Z.eqb_neq; unfold st_val; rewrite !Z.shiftl_mul_pow2 by exact S; intros E; apply N, (Z.mul_cancel_r _ _ (2 ^ s)); [pose proof (Z.pow_pos_nonneg 2 s); lia | exact E]. Qed.

Lemma choose_token_ok p r shift bit b c please b' c' please' : proposes_well (sb_requirements b) p (r, shift, bit) -> is_byte c ->
  choose_token p r shift bit (b, c, please) = inr (b', c', please') ->
  let u := sb_requirements b in
  b' = set_owned (picked u (responder_has p c) [(r, shift, bit)] (sb_owned b)) b /\ please' = picked u (is_asked p c) [(r, shift, bit)] please /\
  is_byte c' /\ (forall s, 0 <= s -> far shift s -> st_at c' s = st_at c s) /\ settled_at u p c c' (r, shift, bit).
Proof.
  intros (S & Pw) B E u; unfold choose_token, needs in E; fold u in E, Pw; unfold picked, settled_at, responder_has, is_asked; cbn [fold_left].
  assert (Bo : forall x, set_owned (sb_owned x) x = x) by (intros []; reflexivity).
  destruct (meets u r) eqn:M; cbn [andb]; [|injection E as <- <- <-; rewrite Bo; repeat split; try apply B; auto; discriminate].
  assert (Dn : forall v, 0 <= v < 4 -> is_byte (st_put c v shift) /\ (forall s, 0 <= s -> far shift s -> st_at (st_put c v shift) s = st_at c s) /\ st_at (st_put c v shift) shift = st_val v shift)
    by (intros v V; split; [apply st_put_byte; assumption|]; split; [intros; apply st_at_far | apply st_at_same]; lia || assumption).
  destruct (Dn ST_INIT_VALUE) as (I1 & I2 & I3); [split; [discriminate | reflexivity]|]; destruct (Dn ST_RESP_VALUE) as (R1 & R2 & R3); [split; [discriminate | reflexivity]|].
  destruct (Pw eq_refl) as [P | [P | P]]; rewrite P, ?Z.eqb_refl in *; rewrite ?(st_val_differ ST_INIT_VALUE ST_CALL_VALUE), ?(st_val_differ ST_RESP_VALUE ST_CALL_VALUE),
    ?(st_val_differ ST_RESP_VALUE ST_INIT_VALUE), ?(st_val_differ ST_INIT_VALUE ST_RESP_VALUE), ?(st_val_differ ST_CALL_VALUE ST_INIT_VALUE) in * by (discriminate || lia); cbn [andb] in *.
  - destruct (Z.eqb_spec (st_at c shift) (st_val ST_INIT_VALUE shift)) as [Ei|]; [injection E as <- <- <-|].
    + rewrite Ei, (st_val_differ ST_INIT_VALUE ST_RESP_VALUE) by (discriminate || lia); rewrite Bo; auto 6.
    + destruct (Z.eqb_spec (st_at c shift) (st_val ST_RESP_VALUE shift)); [|discriminate]; injection E as <- <- <-; auto 6.
  - injection E as <- <- <-; rewrite Bo; auto 6.
  - injection E as <- <- <-; auto 6.
Qed.

Definition shift_of (row : Z * Z * Z) : Z := snd (fst row).

Fixpoint apart (l : list (Z * Z * Z)) : Prop := match l with [] => True | row :: l => Forall (fun row' => far (shift_of row) (shift_of row')) l /\ apart l end.

Lemma picked_cons u f row l t : picked u f (row :: l) t = picked u f l (picked u f [row] t).
Proof. destruct row as ((r, s), b); reflexivity. Qed.

Lemma picked_ext u f g l : Forall (fun row => f (shift_of row) = g (shift_of row)) l -> forall t, picked u f l t = picked u g l t.
Proof. induction 1 as [|((r, s), b) l E _ IH]; intros t; [reflexivity|]; rewrite (picked_cons u f), (picked_cons u g), IH; unfold picked; cbn in *; rewrite E; reflexivity. Qed.

Lemma each_choose p l : apart l -> forall b c please b' c' please', Forall (proposes_well (sb_requirements b) p) l -> is_byte c ->
  each_token (choose_token p) l (b, c, please) = inr (b', c', please') ->
  let u := sb_requirements b in
  b' = set_owned (picked u (responder_has p c) l (sb_owned b)) b /\ please' = picked u (is_asked p c) l please /\
  is_byte c' /\ (forall s, 0 <= s -> Forall (fun row => far (shift_of row) s) l -> st_at c' s = st_at c s) /\ Forall (settled_at u p c c') l.
Proof.
  induction l as [|((r, s), bit) l IH]; intros Ap b c please b' c' please' Pw B E u.
  - cbn in E; injection E as <- <- <-; split; [destruct b; reflexivity | auto].
  - destruct Ap as (Far & Ap); pose proof (Forall_inv Pw) as P1; pose proof (Forall_inv_tail Pw) as P2; cbn [each_token] in E.
    destruct (choose_token p r s bit (b, c, please)) as [|((b1, c1), pl1)] eqn:E1; [discriminate|].
    destruct (choose_token_ok p r s bit b c please b1 c1 pl1 P1 B E1) as (Eb & Ep & B1 & K1 & S1); fold u in Eb, Ep, S1; destruct P1 as (Sr & _).
    assert (U1 : sb_requirements b1 = u) by (rewrite Eb; reflexivity).
    assert (Keep : Forall (fun row => 0 <= shift_of row /\ st_at c1 (shift_of row) = st_at c (shift_of row)) l).
    { rewrite Forall_forall in *; intros row I; assert (0 <= shift_of row) by (specialize (P2 row I); destruct row as ((? & ?) & ?); apply P2); split; [assumption|]; apply K1; [assumption | apply Far, I]. }
    destruct (IH Ap b1 c1 pl1 b' c' please') as (Eb' & Ep' & B' & K' & S'); [rewrite U1; exact P2 | exact B1 | exact E |]; rewrite U1 in *.
    assert (X1 : Forall (fun row => responder_has p c1 (shift_of row) = responder_has p c (shift_of row)) l) by (revert Keep; apply Forall_impl; intros row (_ & K); unfold responder_has; rewrite K; reflexivity).
    assert (X2 : Forall (fun row => is_asked p c1 (shift_of row) = is_asked p c (shift_of row)) l) by (revert Keep; apply Forall_impl; intros row (_ & K); unfold is_asked; rewrite K; reflexivity).
    split; [|split; [|split; [exact B'|split]]].
    + rewrite Eb', (picked_cons u), (picked_ext u _ _ l X1), Eb; reflexivity.
    + rewrite Ep', (picked_cons u), (picked_ext u _ _ l X2), Ep; reflexivity.
    + intros s' S0 F; rewrite K' by (exact S0 || exact (Forall_inv_tail F)); apply K1; [exact S0 | exact (Forall_inv F)].
    + constructor.
      * intros M; rewrite K'; [apply S1, M | lia|]; revert Far; apply Forall_impl; intros row F; unfold far in *; cbn [shift_of fst snd] in F; lia.
      * rewrite Forall_forall in *; intros ((r', s2), b2) I M; specialize (S' _ I M); specialize (X1 _ I); cbn [shift_of fst snd] in X1; rewrite X1 in S'; exact S'.
Qed.

Lemma table_apart : apart token_table.
Proof. unfold token_table; cbn [apart shift_of fst snd]; repeat split; repeat constructor; unfold far; cbn; lia. Qed.

(** ** What the initiator makes of it *)

Definition initiator_has (p c shift : Z) : bool := negb (responder_has p c shift).

Lemma ac_token_ok s p c r shift bit b sc please : proposes_well (sb_requirements b) p (r, shift, bit) ->
  (meets (sb_requirements b) r = true -> is_set s SMASK_CN_SET = true) -> settled_at (sb_requirements b) p c (s_num s N_settings) (r, shift, bit) ->
  let u := sb_requirements b in
  exists sc', ac_token s p r shift bit (s_num s N_settings, b, sc, please) =
    (s_num s N_settings, set_owned (picked u (initiator_has p c) [(r, shift, bit)] (sb_owned b)) b, sc',
     if meets u r && (is_set s SMASK_AC_TOKEN && meets (s_num s N_ac_token) bit) then Z.lor please bit else please).
Proof.
  intros (S & Pw) St Se u; unfold ac_token, needs, settled_at, initiator_has, responder_has, picked in *; fold u in St, Se, Pw |- *; cbn [fold_left].
  assert (Bo : forall x, set_owned (sb_owned x) x = x) by (intros []; reflexivity).
  destruct (meets u r); cbn [andb]; [|rewrite Bo; eexists; reflexivity]; rewrite St by reflexivity; specialize (Se eq_refl).
  destruct (Pw eq_refl) as [P | [P | P]]; rewrite P, ?Z.eqb_refl in *; rewrite ?(st_val_differ ST_INIT_VALUE ST_CALL_VALUE), ?(st_val_differ ST_RESP_VALUE ST_CALL_VALUE),
    ?(st_val_differ ST_RESP_VALUE ST_INIT_VALUE), ?(st_val_differ ST_INIT_VALUE ST_RESP_VALUE), ?(st_val_differ ST_CALL_VALUE ST_INIT_VALUE) in * by (discriminate || lia); cbn [andb negb] in *.
  - rewrite Se; destruct (Z.eqb_spec (st_at c shift) (st_val ST_RESP_VALUE shift)); cbn [negb]; rewrite ?Z.eqb_refl, ?(st_val_differ ST_INIT_VALUE ST_RESP_VALUE) by (discriminate || lia);
      rewrite ?Bo; eexists; reflexivity.
  - eexists; reflexivity.
  - rewrite Bo; eexists; reflexivity.
Qed.

Lemma ac_list s p c l : forall b sc please, Forall (proposes_well (sb_requirements b) p) l ->
  (forall r sh bit, In (r, sh, bit) l -> meets (sb_requirements b) r = true -> is_set s SMASK_CN_SET = true) -> Forall (settled_at (sb_requirements b) p c (s_num s N_settings)) l ->
  let u := sb_requirements b in
  exists sc', fold_left (fun a t => let '(requires, shift, bit) := t in ac_token s p requires shift bit a) l (s_num s N_settings, b, sc, please) =
    (s_num s N_settings, set_owned (picked u (initiator_has p c) l (sb_owned b)) b, sc',
     fold_left (fun t row => let '(r, _, bit) := row in if meets u r && (is_set s SMASK_AC_TOKEN && meets (s_num s N_ac_token) bit) then Z.lor t bit else t) l please).
Proof.
  induction l as [|((r, sh), bit) l IH]; intros b sc please Pw St Se u.
  - exists sc; cbn; destruct b; reflexivity.
  - cbn [fold_left]; destruct (ac_token_ok s p c r sh bit b sc please (Forall_inv Pw) (St r sh bit (or_introl eq_refl)) (Forall_inv Se)) as (sc1 & ->); fold u.
    set (b1 := set_owned _ b); assert (U1 : sb_requirements b1 = u) by reflexivity.
    destruct (IH b1 sc1 (if meets u r && (is_set s SMASK_AC_TOKEN && meets (s_num s N_ac_token) bit) then Z.lor please bit else please)) as (sc' & ->); rewrite ?U1.
    + exact (Forall_inv_tail Pw).
    + intros r' sh' bit' I; apply (St r' sh' bit' (or_intror I)).
    + exact (Forall_inv_tail Se).
    + exists sc'; rewrite (picked_cons u); reflexivity.
Qed.
End Tokens.
