(* ===== verification/SconnMeet.v ===== *)
(** * ssap: the answer, and the two sessions it leaves

    The AC SPDU of the responder, as the initiator takes it, and with the
    proposal of [SconnAgree] the theorem that two users who connect end with
    the same functional units and serial numbers, with each token owned by
    one of them, and so with two sessions of which the theorems of [Peers]
    hold. *)

From S2P Require Import Prelude Conv Convert PElement PStream Qbuf Tpkt Tpkt2fd Tcp Tp0 Tp0Conn Transfer Spkt Spkt2tsdu Tsdu2spkt Spdu Ssap Sreq Sread Swrite Ssdu Session Message Peers StrSpkt Sconn SconnAgree.
Open Scope Z_scope.
Open Scope c_scope.
Open Scope ses_scope.

(** ** The AC SPDU *)

Section Answer.
Context {T : Type}.

Definition with_please (please : Z) (s : ssapkt) : ssapkt := if please =? 0 then s else set_num (Set_ s SMASK_AC_TOKEN) N_ac_token please.
Definition with_responding (sa : option (SSAPaddr T)) (s : ssapkt) : ssapkt := match sa with Some sa => with_selector A_called SMASK_CN_CALLED sa s | None => s end.

Definition ac_terms (a : reply_to T) (units settings please : Z) : ssapkt :=
  with_please please (with_units units settings (with_isn (a_isn a) (with_terms (a_ref a) 2 (new_spkt SPDU_AC)))).

Definition ac_packet (a : reply_to T) (units settings please : Z) : ssapkt :=
  put_data (a_data a) (a_count a) (with_responding (a_responding a) (ac_terms a units settings please)).

(** An answer that SConnResponse sends, where [u] was indicated. *)
Definition agreed (a : reply_to T) (u : Z) : Z := Z.land u (a_requirements a).

(** A token that is left to the responder is given to one of the two. *)
Definition picks_well (u p c : Z) (row : Z * Z * Z) : Prop :=
  let '(r, shift, bit) := row in meets u r = true -> st_at p shift = st_val ST_CALL_VALUE shift -> st_at c shift = st_val ST_INIT_VALUE shift \/ st_at c shift = st_val ST_RESP_VALUE shift.

Record answer_ok (a : reply_to T) (u p : Z) : Prop := {
  an_ref : ref_ok (a_ref a);
  an_responding : maybe_selector (a_responding a);
  an_units : meets (a_requirements a) (Z.lnot SR_MYREQUIRE) = false;
  an_duplex : meets (a_requirements a) SR_HALFDUPLEX && meets (a_requirements a) SR_DUPLEX = false;
  an_exceptions : meets (a_requirements a) SR_EXCEPTIONS && negb (meets (a_requirements a) SR_HALFDUPLEX) = false;
  an_byte : is_byte (a_settings a);
  an_picks : Forall (picks_well (agreed a u) p (a_settings a)) token_table;
  an_agreed : bad_units (agreed a u) = false;
  an_isn : bad_isn (agreed a u) (a_isn a) = false;
  an_data : within SS_SIZE (a_data a) (a_cc a)
}.

Lemma ac_terms_ok a u p settings please : answer_ok a u p -> 0 <= agreed a u < 65536 -> is_byte settings -> is_byte please -> spkt_ok (ac_terms a (agreed a u) settings please).
Proof.
  intros O U S P; unfold ac_terms, with_please; assert (X : spkt_ok (with_units (agreed a u) settings (with_isn (a_isn a) (with_terms (a_ref a) 2 (new_spkt SPDU_AC))))).
  { apply with_units_ok; [exact U | exact S|]; apply (with_isn_spkt _ _ _ (an_isn a u p O)), with_terms_ok; [apply (an_ref a u p O) | split; [discriminate | reflexivity] | apply ok_new]. }
  destruct (please =? 0); [exact X|]; apply ok_set_num; [apply ok_Set, X | exact P].
Qed.

Lemma ac_packet_ok a u p settings please : answer_ok a u p -> 0 <= agreed a u < 65536 -> is_byte settings -> is_byte please -> spkt_ok (ac_packet a (agreed a u) settings please).
Proof.
  intros O U S P; unfold ac_packet; apply ok_put_data; [|exact (within_fits SS_SIZE _ _ ltac:(discriminate) (an_data a u p O))].
  pose proof (an_responding a u p O) as R; unfold with_responding; destruct (a_responding a); [apply with_selector_ok; [reflexivity | exact R|]|]; apply (ac_terms_ok a u p); assumption.
Qed.

Lemma ac_packet_fields a v settings please :
  s_code (ac_packet a v settings please) = SPDU_AC /\
  connect_fields (a_ref a) 2 (a_isn a) 0 v settings false (match a_responding a with Some _ => true | None => false end) (ac_packet a v settings please) /\
  is_set (ac_packet a v settings please) SMASK_AC_TOKEN = negb (please =? 0) /\ ((please =? 0) = false -> s_num (ac_packet a v settings please) N_ac_token = please).
Proof.
  unfold ac_packet, ac_terms; generalize (a_count a); intros cc; unfold with_please, with_responding, with_units, put_data, with_isn, with_terms, with_selector, put_cn_reference.
  destruct (a_responding a) as [c|]; destruct (please =? 0) eqn:E3, (a_isn a =? SERIAL_NONE) eqn:E4, (meets v SR_TOKENS) eqn:E5, (cc >? 0).
  all: split; [reflexivity|]; split; [|split; [reflexivity | intros; try discriminate; reflexivity]]; split; rewrite ?E3, ?E4, ?E5; (split || idtac); intros; try discriminate; repeat split; reflexivity.
Qed.

Lemma ac_readable a u p settings please : answer_ok a u p -> readable (ac_packet a (agreed a u) settings please) 1.
Proof.
  intros O; generalize (agreed a u); intros v; pose proof (ac_packet_fields a v settings please) as (C & [_ (_ & Op) _ _ _ _ _ _ _] & _); split; try (rewrite C; discriminate).
  - intros f; destruct f; try reflexivity; [cbn [num_readable]; rewrite Op; reflexivity|..].
    all: unfold ac_packet, ac_terms, with_please, with_responding, with_units, put_data, with_isn, with_terms, with_selector, put_cn_reference;
      repeat match goal with |- context [if ?b then _ else _] => lazymatch b with context [if _ then _ else _] => fail | _ => destruct b end
        | |- context [match a_responding ?x with Some _ => _ | None => _ end] => destruct (a_responding x) end; reflexivity.
  - unfold udata_limit; rewrite C; codes; pose proof (an_data a u p O) as D; unfold ac_packet, ac_terms, with_please, with_responding, with_units, with_isn, put_data, a_count in *.
    assert (L : match a_data a with Some _ => a_cc a | None => 0 end <= 512) by (destruct (a_data a); [apply D | discriminate]).
    destruct (_ >? 0); cbn [s_ulen set_num Set_ set_udata]; [exact L|].
    destruct (a_responding a), (please =? 0), (meets v SR_TOKENS), (a_isn a =? SERIAL_NONE); discriminate.
Qed.

Lemma user_of_answer a v settings please : within SS_SIZE (a_data a) (a_cc a) ->
  user_octets (ac_packet a v settings please) = data_of (a_data a) (a_count a) /\ carries_udata (ac_packet a v settings please) = true.
Proof.
  intros D; split; [|unfold carries_udata; rewrite (proj1 (ac_packet_fields a v settings please)); reflexivity].
  unfold ac_packet, put_data, user_octets, data_of, a_count in *; rewrite Z.gtb_ltb.
  assert (C : match a_data a with Some _ => a_cc a | None => 0 end <= 0 -> match a_data a with Some d => ztake (match a_data a with Some _ => a_cc a | None => 0 end) d | None => [] end = []).
  { destruct (a_data a) as [d|]; [|reflexivity]; intros L; destruct D as (D & _); replace (a_cc a) with 0 by lia; reflexivity. }
  destruct (Z.ltb_spec 0 (match a_data a with Some _ => a_cc a | None => 0 end)); cbn [s_udata s_ulen set_num Set_ set_udata]; [reflexivity|].
  rewrite C by assumption; unfold ac_terms, with_please, with_responding, with_units, with_isn; destruct (a_responding a), (please =? 0), (meets v SR_TOKENS), (a_isn a =? SERIAL_NONE); reflexivity.
Qed.
End Answer.

(** ** The choice of the tokens *)

Lemma picked_byte u f : is_byte (picked u f token_table 0).
Proof.
  unfold picked, token_table; cbn [fold_left].
  repeat match goal with |- context [if ?c then _ else _] => lazymatch c with context [if _ then _ else _] => fail | _ => destruct c end end; split; discriminate || reflexivity.
Qed.

(** Only tokens that the functional units have are picked. *)
Lemma picked_only u f g l : Forall (fun row => let '(r, shift, _) := row in meets u r = true -> f shift = g shift) l -> forall t, picked u f l t = picked u g l t.
Proof.
  induction 1 as [|((r, s), bit) l E _ IH]; intros t; [reflexivity|]; rewrite (picked_cons u f), (picked_cons u g), IH; unfold picked; cbn [fold_left].
  destruct (meets u r); [rewrite E by reflexivity|]; reflexivity.
Qed.

Lemma choose_total p l : apart l -> forall b c please, Forall (proposes_well (sb_requirements b) p) l -> Forall (picks_well (sb_requirements b) p c) l -> is_byte c ->
  exists r, each_token (choose_token p) l (b, c, please) = inr r.
Proof.
  induction l as [|((r, s), bit) l IH]; intros Ap b c please Pw Pk B; [eexists; reflexivity|]; destruct Ap as (Far & Ap); cbn [each_token].
  assert (E : exists b1 c1 pl1, choose_token p r s bit (b, c, please) = inr (b1, c1, pl1)).
  { pose proof (Forall_inv Pk) as K; unfold choose_token, needs, picks_well in *; destruct (meets _ r); [|do 3 eexists; reflexivity].
    destruct (Z.eqb_spec (st_at p s) (st_val ST_CALL_VALUE s)) as [Ec|]; [|repeat match goal with |- context [if ?c then _ else _] => destruct c end; do 3 eexists; reflexivity].
    destruct (Z.eqb_spec (st_at c s) (st_val ST_INIT_VALUE s)); [do 3 eexists; reflexivity|]; destruct (K eq_refl Ec) as [|E]; [contradiction|].
    rewrite E, Z.eqb_refl; do 3 eexists; reflexivity. }
  destruct E as (b1 & c1 & pl1 & E); rewrite E; destruct (choose_token_ok p r s bit b c please b1 c1 pl1 (Forall_inv Pw) B E) as (Eb & _ & B1 & K1 & _).
  assert (U1 : sb_requirements b1 = sb_requirements b) by (rewrite Eb; reflexivity); apply IH; rewrite ?U1; [exact Ap | exact (Forall_inv_tail Pw)| |exact B1].
  pose proof (Forall_inv_tail Pw) as P2; pose proof (Forall_inv_tail Pk) as K2; rewrite Forall_forall in *; intros ((r', s'), bit') I; specialize (K2 _ I); specialize (P2 _ I); specialize (Far _ I).
  unfold picks_well in *; rewrite K1; [exact K2 | apply P2 | exact Far].
Qed.

(** ** The AC SPDU goes out *)

Section Respond.
Context `{Allocator} (sizeof_spkt sizeof_qb sizeof_ssapblk : Z) (fresh : Z -> list Z).
Hypothesis Mem : memory_ok.
Hypothesis Fresh : forall n, 0 <= n -> zlen (fresh n) = n.
Variables ses_ab_timer ses_dn_timer ses_rf_timer : Z.
Context {T : Type} (no_ta : T).
Variables (a : reply_to T) (b : ssapblk) (x : terms T).

Let u : Z := agreed a (sb_requirements b).
Let p : Z := sb_settings x.

(** A block to which an accepted proposal was indicated. *)
Record awaits_answer : Prop := {
  aw_conn : has b SB_CONN = false;
  aw_version : sb_version b = SB_VRSN2;
  aw_sizes : sb_tsdu_us b = 0 /\ sb_tsdu_them b = 0
}.

Hypothesis Ok : answer_ok a (sb_requirements b) p.
Hypothesis Waits : awaits_answer.
Hypothesis Pw : Forall (proposes_well u p) token_table.

Definition asks_for : Z := picked u (is_asked p (a_settings a)) token_table 0.

Definition answered_block : ssapblk := raise SB_CONN (set_owned (picked u (responder_has p (a_settings a)) token_table 0) (set_requirements u b)).

(** The answer of the responder, when it accepts. *)
Definition answers_connect : sess (Z * terms T) :=
  SConnResponse sizeof_spkt fresh ses_dn_timer ses_rf_timer x (Some (a_ref a)) (a_responding a) SC_ACCEPT (a_requirements a) (a_settings a) (a_isn a) (a_data a) (a_cc a).

Lemma u_range : 0 <= u < 65536.
Proof. apply units_range; eapply among_trans; [|exact (units_among _ (an_units _ _ _ Ok))]; intros n N; unfold u, agreed; rewrite Z.land_spec; destruct (Z.testbit (sb_requirements b) n); [auto | discriminate]. Qed.

Lemma accept_terms_ok st : ses_gone st = false -> ses_sb st = b -> exists settings,
  accept_terms x (a_requirements a) (a_settings a) (a_isn a) st =
    Val (Some (settings, asks_for), at_sb (set_owned (picked u (responder_has p (a_settings a)) token_table 0) (set_requirements u b)) st) /\
  is_byte settings /\ Forall (settled_at u p (a_settings a) settings) token_table.
Proof.
  intros Al Sb; unfold accept_terms; rewrite (an_units _ _ _ Ok), (an_duplex _ _ _ Ok), (an_exceptions _ _ _ Ok); cbn [orb].
  rewrite int2u16_Some by (apply units_range, units_among, (an_units _ _ _ Ok)); unfold bind at 1, update, put; rewrite Al; unfold bind at 1, get; cbn [ses_gone ses_sb]; rewrite Sb.
  change (Z.land (sb_requirements b) (a_requirements a)) with u; set (b1 := set_owned 0 (set_requirements u b)).
  destruct (choose_total p token_table table_apart b1 (a_settings a) 0 Pw (an_picks _ _ _ Ok) (an_byte _ _ _ Ok)) as (((b2, c2), pl) & E).
  destruct (each_choose p token_table table_apart b1 (a_settings a) 0 b2 c2 pl Pw (an_byte _ _ _ Ok) E) as (Eb & Ep & Bc & _ & Se).
  change (sb_requirements b1) with u in *; unfold choose_tokens, dotokens_or; fold p; rewrite E; cbn match; unfold bind, put; cbn [ses_gone].
  replace (sb_requirements b2) with u by (rewrite Eb; reflexivity); rewrite (an_isn _ _ _ Ok : bad_isn u (a_isn a) = false).
  exists c2; split; [rewrite Eb, Ep; unfold at_sb; rewrite Al; reflexivity | auto].
Qed.

Lemma ac_spkt_ok settings please b1 : sb_version b1 = SB_VRSN2 -> sb_tsdu_us b1 = 0 -> sb_tsdu_them b1 = 0 -> sb_requirements b1 = u -> is_byte settings -> is_byte please ->
  ac_spkt (a_ref a) b1 settings please (a_isn a) (new_spkt SPDU_AC) = inl (ac_terms a u settings please).
Proof.
  intros V Us Th R Bs Bp; unfold ac_spkt; rewrite V; change (int2u8 (Z.shiftl 1 SB_VRSN2)) with (Some 2); cbn match.
  match goal with |- context [if a_isn a =? SERIAL_NONE then Some ?s else _] => change s with (with_terms (a_ref a) 2 (new_spkt SPDU_AC)) end.
  rewrite (with_isn_ok _ _ _ (an_isn _ _ _ Ok)); unfold put_sizes; rewrite Us, Th; cbn [Z.eqb negb orb]; unfold needs, put_u8; rewrite R, !int2u8_Some by assumption.
  unfold ac_terms, with_please, with_units; destruct (meets u SR_TOKENS), (please =? 0); reflexivity.
Qed.

Definition in_room_answer : Prop := forall settings, is_byte settings -> in_room fresh (ac_packet a u settings asks_for).

Lemma SConnResponse_ok st : ses_gone st = false -> ses_sb st = b -> granting (ses_tp st) -> in_room_answer -> exists settings y,
  answers_connect st = Val ((OK, y), add_sent [(false, enc (ac_packet a u settings asks_for))] (at_sb answered_block st)) /\
  is_byte settings /\ Forall (settled_at u p (a_settings a) settings) token_table.
Proof.
  intros Al Sb G Room; destruct (accept_terms_ok st Al Sb) as (settings & Ea & Bs & Se); exists settings.
  destruct Waits as [Cn Ver (Us & Th)]; pose proof (an_responding _ _ _ Ok) as Rs; pose proof (an_data _ _ _ Ok) as D; set (y := match a_responding a with Some r => set_responding r x | None => x end).
  exists y; split; [|auto]; unfold answers_connect, SConnResponse, bind at 1, get; rewrite Al, Sb, Cn, (ref_taken _ (an_ref _ _ _ Ok)); cbn [orb]; fold y.
  assert (Ea' : accept_terms y (a_requirements a) (a_settings a) (a_isn a) st = accept_terms x (a_requirements a) (a_settings a) (a_isn a) st)
    by (unfold accept_terms, y; destruct (a_responding a); reflexivity).
  rewrite Z.eqb_refl; unfold bind at 1; rewrite Ea', Ea, Ver; change (SB_VRSN2 <? SB_VRSN2) with false; cbn match; cbn [negb].
  replace (match a_data a with None => false | Some _ => match a_data a with None => 0 | Some _ => a_cc a end >? ENCLOSE_MAX end) with false
    by (destruct (a_data a); [destruct D as (D & _); rewrite Z.gtb_ltb; symmetry; apply Z.ltb_ge; unfold SS_SIZE, ENCLOSE_MAX in *; lia | reflexivity]).
  unfold respond_AC; rewrite (newspkt_ok sizeof_spkt Mem) by (split; [discriminate | reflexivity]); unfold bind at 1, get; cbn [ses_gone ses_sb at_sb]; rewrite Al.
  rewrite ac_spkt_ok by (first [exact Ver | exact Us | exact Th | reflexivity | exact Bs | apply picked_byte]).
  assert (El : lift (if match a_responding a with Some _ => true | None => false end then put_selector A_called SMASK_CN_CALLED (sb_responding y) (ac_terms a u settings asks_for)
      else Val (Some (ac_terms a u settings asks_for))) = lift (Val (Some (with_responding (a_responding a) (ac_terms a u settings asks_for))))).
  { unfold y, with_responding; destruct (a_responding a) as [r|]; [|reflexivity]; cbn [sb_responding set_responding]; rewrite put_selector_ok; auto.
    apply (ok_arr _ (ac_terms_ok a _ p settings asks_for Ok u_range Bs (picked_byte _ _))). }
  rewrite El; unfold lift, bind at 1; change (match a_data a with None => 0 | Some _ => a_cc a end) with (a_count a).
  change (put_data (a_data a) (a_count a) (with_responding (a_responding a) (ac_terms a u settings asks_for))) with (ac_packet a u settings asks_for).
  pose proof (ac_packet_fields a u settings asks_for) as (Cc & _); unfold bind.
  rewrite (spkt2sd_ok fresh Mem Fresh) by
    (first [exact (ac_packet_ok a _ p settings asks_for Ok u_range Bs (picked_byte _ _)) | unfold complete; rewrite Cc; reflexivity | exact (Room settings Bs) | rewrite Cc; reflexivity | exact G]).
  change (OK =? NOTOK) with false; unfold update, put, add_sent, at_tp, at_sb; cbn [ses_gone ses_sb ses_si ses_tp ses_buffer]; rewrite Al; reflexivity.
Qed.
End Respond.

(** ** The AC SPDU is taken *)

(** What is asked for is found again in the bits of the AC SPDU. *)
Lemma please_back u f : let w := picked u f token_table 0 in
  fold_left (fun t row => let '(r, _, bit) := row in if meets u r && (negb (w =? 0) && meets w bit) then Z.lor t bit else t) token_table 0 = w.
Proof.
  intros w; subst w; unfold picked, token_table; cbn [fold_left].
  destruct (meets u SR_RLS_EXISTS), (meets u SR_MAJ_EXISTS), (meets u SR_MIN_EXISTS), (meets u SR_DAT_EXISTS), (f 6), (f 4), (f 2), (f 0); reflexivity.
Qed.

Lemma fold_left_ext {A B} (f g : A -> B -> A) l : (forall a b, In b l -> f a b = g a b) -> forall a, fold_left f l a = fold_left g l a.
Proof. induction l as [|b l IH]; intros E a; cbn; [reflexivity|]; rewrite (E a b (or_introl eq_refl)); apply IH; intros a' b' I; apply E; right; exact I. Qed.

Lemma table_units r s bit : In (r, s, bit) token_table -> forall u, meets u r = true -> meets u SR_TOKENS = true.
Proof.
  intros I u M; destruct (meets u SR_TOKENS) eqn:E; [reflexivity|]; rewrite (meets_sub u r SR_TOKENS) in M; [discriminate | | exact E].
  unfold token_table in I; repeat destruct I as [[= <- <- <-] | I]; try reflexivity; destruct I.
Qed.

Section Accept.
Context `{Allocator} (sizeof_spkt sizeof_qb sizeof_ssapblk : Z) (fresh : Z -> list Z).
Hypothesis Mem : memory_ok.
Hypothesis Fresh : forall n, 0 <= n -> zlen (fresh n) = n.
Variables ses_ab_timer ses_dn_timer ses_rf_timer : Z.
Variable char_signed : bool.
Context {T : Type} (no_ta : T).
Variables (o : offer T) (tc : TSAPconnect T) (a : reply_to T) (u settings please ind p' : Z).

Let p : Z := o_settings o.
Let c : Z := a_settings a.
Let s : ssapkt := ac_packet a u settings please.
Let prop : Z := proposed o tc.

Definition accepted_block : ssapblk :=
  SBlk SB_VRSN2 (Z.lor (sb_flags (asked_block o tc)) (Z.lor SB_CONN SB_INIT)) None (isn_of (a_isn a)) (isn_of (a_isn a)) 0 0 0 0 SPDU_PR None None [] 0 0 0 0
    (picked u (initiator_has p c) token_table 0) u.

(** What the user is told of an accepted connection. *)
Record tells_connect (sc : SSAPconnect T) : Prop := {
  tc_result : sc_result sc = SC_ACCEPT;
  tc_ref : octets (sr_calling (sc_connect sc)) = octets (sr_calling (a_ref a)) /\ octets (sr_comm (sc_connect sc)) = octets (sr_comm (a_ref a)) /\
    octets (sr_addt (sc_connect sc)) = octets (sr_addt (a_ref a));
  tc_units : sc_requirements sc = u;
  tc_serial : sc_isn sc = a_isn a;
  tc_please : sc_please sc = please;
  tc_user : match fst (sc_data sc) with Some d => d | None => [] end = data_of (a_data a) (a_count a)
}.

Definition answer_received (s' : ssapkt) : Prop :=
  received (a_ref a) 2 (a_isn a) 0 u settings false (match a_responding a with Some _ => true | None => false end) s' /\ s_code s' = SPDU_AC /\
  (is_set s' SMASK_AC_TOKEN = negb (please =? 0) /\ ((please =? 0) = false -> s_num s' N_ac_token = please)) /\
  (forall a, zlen (octets_of s' a) = c_len (s_arr s' a) /\ zlen (c_data (s_arr s' a)) = sarr_size a) /\
  match s_udata s' with Some d => d | None => [] end = data_of (a_data a) (a_count a).

Hypothesis Offered : offer_ok o.
Hypothesis Size : tc_tsdusize tc < 32768.
Hypothesis Answered : answer_ok a ind p'.
Hypothesis Units : among u prop.

Hypothesis Good : bad_units u = false.
Hypothesis Pw : Forall (proposes_well u p) token_table.
Hypothesis Settled : Forall (settled_at u p c settings) token_table.
Hypothesis Asked : exists f, please = picked u f token_table 0.

Lemma answer_of (D : within SS_SIZE (a_data a) (a_cc a)) s' : same_spdu s s' -> answer_received s'.
Proof.
  intros Sm; pose proof (ac_packet_fields a u settings please) as (C & F & A1 & A2); fold s in C, F, A1, A2; pose proof (same_given _ _ Sm) as G.
  destruct (user_of_answer a u settings please D) as (U & Cu); fold s in U, Cu; rewrite Cu in G.
  split; [exact (connect_received _ _ _ _ _ _ _ _ _ _ (or_intror C) F Sm)|]; split; [rewrite <- C; exact (same_code _ _ Sm)|]; split; [|split; [exact (same_room _ _ Sm)|]].
  - destruct (same_num s s' Sm SMASK_AC_TOKEN N_ac_token) as (N1 & N2); [unfold num_fields; rewrite C; codes; cbn; tauto|].
    rewrite N1, A1; split; [reflexivity|]; intros E; rewrite N2, A2 by (rewrite ?A1, ?E; reflexivity || exact E); reflexivity.
  - rewrite <- U; destruct (s_udata s) as [d|] eqn:E; [injection G as -> _; reflexivity|]; injection G as -> _; unfold user_octets; rewrite E; reflexivity.
Qed.

Lemma ac_tokens_ok s' b : answer_received s' -> sb_requirements b = u -> sb_owned b = 0 -> exists sc,
  ac_tokens s' p b = (set_owned (picked u (initiator_has p c) token_table 0) b, sc, please).
Proof.
  intros ([_ _ _ _ _ _ (S1 & S2) _ _] & _ & (A1 & A2) & _) Ru Ow; unfold ac_tokens, dotokens.
  destruct (ac_list s' p c token_table b 0 0) as (sc & E); rewrite ?Ru.
  - exact Pw.
  - intros r sh bit I M; rewrite S1; exact (table_units r sh bit I u M).
  - pose proof Settled as Se; rewrite Forall_forall in *; intros ((r, sh), bit) I M; rewrite S2 by exact (table_units r sh bit I u M); apply (Se _ I M).
  - exists sc; rewrite E, Ru, Ow; f_equal; destruct Asked as (f & Ef); pose proof (please_back u f) as Pb; cbv zeta in Pb; rewrite <- Ef in Pb; rewrite A1; etransitivity; [|exact Pb]; apply fold_left_ext; intros t ((r, sh), bit) _.
    destruct (please =? 0) eqn:E0; [reflexivity | rewrite (A2 eq_refl); reflexivity].
Qed.

Lemma retry_AC_ok s' st : ses_gone st = false -> answer_received s' -> exists sc x,
  retry_AC sizeof_spkt fresh ses_ab_timer ses_dn_timer ses_rf_timer (asked_terms no_ta o tc) tc s' (at_sb (set_retry None (asked_block o tc)) st) =
    Val ((DONE, Some sc, x), at_sb accepted_block st) /\ tells_connect sc.
Proof.
  intros Al Rc; pose proof Rc as ([(R1 & R2 & R3 & R4) (O1 & O2) (V1 & V2) (I1 & I2) (Z1 & Z2) (Q1 & Q2) (S1 & S2) Cg Cd] & Code & _ & Room & User).
  unfold retry_AC; rewrite O1, V1, Cd; unfold bind at 1, update, put, at_sb; cbn [ses_gone ses_sb ses_si ses_tp ses_buffer]; rewrite Al.
  unfold bind at 1, get; cbn [ses_gone ses_sb ses_si ses_tp ses_buffer].
  assert (Az : ac_sizes s' (set_retry None (asked_block o tc)) = set_tsdu 0 0 (set_retry None (asked_block o tc))).
  { unfold ac_sizes; rewrite Z1; change (sized 0) with false; cbn match; pose proof (o_size_range o tc Size) as Sr; unfold asked_block; cbn [sb_tsdu_us sb_tsdu_them set_retry].
    destruct (Z.ltb_spec 0 (o_size o tc)); [reflexivity|]; replace (o_size o tc) with 0 by lia; reflexivity. }
  rewrite Az; change (BAD_TSDU_SIZE (sb_tsdu_us (set_tsdu 0 0 (set_retry None (asked_block o tc))))) with false.
  change (BAD_TSDU_SIZE (sb_tsdu_them (set_tsdu 0 0 (set_retry None (asked_block o tc))))) with false; cbn [orb andb]; rewrite V2.
  assert (Mk : meets 2 (o_mask o) = true /\ Z.land (o_mask o) 2 = 2) by (unfold o_mask; destruct (propose_values (o_count o) (o_qos o)) as [-> | ->]; split; reflexivity).
  change (sb_vrsnmask (set_options (s_num s' N_options) (asked_terms no_ta o tc))) with (o_mask o); rewrite (proj1 Mk), (proj2 Mk); cbn [negb].
  unfold bind at 1; cbn [ses_gone ses_sb ses_si ses_tp ses_buffer]; unfold bind at 1; cbn [ses_gone ses_sb ses_si ses_tp ses_buffer].
  unfold bind at 1; cbn [ses_gone ses_sb ses_si ses_tp ses_buffer]; unfold ac_require; rewrite Q1, Q2.
  match goal with |- context [if is_set s' SMASK_CN_ISN then ?x else ?y] => set (b1 := if is_set s' SMASK_CN_ISN then x else y) end.
  assert (B1 : sb_requirements b1 = prop /\ sb_owned b1 = 0) by (unfold b1; destruct (is_set s' SMASK_CN_ISN); split; reflexivity).
  destruct B1 as (B1 & B1'); rewrite B1, (Z.land_comm prop u), (among_land _ _ Units).
  assert (Mu : meets u (Z.lnot prop) = false) by (rewrite meets_none; intros n N Bu; rewrite Z.lnot_spec, (Units n N Bu) by exact N; discriminate).
  rewrite Mu; unfold bind at 1; cbn [ses_gone ses_sb ses_si ses_tp ses_buffer sb_requirements set_requirements]; rewrite Good.
  destruct (ac_tokens_ok s' (set_requirements u b1) Rc eq_refl B1') as (st1 & Et); fold p in Et |- *.
  match goal with |- context [ac_tokens s' ?q _] => change q with p end; rewrite Et; cbn match; unfold bind at 1; cbn [ses_gone ses_sb ses_si ses_tp ses_buffer].
  assert (Sel : exists r, (if match a_responding a with Some _ => true | None => false end then take_selector s' A_called (SA (tc_responding tc) (sa_selectlen (o_called o)) (sa_selector (o_called o)))
      else Val (Some (SA (tc_responding tc) (sa_selectlen (o_called o)) (sa_selector (o_called o))))) = Val (Some r)).
  { destruct (a_responding a); [|eexists; reflexivity]; destruct (Room A_called) as (L & Zc); destruct (of_called o Offered) as (_ & Zs & _); cbn [c_data sarr_size] in Zs.
    eexists; apply take_selector_ok; first [reflexivity | exact L | exact Zc | exact Zs]. }
  destruct Sel as (r & Sel); unfold lift, bind at 1; cbn [sb_responding set_vrsnmask set_options asked_terms] in *; rewrite Sel; cbn match.
  unfold bind at 1; cbn [ses_gone ses_sb ses_si ses_tp ses_buffer]; do 2 eexists; split.
  - unfold ret; do 3 f_equal. 
    unfold b1, accepted_block, isn_of; rewrite I1; destruct (a_isn a =? SERIAL_NONE); [|rewrite I2 by reflexivity]; reflexivity.
  - split; cbn [sc_result sc_connect sc_requirements sc_isn sc_please sc_data]; rewrite ?R1, ?I1.
    + reflexivity.
    + exact (conj R2 (conj R3 R4)).
    + reflexivity.
    + destruct (Z.eqb_spec (a_isn a) SERIAL_NONE) as [->|]; [reflexivity | exact (I2 eq_refl)].
    + reflexivity.
    + exact User.
Qed.

Lemma asked_kept : nothing_kept (set_retry None (asked_block o tc)).
Proof. split; reflexivity. Qed.

Hypothesis Room : in_room fresh s.

(** The AC SPDU is read. *)
Lemma read_AC_ok tx b st : 0 <= u < 65536 -> u = agreed a ind -> is_byte settings -> is_byte please -> reading st -> carries tx false (enc s) -> exists s' y,
  sb2spkt_first sizeof_spkt fresh ses_ab_timer ses_rf_timer tx (at_sb b st) = Val (Some (Pkt s' [] 0), at_buffer y (at_sb b st)) /\ answer_received s' /\ buffer_ok y.
Proof.
  intros Ur Eu Bs Bp (Al & B) (Ex & Q & E & Cc); pose proof (ac_packet_fields a u settings please) as (C & _); fold s in C; unfold sb2spkt_first, bind.
  destruct (read_spdu_ok sizeof_spkt fresh Mem Fresh s 1 (tx_qbuf tx) [] (tx_cc tx) (at_sb b st)) as (s' & q & y & Er & Ac & Sm & _ & _ & By).
  - unfold s; rewrite Eu in *; apply (ac_packet_ok a ind p'); assumption.
  - unfold complete; rewrite C; reflexivity.
  - apply Room.
  - unfold s; rewrite Eu; exact (ac_readable a ind p' settings please Answered).
  - exact B.
  - exact Q.
  - rewrite app_nil_r; exact E.
  - rewrite Cc; apply Z.le_refl.
  - pose proof (answer_of (an_data _ _ _ Answered) s' Sm) as P; exists s', y; split; [|auto]; rewrite Er, Ac; unfold is_expd; rewrite Ex, Cc, Z.sub_diag, (proj1 (proj2 P)); reflexivity.
Qed.

(** The second call of the initiator, on the AC SPDU. *)
Definition hears_answer (answer : Z + Z * TSAPconnect T) : sess (coutcome (TSAPaddr := T)) :=
  SAsynRetryRequest sizeof_spkt fresh ses_ab_timer ses_dn_timer ses_rf_timer char_signed no_ta (asked_terms no_ta o tc) answer.

Lemma SAsynRetryRequest_ok answer tx l st : 0 <= u < 65536 -> u = agreed a ind -> is_byte settings -> is_byte please ->
  reading st -> ses_sb st = asked_block o tc -> tp_reads (ses_tp st) = inr tx :: l -> carries tx false (enc s) ->
  exists sc x y, hears_answer answer st = Val ((DONE, Some sc, x), at_buffer y (at_sb accepted_block (with_reads l st))) /\ buffer_ok y /\ tells_connect sc.
Proof.
  intros Ur Eu Bs Bp Rd Sb Tr Ca; unfold hears_answer, SAsynRetryRequest, bind at 1, get; rewrite (proj1 Rd), Sb.
  replace (has (asked_block o tc) SB_CONN) with false by (unfold asked_block, has; cbn [sb_flags]; destruct (tc_expedited tc =? 0); reflexivity).
  replace (has (asked_block o tc) SB_TS_CONN) with true by (unfold asked_block, has; cbn [sb_flags]; destruct (tc_expedited tc =? 0); reflexivity); cbn match.
  change (sb_tc (asked_terms no_ta o tc)) with tc; unfold SAsynRetryAux2, bind at 1, update, put; rewrite (proj1 Rd), Sb.
  replace (Ses (set_retry None (asked_block o tc)) false (ses_si st) (ses_tp st) (ses_buffer st)) with (at_sb (set_retry None (asked_block o tc)) st)
    by (unfold at_sb; rewrite (proj1 Rd); reflexivity).
  destruct (read_AC_ok tx (set_retry None (asked_block o tc)) (with_reads l st) Ur Eu Bs Bp) as (s' & y & E & P & By); [exact Rd | exact Ca|].
  unfold bind; rewrite (sb2spkt_waits _ _ _ _ tx l _ _ (proj1 Rd) asked_kept Tr).
  change (with_reads l (at_sb (set_retry None (asked_block o tc)) st)) with (at_sb (set_retry None (asked_block o tc)) (with_reads l st)); rewrite E; cbn [p_spkt].
  rewrite (proj1 (proj2 P)); change (SPDU_AC =? SPDU_AC) with true; cbn match.
  change (at_buffer y (at_sb (set_retry None (asked_block o tc)) (with_reads l st))) with (at_sb (set_retry None (asked_block o tc)) (at_buffer y (with_reads l st))).
  destruct (retry_AC_ok s' (at_buffer y (with_reads l st)) (proj1 Rd) P) as (sc & x & Er & Tc); exists sc, x, y; split; [|auto].
  rewrite Er; reflexivity.
Qed.
End Accept.

(** ** The connection *)

Lemma picked_split u f b : sb_requirements b = u -> let mine := picked u (fun s => negb (f s)) token_table 0 in let yours := picked u f token_table 0 in
  meets mine yours = false /\ Z.lor mine yours = tokens_of b.
Proof.
  intros R mine yours; subst mine yours; unfold tokens_of, needs; each_round; rewrite R; unfold picked; cbn [fold_left].
  destruct (meets u SR_RLS_EXISTS), (meets u SR_MAJ_EXISTS), (meets u SR_MIN_EXISTS), (meets u SR_DAT_EXISTS), (f 6), (f 4), (f 2), (f 0); split; reflexivity.
Qed.

Lemma meets_among u v m : among u v -> meets u m = true -> meets v m = true.
Proof.
  intros A M; destruct (meets v m) eqn:E; [reflexivity|]; rewrite meets_none in E; rewrite <- M; symmetry; apply meets_none; intros n N B; apply (E n N), A; assumption.
Qed.

Lemma agreed_among {T} (a : reply_to T) u : among (agreed a u) u.
Proof. intros n N; unfold agreed; rewrite Z.land_spec; destruct (Z.testbit u n); [auto | discriminate]. Qed.

Section Connect.
Context {T : Type}.

Lemma offer_proposes (o : offer T) u : offer_ok o -> among u (o_requirements o) -> Forall (proposes_well u (o_settings o)) token_table.
Proof.
  intros O A; pose proof (of_settings o O) as B; unfold bad_settings in B; apply Forall_forall; intros ((r, s), bit) I.
  assert (Sh : 0 <= s <= 6) by (unfold token_table in I; repeat destruct I as [[= <- <- <-] | I]; try (split; discriminate); destruct I).
  split; [exact Sh|]; intros M; apply (meets_among _ _ r A) in M; destruct (existsb (Z.eqb (st_at (o_settings o) s)) (map (fun v => st_val v s) [ST_INIT_VALUE; ST_RESP_VALUE; ST_CALL_VALUE])) eqn:E.
  - cbn [map existsb] in E; rewrite orb_false_r, !orb_true_iff, !Z.eqb_eq in E; tauto.
  - exfalso; enough (X : true = false) by discriminate; rewrite <- B; symmetry; apply existsb_exists; exists (r, s, bit); split; [exact I|]; rewrite M, E; reflexivity.
Qed.

Lemma meets_table u l : Forall (fun row : Z * Z * Z => In row token_table) l -> meets u SR_TOKENS = false -> Forall (fun row => meets u (fst (fst row)) = false) l.
Proof.
  intros F M; revert F; apply Forall_impl; intros ((r, s), bit) I; cbn [fst]; destruct (meets u r) eqn:E; [|reflexivity]; rewrite (table_units r s bit I u E) in M; discriminate.
Qed.

(** Settings matter only where there are tokens. *)
Lemma rows_settings (P : Z -> Z * Z * Z -> Prop) u p p' : (meets u SR_TOKENS = true -> p' = p) ->
  (forall r s bit, meets u r = false -> P p (r, s, bit) -> P p' (r, s, bit)) -> Forall (P p) token_table -> Forall (P p') token_table.
Proof.
  intros E N F; rewrite Forall_forall in *; intros ((r, s), bit) I; destruct (meets u r) eqn:M; [|apply N; [exact M | apply F, I]]; rewrite (E (table_units r s bit I u M)); apply F, I.
Qed.

Lemma answer_settings (a : reply_to T) u p p' : (meets (agreed a u) SR_TOKENS = true -> p' = p) -> answer_ok a u p -> answer_ok a u p'.
Proof.
  intros E []; split; try assumption; apply (rows_settings (fun p => picks_well (agreed a u) p (a_settings a)) (agreed a u) p); auto.
  intros r s bit M _; unfold picks_well; rewrite M; discriminate.
Qed.
End Connect.

(** Two sessions on a new transport connection: the first asks, the second
    takes the CN SPDU and responds, the first hears the AC or RF SPDU. Each
    is delivered in some buffers. *)
Section Scenario.
Context `{Allocator} (sizeof_spkt sizeof_qb sizeof_ssapblk : Z) (fresh : Z -> list Z).
Variables ses_ab_timer ses_dn_timer ses_rf_timer : Z.
Variable char_signed : bool.
Context {T : Type} (no_ta : T).

Definition connect (cut : bool -> list Z -> tsdu) (o : offer T) (responds : terms T -> sess (Z * terms T)) (result : Z) (tc : TSAPconnect T) (how : arrival (TSAPaddr := T)) (later : Z + Z * TSAPconnect T)
    (p : session * session) : cres (list Z * option (SSAPstart T) * option (SSAPconnect T) * (session * session)) :=
  let (i, r) := p in
  ' ((r1, _, x1), i1) <- asks_connect sizeof_spkt sizeof_ssapblk fresh ses_ab_timer ses_dn_timer ses_rf_timer char_signed no_ta o (inr (result, tc)) i;;
  ' ((r2, ss, x2), s2) <- starts sizeof_spkt sizeof_qb sizeof_ssapblk fresh ses_ab_timer ses_dn_timer ses_rf_timer no_ta how (deliver cut (since i i1) r);;
  ' ((r3, _), s3) <- responds x2 s2;;
  ' ((r4, sc, _), i4) <- SAsynRetryRequest sizeof_spkt fresh ses_ab_timer ses_dn_timer ses_rf_timer char_signed no_ta x1 later (deliver cut (since s2 s3) i1);;
  Val ([r1; r2; r3; r4], ss, sc, (i4, s3)).
End Scenario.

(** A session before its connection: the transport service takes what is
    written, and nothing is there to read. *)
Definition at_rest (st : session) : Prop := buffer_ok (ses_buffer st) /\ granting (ses_tp st) /\ tp_reads (ses_tp st) = [].

(** A session that is there, with nothing to read. *)
Definition listens (b : ssapblk) (st : session) : Prop := ses_sb st = b /\ reading st /\ granting (ses_tp st) /\ tp_reads (ses_tp st) = [].

Definition answered (u isn flags owned : Z) : ssapblk := SBlk SB_VRSN2 flags None isn isn 0 0 0 0 SPDU_PR None None [] 0 0 0 0 owned u.

(** The first half: the CN SPDU is sent, and indicated. *)
Definition asked_session {T} (o : offer T) (tc : TSAPconnect T) (i : session) : session := add_sent [(false, enc (cn_packet o tc))] (with_block (asked_block o tc) i).

Definition told_session {T} (cut : bool -> list Z -> tsdu) (o : offer T) (tc : TSAPconnect T) (ts : TSAPstart T) (y : option (list Z)) (r : session) : session :=
  with_block (indicated_block o tc ts) (at_buffer y (with_reads [] (deliver cut [(false, enc (cn_packet o tc))] r))).

Lemma asks_starts : forall (A : Allocator) z zq zb fresh ab dn rf char_signed T (no_ta : T) cut o result tc how ts i r,
  memory_ok -> (forall n, 0 <= n -> zlen (fresh n) = n) -> faithful cut -> at_rest i -> at_rest r ->
  offer_ok o -> tc_tsdusize tc < 32768 -> ts_tsdusize ts < 32768 -> in_room fresh (cn_packet o tc) -> result <> CONNECTING_1 -> result <> CONNECTING_2 ->
  sound_units (proposed o tc) -> reads_itself ts how ->
  asks_connect z zb fresh ab dn rf char_signed no_ta o (inr (result, tc)) i = Val ((CONNECTING_2, None, asked_terms no_ta o tc), asked_session o tc i) /\
  exists ss x y, starts z zq zb fresh ab dn rf no_ta how (deliver cut (since i (asked_session o tc i)) r) = Val ((OK, Some ss, x), told_session cut o tc ts y r) /\
    buffer_ok y /\ tells_start o tc ts ss /\ sb_fd x = ts_sd ts /\ (meets (proposed o tc) SR_TOKENS = true -> sb_settings x = o_settings o).
Proof.
  intros A z zq zb fresh ab dn rf cs T no_ta cut o result tc how ts i r M F C (Bi & Gi & Ri) (Br & Gr & Rr) Oo Nt Ns Rm R1 R2 So Hw; split.
  - exact (asks_connect_ok z zb fresh M F ab dn rf cs no_ta o tc result i Oo Nt Rm Gi R1 R2).
  - assert (Bc : bytes (enc (cn_packet o tc))) by (apply enc_octets; [apply cn_packet_ok; assumption | rewrite (proj1 (cn_packet_fields o tc)); cbn; tauto | apply Rm]).
    replace (since i (asked_session o tc i)) with [(false, enc (cn_packet o tc))] by (symmetry; apply zdrop_exact).
    apply (SInit_ok z zq zb fresh M F ab dn rf no_ta o tc ts Oo Nt Rm So how (cut false (enc (cn_packet o tc)))); [exact Hw | exact Ns | exact Br | cbn; rewrite Rr; reflexivity | exact (C _ Bc)].
Qed.

Lemma connect_runs : forall (A : Allocator) z zq zb fresh ab dn rf char_signed T (no_ta : T) cut o a result tc how ts later i r,
  memory_ok -> (forall n, 0 <= n -> zlen (fresh n) = n) -> faithful cut -> at_rest i -> at_rest r ->
  offer_ok o -> tc_tsdusize tc < 32768 -> ts_tsdusize ts < 32768 -> in_room fresh (cn_packet o tc) -> result <> CONNECTING_1 -> result <> CONNECTING_2 ->
  sound_units (proposed o tc) -> reads_itself ts how ->
  let u := agreed a (indicated o tc ts) in
  answer_ok a (indicated o tc ts) (o_settings o) -> 
  (forall settings please, is_byte settings -> is_byte please -> in_room fresh (ac_packet a u settings please)) ->
  exists ss sc i' r', connect z zq zb fresh ab dn rf char_signed no_ta cut o (answers_connect z fresh dn rf a) result tc how later (i, r) =
      Val ([CONNECTING_2; OK; OK; DONE], Some ss, Some sc, (i', r')) /\
    tells_start o tc ts ss /\ tells_connect a u (picked u (is_asked (o_settings o) (a_settings a)) token_table 0) sc /\
    listens (accepted_block o tc a u) i' /\
    listens (answered u (isn_of (o_isn o)) (Z.lor (if ts_expedited ts =? 0 then 0 else SB_EXPD) SB_CONN) (picked u (responder_has (o_settings o) (a_settings a)) token_table 0)) r'.
Proof.
  intros A z zq zb fresh ab dn rf cs T no_ta cut o a result tc how ts later i r M F C (Bi & Gi & Ri) (Br & Gr & Rr) Oo Nt Ns Rm R1 R2 So Hw u An Ra.
  pose proof (units_among _ (of_units o Oo)) as Ao.
  assert (Ap : among (proposed o tc) (o_requirements o)) by apply units_on_among, Ao.
  assert (Ai : among (indicated o tc ts) (proposed o tc)) by (apply units_on_among; eapply among_trans; [exact Ap | exact Ao]).
  assert (Au : among u (proposed o tc)) by (eapply among_trans; [apply agreed_among | exact Ai]).
  assert (Ur : 0 <= u < 65536) by (apply units_range; eapply among_trans; [exact Au|]; eapply among_trans; [exact Ap | exact Ao]).
  assert (Pw : Forall (proposes_well u (o_settings o)) token_table) by (apply offer_proposes; [exact Oo | eapply among_trans; [exact Au | exact Ap]]).
  set (p := o_settings o) in *.
  destruct (asks_starts A z zq zb fresh ab dn rf cs T no_ta cut o result tc how ts i r M F C (conj Bi (conj Gi Ri)) (conj Br (conj Gr Rr)) Oo Nt Ns Rm R1 R2 So Hw)
    as (Eq & ss & x & y & Es & By & Ts & _ & Sx).
  unfold connect; rewrite Eq; cbn [cbind]; rewrite Es; cbn [cbind]; set (i1 := asked_session o tc i); set (s2 := told_session cut o tc ts y r).
  assert (Ep : meets u SR_TOKENS = true -> sb_settings x = p) by (intros Mt; apply Sx, (meets_among u _ _ Au Mt)).
  pose proof (answer_settings a (indicated o tc ts) p (sb_settings x) Ep An) as An'.
  assert (Pw' : Forall (proposes_well u (sb_settings x)) token_table).
  { revert Pw; apply (rows_settings (proposes_well u) u p _ Ep); intros r0 s0 bit Mf (Sh & _); split; [exact Sh|]; rewrite Mf; discriminate. }
  assert (Ek : forall f : Z -> Z -> bool, picked u (f (sb_settings x)) token_table 0 = picked u (f p) token_table 0).
  { intros f; apply picked_only, Forall_forall; intros ((r0, s0), bit) I Mt; rewrite (Ep (table_units r0 s0 bit I u Mt)); reflexivity. }
  destruct (SConnResponse_ok z fresh M F dn rf a (indicated_block o tc ts) x An') with (st := s2) as (settings & y2 & Ea & Bs & Se);
    [split; [unfold has, indicated_block; cbn [sb_flags]; destruct (ts_expedited ts =? 0); reflexivity | reflexivity | split; reflexivity] | exact Pw' | reflexivity..
    | exact Gr | intros w Bw; apply Ra; [exact Bw | apply picked_byte]|].
  rewrite Ea; cbn [cbind]; change (agreed a (sb_requirements (indicated_block o tc ts))) with u in *; unfold asks_for in *; change (agreed a (sb_requirements (indicated_block o tc ts))) with u in *.
  rewrite (Ek (fun w => is_asked w (a_settings a))) in *; set (please := picked u (is_asked p (a_settings a)) token_table 0) in *; set (ac := ac_packet a u settings please) in *.
  assert (Bp : is_byte please) by apply picked_byte.
  set (s3 := add_sent _ _); replace (since s2 s3) with [(false, enc ac)] by (symmetry; apply zdrop_exact).
  assert (Ba : bytes (enc ac)) by (apply enc_octets; [exact (ac_packet_ok a _ p settings please An Ur Bs Bp) | unfold ac; rewrite (proj1 (ac_packet_fields a u settings please)); cbn; tauto | apply (Ra settings please Bs Bp)]).
  assert (Se' : Forall (settled_at u p (a_settings a) settings) token_table).
  { revert Se; apply (rows_settings (fun w => settled_at u w (a_settings a) settings) u (sb_settings x) p); [intros Mt; symmetry; exact (Ep Mt)|]; intros r0 s0 bit Mf _; unfold settled_at; rewrite Mf; discriminate. }
  destruct (SAsynRetryRequest_ok z fresh M F ab dn rf cs no_ta o tc a u settings please (indicated o tc ts) p Oo Nt An Au (an_agreed _ _ _ An) Pw Se' (ex_intro _ _ eq_refl)
    (Ra settings please Bs Bp) later (cut false (enc ac)) [] (deliver cut [(false, enc ac)] i1) Ur eq_refl Bs Bp) as (sc & x4 & y4 & Er & By4 & Tc);
    [split; [reflexivity | exact Bi] | reflexivity | cbn; rewrite Ri; reflexivity | exact (C _ Ba)|].
  unfold hears_answer in Er; rewrite Er; cbn [cbind]; exists ss, sc; eexists; eexists; split; [reflexivity|]; split; [exact Ts|]; split; [exact Tc|]; split.
  - split; [reflexivity|]; split; [split; [reflexivity | exact By4]|]; split; [exact (add_sent_granting _ i Gi) | reflexivity].
  - split; [rewrite <- (Ek (fun w => responder_has w (a_settings a))); reflexivity|].
    split; [split; [reflexivity | exact By]|]; split; [exact (add_sent_granting _ s2 Gr) | reflexivity].
Qed.

(** C4. Two users who connect agree. Where the initiator asks with proper
    parameters, the responder takes the CN SPDU however the connection came
    to it, and accepts with proper parameters, every call returns and
    succeeds; each user is told the reference, the initial serial number and
    the data of the other, and both are told of the same functional units,
    which are among those of both; the two sessions that are left
    have nothing in progress, and each token of those functional units is
    owned by one of them, the responder where it was left the choice and
    chose itself or where the token was proposed to it. The initiator
    counts from the serial number of the answer and the responder from that
    of the proposal, so that they agree where these are the same. *)
Theorem session_connects : forall (A : Allocator) z zq zb fresh ab dn rf char_signed T (no_ta : T) cut o a result tc how ts later i r,
  memory_ok -> (forall n, 0 <= n -> zlen (fresh n) = n) -> faithful cut -> at_rest i -> at_rest r ->
  offer_ok o -> tc_tsdusize tc < 32768 -> ts_tsdusize ts < 32768 -> in_room fresh (cn_packet o tc) -> result <> CONNECTING_1 -> result <> CONNECTING_2 ->
  sound_units (proposed o tc) -> reads_itself ts how ->
  let u := agreed a (indicated o tc ts) in
  answer_ok a (indicated o tc ts) (o_settings o) -> meets u SR_ACTIVITY = false ->
  (forall settings please, is_byte settings -> is_byte please -> in_room fresh (ac_packet a u settings please)) ->
  exists ss sc i' r', connect z zq zb fresh ab dn rf char_signed no_ta cut o (answers_connect z fresh dn rf a) result tc how later (i, r) =
      Val ([CONNECTING_2; OK; OK; DONE], Some ss, Some sc, (i', r')) /\
    tells_start o tc ts ss /\ tells_connect a u (picked u (is_asked (o_settings o) (a_settings a)) token_table 0) sc /\
    met i' r' /\ sb_requirements (ses_sb i') = u /\
    sb_owned (ses_sb r') = picked u (responder_has (o_settings o) (a_settings a)) token_table 0 /\
    meets (sb_owned (ses_sb i')) (sb_owned (ses_sb r')) = false /\ Z.lor (sb_owned (ses_sb i')) (sb_owned (ses_sb r')) = tokens_of (ses_sb i') /\
    sb_V_M (ses_sb i') = isn_of (a_isn a) /\ sb_V_M (ses_sb r') = isn_of (o_isn o) /\
    (a_isn a = o_isn o -> settled i' r').
Proof.
  intros A z zq zb fresh ab dn rf cs T no_ta cut o a result tc how ts later i r M F C Ri Rr Oo Nt Ns Rm R1 R2 So Hw u An Na Ra.
  destruct (connect_runs A z zq zb fresh ab dn rf cs T no_ta cut o a result tc how ts later i r M F C Ri Rr Oo Nt Ns Rm R1 R2 So Hw An Ra)
    as (ss & sc & i' & r' & E & Ts & Tc & (Bi & Li & Gi & Ni) & (Br & Lr & Gr & Nr)); fold u in Tc, Bi, Br.
  pose proof (picked_split u (responder_has (o_settings o) (a_settings a)) (accepted_block o tc a u) eq_refl) as (D & Un).
  assert (Met : met i' r').
  { split; [|split; [|rewrite Bi, Br; reflexivity]]; (split; [assumption|split; [assumption|split; [|assumption]]]); rewrite ?Bi, ?Br; split; try reflexivity.
    - unfold has, accepted_block, asked_block; cbn [sb_flags]; destruct (tc_expedited tc =? 0); reflexivity.
    - unfold has, accepted_block, asked_block; cbn [sb_flags]; destruct (tc_expedited tc =? 0); reflexivity.
    - unfold no_activity, needs; cbn [sb_requirements accepted_block]; rewrite Na; reflexivity.
    - unfold has, answered; cbn [sb_flags]; destruct (ts_expedited ts =? 0); reflexivity.
    - unfold has, answered; cbn [sb_flags]; destruct (ts_expedited ts =? 0); reflexivity.
    - unfold no_activity, needs; cbn [sb_requirements answered]; rewrite Na; reflexivity. }
  exists ss, sc, i', r'; split; [exact E|]; split; [exact Ts|]; split; [exact Tc|]; split; [exact Met|]; unfold settled; rewrite Bi, Br.
  cbn [sb_requirements sb_owned sb_V_M accepted_block answered]; split; [reflexivity|]; split; [reflexivity|]; split; [exact D|]; split; [exact Un|].
  split; [reflexivity|]; split; [reflexivity|]; intros Ei; split; [exact D|]; split; [exact Un|]; rewrite Ei; reflexivity.
Qed.

(** ** An example *)

Definition ex_cnt (l : list Z) (size : Z) : counted := Cnt (zlen l) (l ++ zeros (size - zlen l)).
Definition ex_ref (l : list Z) : sref := Ref (ex_cnt l 64) (ex_cnt l 64) (ex_cnt [] 4) (ex_cnt [] 64).
Definition ex_sa (l : list Z) : SSAPaddr unit := SA tt (zlen l) (l ++ zeros (64 - zlen l)).

(** The data token is left to the responder, who takes it; the minor token
    is kept by the initiator and asked for. *)
Definition ex_offer : offer unit :=
  Offer (ex_ref [1; 2]) (Some (ex_sa [9])) (ex_sa [7; 7]) (ors [SR_HALFDUPLEX; SR_MINORSYNC; SR_TYPEDATA; SR_EXPEDITED])
    (Z.lor (st_val ST_CALL_VALUE 0) (st_val ST_INIT_VALUE 2)) 5 (Some [1; 2; 3]) 3 None.
Definition ex_answer : reply_to unit :=
  Answer (ex_ref [3; 4]) (Some (ex_sa [8])) (ors [SR_HALFDUPLEX; SR_MINORSYNC]) (Z.lor (st_val ST_RESP_VALUE 0) (st_val ST_RSVD_VALUE 2)) 5 (Some [6; 5]) 2.
Definition ex_tc : TSAPconnect unit := Tc 4 tt 1 1024 no_qos.
Definition ex_ts : TSAPstart unit := Ts 5 tt tt 0 1024 no_qos.
Definition ex_new : session := ex_session new_sblk [].

Lemma ex_connects : match connect (H := plenty) 800 64 400 zeros 30 30 30 true tt (ex_cut 0) ex_offer (answers_connect (H := plenty) 800 zeros 30 30 ex_answer) DONE ex_tc (Accepted ex_ts None) (inl 0) (ex_new, ex_new) with
  | Val (rs, Some ss, Some sc, (i, r)) => rs = [CONNECTING_2; OK; OK; DONE] /\ sb_owned (ses_sb i) = ST_MIN_TOKEN /\ sb_owned (ses_sb r) = ST_DAT_TOKEN /\ sc_please sc = ST_MIN_TOKEN
  | _ => False
  end.
Proof. vm_compute; auto. Qed.

Lemma ex_selector l : zlen l <= 64 -> bytes l -> selector_ok (ex_sa l).
Proof.
  intros L B; pose proof (zlen_nonneg l); split; [cbn [c_len sarr_size ex_sa sa_selectlen]; unfold SREF_USER_SIZE; lia|]; cbn [c_data ex_sa sa_selector]; split.
  - rewrite zlen_app, zeros_fresh by lia; cbn [sarr_size]; unfold SREF_USER_SIZE; lia.
  - apply bytes_app; split; [exact B | apply Forall_forall; intros x I; apply repeat_spec in I as ->; split; discriminate || reflexivity].
Qed.

Lemma ex_counted a l size : sarr_size a = size -> zlen l <= size -> bytes l -> counted_ok a (ex_cnt l size).
Proof.
  intros S L B; pose proof (zlen_nonneg l); split; [cbn [c_len ex_cnt]; lia|]; cbn [c_data ex_cnt]; split.
  - rewrite zlen_app, zeros_fresh by lia; lia.
  - apply bytes_app; split; [exact B | apply Forall_forall; intros x I; apply repeat_spec in I as ->; split; discriminate || reflexivity].
Qed.

Ltac ex_bytes := repeat constructor; discriminate || reflexivity.

Lemma ex_ref_ok l : zlen l <= 64 -> bytes l -> ref_ok (ex_ref l).
Proof.
  intros L B; split; [|split; [|split; [|reflexivity]]]; cbn [sr_calling sr_comm sr_addt ex_ref]; apply ex_counted; try assumption; try reflexivity; [discriminate | constructor].
Qed.

Lemma ex_offer_ok : offer_ok ex_offer.
Proof.
  split; try reflexivity.
  - apply ex_ref_ok; [discriminate | ex_bytes].
  - apply ex_selector; [discriminate | ex_bytes].
  - apply ex_selector; [discriminate | ex_bytes].
  - split; [discriminate | reflexivity].
  - split; [split; discriminate|]; intros _; split; [discriminate | ex_bytes].
Qed.

Lemma ex_answer_ok : answer_ok ex_answer (indicated ex_offer ex_tc ex_ts) (o_settings ex_offer).
Proof.
  split; try reflexivity.
  - apply ex_ref_ok; [discriminate | ex_bytes].
  - apply ex_selector; [discriminate | ex_bytes].
  - split; [discriminate | reflexivity].
  - unfold token_table; repeat (apply Forall_cons; [intros M E; vm_compute in M, E |- *; first [discriminate | auto]|]); apply Forall_nil.
  - split; [split; discriminate|]; intros _; split; [discriminate | ex_bytes].
Qed.

Lemma ex_room settings please : in_room (H := plenty) zeros (ac_packet ex_answer (agreed ex_answer (indicated ex_offer ex_tc ex_ts)) settings please).
Proof.
  change (agreed ex_answer (indicated ex_offer ex_tc ex_ts)) with (Z.lor SR_HALFDUPLEX SR_MINORSYNC); unfold ac_packet, ac_terms, with_please; destruct (please =? 0).
  all: split; [vm_compute; discriminate|]; split; [vm_compute; reflexivity | left; vm_compute; discriminate].
Qed.

(** The responder takes the data token, the initiator keeps the minor token
    and is asked for it, and both go on from serial number 5. *)
Lemma session_connects_witness : exists ss sc i' r',
  connect (H := plenty) 800 64 400 zeros 30 30 30 true tt (ex_cut 0) ex_offer (answers_connect (H := plenty) 800 zeros 30 30 ex_answer) DONE ex_tc (Accepted ex_ts None) (inl 0) (ex_new, ex_new) =
    Val ([CONNECTING_2; OK; OK; DONE], Some ss, Some sc, (i', r')) /\
  met i' r' /\ settled i' r' /\ sb_owned (ses_sb r') = ST_DAT_TOKEN /\ sc_please sc = ST_MIN_TOKEN /\ sb_V_M (ses_sb i') = 5.
Proof.
  destruct (session_connects plenty 800 64 400 zeros 30 30 30 true unit tt (ex_cut 0) ex_offer ex_answer DONE ex_tc (Accepted ex_ts None) ex_ts (inl 0) ex_new ex_new
    ex_memory zeros_fresh (ex_faithful 0)) as (ss & sc & i' & r' & E & _ & Tc & Me & _ & Ow & _ & _ & Vi & _ & St).
  - split; [constructor | split; [constructor | reflexivity]].
  - split; [constructor | split; [constructor | reflexivity]].
  - exact ex_offer_ok.
  - reflexivity.
  - reflexivity.
  - split; [vm_compute; discriminate|]; split; [vm_compute; reflexivity | left; vm_compute; discriminate].
  - discriminate.
  - discriminate.
  - split; reflexivity.
  - right; reflexivity.
  - exact ex_answer_ok.
  - reflexivity.
  - intros settings please _ _; apply ex_room.
  - exists ss, sc, i', r'; split; [exact E|]; split; [exact Me|]; split; [exact (St eq_refl)|]; split; [rewrite Ow; reflexivity|]; split; [rewrite (tc_please _ _ _ _ Tc); reflexivity | exact Vi].
Defined.

(** The responder does not keep the serial number of its answer: where it is
    another than that of the proposal the two sides count from different
    numbers. *)
Definition ex_later : reply_to unit :=
  Answer (a_ref ex_answer) (a_responding ex_answer) (a_requirements ex_answer) (a_settings ex_answer) 9 (a_data ex_answer) (a_cc ex_answer).

Lemma responder_keeps_isn : match connect (H := plenty) 800 64 400 zeros 30 30 30 true tt (ex_cut 0) ex_offer (answers_connect (H := plenty) 800 zeros 30 30 ex_later) DONE ex_tc (Accepted ex_ts None) (inl 0) (ex_new, ex_new) with
  | Val (rs, Some ss, Some sc, (i, r)) => rs = [CONNECTING_2; OK; OK; DONE] /\ sc_isn sc = 9 /\ sb_V_M (ses_sb i) = 9 /\ sb_V_M (ses_sb r) = 5
  | _ => False
  end.
Proof. vm_compute; auto. Qed.
