(* ===== verification/SconnRefuse.v ===== *)
(** * ssap: a connection that is refused

    The RF SPDU of a responder that refuses, as the initiator takes it: the
    reason and the data of the one user reach the other, and both blocks are
    freed. *)

From S2P Require Import Prelude Conv Convert PElement PStream Qbuf Tpkt Tpkt2fd Tcp Tp0 Tp0Conn Transfer Spkt Spkt2tsdu Tsdu2spkt Spdu Ssap Sreq Sread Swrite Ssdu Session Message Peers StrSpkt Sconn SconnAgree SconnMeet.
Open Scope Z_scope.
Open Scope c_scope.
Open Scope ses_scope.

Record refusal : Type := Refusal { f_ref : sref; f_status : Z; f_requirements : Z; f_data : option (list Z); f_cc : Z }.

(** A refusal that SConnResponse sends. *)
Record refusal_ok (d : refusal) : Prop := {
  fo_ref : ref_ok (f_ref d);
  fo_status : In (f_status d) [SC_NOTSPECIFIED; SC_CONGESTION; SC_REJECTED];
  fo_units : 0 <= f_requirements d < 65536;
  fo_data : within (RF_SIZE - 1) (f_data d) (f_cc d)
}.

Definition f_count (d : refusal) : Z := match f_data d with None => 0 | Some _ => f_cc d end.
Definition f_octets (d : refusal) : list Z := data_of (f_data d) (f_count d).

(** The RF SPDU. *)
Definition rf_terms (d : refusal) : ssapkt :=
  let s := set_arr (set_arr (set_arr (Set_ (new_spkt SPDU_RF) SMASK_RF_REF) A_rf_user (sr_calling (f_ref d))) A_rf_comm (sr_comm (f_ref d))) A_rf_addt (sr_addt (f_ref d)) in
  if f_status d =? SC_REJECTED then set_num (Set_ s SMASK_RF_REQ) N_rf_require (f_requirements d) else s.

Definition rf_packet (d : refusal) (expd : bool) : ssapkt :=
  let s := set_num (Set_ (set_rdata (rf_terms d) (Some (f_status d :: f_octets d)) (1 + f_count d)) SMASK_RF_DISC) N_rf_disconnect 1 in
  if expd then Set_ s SMASK_SPDU_EXPD else s.

Lemma f_count_range d : refusal_ok d -> 0 <= f_count d <= RF_SIZE - 1 /\ zlen (f_octets d) = f_count d /\ bytes (f_octets d).
Proof.
  intros O; pose proof (fo_data d O) as D; unfold f_octets, f_count, data_of, within in *; destruct (f_data d) as [l|]; [|repeat split; try discriminate; constructor].
  destruct D as (C & W); split; [exact C|]; destruct (Z.ltb_spec 0 (f_cc d)) as [P|P]; [destruct (W P) as (L & B); rewrite zlen_ztake by lia; split; [reflexivity | apply Forall_ztake, B]|].
  replace (f_cc d) with 0 by lia; split; [reflexivity | constructor].
Qed.

Lemma status_small d : refusal_ok d -> 0 <= f_status d <= 2.
Proof. intros O; destruct (fo_status d O) as [E | [E | [E | []]]]; rewrite <- E; split; discriminate. Qed.

Lemma ok_set_rdata s d : spkt_ok s -> 0 < zlen d <= RF_SIZE -> bytes d -> spkt_ok (set_rdata s (Some d) (zlen d)).
Proof. intros [N A R D U] L B; split; try assumption; split; [split; [unfold SEGMENT_MAX, RF_SIZE in *; cbn [s_rlen set_rdata]; lia|]; split; [apply Z.le_refl | exact B] | apply L]. Qed.

Lemma rf_packet_ok d expd : refusal_ok d -> spkt_ok (rf_packet d expd).
Proof.
  intros O; destruct (f_count_range d O) as (C & L & B); pose proof (status_small d O) as S; destruct (fo_ref d O) as (R1 & R2 & R3 & _).
  assert (X : spkt_ok (rf_terms d)).
  { unfold rf_terms; assert (Y : spkt_ok (set_arr (set_arr (set_arr (Set_ (new_spkt SPDU_RF) SMASK_RF_REF) A_rf_user (sr_calling (f_ref d))) A_rf_comm (sr_comm (f_ref d))) A_rf_addt (sr_addt (f_ref d)))).
    { apply ok_set_arr; [apply ok_set_arr; [apply ok_set_arr; [apply ok_Set, ok_new | exact R1] | exact R2] | exact R3]. }
    destruct (_ =? _); [|exact Y]; apply ok_set_num; [apply ok_Set, Y | exact (fo_units d O)]. }
  unfold rf_packet; replace (1 + f_count d) with (zlen (f_status d :: f_octets d)) by (rewrite zlen_cons, L; lia).
  assert (Z : spkt_ok (set_num (Set_ (set_rdata (rf_terms d) (Some (f_status d :: f_octets d)) (zlen (f_status d :: f_octets d))) SMASK_RF_DISC) N_rf_disconnect 1)).
  { apply ok_set_num; [apply ok_Set, ok_set_rdata; [exact X | rewrite zlen_cons, L; lia | constructor; [split; lia | exact B]] | split; [discriminate | reflexivity]]. }
  destruct expd; [apply ok_Set|]; exact Z.
Qed.

Lemma rf_packet_fields d expd : let s := rf_packet d expd in
  s_code s = SPDU_RF /\ is_set s SMASK_RF_REF = true /\ (s_arr s A_rf_user = sr_calling (f_ref d) /\ s_arr s A_rf_comm = sr_comm (f_ref d) /\ s_arr s A_rf_addt = sr_addt (f_ref d)) /\
  is_set s SMASK_RF_REQ = (f_status d =? SC_REJECTED) /\ ((f_status d =? SC_REJECTED) = true -> s_num s N_rf_require = f_requirements d) /\
  s_rdata s = Some (f_status d :: f_octets d) /\ s_rlen s = 1 + f_count d /\ s_udata s = None /\ s_ulen s = 0 /\ is_set s SMASK_CN_CALLED = false /\ is_set s SMASK_ENCLOSE = false.
Proof.
  unfold rf_packet, rf_terms; destruct (f_status d =? SC_REJECTED) eqn:E, expd; repeat (split; [reflexivity|]); split; try reflexivity; repeat (split; [first [reflexivity | intros X; discriminate X | intros _; reflexivity]|]); reflexivity.
Qed.

Lemma rf_readable d expd : readable (rf_packet d expd) 1.
Proof.
  pose proof (rf_packet_fields d expd) as (C & _ & _ & _ & _ & _ & _ & _ & Ul & _); split; try (rewrite C; discriminate).
  - intros f; unfold rf_packet, rf_terms; destruct (_ =? _), expd; destruct f; reflexivity.
  - rewrite Ul; unfold udata_limit; rewrite C; discriminate.
Qed.

(** What the user is told of a refusal. *)
Record tells_refusal {T} (d : refusal) (sc : SSAPconnect T) : Prop := {
  tr_sd : sc_sd sc = NOTOK;
  tr_result : sc_result sc = f_status d;
  tr_ref : octets (sr_calling (sc_connect sc)) = octets (sr_calling (f_ref d)) /\ octets (sr_comm (sc_connect sc)) = octets (sr_comm (f_ref d)) /\
    octets (sr_addt (sc_connect sc)) = octets (sr_addt (f_ref d));
  tr_requirements : sc_requirements sc = if f_status d =? SC_REJECTED then f_requirements d else 0;
  tr_data : sc_data sc = (Some (f_octets d), f_count d)
}.

Section Refuse.
Context `{Allocator} (sizeof_spkt sizeof_qb sizeof_ssapblk : Z) (fresh : Z -> list Z).
Hypothesis Mem : memory_ok.
Hypothesis Fresh : forall n, 0 <= n -> zlen (fresh n) = n.
Variables ses_ab_timer ses_dn_timer ses_rf_timer : Z.
Variable char_signed : bool.
Context {T : Type} (no_ta : T).
Variable d : refusal.
Hypothesis Ok : refusal_ok d.

Lemma rf_data_ok : rf_data fresh (f_status d) (f_data d) (f_count d) = Val (Some (f_status d :: f_octets d)).
Proof.
  destruct (f_count_range d Ok) as (C & L & B); pose proof (status_small d Ok) as S; unfold RF_SIZE in C; unfold rf_data.
  assert (Z1 : zlen (fresh (u32 (1 + f_count d))) = 1 + f_count d) by (unfold u32; rewrite Z.mod_small by lia; apply Fresh; lia).
  replace (Z.land (f_status d) 255) with (f_status d) by (destruct (fo_status d Ok) as [E | [E | [E | []]]]; rewrite <- E; reflexivity).
  rewrite (wr_prefix _ [f_status d]) by (rewrite Z1; change (zlen [f_status d]) with 1; lia); cbn [cbind]; change (zlen [f_status d]) with 1; rewrite Z.gtb_ltb.
  assert (Zt : zlen (zdrop 1 (fresh (u32 (1 + f_count d)))) = f_count d) by (rewrite zlen_zdrop by lia; lia).
  destruct (Z.ltb_spec 0 (f_count d)) as [P|P].
  - pose proof (fo_data d Ok) as D; unfold f_octets, f_count, data_of, within, RF_SIZE in *; destruct (f_data d) as [l|]; [|lia]; destruct D as (_ & D); destruct (D P) as (Le & _).
    pose proof (bcopy_whole (ztake (f_cc d) l) (zdrop (f_cc d) l)) as W; rewrite ztake_zdrop, zlen_ztake in W by lia; rewrite W by (unfold is_int, INT_MIN, INT_MAX; lia); cbn [cbind].
    rewrite wr_in by (rewrite ?zlen_app, ?zlen_ztake, ?Zt by lia; change (zlen [f_status d]) with 1; lia); cbn [cbind]; rewrite ztake_app_exact, zdrop_all by (try reflexivity; rewrite zlen_app, zlen_ztake, Zt by lia; change (zlen [f_status d]) with 1; lia).
    rewrite app_nil_r; reflexivity.
  - unfold f_octets; replace (f_count d) with 0 in * by lia; apply zlen_0 in Zt; rewrite Zt; unfold data_of; destruct (f_data d); reflexivity.
Qed.

(** The answer of the responder, when it refuses: what it says of its
    address, of the settings and of the serial number is not looked at. *)
Definition refuses_connect (responding : option (SSAPaddr T)) (settings isn : Z) (x : terms T) : sess (Z * terms T) :=
  SConnResponse sizeof_spkt fresh ses_dn_timer ses_rf_timer x (Some (f_ref d)) responding (f_status d) (f_requirements d) settings isn (f_data d) (f_cc d).

Lemma freesblk_gone c st : ses_gone st = false -> has (ses_sb st) SB_FINN = false -> exists st', freesblk ses_dn_timer c st = Val (tt, st') /\
  ses_gone st' = true /\ tp_sent (ses_tp st') = tp_sent (ses_tp st) /\ tp_reads (ses_tp st') = tp_reads (ses_tp st).
Proof.
  intros Al Fi; unfold freesblk, bind, get; rewrite Al, Fi; destruct c; eexists; (split; [reflexivity|]); repeat split; reflexivity.
Qed.

Lemma SConnResponse_refuses responding settings isn x b st : ses_gone st = false -> ses_sb st = b -> awaits_answer b -> has b SB_FINN = false -> granting (ses_tp st) -> tp_reads (ses_tp st) = [] ->
  in_room fresh (rf_packet d (has b SB_EXPD)) -> exists y st' e,
  refuses_connect responding settings isn x st = Val ((OK, y), st') /\ ses_gone st' = true /\ since st st' = [(e, enc (rf_packet d (has b SB_EXPD)))].
Proof.
  intros Al Sb [Cn Ver _] Fi G Nr Room; destruct (f_count_range d Ok) as (C & _ & _); pose proof (status_small d Ok) as St; unfold refuses_connect, SConnResponse, bind at 1, get; rewrite Al, Sb, Cn, (ref_taken _ (fo_ref d Ok)); cbn [orb].
  replace (f_status d =? SC_ACCEPT) with false by (symmetry; apply Z.eqb_neq; unfold SC_ACCEPT; lia).
  replace ((f_status d =? SC_NOTSPECIFIED) || (f_status d =? SC_CONGESTION) || (f_status d =? SC_REJECTED)) with true
    by (destruct (fo_status d Ok) as [E | [E | [E | []]]]; rewrite <- E; reflexivity).
  unfold bind at 1, ret; rewrite Ver; change (SB_VRSN2 <? SB_VRSN2) with false; change (match f_data d with None => 0 | Some _ => f_cc d end) with (f_count d).
  cbn match.
  replace (match f_data d with None => false | Some _ => f_count d >? ENCLOSE_MAX end) with false
    by (destruct (f_data d); [rewrite Z.gtb_ltb; symmetry; apply Z.ltb_ge; unfold RF_SIZE, ENCLOSE_MAX in *; lia | reflexivity]).
  cbn [negb]; unfold respond_RF; rewrite (newspkt_ok sizeof_spkt Mem) by (split; [discriminate | reflexivity]).
  set (y := match responding with Some a => set_responding a x | None => x end).
  assert (Rq : (if f_status d =? SC_REJECTED then match int2u16 (f_requirements d) with Some v => Some (set_num (Set_ (set_arr (set_arr (set_arr (Set_ (new_spkt SPDU_RF) SMASK_RF_REF) A_rf_user
      (sr_calling (f_ref d))) A_rf_comm (sr_comm (f_ref d))) A_rf_addt (sr_addt (f_ref d))) SMASK_RF_REQ) N_rf_require v) | None => None end
    else Some (set_arr (set_arr (set_arr (Set_ (new_spkt SPDU_RF) SMASK_RF_REF) A_rf_user (sr_calling (f_ref d))) A_rf_comm (sr_comm (f_ref d))) A_rf_addt (sr_addt (f_ref d)))) = Some (rf_terms d))
    by (unfold rf_terms; rewrite int2u16_Some by exact (fo_units d Ok); destruct (_ =? _); reflexivity).
  rewrite Rq, Mem; unfold lift, bind at 1; rewrite rf_data_ok; unfold refuse.
  set (s0 := set_num (Set_ (set_rdata (rf_terms d) (Some (f_status d :: f_octets d)) (1 + f_count d)) SMASK_RF_DISC) N_rf_disconnect 1).
  match goal with |- context [set_num (Set_ ?s SMASK_RF_DISC) N_rf_disconnect (u8_bis ?v ?w)] => replace (set_num (Set_ s SMASK_RF_DISC) N_rf_disconnect (u8_bis v w)) with s0
    by (unfold s0; f_equal; unfold rf_terms; destruct (_ =? _); reflexivity) end.
  unfold bind at 1, bind at 1, get; rewrite Al, Sb.
  unfold bind at 1; rewrite (spkt2sd_ok fresh Mem Fresh s0 (has b SB_EXPD) st); [| exact (rf_packet_ok d (has b SB_EXPD) Ok) | | exact Room | | exact G].
  - change (if has b SB_EXPD then Set_ s0 SMASK_SPDU_EXPD else s0) with (rf_packet d (has b SB_EXPD)).
    change (OK =? NOTOK) with false; cbn match; set (e := has b SB_EXPD && _); set (st1 := add_sent _ st).
    assert (Wt : exists y', (if ses_rf_timer >=? 0 then do r <~ TReadRequest; ret (OK, match r with inl _ => set_fd NOTOK y | inr _ => y end) else ret (OK, y)) st1 = Val ((OK, y'), st1)).
    { destruct (ses_rf_timer >=? 0); [|eexists; reflexivity]; unfold TReadRequest, bind, get_tp; change (tp_reads (ses_tp st1)) with (tp_reads (ses_tp st)); rewrite Nr; eexists; reflexivity. }
    destruct Wt as (y' & ->); destruct (freesblk_gone (connected y') st1) as (st' & Ef & Go & Se & _); [exact Al | change (ses_sb st1) with (ses_sb st); rewrite Sb; exact Fi|].
    unfold bind; rewrite Ef; exists y', st', e; split; [reflexivity|]; split; [exact Go|]; unfold since; rewrite Se; apply zdrop_exact.
  - unfold complete; change (if has b SB_EXPD then Set_ s0 SMASK_SPDU_EXPD else s0) with (rf_packet d (has b SB_EXPD)); rewrite (proj1 (rf_packet_fields d (has b SB_EXPD))); reflexivity.
  - unfold s0, rf_terms; destruct (_ =? SC_REJECTED); reflexivity.
Qed.

(** ** The RF SPDU is taken *)

Definition refusal_received (s' : ssapkt) : Prop := s_code s' = SPDU_RF /\ is_set s' SMASK_RF_REF = true /\
  (octets (s_arr s' A_rf_user) = octets (sr_calling (f_ref d)) /\ octets (s_arr s' A_rf_comm) = octets (sr_comm (f_ref d)) /\ octets (s_arr s' A_rf_addt) = octets (sr_addt (f_ref d))) /\
  is_set s' SMASK_RF_REQ = (f_status d =? SC_REJECTED) /\ ((f_status d =? SC_REJECTED) = true -> s_num s' N_rf_require = f_requirements d) /\
  s_rdata s' = Some (f_status d :: f_octets d) /\ s_rlen s' = 1 + f_count d.

Lemma refusal_expd s' : refusal_received s' -> refusal_received (Set_ s' SMASK_SPDU_EXPD).
Proof. intros (C & F & R & Q & X); split; [exact C|]; rewrite !is_set_Set; exact (conj F (conj R (conj Q X))). Qed.

Lemma rf_received expd s' : same_spdu (rf_packet d expd) s' -> refusal_received s'.
Proof.
  intros Sm; destruct (rf_packet_fields d expd) as (C & F1 & (R1 & R2 & R3) & Q1 & Q2 & Rd & Rl & _); destruct (f_count_range d Ok) as (Cr & L & _).
  assert (Ar : forall a, In a [A_rf_user; A_rf_comm; A_rf_addt] -> is_set s' SMASK_RF_REF = true /\ octets (s_arr s' a) = octets (s_arr (rf_packet d expd) a)).
  { intros a I; destruct (same_arr _ _ Sm SMASK_RF_REF a) as (E1 & E2); [unfold arr_fields; rewrite C; codes; repeat destruct I as [<- | I]; cbn; tauto|]; rewrite E1; auto. }
  destruct (same_num _ _ Sm SMASK_RF_REQ N_rf_require) as (N1 & N2); [unfold num_fields; rewrite C; codes; cbn; tauto|].
  destruct (same_reasons _ _ Sm C) as (Rr & Rn); [rewrite Rl; lia|]; unfold reason_octets in Rr; rewrite Rd, Rl in *.
  split; [rewrite <- C; exact (same_code _ _ Sm)|]; split; [apply (Ar A_rf_user); cbn; tauto|]; split.
  - rewrite <- R1, <- R2, <- R3; repeat split; apply Ar; cbn; tauto.
  - split; [congruence|]; split; [intros E; rewrite N2 by (rewrite Q1; exact E); apply Q2, E|]; split; [rewrite Rr; f_equal; apply ztake_all; rewrite zlen_cons, L; lia | exact Rn].
Qed.

Lemma retry_RF_ok (x : terms T) s' st : ses_gone st = false -> has (ses_sb st) SB_FINN = false -> refusal_received s' -> exists sc x' st',
  retry_RF sizeof_spkt fresh ses_ab_timer ses_dn_timer ses_rf_timer char_signed x s' st = Val ((DONE, Some sc, x'), st') /\ tells_refusal d sc /\ ses_gone st' = true.
Proof.
  intros Al Fi Sm; destruct Sm as (C & F1 & (R1 & R2 & R3) & Q1 & Q2 & Rd & Rl); destruct (f_count_range d Ok) as (Cr & _); pose proof (status_small d Ok) as St.
  unfold retry_RF; rewrite Rl, Z.gtb_ltb, (proj2 (Z.ltb_lt 0 _)), Rd, F1, Q1 by lia; unfold lift, bind at 1; change (rd (f_status d :: f_octets d) 0) with (Val (f_status d)); cbn [cbind].
  replace (as_char char_signed (f_status d)) with (f_status d) by (unfold as_char; rewrite Z.geb_leb, (proj2 (Z.leb_gt _ _)) by lia; rewrite andb_false_r; reflexivity).
  replace (meets (f_status d) SC_BASE) with false by (destruct (fo_status d Ok) as [E | [E | [E | []]]]; rewrite <- E; reflexivity); rewrite andb_false_r.
  unfold bind at 1; change (zdrop 1 (f_status d :: f_octets d)) with (f_octets d); replace (1 + f_count d - 1) with (f_count d) by lia; unfold bind at 1.
  rewrite bind_set_si.
  destruct (freesblk_gone (connected (set_responding (sb_responding x) x)) (at_si (SI_ABORT false (f_status d) (Some (f_octets d), f_count d)) st)) as (st' & Ef & Go & _); [exact Al | exact Fi|].
  unfold bind; rewrite Ef; do 3 eexists; split; [reflexivity|]; split; [|exact Go]; split; cbn [sc_sd sc_connect sc_result sc_requirements sc_data sr_calling sr_comm sr_addt]; try reflexivity.
  - exact (conj R1 (conj R2 R3)).
  - destruct (f_status d =? SC_REJECTED) eqn:E; [exact (Q2 eq_refl) | reflexivity].
Qed.

Lemma read_RF_ok tx e expd b st : reading st -> zlen (enc_items (spdu_items (rf_packet d expd))) < 65536 -> carries tx e (enc (rf_packet d expd)) -> exists s' y,
  sb2spkt_first sizeof_spkt fresh ses_ab_timer ses_rf_timer tx (at_sb b st) = Val (Some (Pkt s' [] 0), at_buffer y (at_sb b st)) /\
  refusal_received s'.
Proof.
  intros (Al & B) Ln (Ex & Q & E & Cc); pose proof (rf_packet_fields d expd) as (C & _); unfold sb2spkt_first, bind.
  destruct (read_spdu_ok sizeof_spkt fresh Mem Fresh (rf_packet d expd) 1 (tx_qbuf tx) [] (tx_cc tx) (at_sb b st)) as (s' & q & y & Er & Ac & Sm & _ & _ & By).
  - apply rf_packet_ok, Ok.
  - unfold complete; rewrite C; reflexivity.
  - exact Ln.
  - apply rf_readable.
  - exact B.
  - exact Q.
  - rewrite app_nil_r; exact E.
  - rewrite Cc; apply Z.le_refl.
  - pose proof (rf_received expd s' Sm) as P; exists (is_expd tx s'), y; rewrite Er, Ac, Cc, Z.sub_diag; split; [|unfold is_expd; destruct (tx_expedited tx); [apply refusal_expd|]; exact P].
    replace (s_code (is_expd tx s')) with SPDU_RF by (unfold is_expd; destruct (tx_expedited tx); cbn [s_code Set_]; rewrite (same_code _ _ Sm), C; reflexivity); reflexivity.
Qed.
(** The second call of the initiator, on the RF SPDU. *)
Lemma hears_refusal (o : offer T) (tc : TSAPconnect T) later tx e expd l st : reading st -> ses_sb st = asked_block o tc -> tp_reads (ses_tp st) = inr tx :: l ->
  zlen (enc_items (spdu_items (rf_packet d expd))) < 65536 -> carries tx e (enc (rf_packet d expd)) -> exists sc x' st',
  SAsynRetryRequest sizeof_spkt fresh ses_ab_timer ses_dn_timer ses_rf_timer char_signed no_ta (asked_terms no_ta o tc) later st = Val ((DONE, Some sc, x'), st') /\
  tells_refusal d sc /\ ses_gone st' = true.
Proof.
  intros Rd Sb Tr Ln Ca; set (b := set_retry None (asked_block o tc)); destruct (read_RF_ok tx e expd b (with_reads l st) Rd Ln Ca) as (s' & y & Ef & Sm).
  destruct (retry_RF_ok (asked_terms no_ta o tc) s' (at_buffer y (at_sb b (with_reads l st)))) as (sc & x' & i' & Et & Tl & Gi); [exact (proj1 Rd) | | exact Sm|].
  { unfold has, b, asked_block; cbn [at_buffer at_sb ses_sb set_retry sb_flags]; destruct (tc_expedited tc =? 0); reflexivity. }
  exists sc, x', i'; split; [|auto]; unfold SAsynRetryRequest, bind at 1, get; rewrite (proj1 Rd), Sb.
  replace (has (asked_block o tc) SB_CONN) with false by (unfold has, asked_block; cbn [sb_flags]; destruct (tc_expedited tc =? 0); reflexivity).
  replace (has (asked_block o tc) SB_TS_CONN) with true by (unfold has, asked_block; cbn [sb_flags]; destruct (tc_expedited tc =? 0); reflexivity); cbn match.
  unfold SAsynRetryAux2, bind at 1, update, put; rewrite (proj1 Rd), Sb; fold b.
  replace (Ses b false (ses_si st) (ses_tp st) (ses_buffer st)) with (at_sb b st) by (unfold at_sb; rewrite (proj1 Rd); reflexivity).
  unfold bind; rewrite (sb2spkt_waits _ _ _ _ tx l _ _ (proj1 Rd) (asked_kept o tc) Tr); change (with_reads l (at_sb (set_retry None (asked_block o tc)) st)) with (at_sb b (with_reads l st)).
  rewrite Ef; cbn [p_spkt]; rewrite (proj1 Sm); change (SPDU_RF =? SPDU_AC) with false; change (SPDU_RF =? SPDU_RF) with true; cbn match; exact Et.
Qed.
End Refuse.

(** ** The two sides *)

(** Normal and expedited data are delivered. *)
Definition delivers (cut : bool -> list Z -> tsdu) : Prop := forall e o, bytes o -> carries (cut e o) e o.

(** C5. A refusal reaches the user who asked. Where the initiator asks with
    proper parameters and the responder takes the CN SPDU but refuses, for a
    reason of its own, every call returns; the initiator is told the
    reason, the reference, the functional units of one that is rejected,
    and the data of the responder, and both blocks are freed. *)
Theorem session_refuses : forall (A : Allocator) z zq zb fresh ab dn rf char_signed T (no_ta : T) cut o d responding settings isn result tc how ts later i r,
  memory_ok -> (forall n, 0 <= n -> zlen (fresh n) = n) -> delivers cut -> at_rest i -> at_rest r ->
  offer_ok o -> tc_tsdusize tc < 32768 -> ts_tsdusize ts < 32768 -> in_room fresh (cn_packet o tc) -> result <> CONNECTING_1 -> result <> CONNECTING_2 ->
  sound_units (proposed o tc) -> reads_itself ts how -> refusal_ok d -> in_room fresh (rf_packet d (negb (ts_expedited ts =? 0))) ->
  exists ss sc i' r', connect z zq zb fresh ab dn rf char_signed no_ta cut o (refuses_connect z fresh dn rf d responding settings isn) result tc how later (i, r) =
      Val ([CONNECTING_2; OK; OK; DONE], Some ss, Some sc, (i', r')) /\
    tells_start o tc ts ss /\ tells_refusal d sc /\ ses_gone i' = true /\ ses_gone r' = true.
Proof.
  intros A z zq zb fresh ab dn rf cs T no_ta cut o d responding settings isn result tc how ts later i r M F C Ri Rr Oo Nt Ns Rm R1 R2 So Hw Od Rd.
  destruct (asks_starts A z zq zb fresh ab dn rf cs T no_ta cut o result tc how ts i r M F (C false) Ri Rr Oo Nt Ns Rm R1 R2 So Hw) as (Eq & ss & x & y & Es & By & Ts & _ & _).
  unfold connect; rewrite Eq; cbn [cbind]; rewrite Es; cbn [cbind]; set (i1 := asked_session o tc i); set (s2 := told_session cut o tc ts y r); set (b := indicated_block o tc ts).
  assert (Ex : has b SB_EXPD = negb (ts_expedited ts =? 0)) by (unfold b, has, indicated_block; cbn [sb_flags]; destruct (ts_expedited ts =? 0); reflexivity).
  destruct (SConnResponse_refuses z fresh M F dn rf d Od responding settings isn x b s2) as (y' & s3 & e & Er & Go & Si); try reflexivity.
  - split; [unfold has, b, indicated_block; cbn [sb_flags]; destruct (ts_expedited ts =? 0); reflexivity | reflexivity | split; reflexivity].
  - unfold has, b, indicated_block; cbn [sb_flags]; destruct (ts_expedited ts =? 0); reflexivity.
  - exact (proj1 (proj2 Rr)).
  - rewrite Ex; exact Rd.
  - rewrite Er; cbn [cbind]; rewrite Si, Ex in *; set (rfp := rf_packet d (negb (ts_expedited ts =? 0))) in *.
    assert (Bf : bytes (enc rfp)) by (apply enc_octets; [apply rf_packet_ok, Od | unfold rfp; rewrite (proj1 (rf_packet_fields d _)); cbn; tauto | apply Rd]).
    destruct (hears_refusal z fresh M F ab dn rf cs no_ta d Od o tc later (cut e (enc rfp)) e (negb (ts_expedited ts =? 0)) [] (deliver cut [(e, enc rfp)] i1)) as (sc & x' & i' & Et & Tr & Gi);
      [split; [reflexivity | exact (proj1 Ri)] | reflexivity | cbn; rewrite (proj2 (proj2 Ri)); reflexivity | apply Rd | exact (C e _ Bf)|].
    rewrite Et; exists ss, sc, i', s3; split; [reflexivity | auto].
Qed.

(** ** An example: the functional units are not those wanted *)

Definition ex_refusal : refusal := Refusal (ex_ref [3; 4]) SC_REJECTED (Z.lor SR_HALFDUPLEX SR_TYPEDATA) (Some [110; 111]) 2.

Lemma session_refuses_witness : exists ss sc i' r',
  connect (H := plenty) 800 64 400 zeros 30 30 30 true tt (fun e o => Tsdu e [QSeg o (zlen o)] (zlen o)) ex_offer (refuses_connect (H := plenty) 800 zeros 30 30 ex_refusal None 0 0) DONE ex_tc
    (Restored (inr ex_ts)) (inl 0) (ex_new, ex_new) = Val ([CONNECTING_2; OK; OK; DONE], Some ss, Some sc, (i', r')) /\
  sc_result sc = SC_REJECTED /\ sc_requirements sc = Z.lor SR_HALFDUPLEX SR_TYPEDATA /\ sc_data sc = (Some [110; 111], 2) /\ ses_gone i' = true.
Proof.
  destruct (session_refuses plenty 800 64 400 zeros 30 30 30 true unit tt (fun e o => Tsdu e [QSeg o (zlen o)] (zlen o)) ex_offer ex_refusal None 0 0 DONE ex_tc (Restored (inr ex_ts)) ex_ts (inl 0) ex_new ex_new
    ex_memory zeros_fresh) as (ss & sc & i' & r' & E & _ & Tr & Gi & _).
  - intros e o B; destruct (ex_carries o B) as (_ & C); split; [reflexivity | exact C].
  - split; [constructor | split; [constructor | reflexivity]].
  - split; [constructor | split; [constructor | reflexivity]].
  - exact ex_offer_ok.
  - reflexivity.
  - reflexivity.
  - split; [vm_compute; discriminate|]; split; [vm_compute; reflexivity | left; vm_compute; discriminate].
  - discriminate.
  - discriminate.
  - split; reflexivity.
  - left; reflexivity.
  - split; [apply ex_ref_ok; [discriminate | ex_bytes] | right; right; left; reflexivity | split; [discriminate | reflexivity]|].
    split; [split; discriminate|]; intros _; split; [discriminate | ex_bytes].
  - split; [vm_compute; discriminate|]; split; [vm_compute; reflexivity | left; vm_compute; discriminate].
  - exists ss, sc, i', r'; destruct Tr as [_ T1 _ T2 T3]; auto.
Defined.

(** ** What goes wrong

    Settings beyond a byte: the result that is returned was not assigned.
    A CN SPDU that cannot be written: it is freed twice. *)
Definition ex_asks (settings : Z) (refused : list (option Z)) : cres (Z * option (SSAPconnect unit) * terms unit * session) :=
  SAsynConnRequest (H := plenty) 800 400 zeros 30 30 30 true tt (Some (ex_ref [1])) None (Some (ex_sa [])) (Z.lor SR_DUPLEX SR_TYPEDATA) settings SERIAL_NONE None 0 None true (inr (DONE, ex_tc))
    (Ses new_sblk false SI_DATA (Tp [] refused [] true) None).

Lemma SConnRequest_settings : ex_asks 300 [] = UB /\ ex_asks 0 [] <> UB.
Proof. split; [vm_compute; reflexivity | vm_compute; discriminate]. Qed.

Lemma SAsynRetryAux1_freed_twice : ex_asks 0 [Some DR_TIMER] = UB.
Proof. vm_compute; reflexivity. Qed.

(** What comes in the place of a CN SPDU is not answered with an RF SPDU,
    but with nothing, and the reason is none there is. *)
Lemma read_CN_other : match read_CN (H := plenty) 800 zeros 30 30 (ex_session new_sblk [inr (ex_tx [SPDU_AC; 0])]) with
  | Val (None, st) => tp_sent (ses_tp st) = [] /\ sa_reason (ses_si st) = -257
  | _ => False
  end.
Proof. vm_compute; auto. Qed.

(** An RF SPDU without a reason is taken at a null pointer. *)
Lemma retry_RF_no_reason : SAsynRetryRequest (H := plenty) 800 zeros 30 30 30 true tt (new_terms tt) (inl 0) (ex_session (ex_blk SB_TS_CONN 0 0 0) [inr (ex_tx [SPDU_RF; 0])]) = UB.
Proof. vm_compute; reflexivity. Qed.

(** User data of an answer that is longer than 512 octets is sent under
    version 2, and aborts the connection at the initiator. *)
Definition ex_long : reply_to unit := Answer (a_ref ex_answer) None (a_requirements ex_answer) (a_settings ex_answer) 5 (Some (zeros 513)) 513.

Lemma answer_too_long : match connect (H := plenty) 800 64 400 zeros 30 30 30 true tt (ex_cut 0) ex_offer (answers_connect (H := plenty) 800 zeros 30 30 ex_long) DONE ex_tc (Accepted ex_ts None) (inl 0)
    (ex_new, ex_new) with
  | Val (rs, _, sc, (i, r)) => rs = [CONNECTING_2; OK; OK; NOTOK] /\ ses_gone i = true /\ ses_gone r = false
  | _ => False
  end.
Proof. vm_compute; auto. Qed.
