(* ===== verification/Dn.v ===== *)
(** * dsap: distinguished names (dn_cmp.c, dn_seq.c, attrv.c of dsap/common;
    h/quipu/attr.h, h/quipu/name.h)

    A name is a list of RDNs from the root down, an RDN a list of attribute
    values; the null pointer is the empty list. An attribute type is the
    address of its row in the table of attributes, and types are compared by
    address. The value of an attribute is whatever its syntax stores, a
    parameter [V]; the comparison of a syntax is a row of the table
    [syntax_table], which the program fills when it starts. Names are only
    read here, so that sharing does not matter. *)

From S2P Require Import Prelude.
Open Scope Z_scope.
Open Scope c_scope.

Definition MAX_AV_SYNTAX : Z := 100.
Definition AV_FILE : Z := 128.
Definition AV_WRITE_FILE : Z := 256.
Definition TRUE : Z := 1.
Definition FALSE : Z := 0.

Definition AttrT_cmp (x y : Z) : Z := if x =? y then 0 else if x >? y then -1 else 1.

Record attrVal (V : Type) : Type := AttrVal { av_syntax : Z; av_struct : V }.
Arguments AttrVal {V} av_syntax av_struct.
Arguments av_syntax {V} a.
Arguments av_struct {V} a.

Record rdncomp (V : Type) : Type := RdnComp { rdn_at : Z; rdn_av : attrVal V }.
Arguments RdnComp {V} rdn_at rdn_av.
Arguments rdn_at {V} r.
Arguments rdn_av {V} r.

Definition RDN (V : Type) : Type := list (rdncomp V).
Definition DN (V : Type) : Type := list (RDN V).

Section Names.
Context {V : Type}.
(** Column [s_compare] of the table; [None] is a null pointer. *)
Variable s_compare : Z -> option (V -> V -> Z).
Variable file_cmp : V -> V -> Z.
Implicit Types (a b : RDN V) (d e who : DN V) (dnseq : list (DN V)).

(** [syntax_table[s].s_compare] *)
Definition syntax_compare (s : Z) : cres (option (V -> V -> Z)) :=
  if (0 <=? s) && (s <? MAX_AV_SYNTAX) then Val (s_compare s) else UB.

(** ** attrv.c *)

Fixpoint rdn_cmp a b : cres Z :=
  match a, b with
  | x :: a', y :: b' =>
      if negb (rdn_at x =? rdn_at y) then Val (if rdn_at x >? rdn_at y then 1 else -1)
      else
        f <- syntax_compare (av_syntax (rdn_av x));;
        match f with
        | None => Val 2
        | Some f => let i := f (av_struct (rdn_av x)) (av_struct (rdn_av y)) in if negb (i =? 0) then Val i else rdn_cmp a' b'
        end
  | [], [] => Val 0
  | _ :: _, [] => Val 1
  | [], _ :: _ => Val (-1)
  end.

Definition av_cmp_fn (syntax : Z) : cres (option (V -> V -> Z)) :=
  if syntax >=? AV_WRITE_FILE then Val None
  else if syntax =? AV_FILE then Val (Some file_cmp)
  else syntax_compare syntax.

(** ** dn_cmp.c *)

Fixpoint dn_cmp d e : cres Z :=
  match d, e with
  | a :: d', b :: e' => res <- rdn_cmp a b;; if negb (res =? OK) then Val res else dn_cmp d' e'
  | [], [] => Val OK
  | [], _ :: _ => Val 1
  | _ :: _, [] => Val (-1)
  end.

Definition dn_comp_cmp a b : cres Z := r <- rdn_cmp a b;; Val (if r =? OK then OK else NOTOK).

Fixpoint dn_cmp_prefix d e : cres Z :=
  match d, e with
  | a :: d', b :: e' => r <- dn_comp_cmp a b;; if r =? NOTOK then Val NOTOK else dn_cmp_prefix d' e'
  | [], _ => Val OK
  | _ :: _, [] => Val NOTOK
  end.

Fixpoint dn_order_cmp d e : cres Z :=
  match d, e with
  | a :: d', b :: e' => i <- rdn_cmp a b;; if negb (i =? 0) then Val i else dn_order_cmp d' e'
  | [], [] => Val 0
  | [], _ :: _ => Val (-1)
  | _ :: _, [] => Val 1
  end.

(** ** dn_seq.c *)

Fixpoint check_dnseq dnseq who : cres Z :=
  match dnseq with
  | [] => Val NOTOK
  | d :: rest => r <- dn_cmp who d;; if r =? OK then Val OK else check_dnseq rest who
  end.

Fixpoint check_dnseq_prefix dnseq who : cres Z :=
  match dnseq with
  | [] => Val NOTOK
  | d :: rest => r <- dn_cmp_prefix d who;; if r =? OK then Val OK else check_dnseq_prefix rest who
  end.

Fixpoint dn_in_dnseq (i : Z) d dnseq : cres Z :=
  match dnseq with
  | [] => Val FALSE
  | e :: rest => r <- dn_cmp d e;; if r =? 0 then Val i else dn_in_dnseq (i + 1) d rest
  end.

(** The inner loops of [dn_seq_cmp]: is one of the names of [dnseq] equal to
    [d], which is the first operand in the first pass and the second in the
    other. *)
Fixpoint has_right d dnseq : cres bool :=
  match dnseq with
  | [] => Val false
  | e :: rest => r <- dn_cmp d e;; if r =? 0 then Val true else has_right d rest
  end.

Fixpoint has_left d dnseq : cres bool :=
  match dnseq with
  | [] => Val false
  | e :: rest => r <- dn_cmp e d;; if r =? 0 then Val true else has_left d rest
  end.

Fixpoint all_in (has : DN V -> list (DN V) -> cres bool) dnseq (other : list (DN V)) : cres bool :=
  match dnseq with
  | [] => Val true
  | d :: rest => found <- has d other;; if found : bool then all_in has rest other else Val false
  end.

Definition dn_seq_cmp (x y : list (DN V)) : cres Z :=
  match x, y with
  | [], [] => Val 0
  | [], _ :: _ => Val (-1)
  | _ :: _, [] => Val 1
  | _, _ =>
      sub <- all_in has_right x y;;
      if negb sub then Val 1
      else sup <- all_in has_left y x;; Val (if negb sup then -1 else 0)
  end.

(** * What the comparisons decide *)

(** Two values of a type are the same where their syntax has a comparison
    and it returns 0. *)
Definition comp_eqb (x y : rdncomp V) : bool :=
  (rdn_at x =? rdn_at y) &&
  match s_compare (av_syntax (rdn_av x)) with
  | Some f => f (av_struct (rdn_av x)) (av_struct (rdn_av y)) =? 0
  | None => false
  end.

Fixpoint rdn_eqb a b : bool :=
  match a, b with
  | [], [] => true
  | x :: a', y :: b' => comp_eqb x y && rdn_eqb a' b'
  | _, _ => false
  end.

Fixpoint dn_eqb d e : bool :=
  match d, e with
  | [], [] => true
  | a :: d', b :: e' => rdn_eqb a b && dn_eqb d' e'
  | _, _ => false
  end.

Fixpoint dn_prefixb d e : bool :=
  match d, e with
  | [], _ => true
  | a :: d', b :: e' => rdn_eqb a b && dn_prefixb d' e'
  | _ :: _, [] => false
  end.

(** Every value of a name has a syntax of the table. *)
Definition dn_ok d : Prop := Forall (Forall (fun x => 0 <= av_syntax (rdn_av x) < MAX_AV_SYNTAX)) d.
Definition dnseq_ok dnseq : Prop := Forall dn_ok dnseq.

Lemma syntax_compare_ok s : 0 <= s < MAX_AV_SYNTAX -> syntax_compare s = Val (s_compare s).
Proof. intros H; unfold syntax_compare; destruct (Z.leb_spec 0 s), (Z.ltb_spec s MAX_AV_SYNTAX); try lia; reflexivity. Qed.

Lemma rdn_cmp_ok a : forall b, Forall (fun x => 0 <= av_syntax (rdn_av x) < MAX_AV_SYNTAX) a -> exists r, rdn_cmp a b = Val r /\ (r =? 0) = rdn_eqb a b.
Proof.
  induction a as [|x a IH]; intros [|y b] W; cbn [rdn_cmp rdn_eqb]; try (eexists; split; reflexivity).
  inversion_clear W as [|? ? Wx Wa]; unfold comp_eqb; destruct (Z.eqb_spec (rdn_at x) (rdn_at y)); cbn [negb andb];
    [|destruct (rdn_at x >? rdn_at y); eexists; split; reflexivity].
  rewrite syntax_compare_ok by assumption; cbn [cbind]; destruct (s_compare _) as [f|]; [|eexists; split; reflexivity].
  destruct (f _ _ =? 0) eqn:E; cbn [negb andb]; [exact (IH b Wa) | eexists; split; [reflexivity | exact E]].
Qed.

Lemma dn_cmp_ok d : forall e, dn_ok d -> exists r, dn_cmp d e = Val r /\ (r =? OK) = dn_eqb d e.
Proof.
  induction d as [|a d IH]; intros [|b e] W; cbn [dn_cmp dn_eqb]; try (eexists; split; reflexivity).
  inversion_clear W as [|? ? Wa Wd]; destruct (rdn_cmp_ok a b Wa) as (r & -> & E); cbn [cbind]; change OK with 0.
  rewrite <- E; destruct (r =? 0) eqn:R; cbn [negb andb]; [exact (IH e Wd) | eexists; split; [reflexivity | exact R]].
Qed.

Lemma dn_cmp_prefix_ok d : forall e, dn_ok d -> dn_cmp_prefix d e = Val (if dn_prefixb d e then OK else NOTOK).
Proof.
  induction d as [|a d IH]; intros [|b e] W; cbn [dn_cmp_prefix dn_prefixb]; try reflexivity.
  inversion_clear W as [|? ? Wa Wd]; unfold dn_comp_cmp; destruct (rdn_cmp_ok a b Wa) as (r & -> & E); cbn [cbind]; change OK with 0 at 1.
  rewrite <- E; destruct (r =? 0); cbn [andb Z.eqb]; [exact (IH e Wd) | reflexivity].
Qed.

Lemma check_dnseq_ok dnseq who : dn_ok who -> check_dnseq dnseq who = Val (if existsb (dn_eqb who) dnseq then OK else NOTOK).
Proof.
  intros W; induction dnseq as [|d l IH]; cbn [check_dnseq existsb]; [reflexivity|].
  destruct (dn_cmp_ok who d W) as (r & -> & <-); cbn [cbind]; destruct (r =? OK); [reflexivity | exact IH].
Qed.

Lemma check_dnseq_prefix_ok dnseq who : dnseq_ok dnseq -> check_dnseq_prefix dnseq who = Val (if existsb (fun d => dn_prefixb d who) dnseq then OK else NOTOK).
Proof.
  induction 1 as [|d l W _ IH]; cbn [check_dnseq_prefix existsb]; [reflexivity|].
  rewrite (dn_cmp_prefix_ok d who W); cbn [cbind]; destruct (dn_prefixb d who); [reflexivity | exact IH].
Qed.

(** ** What is equal, and what is a prefix *)

Definition comp_same (x y : rdncomp V) : Prop :=
  rdn_at x = rdn_at y /\ exists f, s_compare (av_syntax (rdn_av x)) = Some f /\ f (av_struct (rdn_av x)) (av_struct (rdn_av y)) = 0.
Definition dn_same d e : Prop := Forall2 (Forall2 comp_same) d e.

Lemma comp_eqb_same x y : comp_eqb x y = true <-> comp_same x y.
Proof.
  unfold comp_eqb, comp_same; rewrite andb_true_iff, Z.eqb_eq; destruct (s_compare _) as [f|]; [rewrite Z.eqb_eq|];
    (split; intros (E & H); (split; [exact E|])); try discriminate; [eauto | destruct H as (? & [= <-] & H); exact H | destruct H as (? & [=] & _)].
Qed.

Lemma rdn_eqb_same a : forall b, rdn_eqb a b = true <-> Forall2 comp_same a b.
Proof.
  induction a as [|x a IH]; intros [|y b]; cbn [rdn_eqb]; try (split; [discriminate | inversion 1]); [split; constructor|].
  rewrite andb_true_iff, comp_eqb_same, IH; split; [intros (? & ?); constructor; assumption | inversion 1; split; assumption].
Qed.

Lemma dn_eqb_same d : forall e, dn_eqb d e = true <-> dn_same d e.
Proof.
  unfold dn_same; induction d as [|a d IH]; intros [|b e]; cbn [dn_eqb]; try (split; [discriminate | inversion 1]); [split; constructor|].
  rewrite andb_true_iff, rdn_eqb_same, IH; split; [intros (? & ?); constructor; assumption | inversion 1; split; assumption].
Qed.

Lemma dn_prefixb_same d : forall e, dn_prefixb d e = true <-> exists e1 e2, e = e1 ++ e2 /\ dn_same d e1.
Proof.
  unfold dn_same; induction d as [|a d IH]; intros e; cbn [dn_prefixb].
  - split; [intros _; exists [], e; split; [reflexivity | constructor] | reflexivity].
  - destruct e as [|b e]; [split; [discriminate | intros (e1 & e2 & E & F); destruct e1; [inversion F | discriminate]]|].
    rewrite andb_true_iff, rdn_eqb_same, IH; split.
    + intros (S & e1 & e2 & -> & F); exists (b :: e1), e2; split; [reflexivity | constructor; assumption].
    + intros (e1 & e2 & E & F); inversion F; subst; injection E as <- ->; split; [assumption | eauto].
Qed.

Lemma has_right_ok d l : dn_ok d -> has_right d l = Val (existsb (dn_eqb d) l).
Proof.
  intros W; induction l as [|e l IH]; cbn [has_right existsb]; [reflexivity|].
  destruct (dn_cmp_ok d e W) as (r & -> & <-); cbn [cbind]; change OK with 0; destruct (r =? 0); [reflexivity | exact IH].
Qed.

Lemma has_left_ok d l : dnseq_ok l -> has_left d l = Val (existsb (fun e => dn_eqb e d) l).
Proof.
  induction 1 as [|e l W _ IH]; cbn [has_left existsb]; [reflexivity|].
  destruct (dn_cmp_ok e d W) as (r & -> & <-); cbn [cbind]; change OK with 0; destruct (r =? 0); [reflexivity | exact IH].
Qed.

Lemma all_in_ok has test l m : Forall (fun d => has d m = Val (test d)) l -> all_in has l m = Val (forallb test l).
Proof. induction 1 as [|d l E _ IH]; cbn [all_in forallb]; [reflexivity | rewrite E; cbn [cbind]; destruct (test d); [exact IH | reflexivity]]. Qed.

(** Two sequences of names compare equal where each name of one is in the
    other, whatever their order. *)
Lemma dn_seq_cmp_ok x y : dnseq_ok x -> dnseq_ok y -> exists r, dn_seq_cmp x y = Val r /\
  (r = 0 <-> (forall d, In d x -> exists e, In e y /\ dn_same d e) /\ (forall e, In e y -> exists d, In d x /\ dn_same d e)).
Proof.
  intros Wx Wy; assert (R : all_in has_right x y = Val (forallb (fun d => existsb (dn_eqb d) y) x)).
  { apply all_in_ok; eapply Forall_impl; [|exact Wx]; intros d W; apply has_right_ok; exact W. }
  assert (L : all_in has_left y x = Val (forallb (fun e => existsb (fun d => dn_eqb d e) x) y)).
  { apply all_in_ok; apply Forall_forall; intros d _; apply has_left_ok; exact Wx. }
  assert (Q : exists r, dn_seq_cmp x y = Val r /\ (r = 0 <-> forallb (fun d => existsb (dn_eqb d) y) x && forallb (fun e => existsb (fun d => dn_eqb d e) x) y = true)).
  { destruct x as [|d x], y as [|e y]; try (eexists; split; [reflexivity|]; cbn; split; congruence).
    unfold dn_seq_cmp; rewrite R, L; cbn [cbind].
    destruct (forallb _ (d :: x)); cbn [negb andb]; [destruct (forallb _ (e :: y)); cbn [negb]|]; eexists; (split; [reflexivity | split; congruence || discriminate]). }
  destruct Q as (r & E & I); exists r; split; [exact E|]; rewrite I, andb_true_iff, !forallb_forall.
  split; intros (H1 & H2); split; intros d Hd.
  - apply H1, existsb_exists in Hd as (e & He & S); exists e; split; [exact He | apply dn_eqb_same; exact S].
  - apply H2, existsb_exists in Hd as (e & He & S); exists e; split; [exact He | apply dn_eqb_same; exact S].
  - apply existsb_exists; destruct (H1 d Hd) as (e & He & S); exists e; split; [exact He | apply dn_eqb_same; exact S].
  - apply existsb_exists; destruct (H2 d Hd) as (e & He & S); exists e; split; [exact He | apply dn_eqb_same; exact S].
Qed.
End Names.
