(* ===== verification/Acl.v ===== *)
(** * quipu: access control lists and search ACLs (acl_info.c, checkacl.c;
    h/quipu/attrvalue.h, entry.h, ds_search.h; selector_rank of
    dsap/common/searchacl.c)

    An entry, an attribute type and a count of results are addressed by
    integers, 0 being the null pointer, so that they are compared as the code
    compares them. The directory is not changed by a search: what is read of
    it is the class [Directory]. What a search changes is [sacls]: the blocks
    [result_count] and the AVL tree that holds their addresses; a count is
    changed in its block, not in the tree. *)

From S2P Require Import Prelude Conv Oid Convert Avl Dn.
From Stdlib Require Import Permutation Sorted.
Open Scope Z_scope.
Open Scope c_scope.

Definition ACL_NONE : Z := 0.
Definition ACL_DETECT : Z := 1.
Definition ACL_COMPARE : Z := 2.
Definition ACL_READ : Z := 3.
Definition ACL_ADD : Z := 4.
Definition ACL_WRITE : Z := 5.
Definition ACL_ENTRY : Z := 1.
Definition ACL_OTHER : Z := 2.
Definition ACL_PREFIX : Z := 3.
Definition ACL_GROUP : Z := 4.
Definition SACL_SUBTREE : Z := 1.
Definition SACL_SINGLELEVEL : Z := 2.
Definition SACL_BASEOBJECT : Z := 4.
Definition SACL_UNSEARCHABLE : Z := 1.
Definition SACL_SEARCHABLE : Z := 2.
Definition SRA_BASEOBJECT : Z := 0.
Definition SRA_ONELEVEL : Z := 1.
Definition SRA_WHOLESUBTREE : Z := 2.

Record oid_table_attr : Type := OidTableAttr { ot_oid : option OIDentifier; ot_aliasoid : option OIDentifier; oa_syntax : Z }.

Record Ftype : Type := FtypeOf { ft_type : Z; ft_len : Z; ft_numstrs : Z; ft_inequstrs : list (list Z) }.

Record typedata : Type := Typedata { td_type : Z; td_limit : Z; td_nopartial : Z; td_access : Z; td_minkey : Z }.

(** [rc_types] is [None] before the first type, and where [realloc] failed. *)
Record result_count : Type := ResultCount { rc_base : Z; rc_count : Z; rc_numtypes : Z; rc_types : option (list typedata) }.

Definition set_count (rc : result_count) (n : Z) : result_count := ResultCount (rc_base rc) n (rc_numtypes rc) (rc_types rc).

Record sacls : Type := Sacls { rcs : list result_count; st_sacls : avlnode Z }.

Section Entries.
Context (V : Type).

Record acl_info : Type := AclInfo { acl_categories : Z; acl_selector_type : Z; acl_name : list (DN V) }.

Record saclinfo : Type := SaclInfo { sac_selector : Z; sac_name : list (DN V); sac_scope : Z; sac_access : Z;
  sac_types : list OIDentifier; sac_maxresults : Z; sac_minkeylength : Z; sac_zeroifexceeded : Z }.

Record attrcomp : Type := AttrComp { attr_type : Z; attr_value : list (attrVal V); attr_acl : list acl_info }.

Record InheritAttr : Type := Inherit { i_default : list attrcomp; i_always : list attrcomp }.

Record authpolicy : Type := AuthPolicy { ap_modification : Z; ap_readandcompare : Z; ap_listandsearch : Z }.

(** The fields of an entry that a search reads. *)
Record entry : Type := Entry { e_attributes : list attrcomp; e_iattr : option InheritAttr; ac_child : list acl_info; ac_entry : list acl_info;
  e_sacl : list saclinfo; e_authp : option authpolicy; e_parent : Z }.
End Entries.
Arguments AclInfo {V}. Arguments acl_categories {V}. Arguments acl_selector_type {V}. Arguments acl_name {V}.
Arguments SaclInfo {V}. Arguments sac_selector {V}. Arguments sac_name {V}. Arguments sac_scope {V}. Arguments sac_access {V}.
Arguments sac_types {V}. Arguments sac_maxresults {V}. Arguments sac_minkeylength {V}. Arguments sac_zeroifexceeded {V}.
Arguments AttrComp {V}. Arguments attr_type {V}. Arguments attr_value {V}. Arguments attr_acl {V}.
Arguments Inherit {V}. Arguments i_default {V}. Arguments i_always {V}.
Arguments Entry {V}. Arguments e_attributes {V}. Arguments e_iattr {V}. Arguments ac_child {V}. Arguments ac_entry {V}.
Arguments e_sacl {V}. Arguments e_authp {V}. Arguments e_parent {V}.

(** What a search reads and does not change. *)
Class Directory (V : Type) := {
  (** the column [s_compare] of [syntax_table], and [file_cmp] *)
  s_compare : Z -> option (V -> V -> Z);
  file_cmp : V -> V -> Z;
  (** the table of attributes and the entries, by address *)
  attr_table : Z -> option oid_table_attr;
  dit : Z -> option (entry V);
  database_root : Z;
  super_user : list (DN V)
}.

Definition deref {A} (p : option A) : cres A := match p with Some a => Val a | None => UB end.

(** [smalloc] of a constant size: a refusal ends the program. *)
Definition smalloc `{Allocator} (size : Z) : cres unit := if malloc_ok size then Val tt else UB.

Definition selector_rank : list Z := [-1; 1; 4; 3; 2].
Definition rank_at (i : Z) : cres Z := if (0 <=? i) && (i <? zlen selector_rank) then Val (nth (Z.to_nat i) selector_rank 0) else UB.
Definition srch2sacl_scope : list Z := [SACL_BASEOBJECT; SACL_SINGLELEVEL; SACL_SUBTREE].
Definition scope_at (i : Z) : cres Z := if (0 <=? i) && (i <? zlen srch2sacl_scope) then Val (nth (Z.to_nat i) srch2sacl_scope 0) else UB.

Section Access.
Context `{Platform} `{Allocator} {V : Type} `{Directory V}.
Implicit Types (who node binddn selfdn : DN V) (s : saclinfo V) (e : entry V).

(** ** acl_info.c *)

(** The last part of [check_acl], and [manager]. *)
Fixpoint is_super (su : list (DN V)) who : cres bool :=
  match su with
  | [] => Val false
  | d :: su' => r <- dn_cmp s_compare who d;; if r =? OK then Val true else is_super su' who
  end.

(** One step of the loop: does the element give the access. *)
Definition acl_grants who (mode : Z) (ptr : acl_info V) node : cres bool :=
  let t := acl_selector_type ptr in
  if negb (mode <=? acl_categories ptr) then Val false
  else if t =? ACL_ENTRY then
    match who with [] => Val false | _ => r <- dn_cmp s_compare who node;; Val (r =? OK) end
  else if t =? ACL_OTHER then Val true
  else if t =? ACL_PREFIX then
    match who with [] => Val false | _ => r <- check_dnseq_prefix s_compare (acl_name ptr) who;; Val (r =? OK) end
  else if t =? ACL_GROUP then
    match who with [] => Val false | _ => r <- check_dnseq s_compare (acl_name ptr) who;; Val (r =? OK) end
  else Val false.

Fixpoint check_acl who (mode : Z) (acl : list (acl_info V)) node : cres Z :=
  match acl with
  | [] => su <- is_super super_user who;; Val (if su : bool then OK else NOTOK)
  | ptr :: rest => g <- acl_grants who mode ptr node;; if g : bool then Val OK else check_acl who mode rest node
  end.

Definition manager (dn : DN V) : cres Z := su <- is_super super_user dn;; Val (if su : bool then TRUE else FALSE).

(** ** The types of a filter (checkacl.c) *)

(** The octets of the strings before their terminators. *)
Fixpoint common_prefix_len (a b : list Z) : Z :=
  match a, b with
  | x :: a', y :: b' => if x =? y then 1 + common_prefix_len a' b' else 0
  | _, _ => 0
  end.

(** The running minimum over the earlier strings. *)
Fixpoint shortest_prefix (inequstr : list Z) (strs : list (list Z)) (len : Z) : Z :=
  match strs with
  | [] => len
  | t :: rest => let plen := common_prefix_len inequstr t in
      shortest_prefix inequstr rest (if (plen <? len) || (len =? -1) then plen else len)
  end.

Definition ftype_new (type len : Z) (inequstr : option (list Z)) : cres Ftype :=
  exec <- smalloc 32;;
  match inequstr with
  | None => Val (FtypeOf type len 0 [])
  | Some t => exec <- smalloc 8;; Val (FtypeOf type len 1 [t])
  end.

(** The type is there: its length and its strings. Where [realloc] fails the
    array is lost and the count is not: the next loop reads strings that were
    never stored. *)
Definition ftype_update (tmp : Ftype) (len : Z) (inequstr : option (list Z)) : cres Ftype :=
  let l := if (len >=? 0) && ((len <? ft_len tmp) || (ft_len tmp =? -1)) then len else ft_len tmp in
  match inequstr with
  | None => Val (FtypeOf (ft_type tmp) l (ft_numstrs tmp) (ft_inequstrs tmp))
  | Some t =>
      if ft_numstrs tmp =? INT_MAX then UB else
      let n := ft_numstrs tmp + 1 in
      if n >? 1 then
        if realloc_nmemb n 8 then
          if zlen (ft_inequstrs tmp) =? ft_numstrs tmp
          then Val (FtypeOf (ft_type tmp) (shortest_prefix t (ft_inequstrs tmp) l) n (ft_inequstrs tmp ++ [t])) else UB
        else Val (FtypeOf (ft_type tmp) l n [])
      else exec <- smalloc 8;; Val (FtypeOf (ft_type tmp) l n [t])
  end.

(** The loop over the list: the list with the type updated, if it is there. *)
Fixpoint ftype_find (l : list Ftype) (type len : Z) (inequstr : option (list Z)) : cres (option (list Ftype)) :=
  match l with
  | [] => Val None
  | tmp :: rest =>
      if AttrT_cmp (ft_type tmp) type =? 0 then tmp' <- ftype_update tmp len inequstr;; Val (Some (tmp' :: rest))
      else r <- ftype_find rest type len inequstr;; Val (match r with Some rest' => Some (tmp :: rest') | None => None end)
  end.

Definition ftype_add (l : list Ftype) (type len : Z) (inequstr : option (list Z)) : cres (list Ftype) :=
  match l with
  | [] => new <- ftype_new type len inequstr;; Val [new]
  | _ :: next =>
      r <- ftype_find l type len inequstr;;
      match r with
      | Some l' => Val l'
      | None => new <- ftype_new type len inequstr;; Val (new :: next)
      end
  end.

(** ** Search ACLs (checkacl.c) *)

Fixpoint oid_in_seq (at_ : Z) (seq : list OIDentifier) : cres bool :=
  match seq with
  | [] => Val false
  | o :: rest =>
      a <- deref (attr_table at_);;
      r <- oid_cmp (ot_oid a) (Some o);;
      if r =? 0 then Val true
      else r <- oid_cmp (ot_aliasoid a) (Some o);; if r =? 0 then Val true else oid_in_seq at_ rest
  end.

Definition sacl_match binddn selfdn s : cres bool :=
  let t := sac_selector s in
  if t =? ACL_ENTRY then
    match selfdn with [] => Val false | _ => r <- dn_cmp s_compare binddn selfdn;; Val (r =? OK) end
  else if t =? ACL_GROUP then r <- check_dnseq s_compare (sac_name s) binddn;; Val (r =? OK)
  else if t =? ACL_PREFIX then r <- check_dnseq_prefix s_compare (sac_name s) binddn;; Val (r =? OK)
  else Val (t =? ACL_OTHER).

(** Which of two ACLs that apply is kept. *)
Definition more_specific s (save : option (saclinfo V)) : cres (saclinfo V) :=
  match save with
  | None => Val s
  | Some old =>
      a <- rank_at (sac_selector s);;
      b <- rank_at (sac_selector old);;
      Val (if a <? b then s else if (a =? b) && match sac_types old with [] => true | _ => false end then s else old)
  end.

(** The loop over the ACLs of an entry for one type of the filter. *)
Fixpoint find_sacl binddn selfdn (scope : Z) (ft : Ftype) (sacl : list (saclinfo V)) (save : option (saclinfo V)) : cres (option (saclinfo V)) :=
  match sacl with
  | [] => Val save
  | s :: rest =>
      if Z.land (sac_scope s) scope =? 0 then find_sacl binddn selfdn scope ft rest save
      else
        typed <- match sac_types s with [] => Val true | types => oid_in_seq (ft_type ft) types end;;
        if negb typed then find_sacl binddn selfdn scope ft rest save
        else
          who <- sacl_match binddn selfdn s;;
          if negb who then find_sacl binddn selfdn scope ft rest save
          else s' <- more_specific s save;; find_sacl binddn selfdn scope ft rest (Some s')
  end.

(** Is the name believed under the policy of the entry. *)
Definition believed (authtype : Z) e binddn : DN V :=
  match e_authp e with
  | Some p => if authtype >=? ap_listandsearch p then binddn else []
  | None => binddn
  end.

Fixpoint check_base_types binddn selfdn (sacl : list (saclinfo V)) (fts : list Ftype) : cres Z :=
  match fts with
  | [] => Val OK
  | ft :: rest =>
      save <- find_sacl binddn selfdn SACL_BASEOBJECT ft sacl None;;
      match save with
      | None => check_base_types binddn selfdn sacl rest
      | Some s =>
          if sac_access s =? SACL_UNSEARCHABLE then Val NOTOK
          else if (ft_len ft >=? 0) && (ft_len ft <? sac_minkeylength s) then Val NOTOK
          else check_base_types binddn selfdn sacl rest
      end
  end.

Definition check_base_sacl binddn selfdn e (fts : list Ftype) (authtype : Z) : cres Z :=
  check_base_types (believed (Z.rem authtype 3) e binddn) selfdn (e_sacl e) fts.

Definition typedata_of (ft : Ftype) s (acc : Z) : typedata :=
  Typedata (ft_type ft) (sac_maxresults s) (sac_zeroifexceeded s) acc (sac_minkeylength s).

(** The loop over the types in [make_rc]: [save] is what the types before
    left, [tds] what was recorded. *)
Fixpoint make_types binddn selfdn (scope : Z) (sacl : list (saclinfo V)) (fts : list Ftype) (save : option (saclinfo V)) (tds : list typedata) : cres (Z * option (list typedata)) :=
  match fts with
  | [] => Val (zlen tds, match tds with [] => None | _ => Some tds end)
  | ft :: rest =>
      save <- find_sacl binddn selfdn scope ft sacl save;;
      match save with
      | None => make_types binddn selfdn scope sacl rest None tds
      | Some s =>
          match int2char (sac_access s) with
          | None => make_types binddn selfdn scope sacl rest save tds
          | Some acc =>
              exec <- smalloc 24;;
              match tds with
              | [] => make_types binddn selfdn scope sacl rest save [typedata_of ft s acc]
              | _ =>
                  if realloc_nmemb (zlen tds + 1) 24 then make_types binddn selfdn scope sacl rest save (tds ++ [typedata_of ft s acc])
                  else Val (zlen tds + 1, None)
              end
          end
      end
  end.

Definition make_rc binddn selfdn (ea : Z) e (scope : Z) (fts : list Ftype) : cres result_count :=
  exec <- smalloc 24;;
  ' (n, types) <- make_types binddn selfdn scope (e_sacl e) fts None [];;
  Val (ResultCount ea 0 n types).

(** A count by its address. *)
Definition rc_at (l : list result_count) (p : Z) : option result_count := if 1 <=? p then nth_error l (Z.to_nat (p - 1)) else None.
Definition base_of (l : list result_count) (p : Z) : Z := match rc_at l p with Some rc => rc_base rc | None => 0 end.

Definition address_cmp (x y : Z) : Z := if x <? y then -1 else if x >? y then 1 else 0.
Definition entry_rc_cmp (l : list result_count) (e rc : Z) : Z := address_cmp e (base_of l rc).
Definition rc_cmp (l : list result_count) (a b : Z) : Z := address_cmp (base_of l a) (base_of l b).

Fixpoint update (l : list result_count) (n : nat) (rc : result_count) : list result_count :=
  match l, n with
  | _ :: l', O => rc :: l'
  | x :: l', S n' => x :: update l' n' rc
  | [], _ => []
  end.
Definition rc_put (l : list result_count) (p : Z) (rc : result_count) : list result_count := update l (Z.to_nat (p - 1)) rc.

(** The first type of the count that is [type]. *)
Definition find_type (rc : result_count) (type : Z) : cres (option typedata) :=
  if rc_numtypes rc <=? 0 then Val None
  else tds <- deref (rc_types rc);; Val (find (fun td => AttrT_cmp (td_type td) type =? 0) tds).

Fixpoint check_limits (rc : result_count) (fts : list Ftype) (saclerror : Z) : cres (Z * Z) :=
  match fts with
  | [] => Val (OK, saclerror)
  | ft :: rest =>
      td <- find_type rc (ft_type ft);;
      match td with
      | None => check_limits rc rest saclerror
      | Some td =>
          if td_access td =? SACL_UNSEARCHABLE then Val (NOTOK, saclerror)
          else if rc_count rc >? td_limit td then Val (NOTOK, if negb (td_nopartial td =? 0) then -1 else 1)
          else if (ft_len ft >=? 0) && (ft_len ft <? td_minkey td) then Val (NOTOK, -1)
          else check_limits rc rest saclerror
      end
  end.

(** The count of the ancestor, made where there is none. *)
Definition running_total binddn selfdn (ea : Z) e (scope : Z) (fts : list Ftype) (st : sacls) : cres (Z * sacls) :=
  let p := avl_find 0 (entry_rc_cmp (rcs st)) (st_sacls st) ea in
  if negb (p =? 0) then Val (p, st)
  else
    rc <- make_rc binddn selfdn ea e scope fts;;
    let p := zlen (rcs st) + 1 in
    let l := rcs st ++ [rc] in
    ' (_, t) <- avl_insert 32 (ct_signed t_char) (rc_cmp l) avl_dup_error (st_sacls st) p;;
    Val (p, Sacls l t).

Definition check_one_sacl binddn selfdn (ancestor scope : Z) (fts : list Ftype) (st : sacls) (saclerror authtype : Z) : cres (Z * Z * sacls) :=
  e <- deref (dit ancestor);;
  ' (p, st) <- running_total (believed authtype e binddn) selfdn ancestor e scope fts st;;
  rc <- deref (rc_at (rcs st) p);;
  if rc_count rc =? INT_MAX then UB else
  let rc' := set_count rc (rc_count rc + 1) in
  ' (code, saclerror) <- check_limits rc' fts saclerror;;
  Val (code, saclerror, Sacls (rc_put (rcs st) p (if code =? NOTOK then set_count rc' (rc_count rc' - 1) else rc')) (st_sacls st)).

(** The walk up the tree; [fuel] bounds its depth. *)
Fixpoint check_up (fuel : nat) binddn selfdn (ancestor stop scope : Z) (fts : list Ftype) (st : sacls) (saclerror authtype : Z) : cres (Z * Z * sacls) :=
  if (ancestor =? database_root) || (ancestor =? stop) then Val (OK, saclerror, st)
  else
    match fuel with
    | O => UB
    | S fuel =>
        e <- deref (dit ancestor);;
        match e_sacl e with
        | [] => check_up fuel binddn selfdn (e_parent e) stop scope fts st saclerror authtype
        | _ =>
            ' (code, saclerror, st) <- check_one_sacl binddn selfdn ancestor scope fts st saclerror authtype;;
            if code =? NOTOK then Val (NOTOK, saclerror, st)
            else check_up fuel binddn selfdn (e_parent e) stop scope fts st saclerror authtype
        end
    end.

Definition check_ancestor_sacls (fuel : nat) binddn selfdn (ea scope baseptr : Z) (fts : list Ftype) (st : sacls) (authtype saclerror : Z) : cres (Z * Z * sacls) :=
  m <- manager binddn;;
  if negb (m =? 0) then Val (OK, saclerror, st)
  else
    scope <- scope_at scope;;
    e <- deref (dit ea);;
    base <- check_base_sacl binddn selfdn e fts authtype;;
    if base =? NOTOK then Val (NOTOK, saclerror, st)
    else if scope =? SACL_BASEOBJECT then Val (OK, saclerror, st)
    else if scope =? SACL_SINGLELEVEL then check_one_sacl binddn selfdn (e_parent e) scope fts st saclerror authtype
    else
      b <- deref (dit baseptr);;
      check_up fuel binddn selfdn ea (e_parent b) scope fts st saclerror authtype.

(** List ACLs: the result and [sizelimit]. *)
Fixpoint find_lacl binddn selfdn (scope : Z) (avs : list (saclinfo V)) (save : option (saclinfo V)) : cres (option (option (saclinfo V))) :=
  match avs with
  | [] => Val (Some save)
  | l :: rest =>
      if negb (sac_scope l =? scope) then find_lacl binddn selfdn scope rest save
      else
        let t := sac_selector l in
        tmp <- (if t =? ACL_ENTRY then r <- dn_cmp s_compare binddn selfdn;; Val (Some (r =? OK))
          else if t =? ACL_GROUP then r <- check_dnseq s_compare (sac_name l) binddn;; Val (Some (r =? OK))
          else if t =? ACL_PREFIX then r <- check_dnseq_prefix s_compare (sac_name l) binddn;; Val (Some (r =? OK))
          else Val (if t =? ACL_OTHER then Some true else None));;
        match tmp with
        | None => Val None
        | Some false => find_lacl binddn selfdn scope rest save
        | Some true =>
            match save with
            | None => find_lacl binddn selfdn scope rest (Some l)
            | Some old =>
                a <- rank_at t;; b <- rank_at (sac_selector old);;
                find_lacl binddn selfdn scope rest (Some (if a <? b then l else old))
            end
        end
  end.

Definition check_lacl binddn selfdn (avs : list (saclinfo V)) (scope : Z) : cres (Z * Z) :=
  r <- find_lacl binddn selfdn scope avs None;;
  match r with
  | None => Val (NOTOK, -1)
  | Some None => Val (OK, -1)
  | Some (Some save) => Val (if sac_maxresults save =? 0 then NOTOK else OK, sac_maxresults save)
  end.
End Access.

(** * What the checks decide *)

Section Decisions.
Context `{Pf : Platform} `{Al : Allocator} {V : Type} `{Dir : Directory V}.
Implicit Types (who node binddn selfdn : DN V) (s : saclinfo V).

Definition acl_ok (acl : list (acl_info V)) : Prop := Forall (fun i => dnseq_ok (acl_name i)) acl.

(** Whom an element of an ACL is about. *)
Definition acl_covers who node (i : acl_info V) : bool :=
  let t := acl_selector_type i in
  if t =? ACL_OTHER then true
  else match who with
  | [] => false
  | _ => if t =? ACL_ENTRY then dn_eqb s_compare who node
         else if t =? ACL_PREFIX then existsb (fun d => dn_prefixb s_compare d who) (acl_name i)
         else if t =? ACL_GROUP then existsb (dn_eqb s_compare who) (acl_name i)
         else false
  end.
Definition acl_allows who (mode : Z) node (i : acl_info V) : bool := (mode <=? acl_categories i) && acl_covers who node i.
Definition is_manager who : bool := existsb (dn_eqb s_compare who) super_user.
Definition permitted who (mode : Z) (acl : list (acl_info V)) node : bool := existsb (acl_allows who mode node) acl || is_manager who.

Lemma is_super_ok su who : dn_ok who -> is_super su who = Val (existsb (dn_eqb s_compare who) su).
Proof.
  intros W; induction su as [|d su IH]; cbn [is_super existsb]; [reflexivity|].
  destruct (dn_cmp_ok s_compare who d W) as (r & -> & <-); cbn [cbind]; destruct (r =? OK); [reflexivity | exact IH].
Qed.

Lemma manager_ok who : dn_ok who -> manager who = Val (if is_manager who then TRUE else FALSE).
Proof. intros W; unfold manager; rewrite (is_super_ok _ _ W); reflexivity. Qed.

Lemma acl_grants_ok who mode i node : dn_ok who -> dnseq_ok (acl_name i) -> acl_grants who mode i node = Val (acl_allows who mode node i).
Proof.
  intros W N; unfold acl_grants, acl_allows, acl_covers; destruct (mode <=? acl_categories i); cbn [negb andb]; [|reflexivity].
  destruct (Z.eqb_spec (acl_selector_type i) ACL_ENTRY) as [->|E]; change (ACL_ENTRY =? ACL_OTHER) with false; cbn iota.
  - destruct who as [|a who]; [reflexivity|]; destruct (dn_cmp_ok s_compare (a :: who) node W) as (r & -> & <-); reflexivity.
  - destruct (acl_selector_type i =? ACL_OTHER); [reflexivity|]; destruct who as [|a who]; [repeat case_goal; reflexivity|].
    rewrite check_dnseq_prefix_ok, check_dnseq_ok by assumption.
    repeat case_goal; reflexivity.
Qed.

Lemma check_acl_ok who mode acl node : dn_ok who -> acl_ok acl -> check_acl who mode acl node = Val (if permitted who mode acl node then OK else NOTOK).
Proof.
  intros W; induction 1 as [|i acl N _ IH]; cbn [check_acl].
  - rewrite (is_super_ok _ _ W); reflexivity.
  - rewrite acl_grants_ok by assumption; unfold permitted in *; cbn [cbind existsb]; destruct (acl_allows who mode node i); [reflexivity | exact IH].
Qed.

(** ** Which search ACL applies *)

Definition oid_eqb (p : option OIDentifier) (o : OIDentifier) : bool := match p with Some p => lex (elems p) (elems o) =? 0 | None => false end.
Definition opt_oid_ok (p : option OIDentifier) : Prop := match p with Some p => oid_ok p | None => True end.

(** A type with a row in the table. *)
Definition known (type : Z) : Prop := match attr_table type with Some a => opt_oid_ok (ot_oid a) /\ opt_oid_ok (ot_aliasoid a) | None => False end.

Definition listed (type : Z) (seq : list OIDentifier) : bool :=
  match attr_table type with Some a => existsb (fun o => oid_eqb (ot_oid a) o || oid_eqb (ot_aliasoid a) o) seq | None => false end.

Lemma oid_cmp_eqb p o : opt_oid_ok p -> oid_ok o -> exists r, oid_cmp p (Some o) = Val r /\ (r =? 0) = oid_eqb p o.
Proof.
  destruct p as [p|]; intros P O; [|eexists; split; reflexivity].
  cbn [oid_cmp oid_eqb]; rewrite elem_cmp_lex by assumption; eexists; split; reflexivity.
Qed.

Lemma oid_in_seq_ok type seq : known type -> Forall oid_ok seq -> oid_in_seq type seq = Val (listed type seq).
Proof.
  unfold known, listed; intros K; destruct (attr_table type) as [a|] eqn:E; [destruct K as (K1 & K2) | contradiction].
  induction 1 as [|o seq O _ IH]; cbn [oid_in_seq existsb]; [reflexivity|]; rewrite E; cbn [deref cbind].
  destruct (oid_cmp_eqb _ o K1 O) as (r & -> & <-); cbn [cbind]; destruct (r =? 0); [reflexivity|]; cbn [orb].
  destruct (oid_cmp_eqb _ o K2 O) as (r' & -> & <-); cbn [cbind]; destruct (r' =? 0); [reflexivity | exact IH].
Qed.

Definition sacl_covers binddn selfdn s : bool :=
  let t := sac_selector s in
  if t =? ACL_ENTRY then match selfdn with [] => false | _ => dn_eqb s_compare binddn selfdn end
  else if t =? ACL_GROUP then existsb (dn_eqb s_compare binddn) (sac_name s)
  else if t =? ACL_PREFIX then existsb (fun d => dn_prefixb s_compare d binddn) (sac_name s)
  else t =? ACL_OTHER.

Lemma sacl_match_ok binddn selfdn s : dn_ok binddn -> dnseq_ok (sac_name s) -> sacl_match binddn selfdn s = Val (sacl_covers binddn selfdn s).
Proof.
  intros W N; unfold sacl_match, sacl_covers; rewrite check_dnseq_ok, check_dnseq_prefix_ok by assumption.
  destruct (sac_selector s =? ACL_ENTRY).
  - destruct selfdn as [|a selfdn]; [reflexivity|]; destruct (dn_cmp_ok s_compare binddn (a :: selfdn) W) as (r & -> & <-); reflexivity.
  - repeat case_goal; reflexivity.
Qed.

Definition all_types s : bool := match sac_types s with [] => true | _ => false end.

(** Does an ACL apply to a scope, a type of the filter and a user. *)
Definition applies binddn selfdn (scope : Z) (ft : Ftype) s : bool :=
  negb (Z.land (sac_scope s) scope =? 0) && (all_types s || listed (ft_type ft) (sac_types s)) && sacl_covers binddn selfdn s.

Definition rank s : Z := nth (Z.to_nat (sac_selector s)) selector_rank 0.
Definition better (save : option (saclinfo V)) s : option (saclinfo V) :=
  match save with
  | None => Some s
  | Some old => Some (if rank s <? rank old then s else if (rank s =? rank old) && all_types old then s else old)
  end.

Definition sacl_ok s : Prop := 0 <= sac_selector s < 5 /\ dnseq_ok (sac_name s) /\ Forall oid_ok (sac_types s) /\ 0 <= sac_access s < 128.

Lemma rank_at_ok s : 0 <= sac_selector s < 5 -> rank_at (sac_selector s) = Val (rank s).
Proof. intros R; unfold rank_at, rank; change (zlen selector_rank) with 5; destruct (Z.leb_spec 0 (sac_selector s)), (Z.ltb_spec (sac_selector s) 5); try lia; reflexivity. Qed.

Lemma find_sacl_ok binddn selfdn scope ft sacl : dn_ok binddn -> known (ft_type ft) -> Forall sacl_ok sacl -> forall save,
  match save with Some old => sacl_ok old | None => True end ->
  find_sacl binddn selfdn scope ft sacl save = Val (fold_left better (filter (applies binddn selfdn scope ft) sacl) save).
Proof.
  intros W K; induction 1 as [|s sacl (Se & N & T & A) F IH]; intros save O; cbn [find_sacl filter fold_left]; [reflexivity|].
  unfold applies at 1; destruct (Z.land (sac_scope s) scope =? 0); cbn [negb andb]; [apply IH, O|].
  unfold all_types at 1; destruct (sac_types s) as [|o types] eqn:E; cbn [cbind orb negb andb];
    [|rewrite oid_in_seq_ok by assumption; cbn [cbind]; destruct (listed _ _); cbn [negb andb]; [|apply IH, O]];
    (rewrite sacl_match_ok by assumption; cbn [cbind]; destruct (sacl_covers binddn selfdn s) eqn:C; cbn [negb fold_left]; [|apply IH, O]).
  all: assert (S : sacl_ok s) by (split; [exact Se | split; [exact N | split; [rewrite E; assumption | exact A]]]).
  all: destruct save as [old|]; cbn [more_specific cbind better]; [|apply IH, S].
  all: rewrite !rank_at_ok by (assumption || apply O); cbn [cbind]; fold (all_types old); apply IH; repeat case_goal; assumption.
Qed.

(** The order of the ACLs: self, group, prefix, other, and among these those
    for listed types before those for all. *)
Definition specificity s : Z := 2 * rank s + (if all_types s then 1 else 0).

(** The ACL that governs: no other is more specific; among equals the first
    that lists types, or the last that does not. *)
Definition governs s (l : list (saclinfo V)) : Prop := exists before after, l = before ++ s :: after /\
  Forall (fun x => specificity s < specificity x \/ (all_types s = true /\ specificity s = specificity x)) before /\
  Forall (fun x => specificity s < specificity x \/ (all_types s = false /\ specificity s = specificity x)) after.

Lemma better_governs l : match fold_left better l None with None => l = [] | Some s => governs s l end.
Proof.
  induction l as [|x l IH] using rev_ind; [reflexivity|]; rewrite fold_left_app; cbn [fold_left].
  destruct (fold_left better l None) as [s|]; cbn [better]; [|subst l; exists [], []; repeat split; constructor].
  destruct IH as (p & q & -> & P & Q); rewrite <- app_assoc; cbn [app].
  assert (Cases : (rank x <? rank s) || ((rank x =? rank s) && all_types s) = true \/ (rank x <? rank s) || ((rank x =? rank s) && all_types s) = false) by (destruct (_ || _); auto).
  destruct Cases as [C|C].
  - replace (if rank x <? rank s then x else _) with x by (destruct (rank x <? rank s); [reflexivity|]; cbn [orb] in C; rewrite C; reflexivity).
    exists (p ++ s :: q), []; split; [rewrite <- app_assoc; reflexivity|]; split; [|constructor].
    apply orb_true_iff in C; rewrite andb_true_iff, Z.ltb_lt, Z.eqb_eq in C; unfold specificity in *.
    apply Forall_app; split; [|constructor]; try (eapply Forall_impl; [|eassumption]; cbn beta; intros y Hy).
    all: destruct (all_types x), (all_types s); try lia; destruct C as [C|(C & C')]; try discriminate; try lia.
  - replace (if rank x <? rank s then x else _) with s by (apply orb_false_iff in C as (-> & ->); reflexivity).
    exists p, (q ++ [x]); split; [reflexivity|]; split; [exact P|]; apply Forall_app; split; [exact Q|]; constructor; [|constructor].
    apply orb_false_iff in C as (C1 & C2); apply Z.ltb_ge in C1; apply andb_false_iff in C2; rewrite Z.eqb_neq in C2; unfold specificity.
    destruct (all_types x), (all_types s); destruct C2; try discriminate; try lia.
Qed.

Lemma governs_in s l : governs s l -> In s l.
Proof. intros (p & q & -> & _); apply in_elt. Qed.

Lemma governs_unique s s' l : governs s l -> governs s' l -> s = s'.
Proof.
  intros (p & q & -> & P & Q) (p' & q' & E & P' & Q').
  revert p' E P'; induction P as [|x p Hx P IH]; intros [|x' p'] E P'; cbn [app] in E; injection E as E1 E2; subst; [reflexivity| | |].
  - inversion_clear P' as [|? ? H' _]; apply Forall_app in Q as (_ & Q); inversion_clear Q as [|? ? H _].
    destruct H as [H|(A & H)], H' as [H'|(A' & H')]; unfold specificity in *; rewrite ?A, ?A' in *; lia.
  - apply Forall_app in Q' as (_ & Q'); inversion_clear Q' as [|? ? H' _].
    destruct Hx as [H|(A & H)], H' as [H'|(A' & H')]; unfold specificity in *; rewrite ?A, ?A' in *; lia.
  - inversion_clear P'; eapply IH; eassumption.
Qed.

Lemma find_governs binddn selfdn scope ft sacl : dn_ok binddn -> known (ft_type ft) -> Forall sacl_ok sacl -> exists save,
  find_sacl binddn selfdn scope ft sacl None = Val save /\
  (forall s, save = Some s <-> governs s (filter (applies binddn selfdn scope ft) sacl)) /\ match save with Some s => sacl_ok s | None => True end.
Proof.
  intros W K S; rewrite find_sacl_ok by (assumption || exact I); eexists; split; [reflexivity|].
  pose proof (better_governs (filter (applies binddn selfdn scope ft) sacl)) as G; destruct (fold_left better _ None) as [s|].
  - split; [intros s'; split; [intros [= <-]; exact G | intros G'; rewrite (governs_unique _ _ _ G G'); reflexivity]|].
    apply governs_in, filter_In in G as (G & _); rewrite Forall_forall in S; apply S, G.
  - rewrite G; split; [|exact I]; intros s; split; [discriminate | intros (? & ? & E & _); destruct x; discriminate].
Qed.

(** What an ACL allows for a type of the filter. *)
Definition searchable s (ft : Ftype) : Prop := sac_access s <> SACL_UNSEARCHABLE /\ (0 <= ft_len ft -> sac_minkeylength s <= ft_len ft).

Lemma check_base_types_ok binddn selfdn sacl fts : dn_ok binddn -> Forall (fun ft => known (ft_type ft)) fts -> Forall sacl_ok sacl -> exists r,
  check_base_types binddn selfdn sacl fts = Val r /\ (r = OK \/ r = NOTOK) /\
  (r = OK <-> forall ft s, In ft fts -> governs s (filter (applies binddn selfdn SACL_BASEOBJECT ft) sacl) -> searchable s ft).
Proof.
  intros W K S; induction K as [|ft fts K _ IH]; cbn [check_base_types]; [exists OK; split; [reflexivity|]; split; [auto|]; split; [intros _ ? ? [] | reflexivity]|].
  destruct (find_governs binddn selfdn SACL_BASEOBJECT ft sacl W K S) as (save & -> & G & _); cbn [cbind].
  destruct IH as (r & IH & Rr & Ri).
  destruct save as [s|].
  - pose proof (proj1 (G s) eq_refl) as Gs.
    destruct (Z.eqb_spec (sac_access s) SACL_UNSEARCHABLE) as [U|U];
      [exists NOTOK; split; [reflexivity|]; split; [auto|]; split; [discriminate | intros Q; destruct (Q ft s (or_introl eq_refl) Gs); contradiction]|].
    rewrite Z.geb_leb; destruct ((0 <=? ft_len ft) && (ft_len ft <? sac_minkeylength s)) eqn:L.
    + exists NOTOK; split; [reflexivity|]; split; [auto|]; split; [discriminate | intros Q; destruct (Q ft s (or_introl eq_refl) Gs) as (_ & M)]; bool_to_prop; lia.
    + exists r; split; [exact IH|]; split; [exact Rr|]; rewrite Ri; split; intros Q ft' s' I' G'; [|eapply Q; [right|]; eassumption].
      destruct I' as [<-|I']; [|eapply Q; eassumption].
      rewrite (governs_unique _ _ _ G' Gs); split; [exact U | intros Le; apply andb_false_iff in L as [L|L]; bool_to_prop; lia].
  - exists r; split; [exact IH|]; split; [exact Rr|]; rewrite Ri; split; intros Q ft' s' I' G'; [|eapply Q; [right|]; eassumption].
    destruct I' as [<-|I']; [|eapply Q; eassumption]; apply G in G'; discriminate.
Qed.
End Decisions.
