(* ===== verification/Sacl.v ===== *)
(** * quipu: the running counts of search ACLs

    Lemmas on Acl: which counts [check_one_sacl] and the walk up the tree
    change, and that a count never passes what its ACL allows. *)

From S2P Require Import Prelude Conv Oid Convert Avl Dn Acl.
From Stdlib Require Import Sorted.
Open Scope Z_scope.
Open Scope c_scope.

(** ** Counts by address *)

Lemma rc_at_app l rc p : p <> zlen l + 1 -> rc_at (l ++ [rc]) p = rc_at l p.
Proof.
  intros N; unfold rc_at; destruct (Z.leb_spec 1 p); [|reflexivity]; unfold zlen in N.
  destruct (Nat.lt_ge_cases (Z.to_nat (p - 1)) (length l)); [apply nth_error_app1; assumption|].
  rewrite (proj2 (nth_error_None _ _)) by (rewrite length_app; simpl; lia); symmetry; apply nth_error_None; lia.
Qed.

Lemma rc_at_new l rc : rc_at (l ++ [rc]) (zlen l + 1) = Some rc.
Proof.
  unfold rc_at; pose proof (zlen_nonneg l); destruct (Z.leb_spec 1 (zlen l + 1)); [|lia].
  rewrite nth_error_app2 by (unfold zlen; lia); unfold zlen; replace (_ - _)%nat with O by lia; reflexivity.
Qed.

Lemma rc_at_range l p rc : rc_at l p = Some rc -> 1 <= p <= zlen l.
Proof.
  unfold rc_at; destruct (Z.leb_spec 1 p); [|discriminate]; intros E.
  assert (L : (Z.to_nat (p - 1) < length l)%nat) by (apply nth_error_Some; congruence); unfold zlen; lia.
Qed.

Lemma update_nth l : forall n rc m, (n < length l)%nat -> nth_error (update l n rc) m = if Nat.eq_dec m n then Some rc else nth_error l m.
Proof.
  induction l as [|x l IH]; intros [|n] rc [|m] L; cbn [length] in L; try lia; cbn [update nth_error]; try reflexivity.
  rewrite IH by lia; destruct (Nat.eq_dec m n), (Nat.eq_dec (S m) (S n)); try lia; reflexivity.
Qed.

Lemma rc_at_put l p q rc old : rc_at l p = Some old -> rc_at (rc_put l p rc) q = if q =? p then Some rc else rc_at l q.
Proof.
  intros E; pose proof (rc_at_range _ _ _ E) as R; unfold rc_at, rc_put, zlen in *.
  destruct (Z.leb_spec 1 q), (Z.eqb_spec q p); try lia; [| |reflexivity]; rewrite update_nth by lia; destruct (Nat.eq_dec _ _); try lia; reflexivity.
Qed.

Lemma zlen_put l p rc : zlen (rc_put l p rc) = zlen l.
Proof.
  unfold zlen, rc_put; f_equal; generalize (Z.to_nat (p - 1)); induction l as [|x l IH]; intros [|n]; cbn [update length]; congruence.
Qed.

Lemma base_put l p rc old q : rc_at l p = Some old -> rc_base rc = rc_base old -> base_of (rc_put l p rc) q = base_of l q.
Proof. intros E B; unfold base_of; rewrite (rc_at_put _ _ _ _ _ E); destruct (Z.eqb_spec q p) as [->|]; [rewrite E; exact B | reflexivity]. Qed.

(** ** The tree of counts *)

Lemma address_cmp_eq x y : address_cmp x y = 0 <-> x = y.
Proof. unfold address_cmp; rewrite Z.gtb_ltb; destruct (Z.ltb_spec x y), (Z.ltb_spec y x); lia. Qed.
Lemma address_cmp_lt x y : address_cmp x y < 0 <-> x < y.
Proof. unfold address_cmp; rewrite Z.gtb_ltb; destruct (Z.ltb_spec x y), (Z.ltb_spec y x); lia. Qed.

#[export] Instance rc_ordering l : Ordering (rc_cmp l).
Proof.
  unfold rc_cmp; generalize (base_of l); intros B; split; intros *.
  - unfold address_cmp; rewrite !Z.gtb_ltb; destruct (Z.ltb_spec (B x) (B y)), (Z.ltb_spec (B y) (B x)); try lia; reflexivity.
  - rewrite !address_cmp_lt; lia.
  - rewrite address_cmp_eq; intros ->; reflexivity.
Qed.

Lemma sorted_ext {D} (f g : D -> D -> Z) k : (forall x y, In x k -> In y k -> f x y = g x y) -> sorted f k -> sorted g k.
Proof.
  unfold sorted; induction k as [|x k IH]; intros E S; [constructor|].
  apply StronglySorted_inv in S as (S & F); apply SSorted_cons.
  - apply IH; [intros; apply E; right; assumption | exact S].
  - rewrite Forall_forall in *; intros y Hy; unfold before; rewrite <- E; [exact (F y Hy) | left; reflexivity | right; exact Hy].
Qed.

Lemma avl_find_entry l t a : sorted (rc_cmp l) (elements t) ->
  (In (avl_find 0 (entry_rc_cmp l) t a) (elements t) /\ base_of l (avl_find 0 (entry_rc_cmp l) t a) = a) \/
  (avl_find 0 (entry_rc_cmp l) t a = 0 /\ forall q, In q (elements t) -> base_of l q <> a).
Proof.
  induction t as [|t1 IH1 b d t2 IH2]; cbn [elements avl_find]; [intros _; right; split; [reflexivity | intros ? []]|].
  intros S; apply sorted_node in S as (S1 & S2 & F1 & F2); [|exact _]; rewrite Forall_forall in F1, F2.
  unfold before, rc_cmp in F1, F2; setoid_rewrite address_cmp_lt in F1; setoid_rewrite address_cmp_lt in F2; setoid_rewrite in_app_iff; cbn [In].
  change (entry_rc_cmp l a d) with (address_cmp a (base_of l d)); destruct (Z.eqb_spec (address_cmp a (base_of l d)) 0) as [E|E];
    [rewrite address_cmp_eq in E; left; split; [right; left; reflexivity | symmetry; exact E]|].
  rewrite address_cmp_eq in E; destruct (Z.ltb_spec (address_cmp a (base_of l d)) 0) as [L|L]; rewrite ?address_cmp_lt in L.
  - destruct (IH1 S1) as [(I1 & B1)|(N1 & B1)]; [left; auto|]; right; split; [exact N1|].
    intros q [Q|[<-|Q]]; [apply B1, Q | congruence | specialize (F2 q Q); lia].
  - assert (a > base_of l d) by (pose proof (proj2 (address_cmp_lt a (base_of l d))); lia).
    destruct (IH2 S2) as [(I2 & B2)|(N2 & B2)]; [left; auto|]; right; split; [exact N2|].
    intros q [Q|[<-|Q]]; [specialize (F1 q Q); lia | congruence | apply B2, Q].
Qed.

Lemma avl_find_ext l l' (t : avlnode Z) a : (forall p, In p (elements t) -> base_of l p = base_of l' p) -> avl_find 0 (entry_rc_cmp l) t a = avl_find 0 (entry_rc_cmp l') t a.
Proof.
  induction t as [|t1 IH1 b d t2 IH2]; cbn [elements avl_find]; intros E; [reflexivity|].
  unfold entry_rc_cmp at 1 2 5 6; rewrite (E d) by (apply in_elt); rewrite IH1, IH2; [reflexivity | |]; intros; apply E, in_app_iff; cbn [In]; auto.
Qed.

Lemma list_insert_in l data k : (forall x, In x k -> rc_cmp l data x <> 0) -> forall q, In q (snd (list_insert (rc_cmp l) avl_dup_error data k)) <-> q = data \/ In q k.
Proof.
  induction k as [|x k IH]; intros N q; cbn [list_insert].
  - cbn [snd In]; intuition congruence.
  - destruct (Z.eqb_spec (rc_cmp l data x) 0) as [E|E]; [destruct (N x (or_introl eq_refl) E)|].
    destruct (rc_cmp l data x <? 0); [cbn [snd In]; intuition congruence|].
    specialize (IH (fun y Hy => N y (or_intror Hy)) q); destruct (list_insert _ _ data k) as (c, k'); cbn [snd In] in *; rewrite IH; tauto.
Qed.

(** ** What a count is made from *)

Section Counts.
Context `{Pf : Platform} `{Al : Allocator} {V : Type} `{Dir : Directory V}.
Variables (binddn selfdn : DN V) (scope authtype : Z) (fts : list Ftype).

(** The ACL in force for each type of the filter: the choice goes on from
    the one for the types before. *)
Fixpoint chosen (who : DN V) (sacl : list (saclinfo V)) (l : list Ftype) (save : option (saclinfo V)) : list (Ftype * option (saclinfo V)) :=
  match l with
  | [] => []
  | ft :: rest => let save' := fold_left better (filter (applies who selfdn scope ft) sacl) save in (ft, save') :: chosen who sacl rest save'
  end.

(** The ACLs that apply to one of the types. *)
Definition applicable (who : DN V) (sacl : list (saclinfo V)) (l : list Ftype) : list (saclinfo V) := flat_map (fun ft => filter (applies who selfdn scope ft) sacl) l.

Lemma chosen_at who sacl : forall l save ft so, In (ft, so) (chosen who sacl l save) <->
  exists p q, l = p ++ ft :: q /\ so = fold_left better (applicable who sacl (p ++ [ft])) save.
Proof.
  induction l as [|f l IH]; intros save ft so; cbn [chosen In].
  - split; [intros [] | intros (p & q & E & _); destruct p; discriminate].
  - rewrite IH; unfold applicable; split.
    + intros [[= -> <-]|(p & q & -> & ->)].
      * exists [], l; split; [reflexivity|]; cbn [app flat_map]; rewrite app_nil_r; reflexivity.
      * exists (f :: p), q; split; [reflexivity|]; cbn [app flat_map]; rewrite fold_left_app; reflexivity.
    + intros ([|x p] & q & [= -> ->] & ->); cbn [app flat_map].
      * left; rewrite app_nil_r; reflexivity.
      * right; exists p, q; split; [reflexivity|]; rewrite fold_left_app; reflexivity.
Qed.

Lemma chosen_in who sacl : forall l save ft s, match save with Some old => In old sacl | None => True end -> In (ft, Some s) (chosen who sacl l save) -> In s sacl.
Proof.
  intros l save ft s Hs I; apply chosen_at in I as (p & q & _ & E); generalize dependent save.
  assert (A : forall x, In x (applicable who sacl (p ++ [ft])) -> In x sacl) by (intros x; unfold applicable; rewrite in_flat_map; intros (f & _ & H); apply filter_In in H; tauto).
  induction (applicable who sacl (p ++ [ft])) as [|x l0 IH]; cbn [fold_left]; intros save Hs E; [subst save; exact Hs|].
  eapply IH; [intros y Hy; apply A; right; exact Hy | | exact E].
  destruct save as [old|]; cbn [better]; [repeat case_goal; try exact Hs|]; apply A; left; reflexivity.
Qed.

Definition recorded (l : list (Ftype * option (saclinfo V))) : list typedata :=
  flat_map (fun '(ft, so) => match so with Some s => [typedata_of ft s (sac_access s)] | None => [] end) l.

Hypothesis Mem : memory_ok.
Hypothesis Ok : platform_ok.
Hypothesis Bind : dn_ok binddn.
Hypothesis Known : Forall (fun ft => known (ft_type ft)) fts.
Hypothesis Distinct : NoDup (map ft_type fts).
Hypothesis Many : zlen fts < INT_MAX.
Hypothesis Sacls_ok : forall a e, dit a = Some e -> Forall sacl_ok (e_sacl e).

Lemma int2char_ok a : 0 <= a < 128 -> int2char a = Some a.
Proof.
  destruct Ok as (_ & W & _); intros R; unfold int2char, ct_min, ct_max, cast; destruct t_char as [sg w]; cbn [ct_width ct_signed] in *; subst w.
  change (2 ^ (8 - 1)) with 128; change (2 ^ 8) with 256; rewrite Z.gtb_ltb; destruct sg.
  - destruct (Z.ltb_spec a (- (128))), (Z.ltb_spec (128 - 1) a); try lia; cbn [orb]; f_equal; rewrite Z.mod_small; lia.
  - destruct (Z.ltb_spec a 0), (Z.ltb_spec (256 - 1) a); try lia; cbn [orb]; f_equal; apply Z.mod_small; lia.
Qed.

Lemma realloc_ok n size : 0 < n <= INT_MAX -> 0 < size <= 24 -> realloc_nmemb n size = true.
Proof.
  intros N S; unfold realloc_nmemb, int2sizet; destruct (Z.ltb_spec n 0); [lia|]; rewrite Mem, andb_true_r, Z.gtb_ltb.
  assert (Q : INT_MAX < Z.quot SIZE_MAX size) by (rewrite Z.quot_div_nonneg by (unfold SIZE_MAX; lia); enough (INT_MAX + 1 <= SIZE_MAX / size) by lia; apply Z.div_le_lower_bound; unfold INT_MAX, SIZE_MAX; lia).
  destruct (Z.ltb_spec (Z.quot SIZE_MAX size) n); [lia|]; rewrite andb_false_r.
  unfold cast, SIZE; cbn [ct_signed ct_width]; rewrite Z.mod_small by (unfold INT_MAX in *; change (2 ^ 64) with 18446744073709551616; nia).
  destruct (Z.eqb_spec (n * size) 0); [nia | reflexivity].
Qed.

Lemma make_types_ok who sacl : dn_ok who -> Forall sacl_ok sacl -> forall l save tds, Forall (fun ft => known (ft_type ft)) l -> zlen tds + zlen l < INT_MAX ->
  match save with Some old => In old sacl | None => True end ->
  let r := tds ++ recorded (chosen who sacl l save) in
  make_types who selfdn scope sacl l save tds = Val (zlen r, match r with [] => None | _ => Some r end).
Proof.
  intros W S; pose proof (proj1 (Forall_forall _ _) S) as S'.
  induction l as [|ft l IH]; intros save tds K L Hs; cbn [make_types chosen recorded flat_map]; [rewrite app_nil_r; reflexivity|].
  inversion_clear K as [|? ? Kf Kl]; rewrite zlen_cons in L.
  assert (I : match fold_left better (filter (applies who selfdn scope ft) sacl) save with Some s => In s sacl | None => True end).
  { destruct (fold_left _ _ save) as [s|] eqn:E; [|exact I]; apply (chosen_in who sacl [ft] save ft s Hs); cbn [chosen]; rewrite E; left; reflexivity. }
  rewrite find_sacl_ok; [|assumption..|destruct save; [apply S', Hs | exact Logic.I]]; cbn [cbind]; fold (recorded (chosen who sacl l (fold_left better (filter (applies who selfdn scope ft) sacl) save))).
  destruct (fold_left better _ save) as [s|]; [|apply IH; [exact Kl | lia | exact Logic.I]].
  rewrite int2char_ok by apply (S' s I); unfold smalloc; rewrite Mem; cbn [cbind app].
  destruct tds as [|td tds]; [apply (IH (Some s) [_] Kl); [rewrite zlen_one; change (zlen (@nil typedata)) with 0 in L; lia | exact I]|].
  rewrite realloc_ok by (pose proof (zlen_nonneg (td :: tds)); pose proof (zlen_nonneg l); unfold INT_MAX in *; lia).
  rewrite IH; [|exact Kl | rewrite zlen_app, zlen_one; lia | exact I]; rewrite <- !app_assoc; reflexivity.
Qed.

(** ** What a count allows *)

Definition held (e : entry V) : list (Ftype * option (saclinfo V)) := chosen (believed authtype e binddn) (e_sacl e) fts None.

(** The [n]-th result is within what the ACLs of an entry allow. *)
Definition within (e : entry V) (n : Z) : Prop := forall ft s, In (ft, Some s) (held e) -> searchable s ft /\ n <= sac_maxresults s.

Definition made (e : entry V) (rc : result_count) : Prop :=
  rc_numtypes rc = zlen (recorded (held e)) /\ rc_types rc = match recorded (held e) with [] => None | _ => Some (recorded (held e)) end.

Lemma believed_ok e : dn_ok (believed authtype e binddn).
Proof. unfold believed; destruct (e_authp e) as [p|]; [destruct (authtype >=? _)|]; [exact Bind | constructor | exact Bind]. Qed.

Lemma make_rc_ok a e : dit a = Some e -> exists rc, make_rc (believed authtype e binddn) selfdn a e scope fts = Val rc /\ made e rc /\ rc_base rc = a /\ rc_count rc = 0.
Proof.
  intros E; unfold make_rc, smalloc; rewrite Mem; cbn [cbind].
  rewrite make_types_ok; [|apply believed_ok | apply (Sacls_ok a), E | exact Known | exact Many | exact I].
  eexists; split; [reflexivity|]; split; [split|split]; reflexivity.
Qed.

Lemma AttrT_cmp_eq x y : (AttrT_cmp x y =? 0) = (x =? y).
Proof. unfold AttrT_cmp; destruct (x =? y); [reflexivity|]; destruct (x >? y); reflexivity. Qed.

Lemma chosen_types who sacl : forall l save, map fst (chosen who sacl l save) = l.
Proof. induction l as [|ft l IH]; intros save; [reflexivity|]; cbn [chosen map fst]; rewrite IH; reflexivity. Qed.

Lemma find_recorded l ft so : NoDup (map (fun x => ft_type (fst x)) l) -> In (ft, so) l ->
  find (fun td => AttrT_cmp (td_type td) (ft_type ft) =? 0) (recorded l) = option_map (fun s => typedata_of ft s (sac_access s)) so.
Proof.
  intros N I.
  assert (Away : forall m, ~ In (ft_type ft) (map (fun x => ft_type (fst x)) m) -> find (fun td => AttrT_cmp (td_type td) (ft_type ft) =? 0) (recorded m) = None).
  { induction m as [|(f, o) m IH]; [reflexivity|]; cbn [map fst In recorded flat_map]; fold (recorded m); intros A; destruct o as [s|]; cbn [app find]; [|apply IH; tauto].
    rewrite AttrT_cmp_eq; cbn [td_type typedata_of]; destruct (Z.eqb_spec (ft_type f) (ft_type ft)); [tauto | apply IH; tauto]. }
  induction l as [|(f, o) l IH]; [destruct I|]; cbn [map fst recorded flat_map] in *; fold (recorded l); inversion_clear N as [|? ? N1 N2].
  destruct I as [[= -> ->]|I].
  - destruct so as [s|]; cbn [app find option_map]; [rewrite AttrT_cmp_eq; cbn [td_type typedata_of]; rewrite Z.eqb_refl; reflexivity | apply Away, N1].
  - rewrite <- (IH N2 I); destruct o as [s|]; cbn [app find]; [|reflexivity].
    rewrite AttrT_cmp_eq; cbn [td_type typedata_of]; destruct (Z.eqb_spec (ft_type f) (ft_type ft)) as [Q|]; [|reflexivity].
    destruct N1; rewrite Q; apply in_map_iff; exists (ft, so); split; [reflexivity | exact I].
Qed.

Lemma find_type_ok e rc ft so : made e rc -> In (ft, so) (held e) -> find_type rc (ft_type ft) = Val (option_map (fun s => typedata_of ft s (sac_access s)) so).
Proof.
  intros (N & T) I; unfold find_type; rewrite N, T, <- (find_recorded (held e) ft so); [|unfold held; rewrite <- map_map, chosen_types; exact Distinct | exact I].
  destruct (recorded (held e)) as [|td tds]; [reflexivity|]; rewrite zlen_cons; pose proof (zlen_nonneg tds); destruct (Z.leb_spec (1 + zlen tds) 0); [lia | reflexivity].
Qed.

Lemma check_limits_ok e rc err : made e rc -> exists code err', check_limits rc fts err = Val (code, err') /\ (code = OK \/ code = NOTOK) /\ (code = OK <-> within e (rc_count rc)).
Proof.
  intros M; unfold within.
  assert (T : map fst (held e) = fts) by apply chosen_types.
  assert (F : forall ft so, In (ft, so) (held e) -> find_type rc (ft_type ft) = Val (option_map (fun s => typedata_of ft s (sac_access s)) so)) by (intros; eapply find_type_ok; eassumption).
  rewrite <- T; clear T; induction (held e) as [|(ft, so) l IH]; cbn [map fst check_limits]; [exists OK, err; split; [reflexivity|]; split; [auto|]; split; [intros _ ? ? [] | reflexivity]|].
  destruct IH as (code & err' & IH & Cc & Ci); [intros; apply F; right; assumption|].
  rewrite (F ft so) by (left; reflexivity); cbn [cbind].
  destruct so as [s|]; cbn [option_map].
  2: { exists code, err'; split; [exact IH|]; split; [exact Cc|]; rewrite Ci; split; intros Q ft' s' I'; [destruct I' as [[=]|I'] | apply Q; right]; auto. }
  unfold searchable; cbn [td_access td_limit td_minkey typedata_of].
  destruct (Z.eqb_spec (sac_access s) SACL_UNSEARCHABLE) as [U|U];
    [exists NOTOK, err; split; [reflexivity|]; split; [auto|]; split; [discriminate | intros Q; destruct (Q ft s (or_introl eq_refl)) as ((Q' & _) & _); contradiction]|].
  rewrite Z.gtb_ltb, Z.geb_leb; destruct (Z.ltb_spec (sac_maxresults s) (rc_count rc)) as [L|L].
  { eexists NOTOK, _; split; [reflexivity|]; split; [auto|]; split; [discriminate | intros Q; destruct (Q ft s (or_introl eq_refl)); lia]. }
  destruct ((0 <=? ft_len ft) && (ft_len ft <? sac_minkeylength s)) eqn:K.
  { exists NOTOK, (-1); split; [reflexivity|]; split; [auto|]; split; [discriminate | intros Q; destruct (Q ft s (or_introl eq_refl)) as ((_ & Q') & _); bool_to_prop; lia]. }
  exists code, err'; split; [exact IH|]; split; [exact Cc|]; rewrite Ci; split; intros Q ft' s' I'; [|apply Q; right; exact I'].
  destruct I' as [[= <- <-]|I']; [|apply Q, I']; split; [split; [exact U|] | exact L].
  intros Le; apply andb_false_iff in K as [K|K]; bool_to_prop; lia.
Qed.

(** ** The counts of a search *)

Definition count (st : sacls) (a : Z) : Z :=
  match rc_at (rcs st) (avl_find 0 (entry_rc_cmp (rcs st)) (st_sacls st) a) with Some rc => rc_count rc | None => 0 end.

(** The tree holds the address of each count once, and a count is within its
    limits; no count has passed [n]. *)
Definition counts_ok (n : Z) (st : sacls) : Prop :=
  avl (st_sacls st) /\ sorted (rc_cmp (rcs st)) (elements (st_sacls st)) /\
  (forall p, In p (elements (st_sacls st)) <-> 1 <= p <= zlen (rcs st)) /\
  forall p rc, rc_at (rcs st) p = Some rc -> exists e, dit (rc_base rc) = Some e /\ made e rc /\ 0 <= rc_count rc <= n /\ (0 < rc_count rc -> within e (rc_count rc)).

Lemma counts_none : counts_ok 0 (Sacls [] Null).
Proof.
  split; [exact I|]; split; [constructor|]; split.
  - intros p; cbn [elements st_sacls rcs In]; rewrite zlen_nil; lia.
  - intros p rc E; apply rc_at_range in E; cbn [rcs] in E; rewrite zlen_nil in E; lia.
Qed.

Lemma count_none a : count (Sacls [] Null) a = 0.
Proof. reflexivity. Qed.

Lemma rc_at_some l p : 1 <= p <= zlen l -> exists rc, rc_at l p = Some rc.
Proof.
  unfold rc_at, zlen; intros R; destruct (Z.leb_spec 1 p); [|lia]; destruct (nth_error l (Z.to_nat (p - 1))) eqn:E; [eauto | apply nth_error_None in E; lia].
Qed.

(** Where an entry has a count, its address is found. *)
Lemma count_of n st p rc : counts_ok n st -> rc_at (rcs st) p = Some rc -> avl_find 0 (entry_rc_cmp (rcs st)) (st_sacls st) (rc_base rc) = p.
Proof.
  intros (_ & S & P & _) E; assert (B : base_of (rcs st) p = rc_base rc) by (unfold base_of; rewrite E; reflexivity).
  assert (Ip : In p (elements (st_sacls st))) by (apply P; eapply rc_at_range; exact E).
  destruct (avl_find_entry _ _ (rc_base rc) S) as [(I' & B')|(_ & N)]; [|destruct (N p Ip B)].
  set (q := avl_find _ _ _ _) in *; clearbody q; rewrite <- B in B'.
  clear - S Ip I' B'; unfold sorted in S; induction (elements (st_sacls st)) as [|x k IH]; [destruct Ip|].
  apply StronglySorted_inv in S as (S & F); rewrite Forall_forall in F; unfold before, rc_cmp in F; setoid_rewrite address_cmp_lt in F.
  destruct Ip as [->|Ip], I' as [->|I']; [reflexivity | specialize (F _ I'); lia | specialize (F _ Ip); lia | apply IH; assumption].
Qed.

(** ** One ancestor *)

Hypothesis Signed : ct_signed t_char = true.

Lemma within_put n m st p rc rc' : counts_ok n st -> n <= m -> rc_at (rcs st) p = Some rc -> rc_base rc' = rc_base rc -> (forall e, made e rc -> made e rc') ->
  0 <= rc_count rc' <= m -> (forall e, dit (rc_base rc) = Some e -> 0 < rc_count rc' -> within e (rc_count rc')) ->
  counts_ok m (Sacls (rc_put (rcs st) p rc') (st_sacls st)) /\
  count (Sacls (rc_put (rcs st) p rc') (st_sacls st)) (rc_base rc) = rc_count rc' /\
  (forall b, b <> rc_base rc -> count (Sacls (rc_put (rcs st) p rc') (st_sacls st)) b = count st b).
Proof.
  intros C L E B Mk R W; pose proof (count_of n st p rc C E) as Fd; destruct C as (A & S & P & Rc).
  assert (Bo : forall q, base_of (rc_put (rcs st) p rc') q = base_of (rcs st) q) by (intros q; eapply base_put; eassumption).
  assert (Fe : forall b, avl_find 0 (entry_rc_cmp (rc_put (rcs st) p rc')) (st_sacls st) b = avl_find 0 (entry_rc_cmp (rcs st)) (st_sacls st) b) by (intros b; apply avl_find_ext; intros; apply Bo).
  split; [|split].
  - split; [exact A|]; split; [eapply sorted_ext; [|exact S]; intros; unfold rc_cmp; cbn [rcs]; rewrite !Bo; reflexivity|].
    split; [intros q; cbn [rcs st_sacls]; rewrite zlen_put; apply P|]; cbn [rcs]; intros q rc0; rewrite (rc_at_put _ _ _ _ _ E).
    destruct (Z.eqb_spec q p) as [->|]; [intros [= <-] | intros E0; destruct (Rc q rc0 E0) as (e & D & M & Rg & Wn); exists e; split; [exact D|]; split; [exact M|]; split; [lia | exact Wn]].
    destruct (Rc p rc E) as (e & D & M & _ & _); exists e; rewrite B; split; [exact D|]; split; [apply Mk, M|]; split; [exact R | apply W, D].
  - unfold count; cbn [rcs st_sacls]; rewrite Fe, Fd, (rc_at_put _ _ _ _ _ E), Z.eqb_refl; reflexivity.
  - intros b N; unfold count; cbn [rcs st_sacls]; rewrite Fe, (rc_at_put _ _ _ _ _ E).
    destruct (Z.eqb_spec (avl_find 0 (entry_rc_cmp (rcs st)) (st_sacls st) b) p) as [Q|]; [|reflexivity].
    exfalso; destruct (avl_find_entry (rcs st) (st_sacls st) b S) as [(_ & B')|(Q' & _)].
    + rewrite Q in B'; unfold base_of in B'; rewrite E in B'; congruence.
    + apply rc_at_range in E; lia.
Qed.

Lemma running_total_ok n a e st : counts_ok n st -> 0 <= n -> dit a = Some e -> exists p st' rc, running_total (believed authtype e binddn) selfdn a e scope fts st = Val (p, st') /\
  counts_ok n st' /\ (forall b, count st' b = count st b) /\ rc_at (rcs st') p = Some rc /\ rc_base rc = a /\ count st a = rc_count rc.
Proof.
  intros C N E; pose proof C as (A & S & P & Rc); unfold running_total.
  destruct (avl_find_entry (rcs st) (st_sacls st) a S) as [(I & B)|(-> & No)].
  - apply P in I as R; destruct (Z.eqb_spec (avl_find 0 (entry_rc_cmp (rcs st)) (st_sacls st) a) 0) as [Q|_]; [lia|]; cbn [negb].
    destruct (rc_at_some _ _ R) as (rc & Er); exists (avl_find 0 (entry_rc_cmp (rcs st)) (st_sacls st) a), st, rc.
    split; [reflexivity|]; split; [exact C|]; split; [reflexivity|]; split; [exact Er|]; unfold base_of in B; rewrite Er in B; split; [exact B|].
    unfold count; rewrite Er; reflexivity.
  - cbn [Z.eqb negb]; destruct (make_rc_ok a e E) as (rc & -> & M & B & Z0); cbn [cbind]; set (p := zlen (rcs st) + 1); set (l := rcs st ++ [rc]).
    assert (Bo : forall q, 1 <= q <= zlen (rcs st) -> base_of l q = base_of (rcs st) q) by (intros q Q; unfold base_of, l; rewrite rc_at_app by lia; reflexivity).
    assert (Bp : base_of l p = a) by (unfold base_of, l, p; rewrite rc_at_new; exact B).
    assert (S' : sorted (rc_cmp l) (elements (st_sacls st))) by (eapply sorted_ext; [|exact S]; intros x y X Y; unfold rc_cmp; rewrite !Bo by (apply P; assumption); reflexivity).
    assert (New : forall x, In x (elements (st_sacls st)) -> rc_cmp l p x <> 0).
    { intros x X; unfold rc_cmp; rewrite address_cmp_eq, Bp, Bo by (apply P, X); intros Q; apply (No x X); symmetry; exact Q. }
    unfold avl_insert; rewrite Signed; destruct (ravl_insert_ok (rc_cmp l) avl_dup_error 32 (Mem 32) p (st_sacls st) A S') as (tl & t' & -> & (A' & _ & El) & _); cbn [cbind].
    assert (Pe : forall q, In q (elements t') <-> 1 <= q <= zlen l).
    { intros q; rewrite El, (list_insert_in l p _ New), P; unfold l, p; rewrite zlen_app, zlen_one; pose proof (zlen_nonneg (rcs st)); lia. }
    assert (So : sorted (rc_cmp l) (elements t')) by (rewrite El; apply (list_insert_sorted (rc_cmp l) avl_dup_error); [intros x y; apply (cmp_refl (rc_cmp l)) | exact S']).
    assert (C' : counts_ok n (Sacls l t')).
    { split; [exact A'|]; split; [exact So|]; split; [exact Pe|]; cbn [rcs]; unfold l; intros q rc0 Eq.
      destruct (Z.eq_dec q (zlen (rcs st) + 1)) as [->|Nq]; [rewrite rc_at_new in Eq; injection Eq as <- | rewrite rc_at_app in Eq by exact Nq; apply (Rc q), Eq].
      exists e; rewrite B, Z0; split; [exact E|]; split; [exact M|]; split; [lia | lia]. }
    exists p, (Sacls l t'), rc; split; [reflexivity|]; split; [exact C'|]; cbn [rcs].
    assert (Ep : rc_at l p = Some rc) by apply rc_at_new.
    split; [|split; [exact Ep|]; split; [exact B|]; unfold count; destruct (avl_find_entry (rcs st) (st_sacls st) a S) as [(I' & B')|(-> & _)]; [destruct (No _ I' B') | rewrite Z0; reflexivity]].
    intros b; unfold count; cbn [rcs st_sacls].
    destruct (avl_find_entry (rcs st) (st_sacls st) b S) as [(I1 & B1)|(-> & N1)].
    + apply P in I1 as R1; destruct (rc_at_some _ _ R1) as (rc1 & E1).
      assert (E1' : rc_at l (avl_find 0 (entry_rc_cmp (rcs st)) (st_sacls st) b) = Some rc1) by (unfold l; rewrite rc_at_app by lia; exact E1).
      assert (Bb : rc_base rc1 = b) by (unfold base_of in B1; rewrite E1 in B1; exact B1).
      pose proof (count_of n (Sacls l t') _ rc1 C' E1') as F1; cbn [rcs st_sacls] in F1; rewrite Bb in F1; rewrite F1, E1, E1'; reflexivity.
    + change (rc_at (rcs st) 0) with (@None result_count); destruct (avl_find_entry l t' b So) as [(I2 & B2)|(-> & _)]; [|reflexivity].
      apply Pe in I2 as R2; destruct (Z.eq_dec (avl_find 0 (entry_rc_cmp l) t' b) p) as [->|Np]; [rewrite Ep, Z0; reflexivity|].
      exfalso; unfold l, p in R2, Np; rewrite zlen_app, zlen_one in R2; rewrite Bo in B2 by (unfold l; lia); apply (N1 (avl_find 0 (entry_rc_cmp l) t' b)); [apply P; unfold l; lia | exact B2].
Qed.

(** A result under an ancestor: it is let through where one more is within
    the limits, and then counted. *)
Lemma check_one_ok n a e st err : counts_ok n st -> 0 <= n < INT_MAX -> dit a = Some e -> exists code err' st',
  check_one_sacl binddn selfdn a scope fts st err authtype = Val (code, err', st') /\ counts_ok (n + 1) st' /\ (forall b, b <> a -> count st' b = count st b) /\
  (within e (count st a + 1) /\ code = OK /\ count st' a = count st a + 1 \/ ~ within e (count st a + 1) /\ code = NOTOK /\ count st' a = count st a).
Proof.
  intros C N E; unfold check_one_sacl; rewrite E; cbn [deref cbind].
  destruct (running_total_ok n a e st C (proj1 N) E) as (p & st1 & rc & -> & C1 & Cn & Er & B & Ca); cbn [cbind]; rewrite Er; cbn [deref cbind].
  destruct (proj2 (proj2 (proj2 C1)) p rc Er) as (e' & E' & M & R & Wn); rewrite B, E in E'; injection E' as <-.
  destruct (Z.eqb_spec (rc_count rc) INT_MAX); [lia|].
  destruct (check_limits_ok e (set_count rc (rc_count rc + 1)) err) as (code & err' & -> & Cc & Ci); [exact M|]; cbn [cbind set_count rc_count] in *.
  rewrite Ca.
  assert (G : forall k, 0 <= k <= n + 1 -> (0 < k -> within e k) -> counts_ok (n + 1) (Sacls (rc_put (rcs st1) p (set_count rc k)) (st_sacls st1)) /\
     count (Sacls (rc_put (rcs st1) p (set_count rc k)) (st_sacls st1)) a = k /\ (forall b, b <> a -> count (Sacls (rc_put (rcs st1) p (set_count rc k)) (st_sacls st1)) b = count st b)).
  { intros k Hk Hw; destruct (within_put n (n + 1) st1 p rc (set_count rc k) C1) as (G1 & G2 & G3); try reflexivity; try assumption; try lia; [intros e0 M0; exact M0 | rewrite B; intros e0 E0; rewrite E in E0; injection E0 as <-; exact Hw|].
    rewrite B in G2, G3; split; [exact G1|]; split; [exact G2|]; intros b Nb; rewrite G3 by exact Nb; apply Cn. }
  unfold set_count at 1; cbn [rc_count rc_base rc_numtypes rc_types].
  destruct Cc as [->| ->]; cbn [Z.eqb]; eexists _, err', _; (split; [reflexivity|]).
  - change (OK =? NOTOK) with false; destruct (G (rc_count rc + 1)) as (G1 & G2 & G3); [lia | intros _; apply Ci; reflexivity|].
    split; [exact G1|]; split; [exact G3|]; left; split; [apply Ci; reflexivity|]; split; [reflexivity | exact G2].
  - change (NOTOK =? NOTOK) with true; replace (rc_count rc + 1 - 1) with (rc_count rc) by lia; destruct (G (rc_count rc)) as (G1 & G2 & G3); [lia | exact Wn|].
    split; [exact G1|]; split; [exact G3|]; right; split; [intros Q; apply Ci in Q; discriminate|]; split; [reflexivity | exact G2].
Qed.

(** ** The ancestors *)

(** The entries from [a] up to the root or to [stop], which is above the base
    of the search. *)
Inductive path (stop : Z) : Z -> list Z -> Prop :=
| path_end a : a = database_root \/ a = stop -> path stop a []
| path_up a e l : a <> database_root -> a <> stop -> dit a = Some e -> path stop (e_parent e) l -> path stop a (a :: l).

Lemma counts_more n m st : counts_ok n st -> n <= m -> counts_ok m st.
Proof.
  intros (A & S & P & R) L; split; [exact A|]; split; [exact S|]; split; [exact P|]; intros p rc E.
  destruct (R p rc E) as (e & D & M & Rg & W); exists e; split; [exact D|]; split; [exact M|]; split; [lia | exact W].
Qed.

(** One more result is within the limits of every ancestor with ACLs. *)
Definition room (st : sacls) (l : list Z) : Prop := forall b e, In b l -> dit b = Some e -> e_sacl e <> [] -> within e (count st b + 1).

Lemma check_up_ok stop a l : path stop a l -> NoDup l -> forall fuel n st err, (length l <= fuel)%nat -> counts_ok n st -> 0 <= n -> n + zlen l <= INT_MAX ->
  exists code err' st', check_up fuel binddn selfdn a stop scope fts st err authtype = Val (code, err', st') /\ counts_ok (n + zlen l) st' /\
    (code = OK \/ code = NOTOK) /\ (code = OK <-> room st l) /\ (forall b, count st b <= count st' b) /\
    (code = OK -> forall b e, In b l -> dit b = Some e -> e_sacl e <> [] -> count st b + 1 <= count st' b).
Proof.
  induction 1 as [a End|a e l Nr Ns E Pa IH]; intros Nd fuel n st err Fu C N M.
  - exists OK, err, st; change (zlen (@nil Z)) with 0 in *; destruct fuel; cbn [check_up]; rewrite (proj2 (orb_true_iff _ _)) by (rewrite !Z.eqb_eq; exact End);
      (split; [reflexivity|]; split; [rewrite Z.add_0_r; exact C|]; split; [auto|]; split; [split; [intros _ ? ? [] | reflexivity]|]; split; [intros; lia | intros _ ? ? []]).
  - destruct fuel as [|fuel]; [cbn [length] in Fu; lia|]; cbn [check_up]; cbn [length] in Fu; rewrite zlen_cons in *; apply NoDup_cons_iff in Nd as (Na & Nd).
    rewrite (proj2 (Z.eqb_neq _ _) Nr), (proj2 (Z.eqb_neq _ _) Ns); cbn [orb]; rewrite E; cbn [deref cbind].
    assert (Skip : e_sacl e = [] -> exists code err' st', check_up fuel binddn selfdn (e_parent e) stop scope fts st err authtype = Val (code, err', st') /\ counts_ok (n + (1 + zlen l)) st' /\
      (code = OK \/ code = NOTOK) /\ (code = OK <-> room st (a :: l)) /\ (forall b, count st b <= count st' b) /\
      (code = OK -> forall b e, In b (a :: l) -> dit b = Some e -> e_sacl e <> [] -> count st b + 1 <= count st' b)).
    { intros Q; destruct (IH Nd fuel n st err ltac:(lia) C N ltac:(lia)) as (code & err' & st' & -> & C' & Cc & Ci & Mo & Up); exists code, err', st'.
      split; [reflexivity|]; split; [apply (counts_more (n + zlen l)); [exact C' | lia]|]; split; [exact Cc|].
      split; [rewrite Ci; split; intros H b e' I; [destruct I as [<-|I]; [rewrite E; intros [= <-]; contradiction | apply H, I] | apply H; right; exact I]|].
      split; [exact Mo|]; intros O b e' [<-|I]; [rewrite E; intros [= <-]; contradiction | apply (Up O), I]. }
    destruct (e_sacl e) as [|s0 sacl] eqn:Es; [apply Skip; reflexivity|]; clear Skip.
    pose proof (zlen_nonneg l); destruct (check_one_ok n a e st err C ltac:(lia) E) as (code & err1 & st1 & -> & C1 & Ot & [(W & -> & Ca)|(W & -> & Ca)]); cbn [cbind].
    + change (OK =? NOTOK) with false; cbn iota.
      destruct (IH Nd fuel (n + 1) st1 err1 ltac:(lia) C1 ltac:(lia) ltac:(lia)) as (code & err' & st' & -> & C' & Cc & Ci & Mo & Up); exists code, err', st'.
      assert (Ol : forall b, In b l -> count st1 b = count st b) by (intros b I; apply Ot; intros ->; contradiction).
      split; [reflexivity|]; split; [replace (n + (1 + zlen l)) with (n + 1 + zlen l) by lia; exact C'|]; split; [exact Cc|].
      split; [|split].
      * rewrite Ci; split; intros H' b e' I D Ne.
        -- destruct I as [<-|I]; [rewrite E in D; injection D as <-; exact W | rewrite <- Ol by exact I; apply (H' b e' I D Ne)].
        -- rewrite Ol by exact I; apply (H' b e' (or_intror I) D Ne).
      * intros b; etransitivity; [|apply Mo]; destruct (Z.eq_dec b a) as [->|Nb]; [lia | rewrite Ot by exact Nb; lia].
      * intros O b e' [<-|I] D Ne; [specialize (Mo a); lia | rewrite <- Ol by exact I; apply (Up O b e' I D Ne)].
    + change (NOTOK =? NOTOK) with true; cbn iota; exists NOTOK, err1, st1; split; [reflexivity|].
      split; [apply (counts_more (n + 1)); [exact C1 | lia]|]; split; [auto|].
      split; [split; [discriminate|]; intros H'; destruct W; apply (H' a e (or_introl eq_refl) E); rewrite Es; discriminate|].
      split; [|discriminate]; intros b; destruct (Z.eq_dec b a) as [->|Nb]; [lia | rewrite Ot by exact Nb; lia].
Qed.

(** The ACLs of the entry itself let it be searched. *)
Definition base_lets (e : entry V) : Prop := forall ft s, In ft fts ->
  governs s (filter (applies (believed (Z.rem authtype 3) e binddn) selfdn SACL_BASEOBJECT ft) (e_sacl e)) -> searchable s ft.

Lemma believed_named t e : dn_ok (believed t e binddn).
Proof. unfold believed; destruct (e_authp e) as [p|]; [destruct (t >=? _)|]; [exact Bind | constructor | exact Bind]. Qed.

Lemma check_base_ok a e : dit a = Some e -> exists r, check_base_sacl binddn selfdn e fts authtype = Val r /\ (r = OK \/ r = NOTOK) /\ (r = OK <-> base_lets e).
Proof. intros E; apply check_base_types_ok; [apply believed_named | exact Known | apply (Sacls_ok a), E]. Qed.

Lemma check_ancestor_ok a e b be l fuel n st err : scope = SACL_SUBTREE -> is_manager binddn = false -> dit a = Some e -> dit b = Some be ->
  path (e_parent be) a l -> NoDup l -> (length l <= fuel)%nat -> counts_ok n st -> 0 <= n -> n + zlen l <= INT_MAX ->
  exists code err' st', check_ancestor_sacls fuel binddn selfdn a SRA_WHOLESUBTREE b fts st authtype err = Val (code, err', st') /\ counts_ok (n + zlen l) st' /\
    (code = OK \/ code = NOTOK) /\ (code = OK <-> base_lets e /\ room st l) /\ (forall c, count st c <= count st' c) /\
    (code = OK -> forall c ce, In c l -> dit c = Some ce -> e_sacl ce <> [] -> count st c + 1 <= count st' c).
Proof.
  intros Sc Nm E Eb P Nd F C N M; unfold check_ancestor_sacls; rewrite (manager_ok _ Bind), Nm; cbn [cbind FALSE Z.eqb negb].
  change (scope_at SRA_WHOLESUBTREE) with (Val SACL_SUBTREE); rewrite E, <- Sc; cbn [deref cbind].
  destruct (check_base_ok a e E) as (r & -> & [->| ->] & Ri); cbn [cbind].
  - change (OK =? NOTOK) with false; cbn iota; rewrite Sc; change (SACL_SUBTREE =? SACL_BASEOBJECT) with false; change (SACL_SUBTREE =? SACL_SINGLELEVEL) with false; cbn iota; rewrite <- Sc, Eb; cbn [deref cbind].
    destruct (check_up_ok _ _ _ P Nd fuel n st err F C N M) as (code & err' & st' & -> & C' & Cc & Ci & Mo & Up); exists code, err', st'.
    split; [reflexivity|]; split; [exact C'|]; split; [exact Cc|]; split; [rewrite Ci; split; [split; [apply Ri; reflexivity | assumption] | tauto]|]; split; assumption.
  - change (NOTOK =? NOTOK) with true; cbn iota; exists NOTOK, err, st; split; [reflexivity|]; pose proof (zlen_nonneg l).
    split; [apply (counts_more n); [exact C | lia]|]; split; [auto|]; split; [split; [discriminate | intros (B & _); apply Ri in B; discriminate]|]; split; [intros; lia | discriminate].
Qed.

(** What has been let through is within the limits of every ancestor. *)
Lemma counts_limit n st c ce ft s : counts_ok n st -> dit c = Some ce -> In (ft, Some s) (held ce) -> count st c <= Z.max 0 (sac_maxresults s) /\ (0 < count st c -> searchable s ft).
Proof.
  intros C E I; unfold count; destruct (rc_at (rcs st) _) as [rc|] eqn:R; [|lia].
  destruct (avl_find_entry _ _ c (proj1 (proj2 C))) as [(_ & B)|(Q & _)]; [|rewrite Q in R; discriminate].
  unfold base_of in B; rewrite R in B; destruct C as (_ & _ & _ & Rc); destruct (Rc _ _ R) as (e & E' & _ & Rg & W); rewrite B, E in E'; injection E' as <-.
  destruct (Z.eq_dec (rc_count rc) 0) as [->|Nz]; [lia|]; destruct (W ltac:(lia) ft s I) as (Se & Le); split; [lia | auto].
Qed.

(** The ACL in force for a type, over all that apply to it or to a type
    before it. *)
Lemma held_governs e p ft q s : fts = p ++ ft :: q -> governs s (applicable (believed authtype e binddn) (e_sacl e) (p ++ [ft])) -> In (ft, Some s) (held e).
Proof.
  intros Ef G; apply chosen_at; exists p, q; split; [exact Ef|]; pose proof (better_governs (applicable (believed authtype e binddn) (e_sacl e) (p ++ [ft]))) as B.
  destruct (fold_left better _ None) as [s'|]; [rewrite (governs_unique _ _ _ G B); reflexivity | rewrite B in G; destruct G as ([] & ? & ? & _); discriminate].
Qed.
End Counts.
