(* ===== verification/Substr.v ===== *)
(** * quipu: substrings of attribute values (aux_substr_search, attr_substr
    and prepare_string of ds_search.c; compat/chrcnv.c, compat/nochrcnv.c)

    A C string is the list of its octets before the terminator, a pointer
    into it an offset; the terminator may be read, and nothing after it. The
    tables are indexed with a [char], which is negative for octets from 128
    on where [char] is signed. *)

From S2P Require Import Prelude Conv Convert.
Open Scope Z_scope.
Open Scope c_scope.

Definition octets (a n : nat) : list Z := map Z.of_nat (seq a n).

(** One half of each table; both are their half twice. *)
Definition chrcnv_half : list Z := octets 0 97 ++ octets 65 26 ++ octets 123 5.
Definition nochrcnv_half : list Z := octets 0 62 ++ [63] ++ octets 63 63 ++ [127; 127].
Definition chrcnv : list Z := chrcnv_half ++ chrcnv_half.
Definition nochrcnv : list Z := nochrcnv_half ++ nochrcnv_half.

(** [s[i]] *)
Definition at_ (s : list Z) (i : Z) : cres Z :=
  if (0 <=? i) && (i <=? zlen s) then Val (nth (Z.to_nat i) s 0) else UB.

(** A blank or a hyphen. *)
Definition blank (c : Z) : bool := (c =? 32) || (c =? 45).
Fixpoint blanks (l : list Z) : Z := match l with c :: l' => if blank c then 1 + blanks l' else 0 | [] => 0 end.

Section Substrings.
Context `{Platform}.
Variable phoneflag : bool.
Variable chrmatch : list Z.

(** [chrmatch[c]] *)
Definition chr (c : Z) : cres Z := if ct_signed t_char && (c >=? 128) then UB else rd chrmatch c.

Fixpoint prepare_string (s : list Z) : cres (list Z) :=
  match s with
  | [] => Val []
  | c :: s' => x <- chr c;; l <- prepare_string s';; Val (x :: l)
  end.

(** The loops that pass blanks and hyphens of a telephone number. *)
Definition skip (s : list Z) (i : Z) : cres Z :=
  if negb phoneflag then Val i
  else if (0 <=? i) && (i <=? zlen s) then Val (i + blanks (zdrop i s)) else UB.

(** ** attr_substr *)

(** To the next place where the first character matches: whether there is
    one, [str1] and [str2]. *)
Fixpoint first_char (fuel : nat) (s t : list Z) (i j : Z) : cres (bool * Z * Z) :=
  match fuel with
  | O => UB
  | S fuel =>
      c <- at_ s i;;
      if c =? 0 then Val (false, i, j)
      else
        i <- skip s i;; j <- skip t j;;
        c <- at_ s i;; c <- chr c;; d <- at_ t j;;
        if c =? d then Val (true, i + 1, j + 1) else first_char fuel s t (i + 1) j
  end.

(** The loop over the rest of the string; a mismatch goes back. *)
Fixpoint match_rest (fuel : nat) (s t : list Z) (i j count : Z) : cres (option Z) :=
  match fuel with
  | O => UB
  | S fuel =>
      d <- at_ t j;;
      if d =? 0 then Val (Some i)
      else
        c <- at_ s i;;
        if c =? 0 then Val None
        else
          i <- skip s i;; j <- skip t j;;
          c <- at_ s i;; c <- chr c;; d <- at_ t j;;
          if c =? d then match_rest fuel s t (i + 1) (j + 1) (count + 1)
          else
            ' (_, i, j) <- first_char (S (S (length s))) s t (i + 1 - count) 0;;
            match_rest fuel s t i j 1
  end.

(** The offset behind the first match from [top] on. *)
Definition attr_substr (s : list Z) (top : Z) (t : list Z) : cres Z :=
  let n := S (S (length s)) in
  ' (found, i, j) <- first_char n s t top 0;;
  if negb found then Val (-1)
  else
    r <- match_rest (n * n) s t i j 1;;
    match r with
    | None => Val (-1)
    | Some i => match ptrdiff2int (i - top) with Some n => Val n | None => Val (-1) end
    end.

(** ** aux_substr_search *)

(** The initial part: a [do] loop. *)
Fixpoint initial_loop (fuel : nat) (s t : list Z) (i j : Z) : cres (option Z) :=
  match fuel with
  | O => UB
  | S fuel =>
      i <- skip s i;; j <- skip t j;;
      c <- at_ s i;; c <- chr c;; d <- at_ t j;;
      if negb (c =? d) then Val None
      else e <- at_ t (j + 1);; if e =? 0 then Val (Some (i + 1)) else initial_loop fuel s t (i + 1) (j + 1)
  end.

Fixpoint any_loop (s : list Z) (i : Z) (any : list (list Z)) : cres (option Z) :=
  match any with
  | [] => Val (Some i)
  | t :: rest => offset <- attr_substr s i t;; if offset =? -1 then Val None else any_loop s (i + offset) rest
  end.

(** Back from the end of the value by the length of the final part. *)
Fixpoint back_over (s t : list Z) (i : Z) : Z :=
  match t with
  | [] => i
  | d :: t' =>
      if phoneflag then
        if blank d then back_over s t' i
        else let i := i - 1 in back_over s t' (i - (if 0 <=? i then blanks (rev (ztake (i + 1) s)) else 0))
      else back_over s t' (i - 1)
  end.

Fixpoint final_loop (fuel : nat) (s t : list Z) (i j : Z) : cres Z :=
  match fuel with
  | O => UB
  | S fuel =>
      c <- at_ s i;;
      if c =? 0 then Val OK
      else
        i <- skip s i;; j <- skip t j;;
        c <- at_ s i;; c <- chr c;; d <- at_ t j;;
        if negb (c =? d) then Val NOTOK else final_loop fuel s t (i + 1) (j + 1)
  end.

(** The loop to the end of the value starts after [compstr] and reads the
    octet there. *)
Definition final_part (s : list Z) (i : Z) (t : list Z) : cres Z :=
  _ <- at_ s (i + 1);;
  let k := back_over s t (zlen s) in
  if k <? 0 then Val NOTOK else final_loop (S (S (length s))) s t k 0.

Definition aux_substr_search (initial : option (list Z)) (any : list (list Z)) (final : option (list Z)) (s : list Z) : cres Z :=
  i <- match initial with Some t => initial_loop (S (length t)) s t 0 0 | None => Val (Some 0) end;;
  match i with
  | None => Val NOTOK
  | Some i =>
      i <- any_loop s i any;;
      match i with
      | None => Val NOTOK
      | Some i => match final with Some t => final_part s i t | None => Val OK end
      end
  end.
End Substrings.

(** * Runs *)

Definition str_abc : list Z := [65; 98; 67].
Example substr_run : aux_substr_search (H := linux) false chrcnv (Some [65]) [[66; 67]] None str_abc = Val OK.
Proof. vm_compute; reflexivity. Qed.
Example substr_back : aux_substr_search (H := linux) false chrcnv None [[65; 65; 66]] (Some [66]) [97; 97; 97; 98; 98] = Val OK.
Proof. vm_compute; reflexivity. Qed.

(** The final part may overlap what the parts before it have matched. *)
Example final_overlaps : aux_substr_search (H := linux) false chrcnv (Some [65; 66]) [] (Some [66; 67]) [65; 66; 67] = Val OK.
Proof. vm_compute; reflexivity. Qed.
(** Where the parts before have matched all of the value, the octets after
    its terminator are read. *)
Example final_past_end : aux_substr_search (H := linux) false chrcnv (Some [65]) [] (Some [65]) [65] = UB.
Proof. vm_compute; reflexivity. Qed.
(** An empty initial part against the empty value. *)
Example initial_past_end : aux_substr_search (H := linux) false chrcnv (Some []) [] None [] = UB.
Proof. vm_compute; reflexivity. Qed.
(** The octets from 128 on are negative indices. *)
Example octet_negative : aux_substr_search (H := linux) false chrcnv None [[65]] None [200] = UB.
Proof. vm_compute; reflexivity. Qed.
(** nochrcnv maps '>' to '?', and '~' to DEL. *)
Example nochrcnv_gt : aux_substr_search (H := linux) false nochrcnv None [[62]] None [62] = Val NOTOK /\
  aux_substr_search (H := linux) false nochrcnv None [[63]] None [62] = Val OK.
Proof. vm_compute; split; reflexivity. Qed.
(** A telephone number that ends in a blank is read past its end. *)
Example phone_past_end : aux_substr_search (H := linux) true chrcnv None [[50]] None [49; 32] = UB.
Proof. vm_compute; reflexivity. Qed.
(** Going back by the characters compared, and not by the octets passed,
    loses a match: 112 in "11 12". *)
Example phone_missed : aux_substr_search (H := linux) true chrcnv None [[49; 49; 50]] None [49; 49; 32; 49; 50] = Val NOTOK.
Proof. vm_compute; reflexivity. Qed.

(** * What is matched *)

(** [t] is at offset [p] of [m]. *)
Definition occurs (t m : list Z) (p : Z) : Prop := exists a b, m = a ++ t ++ b /\ zlen a = p.

(** The parts can be placed one after the other between [i] and [e]. *)
Fixpoint placed (m : list Z) (parts : list (list Z)) (i e : Z) : Prop :=
  match parts with
  | [] => i <= e
  | t :: rest => exists p, i <= p /\ occurs t m p /\ placed m rest (p + zlen t) e
  end.

(** Where the parts after the initial one may begin. *)
Definition starts (initial : option (list Z)) (m : list Z) (i : Z) : Prop :=
  match initial with None => i = 0 | Some t => occurs t m 0 /\ i = zlen t end.

Section Matching.
Context `{Pf : Platform}.
Variables (chrmatch : list Z) (s : list Z).

(** What the value is compared as. *)
Definition folded : list Z := map (fun c => nth (Z.to_nat c) chrmatch 0) s.
Abbreviation M i := (nth (Z.to_nat i) folded 0).

Definition char_ok (c : Z) : Prop := chr chrmatch c = Val (nth (Z.to_nat c) chrmatch 0) /\ c <> 0.
Definition part_ok (t : list Z) : Prop := t <> [] /\ Forall (fun c => c <> 0) t.

Hypothesis Value : Forall char_ok s.
Hypothesis Fits : zlen s <= INT_MAX.
Abbreviation len := (zlen s).

Lemma zlen_folded : zlen folded = len.
Proof. unfold folded, zlen; rewrite length_map; reflexivity. Qed.

Lemma at_nth t i : 0 <= i <= zlen t -> at_ t i = Val (nth (Z.to_nat i) t 0).
Proof. intros R; unfold at_; destruct (Z.leb_spec 0 i), (Z.leb_spec i (zlen t)); try lia; reflexivity. Qed.

Lemma nth_in (t : list Z) i : 0 <= i < zlen t -> In (nth (Z.to_nat i) t 0) t.
Proof. intros R; apply nth_In; unfold zlen in R; lia. Qed.

Lemma nth_end (t : list Z) : nth (Z.to_nat (zlen t)) t 0 = 0.
Proof. unfold zlen; rewrite Nat2Z.id; apply nth_overflow; lia. Qed.

(** One character of the value, before and after the table. *)
Lemma value_at i : 0 <= i < len -> exists c, at_ s i = Val c /\ c <> 0 /\ chr chrmatch c = Val (M i).
Proof.
  intros R; rewrite at_nth by lia; eexists; split; [reflexivity|]; pose proof Value as F; rewrite Forall_forall in F.
  destruct (F _ (nth_in s i R)) as (C & N); split; [exact N|]; rewrite C; f_equal; unfold folded.
  set (f := fun c => nth (Z.to_nat c) chrmatch 0); rewrite (nth_indep (map f s) 0 (f 0)) by (rewrite length_map; unfold zlen in R; lia); rewrite (map_nth f s 0); reflexivity.
Qed.

Lemma part_at t i : Forall (fun c => c <> 0) t -> 0 <= i < zlen t -> at_ t i = Val (nth (Z.to_nat i) t 0) /\ nth (Z.to_nat i) t 0 <> 0.
Proof. intros F R; rewrite at_nth by lia; split; [reflexivity|]; rewrite Forall_forall in F; apply F, nth_in, R. Qed.

Lemma occurs_nth t p : occurs t folded p <-> 0 <= p /\ p + zlen t <= len /\ forall x, 0 <= x < zlen t -> M (p + x) = nth (Z.to_nat x) t 0.
Proof.
  rewrite <- zlen_folded; split.
  - intros (a & b & -> & <-); pose proof (zlen_nonneg a); pose proof (zlen_nonneg b); split; [lia|]; split; [rewrite !zlen_app; lia|]; intros x X.
    unfold zlen in *; rewrite app_nth2 by lia; rewrite app_nth1 by lia; f_equal; lia.
  - intros (P & L & E); exists (ztake p folded), (zdrop (p + zlen t) folded); pose proof (zlen_nonneg t); split; [|apply zlen_ztake; lia].
    rewrite <- (ztake_zdrop p folded) at 1; f_equal; rewrite <- (ztake_zdrop (zlen t) (zdrop p folded)) at 1; rewrite zdrop_zdrop, Z.add_comm by lia; f_equal.
    apply nth_ext with (d := 0) (d' := 0); [pose proof (zlen_ztake (zlen t) (zdrop p folded)) as Z; rewrite zlen_zdrop in Z by lia; unfold zlen in *; lia|].
    intros n N; assert (R : 0 <= Z.of_nat n < zlen t) by (rewrite length_firstn in N || idtac; pose proof (zlen_ztake (zlen t) (zdrop p folded)) as Z; rewrite zlen_zdrop in Z by lia; unfold zlen in *; lia).
    specialize (E (Z.of_nat n) R); rewrite Nat2Z.id in E; rewrite <- E; unfold ztake, zdrop; rewrite nth_firstn, nth_skipn.
    destruct (Nat.ltb_spec n (Z.to_nat (zlen t))); [f_equal; lia | lia].
Qed.

(** ** attr_substr *)

Lemma first_char_ok d t : d <> 0 -> forall fuel i, 0 <= i <= len -> (Z.to_nat (len - i) < fuel)%nat ->
  (exists k, i <= k < len /\ M k = d /\ (forall x, i <= x < k -> M x <> d) /\ first_char false chrmatch fuel s (d :: t) i 0 = Val (true, k + 1, 1)) \/
  ((forall x, i <= x < len -> M x <> d) /\ first_char false chrmatch fuel s (d :: t) i 0 = Val (false, len, 0)).
Proof.
  intros D; induction fuel as [|fuel IH]; intros i R F; [lia|]; cbn [first_char].
  destruct (Z.eq_dec i len) as [->|Ni]; [right; rewrite at_nth, nth_end by lia; cbn [cbind Z.eqb]; split; [intros; lia | reflexivity]|].
  destruct (value_at i ltac:(lia)) as (c & A & Nc & C); rewrite A; cbn [cbind]; rewrite (proj2 (Z.eqb_neq c 0) Nc); unfold skip; cbn [negb cbind]; rewrite A; cbn [cbind]; rewrite C; cbn [cbind].
  change (at_ (d :: t) 0) with (if 0 <=? zlen (d :: t) then Val d else UB); rewrite (proj2 (Z.leb_le 0 _)) by apply zlen_nonneg; cbn [cbind].
  destruct (Z.eqb_spec (M i) d) as [E|E]; [left; exists i; split; [lia|]; split; [exact E|]; split; [intros; lia | reflexivity]|].
  destruct (IH (i + 1) ltac:(lia) ltac:(lia)) as [(k & Rk & Ek & Le & ->)|(No & ->)]; [left; exists k | right].
  - split; [lia|]; split; [exact Ek|]; split; [|reflexivity]; intros x X; destruct (Z.eq_dec x i) as [->|]; [exact E | apply Le; lia].
  - split; [|reflexivity]; intros x X; destruct (Z.eq_dec x i) as [->|]; [exact E | apply No; lia].
Qed.

Lemma match_rest_ok d t lo : part_ok (d :: t) -> forall fuel i j, 1 <= j <= zlen (d :: t) -> lo <= i - j -> 0 <= i - j -> i <= len ->
  (forall x, 0 <= x < j -> M (i - j + x) = nth (Z.to_nat x) (d :: t) 0) -> (forall p, lo <= p < i - j -> ~ occurs (d :: t) folded p) ->
  (len - (i - j)) * (len + 1) + (len - i) + 2 <= Z.of_nat fuel ->
  (exists p, lo <= p /\ occurs (d :: t) folded p /\ (forall q, lo <= q < p -> ~ occurs (d :: t) folded q) /\ match_rest false chrmatch fuel s (d :: t) i j j = Val (Some (p + zlen (d :: t)))) \/
  ((forall q, lo <= q -> ~ occurs (d :: t) folded q) /\ match_rest false chrmatch fuel s (d :: t) i j j = Val None).
Proof.
  intros (_ & Nz) fuel; pose proof (Forall_inv Nz) as D; cbn beta in D; induction fuel as [|fuel IH]; intros i j J Lo St L Mt No Fu; [nia|]; cbn [match_rest].
  destruct (Z.eq_dec j (zlen (d :: t))) as [Ej|Nj].
  - assert (At : at_ (d :: t) j = Val 0) by (rewrite Ej, at_nth by lia; rewrite nth_end; reflexivity); rewrite At; cbn [cbind Z.eqb]; left; exists (i - j); split; [exact Lo|].
    split; [apply occurs_nth; split; [lia|]; split; [lia | rewrite <- Ej; exact Mt]|]; split; [exact No|]; do 3 f_equal; lia.
  - destruct (part_at _ j Nz ltac:(lia)) as (A & Ne); rewrite A; cbn [cbind]; rewrite (proj2 (Z.eqb_neq _ 0) Ne).
    destruct (Z.eq_dec i len) as [->|Ni].
    { rewrite at_nth, nth_end by lia; cbn [cbind Z.eqb]; right; split; [|reflexivity]; intros q Q O; apply (No q); [|exact O].
      apply occurs_nth in O as (_ & O & _); lia. }
    destruct (value_at i ltac:(lia)) as (c & B & Nc & C); rewrite B; cbn [cbind]; rewrite (proj2 (Z.eqb_neq c 0) Nc); unfold skip; cbn [negb cbind]; rewrite B; cbn [cbind]; rewrite C, A; cbn [cbind].
    destruct (Z.eqb_spec (M i) (nth (Z.to_nat j) (d :: t) 0)) as [E|E].
    + destruct (IH (i + 1) (j + 1)) as [(p & R1 & R2 & R3 & R4)|(R1 & R2)]; try lia; replace (i + 1 - (j + 1)) with (i - j) in * by lia; try assumption; try lia; [|left; exists p | right]; [|auto|auto].
      intros x X; destruct (Z.eq_dec x j) as [->|]; [replace (i - j + j) with i by lia; exact E | apply Mt; lia].
    + assert (Nst : ~ occurs (d :: t) folded (i - j)) by (intros O; apply occurs_nth in O as (_ & _ & O); specialize (O j ltac:(lia)); replace (i - j + j) with i in O by lia; contradiction).
      assert (Head : forall q, occurs (d :: t) folded q -> 0 <= q < len /\ M q = d).
      { intros q O; apply occurs_nth in O as (O1 & O2 & O3); rewrite zlen_cons in *; pose proof (zlen_nonneg t); split; [lia|]; specialize (O3 0 ltac:(lia)); rewrite Z.add_0_r in O3; exact O3. }
      destruct (first_char_ok d t D (S (S (length s))) (i + 1 - j) ltac:(lia)) as [(k & Rk & Ek & Le & ->)|(Nn & ->)]; [unfold zlen in *; lia | |]; cbn [cbind].
      * assert (No' : forall p, lo <= p < k + 1 - 1 -> ~ occurs (d :: t) folded p).
        { intros p P O; destruct (Z.lt_ge_cases p (i - j)) as [Lp|Lp]; [apply (No p); [lia | exact O]|]; destruct (Z.eq_dec p (i - j)) as [->|]; [contradiction|].
          destruct (Head p O) as (_ & Ep); apply (Le p); [lia | exact Ep]. }
        assert (0 <= zlen t) by apply zlen_nonneg; apply (IH (k + 1) 1); try (rewrite zlen_cons; lia); try lia; try exact No'; try nia.
        intros x X; replace x with 0 by lia; replace (k + 1 - 1 + 0) with k by lia; exact Ek.
      * right; split; [intros q Q O; destruct (Head q O) as (Rq & Eq); destruct (Z.lt_ge_cases q (i - j)) as [Lq|Lq]; [apply (No q); [lia | exact O]|];
          destruct (Z.eq_dec q (i - j)) as [->|]; [contradiction | apply (Nn q); [lia | exact Eq]]|].
        destruct fuel as [|fuel]; [nia|]; cbn [match_rest]; change (at_ (d :: t) 0) with (if 0 <=? zlen (d :: t) then Val d else UB); rewrite (proj2 (Z.leb_le 0 _)) by apply zlen_nonneg; cbn [cbind].
        rewrite (proj2 (Z.eqb_neq d 0) D), at_nth, nth_end by (pose proof (zlen_nonneg s); lia); reflexivity.
Qed.

(** The first match from [top] on. *)
Lemma attr_substr_ok t top : part_ok t -> 0 <= top <= len ->
  (exists p, top <= p /\ occurs t folded p /\ (forall q, top <= q < p -> ~ occurs t folded q) /\ attr_substr false chrmatch s top t = Val (p + zlen t - top)) \/
  ((forall q, top <= q -> ~ occurs t folded q) /\ attr_substr false chrmatch s top t = Val (-1)).
Proof.
  intros Pt R; destruct t as [|d t]; [destruct Pt; contradiction|]; unfold attr_substr; pose proof (Forall_inv (proj2 Pt)) as D; cbn beta in D.
  destruct (first_char_ok d t D (S (S (length s))) top R) as [(k & Rk & Ek & Le & ->)|(No & ->)]; [unfold zlen in *; lia | |]; cbn [cbind negb].
  - assert (No : forall p, top <= p < k + 1 - 1 -> ~ occurs (d :: t) folded p).
    { intros p P O; apply occurs_nth in O as (_ & _ & O); specialize (O 0); rewrite zlen_cons, Z.add_0_r in O; pose proof (zlen_nonneg t); apply (Le p); [lia | apply O; lia]. }
    assert (Big : (len - (k + 1 - 1)) * (len + 1) + (len - (k + 1)) + 2 <= Z.of_nat (S (S (length s)) * S (S (length s)))) by (unfold zlen in *; nia).
    destruct (match_rest_ok d t top Pt (S (S (length s)) * S (S (length s))) (k + 1) 1) as [(p & P1 & P2 & P3 & ->)|(P1 & ->)]; try lia; try assumption;
      [rewrite zlen_cons; pose proof (zlen_nonneg t); lia | intros x X; replace x with 0 by lia; replace (k + 1 - 1 + 0) with k by lia; exact Ek | |]; cbn [cbind].
    + left; exists p; split; [exact P1|]; split; [exact P2|]; split; [exact P3|]; apply occurs_nth in P2 as (P2 & P4 & _); rewrite ptrdiff2int_Some; [reflexivity|].
      unfold is_int, INT_MIN; pose proof (zlen_nonneg (d :: t)); unfold INT_MAX in *; lia.
    + right; split; [exact P1 | reflexivity].
  - right; split; [|reflexivity]; intros q Q O; apply occurs_nth in O as (O1 & O2 & O3); specialize (O3 0); rewrite zlen_cons, Z.add_0_r in *; pose proof (zlen_nonneg t); apply (No q); [lia | apply O3; lia].
Qed.

(** ** The parts of the filter *)

Lemma placed_mono parts : forall i i' e, placed folded parts i e -> i' <= i -> placed folded parts i' e.
Proof. destruct parts as [|t parts]; cbn [placed]; intros i i' e; [lia|]; intros (p & P & R) L; exists p; split; [lia | exact R]. Qed.

Lemma placed_more parts : forall i e e', placed folded parts i e -> e <= e' -> placed folded parts i e'.
Proof. induction parts as [|t parts IH]; cbn [placed]; intros i e e'; [lia|]; intros (p & P & O & R) L; exists p; split; [exact P|]; split; [exact O | eapply IH; eassumption]. Qed.

(** The first match of each part leaves most to the parts after it. *)
Lemma any_loop_ok any : Forall part_ok any -> forall i, 0 <= i <= len ->
  (exists e0, any_loop false chrmatch s i any = Val (Some e0) /\ i <= e0 <= len /\ forall e, placed folded any i e <-> e0 <= e) \/
  (any_loop false chrmatch s i any = Val None /\ forall e, ~ placed folded any i e).
Proof.
  induction 1 as [|t any Pt _ IH]; intros i R; cbn [any_loop placed]; [left; exists i; split; [reflexivity|]; split; [lia | reflexivity]|].
  destruct (attr_substr_ok t i Pt R) as [(p & P & O & Fst & ->)|(No & ->)]; cbn [cbind].
  - pose proof (proj1 (occurs_nth t p) O) as (P0 & P1 & _); pose proof (zlen_nonneg t) as Zt.
    destruct (Z.eqb_spec (p + zlen t - i) (-1)) as [Q|_]; [lia|]; replace (i + (p + zlen t - i)) with (p + zlen t) by lia.
    assert (Least : forall q, i <= q -> occurs t folded q -> p <= q) by (intros q Q Oq; destruct (Z.lt_ge_cases q p) as [L|L]; [destruct (Fst q (conj Q L) Oq) | exact L]).
    destruct (IH (p + zlen t)) as [(e0 & -> & Re & Pl)|(-> & Pl)]; [lia | left; exists e0 | right]; (split; [reflexivity|]).
    + split; [lia|]; intros e; rewrite <- Pl; split; [intros (q & Q & Oq & H) | intros H; exists p; auto].
      apply (placed_mono any (q + zlen t)); [exact H | specialize (Least q Q Oq); lia].
    + intros e (q & Q & Oq & H); apply (Pl e), (placed_mono any (q + zlen t)); [exact H | specialize (Least q Q Oq); lia].
  - right; split; [reflexivity|]; intros e (q & Q & Oq & _); destruct (No q Q Oq).
Qed.


Hypothesis Zero : chr chrmatch 0 = Val 0.

Lemma initial_loop_ok t : Forall (fun c => c <> 0) t -> forall fuel j, 0 <= j < zlen t -> j <= len -> (Z.to_nat (zlen t - j) < fuel)%nat ->
  (forall x, 0 <= x < j -> M x = nth (Z.to_nat x) t 0) ->
  (occurs t folded 0 /\ initial_loop false chrmatch fuel s t j j = Val (Some (zlen t))) \/ (~ occurs t folded 0 /\ initial_loop false chrmatch fuel s t j j = Val None).
Proof.
  intros Nz; induction fuel as [|fuel IH]; intros j J L F Mt; [lia|]; cbn [initial_loop]; unfold skip; cbn [negb cbind].
  destruct (part_at t j Nz J) as (A & Ne); destruct (Z.eq_dec j len) as [->|Nj].
  - rewrite (at_nth s), nth_end by lia; cbn [cbind]; rewrite Zero, A; cbn [cbind]; rewrite (proj2 (Z.eqb_neq 0 _)) by congruence.
    right; split; [|reflexivity]; intros O; apply occurs_nth in O; lia.
  - destruct (value_at j ltac:(lia)) as (c & -> & _ & C); cbn [cbind]; rewrite C, A; cbn [cbind].
    destruct (Z.eqb_spec (M j) (nth (Z.to_nat j) t 0)) as [E|E]; cbn [negb].
    2: { right; split; [|reflexivity]; intros O; apply occurs_nth in O as (_ & _ & O); specialize (O j J); rewrite Z.add_0_l in O; contradiction. }
    assert (Mt' : forall x, 0 <= x < j + 1 -> M x = nth (Z.to_nat x) t 0) by (intros x X; destruct (Z.eq_dec x j) as [->|]; [exact E | apply Mt; lia]).
    destruct (Z.eq_dec (j + 1) (zlen t)) as [Ej|Nl].
    + assert (At : at_ t (j + 1) = Val 0) by (rewrite Ej, at_nth by lia; rewrite nth_end; reflexivity); rewrite At; cbn [cbind Z.eqb]; left; rewrite <- Ej; split; [|reflexivity].
      apply occurs_nth; split; [lia|]; split; [lia|]; intros x X; rewrite Z.add_0_l; apply Mt'; lia.
    + destruct (part_at t (j + 1) Nz ltac:(lia)) as (-> & Ne'); cbn [cbind]; rewrite (proj2 (Z.eqb_neq _ 0) Ne').
      apply IH; try lia; exact Mt'.
Qed.

Lemma final_loop_ok t k : Forall (fun c => c <> 0) t -> 0 <= k -> k + zlen t = len -> forall fuel j, 0 <= j <= zlen t -> (Z.to_nat (zlen t - j) < fuel)%nat ->
  (forall x, 0 <= x < j -> M (k + x) = nth (Z.to_nat x) t 0) -> exists r, final_loop false chrmatch fuel s t (k + j) j = Val r /\
  (occurs t folded k /\ r = OK \/ ~ occurs t folded k /\ r = NOTOK).
Proof.
  intros Nz K Kl; induction fuel as [|fuel IH]; intros j J F Mt; [lia|]; cbn [final_loop]; unfold skip; cbn [negb].
  destruct (Z.eq_dec j (zlen t)) as [->|Nj].
  - rewrite Kl, at_nth, nth_end by lia; cbn [cbind Z.eqb]; exists OK; split; [reflexivity|]; left; split; [|reflexivity].
    apply occurs_nth; split; [lia|]; split; [lia | exact Mt].
  - destruct (value_at (k + j) ltac:(lia)) as (c & A & Nc & C); rewrite A; cbn [cbind]; rewrite (proj2 (Z.eqb_neq c 0) Nc); cbn [cbind]; rewrite A; cbn [cbind]; rewrite C.
    destruct (part_at t j Nz ltac:(lia)) as (-> & _); cbn [cbind].
    destruct (Z.eqb_spec (M (k + j)) (nth (Z.to_nat j) t 0)) as [E|E]; cbn [negb].
    + replace (k + j + 1) with (k + (j + 1)) by lia; apply IH; [lia | lia|]; intros x X; destruct (Z.eq_dec x j) as [->|]; [exact E | apply Mt; lia].
    + exists NOTOK; split; [reflexivity|]; right; split; [|reflexivity]; intros O; apply occurs_nth in O as (_ & _ & O); apply E, O; lia.
Qed.

Lemma back_over_ok t : forall i, back_over false s t i = i - zlen t.
Proof. induction t as [|d t IH]; intros i; cbn [back_over]; [change (zlen (@nil Z)) with 0; lia | rewrite IH, zlen_cons; lia]. Qed.

Lemma final_part_ok t i : Forall (fun c => c <> 0) t -> 0 <= i <= len ->
  (i = len /\ final_part false chrmatch s i t = UB) \/
  (i < len /\ exists r, final_part false chrmatch s i t = Val r /\ (occurs t folded (len - zlen t) /\ r = OK \/ ~ occurs t folded (len - zlen t) /\ r = NOTOK)).
Proof.
  intros Nz R; unfold final_part; destruct (Z.eq_dec i len) as [->|Ni].
  - left; split; [reflexivity|]; unfold at_; destruct (Z.leb_spec (len + 1) len); [lia|]; rewrite andb_false_r; reflexivity.
  - right; split; [lia|]; rewrite at_nth by lia; cbn [cbind]; rewrite back_over_ok; pose proof (zlen_nonneg t); destruct (Z.ltb_spec (len - zlen t) 0).
    + exists NOTOK; split; [reflexivity|]; right; split; [|reflexivity]; intros O; apply occurs_nth in O; lia.
    + destruct (final_loop_ok t (len - zlen t) Nz ltac:(lia) ltac:(lia) (S (S (length s))) 0) as (r & E & D); [lia | unfold zlen in *; lia | intros; lia|].
      rewrite Z.add_0_r in E; exists r; split; [exact E | exact D].
Qed.

Lemma initial_ok initial : match initial with Some t => part_ok t | None => True end -> exists i,
  match initial with Some t => initial_loop false chrmatch (S (length t)) s t 0 0 | None => Val (Some 0) end = Val i /\
  match i with Some k => starts initial folded k /\ 0 <= k <= len | None => forall k, ~ starts initial folded k end.
Proof.
  destruct initial as [t|]; cbn [starts]; [|intros _; exists (Some 0); split; [reflexivity|]; split; [reflexivity | pose proof (zlen_nonneg s); lia]].
  intros (Ne & Nz); assert (L : 0 < zlen t) by (destruct t; [contradiction | rewrite zlen_cons; pose proof (zlen_nonneg t); lia]).
  destruct (initial_loop_ok t Nz (S (length t)) 0) as [(O & ->)|(O & ->)]; [lia | apply zlen_nonneg | unfold zlen; lia | intros; lia | exists (Some (zlen t)) | exists None]; (split; [reflexivity|]).
  - split; [split; [exact O | reflexivity] | apply occurs_nth in O; lia].
  - intros k (O' & _); contradiction.
Qed.

Lemma starts_unique initial i j : starts initial folded i -> starts initial folded j -> i = j.
Proof. destruct initial; cbn [starts]; [intros (_ & ->) (_ & ->) | intros -> ->]; reflexivity. Qed.
End Matching.

(** * The property *)



(** Every value of octets below 128 can be folded by both tables. *)
Lemma chrcnv_ok c : 0 < c < 128 -> char_ok (Pf := linux) chrcnv c /\ char_ok (Pf := linux) nochrcnv c.
Proof.
  intros R; assert (B : forall k, (0 < k < 128)%nat -> char_ok (Pf := linux) chrcnv (Z.of_nat k) /\ char_ok (Pf := linux) nochrcnv (Z.of_nat k)).
  { assert (A : forallb (fun k => match chr (H := linux) chrcnv (Z.of_nat k), chr (H := linux) nochrcnv (Z.of_nat k) with
        Val x, Val y => (x =? nth k chrcnv 0) && (y =? nth k nochrcnv 0) && negb (Z.of_nat k =? 0) | _, _ => false end) (seq 1 127) = true) by (vm_compute; reflexivity).
    rewrite forallb_forall in A; intros k K; specialize (A k); rewrite in_seq in A; specialize (A ltac:(lia)); unfold char_ok; rewrite Nat2Z.id.
    destruct (chr chrcnv _), (chr nochrcnv _); try discriminate; bool_to_prop; subst; repeat split; assumption. }
  specialize (B (Z.to_nat c) ltac:(lia)); rewrite Z2Nat.id in B by lia; exact B.
Qed.
