(* ===== verification/Filter.v ===== *)
(** * quipu: search filters (ds_search.c; as_find.c, attribute.c, attrv.c and
    string.c of dsap/common; h/quipu/ds_search.h, attr.h)

    A value is a C string or what its syntax stores. [check_filter_presrch]
    prepares a filter once, before a search: it stores in each item the
    function that compares, folds the strings of the filter, and collects the
    types of the filter for the search ACLs; [check_filter] then tests an
    entry. A filter is a tree, and the operands of an operator a list. What
    the first function only writes to a log is left out. *)

From S2P Require Import Prelude Conv Oid Convert Avl Dn Acl Substr.
Open Scope Z_scope.
Open Scope c_scope.

Definition MAYBE : Z := 1.
Definition DS_ERROR_REMOTE : Z := -4.
Definition FILTER_ITEM : Z := 1.
Definition FILTER_AND : Z := 2.
Definition FILTER_OR : Z := 3.
Definition FILTER_NOT : Z := 4.
Definition FILTERITEM_EQUALITY : Z := 1.
Definition FILTERITEM_SUBSTRINGS : Z := 2.
Definition FILTERITEM_GREATEROREQUAL : Z := 3.
Definition FILTERITEM_LESSOREQUAL : Z := 4.
Definition FILTERITEM_PRESENT : Z := 5.
Definition FILTERITEM_APPROX : Z := 6.

Inductive value (X : Type) : Type :=
| Str (s : list Z)
| Opaque (x : X).
Arguments Str {X} s.
Arguments Opaque {X} x.

(** The union [fi_ifp]. *)
Inductive item_fn (X : Type) : Type :=
| NoFn
| CmpFn (f : value X -> value X -> Z)
| ApproxFn (g : value X -> list (attrVal (value X)) -> Z).
Arguments NoFn {X}.
Arguments CmpFn {X} f.
Arguments ApproxFn {X} g.

(** An assertion of the kinds equality, greater or equal, less or equal and
    approximate; substrings; presence; and any other kind. *)
Inductive filter_item (X : Type) : Type :=
| FI_ava (fi_type : Z) (ava_type : Z) (ava_value : value X) (fi_ifp : item_fn X)
| FI_sub (fi_sub_type : Z) (initial : option (value X)) (any : list (value X)) (final : option (value X)) (fi_sub_match : option (list Z))
| FI_present (fi_un_type : Z)
| FI_other (fi_type : Z).
Arguments FI_ava {X}. Arguments FI_sub {X}. Arguments FI_present {X}. Arguments FI_other {X}.

(** [s_filter]: an item, or an operator by its number and its operands. *)
Inductive Filter (X : Type) : Type :=
| FItem (fi : filter_item X)
| FOp (flt_type : Z) (fufilt : list (Filter X)).
Arguments FItem {X} fi.
Arguments FOp {X} flt_type fufilt.

(** The errors the functions report. *)
Inductive presrch_error : Type :=
| NoError
| UnwillingToPerform
| InappropriateMatching (at_ : Z).

(** What the table of syntaxes holds besides comparisons. *)
Class Syntaxes (X : Type) := {
  num_syntax : Z;
  s_approx : Z -> option (value X -> list (attrVal (value X)) -> Z);
  exct : Z;
  tel_sntx : Z;
  (** str2syntax of "acl", "schema" and "edbinfo" *)
  acl_sntx : Z; schema_sntx : Z; edbinfo_sntx : Z
}.

Section Filters.
Context `{Platform} `{Allocator} {X : Type} `{Directory (value X)} `{Syntaxes X}.
Implicit Types (fi : filter_item X) (f : Filter X) (v : value X) (e : entry (value X)).

(** ** string.c, attrv.c, as_find.c, attribute.c *)

Definition case_exact_match (sntx : Z) : bool := negb ((sntx <? exct) || (sntx >? exct + 3)).
Definition sub_string (sntx : Z) : bool := negb ((sntx <? exct) || (sntx >? exct + 8)).
Definition telephone_match (sntx : Z) : bool := sntx =? tel_sntx.

Definition approxfn (x : Z) : cres (option (value X -> list (attrVal (value X)) -> Z)) :=
  if x >=? num_syntax then Val None
  else if (0 <=? x) && (x <? MAX_AV_SYNTAX) then Val (s_approx x) else UB.

Fixpoint as_find_type (a : list (attrcomp (value X))) (b : Z) : option (attrcomp (value X)) :=
  match a with
  | [] => None
  | ptr :: rest => let i := AttrT_cmp (attr_type ptr) b in if i <=? 0 then if i =? 0 then Some ptr else None else as_find_type rest b
  end.

Definition entry_find_type e (b : Z) : option (attrcomp (value X)) :=
  match as_find_type (e_attributes e) b with
  | Some ptr => Some ptr
  | None =>
      match e_iattr e with
      | None => None
      | Some ia => match as_find_type (i_default ia) b with Some ptr => Some ptr | None => as_find_type (i_always ia) b end
      end
  end.

(** A value used as a [char *]. *)
Definition as_str v : cres (list Z) := match v with Str s => Val s | Opaque _ => UB end.

(** ** Before the search *)

Definition invalid_matching (at_ : Z) : Z * presrch_error := (DS_ERROR_REMOTE, InappropriateMatching at_).

Definition prepare v : cres (value X) := s <- as_str v;; s <- prepare_string chrcnv s;; Val (Str s).
Fixpoint prepare_all (l : list (value X)) : cres (list (value X)) :=
  match l with [] => Val [] | v :: l' => v <- prepare v;; l' <- prepare_all l';; Val (v :: l') end.
Definition prepare_opt (v : option (value X)) : cres (option (value X)) :=
  match v with Some v => v <- prepare v;; Val (Some v) | None => Val None end.

(** The longest of the parts; [None] where a length does not fit. *)
Fixpoint longest (l : list (value X)) (maxlen : Z) : cres (option Z) :=
  match l with
  | [] => Val (Some maxlen)
  | v :: l' => s <- as_str v;; match sizet2int (zlen s) with None => Val None | Some n => longest l' (if n >? maxlen then n else maxlen) end
  end.

(** The cases from [FILTERITEM_GREATEROREQUAL] on. *)
Definition presrch_compare (fi_type ava_type : Z) v (ifp : item_fn X) (maxlen : Z) (ftlist : list Ftype) : cres (Z * presrch_error * filter_item X * list Ftype) :=
  if ava_type =? 0 then Val (invalid_matching ava_type, FI_ava fi_type ava_type v ifp, ftlist)
  else
    a <- deref (attr_table ava_type);;
    let syntax := oa_syntax a in
    ifp <- (if fi_type =? FILTERITEM_APPROX then Val (Some ifp)
      else fn <- av_cmp_fn s_compare file_cmp syntax;; Val (match fn with Some fn => Some (CmpFn fn) | None => None end));;
    match ifp with
    | None => Val (invalid_matching ava_type, FI_ava fi_type ava_type v NoFn, ftlist)
    | Some ifp =>
        let fi := FI_ava fi_type ava_type v ifp in
        if (syntax =? acl_sntx) || (syntax =? schema_sntx) || (syntax =? edbinfo_sntx) then Val (invalid_matching ava_type, fi, ftlist)
        else if ((fi_type =? FILTERITEM_GREATEROREQUAL) || (fi_type =? FILTERITEM_LESSOREQUAL)) && sub_string syntax then
          s <- as_str v;; ftlist <- ftype_add ftlist ava_type maxlen (Some s);; Val (OK, NoError, fi, ftlist)
        else ftlist <- ftype_add ftlist ava_type maxlen None;; Val (OK, NoError, fi, ftlist)
    end.

(** The case [FILTERITEM_APPROX], which goes on with the cases above. *)
Definition presrch_approx (ava_type : Z) v (ifp : item_fn X) (ftlist : list Ftype) : cres (Z * presrch_error * filter_item X * list Ftype) :=
  if ava_type =? 0 then Val (invalid_matching ava_type, FI_ava FILTERITEM_APPROX ava_type v ifp, ftlist)
  else
    a <- deref (attr_table ava_type);;
    fn <- approxfn (oa_syntax a);;
    ' (fi_type, v, ifp) <- match fn with
      | None => Val (FILTERITEM_EQUALITY, v, NoFn)
      | Some g => v <- prepare v;; Val (FILTERITEM_APPROX, v, ApproxFn g)
      end;;
    if sub_string (oa_syntax a) then
      s <- as_str v;;
      match sizet2int (zlen s) with
      | None => Val (NOTOK, NoError, FI_ava fi_type ava_type v ifp, ftlist)
      | Some maxlen => presrch_compare fi_type ava_type v ifp maxlen ftlist
      end
    else presrch_compare fi_type ava_type v ifp (-1) ftlist.

(** The case [FILTERITEM_SUBSTRINGS]. *)
Definition presrch_substrings (type : Z) (initial : option (value X)) (any : list (value X)) (final : option (value X)) (ftlist : list Ftype) : cres (Z * presrch_error * filter_item X * list Ftype) :=
  if type =? 0 then Val (invalid_matching type, FI_sub type initial any final None, ftlist)
  else
    a <- deref (attr_table type);;
    if negb (sub_string (oa_syntax a)) then Val (invalid_matching type, FI_sub type initial any final None, ftlist)
    else
      ' (initial, any, final, tbl) <- (if case_exact_match (oa_syntax a) then Val (initial, any, final, nochrcnv)
        else initial <- prepare_opt initial;; any <- prepare_all any;; final <- prepare_opt final;; Val (initial, any, final, chrcnv));;
      let fi := FI_sub type initial any final (Some tbl) in
      maxlen <- longest (match initial with Some v => [v] | None => [] end ++ any ++ match final with Some v => [v] | None => [] end) (-1);;
      match maxlen with
      | None => Val (NOTOK, NoError, fi, ftlist)
      | Some maxlen => ftlist <- ftype_add ftlist type maxlen None;; Val (OK, NoError, fi, ftlist)
      end.

Definition check_filteritem_presrch fi (ftlist : list Ftype) : cres (Z * presrch_error * filter_item X * list Ftype) :=
  match fi with
  | FI_ava fi_type ava_type v ifp =>
      if fi_type =? FILTERITEM_APPROX then presrch_approx ava_type v ifp ftlist
      else if (fi_type =? FILTERITEM_GREATEROREQUAL) || (fi_type =? FILTERITEM_LESSOREQUAL) || (fi_type =? FILTERITEM_EQUALITY)
      then presrch_compare fi_type ava_type v ifp (-1) ftlist
      else Val (NOTOK, UnwillingToPerform, fi, ftlist)
  | FI_sub type initial any final _ => presrch_substrings type initial any final ftlist
  | FI_present type => ftlist <- ftype_add ftlist type (-1) None;; Val (OK, NoError, fi, ftlist)
  | FI_other _ => Val (NOTOK, UnwillingToPerform, fi, ftlist)
  end.

(** The loop over the operands, given what is done with each. *)
Definition check_filterop_presrch (presrch : Filter X -> list Ftype -> cres (Z * presrch_error * Filter X * list Ftype)) :=
  fix loop (l : list (Filter X)) (ftlist : list Ftype) {struct l} : cres (Z * presrch_error * list (Filter X) * list Ftype) :=
    match l with
    | [] => Val (OK, NoError, [], ftlist)
    | ptr :: rest =>
        ' (i, err, ptr, ftlist) <- presrch ptr ftlist;;
        if negb (i =? OK) then Val (NOTOK, err, ptr :: rest, ftlist)
        else ' (i, err, rest, ftlist) <- loop rest ftlist;; Val (i, err, ptr :: rest, ftlist)
    end.

Fixpoint check_filter_presrch f (ftlist : list Ftype) : cres (Z * presrch_error * Filter X * list Ftype) :=
  match f with
  | FItem fi => ' (i, err, fi, ftlist) <- check_filteritem_presrch fi ftlist;; Val (i, err, FItem fi, ftlist)
  | FOp op l =>
      if (op =? FILTER_AND) || (op =? FILTER_OR) then
        ' (i, err, l, ftlist) <- check_filterop_presrch check_filter_presrch l ftlist;; Val (i, err, FOp op l, ftlist)
      else if op =? FILTER_NOT then
        match l with
        | f :: rest => ' (i, err, f, ftlist) <- check_filter_presrch f ftlist;; Val (i, err, FOp op (f :: rest), ftlist)
        | [] => UB
        end
      else Val (NOTOK, UnwillingToPerform, f, ftlist)
  end.

(** ** An entry *)

Fixpoint test_avs (cmp : value X -> value X -> Z) v (avs : list (attrVal (value X))) (mode : Z) : Z :=
  match avs with
  | [] => NOTOK
  | av :: rest =>
      let c := cmp (av_struct av) v in
      if c =? 0 then OK
      else if c =? 1 then if mode =? FILTERITEM_GREATEROREQUAL then OK else test_avs cmp v rest mode
      else if c =? -1 then if mode =? FILTERITEM_LESSOREQUAL then OK else test_avs cmp v rest mode
      else if c =? 2 then NOTOK
      else MAYBE
  end.

Fixpoint strings (l : list (value X)) : cres (list (list Z)) :=
  match l with [] => Val [] | v :: l' => s <- as_str v;; r <- strings l';; Val (s :: r) end.
Definition string_opt (v : option (value X)) : cres (option (list Z)) := match v with Some v => s <- as_str v;; Val (Some s) | None => Val None end.

Fixpoint substr_loop (phoneflag : bool) (tbl : list Z) (initial : option (list Z)) (any : list (list Z)) (final : option (list Z)) (avs : list (attrVal (value X))) : cres Z :=
  match avs with
  | [] => Val NOTOK
  | av :: rest =>
      s <- as_str (av_struct av);;
      r <- aux_substr_search phoneflag tbl initial any final s;;
      if r =? OK then Val OK else substr_loop phoneflag tbl initial any final rest
  end.

(** The switch on the kind of the item, over the values of an attribute. *)
Definition match_item fi (avs : list (attrVal (value X))) : cres Z :=
  match fi with
  | FI_sub type initial any final tbl =>
      a <- deref (attr_table type);;
      initial <- string_opt initial;; any <- strings any;; final <- string_opt final;; tbl <- deref tbl;;
      substr_loop (telephone_match (oa_syntax a)) tbl initial any final avs
  | FI_ava fi_type _ v ifp =>
      if fi_type =? FILTERITEM_APPROX then match ifp with ApproxFn g => Val (g v avs) | _ => UB end
      else match ifp with CmpFn cmp => Val (test_avs cmp v avs fi_type) | _ => UB end
  | _ => UB
  end.

(** The type of the item. *)
Definition item_type fi : Z :=
  match fi with FI_ava _ t _ _ => t | FI_sub t _ _ _ _ => t | FI_present t => t | FI_other _ => 0 end.

Definition ava_kind (fi_type : Z) : bool :=
  (fi_type =? FILTERITEM_APPROX) || (fi_type =? FILTERITEM_EQUALITY) || (fi_type =? FILTERITEM_GREATEROREQUAL) || (fi_type =? FILTERITEM_LESSOREQUAL).

(** The attribute of the entry, or the one it inherits; and the one it has
    always beside its own. *)
Definition item_attrs e (at_ : Z) : option (attrcomp (value X)) * option (attrcomp (value X)) :=
  match as_find_type (e_attributes e) at_, e_iattr e with
  | None, Some ia => (match as_find_type (i_default ia) at_ with Some ptr => Some ptr | None => as_find_type (i_always ia) at_ end, None)
  | None, None => (None, None)
  | Some as_, Some ia => (Some as_, as_find_type (i_always ia) at_)
  | Some as_, None => (Some as_, None)
  end.

(** From the test of the ACL on. *)
Definition check_attrs fi (as_ ias : option (attrcomp (value X))) (binddn : DN (value X)) : cres Z :=
  match as_ with
  | None => Val MAYBE
  | Some as_ =>
      acl <- check_acl binddn ACL_COMPARE (attr_acl as_) [];;
      if negb (acl =? OK) then Val MAYBE
      else
        res <- match_item fi (attr_value as_);;
        match ias with
        | None => Val res
        | Some ias =>
            if res =? OK then Val res
            else
              acl <- check_acl binddn ACL_COMPARE (attr_acl ias) [];;
              if negb (acl =? OK) then Val MAYBE else match_item fi (attr_value ias)
        end
  end.

Definition check_filteritem fi e (binddn : DN (value X)) : cres Z :=
  let test := check_attrs fi (fst (item_attrs e (item_type fi))) (snd (item_attrs e (item_type fi))) binddn in
  match fi with
  | FI_present type => Val (match entry_find_type e type with None => NOTOK | Some _ => OK end)
  | FI_ava fi_type _ _ _ => if ava_kind fi_type then test else UB
  | FI_sub _ _ _ _ _ => test
  | FI_other _ => UB
  end.

(** The loop over the operands, given the test of each. *)
Definition check_filterop (check : Filter X -> cres Z) (op : Z) :=
  fix loop (l : list (Filter X)) (result : Z) {struct l} : cres Z :=
    match l with
    | [] => Val result
    | ptr :: rest =>
        r <- check ptr;;
        if r =? MAYBE then loop rest MAYBE
        else if r =? OK then if op =? FILTER_OR then Val OK else loop rest result
        else if r =? NOTOK then if op =? FILTER_AND then Val NOTOK else loop rest result
        else Val (-2)
    end.

Fixpoint check_filter f e (binddn : DN (value X)) {struct f} : cres Z :=
  match f with
  | FItem fi => check_filteritem fi e binddn
  | FOp op l =>
      if (op =? FILTER_AND) || (op =? FILTER_OR) then
        check_filterop (fun f => check_filter f e binddn) op l (if op =? FILTER_OR then NOTOK else OK)
      else if op =? FILTER_NOT then
        match l with
        | f :: _ => i <- check_filter f e binddn;; Val (if i =? OK then NOTOK else if i =? NOTOK then OK else i)
        | [] => UB
        end
      else UB
  end.
End Filters.

(** * What a filter decides *)

(** Three-valued logic. *)
Inductive truth : Type := Holds | Undefined | Fails.
Definition tv_code (t : truth) : Z := match t with Holds => OK | Undefined => MAYBE | Fails => NOTOK end.
Definition tv_and (a b : truth) : truth := match a, b with Fails, _ | _, Fails => Fails | Holds, Holds => Holds | _, _ => Undefined end.
Definition tv_or (a b : truth) : truth := match a, b with Holds, _ | _, Holds => Holds | Fails, Fails => Fails | _, _ => Undefined end.
Definition tv_not (a : truth) : truth := match a with Holds => Fails | Undefined => Undefined | Fails => Holds end.

Section Kleene.
Context `{Pf : Platform} `{Al : Allocator} {X : Type} `{Dir : Directory (value X)} `{Sx : Syntaxes X}.

(** Induction over a filter and its operands. *)
Lemma filter_ind (P : Filter X -> Prop) : (forall fi, P (FItem fi)) -> (forall op l, Forall P l -> P (FOp op l)) -> forall f, P f.
Proof.
  intros Hi Ho; fix IH 1; intros [fi|op l]; [apply Hi|]; apply Ho; induction l as [|f l IHl]; [constructor | constructor; [apply IH | exact IHl]].
Qed.

(** Every item satisfies [P], and every operator is one of the three, a
    negation with an operand. *)
Fixpoint filter_all (P : filter_item X -> Prop) (f : Filter X) : Prop :=
  match f with
  | FItem fi => P fi
  | FOp op l => (op = FILTER_AND \/ op = FILTER_OR \/ op = FILTER_NOT /\ l <> []) /\
      (fix all l := match l with [] => True | f :: l => filter_all P f /\ all l end) l
  end.

Lemma filter_all_op P op l : filter_all P (FOp op l) <-> (op = FILTER_AND \/ op = FILTER_OR \/ op = FILTER_NOT /\ l <> []) /\ Forall (filter_all P) l.
Proof.
  cbn [filter_all]; split; intros (O & A); (split; [exact O|]); clear O; (induction l as [|f l IH]; [constructor|]).
  - destruct A as (A1 & A2); constructor; [exact A1 | apply IH, A2].
  - inversion_clear A; split; [assumption | apply IH; assumption].
Qed.

(** The value of a filter where [v] is the value of each item. *)
Fixpoint filter_value (v : filter_item X -> truth) (f : Filter X) : truth :=
  match f with
  | FItem fi => v fi
  | FOp op l =>
      if op =? FILTER_AND then fold_right tv_and Holds (map (filter_value v) l)
      else if op =? FILTER_OR then fold_right tv_or Fails (map (filter_value v) l)
      else match l with f :: _ => tv_not (filter_value v f) | [] => Undefined end
  end.

Lemma tv_code_cases {A} (t : truth) (a b c : A) :
  (if tv_code t =? MAYBE then a else if tv_code t =? OK then b else if tv_code t =? NOTOK then c else c) = match t with Undefined => a | Holds => b | Fails => c end.
Proof. destruct t; reflexivity. Qed.

Lemma check_and (check : Filter X -> cres Z) v l : Forall (fun f => check f = Val (tv_code (filter_value v f))) l -> forall r, r <> Fails ->
  check_filterop check FILTER_AND l (tv_code r) = Val (tv_code (tv_and r (fold_right tv_and Holds (map (filter_value v) l)))).
Proof.
  induction 1 as [|f l E _ IH]; intros r R; cbn [check_filterop map fold_right]; [destruct r; reflexivity|].
  change (check_filterop check FILTER_AND (f :: l) (tv_code r)) with (x <- check f;; if x =? MAYBE then check_filterop check FILTER_AND l MAYBE else if x =? OK then check_filterop check FILTER_AND l (tv_code r) else if x =? NOTOK then Val NOTOK else Val (-2)).
  rewrite E; cbn [cbind]; destruct (filter_value v f); cbn [tv_code].
  - change (OK =? MAYBE) with false; change (OK =? OK) with true; cbn iota; rewrite IH by exact R; destruct r, (fold_right tv_and Holds _); reflexivity.
  - change (MAYBE =? MAYBE) with true; cbn iota; change MAYBE with (tv_code Undefined); rewrite IH by discriminate; destruct r, (fold_right tv_and Holds _); try reflexivity; contradiction.
  - destruct r, (fold_right tv_and Holds _); reflexivity.
Qed.

Lemma check_or (check : Filter X -> cres Z) v l : Forall (fun f => check f = Val (tv_code (filter_value v f))) l -> forall r, r <> Holds ->
  check_filterop check FILTER_OR l (tv_code r) = Val (tv_code (tv_or r (fold_right tv_or Fails (map (filter_value v) l)))).
Proof.
  induction 1 as [|f l E _ IH]; intros r R; cbn [check_filterop map fold_right]; [destruct r; reflexivity|].
  change (check_filterop check FILTER_OR (f :: l) (tv_code r)) with (x <- check f;; if x =? MAYBE then check_filterop check FILTER_OR l MAYBE else if x =? OK then Val OK else if x =? NOTOK then check_filterop check FILTER_OR l (tv_code r) else Val (-2)).
  rewrite E; cbn [cbind]; destruct (filter_value v f); cbn [tv_code].
  - destruct r, (fold_right tv_or Fails _); reflexivity.
  - change (MAYBE =? MAYBE) with true; cbn iota; change MAYBE with (tv_code Undefined); rewrite IH by discriminate; destruct r, (fold_right tv_or Fails _); try reflexivity; contradiction.
  - change (NOTOK =? MAYBE) with false; change (NOTOK =? OK) with false; change (NOTOK =? NOTOK) with true; cbn iota; rewrite IH by exact R; destruct r, (fold_right tv_or Fails _); reflexivity.
Qed.

(** Two entries of which a user may not compare what differs: their
    attributes have the same types and ACLs, and the same values where the
    ACL lets the user compare. *)
Definition attr_alike (who : DN (value X)) (a b : attrcomp (value X)) : Prop :=
  attr_type a = attr_type b /\ attr_acl a = attr_acl b /\ (check_acl who ACL_COMPARE (attr_acl a) [] = Val OK -> attr_value a = attr_value b).
Definition attrs_alike who (l m : list (attrcomp (value X))) : Prop := Forall2 (attr_alike who) l m.
Definition entry_alike who (e e' : entry (value X)) : Prop :=
  attrs_alike who (e_attributes e) (e_attributes e') /\
  match e_iattr e, e_iattr e' with
  | Some i, Some i' => attrs_alike who (i_default i) (i_default i') /\ attrs_alike who (i_always i) (i_always i')
  | None, None => True
  | _, _ => False
  end.

Definition opt_alike who (a b : option (attrcomp (value X))) : Prop :=
  match a, b with Some a, Some b => attr_alike who a b | None, None => True | _, _ => False end.

Lemma as_find_alike who l m t : attrs_alike who l m -> opt_alike who (as_find_type l t) (as_find_type m t).
Proof.
  induction 1 as [|a b l m (T & A & V) _ IH]; cbn [as_find_type]; [exact I|]; rewrite <- T.
  destruct (AttrT_cmp (attr_type a) t <=? 0); [destruct (AttrT_cmp (attr_type a) t =? 0); [split; [|split]; assumption | exact I] | exact IH].
Qed.

Lemma item_attrs_alike who e e' t : entry_alike who e e' -> opt_alike who (fst (item_attrs e t)) (fst (item_attrs e' t)) /\ opt_alike who (snd (item_attrs e t)) (snd (item_attrs e' t)).
Proof.
  intros (A & I); unfold item_attrs; pose proof (as_find_alike who _ _ t A) as F.
  destruct (as_find_type (e_attributes e) t), (as_find_type (e_attributes e') t), (e_iattr e) as [i|], (e_iattr e') as [i'|]; try contradiction; cbn [fst snd]; try (split; exact F || exact Logic.I).
  - split; [exact F | apply as_find_alike, I].
  - split; [|exact Logic.I]; pose proof (as_find_alike who _ _ t (proj1 I)) as D; destruct (as_find_type (i_default i) t), (as_find_type (i_default i') t); try contradiction; [exact D | apply as_find_alike, I].
Qed.

Lemma entry_find_alike who e e' t : entry_alike who e e' -> opt_alike who (entry_find_type e t) (entry_find_type e' t).
Proof.
  intros (A & I); unfold entry_find_type; pose proof (as_find_alike who _ _ t A) as F.
  destruct (as_find_type (e_attributes e) t), (as_find_type (e_attributes e') t), (e_iattr e) as [i|], (e_iattr e') as [i'|]; try contradiction; cbn [fst snd]; try exact F.
  pose proof (as_find_alike who _ _ t (proj1 I)) as D; destruct (as_find_type (i_default i) t), (as_find_type (i_default i') t); try contradiction; [exact D | apply as_find_alike, I].
Qed.

Lemma check_attrs_alike who fi a b i j : opt_alike who a b -> opt_alike who i j -> check_attrs fi a i who = check_attrs fi b j who.
Proof.
  unfold check_attrs; destruct a as [a|], b as [b|]; try contradiction; [|reflexivity]; intros (_ & Ea & Va) S.
  rewrite <- Ea; destruct (check_acl who ACL_COMPARE (attr_acl a) []) as [r|]; cbn [cbind]; [|reflexivity].
  destruct (Z.eqb_spec r OK) as [->|]; cbn [negb]; [|reflexivity]; rewrite Va by reflexivity; destruct (match_item fi (attr_value b)) as [res|]; cbn [cbind]; [|reflexivity].
  destruct i as [i|], j as [j|]; try contradiction; [|reflexivity]; destruct (res =? OK); [reflexivity|]; destruct S as (_ & Ei & Vi).
  rewrite <- Ei; destruct (check_acl who ACL_COMPARE (attr_acl i) []) as [r'|]; cbn [cbind]; [|reflexivity].
  destruct (Z.eqb_spec r' OK) as [->|]; cbn [negb]; [rewrite Vi by reflexivity|]; reflexivity.
Qed.

Lemma check_filteritem_alike who e e' fi : entry_alike who e e' -> check_filteritem fi e who = check_filteritem fi e' who.
Proof.
  intros A; destruct (item_attrs_alike who e e' (item_type fi) A) as (F & S); pose proof (entry_find_alike who e e' (item_type fi) A) as P.
  unfold check_filteritem; rewrite (check_attrs_alike who fi _ _ _ _ F S); destruct fi as [t ty v ifp|ty i a f tbl|ty|t]; try reflexivity.
  cbn [item_type] in P; unfold opt_alike in P; destruct (entry_find_type e ty), (entry_find_type e' ty); try contradiction; reflexivity.
Qed.
End Kleene.

(** ** The types that are kept *)

Section Types.
Context `{Pf : Platform} `{Al : Allocator} {X : Type} `{Dir : Directory (value X)} `{Sx : Syntaxes X}.

(** A second type takes the place of the first: the list never has more than
    one. *)
Lemma ftype_add_one l type len s l' : (length l <= 1)%nat -> ftype_add l type len s = Val l' -> length l' = 1%nat.
Proof.
  destruct l as [|f [|g l]]; cbn [length]; intros L; try lia; unfold ftype_add.
  - destruct (ftype_new type len s); cbn [cbind]; [intros [= <-]; reflexivity | discriminate].
  - cbn [ftype_find]; destruct (AttrT_cmp (ft_type f) type =? 0); cbn [cbind]; [destruct (ftype_update f len s) | destruct (ftype_new type len s)]; cbn [cbind];
      try discriminate; intros [= <-]; reflexivity.
Qed.

Ltac one_type := repeat match goal with
  | H : cbind ?m _ = Val _ |- _ => let E := fresh "E" in destruct m eqn:E; cbn [cbind] in H; [|discriminate]
  | H : (let (_, _) := ?p in _) = Val _ |- _ => destruct p
  | H : match ?x with _ => _ end = Val _ |- _ => destruct x eqn:?; try discriminate
  | H : Val _ = Val _ |- _ => injection H; clear H; intros; subst
  | H : ftype_add _ _ _ _ = Val _ |- _ => apply ftype_add_one in H; [|assumption]
  end; try lia; try assumption.

Lemma presrch_compare_one t ty (v : value X) ifp n l i err fi l' : (length l <= 1)%nat -> presrch_compare t ty v ifp n l = Val (i, err, fi, l') -> (length l' <= 1)%nat.
Proof. intros L E; unfold presrch_compare, invalid_matching in E; one_type. Qed.

Lemma presrch_item_one (fi : filter_item X) l i err fi' l' : (length l <= 1)%nat -> check_filteritem_presrch fi l = Val (i, err, fi', l') -> (length l' <= 1)%nat.
Proof.
  intros L E; destruct fi as [t ty v ifp|ty a b c tbl|ty|t]; cbn [check_filteritem_presrch] in E; [| |one_type|one_type].
  - unfold presrch_approx, invalid_matching in E; one_type; eapply presrch_compare_one; eassumption.
  - unfold presrch_substrings, invalid_matching in E; one_type.
Qed.

Lemma presrch_one (f : Filter X) : forall l i err f' l', (length l <= 1)%nat -> check_filter_presrch f l = Val (i, err, f', l') -> (length l' <= 1)%nat.
Proof.
  induction f as [fi|op fs IH] using filter_ind; intros l i err f' l' L E; cbn [check_filter_presrch] in E.
  - one_type; eapply presrch_item_one; eassumption.
  - assert (Lp : forall l i err g l', (length l <= 1)%nat -> check_filterop_presrch check_filter_presrch fs l = Val (i, err, g, l') -> (length l' <= 1)%nat).
    { clear E; induction IH as [|f fs If _ IHl]; intros m j er g m' L' E; cbn [check_filterop_presrch] in E; [one_type|].
      one_type; [eapply If; eassumption|]; eapply (IHl _ _ _ _ _ (If _ _ _ _ _ L' E0)); eassumption. }
    destruct ((op =? FILTER_AND) || (op =? FILTER_OR)); [one_type; eapply Lp; eassumption|].
    destruct (op =? FILTER_NOT); [|one_type]; destruct fs as [|f fs]; [discriminate|]; inversion_clear IH as [|? ? If _]; one_type; eapply If; eassumption.
Qed.
End Types.
