(* ===== verification/Search.v ===== *)
(** * quipu: searching entries (filterentry of ds_search.c)

    An entry that a search comes to is tested with the filter, the entry ACL
    and the search ACLs. What is then copied of it is not modelled: the entry
    is returned by its address. The properties of the access control and of
    the filters of the directory are stated here. *)

From S2P Require Import Prelude Conv Oid Convert Avl Dn Acl Sacl Substr Filter.
Open Scope Z_scope.
Open Scope c_scope.

Section Entries.
Context `{Platform} `{Allocator} {X : Type} `{Directory (value X)} `{Syntaxes X}.

(** The entry, [saclerror], the counts and [size]. *)
Definition filterentry (fuel : nat) (sra_filter : Filter X) (sra_subset ea : Z) (binddn : DN (value X)) (authtype saclerror baseptr : Z) (fts : list Ftype) (dosacl : bool) (st : sacls) (size : Z) :
    cres (option Z * Z * sacls * Z) :=
  entryptr <- deref (dit ea);;
  r <- check_filter sra_filter entryptr binddn;;
  if negb (r =? OK) then Val (None, saclerror, st, size)
  else
    acl <- check_acl binddn ACL_READ (ac_entry entryptr) [];;
    if acl =? NOTOK then Val (None, saclerror, st, size)
    else
      ' (code, saclerror, st) <- (if dosacl then check_ancestor_sacls fuel binddn [] ea sra_subset baseptr fts st authtype saclerror else Val (OK, saclerror, st));;
      if code =? NOTOK then Val (None, saclerror, st, size)
      else if size =? INT_MIN then UB
      else Val (Some ea, saclerror, st, size - 1).

(** The entries a search comes to, one after the other: those returned, and
    the counts. *)
Fixpoint filterentries (fuel : nat) (sra_filter : Filter X) (sra_subset : Z) (eas : list Z) (binddn : DN (value X)) (authtype baseptr : Z) (fts : list Ftype) (st : sacls) (size : Z) :
    cres (list Z * sacls * Z) :=
  match eas with
  | [] => Val ([], st, size)
  | ea :: rest =>
      ' (r, _, st, size) <- filterentry fuel sra_filter sra_subset ea binddn authtype 0 baseptr fts true st size;;
      ' (shown, st, size) <- filterentries fuel sra_filter sra_subset rest binddn authtype baseptr fts st size;;
      Val (match r with Some ea => ea :: shown | None => shown end, st, size)
  end.
End Entries.

(** * Lemmas *)

Section Limits.
Context `{Pf : Platform} `{Al : Allocator} {X : Type} `{Dir : Directory (value X)} `{Sx : Syntaxes X}.
Variables (binddn : DN (value X)) (authtype : Z) (fts : list Ftype) (flt : Filter X) (baseptr : Z) (base : entry (value X)).

(** What a search needs of the directory: names of known syntaxes, ACLs in
    order, and the entries from each one up to the base. *)
Record search_ok : Prop := SearchOk {
  so_mem : memory_ok;
  so_platform : platform_ok;
  so_signed : ct_signed t_char = true;
  so_bind : dn_ok binddn;
  so_types : Forall (fun ft => known (ft_type ft)) fts;
  so_distinct : NoDup (map ft_type fts);
  so_many : zlen fts < INT_MAX;
  so_sacls : forall a e, dit a = Some e -> Forall sacl_ok (e_sacl e);
  so_user : is_manager binddn = false;
  so_base : dit baseptr = Some base
}.

(** An entry the search may come to: [l] are the entries from it up to the
    base. *)
Definition reached (a : Z) (l : list Z) : Prop := path (e_parent base) a l /\ NoDup l /\
  exists e r, dit a = Some e /\ acl_ok (ac_entry e) /\ check_filter flt e binddn = Val r.

(** What an entry that is returned has passed. *)
Definition may_see (a : Z) : Prop := exists e, dit a = Some e /\ check_filter flt e binddn = Val OK /\ permitted binddn ACL_READ (ac_entry e) [] = true /\ base_lets binddn [] authtype fts e.

Definition has_sacl (a : Z) : Prop := exists e, dit a = Some e /\ e_sacl e <> [].

Hypothesis Ok : search_ok.
Abbreviation counts_ok := (counts_ok binddn [] SACL_SUBTREE authtype fts).

Lemma filterentry_ok a l fuel n st size : reached a l -> (length l <= fuel)%nat -> counts_ok n st -> 0 <= n -> n + zlen l <= INT_MAX -> INT_MIN < size ->
  exists r err st', filterentry fuel flt SRA_WHOLESUBTREE a binddn authtype 0 baseptr fts true st size = Val (r, err, st', match r with Some _ => size - 1 | None => size end) /\ counts_ok (n + zlen l) st' /\
    (forall c, count st c <= count st' c) /\ (r = None \/ r = Some a) /\
    (r = Some a -> may_see a /\ forall c, In c l -> has_sacl c -> count st c + 1 <= count st' c).
Proof.
  intros (P & Nd & e & r & E & Ac & F) Fu C N M Sz; unfold filterentry; rewrite E; cbn [deref cbind]; rewrite F; cbn [cbind].
  assert (Keep : counts_ok (n + zlen l) st) by (eapply counts_more; [exact C | pose proof (zlen_nonneg l); lia]).
  destruct (Z.eqb_spec r OK) as [->|]; cbn [negb].
  2: { exists None, 0, st; split; [reflexivity|]; split; [exact Keep|]; split; [intros; lia|]; split; [auto | discriminate]. }
  rewrite (check_acl_ok _ _ _ _ (so_bind Ok) Ac); destruct (permitted binddn ACL_READ (ac_entry e) []) eqn:Pm; cbn [cbind].
  2: { change (NOTOK =? NOTOK) with true; cbn iota; exists None, 0, st; split; [reflexivity|]; split; [exact Keep|]; split; [intros; lia|]; split; [auto | discriminate]. }
  change (OK =? NOTOK) with false; cbn iota.
  destruct (check_ancestor_ok binddn [] SACL_SUBTREE authtype fts (so_mem Ok) (so_platform Ok) (so_bind Ok) (so_types Ok) (so_distinct Ok) (so_many Ok) (so_sacls Ok) (so_signed Ok)
      a e baseptr base l fuel n st 0 eq_refl (so_user Ok) E (so_base Ok) P Nd Fu C N M) as (code & err & st' & -> & C' & [->| ->] & Ci & Mo & Up); cbn [cbind].
  - change (OK =? NOTOK) with false; cbn iota; destruct (Z.eqb_spec size INT_MIN); [lia|].
    exists (Some a), err, st'; split; [reflexivity|]; split; [exact C'|]; split; [exact Mo|]; split; [auto|]; intros _; split.
    + exists e; split; [exact E|]; split; [exact F|]; split; [exact Pm | apply Ci; reflexivity].
    + intros c I (ce & Ec & Ne); apply (Up eq_refl c ce I Ec Ne).
  - change (NOTOK =? NOTOK) with true; cbn iota; exists None, err, st'; split; [reflexivity|]; split; [exact C'|]; split; [exact Mo|]; split; [auto | discriminate].
Qed.

(** How many of the entries are under [c]. *)
Definition under (up : Z -> list Z) (c : Z) (l : list Z) : Z := zlen (filter (fun a => if in_dec Z.eq_dec c (up a) then true else false) l).

Fixpoint steps (up : Z -> list Z) (l : list Z) : Z := match l with [] => 0 | a :: l' => zlen (up a) + steps up l' end.

Lemma steps_nonneg up l : 0 <= steps up l.
Proof. induction l as [|a l IH]; cbn [steps]; [lia | pose proof (zlen_nonneg (up a)); lia]. Qed.

Lemma filterentries_ok up fuel eas : Forall (fun a => reached a (up a) /\ (length (up a) <= fuel)%nat) eas -> forall n st size,
  counts_ok n st -> 0 <= n -> n + steps up eas <= INT_MAX -> INT_MIN + zlen eas < size ->
  exists shown st', filterentries fuel flt SRA_WHOLESUBTREE eas binddn authtype baseptr fts st size = Val (shown, st', size - zlen shown) /\ counts_ok (n + steps up eas) st' /\
    incl shown eas /\ Forall may_see shown /\ forall c, has_sacl c -> count st c + under up c shown <= count st' c.
Proof.
  induction 1 as [|a eas (R & L) _ IH]; intros n st size C N M Sz; cbn [filterentries steps] in *.
  - exists [], st; change (zlen (@nil Z)) with 0; split; [rewrite Z.sub_0_r; reflexivity|]; split; [rewrite Z.add_0_r; exact C|]; split; [apply incl_refl|]; split; [constructor|].
    intros c _; change (under up c []) with 0; lia.
  - rewrite zlen_cons in Sz; pose proof (zlen_nonneg eas); pose proof (steps_nonneg up eas); pose proof (zlen_nonneg (up a)).
    destruct (filterentry_ok a (up a) fuel n st size R L C N ltac:(lia) ltac:(lia)) as (r & err & st1 & -> & C1 & Mo & Cr & Ar); cbn [cbind].
    destruct (IH (n + zlen (up a)) st1 (match r with Some _ => size - 1 | None => size end) C1 ltac:(lia) ltac:(lia)) as (shown & st' & -> & C' & In' & See & Un); [destruct r; lia|]; cbn [cbind].
    replace (n + (zlen (up a) + steps up eas)) with (n + zlen (up a) + steps up eas) by lia.
    destruct Cr as [->| ->]; [exists shown | exists (a :: shown)]; exists st'; (split; [do 2 f_equal; rewrite ?zlen_cons; lia|]); (split; [exact C'|]).
    + split; [apply incl_tl, In'|]; split; [exact See|]; intros c Hc; specialize (Un c Hc); specialize (Mo c); lia.
    + destruct (Ar eq_refl) as (Se & Up); split; [apply incl_cons; [left; reflexivity | apply incl_tl, In']|]; split; [constructor; assumption|].
      intros c Hc; specialize (Un c Hc); specialize (Mo c); unfold under in *; cbn [filter]; destruct (in_dec Z.eq_dec c (up a)) as [I|]; [rewrite zlen_cons; specialize (Up c I Hc)|]; lia.
Qed.
End Limits.

(** The limits of a list of types. [make_rc] does not clear [save] from one type
    to the next, so that the ACL of a type is the most specific of those that
    apply to it or to a type before it. *)
Section Types.
Context `{Pf : Platform} `{Al : Allocator} {X : Type} `{Dir : Directory (value X)} `{Sx : Syntaxes X}.

Lemma filterentries_limits binddn authtype fts flt baseptr base up fuel eas size : search_ok binddn fts baseptr base -> Forall (fun a => reached binddn flt base a (up a) /\ (length (up a) <= fuel)%nat) eas ->
  steps up eas <= INT_MAX -> INT_MIN + zlen eas < size ->
  exists shown st, filterentries fuel flt SRA_WHOLESUBTREE eas binddn authtype baseptr fts (Sacls [] Null) size = Val (shown, st, size - zlen shown) /\
    incl shown eas /\ Forall (may_see binddn authtype fts flt) shown /\
    forall c ce p ft q s, dit c = Some ce -> fts = p ++ ft :: q ->
      governs s (applicable [] SACL_SUBTREE (believed authtype ce binddn) (e_sacl ce) (p ++ [ft])) ->
      under up c shown <= Z.max 0 (sac_maxresults s) /\ (~ searchable s ft -> under up c shown = 0).
Proof.
  intros Ok R St Sz.
  destruct (filterentries_ok binddn authtype fts flt baseptr base Ok up fuel eas R 0 (Sacls [] Null) size (counts_none binddn [] SACL_SUBTREE authtype fts)) as (shown & st & -> & C & In' & See & Un); [lia | lia | exact Sz|].
  exists shown, st; split; [reflexivity|]; split; [exact In'|]; split; [exact See|]; intros c ce p ft q s E Ef G.
  assert (Hs : has_sacl c).
  { exists ce; split; [exact E|]; apply governs_in in G; unfold applicable in G; apply in_flat_map in G as (f & _ & G); apply filter_In in G as (G & _); intros Q; rewrite Q in G; destruct G. }
  destruct (counts_limit binddn [] SACL_SUBTREE authtype fts _ st c ce ft s C E (held_governs binddn [] SACL_SUBTREE authtype fts ce p ft q s Ef G)) as (Le & Se).
  specialize (Un c Hs); rewrite count_none in Un; assert (0 <= under up c shown) by apply zlen_nonneg.
  split; [lia|]; intros N; destruct (Z.eq_dec (under up c shown) 0) as [->|]; [reflexivity | destruct N; apply Se; lia].
Qed.
End Types.

(** * The properties *)


(** [check_acl] gives access exactly where an element of the list gives the
    right, or a greater one, to the user (everybody, the entry itself, a
    group, all below a name), or the user is a manager. Without a name only
    everybody is asked for. *)
Theorem check_acl_decides : forall `{Al : Allocator} V `{Dir : Directory V} who mode acl node, dn_ok who -> acl_ok acl ->
  exists r, check_acl who mode acl node = Val r /\ (r = OK \/ r = NOTOK) /\
    (r = OK <->
      (exists i, In i acl /\ mode <= acl_categories i /\
        (acl_selector_type i = ACL_OTHER \/
         who <> [] /\ (acl_selector_type i = ACL_ENTRY /\ dn_same s_compare who node \/
           acl_selector_type i = ACL_PREFIX /\ (exists d who1 who2, In d (acl_name i) /\ who = who1 ++ who2 /\ dn_same s_compare d who1) \/
           acl_selector_type i = ACL_GROUP /\ (exists d, In d (acl_name i) /\ dn_same s_compare who d)))) \/
      (exists d, In d super_user /\ dn_same s_compare who d)).
Proof.
  intros Al V Dir who mode acl node W A; rewrite check_acl_ok by assumption; eexists; split; [reflexivity|].
  assert (G : permitted who mode acl node = true <-> (exists i, In i acl /\ acl_allows who mode node i = true) \/ (exists d, In d super_user /\ dn_eqb s_compare who d = true))
    by (unfold permitted, is_manager; rewrite orb_true_iff, !existsb_exists; reflexivity).
  split; [destruct (permitted who mode acl node); auto|].
  transitivity (permitted who mode acl node = true); [destruct (permitted who mode acl node); split; congruence || discriminate|]; rewrite G.
  setoid_rewrite dn_eqb_same; apply or_iff_compat_r; split; intros (i & I & H); exists i; (split; [exact I|]).
  - unfold acl_allows in H; apply andb_true_iff in H as (M & H); apply Z.leb_le in M; split; [exact M|]; unfold acl_covers in H.
    destruct (Z.eqb_spec (acl_selector_type i) ACL_OTHER); [left; assumption | right].
    destruct who as [|a who]; [discriminate|]; split; [discriminate|].
    destruct (Z.eqb_spec (acl_selector_type i) ACL_ENTRY); [left; split; [assumption | apply dn_eqb_same, H]|].
    destruct (Z.eqb_spec (acl_selector_type i) ACL_PREFIX).
    + right; left; split; [assumption|]; apply existsb_exists in H as (d & Id & H); apply dn_prefixb_same in H as (w1 & w2 & E & S); exists d, w1, w2; auto.
    + destruct (Z.eqb_spec (acl_selector_type i) ACL_GROUP); [|discriminate].
      right; right; split; [assumption|]; apply existsb_exists in H as (d & Id & H); exists d; split; [exact Id | apply dn_eqb_same, H].
  - destruct H as (M & H); unfold acl_allows; rewrite (proj2 (Z.leb_le _ _) M); unfold acl_covers; cbn [andb].
    destruct H as [->|(Ne & H)]; [reflexivity|]; destruct who as [|a who]; [contradiction|].
    destruct H as [(-> & H)|[(-> & d & w1 & w2 & Id & E & S)|(-> & d & Id & S)]]; cbn [Z.eqb ACL_OTHER ACL_ENTRY ACL_PREFIX ACL_GROUP Pos.eqb].
    + apply dn_eqb_same, H.
    + apply existsb_exists; exists d; split; [exact Id | apply dn_prefixb_same; eauto].
    + apply existsb_exists; exists d; split; [exact Id | apply dn_eqb_same, S].
Qed.


(** C11. Where each item of a filter holds, fails or is undefined, the filter has
    the value that three-valued logic gives it. *)
Theorem filter_kleene : forall `{Pf : Platform} `{Al : Allocator} X `{Dir : Directory (value X)} `{Sx : Syntaxes X} v f e who,
  filter_all (fun fi => check_filteritem fi e who = Val (tv_code (v fi))) f -> check_filter f e who = Val (tv_code (filter_value v f)).
Proof.
  intros Pf Al X Dir Sx v f e who; induction f as [fi|op l IH] using filter_ind; intros A; [exact A|].
  apply filter_all_op in A as (O & A); assert (E : Forall (fun f => check_filter f e who = Val (tv_code (filter_value v f))) l) by (rewrite Forall_forall in *; auto).
  cbn [check_filter filter_value]; destruct O as [->|[->|(-> & Ne)]].
  - refine (eq_trans (check_and _ v l E Holds ltac:(discriminate)) _); change (FILTER_AND =? FILTER_AND) with true; cbn iota; destruct (fold_right tv_and Holds (map (filter_value v) l)); reflexivity.
  - change (FILTER_OR =? FILTER_AND) with false; change (FILTER_OR =? FILTER_OR) with true; cbn [orb]; cbn iota.
    refine (eq_trans (check_or _ v l E Fails ltac:(discriminate)) _); destruct (fold_right tv_or Fails (map (filter_value v) l)); reflexivity.
  - change (FILTER_NOT =? FILTER_AND) with false; change (FILTER_NOT =? FILTER_OR) with false; change (FILTER_NOT =? FILTER_NOT) with true; cbn [orb]; cbn iota.
    destruct l as [|f l]; [contradiction|]; apply Forall_inv in E; rewrite E; cbn [cbind]; destruct (filter_value v f); reflexivity.
Qed.

(** C10. A filter tells a user nothing of values the user may not compare: on two
    entries that differ only in the values of attributes whose ACL does not
    let the user compare, every filter does the same. *)
Theorem filter_blind : forall `{Pf : Platform} `{Al : Allocator} X `{Dir : Directory (value X)} `{Sx : Syntaxes X} who f e e',
  entry_alike who e e' -> check_filter f e who = check_filter f e' who.
Proof.
  intros Pf Al X Dir Sx who f e e' A; induction f as [fi|op l IH] using filter_ind; cbn [check_filter]; [apply check_filteritem_alike, A|].
  destruct ((op =? FILTER_AND) || (op =? FILTER_OR)).
  - generalize (if op =? FILTER_OR then NOTOK else OK); induction IH as [|f l Ef _ IHl]; intros r; cbn [check_filterop]; [reflexivity|].
    rewrite Ef; destruct (check_filter f e' who) as [c|]; cbn [cbind]; [|reflexivity]; repeat case_goal; try reflexivity; apply IHl.
  - destruct (op =? FILTER_NOT); [|reflexivity]; destruct l as [|f l]; [reflexivity|]; rewrite (Forall_inv IH); reflexivity.
Qed.

(** * A directory *)

Definition ex_cmp (a b : value unit) : Z := match a, b with Str s, Str t => memcmp (s ++ [0]) (t ++ [0]) | _, _ => 2 end.
Definition ex_oid_of (n : Z) : OIDentifier := mkOID 4 [2; 5; 4; n].
Definition ex_cn : Z := 10.
Definition ex_phone : Z := 20.
Definition ex_val (s : list Z) : attrVal (value unit) := AttrVal 5 (Str s).
Definition ex_rdn (s : list Z) : RDN (value unit) := [RdnComp ex_cn (ex_val s)].

(** Anybody may read a common name; a telephone number is compared and read
    only by those below the name 65. *)
Definition ex_open : list (acl_info (value unit)) := [AclInfo ACL_READ ACL_OTHER []].
Definition ex_closed : list (acl_info (value unit)) := [AclInfo ACL_READ ACL_PREFIX [[ex_rdn [65]]]].
Definition ex_person (name phone : list Z) : entry (value unit) :=
  Entry [AttrComp ex_cn [ex_val name] ex_open; AttrComp ex_phone [ex_val phone] ex_closed] None ex_open ex_open [] None 1.

(** An organisation that allows one result of a search of its subtree, and
    none by telephone number, except to those below the name 65. *)
Definition ex_limit : saclinfo (value unit) := SaclInfo ACL_OTHER [] SACL_SUBTREE SACL_SEARCHABLE [] 1 0 0.
Definition ex_forbid : saclinfo (value unit) := SaclInfo ACL_OTHER [] (SACL_SUBTREE + SACL_BASEOBJECT) SACL_UNSEARCHABLE [ex_oid_of 20] 0 0 0.
Definition ex_trust : saclinfo (value unit) := SaclInfo ACL_PREFIX [[ex_rdn [65]]] (SACL_SUBTREE + SACL_BASEOBJECT) SACL_SEARCHABLE [] 2 0 0.
Definition ex_org : entry (value unit) := Entry [] None ex_open ex_open [ex_limit; ex_forbid; ex_trust] None 100.

Definition ex_dir : Directory (value unit) := {|
  s_compare s := if s =? 5 then Some ex_cmp else None;
  file_cmp := ex_cmp;
  attr_table t := if t =? ex_cn then Some (OidTableAttr (Some (ex_oid_of 3)) None 5) else if t =? ex_phone then Some (OidTableAttr (Some (ex_oid_of 20)) None 5) else None;
  dit a := if a =? 1 then Some ex_org else if a =? 2 then Some (ex_person [97] [49]) else if a =? 3 then Some (ex_person [98] [50]) else None;
  database_root := 100;
  super_user := [[ex_rdn [90]]] |}.
Definition ex_syntaxes : Syntaxes unit := {| num_syntax := 10; s_approx _ := None; exct := 1; tel_sntx := 9; acl_sntx := 20; schema_sntx := 21; edbinfo_sntx := 22 |}.

Section Witnesses.
#[local] Existing Instances linux plenty ex_dir ex_syntaxes.

Definition ex_user : DN (value unit) := [ex_rdn [66]].
Definition ex_trusted : DN (value unit) := [ex_rdn [65]; ex_rdn [66]].
Definition ex_up (a : Z) : list Z := [a; 1].
Definition ex_fts : list Ftype := [FtypeOf ex_cn (-1) 0 []].
Definition ex_present : Filter unit := FItem (FI_present ex_cn).
Definition ex_phone_is (s : list Z) : Filter unit := FItem (FI_ava FILTERITEM_EQUALITY ex_phone (Str s) (CmpFn ex_cmp)).

Lemma ex_sacl_ok s : In s [ex_limit; ex_forbid; ex_trust] -> sacl_ok s.
Proof.
  intros [<-|[<-|[<-|[]]]]; (split; [vm_compute; split; congruence|]); (split; [repeat constructor; vm_compute; congruence|]); (split; [repeat constructor; vm_compute; congruence | vm_compute; split; congruence]).
Qed.

Lemma ex_search_ok : search_ok ex_user ex_fts 1 ex_org.
Proof.
  constructor; try reflexivity.
  - intros n; reflexivity.
  - exact linux_ok.
  - repeat constructor; vm_compute; congruence.
  - repeat constructor; vm_compute; congruence.
  - constructor; [intros [] | constructor].
  - cbn [dit ex_dir]; intros a e; destruct (a =? 1); [intros [= <-]; apply Forall_forall, ex_sacl_ok|].
    destruct (a =? 2); [intros [= <-]; constructor|]; destruct (a =? 3); [intros [= <-]; constructor | discriminate].
Qed.

Lemma ex_reached a : a = 2 \/ a = 3 -> reached ex_user ex_present ex_org a (ex_up a).
Proof.
  intros A; split; [|split].
  - destruct A as [->| ->]; (eapply path_up; [discriminate | discriminate | reflexivity|]); (eapply path_up; [discriminate | discriminate | reflexivity|]); apply path_end; left; reflexivity.
  - destruct A as [->| ->]; repeat constructor; cbn; lia.
  - destruct A as [->| ->]; eexists _, _; (split; [reflexivity|]); (split; [repeat constructor | vm_compute; reflexivity]).
Qed.


(** The second entry is over the limit. *)
Example search_run : cmap (fun '(shown, _, size) => (shown, size)) (filterentries 2 ex_present SRA_WHOLESUBTREE [2; 3] ex_user 0 1 ex_fts (Sacls [] Null) 50) = Val ([2], 49).
Proof. vm_compute; reflexivity. Qed.
Example search_trusted_run : cmap (fun '(shown, _, size) => (shown, size)) (filterentries 2 ex_present SRA_WHOLESUBTREE [2; 3] ex_trusted 0 1 ex_fts (Sacls [] Null) 50) = Val ([2; 3], 48).
Proof. vm_compute; reflexivity. Qed.

Lemma check_acl_decides_witness : exists r, check_acl ex_trusted ACL_COMPARE ex_closed [] = Val r /\ r = OK.
Proof.
  destruct (check_acl_decides (value unit) (Dir := ex_dir) ex_trusted ACL_COMPARE ex_closed []) as (r & E & _ & I).
  - repeat constructor; vm_compute; congruence.
  - repeat constructor; vm_compute; congruence.
  - exists r; split; [exact E|]; apply I; left; exists (AclInfo ACL_READ ACL_PREFIX [[ex_rdn [65]]]).
    split; [left; reflexivity|]; split; [vm_compute; discriminate|]; right; split; [discriminate|]; right; left; split; [reflexivity|].
    exists [ex_rdn [65]], [ex_rdn [65]], [ex_rdn [66]]; split; [left; reflexivity|]; split; [reflexivity|].
    repeat constructor; exists ex_cmp; split; reflexivity.
Defined.


Definition ex_truth (fi : filter_item unit) : truth := match fi with FI_present t => if t =? ex_cn then Holds else Fails | _ => Undefined end.

(** Whether the number is 1 may not be compared: the filter is undefined, and
    its negation, too. *)
Lemma filter_kleene_witness : check_filter (FOp FILTER_AND [ex_present; FOp FILTER_NOT [ex_phone_is [49]]]) (ex_person [97] [50]) ex_user = Val MAYBE.
Proof.
  apply (filter_kleene unit (Dir := ex_dir) ex_truth (FOp FILTER_AND [ex_present; FOp FILTER_NOT [ex_phone_is [49]]])).
  split; [left; reflexivity|]; split; [vm_compute; reflexivity|]; split; [|exact I].
  split; [right; right; split; [reflexivity | discriminate]|]; split; [vm_compute; reflexivity | exact I].
Defined.

Lemma filter_blind_witness : check_filter (ex_phone_is [49]) (ex_person [97] [49]) ex_user = check_filter (ex_phone_is [49]) (ex_person [97] [50]) ex_user.
Proof.
  apply (filter_blind unit (Dir := ex_dir)); split; [|exact I].
  constructor; [split; [reflexivity|]; split; reflexivity|]; constructor; [split; [reflexivity|]; split; [reflexivity | vm_compute; discriminate] | constructor].
Defined.

(** ** Where the code does not do what it means to *)

(** The types of a filter: of the number and the name only the name is kept,
    so that the ACL that forbids to search by number is not seen. *)
Definition ex_both : Filter unit := FOp FILTER_AND [FItem (FI_ava FILTERITEM_EQUALITY ex_phone (Str [49]) NoFn); FItem (FI_present ex_cn)].
Lemma ftype_lost : cmap (fun '(i, _, _, l) => (i, map ft_type l)) (check_filter_presrch ex_both []) = Val (OK, [ex_cn]).
Proof. vm_compute; reflexivity. Qed.

(** In reverse the number is kept. *)
Example ftype_kept : cmap (fun '(i, _, _, l) => (i, map ft_type l))
  (check_filter_presrch (FOp FILTER_AND [FItem (FI_present ex_cn); FItem (FI_ava FILTERITEM_EQUALITY ex_phone (Str [49]) NoFn)]) []) = Val (OK, [ex_phone]).
Proof. vm_compute; reflexivity. Qed.

(** An item of presence with an unknown type (the null pointer) passes the
    first check; an ACL that lists types then reads its row. *)
Lemma presence_of_unknown : exists l, check_filter_presrch (FItem (FI_present 0)) [] = Val (OK, NoError, FItem (FI_present 0), l) /\
  check_base_sacl ex_user [] ex_org l 0 = UB.
Proof. eexists; split; vm_compute; reflexivity. Qed.

(** A policy that asks for strong authentication (2): [check_base_sacl]
    takes the level of the user modulo 3, [check_one_sacl] does not, so that a
    user with a protected password (4, a special case of simple, 1) is
    believed by the second. *)
Definition ex_strict : entry (value unit) := Entry [] None ex_open ex_open [ex_limit; ex_trust] (Some (AuthPolicy 2 2 2)) 100.
Lemma authtype_not_reduced : believed (Z.rem 4 3) ex_strict ex_trusted = [] /\ believed 4 ex_strict ex_trusted = ex_trusted.
Proof. split; reflexivity. Qed.

(** Presence is not subject to the ACL of the attribute. *)
Lemma presence_not_checked : check_filter (FItem (FI_present ex_phone)) (ex_person [97] [50]) ex_user = Val OK.
Proof. vm_compute; reflexivity. Qed.

(** A count is not taken back where an ancestor further up refuses the
    result. *)
Definition ex_up_dir : Directory (value unit) := {|
  s_compare := s_compare; file_cmp := file_cmp; attr_table := attr_table;
  dit a := if a =? 1 then Some (Entry [] None ex_open ex_open [SaclInfo ACL_OTHER [] SACL_SUBTREE SACL_SEARCHABLE [] 0 0 0] None 100)
           else if a =? 2 then Some (Entry [] None ex_open ex_open [ex_limit] None 1) else None;
  database_root := 100; super_user := [] |}.
Lemma count_not_undone : cmap (fun '(code, _, st) => (code, map rc_count (rcs st))) (check_ancestor_sacls (H1 := ex_up_dir) 3 ex_user [] 2 SRA_WHOLESUBTREE 1 ex_fts (Sacls [] Null) 0 0) = Val (NOTOK, [1; 0]).
Proof. vm_compute; reflexivity. Qed.
End Witnesses.
